(* ===== verification/_CoqProject ===== *)
-Q . S2P
Prelude.v
WorkTypes.v
WorkSetters.v
Text.v
Ordered.v
Externals.v
Principals.v
Organization.v
OrganizationFacts.v
OrganizationTheorems.v
Context.v
WorkflowReads.v
Evidence.v
Agent.v
Integrity.v
Files.v
AgentRun.v
Commands.v
Scenario.v
WorkflowFacts.v
Machine.v
Runs.v
WorkflowTheorems.v
AgentTheorems.v
AccessTheorems.v
Witnesses.v
DocumentValues.v
AccessPolicy.v
Lifecycle.v
LifecycleTheorems.v
Manifest.v
Revision.v
DocumentScenario.v
Inspection.v
Diff.v
Json.v
JsonTheorems.v
AuditKinds.v
AuditCatalog.v
AuditEnvelope.v
AuditLegacy.v
AuditChain.v
AuditExport.v
AuditVerify.v
AuditTheorems.v
AuditCatalogTheorems.v
AuditPort.v
RelayBreaker.v
AuditScenario.v
Base64.v
LocalRegistry.v
LocalBroker.v
LocalFiles.v
LocalRuns.v
LocalWire.v
LocalJournal.v
LocalEffects.v
LocalTheorems.v
LocalPaging.v
LocalScenario.v
SearchValues.v
SearchResolution.v
SearchEvidence.v
SearchResolutionTheorems.v
SearchGraph.v
SearchGraphTheorems.v
SearchGraphBuild.v
SearchUnits.v
SearchUnitProfiles.v
SearchUnitCodec.v
SearchVector.v
SearchExtraction.v
SearchProjection.v
SearchStore.v
SearchStoreTheorems.v
SearchScenario.v
Outbox.v
OutboxStore.v
OutboxRunner.v
