(* ===== verification/Prelude.v ===== *)
(** * Knowledge Platform: a verification development of its core crates

    The platform is a set of Rust crates (src/crates): a document authority, a search service, an
    audit trail, a Work area, where synthetic principals of an organization carry work items
    through a two-step workflow, and a broker for folders of the local device.  This development
    models the crates that hold the rules: work-domain, document-domain, audit-core,
    document-semantic-inspection-core, document-diff-core, local-workspace-runtime, search-core,
    search-graph-memory, search-projection-memory, the projection compiler and publication guard
    of search-application, search-extraction-core, the circuit breaker of audit-relay, and
    outbox-delivery.  The other crates (HTTP transport, PostgreSQL, servers, sandboxed workers)
    load values of these types, call their functions and store the results.

    ** The program

    work-domain has two aggregates.  An [OrganizationPolicy] (organization.rs) holds units,
    roles, formal role assignments and delegations; [Policy.responsibilities] says what a
    principal may act under at an instant, and the four policy commands change the records.  A
    [Workflow] (lib.rs) holds a source work item, an optional target work item, the archived
    attempts, the drafts, the submissions (handoff snapshots), the return instructions, the
    responsibility periods, the evidence, findings and decisions (evidence.rs), the agent
    executions and their candidates (agent.rs, agent_result.rs) and the history; drafts may be
    files (files.rs) and the static configuration of the contexts is in context.rs.  A workflow
    reads the policy through the authority attached to it ([wf_authority]): a policy, an
    evaluation instant, the actor's acknowledgements and the verified file generations.  Both
    aggregates change by commands with an expected revision, applied to a copy that replaces the
    aggregate only when every check has passed.

    document-domain has documents with numbered versions (document.rs), the identity of a
    version's content (versioning.rs), document revisions with metadata snapshots (revision.rs),
    access policies along the folder path (access_policy.rs) and validated values (file.rs,
    folder.rs, principal.rs and others).

    audit-core decides what enters the audit trail and what can be concluded from an export of
    it.  A catalog (catalog.rs, kinds.rs) registers the event types with their fields, bindings
    and subjects; an envelope (envelope.rs) is admitted from bounded JSON (json.rs) against the
    catalog, on the relay path or on the Store's own; legacy.rs projects stored document events
    to envelopes; rows are linked by a hash chain (chain.rs); export.rs verifies an export line
    by line from an anchor, settles the evidence for expired bodies and assesses the report
    against out-of-band checkpoints and recovery records.  port.rs decodes what the Store answers;
    the relay (audit-relay) hands events over to it behind a circuit breaker (breaker.rs), which
    opens on outages, lets a single claim probe, and refuses an epoch whose receipts were lost.

    outbox-delivery hands committed events to their handlers.  A table holds the events, their
    attempts and the lease under which a worker has one (postgres.rs); a worker's cycle checks the
    policy, lets a reaper end the exhausted events, claims some behind an admission permit and
    runs one task per claim (runner.rs), which fences itself before it calls the handler and again
    before it settles; a retry waits by a deterministic schedule (policy.rs), and a validated
    trace context travels with the event (observe.rs).

    document-semantic-inspection-core and document-diff-core are what the host knows of the
    sandboxed workers: the shape and validation of their answers, the normal form of an answer,
    the rule for moving authority between formats, and the alignment of the items of two versions.

    local-workspace-runtime is a broker between a desktop shell and the file system.  It keeps a
    registry of workspaces, their folder bindings and the operations already carried out, in
    memory and on disk; a save may fail half way and the process may die between any two calls.
    Contents are read as snapshots behind short-lived handles, files are created exclusively.

    search-core holds the rules of discovery: typed facts and the four-valued predicates over
    them (predicate.rs, fact.rs), which assertion has authority (authority.rs), whether a
    candidate qualifies (applicability.rs) and whether the evidence of an answer suffices
    (evidence.rs), observations and session bindings, typed n-ary relations and traversal plans
    (relation.rs, graph.rs), and knowledge units, the pieces of text an index is made of, with
    their locators, extraction profiles and identifiers (knowledge_unit).  search-graph-memory
    builds immutable generations of relations and answers traversal plans from them: a relation
    is shown only while the source allows every one of its participants.

    search-extraction-core is what the host and an extraction worker share: the limits of a
    profile and the meter that charges them (budget.rs), the bounded messages (protocol.rs) and
    the checks of a request and of a report (validation.rs), which the host makes before it
    believes a sandboxed process.

    search-application compiles the resources of a source into projections (projection.rs) and
    states, in its publication guard, how generations of projections are begun, validated,
    published, retired or failed.  search-projection-memory is the store that holds them: a
    builder stages resources and a registry of concepts, alone or on top of a published
    generation, validates the result against the manifest's counts and digest and publishes it,
    if it wants only against the pointer it observed; readers pin a published generation.

    ** The files and what they model

    - Prelude: [Result] with the notations of the [?] operator, [Option] and [Vec] operations,
      checked machine integers, the tactics [inv_ok] and [simp_bool] that invert a successful
      run of fallible code, shared lemmas.  Ordered: derived orders ([Ord], with [OrdLaws]),
      stable sorting, [BTreeMap] as a sorted association list.
    - WorkTypes, WorkSetters: the records, enumerations, identifiers and limits of work-domain,
      and the assignment of one field.
    - Text: strings as UTF-8 bytes, and the text, name, media type and digest checks.
    - Externals: the third-party functions of work-domain (crates time and uuid) as a class of
      operations, [Externals], with the law that theorems rely on, [ExternalsLaws].
    - Principals: [VerifiedActor] and its spellings (lib.rs, organization.rs).
    - Organization (Module Policy): [OrganizationPolicy], reads and commands (organization.rs).
    - Context: fixtures, labels, view profiles (context.rs).
    - WorkflowReads: eligibility, visibility and the read models (lib.rs, context.rs).
    - Evidence, Agent, AgentRun, Files: the components of evidence.rs, agent.rs with
      agent_result.rs, and files.rs.
    - Integrity: [Workflow::validate_integrity] and [from_fixture].
    - Commands: [authorize_command], the arms of [apply_validated], [apply], [authorize_recovery].
    - OrganizationFacts, WorkflowFacts: integrity as a proposition, what each arm
      does to the aggregate, what a committed command has passed.
    - Machine: the abstract two-step machine.  Runs: sequences of mutations.
    - OrganizationTheorems, WorkflowTheorems, AgentTheorems, AccessTheorems: the properties.
    - Scenario, Witnesses: a concrete clock, concrete runs, and every theorem with hypotheses
      applied to them.
    - DocumentValues: the error type, typed identifiers and validated values of document-domain;
      the classes [Json] (with [JsonLaws]) and [Unicode] for the crates serde_json and
      unicode-normalization.  AccessPolicy: access_policy.rs.  Lifecycle: document.rs, with
      LifecycleTheorems on runs of its operations.  Manifest: versioning.rs, over the class
      [Digest] for the crate sha2, with its theorems.  Revision: revision.rs.
      DocumentScenario: concrete instances, a concrete run and the witnesses.
    - Inspection: document-semantic-inspection-core.  Diff: document-diff-core.
    - Json (with codes.rs), AuditKinds, AuditCatalog, AuditEnvelope, AuditLegacy, AuditChain: the
      files of audit-core of these names.  AuditExport: the lines, checkpoints and expiry ledger
      of export.rs; AuditVerify: [verify] and [assess_recovery].  JsonTheorems,
      AuditCatalogTheorems, AuditTheorems (the chain binds a history, authentic exports): the
      properties.  AuditPort: the rows, receipts and codes of port.rs.  RelayBreaker: breaker.rs
      of audit-relay, its admission as an interleaving of atomic actions.  AuditScenario: a
      concrete catalog, envelope, export and admission, and the witnesses.
    - Outbox: model.rs, policy.rs and the trace context of observe.rs (outbox-delivery).
      OutboxStore: the table and its transactions, runs of any number of workers.  OutboxRunner:
      tasks, cycles and runs of the runner, its theorems, and the witnesses of all three
      (Module OutboxToy).
    - Base64 (with error.rs), LocalRegistry: error.rs, base64.rs, locator.rs and registry.rs.
      LocalBroker: the state of the broker, the [World] of answers of the operating system, the
      operations on workspaces and bindings.  LocalFiles: listing, snapshots, creation of files.
      LocalRuns: opening, operations and restarts in sequence.  LocalWire: wire.rs.
      LocalJournal: the abstract journal (what a commit may change, and what a save, a failed
      save or a restart does to memory and disk); LocalEffects: every operation is a sequence of
      journal steps.  LocalTheorems, LocalPaging: the properties.
      LocalScenario: a concrete device, a run with a failed save and a restart, the witnesses.
    - SearchValues: predicate.rs and fact.rs of search-core, with their properties.
      SearchResolution: assertion.rs, authority.rs, discovery.rs, applicability.rs, contrast.rs;
      SearchEvidence: evidence.rs, identity.rs, observation.rs, temporal.rs, materialization.rs,
      binding.rs; SearchResolutionTheorems: the properties of both.  SearchGraph: source.rs,
      relation.rs, graph.rs, projection.rs and search-graph-memory; SearchGraphTheorems: the
      reference traversal and that a run computes it; SearchGraphBuild: generations, totality
      and budgets.  SearchUnits: framing, locators and unit identifiers; SearchUnitProfiles:
      profiles, archive plans and the validation of units; SearchUnitCodec: the byte formats.
      SearchVector: vector.rs, the identity of an embedding model, bound embeddings, and the
      manifest of a vector index with its segments.
      SearchExtraction: coverage.rs, budget.rs, protocol.rs and validation.rs of
      search-extraction-core, with the lemmas that pair its readers with its writers.
      SearchProjection: resource.rs, profile.rs and intent.rs of search-core and projection.rs of
      search-application.  SearchStore: store.rs and retrieval.rs of search-projection-memory;
      SearchStoreTheorems: the concept search and the life of a store.
      SearchScenario: concrete generations, stores, locators and units, and the witnesses.

    A method [&self] is a function of the aggregate; a method [&mut self] returns the new
    aggregate with its result, also when it fails: [commit] is the pattern of a method that
    works on a copy or checks everything before it assigns.  [Err] carries the source's error.
    The broker's methods run under a lock: they are computations of a state and error monad.

    ** What the theorems show

    - Authority (C12, C15, C26): nobody extends their own authority, no
      responsibility means no access, revocation takes work away; beside them, delegation only
      narrows ([delegation_narrows]) and assignments are exclusive.
    - Transactions (C2, C3): commands are mediated and all or nothing;
      beside them, stale commands are rejected ([stale_command_rejected]) and the closing check
      of the policy never turns an accepted command down ([policy_apply_commits_validated]).
    - The workflow (C5, C16, C17): refinement of the two-step machine, one
      open step, exact submissions.  The record (C25): nothing recorded is rewritten
      by any sequence of mutations.
    - Agents (C40): failure on every branch; active executions are current
      ([active_executions_are_current]), dispatch and result stay within the request
      ([start_dispatches_requested_scope], [finished_result_is_sound]).
    - Documents (C13, C35, C14, C36): the current version is a
      published one and published versions do not change, the content identity separates
      manifests, the access decision is the one of the nearest explicit policy; accepted paths
      stay below their root ([accepted_paths_confined]) and every reachable state is accepted
      back from storage ([reachable_store_restores]).
    - The audit trail (C1, C21): an export assessed as authentic is the Store's
      history, unless two byte strings hashed for them collide; what the verdict rests on; beside them, an
      expired body reported as verified is attested by the export itself
      ([verified_expiry_attested]).
    - The relay (C19, C31): a lost receipt keeps its epoch refused whatever happens
      afterwards; a permit is given only on an answer of the Store that confirms the probed
      receipt; beside them, an open breaker gives none ([no_claim_while_open]) and a probing one
      gives a single one ([one_half_open_claim]).
    - Delivery (C7, C8, C9, C10, C20, C29, C39): a
      handler runs only behind a complete fence and a claim is settled once, by what the handler
      decided; a superseded lease is powerless; what a cycle and a run call, in which order, what
      is spawned, how a run is paced and what they count; a settled event never changes; a due event
      goes on unless an old exhausted row is reported; the retry schedule.
      Beside them: tasks given up at the drain deadline have settled nothing unless an error says
      so ([abandoned_cycle_certain]), attempts are numbered within their limit
      ([claims_numbered]), which events a claim takes ([claim_exact]), the constraints of the
      table ([outbox_invariant]), the trace context made for a handler is valid
      ([span_context_valid]), an undisturbed claim settles ([undisturbed_claim_settles]).
    - What enters the trail (C32, C28): a loaded catalog is well formed, a relayed
      envelope is one the catalog registers, with the members that it requires; beside them, the
      reader of JSON admits exactly bounded documents without repeated names ([parse_unique_spec]), the canonical form
      ([canonicalize_canonical]), the measured length and the termination of its loop
      ([jsonb_text_len_exact]).
    - Comparison and inspection: alignment accounts for every item exactly once
      ([align_items_partition]); authority moves between formats exactly when no capability is
      lost.
    - The local broker (C4, C22, C34): one creation never yields two
      workspaces, whatever fails and restarts; contents are disclosed only from an unexpired
      handle, under an attached folder and a current context; page after page lists every entry once; beside them, its
      memory is bounded ([broker_bounds]), every byte string has one accepted text
      ([decode_iff_encode]) and the wire adds nothing to the operations
      ([dispatch_refines_operations]).
    - Search (C11): a traversal that succeeds returns exactly the paths visible to the
      requester; it stays within its budgets ([retrieve_within_budget]) and reads a generation
      that is built whole or not at all ([build_generation_exact]).
    - Generations of projections (C6, C18): the store implements the
      publication guard, publication against an observed pointer succeeds once; beside them, what
      was published is never changed ([published_immutable]), the concept search ends and decides
      reachability ([concept_search_exact]), a digest depends on contents only
      ([generation_digest_contents]), a remote projection holds nothing its source did not prove
      ([remote_projection_bounded]), the generation a pointer
      names passed validation ([pinned_generation_validated]) and what the compiler makes of an
      input can be staged ([compiled_projection_stages]).
    - Search decisions (C24, C30): when evidence suffices and when a candidate
      qualifies, as conditions on claims and rules.  Beside them: the comparison of decimals is
      exact ([compare_decimal_exact]), the semantics of predicates, learning a fact never flips a
      decision, authority is resolved soundly, bindings are never replaced, traversals never
      panic.
    - Extraction (C37, C23, C27): the messages between the host and the worker
      are canonical and lose nothing, over the canonical locators and profiles of search-core
      ([locator_codec]); what an accepted report guarantees; the meter accounts exactly and stays
      within its limits.  A unit identifier determines its unit, unless the two byte strings
      hashed for them collide ([unit_id_identifies]).
    - Vector indexes (C33, C38): an accepted manifest has an entry for exactly each
      unit that may be indexed, and its digest binds its units and entries, unless
      byte strings that the validations hash collide;
      beside them, staging and checking agree ([stage_iff_validates]), an embedding passes every
      later check of its binding ([bound_embedding_validates]), the identity of a model binds its
      specification ([model_id_identifies]) and the digest of a vector its values
      ([vector_digest_identifies]).

    Many smaller theorems are beside these, in the files of their components: submissions are
    numbered, quotas and counters, lookups, spellings of a principal, metadata snapshots, answers
    of the comparison worker and others.

    ** Assumptions, widths and bounds

    A [Uuid] is a number; an instant is a number of nanoseconds, in the outbox table of
    microseconds; a [Duration] of outbox-delivery is a number of nanoseconds.  [Uuid::now_v7] is
    the argument [fresh] (or [new_id]): [fresh i] is what its [i]-th call in the operation
    returns, and no freshness is assumed unless a theorem says so
    ([policy_apply_commits_validated] does; a step that adds a document version takes an
    identifier the document does not have).  RFC 3339 parsing and formatting, Unicode
    normalization and SHA-256 are uninterpreted; the laws assumed are that a formatted instant
    parses back, that a JSON value built by a constructor is seen as such and that a parsed UUID
    has 128 bits, and the scenarios give functions that satisfy them.  Theorems about digests end,
    where the code relies on there being no collision, in two different byte strings of one digest
    among those that the code hashes ([collision], over the finite lists of these strings).  Floating-point
    numbers of JSON are the class [Floats]; the components of an embedding are the floats of
    SpecFloat, 24 bits of precision in, 53 bits in the norm.  What serde derives is a parameter: a
    deserializer presents a text as a sequence of visits, a converter gives a value.  Every answer
    of the operating system to the broker is arbitrary, at every call anew; reading back a saved
    registry gives the registry that was written, and random identifiers may repeat.  The
    statements of the outbox each read their own clock, and lease tokens are arbitrary, where a
    theorem does not say that a token is not drawn again.  A task, a cycle or a run of the runner
    reads a script: what its surroundings do and answer before each of its atomic actions; every
    theorem is about every script.

    An [i64] or [u32] is an integer with the source's [checked_add]; lengths and counts ([usize])
    are unbounded, which the quotas justify; saturating operations are written out.  The
    arithmetic of instants is unbounded: the year range of the time crate is not modelled.  Most
    definitions are structurally recursive or folds.  Loops with fuel get one turn per step they
    can take: the search over concepts one per edge end ([concept_search_exact]), the measuring of
    JSON one per node ([jsonb_text_len_exact] proves that this is enough), the work list over a
    predicate one per node ([insufficient_loop_find]), the template parser one per byte, the
    eviction of operations and the dropping of selections one per element, the copy of a file one
    per byte (each turn reads at least one). The loop of a delivery has one turn per entry of its
    script ([deliver_loop_fuel]). [OffsetDateTime::now_utc], read when no evaluation instant is
    attached, is a field of [Externals].

    ** What is not modelled

    The JSON encodings (serde), apart from the principal spellings, the metadata snapshot and the
    audit envelope; [Debug] output; sharing ([Arc]), which no rule observes; the iteration order
    of a [HashMap] (the broker's choice among equally old selections).  Of audit-core: the traits
    of port.rs and the generated schema.  Of the relay: reading, decoding and acknowledging
    events.  Of outbox-delivery: metrics and the timing of spans, the age in the queue snapshot,
    which is a floating-point number, and the admission and permit of a source, which are answers
    of the script; the isolation of PostgreSQL is assumed: a transaction is one step. Of the
    broker: the system calls behind its platform layer, the panic guard of the native dialog, and
    concurrency (one lock covers every operation).  Of search-core: usage.rs, which is records
    without operations; a build of a generation reads the map of generations under one lock and
    inserts under another, and is one step here. Of search-application: the services over index,
    vector and remote backends; serialization of what is hashed is the class [ProjectionJson].  Of
    the repository: the database, HTTP and server crates and the sandboxed workers (input and
    output), the web and desktop applications, tools, experiments, vendored code.

    ** Plan

    What is left: the services of search-application over their ports. *)
From stdpp Require Import base gmap sets list strings.
From Stdlib Require Import ZArith Lia.

(** ** Result, the return type of fallible code *)

Inductive Result (A E : Type) : Type :=
| Ok (a : A)
| Err (e : E).
Arguments Ok {A E} a.
Arguments Err {A E} e.

Definition rbind {A B E} (m : Result A E) (k : A -> Result B E) : Result B E :=
  match m with
  | Ok a => k a
  | Err e => Err e
  end.

Definition is_ok {A E} (m : Result A E) : bool :=
  match m with Ok _ => true | Err _ => false end.

Definition is_err {A E} (m : Result A E) : bool := negb (is_ok m).

Definition ok {A E} (m : Result A E) : option A :=
  match m with Ok a => Some a | Err _ => None end.

Definition map_err {A E F} (f : E -> F) (m : Result A E) : Result A F :=
  match m with Ok a => Ok a | Err e => Err (f e) end.

Definition is_ok_and {A E} (m : Result A E) (p : A -> bool) : bool :=
  match m with Ok a => p a | Err _ => false end.

(** A [&mut self] method that works on a copy and writes [*self] only on success. *)
Definition commit {S A E} (s : S) (r : Result (S * A) E) : S * Result A E :=
  match r with
  | Ok (s', a) => (s', Ok a)
  | Err e => (s, Err e)
  end.

Declare Scope rust_scope.
Delimit Scope rust_scope with rust.
Open Scope rust_scope.

(** [let? x := m in k] is Rust's [let x = m?; k]. *)
Notation "'let?' x ':=' m 'in' k" :=
  (rbind m (fun x => k))
  (at level 10, x name, m at level 100, k at level 200) : rust_scope.
Notation "'let?' ' p ':=' m 'in' k" :=
  (rbind m (fun x => match x with p => k end))
  (at level 10, p pattern, m at level 100, k at level 200) : rust_scope.
Notation "'try?' m 'in' k" :=
  (rbind m (fun _ => k))
  (at level 10, m at level 100, k at level 200) : rust_scope.

(** [a == b] is the boolean equality test of a type with decidable equality. *)
Notation "a == b" := (bool_decide (a = b)) (at level 70, no associativity) : rust_scope.
Notation "a != b" := (negb (bool_decide (a = b))) (at level 70, no associativity) : rust_scope.

(** ** Options *)

Definition is_some {A} (o : option A) : bool :=
  match o with Some _ => true | None => false end.

Definition is_none {A} (o : option A) : bool :=
  match o with Some _ => false | None => true end.

Definition is_some_and {A} (o : option A) (p : A -> bool) : bool :=
  match o with Some a => p a | None => false end.

Definition is_none_or {A} (o : option A) (p : A -> bool) : bool :=
  match o with Some a => p a | None => true end.

Definition opt_filter {A} (p : A -> bool) (o : option A) : option A :=
  match o with
  | Some a => if p a then Some a else None
  | None => None
  end.

Definition ok_or {A E} (o : option A) (e : E) : Result A E :=
  match o with Some a => Ok a | None => Err e end.

(** [bool::then_some]; the lazy [bool::then] has the same value. *)
Definition then_some {A} (b : bool) (a : A) : option A :=
  if b then Some a else None.

Definition flatten {A} (o : option (option A)) : option A :=
  match o with Some x => x | None => None end.

Definition unwrap_or {A} (d : A) (o : option A) : A :=
  match o with Some a => a | None => d end.

(** [Option<Result<..>>::transpose]. *)
Definition transpose {A E} (o : option (Result A E)) : Result (option A) E :=
  match o with
  | None => Ok None
  | Some (Ok a) => Ok (Some a)
  | Some (Err e) => Err e
  end.

Definition opt_to_list {A} (o : option A) : list A :=
  match o with Some a => [a] | None => [] end.

(** ** Vectors: iterator adaptors and loops that return early *)

Definition len {A} (l : list A) : Z := Z.of_nat (length l).

Definition contains {A} `{EqDecision A} (l : list A) (x : A) : bool :=
  bool_decide (x ∈ l).

Definition count {A} (p : A -> bool) (l : list A) : Z := len (List.filter p l).

(** [for x in l { body }] whose body updates a loop state and may return an error. *)
Fixpoint for_each {S A E} (body : S -> A -> Result S E) (s : S) (l : list A) : Result S E :=
  match l with
  | [] => Ok s
  | x :: l => let? s' := body s x in for_each body s' l
  end.

(** [iter.map(f).collect::<Result<Vec<_>, _>>()]. *)
Fixpoint try_map {A B E} (f : A -> Result B E) (l : list A) : Result (list B) E :=
  match l with
  | [] => Ok []
  | x :: l =>
      let? y := f x in
      let? ys := try_map f l in
      Ok (y :: ys)
  end.

(** [iter_mut().find(p)] followed by an update of the found element. *)
Fixpoint update_first {A} (p : A -> bool) (f : A -> A) (l : list A) : list A :=
  match l with
  | [] => []
  | x :: l => if p x then f x :: l else x :: update_first p f l
  end.

(** [Vec::remove(position(p))]. *)
Fixpoint remove_first {A} (p : A -> bool) (l : list A) : list A :=
  match l with
  | [] => []
  | x :: l => if p x then l else x :: remove_first p l
  end.

Fixpoint filter_map {A B} (f : A -> option B) (l : list A) : list B :=
  match l with
  | [] => []
  | x :: l => match f x with Some y => y :: filter_map f l | None => filter_map f l end
  end.

(** ** Identifiers, instants and machine integers *)

(** [uuid::Uuid]: 128 bits, ordered and compared as a number. *)
Abbreviation Uuid := N.

(** [time::OffsetDateTime]: compared and shifted as an instant, in nanoseconds. *)
Abbreviation Instant := Z.

Definition i64_min : Z := - 2 ^ 63.
Definition i64_max : Z := 2 ^ 63 - 1.
Definition u32_max : Z := 2 ^ 32 - 1.
Definition in_i64 (z : Z) : Prop := (i64_min <= z <= i64_max)%Z.
Definition in_u32 (z : Z) : Prop := (0 <= z <= u32_max)%Z.

(** [i64::checked_add(1)] and [u32::checked_add(1)]. *)
Definition checked_add_i64 (a b : Z) : option Z :=
  if ((i64_min <=? a + b) && (a + b <=? i64_max))%Z then Some (a + b)%Z else None.

Definition checked_add_u64 (a b : Z) : option Z := if (a + b <? 2 ^ 64)%Z then Some (a + b)%Z else None.

Definition checked_add_u32 (a b : Z) : option Z :=
  if ((0 <=? a + b) && (a + b <=? u32_max))%Z then Some (a + b)%Z else None.

(** [u32::try_from] of a [usize]. *)
Definition u32_try_from (a : Z) : option Z :=
  if ((0 <=? a) && (a <=? u32_max))%Z then Some a else None.

(** ** Lemmas on results and options *)

Lemma rbind_Ok {A B E} (m : Result A E) (k : A -> Result B E) b :
  rbind m k = Ok b <-> exists a, m = Ok a /\ k a = Ok b.
Proof. destruct m; naive_solver. Qed.

Lemma Ok_inj {A E} (a b : A) : Ok (E := E) a = Ok b -> a = b.
Proof. congruence. Qed.

Lemma commit_Ok {S A E} (s s' : S) (r : Result (S * A) E) a :
  commit s r = (s', Ok a) <-> r = Ok (s', a).
Proof. destruct r as [[]|]; cbn; naive_solver. Qed.

Lemma commit_Err {S A E} (s s' : S) (r : Result (S * A) E) e :
  commit s r = (s', Err e) -> s' = s.
Proof. destruct r as [[]|]; cbn; naive_solver. Qed.

Lemma ok_pair {S A E} (p : S * Result A E) :
  is_ok (snd p) = true -> exists a, p = (fst p, Ok a).
Proof. destruct p as [s [a|e]]; [|done]. intros _. by exists a. Qed.

Lemma ok_or_Ok {A E} (o : option A) (e : E) a : ok_or o e = Ok a <-> o = Some a.
Proof. destruct o; naive_solver. Qed.

Lemma map_err_Ok {A E F} (f : E -> F) (m : Result A E) a : map_err f m = Ok a <-> m = Ok a.
Proof. destruct m; naive_solver. Qed.

Lemma transpose_Ok {A B E} (f : A -> Result B E) (o : option A) (r : option B) :
  transpose (option_map f o) = Ok r <->
  match o, r with
  | None, None => True
  | Some a, Some b => f a = Ok b
  | _, _ => False
  end.
Proof.
  destruct o as [a|]; cbn; [destruct (f a)|]; destruct r; split; intros; by simplify_eq.
Qed.

Lemma is_some_true {A} (o : option A) : is_some o = true <-> exists a, o = Some a.
Proof. destruct o; naive_solver. Qed.

Lemma is_none_true {A} (o : option A) : is_none o = true <-> o = None.
Proof. destruct o; naive_solver. Qed.

Lemma is_some_false {A} (o : option A) : is_some o = false <-> o = None.
Proof. destruct o; naive_solver. Qed.

Lemma is_none_false {A} (o : option A) : is_none o = false <-> exists a, o = Some a.
Proof. destruct o; naive_solver. Qed.

Lemma is_some_and_true {A} (o : option A) p :
  is_some_and o p = true <-> exists a, o = Some a /\ p a = true.
Proof. destruct o; naive_solver. Qed.

Lemma is_none_or_true {A} (o : option A) p :
  is_none_or o p = true <-> forall a, o = Some a -> p a = true.
Proof. destruct o; naive_solver. Qed.

Lemma opt_filter_Some {A} (p : A -> bool) o a :
  opt_filter p o = Some a <-> o = Some a /\ p a = true.
Proof.
  destruct o as [x|]; cbn; [destruct (p x) eqn:E|]; split; [intros [= ->]|intros [[= ->] ?]| | | |];
    try done; naive_solver congruence.
Qed.

Lemma contains_true {A} `{EqDecision A} (l : list A) x : contains l x = true <-> x ∈ l.
Proof. unfold contains. apply bool_decide_eq_true. Qed.

Lemma eqb_iff_true (a b : bool) : Bool.eqb a b = true <-> a = b.
Proof. apply Bool.eqb_true_iff. Qed.

(** ** Automation

    [simp_bool] turns boolean hypotheses and goals into propositions; [inv_ok] decomposes a
    successful monadic computation [_ = Ok _] into its successful steps and passed guards. *)

Create HintDb rust discriminated.

#[export] Hint Rewrite @rbind_Ok @ok_or_Ok @map_err_Ok @is_some_and_true @is_none_or_true
  @opt_filter_Some @contains_true : rust.

Ltac simp_bool_hyp H :=
  lazymatch type of H with
  | (_ && _)%bool = true => apply andb_true_iff in H as [? ?]
  | (_ || _)%bool = false => apply orb_false_iff in H as [? ?]
  | negb _ = true => apply negb_true_iff in H
  | negb _ = false => apply negb_false_iff in H
  | bool_decide _ = true => apply bool_decide_eq_true in H
  | bool_decide _ = false => apply bool_decide_eq_false in H
  | is_some _ = false => apply is_some_false in H
  | is_none _ = true => apply is_none_true in H
  | is_some _ = true => apply is_some_true in H as [? ?]
  | is_none _ = false => apply is_none_false in H as [? ?]
  | contains _ _ = true => apply contains_true in H
  | (_ <=? _)%Z = true => apply Z.leb_le in H
  | (_ <=? _)%Z = false => apply Z.leb_gt in H
  | (_ <? _)%Z = true => apply Z.ltb_lt in H
  | (_ <? _)%Z = false => apply Z.ltb_ge in H
  | (_ =? _)%Z = true => apply Z.eqb_eq in H
  | (_ =? _)%Z = false => apply Z.eqb_neq in H
  | Bool.eqb _ _ = true => apply (proj1 (eqb_iff_true _ _)) in H
  end.

Ltac simp_bool :=
  repeat match goal with
  | H : _ = true |- _ => simp_bool_hyp H
  | H : _ = false |- _ => simp_bool_hyp H
  end.

Ltac inv_ok_hyp H :=
  lazymatch type of H with
  | Err _ = Ok _ => discriminate H
  | Ok _ = Ok _ => injection H as H
  | rbind _ _ = Ok _ =>
      apply rbind_Ok in H; let a := fresh "a" in let E := fresh "Hok" in destruct H as [a [E H]]
  | ok_or _ _ = Ok _ => apply ok_or_Ok in H
  | map_err _ _ = Ok _ => apply map_err_Ok in H
  | (if ?b then Err _ else _) = Ok _ =>
      let E := fresh "Hguard" in destruct b eqn:E; [discriminate H|]
  | (if ?b then _ else Err _) = Ok _ =>
      let E := fresh "Hguard" in destruct b eqn:E; [|discriminate H]
  | match ?x with (_, _) => _ end = Ok _ => destruct x
  end.

Ltac inv_ok := repeat match goal with H : _ = Ok _ |- _ => inv_ok_hyp H end.

(** ** Lists *)

Lemma find_Some_iff {A} (p : A -> bool) l x :
  find p l = Some x -> x ∈ l /\ p x = true.
Proof. intros [H1 H2]%find_some. by rewrite list_elem_of_In. Qed.

Lemma find_None_iff {A} (p : A -> bool) l :
  find p l = None <-> forall x, x ∈ l -> p x = false.
Proof.
  split.
  - intros H x Hx. apply list_elem_of_In in Hx. eapply find_none; eauto.
  - induction l as [|y l IH]; cbn; [done|]. intros H.
    rewrite (H y); [|set_solver]. apply IH. set_solver.
Qed.

Lemma find_app_Some {A} (p : A -> bool) l k x :
  find p l = Some x -> find p (l ++ k) = Some x.
Proof. induction l as [|y l IH]; cbn; [done|]. by destruct (p y). Qed.

Lemma find_app_None {A} (p : A -> bool) l k :
  find p l = None -> find p (l ++ k) = find p k.
Proof. induction l as [|y l IH]; cbn; [done|]. by destruct (p y). Qed.

Lemma elem_of_filter_bool {A} (p : A -> bool) l x :
  x ∈ List.filter p l <-> x ∈ l /\ p x = true.
Proof. rewrite !list_elem_of_In. apply filter_In. Qed.

Lemma NoDup_map_filter {A K} (key : A -> K) (p : A -> bool) l :
  NoDup (map key l) -> NoDup (map key (List.filter p l)).
Proof.
  induction l as [|x l IH]; cbn; [done|]. intros [Hx Hn]%NoDup_cons.
  destruct (p x); cbn; [|by apply IH]. apply NoDup_cons. split; [|by apply IH].
  intros (y & Hy & [Hin _]%elem_of_filter_bool)%list_elem_of_fmap. apply Hx.
  apply list_elem_of_fmap. by exists y.
Qed.

Lemma elem_of_filter_map {A B} (f : A -> option B) l y :
  y ∈ filter_map f l <-> exists x, x ∈ l /\ f x = Some y.
Proof.
  induction l as [|x l IH]; cbn; [set_solver|].
  destruct (f x) eqn:E; rewrite ?elem_of_cons, IH; set_solver.
Qed.

Lemma existsb_true {A} (p : A -> bool) l :
  existsb p l = true <-> exists x, x ∈ l /\ p x = true.
Proof. rewrite existsb_exists. by setoid_rewrite list_elem_of_In. Qed.

Lemma existsb_false {A} (p : A -> bool) l :
  existsb p l = false <-> forall x, x ∈ l -> p x = false.
Proof.
  induction l as [|y l IH]; cbn; [set_solver|].
  rewrite orb_false_iff, IH. set_solver.
Qed.

Lemma forallb_true {A} (p : A -> bool) l :
  forallb p l = true <-> forall x, x ∈ l -> p x = true.
Proof. rewrite forallb_forall. by setoid_rewrite list_elem_of_In. Qed.

Lemma find_NoDup {A K} `{EqDecision K} (key : A -> K) l x :
  NoDup (map key l) -> x ∈ l -> find (fun y => key y == key x) l = Some x.
Proof.
  induction l as [|y l IH]; cbn; [set_solver|].
  intros [Hn Hd]%NoDup_cons [->|Hx]%elem_of_cons.
  - by rewrite bool_decide_eq_true_2.
  - rewrite bool_decide_eq_false_2; [auto|].
    intros Heq. apply Hn. rewrite Heq. apply list_elem_of_In, in_map, list_elem_of_In, Hx.
Qed.

(** Elements of a list with distinct keys are determined by their keys. *)
Lemma NoDup_key {A K} `{EqDecision K} (key : A -> K) l x y :
  NoDup (map key l) -> x ∈ l -> y ∈ l -> key x = key y -> x = y.
Proof.
  intros Hn Hx%(find_NoDup key _ _ Hn) Hy%(find_NoDup key _ _ Hn) Heq.
  rewrite Heq in Hx. congruence.
Qed.

Lemma map_update_first {A B} (g : A -> B) (p : A -> bool) (f : A -> A) l :
  (forall x, g (f x) = g x) -> map g (update_first p f l) = map g l.
Proof.
  intros Hg. induction l as [|x l IH]; cbn; [done|].
  destruct (p x); cbn; by rewrite ?Hg, ?IH.
Qed.

Lemma elem_of_update_first {A} (p : A -> bool) (f : A -> A) l y :
  y ∈ update_first p f l -> y ∈ l \/ exists x, x ∈ l /\ p x = true /\ y = f x.
Proof.
  induction l as [|x l IH]; cbn; [auto|].
  destruct (p x) eqn:E; intros [->|H]%elem_of_cons.
  - right. exists x. set_solver.
  - set_solver.
  - set_solver.
  - destruct (IH H) as [?|(z&?&?&?)]; [set_solver|]. right. exists z. set_solver.
Qed.

Lemma Forall2_update_first {A} (P : A -> A -> Prop) (p : A -> bool) (f : A -> A) l :
  (forall x, P x x) -> (forall x, x ∈ l -> p x = true -> P x (f x)) ->
  Forall2 P l (update_first p f l).
Proof.
  intros Hr Hf. induction l as [|x l IH]; cbn; [constructor|].
  destruct (p x) eqn:E; constructor; try (apply Hf; set_solver).
  - by apply Forall_Forall2_diag, Forall_true.
  - apply Hr.
  - apply IH. set_solver.
Qed.

Lemma Forall2_update_found {A} (P : A -> A -> Prop) (p : A -> bool) (f : A -> A) l x :
  (forall y, P y y) -> find p l = Some x -> P x (f x) -> Forall2 P l (update_first p f l).
Proof.
  intros Hr. induction l as [|y l IH]; cbn; [done|].
  destruct (p y); [intros [= ->] Hx|]; constructor; auto.
  by apply Forall_Forall2_diag, Forall_true.
Qed.

Lemma Forall2_map_self {A} (P : A -> A -> Prop) (f : A -> A) l :
  (forall x, x ∈ l -> P x (f x)) -> Forall2 P l (map f l).
Proof.
  intros H. induction l as [|x l IH]; cbn; constructor; [apply H; set_solver|].
  apply IH. set_solver.
Qed.

(** [grows P l l']: the old elements evolve by [P] in place and new ones are appended. *)
Definition grows {A} (P : A -> A -> Prop) (l l' : list A) : Prop :=
  exists old new, l' = old ++ new /\ Forall2 P l old.

#[global] Instance grows_preorder {A} (P : A -> A -> Prop) `{!PreOrder P} : PreOrder (grows P).
Proof.
  split.
  - intros l. exists l, []. rewrite app_nil_r. split; [done|].
    by apply Forall_Forall2_diag, Forall_true.
  - intros l1 l2 l3 (o1 & n1 & -> & H1) (o2 & n2 & -> & H2).
    apply Forall2_app_inv_l in H2 as (o2' & n1' & H2 & Hn & ->).
    exists o2', (n1' ++ n2). rewrite app_assoc. split; [done|].
    by etrans.
Qed.

Lemma grows_app {A} (P : A -> A -> Prop) `{!PreOrder P} l k : grows P l (l ++ k).
Proof. exists l, k. split; [done|]. by apply Forall_Forall2_diag, Forall_true. Qed.

Lemma grows_Forall2 {A} (P : A -> A -> Prop) l l' : Forall2 P l l' -> grows P l l'.
Proof. intros H. exists l', []. by rewrite app_nil_r. Qed.

Lemma grows_elem {A} (P : A -> A -> Prop) l l' x :
  grows P l l' -> x ∈ l -> exists x', x' ∈ l' /\ P x x'.
Proof.
  intros (o & n & -> & H) [i Hx]%list_elem_of_lookup.
  destruct (Forall2_lookup_l _ _ _ _ _ H Hx) as (x' & Hx' & HP).
  exists x'. split; [|done]. apply elem_of_app. left. by eapply list_elem_of_lookup_2.
Qed.

Lemma len_app {A} (l k : list A) : len (l ++ k) = (len l + len k)%Z.
Proof. unfold len. rewrite length_app. lia. Qed.

Lemma len_nonneg {A} (l : list A) : (0 <= len l)%Z.
Proof. unfold len. lia. Qed.

Lemma count_cons {A} (f : A -> bool) x l :
  count f (x :: l) = ((if f x then 1 else 0) + count f l)%Z.
Proof. unfold count, len. cbn. destruct (f x); cbn [length]; lia. Qed.

Lemma count_app {A} (f : A -> bool) l k : count f (l ++ k) = (count f l + count f k)%Z.
Proof. unfold count. rewrite List.filter_app. apply len_app. Qed.

Lemma count_update_first {A} (f p : A -> bool) (g : A -> A) l :
  (forall x, f (g x) = f x) -> count f (update_first p g l) = count f l.
Proof.
  intros Hg. unfold count. induction l as [|x l IH]; cbn; [done|].
  destruct (p x); cbn; [by rewrite Hg; destruct (f x)|].
  destruct (f x); [|done]. unfold len in *. cbn. lia.
Qed.

Lemma count_remove_first {A} (f p : A -> bool) l : (count f (remove_first p l) <= count f l)%Z.
Proof.
  induction l as [|x l IH]; cbn; [lia|]. rewrite count_cons.
  destruct (p x); [destruct (f x); lia|]. rewrite count_cons. lia.
Qed.

Lemma count_update_found {A} (f p : A -> bool) (g : A -> A) l x :
  find p l = Some x -> f (g x) = f x -> count f (update_first p g l) = count f l.
Proof.
  induction l as [|y l IH]; cbn; [done|]. destruct (p y).
  - intros [= ->] Hg. by rewrite !count_cons, Hg.
  - intros Hf Hg. by rewrite !count_cons, IH.
Qed.

Lemma count_bound {A} (f : A -> bool) l : (0 <= count f l <= len l)%Z.
Proof.
  induction l as [|x l IH]; [done|]. rewrite count_cons. unfold len in *. cbn [length].
  destruct (f x); lia.
Qed.

(** ** Loops *)

Lemma for_each_unit {A E} (body : unit -> A -> Result unit E) l :
  for_each body tt l = Ok tt <-> Forall (fun x => body tt x = Ok tt) l.
Proof.
  induction l as [|x l IH]; cbn; [by split|].
  rewrite Forall_cons, <-IH. destruct (body tt x) as [[]|]; cbn; naive_solver.
Qed.

(** A loop keeps what its body keeps. *)
Lemma for_each_inv {S A E} (P : S -> Prop) (body : S -> A -> Result S E) l s s' :
  (forall s x s', P s -> body s x = Ok s' -> P s') -> P s -> for_each body s l = Ok s' -> P s'.
Proof.
  intros Hb. revert s. induction l as [|x l IH]; cbn; intros s Hs H; [by simplify_eq|].
  apply rbind_Ok in H as (s1 & H1 & H). eauto.
Qed.

(** What holds of the elements visited so far holds of the whole list at the end. *)
Lemma for_each_prefix {S A E} (P : list A -> S -> Prop) (body : S -> A -> Result S E) l s s' :
  P [] s ->
  (forall done s x s', P done s -> body s x = Ok s' -> P (done ++ [x]) s') ->
  for_each body s l = Ok s' -> P l s'.
Proof.
  intros H0 Hb.
  assert (forall done s, P done s -> for_each body s l = Ok s' -> P (done ++ l) s') as H.
  { clear s H0. induction l as [|x l IH]; cbn; intros done s Hs H; [by simplify_eq;
      rewrite app_nil_r|].
    apply rbind_Ok in H as (s1 & H1 & H). rewrite cons_middle, app_assoc. eauto. }
  intros Hl. by apply (H [] s).
Qed.

(** Every element of a loop that succeeds passed its body in some loop state. *)
Lemma for_each_visits {S A E} (body : S -> A -> Result S E) l s s' :
  for_each body s l = Ok s' -> Forall (fun x => exists s1 s2, body s1 x = Ok s2) l.
Proof.
  revert s. induction l as [|x l IH]; intros s; cbn; [constructor|].
  intros H. inv_ok. constructor; eauto.
Qed.

(** A loop that inserts keys into a set and rejects repetitions visits distinct keys. *)
Lemma for_each_distinct {S A E K} `{Countable K} (seen : S -> gset K) (key : A -> option K)
    (body : S -> A -> Result S E) l :
  (forall s x s', body s x = Ok s' ->
     match key x with
     | Some k => k ∉ seen s /\ seen s' = {[k]} ∪ seen s
     | None => seen s' = seen s
     end) ->
  forall s s', for_each body s l = Ok s' ->
  NoDup (filter_map key l) /\ (forall k, k ∈ filter_map key l -> k ∉ seen s).
Proof.
  intros Hb. induction l as [|x l IH]; intros s s'; cbn.
  - intros _. split; [constructor|]. intros k Hk. by apply elem_of_nil in Hk.
  - intros Hl. inv_ok. apply Hb in Hok. apply IH in Hl as [Hn Hs].
    destruct (key x) as [k|].
    + destruct Hok as [Hk Heq]. rewrite Heq in Hs. split.
      * constructor; [|done]. intros Hin. apply Hs in Hin. apply Hin.
        apply elem_of_union. left. by apply elem_of_singleton.
      * intros k' [->|Hin]%elem_of_cons; [done|].
        intros Hk'. apply (Hs _ Hin), elem_of_union. by right.
    + rewrite Hok in Hs. done.
Qed.

Lemma filter_map_Some {A B} (f : A -> B) l : filter_map (fun x => Some (f x)) l = map f l.
Proof. induction l as [|x l IH]; cbn; by rewrite ?IH. Qed.

Lemma filter_map_filter {A B} (p : A -> bool) (f : A -> B) l :
  filter_map (fun x => if p x then Some (f x) else None) l = map f (List.filter p l).
Proof. induction l as [|x l IH]; cbn; [done|]. destruct (p x); cbn; by rewrite IH. Qed.

Lemma try_map_Ok {A B E} (f : A -> Result B E) l ys :
  try_map f l = Ok ys <-> Forall2 (fun x y => f x = Ok y) l ys.
Proof.
  revert ys. induction l as [|x l IH]; intros ys; cbn.
  - split; [intros [= <-]; constructor|by inversion 1].
  - rewrite rbind_Ok. split.
    + intros (y & Hy & H). inv_ok. subst. constructor; [done|by apply IH].
    + inversion 1 as [|? y ? k Hy Hk]; subst. exists y. split; [done|].
      apply IH in Hk. by rewrite Hk.
Qed.

(** ** Checked arithmetic *)

Lemma checked_add_i64_Some a b c :
  checked_add_i64 a b = Some c <-> c = (a + b)%Z /\ in_i64 c.
Proof.
  unfold checked_add_i64, in_i64. case_match; simp_bool; naive_solver lia.
Qed.

Lemma checked_add_u32_Some a b c :
  checked_add_u32 a b = Some c <-> c = (a + b)%Z /\ in_u32 c.
Proof.
  unfold checked_add_u32, in_u32. case_match; simp_bool; naive_solver lia.
Qed.
