(* ===== verification/WorkTypes.v ===== *)
(** * WorkTypes: the data of the work-domain crate

    Records and enumerations of lib.rs, organization.rs, context.rs, evidence.rs, files.rs,
    agent.rs and agent_result.rs, with the crate's fixed identifiers.  A record's fields carry
    the source's names behind a prefix of the record; an enumeration whose variants would clash
    with another's carries the enumeration's name in front. *)
From stdpp Require Import base gmap sets list strings.
From Stdlib Require Import ZArith.
From S2P Require Import Prelude.

(** ** Identifiers and durations *)
Definition Uuid_nil : Uuid := 0%N.
Definition is_nil (u : Uuid) : bool := u == Uuid_nil.

Definition minutes (m : Z) : Z := (m * 60 * 1000000000)%Z.
Definition hours (h : Z) : Z := (h * 3600 * 1000000000)%Z.

(** ** Fixed identifiers *)

Definition WORKFLOW_ID : Uuid := 0x01900000000070008000000000000001%N.
Definition CONTEXT_ID : Uuid := 0x01900000000070008000000000000002%N.
Definition SALES_TASK_ID : Uuid := 0x01900000000070008000000000000003%N.
Definition OFFICE_TASK_ID : Uuid := 0x01900000000070008000000000000004%N.
Definition SALES_ATTEMPT_ID : Uuid := 0x01900000000070008000000000000005%N.
Definition OFFICE_ATTEMPT_ID : Uuid := 0x01900000000070008000000000000006%N.
Definition SALES_ASSIGNMENT_ID : Uuid := 0x01900000000070008000000000000007%N.
Definition OFFICE_ASSIGNMENT_ID : Uuid := 0x01900000000070008000000000000008%N.
Definition DEFINITION_VERSION_ID : Uuid := 0x01900000000070008000000000000009%N.
Definition RETURN_DEFINITION_VERSION_ID : Uuid := 0x0190000000007000800000000000000f%N.
Definition COMPLETE_DEFINITION_VERSION_ID : Uuid := 0x01900000000070008000000000000011%N.
Definition HOLD_RESUME_DEFINITION_VERSION_ID : Uuid := 0x01900000000070008000000000000013%N.
Definition HOLD_ACTION_ID : Uuid := 0x01900000000070008000000000000014%N.
Definition RESUME_ACTION_ID : Uuid := 0x01900000000070008000000000000015%N.
Definition COMPLETE_ACTION_ID : Uuid := 0x01900000000070008000000000000012%N.
Definition RETURN_TRANSITION_ID : Uuid := 0x01900000000070008000000000000010%N.
Definition SALES_STEP_ID : Uuid := 0x0190000000007000800000000000000a%N.
Definition OFFICE_STEP_ID : Uuid := 0x0190000000007000800000000000000b%N.
Definition SALES_WORK_TYPE_ID : Uuid := 0x0190000000007000800000000000000c%N.
Definition OFFICE_WORK_TYPE_ID : Uuid := 0x0190000000007000800000000000000d%N.
Definition SALES_WORK_ASSIGNMENT_ID : Uuid := 0x0190000000007000800000000000000e%N.
Definition ORGANIZATION_POLICY_ID : Uuid := 0x0190000000007000800000000000a001%N.
Definition UNIT_SALES_ID : Uuid := 0x0190000000007000800000000000a011%N.
Definition UNIT_OFFICE_ID : Uuid := 0x0190000000007000800000000000a012%N.
Definition UNIT_REVIEW_ID : Uuid := 0x0190000000007000800000000000a013%N.
Definition UNIT_APPROVAL_ID : Uuid := 0x0190000000007000800000000000a014%N.
Definition ROLE_SALES_ID : Uuid := 0x0190000000007000800000000000a021%N.
Definition ROLE_PROCESSING_ID : Uuid := 0x0190000000007000800000000000a022%N.
Definition ROLE_REVIEWING_ID : Uuid := 0x0190000000007000800000000000a023%N.
Definition ROLE_APPROVING_ID : Uuid := 0x0190000000007000800000000000a024%N.
Definition ROLE_MANAGEMENT_ID : Uuid := 0x0190000000007000800000000000a025%N.
Definition REVIEW_ASSIGNMENT_ID : Uuid := 0x0190000000007000800000000000a031%N.
Definition APPROVER_ASSIGNMENT_ID : Uuid := 0x0190000000007000800000000000a032%N.
Definition APPROVER_MANAGEMENT_ASSIGNMENT_ID : Uuid := 0x0190000000007000800000000000a033%N.
Definition MULTI_ROLE_PROCESSING_ASSIGNMENT_ID : Uuid := 0x0190000000007000800000000000a034%N.
Definition MULTI_ROLE_REVIEW_ASSIGNMENT_ID : Uuid := 0x0190000000007000800000000000a035%N.
Definition REVIEW_STEP_ID : Uuid := 0x0190000000007000800000000000b011%N.
Definition REVIEW_WORK_TYPE_ID : Uuid := 0x0190000000007000800000000000b012%N.
Definition REVIEW_DEFINITION_VERSION_ID : Uuid := 0x0190000000007000800000000000b013%N.
Definition CONTEXT_B_WORKFLOW_ID : Uuid := 0x0190000000007000800000000000b001%N.
Definition CONTEXT_B_ID : Uuid := 0x0190000000007000800000000000b002%N.
Definition CONTEXT_B_SALES_TASK_ID : Uuid := 0x0190000000007000800000000000b003%N.
Definition CONTEXT_B_REVIEW_TASK_ID : Uuid := 0x0190000000007000800000000000b004%N.
Definition CONTEXT_C_WORKFLOW_ID : Uuid := 0x0190000000007000800000000000b101%N.
Definition CONTEXT_C_ID : Uuid := 0x0190000000007000800000000000b102%N.
Definition CONTEXT_C_SALES_TASK_ID : Uuid := 0x0190000000007000800000000000b103%N.
Definition CONTEXT_C_OFFICE_TASK_ID : Uuid := 0x0190000000007000800000000000b104%N.
Definition PROFILE_SALES_CONTEXT_ID : Uuid := 0x0190000000007000800000000000c001%N.
Definition PROFILE_OFFICE_QUEUE_ID : Uuid := 0x0190000000007000800000000000c002%N.
Definition PROFILE_REVIEW_QUEUE_ID : Uuid := 0x0190000000007000800000000000c003%N.

Definition FIXTURE_CREATED_AT : string := "2026-10-04T00:00:00Z".
Definition FIXTURE_VALID_FROM : string := "2026-10-01T00:00:00Z".
Definition TEXT_SCHEMA_ID : string := "organization.text-draft.v1".
Definition FILE_SCHEMA_ID : string := "organization.work-file.v1".
Definition WORK_ARTIFACT_PROVIDER_ID : string := "organization.work-artifacts".
Definition SYNTHETIC_EXECUTOR : string := "organization-synthetic/agent-01".
Definition AGENT_PRIVATE_VISIBILITY : string := "agent_execution_private".

Definition MAX_ARTIFACTS : Z := 16.
Definition MAX_ASSIGNMENTS_PER_ATTEMPT : Z := 16.
Definition MAX_ROLE_ASSIGNMENTS : Z := 96.
Definition MAX_DELEGATIONS_PER_DELEGATOR : Z := 16.
Definition MAX_REFERENCES : Z := 100.
Definition MAX_VISIBLE_RECORDS : Z := 16.
Definition MAX_AGENT_EXECUTIONS : Z := 16.
Definition MAX_GENERATED_ARTIFACTS : Z := 2.
Definition MAX_SUGGESTED_ACTIONS : Z := 4.
Definition MAX_AGENT_UNCERTAINTY : Z := 4.
Definition MAX_RATIONALE_BYTES : Z := 1024.
Definition MAX_FILE_BYTES : Z := 8 * 1024 * 1024.
Definition VALID_FROM_SKEW : Z := minutes 5.
Definition SYNTHETIC_DUE_LEAD : Z := hours 24.

(** ** Principals, errors and states (lib.rs) *)

(** The closed allowlist of synthetic Human principals. *)
Inductive VerifiedActor : Type :=
| Sales01
| Office01
| Review01
| Approver01
| MultiRole01
| Delegate01.
#[global] Instance VerifiedActor_eq_dec : EqDecision VerifiedActor.
Proof. solve_decision. Defined.

(** lib.rs [WorkError]. *)
Inductive WorkError : Type :=
| ValidationFailed
| Forbidden
| WorkItemNotFound
| WorkArtifactNotFound
| EvidenceNotFound
| FindingNotFound
| RevisionConflict
| OperationConflict
| WorkAssignmentConflict
| HandoffNotReady
| DependencyUnavailable
| CommitOutcomeUnknown
| IntegrityViolation
| AgentResultNotReady
| WorkContextStale
| CursorStale
| OrganizationRecordNotFound
| WorkContextNotFound
| WorkArtifactUnavailable.
#[global] Instance WorkError_eq_dec : EqDecision WorkError.
Proof. solve_decision. Defined.

Abbreviation WResult A := (Result A WorkError).

(** lib.rs [TaskState]. *)
Inductive TaskState : Type :=
| Ready
| Active
| Held
| Completed.
#[global] Instance TaskState_eq_dec : EqDecision TaskState.
Proof. solve_decision. Defined.

(** lib.rs [TaskView]. *)
Inductive TaskView : Type :=
| TaskView_Context
| TaskView_Queue.
#[global] Instance TaskView_eq_dec : EqDecision TaskView.
Proof. solve_decision. Defined.

(** organization.rs [PolicyAction]: the closed policy action vocabulary. *)
Inductive PolicyAction : Type :=
| ContextRead
| ContextProgressRead
| ContextHistoryRead
| QueueRead
| WorkRead
| WorkClaim
| WorkAssign
| WorkEdit
| WorkSubmit
| WorkReturn
| WorkComplete
| WorkHold
| WorkResume
| EvidenceRegister
| FindingRegister
| DecisionRecord
| AgentRequest
| OrganizationManage.
#[global] Instance PolicyAction_eq_dec : EqDecision PolicyAction.
Proof. solve_decision. Defined.

(** The position in the derived [Ord], an injective code for sets of actions. *)
Definition PolicyAction_code (a : PolicyAction) : N :=
  match a with
  | ContextRead => 0 | ContextProgressRead => 1 | ContextHistoryRead => 2 | QueueRead => 3
  | WorkRead => 4 | WorkClaim => 5 | WorkAssign => 6 | WorkEdit => 7 | WorkSubmit => 8
  | WorkReturn => 9 | WorkComplete => 10 | WorkHold => 11 | WorkResume => 12
  | EvidenceRegister => 13 | FindingRegister => 14 | DecisionRecord => 15
  | AgentRequest => 16 | OrganizationManage => 17
  end%N.

Definition PolicyAction_of_code (n : N) : option PolicyAction :=
  match n with
  | 0 => Some ContextRead | 1 => Some ContextProgressRead | 2 => Some ContextHistoryRead
  | 3 => Some QueueRead | 4 => Some WorkRead | 5 => Some WorkClaim | 6 => Some WorkAssign
  | 7 => Some WorkEdit | 8 => Some WorkSubmit | 9 => Some WorkReturn
  | 10 => Some WorkComplete | 11 => Some WorkHold | 12 => Some WorkResume
  | 13 => Some EvidenceRegister | 14 => Some FindingRegister | 15 => Some DecisionRecord
  | 16 => Some AgentRequest | 17 => Some OrganizationManage
  | _ => None
  end%N.

#[global] Instance PolicyAction_countable : Countable PolicyAction.
Proof.
  refine (inj_countable PolicyAction_code PolicyAction_of_code _); by intros [].
Defined.

(** organization.rs [WorkViewArchetype]. *)
Inductive WorkViewArchetype : Type :=
| WorkViewArchetype_Context
| WorkViewArchetype_Queue.
#[global] Instance WorkViewArchetype_eq_dec : EqDecision WorkViewArchetype.
Proof. solve_decision. Defined.

(** organization.rs [ResponsibilityKind]. *)
Inductive ResponsibilityKind : Type :=
| Kind_RoleAssignment
| Kind_Delegation.
#[global] Instance ResponsibilityKind_eq_dec : EqDecision ResponsibilityKind.
Proof. solve_decision. Defined.

(** context.rs [AttentionKind]. *)
Inductive AttentionKind : Type :=
| NewlyAssigned
| Returned
| DueSoon
| Overdue.
#[global] Instance AttentionKind_eq_dec : EqDecision AttentionKind.
Proof. solve_decision. Defined.

(** context.rs [WorkContextKind]. *)
Inductive WorkContextKind : Type :=
| Case
| RoutineRun
| Batch
| Request.
#[global] Instance WorkContextKind_eq_dec : EqDecision WorkContextKind.
Proof. solve_decision. Defined.

(** context.rs [SourceStart]: how the first sales attempt of a fixture starts. *)
Inductive SourceStart : Type :=
| AssignedToSales
| ReadyDueInMinutes (m : Z).
#[global] Instance SourceStart_eq_dec : EqDecision SourceStart.
Proof. solve_decision. Defined.

(** context.rs [ProfileGrouping]. *)
Inductive ProfileGrouping : Type :=
| ProfileGrouping_Context
| ProfileGrouping_WorkType.
#[global] Instance ProfileGrouping_eq_dec : EqDecision ProfileGrouping.
Proof. solve_decision. Defined.

(** context.rs [ContextModule]. *)
Inductive ContextModule : Type :=
| Module_Document
| Module_History
| Module_Evidence
| Module_Agent
| Module_Search
| Module_Resources
| Module_Return.
#[global] Instance ContextModule_eq_dec : EqDecision ContextModule.
Proof. solve_decision. Defined.

(** context.rs [ModulePresentation]. *)
Inductive ModulePresentation : Type :=
| Hidden
| Available
| Visible
| Prominent.
#[global] Instance ModulePresentation_eq_dec : EqDecision ModulePresentation.
Proof. solve_decision. Defined.

(** evidence.rs [DecisionKind]. *)
Inductive DecisionKind : Type :=
| Accepted
| Modified
| Rejected.
#[global] Instance DecisionKind_eq_dec : EqDecision DecisionKind.
Proof. solve_decision. Defined.

(** agent.rs [AgentExecutionStatus]. *)
Inductive AgentExecutionStatus : Type :=
| Queued
| Running
| Succeeded
| Failed
| Cancelled
| OutcomeUnknown.
#[global] Instance AgentExecutionStatus_eq_dec : EqDecision AgentExecutionStatus.
Proof. solve_decision. Defined.

(** agent.rs [AgentFailureCode]. *)
Inductive AgentFailureCode : Type :=
| Code_ProviderDenied
| Code_ContextStale
| Code_InvalidOutput
| Code_DependencyUnavailable
| Code_Interrupted
| Code_CommitOutcomeUnknown.
#[global] Instance AgentFailureCode_eq_dec : EqDecision AgentFailureCode.
Proof. solve_decision. Defined.

(** agent.rs [AgentReadTool]. *)
Inductive AgentReadTool : Type :=
| DocumentRevision
| DocumentVersionFiles.
#[global] Instance AgentReadTool_eq_dec : EqDecision AgentReadTool.
Proof. solve_decision. Defined.

(** agent_result.rs [AgentSourceUse]. *)
Inductive AgentSourceUse : Type :=
| Referenced
| Analyzed
| Unavailable
| Unsupported.
#[global] Instance AgentSourceUse_eq_dec : EqDecision AgentSourceUse.
Proof. solve_decision. Defined.

(** ** Organization policy records (organization.rs) *)

(** organization.rs [OrganizationalUnit]. *)
Record OrganizationalUnit : Type := {
  ou_id : Uuid;
  ou_label : string;
  ou_default_archetype : WorkViewArchetype;
  ou_role_ids : list Uuid
}.
#[global] Instance OrganizationalUnit_eq_dec : EqDecision OrganizationalUnit.
Proof. solve_decision. Defined.

(** organization.rs [BusinessRole]. *)
Record BusinessRole : Type := {
  br_id : Uuid;
  br_key : string;
  br_label : string;
  br_actions : list PolicyAction
}.
#[global] Instance BusinessRole_eq_dec : EqDecision BusinessRole.
Proof. solve_decision. Defined.

(** organization.rs [RoleAssignment]. *)
Record RoleAssignment : Type := {
  ra_id : Uuid;
  ra_principal : VerifiedActor;
  ra_role_id : Uuid;
  ra_unit_id : Uuid;
  ra_valid_from : string;
  ra_valid_until : option string;
  ra_reason : string;
  ra_created_by : option VerifiedActor;
  ra_created_at : string;
  ra_revoked_at : option string;
  ra_revoked_by : option VerifiedActor;
  ra_revoke_reason : option string
}.
#[global] Instance RoleAssignment_eq_dec : EqDecision RoleAssignment.
Proof. solve_decision. Defined.

(** organization.rs [Delegation]. *)
Record Delegation : Type := {
  dg_id : Uuid;
  dg_source_assignment_id : Uuid;
  dg_delegator : VerifiedActor;
  dg_recipient : VerifiedActor;
  dg_actions : list PolicyAction;
  dg_valid_from : string;
  dg_valid_until : string;
  dg_reason : string;
  dg_created_by : VerifiedActor;
  dg_created_at : string;
  dg_revoked_at : option string;
  dg_revoked_by : option VerifiedActor;
  dg_revoke_reason : option string
}.
#[global] Instance Delegation_eq_dec : EqDecision Delegation.
Proof. solve_decision. Defined.

(** organization.rs [Responsibility]: a currently effective responsibility. *)
Record Responsibility : Type := {
  rs_id : Uuid;
  rs_kind : ResponsibilityKind;
  rs_principal : VerifiedActor;
  rs_role_id : Uuid;
  rs_role_label : string;
  rs_unit_id : Uuid;
  rs_unit_label : string;
  rs_actions : list PolicyAction;
  rs_valid_from : string;
  rs_valid_until : option string;
  rs_source_assignment_id : option Uuid;
  rs_delegator : option VerifiedActor;
  rs_work_view_profile_id : Uuid
}.
#[global] Instance Responsibility_eq_dec : EqDecision Responsibility.
Proof. solve_decision. Defined.

(** organization.rs [OrganizationPolicy]. *)
Record OrganizationPolicy : Type := {
  op_id : Uuid;
  op_revision : Z;
  op_units : list OrganizationalUnit;
  op_roles : list BusinessRole;
  op_role_assignments : list RoleAssignment;
  op_delegations : list Delegation
}.
#[global] Instance OrganizationPolicy_eq_dec : EqDecision OrganizationPolicy.
Proof. solve_decision. Defined.

(** organization.rs [OrganizationView]. *)
Record OrganizationView : Type := {
  ov_principal_id : string;
  ov_display_name : string;
  ov_policy_revision : Z;
  ov_evaluated_at : string;
  ov_can_manage : bool;
  ov_responsibilities : list Responsibility;
  ov_units : list OrganizationalUnit;
  ov_roles : list BusinessRole;
  ov_role_assignments : list RoleAssignment;
  ov_delegations : list Delegation
}.
#[global] Instance OrganizationView_eq_dec : EqDecision OrganizationView.
Proof. solve_decision. Defined.

(** lib.rs [CommandContext]. *)
Record CommandContext : Type := {
  cc_operation_id : Uuid;
  cc_expected_revision : Z;
  cc_acting_assignment_id : Uuid
}.
#[global] Instance CommandContext_eq_dec : EqDecision CommandContext.
Proof. solve_decision. Defined.

(** organization.rs [PolicyCommand]. *)
Inductive PolicyCommand : Type :=
| CreateRoleAssignment (context : CommandContext) (principal : VerifiedActor) (role_id unit_id : Uuid)
    (valid_from valid_until : option string) (reason : string)
| RevokeRoleAssignment (context : CommandContext) (assignment_id : Uuid) (reason : string)
| CreateDelegation (context : CommandContext) (source_assignment_id : Uuid) (recipient : VerifiedActor)
    (actions : list PolicyAction) (valid_from : option string) (valid_until reason : string)
| RevokeDelegation (context : CommandContext) (delegation_id : Uuid) (reason : string).

(** ** Fixtures and presentation (context.rs) *)

(** context.rs [ContextFixture]: one synthetic context bound to one two-step workflow. *)
Record ContextFixture : Type := {
  cf_workflow_id : Uuid;
  cf_context_id : Uuid;
  cf_kind : WorkContextKind;
  cf_title : string;
  cf_owner_unit_id : Uuid;
  cf_definition_version_id : Uuid;
  cf_accepted_definitions : list Uuid;
  cf_source_task_id : Uuid;
  cf_source_attempt_id : Uuid;
  cf_next_task_id : Uuid;
  cf_next_attempt_id : Uuid;
  cf_next_step_id : Uuid;
  cf_next_work_type_id : Uuid;
  cf_start : SourceStart
}.

(** context.rs [ModulePriority]. *)
Record ModulePriority : Type := {
  mp_module : ContextModule;
  mp_presentation : ModulePresentation
}.

(** context.rs [WorkViewProfile]. *)
Record WorkViewProfile : Type := {
  wvp_id : Uuid;
  wvp_key : string;
  wvp_label : string;
  wvp_archetype : WorkViewArchetype;
  wvp_primary_grouping : ProfileGrouping;
  wvp_default_sort : string;
  wvp_initial_module : ContextModule;
  wvp_modules : list ModulePriority
}.

(** context.rs [Attention]. *)
Record Attention : Type := {
  at_kind : AttentionKind;
  at_source_id : option Uuid;
  at_due_at : option string
}.
#[global] Instance Attention_eq_dec : EqDecision Attention.
Proof. solve_decision. Defined.

(** context.rs [TaskAttention]. *)
Record TaskAttention : Type := {
  ta_task_id : Uuid;
  ta_attempt_id : Uuid;
  ta_evaluated_at : string;
  ta_items : list Attention
}.

(** context.rs [AttentionAcknowledgement]. *)
Record AttentionAcknowledgement : Type := {
  aa_task_id : Uuid;
  aa_attempt_id : Uuid;
  aa_work_assignment_id : Uuid;
  aa_principal_id : string
}.

(** context.rs [ContextProgressItem]. *)
Record ContextProgressItem : Type := {
  cpi_task_id : Uuid;
  cpi_step_label : string;
  cpi_work_type_id : Uuid;
  cpi_state : TaskState;
  cpi_attempt_number : Z;
  cpi_due_at : option string;
  cpi_assigned : bool
}.

(** context.rs [WorkContextView]. *)
Record WorkContextView : Type := {
  wcv_id : Uuid;
  wcv_kind : WorkContextKind;
  wcv_title : string;
  wcv_owner_unit_id : Uuid;
  wcv_progress : option (list ContextProgressItem);
  wcv_can_read_history : bool;
  wcv_own_task_ids : list Uuid;
  wcv_attention_count : Z
}.

(** context.rs [WorkTarget]. *)
Inductive WorkTarget : Type :=
| WorkTarget_Task (id : Uuid)
| WorkTarget_Artifact (id : Uuid)
| WorkTarget_Snapshot (id : Uuid)
| WorkTarget_ReturnInstruction (id : Uuid)
| WorkTarget_Evidence (id : Uuid)
| WorkTarget_Finding (id : Uuid)
| WorkTarget_AgentExecution (id : Uuid)
| WorkTarget_GeneratedArtifact (id : Uuid)
| WorkTarget_SuggestedAction (id : Uuid)
| WorkTarget_Context (id : Uuid).

(** ** Evidence, findings and decisions (evidence.rs) *)

(** evidence.rs [RevisionRef]. *)
Record RevisionRef : Type := {
  rr_id : Uuid;
  rr_revision : Z
}.
#[global] Instance RevisionRef_eq_dec : EqDecision RevisionRef.
Proof. solve_decision. Defined.

(** evidence.rs [SourceRef]. *)
Record SourceRef : Type := {
  sr_provider_id : string;
  sr_resource_id : Uuid;
  sr_revision_id : Uuid;
  sr_version_id : Uuid
}.
#[global] Instance SourceRef_eq_dec : EqDecision SourceRef.
Proof. solve_decision. Defined.

(** evidence.rs [AuthoritativeLocator]. *)
Record AuthoritativeLocator : Type := {
  al_kind : string;
  al_content_item_id : Uuid;
  al_representation_id : Uuid
}.
#[global] Instance AuthoritativeLocator_eq_dec : EqDecision AuthoritativeLocator.
Proof. solve_decision. Defined.

(** evidence.rs [EvidenceSource]. *)
Record EvidenceSource : Type := {
  es_source_ref : SourceRef;
  es_authoritative_locator : AuthoritativeLocator
}.
#[global] Instance EvidenceSource_eq_dec : EqDecision EvidenceSource.
Proof. solve_decision. Defined.

(** evidence.rs [EvidenceRecord]. *)
Record EvidenceRecord : Type := {
  ev_id : Uuid;
  ev_revision : Z;
  ev_context_id : Uuid;
  ev_task_id : Uuid;
  ev_attempt_id : Uuid;
  ev_created_by : string;
  ev_acting_assignment_id : Uuid;
  ev_origin : string;
  ev_source : EvidenceSource;
  ev_uncertainty : list string;
  ev_conflict_references : list RevisionRef;
  ev_relevant_location_verified : bool;
  ev_policy_disposition : string;
  ev_relevant_location : string;
  ev_fragment_omission_reason : string;
  ev_coverage : string;
  ev_retrieved_at : string;
  ev_recorded_at : string;
  ev_provider_checked_at : string;
  ev_visibility : string
}.
#[global] Instance EvidenceRecord_eq_dec : EqDecision EvidenceRecord.
Proof. solve_decision. Defined.

(** evidence.rs [Finding]. *)
Record Finding : Type := {
  fi_origin_execution_id : option Uuid;
  fi_id : Uuid;
  fi_revision : Z;
  fi_context_id : Uuid;
  fi_task_id : Uuid;
  fi_attempt_id : Uuid;
  fi_uncertainty : list string;
  fi_conflicts : list RevisionRef;
  fi_author : string;
  fi_acting_assignment_id : Uuid;
  fi_claim : string;
  fi_evidence_revision_refs : list RevisionRef;
  fi_supersedes_finding_id : option Uuid;
  fi_visibility : string;
  fi_created_at : string
}.
#[global] Instance Finding_eq_dec : EqDecision Finding.
Proof. solve_decision. Defined.

(** evidence.rs [HumanDecision]. *)
Record HumanDecision : Type := {
  hd_id : Uuid;
  hd_revision : Z;
  hd_context_id : Uuid;
  hd_task_id : Uuid;
  hd_attempt_id : Uuid;
  hd_finding_id : Uuid;
  hd_finding_revision : Z;
  hd_decision : DecisionKind;
  hd_adopted_claim : option string;
  hd_reason : option string;
  hd_evidence_revision_refs : list RevisionRef;
  hd_human_principal : string;
  hd_acting_assignment_id : Uuid;
  hd_created_at : string;
  hd_supersedes_decision_id : option Uuid;
  hd_visibility : string
}.

(** ** Work files (files.rs) *)

(** files.rs [FileGeneration]: one immutable stored content generation. *)
Record FileGeneration : Type := {
  fg_id : Uuid;
  fg_size_bytes : Z;
  fg_sha256 : string;
  fg_stored_at : string;
  fg_provider_id : string
}.
#[global] Instance FileGeneration_eq_dec : EqDecision FileGeneration.
Proof. solve_decision. Defined.

(** files.rs [WorkFile]. *)
Record WorkFile : Type := {
  wk_file_name : string;
  wk_media_type : string;
  wk_generation : option FileGeneration
}.
#[global] Instance WorkFile_eq_dec : EqDecision WorkFile.
Proof. solve_decision. Defined.

(** files.rs [GenerationInput]. *)
Record GenerationInput : Type := {
  gi_id : Uuid;
  gi_size_bytes : Z;
  gi_sha256 : string
}.

(** files.rs [DerivedFrom]. *)
Record DerivedFrom : Type := {
  df_snapshot_id : Uuid;
  df_artifact_id : Uuid
}.
#[global] Instance DerivedFrom_eq_dec : EqDecision DerivedFrom.
Proof. solve_decision. Defined.

(** files.rs [GenerationReceipts]: server verification of stored generations. *)
Inductive GenerationReceipts : Type :=
| Receipts_None
| Receipts_Deferred
| Receipts_Verified (ids : gset Uuid).
#[global] Instance GenerationReceipts_eq_dec : EqDecision GenerationReceipts.
Proof. solve_decision. Defined.

(** ** Agent executions (agent.rs, agent_result.rs) *)

(** agent.rs [ProviderPrincipalBinding]. *)
Record ProviderPrincipalBinding : Type := {
  ppb_provider_id : string;
  ppb_principal_id : string;
  ppb_invocation_kind : string
}.
#[global] Instance ProviderPrincipalBinding_eq_dec : EqDecision ProviderPrincipalBinding.
Proof. solve_decision. Defined.

(** agent_result.rs [AgentSourceOutcome]. *)
Record AgentSourceOutcome : Type := {
  aso_evidence_revision_ref : RevisionRef;
  aso_outcome : AgentSourceUse
}.
#[global] Instance AgentSourceOutcome_eq_dec : EqDecision AgentSourceOutcome.
Proof. solve_decision. Defined.

(** agent.rs [AgentResult]. *)
Record AgentResult : Type := {
  agr_summary : string;
  agr_finding_revision_refs : list RevisionRef;
  agr_evidence_revision_refs : list RevisionRef;
  agr_uncertainty : list string;
  agr_simulated : bool;
  agr_body_analyzed : bool;
  agr_live_llm : bool;
  agr_mcp_wire_executed : bool;
  agr_source_outcomes : list AgentSourceOutcome;
  agr_generated_artifact_ids : list Uuid;
  agr_suggested_action_ids : list Uuid
}.
#[global] Instance AgentResult_eq_dec : EqDecision AgentResult.
Proof. solve_decision. Defined.

(** agent.rs [AgentExecution]. *)
Record AgentExecution : Type := {
  ae_id : Uuid;
  ae_context_id : Uuid;
  ae_work_item_id : Uuid;
  ae_attempt_id : Uuid;
  ae_requested_by : VerifiedActor;
  ae_requester_responsibility : Uuid;
  ae_executed_by : string;
  ae_executor_invocation_kind : string;
  ae_provider_principal_bindings : list ProviderPrincipalBinding;
  ae_effective_context_revision : Z;
  ae_task_revision : Z;
  ae_purpose : string;
  ae_evidence_revision_refs : list RevisionRef;
  ae_status : AgentExecutionStatus;
  ae_started_at : string;
  ae_ended_at : option string;
  ae_result : option AgentResult;
  ae_failure_code : option AgentFailureCode
}.
#[global] Instance AgentExecution_eq_dec : EqDecision AgentExecution.
Proof. solve_decision. Defined.

(** agent.rs [AgentDispatchContext]. *)
Record AgentDispatchContext : Type := {
  adc_execution : AgentExecution;
  adc_evidence : list EvidenceRecord;
  adc_allowed_tools : list AgentReadTool
}.
#[global] Instance AgentDispatchContext_eq_dec : EqDecision AgentDispatchContext.
Proof. solve_decision. Defined.

(** agent_result.rs [AgentFindingCandidate]. *)
Record AgentFindingCandidate : Type := {
  afc_claim : string;
  afc_evidence_revision_refs : list RevisionRef
}.

(** agent_result.rs [GeneratedArtifactCandidate]. *)
Record GeneratedArtifactCandidate : Type := {
  gac_title : string;
  gac_text : string;
  gac_source_revision_refs : list RevisionRef
}.

(** agent_result.rs [ProposedActionCandidate]. *)
Inductive ProposedActionCandidate : Type :=
| Candidate_ReviewFinding
| Candidate_UseGeneratedArtifact (index : nat).

(** agent_result.rs [SuggestedActionCandidate]. *)
Record SuggestedActionCandidate : Type := {
  sac_action : ProposedActionCandidate;
  sac_rationale : string
}.

(** agent_result.rs [AgentOutput]. *)
Record AgentOutput : Type := {
  ao_summary : string;
  ao_uncertainty : list string;
  ao_source_outcomes : list AgentSourceOutcome;
  ao_finding : option AgentFindingCandidate;
  ao_generated_artifacts : list GeneratedArtifactCandidate;
  ao_suggested_actions : list SuggestedActionCandidate
}.

(** lib.rs [TextValue]. *)
Record TextValue : Type := {
  tv_text : string
}.
#[global] Instance TextValue_eq_dec : EqDecision TextValue.
Proof. solve_decision. Defined.

(** agent_result.rs [GeneratedArtifact]. *)
Record GeneratedArtifact : Type := {
  ga_id : Uuid;
  ga_execution_id : Uuid;
  ga_context_id : Uuid;
  ga_work_item_id : Uuid;
  ga_attempt_id : Uuid;
  ga_schema_id : string;
  ga_title : string;
  ga_value : TextValue;
  ga_source_revision_refs : list RevisionRef;
  ga_author : string;
  ga_simulated : bool;
  ga_visibility : string;
  ga_created_at : string
}.

(** agent_result.rs [ProposedAction]. *)
Inductive ProposedAction : Type :=
| ProposedAction_ReviewFinding (finding_revision_ref : RevisionRef)
| ProposedAction_UseGeneratedArtifact (generated_artifact_id : Uuid).

(** agent_result.rs [SuggestedAction]. *)
Record SuggestedAction : Type := {
  sa_id : Uuid;
  sa_execution_id : Uuid;
  sa_context_id : Uuid;
  sa_work_item_id : Uuid;
  sa_attempt_id : Uuid;
  sa_action : ProposedAction;
  sa_rationale : string;
  sa_supporting_revision_refs : list RevisionRef;
  sa_author : string;
  sa_visibility : string;
  sa_created_at : string
}.

(** ** The workflow aggregate (lib.rs) *)

(** lib.rs [WorkingArtifact]. *)
Record WorkingArtifact : Type := {
  wa_id : Uuid;
  wa_task_id : Uuid;
  wa_attempt_id : Uuid;
  wa_revision : Z;
  wa_schema_id : string;
  wa_value : option TextValue;
  wa_visibility : string;
  wa_file : option WorkFile;
  wa_derived_from : option DerivedFrom
}.
#[global] Instance WorkingArtifact_eq_dec : EqDecision WorkingArtifact.
Proof. solve_decision. Defined.

(** lib.rs [PinnedArtifact]. *)
Record PinnedArtifact : Type := {
  pa_artifact_id : Uuid;
  pa_revision : Z;
  pa_schema_id : string;
  pa_value : option TextValue;
  pa_file : option WorkFile
}.
#[global] Instance PinnedArtifact_eq_dec : EqDecision PinnedArtifact.
Proof. solve_decision. Defined.

(** lib.rs [HandoffSnapshot]. *)
Record HandoffSnapshot : Type := {
  hs_evidence_revision_refs : list RevisionRef;
  hs_finding_revision_refs : list RevisionRef;
  hs_decision_revision_refs : list RevisionRef;
  hs_previous_submission_id : option Uuid;
  hs_return_instruction_id : option Uuid;
  hs_id : Uuid;
  hs_workflow_id : Uuid;
  hs_context_id : Uuid;
  hs_submission_number : Z;
  hs_submitted_by : string;
  hs_acting_assignment_id : Uuid;
  hs_source_task_id : Uuid;
  hs_source_attempt_id : Uuid;
  hs_target_task_id : Uuid;
  hs_created_at : string;
  hs_artifacts : list PinnedArtifact
}.
#[global] Instance HandoffSnapshot_eq_dec : EqDecision HandoffSnapshot.
Proof. solve_decision. Defined.

(** lib.rs [ReturnTransition]. *)
Record ReturnTransition : Type := {
  rt_transition_id : Uuid;
  rt_target_task_id : Uuid;
  rt_previous_submission_id : Uuid
}.
#[global] Instance ReturnTransition_eq_dec : EqDecision ReturnTransition.
Proof. solve_decision. Defined.

(** lib.rs [ReturnInstruction]. *)
Record ReturnInstruction : Type := {
  ri_id : Uuid;
  ri_workflow_id : Uuid;
  ri_context_id : Uuid;
  ri_source_task_id : Uuid;
  ri_source_attempt_id : Uuid;
  ri_target_task_id : Uuid;
  ri_target_attempt_id : Uuid;
  ri_previous_submission_id : Uuid;
  ri_transition_id : Uuid;
  ri_reason : string;
  ri_returned_by : string;
  ri_acting_assignment_id : Uuid;
  ri_created_at : string
}.
#[global] Instance ReturnInstruction_eq_dec : EqDecision ReturnInstruction.
Proof. solve_decision. Defined.

(** lib.rs [TaskAssignmentView]. *)
Record TaskAssignmentView : Type := {
  tav_principal_id : string;
  tav_display_name : string;
  tav_acting_assignment_id : Uuid;
  tav_acting_kind : option ResponsibilityKind;
  tav_role_label : option string;
  tav_delegator_principal_id : option string;
  tav_responsibility_effective : bool
}.

(** lib.rs [TaskSummary]. *)
Record TaskSummary : Type := {
  ts_can_hold : bool;
  ts_hold_action_id : option Uuid;
  ts_can_resume : bool;
  ts_resume_action_id : option Uuid;
  ts_can_complete : bool;
  ts_completion_action_id : option Uuid;
  ts_can_request_agent : bool;
  ts_can_register_evidence : bool;
  ts_can_register_finding : bool;
  ts_can_record_decision : bool;
  ts_required_role_id : option Uuid;
  ts_claim_assignment_id : option Uuid;
  ts_can_assign : bool;
  ts_assignment : option TaskAssignmentView;
  ts_work_type_id : Uuid;
  ts_work_type_label : string;
  ts_due_at : option string;
  ts_attention : list Attention;
  ts_context_title : option string;
  ts_attempt_number : Z;
  ts_can_return : bool;
  ts_return_instruction_id : option Uuid;
  ts_return_transition : option ReturnTransition;
  ts_id : Uuid;
  ts_context_id : option Uuid;
  ts_attempt_id : Uuid;
  ts_revision : Z;
  ts_title : string;
  ts_step_label : string;
  ts_state : TaskState;
  ts_can_claim : bool;
  ts_can_edit : bool;
  ts_can_submit : bool;
  ts_handoff_snapshot_id : option Uuid
}.

(** lib.rs [WorkAssignmentRecord]: append-only attribution of one responsibility period. *)
Record WorkAssignmentRecord : Type := {
  war_id : Uuid;
  war_task_id : Uuid;
  war_attempt_id : Uuid;
  war_principal : VerifiedActor;
  war_acting_assignment_id : Uuid;
  war_assigned_by : option VerifiedActor;
  war_manager_assignment_id : option Uuid;
  war_reason : option string;
  war_started_at : string;
  war_ended_at : option string;
  war_ended_by : option VerifiedActor
}.
#[global] Instance WorkAssignmentRecord_eq_dec : EqDecision WorkAssignmentRecord.
Proof. solve_decision. Defined.

(** lib.rs [PolicyAuthority]: the evaluation input that is not persisted. *)
Record PolicyAuthority : Type := {
  auth_policy : option OrganizationPolicy;
  auth_evaluated_at : option Instant;
  auth_acknowledged : option (VerifiedActor * gset Uuid);
  auth_generations : GenerationReceipts
}.

(** lib.rs [InputResourceRef]. *)
Record InputResourceRef : Type := {
  ir_kind : string;
  ir_document_id : Uuid;
  ir_label : string
}.
#[global] Instance InputResourceRef_eq_dec : EqDecision InputResourceRef.
Proof. solve_decision. Defined.

(** lib.rs [HistoryEntry]. *)
Record HistoryEntry : Type := {
  he_kind : string;
  he_occurred_at : string
}.
#[global] Instance HistoryEntry_eq_dec : EqDecision HistoryEntry.
Proof. solve_decision. Defined.

(** context.rs [WorkContextHistory]. *)
Record WorkContextHistory : Type := {
  wch_context_id : Uuid;
  wch_entries : list HistoryEntry
}.

(** lib.rs [TaskDetail]. *)
Record TaskDetail : Type := {
  td_agent_execution_ids : list Uuid;
  td_task : TaskSummary;
  td_input_resources : list InputResourceRef;
  td_history : list HistoryEntry;
  td_working_artifacts : list WorkingArtifact
}.

(** lib.rs [WorkItem]: one attempt of one task. *)
Record WorkItem : Type := {
  wi_return_instruction_id : option Uuid;
  wi_due_at : option string;
  wi_id : Uuid;
  wi_workflow_instance_id : Uuid;
  wi_step_id : Uuid;
  wi_work_type_id : Uuid;
  wi_attempt_number : Z;
  wi_work_assignment_id : option Uuid;
  wi_acting_assignment_id : option Uuid;
  wi_created_at : string;
  wi_completed_at : option string;
  wi_attempt_id : Uuid;
  wi_revision : Z;
  wi_state : TaskState;
  wi_assignee : option VerifiedActor;
  wi_handoff_snapshot_id : option Uuid
}.
#[global] Instance WorkItem_eq_dec : EqDecision WorkItem.
Proof. solve_decision. Defined.

(** lib.rs [Workflow]: the aggregate root, one two-step workflow instance. *)
Record Workflow : Type := {
  wf_agent_executions : list AgentExecution;
  wf_generated_artifacts : list GeneratedArtifact;
  wf_suggested_actions : list SuggestedAction;
  wf_evidence : list EvidenceRecord;
  wf_findings : list Finding;
  wf_decisions : list HumanDecision;
  wf_completed_attempts : list WorkItem;
  wf_return_instructions : list ReturnInstruction;
  wf_assignments : list WorkAssignmentRecord;
  wf_authority : PolicyAuthority;
  wf_id : Uuid;
  wf_definition_version_id : Uuid;
  wf_context_id : Uuid;
  wf_revision : Z;
  wf_source : WorkItem;
  wf_next : option WorkItem;
  wf_artifacts : list WorkingArtifact;
  wf_snapshots : list HandoffSnapshot;
  wf_history : list HistoryEntry;
  wf_input_resources : list InputResourceRef
}.

(** lib.rs [ArtifactSelection]. *)
Record ArtifactSelection : Type := {
  sel_artifact_id : Uuid;
  sel_revision : Z
}.

(** lib.rs [Command]: the Human commands. *)
Inductive Command : Type :=
| Hold (task_id : Uuid) (context : CommandContext) (expected_attempt_id definition_action_id : Uuid)
| Resume (task_id : Uuid) (context : CommandContext) (expected_attempt_id definition_action_id : Uuid)
| Complete (task_id : Uuid) (context : CommandContext) (expected_attempt_id definition_action_id : Uuid)
| RequestAgentExecution (task_id : Uuid) (context : CommandContext) (expected_attempt_id : Uuid)
    (purpose : string) (evidence_revision_refs : list RevisionRef)
| CancelAgentExecution (task_id : Uuid) (context : CommandContext) (expected_attempt_id execution_id : Uuid)
| RegisterEvidence (task_id : Uuid) (context : CommandContext) (expected_attempt_id : Uuid)
    (source : EvidenceSource) (relevant_location : string)
| RegisterFinding (task_id : Uuid) (context : CommandContext) (expected_attempt_id : Uuid)
    (claim : string) (evidence_revision_refs : list RevisionRef) (supersedes_finding_id : option Uuid)
| RecordDecision (task_id : Uuid) (context : CommandContext) (expected_attempt_id finding_id : Uuid)
    (finding_revision : Z) (decision : DecisionKind) (adopted_claim reason : option string)
    (evidence_revision_refs : list RevisionRef) (supersedes_decision_id : option Uuid)
| Return (task_id : Uuid) (context : CommandContext)
    (expected_attempt_id previous_submission_id target_task_id transition_id : Uuid) (reason : string)
| Assign (task_id : Uuid) (context : CommandContext) (expected_attempt_id : Uuid)
    (assignee : VerifiedActor) (assignee_responsibility_id : Uuid) (reason : string)
| SaveDraft (task_id : Uuid) (artifact_id : option Uuid) (context : CommandContext) (value : TextValue)
| Claim (task_id : Uuid) (context : CommandContext)
| CreateFileArtifact (task_id : Uuid) (context : CommandContext) (file_name media_type : string)
| WriteArtifactContent (task_id artifact_id : Uuid) (context : CommandContext)
    (expected_artifact_revision : Z) (generation : GenerationInput)
| DiscardArtifact (task_id artifact_id : Uuid) (context : CommandContext) (expected_artifact_revision : Z)
| ImportSubmission (task_id : Uuid) (context : CommandContext) (expected_attempt_id snapshot_id : Uuid)
| Submit (task_id : Uuid) (context : CommandContext) (artifacts : list ArtifactSelection)
    (expected_attempt_id : option Uuid)
    (evidence_revision_refs finding_revision_refs decision_revision_refs : list RevisionRef).

(** lib.rs [MutationResult]. *)
Inductive MutationResult : Type :=
| MR_Held (task : TaskSummary)
| MR_Resumed (task : TaskSummary)
| MR_Completed (task : TaskSummary)
| MR_AgentExecutionRequested (task : TaskSummary) (execution : AgentExecution)
| MR_AgentExecutionCancelled (task : TaskSummary) (execution : AgentExecution)
| MR_EvidenceRegistered (task : TaskSummary) (evidence : EvidenceRecord)
| MR_FindingRegistered (task : TaskSummary) (finding : Finding)
| MR_DecisionRecorded (task : TaskSummary) (decision : HumanDecision)
| MR_Returned (task : TaskSummary) (return_instruction : ReturnInstruction) (next_task : TaskSummary)
| MR_DraftSaved (task : TaskSummary) (artifact : WorkingArtifact)
| MR_ArtifactCreated (task : TaskSummary) (artifact : WorkingArtifact)
| MR_ArtifactContentWritten (task : TaskSummary) (artifact : WorkingArtifact)
| MR_ArtifactDiscarded (task : TaskSummary) (artifact_id : Uuid)
| MR_SubmissionImported (task : TaskSummary) (artifacts : list WorkingArtifact)
| MR_Claimed (task : TaskSummary)
| MR_Submitted (task : TaskSummary) (snapshot : HandoffSnapshot) (next_task : TaskSummary)
| MR_Assigned (task : TaskSummary) (assignment : WorkAssignmentRecord)
| MR_RoleAssignmentCreated (assignment : RoleAssignment) (policy_revision : Z)
| MR_RoleAssignmentRevoked (assignment : RoleAssignment) (policy_revision : Z)
| MR_DelegationCreated (delegation : Delegation) (policy_revision : Z)
| MR_DelegationRevoked (delegation : Delegation) (policy_revision : Z).
