(* ===== verification/WorkSetters.v ===== *)
(** * WorkSetters: field updates of the mutable records

    [set_<prefix>_<field> x r] is [r] with one field replaced, the model of an assignment
    [r.field = x] through a mutable reference. *)
From stdpp Require Import base gmap sets list strings.
From Stdlib Require Import ZArith.
From S2P Require Import Prelude WorkTypes.

Definition set_op_revision (x : Z) (r : OrganizationPolicy) : OrganizationPolicy :=
  Build_OrganizationPolicy (op_id r) x (op_units r) (op_roles r) (op_role_assignments r)
    (op_delegations r).

Definition set_op_role_assignments (x : list RoleAssignment) (r : OrganizationPolicy) : OrganizationPolicy :=
  Build_OrganizationPolicy (op_id r) (op_revision r) (op_units r) (op_roles r) x (op_delegations
    r).

Definition set_op_delegations (x : list Delegation) (r : OrganizationPolicy) : OrganizationPolicy :=
  Build_OrganizationPolicy (op_id r) (op_revision r) (op_units r) (op_roles r)
    (op_role_assignments r) x.

Definition set_fi_uncertainty (x : list string) (r : Finding) : Finding :=
  Build_Finding (fi_origin_execution_id r) (fi_id r) (fi_revision r) (fi_context_id r)
    (fi_task_id r) (fi_attempt_id r) x (fi_conflicts r) (fi_author r) (fi_acting_assignment_id
    r) (fi_claim r) (fi_evidence_revision_refs r) (fi_supersedes_finding_id r) (fi_visibility r)
    (fi_created_at r).

Definition set_wk_generation (x : option FileGeneration) (r : WorkFile) : WorkFile :=
  Build_WorkFile (wk_file_name r) (wk_media_type r) x.

Definition set_ae_effective_context_revision (x : Z) (r : AgentExecution) : AgentExecution :=
  Build_AgentExecution (ae_id r) (ae_context_id r) (ae_work_item_id r) (ae_attempt_id r)
    (ae_requested_by r) (ae_requester_responsibility r) (ae_executed_by r)
    (ae_executor_invocation_kind r) (ae_provider_principal_bindings r) x (ae_task_revision r)
    (ae_purpose r) (ae_evidence_revision_refs r) (ae_status r) (ae_started_at r) (ae_ended_at r)
    (ae_result r) (ae_failure_code r).

Definition set_ae_task_revision (x : Z) (r : AgentExecution) : AgentExecution :=
  Build_AgentExecution (ae_id r) (ae_context_id r) (ae_work_item_id r) (ae_attempt_id r)
    (ae_requested_by r) (ae_requester_responsibility r) (ae_executed_by r)
    (ae_executor_invocation_kind r) (ae_provider_principal_bindings r)
    (ae_effective_context_revision r) x (ae_purpose r) (ae_evidence_revision_refs r) (ae_status
    r) (ae_started_at r) (ae_ended_at r) (ae_result r) (ae_failure_code r).

Definition set_ae_status (x : AgentExecutionStatus) (r : AgentExecution) : AgentExecution :=
  Build_AgentExecution (ae_id r) (ae_context_id r) (ae_work_item_id r) (ae_attempt_id r)
    (ae_requested_by r) (ae_requester_responsibility r) (ae_executed_by r)
    (ae_executor_invocation_kind r) (ae_provider_principal_bindings r)
    (ae_effective_context_revision r) (ae_task_revision r) (ae_purpose r)
    (ae_evidence_revision_refs r) x (ae_started_at r) (ae_ended_at r) (ae_result r)
    (ae_failure_code r).

Definition set_ae_started_at (x : string) (r : AgentExecution) : AgentExecution :=
  Build_AgentExecution (ae_id r) (ae_context_id r) (ae_work_item_id r) (ae_attempt_id r)
    (ae_requested_by r) (ae_requester_responsibility r) (ae_executed_by r)
    (ae_executor_invocation_kind r) (ae_provider_principal_bindings r)
    (ae_effective_context_revision r) (ae_task_revision r) (ae_purpose r)
    (ae_evidence_revision_refs r) (ae_status r) x (ae_ended_at r) (ae_result r) (ae_failure_code
    r).

Definition set_ae_ended_at (x : option string) (r : AgentExecution) : AgentExecution :=
  Build_AgentExecution (ae_id r) (ae_context_id r) (ae_work_item_id r) (ae_attempt_id r)
    (ae_requested_by r) (ae_requester_responsibility r) (ae_executed_by r)
    (ae_executor_invocation_kind r) (ae_provider_principal_bindings r)
    (ae_effective_context_revision r) (ae_task_revision r) (ae_purpose r)
    (ae_evidence_revision_refs r) (ae_status r) (ae_started_at r) x (ae_result r)
    (ae_failure_code r).

Definition set_ae_result (x : option AgentResult) (r : AgentExecution) : AgentExecution :=
  Build_AgentExecution (ae_id r) (ae_context_id r) (ae_work_item_id r) (ae_attempt_id r)
    (ae_requested_by r) (ae_requester_responsibility r) (ae_executed_by r)
    (ae_executor_invocation_kind r) (ae_provider_principal_bindings r)
    (ae_effective_context_revision r) (ae_task_revision r) (ae_purpose r)
    (ae_evidence_revision_refs r) (ae_status r) (ae_started_at r) (ae_ended_at r) x
    (ae_failure_code r).

Definition set_ae_failure_code (x : option AgentFailureCode) (r : AgentExecution) : AgentExecution :=
  Build_AgentExecution (ae_id r) (ae_context_id r) (ae_work_item_id r) (ae_attempt_id r)
    (ae_requested_by r) (ae_requester_responsibility r) (ae_executed_by r)
    (ae_executor_invocation_kind r) (ae_provider_principal_bindings r)
    (ae_effective_context_revision r) (ae_task_revision r) (ae_purpose r)
    (ae_evidence_revision_refs r) (ae_status r) (ae_started_at r) (ae_ended_at r) (ae_result r)
    x.

Definition set_wa_revision (x : Z) (r : WorkingArtifact) : WorkingArtifact :=
  Build_WorkingArtifact (wa_id r) (wa_task_id r) (wa_attempt_id r) x (wa_schema_id r) (wa_value
    r) (wa_visibility r) (wa_file r) (wa_derived_from r).

Definition set_wa_value (x : option TextValue) (r : WorkingArtifact) : WorkingArtifact :=
  Build_WorkingArtifact (wa_id r) (wa_task_id r) (wa_attempt_id r) (wa_revision r) (wa_schema_id
    r) x (wa_visibility r) (wa_file r) (wa_derived_from r).

Definition set_wa_file (x : option WorkFile) (r : WorkingArtifact) : WorkingArtifact :=
  Build_WorkingArtifact (wa_id r) (wa_task_id r) (wa_attempt_id r) (wa_revision r) (wa_schema_id
    r) (wa_value r) (wa_visibility r) x (wa_derived_from r).

Definition set_war_ended_at (x : option string) (r : WorkAssignmentRecord) : WorkAssignmentRecord :=
  Build_WorkAssignmentRecord (war_id r) (war_task_id r) (war_attempt_id r) (war_principal r)
    (war_acting_assignment_id r) (war_assigned_by r) (war_manager_assignment_id r) (war_reason
    r) (war_started_at r) x (war_ended_by r).

Definition set_war_ended_by (x : option VerifiedActor) (r : WorkAssignmentRecord) : WorkAssignmentRecord :=
  Build_WorkAssignmentRecord (war_id r) (war_task_id r) (war_attempt_id r) (war_principal r)
    (war_acting_assignment_id r) (war_assigned_by r) (war_manager_assignment_id r) (war_reason
    r) (war_started_at r) (war_ended_at r) x.

Definition set_auth_evaluated_at (x : option Instant) (r : PolicyAuthority) : PolicyAuthority :=
  Build_PolicyAuthority (auth_policy r) x (auth_acknowledged r) (auth_generations r).

Definition set_auth_acknowledged (x : option (VerifiedActor * gset Uuid)) (r : PolicyAuthority) : PolicyAuthority :=
  Build_PolicyAuthority (auth_policy r) (auth_evaluated_at r) x (auth_generations r).

Definition set_auth_generations (x : GenerationReceipts) (r : PolicyAuthority) : PolicyAuthority :=
  Build_PolicyAuthority (auth_policy r) (auth_evaluated_at r) (auth_acknowledged r) x.

Definition set_wi_return_instruction_id (x : option Uuid) (r : WorkItem) : WorkItem :=
  Build_WorkItem x (wi_due_at r) (wi_id r) (wi_workflow_instance_id r) (wi_step_id r)
    (wi_work_type_id r) (wi_attempt_number r) (wi_work_assignment_id r) (wi_acting_assignment_id
    r) (wi_created_at r) (wi_completed_at r) (wi_attempt_id r) (wi_revision r) (wi_state r)
    (wi_assignee r) (wi_handoff_snapshot_id r).

Definition set_wi_due_at (x : option string) (r : WorkItem) : WorkItem :=
  Build_WorkItem (wi_return_instruction_id r) x (wi_id r) (wi_workflow_instance_id r)
    (wi_step_id r) (wi_work_type_id r) (wi_attempt_number r) (wi_work_assignment_id r)
    (wi_acting_assignment_id r) (wi_created_at r) (wi_completed_at r) (wi_attempt_id r)
    (wi_revision r) (wi_state r) (wi_assignee r) (wi_handoff_snapshot_id r).

Definition set_wi_id (x : Uuid) (r : WorkItem) : WorkItem :=
  Build_WorkItem (wi_return_instruction_id r) (wi_due_at r) x (wi_workflow_instance_id r)
    (wi_step_id r) (wi_work_type_id r) (wi_attempt_number r) (wi_work_assignment_id r)
    (wi_acting_assignment_id r) (wi_created_at r) (wi_completed_at r) (wi_attempt_id r)
    (wi_revision r) (wi_state r) (wi_assignee r) (wi_handoff_snapshot_id r).

Definition set_wi_workflow_instance_id (x : Uuid) (r : WorkItem) : WorkItem :=
  Build_WorkItem (wi_return_instruction_id r) (wi_due_at r) (wi_id r) x (wi_step_id r)
    (wi_work_type_id r) (wi_attempt_number r) (wi_work_assignment_id r) (wi_acting_assignment_id
    r) (wi_created_at r) (wi_completed_at r) (wi_attempt_id r) (wi_revision r) (wi_state r)
    (wi_assignee r) (wi_handoff_snapshot_id r).

Definition set_wi_step_id (x : Uuid) (r : WorkItem) : WorkItem :=
  Build_WorkItem (wi_return_instruction_id r) (wi_due_at r) (wi_id r) (wi_workflow_instance_id
    r) x (wi_work_type_id r) (wi_attempt_number r) (wi_work_assignment_id r)
    (wi_acting_assignment_id r) (wi_created_at r) (wi_completed_at r) (wi_attempt_id r)
    (wi_revision r) (wi_state r) (wi_assignee r) (wi_handoff_snapshot_id r).

Definition set_wi_work_type_id (x : Uuid) (r : WorkItem) : WorkItem :=
  Build_WorkItem (wi_return_instruction_id r) (wi_due_at r) (wi_id r) (wi_workflow_instance_id
    r) (wi_step_id r) x (wi_attempt_number r) (wi_work_assignment_id r) (wi_acting_assignment_id
    r) (wi_created_at r) (wi_completed_at r) (wi_attempt_id r) (wi_revision r) (wi_state r)
    (wi_assignee r) (wi_handoff_snapshot_id r).

Definition set_wi_attempt_number (x : Z) (r : WorkItem) : WorkItem :=
  Build_WorkItem (wi_return_instruction_id r) (wi_due_at r) (wi_id r) (wi_workflow_instance_id
    r) (wi_step_id r) (wi_work_type_id r) x (wi_work_assignment_id r) (wi_acting_assignment_id
    r) (wi_created_at r) (wi_completed_at r) (wi_attempt_id r) (wi_revision r) (wi_state r)
    (wi_assignee r) (wi_handoff_snapshot_id r).

Definition set_wi_work_assignment_id (x : option Uuid) (r : WorkItem) : WorkItem :=
  Build_WorkItem (wi_return_instruction_id r) (wi_due_at r) (wi_id r) (wi_workflow_instance_id
    r) (wi_step_id r) (wi_work_type_id r) (wi_attempt_number r) x (wi_acting_assignment_id r)
    (wi_created_at r) (wi_completed_at r) (wi_attempt_id r) (wi_revision r) (wi_state r)
    (wi_assignee r) (wi_handoff_snapshot_id r).

Definition set_wi_acting_assignment_id (x : option Uuid) (r : WorkItem) : WorkItem :=
  Build_WorkItem (wi_return_instruction_id r) (wi_due_at r) (wi_id r) (wi_workflow_instance_id
    r) (wi_step_id r) (wi_work_type_id r) (wi_attempt_number r) (wi_work_assignment_id r) x
    (wi_created_at r) (wi_completed_at r) (wi_attempt_id r) (wi_revision r) (wi_state r)
    (wi_assignee r) (wi_handoff_snapshot_id r).

Definition set_wi_created_at (x : string) (r : WorkItem) : WorkItem :=
  Build_WorkItem (wi_return_instruction_id r) (wi_due_at r) (wi_id r) (wi_workflow_instance_id
    r) (wi_step_id r) (wi_work_type_id r) (wi_attempt_number r) (wi_work_assignment_id r)
    (wi_acting_assignment_id r) x (wi_completed_at r) (wi_attempt_id r) (wi_revision r)
    (wi_state r) (wi_assignee r) (wi_handoff_snapshot_id r).

Definition set_wi_completed_at (x : option string) (r : WorkItem) : WorkItem :=
  Build_WorkItem (wi_return_instruction_id r) (wi_due_at r) (wi_id r) (wi_workflow_instance_id
    r) (wi_step_id r) (wi_work_type_id r) (wi_attempt_number r) (wi_work_assignment_id r)
    (wi_acting_assignment_id r) (wi_created_at r) x (wi_attempt_id r) (wi_revision r) (wi_state
    r) (wi_assignee r) (wi_handoff_snapshot_id r).

Definition set_wi_attempt_id (x : Uuid) (r : WorkItem) : WorkItem :=
  Build_WorkItem (wi_return_instruction_id r) (wi_due_at r) (wi_id r) (wi_workflow_instance_id
    r) (wi_step_id r) (wi_work_type_id r) (wi_attempt_number r) (wi_work_assignment_id r)
    (wi_acting_assignment_id r) (wi_created_at r) (wi_completed_at r) x (wi_revision r)
    (wi_state r) (wi_assignee r) (wi_handoff_snapshot_id r).

Definition set_wi_revision (x : Z) (r : WorkItem) : WorkItem :=
  Build_WorkItem (wi_return_instruction_id r) (wi_due_at r) (wi_id r) (wi_workflow_instance_id
    r) (wi_step_id r) (wi_work_type_id r) (wi_attempt_number r) (wi_work_assignment_id r)
    (wi_acting_assignment_id r) (wi_created_at r) (wi_completed_at r) (wi_attempt_id r) x
    (wi_state r) (wi_assignee r) (wi_handoff_snapshot_id r).

Definition set_wi_state (x : TaskState) (r : WorkItem) : WorkItem :=
  Build_WorkItem (wi_return_instruction_id r) (wi_due_at r) (wi_id r) (wi_workflow_instance_id
    r) (wi_step_id r) (wi_work_type_id r) (wi_attempt_number r) (wi_work_assignment_id r)
    (wi_acting_assignment_id r) (wi_created_at r) (wi_completed_at r) (wi_attempt_id r)
    (wi_revision r) x (wi_assignee r) (wi_handoff_snapshot_id r).

Definition set_wi_assignee (x : option VerifiedActor) (r : WorkItem) : WorkItem :=
  Build_WorkItem (wi_return_instruction_id r) (wi_due_at r) (wi_id r) (wi_workflow_instance_id
    r) (wi_step_id r) (wi_work_type_id r) (wi_attempt_number r) (wi_work_assignment_id r)
    (wi_acting_assignment_id r) (wi_created_at r) (wi_completed_at r) (wi_attempt_id r)
    (wi_revision r) (wi_state r) x (wi_handoff_snapshot_id r).

Definition set_wi_handoff_snapshot_id (x : option Uuid) (r : WorkItem) : WorkItem :=
  Build_WorkItem (wi_return_instruction_id r) (wi_due_at r) (wi_id r) (wi_workflow_instance_id
    r) (wi_step_id r) (wi_work_type_id r) (wi_attempt_number r) (wi_work_assignment_id r)
    (wi_acting_assignment_id r) (wi_created_at r) (wi_completed_at r) (wi_attempt_id r)
    (wi_revision r) (wi_state r) (wi_assignee r) x.

Definition set_wf_agent_executions (x : list AgentExecution) (r : Workflow) : Workflow :=
  Build_Workflow x (wf_generated_artifacts r) (wf_suggested_actions r) (wf_evidence r)
    (wf_findings r) (wf_decisions r) (wf_completed_attempts r) (wf_return_instructions r)
    (wf_assignments r) (wf_authority r) (wf_id r) (wf_definition_version_id r) (wf_context_id r)
    (wf_revision r) (wf_source r) (wf_next r) (wf_artifacts r) (wf_snapshots r) (wf_history r)
    (wf_input_resources r).

Definition set_wf_generated_artifacts (x : list GeneratedArtifact) (r : Workflow) : Workflow :=
  Build_Workflow (wf_agent_executions r) x (wf_suggested_actions r) (wf_evidence r) (wf_findings
    r) (wf_decisions r) (wf_completed_attempts r) (wf_return_instructions r) (wf_assignments r)
    (wf_authority r) (wf_id r) (wf_definition_version_id r) (wf_context_id r) (wf_revision r)
    (wf_source r) (wf_next r) (wf_artifacts r) (wf_snapshots r) (wf_history r)
    (wf_input_resources r).

Definition set_wf_suggested_actions (x : list SuggestedAction) (r : Workflow) : Workflow :=
  Build_Workflow (wf_agent_executions r) (wf_generated_artifacts r) x (wf_evidence r)
    (wf_findings r) (wf_decisions r) (wf_completed_attempts r) (wf_return_instructions r)
    (wf_assignments r) (wf_authority r) (wf_id r) (wf_definition_version_id r) (wf_context_id r)
    (wf_revision r) (wf_source r) (wf_next r) (wf_artifacts r) (wf_snapshots r) (wf_history r)
    (wf_input_resources r).

Definition set_wf_evidence (x : list EvidenceRecord) (r : Workflow) : Workflow :=
  Build_Workflow (wf_agent_executions r) (wf_generated_artifacts r) (wf_suggested_actions r) x
    (wf_findings r) (wf_decisions r) (wf_completed_attempts r) (wf_return_instructions r)
    (wf_assignments r) (wf_authority r) (wf_id r) (wf_definition_version_id r) (wf_context_id r)
    (wf_revision r) (wf_source r) (wf_next r) (wf_artifacts r) (wf_snapshots r) (wf_history r)
    (wf_input_resources r).

Definition set_wf_findings (x : list Finding) (r : Workflow) : Workflow :=
  Build_Workflow (wf_agent_executions r) (wf_generated_artifacts r) (wf_suggested_actions r)
    (wf_evidence r) x (wf_decisions r) (wf_completed_attempts r) (wf_return_instructions r)
    (wf_assignments r) (wf_authority r) (wf_id r) (wf_definition_version_id r) (wf_context_id r)
    (wf_revision r) (wf_source r) (wf_next r) (wf_artifacts r) (wf_snapshots r) (wf_history r)
    (wf_input_resources r).

Definition set_wf_decisions (x : list HumanDecision) (r : Workflow) : Workflow :=
  Build_Workflow (wf_agent_executions r) (wf_generated_artifacts r) (wf_suggested_actions r)
    (wf_evidence r) (wf_findings r) x (wf_completed_attempts r) (wf_return_instructions r)
    (wf_assignments r) (wf_authority r) (wf_id r) (wf_definition_version_id r) (wf_context_id r)
    (wf_revision r) (wf_source r) (wf_next r) (wf_artifacts r) (wf_snapshots r) (wf_history r)
    (wf_input_resources r).

Definition set_wf_completed_attempts (x : list WorkItem) (r : Workflow) : Workflow :=
  Build_Workflow (wf_agent_executions r) (wf_generated_artifacts r) (wf_suggested_actions r)
    (wf_evidence r) (wf_findings r) (wf_decisions r) x (wf_return_instructions r)
    (wf_assignments r) (wf_authority r) (wf_id r) (wf_definition_version_id r) (wf_context_id r)
    (wf_revision r) (wf_source r) (wf_next r) (wf_artifacts r) (wf_snapshots r) (wf_history r)
    (wf_input_resources r).

Definition set_wf_return_instructions (x : list ReturnInstruction) (r : Workflow) : Workflow :=
  Build_Workflow (wf_agent_executions r) (wf_generated_artifacts r) (wf_suggested_actions r)
    (wf_evidence r) (wf_findings r) (wf_decisions r) (wf_completed_attempts r) x (wf_assignments
    r) (wf_authority r) (wf_id r) (wf_definition_version_id r) (wf_context_id r) (wf_revision r)
    (wf_source r) (wf_next r) (wf_artifacts r) (wf_snapshots r) (wf_history r)
    (wf_input_resources r).

Definition set_wf_assignments (x : list WorkAssignmentRecord) (r : Workflow) : Workflow :=
  Build_Workflow (wf_agent_executions r) (wf_generated_artifacts r) (wf_suggested_actions r)
    (wf_evidence r) (wf_findings r) (wf_decisions r) (wf_completed_attempts r)
    (wf_return_instructions r) x (wf_authority r) (wf_id r) (wf_definition_version_id r)
    (wf_context_id r) (wf_revision r) (wf_source r) (wf_next r) (wf_artifacts r) (wf_snapshots
    r) (wf_history r) (wf_input_resources r).

Definition set_wf_authority (x : PolicyAuthority) (r : Workflow) : Workflow :=
  Build_Workflow (wf_agent_executions r) (wf_generated_artifacts r) (wf_suggested_actions r)
    (wf_evidence r) (wf_findings r) (wf_decisions r) (wf_completed_attempts r)
    (wf_return_instructions r) (wf_assignments r) x (wf_id r) (wf_definition_version_id r)
    (wf_context_id r) (wf_revision r) (wf_source r) (wf_next r) (wf_artifacts r) (wf_snapshots
    r) (wf_history r) (wf_input_resources r).

Definition set_wf_id (x : Uuid) (r : Workflow) : Workflow :=
  Build_Workflow (wf_agent_executions r) (wf_generated_artifacts r) (wf_suggested_actions r)
    (wf_evidence r) (wf_findings r) (wf_decisions r) (wf_completed_attempts r)
    (wf_return_instructions r) (wf_assignments r) (wf_authority r) x (wf_definition_version_id
    r) (wf_context_id r) (wf_revision r) (wf_source r) (wf_next r) (wf_artifacts r)
    (wf_snapshots r) (wf_history r) (wf_input_resources r).

Definition set_wf_definition_version_id (x : Uuid) (r : Workflow) : Workflow :=
  Build_Workflow (wf_agent_executions r) (wf_generated_artifacts r) (wf_suggested_actions r)
    (wf_evidence r) (wf_findings r) (wf_decisions r) (wf_completed_attempts r)
    (wf_return_instructions r) (wf_assignments r) (wf_authority r) (wf_id r) x (wf_context_id r)
    (wf_revision r) (wf_source r) (wf_next r) (wf_artifacts r) (wf_snapshots r) (wf_history r)
    (wf_input_resources r).

Definition set_wf_context_id (x : Uuid) (r : Workflow) : Workflow :=
  Build_Workflow (wf_agent_executions r) (wf_generated_artifacts r) (wf_suggested_actions r)
    (wf_evidence r) (wf_findings r) (wf_decisions r) (wf_completed_attempts r)
    (wf_return_instructions r) (wf_assignments r) (wf_authority r) (wf_id r)
    (wf_definition_version_id r) x (wf_revision r) (wf_source r) (wf_next r) (wf_artifacts r)
    (wf_snapshots r) (wf_history r) (wf_input_resources r).

Definition set_wf_revision (x : Z) (r : Workflow) : Workflow :=
  Build_Workflow (wf_agent_executions r) (wf_generated_artifacts r) (wf_suggested_actions r)
    (wf_evidence r) (wf_findings r) (wf_decisions r) (wf_completed_attempts r)
    (wf_return_instructions r) (wf_assignments r) (wf_authority r) (wf_id r)
    (wf_definition_version_id r) (wf_context_id r) x (wf_source r) (wf_next r) (wf_artifacts r)
    (wf_snapshots r) (wf_history r) (wf_input_resources r).

Definition set_wf_source (x : WorkItem) (r : Workflow) : Workflow :=
  Build_Workflow (wf_agent_executions r) (wf_generated_artifacts r) (wf_suggested_actions r)
    (wf_evidence r) (wf_findings r) (wf_decisions r) (wf_completed_attempts r)
    (wf_return_instructions r) (wf_assignments r) (wf_authority r) (wf_id r)
    (wf_definition_version_id r) (wf_context_id r) (wf_revision r) x (wf_next r) (wf_artifacts
    r) (wf_snapshots r) (wf_history r) (wf_input_resources r).

Definition set_wf_next (x : option WorkItem) (r : Workflow) : Workflow :=
  Build_Workflow (wf_agent_executions r) (wf_generated_artifacts r) (wf_suggested_actions r)
    (wf_evidence r) (wf_findings r) (wf_decisions r) (wf_completed_attempts r)
    (wf_return_instructions r) (wf_assignments r) (wf_authority r) (wf_id r)
    (wf_definition_version_id r) (wf_context_id r) (wf_revision r) (wf_source r) x (wf_artifacts
    r) (wf_snapshots r) (wf_history r) (wf_input_resources r).

Definition set_wf_artifacts (x : list WorkingArtifact) (r : Workflow) : Workflow :=
  Build_Workflow (wf_agent_executions r) (wf_generated_artifacts r) (wf_suggested_actions r)
    (wf_evidence r) (wf_findings r) (wf_decisions r) (wf_completed_attempts r)
    (wf_return_instructions r) (wf_assignments r) (wf_authority r) (wf_id r)
    (wf_definition_version_id r) (wf_context_id r) (wf_revision r) (wf_source r) (wf_next r) x
    (wf_snapshots r) (wf_history r) (wf_input_resources r).

Definition set_wf_snapshots (x : list HandoffSnapshot) (r : Workflow) : Workflow :=
  Build_Workflow (wf_agent_executions r) (wf_generated_artifacts r) (wf_suggested_actions r)
    (wf_evidence r) (wf_findings r) (wf_decisions r) (wf_completed_attempts r)
    (wf_return_instructions r) (wf_assignments r) (wf_authority r) (wf_id r)
    (wf_definition_version_id r) (wf_context_id r) (wf_revision r) (wf_source r) (wf_next r)
    (wf_artifacts r) x (wf_history r) (wf_input_resources r).

Definition set_wf_history (x : list HistoryEntry) (r : Workflow) : Workflow :=
  Build_Workflow (wf_agent_executions r) (wf_generated_artifacts r) (wf_suggested_actions r)
    (wf_evidence r) (wf_findings r) (wf_decisions r) (wf_completed_attempts r)
    (wf_return_instructions r) (wf_assignments r) (wf_authority r) (wf_id r)
    (wf_definition_version_id r) (wf_context_id r) (wf_revision r) (wf_source r) (wf_next r)
    (wf_artifacts r) (wf_snapshots r) x (wf_input_resources r).

Definition set_wf_input_resources (x : list InputResourceRef) (r : Workflow) : Workflow :=
  Build_Workflow (wf_agent_executions r) (wf_generated_artifacts r) (wf_suggested_actions r)
    (wf_evidence r) (wf_findings r) (wf_decisions r) (wf_completed_attempts r)
    (wf_return_instructions r) (wf_assignments r) (wf_authority r) (wf_id r)
    (wf_definition_version_id r) (wf_context_id r) (wf_revision r) (wf_source r) (wf_next r)
    (wf_artifacts r) (wf_snapshots r) (wf_history r) x.
