(* ===== verification/Text.v ===== *)
(** * Text: [str] operations and the text validators of the work-domain crate

    A Rust [str] is its UTF-8 bytes, here a Rocq [string] of bytes; [chars] decodes it to
    Unicode scalar values.  The validators are those of evidence.rs, organization.rs,
    files.rs and agent_result.rs. *)
From stdpp Require Import base gmap sets list strings.
From Stdlib Require Import ZArith Lia Ascii.
From S2P Require Import Prelude WorkTypes.

Local Open Scope Z_scope.

(** ** UTF-8 *)

Definition byte_of_ascii (c : ascii) : Z := Z.of_N (N_of_ascii c).

Fixpoint bytes (s : string) : list Z :=
  match s with
  | EmptyString => []
  | String c s => byte_of_ascii c :: bytes s
  end.

(** [str::len]: the number of bytes. *)
Definition str_len (s : string) : Z := Z.of_nat (String.length s).

(** Continuation payload of a byte [10xxxxxx]. *)
Definition cont (b : Z) : Z := Z.land b 63.

(** [str::chars] on the bytes of a valid string; a truncated sequence, which a [str] never
    holds, ends the iteration. *)
Fixpoint decode (bs : list Z) : list Z :=
  match bs with
  | [] => []
  | b0 :: r0 =>
      if b0 <? 128 then b0 :: decode r0
      else
        match r0 with
        | [] => []
        | b1 :: r1 =>
            if b0 <? 224 then Z.lor (Z.shiftl (Z.land b0 31) 6) (cont b1) :: decode r1
            else
              match r1 with
              | [] => []
              | b2 :: r2 =>
                  if b0 <? 240 then
                    Z.lor (Z.shiftl (Z.land b0 15) 12) (Z.lor (Z.shiftl (cont b1) 6) (cont b2))
                    :: decode r2
                  else
                    match r2 with
                    | [] => []
                    | b3 :: r3 =>
                        Z.lor (Z.shiftl (Z.land b0 7) 18)
                          (Z.lor (Z.shiftl (cont b1) 12) (Z.lor (Z.shiftl (cont b2) 6) (cont b3)))
                        :: decode r3
                    end
              end
        end
  end.

Definition chars (s : string) : list Z := decode (bytes s).

Definition in_range (lo hi c : Z) : bool := (lo <=? c) && (c <=? hi).

(** [char::is_whitespace]: the Unicode property White_Space. *)
Definition is_whitespace (c : Z) : bool :=
  in_range 9 13 c || (c =? 32) || (c =? 133) || (c =? 160) || (c =? 5760)
  || in_range 8192 8202 c || (c =? 8232) || (c =? 8233) || (c =? 8239) || (c =? 8287)
  || (c =? 12288).

(** [char::is_control]: the Unicode category Cc. *)
Definition is_control (c : Z) : bool := in_range 0 31 c || in_range 127 159 c.

Fixpoint trim_start (cs : list Z) : list Z :=
  match cs with
  | [] => []
  | c :: r => if is_whitespace c then trim_start r else c :: r
  end.

(** [str::trim]. *)
Definition trim (s : string) : list Z := rev (trim_start (rev (trim_start (chars s)))).

Definition is_empty {A} (l : list A) : bool :=
  match l with [] => true | _ => false end.

(** The bytes of a character, and a string from its characters: [decode] backwards. *)
Definition encode_char (c : Z) : list Z :=
  let tail k := Z.lor 128 (Z.land (Z.shiftr c k) 63) in
  if c <? 128 then [c]
  else if c <? 2048 then [Z.lor 192 (Z.shiftr c 6); tail 0]
  else if c <? 65536 then [Z.lor 224 (Z.shiftr c 12); tail 6; tail 0]
  else [Z.lor 240 (Z.shiftr c 18); tail 12; tail 6; tail 0].

Definition of_bytes (bs : list Z) : string :=
  fold_right (fun b s => String (ascii_of_N (Z.to_N b)) s) EmptyString bs.

Definition of_chars (cs : list Z) : string := of_bytes (flat_map encode_char cs).

(** [std::str::from_utf8]: the bytes are the encoding of the scalar values they decode to. *)
Definition is_scalar (c : Z) : bool := in_range 0 0xD7FF c || in_range 0xE000 0x10FFFF c.

Definition from_utf8 (bs : list Z) : option string :=
  let cs := decode bs in
  if forallb is_scalar cs && (flat_map encode_char cs == bs) then Some (of_bytes bs) else None.

(** [str::trim], as a string. *)
Definition trimmed (s : string) : string := of_chars (trim s).

(** [str::split] at the characters of a list; at least one piece, possibly empty ones; for
    ASCII separators bytes and characters agree. *)
Fixpoint split_at_any (seps : list Z) (s : string) : list string :=
  match s with
  | EmptyString => [EmptyString]
  | String c r =>
      if contains seps (byte_of_ascii c) then EmptyString :: split_at_any seps r
      else
        match split_at_any seps r with
        | [] => [String c EmptyString]
        | piece :: pieces => String c piece :: pieces
        end
  end.

(** [str::starts_with] of an ASCII character, and [str::contains]. *)
Definition starts_with (s : string) (c : Z) : bool :=
  match bytes s with [] => false | b :: _ => b =? c end.

Definition contains_char (s : string) (c : Z) : bool := contains (bytes s) c.

(** [str::split_once('/')]: the separator is one ASCII byte. *)
Fixpoint split_once_slash (s : string) : option (string * string) :=
  match s with
  | EmptyString => None
  | String c r =>
      if byte_of_ascii c =? 47 then Some (EmptyString, r)
      else
        match split_once_slash r with
        | Some (k, t) => Some (String c k, t)
        | None => None
        end
  end.

Definition is_ascii_digit (b : Z) : bool := in_range 48 57 b.

Definition is_ascii_alphanumeric (b : Z) : bool :=
  in_range 48 57 b || in_range 65 90 b || in_range 97 122 b.

(** ** Bytes and strings *)

Definition byte (b : Z) : Prop := 0 <= b < 256.

Lemma bytes_of_bytes bs : Forall byte bs -> bytes (of_bytes bs) = bs.
Proof.
  unfold of_bytes, byte. induction 1 as [|b bs Hb _ IH]; cbn; [done|]. rewrite IH. f_equal.
  unfold byte_of_ascii. rewrite N_ascii_embedding; lia.
Qed.

Lemma of_bytes_bytes s : of_bytes (bytes s) = s.
Proof.
  induction s as [|c s IH]; [done|]. cbn. fold (of_bytes (bytes s)). rewrite IH. f_equal.
  unfold byte_of_ascii. by rewrite N2Z.id, ascii_N_embedding.
Qed.

Lemma bytes_byte s : Forall byte (bytes s).
Proof.
  induction s as [|c s IH]; constructor; [|done]. unfold byte, byte_of_ascii.
  pose proof (N_ascii_bounded c). lia.
Qed.

Lemma str_len_bytes s : str_len s = len (bytes s).
Proof. unfold str_len, len. f_equal. induction s; cbn; congruence. Qed.

(** ** Validators *)

Definition MAX_TEXT_BYTES : Z := 8 * 1024.
Definition MAX_POLICY_REASON_BYTES : Z := 1024.
Definition MAX_FILE_NAME_BYTES : Z := 255.
Definition MAX_MEDIA_TYPE_BYTES : Z := 127.
Definition MAX_CANDIDATE_TITLE_BYTES : Z := 200.

(** evidence.rs [bounded_text]. *)
Definition bounded_text (value : string) : WResult unit :=
  if is_empty (trim value) || (MAX_TEXT_BYTES <? str_len value)
  then Err ValidationFailed
  else Ok tt.

(** organization.rs [bounded_reason]. *)
Definition bounded_reason (value : string) : WResult unit :=
  if is_empty (trim value)
     || (MAX_POLICY_REASON_BYTES <? str_len value)
     || existsb (fun c => is_control c && negb ((c =? 10) || (c =? 13) || (c =? 9))) (chars value)
  then Err ValidationFailed
  else Ok tt.

(** agent_result.rs [valid_candidate_title]. *)
Definition valid_candidate_title (title : string) : WResult unit :=
  if is_empty (trim title)
     || (MAX_CANDIDATE_TITLE_BYTES <? str_len title)
     || existsb is_control (chars title)
  then Err ValidationFailed
  else Ok tt.

(** Bidirectional and invisible format controls that can disguise an extension. *)
Definition disguising (value : Z) : bool :=
  (value =? 0x061C) || in_range 0x200B 0x200F value || in_range 0x202A 0x202E value
  || in_range 0x2066 0x2069 value || (value =? 0xFEFF).

Definition valid_file_name (name : string) : bool :=
  negb (is_empty (bytes name))
  && (str_len name <=? MAX_FILE_NAME_BYTES)
  && (name != ".") && (name != "..")
  && negb (existsb
             (fun value => (value =? 47) || (value =? 92) || is_control value || disguising value)
             (chars name)).

(** The closure [token] of [valid_media_type]; the byte string is [!#$&-^_.+]. *)
Definition media_token (part : string) : bool :=
  negb (is_empty (bytes part))
  && forallb
       (fun byte => is_ascii_alphanumeric byte
                    || contains [33; 35; 36; 38; 45; 94; 95; 46; 43] byte)
       (bytes part).

Definition valid_media_type (value : string) : bool :=
  (str_len value <=? MAX_MEDIA_TYPE_BYTES)
  && is_some_and (split_once_slash value)
       (fun '(kind, subtype) => media_token kind && media_token subtype).

Definition valid_sha256 (value : string) : bool :=
  (str_len value =? 64)
  && forallb (fun byte => is_ascii_digit byte || in_range 97 102 byte) (bytes value).

(** ** Examples *)

Example chars_japanese : chars "営業" = [0x55B6; 0x696D].
Proof. vm_compute. reflexivity. Qed.

(** U+3000, the ideographic space, in UTF-8. *)
Example trim_ideographic_space :
  trim (String (ascii_of_nat 227) (String (ascii_of_nat 128) (String (ascii_of_nat 128) "")))
  = [].
Proof. vm_compute. reflexivity. Qed.

Example trimmed_japanese : trimmed "  営業 " = "営業".
Proof. vm_compute. reflexivity. Qed.

Example split_slashes : split_at_any [47; 92] "a/bc\/" = ["a"; "bc"; ""; ""].
Proof. vm_compute. reflexivity. Qed.
