(* ===== verification/Ordered.v ===== *)
(** * Ordered: Rust's [Ord], [BTreeMap] and [slice::sort]

    The crates below the domain model group and sort by derived orders.  [Ord] is a comparison
    function and [OrdLaws] what [#[derive(Ord)]] promises of it; [BTreeMap] is the list of
    entries in ascending key order, which is what iterating over one yields. *)
From stdpp Require Import base gmap sets list strings sorting.
From Stdlib Require Import ZArith Lia Ascii.
From S2P Require Import Prelude Text.

(** ** Orders *)

Class Ord (K : Type) : Type := cmp : K -> K -> comparison.

Class OrdLaws (K : Type) `{Ord K} : Prop := {
  cmp_eq : forall a b, cmp a b = Eq <-> a = b;
  cmp_swap : forall a b, cmp b a = CompOpp (cmp a b);
  cmp_lt_trans : forall a b c, cmp a b = Lt -> cmp b c = Lt -> cmp a c = Lt
}.

(** [Ordering::then]: the next field decides when the first is equal. *)
Definition and_then (o o' : comparison) : comparison :=
  match o with Eq => o' | _ => o end.

#[global] Instance Z_ord : Ord Z := Z.compare.
#[global] Instance N_ord : Ord N := N.compare.

Fixpoint list_cmp {K} (c : K -> K -> comparison) (l k : list K) : comparison :=
  match l, k with
  | [], [] => Eq
  | [], _ :: _ => Lt
  | _ :: _, [] => Gt
  | a :: l, b :: k => and_then (c a b) (list_cmp c l k)
  end.

#[global] Instance list_ord {K} `{Ord K} : Ord (list K) := list_cmp cmp.

(** A [str] compares by its bytes. *)
#[global] Instance string_ord : Ord string := fun s t => cmp (bytes s) (bytes t).

#[global] Instance pair_ord {K L} `{Ord K, Ord L} : Ord (K * L) :=
  fun a b => and_then (cmp a.1 b.1) (cmp a.2 b.2).

#[global] Instance option_ord {K} `{Ord K} : Ord (option K) := fun a b =>
  match a, b with
  | None, None => Eq
  | None, Some _ => Lt
  | Some _, None => Gt
  | Some a, Some b => cmp a b
  end.

(** ** Their laws *)

Lemma cmp_refl {K} `{OrdLaws K} (a : K) : cmp a a = Eq.
Proof. by apply cmp_eq. Qed.

Lemma cmp_gt_lt {K} `{OrdLaws K} (a b : K) : cmp a b = Gt <-> cmp b a = Lt.
Proof. rewrite (cmp_swap a b). destruct (cmp a b); cbn; naive_solver. Qed.

#[global] Instance Z_ord_laws : OrdLaws Z.
Proof.
  split; unfold cmp, Z_ord.
  - apply Z.compare_eq_iff.
  - intros a b. apply Z.compare_antisym.
  - intros a b c. rewrite !Z.compare_lt_iff. lia.
Qed.

#[global] Instance N_ord_laws : OrdLaws N.
Proof.
  split; unfold cmp, N_ord.
  - apply N.compare_eq_iff.
  - intros a b. apply N.compare_antisym.
  - intros a b c. rewrite !N.compare_lt_iff. lia.
Qed.

#[global] Instance list_ord_laws {K} `{OrdLaws K} : OrdLaws (list K).
Proof.
  split; unfold cmp, list_ord.
  - induction a as [|x a IH]; intros [|y b]; cbn; try done.
    destruct (cmp x y) eqn:E; cbn.
    + apply cmp_eq in E as ->. rewrite IH. naive_solver.
    + split; [done|]. intros [= -> ->]. by rewrite cmp_refl in E.
    + split; [done|]. intros [= -> ->]. by rewrite cmp_refl in E.
  - induction a as [|x a IH]; intros [|y b]; cbn; try done.
    rewrite (cmp_swap x y), IH. by destruct (cmp x y).
  - induction a as [|x a IH]; intros [|y b] [|z c]; cbn; try done.
    destruct (cmp x y) eqn:E, (cmp y z) eqn:E'; cbn; try done.
    + apply cmp_eq in E as ->, E' as ->. rewrite cmp_refl. apply IH.
    + apply cmp_eq in E as ->. by rewrite E'.
    + apply cmp_eq in E' as ->. by rewrite E.
    + by rewrite (cmp_lt_trans _ _ _ E E').
Qed.

(** An order read off an injective key: a derived order on the fields of a struct, or on the
    rank of an enum's variants. *)
Lemma OrdLaws_inj {A K} `{OrdLaws K} (key : A -> K) (o : Ord A) :
  (forall a b, cmp a b = cmp (key a) (key b)) -> Inj (=) (=) key -> OrdLaws A.
Proof.
  intros Hc Hinj. split.
  - intros a b. rewrite Hc, cmp_eq. split; [apply Hinj|by intros ->].
  - intros a b. rewrite !Hc. apply cmp_swap.
  - intros a b c. rewrite !Hc. apply cmp_lt_trans.
Qed.

Lemma bytes_injective : Inj (=) (=) bytes.
Proof.
  intros s. induction s as [|a s IH]; intros [|b t]; cbn; try done.
  intros [Hab Hst]%(inj2 cons). f_equal; [|auto].
  unfold byte_of_ascii in Hab. apply N2Z.inj in Hab.
  by rewrite <- (ascii_N_embedding a), <- (ascii_N_embedding b), Hab.
Qed.

#[global] Instance string_ord_laws : OrdLaws string.
Proof. apply (OrdLaws_inj bytes); [done|apply bytes_injective]. Qed.

#[global] Instance pair_ord_laws {K L} `{OrdLaws K, OrdLaws L} : OrdLaws (K * L).
Proof.
  split; unfold cmp, pair_ord.
  - intros [a a'] [b b']. cbn. destruct (cmp a b) eqn:E; cbn.
    + apply cmp_eq in E as ->. rewrite cmp_eq. naive_solver.
    + split; [done|]. intros [= -> ->]. by rewrite cmp_refl in E.
    + split; [done|]. intros [= -> ->]. by rewrite cmp_refl in E.
  - intros [a a'] [b b']. cbn. rewrite (cmp_swap a b), (cmp_swap a' b'). by destruct (cmp a b).
  - intros [a a'] [b b'] [c c']. cbn.
    destruct (cmp a b) eqn:E, (cmp b c) eqn:E'; cbn; try done.
    + apply cmp_eq in E as ->, E' as ->. rewrite cmp_refl. cbn. apply cmp_lt_trans.
    + apply cmp_eq in E as ->. by rewrite E'.
    + apply cmp_eq in E' as ->. by rewrite E.
    + by rewrite (cmp_lt_trans _ _ _ E E').
Qed.

#[global] Instance option_ord_laws {K} `{OrdLaws K} : OrdLaws (option K).
Proof.
  split; unfold cmp, option_ord.
  - intros [a|] [b|]; try done. rewrite cmp_eq. naive_solver.
  - intros [a|] [b|]; try done. apply cmp_swap.
  - intros [a|] [b|] [c|]; try done. apply cmp_lt_trans.
Qed.

(** ** [slice::sort] *)

Definition ord_le {K} `{Ord K} (a b : K) : Prop := cmp a b <> Gt.

#[global] Instance ord_le_dec {K} `{Ord K} : RelDecision (@ord_le K _).
Proof. intros a b. unfold ord_le. apply _. Defined.

Section Sorting.
Context {K : Type} `{OrdLaws K}.

#[global] Instance ord_le_total : Total (@ord_le K _).
Proof.
  intros a b. unfold ord_le. rewrite (cmp_swap a b). by destruct (cmp a b); cbn; auto.
Qed.

#[global] Instance ord_le_trans : Transitive (@ord_le K _).
Proof.
  intros a b c. unfold ord_le. destruct (cmp a b) eqn:E; [| |done].
  - by apply cmp_eq in E as ->.
  - destruct (cmp b c) eqn:E'; [| |done].
    + apply cmp_eq in E' as ->. by rewrite E.
    + by rewrite (cmp_lt_trans _ _ _ E E').
Qed.

#[global] Instance ord_le_antisymm : AntiSymm (=) (@ord_le K _).
Proof.
  intros a b. unfold ord_le. rewrite (cmp_swap a b).
  destruct (cmp a b) eqn:E; cbn; [|done..]. intros _ _. by apply cmp_eq.
Qed.

Lemma cmp_lt_irrefl (a : K) : cmp a a <> Lt.
Proof. by rewrite cmp_refl. Qed.
End Sorting.

(** ** A stable sort: an element is placed before the first one it does not exceed *)

Section StableSort.
Context {A : Type} (R : relation A) `{!RelDecision R}.

Fixpoint insert_sorted (x : A) (l : list A) : list A :=
  match l with
  | [] => [x]
  | y :: l' => if decide (R x y) then x :: l else y :: insert_sorted x l'
  end.

Definition stable_sort (l : list A) : list A := foldr insert_sorted [] l.

Lemma insert_sorted_Permutation x l : Permutation (insert_sorted x l) (x :: l).
Proof.
  induction l as [|y l IH]; cbn; [done|]. destruct (decide (R x y)); [done|].
  rewrite IH. constructor.
Qed.

Lemma stable_sort_Permutation l : Permutation (stable_sort l) l.
Proof. induction l as [|x l IH]; cbn; [done|]. by rewrite insert_sorted_Permutation, IH. Qed.

Lemma stable_sort_sorted_id l : StronglySorted R l -> stable_sort l = l.
Proof.
  unfold stable_sort. induction 1 as [|x l Hs IH Hx]; cbn; [done|]. rewrite IH.
  destruct Hx as [|y l Hxy _]; cbn; [done|]. by rewrite decide_True.
Qed.

Context `{!Transitive R, !Total R}.

Lemma insert_sorted_StronglySorted x l :
  StronglySorted R l -> StronglySorted R (insert_sorted x l).
Proof.
  induction 1 as [|y l Hs IH Hy]; cbn; [repeat constructor|].
  destruct (decide (R x y)) as [Hxy|Hn].
  - constructor; [by constructor|]. constructor; [done|].
    eapply Forall_impl; [exact Hy|]. intros z Hz. by etrans.
  - constructor; [done|]. rewrite insert_sorted_Permutation. constructor; [|done].
    by destruct (total R x y).
Qed.

Lemma stable_sort_StronglySorted l : StronglySorted R (stable_sort l).
Proof. induction l as [|x l IH]; cbn; [constructor|]. by apply insert_sorted_StronglySorted. Qed.
End StableSort.

(** [sort] and [sort_by_key]. *)
Definition sort {K} `{Ord K} (l : list K) : list K := stable_sort ord_le l.

Definition key_rel {A K} `{Ord K} (key : A -> K) (a b : A) : Prop := ord_le (key a) (key b).

#[global] Instance key_rel_dec {A K} `{Ord K} (key : A -> K) : RelDecision (key_rel key).
Proof. intros a b. unfold key_rel. apply _. Defined.

#[global] Instance key_rel_total {A K} `{OrdLaws K} (key : A -> K) : Total (key_rel key).
Proof. intros a b. apply (ord_le_total (key a) (key b)). Qed.

#[global] Instance key_rel_trans {A K} `{OrdLaws K} (key : A -> K) : Transitive (key_rel key).
Proof. intros a b c. unfold key_rel. apply ord_le_trans. Qed.

Definition sort_by_key {A K} `{Ord K} (key : A -> K) (l : list A) : list A :=
  stable_sort (key_rel key) l.

(** [Vec::dedup]: drops each element equal to its predecessor. *)
Fixpoint dedup {A} `{EqDecision A} (l : list A) : list A :=
  match l with
  | a :: ((b :: _) as rest) => if decide (a = b) then dedup rest else a :: dedup rest
  | _ => l
  end.

(** [windows(2).any(pair[0] == pair[1])]. *)
Fixpoint any_adjacent_equal {A} `{EqDecision A} (l : list A) : bool :=
  match l with
  | a :: ((b :: _) as rest) => (a == b) || any_adjacent_equal rest
  | _ => false
  end.

Lemma sort_Permutation {K} `{Ord K} (l : list K) : Permutation (sort l) l.
Proof. apply stable_sort_Permutation. Qed.

Lemma sort_by_key_Permutation {A K} `{Ord K} (key : A -> K) l :
  Permutation (sort_by_key key l) l.
Proof. apply stable_sort_Permutation. Qed.

Lemma elem_of_sort {K} `{Ord K} (l : list K) x : x ∈ sort l <-> x ∈ l.
Proof. by rewrite sort_Permutation. Qed.

Lemma elem_of_dedup {A} `{EqDecision A} (l : list A) x : x ∈ dedup l <-> x ∈ l.
Proof.
  induction l as [|a [|b l] IH]; cbn [dedup]; [done..|].
  destruct (decide (a = b)) as [->|]; [rewrite IH; set_solver|].
  rewrite elem_of_cons, IH. set_solver.
Qed.

(** On a sorted vector the deduplicated elements are distinct. *)
Lemma dedup_NoDup {K} `{OrdLaws K} `{EqDecision K} (l : list K) :
  StronglySorted ord_le l -> NoDup (dedup l).
Proof.
  induction 1 as [|a l Hs IH Ha]; [constructor|].
  destruct l as [|b l]; cbn [dedup]; [apply NoDup_singleton|].
  destruct (decide (a = b)) as [->|Hne]; [done|].
  apply NoDup_cons. split; [|done].
  intros Hin%(elem_of_dedup (b :: l)). apply Hne. inversion Hs as [|? ? _ Hb]; inversion Ha as [|? ? Hab _]; subst.
  apply (anti_symm ord_le); [done|].
  apply elem_of_cons in Hin as [->|Hin]; [by destruct (ord_le_total b b)|].
  rewrite Forall_forall in Hb. by apply Hb.
Qed.

Lemma any_adjacent_equal_false {K} `{OrdLaws K} `{EqDecision K} (l : list K) :
  StronglySorted ord_le l -> any_adjacent_equal l = false -> NoDup l.
Proof.
  induction 1 as [|a l Hs IH Ha]; [constructor|].
  destruct l as [|b l]; cbn [any_adjacent_equal]; [intros _; apply NoDup_singleton|].
  intros [Hne Hadj]%orb_false_iff. simp_bool. apply NoDup_cons. split; [|by apply IH].
  intros Hin. apply Hne. inversion Hs as [|? ? _ Hb]; inversion Ha as [|? ? Hab _]; subst.
  apply (anti_symm ord_le); [done|].
  apply elem_of_cons in Hin as [->|Hin]; [by destruct (ord_le_total b b)|].
  rewrite Forall_forall in Hb. by apply Hb.
Qed.

Lemma sort_by_key_sorted {A K} `{OrdLaws K} (key : A -> K) (l : list A) :
  StronglySorted (key_rel key) (sort_by_key key l).
Proof. apply stable_sort_StronglySorted; apply _. Qed.

(** Sorting by a key is canonical when the key determines the element. *)
Lemma sort_by_key_unique {A K} `{OrdLaws K} `{EqDecision K} (key : A -> K) (l k : list A) :
  NoDup (map key l) -> Permutation l k -> sort_by_key key l = sort_by_key key k.
Proof.
  intros Hn Hp.
  apply (StronglySorted_unique_strong (key_rel key));
    [|apply sort_by_key_sorted..|by rewrite !sort_by_key_Permutation].
  intros x y Hx Hy H1 H2. rewrite sort_by_key_Permutation in Hx.
  rewrite sort_by_key_Permutation, <- Hp in Hy.
  apply (NoDup_key key l); try done. by apply (anti_symm ord_le).
Qed.

Lemma sort_sorted {K} `{OrdLaws K} (l : list K) : StronglySorted ord_le (sort l).
Proof. apply stable_sort_StronglySorted; apply _. Qed.

(** Sorting is canonical: it depends on the elements only. *)
Lemma sort_unique {K} `{OrdLaws K} (l k : list K) : Permutation l k -> sort l = sort k.
Proof.
  intros Hp. apply (StronglySorted_unique ord_le); [apply sort_sorted..|].
  by rewrite !sort_Permutation.
Qed.

(** ** [BTreeMap]: the entries in ascending key order *)

Section BTreeMap.
Context {K V : Type} `{Ord K}.

Fixpoint bt_get (k : K) (m : list (K * V)) : option V :=
  match m with
  | [] => None
  | (k', v) :: m =>
      match cmp k k' with
      | Lt => None
      | Eq => Some v
      | Gt => bt_get k m
      end
  end.

(** [entry(k)]: the value is replaced by [f] of the present one, if any. *)
Fixpoint bt_alter (f : option V -> V) (k : K) (m : list (K * V)) : list (K * V) :=
  match m with
  | [] => [(k, f None)]
  | (k', v) :: m' =>
      match cmp k k' with
      | Lt => (k, f None) :: m
      | Eq => (k', f (Some v)) :: m'
      | Gt => (k', v) :: bt_alter f k m'
      end
  end.

Definition bt_insert (k : K) (v : V) (m : list (K * V)) : list (K * V) :=
  bt_alter (fun _ => v) k m.

Fixpoint bt_remove (k : K) (m : list (K * V)) : list (K * V) :=
  match m with
  | [] => []
  | (k', v) :: m' =>
      match cmp k k' with
      | Lt => m
      | Eq => m'
      | Gt => (k', v) :: bt_remove k m'
      end
  end.

Definition bt_contains_key (k : K) (m : list (K * V)) : bool := is_some (bt_get k m).

(** Keys strictly ascend. *)
Definition bt_wf (m : list (K * V)) : Prop := StronglySorted (fun a b => cmp a.1 b.1 = Lt) m.

Context {L : OrdLaws K}.

Lemma bt_get_above (k : K) (m : list (K * V)) :
  Forall (fun e => cmp k e.1 = Lt) m -> bt_get k m = None.
Proof. destruct 1 as [|[k' v] m Hlt _]; [done|]. cbn in *. by rewrite Hlt. Qed.

Lemma bt_get_elem (m : list (K * V)) k v : bt_wf m -> bt_get k m = Some v <-> (k, v) ∈ m.
Proof.
  induction 1 as [|[k' w] m Hs IH Ha]; cbn; [set_solver|].
  rewrite Forall_forall in Ha. rewrite elem_of_cons.
  destruct (cmp k k') eqn:E.
  - apply cmp_eq in E as ->. split; [intros [= ->]; by left|].
    intros [[= ->]|Hin]; [done|]. apply Ha in Hin. cbn in Hin. by rewrite cmp_refl in Hin.
  - split; [done|]. intros [[= -> ->]|Hin]; [by rewrite cmp_refl in E|].
    apply Ha in Hin. cbn in Hin. rewrite cmp_swap, E in Hin. done.
  - rewrite IH. split; [auto|]. intros [[= -> ->]|Hin]; [by rewrite cmp_refl in E|done].
Qed.

Lemma bt_get_alter (f : option V -> V) k (m : list (K * V)) :
  bt_wf m -> bt_get k (bt_alter f k m) = Some (f (bt_get k m)).
Proof.
  induction 1 as [|[k' w] m Hs IH Ha]; cbn; [by rewrite cmp_refl|].
  destruct (cmp k k') eqn:E; cbn; rewrite ?cmp_refl, ?E; done.
Qed.

Lemma bt_get_alter_ne (f : option V -> V) k j (m : list (K * V)) :
  bt_wf m -> j <> k -> bt_get j (bt_alter f k m) = bt_get j m.
Proof.
  intros Hwf Hne. assert (cmp j k <> Eq) as Hjk by (by rewrite cmp_eq).
  induction Hwf as [|[k' w] m Hs IH Ha]; cbn; [by destruct (cmp j k)|].
  destruct (cmp k k') eqn:E; cbn.
  - apply cmp_eq in E as ->. by destruct (cmp j k').
  - destruct (cmp j k) eqn:E'; [done| |done]. by rewrite (cmp_lt_trans _ _ _ E' E).
  - by rewrite IH.
Qed.

Lemma bt_alter_keys (f : option V -> V) k (m : list (K * V)) e :
  e ∈ bt_alter f k m -> e.1 = k \/ e ∈ m.
Proof.
  induction m as [|[k' w] m IH]; cbn; [set_solver|].
  destruct (cmp k k') eqn:E; intros He.
  - apply cmp_eq in E as ->. apply elem_of_cons in He as [->|]; set_solver.
  - apply elem_of_cons in He as [->|]; set_solver.
  - apply elem_of_cons in He as [->|[|]%IH]; set_solver.
Qed.

Lemma bt_get_insert `{EqDecision K} k v j (m : list (K * V)) :
  bt_wf m -> bt_get j (bt_insert k v m) = if decide (j = k) then Some v else bt_get j m.
Proof.
  intros Hm. unfold bt_insert. case_decide as Hj.
  - subst j. by rewrite bt_get_alter.
  - by rewrite bt_get_alter_ne.
Qed.

Lemma bt_insert_elem k v (m : list (K * V)) e : e ∈ bt_insert k v m -> e = (k, v) \/ e ∈ m.
Proof.
  unfold bt_insert. induction m as [|[k' w] m IH]; cbn; [set_solver|].
  destruct (cmp k k') eqn:E; intros He.
  - apply cmp_eq in E as ->. apply elem_of_cons in He as [->|]; set_solver.
  - apply elem_of_cons in He as [->|]; set_solver.
  - apply elem_of_cons in He as [->|[|]%IH]; set_solver.
Qed.

Lemma bt_wf_alter (f : option V -> V) k (m : list (K * V)) : bt_wf m -> bt_wf (bt_alter f k m).
Proof.
  induction 1 as [|[k' w] m Hs IH Ha]; cbn; [repeat constructor|].
  destruct (cmp k k') eqn:E.
  - by constructor.
  - constructor; [by constructor|]. constructor; [done|].
    eapply Forall_impl; [exact Ha|]. intros [j x] Hj. cbn in *. by eapply cmp_lt_trans.
  - constructor; [done|]. rewrite Forall_forall in *. intros e [He|He]%bt_alter_keys.
    + cbn. rewrite He. by apply cmp_gt_lt.
    + by apply Ha.
Qed.

Lemma bt_wf_nil : bt_wf [].
Proof. constructor. Qed.

Lemma bt_wf_NoDup (m : list (K * V)) : bt_wf m -> NoDup (map fst m).
Proof.
  induction 1 as [|[k w] m Hs IH Ha]; cbn; [constructor|].
  apply NoDup_cons. split; [|done]. rewrite Forall_forall in Ha.
  intros ([j x] & -> & Hin)%list_elem_of_fmap. apply Ha in Hin. by apply cmp_lt_irrefl in Hin.
Qed.

(** Two maps with the same entries are the same. *)
Lemma bt_ext (m n : list (K * V)) :
  bt_wf m -> bt_wf n -> (forall k, bt_get k m = bt_get k n) -> m = n.
Proof.
  intros Hm Hn Hg. apply (StronglySorted_unique_strong (fun a b => cmp a.1 b.1 = Lt)); [|done..|].
  - intros a b _ _ H1 H2. rewrite cmp_swap, H2 in H1. done.
  - apply NoDup_Permutation.
    + apply (NoDup_fmap_1 fst). by apply bt_wf_NoDup.
    + apply (NoDup_fmap_1 fst). by apply bt_wf_NoDup.
    + intros [k v]. rewrite <- !bt_get_elem by done. by rewrite Hg.
Qed.

Lemma bt_keys k (m : list (K * V)) : bt_wf m -> k ∈ map fst m <-> is_some (bt_get k m) = true.
Proof.
  intros Hm. rewrite is_some_true. split.
  - intros ([j v] & -> & Hin)%list_elem_of_fmap. exists v. by apply bt_get_elem.
  - intros [v Hv]. apply list_elem_of_fmap. exists (k, v). by apply bt_get_elem in Hv.
Qed.

Lemma bt_insert_same `{EqDecision K} k v (m : list (K * V)) :
  bt_wf m -> bt_get k m = Some v -> bt_insert k v m = m.
Proof.
  intros Hm Hv. apply bt_ext; [by apply bt_wf_alter|done|]. intros j.
  rewrite bt_get_insert by done. case_decide; congruence.
Qed.

Lemma bt_insert_keys `{EqDecision K} k v j (m : list (K * V)) :
  bt_wf m -> j ∈ map fst (bt_insert k v m) <-> j = k \/ j ∈ map fst m.
Proof.
  intros Hm. rewrite !bt_keys, bt_get_insert by (try apply bt_wf_alter; done).
  case_decide; naive_solver.
Qed.

Lemma bt_wf_remove k (m : list (K * V)) : bt_wf m -> bt_wf (bt_remove k m).
Proof.
  intros Hwf. induction Hwf as [|[k' w] m Hs IH Ha]; cbn; [constructor|].
  destruct (cmp k k'); [done|by constructor|]. constructor; [done|].
  rewrite Forall_forall in *. intros e He. apply Ha. revert He.
  clear. induction m as [|[j x] m IH]; cbn; [set_solver|].
  destruct (cmp k j); set_solver.
Qed.

Lemma bt_get_remove k (m : list (K * V)) : bt_wf m -> bt_get k (bt_remove k m) = None.
Proof.
  induction 1 as [|[k' w] m Hs IH Ha]; cbn; [done|].
  destruct (cmp k k') eqn:E; cbn; rewrite ?E; [|done..].
  apply cmp_eq in E as ->. apply bt_get_above, Ha.
Qed.

Lemma bt_get_remove_ne k j (m : list (K * V)) :
  bt_wf m -> j <> k -> bt_get j (bt_remove k m) = bt_get j m.
Proof.
  intros Hwf Hne. induction Hwf as [|[k' w] m Hs IH Ha]; cbn; [done|].
  destruct (cmp k k') eqn:E; cbn; [|done|by rewrite IH].
  apply cmp_eq in E as ->. destruct (cmp j k') eqn:E'; [by apply cmp_eq in E'| |done].
  apply bt_get_above. eapply Forall_impl; [exact Ha|]. intros e He. by eapply cmp_lt_trans.
Qed.
End BTreeMap.

#[export] Hint Resolve bt_wf_nil bt_wf_alter bt_wf_remove : rust.

(** Changing every value of a map. *)
Section MapValues.
Context {K V W : Type} `{Ord K} (f : V -> W).

Definition bt_map (m : list (K * V)) : list (K * W) := map (fun e => (e.1, f e.2)) m.

Lemma bt_get_map k m : bt_get k (bt_map m) = option_map f (bt_get k m).
Proof. induction m as [|[j v] m IH]; cbn; [done|]. by destruct (cmp k j). Qed.

Lemma bt_insert_map k v m : bt_map (bt_insert k v m) = bt_insert k (f v) (bt_map m).
Proof.
  unfold bt_insert, bt_map. induction m as [|[j w] m IH]; cbn; [done|].
  destruct (cmp k j); cbn; by rewrite ?IH.
Qed.

Lemma bt_remove_map k m : bt_map (bt_remove k m) = bt_remove k (bt_map m).
Proof.
  unfold bt_map. induction m as [|[j w] m IH]; cbn; [done|]. destruct (cmp k j); cbn; by rewrite ?IH.
Qed.
End MapValues.

(** [m.entry(k).or_default().push(v)] on a map of vectors. *)
Definition bt_push {K V} `{Ord K} (k : K) (v : V) (m : list (K * list V)) : list (K * list V) :=
  bt_alter (fun o => unwrap_or [] o ++ [v]) k m.

Definition bt_values {K V} `{Ord K} (k : K) (m : list (K * list V)) : list V :=
  unwrap_or [] (bt_get k m).

(** [for x in xs { m.entry(key(x)).or_default().push(val(x)) }]: the group of a key is the
    values of the elements with that key, in order. *)
Definition group_by {A K V} `{Ord K} (key : A -> K) (val : A -> V) (xs : list A)
    : list (K * list V) :=
  fold_left (fun m x => bt_push (key x) (val x) m) xs [].

Section Groups.
Context {A K V : Type} `{OrdLaws K} `{EqDecision K} (key : A -> K) (val : A -> V).

Let pushes (m : list (K * list V)) xs := fold_left (fun m x => bt_push (key x) (val x) m) xs m.

Lemma pushes_spec xs (m : list (K * list V)) k :
  bt_wf m ->
  bt_wf (pushes m xs) /\
  bt_values k (pushes m xs) = bt_values k m ++ map val (List.filter (fun x => key x == k) xs).
Proof.
  revert m. induction xs as [|x xs IH]; intros m Hm; [cbn; by rewrite app_nil_r|].
  change (pushes m (x :: xs)) with (pushes (bt_push (key x) (val x) m) xs).
  assert (bt_wf (bt_push (key x) (val x) m)) as Hm' by (by apply bt_wf_alter).
  destruct (IH _ Hm') as [Hw Hv]. split; [done|]. rewrite Hv. clear Hw Hv.
  unfold bt_values, bt_push. cbn [List.filter]. case_bool_decide as Hk; cbn.
  - subst k. rewrite bt_get_alter by done. cbn. by rewrite <- app_assoc.
  - by rewrite bt_get_alter_ne by congruence.
Qed.

Lemma pushes_nonempty xs (m : list (K * list V)) :
  Forall (fun e => e.2 <> []) m -> Forall (fun e => e.2 <> []) (pushes m xs).
Proof.
  revert m. induction xs as [|x xs IH]; intros m Hm; [done|]. apply IH. clear IH.
  unfold bt_push. induction m as [|[k v] m IHm]; cbn; [by repeat constructor|].
  inversion Hm as [|? ? Hv Hm']; subst.
  destruct (cmp (key x) k); constructor; auto.
  - cbn. intros [_ [=]]%app_nil.
Qed.

Lemma group_by_wf xs : bt_wf (group_by key val xs).
Proof.
  assert (forall m, bt_wf m -> bt_wf (pushes m xs)) as Hw; [|by apply Hw, bt_wf_nil].
  induction xs as [|x xs IH]; intros m Hm; [done|]. by apply IH, bt_wf_alter.
Qed.

Lemma group_by_values xs k :
  bt_values k (group_by key val xs) = map val (List.filter (fun x => key x == k) xs).
Proof. exact (proj2 (pushes_spec xs [] k bt_wf_nil)). Qed.

Lemma group_by_get xs k vs :
  bt_get k (group_by key val xs) = Some vs <->
  vs = map val (List.filter (fun x => key x == k) xs) /\ vs <> [].
Proof.
  destruct (pushes_spec xs [] k bt_wf_nil) as [Hw Hv]. unfold bt_values in Hv. cbn in Hv.
  pose proof (pushes_nonempty xs [] (Forall_nil_2 _)) as Hne.
  change (group_by key val xs) with (pushes [] xs).
  destruct (bt_get k (pushes [] xs)) as [ws|] eqn:E; cbn in Hv.
  - apply bt_get_elem in E; [|done]. rewrite Forall_forall in Hne. apply Hne in E. cbn in E.
    split; [intros [= <-]; by subst|]. intros [-> _]. by rewrite Hv.
  - rewrite <- Hv. split; [done|]. by intros [-> []].
Qed.

Lemma group_by_elem xs k vs :
  (k, vs) ∈ group_by key val xs <->
  vs = map val (List.filter (fun x => key x == k) xs) /\ vs <> [].
Proof. rewrite <- bt_get_elem by apply group_by_wf. apply group_by_get. Qed.
End Groups.
