(* ===== verification/Externals.v ===== *)
(** * Externals: the third-party functions the work-domain crate calls

    The [uuid] and [time] crates are not part of the repository.  What the code uses of them is
    a record of operations, an argument of every definition that calls one; their documented
    behaviour, where a theorem relies on it, is the class [ExternalsLaws].  [Uuid::now_v7] is
    not here: an operation that creates identifiers takes them as an argument. *)
From stdpp Require Import base gmap sets list strings.
From Stdlib Require Import ZArith.
From S2P Require Import Prelude WorkTypes.

Class Externals : Type := {
  (** [Uuid::get_version_num]. *)
  get_version_num : Uuid -> Z;
  (** [OffsetDateTime::parse(value, &Rfc3339).ok()]. *)
  rfc3339_parse : string -> option Instant;
  (** [value.to_offset(UtcOffset::UTC).format(&Rfc3339).ok()]. *)
  rfc3339_format : Instant -> option string;
  (** [OffsetDateTime::now_utc()], read when no instant is attached. *)
  now_utc : Instant
}.

(** Parsing a formatted instant gives the instant back. *)
Class ExternalsLaws {X : Externals} : Prop := {
  rfc3339_roundtrip : forall t s, rfc3339_format t = Some s -> rfc3339_parse s = Some t
}.

Section Instants.
Context {X : Externals}.

(** organization.rs [parse_instant]. *)
Definition parse_instant (value : string) : WResult Instant :=
  ok_or (rfc3339_parse value) ValidationFailed.

(** organization.rs [format_instant]. *)
Definition format_instant (value : Instant) : WResult string :=
  ok_or (rfc3339_format value) IntegrityViolation.

(** organization.rs [stored_instant] (context.rs [stored] is the same function). *)
Definition stored_instant (value : string) : option Instant := rfc3339_parse value.

(** organization.rs [requested_start]. *)
Definition requested_start (value : option string) (at_ : Instant) : WResult Instant :=
  match value with
  | None => Ok at_
  | Some value =>
      let? from := parse_instant value in
      if (from <? at_ - VALID_FROM_SKEW)%Z then Err ValidationFailed
      else Ok (Z.max from at_)
  end.
End Instants.
