(* ===== verification/Principals.v ===== *)
(** * Principals: the closed allowlist of synthetic Human principals (lib.rs [VerifiedActor])
    and the two stored spellings of a principal (organization.rs [principal_serde]). *)
From stdpp Require Import base gmap sets list strings.
From Stdlib Require Import ZArith.
From S2P Require Import Prelude WorkTypes.

Definition ALL : list VerifiedActor :=
  [Sales01; Office01; Review01; Approver01; MultiRole01; Delegate01].

Definition legacy_encoding (a : VerifiedActor) : string :=
  match a with
  | Sales01 => "sales01"
  | Office01 => "office01"
  | Review01 => "review01"
  | Approver01 => "approver01"
  | MultiRole01 => "multi-role01"
  | Delegate01 => "delegate01"
  end.

Definition principal_id (a : VerifiedActor) : string :=
  match a with
  | Sales01 => "sales-01"
  | Office01 => "office-01"
  | Review01 => "review-01"
  | Approver01 => "approver-01"
  | MultiRole01 => "multi-role-01"
  | Delegate01 => "delegate-01"
  end.

Definition display_name (a : VerifiedActor) : string :=
  match a with
  | Sales01 => "営業担当（模擬）"
  | Office01 => "事務担当（模擬）"
  | Review01 => "審査担当（模擬）"
  | Approver01 => "承認・業務管理（模擬）"
  | MultiRole01 => "兼務担当（模擬）"
  | Delegate01 => "代理担当（模擬）"
  end.

(** The fixture's default formal assignment: a selection hint, never a grant. *)
Definition default_assignment_id (a : VerifiedActor) : Uuid :=
  match a with
  | Sales01 => SALES_ASSIGNMENT_ID
  | Office01 => OFFICE_ASSIGNMENT_ID
  | Review01 => REVIEW_ASSIGNMENT_ID
  | Approver01 => APPROVER_ASSIGNMENT_ID
  | MultiRole01 => MULTI_ROLE_PROCESSING_ASSIGNMENT_ID
  | Delegate01 => Uuid_nil
  end.

Definition from_principal_id (value : string) : option VerifiedActor :=
  find (fun actor => principal_id actor == value) ALL.

Definition from_legacy_encoding (value : string) : option VerifiedActor :=
  find (fun actor => legacy_encoding actor == value) ALL.

Definition from_startup_profile (profile : string) : WResult VerifiedActor :=
  ok_or (from_principal_id profile) Forbidden.

(** [principal_serde::serialize] and [principal_serde::deserialize] on the string they pass
    to and read from the serializer. *)
Definition principal_serialize (a : VerifiedActor) : string := principal_id a.

Definition principal_deserialize (value : string) : option VerifiedActor :=
  match from_principal_id value with
  | Some a => Some a
  | None => from_legacy_encoding value
  end.

(** ** Facts *)

Lemma ALL_complete a : a ∈ ALL.
Proof. unfold ALL. destruct a; set_solver. Qed.

Lemma principal_deserialize_inv s a :
  principal_deserialize s = Some a -> s = principal_id a \/ s = legacy_encoding a.
Proof.
  unfold principal_deserialize, from_principal_id, from_legacy_encoding.
  destruct (find _ ALL) as [b|] eqn:E; intros H; simplify_eq.
  - apply find_some in E as [_ E%bool_decide_eq_true]. auto.
  - apply find_some in H as [_ H%bool_decide_eq_true]. auto.
Qed.

(** A principal is read back from either stored spelling, and nothing else is
    read: the strings that deserialize to [a] are exactly its public and its legacy one. *)
Theorem principal_spellings a s :
  principal_deserialize s = Some a <-> s = principal_serialize a \/ s = legacy_encoding a.
Proof.
  split; [apply principal_deserialize_inv|].
  intros [->| ->]; by destruct a; vm_compute.
Qed.
