(* ===== verification/Organization.v ===== *)
(** * Organization: the policy authority (organization.rs)

    Units, business roles, formal role assignments and bounded delegations; which
    responsibilities are effective at an instant; and the revision-checked policy mutations.
    [Module Policy] holds the methods of [OrganizationPolicy]. *)
From stdpp Require Import base gmap sets list strings.
From Stdlib Require Import ZArith Lia.
From S2P Require Import Prelude WorkTypes WorkSetters Text Externals Principals.

Local Open Scope Z_scope.

(** [MAX_DELEGATIONS_PER_DELEGATOR * VerifiedActor::ALL.len()]. *)
Definition MAX_DELEGATIONS : Z := MAX_DELEGATIONS_PER_DELEGATOR * len ALL.

(** Privilege-administration actions are never delegable. *)
Definition delegable (a : PolicyAction) : bool :=
  match a with
  | OrganizationManage | WorkAssign => false
  | _ => true
  end.

(** [Responsibility::allows]. *)
Definition allows (r : Responsibility) (action : PolicyAction) : bool :=
  contains (rs_actions r) action.

(** [PolicyCommand::context]. *)
Definition policy_context (c : PolicyCommand) : CommandContext :=
  match c with
  | CreateRoleAssignment context _ _ _ _ _ _ => context
  | RevokeRoleAssignment context _ _ => context
  | CreateDelegation context _ _ _ _ _ _ => context
  | RevokeDelegation context _ _ => context
  end.

(** context.rs [profile_for]: role override first, then the unit default. *)
Definition profile_for (role_id unit_id : Uuid) : Uuid :=
  if role_id == ROLE_REVIEWING_ID then PROFILE_REVIEW_QUEUE_ID
  else if unit_id == UNIT_SALES_ID then PROFILE_SALES_CONTEXT_ID
  else if unit_id == UNIT_REVIEW_ID then PROFILE_REVIEW_QUEUE_ID
  else PROFILE_OFFICE_QUEUE_ID.

(** Half-open intervals; a missing end is unbounded, an unparseable bound overlaps. *)
Definition intervals_overlap (from : option Instant) (until : option (option Instant))
    (other_from : Instant) (other_until : option Instant) : bool :=
  match from, until with
  | Some from, Some until =>
      is_none_or until (fun until => other_from <? until)
      && is_none_or other_until (fun other => from <? other)
  | _, _ => true
  end.

(** The fixture constructors [role] and [fixture_assignment]. *)
Definition role_fixture (id : Uuid) (key label : string) (actions : list PolicyAction)
    : BusinessRole :=
  {| br_id := id; br_key := key; br_label := label; br_actions := actions |}.

Definition fixture_assignment (id : Uuid) (principal : VerifiedActor) (role_id unit_id : Uuid)
    : RoleAssignment :=
  {| ra_id := id; ra_principal := principal; ra_role_id := role_id; ra_unit_id := unit_id;
     ra_valid_from := FIXTURE_VALID_FROM; ra_valid_until := None;
     ra_reason := "合成fixtureの正式割当"; ra_created_by := None;
     ra_created_at := FIXTURE_VALID_FROM; ra_revoked_at := None; ra_revoked_by := None;
     ra_revoke_reason := None |}.

Module Policy.

Definition empty : OrganizationPolicy :=
  {| op_id := ORGANIZATION_POLICY_ID; op_revision := 0; op_units := []; op_roles := [];
     op_role_assignments := []; op_delegations := [] |}.

Definition work_actions : list PolicyAction :=
  [QueueRead; WorkRead; WorkClaim; WorkEdit; WorkSubmit; WorkHold; WorkResume;
   EvidenceRegister; FindingRegister; DecisionRecord; AgentRequest].

Definition sales_actions : list PolicyAction :=
  [ContextRead; ContextProgressRead; ContextHistoryRead] ++ work_actions.

Definition processing_actions : list PolicyAction := work_actions ++ [WorkReturn; WorkComplete].

Definition approving_actions : list PolicyAction :=
  [QueueRead; WorkRead; WorkClaim; WorkReturn; WorkComplete; WorkHold; WorkResume;
   EvidenceRegister; FindingRegister; DecisionRecord; AgentRequest].

Definition synthetic : OrganizationPolicy :=
  {| op_id := ORGANIZATION_POLICY_ID;
     op_revision := 0;
     op_units :=
       [ {| ou_id := UNIT_SALES_ID; ou_label := "営業店";
            ou_default_archetype := WorkViewArchetype_Context; ou_role_ids := [ROLE_SALES_ID] |};
         {| ou_id := UNIT_OFFICE_ID; ou_label := "事務";
            ou_default_archetype := WorkViewArchetype_Queue;
            ou_role_ids := [ROLE_PROCESSING_ID] |};
         {| ou_id := UNIT_REVIEW_ID; ou_label := "融資審査";
            ou_default_archetype := WorkViewArchetype_Queue;
            ou_role_ids := [ROLE_REVIEWING_ID] |};
         {| ou_id := UNIT_APPROVAL_ID; ou_label := "承認";
            ou_default_archetype := WorkViewArchetype_Queue;
            ou_role_ids := [ROLE_APPROVING_ID; ROLE_MANAGEMENT_ID] |} ];
     op_roles :=
       [ role_fixture ROLE_SALES_ID "sales" "営業" sales_actions;
         role_fixture ROLE_PROCESSING_ID "processing" "事務処理" processing_actions;
         role_fixture ROLE_REVIEWING_ID "reviewing" "審査" processing_actions;
         role_fixture ROLE_APPROVING_ID "approving" "承認" approving_actions;
         role_fixture ROLE_MANAGEMENT_ID "management" "業務管理"
           [QueueRead; WorkAssign; OrganizationManage] ];
     op_role_assignments :=
       [ fixture_assignment SALES_ASSIGNMENT_ID Sales01 ROLE_SALES_ID UNIT_SALES_ID;
         fixture_assignment OFFICE_ASSIGNMENT_ID Office01 ROLE_PROCESSING_ID UNIT_OFFICE_ID;
         fixture_assignment REVIEW_ASSIGNMENT_ID Review01 ROLE_REVIEWING_ID UNIT_REVIEW_ID;
         fixture_assignment APPROVER_ASSIGNMENT_ID Approver01 ROLE_APPROVING_ID UNIT_APPROVAL_ID;
         fixture_assignment APPROVER_MANAGEMENT_ASSIGNMENT_ID Approver01 ROLE_MANAGEMENT_ID
           UNIT_APPROVAL_ID;
         fixture_assignment MULTI_ROLE_PROCESSING_ASSIGNMENT_ID MultiRole01 ROLE_PROCESSING_ID
           UNIT_OFFICE_ID;
         fixture_assignment MULTI_ROLE_REVIEW_ASSIGNMENT_ID MultiRole01 ROLE_REVIEWING_ID
           UNIT_REVIEW_ID ];
     op_delegations := [] |}.

(** ** Lookups *)

Definition role (p : OrganizationPolicy) (id : Uuid) : option BusinessRole :=
  find (fun role => br_id role == id) (op_roles p).

Definition unit_ (p : OrganizationPolicy) (id : Uuid) : option OrganizationalUnit :=
  find (fun unit => ou_id unit == id) (op_units p).

Definition assignment (p : OrganizationPolicy) (id : Uuid) : option RoleAssignment :=
  find (fun value => ra_id value == id) (op_role_assignments p).

Definition delegation (p : OrganizationPolicy) (id : Uuid) : option Delegation :=
  find (fun value => dg_id value == id) (op_delegations p).

Section Evaluation.
Context {X : Externals}.

(** ** Effect at an instant *)

Definition assignment_effective (p : OrganizationPolicy) (value : RoleAssignment) (t : Instant)
    : bool :=
  match stored_instant (ra_valid_from value) with
  | None => false
  | Some from =>
      is_none (ra_revoked_at value)
      && (from <=? t)
      && is_none_or (ra_valid_until value)
           (fun until => is_some_and (stored_instant until) (fun until => t <? until))
      && is_some (role p (ra_role_id value))
      && is_some (unit_ p (ra_unit_id value))
  end.

Definition delegation_effective (p : OrganizationPolicy) (value : Delegation) (t : Instant)
    : bool :=
  match stored_instant (dg_valid_from value), stored_instant (dg_valid_until value) with
  | Some from, Some until =>
      is_none (dg_revoked_at value)
      && (from <=? t)
      && (t <? until)
      && is_some_and (assignment p (dg_source_assignment_id value))
           (fun source =>
              (ra_principal source == dg_delegator value) && assignment_effective p source t)
  | _, _ => false
  end.

Definition assignment_responsibility (p : OrganizationPolicy) (value : RoleAssignment)
    : option Responsibility :=
  role ← role p (ra_role_id value);
  unit ← unit_ p (ra_unit_id value);
  Some
    {| rs_id := ra_id value;
       rs_kind := Kind_RoleAssignment;
       rs_principal := ra_principal value;
       rs_role_id := br_id role;
       rs_role_label := br_label role;
       rs_unit_id := ou_id unit;
       rs_unit_label := ou_label unit;
       rs_actions := br_actions role;
       rs_valid_from := ra_valid_from value;
       rs_valid_until := ra_valid_until value;
       rs_source_assignment_id := None;
       rs_delegator := None;
       rs_work_view_profile_id := profile_for (br_id role) (ou_id unit) |}.

(** Delegation can only narrow its source responsibility. *)
Definition delegation_responsibility (p : OrganizationPolicy) (value : Delegation)
    : option Responsibility :=
  source ← assignment p (dg_source_assignment_id value);
  derived ← assignment_responsibility p source;
  Some
    {| rs_id := dg_id value;
       rs_kind := Kind_Delegation;
       rs_principal := dg_recipient value;
       rs_role_id := rs_role_id derived;
       rs_role_label := rs_role_label derived;
       rs_unit_id := rs_unit_id derived;
       rs_unit_label := rs_unit_label derived;
       rs_actions := List.filter (fun action => contains (dg_actions value) action)
                       (rs_actions derived);
       rs_valid_from := dg_valid_from value;
       rs_valid_until := Some (dg_valid_until value);
       rs_source_assignment_id := Some (ra_id source);
       rs_delegator := Some (dg_delegator value);
       rs_work_view_profile_id := rs_work_view_profile_id derived |}.

(** Every responsibility effective for the actor, in stable order. *)
Definition responsibilities (p : OrganizationPolicy) (actor : VerifiedActor) (t : Instant)
    : list Responsibility :=
  filter_map (assignment_responsibility p)
    (List.filter (fun value => (ra_principal value == actor) && assignment_effective p value t)
       (op_role_assignments p))
  ++ filter_map (delegation_responsibility p)
       (List.filter (fun value => (dg_recipient value == actor) && delegation_effective p value t)
          (op_delegations p)).

(** The requested acting responsibility, only when it belongs to the actor now. *)
Definition responsibility (p : OrganizationPolicy) (actor : VerifiedActor) (id : Uuid)
    (t : Instant) : option Responsibility :=
  match assignment p id with
  | Some value =>
      if (ra_principal value == actor) && assignment_effective p value t
      then assignment_responsibility p value
      else None
  | None =>
      value ← delegation p id;
      if (dg_recipient value == actor) && delegation_effective p value t
      then delegation_responsibility p value
      else None
  end.

(** Labels regardless of current effect; never an authorization. *)
Definition describe (p : OrganizationPolicy) (id : Uuid) : option Responsibility :=
  match assignment p id with
  | Some value => assignment_responsibility p value
  | None => value ← delegation p id; delegation_responsibility p value
  end.

Definition is_management (value : Responsibility) : bool :=
  (rs_kind value == Kind_RoleAssignment) && allows value OrganizationManage.

Definition can_manage (p : OrganizationPolicy) (actor : VerifiedActor) (t : Instant) : bool :=
  existsb is_management (responsibilities p actor t).

Definition management (p : OrganizationPolicy) (actor : VerifiedActor) (acting : Uuid)
    (t : Instant) : WResult Responsibility :=
  ok_or (opt_filter is_management (responsibility p actor acting t)) Forbidden.

Definition assignment_visible (p : OrganizationPolicy) (actor : VerifiedActor)
    (value : RoleAssignment) (t : Instant) : bool :=
  (ra_principal value == actor) || can_manage p actor t.

Definition delegation_visible (p : OrganizationPolicy) (actor : VerifiedActor)
    (value : Delegation) (t : Instant) : bool :=
  (dg_delegator value == actor) || (dg_recipient value == actor) || can_manage p actor t.

Definition view (p : OrganizationPolicy) (actor : VerifiedActor) (t : Instant)
    : WResult OrganizationView :=
  let? evaluated_at := format_instant t in
  Ok {| ov_principal_id := principal_id actor;
        ov_display_name := display_name actor;
        ov_policy_revision := op_revision p;
        ov_evaluated_at := evaluated_at;
        ov_can_manage := can_manage p actor t;
        ov_responsibilities := responsibilities p actor t;
        ov_units := op_units p;
        ov_roles := op_roles p;
        ov_role_assignments :=
          List.filter (fun value => assignment_visible p actor value t) (op_role_assignments p);
        ov_delegations :=
          List.filter (fun value => delegation_visible p actor value t) (op_delegations p) |}.

(** ** Integrity *)

(** The loop over every identifier of the policy, inserting into a set. *)
Definition insert_id (ids : gset Uuid) (id : Uuid) : WResult (gset Uuid) :=
  if bool_decide (id ∈ ids) then Err IntegrityViolation else Ok ({[id]} ∪ ids).

Definition all_ids (p : OrganizationPolicy) : list Uuid :=
  map ou_id (op_units p) ++ map br_id (op_roles p)
  ++ map ra_id (op_role_assignments p) ++ map dg_id (op_delegations p).

Definition validate_unit (p : OrganizationPolicy) (_ : unit) (u : OrganizationalUnit)
    : WResult unit :=
  if existsb (fun id => is_none (role p id)) (ou_role_ids u)
  then Err IntegrityViolation else Ok tt.

Definition validate_assignment (p : OrganizationPolicy) (_ : unit) (value : RoleAssignment)
    : WResult unit :=
  let? from := ok_or (stored_instant (ra_valid_from value)) IntegrityViolation in
  let? until :=
    transpose (option_map (fun until => ok_or (stored_instant until) IntegrityViolation)
                 (ra_valid_until value)) in
  if is_none (role p (ra_role_id value))
     || is_none (unit_ p (ra_unit_id value))
     || is_some_and until (fun until => until <=? from)
     || negb (Bool.eqb (is_some (ra_revoked_at value)) (is_some (ra_revoked_by value)))
  then Err IntegrityViolation
  else Ok tt.

Definition validate_delegation (p : OrganizationPolicy) (_ : unit) (value : Delegation)
    : WResult unit :=
  let? from := ok_or (stored_instant (dg_valid_from value)) IntegrityViolation in
  let? until := ok_or (stored_instant (dg_valid_until value)) IntegrityViolation in
  let? source := ok_or (assignment p (dg_source_assignment_id value)) IntegrityViolation in
  let? role := ok_or (role p (ra_role_id source)) IntegrityViolation in
  if (until <=? from)
     || (ra_principal source != dg_delegator value)
     || (dg_recipient value == dg_delegator value)
     || is_empty (dg_actions value)
     || existsb (fun action => negb (delegable action) || negb (contains (br_actions role) action))
          (dg_actions value)
     || negb (Bool.eqb (is_some (dg_revoked_at value)) (is_some (dg_revoked_by value)))
  then Err IntegrityViolation
  else Ok tt.

Definition validate_integrity (p : OrganizationPolicy) : WResult unit :=
  if (op_id p != ORGANIZATION_POLICY_ID)
     || (op_revision p <? 0)
     || (MAX_ROLE_ASSIGNMENTS <? len (op_role_assignments p))
     || (MAX_DELEGATIONS <? len (op_delegations p))
  then Err IntegrityViolation
  else
    try? for_each insert_id ∅ (all_ids p) in
    try? for_each (validate_unit p) tt (op_units p) in
    try? for_each (validate_assignment p) tt (op_role_assignments p) in
    try? for_each (validate_delegation p) tt (op_delegations p) in
    Ok tt.

(** ** Commands *)

Definition own_assignment (p : OrganizationPolicy) (actor : VerifiedActor) (acting : Uuid)
    (t : Instant) : bool :=
  is_some_and (responsibility p actor acting t)
    (fun value => rs_kind value == Kind_RoleAssignment).

Definition authorize_command (p : OrganizationPolicy) (actor : VerifiedActor)
    (command : PolicyCommand) (t : Instant) : WResult unit :=
  let acting := cc_acting_assignment_id (policy_context command) in
  match command with
  | CreateRoleAssignment _ principal _ _ _ _ _ =>
      try? management p actor acting t in
      if principal == actor then Err Forbidden else Ok tt
  | RevokeRoleAssignment _ _ _ =>
      try? management p actor acting t in
      Ok tt
  | CreateDelegation _ source_assignment_id _ _ _ _ _ =>
      if negb ((acting == source_assignment_id) && own_assignment p actor acting t)
      then Err Forbidden else Ok tt
  | RevokeDelegation _ delegation_id _ =>
      let own :=
        is_some_and (delegation p delegation_id)
          (fun value => (dg_delegator value == actor)
                        && (dg_source_assignment_id value == acting))
        && own_assignment p actor acting t in
      if negb own then (try? management p actor acting t in Ok tt) else Ok tt
  end.

(** The arms of [apply_validated]; [new_id] is the identifier [Uuid::now_v7()] returns. *)
Definition create_role_assignment (p : OrganizationPolicy) (actor : VerifiedActor) (t : Instant)
    (now : string) (new_id : Uuid) (principal : VerifiedActor) (role_id unit_id : Uuid)
    (valid_from valid_until : option string) (reason : string)
    : WResult (OrganizationPolicy * MutationResult) :=
  try? bounded_reason reason in
  let? unit := ok_or (unit_ p unit_id) ValidationFailed in
  if is_none (role p role_id) || negb (contains (ou_role_ids unit) role_id)
  then Err ValidationFailed
  else
    let? from := requested_start valid_from t in
    let? until := transpose (option_map parse_instant valid_until) in
    if is_some_and until (fun until => (until <=? from) || (until <=? t))
       || (MAX_ROLE_ASSIGNMENTS <=? len (op_role_assignments p))
    then Err ValidationFailed
    else if existsb
              (fun value =>
                 (ra_principal value == principal)
                 && (ra_role_id value == role_id)
                 && (ra_unit_id value == unit_id)
                 && is_none (ra_revoked_at value)
                 && intervals_overlap
                      (stored_instant (ra_valid_from value))
                      match ra_valid_until value with
                      | None => Some None
                      | Some until => option_map Some (stored_instant until)
                      end
                      from until)
              (op_role_assignments p)
    then Err ValidationFailed
    else
      let? valid_from := format_instant from in
      let? valid_until := transpose (option_map format_instant until) in
      let assignment :=
        {| ra_id := new_id; ra_principal := principal; ra_role_id := role_id;
           ra_unit_id := unit_id; ra_valid_from := valid_from; ra_valid_until := valid_until;
           ra_reason := reason; ra_created_by := Some actor; ra_created_at := now;
           ra_revoked_at := None; ra_revoked_by := None; ra_revoke_reason := None |} in
      Ok (set_op_role_assignments (op_role_assignments p ++ [assignment]) p,
          MR_RoleAssignmentCreated assignment (op_revision p)).

Definition revoke_assignment_record (actor : VerifiedActor) (now reason : string)
    (value : RoleAssignment) : RoleAssignment :=
  {| ra_id := ra_id value; ra_principal := ra_principal value; ra_role_id := ra_role_id value;
     ra_unit_id := ra_unit_id value; ra_valid_from := ra_valid_from value;
     ra_valid_until := ra_valid_until value; ra_reason := ra_reason value;
     ra_created_by := ra_created_by value; ra_created_at := ra_created_at value;
     ra_revoked_at := Some now; ra_revoked_by := Some actor; ra_revoke_reason := Some reason |}.

Definition revoke_role_assignment (p : OrganizationPolicy) (actor : VerifiedActor)
    (now : string) (context : CommandContext) (assignment_id : Uuid) (reason : string)
    : WResult (OrganizationPolicy * MutationResult) :=
  try? bounded_reason reason in
  if assignment_id == cc_acting_assignment_id context then Err ValidationFailed
  else
    let? value := ok_or (assignment p assignment_id) OrganizationRecordNotFound in
    if is_some (ra_revoked_at value) then Err ValidationFailed
    else
      let value := revoke_assignment_record actor now reason value in
      Ok (set_op_role_assignments
            (update_first (fun value => ra_id value == assignment_id)
               (revoke_assignment_record actor now reason) (op_role_assignments p)) p,
          MR_RoleAssignmentRevoked value (op_revision p)).

Definition create_delegation (p : OrganizationPolicy) (actor : VerifiedActor) (t : Instant)
    (now : string) (new_id source_assignment_id : Uuid) (recipient : VerifiedActor)
    (actions : list PolicyAction) (valid_from : option string) (valid_until reason : string)
    : WResult (OrganizationPolicy * MutationResult) :=
  try? bounded_reason reason in
  let? source := ok_or (assignment p source_assignment_id) OrganizationRecordNotFound in
  if negb (assignment_effective p source t) || (ra_principal source == recipient)
  then Err ValidationFailed
  else
    let? role := ok_or (role p (ra_role_id source)) IntegrityViolation in
    let unique : gset PolicyAction := list_to_set actions in
    if is_empty actions
       || (Z.of_nat (size unique) != len actions)
       || existsb
            (fun action => negb (delegable action) || negb (contains (br_actions role) action))
            actions
    then Err ValidationFailed
    else
      let? from := requested_start valid_from t in
      let? until := parse_instant valid_until in
      let source_until := until ← ra_valid_until source; stored_instant until in
      if (until <=? from)
         || (until <=? t)
         || is_some_and source_until (fun source_until => source_until <? until)
         || (MAX_DELEGATIONS_PER_DELEGATOR
               <=? count (fun value => dg_delegator value == ra_principal source)
                     (op_delegations p))
      then Err ValidationFailed
      else if existsb
                (fun value =>
                   (dg_source_assignment_id value == source_assignment_id)
                   && (dg_recipient value == recipient)
                   && is_none (dg_revoked_at value)
                   && intervals_overlap
                        (stored_instant (dg_valid_from value))
                        (option_map Some (stored_instant (dg_valid_until value)))
                        from (Some until))
                (op_delegations p)
      then Err ValidationFailed
      else
        let? valid_from := format_instant from in
        let? valid_until := format_instant until in
        let delegation :=
          {| dg_id := new_id; dg_source_assignment_id := source_assignment_id;
             dg_delegator := ra_principal source; dg_recipient := recipient;
             dg_actions := actions; dg_valid_from := valid_from; dg_valid_until := valid_until;
             dg_reason := reason; dg_created_by := actor; dg_created_at := now;
             dg_revoked_at := None; dg_revoked_by := None; dg_revoke_reason := None |} in
        Ok (set_op_delegations (op_delegations p ++ [delegation]) p,
            MR_DelegationCreated delegation (op_revision p)).

Definition revoke_delegation_record (actor : VerifiedActor) (now reason : string)
    (value : Delegation) : Delegation :=
  {| dg_id := dg_id value; dg_source_assignment_id := dg_source_assignment_id value;
     dg_delegator := dg_delegator value; dg_recipient := dg_recipient value;
     dg_actions := dg_actions value; dg_valid_from := dg_valid_from value;
     dg_valid_until := dg_valid_until value; dg_reason := dg_reason value;
     dg_created_by := dg_created_by value; dg_created_at := dg_created_at value;
     dg_revoked_at := Some now; dg_revoked_by := Some actor; dg_revoke_reason := Some reason |}.

Definition revoke_delegation (p : OrganizationPolicy) (actor : VerifiedActor) (now : string)
    (delegation_id : Uuid) (reason : string) : WResult (OrganizationPolicy * MutationResult) :=
  try? bounded_reason reason in
  let? value := ok_or (delegation p delegation_id) OrganizationRecordNotFound in
  if is_some (dg_revoked_at value) then Err ValidationFailed
  else
    let value := revoke_delegation_record actor now reason value in
    Ok (set_op_delegations
          (update_first (fun value => dg_id value == delegation_id)
             (revoke_delegation_record actor now reason) (op_delegations p)) p,
        MR_DelegationRevoked value (op_revision p)).

Definition apply_validated (p : OrganizationPolicy) (actor : VerifiedActor)
    (command : PolicyCommand) (t : Instant) (now : string) (new_id : Uuid)
    : WResult (OrganizationPolicy * MutationResult) :=
  match command with
  | CreateRoleAssignment _ principal role_id unit_id valid_from valid_until reason =>
      create_role_assignment p actor t now new_id principal role_id unit_id valid_from
        valid_until reason
  | RevokeRoleAssignment context assignment_id reason =>
      revoke_role_assignment p actor now context assignment_id reason
  | CreateDelegation _ source_assignment_id recipient actions valid_from valid_until reason =>
      create_delegation p actor t now new_id source_assignment_id recipient actions valid_from
        valid_until reason
  | RevokeDelegation _ delegation_id reason =>
      revoke_delegation p actor now delegation_id reason
  end.

(** The body of [apply] on the private copy: the committed policy and the receipt. *)
Definition try_apply (p : OrganizationPolicy) (actor : VerifiedActor) (command : PolicyCommand)
    (now : string) (new_id : Uuid) : WResult (OrganizationPolicy * MutationResult) :=
  try? validate_integrity p in
  let context := policy_context command in
  if (get_version_num (cc_operation_id context) != 7) || (cc_expected_revision context <? 0)
  then Err ValidationFailed
  else
    let? t := map_err (fun _ => IntegrityViolation) (parse_instant now) in
    try? authorize_command p actor command t in
    if op_revision p != cc_expected_revision context then Err RevisionConflict
    else
      let? revision := ok_or (checked_add_i64 (op_revision p) 1) IntegrityViolation in
      let next := set_op_revision revision p in
      let? '(next, result) := apply_validated next actor command t now new_id in
      try? validate_integrity next in
      Ok (next, result).

(** [apply]: [*self] is written only when everything succeeded. *)
Definition apply (p : OrganizationPolicy) (actor : VerifiedActor) (command : PolicyCommand)
    (now : string) (new_id : Uuid) : OrganizationPolicy * WResult MutationResult :=
  commit p (try_apply p actor command now new_id).

(** A committed policy receipt is replayed only while its record stays visible. *)
Definition authorize_recovery (p : OrganizationPolicy) (actor : VerifiedActor)
    (result : MutationResult) (t : Instant) : WResult unit :=
  let visible :=
    match result with
    | MR_RoleAssignmentCreated value _ | MR_RoleAssignmentRevoked value _ =>
        is_some_and (assignment p (ra_id value))
          (fun value => assignment_visible p actor value t)
    | MR_DelegationCreated value _ | MR_DelegationRevoked value _ =>
        is_some_and (delegation p (dg_id value))
          (fun value => delegation_visible p actor value t)
    | _ => false
    end in
  ok_or (then_some visible tt) OrganizationRecordNotFound.

End Evaluation.
End Policy.
