(* ===== verification/OrganizationFacts.v ===== *)
(** * OrganizationFacts: the integrity of a policy as a proposition, and the effect of each
    policy command on the stored records. *)
From stdpp Require Import base gmap sets list strings.
From Stdlib Require Import ZArith Lia.
From S2P Require Import Prelude WorkTypes WorkSetters Text Externals Principals Organization.

Local Open Scope Z_scope.

Section Facts.
Context {X : Externals}.
Import Policy.

(** ** Integrity as a proposition *)

Record assignment_wf (p : OrganizationPolicy) (a : RoleAssignment) : Prop := {
  awf_from : exists from, stored_instant (ra_valid_from a) = Some from
             /\ forall u, ra_valid_until a = Some u ->
                  exists until, stored_instant u = Some until /\ from < until;
  awf_role : is_Some (role p (ra_role_id a));
  awf_unit : is_Some (unit_ p (ra_unit_id a));
  awf_revoked : is_some (ra_revoked_at a) = is_some (ra_revoked_by a)
}.

Record delegation_wf (p : OrganizationPolicy) (d : Delegation) : Prop := {
  dwf_bounds : exists from until, stored_instant (dg_valid_from d) = Some from
               /\ stored_instant (dg_valid_until d) = Some until /\ from < until;
  dwf_source : exists source role,
               assignment p (dg_source_assignment_id d) = Some source
               /\ Policy.role p (ra_role_id source) = Some role
               /\ ra_principal source = dg_delegator d
               /\ forall action, action ∈ dg_actions d ->
                    delegable action = true /\ action ∈ br_actions role;
  dwf_recipient : dg_recipient d <> dg_delegator d;
  dwf_actions : dg_actions d <> [];
  dwf_revoked : is_some (dg_revoked_at d) = is_some (dg_revoked_by d)
}.

Record policy_wf (p : OrganizationPolicy) : Prop := {
  pwf_id : op_id p = ORGANIZATION_POLICY_ID;
  pwf_revision : 0 <= op_revision p;
  pwf_max_assignments : len (op_role_assignments p) <= MAX_ROLE_ASSIGNMENTS;
  pwf_max_delegations : len (op_delegations p) <= MAX_DELEGATIONS;
  pwf_ids : NoDup (all_ids p);
  pwf_units : forall u id, u ∈ op_units p -> id ∈ ou_role_ids u -> is_Some (role p id);
  pwf_assignments : forall a, a ∈ op_role_assignments p -> assignment_wf p a;
  pwf_delegations : forall d, d ∈ op_delegations p -> delegation_wf p d
}.

Lemma for_each_insert_id (l : list Uuid) (s : gset Uuid) :
  (exists s', for_each insert_id s l = Ok s') <-> NoDup l /\ forall x, x ∈ l -> x ∉ s.
Proof.
  revert s. induction l as [|x l IH]; intros s; cbn.
  - split; [|eauto]. intros _. split; [constructor|set_solver].
  - rewrite NoDup_cons. unfold insert_id at 1. case_bool_decide; cbn.
    + split; [by intros []|]. intros [_ Hn]. exfalso. apply (Hn x); set_solver.
    + rewrite IH. split.
      * intros [Hd Hn]. split; [split; [|done]|].
        -- intros Hx. apply (Hn x Hx). set_solver.
        -- intros y [->|Hy]%elem_of_cons; [done|]. specialize (Hn y Hy). set_solver.
      * intros [[Hx Hd] Hn]. split; [done|].
        intros y Hy [->%elem_of_singleton|Hs]%elem_of_union; [done|].
        apply (Hn y); [by right|done].
Qed.

Lemma validate_unit_Ok p u :
  validate_unit p tt u = Ok tt <-> forall id, id ∈ ou_role_ids u -> is_Some (role p id).
Proof.
  unfold validate_unit. destruct (existsb _ _) eqn:E.
  - split; [done|]. intros H. apply existsb_true in E as (id & Hid & E).
    apply is_none_true in E. destruct (H id Hid) as [? H']. congruence.
  - split; [|done]. intros _ id Hid. rewrite existsb_false in E.
    specialize (E id Hid). simp_bool. eauto.
Qed.

Lemma validate_assignment_Ok p a :
  validate_assignment p tt a = Ok tt <-> assignment_wf p a.
Proof.
  unfold validate_assignment. split.
  - intros H. inv_ok. simp_bool.
    rewrite transpose_Ok in Hok0. split.
    + exists a0. split; [done|]. intros u Hu. rewrite Hu in Hok0.
      destruct a1 as [until|]; [|done]. inv_ok. exists until. split; [done|].
      cbn in *. simp_bool. lia.
    + eauto.
    + eauto.
    + by destruct (is_some (ra_revoked_at a)), (is_some (ra_revoked_by a)).
  - intros [(from & Hf & Hu) [r Hr] [u Hu'] Hrev]. rewrite Hf. cbn.
    rewrite Hr, Hu', Hrev, Bool.eqb_reflx. cbn.
    destruct (ra_valid_until a) as [v|]; cbn; [|done].
    destruct (Hu v eq_refl) as (until & Hv & Hlt). rewrite Hv. cbn.
    by rewrite (proj2 (Z.leb_gt _ _) Hlt).
Qed.

Lemma validate_delegation_Ok p d :
  validate_delegation p tt d = Ok tt <-> delegation_wf p d.
Proof.
  unfold validate_delegation. split.
  - intros H. inv_ok. simp_bool. split.
    + exists a, a0. auto with lia.
    + exists a1, a2. split_and!; try done. intros action Ha.
      match goal with E : existsb _ _ = false |- _ => rewrite existsb_false in E;
        specialize (E action Ha) end. by simp_bool.
    + done.
    + by destruct (dg_actions d).
    + by destruct (is_some (dg_revoked_at d)), (is_some (dg_revoked_by d)).
  - intros [(from & until & Hf & Hu & Hlt) (s & r & Hs & Hr & Hp & Ha) Hrec Hne Hrev].
    rewrite Hf, Hu, Hs. cbn. rewrite Hr. cbn.
    rewrite (proj2 (Z.leb_gt _ _) Hlt), Hrev, Bool.eqb_reflx.
    rewrite bool_decide_eq_true_2, bool_decide_eq_false_2 by done. cbn.
    destruct (dg_actions d) as [|x l] eqn:El; [done|]. rewrite <-El in *. cbn.
    rewrite (proj2 (existsb_false _ _)); [by rewrite El|].
    intros action Hin. destruct (Ha action Hin) as [-> Hc%contains_true]. by rewrite Hc.
Qed.

(** [validate_integrity] decides [policy_wf]. *)
Lemma validate_integrity_Ok p : validate_integrity p = Ok tt <-> policy_wf p.
Proof.
  unfold validate_integrity. split.
  - intros H. inv_ok. simp_bool.
    repeat match goal with u : unit |- _ => destruct u end.
    apply for_each_unit in Hok0, Hok1, Hok2.
    rewrite Forall_forall in Hok0. rewrite Forall_forall in Hok1. rewrite Forall_forall in Hok2.
    split; try done.
    + by apply (for_each_insert_id _ ∅); eauto.
    + intros u id Hu. by apply validate_unit_Ok, Hok0.
    + intros a' Ha. by apply validate_assignment_Ok, Hok1.
    + intros d Hd. by apply validate_delegation_Ok, Hok2.
  - intros [Hid Hrev Hma Hmd Hnd Hu Ha Hd].
    rewrite Hid, bool_decide_eq_true_2 by done. cbn.
    rewrite (proj2 (Z.ltb_ge _ _) Hrev), (proj2 (Z.ltb_ge _ _) Hma),
      (proj2 (Z.ltb_ge _ _) Hmd). cbn.
    destruct (proj2 (for_each_insert_id (all_ids p) ∅)) as [s' ->]; [set_solver|]. cbn.
    rewrite (proj2 (for_each_unit _ (op_units p))); cbn.
    2: { apply Forall_forall. intros u Hin. apply validate_unit_Ok. eauto. }
    rewrite (proj2 (for_each_unit _ (op_role_assignments p))); cbn.
    2: { apply Forall_forall. intros a Hin. apply validate_assignment_Ok. eauto. }
    rewrite (proj2 (for_each_unit _ (op_delegations p))); cbn; [done|].
    apply Forall_forall. intros d Hin. apply validate_delegation_Ok. eauto.
Qed.

(** ** Lookups and membership *)

Lemma elem_of_responsibilities p actor t r :
  r ∈ responsibilities p actor t <->
  (exists a, a ∈ op_role_assignments p /\ ra_principal a = actor
             /\ assignment_effective p a t = true /\ assignment_responsibility p a = Some r)
  \/ (exists d, d ∈ op_delegations p /\ dg_recipient d = actor
                /\ delegation_effective p d t = true /\ delegation_responsibility p d = Some r).
Proof.
  unfold responsibilities. rewrite elem_of_app, !elem_of_filter_map.
  setoid_rewrite elem_of_filter_bool. setoid_rewrite andb_true_iff.
  setoid_rewrite bool_decide_eq_true. naive_solver.
Qed.

Lemma assignment_Some p id a :
  assignment p id = Some a -> a ∈ op_role_assignments p /\ ra_id a = id.
Proof. intros [? ?]%find_Some_iff. by simp_bool. Qed.

Lemma delegation_Some p id d :
  delegation p id = Some d -> d ∈ op_delegations p /\ dg_id d = id.
Proof. intros [? ?]%find_Some_iff. by simp_bool. Qed.

Lemma wf_NoDup_assignments p : policy_wf p -> NoDup (map ra_id (op_role_assignments p)).
Proof.
  intros H. pose proof (pwf_ids _ H) as Hd. unfold all_ids in Hd.
  by apply NoDup_app in Hd as (_ & _ & (_ & _ & (? & _)%NoDup_app)%NoDup_app).
Qed.

Lemma wf_NoDup_delegations p : policy_wf p -> NoDup (map dg_id (op_delegations p)).
Proof.
  intros H. pose proof (pwf_ids _ H) as Hd. unfold all_ids in Hd.
  by apply NoDup_app in Hd as (_ & _ & (_ & _ & (_ & _ & ?)%NoDup_app)%NoDup_app).
Qed.

Lemma wf_ids_disjoint p a d :
  policy_wf p -> a ∈ op_role_assignments p -> d ∈ op_delegations p -> ra_id a <> dg_id d.
Proof.
  intros H Ha Hd Heq. pose proof (pwf_ids _ H) as Hn. unfold all_ids in Hn.
  apply NoDup_app in Hn as (_ & _ & (_ & _ & (_ & Hn & _)%NoDup_app)%NoDup_app).
  apply (Hn (ra_id a)).
  - apply list_elem_of_In, in_map, list_elem_of_In, Ha.
  - rewrite Heq. apply list_elem_of_In, in_map, list_elem_of_In, Hd.
Qed.

Lemma wf_assignment p a :
  policy_wf p -> a ∈ op_role_assignments p -> assignment p (ra_id a) = Some a.
Proof. intros H. apply find_NoDup, wf_NoDup_assignments, H. Qed.

Lemma wf_delegation p d :
  policy_wf p -> d ∈ op_delegations p -> delegation p (dg_id d) = Some d.
Proof. intros H. apply find_NoDup, wf_NoDup_delegations, H. Qed.

Lemma assignment_responsibility_id p a r :
  assignment_responsibility p a = Some r ->
  rs_id r = ra_id a /\ rs_kind r = Kind_RoleAssignment /\ rs_principal r = ra_principal a.
Proof.
  unfold assignment_responsibility.
  destruct (role p _), (unit_ p _); cbn; intros; by simplify_eq.
Qed.

Lemma delegation_responsibility_id p d r :
  delegation_responsibility p d = Some r ->
  rs_id r = dg_id d /\ rs_kind r = Kind_Delegation /\ rs_principal r = dg_recipient d.
Proof.
  unfold delegation_responsibility. destruct (assignment p _) as [s|]; cbn; [|done].
  destruct (assignment_responsibility p s); cbn; intros; by simplify_eq.
Qed.

Lemma assignment_effective_responsibility p a t :
  assignment_effective p a t = true -> is_Some (assignment_responsibility p a).
Proof.
  unfold assignment_effective, assignment_responsibility.
  destruct (stored_instant _); [|done]. intros. simp_bool.
  repeat match goal with H : exists _, _ = Some _ |- _ => destruct H as [? H]; rewrite H end.
  rewrite H0, H1. by eexists.
Qed.

Lemma assignment_effective_bounds p a t :
  assignment_effective p a t = true ->
  ra_revoked_at a = None
  /\ (exists from, stored_instant (ra_valid_from a) = Some from /\ from <= t)
  /\ (forall u, ra_valid_until a = Some u ->
        exists until, stored_instant u = Some until /\ t < until).
Proof.
  unfold assignment_effective. destruct (stored_instant _) eqn:E; [|done].
  intros. simp_bool. split_and!; [done|eauto|].
  intros u Hu. rewrite Hu in *. cbn in *.
  destruct (stored_instant u) eqn:Eu; cbn in *; [|done]. simp_bool. eauto.
Qed.

(** [update_first] at a key and [find] by the same key. *)
Lemma find_update_first {A} (key : A -> N) (k k0 : N) (f : A -> A) l :
  (forall x, key (f x) = key x) ->
  find (fun y => key y == k) (update_first (fun y => key y == k0) f l)
  = option_map (fun x => if key x == k0 then f x else x) (find (fun y => key y == k) l).
Proof.
  intros Hf. induction l as [|x l IH]; cbn; [done|].
  destruct (decide (key x = k0)) as [E0|E0], (decide (key x = k)) as [E|E].
  - rewrite (bool_decide_eq_true_2 (key x = k0)) by done. cbn.
    rewrite Hf, !(bool_decide_eq_true_2 (key x = k)) by done. cbn.
    by rewrite bool_decide_eq_true_2.
  - rewrite (bool_decide_eq_true_2 (key x = k0)) by done. cbn.
    rewrite Hf, !(bool_decide_eq_false_2 (key x = k)) by done.
    destruct (find _ l) as [y|] eqn:Ey; cbn; [|done].
    apply find_Some_iff in Ey as [_ Ey%bool_decide_eq_true].
    rewrite bool_decide_eq_false_2; [done|congruence].
  - rewrite (bool_decide_eq_false_2 (key x = k0)) by done. cbn.
    rewrite !(bool_decide_eq_true_2 (key x = k)) by done. cbn.
    by rewrite bool_decide_eq_false_2.
  - rewrite (bool_decide_eq_false_2 (key x = k0)) by done. cbn.
    by rewrite !(bool_decide_eq_false_2 (key x = k)).
Qed.

(** ** The effect of each command *)

(** The policies the arms of [apply_validated] return. *)
Definition with_assignment (p : OrganizationPolicy) (a : RoleAssignment) : OrganizationPolicy :=
  set_op_role_assignments (op_role_assignments p ++ [a]) p.

Definition with_revoked (p : OrganizationPolicy) (actor : VerifiedActor) (now reason : string)
    (id : Uuid) : OrganizationPolicy :=
  set_op_role_assignments
    (update_first (fun value => ra_id value == id)
       (revoke_assignment_record actor now reason) (op_role_assignments p)) p.

Definition with_delegation (p : OrganizationPolicy) (d : Delegation) : OrganizationPolicy :=
  set_op_delegations (op_delegations p ++ [d]) p.

Definition with_revoked_delegation (p : OrganizationPolicy) (actor : VerifiedActor)
    (now reason : string) (id : Uuid) : OrganizationPolicy :=
  set_op_delegations
    (update_first (fun value => dg_id value == id)
       (revoke_delegation_record actor now reason) (op_delegations p)) p.

Definition until_spec (t from : Instant) (until : option Instant) (stored : option string)
    : Prop :=
  match until, stored with
  | None, None => True
  | Some u, Some s => rfc3339_format u = Some s /\ from < u /\ t < u
  | _, _ => False
  end.

(** The stored end of an assignment, as [create_role_assignment] hands it to
    [intervals_overlap]. *)
Definition stored_until (a : RoleAssignment) : option (option Instant) :=
  match ra_valid_until a with
  | None => Some None
  | Some until => option_map Some (stored_instant until)
  end.

Record created_assignment (p : OrganizationPolicy) (t : Instant) (new_id : Uuid)
    (principal : VerifiedActor) (role_id unit_id : Uuid) (valid_from : option string)
    (a : RoleAssignment) : Prop := {
  ca_id : ra_id a = new_id;
  ca_principal : ra_principal a = principal;
  ca_role_id : ra_role_id a = role_id;
  ca_unit_id : ra_unit_id a = unit_id;
  ca_role : is_Some (role p role_id);
  ca_unit : exists u, unit_ p unit_id = Some u /\ role_id ∈ ou_role_ids u;
  ca_capacity : len (op_role_assignments p) < MAX_ROLE_ASSIGNMENTS;
  ca_not_revoked : ra_revoked_at a = None /\ ra_revoked_by a = None;
  ca_window : exists from until,
      requested_start valid_from t = Ok from
      /\ rfc3339_format from = Some (ra_valid_from a)
      /\ until_spec t from until (ra_valid_until a)
      /\ forall b, b ∈ op_role_assignments p -> ra_principal b = principal ->
           ra_role_id b = role_id -> ra_unit_id b = unit_id -> ra_revoked_at b = None ->
           intervals_overlap (stored_instant (ra_valid_from b)) (stored_until b) from until
           = false
}.

Lemma create_role_assignment_Ok p actor t now new_id principal role_id unit_id vf vu reason p' r :
  create_role_assignment p actor t now new_id principal role_id unit_id vf vu reason = Ok (p', r) ->
  exists a, created_assignment p t new_id principal role_id unit_id vf a
            /\ p' = with_assignment p a
            /\ r = MR_RoleAssignmentCreated a (op_revision p).
Proof.
  unfold create_role_assignment. intros H. inv_ok. simp_bool. simplify_eq.
  apply transpose_Ok in Hok2. apply transpose_Ok in Hok4.
  unfold format_instant in Hok3. inv_ok.
  eexists. split; [|split; reflexivity].
  split; cbn; try done; eauto.
  exists a1, a2. split_and!; try done.
  - unfold until_spec. destruct a2 as [u|], a4 as [s|]; try done.
    unfold format_instant in Hok4. inv_ok. cbn in *. simp_bool. auto.
  - intros b Hb Hp Hr Hu Hn.
    match goal with E : existsb _ _ = false |- _ => rewrite existsb_false in E;
      specialize (E b Hb) end.
    rewrite !bool_decide_eq_true_2, Hn in * by done. done.
Qed.

Lemma revoke_role_assignment_Ok p actor now context id reason p' r :
  revoke_role_assignment p actor now context id reason = Ok (p', r) ->
  id <> cc_acting_assignment_id context
  /\ (exists a, assignment p id = Some a /\ ra_revoked_at a = None)
  /\ p' = with_revoked p actor now reason id.
Proof.
  unfold revoke_role_assignment. intros H. inv_ok. simp_bool. simplify_eq. eauto 6.
Qed.

Record created_delegation (p : OrganizationPolicy) (t : Instant) (new_id source_id : Uuid)
    (recipient : VerifiedActor) (actions : list PolicyAction) (valid_from : option string)
    (source : RoleAssignment) (d : Delegation) : Prop := {
  cd_source : assignment p source_id = Some source;
  cd_effective : assignment_effective p source t = true;
  cd_id : dg_id d = new_id;
  cd_source_id : dg_source_assignment_id d = source_id;
  cd_delegator : dg_delegator d = ra_principal source;
  cd_recipient : dg_recipient d = recipient;
  cd_other : ra_principal source <> recipient;
  cd_actions : dg_actions d = actions /\ actions <> [] /\ NoDup actions;
  cd_role : exists role, Policy.role p (ra_role_id source) = Some role
            /\ forall action, action ∈ actions ->
                 delegable action = true /\ action ∈ br_actions role;
  cd_quota : count (fun value => dg_delegator value == ra_principal source) (op_delegations p)
             < MAX_DELEGATIONS_PER_DELEGATOR;
  cd_not_revoked : dg_revoked_at d = None /\ dg_revoked_by d = None;
  cd_window : exists from until,
      requested_start valid_from t = Ok from
      /\ rfc3339_format from = Some (dg_valid_from d)
      /\ rfc3339_format until = Some (dg_valid_until d)
      /\ from < until /\ t < until
      /\ (forall s u, ra_valid_until source = Some s -> stored_instant s = Some u -> until <= u)
}.

Lemma size_list_to_set_NoDup {A} `{Countable A} (l : list A) :
  size (list_to_set l : gset A) = length l -> NoDup l.
Proof.
  induction l as [|x l IH]; cbn; [constructor|]. intros Hs.
  destruct (decide (x ∈ l)) as [Hx|Hx].
  - exfalso. rewrite subseteq_union_1_L in Hs by set_solver.
    clear IH. assert (size (list_to_set l : gset A) <= length l)%nat; [|lia].
    clear. induction l as [|y l IH]; cbn; [done|]. rewrite size_union_alt, size_singleton.
    pose proof (subseteq_size (list_to_set l ∖ {[y]} : gset A) (list_to_set l)).
    assert (list_to_set l ∖ {[y]} ⊆ (list_to_set l : gset A)) by set_solver. intuition lia.
  - constructor; [done|]. apply IH. rewrite size_union, size_singleton in Hs by set_solver. lia.
Qed.

Lemma create_delegation_Ok p actor t now new_id source_id recipient actions vf vu reason p' r :
  create_delegation p actor t now new_id source_id recipient actions vf vu reason = Ok (p', r) ->
  exists source d,
    created_delegation p t new_id source_id recipient actions vf source d
    /\ p' = with_delegation p d
    /\ r = MR_DelegationCreated d (op_revision p).
Proof.
  unfold create_delegation. intros H. inv_ok. simp_bool. simplify_eq.
  unfold format_instant in *. inv_ok.
  exists a0. eexists. split; [|split; reflexivity].
  split; cbn; try done.
  - split_and!; [done| |].
    + by destruct actions.
    + apply size_list_to_set_NoDup. unfold len in *. lia.
  - exists a1. split; [done|]. intros action Ha.
    match goal with E : existsb _ actions = false |- _ => rewrite existsb_false in E;
      specialize (E action Ha) end. by simp_bool.
  - exists a2, a3. split_and!; try done. intros s u Hs Hu.
    rewrite Hs in *. cbn in *. rewrite Hu in *. cbn in *. by simp_bool.
Qed.

Lemma revoke_delegation_Ok p actor now id reason p' r :
  revoke_delegation p actor now id reason = Ok (p', r) ->
  (exists d, delegation p id = Some d /\ dg_revoked_at d = None)
  /\ p' = with_revoked_delegation p actor now reason id.
Proof. unfold revoke_delegation. intros H. inv_ok. simp_bool. simplify_eq. eauto. Qed.

(** What a committed command went through. *)
Lemma try_apply_Ok p actor c now new_id p' r :
  try_apply p actor c now new_id = Ok (p', r) ->
  exists t,
    policy_wf p
    /\ parse_instant now = Ok t
    /\ authorize_command p actor c t = Ok tt
    /\ op_revision p = cc_expected_revision (policy_context c)
    /\ in_i64 (op_revision p + 1)
    /\ apply_validated (set_op_revision (op_revision p + 1) p) actor c t now new_id = Ok (p', r)
    /\ policy_wf p'.
Proof.
  unfold try_apply. intros H. inv_ok. simp_bool. simplify_eq.
  repeat match goal with u : unit |- _ => destruct u end.
  exists a0. apply checked_add_i64_Some in Hok2 as [-> ?].
  split_and!; try done; by apply validate_integrity_Ok.
Qed.

Lemma apply_Ok p actor c now new_id p' r :
  apply p actor c now new_id = (p', Ok r) <-> try_apply p actor c now new_id = Ok (p', r).
Proof. apply commit_Ok. Qed.
End Facts.
