(* ===== verification/OrganizationTheorems.v ===== *)
(** * OrganizationTheorems: what the policy authority promises

    Lookup agrees with listing, delegation only narrows, nobody extends their own authority,
    records are append-only, revocation is final, one effective assignment per principal, role
    and unit, and the closing integrity check never rejects a validated command. *)
From stdpp Require Import base gmap sets list strings relations.
From Stdlib Require Import ZArith Lia.
From S2P Require Import Prelude WorkTypes WorkSetters Text Externals Principals Organization.
From S2P Require Import OrganizationFacts.

Local Open Scope Z_scope.

Section Theorems.
Context {X : Externals}.
Import Policy.

(** ** Lookup and listing *)

(** What is looked up is listed, with or without integrity. *)
Lemma responsibility_listed p actor id t r :
  responsibility p actor id t = Some r -> r ∈ responsibilities p actor t /\ rs_id r = id.
Proof.
  unfold responsibility. rewrite elem_of_responsibilities.
  destruct (assignment p id) as [a|] eqn:Ea.
  - destruct (_ && _) eqn:E; [|done]. simp_bool. intros Hr.
    apply assignment_Some in Ea as [Hin <-]. destruct (assignment_responsibility_id _ _ _ Hr).
    split; [left|]; eauto 10.
  - destruct (delegation p id) as [d|] eqn:Ed; cbn; [|done].
    destruct (_ && _) eqn:E; [|done]. simp_bool. intros Hr.
    apply delegation_Some in Ed as [Hin <-]. destruct (delegation_responsibility_id _ _ _ Hr).
    split; [right|]; eauto 10.
Qed.

Lemma listed_responsibility p actor t r :
  policy_wf p -> r ∈ responsibilities p actor t -> responsibility p actor (rs_id r) t = Some r.
Proof.
  intros Hwf. rewrite elem_of_responsibilities. unfold responsibility.
  intros [(a & Hin & <- & He & Hr)|(d & Hin & <- & He & Hr)].
  - destruct (assignment_responsibility_id _ _ _ Hr) as [-> _].
    rewrite wf_assignment by done. by rewrite bool_decide_eq_true_2, He.
  - destruct (delegation_responsibility_id _ _ _ Hr) as [-> _].
    destruct (assignment p (dg_id d)) as [a|] eqn:Ea.
    + apply assignment_Some in Ea as [Ha Hid]. by destruct (wf_ids_disjoint p a d Hwf Ha Hin).
    + rewrite wf_delegation by done. cbn. by rewrite bool_decide_eq_true_2, He.
Qed.

(** Under integrity, looking up an acting responsibility by identifier returns
    exactly the listed responsibility with that identifier. *)
Theorem responsibility_lookup_iff_listed p actor id t r :
  validate_integrity p = Ok tt ->
  responsibility p actor id t = Some r <-> r ∈ responsibilities p actor t /\ rs_id r = id.
Proof.
  intros Hwf%validate_integrity_Ok. split; [apply responsibility_listed|].
  intros [Hin <-]. by apply listed_responsibility.
Qed.

(** ** Delegation *)

(** A delegated responsibility is a narrowing of an effective formal assignment of
    its delegator, with the same role and unit, and carries only delegable actions: never
    [organization.manage] or [work.assign]. *)
Theorem delegation_narrows p actor t r :
  validate_integrity p = Ok tt ->
  r ∈ responsibilities p actor t -> rs_kind r = Kind_Delegation ->
  exists delegator r0,
    rs_delegator r = Some delegator /\ delegator <> actor
    /\ r0 ∈ responsibilities p delegator t
    /\ rs_kind r0 = Kind_RoleAssignment
    /\ rs_source_assignment_id r = Some (rs_id r0)
    /\ rs_role_id r = rs_role_id r0 /\ rs_unit_id r = rs_unit_id r0
    /\ (forall action, allows r action = true ->
          allows r0 action = true /\ delegable action = true).
Proof.
  intros Hwf%validate_integrity_Ok. rewrite elem_of_responsibilities.
  intros [(a & _ & _ & _ & Hr)|(d & Hin & Hrec & He & Hr)] Hk.
  { destruct (assignment_responsibility_id _ _ _ Hr) as (_ & Hk' & _). congruence. }
  destruct (pwf_delegations _ Hwf d Hin) as [_ (s & role & Hs & Hrole & Hp & Hact) Hne _ _].
  unfold delegation_effective in He.
  destruct (stored_instant (dg_valid_from d)), (stored_instant (dg_valid_until d)); try done.
  rewrite Hs in He. cbn in He. simp_bool.
  unfold delegation_responsibility in Hr. rewrite Hs in Hr. cbn in Hr.
  destruct (assignment_responsibility p s) as [r0|] eqn:Er0; cbn in Hr; [|done]. simplify_eq.
  pose proof (assignment_Some _ _ _ Hs) as [Hsin Hsid].
  destruct (assignment_responsibility_id _ _ _ Er0) as (Hid0 & Hk0 & _).
  exists (dg_delegator d), r0. cbn. rewrite Hid0. split_and!; try done.
  - rewrite elem_of_responsibilities. left. exists s. auto.
  - unfold allows. cbn. intros action Ha%contains_true.
    apply elem_of_filter_bool in Ha as [Ha Hc%contains_true].
    split; [by apply contains_true|by apply Hact].
Qed.

(** ** No one extends their own authority *)

Lemma assignment_frame p p' a t :
  op_roles p' = op_roles p -> op_units p' = op_units p ->
  assignment_effective p' a t = assignment_effective p a t
  /\ assignment_responsibility p' a = assignment_responsibility p a.
Proof.
  intros Hr Hu. unfold assignment_effective, assignment_responsibility, role, unit_.
  by rewrite Hr, Hu.
Qed.

Lemma delegation_frame p p' d t :
  op_roles p' = op_roles p -> op_units p' = op_units p ->
  assignment p' (dg_source_assignment_id d) = assignment p (dg_source_assignment_id d) ->
  delegation_effective p' d t = delegation_effective p d t
  /\ delegation_responsibility p' d = delegation_responsibility p d.
Proof.
  intros Hr Hu Ha. unfold delegation_effective, delegation_responsibility. rewrite Ha.
  destruct (assignment p _) as [s|]; cbn; [|done].
  by destruct (assignment_frame p p' s t Hr Hu) as [-> ->].
Qed.

Lemma delegation_effective_source p d t :
  delegation_effective p d t = true ->
  dg_revoked_at d = None
  /\ exists s, assignment p (dg_source_assignment_id d) = Some s
               /\ ra_principal s = dg_delegator d /\ assignment_effective p s t = true.
Proof.
  unfold delegation_effective.
  destruct (stored_instant (dg_valid_from d)), (stored_instant (dg_valid_until d)); try done.
  destruct (assignment p _) as [s|]; cbn; intros; simp_bool; [eauto 6|done].
Qed.

Lemma revoked_not_effective p a t : ra_revoked_at a <> None -> assignment_effective p a t = false.
Proof.
  intros H. destruct (assignment_effective p a t) eqn:E; [|done].
  by apply assignment_effective_bounds in E as [? _].
Qed.

Lemma assignment_with_assignment p a0 k a :
  assignment p k = Some a -> assignment (with_assignment p a0) k = Some a.
Proof. apply find_app_Some. Qed.

Lemma assignment_with_revoked p actor now reason id k :
  assignment (with_revoked p actor now reason id) k
  = option_map (fun a => if ra_id a == id then revoke_assignment_record actor now reason a else a)
      (assignment p k).
Proof. by apply find_update_first. Qed.

(** After a revocation an effective delegation still has its old source. *)
Lemma source_after_revoke p actor now reason id d t :
  delegation_effective (with_revoked p actor now reason id) d t = true ->
  assignment (with_revoked p actor now reason id) (dg_source_assignment_id d)
  = assignment p (dg_source_assignment_id d)
  /\ dg_source_assignment_id d <> id.
Proof.
  intros (_ & s & Hs & _ & He)%delegation_effective_source.
  rewrite Hs. rewrite assignment_with_revoked in Hs.
  destruct (assignment p _) as [b|] eqn:Eb; cbn in Hs; [|done].
  case_bool_decide as Hb; simplify_eq.
  - by rewrite revoked_not_effective in He.
  - apply assignment_Some in Eb as [_ <-]. done.
Qed.

Lemma wf_delegation_source p d :
  policy_wf p -> d ∈ op_delegations p -> is_Some (assignment p (dg_source_assignment_id d)).
Proof.
  intros Hwf Hd. destruct (pwf_delegations _ Hwf d Hd) as [_ (s & _ & -> & _) _ _ _]. eauto.
Qed.

Lemma own_assignment_true p actor id t :
  own_assignment p actor id t = true ->
  exists a, assignment p id = Some a /\ ra_principal a = actor
            /\ assignment_effective p a t = true.
Proof.
  unfold own_assignment, responsibility. rewrite is_some_and_true.
  intros (r & Hr & Hk). simp_bool.
  destruct (assignment p id) as [a|].
  - destruct (_ && _) eqn:E; [|done]. simp_bool. eauto.
  - destruct (delegation p id) as [d|]; cbn in Hr; [|done]. destruct (_ && _); [|done].
    destruct (delegation_responsibility_id _ _ _ Hr) as (_ & ? & _). congruence.
Qed.

(** C12: a policy command never gives its own caller a responsibility: whatever the
    caller can act under after a commit, at any instant, was already theirs. *)
Theorem policy_no_self_escalation p actor c now new_id p' result t r :
  apply p actor c now new_id = (p', Ok result) ->
  r ∈ responsibilities p' actor t -> r ∈ responsibilities p actor t.
Proof.
  intros H%apply_Ok.
  destruct (try_apply_Ok _ _ _ _ _ _ _ H) as (at_ & Hwf & _ & Hauth & _ & _ & Happ & _).
  clear H. set (q := set_op_revision (op_revision p + 1) p) in *.
  change (responsibilities p actor t) with (responsibilities q actor t).
  rewrite !elem_of_responsibilities. destruct c; cbn [apply_validated authorize_command] in *.
  - apply create_role_assignment_Ok in Happ as (a0 & Hca & -> & _).
    inv_ok. simp_bool. intros [(b & Hin & Hp & He & Hr)|(d & Hin & Hp & He & Hr)].
    + left. exists b. apply elem_of_app in Hin as [Hin| ->%list_elem_of_singleton]; [done|].
      exfalso. apply ca_principal in Hca. congruence.
    + right. exists d. destruct (wf_delegation_source p d Hwf Hin) as [s Hs].
      destruct (delegation_frame q (with_assignment q a0) d t) as [<- <-]; try done.
      by rewrite (assignment_with_assignment q a0 _ s).
  - apply revoke_role_assignment_Ok in Happ as (_ & _ & ->).
    intros [(a & Hin & Hp & He & Hr)|(d & Hin & Hp & He & Hr)].
    + left. exists a. apply elem_of_update_first in Hin as [Hin|(b & _ & _ & ->)]; [done|].
      by rewrite revoked_not_effective in He.
    + right. exists d. destruct (source_after_revoke q _ _ _ _ _ _ He) as [Hs _].
      by destruct (delegation_frame q (with_revoked q actor now reason assignment_id) d t
                eq_refl eq_refl Hs) as [<- <-].
  - apply create_delegation_Ok in Happ as (s & d0 & Hcd & -> & _).
    destruct (negb _) eqn:E; [done|]. simp_bool. subst.
    apply own_assignment_true in H0 as (a & Ha & Hp & _).
    intros [?|(d & Hin & Hrec & ?)]; [by left|right].
    apply elem_of_app in Hin as [Hin| ->%list_elem_of_singleton]; [by exists d|].
    exfalso. destruct Hcd. cbn [policy_context] in *. subst source_assignment_id.
    change (assignment p) with (assignment q) in Ha. congruence.
  - apply revoke_delegation_Ok in Happ as (_ & ->).
    intros [?|(d & Hin & Hp & He & Hr)]; [by left|right].
    apply elem_of_update_first in Hin as [Hin|(b & _ & _ & ->)]; [by exists d|].
    by apply delegation_effective_source in He as [? _].
Qed.

(** ** Records are append-only *)

Definition assignment_evolves (a a' : RoleAssignment) : Prop :=
  a' = a
  \/ (ra_revoked_at a = None
      /\ exists actor now reason, a' = revoke_assignment_record actor now reason a).

Definition delegation_evolves (d d' : Delegation) : Prop :=
  d' = d
  \/ (dg_revoked_at d = None
      /\ exists actor now reason, d' = revoke_delegation_record actor now reason d).

Lemma assignments_evolve_refl l : Forall2 assignment_evolves l l.
Proof. apply Forall_Forall2_diag, Forall_true. by left. Qed.

Lemma delegations_evolve_refl l : Forall2 delegation_evolves l l.
Proof. apply Forall_Forall2_diag, Forall_true. by left. Qed.

#[local] Hint Resolve assignments_evolve_refl delegations_evolve_refl : rust.

Lemma assignments_evolve_revoked p actor now reason id a :
  policy_wf p -> assignment p id = Some a -> ra_revoked_at a = None ->
  Forall2 assignment_evolves (op_role_assignments p)
    (op_role_assignments (with_revoked p actor now reason id)).
Proof.
  intros Hwf Ha Hn. apply Forall2_update_first; [by left|].
  intros x Hx Hid. simp_bool. subst. rewrite wf_assignment in Ha by done. simplify_eq.
  right. eauto.
Qed.

Lemma delegations_evolve_revoked p actor now reason id d :
  policy_wf p -> delegation p id = Some d -> dg_revoked_at d = None ->
  Forall2 delegation_evolves (op_delegations p)
    (op_delegations (with_revoked_delegation p actor now reason id)).
Proof.
  intros Hwf Hd Hn. apply Forall2_update_first; [by left|].
  intros x Hx Hid. simp_bool. subst. rewrite wf_delegation in Hd by done. simplify_eq.
  right. eauto.
Qed.

(** What one committed command does to the records. *)
Record policy_extends (p p' : OrganizationPolicy) : Prop := {
  pe_id : op_id p' = op_id p;
  pe_revision : op_revision p' = op_revision p + 1;
  pe_units : op_units p' = op_units p;
  pe_roles : op_roles p' = op_roles p;
  pe_records : exists ras new_ras dgs new_dgs,
      op_role_assignments p' = ras ++ new_ras
      /\ Forall2 assignment_evolves (op_role_assignments p) ras
      /\ op_delegations p' = dgs ++ new_dgs
      /\ Forall2 delegation_evolves (op_delegations p) dgs
      /\ (length new_ras + length new_dgs <= 1)%nat
}.

Lemma apply_extends p actor c now new_id p' result :
  apply p actor c now new_id = (p', Ok result) ->
  policy_wf p /\ policy_wf p' /\ policy_extends p p'.
Proof.
  intros H%apply_Ok.
  destruct (try_apply_Ok _ _ _ _ _ _ _ H) as (at_ & Hwf & _ & _ & _ & _ & Happ & Hwf').
  split_and!; try done. clear H.
  destruct c; cbn [apply_validated] in Happ.
  - apply create_role_assignment_Ok in Happ as (a0 & _ & -> & _).
    split; try done. eexists _, _, _, []. split_and!; cbn; eauto using app_nil_r with rust.
  - apply revoke_role_assignment_Ok in Happ as (_ & (a & Ha & Hn) & ->).
    split; try done. eexists _, [], _, []. rewrite !app_nil_r.
    split_and!; eauto with rust. by apply (assignments_evolve_revoked p _ _ _ _ a).
  - apply create_delegation_Ok in Happ as (s & d0 & _ & -> & _).
    split; try done. eexists _, [], _, _. rewrite app_nil_r. split_and!; cbn; eauto with rust.
  - apply revoke_delegation_Ok in Happ as ((d & Hd & Hn) & ->).
    split; try done. eexists _, [], _, []. rewrite !app_nil_r.
    split_and!; eauto with rust. by apply (delegations_evolve_revoked p _ _ _ _ d).
Qed.

(** A command that fails leaves the policy as it was; a command that commits moves
    from one valid policy to the next revision of it, where units and roles are unchanged,
    every stored record is kept in place and at most revoked, and at most one record is new. *)
Theorem policy_apply_append_only p actor c now new_id p' outcome :
  apply p actor c now new_id = (p', outcome) ->
  match outcome with
  | Err _ => p' = p
  | Ok _ => validate_integrity p' = Ok tt /\ policy_extends p p'
            /\ cc_expected_revision (policy_context c) = op_revision p
            /\ in_i64 (op_revision p')
  end.
Proof.
  destruct outcome as [r|e]; intros H.
  - destruct (apply_extends _ _ _ _ _ _ _ H) as (_ & Hwf' & He).
    apply apply_Ok in H. apply try_apply_Ok in H as (at_ & _ & _ & _ & Hrev & Hi & _ & _).
    rewrite (pe_revision _ _ He). split_and!; try done. by apply validate_integrity_Ok.
  - by apply commit_Err in H.
Qed.

(** ** Revocation is final *)

Definition policy_step (p p' : OrganizationPolicy) : Prop :=
  exists actor c now new_id result, apply p actor c now new_id = (p', Ok result).

Lemma find_evolves (l l' k : list RoleAssignment) id a :
  Forall2 assignment_evolves l l' -> find (fun value => ra_id value == id) l = Some a ->
  exists a', find (fun value => ra_id value == id) (l' ++ k) = Some a' /\ assignment_evolves a a'.
Proof.
  intros H. induction H as [|x x' l l' Hx H IH]; cbn; [done|].
  assert (ra_id x' = ra_id x) as ->.
  { destruct Hx as [->|(_ & ? & ? & ? & ->)]; done. }
  case_bool_decide; [|done]. intros [= <-]. eauto.
Qed.

Definition revoked_in (p : OrganizationPolicy) (id : Uuid) : Prop :=
  exists a, assignment p id = Some a /\ ra_revoked_at a <> None.

Lemma revoked_step p p' id : policy_step p p' -> revoked_in p id -> revoked_in p' id.
Proof.
  intros (actor & c & now & new_id & r & H) (a & Ha & Hr).
  destruct (apply_extends _ _ _ _ _ _ _ H) as (_ & _ & [_ _ _ _ (ras & k & _ & _ & Hk & He & _)]).
  unfold revoked_in, assignment. rewrite Hk.
  destruct (find_evolves _ _ k id a He Ha) as (a' & -> & Ha').
  exists a'. split; [done|]. by destruct Ha' as [->|(? & _)].
Qed.

Lemma policy_steps_wf p p' : policy_wf p -> rtc policy_step p p' -> policy_wf p'.
Proof.
  intros Hwf H. induction H as [|p q p' (? & ? & ? & ? & ? & H) _ IH]; [done|].
  apply IH. by apply apply_extends in H as (_ & ? & _).
Qed.

Lemma revoked_steps p p' id : rtc policy_step p p' -> revoked_in p id -> revoked_in p' id.
Proof. induction 1; eauto using revoked_step. Qed.

(** Once a formal assignment is revoked, no later sequence of policy commands makes it
    effective again at any instant, for anyone, directly or through a delegation of it. *)
Theorem revocation_is_final p p' id a actor t r :
  validate_integrity p = Ok tt ->
  assignment p id = Some a -> ra_revoked_at a <> None ->
  rtc policy_step p p' ->
  r ∈ responsibilities p' actor t ->
  rs_id r <> id /\ rs_source_assignment_id r <> Some id.
Proof.
  intros Hwf%validate_integrity_Ok Ha Hr Hsteps Hin.
  pose proof (policy_steps_wf _ _ Hwf Hsteps) as Hwf'.
  destruct (revoked_steps p p' id Hsteps) as (a' & Ha' & Hr'); [by exists a|].
  assert (forall s, s ∈ op_role_assignments p' -> assignment_effective p' s t = true ->
            ra_id s <> id) as Hne.
  { intros s Hs He <-. rewrite wf_assignment in Ha' by done. simplify_eq.
    by rewrite revoked_not_effective in He. }
  apply elem_of_responsibilities in Hin as [(b & Hb & _ & He & Hresp)|(d & Hd & _ & He & Hresp)].
  - destruct (assignment_responsibility_id _ _ _ Hresp) as (-> & _ & _). split; [by apply Hne|].
    unfold assignment_responsibility in Hresp.
    destruct (role p' _), (unit_ p' _); cbn in Hresp; by simplify_eq.
  - destruct (delegation_responsibility_id _ _ _ Hresp) as (-> & _ & _).
    apply delegation_effective_source in He as (_ & s & Hs & _ & Hse).
    pose proof (assignment_Some _ _ _ Hs) as [Hsin _]. split.
    + intros Hid. apply assignment_Some in Ha' as [Hin' Hid'].
      apply (wf_ids_disjoint p' a' d Hwf' Hin' Hd). congruence.
    + unfold delegation_responsibility in Hresp. rewrite Hs in Hresp. cbn in Hresp.
      destruct (assignment_responsibility p' s); cbn in Hresp; simplify_eq. cbn.
      intros [= Hid]. by apply (Hne s).
Qed.

(** ** One effective assignment per principal, role and unit *)

Definition same_grant (a b : RoleAssignment) : Prop :=
  ra_principal a = ra_principal b /\ ra_role_id a = ra_role_id b /\ ra_unit_id a = ra_unit_id b.

Definition exclusive (p : OrganizationPolicy) : Prop :=
  forall t a b,
    a ∈ op_role_assignments p -> b ∈ op_role_assignments p -> same_grant a b ->
    assignment_effective p a t = true -> assignment_effective p b t = true -> a = b.

(** Two effective windows overlap. *)
Lemma effective_overlap {L : ExternalsLaws} p t at_ from until a b :
  rfc3339_format from = Some (ra_valid_from a) -> until_spec at_ from until (ra_valid_until a) ->
  assignment_effective p a t = true -> assignment_effective p b t = true ->
  intervals_overlap (stored_instant (ra_valid_from b)) (stored_until b) from until = true.
Proof.
  intros Hf Hu (_ & (fa & Hfa & Hla) & Hua)%assignment_effective_bounds
    (_ & (fb & Hfb & Hlb) & Hub)%assignment_effective_bounds.
  apply rfc3339_roundtrip in Hf. unfold stored_instant in *. rewrite Hf in Hfa. simplify_eq.
  unfold intervals_overlap, stored_until, stored_instant. rewrite Hfb.
  assert (is_none_or until (fun other => fb <? other) = true) as Ha.
  { apply is_none_or_true. intros u ->. unfold until_spec in Hu.
    destruct (ra_valid_until a) as [s|] eqn:E; [|done]. destruct Hu as (Hs & _ & _).
    apply rfc3339_roundtrip in Hs. destruct (Hua s eq_refl) as (u' & Hu' & ?).
    rewrite Hs in Hu'. simplify_eq. apply Z.ltb_lt. lia. }
  destruct (ra_valid_until b) as [s|] eqn:E; cbn; [|done].
  destruct (Hub s eq_refl) as (u & Hu' & Hlt). rewrite Hu'. cbn. rewrite Ha.
  rewrite andb_true_r. apply Z.ltb_lt. lia.
Qed.

Lemma exclusive_step {L : ExternalsLaws} p p' : policy_step p p' -> exclusive p -> exclusive p'.
Proof.
  intros (actor & c & now & new_id & r & H%apply_Ok) Hex t a b.
  destruct (try_apply_Ok _ _ _ _ _ _ _ H) as (at_ & _ & _ & _ & _ & _ & Happ & _). clear H.
  destruct c; cbn [apply_validated] in Happ.
  - apply create_role_assignment_Ok in Happ as (a0 & [] & -> & _).
    destruct ca_window as (from & until & _ & Hf & Hu & Hov).
    assert (forall x, x ∈ op_role_assignments p -> same_grant a0 x ->
              assignment_effective p x t = true -> assignment_effective p a0 t = true -> False)
      as Hnew.
    { intros x Hx (H1 & H2 & H3) Hxe Hae.
      pose proof (assignment_effective_bounds _ _ _ Hxe) as (Hxr & _).
      pose proof (effective_overlap p t at_ from until a0 x Hf Hu Hae Hxe).
      enough (intervals_overlap (stored_instant (ra_valid_from x)) (stored_until x) from until
              = false) by congruence.
      apply Hov; first [done|congruence]. }
    intros [Ha| ->%list_elem_of_singleton]%elem_of_app [Hb| ->%list_elem_of_singleton]%elem_of_app
      Hsame He1 He2; [by apply (Hex t)| | |done].
    + exfalso. apply (Hnew a); try done. destruct Hsame as (? & ? & ?). by split_and!.
    + exfalso. by apply (Hnew b).
  - apply revoke_role_assignment_Ok in Happ as (_ & _ & ->).
    intros [Ha|(? & _ & _ & ->)]%elem_of_update_first [Hb|(? & _ & _ & ->)]%elem_of_update_first
      Hsame He1 He2;
      [by apply (Hex t)|by rewrite revoked_not_effective in He2
      |by rewrite revoked_not_effective in He1|by rewrite revoked_not_effective in He1].
  - apply create_delegation_Ok in Happ as (s & d0 & _ & -> & _). apply (Hex t).
  - apply revoke_delegation_Ok in Happ as (_ & ->). apply (Hex t).
Qed.

Lemma exclusive_synthetic : exclusive synthetic.
Proof.
  intros t a b Ha Hb (Hp & Hr & Hu) _ _.
  set (check := fun a b : RoleAssignment =>
    negb ((ra_principal a == ra_principal b) && (ra_role_id a == ra_role_id b)
          && (ra_unit_id a == ra_unit_id b)) || (a == b)).
  assert (forallb (fun a => forallb (check a) (op_role_assignments synthetic))
            (op_role_assignments synthetic) = true) as Hc by (vm_compute; reflexivity).
  rewrite forallb_true in Hc. specialize (Hc a Ha). rewrite forallb_true in Hc.
  specialize (Hc b Hb). unfold check in Hc. rewrite !bool_decide_eq_true_2 in Hc by done.
  cbn in Hc. by simp_bool.
Qed.

(** In every policy reachable from the fixture, at every instant, a principal has
    at most one effective formal assignment of a role in a unit, so revoking it is
    unambiguous. *)
Theorem reachable_assignments_exclusive {L : ExternalsLaws} p t a b :
  rtc policy_step synthetic p ->
  a ∈ op_role_assignments p -> b ∈ op_role_assignments p -> same_grant a b ->
  assignment_effective p a t = true -> assignment_effective p b t = true -> a = b.
Proof.
  intros Hsteps. revert t a b. change (exclusive p). revert Hsteps.
  generalize exclusive_synthetic. generalize synthetic. intros p0 H0 Hsteps.
  induction Hsteps; eauto using exclusive_step.
Qed.

(** ** Quotas, and the closing integrity check *)

(** No delegator has more records than the per-delegator quota. *)
Definition within_quota (p : OrganizationPolicy) : Prop :=
  forall actor, count (fun value => dg_delegator value == actor) (op_delegations p)
                <= MAX_DELEGATIONS_PER_DELEGATOR.

Lemma delegators_partition (l : list Delegation) :
  len l = foldr Z.add 0 (map (fun actor => count (fun value => dg_delegator value == actor) l) ALL).
Proof.
  induction l as [|d l IH]; [done|].
  assert (len (d :: l) = 1 + len l) as -> by (unfold len; cbn; lia). rewrite IH.
  cbn [ALL map foldr]. rewrite !count_cons.
  destruct (dg_delegator d); repeat (case_bool_decide; try congruence); lia.
Qed.

Lemma quota_bounds_total p : within_quota p -> len (op_delegations p) <= MAX_DELEGATIONS.
Proof.
  intros Hq. rewrite delegators_partition.
  pose proof (Hq Sales01). pose proof (Hq Office01). pose proof (Hq Review01).
  pose proof (Hq Approver01). pose proof (Hq MultiRole01). pose proof (Hq Delegate01).
  change MAX_DELEGATIONS_PER_DELEGATOR with 16 in *. change MAX_DELEGATIONS with 96.
  cbn [ALL map foldr]. lia.
Qed.

Lemma quota_step p actor c t now new_id p' r :
  within_quota p -> apply_validated p actor c t now new_id = Ok (p', r) -> within_quota p'.
Proof.
  intros Hq H who. specialize (Hq who). destruct c; cbn [apply_validated] in H.
  - by apply create_role_assignment_Ok in H as (a0 & _ & -> & _).
  - by apply revoke_role_assignment_Ok in H as (_ & _ & ->).
  - apply create_delegation_Ok in H as (s & d & Hcd & -> & _). cbn. rewrite count_app, count_cons.
    change (count _ []) with 0. destruct Hcd. case_bool_decide as Hd; [|lia].
    assert (who = ra_principal s) as -> by congruence. lia.
  - apply revoke_delegation_Ok in H as (_ & ->). cbn. by rewrite count_update_first.
Qed.

Lemma delegation_wf_frame p p' d :
  op_roles p' = op_roles p ->
  (forall s, assignment p (dg_source_assignment_id d) = Some s ->
     exists s', assignment p' (dg_source_assignment_id d) = Some s'
                /\ ra_role_id s' = ra_role_id s /\ ra_principal s' = ra_principal s) ->
  delegation_wf p d -> delegation_wf p' d.
Proof.
  intros Hr Ha [Hb (s & r & Hs & Hrole & Hp & Hact) ? ? ?].
  destruct (Ha s Hs) as (s' & Hs' & Hid & Hpr). split; try done.
  exists s', r. unfold role in *. rewrite Hr, Hid, Hpr. done.
Qed.

Lemma assignment_wf_frame p p' a :
  op_roles p' = op_roles p -> op_units p' = op_units p -> assignment_wf p a -> assignment_wf p' a.
Proof. intros Hr Hu [? ? ? ?]. split; try done; unfold role, unit_ in *; congruence. Qed.

Lemma wf_with_assignment {L : ExternalsLaws} p t new_id principal role_id unit_id vf a :
  policy_wf p -> new_id ∉ all_ids p ->
  created_assignment p t new_id principal role_id unit_id vf a ->
  policy_wf (with_assignment p a).
Proof.
  intros [] Hfresh []. destruct ca_window as (from & until & _ & Hf & Hu & _).
  split; try done.
  - cbn. rewrite len_app. change (len [a]) with 1. lia.
  - assert (all_ids (with_assignment p a) ≡ₚ new_id :: all_ids p) as ->.
    { unfold all_ids, with_assignment. cbn. rewrite map_app. cbn. rewrite ca_id. solve_Permutation. }
    by constructor.
  - intros b [Hb| ->%list_elem_of_singleton]%elem_of_app.
    + apply (assignment_wf_frame p); auto.
    + split.
      * exists from. split; [by apply rfc3339_roundtrip|]. intros u Hau.
        rewrite Hau in Hu. destruct until as [u'|]; [|done]. destruct Hu as (Hs & ? & _).
        exists u'. split; [by apply rfc3339_roundtrip|done].
      * by rewrite ca_role_id.
      * rewrite ca_unit_id. destruct ca_unit as (u & Hu' & _). by exists u.
      * by destruct ca_not_revoked as [-> ->].
  - intros d Hd. apply (delegation_wf_frame p); auto. intros s Hs. exists s.
    by rewrite (assignment_with_assignment p a _ s).
Qed.

Lemma wf_with_revoked p actor now reason id :
  policy_wf p -> policy_wf (with_revoked p actor now reason id).
Proof.
  intros []. assert (length (op_role_assignments (with_revoked p actor now reason id))
                     = length (op_role_assignments p)) as Hlen.
  { rewrite <-!(length_map ra_id). cbn. by rewrite map_update_first. }
  split; try done.
  - unfold len in *. by rewrite Hlen.
  - unfold all_ids, with_revoked. cbn. by rewrite map_update_first.
  - intros b [Hb|(c & Hc & _ & ->)]%elem_of_update_first.
    + apply (assignment_wf_frame p); auto.
    + destruct (pwf_assignments c Hc). by split.
  - intros d Hd. apply (delegation_wf_frame p); auto. intros s Hs.
    rewrite assignment_with_revoked, Hs. cbn. eexists. split; [done|]. by case_bool_decide.
Qed.

Lemma wf_with_delegation {L : ExternalsLaws} p t new_id sid rec acts vf source d :
  policy_wf p -> within_quota (with_delegation p d) -> new_id ∉ all_ids p ->
  created_delegation p t new_id sid rec acts vf source d -> policy_wf (with_delegation p d).
Proof.
  intros [] Hq Hfresh []. destruct cd_window as (from & until & _ & Hf & Hu & ? & _).
  split; try done.
  - by apply quota_bounds_total.
  - assert (all_ids (with_delegation p d) ≡ₚ new_id :: all_ids p) as ->.
    { unfold all_ids, with_delegation. cbn. rewrite map_app. cbn. rewrite cd_id. solve_Permutation. }
    by constructor.
  - intros b Hb. apply (assignment_wf_frame p); auto.
  - intros x [Hx| ->%list_elem_of_singleton]%elem_of_app; [by apply (delegation_wf_frame p); eauto|].
    destruct cd_role as (r & Hr & Hact), cd_actions as (Hacts & ? & _). split; try done.
    + exists from, until. split_and!; try done; by apply rfc3339_roundtrip.
    + exists source, r. by rewrite cd_source_id, Hacts.
    + congruence.
    + by rewrite Hacts.
    + by destruct cd_not_revoked as [-> ->].
Qed.

Lemma wf_with_revoked_delegation p actor now reason id :
  policy_wf p -> policy_wf (with_revoked_delegation p actor now reason id).
Proof.
  intros []. assert (length (op_delegations (with_revoked_delegation p actor now reason id))
                     = length (op_delegations p)) as Hlen.
  { rewrite <-!(length_map dg_id). cbn. by rewrite map_update_first. }
  split; try done.
  - unfold len in *. by rewrite Hlen.
  - unfold all_ids, with_revoked_delegation. cbn. by rewrite map_update_first.
  - intros b Hb. apply (assignment_wf_frame p); auto.
  - intros b [Hb|(c & Hc & _ & ->)]%elem_of_update_first; [by apply (delegation_wf_frame p); eauto|].
    destruct (pwf_delegations c Hc). by split.
Qed.

(** On a valid policy within the delegation quota, with a fresh identifier, a
    command whose validation arm accepts is committed: the closing integrity check never
    rejects it, whatever the global record bound. *)
Theorem policy_apply_commits_validated {L : ExternalsLaws} p actor c now new_id t p' r :
  validate_integrity p = Ok tt -> within_quota p -> new_id ∉ all_ids p ->
  get_version_num (cc_operation_id (policy_context c)) = 7 ->
  cc_expected_revision (policy_context c) = op_revision p -> op_revision p < i64_max ->
  parse_instant now = Ok t -> authorize_command p actor c t = Ok tt ->
  apply_validated (set_op_revision (op_revision p + 1) p) actor c t now new_id = Ok (p', r) ->
  apply p actor c now new_id = (p', Ok r) /\ within_quota p'.
Proof.
  intros Hv Hq Hfresh Hver Hexp Hmax Hnow Hauth Happ.
  pose proof (quota_step (set_op_revision (op_revision p + 1) p) _ _ _ _ _ _ _ Hq Happ) as Hq'.
  split; [|done]. rewrite apply_Ok.
  pose proof (proj1 (validate_integrity_Ok p) Hv) as Hwf.
  assert (policy_wf (set_op_revision (op_revision p + 1) p)) as Hwfr.
  { destruct Hwf. split; try done; [cbn; lia| |]; intros x Hx.
    - apply (assignment_wf_frame p); auto.
    - apply (delegation_wf_frame p); auto. intros s Hs. by exists s. }
  assert (policy_wf p') as Hwf'.
  { destruct c; cbn [apply_validated] in Happ.
    - apply create_role_assignment_Ok in Happ as (a0 & Hca & -> & _).
      by eapply wf_with_assignment.
    - apply revoke_role_assignment_Ok in Happ as (_ & _ & ->). by apply wf_with_revoked.
    - apply create_delegation_Ok in Happ as (s & d0 & Hcd & -> & _).
      by eapply wf_with_delegation.
    - apply revoke_delegation_Ok in Happ as (_ & ->). by apply wf_with_revoked_delegation. }
  pose proof (pwf_revision _ Hwf). unfold try_apply. rewrite Hv. cbn.
  rewrite Hver, bool_decide_eq_true_2, Hexp by done.
  rewrite (proj2 (Z.ltb_ge (op_revision p) 0)) by lia. cbn. rewrite Hnow. cbn. rewrite Hauth. cbn.
  rewrite bool_decide_eq_true_2 by done. cbn.
  rewrite (proj2 (checked_add_i64_Some (op_revision p) 1 (op_revision p + 1))) by
    (unfold in_i64, i64_min, i64_max in *; lia).
  cbn. rewrite Happ. cbn. by rewrite (proj2 (validate_integrity_Ok p') Hwf').
Qed.

(** ** Managers keep their authority; starts are never backdated *)

Lemma management_Ok p actor acting t r :
  management p actor acting t = Ok r ->
  exists a, assignment p acting = Some a /\ ra_principal a = actor
            /\ assignment_effective p a t = true
            /\ assignment_responsibility p a = Some r /\ is_management r = true.
Proof.
  unfold management, responsibility. intros H. inv_ok. apply opt_filter_Some in H as [H Hm].
  destruct (assignment p acting) as [a|].
  - destruct (_ && _) eqn:E; [|done]. simp_bool. eauto 6.
  - destruct (delegation p acting) as [d|]; cbn in H; [|done]. destruct (_ && _); [|done].
    destruct (delegation_responsibility_id _ _ _ H) as (_ & Hk & _).
    unfold is_management in Hm. simp_bool. congruence.
Qed.

(** A manager who commits a command under a management assignment can still act
    under it afterwards, at every instant at which it was effective. *)
Theorem management_survives_commit p actor c now new_id p' result t r :
  apply p actor c now new_id = (p', Ok result) ->
  management p actor (cc_acting_assignment_id (policy_context c)) t = Ok r ->
  management p' actor (cc_acting_assignment_id (policy_context c)) t = Ok r.
Proof.
  intros H%apply_Ok (a & Ha & Hp & He & Hr & Hm)%management_Ok.
  destruct (try_apply_Ok _ _ _ _ _ _ _ H) as (at_ & Hwf & _ & _ & _ & _ & Happ & _). clear H.
  assert (op_roles p' = op_roles p /\ op_units p' = op_units p
          /\ assignment p' (cc_acting_assignment_id (policy_context c)) = Some a)
    as (Hro & Hun & Ha').
  { destruct c; cbn [apply_validated policy_context] in *.
    - apply create_role_assignment_Ok in Happ as (a0 & _ & -> & _). split_and!; try done.
      by apply assignment_with_assignment.
    - apply revoke_role_assignment_Ok in Happ as (Hne & _ & ->). split_and!; try done.
      rewrite assignment_with_revoked. change (assignment (set_op_revision _ p)) with (assignment p).
      rewrite Ha. cbn. apply assignment_Some in Ha as [_ Hid].
      by rewrite bool_decide_eq_false_2 by congruence.
    - by apply create_delegation_Ok in Happ as (s & d0 & _ & -> & _).
    - by apply revoke_delegation_Ok in Happ as (_ & ->). }
  unfold management, responsibility. rewrite Ha', Hp.
  destruct (assignment_frame p p' a t Hro Hun) as [-> ->].
  rewrite bool_decide_eq_true_2, He, Hr by done. cbn. by rewrite Hm.
Qed.

(** A created assignment or delegation never starts before the trusted commit
    instant, and ends after it starts. *)
Theorem created_records_not_backdated {L : ExternalsLaws} p actor c now new_id p' result t :
  apply p actor c now new_id = (p', Ok result) -> parse_instant now = Ok t ->
  match result with
  | MR_RoleAssignmentCreated a _ =>
      exists from, stored_instant (ra_valid_from a) = Some from /\ t <= from
        /\ forall u, ra_valid_until a = Some u ->
             exists until, stored_instant u = Some until /\ from < until
  | MR_DelegationCreated d _ =>
      exists from until, stored_instant (dg_valid_from d) = Some from /\ t <= from
        /\ stored_instant (dg_valid_until d) = Some until /\ from < until
  | _ => True
  end.
Proof.
  intros H%apply_Ok Hnow.
  destruct (try_apply_Ok _ _ _ _ _ _ _ H) as (t' & _ & Hnow' & _ & _ & _ & Happ & _).
  assert (t' = t) as -> by congruence.
  assert (forall v from, requested_start v t = Ok from -> t <= from) as Hstart.
  { intros [v|] from Hs; cbn in Hs; inv_ok; simp_bool; subst; lia. }
  destruct c; cbn [apply_validated] in Happ.
  - apply create_role_assignment_Ok in Happ as (a0 & [] & _ & ->).
    destruct ca_window as (from & until & Hs & Hf & Hu & _).
    exists from. split_and!; [by apply rfc3339_roundtrip|by eapply Hstart|].
    intros u Hau. rewrite Hau in Hu. destruct until as [u'|]; [|done].
    destruct Hu as (Hf' & ? & _). exists u'. split; [by apply rfc3339_roundtrip|done].
  - unfold revoke_role_assignment in Happ. inv_ok. by simplify_eq.
  - apply create_delegation_Ok in Happ as (s & d0 & [] & _ & ->).
    destruct cd_window as (from & until & Hs & Hf & Hu & ? & _).
    exists from, until. split_and!; try done; try by apply rfc3339_roundtrip. by eapply Hstart.
  - unfold revoke_delegation in Happ. inv_ok. by simplify_eq.
Qed.
End Theorems.
