(* ===== verification/Context.v ===== *)
(** * Context: the synthetic work contexts and presentation profiles (context.rs)

    Versioned fixture configuration: the three contexts, each bound to one two-step workflow,
    the labels of steps and work types, and the work view profiles. *)
From stdpp Require Import base gmap sets list strings.
From Stdlib Require Import ZArith.
From S2P Require Import Prelude WorkTypes Organization.

Definition CONTEXT_FIXTURES : list ContextFixture :=
  [ {| cf_workflow_id := WORKFLOW_ID;
       cf_context_id := CONTEXT_ID;
       cf_kind := Case;
       cf_title := "合成案件A・設備更新相談";
       cf_owner_unit_id := UNIT_SALES_ID;
       cf_definition_version_id := HOLD_RESUME_DEFINITION_VERSION_ID;
       cf_accepted_definitions :=
         [DEFINITION_VERSION_ID; RETURN_DEFINITION_VERSION_ID;
          COMPLETE_DEFINITION_VERSION_ID; HOLD_RESUME_DEFINITION_VERSION_ID];
       cf_source_task_id := SALES_TASK_ID;
       cf_source_attempt_id := SALES_ATTEMPT_ID;
       cf_next_task_id := OFFICE_TASK_ID;
       cf_next_attempt_id := OFFICE_ATTEMPT_ID;
       cf_next_step_id := OFFICE_STEP_ID;
       cf_next_work_type_id := OFFICE_WORK_TYPE_ID;
       cf_start := AssignedToSales |};
    {| cf_workflow_id := CONTEXT_B_WORKFLOW_ID;
       cf_context_id := CONTEXT_B_ID;
       cf_kind := Case;
       cf_title := "合成案件B・運転資金相談";
       cf_owner_unit_id := UNIT_SALES_ID;
       cf_definition_version_id := REVIEW_DEFINITION_VERSION_ID;
       cf_accepted_definitions := [REVIEW_DEFINITION_VERSION_ID];
       cf_source_task_id := CONTEXT_B_SALES_TASK_ID;
       cf_source_attempt_id := 0x0190000000007000800000000000b005%N;
       cf_next_task_id := CONTEXT_B_REVIEW_TASK_ID;
       cf_next_attempt_id := 0x0190000000007000800000000000b006%N;
       cf_next_step_id := REVIEW_STEP_ID;
       cf_next_work_type_id := REVIEW_WORK_TYPE_ID;
       cf_start := ReadyDueInMinutes (6 * 60) |};
    {| cf_workflow_id := CONTEXT_C_WORKFLOW_ID;
       cf_context_id := CONTEXT_C_ID;
       cf_kind := Request;
       cf_title := "合成依頼C・住所変更届";
       cf_owner_unit_id := UNIT_SALES_ID;
       cf_definition_version_id := HOLD_RESUME_DEFINITION_VERSION_ID;
       cf_accepted_definitions := [HOLD_RESUME_DEFINITION_VERSION_ID];
       cf_source_task_id := CONTEXT_C_SALES_TASK_ID;
       cf_source_attempt_id := 0x0190000000007000800000000000b105%N;
       cf_next_task_id := CONTEXT_C_OFFICE_TASK_ID;
       cf_next_attempt_id := 0x0190000000007000800000000000b106%N;
       cf_next_step_id := OFFICE_STEP_ID;
       cf_next_work_type_id := OFFICE_WORK_TYPE_ID;
       cf_start := ReadyDueInMinutes (-60) |} ].

Definition context_fixture (workflow_id : Uuid) : option ContextFixture :=
  find (fun value => cf_workflow_id value == workflow_id) CONTEXT_FIXTURES.

Definition context_fixture_for_context (context_id : Uuid) : option ContextFixture :=
  find (fun value => cf_context_id value == context_id) CONTEXT_FIXTURES.

Definition step_label (step_id : Uuid) : string :=
  if step_id == SALES_STEP_ID then "営業内容整理"
  else if step_id == OFFICE_STEP_ID then "事務内容確認"
  else if step_id == REVIEW_STEP_ID then "審査内容確認"
  else "工程".

Definition work_type_label (work_type_id : Uuid) : string :=
  if work_type_id == SALES_WORK_TYPE_ID then "営業内容整理"
  else if work_type_id == OFFICE_WORK_TYPE_ID then "事務内容確認"
  else if work_type_id == REVIEW_WORK_TYPE_ID then "審査内容確認"
  else "業務".

(** Explicit work type policy for [DueSoon]; absent means no such attention. *)
Definition work_type_due_lead (work_type_id : Uuid) : option Z :=
  then_some
    ((work_type_id == SALES_WORK_TYPE_ID) || (work_type_id == OFFICE_WORK_TYPE_ID)
     || (work_type_id == REVIEW_WORK_TYPE_ID))
    SYNTHETIC_DUE_LEAD.

(** The closure [profile] of [work_view_profiles]. *)
Definition profile (id : Uuid) (key label : string) (archetype : WorkViewArchetype)
    (grouping : ProfileGrouping) (initial : ContextModule)
    (modules : list (ContextModule * ModulePresentation)) : WorkViewProfile :=
  {| wvp_id := id; wvp_key := key; wvp_label := label; wvp_archetype := archetype;
     wvp_primary_grouping := grouping; wvp_default_sort := "due_at";
     wvp_initial_module := initial;
     wvp_modules :=
       map (fun '(module, presentation) =>
              {| mp_module := module; mp_presentation := presentation |}) modules |}.

Definition work_view_profiles : list WorkViewProfile :=
  [ profile PROFILE_SALES_CONTEXT_ID "sales-context" "営業・文脈" WorkViewArchetype_Context
      ProfileGrouping_Context Module_Document
      [ (Module_Document, Prominent); (Module_History, Prominent); (Module_Evidence, Available);
        (Module_Agent, Available); (Module_Return, Available); (Module_Search, Hidden);
        (Module_Resources, Hidden) ];
    profile PROFILE_OFFICE_QUEUE_ID "office-queue" "事務・キュー" WorkViewArchetype_Queue
      ProfileGrouping_WorkType Module_Document
      [ (Module_Document, Visible); (Module_Evidence, Available); (Module_History, Available);
        (Module_Agent, Available); (Module_Return, Available); (Module_Search, Hidden);
        (Module_Resources, Hidden) ];
    profile PROFILE_REVIEW_QUEUE_ID "review-queue" "審査・キュー" WorkViewArchetype_Queue
      ProfileGrouping_WorkType Module_Evidence
      [ (Module_Evidence, Prominent); (Module_Document, Prominent); (Module_History, Available);
        (Module_Agent, Available); (Module_Return, Available); (Module_Search, Hidden);
        (Module_Resources, Hidden) ] ].

(** ** Facts *)

Lemma context_fixture_Some id f :
  context_fixture id = Some f -> f ∈ CONTEXT_FIXTURES /\ cf_workflow_id f = id.
Proof. intros [? ?]%find_Some_iff. by simp_bool. Qed.

(** Source and next task, attempt and step identifiers of a fixture are pairwise distinct. *)
Lemma fixture_distinct f :
  f ∈ CONTEXT_FIXTURES ->
  cf_source_task_id f <> cf_next_task_id f
  /\ cf_source_attempt_id f <> cf_next_attempt_id f
  /\ cf_next_step_id f <> SALES_STEP_ID.
Proof.
  unfold CONTEXT_FIXTURES. rewrite !elem_of_cons, elem_of_nil.
  intros [->|[->|[->|[]]]]; cbn; split_and!; discriminate.
Qed.

(** A responsibility's presentation profile is always one of the defined profiles. *)
Lemma profile_for_defined role_id unit_id :
  profile_for role_id unit_id ∈ map wvp_id work_view_profiles.
Proof. unfold profile_for. cbn. repeat case_bool_decide; set_solver. Qed.
