(* ===== verification/WorkflowReads.v ===== *)
(** * WorkflowReads: authorization and read models of the workflow aggregate

    The read side of lib.rs and context.rs: which work item an actor may read or act on,
    which commands a task summary offers, the task lists, details, artifacts, submissions,
    attention and the context projection.  A definition takes the aggregate [w] where the
    source has [&self]. *)
From stdpp Require Import base gmap sets list strings.
From Stdlib Require Import ZArith Lia.
From S2P Require Import Prelude WorkTypes WorkSetters Text Externals Principals Organization.
From S2P Require Import Context.

Local Open Scope Z_scope.

(** [AgentExecutionStatus::is_active]. *)
Definition is_active (s : AgentExecutionStatus) : bool :=
  match s with
  | Queued | Running => true
  | _ => false
  end.

(** [CommandContext::authorize]: the operation identity only. *)
Definition authorize_context {X : Externals} (c : CommandContext) (_ : VerifiedActor)
    : WResult unit :=
  if (get_version_num (cc_operation_id c) != 7) || (cc_expected_revision c <? 0)
  then Err ValidationFailed
  else Ok tt.

(** [Command::context]. *)
Definition command_context (c : Command) : CommandContext :=
  match c with
  | Hold _ context _ _ | Resume _ context _ _ | Complete _ context _ _ => context
  | RequestAgentExecution _ context _ _ _ | CancelAgentExecution _ context _ _ => context
  | RegisterEvidence _ context _ _ _ | RegisterFinding _ context _ _ _ _ => context
  | RecordDecision _ context _ _ _ _ _ _ _ _ => context
  | Return _ context _ _ _ _ _ | Assign _ context _ _ _ _ => context
  | SaveDraft _ _ context _ | Claim _ context | CreateFileArtifact _ context _ _ => context
  | WriteArtifactContent _ _ context _ _ | DiscardArtifact _ _ context _ => context
  | ImportSubmission _ context _ _ | Submit _ context _ _ _ _ _ => context
  end.

(** [Command::task_id]. *)
Definition command_task_id (c : Command) : Uuid :=
  match c with
  | Hold task_id _ _ _ | Resume task_id _ _ _ | Complete task_id _ _ _ => task_id
  | RequestAgentExecution task_id _ _ _ _ | CancelAgentExecution task_id _ _ _ => task_id
  | RegisterEvidence task_id _ _ _ _ | RegisterFinding task_id _ _ _ _ _ => task_id
  | RecordDecision task_id _ _ _ _ _ _ _ _ _ => task_id
  | Return task_id _ _ _ _ _ _ | Assign task_id _ _ _ _ _ => task_id
  | SaveDraft task_id _ _ _ | Claim task_id _ | CreateFileArtifact task_id _ _ _ => task_id
  | WriteArtifactContent task_id _ _ _ _ | DiscardArtifact task_id _ _ _ => task_id
  | ImportSubmission task_id _ _ _ | Submit task_id _ _ _ _ _ _ => task_id
  end.

(** [Command::required_action]: the policy action each Human command requires. *)
Definition required_action (c : Command) : PolicyAction :=
  match c with
  | Hold _ _ _ _ => WorkHold
  | Resume _ _ _ _ => WorkResume
  | Complete _ _ _ _ => WorkComplete
  | RequestAgentExecution _ _ _ _ _ | CancelAgentExecution _ _ _ _ => AgentRequest
  | RegisterEvidence _ _ _ _ _ => EvidenceRegister
  | RegisterFinding _ _ _ _ _ _ => FindingRegister
  | RecordDecision _ _ _ _ _ _ _ _ _ _ => DecisionRecord
  | Return _ _ _ _ _ _ _ => WorkReturn
  | Assign _ _ _ _ _ _ => WorkAssign
  | SaveDraft _ _ _ _ | CreateFileArtifact _ _ _ _ | WriteArtifactContent _ _ _ _ _
  | DiscardArtifact _ _ _ _ | ImportSubmission _ _ _ _ => WorkEdit
  | Claim _ _ => WorkClaim
  | Submit _ _ _ _ _ _ _ => WorkSubmit
  end.

(** The fixture instance of the first context. *)
Definition synthetic (document_id : option Uuid) : Workflow :=
  {| wf_agent_executions := [];
     wf_generated_artifacts := [];
     wf_suggested_actions := [];
     wf_evidence := [];
     wf_findings := [];
     wf_decisions := [];
     wf_completed_attempts := [];
     wf_return_instructions := [];
     wf_assignments := [];
     wf_authority :=
       {| auth_policy := Some Policy.synthetic; auth_evaluated_at := None;
          auth_acknowledged := None; auth_generations := Receipts_None |};
     wf_id := WORKFLOW_ID;
     wf_definition_version_id := HOLD_RESUME_DEFINITION_VERSION_ID;
     wf_context_id := CONTEXT_ID;
     wf_revision := 0;
     wf_source :=
       {| wi_return_instruction_id := None;
          wi_due_at := None;
          wi_id := SALES_TASK_ID;
          wi_workflow_instance_id := WORKFLOW_ID;
          wi_step_id := SALES_STEP_ID;
          wi_work_type_id := SALES_WORK_TYPE_ID;
          wi_attempt_number := 1;
          wi_work_assignment_id := Some SALES_WORK_ASSIGNMENT_ID;
          wi_acting_assignment_id := Some SALES_ASSIGNMENT_ID;
          wi_created_at := FIXTURE_CREATED_AT;
          wi_completed_at := None;
          wi_attempt_id := SALES_ATTEMPT_ID;
          wi_revision := 0;
          wi_state := Active;
          wi_assignee := Some Sales01;
          wi_handoff_snapshot_id := None |};
     wf_next := None;
     wf_artifacts := [];
     wf_snapshots := [];
     wf_history := [];
     wf_input_resources :=
       map (fun document_id =>
              {| ir_kind := "document"; ir_document_id := document_id;
                 ir_label := "共有入力文書" |}) (opt_to_list document_id) |}.

(** [once(&self.source).chain(self.next.iter())], context.rs [current_items]. *)
Definition current_items (w : Workflow) : list WorkItem :=
  wf_source w :: opt_to_list (wf_next w).

Definition item (w : Workflow) (id : Uuid) : WResult WorkItem :=
  if id == wi_id (wf_source w) then Ok (wf_source w)
  else ok_or (opt_filter (fun it => wi_id it == id) (wf_next w)) WorkItemNotFound.

Definition attach_authority (w : Workflow) (policy : OrganizationPolicy) (t : Instant)
    : Workflow :=
  set_wf_authority
    {| auth_policy := Some policy; auth_evaluated_at := Some t;
       auth_acknowledged := None; auth_generations := Receipts_None |} w.

(** A workflow evaluated without an attached policy grants nothing. *)
Definition policy (w : Workflow) : OrganizationPolicy :=
  unwrap_or Policy.empty (auth_policy (wf_authority w)).

Definition plan (w : Workflow) : WResult ContextFixture :=
  ok_or (context_fixture (wf_id w)) IntegrityViolation.

(** The responsibility segment of each fixed definition step. *)
Definition step_role (it : WorkItem) : option Uuid :=
  if wi_step_id it == SALES_STEP_ID then Some ROLE_SALES_ID
  else if wi_step_id it == OFFICE_STEP_ID then Some ROLE_PROCESSING_ID
  else if wi_step_id it == REVIEW_STEP_ID then Some ROLE_REVIEWING_ID
  else None.

Definition returnable (w : Workflow) : bool :=
  contains [RETURN_DEFINITION_VERSION_ID; COMPLETE_DEFINITION_VERSION_ID;
            HOLD_RESUME_DEFINITION_VERSION_ID; REVIEW_DEFINITION_VERSION_ID]
    (wf_definition_version_id w).

Definition completable (w : Workflow) : bool :=
  contains [COMPLETE_DEFINITION_VERSION_ID; HOLD_RESUME_DEFINITION_VERSION_ID;
            REVIEW_DEFINITION_VERSION_ID] (wf_definition_version_id w).

Definition pausable (w : Workflow) : bool :=
  contains [HOLD_RESUME_DEFINITION_VERSION_ID; REVIEW_DEFINITION_VERSION_ID]
    (wf_definition_version_id w).

Definition is_next (w : Workflow) (it : WorkItem) : bool :=
  is_ok_and (plan w)
    (fun plan => (wi_id it == cf_next_task_id plan) && (wi_step_id it == cf_next_step_id plan)).

(** [scope.is_none_or(|id| value == id)]. *)
Definition in_scope_of (scope : option Uuid) (id : Uuid) : bool :=
  is_none_or scope (fun s => id == s).

(** [scope.is_none_or(|id| item.acting_assignment_id == Some(id))]. *)
Definition acting_in_scope (scope : option Uuid) (it : WorkItem) : bool :=
  is_none_or scope (fun s => wi_acting_assignment_id it == Some s).

Section Reads.
Context {X : Externals}.

Definition evaluated_at (w : Workflow) : Instant :=
  unwrap_or now_utc (auth_evaluated_at (wf_authority w)).

Definition describe_responsibility (w : Workflow) (id : Uuid) : option Responsibility :=
  Policy.describe (policy w) id.

(** ** Authorization *)

Definition step_responsibility (w : Workflow) (actor : VerifiedActor) (id : Uuid)
    (it : WorkItem) (action : PolicyAction) : option Responsibility :=
  role ← step_role it;
  opt_filter (fun value => (rs_role_id value == role) && allows value action)
    (Policy.responsibility (policy w) actor id (evaluated_at w)).

(** First effective responsibility in scope whose role is the step's and which allows the
    action. *)
Definition eligible_in (w : Workflow) (actor : VerifiedActor) (it : WorkItem)
    (action : PolicyAction) (scope : option Uuid) : option Responsibility :=
  role ← step_role it;
  find (fun value => in_scope_of scope (rs_id value) && (rs_role_id value == role)
                     && allows value action)
    (Policy.responsibilities (policy w) actor (evaluated_at w)).

Definition eligible (w : Workflow) (actor : VerifiedActor) (it : WorkItem)
    (action : PolicyAction) : bool :=
  is_some (eligible_in w actor it action None).

Definition can_act (w : Workflow) (actor : VerifiedActor) (it : WorkItem)
    (action : PolicyAction) : bool :=
  (wi_assignee it == Some actor)
  && is_some_and (wi_acting_assignment_id it)
       (fun id => is_some (step_responsibility w actor id it action)).

Definition can_read (w : Workflow) (actor : VerifiedActor) (it : WorkItem) : bool :=
  can_act w actor it WorkRead.

Definition assigning_in (w : Workflow) (actor : VerifiedActor) (scope : option Uuid)
    : option Responsibility :=
  find (fun value => in_scope_of scope (rs_id value) && allows value WorkAssign)
    (Policy.responsibilities (policy w) actor (evaluated_at w)).

(** context.rs [context_grant]. *)
Definition context_grant (w : Workflow) (actor : VerifiedActor) (action : PolicyAction)
    (scope : option Uuid) : bool :=
  match plan w with
  | Err _ => false
  | Ok plan =>
      existsb
        (fun value => in_scope_of scope (rs_id value)
                      && (rs_unit_id value == cf_owner_unit_id plan)
                      && allows value action)
        (Policy.responsibilities (policy w) actor (evaluated_at w))
  end.

(** Context-progress continuity over this instance's owner unit. *)
Definition continuity_in (w : Workflow) (actor : VerifiedActor) (scope : option Uuid) : bool :=
  match plan w with
  | Err _ => false
  | Ok plan =>
      existsb
        (fun value => in_scope_of scope (rs_id value)
                      && (rs_unit_id value == cf_owner_unit_id plan)
                      && allows value ContextProgressRead)
        (Policy.responsibilities (policy w) actor (evaluated_at w))
  end.

(** Minimal disclosure check used only to choose 403 over hidden 404. *)
Definition visible (w : Workflow) (actor : VerifiedActor) (it : WorkItem) : bool :=
  can_read w actor it
  || ((wi_state it == Ready) && is_none (wi_assignee it) && eligible w actor it QueueRead)
  || ((wi_state it != Completed) && is_some (assigning_in w actor None))
  || continuity_in w actor None.

(** ** Offered transitions *)

Definition assignment_view (w : Workflow) (it : WorkItem) : option TaskAssignmentView :=
  principal ← wi_assignee it;
  id ← wi_acting_assignment_id it;
  let described := Policy.describe (policy w) id in
  Some
    {| tav_principal_id := principal_id principal;
       tav_display_name := display_name principal;
       tav_acting_assignment_id := id;
       tav_acting_kind := option_map rs_kind described;
       tav_role_label := option_map rs_role_label described;
       tav_delegator_principal_id :=
         option_map principal_id (value ← described; rs_delegator value);
       tav_responsibility_effective :=
         is_some (step_responsibility w principal id it WorkRead) |}.

Definition return_transition (w : Workflow) (actor : VerifiedActor) (it : WorkItem)
    : option ReturnTransition :=
  if negb (returnable w)
     || negb (is_next w it)
     || negb (can_act w actor it WorkReturn)
     || (wi_state it != Active)
     || (wi_state (wf_source w) != Completed)
  then None
  else
    snapshot ← find
      (fun snapshot =>
         (Some (hs_id snapshot) == wi_handoff_snapshot_id it)
         && (Some (hs_id snapshot) == wi_handoff_snapshot_id (wf_source w))
         && (hs_source_task_id snapshot == wi_id (wf_source w))
         && (hs_source_attempt_id snapshot == wi_attempt_id (wf_source w))
         && (hs_target_task_id snapshot == wi_id it))
      (wf_snapshots w);
    Some {| rt_transition_id := RETURN_TRANSITION_ID;
            rt_target_task_id := wi_id (wf_source w);
            rt_previous_submission_id := hs_id snapshot |}.

Definition completion_action (w : Workflow) (actor : VerifiedActor) (it : WorkItem)
    : option Uuid :=
  then_some
    (completable w && is_next w it && can_act w actor it WorkComplete && (wi_state it == Active))
    COMPLETE_ACTION_ID.

Definition pause_action (w : Workflow) (actor : VerifiedActor) (it : WorkItem) (resume : bool)
    : option Uuid :=
  let state := if resume then Held else Active in
  let action := if resume then WorkResume else WorkHold in
  then_some
    (pausable w
     && (((wi_id it == wi_id (wf_source w)) && (wi_step_id it == SALES_STEP_ID)) || is_next w it)
     && can_act w actor it action
     && is_some (wi_work_assignment_id it)
     && (wi_state it == state))
    (if resume then RESUME_ACTION_ID else HOLD_ACTION_ID).

(** ** Attention and context identity (context.rs) *)

Definition acknowledged (w : Workflow) (actor : VerifiedActor) (id : Uuid) : bool :=
  is_some_and (auth_acknowledged (wf_authority w))
    (fun '(owner, ids) => (owner == actor) && bool_decide (id ∈ ids)).

Definition newly_assigned (w : Workflow) (actor : VerifiedActor) (it : WorkItem)
    : list Attention :=
  match (id ← wi_work_assignment_id it;
         find (fun value => war_id value == id) (wf_assignments w)) with
  | Some record =>
      if can_read w actor it
         && is_some_and (war_assigned_by record) (fun by_ => by_ != actor)
         && (war_principal record == actor)
         && negb (acknowledged w actor (war_id record))
      then [ {| at_kind := NewlyAssigned; at_source_id := Some (war_id record);
                at_due_at := None |} ]
      else []
  | None => []
  end.

Definition returned_attention (w : Workflow) (actor : VerifiedActor) (it : WorkItem)
    : list Attention :=
  match opt_filter
          (fun id => existsb
             (fun value => (ri_id value == id) && (ri_target_attempt_id value == wi_attempt_id it))
             (wf_return_instructions w))
          (wi_return_instruction_id it) with
  | Some id =>
      [ {| at_kind := Returned; at_source_id := then_some (can_read w actor it) id;
           at_due_at := None |} ]
  | None => []
  end.

Definition due_attention (w : Workflow) (it : WorkItem) : list Attention :=
  match wi_due_at it with
  | None => []
  | Some due =>
      match stored_instant due with
      | None => []
      | Some due_instant =>
          let now := evaluated_at w in
          let kind :=
            if due_instant <=? now then Some Overdue
            else option_map (fun _ => DueSoon)
                   (opt_filter (fun lead => due_instant - lead <=? now)
                      (work_type_due_lead (wi_work_type_id it))) in
          match kind with
          | Some kind => [ {| at_kind := kind; at_source_id := None; at_due_at := Some due |} ]
          | None => []
          end
      end
  end.

Definition attention_for (w : Workflow) (actor : VerifiedActor) (it : WorkItem)
    : list Attention :=
  if wi_state it == Completed then []
  else newly_assigned w actor it ++ returned_attention w actor it ++ due_attention w it.

(** Only an open attempt's assignee; a closed attempt keeps no context identity. *)
Definition assignee_in (w : Workflow) (actor : VerifiedActor) (scope : option Uuid) : bool :=
  existsb (fun it => (wi_state it != Completed) && can_read w actor it && acting_in_scope scope it)
    (current_items w).

Definition context_title_for (w : Workflow) (actor : VerifiedActor) (scope : option Uuid)
    : option string :=
  if context_grant w actor ContextRead scope || assignee_in w actor scope
  then option_map cf_title (ok (plan w))
  else None.

(** ** Task projections *)

Definition summary_in (w : Workflow) (actor : VerifiedActor) (it : WorkItem)
    (scope : option Uuid) : TaskSummary :=
  let source := wi_id it == wi_id (wf_source w) in
  let active := wi_state it == Active in
  let readable := can_read w actor it in
  let editable := source && active && can_act w actor it WorkEdit in
  let label := step_label (wi_step_id it) in
  let return_transition := return_transition w actor it in
  let completion_action_id := completion_action w actor it in
  let hold_action_id := pause_action w actor it false in
  let resume_action_id := pause_action w actor it true in
  let claim :=
    if (wi_state it == Ready) && is_none (wi_assignee it)
    then eligible_in w actor it WorkClaim scope else None in
  let can_assign := (wi_state it != Completed) && is_some (assigning_in w actor scope) in
  let context_title := context_title_for w actor scope in
  {| ts_can_hold := is_some hold_action_id;
     ts_hold_action_id := hold_action_id;
     ts_can_resume := is_some resume_action_id;
     ts_resume_action_id := resume_action_id;
     ts_can_complete := is_some completion_action_id;
     ts_completion_action_id := completion_action_id;
     ts_can_request_agent :=
       active && can_act w actor it AgentRequest
       && (count (fun e => (ae_work_item_id e == wi_id it) && (ae_attempt_id e == wi_attempt_id it))
             (wf_agent_executions w) <? MAX_AGENT_EXECUTIONS)
       && negb (existsb (fun e => (ae_work_item_id e == wi_id it) && is_active (ae_status e))
                  (wf_agent_executions w));
     ts_can_register_evidence := active && can_act w actor it EvidenceRegister;
     ts_can_register_finding := active && can_act w actor it FindingRegister;
     ts_can_record_decision := active && can_act w actor it DecisionRecord;
     ts_required_role_id := step_role it;
     ts_claim_assignment_id := option_map rs_id claim;
     ts_can_assign := can_assign;
     ts_assignment :=
       if (wi_assignee it == Some actor) || can_assign then assignment_view w it else None;
     ts_work_type_id := wi_work_type_id it;
     ts_work_type_label := work_type_label (wi_work_type_id it);
     ts_due_at := wi_due_at it;
     ts_attention := attention_for w actor it;
     ts_context_title := context_title;
     ts_attempt_number := wi_attempt_number it;
     ts_can_return := is_some return_transition;
     ts_return_instruction_id := if readable then wi_return_instruction_id it else None;
     ts_return_transition := return_transition;
     ts_id := wi_id it;
     ts_context_id := then_some (is_some context_title) (wf_context_id w);
     ts_attempt_id := wi_attempt_id it;
     ts_revision := wi_revision it;
     ts_title := label;
     ts_step_label := label;
     ts_state := wi_state it;
     ts_can_claim := is_some claim;
     ts_can_edit := editable;
     ts_can_submit :=
       editable && can_act w actor it WorkSubmit
       && existsb (fun artifact => wa_attempt_id artifact == wi_attempt_id it) (wf_artifacts w);
     ts_handoff_snapshot_id := if readable then wi_handoff_snapshot_id it else None |}.

Definition summary (w : Workflow) (actor : VerifiedActor) (it : WorkItem) : TaskSummary :=
  summary_in w actor it None.

(** Whether [list_tasks_in] lists an item, from the four grounds of the loop body. *)
Definition lists_item (w : Workflow) (actor : VerifiedActor) (scope : option Uuid)
    (responsibilities : list Responsibility) (manages continuity : bool) (it : WorkItem) : bool :=
  let role := step_role it in
  let own := can_read w actor it && acting_in_scope scope it in
  let queue :=
    (wi_state it == Ready) && is_none (wi_assignee it)
    && existsb (fun value => (Some (rs_role_id value) == role) && allows value QueueRead
                             && allows value WorkClaim) responsibilities in
  let managed := manages && (wi_state it != Completed) in
  own || queue || managed || continuity.

Definition list_tasks_in (w : Workflow) (actor : VerifiedActor) (view : TaskView)
    (scope : option Uuid) : WResult (list TaskSummary) :=
  let responsibilities :=
    List.filter (fun value => in_scope_of scope (rs_id value))
      (Policy.responsibilities (policy w) actor (evaluated_at w)) in
  if is_some scope && is_empty responsibilities then Err Forbidden
  else
    let manages := existsb (fun value => allows value WorkAssign) responsibilities in
    let continuity := (view == TaskView_Context) && continuity_in w actor scope in
    Ok (map (fun it => summary_in w actor it scope)
          (List.filter (lists_item w actor scope responsibilities manages continuity)
             (current_items w))).

Definition list_tasks (w : Workflow) (actor : VerifiedActor) (view : TaskView)
    : list TaskSummary :=
  unwrap_or [] (ok (list_tasks_in w actor view None)).

Definition detail (w : Workflow) (actor : VerifiedActor) (id : Uuid) : WResult TaskDetail :=
  let? it := item w id in
  if negb (can_read w actor it) then Err WorkItemNotFound
  else
    Ok {| td_agent_execution_ids :=
            map ae_id
              (List.filter
                 (fun e => (ae_work_item_id e == wi_id it) && (ae_attempt_id e == wi_attempt_id it)
                           && (ae_requested_by e == actor)
                           && (wi_acting_assignment_id it == Some (ae_requester_responsibility e)))
                 (wf_agent_executions w));
          td_task := summary w actor it;
          td_input_resources := wf_input_resources w;
          td_history := wf_history w;
          td_working_artifacts :=
            List.filter (fun artifact => wa_attempt_id artifact == wi_attempt_id it)
              (wf_artifacts w) |}.

Definition artifact (w : Workflow) (actor : VerifiedActor) (id : Uuid)
    : WResult WorkingArtifact :=
  let? artifact :=
    ok_or (find (fun artifact => wa_id artifact == id) (wf_artifacts w)) WorkArtifactNotFound in
  let? it := map_err (fun _ => WorkArtifactNotFound) (item w (wa_task_id artifact)) in
  if negb (can_read w actor it) || (wa_attempt_id artifact != wi_attempt_id it)
  then Err WorkArtifactNotFound
  else Ok artifact.

(** The three grounds on which a submission is readable. *)
Definition source_readable (w : Workflow) (actor : VerifiedActor) (snapshot : HandoffSnapshot)
    : bool :=
  (hs_submitted_by snapshot == principal_id actor)
  && is_ok_and (item w (hs_source_task_id snapshot)) (fun it => eligible w actor it WorkRead).

Definition target_readable (w : Workflow) (actor : VerifiedActor) (snapshot : HandoffSnapshot)
    (id : Uuid) : bool :=
  existsb
    (fun it => (wi_id it == hs_target_task_id snapshot) && can_read w actor it
               && (wi_handoff_snapshot_id it == Some id))
    (opt_to_list (wf_next w) ++ wf_completed_attempts w).

Definition current_readable (w : Workflow) (actor : VerifiedActor) (id : Uuid) : bool :=
  existsb
    (fun it => can_read w actor it
               && is_some_and (wi_handoff_snapshot_id it)
                    (fun current =>
                       (current == id)
                       || existsb (fun value => (hs_id value == current)
                                                && (hs_previous_submission_id value == Some id))
                            (wf_snapshots w)))
    (current_items w).

Definition snapshot (w : Workflow) (actor : VerifiedActor) (id : Uuid)
    : WResult HandoffSnapshot :=
  let? snapshot :=
    ok_or (find (fun snapshot => hs_id snapshot == id) (wf_snapshots w)) WorkArtifactNotFound in
  if negb (source_readable w actor snapshot)
     && negb (target_readable w actor snapshot id)
     && negb (current_readable w actor id)
  then Err WorkArtifactNotFound
  else Ok snapshot.

Definition return_instruction (w : Workflow) (actor : VerifiedActor) (id : Uuid)
    : WResult ReturnInstruction :=
  let? instruction :=
    ok_or (find (fun value => ri_id value == id) (wf_return_instructions w))
      WorkArtifactNotFound in
  try? snapshot w actor (ri_previous_submission_id instruction) in
  let eligible task_id :=
    is_ok_and (item w task_id) (fun it => eligible w actor it WorkRead) in
  if negb (eligible (ri_source_task_id instruction))
     && negb (eligible (ri_target_task_id instruction))
  then Err WorkArtifactNotFound
  else Ok instruction.

(** ** Context projections (context.rs) *)

Definition listed_in (w : Workflow) (actor : VerifiedActor) (task_id : Uuid)
    (scope : option Uuid) : bool :=
  existsb
    (fun view => is_ok_and (list_tasks_in w actor view scope)
                   (fun items => existsb (fun it => ts_id it == task_id) items))
    [TaskView_Context; TaskView_Queue].

Definition listed (w : Workflow) (actor : VerifiedActor) (task_id : Uuid) : bool :=
  listed_in w actor task_id None.

Definition attention (w : Workflow) (actor : VerifiedActor) (task_id : Uuid)
    : WResult TaskAttention :=
  let? it := item w task_id in
  if negb (listed w actor (wi_id it)) then Err WorkItemNotFound
  else
    let? at_ := format_instant (evaluated_at w) in
    Ok {| ta_task_id := wi_id it; ta_attempt_id := wi_attempt_id it; ta_evaluated_at := at_;
          ta_items := attention_for w actor it |}.

(** Validates an acknowledgment of the actor's own current assignment period. *)
Definition acknowledge (w : Workflow) (actor : VerifiedActor) (task_id work_assignment_id : Uuid)
    : WResult AttentionAcknowledgement :=
  let? it := item w task_id in
  if negb (can_read w actor it) then Err WorkItemNotFound
  else if (wi_state it == Completed) || (wi_work_assignment_id it != Some work_assignment_id)
  then Err ValidationFailed
  else
    Ok {| aa_task_id := wi_id it; aa_attempt_id := wi_attempt_id it;
          aa_work_assignment_id := work_assignment_id;
          aa_principal_id := principal_id actor |}.

Definition progress_item (it : WorkItem) : ContextProgressItem :=
  {| cpi_task_id := wi_id it; cpi_step_label := step_label (wi_step_id it);
     cpi_work_type_id := wi_work_type_id it; cpi_state := wi_state it;
     cpi_attempt_number := wi_attempt_number it; cpi_due_at := wi_due_at it;
     cpi_assigned := is_some (wi_assignee it) |}.

(** Authorized context projection; [None] hides the context's existence. *)
Definition context_view (w : Workflow) (actor : VerifiedActor) (scope : option Uuid)
    : option WorkContextView :=
  plan ← ok (plan w);
  title ← context_title_for w actor scope;
  let progress :=
    then_some (context_grant w actor ContextProgressRead scope)
      (map progress_item (current_items w)) in
  let own_task_ids :=
    map wi_id
      (List.filter (fun it => can_read w actor it && acting_in_scope scope it)
         (current_items w)) in
  let attention_count :=
    foldr Z.add 0
      (map (fun it => len (attention_for w actor it))
         (List.filter (fun it => listed_in w actor (wi_id it) scope) (current_items w))) in
  Some
    {| wcv_id := wf_context_id w;
       wcv_kind := cf_kind plan;
       wcv_title := title;
       wcv_owner_unit_id := cf_owner_unit_id plan;
       wcv_progress := progress;
       wcv_can_read_history := context_grant w actor ContextHistoryRead scope;
       wcv_own_task_ids := own_task_ids;
       wcv_attention_count := unwrap_or u32_max (u32_try_from attention_count) |}.

(** Closed progress history: kinds and instants only. *)
Definition context_history (w : Workflow) (actor : VerifiedActor) : WResult WorkContextHistory :=
  if is_none (context_view w actor None) then Err WorkContextNotFound
  else if negb (context_grant w actor ContextHistoryRead None) then Err Forbidden
  else Ok {| wch_context_id := wf_context_id w; wch_entries := wf_history w |}.

(** Whether this instance stores the identified record. *)
Definition owns (w : Workflow) (target : WorkTarget) : bool :=
  match target with
  | WorkTarget_Task id =>
      existsb (fun it => wi_id it == id) (current_items w)
      || is_ok_and (plan w) (fun plan => cf_next_task_id plan == id)
  | WorkTarget_Artifact id => existsb (fun value => wa_id value == id) (wf_artifacts w)
  | WorkTarget_Snapshot id => existsb (fun value => hs_id value == id) (wf_snapshots w)
  | WorkTarget_ReturnInstruction id =>
      existsb (fun value => ri_id value == id) (wf_return_instructions w)
  | WorkTarget_Evidence id => existsb (fun value => ev_id value == id) (wf_evidence w)
  | WorkTarget_Finding id => existsb (fun value => fi_id value == id) (wf_findings w)
  | WorkTarget_AgentExecution id =>
      existsb (fun value => ae_id value == id) (wf_agent_executions w)
  | WorkTarget_GeneratedArtifact id =>
      existsb (fun value => ga_id value == id) (wf_generated_artifacts w)
  | WorkTarget_SuggestedAction id =>
      existsb (fun value => sa_id value == id) (wf_suggested_actions w)
  | WorkTarget_Context id => wf_context_id w == id
  end.

End Reads.
