(* ===== verification/Evidence.v ===== *)
(** * Evidence: evidence records, findings and human decisions (evidence.rs)

    Visibility of the records, the read models that resolve references, the selection check
    shared by submission and agent requests, and the three registration commands. *)
From stdpp Require Import base gmap sets list strings.
From Stdlib Require Import ZArith Lia.
From S2P Require Import Prelude WorkTypes WorkSetters Text Externals Principals Organization.
From S2P Require Import Context WorkflowReads.

Local Open Scope Z_scope.

(** ** References *)

(** [refs.iter().any(|r| r.revision != 1 || !seen.insert(r.id))]. *)
Fixpoint refs_rejected (seen : gset Uuid) (refs : list RevisionRef) : bool :=
  match refs with
  | [] => false
  | r :: refs =>
      (rr_revision r != 1) || bool_decide (rr_id r ∈ seen)
      || refs_rejected ({[rr_id r]} ∪ seen) refs
  end.

Definition validate_refs (refs : list RevisionRef) : WResult unit :=
  if (MAX_REFERENCES <? len refs) || refs_rejected ∅ refs
  then Err ValidationFailed
  else Ok tt.

Definition evidence_ref (e : EvidenceRecord) : RevisionRef :=
  {| rr_id := ev_id e; rr_revision := ev_revision e |}.

Definition finding_ref (f : Finding) : RevisionRef :=
  {| rr_id := fi_id f; rr_revision := fi_revision f |}.

Definition decision_ref (d : HumanDecision) : RevisionRef :=
  {| rr_id := hd_id d; rr_revision := hd_revision d |}.

(** ** Item updates through a mutable reference *)

(** [if task == self.source.id { &mut self.source } else { self.next.as_mut().ok_or(e)? }]. *)
Definition item_mut (w : Workflow) (task : Uuid) (e : WorkError) : WResult WorkItem :=
  if task == wi_id (wf_source w) then Ok (wf_source w) else ok_or (wf_next w) e.

(** Writing the referenced item back. *)
Definition put_item (w : Workflow) (task : Uuid) (it : WorkItem) : Workflow :=
  if task == wi_id (wf_source w) then set_wf_source it w else set_wf_next (Some it) w.

(** [item.revision = item.revision.checked_add(1).ok_or(IntegrityViolation)?]. *)
Definition bump (it : WorkItem) : WResult WorkItem :=
  let? revision := ok_or (checked_add_i64 (wi_revision it) 1) IntegrityViolation in
  Ok (set_wi_revision revision it).

Definition next_record_revision (w : Workflow) (task : Uuid) : WResult Workflow :=
  let? it := item_mut w task WorkItemNotFound in
  let? it := bump it in
  Ok (put_item w task it).

(** Membership of a record in a task: its own attempt, or its received submission. *)
Definition record_in_task (w : Workflow) (it : WorkItem) (task attempt : Uuid) (r : RevisionRef)
    (member : HandoffSnapshot -> list RevisionRef) : bool :=
  ((wi_id it == task) && (wi_attempt_id it == attempt))
  || is_some_and (wi_handoff_snapshot_id it)
       (fun id => existsb (fun s => (hs_id s == id) && contains (member s) r) (wf_snapshots w)).

Section Evidence.
Context {X : Externals}.

(** ** Reads *)

Definition record_visible (w : Workflow) (actor : VerifiedActor) (task_id attempt_id : Uuid)
    (reference : RevisionRef) (member : HandoffSnapshot -> list RevisionRef) : bool :=
  is_ok_and (item w task_id)
    (fun it => (wi_attempt_id it == attempt_id) && can_read w actor it)
  || existsb (fun s => contains (member s) reference && is_ok (snapshot w actor (hs_id s)))
       (wf_snapshots w).

Definition evidence_record (w : Workflow) (actor : VerifiedActor) (id : Uuid)
    : WResult EvidenceRecord :=
  let? e := ok_or (find (fun e => ev_id e == id) (wf_evidence w)) EvidenceNotFound in
  if (ev_context_id e != wf_context_id w)
     || negb (record_visible w actor (ev_task_id e) (ev_attempt_id e) (evidence_ref e)
                hs_evidence_revision_refs)
  then Err EvidenceNotFound
  else Ok e.

Definition resolve_evidence (w : Workflow) (actor : VerifiedActor) (refs : list RevisionRef)
    : WResult (list EvidenceRecord) :=
  try? validate_refs refs in
  try_map
    (fun r =>
       let? e := evidence_record w actor (rr_id r) in
       if ev_revision e != rr_revision r then Err EvidenceNotFound else Ok e)
    refs.

Definition finding (w : Workflow) (actor : VerifiedActor) (id : Uuid) : WResult Finding :=
  let? f := ok_or (find (fun f => fi_id f == id) (wf_findings w)) FindingNotFound in
  if (fi_context_id f != wf_context_id w)
     || negb (record_visible w actor (fi_task_id f) (fi_attempt_id f) (finding_ref f)
                hs_finding_revision_refs)
  then Err FindingNotFound
  else
    try? resolve_evidence w actor (fi_evidence_revision_refs f) in
    Ok f.

Definition decision (w : Workflow) (actor : VerifiedActor) (id : Uuid) : WResult HumanDecision :=
  let? d := ok_or (find (fun d => hd_id d == id) (wf_decisions w)) FindingNotFound in
  if (hd_context_id d != wf_context_id w)
     || negb (record_visible w actor (hd_task_id d) (hd_attempt_id d) (decision_ref d)
                hs_decision_revision_refs)
  then Err FindingNotFound
  else
    try? finding w actor (hd_finding_id d) in
    try? resolve_evidence w actor (hd_evidence_revision_refs d) in
    Ok d.

Definition list_evidence (w : Workflow) (actor : VerifiedActor) (task_id : Uuid)
    : WResult (list EvidenceRecord) :=
  try? detail w actor task_id in
  let? it := item w task_id in
  try_map (fun e => evidence_record w actor (ev_id e))
    (List.filter
       (fun e => record_in_task w it (ev_task_id e) (ev_attempt_id e) (evidence_ref e)
                   hs_evidence_revision_refs) (wf_evidence w)).

Definition list_findings (w : Workflow) (actor : VerifiedActor) (task_id : Uuid)
    : WResult (list Finding) :=
  try? detail w actor task_id in
  let? it := item w task_id in
  try_map (fun f => finding w actor (fi_id f))
    (List.filter
       (fun f => record_in_task w it (fi_task_id f) (fi_attempt_id f) (finding_ref f)
                   hs_finding_revision_refs) (wf_findings w)).

Definition list_decisions (w : Workflow) (actor : VerifiedActor) (finding_id : Uuid)
    : WResult (list HumanDecision) :=
  try? finding w actor finding_id in
  Ok (filter_map (fun d => ok (decision w actor (hd_id d)))
        (List.filter (fun d => hd_finding_id d == finding_id) (wf_decisions w))).

Definition snapshot_evidence (w : Workflow) (actor : VerifiedActor) (id : Uuid)
    : WResult (list EvidenceRecord) :=
  let? s := snapshot w actor id in
  try_map
    (fun r =>
       ok_or
         (find (fun e => (ev_id e == rr_id r) && (ev_revision e == rr_revision r)
                         && (ev_context_id e == hs_context_id s)) (wf_evidence w))
         IntegrityViolation)
    (hs_evidence_revision_refs s).

(** ** Selection *)

(** Every selected evidence record belongs to the task. *)
Definition evidence_in_task (w : Workflow) (actor : VerifiedActor) (it : WorkItem) (_ : unit)
    (r : RevisionRef) : WResult unit :=
  let? e := evidence_record w actor (rr_id r) in
  if negb (record_in_task w it (ev_task_id e) (ev_attempt_id e) r hs_evidence_revision_refs)
  then Err EvidenceNotFound
  else Ok tt.

Definition select_finding (w : Workflow) (actor : VerifiedActor) (it : WorkItem)
    (ev : list RevisionRef) (_ : unit) (r : RevisionRef) : WResult unit :=
  let? f := finding w actor (rr_id r) in
  if (fi_revision f != rr_revision r)
     || negb (record_in_task w it (fi_task_id f) (fi_attempt_id f) r hs_finding_revision_refs)
  then Err FindingNotFound
  else if existsb (fun e => negb (contains ev e)) (fi_evidence_revision_refs f)
  then Err HandoffNotReady
  else Ok tt.

Definition select_decision (w : Workflow) (actor : VerifiedActor) (it : WorkItem)
    (ev findings : list RevisionRef) (_ : unit) (r : RevisionRef) : WResult unit :=
  let? d := decision w actor (rr_id r) in
  if (hd_revision d != rr_revision r)
     || negb (record_in_task w it (hd_task_id d) (hd_attempt_id d) r hs_decision_revision_refs)
  then Err FindingNotFound
  else if negb (contains findings {| rr_id := hd_finding_id d; rr_revision := hd_finding_revision d |})
          || existsb (fun e => negb (contains ev e)) (hd_evidence_revision_refs d)
  then Err HandoffNotReady
  else Ok tt.

Definition validate_selection (w : Workflow) (actor : VerifiedActor) (task : Uuid)
    (ev findings decisions : list RevisionRef) : WResult unit :=
  try? validate_refs ev in
  try? validate_refs findings in
  try? validate_refs decisions in
  if MAX_REFERENCES <? len ev + len findings + len decisions then Err ValidationFailed
  else
    let? it := item w task in
    try? resolve_evidence w actor ev in
    try? for_each (evidence_in_task w actor it) tt ev in
    try? for_each (select_finding w actor it ev) tt findings in
    try? for_each (select_decision w actor it ev findings) tt decisions in
    Ok tt.

(** ** Commands *)

(** [create_finding]; [new_id] is the identifier [Uuid::now_v7()] returns. *)
Definition create_finding (w : Workflow) (actor : VerifiedActor) (task_id : Uuid)
    (claim : string) (evidence_revision_refs : list RevisionRef)
    (supersedes_finding_id origin_execution_id : option Uuid) (now : string) (new_id : Uuid)
    : WResult Finding :=
  let? it := item w task_id in
  try? bounded_text claim in
  if is_empty evidence_revision_refs then Err ValidationFailed
  else
    try? resolve_evidence w actor evidence_revision_refs in
    try? for_each (evidence_in_task w actor it) tt evidence_revision_refs in
    try?
      match supersedes_finding_id with
      | Some id =>
          let? f := finding w actor id in
          if (fi_task_id f != task_id) || (fi_attempt_id f != wi_attempt_id it)
          then Err FindingNotFound else Ok tt
      | None => Ok tt
      end in
    let? findings := list_findings w actor task_id in
    if MAX_VISIBLE_RECORDS <=? len findings then Err ValidationFailed
    else
      let? acting_assignment_id := ok_or (wi_acting_assignment_id it) IntegrityViolation in
      Ok {| fi_origin_execution_id := origin_execution_id;
            fi_id := new_id;
            fi_revision := 1;
            fi_context_id := wf_context_id w;
            fi_task_id := task_id;
            fi_attempt_id := wi_attempt_id it;
            fi_uncertainty := [];
            fi_conflicts := [];
            fi_author := if is_some origin_execution_id then SYNTHETIC_EXECUTOR
                         else principal_id actor;
            fi_acting_assignment_id := acting_assignment_id;
            fi_claim := claim;
            fi_evidence_revision_refs := evidence_revision_refs;
            fi_supersedes_finding_id := supersedes_finding_id;
            fi_visibility := "work_item_private";
            fi_created_at := now |}.

(** The arms of [apply_evidence], after its common checks. *)
Definition register_evidence (w : Workflow) (actor : VerifiedActor) (task_id : Uuid)
    (it : WorkItem) (context : CommandContext) (source : EvidenceSource)
    (relevant_location now : string) (new_id : Uuid) : WResult (Workflow * MutationResult) :=
  try? bounded_text relevant_location in
  if (sr_provider_id (es_source_ref source) != "document")
     || (al_kind (es_authoritative_locator source) != "contentItem")
     || negb (existsb (fun i => (ir_kind i == "document")
                                && (ir_document_id i == sr_resource_id (es_source_ref source)))
                (wf_input_resources w))
  then Err EvidenceNotFound
  else
    let? evidence := list_evidence w actor task_id in
    if MAX_VISIBLE_RECORDS <=? len evidence then Err ValidationFailed
    else
      let evidence :=
        {| ev_id := new_id;
           ev_revision := 1;
           ev_context_id := wf_context_id w;
           ev_task_id := task_id;
           ev_attempt_id := wi_attempt_id it;
           ev_created_by := principal_id actor;
           ev_acting_assignment_id := cc_acting_assignment_id context;
           ev_origin := "human";
           ev_source := source;
           ev_uncertainty := [];
           ev_conflict_references := [];
           ev_relevant_location_verified := false;
           ev_policy_disposition := "reference_only";
           ev_relevant_location := relevant_location;
           ev_fragment_omission_reason := "not_retained";
           ev_coverage := "unknown";
           ev_retrieved_at := now;
           ev_recorded_at := now;
           ev_provider_checked_at := now;
           ev_visibility := "work_item_private" |} in
      let w := set_wf_evidence (wf_evidence w ++ [evidence]) w in
      let? w := next_record_revision w task_id in
      let? it := item w task_id in
      Ok (w, MR_EvidenceRegistered (summary w actor it) evidence).

Definition register_finding (w : Workflow) (actor : VerifiedActor) (task_id : Uuid)
    (claim : string) (evidence_revision_refs : list RevisionRef)
    (supersedes_finding_id : option Uuid) (now : string) (new_id : Uuid)
    : WResult (Workflow * MutationResult) :=
  let? finding :=
    create_finding w actor task_id claim evidence_revision_refs supersedes_finding_id None now
      new_id in
  let w := set_wf_findings (wf_findings w ++ [finding]) w in
  let? w := next_record_revision w task_id in
  let? it := item w task_id in
  Ok (w, MR_FindingRegistered (summary w actor it) finding).

Definition optional_text (value : option string) : WResult unit :=
  match value with
  | Some text => bounded_text text
  | None => Ok tt
  end.

Definition record_decision (w : Workflow) (actor : VerifiedActor) (task_id : Uuid)
    (it : WorkItem) (context : CommandContext) (finding_id : Uuid) (finding_revision : Z)
    (decision_kind : DecisionKind) (adopted_claim reason : option string)
    (evidence_revision_refs : list RevisionRef) (supersedes_decision_id : option Uuid)
    (now : string) (new_id : Uuid) : WResult (Workflow * MutationResult) :=
  let? f := finding w actor finding_id in
  if (fi_revision f != finding_revision)
     || negb (record_in_task w it (fi_task_id f) (fi_attempt_id f) (finding_ref f)
                hs_finding_revision_refs)
  then Err FindingNotFound
  else if (decision_kind == Modified) && is_none adopted_claim then Err ValidationFailed
  else
    try? optional_text adopted_claim in
    if (decision_kind != Modified) && is_some adopted_claim then Err ValidationFailed
    else
      try? optional_text reason in
      try? resolve_evidence w actor evidence_revision_refs in
      try? for_each (evidence_in_task w actor it) tt evidence_revision_refs in
      try?
        match supersedes_decision_id with
        | Some id =>
            let? d := decision w actor id in
            if (hd_task_id d != task_id)
               || (hd_attempt_id d != wi_attempt_id it)
               || (hd_finding_id d != finding_id)
               || (hd_finding_revision d != finding_revision)
            then Err FindingNotFound else Ok tt
        | None => Ok tt
        end in
      if MAX_VISIBLE_RECORDS
           <=? count (fun d => hd_attempt_id d == wi_attempt_id it) (wf_decisions w)
      then Err ValidationFailed
      else
        let? visible := list_decisions w actor finding_id in
        if MAX_VISIBLE_RECORDS <=? len visible then Err ValidationFailed
        else
          let d :=
            {| hd_id := new_id;
               hd_revision := 1;
               hd_context_id := wf_context_id w;
               hd_task_id := task_id;
               hd_attempt_id := wi_attempt_id it;
               hd_finding_id := finding_id;
               hd_finding_revision := finding_revision;
               hd_decision := decision_kind;
               hd_adopted_claim := adopted_claim;
               hd_reason := reason;
               hd_evidence_revision_refs := evidence_revision_refs;
               hd_human_principal := principal_id actor;
               hd_acting_assignment_id := cc_acting_assignment_id context;
               hd_created_at := now;
               hd_supersedes_decision_id := supersedes_decision_id;
               hd_visibility := "work_item_private" |} in
          let w := set_wf_decisions (wf_decisions w ++ [d]) w in
          let? w := next_record_revision w task_id in
          let? it := item w task_id in
          Ok (w, MR_DecisionRecorded (summary w actor it) d).

(** [apply_evidence]: an active task at the expected attempt, then the command's arm. *)
Definition apply_evidence (w : Workflow) (actor : VerifiedActor) (command : Command)
    (now : string) (new_id : Uuid) : WResult (Workflow * MutationResult) :=
  let task_id := command_task_id command in
  let? it := item w task_id in
  if wi_state it != Active then Err HandoffNotReady
  else
    let? expected :=
      match command with
      | RegisterEvidence _ _ expected _ _ => Ok expected
      | RegisterFinding _ _ expected _ _ _ => Ok expected
      | RecordDecision _ _ expected _ _ _ _ _ _ _ => Ok expected
      | _ => Err IntegrityViolation
      end in
    if expected != wi_attempt_id it then Err RevisionConflict
    else
      match command with
      | RegisterEvidence _ context _ source relevant_location =>
          register_evidence w actor task_id it context source relevant_location now new_id
      | RegisterFinding _ _ _ claim refs supersedes =>
          register_finding w actor task_id claim refs supersedes now new_id
      | RecordDecision _ context _ finding_id finding_revision kind adopted reason refs supersedes =>
          record_decision w actor task_id it context finding_id finding_revision kind adopted
            reason refs supersedes now new_id
      | _ => Err IntegrityViolation
      end.

End Evidence.
