(* ===== verification/Agent.v ===== *)
(** * Agent: bounded agent executions and their structured output (agent.rs, agent_result.rs)

    The dispatch scope, the read models, the validation of an executor's output, the
    materialization of candidates and the integrity of the stored executions. *)
From stdpp Require Import base gmap sets list strings.
From Stdlib Require Import ZArith Lia.
From S2P Require Import Prelude WorkTypes WorkSetters Text Externals Principals Organization.
From S2P Require Import Context WorkflowReads Evidence.

Local Open Scope Z_scope.

Definition agent_read_tools : list AgentReadTool := [DocumentRevision; DocumentVersionFiles].

Definition document_binding : list ProviderPrincipalBinding :=
  [ {| ppb_provider_id := "document"; ppb_principal_id := "poc/poc-agent";
       ppb_invocation_kind := "agent" |} ].

(** [AgentSourceUse::usable]. *)
Definition usable (u : AgentSourceUse) : bool :=
  match u with
  | Referenced | Analyzed => true
  | _ => false
  end.

(** The references of the usable outcomes. *)
Definition usable_outcomes (outcomes : list AgentSourceOutcome) : list RevisionRef :=
  map aso_evidence_revision_ref (List.filter (fun o => usable (aso_outcome o)) outcomes).

(** Legacy results (no per-source outcomes) used every selected source. *)
Definition usable_sources (result : AgentResult) : list RevisionRef :=
  if is_empty (agr_source_outcomes result) then agr_evidence_revision_refs result
  else usable_outcomes (agr_source_outcomes result).

(** Nonempty valid references, all of them usable. *)
Definition cites (usable refs : list RevisionRef) : bool :=
  negb (is_empty refs) && is_ok (validate_refs refs) && forallb (contains usable) refs.

Definition cites_usable (result : AgentResult) (refs : list RevisionRef) : bool :=
  cites (usable_sources result) refs.

Definition in_scope (e : AgentExecution) (context_id work_item_id attempt_id : Uuid) : bool :=
  (ae_context_id e == context_id) && (ae_work_item_id e == work_item_id)
  && (ae_attempt_id e == attempt_id).

(** [outcomes.iter().zip(refs).any(|(o, r)| &o.evidence_revision_ref != r)]. *)
Definition outcomes_mismatch (outcomes : list AgentSourceOutcome) (refs : list RevisionRef)
    : bool :=
  existsb (fun '(o, r) => aso_evidence_revision_ref o != r) (combine outcomes refs).

(** A finding over every selected source, used by reference only. *)
Definition referenced_finding (context : AgentDispatchContext) (summary claim : string)
    (uncertainty : list string) : AgentOutput :=
  let refs := ae_evidence_revision_refs (adc_execution context) in
  {| ao_summary := summary;
     ao_uncertainty := uncertainty;
     ao_source_outcomes :=
       map (fun r => {| aso_evidence_revision_ref := r; aso_outcome := Referenced |}) refs;
     ao_finding := Some {| afc_claim := claim; afc_evidence_revision_refs := refs |};
     ao_generated_artifacts := [];
     ao_suggested_actions := [] |}.

(** ** Executor output *)

Definition validate_candidate (usable : list RevisionRef) (_ : unit)
    (candidate : GeneratedArtifactCandidate) : WResult unit :=
  try? valid_candidate_title (gac_title candidate) in
  try? bounded_text (gac_text candidate) in
  if negb (cites usable (gac_source_revision_refs candidate)) then Err ValidationFailed
  else Ok tt.

(** The loop over suggestions, whose state is the set of proposals made so far. *)
Definition validate_suggestion (output : AgentOutput) (proposals : gset (option nat))
    (suggestion : SuggestedActionCandidate) : WResult (gset (option nat)) :=
  if is_empty (trim (sac_rationale suggestion))
     || (MAX_RATIONALE_BYTES <? str_len (sac_rationale suggestion))
  then Err ValidationFailed
  else
    let? key :=
      match sac_action suggestion with
      | Candidate_ReviewFinding =>
          if is_some (ao_finding output) then Ok None else Err ValidationFailed
      | Candidate_UseGeneratedArtifact index =>
          if (index <? length (ao_generated_artifacts output))%nat then Ok (Some index)
          else Err ValidationFailed
      end in
    if bool_decide (key ∈ proposals) then Err ValidationFailed else Ok ({[key]} ∪ proposals).

(** [AgentOutput::validate]: shape checks independent of the stored workflow. *)
Definition validate_output (output : AgentOutput) (context : AgentDispatchContext)
    : WResult unit :=
  let selected := ae_evidence_revision_refs (adc_execution context) in
  try? bounded_text (ao_summary output) in
  if is_empty (ao_uncertainty output) || (MAX_AGENT_UNCERTAINTY <? len (ao_uncertainty output))
  then Err ValidationFailed
  else
    try? for_each (fun _ text => bounded_text text) tt (ao_uncertainty output) in
    if (len (ao_source_outcomes output) != len selected)
       || outcomes_mismatch (ao_source_outcomes output) selected
    then Err ValidationFailed
    else if (ae_executed_by (adc_execution context) == SYNTHETIC_EXECUTOR)
            && existsb (fun o => aso_outcome o == Analyzed) (ao_source_outcomes output)
    then Err ValidationFailed
    else
      let usable := usable_outcomes (ao_source_outcomes output) in
      if is_empty usable then Err ValidationFailed
      else
        try?
          match ao_finding output with
          | Some finding =>
              try? bounded_text (afc_claim finding) in
              if negb (cites usable (afc_evidence_revision_refs finding))
              then Err ValidationFailed else Ok tt
          | None => Ok tt
          end in
        if MAX_GENERATED_ARTIFACTS <? len (ao_generated_artifacts output)
        then Err ValidationFailed
        else
          try? for_each (validate_candidate usable) tt (ao_generated_artifacts output) in
          if MAX_SUGGESTED_ACTIONS <? len (ao_suggested_actions output)
          then Err ValidationFailed
          else
            try? for_each (validate_suggestion output) ∅ (ao_suggested_actions output) in
            Ok tt.

(** The candidates [record_candidates] materializes; [fresh i] is the identifier the [i]-th
    call of [Uuid::now_v7()] returns. *)
Definition generated_from (e : AgentExecution) (now : string) (id : Uuid)
    (candidate : GeneratedArtifactCandidate) : GeneratedArtifact :=
  {| ga_id := id;
     ga_execution_id := ae_id e;
     ga_context_id := ae_context_id e;
     ga_work_item_id := ae_work_item_id e;
     ga_attempt_id := ae_attempt_id e;
     ga_schema_id := TEXT_SCHEMA_ID;
     ga_title := gac_title candidate;
     ga_value := {| tv_text := gac_text candidate |};
     ga_source_revision_refs := gac_source_revision_refs candidate;
     ga_author := ae_executed_by e;
     ga_simulated := ae_executed_by e == SYNTHETIC_EXECUTOR;
     ga_visibility := AGENT_PRIVATE_VISIBILITY;
     ga_created_at := now |}.

Definition suggested_from (e : AgentExecution) (output : AgentOutput)
    (finding : option RevisionRef) (generated : list GeneratedArtifact) (now : string)
    (id : Uuid) (candidate : SuggestedActionCandidate) : WResult SuggestedAction :=
  let? '(action, supporting) :=
    match sac_action candidate with
    | Candidate_ReviewFinding =>
        let? finding_revision_ref := ok_or finding ValidationFailed in
        Ok (ProposedAction_ReviewFinding finding_revision_ref,
            unwrap_or [] (option_map afc_evidence_revision_refs (ao_finding output)))
    | Candidate_UseGeneratedArtifact index =>
        let? g := ok_or (nth_error generated index) ValidationFailed in
        Ok (ProposedAction_UseGeneratedArtifact (ga_id g), ga_source_revision_refs g)
    end in
  Ok {| sa_id := id;
        sa_execution_id := ae_id e;
        sa_context_id := ae_context_id e;
        sa_work_item_id := ae_work_item_id e;
        sa_attempt_id := ae_attempt_id e;
        sa_action := action;
        sa_rationale := sac_rationale candidate;
        sa_supporting_revision_refs :=
          if is_empty supporting then usable_outcomes (ao_source_outcomes output) else supporting;
        sa_author := ae_executed_by e;
        sa_visibility := AGENT_PRIVATE_VISIBILITY;
        sa_created_at := now |}.

Definition record_candidates (w : Workflow) (context : AgentDispatchContext)
    (output : AgentOutput) (finding : option RevisionRef) (now : string) (fresh : nat -> Uuid)
    : WResult (Workflow * (list Uuid * list Uuid)) :=
  let e := adc_execution context in
  let generated :=
    imap (fun i candidate => generated_from e now (fresh i) candidate)
      (ao_generated_artifacts output) in
  let? suggested :=
    try_map
      (fun '(i, candidate) => suggested_from e output finding generated now (fresh i) candidate)
      (imap (fun i candidate => ((length generated + i)%nat, candidate))
         (ao_suggested_actions output)) in
  let ids := (map ga_id generated, map sa_id suggested) in
  let w := set_wf_generated_artifacts (wf_generated_artifacts w ++ generated) w in
  let w := set_wf_suggested_actions (wf_suggested_actions w ++ suggested) w in
  Ok (w, ids).

Section Agent.
Context {X : Externals}.

(** ** Dispatch scope *)

(** [AgentDispatchContext::validate_scope]. *)
Definition validate_scope (c : AgentDispatchContext) : WResult unit :=
  let e := adc_execution c in
  try? bounded_text (ae_purpose e) in
  try? validate_refs (ae_evidence_revision_refs e) in
  if (adc_allowed_tools c != agent_read_tools)
     || is_nil (ae_attempt_id e)
     || (ae_task_revision e <? 0)
     || (ae_effective_context_revision e <? 0)
     || (get_version_num (ae_id e) != 7)
     || is_none (context_fixture_for_context (ae_context_id e))
     || is_nil (ae_requester_responsibility e)
     || (ae_executed_by e != SYNTHETIC_EXECUTOR)
     || (ae_executor_invocation_kind e != "agent")
     || (ae_provider_principal_bindings e != document_binding)
     || is_empty (ae_evidence_revision_refs e)
     || (MAX_AGENT_EXECUTIONS <? len (ae_evidence_revision_refs e))
     || (len (adc_evidence c) != len (ae_evidence_revision_refs e))
     || existsb (fun '(record, r) => (ev_id record != rr_id r)
                                     || (ev_revision record != rr_revision r)
                                     || (ev_context_id record != ae_context_id e))
          (combine (adc_evidence c) (ae_evidence_revision_refs e))
  then Err Forbidden
  else Ok tt.

(** ** Reads *)

Definition agent_execution (w : Workflow) (actor : VerifiedActor) (id : Uuid)
    : WResult AgentExecution :=
  let? e := ok_or (find (fun e => ae_id e == id) (wf_agent_executions w)) WorkItemNotFound in
  let? it := item w (ae_work_item_id e) in
  if (ae_requested_by e != actor)
     || (ae_context_id e != wf_context_id w)
     || (ae_attempt_id e != wi_attempt_id it)
     || (wi_acting_assignment_id it != Some (ae_requester_responsibility e))
     || negb (can_read w actor it)
  then Err WorkItemNotFound
  else Ok e.

Definition agent_result (w : Workflow) (actor : VerifiedActor) (id : Uuid)
    : WResult AgentResult :=
  let? e := agent_execution w actor id in
  if ae_status e != Succeeded then Err AgentResultNotReady
  else ok_or (ae_result e) IntegrityViolation.

Definition candidate_execution (w : Workflow) (actor : VerifiedActor) (execution_id : Uuid)
    : WResult AgentExecution :=
  let? e := agent_execution w actor execution_id in
  if ae_status e != Succeeded then Err WorkItemNotFound else Ok e.

(** Readable exactly when its execution is readable and succeeded. *)
Definition generated_artifact (w : Workflow) (actor : VerifiedActor) (id : Uuid)
    : WResult GeneratedArtifact :=
  let? record :=
    ok_or (find (fun g => ga_id g == id) (wf_generated_artifacts w)) WorkItemNotFound in
  try? candidate_execution w actor (ga_execution_id record) in
  Ok record.

Definition suggested_action (w : Workflow) (actor : VerifiedActor) (id : Uuid)
    : WResult SuggestedAction :=
  let? record :=
    ok_or (find (fun s => sa_id s == id) (wf_suggested_actions w)) WorkItemNotFound in
  try? candidate_execution w actor (sa_execution_id record) in
  Ok record.

Definition agent_disclosure_context (w : Workflow) (id : Uuid) : WResult AgentDispatchContext :=
  let? execution :=
    ok_or (find (fun e => ae_id e == id) (wf_agent_executions w)) IntegrityViolation in
  let? evidence :=
    resolve_evidence w (ae_requested_by execution) (ae_evidence_revision_refs execution) in
  let context :=
    {| adc_execution := execution; adc_evidence := evidence;
       adc_allowed_tools := agent_read_tools |} in
  try? validate_scope context in
  Ok context.

Definition build_agent_context (w : Workflow) (actor : VerifiedActor) (id : Uuid)
    : WResult AgentDispatchContext :=
  let? e := agent_execution w actor id in
  let? it := item w (ae_work_item_id e) in
  if (ae_status e != Running)
     || (wi_state it != Active)
     || (ae_effective_context_revision e != wf_revision w)
     || (ae_task_revision e != wi_revision it)
  then Err WorkContextStale
  else
    try? validate_selection w actor (ae_work_item_id e) (ae_evidence_revision_refs e) [] [] in
    agent_disclosure_context w id.

(** ** Integrity of executions and candidates *)

(** The result checks of [validate_agent_integrity]. *)
Definition validate_result (w : Workflow) (e : AgentExecution) (result : AgentResult)
    : WResult unit :=
  let legacy := is_empty (agr_source_outcomes result) in
  let usable := usable_sources result in
  if (1 <? len (agr_finding_revision_refs result))
     || (legacy && (len (agr_finding_revision_refs result) != 1))
     || (negb legacy
         && ((len (agr_source_outcomes result) != len (ae_evidence_revision_refs e))
             || outcomes_mismatch (agr_source_outcomes result) (ae_evidence_revision_refs e)
             || is_empty usable))
     || (agr_evidence_revision_refs result != ae_evidence_revision_refs e)
     || negb (agr_simulated result)
     || agr_body_analyzed result
     || existsb (fun o => aso_outcome o == Analyzed) (agr_source_outcomes result)
     || agr_live_llm result
     || agr_mcp_wire_executed result
  then Err IntegrityViolation
  else
    for_each
      (fun _ r =>
         if negb (existsb
                    (fun f =>
                       (fi_id f == rr_id r)
                       && (fi_revision f == rr_revision r)
                       && (fi_origin_execution_id f == Some (ae_id e))
                       && (fi_author f == SYNTHETIC_EXECUTOR)
                       && (if legacy
                           then fi_evidence_revision_refs f == ae_evidence_revision_refs e
                           else negb (is_empty (fi_evidence_revision_refs f))
                                && forallb (contains usable) (fi_evidence_revision_refs f))
                       && (fi_task_id f == ae_work_item_id e)
                       && (fi_attempt_id f == ae_attempt_id e))
                    (wf_findings w))
         then Err IntegrityViolation else Ok tt)
      tt (agr_finding_revision_refs result).

(** The loop state: identifiers seen, work items with an active execution, and executions per
    work item and attempt. *)
Definition agent_loop_state : Type := gset Uuid * gset Uuid * gmap (Uuid * Uuid) Z.

Definition validate_execution (w : Workflow) (s : agent_loop_state) (e : AgentExecution)
    : WResult agent_loop_state :=
  let '(ids, active, counts) := s in
  let key := (ae_work_item_id e, ae_attempt_id e) in
  let count := unwrap_or 0 (counts !! key) + 1 in
  if bool_decide (ae_id e ∈ ids)
     || (MAX_AGENT_EXECUTIONS <? count)
     || (is_active (ae_status e) && bool_decide (ae_work_item_id e ∈ active))
     || negb (Bool.eqb (is_active (ae_status e)) (is_none (ae_ended_at e)))
     || negb (Bool.eqb (ae_status e == Succeeded) (is_some (ae_result e)))
  then Err IntegrityViolation
  else
    let? evidence :=
      try_map
        (fun r => ok_or (find (fun record => (ev_id record == rr_id r)
                                             && (ev_revision record == rr_revision r))
                           (wf_evidence w)) IntegrityViolation)
        (ae_evidence_revision_refs e) in
    try? map_err (fun _ => IntegrityViolation)
           (validate_scope {| adc_execution := e; adc_evidence := evidence;
                              adc_allowed_tools := agent_read_tools |}) in
    try? match ae_result e with
         | Some result => validate_result w e result
         | None => Ok tt
         end in
    Ok ({[ae_id e]} ∪ ids,
        if is_active (ae_status e) then {[ae_work_item_id e]} ∪ active else active,
        <[key := count]> counts).

(** A finding that names its origin execution is listed by that succeeded execution. *)
Definition validate_origin (w : Workflow) (_ : unit) (f : Finding) : WResult unit :=
  match fi_origin_execution_id f with
  | Some id =>
      if negb (existsb
                 (fun e => (ae_id e == id) && (ae_status e == Succeeded)
                           && is_some_and (ae_result e)
                                (fun result =>
                                   contains (agr_finding_revision_refs result) (finding_ref f)))
                 (wf_agent_executions w))
      then Err IntegrityViolation else Ok tt
  | None => Ok tt
  end.

Definition validate_agent_integrity (w : Workflow) : WResult unit :=
  try? for_each (validate_execution w) (∅, ∅, ∅) (wf_agent_executions w) in
  for_each (validate_origin w) tt (wf_findings w).

Definition listing_result (w : Workflow) (execution_id : Uuid)
    : WResult (AgentExecution * AgentResult) :=
  let? e :=
    ok_or (find (fun e => (ae_id e == execution_id) && (ae_status e == Succeeded))
             (wf_agent_executions w)) IntegrityViolation in
  let? result := ok_or (ae_result e) IntegrityViolation in
  Ok (e, result).

Definition validate_generated (w : Workflow) (ids : gset Uuid) (g : GeneratedArtifact)
    : WResult (gset Uuid) :=
  let? '(e, result) := listing_result w (ga_execution_id g) in
  if bool_decide (ga_id g ∈ ids)
     || negb (contains (agr_generated_artifact_ids result) (ga_id g))
     || negb (in_scope e (ga_context_id g) (ga_work_item_id g) (ga_attempt_id g))
     || (ga_schema_id g != TEXT_SCHEMA_ID)
     || (ga_author g != ae_executed_by e)
     || negb (Bool.eqb (ga_simulated g) (ae_executed_by e == SYNTHETIC_EXECUTOR))
     || (ga_visibility g != AGENT_PRIVATE_VISIBILITY)
     || is_err (valid_candidate_title (ga_title g))
     || is_err (bounded_text (tv_text (ga_value g)))
     || negb (cites_usable result (ga_source_revision_refs g))
  then Err IntegrityViolation
  else Ok ({[ga_id g]} ∪ ids).

Definition validate_suggested (w : Workflow) (ids : gset Uuid) (s : SuggestedAction)
    : WResult (gset Uuid) :=
  let? '(e, result) := listing_result w (sa_execution_id s) in
  let target :=
    match sa_action s with
    | ProposedAction_ReviewFinding r => contains (agr_finding_revision_refs result) r
    | ProposedAction_UseGeneratedArtifact id => contains (agr_generated_artifact_ids result) id
    end in
  if bool_decide (sa_id s ∈ ids)
     || negb target
     || negb (contains (agr_suggested_action_ids result) (sa_id s))
     || negb (in_scope e (sa_context_id s) (sa_work_item_id s) (sa_attempt_id s))
     || (sa_author s != ae_executed_by e)
     || (sa_visibility s != AGENT_PRIVATE_VISIBILITY)
     || is_empty (trim (sa_rationale s))
     || (MAX_RATIONALE_BYTES <? str_len (sa_rationale s))
     || negb (cites_usable result (sa_supporting_revision_refs s))
  then Err IntegrityViolation
  else Ok ({[sa_id s]} ∪ ids).

Definition validate_listing (w : Workflow) (_ : unit) (e : AgentExecution) : WResult unit :=
  match ae_result e with
  | None => Ok tt
  | Some result =>
      let listed :=
        len (agr_generated_artifact_ids result) + len (agr_suggested_action_ids result) in
      let found :=
        count (fun g => ga_execution_id g == ae_id e) (wf_generated_artifacts w)
        + count (fun s => sa_execution_id s == ae_id e) (wf_suggested_actions w) in
      if (listed != found)
         || (MAX_GENERATED_ARTIFACTS <? len (agr_generated_artifact_ids result))
         || (MAX_SUGGESTED_ACTIONS <? len (agr_suggested_action_ids result))
      then Err IntegrityViolation else Ok tt
  end.

Definition validate_candidate_integrity (w : Workflow) : WResult unit :=
  let? ids := for_each (validate_generated w) ∅ (wf_generated_artifacts w) in
  try? for_each (validate_suggested w) ids (wf_suggested_actions w) in
  for_each (validate_listing w) tt (wf_agent_executions w).

End Agent.
