(* ===== verification/Integrity.v ===== *)
(** * Integrity: the aggregate invariant the code re-checks before and after every command
    (lib.rs [Workflow::validate_integrity]), and the fixture instances. *)
From stdpp Require Import base gmap sets list strings.
From Stdlib Require Import ZArith Lia.
From S2P Require Import Prelude WorkTypes WorkSetters Text Externals Principals Organization.
From S2P Require Import Context WorkflowReads Evidence Agent.

Local Open Scope Z_scope.

(** [once(&self.source).chain(self.next.iter()).chain(self.completed_attempts.iter())]. *)
Definition all_attempts (w : Workflow) : list WorkItem :=
  current_items w ++ wf_completed_attempts w.

(** The loop over attempts: unique attempt identities and numbers. *)
Definition validate_attempt (w : Workflow) (s : gset Uuid * gset (Uuid * Z)) (it : WorkItem)
    : WResult (gset Uuid * gset (Uuid * Z)) :=
  let '(ids, numbers) := s in
  if (wi_workflow_instance_id it != wf_id w)
     || (wi_attempt_number it == 0)
     || (wi_revision it <? 0)
     || bool_decide (wi_attempt_id it ∈ ids)
     || bool_decide ((wi_id it, wi_attempt_number it) ∈ numbers)
     || negb (Bool.eqb (is_some (wi_assignee it)) (is_some (wi_acting_assignment_id it)))
  then Err IntegrityViolation
  else Ok ({[wi_attempt_id it]} ∪ ids, {[(wi_id it, wi_attempt_number it)]} ∪ numbers).

(** The loop over archived attempts: completed, and older than the current one. *)
Definition validate_archived (w : Workflow) (_ : unit) (archived : WorkItem) : WResult unit :=
  let? current := map_err (fun _ => IntegrityViolation) (item w (wi_id archived)) in
  if (wi_state archived != Completed)
     || is_none (wi_completed_at archived)
     || (wi_attempt_number current <=? wi_attempt_number archived)
     || (wi_revision current <=? wi_revision archived)
  then Err IntegrityViolation
  else Ok tt.

(** The loop over responsibility periods: at most one open period per attempt, matching its
    pointer. *)
Definition validate_period (w : Workflow) (open : gset Uuid) (record : WorkAssignmentRecord)
    : WResult (gset Uuid) :=
  if is_some (war_ended_at record) then Ok open
  else
    let? current :=
      ok_or (find (fun it => wi_attempt_id it == war_attempt_id record) (current_items w))
        IntegrityViolation in
    if bool_decide (war_attempt_id record ∈ open)
       || (wi_id current != war_task_id record)
       || (wi_work_assignment_id current != Some (war_id record))
       || (wi_assignee current != Some (war_principal record))
       || (wi_acting_assignment_id current != Some (war_acting_assignment_id record))
    then Err IntegrityViolation
    else Ok ({[war_attempt_id record]} ∪ open).

Section Integrity.
Context {X : Externals}.

Definition validate_integrity (w : Workflow) : WResult unit :=
  let? plan := plan w in
  if (wf_context_id w != cf_context_id plan)
     || (wi_id (wf_source w) != cf_source_task_id plan)
     || negb (contains (cf_accepted_definitions plan) (wf_definition_version_id w))
     || is_some_and (wf_next w)
          (fun it => (wi_id it != cf_next_task_id plan) || (wi_step_id it != cf_next_step_id plan))
     || existsb
          (fun it => is_some_and (wi_due_at it) (fun due => is_err (parse_instant due)))
          (all_attempts w)
  then Err IntegrityViolation
  else
    try? for_each (validate_attempt w) (∅, ∅) (all_attempts w) in
    try? for_each (validate_archived w) tt (wf_completed_attempts w) in
    try? for_each (validate_period w) ∅ (wf_assignments w) in
    try? validate_agent_integrity w in
    try? validate_candidate_integrity w in
    Ok tt.

(** context.rs [from_fixture]: a fresh fixture instance. *)
Definition from_fixture (fixture : ContextFixture) (document_id : option Uuid)
    (seeded_at : Instant) : WResult Workflow :=
  let w := synthetic document_id in
  if cf_workflow_id fixture == WORKFLOW_ID then Ok w
  else
    let w := set_wf_id (cf_workflow_id fixture) w in
    let w := set_wf_context_id (cf_context_id fixture) w in
    let w := set_wf_definition_version_id (cf_definition_version_id fixture) w in
    let it := wf_source w in
    let it := set_wi_id (cf_source_task_id fixture) it in
    let it := set_wi_workflow_instance_id (cf_workflow_id fixture) it in
    let it := set_wi_attempt_id (cf_source_attempt_id fixture) it in
    let? created_at := format_instant seeded_at in
    let it := set_wi_created_at created_at it in
    let? it :=
      match cf_start fixture with
      | ReadyDueInMinutes m =>
          let? due_at := format_instant (seeded_at + minutes m) in
          Ok (set_wi_due_at (Some due_at)
                (set_wi_work_assignment_id None
                   (set_wi_acting_assignment_id None
                      (set_wi_assignee None (set_wi_state Ready it)))))
      | AssignedToSales => Ok it
      end in
    let w := set_wf_source it w in
    try? validate_integrity w in
    Ok w.

End Integrity.
