(* ===== verification/Files.v ===== *)
(** * Files: private work files and explicit import of a returned submission (files.rs). *)
From stdpp Require Import base gmap sets list strings.
From Stdlib Require Import ZArith Lia.
From S2P Require Import Prelude WorkTypes WorkSetters Text Externals Principals Organization.
From S2P Require Import Context WorkflowReads Evidence.

Local Open Scope Z_scope.

(** Server verification of stored generations for one commit. *)
Definition attach_verified_generations (w : Workflow) (ids : gset Uuid) : Workflow :=
  set_wf_authority (set_auth_generations (Receipts_Verified ids) (wf_authority w)) w.

Definition defer_generation_receipts (w : Workflow) : Workflow :=
  set_wf_authority (set_auth_generations Receipts_Deferred (wf_authority w)) w.

(** context.rs [attach_acknowledgements]. *)
Definition attach_acknowledgements (w : Workflow) (actor : VerifiedActor) (ids : gset Uuid)
    : Workflow :=
  set_wf_authority (set_auth_acknowledged (Some (actor, ids)) (wf_authority w)) w.

Definition generation_verified (w : Workflow) (id : Uuid) : bool :=
  match auth_generations (wf_authority w) with
  | Receipts_None => false
  | Receipts_Deferred => true
  | Receipts_Verified ids => bool_decide (id ∈ ids)
  end.

(** Draft edits exist only on the active source attempt. *)
Definition editable_source (w : Workflow) (task_id : Uuid) : WResult unit :=
  if (task_id != wi_id (wf_source w)) || (wi_state (wf_source w) != Active)
  then Err HandoffNotReady
  else Ok tt.

Definition attempt_artifact_count (w : Workflow) : Z :=
  count (fun value => wa_attempt_id value == wi_attempt_id (wf_source w)) (wf_artifacts w).

Definition bump_source (w : Workflow) : WResult Workflow :=
  let? it := bump (wf_source w) in
  Ok (set_wf_source it w).

Section Files.
Context {X : Externals}.

Definition artifact_file (w : Workflow) (actor : VerifiedActor) (id : Uuid) : WResult WorkFile :=
  let? artifact := artifact w actor id in
  let? file := ok_or (wa_file artifact) WorkArtifactNotFound in
  if is_none (wk_generation file) then Err HandoffNotReady else Ok file.

Definition snapshot_file (w : Workflow) (actor : VerifiedActor) (snapshot_id artifact_id : Uuid)
    : WResult WorkFile :=
  let? s := snapshot w actor snapshot_id in
  ok_or
    (opt_filter (fun file => is_some (wk_generation file))
       (value ← find (fun value => pa_artifact_id value == artifact_id) (hs_artifacts s);
        pa_file value))
    WorkArtifactNotFound.

(** The arms of [apply_files]. *)
Definition create_file_artifact (w : Workflow) (actor : VerifiedActor) (task_id : Uuid)
    (file_name media_type : string) (new_id : Uuid) : WResult (Workflow * MutationResult) :=
  try? editable_source w task_id in
  if negb (valid_file_name file_name) || negb (valid_media_type media_type)
  then Err ValidationFailed
  else if MAX_ARTIFACTS <=? attempt_artifact_count w then Err ValidationFailed
  else
    let artifact :=
      {| wa_id := new_id;
         wa_task_id := task_id;
         wa_attempt_id := wi_attempt_id (wf_source w);
         wa_revision := 0;
         wa_schema_id := FILE_SCHEMA_ID;
         wa_value := None;
         wa_visibility := "work_item_private";
         wa_file := Some {| wk_file_name := file_name; wk_media_type := media_type;
                            wk_generation := None |};
         wa_derived_from := None |} in
    let w := set_wf_artifacts (wf_artifacts w ++ [artifact]) w in
    let? w := bump_source w in
    Ok (w, MR_ArtifactCreated (summary w actor (wf_source w)) artifact).

(** The record [write_artifact_content] stores: a new generation and the next revision. *)
Definition written_artifact (value : WorkingArtifact) (generation : GenerationInput)
    (now : string) : WResult WorkingArtifact :=
  let? file := ok_or (wa_file value) ValidationFailed in
  let file :=
    set_wk_generation
      (Some {| fg_id := gi_id generation; fg_size_bytes := gi_size_bytes generation;
               fg_sha256 := gi_sha256 generation; fg_stored_at := now;
               fg_provider_id := WORK_ARTIFACT_PROVIDER_ID |}) file in
  let? revision := ok_or (checked_add_i64 (wa_revision value) 1) IntegrityViolation in
  Ok (set_wa_revision revision (set_wa_file (Some file) value)).

Definition write_artifact_content (w : Workflow) (actor : VerifiedActor)
    (task_id artifact_id : Uuid) (context : CommandContext) (expected_artifact_revision : Z)
    (generation : GenerationInput) (now : string) : WResult (Workflow * MutationResult) :=
  try? editable_source w task_id in
  if (gi_id generation != cc_operation_id context)
     || (gi_size_bytes generation =? 0)
     || (MAX_FILE_BYTES <? gi_size_bytes generation)
     || negb (valid_sha256 (gi_sha256 generation))
  then Err ValidationFailed
  else
    let attempt := wi_attempt_id (wf_source w) in
    let p value := (wa_id value == artifact_id) && (wa_attempt_id value == attempt) in
    let? value := ok_or (find p (wf_artifacts w)) WorkArtifactNotFound in
    if wa_revision value != expected_artifact_revision then Err RevisionConflict
    else
      let? value := written_artifact value generation now in
      let w := set_wf_artifacts (update_first p (fun _ => value) (wf_artifacts w)) w in
      let? w := bump_source w in
      Ok (w, MR_ArtifactContentWritten (summary w actor (wf_source w)) value).

Definition discard_artifact (w : Workflow) (actor : VerifiedActor) (task_id artifact_id : Uuid)
    (expected_artifact_revision : Z) : WResult (Workflow * MutationResult) :=
  try? editable_source w task_id in
  let attempt := wi_attempt_id (wf_source w) in
  let p value := (wa_id value == artifact_id) && (wa_attempt_id value == attempt) in
  let? value := ok_or (find p (wf_artifacts w)) WorkArtifactNotFound in
  if wa_revision value != expected_artifact_revision then Err RevisionConflict
  else
    let w := set_wf_artifacts (remove_first p (wf_artifacts w)) w in
    let? w := bump_source w in
    Ok (w, MR_ArtifactDiscarded (summary w actor (wf_source w)) artifact_id).

(** The draft a pinned artifact is imported as: the same immutable generation is referenced. *)
Definition imported_artifact (task_id attempt snapshot_id : Uuid) (id : Uuid)
    (pinned : PinnedArtifact) : WorkingArtifact :=
  {| wa_id := id;
     wa_task_id := task_id;
     wa_attempt_id := attempt;
     wa_revision := 0;
     wa_schema_id := pa_schema_id pinned;
     wa_value := pa_value pinned;
     wa_visibility := "work_item_private";
     wa_file := pa_file pinned;
     wa_derived_from := Some {| df_snapshot_id := snapshot_id;
                                df_artifact_id := pa_artifact_id pinned |} |}.

Definition import_submission (w : Workflow) (actor : VerifiedActor)
    (task_id expected_attempt_id snapshot_id : Uuid) (fresh : nat -> Uuid)
    : WResult (Workflow * MutationResult) :=
  try? editable_source w task_id in
  if wi_attempt_id (wf_source w) != expected_attempt_id then Err RevisionConflict
  else if is_none (wi_return_instruction_id (wf_source w)) then Err HandoffNotReady
  else
    let? s := snapshot w actor snapshot_id in
    if (wi_handoff_snapshot_id (wf_source w) != Some (hs_id s))
       || (hs_source_task_id s != wi_id (wf_source w))
    then Err WorkArtifactNotFound
    else
      let attempt := wi_attempt_id (wf_source w) in
      if existsb
           (fun value => (wa_attempt_id value == attempt)
                         && is_some_and (wa_derived_from value)
                              (fun from => df_snapshot_id from == hs_id s))
           (wf_artifacts w)
         || (MAX_ARTIFACTS <? attempt_artifact_count w + len (hs_artifacts s))
      then Err ValidationFailed
      else
        let imported :=
          imap (fun i pinned => imported_artifact task_id attempt (hs_id s) (fresh i) pinned)
            (hs_artifacts s) in
        let w := set_wf_artifacts (wf_artifacts w ++ imported) w in
        let? w := bump_source w in
        Ok (w, MR_SubmissionImported (summary w actor (wf_source w)) imported).

Definition apply_files (w : Workflow) (actor : VerifiedActor) (command : Command)
    (now : string) (fresh : nat -> Uuid) : WResult (Workflow * MutationResult) :=
  match command with
  | CreateFileArtifact task_id _ file_name media_type =>
      create_file_artifact w actor task_id file_name media_type (fresh 0%nat)
  | WriteArtifactContent task_id artifact_id context expected generation =>
      write_artifact_content w actor task_id artifact_id context expected generation now
  | DiscardArtifact task_id artifact_id _ expected =>
      discard_artifact w actor task_id artifact_id expected
  | ImportSubmission task_id _ expected_attempt_id snapshot_id =>
      import_submission w actor task_id expected_attempt_id snapshot_id fresh
  | _ => Err IntegrityViolation
  end.

End Files.
