(* ===== verification/AgentRun.v ===== *)
(** * AgentRun: the life cycle of agent executions (agent.rs)

    Requests and cancellations, dispatch, completion, failure and interruption, and the
    invalidation of executions whose work context has moved on. *)
From stdpp Require Import base gmap sets list strings.
From Stdlib Require Import ZArith Lia.
From S2P Require Import Prelude WorkTypes WorkSetters Text Externals Principals Organization.
From S2P Require Import Context WorkflowReads Evidence Agent Integrity.

Local Open Scope Z_scope.

(** ** Stored executions *)

(** An active execution whose context revision, attempt, task revision or task state moved. *)
Definition stale_execution (w : Workflow) (e : AgentExecution) : bool :=
  is_active (ae_status e)
  && ((ae_effective_context_revision e != wf_revision w)
      || is_none_or (ok (item w (ae_work_item_id e)))
           (fun it => (wi_attempt_id it != ae_attempt_id e)
                      || (wi_revision it != ae_task_revision e)
                      || (wi_state it != Active))).

(** The update of one stale execution. *)
Definition mark_stale (now : string) (e : AgentExecution) : AgentExecution :=
  set_ae_ended_at (Some now)
    (set_ae_failure_code (Some Code_ContextStale) (set_ae_status Failed e)).

(** [executions.iter_mut().find(|e| e.id == id).ok_or(IntegrityViolation)?] and an update. *)
Definition update_execution (f : AgentExecution -> AgentExecution) (w : Workflow) (id : Uuid)
    : WResult Workflow :=
  try? ok_or (find (fun e => ae_id e == id) (wf_agent_executions w)) IntegrityViolation in
  Ok (set_wf_agent_executions
        (update_first (fun e => ae_id e == id) f (wf_agent_executions w)) w).

Definition invalidate_agent_contexts (w : Workflow) (now : string) : WResult Workflow :=
  let stale := map ae_id (List.filter (stale_execution w) (wf_agent_executions w)) in
  for_each (update_execution (mark_stale now)) w stale.

(** The status a failure code ends an execution with. *)
Definition failure_status (code : AgentFailureCode) : AgentExecutionStatus :=
  match code with
  | Code_Interrupted | Code_CommitOutcomeUnknown => OutcomeUnknown
  | _ => Failed
  end.

(** [fail_agent_execution] assigns through [&mut self] before the revision is checked, so the
    aggregate after an error is part of the result. *)
Definition fail_agent_execution (w : Workflow) (actor : VerifiedActor) (id : Uuid)
    (code : AgentFailureCode) (now : string) : Workflow * WResult AgentExecution :=
  let p e := (ae_id e == id) && (ae_requested_by e == actor) in
  match find p (wf_agent_executions w) with
  | None => (w, Err WorkItemNotFound)
  | Some e =>
      if is_active (ae_status e) then
        let e := set_ae_status (failure_status code) e in
        let e := set_ae_failure_code (Some code) e in
        let e := set_ae_ended_at (Some now) e in
        let w := set_wf_agent_executions
                   (update_first p (fun _ => e) (wf_agent_executions w)) w in
        match checked_add_i64 (wf_revision w) 1 with
        | Some revision => (set_wf_revision revision w, Ok e)
        | None => (w, Err IntegrityViolation)
        end
      else (w, Ok e)
  end.

(** The loop of [interrupt_agent_executions]; it stops at the first error. *)
Fixpoint interrupt_each (w : Workflow) (actor : VerifiedActor) (now : string) (ids : list Uuid)
    : Workflow * WResult unit :=
  match ids with
  | [] => (w, Ok tt)
  | id :: ids =>
      match fail_agent_execution w actor id Code_Interrupted now with
      | (w, Ok _) => interrupt_each w actor now ids
      | (w, Err e) => (w, Err e)
      end
  end.

Definition interrupt_agent_executions (w : Workflow) (actor : VerifiedActor) (now : string)
    : Workflow * WResult Z :=
  let ids :=
    map ae_id
      (List.filter (fun e => (ae_requested_by e == actor) && is_active (ae_status e))
         (wf_agent_executions w)) in
  match interrupt_each w actor now ids with
  | (w, Ok _) => (w, Ok (len ids))
  | (w, Err e) => (w, Err e)
  end.

Section AgentRun.
Context {X : Externals}.

(** ** Commands *)

(** The arm of [RequestAgentExecution]. *)
Definition request_agent_execution (w : Workflow) (actor : VerifiedActor) (task_id : Uuid)
    (it : WorkItem) (context : CommandContext) (expected_attempt_id : Uuid) (purpose : string)
    (evidence_revision_refs : list RevisionRef) (now : string)
    : WResult (Workflow * MutationResult) :=
  try? bounded_text purpose in
  if wi_state it != Active then Err HandoffNotReady
  else if wi_attempt_id it != expected_attempt_id then Err RevisionConflict
  else if is_empty evidence_revision_refs
          || (MAX_AGENT_EXECUTIONS <? len evidence_revision_refs)
          || (MAX_AGENT_EXECUTIONS
                <=? count (fun e => (ae_work_item_id e == task_id)
                                    && (ae_attempt_id e == wi_attempt_id it))
                      (wf_agent_executions w))
  then Err ValidationFailed
  else if existsb (fun e => (ae_work_item_id e == task_id) && is_active (ae_status e))
            (wf_agent_executions w)
  then Err WorkAssignmentConflict
  else
    try? validate_selection w actor task_id evidence_revision_refs [] [] in
    let? w := next_record_revision w task_id in
    let? context_revision := ok_or (checked_add_i64 (wf_revision w) 1) IntegrityViolation in
    let? current := item w task_id in
    let execution :=
      {| ae_id := cc_operation_id context;
         ae_context_id := wf_context_id w;
         ae_work_item_id := task_id;
         ae_attempt_id := wi_attempt_id it;
         ae_requested_by := actor;
         ae_requester_responsibility := cc_acting_assignment_id context;
         ae_executed_by := SYNTHETIC_EXECUTOR;
         ae_executor_invocation_kind := "agent";
         ae_provider_principal_bindings := document_binding;
         ae_effective_context_revision := context_revision;
         ae_task_revision := wi_revision current;
         ae_purpose := purpose;
         ae_evidence_revision_refs := evidence_revision_refs;
         ae_status := Queued;
         ae_started_at := now;
         ae_ended_at := None;
         ae_result := None;
         ae_failure_code := None |} in
    let w := set_wf_agent_executions (wf_agent_executions w ++ [execution]) w in
    let? it := item w task_id in
    Ok (w, MR_AgentExecutionRequested (summary w actor it) execution).

(** The update of a cancelled execution. *)
Definition mark_cancelled (now : string) (revision : Z) (e : AgentExecution) : AgentExecution :=
  set_ae_task_revision revision
    (set_ae_ended_at (Some now) (set_ae_status Cancelled e)).

(** The arm of [CancelAgentExecution]. *)
Definition cancel_agent_execution (w : Workflow) (actor : VerifiedActor) (task_id : Uuid)
    (it : WorkItem) (expected_attempt_id execution_id : Uuid) (now : string)
    : WResult (Workflow * MutationResult) :=
  let? e := agent_execution w actor execution_id in
  if (wi_attempt_id it != expected_attempt_id) || (ae_work_item_id e != task_id)
  then Err RevisionConflict
  else
    let? w :=
      if is_active (ae_status e) then
        let? w := next_record_revision w task_id in
        let? current := item w task_id in
        update_execution (mark_cancelled now (wi_revision current)) w execution_id
      else Ok w in
    let? it := item w task_id in
    let? e := agent_execution w actor execution_id in
    Ok (w, MR_AgentExecutionCancelled (summary w actor it) e).

Definition apply_agent (w : Workflow) (actor : VerifiedActor) (command : Command)
    (now : string) : WResult (Workflow * MutationResult) :=
  let task_id := command_task_id command in
  let? it := item w task_id in
  match command with
  | RequestAgentExecution _ context expected_attempt_id purpose refs =>
      request_agent_execution w actor task_id it context expected_attempt_id purpose refs now
  | CancelAgentExecution _ _ expected_attempt_id execution_id =>
      cancel_agent_execution w actor task_id it expected_attempt_id execution_id now
  | _ => Err IntegrityViolation
  end.

(** ** Dispatch, run on a copy that replaces the aggregate on success *)

Definition mark_running (now : string) (revision : Z) (e : AgentExecution) : AgentExecution :=
  set_ae_effective_context_revision revision
    (set_ae_started_at now (set_ae_status Running e)).

(** The body of [start_agent_execution]; [Ok None] leaves the aggregate as it is. *)
Definition try_start (w : Workflow) (actor : VerifiedActor) (id : Uuid) (now : string)
    : WResult (Workflow * option AgentDispatchContext) :=
  let? e := agent_execution w actor id in
  if ae_status e != Queued then Ok (w, None)
  else
    let? it := item w (ae_work_item_id e) in
    if (wi_state it != Active)
       || (ae_task_revision e != wi_revision it)
       || (ae_effective_context_revision e != wf_revision w)
    then Err WorkContextStale
    else
      let? revision := ok_or (checked_add_i64 (wf_revision w) 1) IntegrityViolation in
      let next := set_wf_revision revision w in
      let? next := update_execution (mark_running now revision) next id in
      let? context := build_agent_context next actor id in
      Ok (next, Some context).

Definition start_agent_execution (w : Workflow) (actor : VerifiedActor) (id : Uuid)
    (now : string) : Workflow * WResult (option AgentDispatchContext) :=
  commit w (try_start w actor id now).

(** ** Completion *)

(** Recording the finding of an output, when it has one. *)
Definition finish_finding (w : Workflow) (context : AgentDispatchContext) (output : AgentOutput)
    (now : string) (new_id : Uuid) : WResult (Workflow * option RevisionRef) :=
  match ao_finding output with
  | Some candidate =>
      let? finding :=
        create_finding w (ae_requested_by (adc_execution context))
          (ae_work_item_id (adc_execution context)) (afc_claim candidate)
          (afc_evidence_revision_refs candidate) None (Some (ae_id (adc_execution context))) now
          new_id in
      let finding := set_fi_uncertainty (ao_uncertainty output) finding in
      Ok (set_wf_findings (wf_findings w ++ [finding]) w, Some (finding_ref finding))
  | None => Ok (w, None)
  end.

(** The result of a finished execution: always simulated, never analysed or live. *)
Definition finished_result (context : AgentDispatchContext) (output : AgentOutput)
    (finding : option RevisionRef) (generated suggested : list Uuid) : AgentResult :=
  {| agr_summary := ao_summary output;
     agr_finding_revision_refs := opt_to_list finding;
     agr_evidence_revision_refs := ae_evidence_revision_refs (adc_execution context);
     agr_uncertainty := ao_uncertainty output;
     agr_simulated := true;
     agr_body_analyzed := false;
     agr_live_llm := false;
     agr_mcp_wire_executed := false;
     agr_source_outcomes := ao_source_outcomes output;
     agr_generated_artifact_ids := generated;
     agr_suggested_action_ids := suggested |}.

Definition mark_succeeded (now : string) (result : AgentResult) (revision : Z)
    (e : AgentExecution) : AgentExecution :=
  set_ae_task_revision revision
    (set_ae_ended_at (Some now) (set_ae_result (Some result) (set_ae_status Succeeded e))).

(** The body of [finish_agent_execution]; [fresh] gives the identifiers in the order they are
    drawn, the finding's first. *)
Definition try_finish (w : Workflow) (context : AgentDispatchContext) (output : AgentOutput)
    (now : string) (fresh : nat -> Uuid) : WResult (Workflow * AgentExecution) :=
  try? validate_scope context in
  let actor := ae_requested_by (adc_execution context) in
  let id := ae_id (adc_execution context) in
  let? built := build_agent_context w actor id in
  if built != context then Err WorkContextStale
  else
    try? validate_output output context in
    let task := ae_work_item_id (adc_execution context) in
    let? '(next, finding) := finish_finding w context output now (fresh 0%nat) in
    let drawn := if is_some finding then 1%nat else 0%nat in
    let? '(next, (generated, suggested)) :=
      record_candidates next context output finding now (fun i => fresh (drawn + i)%nat) in
    let result := finished_result context output finding generated suggested in
    let? next := next_record_revision next task in
    let? revision := ok_or (checked_add_i64 (wf_revision next) 1) IntegrityViolation in
    let next := set_wf_revision revision next in
    let? it := item next task in
    let? next := update_execution (mark_succeeded now result (wi_revision it)) next id in
    let? done :=
      ok_or (find (fun e => ae_id e == id) (wf_agent_executions next)) IntegrityViolation in
    try? validate_integrity next in
    Ok (next, done).

Definition finish_agent_execution (w : Workflow) (context : AgentDispatchContext)
    (output : AgentOutput) (now : string) (fresh : nat -> Uuid)
    : Workflow * WResult AgentExecution :=
  commit w (try_finish w context output now fresh).

End AgentRun.
