(* ===== verification/Commands.v ===== *)
(** * Commands: authorization and application of the Human commands (lib.rs)

    [authorize_command] mediates every command, [apply_validated] is the state machine of the
    two-step workflow and [apply] the transaction around it: it works on a copy and replaces
    the aggregate only when every check has passed.  [fresh i] is the identifier the [i]-th
    call of [Uuid::now_v7()] returns. *)
From stdpp Require Import base gmap sets list strings.
From Stdlib Require Import ZArith Lia.
From S2P Require Import Prelude WorkTypes WorkSetters Text Externals Principals Organization.
From S2P Require Import Context WorkflowReads Evidence Agent Integrity Files AgentRun.

Local Open Scope Z_scope.

(** [MutationResult::is_policy]. *)
Definition is_policy (r : MutationResult) : bool :=
  match r with
  | MR_RoleAssignmentCreated _ _ | MR_RoleAssignmentRevoked _ _ => true
  | MR_DelegationCreated _ _ | MR_DelegationRevoked _ _ => true
  | _ => false
  end.

(** [self.history.push(HistoryEntry { kind, occurred_at })]. *)
Definition push_history (kind now : string) (w : Workflow) : Workflow :=
  set_wf_history (wf_history w ++ [ {| he_kind := kind; he_occurred_at := now |} ]) w.

(** A responsibility period ends with its attempt. *)
Definition open_attempts (w : Workflow) : list Uuid :=
  map wi_attempt_id (List.filter (fun it => wi_state it != Completed) (current_items w)).

Definition close_record (open : list Uuid) (now : string) (record : WorkAssignmentRecord)
    : WorkAssignmentRecord :=
  if is_none (war_ended_at record) && negb (contains open (war_attempt_id record))
  then set_war_ended_at (Some now) record
  else record.

Definition close_finished_assignments (w : Workflow) (now : string) : Workflow :=
  set_wf_assignments (map (close_record (open_attempts w) now) (wf_assignments w)) w.

Section Commands.
Context {X : Externals}.

(** ** Authorization *)

(** Commands on an assigned attempt use exactly its recorded acting responsibility. *)
Definition authorize_assigned (w : Workflow) (actor : VerifiedActor) (it : WorkItem)
    (acting : Uuid) (action : PolicyAction) : WResult unit :=
  if negb (can_read w actor it) then Err WorkItemNotFound
  else if (wi_acting_assignment_id it != Some acting)
          || is_none (step_responsibility w actor acting it action)
  then Err Forbidden
  else Ok tt.

(** [hidden]: forbidden when the item is disclosed, not found otherwise. *)
Definition hidden (visible : bool) : WorkError :=
  if visible then Forbidden else WorkItemNotFound.

(** The artifact of a command belongs to its task. *)
Definition artifact_of_task (w : Workflow) (actor : VerifiedActor) (it : WorkItem) (id : Uuid)
    : WResult unit :=
  let? artifact := artifact w actor id in
  if wa_task_id artifact != wi_id it then Err WorkArtifactNotFound else Ok tt.

Definition authorize_command (w : Workflow) (actor : VerifiedActor) (command : Command)
    : WResult unit :=
  try? authorize_context (command_context command) actor in
  let acting := cc_acting_assignment_id (command_context command) in
  let? responsibility :=
    ok_or (Policy.responsibility (policy w) actor acting (evaluated_at w)) Forbidden in
  let? it := item w (command_task_id command) in
  let action := required_action command in
  match command with
  | Claim _ _ =>
      if (step_role it != Some (rs_role_id responsibility)) || negb (allows responsibility action)
      then Err (hidden (visible w actor it))
      else Ok tt
  | Assign _ _ _ assignee _ _ =>
      if negb (allows responsibility action) then Err (hidden (visible w actor it))
      else if assignee == actor then Err Forbidden
      else Ok tt
  | SaveDraft _ artifact_id _ _ =>
      try? authorize_assigned w actor it acting action in
      match artifact_id with
      | Some id => artifact_of_task w actor it id
      | None => Ok tt
      end
  | WriteArtifactContent _ artifact_id _ _ _ | DiscardArtifact _ artifact_id _ _ =>
      try? authorize_assigned w actor it acting action in
      artifact_of_task w actor it artifact_id
  | _ => authorize_assigned w actor it acting action
  end.

(** Reading the receipt of a committed command back. *)
Definition authorize_recovery (w : Workflow) (actor : VerifiedActor) (result : MutationResult)
    : WResult unit :=
  match result with
  | MR_AgentExecutionRequested _ execution | MR_AgentExecutionCancelled _ execution =>
      try? agent_execution w actor (ae_id execution) in Ok tt
  | MR_EvidenceRegistered _ evidence => try? evidence_record w actor (ev_id evidence) in Ok tt
  | MR_FindingRegistered _ value => try? finding w actor (fi_id value) in Ok tt
  | MR_DecisionRecorded _ value => try? decision w actor (hd_id value) in Ok tt
  | MR_Returned _ instruction _ =>
      try? return_instruction w actor (ri_id instruction) in Ok tt
  | MR_DraftSaved _ value | MR_ArtifactCreated _ value | MR_ArtifactContentWritten _ value =>
      try? artifact w actor (wa_id value) in Ok tt
  | MR_ArtifactDiscarded task _ => try? detail w actor (ts_id task) in Ok tt
  | MR_SubmissionImported _ artifacts =>
      for_each (fun _ value => try? artifact w actor (wa_id value) in Ok tt) tt artifacts
  | MR_Held task | MR_Resumed task | MR_Claimed task | MR_Completed task =>
      try? detail w actor (ts_id task) in Ok tt
  | MR_Submitted _ value _ => try? snapshot w actor (hs_id value) in Ok tt
  | MR_Assigned task _ =>
      let? it := item w (ts_id task) in
      if is_none (assigning_in w actor None) && negb (can_read w actor it)
      then Err WorkItemNotFound
      else Ok tt
  | MR_RoleAssignmentCreated _ _ | MR_RoleAssignmentRevoked _ _
  | MR_DelegationCreated _ _ | MR_DelegationRevoked _ _ => Err IntegrityViolation
  end.

(** evidence.rs [result_evidence]: the evidence a receipt discloses. *)
Definition push_missing (refs : list RevisionRef) (r : RevisionRef) : list RevisionRef :=
  if contains refs r then refs else refs ++ [r].

Definition result_evidence (w : Workflow) (actor : VerifiedActor) (result : MutationResult)
    : WResult (list EvidenceRecord) :=
  try? authorize_recovery w actor result in
  match result with
  | MR_AgentExecutionRequested _ execution | MR_AgentExecutionCancelled _ execution =>
      resolve_evidence w actor (ae_evidence_revision_refs execution)
  | MR_EvidenceRegistered _ evidence =>
      let? e := evidence_record w actor (ev_id evidence) in Ok [e]
  | MR_FindingRegistered _ value =>
      resolve_evidence w actor (fi_evidence_revision_refs value)
  | MR_DecisionRecorded _ value =>
      let? f := finding w actor (hd_finding_id value) in
      resolve_evidence w actor
        (fold_left push_missing (hd_evidence_revision_refs value)
           (fi_evidence_revision_refs f))
  | MR_Submitted _ value _ => snapshot_evidence w actor (hs_id value)
  | _ => Ok []
  end.

(** ** The arms of [apply_validated] *)

Definition apply_hold_resume (w : Workflow) (actor : VerifiedActor)
    (task_id expected_attempt_id definition_action_id : Uuid) (resume : bool) (now : string)
    : WResult (Workflow * MutationResult) :=
  let? it := item w task_id in
  if wi_attempt_id it != expected_attempt_id then Err RevisionConflict
  else if pause_action w actor it resume != Some definition_action_id then Err HandoffNotReady
  else
    let? it := item_mut w task_id IntegrityViolation in
    let? it := bump (set_wi_state (if resume then Active else Held) it) in
    let w := put_item w task_id it in
    let w := push_history (if resume then "resumed" else "held") now w in
    let? it := item w task_id in
    let task := summary w actor it in
    Ok (w, if resume then MR_Resumed task else MR_Held task).

Definition apply_complete (w : Workflow) (actor : VerifiedActor)
    (task_id expected_attempt_id definition_action_id : Uuid) (now : string)
    : WResult (Workflow * MutationResult) :=
  let? it := item w task_id in
  if wi_attempt_id it != expected_attempt_id then Err RevisionConflict
  else if completion_action w actor it != Some definition_action_id then Err HandoffNotReady
  else
    let? it := ok_or (wf_next w) IntegrityViolation in
    let? it := bump (set_wi_completed_at (Some now) (set_wi_state Completed it)) in
    let w := push_history "completed" now (set_wf_next (Some it) w) in
    let? it := item w task_id in
    Ok (w, MR_Completed (summary w actor it)).

(** The new attempt of the source task a return opens. *)
Definition returned_source (w : Workflow) (instruction_id target_attempt_id
    previous_submission_id : Uuid) (now : string) : WResult WorkItem :=
  let source := wf_source w in
  let? attempt_number :=
    ok_or (checked_add_u32 (wi_attempt_number source) 1) IntegrityViolation in
  let? revision := ok_or (checked_add_i64 (wi_revision source) 1) IntegrityViolation in
  Ok {| wi_return_instruction_id := Some instruction_id;
        wi_due_at := None;
        wi_id := wi_id source;
        wi_workflow_instance_id := wf_id w;
        wi_step_id := wi_step_id source;
        wi_work_type_id := wi_work_type_id source;
        wi_attempt_number := attempt_number;
        wi_work_assignment_id := None;
        wi_acting_assignment_id := None;
        wi_created_at := now;
        wi_completed_at := None;
        wi_attempt_id := target_attempt_id;
        wi_revision := revision;
        wi_state := Ready;
        wi_assignee := None;
        wi_handoff_snapshot_id := Some previous_submission_id |}.

Definition apply_return (w : Workflow) (actor : VerifiedActor) (task_id : Uuid)
    (context : CommandContext) (expected_attempt_id previous_submission_id target_task_id
    transition_id : Uuid) (reason now : string) (fresh : nat -> Uuid)
    : WResult (Workflow * MutationResult) :=
  let? it := item w task_id in
  if wi_attempt_id it != expected_attempt_id then Err RevisionConflict
  else if is_empty (trim reason) || (MAX_TEXT_BYTES <? str_len reason)
  then Err ValidationFailed
  else
    let? permitted := ok_or (return_transition w actor it) HandoffNotReady in
    if (rt_transition_id permitted != transition_id)
       || (rt_target_task_id permitted != target_task_id)
       || (rt_previous_submission_id permitted != previous_submission_id)
    then Err HandoffNotReady
    else
      let target_attempt_id := fresh 0%nat in
      let instruction :=
        {| ri_id := fresh 1%nat;
           ri_workflow_id := wf_id w;
           ri_context_id := wf_context_id w;
           ri_source_task_id := task_id;
           ri_source_attempt_id := wi_attempt_id it;
           ri_target_task_id := target_task_id;
           ri_target_attempt_id := target_attempt_id;
           ri_previous_submission_id := previous_submission_id;
           ri_transition_id := transition_id;
           ri_reason := reason;
           ri_returned_by := principal_id actor;
           ri_acting_assignment_id := cc_acting_assignment_id context;
           ri_created_at := now |} in
      let w := set_wf_completed_attempts (wf_completed_attempts w ++ [wf_source w]) w in
      let? source :=
        returned_source w (ri_id instruction) target_attempt_id previous_submission_id now in
      let w := set_wf_source source w in
      let? office := ok_or (wf_next w) IntegrityViolation in
      let? office := bump (set_wi_completed_at (Some now) (set_wi_state Completed office)) in
      let office := set_wi_return_instruction_id (Some (ri_id instruction)) office in
      let w := set_wf_next (Some office) w in
      let w := set_wf_return_instructions (wf_return_instructions w ++ [instruction]) w in
      let w := push_history "returned" now w in
      let? it := item w task_id in
      Ok (w, MR_Returned (summary w actor it) instruction (summary w actor (wf_source w))).

(** Saving text over an existing artifact, or as a new one. *)
Definition save_existing (w : Workflow) (id : Uuid) (value : TextValue)
    : WResult (Workflow * WorkingArtifact) :=
  let p a := wa_id a == id in
  let? artifact := ok_or (find p (wf_artifacts w)) WorkArtifactNotFound in
  if wa_schema_id artifact != TEXT_SCHEMA_ID then Err ValidationFailed
  else
    let? revision := ok_or (checked_add_i64 (wa_revision artifact) 1) IntegrityViolation in
    let artifact := set_wa_value (Some value) (set_wa_revision revision artifact) in
    Ok (set_wf_artifacts (update_first p (fun _ => artifact) (wf_artifacts w)) w, artifact).

Definition save_new (w : Workflow) (task_id : Uuid) (value : TextValue) (new_id : Uuid)
    : WResult (Workflow * WorkingArtifact) :=
  if MAX_ARTIFACTS <=? attempt_artifact_count w then Err ValidationFailed
  else
    let artifact :=
      {| wa_id := new_id;
         wa_task_id := task_id;
         wa_attempt_id := wi_attempt_id (wf_source w);
         wa_revision := 0;
         wa_schema_id := TEXT_SCHEMA_ID;
         wa_value := Some value;
         wa_visibility := "work_item_private";
         wa_file := None;
         wa_derived_from := None |} in
    Ok (set_wf_artifacts (wf_artifacts w ++ [artifact]) w, artifact).

Definition apply_save_draft (w : Workflow) (actor : VerifiedActor) (task_id : Uuid)
    (artifact_id : option Uuid) (value : TextValue) (new_id : Uuid)
    : WResult (Workflow * MutationResult) :=
  if (task_id != wi_id (wf_source w)) || (wi_state (wf_source w) != Active)
  then Err HandoffNotReady
  else if is_empty (trim (tv_text value)) || (MAX_TEXT_BYTES <? str_len (tv_text value))
  then Err ValidationFailed
  else
    let? '(w, artifact) :=
      match artifact_id with
      | Some id => save_existing w id value
      | None => save_new w task_id value new_id
      end in
    let? w := bump_source w in
    Ok (w, MR_DraftSaved (summary w actor (wf_source w)) artifact).

Definition apply_claim (w : Workflow) (actor : VerifiedActor) (task_id : Uuid)
    (context : CommandContext) (now : string) (new_id : Uuid)
    : WResult (Workflow * MutationResult) :=
  let? next := item_mut w task_id WorkItemNotFound in
  if (wi_state next != Ready) || is_some (wi_assignee next) then Err WorkAssignmentConflict
  else
    let record :=
      {| war_id := new_id;
         war_task_id := wi_id next;
         war_attempt_id := wi_attempt_id next;
         war_principal := actor;
         war_acting_assignment_id := cc_acting_assignment_id context;
         war_assigned_by := None;
         war_manager_assignment_id := None;
         war_reason := None;
         war_started_at := now;
         war_ended_at := None;
         war_ended_by := None |} in
    let? next :=
      bump (set_wi_acting_assignment_id (Some (war_acting_assignment_id record))
              (set_wi_work_assignment_id (Some (war_id record))
                 (set_wi_assignee (Some actor) (set_wi_state Active next)))) in
    let w := put_item w task_id next in
    let w := set_wf_assignments (wf_assignments w ++ [record]) w in
    let? it := item w task_id in
    let task := summary w actor it in
    Ok (push_history "claimed" now w, MR_Claimed task).

(** Ending the previous open responsibility period of a reassigned attempt. *)
Definition end_previous (previous : option Uuid) (actor : VerifiedActor) (now : string)
    (records : list WorkAssignmentRecord) : list WorkAssignmentRecord :=
  update_first (fun value => (Some (war_id value) == previous) && is_none (war_ended_at value))
    (fun value => set_war_ended_by (Some actor) (set_war_ended_at (Some now) value)) records.

(** The assignee's responsibility for this step is still effective. *)
Definition current_effective (w : Workflow) (it : WorkItem) : bool :=
  match wi_assignee it, wi_acting_assignment_id it with
  | Some principal, Some id => is_some (step_responsibility w principal id it WorkRead)
  | _, _ => false
  end.

Definition apply_assign (w : Workflow) (actor : VerifiedActor) (task_id : Uuid)
    (context : CommandContext) (expected_attempt_id : Uuid) (assignee : VerifiedActor)
    (assignee_responsibility_id : Uuid) (reason now : string) (new_id : Uuid)
    : WResult (Workflow * MutationResult) :=
  try? bounded_reason reason in
  let? it := item w task_id in
  if wi_attempt_id it != expected_attempt_id then Err RevisionConflict
  else if current_effective w it
          && (MAX_ASSIGNMENTS_PER_ATTEMPT
                <=? count (fun record => war_attempt_id record == wi_attempt_id it)
                      (wf_assignments w))
  then Err ValidationFailed
  else if wi_state it == Completed then Err HandoffNotReady
  else if is_none (step_responsibility w assignee assignee_responsibility_id it WorkClaim)
  then Err ValidationFailed
  else if (wi_assignee it == Some assignee)
          && (wi_acting_assignment_id it == Some assignee_responsibility_id)
  then Err ValidationFailed
  else
    let previous := wi_work_assignment_id it in
    let record :=
      {| war_id := new_id;
         war_task_id := wi_id it;
         war_attempt_id := wi_attempt_id it;
         war_principal := assignee;
         war_acting_assignment_id := assignee_responsibility_id;
         war_assigned_by := Some actor;
         war_manager_assignment_id := Some (cc_acting_assignment_id context);
         war_reason := Some reason;
         war_started_at := now;
         war_ended_at := None;
         war_ended_by := None |} in
    let w := set_wf_assignments (end_previous previous actor now (wf_assignments w)) w in
    let? target := item_mut w task_id WorkItemNotFound in
    let target := if wi_state target == Ready then set_wi_state Active target else target in
    let? target :=
      bump (set_wi_acting_assignment_id (Some (war_acting_assignment_id record))
              (set_wi_work_assignment_id (Some (war_id record))
                 (set_wi_assignee (Some assignee) target))) in
    let w := put_item w task_id target in
    let w := set_wf_assignments (wf_assignments w ++ [record]) w in
    let w := push_history "assigned" now w in
    let? it := item w task_id in
    Ok (w, MR_Assigned (summary w actor it) record).

(** ** Submission *)

(** The schema of a selected artifact admits pinning; a file only with a verified generation. *)
Definition pinnable (w : Workflow) (a : WorkingArtifact) : WResult unit :=
  if (wa_schema_id a == TEXT_SCHEMA_ID) && (is_some (wa_value a) && is_none (wa_file a))
  then Ok tt
  else if (wa_schema_id a == FILE_SCHEMA_ID) && is_none (wa_value a) then
    let? generation := ok_or (file ← wa_file a; wk_generation file) HandoffNotReady in
    if negb (generation_verified w (fg_id generation)) then Err WorkArtifactUnavailable
    else Ok tt
  else Err HandoffNotReady.

Definition pin_of (a : WorkingArtifact) : PinnedArtifact :=
  {| pa_artifact_id := wa_id a; pa_revision := wa_revision a; pa_schema_id := wa_schema_id a;
     pa_value := wa_value a; pa_file := wa_file a |}.

(** The loop body over the selection: its state is the set of seen artifacts and the pins. *)
Definition pin_selected (w : Workflow) (actor : VerifiedActor)
    (s : gset Uuid * list PinnedArtifact) (selected : ArtifactSelection)
    : WResult (gset Uuid * list PinnedArtifact) :=
  let '(seen, pinned) := s in
  if bool_decide (sel_artifact_id selected ∈ seen) then Err ValidationFailed
  else
    let? a := artifact w actor (sel_artifact_id selected) in
    if wa_revision a != sel_revision selected then Err RevisionConflict
    else if (wa_task_id a != wi_id (wf_source w))
            || (wa_attempt_id a != wi_attempt_id (wf_source w))
    then Err HandoffNotReady
    else
      try? pinnable w a in
      Ok ({[sel_artifact_id selected]} ∪ seen, pinned ++ [pin_of a]).

(** The submission that is recorded. *)
Definition submission (w : Workflow) (plan : ContextFixture) (actor : VerifiedActor)
    (context : CommandContext) (pinned : list PinnedArtifact)
    (evidence_refs finding_refs decision_refs : list RevisionRef) (now : string) (new_id : Uuid)
    : WResult HandoffSnapshot :=
  let source := wf_source w in
  let? number := ok_or (u32_try_from (len (wf_snapshots w))) IntegrityViolation in
  let? number := ok_or (checked_add_u32 number 1) IntegrityViolation in
  Ok {| hs_evidence_revision_refs := evidence_refs;
        hs_finding_revision_refs := finding_refs;
        hs_decision_revision_refs := decision_refs;
        hs_previous_submission_id :=
          match wi_return_instruction_id source with
          | Some _ => wi_handoff_snapshot_id source
          | None => None
          end;
        hs_return_instruction_id := wi_return_instruction_id source;
        hs_id := new_id;
        hs_workflow_id := wf_id w;
        hs_context_id := wf_context_id w;
        hs_submission_number := number;
        hs_submitted_by := principal_id actor;
        hs_acting_assignment_id := cc_acting_assignment_id context;
        hs_source_task_id := wi_id source;
        hs_source_attempt_id := wi_attempt_id source;
        hs_target_task_id := cf_next_task_id plan;
        hs_created_at := now;
        hs_artifacts := pinned |}.

(** Archiving the previous target attempt, and the numbers of the next one. *)
Definition next_attempt (w : Workflow) (plan : ContextFixture) (new_id : Uuid)
    : WResult (Workflow * (Z * Z * Uuid)) :=
  match wf_next w with
  | Some previous =>
      let w := set_wf_completed_attempts (wf_completed_attempts w ++ [previous]) w in
      let? number := ok_or (checked_add_u32 (wi_attempt_number previous) 1) IntegrityViolation in
      let? revision := ok_or (checked_add_i64 (wi_revision previous) 1) IntegrityViolation in
      Ok (w, (number, revision, new_id))
  | None => Ok (w, (1, 0, cf_next_attempt_id plan))
  end.

(** The ready target attempt of a submission. *)
Definition ready_target (w : Workflow) (plan : ContextFixture) (snapshot_id : Uuid)
    (attempt_number revision : Z) (attempt_id : Uuid) (now : string) : WorkItem :=
  {| wi_return_instruction_id := wi_return_instruction_id (wf_source w);
     wi_due_at := None;
     wi_id := cf_next_task_id plan;
     wi_workflow_instance_id := wf_id w;
     wi_step_id := cf_next_step_id plan;
     wi_work_type_id := cf_next_work_type_id plan;
     wi_attempt_number := attempt_number;
     wi_work_assignment_id := None;
     wi_acting_assignment_id := None;
     wi_created_at := now;
     wi_completed_at := None;
     wi_attempt_id := attempt_id;
     wi_revision := revision;
     wi_state := Ready;
     wi_assignee := None;
     wi_handoff_snapshot_id := Some snapshot_id |}.

(** The source is active, and a target attempt is absent, or completed and resubmittable. *)
Definition submittable (w : Workflow) (task_id : Uuid) : bool :=
  negb ((task_id != wi_id (wf_source w))
        || (wi_state (wf_source w) != Active)
        || is_some_and (wf_next w) (fun it => wi_state it != Completed)
        || (is_some (wf_next w) && negb (returnable w))).

Definition apply_submit (w : Workflow) (actor : VerifiedActor) (task_id : Uuid)
    (context : CommandContext) (artifacts : list ArtifactSelection)
    (expected_attempt_id : option Uuid)
    (evidence_refs finding_refs decision_refs : list RevisionRef) (now : string)
    (fresh : nat -> Uuid) : WResult (Workflow * MutationResult) :=
  if is_some_and expected_attempt_id (fun id => id != wi_attempt_id (wf_source w))
  then Err RevisionConflict
  else
    try? validate_selection w actor task_id evidence_refs finding_refs decision_refs in
    if negb (submittable w task_id) then Err HandoffNotReady
    else if is_empty artifacts || (MAX_ARTIFACTS <? len artifacts) then Err HandoffNotReady
    else
      let? '(_, pinned) := for_each (pin_selected w actor) (∅, []) artifacts in
      let? plan := plan w in
      let? snapshot :=
        submission w plan actor context pinned evidence_refs finding_refs decision_refs now
          (fresh 0%nat) in
      let? source :=
        bump (set_wi_completed_at (Some now) (set_wi_state Completed (wf_source w))) in
      let source := set_wi_handoff_snapshot_id (Some (hs_id snapshot)) source in
      let w := set_wf_source source w in
      let? '(w, (attempt_number, revision, attempt_id)) := next_attempt w plan (fresh 1%nat) in
      let next := ready_target w plan (hs_id snapshot) attempt_number revision attempt_id now in
      let next_task := summary w actor next in
      let w := set_wf_next (Some next) w in
      let w := set_wf_snapshots (wf_snapshots w ++ [snapshot]) w in
      let w := push_history "submitted" now w in
      Ok (w, MR_Submitted (summary w actor (wf_source w)) snapshot next_task).

(** ** Dispatch and the transaction *)

Definition apply_validated (w : Workflow) (actor : VerifiedActor) (command : Command)
    (now : string) (fresh : nat -> Uuid) : WResult (Workflow * MutationResult) :=
  match command with
  | Hold task_id _ expected_attempt_id definition_action_id =>
      apply_hold_resume w actor task_id expected_attempt_id definition_action_id false now
  | Resume task_id _ expected_attempt_id definition_action_id =>
      apply_hold_resume w actor task_id expected_attempt_id definition_action_id true now
  | Complete task_id _ expected_attempt_id definition_action_id =>
      apply_complete w actor task_id expected_attempt_id definition_action_id now
  | RequestAgentExecution _ _ _ _ _ | CancelAgentExecution _ _ _ _ =>
      apply_agent w actor command now
  | RegisterEvidence _ _ _ _ _ | RegisterFinding _ _ _ _ _ _
  | RecordDecision _ _ _ _ _ _ _ _ _ _ => apply_evidence w actor command now (fresh 0%nat)
  | Return task_id context expected_attempt_id previous_submission_id target_task_id
      transition_id reason =>
      apply_return w actor task_id context expected_attempt_id previous_submission_id
        target_task_id transition_id reason now fresh
  | CreateFileArtifact _ _ _ _ | WriteArtifactContent _ _ _ _ _ | DiscardArtifact _ _ _ _
  | ImportSubmission _ _ _ _ => apply_files w actor command now fresh
  | SaveDraft task_id artifact_id _ value =>
      apply_save_draft w actor task_id artifact_id value (fresh 0%nat)
  | Claim task_id context => apply_claim w actor task_id context now (fresh 0%nat)
  | Assign task_id context expected_attempt_id assignee assignee_responsibility_id reason =>
      apply_assign w actor task_id context expected_attempt_id assignee
        assignee_responsibility_id reason now (fresh 0%nat)
  | Submit task_id context artifacts expected_attempt_id evidence_refs finding_refs
      decision_refs =>
      apply_submit w actor task_id context artifacts expected_attempt_id evidence_refs
        finding_refs decision_refs now fresh
  end.

(** A held item admits only its resumption and its reassignment. *)
Definition held_blocks (it : WorkItem) (command : Command) : bool :=
  (wi_state it == Held)
  && negb match command with
          | Resume _ _ _ _ | Assign _ _ _ _ _ _ => true
          | _ => false
          end.

(** The body of [apply] on its private copy. *)
Definition try_apply (w : Workflow) (actor : VerifiedActor) (command : Command) (now : string)
    (fresh : nat -> Uuid) : WResult (Workflow * MutationResult) :=
  let? at_ := map_err (fun _ => IntegrityViolation) (parse_instant now) in
  let next := set_wf_authority (set_auth_evaluated_at (Some at_) (wf_authority w)) w in
  try? validate_integrity next in
  try? authorize_command next actor command in
  let? it := item next (command_task_id command) in
  if wi_revision it != cc_expected_revision (command_context command) then Err RevisionConflict
  else if held_blocks it command then Err HandoffNotReady
  else
    let? '(next, result) := apply_validated next actor command now fresh in
    let next := close_finished_assignments next now in
    let? revision := ok_or (checked_add_i64 (wf_revision next) 1) IntegrityViolation in
    let next := set_wf_revision revision next in
    let? next := invalidate_agent_contexts next now in
    try? validate_integrity next in
    Ok (set_wf_authority (wf_authority w) next, result).

Definition apply (w : Workflow) (actor : VerifiedActor) (command : Command) (now : string)
    (fresh : nat -> Uuid) : Workflow * WResult MutationResult :=
  commit w (try_apply w actor command now fresh).

End Commands.
