(* ===== verification/Scenario.v ===== *)
(** * Scenario: concrete library functions and a concrete run

    An instance of the third-party functions (instants in nanoseconds, written
    "YYYY-MM-DDTHH:MM:SSZ"; the version nibble of a UUID) that satisfies their laws, and a run of the first
    fixture workflow.  The witnesses of the theorems are evaluated on it. *)
From stdpp Require Import base gmap sets list strings.
From Stdlib Require Import ZArith Lia Ascii.
From S2P Require Import Prelude WorkTypes WorkSetters Text Externals Principals Organization.
From S2P Require Import Context WorkflowReads Evidence Agent Integrity Files AgentRun Commands.

Local Open Scope Z_scope.

Module Clock.

Definition digit (b : Z) : option Z := if in_range 48 57 b then Some (b - 48) else None.

Definition two (a b : Z) : option Z := x ← digit a; y ← digit b; Some (10 * x + y).

(** Days from 1970-01-01 of a proleptic Gregorian date, and back. *)
Definition days_from_civil (y m d : Z) : Z :=
  let y := if m <=? 2 then y - 1 else y in
  let era := y / 400 in
  let yoe := y - era * 400 in
  let doy := (153 * (if 2 <? m then m - 3 else m + 9) + 2) / 5 + d - 1 in
  let doe := yoe * 365 + yoe / 4 - yoe / 100 + doy in
  era * 146097 + doe - 719468.

Definition civil_from_days (z : Z) : Z * Z * Z :=
  let z := z + 719468 in
  let era := z / 146097 in
  let doe := z - era * 146097 in
  let yoe := (doe - doe / 1460 + doe / 36524 - doe / 146096) / 365 in
  let doy := doe - (365 * yoe + yoe / 4 - yoe / 100) in
  let mp := (5 * doy + 2) / 153 in
  let m := if mp <? 10 then mp + 3 else mp - 9 in
  (yoe + era * 400 + (if m <=? 2 then 1 else 0), m, doy - (153 * mp + 2) / 5 + 1).

Definition parse (s : string) : option Z :=
  match bytes s with
  | [y0; y1; y2; y3; 45; m0; m1; 45; d0; d1; 84; h0; h1; 58; n0; n1; 58; s0; s1; 90] =>
      century ← two y0 y1; year ← two y2 y3; month ← two m0 m1; day ← two d0 d1;
      hour ← two h0 h1; minute ← two n0 n1; second ← two s0 s1;
      Some ((days_from_civil (100 * century + year) month day * 86400
             + hour * 3600 + minute * 60 + second) * 1000000000)
  | _ => None
  end.

Definition show_digit (z : Z) : string := String (ascii_of_N (Z.to_N (48 + z mod 10))) "".

Definition show2 (z : Z) : string := (show_digit (z / 10) ++ show_digit z)%string.

Definition render (t : Z) : string :=
  let t := t / 1000000000 in
  let '(y, m, d) := civil_from_days (t / 86400) in
  let r := t mod 86400 in
  (show2 (y / 100) ++ show2 y ++ "-" ++ show2 m ++ "-" ++ show2 d ++ "T"
   ++ show2 (r / 3600) ++ ":" ++ show2 (r / 60 mod 60) ++ ":" ++ show2 (r mod 60) ++ "Z")%string.

(** Formatting is defined where the rendered text denotes the instant. *)
Definition format (t : Z) : option string :=
  if parse (render t) == Some t then Some (render t) else None.

Definition version_nibble (id : N) : Z := Z.of_N (N.land (N.shiftr id 76) 15).

#[export] Instance externals : Externals := {|
  get_version_num := version_nibble;
  rfc3339_parse := parse;
  rfc3339_format := format;
  now_utc := 1790985600 * 1000000000
|}.

#[export] Instance laws : ExternalsLaws.
Proof.
  constructor. intros t s. cbn. unfold format.
  destruct (bool_decide _) eqn:E; [|done]. intros [= <-]. by apply bool_decide_eq_true in E.
Qed.

Example clock_runs :
  parse FIXTURE_CREATED_AT = Some (1791072000 * 1000000000)
  /\ format (1791072000 * 1000000000) = Some FIXTURE_CREATED_AT
  /\ get_version_num SALES_TASK_ID = 7.
Proof. vm_compute. auto. Qed.

End Clock.

Module Run.
Import Clock.

(** Identifiers drawn during the run, all of version 7. *)
Definition uuid (n : N) : Uuid := (0x01900000000070008000000100000000 + n)%N.

Definition fresh_from (n : N) (i : nat) : Uuid := uuid (n + N.of_nat i).

Definition DOCUMENT_ID : Uuid := uuid 1.

Definition context (operation : N) (revision : Z) (acting : Uuid) : CommandContext :=
  {| cc_operation_id := uuid operation; cc_expected_revision := revision;
     cc_acting_assignment_id := acting |}.

Definition noon : string := "2026-10-05T12:00:00Z".

(** [start]: the fixture; then sales saves a draft, registers evidence and submits; office
    claims, holds, resumes and returns; sales claims again. *)
Definition start : Workflow := WorkflowReads.synthetic (Some DOCUMENT_ID).

Definition save_draft : Command :=
  SaveDraft SALES_TASK_ID None (context 100 0 SALES_ASSIGNMENT_ID) {| tv_text := "draft" |}.

Definition drafted : Workflow := fst (apply start Sales01 save_draft noon (fresh_from 1000)).

Definition source_of_document : EvidenceSource :=
  {| es_source_ref := {| sr_provider_id := "document"; sr_resource_id := DOCUMENT_ID;
                         sr_revision_id := uuid 2; sr_version_id := uuid 3 |};
     es_authoritative_locator := {| al_kind := "contentItem"; al_content_item_id := uuid 4;
                                    al_representation_id := uuid 5 |} |}.

Definition register : Command :=
  RegisterEvidence SALES_TASK_ID (context 101 1 SALES_ASSIGNMENT_ID) SALES_ATTEMPT_ID
    source_of_document "p. 3".

Definition evidenced : Workflow := fst (apply drafted Sales01 register noon (fresh_from 1010)).

Definition EVIDENCE_REF : RevisionRef := {| rr_id := uuid 1010; rr_revision := 1 |}.

Definition submit : Command :=
  Submit SALES_TASK_ID (context 102 2 SALES_ASSIGNMENT_ID)
    [ {| sel_artifact_id := uuid 1000; sel_revision := 0 |} ] (Some SALES_ATTEMPT_ID)
    [EVIDENCE_REF] [] [].

Definition submitted : Workflow := fst (apply evidenced Sales01 submit noon (fresh_from 1020)).

Definition claim : Command := Claim OFFICE_TASK_ID (context 103 0 OFFICE_ASSIGNMENT_ID).

Definition claimed : Workflow := fst (apply submitted Office01 claim noon (fresh_from 1030)).

Definition hold : Command :=
  Hold OFFICE_TASK_ID (context 104 1 OFFICE_ASSIGNMENT_ID) OFFICE_ATTEMPT_ID HOLD_ACTION_ID.

Definition held : Workflow := fst (apply claimed Office01 hold noon (fresh_from 1040)).

Definition resume : Command :=
  Resume OFFICE_TASK_ID (context 105 2 OFFICE_ASSIGNMENT_ID) OFFICE_ATTEMPT_ID RESUME_ACTION_ID.

Definition resumed : Workflow := fst (apply held Office01 resume noon (fresh_from 1050)).

Definition return_ : Command :=
  Return OFFICE_TASK_ID (context 106 3 OFFICE_ASSIGNMENT_ID) OFFICE_ATTEMPT_ID (uuid 1020)
    SALES_TASK_ID RETURN_TRANSITION_ID "please revise".

Definition returned : Workflow := fst (apply resumed Office01 return_ noon (fresh_from 1060)).

Definition complete : Command :=
  Complete OFFICE_TASK_ID (context 107 3 OFFICE_ASSIGNMENT_ID) OFFICE_ATTEMPT_ID
    COMPLETE_ACTION_ID.

Definition completed : Workflow := fst (apply resumed Office01 complete noon (fresh_from 1070)).

(** A manager assigns the submitted office attempt. *)
Definition assign : Command :=
  Assign OFFICE_TASK_ID (context 108 0 APPROVER_MANAGEMENT_ASSIGNMENT_ID) OFFICE_ATTEMPT_ID
    MultiRole01 MULTI_ROLE_PROCESSING_ASSIGNMENT_ID "load balancing".

Definition assigned : Workflow := fst (apply submitted Approver01 assign noon (fresh_from 1080)).

(** Sales asks an agent to look at the registered evidence; it runs and succeeds. *)
Definition request : Command :=
  RequestAgentExecution SALES_TASK_ID (context 110 2 SALES_ASSIGNMENT_ID) SALES_ATTEMPT_ID
    "summarize" [EVIDENCE_REF].

Definition requested : Workflow := fst (apply evidenced Sales01 request noon (fresh_from 1090)).

Definition running : Workflow := fst (start_agent_execution requested Sales01 (uuid 110) noon).

Definition dispatched : option AgentDispatchContext :=
  flatten (ok (snd (start_agent_execution requested Sales01 (uuid 110) noon))).

(** An executor's output with a finding, one draft and one suggestion, all over the source. *)
Definition output : AgentOutput :=
  {| ao_summary := "one source referenced";
     ao_uncertainty := ["body not read"];
     ao_source_outcomes := [ {| aso_evidence_revision_ref := EVIDENCE_REF;
                                aso_outcome := Referenced |} ];
     ao_finding := Some {| afc_claim := "the source is relevant";
                           afc_evidence_revision_refs := [EVIDENCE_REF] |};
     ao_generated_artifacts := [ {| gac_title := "note"; gac_text := "see p. 3";
                                    gac_source_revision_refs := [EVIDENCE_REF] |} ];
     ao_suggested_actions := [ {| sac_action := Candidate_ReviewFinding;
                                  sac_rationale := "check it" |} ] |}.

Definition finish (d : AgentDispatchContext) : Workflow * WResult AgentExecution :=
  finish_agent_execution running d output noon (fresh_from 1100).

(** The aggregate one command before its revision is exhausted. *)
Definition exhausted : Workflow := set_wf_revision i64_max requested.

Example run_commits :
  is_ok (snd (apply start Sales01 save_draft noon (fresh_from 1000)))
  && is_ok (snd (apply drafted Sales01 register noon (fresh_from 1010)))
  && is_ok (snd (apply evidenced Sales01 submit noon (fresh_from 1020)))
  && is_ok (snd (apply submitted Office01 claim noon (fresh_from 1030)))
  && is_ok (snd (apply claimed Office01 hold noon (fresh_from 1040)))
  && is_ok (snd (apply held Office01 resume noon (fresh_from 1050)))
  && is_ok (snd (apply resumed Office01 return_ noon (fresh_from 1060)))
  && is_ok (snd (apply resumed Office01 complete noon (fresh_from 1070)))
  && is_ok (snd (apply submitted Approver01 assign noon (fresh_from 1080)))
  && is_ok (snd (apply evidenced Sales01 request noon (fresh_from 1090)))
  && is_some_and dispatched (fun d => is_ok (snd (finish d))) = true.
Proof. vm_compute. reflexivity. Qed.

End Run.

(** ** A run of the policy authority *)

Module PolicyRun.
Import Clock.

Definition context (operation : N) (revision : Z) (acting : Uuid) : CommandContext :=
  Run.context operation revision acting.

(** The manager grants a role, Sales01 delegates, the manager revokes. *)
Definition grant : PolicyCommand :=
  CreateRoleAssignment (context 200 0 APPROVER_MANAGEMENT_ASSIGNMENT_ID) Review01
    ROLE_PROCESSING_ID UNIT_OFFICE_ID None (Some "2026-12-01T00:00:00Z") "cover for leave".

Definition granted : OrganizationPolicy :=
  fst (Policy.apply Policy.synthetic Approver01 grant Run.noon (Run.uuid 2000)).

Definition delegate : PolicyCommand :=
  CreateDelegation (context 201 1 SALES_ASSIGNMENT_ID) SALES_ASSIGNMENT_ID Delegate01
    [WorkRead; WorkEdit] None "2026-10-20T00:00:00Z" "vacation".

Definition delegated : OrganizationPolicy :=
  fst (Policy.apply granted Sales01 delegate Run.noon (Run.uuid 2001)).

Definition revoke : PolicyCommand :=
  RevokeRoleAssignment (context 202 2 APPROVER_MANAGEMENT_ASSIGNMENT_ID) SALES_ASSIGNMENT_ID
    "moved".

Definition revoked : OrganizationPolicy :=
  fst (Policy.apply delegated Approver01 revoke Run.noon (Run.uuid 2002)).

(** The instant of [Run.noon]. *)
Definition at_noon : Z := 1791201600 * 1000000000.

Example policy_run_commits :
  is_ok (snd (Policy.apply Policy.synthetic Approver01 grant Run.noon (Run.uuid 2000)))
  && is_ok (snd (Policy.apply granted Sales01 delegate Run.noon (Run.uuid 2001)))
  && is_ok (snd (Policy.apply delegated Approver01 revoke Run.noon (Run.uuid 2002))) = true
  /\ rfc3339_parse Run.noon = Some at_noon.
Proof. vm_compute. auto. Qed.

End PolicyRun.
