(* ===== verification/WorkflowFacts.v ===== *)
(** * WorkflowFacts: lemmas shared by the workflow theorems

    How each arm of [apply_validated] changes the aggregate; the anatomy of a committed command:
    [workflow_try_apply_Ok] lists the checks it passed and the exact aggregate it leaves, and the
    lemmas after it relate items, authorization and executions before and after. *)
From stdpp Require Import base gmap sets list strings relations.
From Stdlib Require Import ZArith Lia.
From S2P Require Import Prelude WorkTypes WorkSetters Text Externals Principals Organization.
From S2P Require Import Context WorkflowReads Evidence Agent Integrity Files AgentRun Commands.
Local Open Scope Z_scope.

(** ** Items *)

Lemma item_Ok w id it :
  item w id = Ok it <->
  (id = wi_id (wf_source w) /\ it = wf_source w)
  \/ (id <> wi_id (wf_source w) /\ wf_next w = Some it /\ wi_id it = id).
Proof.
  unfold item. destruct (bool_decide_reflect (id = wi_id (wf_source w))) as [->|Hne].
  - split; [intros [= <-]; auto|intros [[_ ->]|[? _]]; done].
  - rewrite ok_or_Ok, opt_filter_Some, bool_decide_eq_true. naive_solver.
Qed.

Lemma item_item_mut w id it e : item w id = Ok it -> item_mut w id e = Ok it.
Proof.
  rewrite item_Ok. unfold item_mut.
  intros [[-> ->]|(Hne & Hn & _)]; [by rewrite bool_decide_eq_true_2|].
  rewrite bool_decide_eq_false_2, Hn by done. done.
Qed.

Lemma item_mut_Ok w id e it :
  item_mut w id e = Ok it <->
  (id = wi_id (wf_source w) /\ it = wf_source w)
  \/ (id <> wi_id (wf_source w) /\ wf_next w = Some it).
Proof.
  unfold item_mut. destruct (bool_decide_reflect (id = wi_id (wf_source w))) as [->|Hne].
  - split; [intros [= <-]; auto|intros [[_ ->]|[? _]]; done].
  - rewrite ok_or_Ok. naive_solver.
Qed.

Lemma item_id w id it : item w id = Ok it -> wi_id it = id.
Proof. rewrite item_Ok. naive_solver. Qed.

Lemma item_elem w id it : item w id = Ok it -> it ∈ current_items w.
Proof.
  rewrite item_Ok. unfold current_items. intros [[_ ->]|(_ & -> & _)]; cbn.
  - apply elem_of_cons. by left.
  - apply elem_of_cons. right. by apply list_elem_of_singleton.
Qed.

Lemma bump_Ok it it' :
  bump it = Ok it' <->
  it' = set_wi_revision (wi_revision it + 1) it /\ in_i64 (wi_revision it + 1).
Proof.
  unfold bump. rewrite rbind_Ok. split.
  - intros (r & H & [= <-]). apply ok_or_Ok, checked_add_i64_Some in H as [-> ?]. done.
  - intros [-> H]. eexists. rewrite ok_or_Ok, checked_add_i64_Some. done.
Qed.

Lemma next_record_revision_Ok w task w' :
  next_record_revision w task = Ok w' <->
  exists it, item_mut w task WorkItemNotFound = Ok it /\ in_i64 (wi_revision it + 1)
             /\ w' = put_item w task (set_wi_revision (wi_revision it + 1) it).
Proof.
  unfold next_record_revision. rewrite rbind_Ok. split.
  - intros (it & H & H'). inv_ok. apply bump_Ok in Hok as [-> ?]. eauto.
  - intros (it & H & Hr & ->). exists it. split; [done|].
    by rewrite (proj2 (bump_Ok it (set_wi_revision (wi_revision it + 1) it)) (conj eq_refl Hr)).
Qed.

Lemma bump_source_Ok w w' :
  bump_source w = Ok w' <->
  w' = set_wf_source (set_wi_revision (wi_revision (wf_source w) + 1) (wf_source w)) w
  /\ in_i64 (wi_revision (wf_source w) + 1).
Proof.
  unfold bump_source. rewrite rbind_Ok. split.
  - intros (it & H & [= <-]). apply bump_Ok in H as [-> ?]. done.
  - intros [-> H]. eexists. rewrite bump_Ok. done.
Qed.

(** [put_item] replaces one of the two items. *)
Lemma put_item_cases w task it :
  (task = wi_id (wf_source w) /\ put_item w task it = set_wf_source it w)
  \/ (task <> wi_id (wf_source w) /\ put_item w task it = set_wf_next (Some it) w).
Proof. unfold put_item. case_bool_decide; auto. Qed.

Lemma put_item_assignments w l t it :
  put_item (set_wf_assignments l w) t it = set_wf_assignments l (put_item w t it).
Proof. unfold put_item. cbn. by case_bool_decide. Qed.

Ltac put_cases :=
  repeat match goal with
  | |- context [put_item ?w ?t ?it] =>
      destruct (put_item_cases w t it) as [[? ->]|[? ->]]
  | H : context [put_item ?w ?t ?it] |- _ =>
      destruct (put_item_cases w t it) as [[? ?E]|[? ?E]]; rewrite E in H; clear E
  end.

(** Two successful results of one computation are equal. *)
Ltac same_ok :=
  repeat match goal with
  | H1 : ?x = Ok ?a, H2 : ?x = Ok ?b |- _ =>
      rewrite H1 in H2; injection H2 as ?; subst
  end.

(** Decomposes a successful arm into its checks. *)
Ltac inv_arm :=
  repeat match goal with
  | H : bump _ = Ok _ |- _ => apply bump_Ok in H as [-> ?]
  | H : bump_source _ = Ok _ |- _ => apply bump_source_Ok in H as [-> ?]
  | H : next_record_revision _ _ = Ok _ |- _ =>
      apply next_record_revision_Ok in H as (? & ? & ? & ->)
  | H : update_execution _ _ _ = Ok _ |- _ => unfold update_execution in H
  | H : checked_add_i64 _ _ = Some _ |- _ => apply checked_add_i64_Some in H as [-> ?]
  | H : checked_add_u32 _ _ = Some _ |- _ => apply checked_add_u32_Some in H as [-> ?]
  | H : (_, _) = (_, _) |- _ => injection H as ? ?
  | H : _ = Ok _ |- _ => inv_ok_hyp H
  end; subst.

(** ** The frame of the commands

    Every arm leaves the identity of the aggregate and extends its logs at the end. *)

Record extends (w w' : Workflow) : Prop := {
  extends_id : wf_id w' = wf_id w;
  extends_definition : wf_definition_version_id w' = wf_definition_version_id w;
  extends_context : wf_context_id w' = wf_context_id w;
  extends_inputs : wf_input_resources w' = wf_input_resources w;
  extends_generated : wf_generated_artifacts w' = wf_generated_artifacts w;
  extends_suggested : wf_suggested_actions w' = wf_suggested_actions w;
  extends_history : wf_history w `prefix_of` wf_history w';
  extends_snapshots : wf_snapshots w `prefix_of` wf_snapshots w';
  extends_evidence : wf_evidence w `prefix_of` wf_evidence w';
  extends_findings : wf_findings w `prefix_of` wf_findings w';
  extends_decisions : wf_decisions w `prefix_of` wf_decisions w';
  extends_returns : wf_return_instructions w `prefix_of` wf_return_instructions w';
  extends_completed : wf_completed_attempts w `prefix_of` wf_completed_attempts w'
}.

#[global] Instance extends_preorder : PreOrder extends.
Proof.
  split.
  - intros w. by constructor.
  - intros w1 w2 w3 [] []. constructor; (congruence || by etrans).
Qed.

(** The arms leave the revision and the attached authority to [apply]. *)
Definition frame (w w' : Workflow) : Prop :=
  extends w w' /\ wf_revision w' = wf_revision w /\ wf_authority w' = wf_authority w.

#[global] Instance frame_preorder : PreOrder frame.
Proof.
  split.
  - intros w. by split.
  - intros w1 w2 w3 (? & ? & ?) (? & ? & ?). split_and!; [by etrans|congruence..].
Qed.

Ltac solve_frame :=
  split; [constructor; cbn; try done; try by apply prefix_app_r|split; reflexivity].

Lemma put_item_frame w t it : frame w (put_item w t it).
Proof. put_cases; solve_frame. Qed.

Lemma save_existing_Ok w id value w' a :
  save_existing w id value = Ok (w', a) ->
  exists b, find (fun a => wa_id a == id) (wf_artifacts w) = Some b
    /\ in_i64 (wa_revision b + 1)
    /\ a = set_wa_value (Some value) (set_wa_revision (wa_revision b + 1) b)
    /\ w' = set_wf_artifacts
              (update_first (fun a => wa_id a == id) (fun _ => a) (wf_artifacts w)) w.
Proof. unfold save_existing. intros H. inv_arm. eauto. Qed.

Lemma save_new_Ok w task_id value new_id w' a :
  save_new w task_id value new_id = Ok (w', a) ->
  attempt_artifact_count w < MAX_ARTIFACTS
  /\ wa_attempt_id a = wi_attempt_id (wf_source w) /\ wa_task_id a = task_id
  /\ wa_id a = new_id
  /\ w' = set_wf_artifacts (wf_artifacts w ++ [a]) w.
Proof. unfold save_new. intros H. inv_arm. simp_bool. auto. Qed.

Section Facts.
Context {X : Externals}.

Lemma apply_evidence_frame w actor c now new_id w' r :
  apply_evidence w actor c now new_id = Ok (w', r) -> frame w w'.
Proof.
  unfold apply_evidence. intros H. inv_arm.
  destruct c; inv_arm.
  - unfold register_evidence in H. inv_arm. etrans; [|apply put_item_frame]. solve_frame.
  - unfold register_finding in H. inv_arm. etrans; [|apply put_item_frame]. solve_frame.
  - unfold record_decision in H. inv_arm. etrans; [|apply put_item_frame]. solve_frame.
Qed.

Lemma apply_files_frame w actor c now fresh w' r :
  apply_files w actor c now fresh = Ok (w', r) -> frame w w'.
Proof.
  unfold apply_files. intros H. destruct c; inv_arm.
  - unfold create_file_artifact in H. inv_arm. solve_frame.
  - unfold write_artifact_content in H. inv_arm. solve_frame.
  - unfold discard_artifact in H. inv_arm. solve_frame.
  - unfold import_submission in H. inv_arm. solve_frame.
Qed.

Lemma apply_agent_frame w actor c now w' r :
  apply_agent w actor c now = Ok (w', r) -> frame w w'.
Proof.
  unfold apply_agent. intros H. inv_arm. destruct c; inv_arm.
  - unfold request_agent_execution in H. inv_arm.
    etrans; [apply put_item_frame|]. solve_frame.
  - unfold cancel_agent_execution in H. inv_arm. destruct (is_active _); inv_arm; [|done].
    etrans; [apply put_item_frame|]. solve_frame.
Qed.

(** ** The arms of the two-step state machine, on success *)

Definition paused (resume : bool) (it : WorkItem) : WorkItem :=
  set_wi_revision (wi_revision it + 1) (set_wi_state (if resume then Active else Held) it).

Definition finished (now : string) (it : WorkItem) : WorkItem :=
  set_wi_revision (wi_revision it + 1)
    (set_wi_completed_at (Some now) (set_wi_state Completed it)).

Lemma pause_action_Some w actor it resume id :
  pause_action w actor it resume = Some id ->
  wi_state it = (if resume then Held else Active)
  /\ can_act w actor it (if resume then WorkResume else WorkHold) = true
  /\ pausable w = true /\ id = (if resume then RESUME_ACTION_ID else HOLD_ACTION_ID).
Proof.
  unfold pause_action, then_some. destruct (_ && _) eqn:E; [|done]. intros [= <-].
  simp_bool. auto.
Qed.

Lemma completion_action_Some w actor it id :
  completion_action w actor it = Some id ->
  wi_state it = Active /\ is_next w it = true /\ can_act w actor it WorkComplete = true
  /\ completable w = true /\ id = COMPLETE_ACTION_ID.
Proof.
  unfold completion_action, then_some. destruct (_ && _) eqn:E; [|done]. intros [= <-].
  simp_bool. auto.
Qed.

Lemma return_transition_Some w actor it rt :
  return_transition w actor it = Some rt ->
  wi_state it = Active /\ wi_state (wf_source w) = Completed /\ is_next w it = true
  /\ can_act w actor it WorkReturn = true /\ returnable w = true
  /\ rt_transition_id rt = RETURN_TRANSITION_ID
  /\ rt_target_task_id rt = wi_id (wf_source w)
  /\ exists s, s ∈ wf_snapshots w /\ hs_id s = rt_previous_submission_id rt
       /\ wi_handoff_snapshot_id it = Some (hs_id s)
       /\ wi_handoff_snapshot_id (wf_source w) = Some (hs_id s)
       /\ hs_source_attempt_id s = wi_attempt_id (wf_source w).
Proof.
  unfold return_transition. destruct (_ || _) eqn:E; [done|]. simp_bool.
  destruct (find _ _) as [s|] eqn:Ef; cbn; [|done]. intros [= <-].
  apply find_Some_iff in Ef as [Hs Hp]. simp_bool.
  split_and!; try done. exists s. split_and!; (done || congruence).
Qed.

Lemma apply_hold_resume_Ok w actor task attempt action resume now w' r :
  apply_hold_resume w actor task attempt action resume now = Ok (w', r) ->
  exists it, item w task = Ok it /\ wi_attempt_id it = attempt
    /\ pause_action w actor it resume = Some action
    /\ in_i64 (wi_revision it + 1)
    /\ w' = push_history (if resume then "resumed" else "held") now
              (put_item w task (paused resume it)).
Proof.
  unfold apply_hold_resume. intros H. inv_arm. simp_bool.
  match goal with H : item w task = Ok _ |- _ =>
    pose proof (item_item_mut _ _ _ IntegrityViolation H) end.
  same_ok. eexists. split_and!; eauto.
Qed.

Lemma apply_complete_Ok w actor task attempt action now w' r :
  apply_complete w actor task attempt action now = Ok (w', r) ->
  exists it n, item w task = Ok it /\ wi_attempt_id it = attempt
    /\ completion_action w actor it = Some action
    /\ wf_next w = Some n /\ in_i64 (wi_revision n + 1)
    /\ w' = push_history "completed" now (set_wf_next (Some (finished now n)) w).
Proof.
  unfold apply_complete. intros H. inv_arm. simp_bool. subst.
  do 2 eexists. split_and!; eauto.
Qed.

(** The attempt a return opens and the instruction it records. *)
Definition reopened (w : Workflow) (instruction attempt submission : Uuid) (now : string)
    : WorkItem :=
  let source := wf_source w in
  Build_WorkItem (Some instruction) None (wi_id source) (wf_id w) (wi_step_id source)
    (wi_work_type_id source) (wi_attempt_number source + 1) None None now None attempt
    (wi_revision source + 1) Ready None (Some submission).

Lemma returned_source_Ok w i a s now it :
  returned_source w i a s now = Ok it ->
  it = reopened w i a s now /\ in_u32 (wi_attempt_number (wf_source w) + 1)
  /\ in_i64 (wi_revision (wf_source w) + 1).
Proof. unfold returned_source. intros H. inv_arm. auto. Qed.

Lemma apply_return_Ok w actor task c attempt submission target transition reason now fresh w' r :
  apply_return w actor task c attempt submission target transition reason now fresh
    = Ok (w', r) ->
  exists it n rt i, item w task = Ok it /\ wi_attempt_id it = attempt
    /\ return_transition w actor it = Some rt
    /\ rt_previous_submission_id rt = submission /\ rt_target_task_id rt = target
    /\ wf_next w = Some n
    /\ in_u32 (wi_attempt_number (wf_source w) + 1)
    /\ in_i64 (wi_revision (wf_source w) + 1) /\ in_i64 (wi_revision n + 1)
    /\ ri_id i = fresh 1%nat /\ ri_previous_submission_id i = submission
    /\ ri_source_attempt_id i = attempt /\ ri_target_attempt_id i = fresh 0%nat
    /\ ri_reason i = reason /\ ri_returned_by i = principal_id actor
    /\ wf_completed_attempts w' = wf_completed_attempts w ++ [wf_source w]
    /\ w' = push_history "returned" now
        (set_wf_return_instructions (wf_return_instructions w ++ [i])
          (set_wf_next (Some (set_wi_return_instruction_id (Some (fresh 1%nat)) (finished now n)))
            (set_wf_source (reopened w (fresh 1%nat) (fresh 0%nat) submission now)
              (set_wf_completed_attempts (wf_completed_attempts w ++ [wf_source w]) w)))).
Proof.
  unfold apply_return. intros H. inv_arm. simp_bool.
  match goal with H : returned_source _ _ _ _ _ = Ok _ |- _ =>
    apply returned_source_Ok in H as (-> & ? & ?) end.
  cbn in *. simplify_eq. do 4 eexists. split_and!; eauto. all: done.
Qed.

Definition claimed_by (actor : VerifiedActor) (acting record : Uuid) (it : WorkItem) : WorkItem :=
  set_wi_revision (wi_revision it + 1)
    (set_wi_acting_assignment_id (Some acting)
       (set_wi_work_assignment_id (Some record)
          (set_wi_assignee (Some actor)
             (if wi_state it == Ready then set_wi_state Active it else it)))).

Lemma apply_claim_Ok w actor task c now new_id w' r :
  apply_claim w actor task c now new_id = Ok (w', r) ->
  exists it record, item_mut w task WorkItemNotFound = Ok it
    /\ wi_state it = Ready /\ wi_assignee it = None /\ in_i64 (wi_revision it + 1)
    /\ war_id record = new_id /\ war_attempt_id record = wi_attempt_id it
    /\ war_principal record = actor /\ war_ended_at record = None
    /\ war_acting_assignment_id record = cc_acting_assignment_id c
    /\ w' = push_history "claimed" now
              (set_wf_assignments (wf_assignments w ++ [record])
                 (put_item w task (claimed_by actor (cc_acting_assignment_id c) new_id it))).
Proof.
  unfold apply_claim. intros H. inv_arm. simp_bool.
  do 2 eexists. split_and!; cycle -1.
  { unfold claimed_by. rewrite bool_decide_eq_true_2 by done. put_cases; reflexivity. }
  all: done.
Qed.

Lemma apply_assign_Ok w actor task c attempt assignee acting reason now new_id w' r :
  apply_assign w actor task c attempt assignee acting reason now new_id = Ok (w', r) ->
  exists it record, item w task = Ok it /\ wi_attempt_id it = attempt
    /\ wi_state it <> Completed /\ in_i64 (wi_revision it + 1)
    /\ is_some (step_responsibility w assignee acting it WorkClaim) = true
    /\ war_id record = new_id /\ war_attempt_id record = wi_attempt_id it
    /\ war_principal record = assignee /\ war_ended_at record = None
    /\ war_acting_assignment_id record = acting /\ war_assigned_by record = Some actor
    /\ w' = push_history "assigned" now
              (set_wf_assignments
                 (end_previous (wi_work_assignment_id it) actor now (wf_assignments w)
                  ++ [record])
                 (put_item w task (claimed_by assignee acting new_id it))).
Proof.
  unfold apply_assign. intros H. inv_arm. simp_bool.
  match goal with
  | H : item w task = Ok ?a, H' : item_mut (set_wf_assignments _ _) _ _ = Ok ?b |- _ =>
      pose proof (item_item_mut _ _ _ WorkItemNotFound H) as Hm;
      change (item_mut w task WorkItemNotFound = Ok b) in H'; same_ok
  end.
  exists a0. eexists. split_and!; cycle -1.
  { unfold claimed_by. rewrite put_item_assignments. unfold put_item.
    destruct (bool_decide (wi_state _ = Ready)), (bool_decide (task = _)); reflexivity. }
  all: try done.
  - by destruct (bool_decide (wi_state _ = Ready)).
  - match goal with H : step_responsibility _ _ _ _ _ = Some _ |- _ => by rewrite H end.
Qed.

Lemma submittable_true w task :
  submittable w task = true ->
  task = wi_id (wf_source w) /\ wi_state (wf_source w) = Active
  /\ (forall n, wf_next w = Some n -> wi_state n = Completed /\ returnable w = true).
Proof.
  unfold submittable. intros H. simp_bool. split_and!; try done.
  intros n Hn. rewrite Hn in *. cbn in *. by simp_bool.
Qed.

(** The numbers of the target attempt a submission opens. *)
Definition next_numbers (w : Workflow) (plan : ContextFixture) (new_id : Uuid) : Z * Z * Uuid :=
  match wf_next w with
  | Some p => (wi_attempt_number p + 1, wi_revision p + 1, new_id)
  | None => (1, 0, cf_next_attempt_id plan)
  end.

Lemma next_attempt_Ok w plan new_id w' numbers :
  next_attempt w plan new_id = Ok (w', numbers) ->
  numbers = next_numbers w plan new_id
  /\ in_u32 numbers.1.1 /\ in_i64 numbers.1.2
  /\ w' = set_wf_completed_attempts (wf_completed_attempts w ++ opt_to_list (wf_next w)) w.
Proof.
  unfold next_attempt, next_numbers. destruct (wf_next w) eqn:E; intros H; inv_arm; cbn.
  - auto.
  - split_and!; try done. rewrite app_nil_r. match goal with |- ?x = _ => by destruct x end.
Qed.

Definition submitted_source (now : string) (snapshot : Uuid) (it : WorkItem) : WorkItem :=
  set_wi_handoff_snapshot_id (Some snapshot) (finished now it).

Lemma apply_submit_Ok w actor task c arts attempt ers frs drs now fresh w' r :
  apply_submit w actor task c arts attempt ers frs drs now fresh = Ok (w', r) ->
  exists pl s seen n, plan w = Ok pl
    /\ task = wi_id (wf_source w) /\ wi_state (wf_source w) = Active
    /\ (forall p, wf_next w = Some p -> wi_state p = Completed /\ returnable w = true)
    /\ validate_selection w actor task ers frs drs = Ok tt
    /\ arts <> [] /\ len arts <= MAX_ARTIFACTS
    /\ for_each (pin_selected w actor) (∅, []) arts = Ok (seen, hs_artifacts s)
    /\ submission w pl actor c (hs_artifacts s) ers frs drs now (fresh 0%nat) = Ok s
    /\ hs_id s = fresh 0%nat
    /\ n = next_numbers w pl (fresh 1%nat) /\ in_u32 n.1.1 /\ in_i64 n.1.2
    /\ in_i64 (wi_revision (wf_source w) + 1)
    /\ w' = push_history "submitted" now
        (set_wf_snapshots (wf_snapshots w ++ [s])
          (set_wf_next
             (Some (ready_target w pl (hs_id s) n.1.1 n.1.2 n.2 now))
             (set_wf_completed_attempts
                (wf_completed_attempts w ++ opt_to_list (wf_next w))
                (set_wf_source (submitted_source now (hs_id s) (wf_source w)) w)))).
Proof.
  unfold apply_submit. intros H. inv_arm. simp_bool.
  match goal with H : submittable _ _ = true |- _ =>
    apply submittable_true in H as (? & ? & ?) end.
  match goal with H : next_attempt _ _ _ = Ok _ |- _ =>
    apply next_attempt_Ok in H as (Hn & ? & ? & ->) end.
  match goal with H : validate_selection _ _ _ _ _ _ = Ok ?u |- _ => destruct u end.
  match goal with H : submission _ _ _ _ ?p _ _ _ _ _ = Ok ?s |- _ =>
    assert (hs_artifacts s = p) as Ha by (unfold submission in H; inv_arm; done);
    assert (hs_id s = fresh 0%nat) as Hi by (unfold submission in H; inv_arm; done);
    rewrite <-Ha in *
  end.
  do 4 eexists. split_and!; eauto; try done.
  - by intros ->.
Qed.

Lemma apply_save_draft_Ok w actor task id value new_id w' r :
  apply_save_draft w actor task id value new_id = Ok (w', r) ->
  exists w1 a, wi_state (wf_source w) = Active /\ task = wi_id (wf_source w)
    /\ match id with
       | Some id => save_existing w id value = Ok (w1, a)
       | None => save_new w task value new_id = Ok (w1, a)
       end
    /\ bump_source w1 = Ok w'.
Proof.
  unfold apply_save_draft. intros H.
  inv_ok. simp_bool. simplify_eq. destruct id; do 2 eexists; split_and!; eauto.
Qed.

(** ** Every arm keeps the frame *)

Lemma apply_validated_frame w actor c now fresh w' r :
  apply_validated w actor c now fresh = Ok (w', r) -> frame w w'.
Proof.
  unfold apply_validated. destruct c; intros H;
    eauto using apply_agent_frame, apply_evidence_frame, apply_files_frame.
  - apply apply_hold_resume_Ok in H as (it & _ & _ & _ & _ & ->).
    etrans; [apply put_item_frame|]. solve_frame.
  - apply apply_hold_resume_Ok in H as (it & _ & _ & _ & _ & ->).
    etrans; [apply put_item_frame|]. solve_frame.
  - apply apply_complete_Ok in H as (it & n & _ & _ & _ & _ & _ & ->). solve_frame.
  - apply apply_return_Ok in H. destruct H as (it & n & rt & i & H). destruct_and!. subst.
    solve_frame.
  - apply apply_assign_Ok in H.
    destruct H as (it & record & H). destruct_and!. subst.
    etrans; [apply put_item_frame|]. solve_frame.
  - apply apply_save_draft_Ok in H as (w1 & a & _ & _ & H & Hb).
    apply bump_source_Ok in Hb as [-> _].
    destruct artifact_id as [id|].
    + apply save_existing_Ok in H as (b & _ & _ & _ & ->). solve_frame.
    + apply save_new_Ok in H as (_ & _ & _ & _ & ->). solve_frame.
  - apply apply_claim_Ok in H. destruct H as (it & record & H). destruct_and!. subst.
    etrans; [apply put_item_frame|]. solve_frame.
  - apply apply_submit_Ok in H. destruct H as (pl & s & seen & n & H). destruct_and!. subst.
    solve_frame.
Qed.

End Facts.

(** ** Updates of executions by identifier *)

Lemma update_first_map (f : AgentExecution -> AgentExecution) id l :
  NoDup (map ae_id l) ->
  update_first (fun e => ae_id e == id) f l
  = map (fun e => if ae_id e == id then f e else e) l.
Proof.
  induction l as [|x l IH]; cbn; [done|]. intros [Hx Hl]%NoDup_cons.
  destruct (bool_decide_reflect (ae_id x = id)) as [<-|Hne]; [|by rewrite IH].
  f_equal. rewrite <-(map_id l) at 1. apply map_ext_in. intros y Hy.
  rewrite bool_decide_eq_false_2; [done|]. intros Heq. apply Hx. rewrite <-Heq.
  by apply list_elem_of_In, in_map.
Qed.

Lemma map_map_id (g : AgentExecution -> AgentExecution) l :
  (forall e, ae_id (g e) = ae_id e) -> map ae_id (map g l) = map ae_id l.
Proof. intros Hg. rewrite map_map. apply map_ext, Hg. Qed.

Definition select_map (ids : list Uuid) (f : AgentExecution -> AgentExecution)
    (e : AgentExecution) : AgentExecution :=
  if contains ids (ae_id e) then f e else e.

Lemma update_executions_Ok f ids :
  (forall e, ae_id (f e) = ae_id e) -> NoDup ids ->
  forall w w', NoDup (map ae_id (wf_agent_executions w)) ->
  for_each (update_execution f) w ids = Ok w' ->
  w' = set_wf_agent_executions (map (select_map ids f) (wf_agent_executions w)) w.
Proof.
  intros Hf. induction ids as [|id ids IH]; intros Hids w w' Hw; cbn.
  - intros [= <-]. transitivity (set_wf_agent_executions (wf_agent_executions w) w);
      [by destruct w|]. f_equal. by rewrite map_id.
  - apply NoDup_cons in Hids as [Hid Hids]. intros H. inv_ok.
    unfold update_execution in Hok. inv_ok. subst. rewrite update_first_map in H by done.
    apply IH in H; [|done|].
    + rewrite H. unfold set_wf_agent_executions. cbn. f_equal. rewrite map_map. apply map_ext.
      intros e. unfold select_map, contains.
      destruct (bool_decide_reflect (ae_id e = id)) as [<-|Hne].
      * rewrite Hf, bool_decide_eq_false_2 by done.
        by rewrite bool_decide_eq_true_2 by (apply elem_of_cons; auto).
      * rewrite (bool_decide_ext (ae_id e ∈ ids) (ae_id e ∈ id :: ids)); [done|].
        rewrite elem_of_cons. naive_solver.
    + cbn. rewrite map_map_id; [done|]. intros e. by case_bool_decide.
Qed.

Lemma selected_iff (p : AgentExecution -> bool) l e :
  NoDup (map ae_id l) -> e ∈ l -> contains (map ae_id (List.filter p l)) (ae_id e) = p e.
Proof.
  intros Hn He. unfold contains. destruct (p e) eqn:E.
  - apply bool_decide_eq_true_2, list_elem_of_In, in_map, list_elem_of_In, elem_of_filter_bool.
    done.
  - apply bool_decide_eq_false_2. intros H%list_elem_of_In%in_map_iff.
    destruct H as (e' & Hid & H). apply list_elem_of_In, elem_of_filter_bool in H as [He' Hs].
    assert (e' = e) as -> by (by apply (NoDup_key ae_id l)). congruence.
Qed.

Definition refresh (w : Workflow) (now : string) (e : AgentExecution) : AgentExecution :=
  if stale_execution w e then mark_stale now e else e.

Lemma invalidate_Ok w now w' :
  NoDup (map ae_id (wf_agent_executions w)) ->
  invalidate_agent_contexts w now = Ok w' ->
  w' = set_wf_agent_executions (map (refresh w now) (wf_agent_executions w)) w.
Proof.
  intros Hn H. apply update_executions_Ok in H; [|done|by apply NoDup_map_filter|done].
  rewrite H. f_equal. apply map_ext_in. intros e He%list_elem_of_In.
  unfold select_map, refresh. by rewrite selected_iff.
Qed.

(** ** What the integrity check gives *)

Section IntegrityFacts.
Context {X : Externals}.

Lemma validate_execution_state w s e s' :
  validate_execution w s e = Ok s' ->
  ae_id e ∉ s.1.1 /\ s'.1.1 = {[ae_id e]} ∪ s.1.1
  /\ (if is_active (ae_status e)
      then ae_work_item_id e ∉ s.1.2 /\ s'.1.2 = {[ae_work_item_id e]} ∪ s.1.2
      else s'.1.2 = s.1.2)
  /\ is_active (ae_status e) = is_none (ae_ended_at e)
  /\ (ae_status e == Succeeded) = is_some (ae_result e)
  /\ (forall result, ae_result e = Some result -> validate_result w e result = Ok tt).
Proof.
  unfold validate_execution. destruct s as [[ids active] counts]. intros H. inv_ok. subst.
  simp_bool. cbn. split_and!; try done.
  - destruct (is_active (ae_status e)); [|done]. cbn in *. simp_bool. done.
  - intros result Hr. rewrite Hr in *.
    match goal with H : validate_result _ _ _ = Ok ?u |- _ => by destruct u end.
Qed.

Record agents_wf (w : Workflow) : Prop := {
  agents_ids : NoDup (map ae_id (wf_agent_executions w));
  agents_active :
    NoDup (map ae_work_item_id
             (List.filter (fun e => is_active (ae_status e)) (wf_agent_executions w)));
  agents_ended : forall e, e ∈ wf_agent_executions w ->
    is_active (ae_status e) = is_none (ae_ended_at e);
  agents_results : forall e, e ∈ wf_agent_executions w ->
    (ae_status e == Succeeded) = is_some (ae_result e);
  agents_checked : forall e result, e ∈ wf_agent_executions w -> ae_result e = Some result ->
    validate_result w e result = Ok tt;
  agents_origins : forall f, f ∈ wf_findings w -> validate_origin w tt f = Ok tt
}.

Lemma validate_agent_integrity_Ok w : validate_agent_integrity w = Ok tt -> agents_wf w.
Proof.
  unfold validate_agent_integrity. intros H. inv_ok. apply for_each_unit in H.
  rewrite Forall_forall in H.
  pose proof (for_each_visits _ _ _ _ Hok) as Hv. rewrite Forall_forall in Hv.
  constructor; try done.
  - rewrite <-filter_map_Some.
    apply (for_each_distinct (fun s : agent_loop_state => s.1.1) (fun e => Some (ae_id e))
             (validate_execution w) _ ltac:(intros; apply validate_execution_state in H0; tauto)
             _ _ Hok).
  - rewrite <-filter_map_filter.
    refine (proj1 (for_each_distinct (fun s : agent_loop_state => s.1.2) _
                     (validate_execution w) _ _ _ _ Hok)).
    intros s e s' Hs. apply validate_execution_state in Hs as (_ & _ & Hs & _).
    by destruct (is_active (ae_status e)).
  - intros e He. destruct (Hv e He) as (s & s' & Hs). apply validate_execution_state in Hs. tauto.
  - intros e He. destruct (Hv e He) as (s & s' & Hs). apply validate_execution_state in Hs. tauto.
  - intros e result He. destruct (Hv e He) as (s & s' & Hs).
    apply validate_execution_state in Hs as (_ & _ & _ & _ & _ & Hr). auto.
Qed.

Record workflow_wf (w : Workflow) (pl : ContextFixture) : Prop := {
  wf_plan : plan w = Ok pl;
  wf_context : wf_context_id w = cf_context_id pl;
  wf_source_id : wi_id (wf_source w) = cf_source_task_id pl;
  wf_next_ids : forall n, wf_next w = Some n ->
    wi_id n = cf_next_task_id pl /\ wi_step_id n = cf_next_step_id pl;
  wf_attempts : NoDup (map wi_attempt_id (all_attempts w));
  wf_attempt_numbers :
    NoDup (map (fun it => (wi_id it, wi_attempt_number it)) (all_attempts w));
  wf_attempt_ok : forall it, it ∈ all_attempts w ->
    wi_workflow_instance_id it = wf_id w /\ 0 <= wi_revision it
    /\ is_some (wi_assignee it) = is_some (wi_acting_assignment_id it);
  wf_archived : forall it, it ∈ wf_completed_attempts w -> validate_archived w tt it = Ok tt;
  wf_open_periods :
    NoDup (map war_attempt_id
             (List.filter (fun r => is_none (war_ended_at r)) (wf_assignments w)));
  wf_period : forall r, r ∈ wf_assignments w -> war_ended_at r = None ->
    exists it, it ∈ current_items w /\ wi_attempt_id it = war_attempt_id r
      /\ wi_id it = war_task_id r /\ wi_work_assignment_id it = Some (war_id r)
      /\ wi_assignee it = Some (war_principal r)
      /\ wi_acting_assignment_id it = Some (war_acting_assignment_id r);
  wf_agents : agents_wf w;
  wf_candidates : validate_candidate_integrity w = Ok tt
}.

Lemma validate_attempt_state w s it s' :
  validate_attempt w s it = Ok s' ->
  wi_attempt_id it ∉ s.1 /\ s'.1 = {[wi_attempt_id it]} ∪ s.1
  /\ (wi_id it, wi_attempt_number it) ∉ s.2
  /\ s'.2 = {[(wi_id it, wi_attempt_number it)]} ∪ s.2
  /\ wi_workflow_instance_id it = wf_id w /\ 0 <= wi_revision it
  /\ is_some (wi_assignee it) = is_some (wi_acting_assignment_id it).
Proof.
  unfold validate_attempt. destruct s as [ids numbers]. intros H. inv_ok. subst. simp_bool.
  cbn. split_and!; done.
Qed.

Lemma validate_period_state w open r open' :
  validate_period w open r = Ok open' ->
  match war_ended_at r with
  | Some _ => open' = open
  | None => war_attempt_id r ∉ open /\ open' = {[war_attempt_id r]} ∪ open
      /\ exists it, it ∈ current_items w /\ wi_attempt_id it = war_attempt_id r
      /\ wi_id it = war_task_id r /\ wi_work_assignment_id it = Some (war_id r)
      /\ wi_assignee it = Some (war_principal r)
      /\ wi_acting_assignment_id it = Some (war_acting_assignment_id r)
  end.
Proof.
  unfold validate_period. destruct (war_ended_at r); cbn [is_some]; [by intros [= <-]|].
  intros H. inv_ok. subst. simp_bool. split_and!; try done.
  match goal with H : find _ _ = Some ?it |- _ =>
    apply find_Some_iff in H as [? ?]; simp_bool; exists it; done end.
Qed.

Lemma validate_integrity_wf w :
  validate_integrity w = Ok tt -> exists pl, workflow_wf w pl.
Proof.
  unfold validate_integrity. intros H. inv_ok. simp_bool. exists a.
  repeat match goal with
  | u : unit |- _ => destruct u
  end.
  pose proof (for_each_visits _ _ _ _ Hok0) as Hv. rewrite Forall_forall in Hv.
  pose proof (for_each_visits _ _ _ _ Hok2) as Hp. rewrite Forall_forall in Hp.
  constructor; try done.
  - intros n Hn. rewrite Hn in *. cbn in *. by simp_bool.
  - rewrite <-filter_map_Some.
    refine (proj1 (for_each_distinct fst _ (validate_attempt w) _ _ _ _ Hok0)).
    intros s it s' Hs. apply validate_attempt_state in Hs. tauto.
  - rewrite <-filter_map_Some.
    refine (proj1 (for_each_distinct snd _ (validate_attempt w) _ _ _ _ Hok0)).
    intros s it s' Hs. apply validate_attempt_state in Hs. tauto.
  - intros it Hit. destruct (Hv it Hit) as (s & s' & Hs). apply validate_attempt_state in Hs. tauto.
  - apply for_each_unit in Hok1. by rewrite Forall_forall in Hok1.
  - rewrite <-filter_map_filter.
    refine (proj1 (for_each_distinct (fun s => s) _ (validate_period w) _ _ _ _ Hok2)).
    intros s r s' Hs. apply validate_period_state in Hs.
    destruct (war_ended_at r); cbn; tauto.
  - intros r Hr He. destruct (Hp r Hr) as (s & s' & Hs). apply validate_period_state in Hs.
    rewrite He in Hs. tauto.
  - by apply validate_agent_integrity_Ok.
Qed.

End IntegrityFacts.
Local Open Scope Z_scope.

(** The private copy [apply] works on, evaluated at the commit instant. *)
Definition evaluated (w : Workflow) (t : Instant) : Workflow :=
  set_wf_authority (set_auth_evaluated_at (Some t) (wf_authority w)) w.

(** What [apply] writes after the arm has run: closed periods, the next revision, and stale
    executions failed. *)
Definition renumbered (w1 : Workflow) (revision : Z) (now : string) : Workflow :=
  set_wf_revision revision (close_finished_assignments w1 now).

Definition settled (w1 : Workflow) (revision : Z) (now : string) : Workflow :=
  set_wf_agent_executions
    (map (refresh (renumbered w1 revision now) now) (wf_agent_executions w1))
    (renumbered w1 revision now).

Lemma update_executions_ids f ids :
  (forall e, ae_id (f e) = ae_id e) ->
  forall w w', for_each (update_execution f) w ids = Ok w' ->
  map ae_id (wf_agent_executions w') = map ae_id (wf_agent_executions w).
Proof.
  intros Hf. induction ids as [|id ids IH]; intros w w'; cbn; [by intros [= <-]|].
  intros H. inv_ok. rewrite (IH _ _ H). unfold update_execution in Hok. inv_ok. subst. cbn.
  by apply map_update_first.
Qed.

Section ApplyFacts.
Context {X : Externals}.

Record committed (w : Workflow) (actor : VerifiedActor) (c : Command) (now : string)
    (fresh : nat -> Uuid) (t : Instant) (it : WorkItem) (w1 w' : Workflow)
    (r : MutationResult) : Prop := {
  c_instant : rfc3339_parse now = Some t;
  c_before : validate_integrity (evaluated w t) = Ok tt;
  c_authorized : authorize_command (evaluated w t) actor c = Ok tt;
  c_item : item w (command_task_id c) = Ok it;
  c_expected : wi_revision it = cc_expected_revision (command_context c);
  c_not_held : held_blocks it c = false;
  c_arm : apply_validated (evaluated w t) actor c now fresh = Ok (w1, r);
  c_range : in_i64 (wf_revision w + 1);
  c_after : validate_integrity (settled w1 (wf_revision w + 1) now) = Ok tt;
  c_result :
    w' = set_wf_authority (wf_authority w) (settled w1 (wf_revision w + 1) now)
}.

Lemma workflow_try_apply_Ok w actor c now fresh w' r :
  try_apply w actor c now fresh = Ok (w', r) ->
  exists t it w1, committed w actor c now fresh t it w1 w' r.
Proof.
  unfold try_apply, parse_instant. intros H. inv_arm.
  repeat match goal with u : unit |- _ => destruct u end.
  match goal with
  | Ha : apply_validated _ _ _ _ _ = Ok (?w1, ?r),
    Hi : invalidate_agent_contexts _ _ = Ok ?w3,
    Hv : validate_integrity ?w3 = Ok tt |- _ =>
      pose proof (proj1 (proj2 (apply_validated_frame _ _ _ _ _ _ _ Ha))) as Hrev;
      pose proof Hi as Hi'; pose proof Hv as Hv';
      apply validate_integrity_wf in Hv' as [pl Hwf];
      apply update_executions_ids in Hi'; [|done];
      apply invalidate_Ok in Hi; [|rewrite <-Hi'; apply (wf_agents _ _ Hwf)]
  end.
  cbn in Hrev. simp_bool.
  match goal with
  | H : rfc3339_parse now = Some ?t, Ha : apply_validated _ _ _ _ _ = Ok (?w1, r) |- _ =>
      exists t; eexists; exists w1
  end.
  subst. constructor; unfold settled, renumbered; rewrite <-?Hrev; done.
Qed.

Lemma workflow_apply_Ok w actor c now fresh w' r :
  apply w actor c now fresh = (w', Ok r) ->
  exists t it w1, committed w actor c now fresh t it w1 w' r.
Proof. intros H%commit_Ok. by apply workflow_try_apply_Ok. Qed.

Lemma workflow_apply_Err w actor c now fresh w' e :
  apply w actor c now fresh = (w', Err e) -> w' = w.
Proof. apply commit_Err. Qed.

End ApplyFacts.
