(* ===== verification/Machine.v ===== *)
(** * Machine: the two-step workflow as an abstract state machine

    [task_step] is the life cycle of one task as the commands see it, [phase_step] the machine
    of the pair of tasks: the source step and the optional target step.  [arm_items] says what
    each command does to the two current items; the refinement and the revision theorems are
    read off it. *)
From stdpp Require Import base gmap sets list strings relations.
From Stdlib Require Import ZArith Lia.
From S2P Require Import Prelude WorkTypes WorkSetters Text Externals Principals Organization.
From S2P Require Import Context WorkflowReads Evidence Agent Integrity Files AgentRun Commands.
From S2P Require Import WorkflowFacts.

Local Open Scope Z_scope.

(** ** The abstract machine *)

Definition activate (s : TaskState) : TaskState :=
  match s with Ready => Active | s => s end.

(** What a command does to the state of the task it addresses. *)
Definition task_step (c : Command) (s s' : TaskState) : Prop :=
  match c with
  | Hold _ _ _ _ => s = Active /\ s' = Held
  | Resume _ _ _ _ => s = Held /\ s' = Active
  | Complete _ _ _ _ => s = Active /\ s' = Completed
  | Claim _ _ => s = Ready /\ s' = Active
  | Assign _ _ _ _ _ _ => s <> Completed /\ s' = activate s
  | CancelAgentExecution _ _ _ _ => s <> Held /\ s' = s
  | Submit _ _ _ _ _ _ _ | Return _ _ _ _ _ _ _ => False
  | _ => s = Active /\ s' = Active
  end.

Definition completes (c : Command) : bool :=
  match c with Complete _ _ _ _ => true | _ => false end.

Definition phase : Type := TaskState * option TaskState.

Inductive phase_step : Command -> phase -> phase -> Prop :=
| on_source c s s' n :
    task_step c s s' -> completes c = false -> phase_step c (s, n) (s', n)
| on_target c s n n' :
    task_step c n n' -> phase_step c (s, Some n) (s, Some n')
| on_submit task context artifacts attempt ers frs drs n :
    n = None \/ n = Some Completed ->
    phase_step (Submit task context artifacts attempt ers frs drs) (Active, n)
      (Completed, Some Ready)
| on_return task context attempt submission target transition reason :
    phase_step (Return task context attempt submission target transition reason)
      (Completed, Some Active) (Ready, Some Completed).

Definition phase_of (w : Workflow) : phase :=
  (wi_state (wf_source w), option_map wi_state (wf_next w)).

(** At most one of the two steps is open, and a step is open until the target is completed. *)
Definition phase_ok (p : phase) : Prop :=
  match p with
  | (s, None) => s <> Completed
  | (s, Some n) => s = Completed \/ n = Completed
  end.

(** A completed task stays completed, and only [Complete] completes one. *)
Lemma task_step_completed c s s' :
  task_step c s s' ->
  (s = Completed -> s' = Completed)
  /\ (s' = Completed -> s = Completed \/ completes c = true).
Proof. destruct c, s; cbn; naive_solver. Qed.

Lemma phase_step_ok c p p' : phase_step c p p' -> phase_ok p -> phase_ok p'.
Proof.
  intros [? s s' [] H Hc|? s n n' H| |]; cbn; try tauto.
  all: apply task_step_completed in H as [H1 H2]; intuition congruence.
Qed.

(** ** The two current items before and after a command *)

Definition items (w : Workflow) : WorkItem * option WorkItem := (wf_source w, wf_next w).

Lemma items_put w t it :
  items (put_item w t it)
  = if t == wi_id (wf_source w) then (it, wf_next w) else (wf_source w, Some it).
Proof. unfold items, put_item. by case_bool_decide. Qed.

Definition cancels (c : Command) : bool :=
  match c with CancelAgentExecution _ _ _ _ => true | _ => false end.

Record item_update (c : Command) (it it' : WorkItem) : Prop := {
  up_id : wi_id it' = wi_id it;
  up_attempt : wi_attempt_id it' = wi_attempt_id it;
  up_number : wi_attempt_number it' = wi_attempt_number it;
  up_step : wi_step_id it' = wi_step_id it;
  up_revision : wi_revision it' = wi_revision it + 1;
  up_range : in_i64 (wi_revision it + 1);
  up_state : task_step c (wi_state it) (wi_state it')
}.

Inductive item_effect (w : Workflow) (c : Command) (now : string) (fresh : nat -> Uuid)
    (it : WorkItem) : WorkItem * option WorkItem -> Prop :=
| effect_none :
    cancels c = true -> wi_state it <> Held -> item_effect w c now fresh it (items w)
| effect_put it' w' :
    item_update c it it' ->
    (completes c = true -> it <> wf_source w) ->
    items w' = items (put_item w (command_task_id c) it') ->
    item_effect w c now fresh it (items w')
| effect_submit pl sid task context artifacts attempt ers frs drs n :
    c = Submit task context artifacts attempt ers frs drs ->
    plan w = Ok pl -> it = wf_source w -> wi_state it = Active ->
    (forall p, wf_next w = Some p -> wi_state p = Completed) ->
    in_i64 (wi_revision it + 1) ->
    n = next_numbers w pl (fresh 1%nat) -> in_u32 n.1.1 -> in_i64 n.1.2 ->
    item_effect w c now fresh it
      (submitted_source now sid it, Some (ready_target w pl sid n.1.1 n.1.2 n.2 now))
| effect_return task context attempt submission target transition reason :
    c = Return task context attempt submission target transition reason ->
    wf_next w = Some it -> wi_state it = Active -> wi_state (wf_source w) = Completed ->
    in_i64 (wi_revision it + 1) -> in_i64 (wi_revision (wf_source w) + 1) ->
    in_u32 (wi_attempt_number (wf_source w) + 1) ->
    item_effect w c now fresh it
      (reopened w (fresh 1%nat) (fresh 0%nat) submission now,
       Some (set_wi_return_instruction_id (Some (fresh 1%nat)) (finished now it))).

Section Machine.
Context {X : Externals}.

Lemma is_next_not_source w pl it :
  workflow_wf w pl -> is_next w it = true -> wi_id it <> wi_id (wf_source w).
Proof.
  intros Hw. unfold is_next, is_ok_and. rewrite (wf_plan _ _ Hw). intros H. simp_bool.
  rewrite (wf_source_id _ _ Hw). intros Heq.
  pose proof (wf_plan _ _ Hw) as Hp. unfold plan in Hp. inv_ok.
  apply context_fixture_Some in Hp as [Hp _]. apply fixture_distinct in Hp as [Hp _]. congruence.
Qed.

Lemma item_not_source w id it :
  item w id = Ok it -> wi_id it <> wi_id (wf_source w) -> wf_next w = Some it.
Proof. rewrite item_Ok. intros [[-> ->]|(_ & ? & _)]; done. Qed.

(** Bumping the record revision of the addressed item. *)
Lemma record_items w w0 w1 w2 c now fresh it :
  item w (command_task_id c) = Ok it ->
  next_record_revision w0 (command_task_id c) = Ok w1 ->
  items w0 = items w -> items w2 = items w1 ->
  task_step c (wi_state it) (wi_state it) -> completes c = false ->
  item_effect w c now fresh it (items w2).
Proof.
  intros Hit H Hi H2 Hs Hc. inv_arm. injection Hi as Hi1 Hi2.
  match goal with H : item_mut w0 _ ?e = Ok ?b |- _ =>
    assert (b = it) as -> by
      (pose proof (item_item_mut _ _ _ e Hit) as Hm; apply item_mut_Ok in H, Hm;
       rewrite Hi1, Hi2 in H; naive_solver)
  end.
  apply (effect_put _ _ _ _ _ (set_wi_revision (wi_revision it + 1) it)).
  - by constructor.
  - by rewrite Hc.
  - by rewrite H2, !items_put, Hi1, Hi2.
Qed.

Lemma source_items w w0 w1 c now fresh :
  bump_source w0 = Ok w1 -> items w0 = items w ->
  command_task_id c = wi_id (wf_source w) ->
  task_step c (wi_state (wf_source w)) (wi_state (wf_source w)) -> completes c = false ->
  item_effect w c now fresh (wf_source w) (items w1).
Proof.
  intros H Hi Ht Hs Hc. inv_arm. injection Hi as Hi1 Hi2. rewrite Hi1 in *.
  apply (effect_put _ _ _ _ _ (set_wi_revision (wi_revision (wf_source w) + 1) (wf_source w))).
  - by constructor.
  - by rewrite Hc.
  - rewrite items_put, bool_decide_eq_true_2 by done. unfold items. cbn. by rewrite Hi2.
Qed.

Lemma evidence_items w actor c now fresh it w1 r :
  item w (command_task_id c) = Ok it ->
  apply_evidence w actor c now (fresh 0%nat) = Ok (w1, r) ->
  item_effect w c now fresh it (items w1).
Proof.
  intros Hit. unfold apply_evidence. rewrite Hit. cbn [rbind]. intros H. inv_ok. simp_bool.
  destruct c; inv_ok; unfold register_evidence, register_finding, record_decision in H;
    inv_ok; simplify_eq; (eapply record_items; [done|eassumption|done..]).
Qed.

Lemma agent_items w actor c now fresh it w1 r :
  item w (command_task_id c) = Ok it -> held_blocks it c = false ->
  apply_agent w actor c now = Ok (w1, r) ->
  item_effect w c now fresh it (items w1).
Proof.
  intros Hit Hh. unfold apply_agent. rewrite Hit. cbn [rbind]. intros H.
  destruct c; inv_ok.
  - unfold request_agent_execution in H. inv_ok. simp_bool. simplify_eq.
    eapply record_items; [done|eassumption|done..].
  - unfold cancel_agent_execution in H. inv_ok. simplify_eq.
    assert (wi_state it <> Held) as Hnh.
    { unfold held_blocks in Hh. rewrite andb_true_r in Hh. by simp_bool. }
    destruct (is_active _); inv_ok; [|simplify_eq; by apply effect_none].
    eapply record_items; [done|eassumption|done|..|done].
    + unfold update_execution in *. inv_ok. by simplify_eq.
    + done.
Qed.

Lemma editable_source_Ok w task :
  editable_source w task = Ok tt -> task = wi_id (wf_source w) /\ wi_state (wf_source w) = Active.
Proof. unfold editable_source. intros H. inv_ok. by simp_bool. Qed.

Lemma source_item w id it : item w id = Ok it -> id = wi_id (wf_source w) -> it = wf_source w.
Proof. rewrite item_Ok. naive_solver. Qed.

Lemma files_items w actor c now fresh it w1 r :
  item w (command_task_id c) = Ok it ->
  apply_files w actor c now fresh = Ok (w1, r) ->
  item_effect w c now fresh it (items w1).
Proof.
  intros Hit H.
  destruct c; cbn in H; inv_ok;
    unfold create_file_artifact, write_artifact_content, discard_artifact, import_submission in H;
    inv_ok; simplify_eq;
    match goal with H : editable_source _ _ = Ok ?u |- _ =>
      destruct u; apply editable_source_Ok in H as [-> ?] end;
    apply source_item in Hit as ->; try done; (eapply source_items; [eassumption|done..]).
Qed.

Lemma draft_items w actor task id c value now fresh it w1 r :
  item w task = Ok it ->
  apply_save_draft w actor task id value (fresh 0%nat) = Ok (w1, r) ->
  item_effect w (SaveDraft task id c value) now fresh it (items w1).
Proof.
  intros Hit (w0 & a & Hs & -> & H & Hb)%apply_save_draft_Ok.
  apply source_item in Hit as ->; [|done].
  eapply source_items; [eassumption| |done..].
  destruct id; [apply save_existing_Ok in H|apply save_new_Ok in H]; by naive_solver.
Qed.

Lemma activate_if it :
  wi_state (if wi_state it == Ready then set_wi_state Active it else it)
  = activate (wi_state it).
Proof. by destruct (wi_state it) eqn:E; cbn; rewrite ?E. Qed.

Lemma claimed_update c actor acting record it :
  in_i64 (wi_revision it + 1) -> task_step c (wi_state it) (activate (wi_state it)) ->
  item_update c it (claimed_by actor acting record it).
Proof.
  intros Hr Hs. unfold claimed_by.
  constructor; cbn; rewrite ?activate_if; try done; by case_bool_decide.
Qed.

Lemma arm_items w actor c now fresh it pl w1 r :
  workflow_wf w pl -> item w (command_task_id c) = Ok it -> held_blocks it c = false ->
  apply_validated w actor c now fresh = Ok (w1, r) ->
  item_effect w c now fresh it (items w1).
Proof.
  intros Hw Hit Hh H.
  destruct c; cbn [apply_validated command_task_id] in *;
    eauto using evidence_items, agent_items, files_items, draft_items.
  - apply apply_hold_resume_Ok in H as (b & Hb & _ & Hp & Hr & ->).
    rewrite Hit in Hb; injection Hb as <-.
    apply pause_action_Some in Hp as (Hs & _).
    by apply (effect_put _ _ _ _ _ (paused false it)).
  - apply apply_hold_resume_Ok in H as (b & Hb & _ & Hp & Hr & ->).
    rewrite Hit in Hb; injection Hb as <-.
    apply pause_action_Some in Hp as (Hs & _).
    by apply (effect_put _ _ _ _ _ (paused true it)).
  - apply apply_complete_Ok in H as (b & n & Hb & _ & Hp & Hn & Hr & ->).
    rewrite Hit in Hb; injection Hb as <-.
    apply completion_action_Some in Hp as (Hs & Hx & _).
    pose proof (is_next_not_source _ _ _ Hw Hx) as Hne.
    rewrite (item_not_source _ _ _ Hit Hne) in Hn. injection Hn as <-.
    apply (effect_put _ _ _ _ _ (finished now it)); [done|naive_solver|].
    rewrite items_put, bool_decide_eq_false_2; [done|]. by rewrite <-(item_id _ _ _ Hit).
  - apply apply_return_Ok in H. destruct H as (b & n & rt & i & Hb & H). destruct_and!.
    rewrite Hit in Hb; injection Hb as <-.
    match goal with H : return_transition _ _ _ = Some _ |- _ =>
      apply return_transition_Some in H as (Hs & Hc & Hx & _) end.
    pose proof (is_next_not_source _ _ _ Hw Hx) as Hne.
    match goal with H : wf_next w = Some n |- _ =>
      pose proof H as Hn; rewrite (item_not_source _ _ _ Hit Hne) in H; injection H as <- end.
    subst. by eapply effect_return.
  - apply apply_assign_Ok in H. destruct H as (b & record & Hb & H). destruct_and!.
    rewrite Hit in Hb; injection Hb as <-. subst.
    eapply effect_put; [by apply claimed_update|done|]. by unfold items; cbn; put_cases.
  - apply apply_claim_Ok in H. destruct H as (b & record & H). destruct_and!.
    match goal with H : item_mut _ _ _ = Ok _ |- _ =>
      rewrite (item_item_mut _ _ _ _ Hit) in H; injection H as <- end. subst.
    eapply effect_put; [|done|by unfold items; cbn; put_cases].
    apply claimed_update; [done|]. match goal with H : wi_state _ = Ready |- _ => by rewrite H end.
  - apply apply_submit_Ok in H. destruct H as (q & s & seen & n & H). destruct_and!. subst.
    apply source_item in Hit as ->; [|done].
    eapply effect_submit; try done. naive_solver.
Qed.

(** ** The items of a committed command *)

Lemma committed_items w actor c now fresh t it w1 w' r :
  committed w actor c now fresh t it w1 w' r ->
  exists pl, workflow_wf (evaluated w t) pl
    /\ item_effect (evaluated w t) c now fresh it (items w').
Proof.
  intros [? Hb _ Hit _ Hh Ha _ _ ->].
  apply validate_integrity_wf in Hb as [pl Hw]. exists pl. split; [done|].
  by apply (arm_items (evaluated w t) actor c now fresh it pl w1 r).
Qed.

Lemma put_phase w c it it' w' :
  item w (command_task_id c) = Ok it -> items w' = items (put_item w (command_task_id c) it') ->
  task_step c (wi_state it) (wi_state it') ->
  (completes c = true -> it <> wf_source w) ->
  phase_step c (phase_of w) (phase_of w').
Proof.
  intros Hit Hi Hs Hc. rewrite items_put in Hi. apply item_Ok in Hit.
  unfold phase_of. destruct Hit as [[Ht ->]|(Ht & Hn & _)].
  - rewrite bool_decide_eq_true_2 in Hi by done. injection Hi as -> ->.
    apply on_source; [done|]. destruct (completes c); [by destruct Hc|done].
  - rewrite bool_decide_eq_false_2 in Hi by done. injection Hi as -> ->. rewrite Hn. cbn.
    by apply on_target.
Qed.

Lemma effect_phase w c now fresh it w' :
  item w (command_task_id c) = Ok it -> item_effect w c now fresh it (items w') ->
  phase_step c (phase_of w) (phase_of w').
Proof.
  intros Hit He. remember (items w') as p eqn:Hp.
  destruct He as [Hc Hs|it' w2 Hu Hc Hi|pl sid ? ? ? ? ? ? ? n -> _ -> Hs Hn _ _ _ _|
                  ? ? ? ? ? ? ? -> Hn Hs Hc _ _ _].
  - injection Hp as Hi1 Hi2.
    replace (phase_of w') with (phase_of w) by (unfold phase_of; congruence).
    destruct c; try done. unfold phase_of. apply item_Ok in Hit as [[_ ->]|(_ & Hn & _)].
    + by apply on_source.
    + rewrite Hn. by apply on_target.
  - rewrite Hp in Hi. eapply put_phase; eauto. apply Hu.
  - injection Hp as Hi1 Hi2. unfold phase_of. rewrite <-Hi1, <-Hi2, Hs. apply on_submit.
    destruct (wf_next w) as [q|]; [right|by left]. cbn. by rewrite (Hn q).
  - injection Hp as Hi1 Hi2. unfold phase_of. rewrite <-Hi1, <-Hi2, Hn, Hc. cbn. rewrite Hs.
    apply on_return.
Qed.

(** Revisions per task never decrease, and the addressed task's increases. *)
Definition revisions_grow (w w' : Workflow) : Prop :=
  forall id it, item w id = Ok it ->
  exists it', item w' id = Ok it' /\ wi_revision it <= wi_revision it'.

#[global] Instance revisions_grow_preorder : PreOrder revisions_grow.
Proof.
  split; [intros w id it H; exists it; split; [done|lia]|].
  intros w1 w2 w3 H1 H2 id it H. destruct (H1 _ _ H) as (it2 & H' & ?).
  destruct (H2 _ _ H') as (it3 & ? & ?). exists it3. split; [done|lia].
Qed.

Lemma item_items w w' id : items w = items w' -> item w id = item w' id.
Proof. unfold item, items. by intros [= -> ->]. Qed.

Lemma put_revisions w t it it' w' :
  item w t = Ok it -> items w' = items (put_item w t it') ->
  wi_id it' = wi_id it -> wi_revision it' = wi_revision it + 1 ->
  revisions_grow w w' /\ item w' t = Ok it'.
Proof.
  intros Hit Hi Hid Hr. rewrite items_put in Hi. pose proof (item_id _ _ _ Hit) as Hc.
  apply item_Ok in Hit as [[Ht ->]|(Ht & Hn & _)].
  - rewrite bool_decide_eq_true_2 in Hi by done. injection Hi as Hs Hn.
    assert (item w' t = Ok it') as H.
    { apply item_Ok. left. rewrite Hs. split; congruence. }
    split; [|done]. intros id b [[-> ->]|(Hne & Hb & Hbi)]%item_Ok.
    + exists it'. rewrite <-Ht. split; [done|lia].
    + exists b. split; [|lia]. apply item_Ok. right. rewrite Hs, Hn. split_and!; congruence.
  - rewrite bool_decide_eq_false_2 in Hi by done. injection Hi as Hs Hn'.
    assert (item w' t = Ok it') as H.
    { apply item_Ok. right. rewrite Hs. split_and!; [done|done|congruence]. }
    split; [|done]. intros id b [[-> ->]|(Hne & Hb & Hbi)]%item_Ok.
    + exists (wf_source w). split; [|lia]. apply item_Ok. left. by rewrite Hs.
    + exists it'. rewrite Hn in Hb. injection Hb as <-. split; [|lia]. by rewrite <-Hbi, Hc.
Qed.

(** Two items with the identities of the old ones and no smaller revisions. *)
Lemma pair_revisions w w' :
  wi_id (wf_source w') = wi_id (wf_source w) ->
  wi_revision (wf_source w) <= wi_revision (wf_source w') ->
  (forall n, wf_next w = Some n ->
     exists n', wf_next w' = Some n' /\ wi_id n' = wi_id n /\ wi_revision n <= wi_revision n') ->
  revisions_grow w w'.
Proof.
  intros Hs Hr Hn id it [[-> ->]|(Hne & Hit & Hid)]%item_Ok.
  - exists (wf_source w'). split; [|done]. apply item_Ok. left. by rewrite Hs.
  - destruct (Hn _ Hit) as (n' & Hn' & Hi & ?). exists n'. split; [|done].
    apply item_Ok. right. rewrite Hs. split_and!; congruence.
Qed.

Lemma effect_revisions w pl c now fresh it w' :
  workflow_wf w pl ->
  item w (command_task_id c) = Ok it -> item_effect w c now fresh it (items w') ->
  revisions_grow w w'
  /\ (cancels c = false ->
      exists it', item w' (command_task_id c) = Ok it' /\ wi_revision it' = wi_revision it + 1).
Proof.
  intros Hw Hit He. remember (items w') as p eqn:Hp.
  destruct He as [Hc Hs|it' w2 Hu Hc Hi|q sid ? ? ? ? ? ? ? n -> Hq -> Hs Hn _ -> _ _|
                  ? ? ? ? ? ? ? -> Hn Hs Hc _ _ _].
  - split; [|congruence]. intros id b Hb. rewrite (item_items _ _ _ Hp) in Hb.
    exists b. split; [done|lia].
  - rewrite Hp in Hi. destruct Hu as [Hid _ _ _ Hr _ _].
    destruct (put_revisions _ _ _ _ _ Hit Hi Hid Hr) as [? ?]. eauto.
  - injection Hp as Hi1 Hi2. rewrite (wf_plan _ _ Hw) in Hq. injection Hq as <-.
    split.
    + apply pair_revisions; rewrite <-?Hi1, <-?Hi2; cbn; [done|lia|].
      intros p Hnp. eexists. split; [done|]. unfold next_numbers. rewrite Hnp. cbn.
      destruct (wf_next_ids _ _ Hw p Hnp) as [-> _]. split; [done|lia].
    + intros _. exists (wf_source w'). split; [|by rewrite <-Hi1].
      apply item_Ok. left. rewrite <-Hi1. split; [|done]. symmetry. apply (item_id _ _ _ Hit).
  - injection Hp as Hi1 Hi2. pose proof (item_id _ _ _ Hit) as Hid.
    split.
    + apply pair_revisions; rewrite <-?Hi1, <-?Hi2; cbn; [done|lia|].
      intros p Hnp. rewrite Hn in Hnp. injection Hnp as <-.
      eexists. split; [done|]. cbn. split; [done|lia].
    + intros _. exists (set_wi_return_instruction_id (Some (fresh 1%nat)) (finished now it)).
      split; [|done].
      apply item_Ok. right. rewrite <-Hi1, <-Hi2. cbn in *. split_and!; [|done|done].
      rewrite <-Hid. rewrite (wf_source_id _ _ Hw).
      destruct (wf_next_ids _ _ Hw it Hn) as [-> _].
      pose proof (wf_plan _ _ Hw) as Hpl. unfold plan in Hpl. inv_ok.
      apply context_fixture_Some in Hpl as [Hpl _]. apply fixture_distinct in Hpl as [? _]. done.
Qed.

End Machine.
