(* ===== verification/Runs.v ===== *)
(** * Runs: sequences of mutations of one aggregate

    [run_step] has one constructor per public mutator of the aggregate; [evolves] is what any
    sequence of them preserves.  [rest_fixed] lists the collections a command does not touch. *)
From stdpp Require Import base gmap sets list strings relations.
From Stdlib Require Import ZArith Lia.
From S2P Require Import Prelude WorkTypes WorkSetters Text Externals Principals Organization.
From S2P Require Import Context WorkflowReads Evidence Agent Integrity Files AgentRun Commands.
From S2P Require Import WorkflowFacts Machine.

Local Open Scope Z_scope.

(** ** Collections an arm leaves alone *)

Definition touches_agents (c : Command) : bool :=
  match c with
  | RequestAgentExecution _ _ _ _ _ | CancelAgentExecution _ _ _ _ => true
  | _ => false
  end.

Definition touches_assignments (c : Command) : bool :=
  match c with Claim _ _ | Assign _ _ _ _ _ _ => true | _ => false end.

Definition touches_snapshots (c : Command) : bool :=
  match c with Submit _ _ _ _ _ _ _ => true | _ => false end.

Definition touches_artifacts (c : Command) : bool :=
  match c with
  | SaveDraft _ _ _ _ | CreateFileArtifact _ _ _ _ | WriteArtifactContent _ _ _ _ _
  | DiscardArtifact _ _ _ _ | ImportSubmission _ _ _ _ => true
  | _ => false
  end.

Definition touches_completed (c : Command) : bool :=
  match c with Submit _ _ _ _ _ _ _ | Return _ _ _ _ _ _ _ => true | _ => false end.

Definition rest_fixed (c : Command) (w w1 : Workflow) : Prop :=
  (touches_agents c = false -> wf_agent_executions w1 = wf_agent_executions w)
  /\ (touches_assignments c = false -> wf_assignments w1 = wf_assignments w)
  /\ (touches_snapshots c = false -> wf_snapshots w1 = wf_snapshots w)
  /\ (touches_artifacts c = false -> wf_artifacts w1 = wf_artifacts w)
  /\ (touches_completed c = false -> wf_completed_attempts w1 = wf_completed_attempts w).

Lemma put_item_rest w t it :
  wf_agent_executions (put_item w t it) = wf_agent_executions w
  /\ wf_assignments (put_item w t it) = wf_assignments w
  /\ wf_snapshots (put_item w t it) = wf_snapshots w
  /\ wf_artifacts (put_item w t it) = wf_artifacts w
  /\ wf_completed_attempts (put_item w t it) = wf_completed_attempts w.
Proof. put_cases; done. Qed.

Lemma put_item_revision w t it : wf_revision (put_item w t it) = wf_revision w.
Proof. by put_cases. Qed.

#[local] Arguments put_item : simpl never.

Ltac solve_rest :=
  unfold rest_fixed; cbn;
  repeat match goal with
  | |- context [put_item ?w ?t ?it] =>
      let E1 := fresh in let E2 := fresh in let E3 := fresh in let E4 := fresh in
      let E5 := fresh in
      destruct (put_item_rest w t it) as (E1 & E2 & E3 & E4 & E5); cbn in E1, E2, E3, E4, E5;
      rewrite ?E1, ?E2, ?E3, ?E4, ?E5; clear E1 E2 E3 E4 E5
  end;
  split_and!; done.

(** ** Records that only gain their end *)

(** An execution that is over never changes; an active one keeps what was requested. *)
Definition same_request (e e' : AgentExecution) : Prop :=
  ae_id e' = ae_id e /\ ae_context_id e' = ae_context_id e
  /\ ae_work_item_id e' = ae_work_item_id e /\ ae_attempt_id e' = ae_attempt_id e
  /\ ae_requested_by e' = ae_requested_by e
  /\ ae_requester_responsibility e' = ae_requester_responsibility e
  /\ ae_executed_by e' = ae_executed_by e /\ ae_purpose e' = ae_purpose e
  /\ ae_evidence_revision_refs e' = ae_evidence_revision_refs e.

Definition execution_evolves (e e' : AgentExecution) : Prop :=
  same_request e e' /\ (is_active (ae_status e) = false -> e' = e).

#[global] Instance execution_evolves_preorder : PreOrder execution_evolves.
Proof.
  split; [intros e; by split; [unfold same_request; split_and!|]|].
  intros e1 e2 e3 [H1 A1] [H2 A2]. split.
  - unfold same_request in *. destruct_and!. split_and!; congruence.
  - intros Ha. pose proof (A1 Ha) as ->. auto.
Qed.

(** A closed responsibility period never changes; an open one can only be closed. *)
Definition period_evolves (r r' : WorkAssignmentRecord) : Prop :=
  r' = r
  \/ war_ended_at r = None
     /\ exists now ended_by, r' = set_war_ended_by ended_by (set_war_ended_at (Some now) r).

#[global] Instance period_evolves_preorder : PreOrder period_evolves.
Proof.
  split; [by left|].
  intros r1 r2 r3 [->|(H1 & now & by_ & ->)] [->|(H2 & now' & by' & ->)];
    unfold period_evolves; try naive_solver.
Qed.

(** What every sequence of mutations preserves. *)
Record evolves (w w' : Workflow) : Prop := {
  ev_workflow : wf_id w' = wf_id w;
  ev_definition : wf_definition_version_id w' = wf_definition_version_id w;
  ev_context : wf_context_id w' = wf_context_id w;
  ev_inputs : wf_input_resources w' = wf_input_resources w;
  ev_history : wf_history w `prefix_of` wf_history w';
  ev_snapshots : wf_snapshots w `prefix_of` wf_snapshots w';
  ev_evidence : wf_evidence w `prefix_of` wf_evidence w';
  ev_findings : wf_findings w `prefix_of` wf_findings w';
  ev_decisions : wf_decisions w `prefix_of` wf_decisions w';
  ev_returns : wf_return_instructions w `prefix_of` wf_return_instructions w';
  ev_completed : wf_completed_attempts w `prefix_of` wf_completed_attempts w';
  ev_generated : wf_generated_artifacts w `prefix_of` wf_generated_artifacts w';
  ev_suggested : wf_suggested_actions w `prefix_of` wf_suggested_actions w';
  ev_executions :
    grows execution_evolves (wf_agent_executions w) (wf_agent_executions w');
  ev_periods : grows period_evolves (wf_assignments w) (wf_assignments w');
  ev_revision : wf_revision w <= wf_revision w';
  ev_revisions : revisions_grow w w'
}.

#[global] Instance evolves_preorder : PreOrder evolves.
Proof.
  split.
  - intros w. by constructor.
  - intros w1 w2 w3 [] []. constructor; (congruence || lia || by etrans).
Qed.

(** ** Mutations *)

Section Runs.
Context {X : Externals}.

Inductive run_step (w : Workflow) : Workflow -> Prop :=
| run_apply actor c now fresh w' r :
    apply w actor c now fresh = (w', Ok r) -> run_step w w'
| run_attach p t : run_step w (attach_authority w p t)
| run_acknowledge actor ids : run_step w (attach_acknowledgements w actor ids)
| run_verify ids : run_step w (attach_verified_generations w ids)
| run_defer : run_step w (defer_generation_receipts w)
| run_start actor id now w' r :
    start_agent_execution w actor id now = (w', Ok r) -> run_step w w'
| run_finish context output now fresh w' r :
    finish_agent_execution w context output now fresh = (w', Ok r) -> run_step w w'
| run_fail actor id code now w' r :
    fail_agent_execution w actor id code now = (w', r) -> run_step w w'
| run_interrupt actor now w' r :
    interrupt_agent_executions w actor now = (w', r) -> run_step w w'.

Lemma arm_rest w actor c now fresh w1 r :
  apply_validated w actor c now fresh = Ok (w1, r) -> rest_fixed c w w1.
Proof.
  destruct c; cbn; intros H.
  - apply apply_hold_resume_Ok in H as (? & _ & _ & _ & _ & ->). solve_rest.
  - apply apply_hold_resume_Ok in H as (? & _ & _ & _ & _ & ->). solve_rest.
  - apply apply_complete_Ok in H as (? & ? & _ & _ & _ & _ & _ & ->). solve_rest.
  - unfold apply_agent, request_agent_execution in H. inv_arm. solve_rest.
  - unfold apply_agent, cancel_agent_execution in H. inv_arm.
    destruct (is_active _); inv_arm; solve_rest.
  - unfold apply_evidence, register_evidence in H. inv_arm. solve_rest.
  - unfold apply_evidence, register_finding in H. inv_arm. solve_rest.
  - unfold apply_evidence, record_decision in H. inv_arm. solve_rest.
  - apply apply_return_Ok in H. destruct H as (? & ? & ? & ? & H). destruct_and!. subst.
    solve_rest.
  - apply apply_assign_Ok in H. destruct H as (? & ? & H). destruct_and!. subst. solve_rest.
  - apply apply_save_draft_Ok in H as (w0 & a & _ & _ & H & Hb).
    apply bump_source_Ok in Hb as [-> _].
    destruct artifact_id; [apply save_existing_Ok in H|apply save_new_Ok in H];
      [destruct H as (? & H)|]; destruct_and!; subst; solve_rest.
  - apply apply_claim_Ok in H. destruct H as (? & ? & H). destruct_and!. subst. solve_rest.
  - unfold create_file_artifact in H. inv_arm. solve_rest.
  - unfold write_artifact_content in H. inv_arm. solve_rest.
  - unfold discard_artifact in H. inv_arm. solve_rest.
  - unfold import_submission in H. inv_arm. solve_rest.
  - apply apply_submit_Ok in H. destruct H as (? & ? & ? & ? & H). destruct_and!. subst.
    solve_rest.
Qed.

(** ** Executions and periods under a command *)

Lemma update_execution_grows f w id w' :
  (forall e, find (fun e => ae_id e == id) (wf_agent_executions w) = Some e ->
             execution_evolves e (f e)) ->
  update_execution f w id = Ok w' ->
  grows execution_evolves (wf_agent_executions w) (wf_agent_executions w').
Proof.
  intros Hf. unfold update_execution. intros H. inv_ok. subst. cbn.
  apply grows_Forall2. eapply Forall2_update_found; [done|eassumption|auto].
Qed.

Lemma agent_execution_find w actor id e :
  agent_execution w actor id = Ok e ->
  find (fun e => ae_id e == id) (wf_agent_executions w) = Some e
  /\ ae_requested_by e = actor
  /\ exists it, item w (ae_work_item_id e) = Ok it
       /\ ae_attempt_id e = wi_attempt_id it /\ can_read w actor it = true.
Proof.
  unfold agent_execution. intros H. inv_ok. simp_bool. subst. eauto 10.
Qed.

Lemma arm_executions w actor c now fresh w1 r :
  apply_validated w actor c now fresh = Ok (w1, r) ->
  grows execution_evolves (wf_agent_executions w) (wf_agent_executions w1).
Proof.
  intros H. destruct (touches_agents c) eqn:Ht.
  2: { apply arm_rest in H as [He _]. by rewrite He. }
  destruct c; try done; cbn in H; unfold apply_agent in H; inv_ok.
  - unfold request_agent_execution in H. inv_arm. cbn.
    rewrite (proj1 (put_item_rest _ _ _)). apply grows_app, _.
  - unfold cancel_agent_execution in H. inv_ok. simplify_eq.
    destruct (is_active _) eqn:Ha; inv_ok; [|by simplify_eq].
    match goal with
    | Hf : agent_execution w _ _ = Ok _, Hn : next_record_revision w _ = Ok _,
      Hu : update_execution _ _ _ = Ok _ |- _ =>
        apply agent_execution_find in Hf as [Hf _];
        apply next_record_revision_Ok in Hn as (? & _ & _ & ->);
        apply update_execution_grows in Hu; rewrite (proj1 (put_item_rest _ _ _)) in *; [done|]
    end.
    intros e He. simplify_eq. split; [by unfold same_request; split_and!|]. congruence.
Qed.

Lemma end_previous_evolves previous actor now l :
  Forall2 period_evolves l (end_previous previous actor now l).
Proof.
  apply Forall2_update_first; [done|]. intros r _ Hr. simp_bool. right. eauto.
Qed.

Lemma arm_periods w actor c now fresh w1 r :
  apply_validated w actor c now fresh = Ok (w1, r) ->
  grows period_evolves (wf_assignments w) (wf_assignments w1).
Proof.
  intros H. destruct (touches_assignments c) eqn:Ht.
  2: { apply arm_rest in H as (_ & He & _). by rewrite He. }
  destruct c; try done; cbn in H.
  - apply apply_assign_Ok in H. destruct H as (? & ? & H). destruct_and!. subst. cbn.
    etrans; [apply grows_Forall2, end_previous_evolves|]. apply grows_app, _.
  - apply apply_claim_Ok in H. destruct H as (? & ? & H). destruct_and!. subst. cbn.
    apply grows_app, _.
Qed.

Lemma close_evolves open now r : period_evolves r (close_record open now r).
Proof.
  unfold close_record. destruct (_ && _) eqn:E; [|by left]. simp_bool. right. split; [done|].
  exists now, (war_ended_by r). by destruct r.
Qed.

Lemma refresh_evolves w now e : execution_evolves e (refresh w now e).
Proof.
  unfold refresh. destruct (stale_execution w e) eqn:E; [|done].
  unfold stale_execution in E. simp_bool. split; [by unfold same_request; split_and!|congruence].
Qed.

Lemma apply_evolves w actor c now fresh w' r :
  apply w actor c now fresh = (w', Ok r) -> evolves w w'.
Proof.
  intros H. apply workflow_apply_Ok in H as (t & it & w1 & Hc).
  destruct (committed_items _ _ _ _ _ _ _ _ _ _ Hc) as (pl & Hw & He).
  destruct Hc as [_ _ _ Hit _ _ Ha _ _ ->].
  pose proof (apply_validated_frame _ _ _ _ _ _ _ Ha) as ([] & Hr & _).
  pose proof (arm_executions _ _ _ _ _ _ _ Ha) as Hx.
  pose proof (arm_periods _ _ _ _ _ _ _ Ha) as Hp.
  constructor; cbn in *; try congruence; try done.
  - by rewrite extends_generated.
  - by rewrite extends_suggested.
  - etrans; [done|]. apply grows_Forall2, Forall2_map_self. intros. apply refresh_evolves.
  - etrans; [done|]. apply grows_Forall2, Forall2_map_self. intros. apply close_evolves.
  - lia.
  - by eapply (effect_revisions (evaluated w t)).
Qed.

(** ** The agent life cycle *)

Lemma items_revisions w w' : items w' = items w -> revisions_grow w w'.
Proof. intros Hi id it H. exists it. rewrite (item_items _ _ _ Hi). split; [done|lia]. Qed.

Lemma set_executions_evolves w l revision :
  grows execution_evolves (wf_agent_executions w) l -> wf_revision w <= revision ->
  evolves w (set_wf_revision revision (set_wf_agent_executions l w)).
Proof. intros. constructor; cbn; try done. by apply items_revisions. Qed.

Lemma try_start_Ok w actor id now w' context :
  try_start w actor id now = Ok (w', context) ->
  (w' = w /\ context = None)
  \/ exists e revision, find (fun e => ae_id e == id) (wf_agent_executions w) = Some e
      /\ ae_status e = Queued /\ ae_requested_by e = actor
      /\ revision = wf_revision w + 1 /\ in_i64 revision
      /\ w' = set_wf_revision revision
           (set_wf_agent_executions
              (update_first (fun e => ae_id e == id) (mark_running now revision)
                 (wf_agent_executions w)) w)
      /\ exists d, context = Some d /\ build_agent_context w' actor id = Ok d.
Proof.
  unfold try_start. intros H. inv_ok. destruct (ae_status a == Queued) eqn:E; cbn in H.
  - right. inv_arm. simp_bool. apply agent_execution_find in Hok as (Hf & Hr & _).
    exists a, (wf_revision w + 1). split_and!; try done. eexists. split; [done|].
    match goal with H : build_agent_context _ _ _ = Ok _ |- _ => exact H end.
  - left. by inv_arm.
Qed.

Lemma start_evolves w actor id now w' r :
  start_agent_execution w actor id now = (w', Ok r) -> evolves w w'.
Proof.
  intros H%commit_Ok. apply try_start_Ok in H as [[-> _]|(e & n & Hf & Hs & _ & -> & _ & -> & _)];
    [done|].
  apply set_executions_evolves; [|lia]. apply grows_Forall2.
  eapply Forall2_update_found; [done|eassumption|].
  split; [by unfold same_request; split_and!|]. by rewrite Hs.
Qed.

Lemma fail_evolves w actor id code now w' r :
  fail_agent_execution w actor id code now = (w', r) -> evolves w w'.
Proof.
  unfold fail_agent_execution. destruct (find _ _) as [e|] eqn:Hf; [|by intros [= <- _]].
  destruct (is_active (ae_status e)) eqn:Ha; [|by intros [= <- _]]. cbn [wf_revision].
  set (l := update_first _ _ _).
  assert (grows execution_evolves (wf_agent_executions w) l) as Hl.
  { apply grows_Forall2. eapply Forall2_update_found; [done|eassumption|].
    split; [by unfold same_request; split_and!|congruence]. }
  destruct (checked_add_i64 _ 1) as [n|] eqn:Hn; intros [= <- _].
  - apply set_executions_evolves; [done|]. apply checked_add_i64_Some in Hn as [-> _]. cbn. lia.
  - constructor; cbn; try done. by apply items_revisions.
Qed.

Lemma interrupt_each_evolves actor now ids w w' r :
  interrupt_each w actor now ids = (w', r) -> evolves w w'.
Proof.
  revert w. induction ids as [|id ids IH]; intros w; cbn; [by intros [= <- _]|].
  destruct (fail_agent_execution _ _ _ _ _) as [w1 [e|e]] eqn:Hf; apply fail_evolves in Hf.
  - intros H%IH. by etrans.
  - by intros [= <- _].
Qed.

Lemma interrupt_evolves w actor now w' r :
  interrupt_agent_executions w actor now = (w', r) -> evolves w w'.
Proof.
  unfold interrupt_agent_executions.
  destruct (interrupt_each _ _ _ _) as [w1 [e|e]] eqn:Hf; apply interrupt_each_evolves in Hf;
    by intros [= <- _].
Qed.

Lemma build_agent_context_Ok w actor id d :
  build_agent_context w actor id = Ok d ->
  find (fun e => ae_id e == id) (wf_agent_executions w) = Some (adc_execution d)
  /\ ae_status (adc_execution d) = Running /\ ae_requested_by (adc_execution d) = actor
  /\ ae_effective_context_revision (adc_execution d) = wf_revision w
  /\ (exists it, item w (ae_work_item_id (adc_execution d)) = Ok it /\ wi_state it = Active
       /\ ae_attempt_id (adc_execution d) = wi_attempt_id it
       /\ ae_task_revision (adc_execution d) = wi_revision it
       /\ can_read w actor it = true)
  /\ resolve_evidence w actor (ae_evidence_revision_refs (adc_execution d))
     = Ok (adc_evidence d)
  /\ validate_scope d = Ok tt.
Proof.
  unfold build_agent_context, agent_disclosure_context. intros H. inv_ok. subst. simp_bool.
  repeat match goal with u : unit |- _ => destruct u end.
  apply agent_execution_find in Hok as (Hf & Hr & it & Hit & Ha & Hc). same_ok.
  simplify_eq. cbn. split_and!; try done.
  match goal with H : item w _ = Ok ?b |- _ => exists b end. split_and!; congruence.
Qed.

Lemma record_candidates_Ok w context output finding now fresh w' ids :
  record_candidates w context output finding now fresh = Ok (w', ids) ->
  exists gen sug,
    gen = imap (fun i c => generated_from (adc_execution context) now (fresh i) c)
            (ao_generated_artifacts output)
    /\ ids = (map ga_id gen, map sa_id sug)
    /\ w' = set_wf_suggested_actions (wf_suggested_actions w ++ sug)
              (set_wf_generated_artifacts (wf_generated_artifacts w ++ gen) w).
Proof. unfold record_candidates. intros H. inv_arm. eauto. Qed.

Lemma finish_finding_Ok w context output now new_id w' reference :
  finish_finding w context output now new_id = Ok (w', reference) ->
  exists fs, length fs = length (opt_to_list (ao_finding output))
    /\ reference = head (map finding_ref fs)
    /\ w' = set_wf_findings (wf_findings w ++ fs) w.
Proof.
  unfold finish_finding. destruct (ao_finding output); intros H; inv_arm.
  - eexists [_]. done.
  - exists []. split_and!; [done..|]. rewrite app_nil_r.
    match goal with |- ?x = _ => by destruct x end.
Qed.

Lemma item_put w t it it' :
  item w t = Ok it -> wi_id it' = wi_id it -> item (put_item w t it') t = Ok it'.
Proof.
  intros Hit Hid. pose proof (item_id _ _ _ Hit) as Ht.
  unfold put_item. apply item_Ok in Hit as [[-> ->]|(Hne & _)].
  - rewrite bool_decide_eq_true_2 by done. apply item_Ok. left. by rewrite <-Hid.
  - rewrite bool_decide_eq_false_2 by done. apply item_Ok. right. cbn. split_and!; congruence.
Qed.

(** The aggregate a finished execution leaves. *)
Lemma try_finish_Ok w context output now fresh w' done_ :
  try_finish w context output now fresh = Ok (w', done_) ->
  exists new_findings gen sug it result,
    build_agent_context w (ae_requested_by (adc_execution context))
      (ae_id (adc_execution context)) = Ok context
    /\ validate_output output context = Ok tt
    /\ length new_findings = length (opt_to_list (ao_finding output))
    /\ result = finished_result context output
                  (head (map finding_ref new_findings)) (map ga_id gen) (map sa_id sug)
    /\ item_mut w (ae_work_item_id (adc_execution context)) WorkItemNotFound = Ok it
    /\ in_i64 (wi_revision it + 1) /\ in_i64 (wf_revision w + 1)
    /\ w' = set_wf_agent_executions
         (update_first (fun e => ae_id e == ae_id (adc_execution context))
            (mark_succeeded now result (wi_revision it + 1)) (wf_agent_executions w))
         (set_wf_revision (wf_revision w + 1)
            (put_item
               (set_wf_suggested_actions (wf_suggested_actions w ++ sug)
                  (set_wf_generated_artifacts (wf_generated_artifacts w ++ gen)
                     (set_wf_findings (wf_findings w ++ new_findings) w)))
               (ae_work_item_id (adc_execution context))
               (set_wi_revision (wi_revision it + 1) it)))
    /\ find (fun e => ae_id e == ae_id (adc_execution context)) (wf_agent_executions w')
       = Some done_
    /\ validate_integrity w' = Ok tt.
Proof.
  unfold try_finish. intros H. inv_ok. simp_bool. subst.
  repeat match goal with u : unit |- _ => destruct u end.
  match goal with H : finish_finding _ _ _ _ _ = Ok _ |- _ =>
    apply finish_finding_Ok in H as (fs & Hfs & -> & ->) end.
  match goal with H : record_candidates _ _ _ _ _ _ = Ok _ |- _ =>
    apply record_candidates_Ok in H as (gen & sug & _ & [= -> ->] & ->) end.
  pose proof (build_agent_context_Ok _ _ _ _ Hok0) as (_ & _ & _ & _ & (it & Hit & _) & _).
  inv_arm.
  match goal with H : item_mut ?w1 _ ?e = Ok ?b |- _ =>
    change (item_mut w (ae_work_item_id (adc_execution context)) e = Ok b) in H;
    rewrite (item_item_mut _ _ _ e Hit) in H; injection H as <- end.
  match goal with H : item (set_wf_revision _ ?w1) _ = Ok ?b |- _ =>
    change (item w1 (ae_work_item_id (adc_execution context)) = Ok b) in H;
    rewrite (item_put _ _ it) in H; [injection H as <-|exact Hit|done] end.
  rewrite put_item_revision in *.
  exists fs, gen, sug, it. eexists. split_and!; try done.
  - by apply item_item_mut.
  - by rewrite (proj1 (put_item_rest _ _ _)).
Qed.

Lemma put_item_evolves w t it it' :
  item w t = Ok it -> wi_id it' = wi_id it -> wi_revision it' = wi_revision it + 1 ->
  evolves w (put_item w t it').
Proof.
  intros Hit Hid Hr. destruct (put_revisions _ _ _ _ _ Hit eq_refl Hid Hr) as [Hg _].
  put_cases; constructor; cbn; done.
Qed.

Lemma finish_evolves w context output now fresh w' r :
  finish_agent_execution w context output now fresh = (w', Ok r) -> evolves w w'.
Proof.
  intros H%commit_Ok. apply try_finish_Ok in H.
  destruct H as (fs & gen & sug & it & result & Hb & _ & _ & _ & Hit & _ & _ & -> & _).
  apply build_agent_context_Ok in Hb as (Hf & Hs & _ & _ & (b & Hi & _) & _).
  rewrite (item_item_mut _ _ _ _ Hi) in Hit. injection Hit as ->.
  set (w0 := set_wf_suggested_actions _ _).
  transitivity w0.
  { constructor; cbn; try done; try by apply prefix_app_r. by apply items_revisions. }
  etrans; [apply (put_item_evolves w0 _ it (set_wi_revision (wi_revision it + 1) it) Hi eq_refl
                    eq_refl)|].
  apply set_executions_evolves; [|rewrite put_item_revision; cbn; lia].
  rewrite (proj1 (put_item_rest _ _ _)). apply grows_Forall2.
  eapply Forall2_update_found; [done|exact Hf|].
  split; [by unfold same_request; split_and!|]. by rewrite Hs.
Qed.

(** Every mutation, whatever its outcome, evolves the aggregate. *)
Lemma run_step_evolves w w' : run_step w w' -> evolves w w'.
Proof.
  intros []; eauto using apply_evolves, start_evolves, finish_evolves, fail_evolves,
    interrupt_evolves; constructor; cbn; try done; by apply items_revisions.
Qed.

Lemma run_evolves w w' : rtc run_step w w' -> evolves w w'.
Proof. induction 1; [done|]. etrans; [by apply run_step_evolves|done]. Qed.

End Runs.
