(* ===== verification/WorkflowTheorems.v ===== *)
(** * WorkflowTheorems: what the workflow aggregate promises

    Commands are transactions, every command is mediated by a currently effective
    responsibility, the aggregate refines the two-step machine, stale commands are rejected,
    records are append-only, submissions pin exactly what was selected, responsibility periods
    match the items, and an actor without responsibilities sees and does nothing. *)
From stdpp Require Import base gmap sets list strings relations.
From Stdlib Require Import ZArith Lia.
From S2P Require Import Prelude WorkTypes WorkSetters Text Externals Principals Organization.
From S2P Require Import OrganizationFacts Context WorkflowReads Evidence Agent Integrity Files.
From S2P Require Import AgentRun Commands WorkflowFacts Machine Runs.

Local Open Scope Z_scope.

Section Theorems.
Context {X : Externals}.

(** ** Commands are transactions *)

(** C3: a command that fails leaves the aggregate as it was; one that commits
    advances the revision by exactly one within [i64], keeps the attached authority, and both
    the aggregate it read and the one it leaves pass the integrity check at its instant. *)
Theorem apply_is_transaction w actor c now fresh w' outcome :
  apply w actor c now fresh = (w', outcome) ->
  match outcome with
  | Err _ => w' = w
  | Ok _ => exists t, rfc3339_parse now = Some t
      /\ wf_revision w' = wf_revision w + 1 /\ in_i64 (wf_revision w')
      /\ wf_authority w' = wf_authority w
      /\ validate_integrity (evaluated w t) = Ok tt
      /\ validate_integrity (evaluated w' t) = Ok tt
  end.
Proof.
  destruct outcome as [r|e]; [|apply workflow_apply_Err].
  intros (t & it & w1 & Hc)%workflow_apply_Ok. destruct Hc as [Ht Hb _ _ _ _ Ha Hr Hi ->].
  exists t. split_and!; done.
Qed.

(** ** Mediation *)

Lemma step_responsibility_Some w actor id it action r :
  step_responsibility w actor id it action = Some r ->
  Policy.responsibility (policy w) actor id (evaluated_at w) = Some r
  /\ step_role it = Some (rs_role_id r) /\ allows r action = true.
Proof.
  unfold step_responsibility. destruct (step_role it); cbn; [|done].
  intros [Hr Hp]%opt_filter_Some. simp_bool. by subst.
Qed.

Lemma authorize_assigned_Ok w actor it acting action :
  authorize_assigned w actor it acting action = Ok tt ->
  wi_assignee it = Some actor /\ wi_acting_assignment_id it = Some acting
  /\ exists r, Policy.responsibility (policy w) actor acting (evaluated_at w) = Some r
       /\ step_role it = Some (rs_role_id r) /\ allows r action = true.
Proof.
  unfold authorize_assigned, can_read, can_act. intros H. inv_ok. simp_bool.
  split_and!; try done.
  match goal with H : step_responsibility _ _ acting _ action = Some ?r |- _ =>
    exists r; by apply step_responsibility_Some end.
Qed.

(** The grant a command needs on the item it addresses. *)
Definition granted (w : Workflow) (t : Instant) (actor : VerifiedActor) (c : Command)
    (it : WorkItem) (resp : Responsibility) : Prop :=
  match c with
  | Assign _ _ _ assignee id _ =>
      assignee <> actor
      /\ exists r, Policy.responsibility (policy w) assignee id t = Some r
           /\ step_role it = Some (rs_role_id r) /\ allows r WorkClaim = true
  | Claim _ _ => step_role it = Some (rs_role_id resp)
  | _ =>
      step_role it = Some (rs_role_id resp) /\ wi_assignee it = Some actor
      /\ wi_acting_assignment_id it = Some (cc_acting_assignment_id (command_context c))
  end.

Lemma authorize_command_Ok w actor c it :
  authorize_command w actor c = Ok tt -> item w (command_task_id c) = Ok it ->
  exists r, Policy.responsibility (policy w) actor
              (cc_acting_assignment_id (command_context c)) (evaluated_at w) = Some r
    /\ allows r (required_action c) = true
    /\ match c with
       | Assign _ _ _ assignee _ _ => assignee <> actor
       | Claim _ _ => step_role it = Some (rs_role_id r)
       | _ => step_role it = Some (rs_role_id r) /\ wi_assignee it = Some actor
              /\ wi_acting_assignment_id it
                 = Some (cc_acting_assignment_id (command_context c))
       end.
Proof.
  unfold authorize_command. intros H Hit. rewrite Hit in H. inv_ok. subst.
  exists a0. split; [done|].
  destruct c; cbn in *; inv_ok;
    repeat match goal with
    | u : unit |- _ => destruct u
    | H : authorize_assigned _ _ _ _ _ = Ok tt |- _ =>
        apply authorize_assigned_Ok in H as (? & ? & ? & ? & ? & ?); simplify_eq
    end; simp_bool; try done.
Qed.

(** C2: a command commits only while its actor holds, at the commit instant, the
    acting responsibility it names and that responsibility allows the command's action.  For
    all but [Assign] the responsibility has the step's role; all but [Claim] and [Assign] also
    need the actor to be the assignee under exactly that responsibility.  A manager never
    assigns to themself, and the new assignee is eligible for the step. *)
Theorem apply_is_mediated w actor c now fresh w' r :
  apply w actor c now fresh = (w', Ok r) ->
  exists t it resp, rfc3339_parse now = Some t /\ item w (command_task_id c) = Ok it
    /\ Policy.responsibility (policy w) actor (cc_acting_assignment_id (command_context c)) t
       = Some resp
    /\ allows resp (required_action c) = true
    /\ granted w t actor c it resp.
Proof.
  intros (t & it & w1 & Hc)%workflow_apply_Ok. destruct Hc as [Ht _ Hz Hit _ _ Ha _ _ _].
  destruct (authorize_command_Ok (evaluated w t) _ _ it Hz Hit) as (resp & Hr & Hal & Hg).
  exists t, it, resp. split_and!; try done.
  destruct c; try exact Hg. split; [exact Hg|]. cbn in Ha.
  apply apply_assign_Ok in Ha. destruct Ha as (b & record & Hb & Ha). destruct_and!.
  change (item w task_id = Ok b) in Hb. cbn in Hit. rewrite Hit in Hb. injection Hb as <-.
  match goal with H : is_some _ = true |- _ => apply is_some_true in H as [q Hq] end.
  apply step_responsibility_Some in Hq. exists q. exact Hq.
Qed.

(** ** Refinement of the two-step machine *)

Lemma apply_phase w actor c now fresh w' r :
  apply w actor c now fresh = (w', Ok r) -> phase_step c (phase_of w) (phase_of w').
Proof.
  intros (t & it & w1 & Hc)%workflow_apply_Ok.
  destruct (committed_items _ _ _ _ _ _ _ _ _ _ Hc) as (pl & _ & He).
  apply (effect_phase (evaluated w t) c now fresh it); [|done]. apply Hc.
Qed.

(** C5: seen through the states of its two tasks, every committed command is a step
    of the abstract two-step machine for that command. *)
Theorem apply_refines_machine w actor c now fresh w' r :
  apply w actor c now fresh = (w', Ok r) -> phase_step c (phase_of w) (phase_of w').
Proof. apply apply_phase. Qed.

Lemma put_item_phase w t it it' :
  item w t = Ok it -> wi_state it' = wi_state it ->
  phase_of (put_item w t it') = phase_of w.
Proof.
  intros Hit Hs. unfold phase_of, put_item. apply item_Ok in Hit as [[-> ->]|(Hne & Hn & _)].
  - rewrite bool_decide_eq_true_2 by done. cbn. by rewrite Hs.
  - rewrite bool_decide_eq_false_2 by done. cbn. by rewrite Hn, Hs.
Qed.

Lemma items_phase w w' : items w' = items w -> phase_of w' = phase_of w.
Proof. unfold items, phase_of. by intros [= -> ->]. Qed.

Lemma fail_items w actor id code now w' r :
  fail_agent_execution w actor id code now = (w', r) -> items w' = items w.
Proof.
  unfold fail_agent_execution. intros H. repeat case_match; simplify_eq; done.
Qed.

Lemma interrupt_each_items actor now ids w w' r :
  interrupt_each w actor now ids = (w', r) -> items w' = items w.
Proof.
  revert w. induction ids as [|id ids IH]; intros w; cbn; [by intros [= <- _]|].
  destruct (fail_agent_execution _ _ _ _ _) as [w1 [e|e]] eqn:Hf; apply fail_items in Hf.
  - intros H%IH. congruence.
  - by intros [= <- _].
Qed.

Lemma run_step_phase w w' :
  run_step w w' -> phase_of w' = phase_of w \/ exists c, phase_step c (phase_of w) (phase_of w').
Proof.
  intros [actor c now fresh w1 r H| | | | |actor id now w1 r H|context output now fresh w1 r H
         |actor id code now w1 r H|actor now w1 r H]; try by left.
  - right. exists c. by eapply apply_phase.
  - left. apply commit_Ok, try_start_Ok in H as [[-> _]|(? & ? & H)]; [done|].
    destruct_and!. by subst.
  - left. apply commit_Ok, try_finish_Ok in H.
    destruct H as (fs & gen & sug & it & result & Hb & _ & _ & _ & Hit & _ & _ & -> & _).
    apply build_agent_context_Ok in Hb as (_ & _ & _ & _ & (b & Hi & _) & _).
    rewrite (item_item_mut _ _ _ _ Hi) in Hit. injection Hit as ->.
    match goal with |- phase_of (set_wf_agent_executions _ (set_wf_revision _ (put_item ?w0 ?t ?b)))
                       = _ => exact (put_item_phase w0 t it b Hi eq_refl) end.
  - left. by eapply items_phase, fail_items.
  - left. unfold interrupt_agent_executions in H.
    destruct (interrupt_each _ _ _ _) as [w2 [e|e]] eqn:Hf; apply interrupt_each_items in Hf;
      injection H as <- _; by apply items_phase.
Qed.

(** Workflows reachable from a fixture instance by any sequence of mutations. *)
Definition reachable (w : Workflow) : Prop :=
  exists fixture document_id seeded_at w0,
    fixture ∈ CONTEXT_FIXTURES /\ from_fixture fixture document_id seeded_at = Ok w0
    /\ rtc run_step w0 w.

Lemma from_fixture_phase fixture document_id seeded_at w :
  from_fixture fixture document_id seeded_at = Ok w -> phase_ok (phase_of w).
Proof.
  unfold from_fixture. destruct (bool_decide _); intros H; inv_ok; [by subst|].
  destruct (cf_start fixture); inv_ok; by subst.
Qed.

(** C16: in every reachable workflow at most one of the two steps is open, and a
    workflow without a target attempt has an open source step. *)
Theorem reachable_one_open_step w :
  reachable w ->
  (forall n, wf_next w = Some n ->
     wi_state (wf_source w) = Completed \/ wi_state n = Completed)
  /\ (wf_next w = None -> wi_state (wf_source w) <> Completed).
Proof.
  intros (f & d & t & w0 & _ & H0%from_fixture_phase & Hr).
  assert (phase_ok (phase_of w)) as Hp.
  { induction Hr as [|w1 w2 w3 Hs _ IH]; [done|]. apply IH.
    apply run_step_phase in Hs as [->|[c Hs]]; [done|]. by eapply phase_step_ok. }
  unfold phase_of in Hp. split.
  - intros n Hn. by rewrite Hn in Hp.
  - intros Hn. by rewrite Hn in Hp.
Qed.

(** ** Optimistic concurrency *)

(** Once a command has committed (a cancellation apart), no later command on the
    same task that expects the same or an older revision is ever accepted, whatever happened
    in between; the aggregate stays as it is. *)
Theorem stale_command_rejected w actor c now fresh w1 r w2 actor' c' now' fresh' :
  apply w actor c now fresh = (w1, Ok r) -> cancels c = false ->
  rtc run_step w1 w2 ->
  command_task_id c' = command_task_id c ->
  cc_expected_revision (command_context c') <= cc_expected_revision (command_context c) ->
  exists e, apply w2 actor' c' now' fresh' = (w2, Err e).
Proof.
  intros (t & it & w1' & Hc)%workflow_apply_Ok Hk Hr Hid He.
  destruct (committed_items _ _ _ _ _ _ _ _ _ _ Hc) as (pl & Hw & Hi).
  destruct (effect_revisions _ _ _ _ _ _ _ Hw (c_item _ _ _ _ _ _ _ _ _ _ Hc) Hi)
    as [_ Hn]. destruct (Hn Hk) as (it1 & Hit1 & Hr1).
  destruct (ev_revisions _ _ (run_evolves _ _ Hr) _ _ Hit1) as (it2 & Hit2 & Hr2).
  pose proof (c_expected _ _ _ _ _ _ _ _ _ _ Hc) as Hx.
  destruct (apply w2 actor' c' now' fresh') as [w3 [r3|e]] eqn:E.
  - apply workflow_apply_Ok in E as (t' & it3 & w3' & Hc').
    pose proof (c_item _ _ _ _ _ _ _ _ _ _ Hc') as Hit3. rewrite Hid in Hit3.
    pose proof (c_expected _ _ _ _ _ _ _ _ _ _ Hc') as Hx'.
    rewrite Hit2 in Hit3. injection Hit3 as <-. lia.
  - exists e. apply workflow_apply_Err in E as Heq. by subst.
Qed.

(** ** Append-only records *)

(** C25: no sequence of mutations (commands, agent dispatch, completion, failure,
    interruption, attached authority) ever rewrites the identity of the aggregate or a
    recorded entry: history, submissions, evidence, findings, decisions, return instructions,
    archived attempts and agent candidates are only appended to; ended executions and closed
    responsibility periods never change; revisions never decrease. *)
Theorem run_is_append_only w w' : rtc run_step w w' -> evolves w w'.
Proof. apply run_evolves. Qed.

(** ** Submissions *)

Lemma artifact_Ok w actor id a :
  artifact w actor id = Ok a ->
  a ∈ wf_artifacts w /\ wa_id a = id
  /\ exists it, item w (wa_task_id a) = Ok it /\ can_read w actor it = true
       /\ wa_attempt_id a = wi_attempt_id it.
Proof.
  unfold artifact. intros H. inv_ok. simp_bool. subst.
  match goal with H : find _ _ = Some _ |- _ => apply find_Some_iff in H as [? ?] end.
  simp_bool. eauto 10.
Qed.

(** A pin of a selected artifact: the selected revision of a draft of the submitted attempt,
    whose file, if it has one, has a generation the server verified. *)
Definition pins (w : Workflow) (sel : ArtifactSelection) (p : PinnedArtifact) : Prop :=
  exists a, a ∈ wf_artifacts w /\ p = pin_of a
    /\ wa_id a = sel_artifact_id sel /\ wa_revision a = sel_revision sel
    /\ wa_task_id a = wi_id (wf_source w)
    /\ wa_attempt_id a = wi_attempt_id (wf_source w)
    /\ (forall file, wa_file a = Some file ->
         exists g, wk_generation file = Some g /\ generation_verified w (fg_id g) = true).

Lemma pinnable_file w a file :
  pinnable w a = Ok tt -> wa_file a = Some file ->
  exists g, wk_generation file = Some g /\ generation_verified w (fg_id g) = true.
Proof.
  unfold pinnable. intros H Hf. rewrite Hf in H. cbn in H. rewrite !andb_false_r in H.
  destruct (_ && _); [|done]. inv_ok. simp_bool. eauto.
Qed.

Lemma pin_selected_Ok w actor s sel s' :
  pin_selected w actor s sel = Ok s' ->
  sel_artifact_id sel ∉ s.1 /\ s'.1 = {[sel_artifact_id sel]} ∪ s.1
  /\ exists p, s'.2 = s.2 ++ [p] /\ pins w sel p.
Proof.
  unfold pin_selected. destruct s as [seen pinned]. intros H. inv_ok. simp_bool. subst. cbn.
  match goal with H : artifact _ _ _ = Ok _ |- _ => apply artifact_Ok in H as (? & ? & _) end.
  split_and!; try done. eexists. split; [done|]. eexists. split_and!; try done.
  intros file Hf. repeat match goal with u : unit |- _ => destruct u end.
  by eapply pinnable_file.
Qed.

Lemma pin_loop w actor arts s s' :
  for_each (pin_selected w actor) s arts = Ok s' ->
  exists l, s'.2 = s.2 ++ l /\ Forall2 (pins w) arts l.
Proof.
  revert s. induction arts as [|sel arts IH]; intros s; cbn.
  - intros [= <-]. exists []. by rewrite app_nil_r.
  - intros H. inv_ok. apply pin_selected_Ok in Hok as (_ & _ & p & Hp & Hpin).
    apply IH in H as (l & Hl & Hf). exists (p :: l). rewrite Hl, Hp, <-app_assoc. auto.
Qed.

Lemma submission_Ok w pl actor c pinned ers frs drs now id s :
  submission w pl actor c pinned ers frs drs now id = Ok s ->
  hs_submission_number s = len (wf_snapshots w) + 1 /\ in_u32 (hs_submission_number s)
  /\ hs_evidence_revision_refs s = ers /\ hs_finding_revision_refs s = frs
  /\ hs_decision_revision_refs s = drs /\ hs_submitted_by s = principal_id actor
  /\ hs_source_task_id s = wi_id (wf_source w)
  /\ hs_source_attempt_id s = wi_attempt_id (wf_source w) /\ hs_workflow_id s = wf_id w.
Proof.
  unfold submission, u32_try_from. intros H. inv_arm. case_match; simplify_eq.
  cbn. split_and!; done.
Qed.

(** C17: a committed submission appends one immutable snapshot that pins, in order, exactly
    the selected artifacts at the selected revisions, all drafts of the submitted attempt and
    every file with a verified generation, without repetition; it completes the source attempt
    and opens an unassigned ready target attempt that points to the snapshot. *)
Theorem submission_pins_selection w actor task c arts attempt ers frs drs now fresh w' r :
  apply w actor (Submit task c arts attempt ers frs drs) now fresh = (w', Ok r) ->
  exists s n, wf_snapshots w' = wf_snapshots w ++ [s] /\ hs_id s = fresh 0%nat
    /\ Forall2 (pins w) arts (hs_artifacts s)
    /\ NoDup (map sel_artifact_id arts) /\ arts <> [] /\ len arts <= MAX_ARTIFACTS
    /\ hs_submission_number s = len (wf_snapshots w) + 1
    /\ hs_evidence_revision_refs s = ers /\ hs_finding_revision_refs s = frs
    /\ hs_decision_revision_refs s = drs
    /\ hs_source_attempt_id s = wi_attempt_id (wf_source w)
    /\ wi_state (wf_source w') = Completed
    /\ wf_next w' = Some n /\ wi_state n = Ready /\ wi_assignee n = None
    /\ wi_handoff_snapshot_id n = Some (hs_id s).
Proof.
  intros (t & it & w1 & Hc)%workflow_apply_Ok. destruct Hc as [_ _ _ _ _ _ Ha _ _ ->].
  apply apply_submit_Ok in Ha. destruct Ha as (pl & s & seen & n & Ha). destruct_and!. subst.
  match goal with H : submission _ _ _ _ _ _ _ _ _ _ = Ok _ |- _ =>
    apply submission_Ok in H as (? & ? & ? & ? & ? & ? & ? & ? & ?) end.
  match goal with H : for_each _ _ _ = Ok _ |- _ =>
    pose proof (pin_loop _ _ _ _ _ H) as (l & Hl & Hf); cbn in Hl; subst;
    refine (let Hd := for_each_distinct fst (fun sel => Some (sel_artifact_id sel))
                        (pin_selected (evaluated w t) actor) arts _ _ _ H in _)
  end.
  Unshelve.
  2: { intros s0 sel s1 Hs. apply pin_selected_Ok in Hs. tauto. }
  destruct Hd as [Hd _]. rewrite filter_map_Some in Hd.
  eexists s, _. split_and!; try done; try reflexivity.
Qed.

(** ** Invariants of every run *)

(** What the mutators other than [apply] leave alone. *)
Definition quiet (w w' : Workflow) : Prop :=
  wf_snapshots w' = wf_snapshots w /\ wf_artifacts w' = wf_artifacts w
  /\ wf_completed_attempts w' = wf_completed_attempts w.

Lemma fail_quiet w actor id code now w' r :
  fail_agent_execution w actor id code now = (w', r) -> quiet w w'.
Proof. unfold fail_agent_execution. intros H. repeat case_match; simplify_eq; done. Qed.

Lemma interrupt_each_quiet actor now ids w w' r :
  interrupt_each w actor now ids = (w', r) -> quiet w w'.
Proof.
  revert w. induction ids as [|id ids IH]; intros w; cbn; [by intros [= <- _]|].
  destruct (fail_agent_execution _ _ _ _ _) as [w1 [e|e]] eqn:Hf; apply fail_quiet in Hf.
  - intros H%IH. unfold quiet in *. destruct_and!. split_and!; congruence.
  - by intros [= <- _].
Qed.

Lemma interrupt_quiet w actor now w' r :
  interrupt_agent_executions w actor now = (w', r) -> quiet w w' /\ items w' = items w.
Proof.
  unfold interrupt_agent_executions.
  destruct (interrupt_each _ _ _ _) as [w1 [e|e]] eqn:Hf;
    pose proof (interrupt_each_items _ _ _ _ _ _ Hf); apply interrupt_each_quiet in Hf;
    by intros [= <- _].
Qed.

Lemma start_quiet w actor id now w' r :
  start_agent_execution w actor id now = (w', Ok r) -> quiet w w' /\ items w' = items w.
Proof.
  intros H%commit_Ok. apply try_start_Ok in H as [[-> _]|(? & ? & H)]; [done|].
  destruct_and!. by subst.
Qed.

Lemma finish_quiet w context output now fresh w' r :
  finish_agent_execution w context output now fresh = (w', Ok r) ->
  quiet w w' /\ exists it, item w (ae_work_item_id (adc_execution context)) = Ok it
    /\ in_i64 (wi_revision it + 1)
    /\ items w' = items (put_item w (ae_work_item_id (adc_execution context))
                           (set_wi_revision (wi_revision it + 1) it)).
Proof.
  intros H%commit_Ok. apply try_finish_Ok in H.
  destruct H as (fs & gen & sug & it & result & Hb & _ & _ & _ & Hit & Hr & _ & -> & _).
  apply build_agent_context_Ok in Hb as (_ & _ & _ & _ & (b & Hi & _) & _).
  rewrite (item_item_mut _ _ _ _ Hi) in Hit. injection Hit as ->.
  match goal with |- quiet w (set_wf_agent_executions _ (set_wf_revision _ (put_item ?w0 ?t ?b)))
                     /\ _ => destruct (put_item_rest w0 t b) as (_ & _ & E1 & E2 & E3) end.
  split; [split_and!; [exact E1|exact E2|exact E3]|].
  exists it. split_and!; [done|done|].
  match goal with |- items (set_wf_agent_executions _ (set_wf_revision _ ?p)) = _ =>
    change (items p = items (put_item w (ae_work_item_id (adc_execution context))
                               (set_wi_revision (wi_revision it + 1) it))) end.
  by rewrite !items_put.
Qed.

(** An invariant over snapshots, artifacts and archived attempts that [apply] keeps holds on
    every run. *)
Lemma run_invariant (P : Workflow -> Prop) :
  (forall w w', quiet w w' -> wf_id w' = wf_id w -> P w -> P w') ->
  (forall w actor c now fresh w' r, apply w actor c now fresh = (w', Ok r) -> P w -> P w') ->
  forall w w', rtc run_step w w' -> P w -> P w'.
Proof.
  intros Hq Ha w w' Hr. induction Hr as [|w1 w2 w3 Hs _ IH]; [done|].
  intros Hp. apply IH. pose proof (ev_workflow _ _ (run_step_evolves _ _ Hs)) as Hid.
  destruct Hs as [? ? ? ? ? ? H| | | | |? ? ? ? ? H|? ? ? ? ? ? H|? ? ? ? ? ? H|? ? ? ? H].
  all: try (by eapply Hq; [|by cbn|exact Hp]).
  - by eapply Ha.
  - apply start_quiet in H as [H _]. by eapply Hq.
  - apply finish_quiet in H as [H _]. by eapply Hq.
  - apply fail_quiet in H. by eapply Hq.
  - apply interrupt_quiet in H as [H _]. by eapply Hq.
Qed.

Definition numbered (w : Workflow) : Prop :=
  forall i s, wf_snapshots w !! i = Some s ->
  hs_submission_number s = Z.of_nat i + 1 /\ hs_workflow_id s = wf_id w.

Lemma apply_snapshots w actor c now fresh w' r :
  apply w actor c now fresh = (w', Ok r) ->
  wf_snapshots w' = wf_snapshots w
  \/ exists s, wf_snapshots w' = wf_snapshots w ++ [s]
       /\ hs_submission_number s = len (wf_snapshots w) + 1 /\ hs_workflow_id s = wf_id w.
Proof.
  intros (t & it & w1 & Hc)%workflow_apply_Ok. destruct Hc as [_ _ _ _ _ _ Ha _ _ ->]. cbn.
  destruct (touches_snapshots c) eqn:Ht.
  2: { left. by apply arm_rest in Ha as (_ & _ & Hs & _); rewrite Hs. }
  right. destruct c; try done. apply apply_submit_Ok in Ha.
  destruct Ha as (pl & s & seen & n & Ha). destruct_and!. subst. exists s. cbn.
  match goal with H : submission _ _ _ _ _ _ _ _ _ _ = Ok _ |- _ =>
    apply submission_Ok in H as (? & ? & ? & ? & ? & ? & ? & ? & ?) end.
  split_and!; done.
Qed.

Lemma from_fixture_fresh fixture document_id seeded_at w :
  from_fixture fixture document_id seeded_at = Ok w ->
  wf_snapshots w = [] /\ wf_artifacts w = [] /\ wf_completed_attempts w = []
  /\ wf_assignments w = [] /\ wf_agent_executions w = [] /\ wf_revision w = 0
  /\ wf_next w = None /\ wi_revision (wf_source w) = 0 /\ wi_attempt_number (wf_source w) = 1.
Proof.
  unfold from_fixture. destruct (bool_decide _); intros H; inv_ok; [by subst|].
  destruct (cf_start fixture); inv_ok; by subst.
Qed.

(** In every reachable workflow the submissions are numbered 1, 2, 3, ... in the
    order they were made, and belong to the workflow. *)
Theorem reachable_submissions_numbered w : reachable w -> numbered w.
Proof.
  intros (f & d & t & w0 & _ & H0 & Hr). apply from_fixture_fresh in H0 as (H0 & _).
  refine (run_invariant numbered _ _ w0 w Hr _).
  - intros w1 w2 (Hs & _) Hid Hn i s. rewrite Hs, Hid. apply Hn.
  - intros w1 actor c now fresh w2 r H Hn i s.
    pose proof (ev_workflow _ _ (apply_evolves _ _ _ _ _ _ _ H)) as ->.
    apply apply_snapshots in H as [->|(s' & -> & Hs' & Hid)]; [apply Hn|].
    intros [Hi|[Hi Hx]]%lookup_app_Some; [by apply Hn|].
    apply list_lookup_singleton_Some in Hx as [Hx <-]. unfold len in Hs'. split; [lia|done].
  - intros i s. by rewrite H0.
Qed.

(** ** Artifact quota *)

Definition within_artifact_quota (w : Workflow) : Prop :=
  forall attempt, count (fun a => wa_attempt_id a == attempt) (wf_artifacts w) <= MAX_ARTIFACTS.

Lemma count_none {A} (f : A -> bool) l : (forall x, x ∈ l -> f x = false) -> count f l = 0.
Proof.
  induction l as [|x l IH]; intros H; [done|]. rewrite count_cons, H, IH; [done| |].
  - intros y Hy. apply H. apply elem_of_cons. by right.
  - apply elem_of_cons. by left.
Qed.

Lemma quota_append w l :
  within_artifact_quota w ->
  (forall a, a ∈ l -> wa_attempt_id a = wi_attempt_id (wf_source w)) ->
  attempt_artifact_count w + len l <= MAX_ARTIFACTS ->
  within_artifact_quota (set_wf_artifacts (wf_artifacts w ++ l) w).
Proof.
  intros Hq Hl Hn attempt. cbn. rewrite count_app. specialize (Hq attempt).
  destruct (decide (attempt = wi_attempt_id (wf_source w))) as [->|Hne].
  - pose proof (count_bound (fun a => wa_attempt_id a == wi_attempt_id (wf_source w)) l).
    unfold attempt_artifact_count in Hn. lia.
  - rewrite (count_none _ l); [lia|]. intros a Ha. apply bool_decide_eq_false_2.
    rewrite (Hl a Ha). congruence.
Qed.

Lemma files_quota w actor c now fresh w1 r :
  apply_files w actor c now fresh = Ok (w1, r) ->
  within_artifact_quota w -> within_artifact_quota w1.
Proof.
  intros H Hq. destruct c; try done; cbn in H.
  - unfold create_file_artifact in H. inv_arm. simp_bool.
    refine (quota_append w [_] Hq _ _); [|unfold len; cbn [length]; lia].
    intros b Hb%list_elem_of_singleton. by subst.
  - unfold write_artifact_content in H. inv_arm. intros attempt. cbn.
    erewrite count_update_found; [apply Hq|eassumption|].
    match goal with H : written_artifact _ _ _ = Ok _ |- _ =>
      unfold written_artifact in H; inv_arm end. done.
  - unfold discard_artifact in H. inv_arm. intros attempt. cbn.
    etrans; [apply count_remove_first|apply Hq].
  - unfold import_submission in H. inv_arm. simp_bool.
    apply (quota_append w); [done| |].
    + intros b Hb. apply list_elem_of_lookup in Hb as [i Hb].
      rewrite list_lookup_imap in Hb. apply fmap_Some in Hb as (p & _ & ->). done.
    + unfold len in *. by rewrite length_imap.
Qed.

Lemma draft_quota w actor task id value new_id w1 r :
  apply_save_draft w actor task id value new_id = Ok (w1, r) ->
  within_artifact_quota w -> within_artifact_quota w1.
Proof.
  intros (w0 & a & _ & _ & H & Hb)%apply_save_draft_Ok Hq. apply bump_source_Ok in Hb as [-> _].
  destruct id as [id|].
  - apply save_existing_Ok in H as (b & Hf & _ & -> & ->). intros attempt. cbn.
    by rewrite (count_update_found _ _ _ _ b Hf).
  - apply save_new_Ok in H as (Hn & Ha & _ & _ & ->).
    refine (quota_append w [_] Hq _ _); [|unfold len; cbn [length]; lia].
    intros b Hb%list_elem_of_singleton. by subst.
Qed.

(** In every reachable workflow no attempt has more than [MAX_ARTIFACTS] drafts. *)
Theorem reachable_artifact_quota w attempt :
  reachable w ->
  count (fun a => wa_attempt_id a == attempt) (wf_artifacts w) <= MAX_ARTIFACTS.
Proof.
  intros (f & d & t & w0 & _ & H0 & Hr). apply from_fixture_fresh in H0 as (_ & H0 & _).
  revert attempt. refine (run_invariant within_artifact_quota _ _ w0 w Hr _).
  - intros w1 w2 (_ & Ha & _) _ Hq attempt. rewrite Ha. apply Hq.
  - intros w1 actor c now fresh w2 r H Hq.
    apply workflow_apply_Ok in H as (t' & it & w1' & Hc). destruct Hc as [_ _ _ _ _ _ Ha _ _ ->].
    change (within_artifact_quota w1').
    change (within_artifact_quota (evaluated w1 t')) in Hq.
    destruct (touches_artifacts c) eqn:Ht.
    2: { apply arm_rest in Ha as (_ & _ & _ & Hs & _). intros attempt. by rewrite Hs. }
    destruct c; try done; cbn [apply_validated] in Ha; eauto using draft_quota, files_quota.
  - intros attempt. by rewrite H0.
Qed.

(** ** Machine integers *)

Definition ranged (it : WorkItem) : Prop :=
  in_i64 (wi_revision it) /\ in_u32 (wi_attempt_number it).

Definition ranges (w : Workflow) : Prop :=
  in_i64 (wf_revision w) /\ Forall ranged (all_attempts w).

Lemma ranges_items w :
  Forall ranged (all_attempts w) <->
  ranged (wf_source w) /\ Forall ranged (opt_to_list (wf_next w))
  /\ Forall ranged (wf_completed_attempts w).
Proof.
  unfold all_attempts, current_items. rewrite Forall_app, Forall_cons. naive_solver.
Qed.

Lemma put_ranged w t it it' w' :
  item w t = Ok it -> ranged it' -> items w' = items (put_item w t it') ->
  ranged (wf_source w) -> Forall ranged (opt_to_list (wf_next w)) ->
  ranged (wf_source w') /\ Forall ranged (opt_to_list (wf_next w')).
Proof.
  intros _ Hr Hi Hs Hn. rewrite items_put in Hi. case_bool_decide; injection Hi as -> ->; [done|].
  split; [done|]. cbn. by constructor.
Qed.

Lemma effect_ranged w c now fresh it w' :
  item w (command_task_id c) = Ok it -> item_effect w c now fresh it (items w') ->
  ranged (wf_source w) -> Forall ranged (opt_to_list (wf_next w)) ->
  ranged (wf_source w') /\ Forall ranged (opt_to_list (wf_next w')).
Proof.
  intros Hit He Hs Hn. remember (items w') as p eqn:Hp.
  assert (ranged it) as Hri.
  { apply item_Ok in Hit as [[_ ->]|(_ & Hx & _)]; [done|]. rewrite Hx in Hn.
    cbn in Hn. by apply Forall_cons in Hn as [? _]. }
  destruct He as [_ _|it' w2 Hu _ Hi|pl sid ? ? ? ? ? ? ? n -> _ -> _ _ Hr _ Hn1 Hn2|
                  ? ? ? ? ? ? ? -> Hx _ _ Hr1 Hr2 Hr3].
  - injection Hp as <- <-. done.
  - rewrite Hp in Hi. apply (put_ranged w _ it it' _ Hit); try done.
    destruct Hu as [_ _ Hnum _ Hrev Hin _]. split; [by rewrite Hrev|]. rewrite Hnum. apply Hri.
  - injection Hp as <- <-. split; [split; [done|apply Hri]|]. cbn. by constructor.
  - injection Hp as <- <-. split; [done|]. cbn. constructor; [|done]. split; [done|apply Hri].
Qed.

Lemma apply_ranges w actor c now fresh w' r :
  apply w actor c now fresh = (w', Ok r) -> ranges w -> ranges w'.
Proof.
  intros (t & it & w1 & Hc)%workflow_apply_Ok [_ Hr].
  destruct (committed_items _ _ _ _ _ _ _ _ _ _ Hc) as (pl & _ & He).
  destruct Hc as [_ _ _ Hit _ _ Ha Hrev _ ->]. split; [done|].
  apply ranges_items in Hr as (Hs & Hn & Hd).
  destruct (effect_ranged (evaluated w t) _ _ _ _ _ Hit He Hs Hn) as [Hs' Hn'].
  apply ranges_items. split_and!; [exact Hs'|exact Hn'|]. cbn.
  destruct (touches_completed c) eqn:Ht.
  2: { apply arm_rest in Ha as (_ & _ & _ & _ & Hx). by rewrite Hx. }
  destruct c; try done; cbn [apply_validated] in Ha.
  - apply apply_return_Ok in Ha. destruct Ha as (? & ? & ? & ? & Ha). destruct_and!.
    match goal with H : wf_completed_attempts w1 = _ |- _ => rewrite H end.
    apply Forall_app. split; [done|]. by constructor.
  - apply apply_submit_Ok in Ha. destruct Ha as (? & ? & ? & ? & Ha). destruct_and!. subst.
    cbn. apply Forall_app. done.
Qed.

Lemma fail_revision w actor id code now w' r :
  fail_agent_execution w actor id code now = (w', r) ->
  in_i64 (wf_revision w) -> in_i64 (wf_revision w').
Proof.
  unfold fail_agent_execution. intros H Hr. repeat case_match; simplify_eq; try done.
  match goal with H : checked_add_i64 _ _ = Some _ |- _ => apply checked_add_i64_Some in H end.
  cbn. naive_solver.
Qed.

Lemma interrupt_each_revision actor now ids w w' r :
  interrupt_each w actor now ids = (w', r) ->
  in_i64 (wf_revision w) -> in_i64 (wf_revision w').
Proof.
  revert w. induction ids as [|id ids IH]; intros w; cbn; [by intros [= <- _]|].
  destruct (fail_agent_execution _ _ _ _ _) as [w1 [e|e]] eqn:Hf; intros H Hr;
    pose proof (fail_revision _ _ _ _ _ _ _ Hf Hr); [by eapply IH|by injection H as <- _].
Qed.

Lemma quiet_ranges w w' :
  quiet w w' -> items w' = items w -> in_i64 (wf_revision w') -> ranges w -> ranges w'.
Proof.
  intros (_ & _ & Hd) [= Hs Hn] Hr [_ Ha]. split; [done|].
  unfold all_attempts, current_items in *. by rewrite Hs, Hn, Hd.
Qed.

Lemma run_step_ranges w w' : run_step w w' -> ranges w -> ranges w'.
Proof.
  intros [? ? ? ? ? ? H| | | | |? ? ? ? ? H|? ? ? ? ? ? H|? ? ? ? ? ? H|? ? ? ? H] Hr;
    try done.
  - by eapply apply_ranges.
  - pose proof (start_quiet _ _ _ _ _ _ H) as [Hq Hi]. apply (quiet_ranges w); try done.
    apply commit_Ok, try_start_Ok in H as [[-> _]|(? & ? & H)]; [apply Hr|].
    destruct_and!. by subst.
  - pose proof (finish_quiet _ _ _ _ _ _ _ H) as [(_ & _ & Hd) (it & Hit & Hin & Hi)].
    apply commit_Ok, try_finish_Ok in H.
    destruct H as (? & ? & ? & ? & ? & _ & _ & _ & _ & _ & _ & Hrev & -> & _).
    destruct Hr as [_ Ha]. split; [done|]. apply ranges_items in Ha as (Hs & Hn & Hc).
    apply ranges_items. rewrite Hd.
    refine (_ (put_ranged w _ it _ _ Hit _ Hi Hs Hn)); [tauto|]. split; [done|]. cbn.
    apply item_Ok in Hit as [[_ ->]|(_ & Hx & _)]; [apply Hs|].
    rewrite Hx in Hn. cbn in Hn. apply Forall_cons in Hn as [[_ Hn] _]. exact Hn.
  - apply (quiet_ranges w); try done; [by eapply fail_quiet|by eapply fail_items|].
    eapply fail_revision; [done|apply Hr].
  - pose proof (interrupt_quiet _ _ _ _ _ H) as [Hq Hi]. apply (quiet_ranges w); try done.
    unfold interrupt_agent_executions in H.
    destruct (interrupt_each _ _ _ _) as [w2 [e|e]] eqn:Hf; injection H as <- _;
      (eapply interrupt_each_revision; [done|apply Hr]).
Qed.

(** In every reachable workflow the aggregate revision and the revision of every
    current and archived attempt is an [i64], and every attempt number a [u32]: no counter
    has wrapped. *)
Theorem reachable_counters_in_range w :
  reachable w ->
  in_i64 (wf_revision w)
  /\ forall it, it ∈ all_attempts w -> in_i64 (wi_revision it) /\ in_u32 (wi_attempt_number it).
Proof.
  intros (f & d & t & w0 & _ & H0 & Hr). apply from_fixture_fresh in H0. destruct_and!.
  assert (ranges w) as [Hw Ha].
  { assert (ranges w0) as Hw0.
    { split; [unfold in_i64, i64_min, i64_max; lia|]. apply ranges_items.
      split_and!; [|by match goal with H : wf_next _ = None |- _ => rewrite H end|
                    by match goal with H : wf_completed_attempts _ = _ |- _ => rewrite H end].
      split; [unfold in_i64, i64_min, i64_max|unfold in_u32, u32_max]; lia. }
    clear -Hr Hw0. induction Hr; eauto using run_step_ranges. }
  split; [done|]. rewrite Forall_forall in Ha. exact Ha.
Qed.

(** ** Responsibility periods *)

Lemma NoDup_attempt w pl it it' :
  workflow_wf w pl -> it ∈ current_items w -> it' ∈ current_items w ->
  wi_attempt_id it = wi_attempt_id it' -> it = it'.
Proof.
  intros Hw Hi Hi'. apply (NoDup_key wi_attempt_id _ _ _ (wf_attempts _ _ Hw));
    apply elem_of_app; by left.
Qed.

Lemma close_record_open open now q :
  war_ended_at (close_record open now q) = None ->
  close_record open now q = q /\ war_attempt_id q ∈ open.
Proof.
  unfold close_record.
  destruct (is_none (war_ended_at q) && negb (contains open (war_attempt_id q))) eqn:E; [done|].
  intros He. rewrite He in E. cbn in E. by simp_bool.
Qed.

(** After every committed command each open responsibility period belongs to a
    current attempt that is not completed and matches its pointer, assignee and acting
    responsibility, and an attempt has at most one open period. *)
Theorem open_periods_match_items w actor c now fresh w' r :
  apply w actor c now fresh = (w', Ok r) ->
  NoDup (map war_attempt_id
           (List.filter (fun p => is_none (war_ended_at p)) (wf_assignments w')))
  /\ forall p, p ∈ wf_assignments w' -> war_ended_at p = None ->
     exists it, it ∈ current_items w' /\ wi_state it <> Completed
       /\ wi_attempt_id it = war_attempt_id p
       /\ wi_work_assignment_id it = Some (war_id p)
       /\ wi_assignee it = Some (war_principal p)
       /\ wi_acting_assignment_id it = Some (war_acting_assignment_id p).
Proof.
  intros (t & it & w1 & Hc)%workflow_apply_Ok. destruct Hc as [_ _ _ _ _ _ _ _ Hv ->].
  apply validate_integrity_wf in Hv as [pl Hw]. split; [apply (wf_open_periods _ _ Hw)|].
  intros p Hp He. destruct (wf_period _ _ Hw p Hp He) as (b & Hb & Hba & _ & Hbw & Hbp & Hbr).
  exists b. split_and!; try done.
  change (p ∈ map (close_record (open_attempts w1) now) (wf_assignments w1)) in Hp.
  apply list_elem_of_In, in_map_iff in Hp as (q & Hq & _).
  rewrite <-Hq in He. apply close_record_open in He as [Hc E]. rewrite Hc in Hq. subst q.
  unfold open_attempts in E.
  apply list_elem_of_In, in_map_iff in E as (o & Ho & Hin).
  apply list_elem_of_In, elem_of_filter_bool in Hin as [Hin Hs]. simp_bool.
  assert (o = b) as -> by (eapply NoDup_attempt; [exact Hw|exact Hin|exact Hb|congruence]).
  done.
Qed.

End Theorems.
