(* ===== verification/AgentTheorems.v ===== *)
(** * AgentTheorems: what the agent execution state promises

    Active executions are always current and one per work item, dispatch hands out exactly the
    requested scope, a finished result cites only usable sources and never claims more than a
    simulation, failure and interruption end executions on every branch. *)
From stdpp Require Import base gmap sets list strings relations.
From Stdlib Require Import ZArith Lia.
From S2P Require Import Prelude WorkTypes WorkSetters Text Externals Principals Organization.
From S2P Require Import Context WorkflowReads Evidence Agent Integrity Files AgentRun Commands.
From S2P Require Import WorkflowFacts Machine Runs.

Local Open Scope Z_scope.

Section Theorems.
Context {X : Externals}.

(** ** Freshness *)

(** The execution still describes the work context it was requested in. *)
Definition current_execution (w : Workflow) (e : AgentExecution) : Prop :=
  ae_effective_context_revision e = wf_revision w
  /\ exists it, item w (ae_work_item_id e) = Ok it /\ wi_state it = Active
       /\ wi_attempt_id it = ae_attempt_id e /\ wi_revision it = ae_task_revision e.

Lemma not_stale w e :
  is_active (ae_status e) = true -> stale_execution w e = false -> current_execution w e.
Proof.
  unfold stale_execution. intros Ha H. rewrite Ha in H. cbn in H.
  apply orb_false_iff in H as [H1 H2]. simp_bool.
  split; [done|]. destruct (item w (ae_work_item_id e)) as [it|]; cbn in H2; [|done].
  exists it. simp_bool. done.
Qed.

Lemma refresh_active w now e :
  is_active (ae_status (refresh w now e)) = true ->
  refresh w now e = e /\ current_execution w e.
Proof.
  unfold refresh. destruct (stale_execution w e) eqn:E; [done|].
  intros Ha. split; [done|]. by apply not_stale.
Qed.

(** After every committed command, each active agent execution was requested for
    exactly the present work context (aggregate revision, attempt and task revision of an
    active task), and a work item has at most one active execution. *)
Theorem active_executions_are_current w actor c now fresh w' r :
  apply w actor c now fresh = (w', Ok r) ->
  (forall e, e ∈ wf_agent_executions w' -> is_active (ae_status e) = true ->
     current_execution w' e)
  /\ NoDup (map ae_work_item_id
              (List.filter (fun e => is_active (ae_status e)) (wf_agent_executions w'))).
Proof.
  intros (t & it & w1 & Hc)%workflow_apply_Ok. destruct Hc as [_ _ _ _ _ _ _ _ Hv ->].
  apply validate_integrity_wf in Hv as [pl Hw].
  split; [|apply (agents_active _ (wf_agents _ _ Hw))].
  intros e He Ha. cbn in He. apply list_elem_of_In, in_map_iff in He as (e0 & <- & _).
  apply refresh_active in Ha as [-> Hcur]. exact Hcur.
Qed.

(** ** Dispatch *)

(** Starting an execution that is not queued changes nothing and dispatches
    nothing; a dispatched context is the stored execution, now running for its requester at
    the new aggregate revision, with exactly the requested evidence resolved and readable, the
    two read tools, and a task that is active and unchanged since the request. *)
Theorem start_dispatches_requested_scope w actor id now w' outcome :
  start_agent_execution w actor id now = (w', Ok outcome) ->
  match outcome with
  | None => w' = w
  | Some d =>
      wf_revision w' = wf_revision w + 1 /\ in_i64 (wf_revision w')
      /\ find (fun e => ae_id e == id) (wf_agent_executions w') = Some (adc_execution d)
      /\ ae_status (adc_execution d) = Running /\ ae_requested_by (adc_execution d) = actor
      /\ current_execution w' (adc_execution d)
      /\ adc_allowed_tools d = [DocumentRevision; DocumentVersionFiles]
      /\ resolve_evidence w' actor (ae_evidence_revision_refs (adc_execution d))
         = Ok (adc_evidence d)
      /\ (exists e, find (fun e => ae_id e == id) (wf_agent_executions w) = Some e
            /\ ae_status e = Queued /\ same_request e (adc_execution d))
  end.
Proof.
  intros H%commit_Ok. apply try_start_Ok in H as [[-> ->]|(e & n & Hf & Hs & _ & Hn & Hin & Hw & H)];
    [done|]. destruct H as (d & -> & Hb).
  pose proof (build_agent_context_Ok _ _ _ _ Hb) as (Hf' & Hs' & Hr' & Hrev & (it & H) & He & _).
  destruct_and!. subst n.
  assert (adc_allowed_tools d = [DocumentRevision; DocumentVersionFiles]) as Ht.
  { unfold build_agent_context, agent_disclosure_context in Hb. inv_ok. by subst. }
  rewrite Hw in *. cbn [wf_revision set_wf_revision] in *. split_and!; try done.
  - split; [by rewrite Hrev|]. eauto 10.
  - exists e. split_and!; try done. cbn in Hf'.
    clear -Hf Hf'. revert Hf Hf'. generalize (wf_agent_executions w). intros l.
    induction l as [|x l IH]; cbn; [done|].
    destruct (bool_decide (ae_id x = id)) eqn:E; cbn; rewrite E; [|exact IH].
    intros [= ->] [= <-]. unfold same_request. by split_and!.
Qed.

(** ** Failure and interruption *)

Lemma find_updated {A} (p : A -> bool) (f : A -> A) l x :
  find p l = Some x -> p (f x) = true -> find p (update_first p f l) = Some (f x).
Proof.
  induction l as [|y l IH]; cbn; [done|]. destruct (p y) eqn:E; cbn.
  - intros [= ->] ->. done.
  - rewrite E. exact IH.
Qed.

(** C40: failing an execution, on every branch: an unknown one is not found; one that is
    over is returned unchanged; an active one is ended with the code, and the revision
    advances, unless the revision is the largest [i64]: then the call reports an integrity
    violation although the stored execution has been ended. *)
Theorem fail_agent_execution_branches w actor id code now :
  in_i64 (wf_revision w) ->
  match find (fun e => (ae_id e == id) && (ae_requested_by e == actor)) (wf_agent_executions w) with
  | None => fail_agent_execution w actor id code now = (w, Err WorkItemNotFound)
  | Some e =>
      if is_active (ae_status e) then
        exists w' outcome, fail_agent_execution w actor id code now = (w', outcome)
          /\ (exists e', find (fun e => (ae_id e == id) && (ae_requested_by e == actor))
                           (wf_agent_executions w') = Some e'
                /\ ae_status e' = failure_status code /\ is_active (ae_status e') = false
                /\ ae_failure_code e' = Some code /\ ae_ended_at e' = Some now
                /\ (wf_revision w < i64_max -> outcome = Ok e'))
          /\ (if wf_revision w <? i64_max then wf_revision w' = wf_revision w + 1
              else wf_revision w' = wf_revision w /\ outcome = Err IntegrityViolation)
      else fail_agent_execution w actor id code now = (w, Ok e)
  end.
Proof.
  intros Hr. unfold fail_agent_execution.
  destruct (find _ _) as [e|] eqn:Hf; [|done].
  destruct (is_active (ae_status e)) eqn:Ha; [|done].
  set (e' := set_ae_ended_at _ _).
  assert (find (fun e => (ae_id e == id) && (ae_requested_by e == actor))
            (update_first (fun e => (ae_id e == id) && (ae_requested_by e == actor))
               (fun _ => e') (wf_agent_executions w)) = Some e') as Hf'.
  { eapply (find_updated _ (fun _ => e')); [exact Hf|]. by apply find_Some_iff in Hf as [_ ?]. }
  cbn [wf_revision set_wf_agent_executions].
  assert (is_active (failure_status code) = false) as Hfs by by destruct code.
  destruct (Z.ltb_spec (wf_revision w) i64_max) as [Hlt|Hge].
  - assert (checked_add_i64 (wf_revision w) 1 = Some (wf_revision w + 1)) as ->.
    { apply checked_add_i64_Some. split; [done|]. unfold in_i64 in *. lia. }
    do 2 eexists. split; [done|]. split; [|done]. exists e'. by split_and!.
  - assert (checked_add_i64 (wf_revision w) 1 = None) as ->.
    { unfold checked_add_i64. unfold in_i64 in Hr. destruct (_ && _) eqn:E; [|done].
      simp_bool. lia. }
    do 2 eexists. split; [done|]. split; [|done]. exists e'. split_and!; try done. lia.
Qed.

(** The record a failed or interrupted execution becomes. *)
Definition ended_with (code : AgentFailureCode) (now : string) (e : AgentExecution)
    : AgentExecution :=
  set_ae_ended_at (Some now)
    (set_ae_failure_code (Some code) (set_ae_status (failure_status code) e)).

Lemma fail_active_Ok w actor id code now e w' r :
  NoDup (map ae_id (wf_agent_executions w)) ->
  e ∈ wf_agent_executions w -> ae_id e = id -> ae_requested_by e = actor ->
  is_active (ae_status e) = true ->
  fail_agent_execution w actor id code now = (w', Ok r) ->
  w' = set_wf_revision (wf_revision w + 1)
         (set_wf_agent_executions
            (map (select_map [id] (ended_with code now)) (wf_agent_executions w)) w).
Proof.
  intros Hn He <- <- Ha.
  assert (find (fun x => (ae_id x == ae_id e) && (ae_requested_by x == ae_requested_by e))
            (wf_agent_executions w) = Some e) as Hf.
  { destruct (find _ _) as [x|] eqn:Hf.
    - apply find_Some_iff in Hf as [Hx [Hid _]%andb_true_iff]. simp_bool.
      f_equal. by apply (NoDup_key ae_id (wf_agent_executions w)).
    - rewrite find_None_iff in Hf. specialize (Hf e He).
      by rewrite !bool_decide_eq_true_2 in Hf. }
  unfold fail_agent_execution. rewrite Hf, Ha.
  destruct (checked_add_i64 _ 1) as [n|] eqn:Hc; [|done]. intros [= <- _].
  apply checked_add_i64_Some in Hc as [-> _].
  unfold set_wf_revision, set_wf_agent_executions. cbn. f_equal.
  clear Hf. revert Hn He. generalize (wf_agent_executions w). intros l.
  induction l as [|x l IH]; intros Hn He; [by apply elem_of_nil in He|].
  cbn in Hn. apply NoDup_cons in Hn as [Hx Hl]. unfold select_map, contains in *. cbn.
  destruct (decide (ae_id x = ae_id e)) as [Heq|Hne].
  - assert (x = e) as ->.
    { apply elem_of_cons in He as [->|He]; [done|]. destruct Hx. rewrite Heq.
      by apply list_elem_of_In, in_map, list_elem_of_In. }
    rewrite !bool_decide_eq_true_2; [|apply list_elem_of_singleton; done|done|done]. cbn. f_equal.
    rewrite <-(map_id l) at 1. apply map_ext_in. intros y Hy.
    rewrite bool_decide_eq_false_2; [done|]. rewrite list_elem_of_singleton. intros Hz.
    apply Hx. rewrite <-Hz. by apply list_elem_of_In, in_map.
  - rewrite (bool_decide_eq_false_2 (ae_id x = ae_id e)) by done. cbn.
    rewrite bool_decide_eq_false_2 by (by rewrite list_elem_of_singleton). f_equal.
    apply IH; [done|]. apply elem_of_cons in He as [->|?]; done.
Qed.

Lemma interrupt_each_Ok actor now ids :
  NoDup ids -> forall w w',
  NoDup (map ae_id (wf_agent_executions w)) ->
  (forall id, id ∈ ids -> exists e, e ∈ wf_agent_executions w /\ ae_id e = id
     /\ ae_requested_by e = actor /\ is_active (ae_status e) = true) ->
  interrupt_each w actor now ids = (w', Ok tt) ->
  wf_agent_executions w'
    = map (select_map ids (ended_with Code_Interrupted now)) (wf_agent_executions w)
  /\ wf_revision w' = wf_revision w + len ids.
Proof.
  induction ids as [|id ids IH]; intros Hids w w' Hn Hall; cbn.
  - intros [= <-]. split; [|unfold len; cbn; lia]. by rewrite map_id.
  - apply NoDup_cons in Hids as [Hid Hids].
    destruct (Hall id) as (e & He & Hei & Hea & Hs); [apply elem_of_cons; by left|].
    destruct (fail_agent_execution _ _ _ _ _) as [w1 [r|r]] eqn:Hf; [|done].
    apply (fail_active_Ok _ _ _ _ _ e) in Hf; try done. subst w1. intros H.
    apply IH in H as [H1 H2]; [|done| |].
    + cbn in H1, H2. rewrite H1, H2, map_map. split; [|unfold len; cbn [length]; lia].
      apply map_ext. intros x. unfold select_map at 1 3, contains.
      unfold select_map, contains.
      destruct (decide (ae_id x = id)) as [Heq|Hne].
      * rewrite (bool_decide_eq_true_2 (ae_id x ∈ [id])) by (by rewrite list_elem_of_singleton).
        rewrite (bool_decide_eq_false_2 (ae_id (ended_with _ _ x) ∈ ids)) by (by cbn; rewrite Heq).
        rewrite bool_decide_eq_true_2 by (apply elem_of_cons; by left). done.
      * rewrite (bool_decide_eq_false_2 (ae_id x ∈ [id])) by (by rewrite list_elem_of_singleton).
        rewrite (bool_decide_ext (ae_id x ∈ id :: ids) (ae_id x ∈ ids)); [done|].
        rewrite elem_of_cons. naive_solver.
    + cbn. rewrite map_map_id; [done|]. intros x. unfold select_map. by destruct (contains _ _).
    + intros id' Hid'. destruct (Hall id') as (x & Hx & Hxi & Hxa & Hxs);
        [apply elem_of_cons; by right|].
      exists x. split_and!; try done. cbn. apply list_elem_of_In, in_map_iff.
      exists x. split; [|by apply list_elem_of_In].
      unfold select_map, contains. rewrite bool_decide_eq_false_2; [done|].
      rewrite list_elem_of_singleton. congruence.
Qed.

(** A successful interruption ends every active execution of the actor as
    outcome unknown, leaves all others alone, counts the ended ones, and advances the
    revision by that number; no active execution of the actor remains. *)
Theorem interrupt_ends_all_active w actor now w' n :
  NoDup (map ae_id (wf_agent_executions w)) ->
  interrupt_agent_executions w actor now = (w', Ok n) ->
  wf_agent_executions w'
    = map (fun e => if (ae_requested_by e == actor) && is_active (ae_status e)
                    then ended_with Code_Interrupted now e else e) (wf_agent_executions w)
  /\ n = count (fun e => (ae_requested_by e == actor) && is_active (ae_status e))
           (wf_agent_executions w)
  /\ wf_revision w' = wf_revision w + n
  /\ forall e, e ∈ wf_agent_executions w' -> ae_requested_by e = actor ->
     is_active (ae_status e) = false.
Proof.
  intros Hn. unfold interrupt_agent_executions.
  set (p := fun e => (ae_requested_by e == actor) && is_active (ae_status e)).
  destruct (interrupt_each _ _ _ _) as [w1 [[]|e]] eqn:Hf; [|done]. intros [= <- <-].
  apply interrupt_each_Ok in Hf as [He Hr]; [|by apply NoDup_map_filter|done|].
  - assert (wf_agent_executions w1
      = map (fun e => if p e then ended_with Code_Interrupted now e else e)
          (wf_agent_executions w)) as Hx.
    { rewrite He. apply map_ext_in. intros e Hin%list_elem_of_In. unfold select_map.
      by rewrite (selected_iff p). }
    split_and!; try done.
    + unfold count, len. by rewrite length_map.
    + rewrite Hx. intros e Hin Ha. apply list_elem_of_In, in_map_iff in Hin as (e0 & <- & _).
      destruct (p e0) eqn:Hp; [done|]. unfold p in Hp. apply andb_false_iff in Hp as [Hp|Hp];
        [|done]. simp_bool. done.
  - intros id Hid. apply list_elem_of_In, in_map_iff in Hid as (e & <- & Hin).
    apply list_elem_of_In, elem_of_filter_bool in Hin as [Hin Hp]. unfold p in Hp. simp_bool.
    eauto 10.
Qed.

(** ** Completion *)

Lemma outcomes_aligned outcomes refs :
  len outcomes = len refs -> outcomes_mismatch outcomes refs = false ->
  map aso_evidence_revision_ref outcomes = refs.
Proof.
  unfold outcomes_mismatch, len. revert refs.
  induction outcomes as [|o outcomes IH]; intros [|r refs]; cbn; try lia; [done|].
  intros Hl H. simp_bool. f_equal; [done|]. apply IH; [lia|done].
Qed.

Lemma validate_output_Ok output context :
  validate_output output context = Ok tt ->
  map aso_evidence_revision_ref (ao_source_outcomes output)
    = ae_evidence_revision_refs (adc_execution context)
  /\ usable_outcomes (ao_source_outcomes output) <> []
  /\ ao_uncertainty output <> []
  /\ len (ao_generated_artifacts output) <= MAX_GENERATED_ARTIFACTS
  /\ len (ao_suggested_actions output) <= MAX_SUGGESTED_ACTIONS
  /\ (ae_executed_by (adc_execution context) = SYNTHETIC_EXECUTOR ->
      forall o, o ∈ ao_source_outcomes output -> aso_outcome o <> Analyzed).
Proof.
  unfold validate_output. intros H. inv_ok. simp_bool.
  split_and!; try done.
  - by apply outcomes_aligned.
  - intros He. by rewrite He in *.
  - intros He. by rewrite He in *.
  - intros He o Ho Heq.
    match goal with H : (_ == SYNTHETIC_EXECUTOR) && _ = false |- _ =>
      rewrite bool_decide_eq_true_2 in H by done; cbn in H;
      rewrite existsb_false in H; specialize (H o Ho) end.
    by simp_bool.
Qed.

(** The stored references of a result's findings, when it has per-source outcomes. *)
Lemma validate_result_findings w e result r :
  validate_result w e result = Ok tt -> agr_source_outcomes result <> [] ->
  r ∈ agr_finding_revision_refs result ->
  exists f, f ∈ wf_findings w /\ finding_ref f = r /\ fi_origin_execution_id f = Some (ae_id e)
    /\ fi_author f = SYNTHETIC_EXECUTOR /\ fi_evidence_revision_refs f <> []
    /\ forall x, x ∈ fi_evidence_revision_refs f -> x ∈ usable_sources result.
Proof.
  unfold validate_result. intros H Hne Hr. inv_ok.
  apply for_each_unit in H. rewrite Forall_forall in H. specialize (H r Hr). inv_ok. simp_bool.
  match goal with H : existsb _ _ = true |- _ => apply existsb_true in H as (f & Hf & H) end.
  destruct (agr_source_outcomes result) eqn:Eo; [done|]. cbn [is_empty] in *. simp_bool.
  exists f. split_and!; try done.
  - unfold finding_ref. destruct r. cbn in *. congruence.
  - intros He. by rewrite He in *.
  - intros x Hx. match goal with H : forallb _ _ = true |- _ =>
      rewrite forallb_true in H; specialize (H x Hx) end. by simp_bool.
Qed.

Lemma cites_usable_true result refs :
  cites_usable result refs = true ->
  refs <> [] /\ forall x, x ∈ refs -> x ∈ usable_sources result.
Proof.
  unfold cites_usable, cites. intros H. simp_bool. split; [by intros ->|].
  intros x Hx. match goal with H : forallb _ _ = true |- _ =>
    rewrite forallb_true in H; specialize (H x Hx) end. by simp_bool.
Qed.

Lemma listing_result_found w id e result :
  NoDup (map ae_id (wf_agent_executions w)) -> e ∈ wf_agent_executions w -> ae_id e = id ->
  forall e' result', listing_result w id = Ok (e', result') -> ae_result e = Some result ->
  e' = e /\ result' = result.
Proof.
  intros Hn He Hid e' result' H Hr. unfold listing_result in H. inv_ok. simplify_eq.
  match goal with H : find _ _ = Some _ |- _ => apply find_Some_iff in H as [Hin Hp] end.
  simp_bool.
  assert (e' = e) as -> by (by eapply (NoDup_key ae_id)). split; congruence.
Qed.

(** Every stored candidate of an execution is listed and cites only usable sources. *)
Lemma candidates_cite_usable w e result :
  NoDup (map ae_id (wf_agent_executions w)) -> validate_candidate_integrity w = Ok tt ->
  e ∈ wf_agent_executions w -> ae_result e = Some result ->
  (forall g, g ∈ wf_generated_artifacts w -> ga_execution_id g = ae_id e ->
     ga_id g ∈ agr_generated_artifact_ids result /\ ga_source_revision_refs g <> []
     /\ forall x, x ∈ ga_source_revision_refs g -> x ∈ usable_sources result)
  /\ (forall s, s ∈ wf_suggested_actions w -> sa_execution_id s = ae_id e ->
     sa_id s ∈ agr_suggested_action_ids result /\ sa_supporting_revision_refs s <> []
     /\ forall x, x ∈ sa_supporting_revision_refs s -> x ∈ usable_sources result).
Proof.
  intros Hn Hv He Hr. unfold validate_candidate_integrity in Hv. inv_ok.
  apply for_each_visits in Hok. apply for_each_visits in Hok0.
  rewrite Forall_forall in Hok. rewrite Forall_forall in Hok0. split.
  - intros g Hg Hid. destruct (Hok g Hg) as (s1 & s2 & H). unfold validate_generated in H.
    inv_ok. simp_bool.
    match goal with H : listing_result _ _ = Ok _ |- _ =>
      eapply (listing_result_found _ _ e result Hn He (eq_sym Hid)) in H as [-> ->]; [|done] end.
    split; [done|]. by apply cites_usable_true.
  - intros g Hg Hid. destruct (Hok0 g Hg) as (s1 & s2 & H). unfold validate_suggested in H.
    inv_ok. simp_bool.
    match goal with H : listing_result _ _ = Ok _ |- _ =>
      eapply (listing_result_found _ _ e result Hn He (eq_sym Hid)) in H as [-> ->]; [|done] end.
    split; [done|]. by apply cites_usable_true.
Qed.

(** A finished execution is the requested one, succeeded, with a result that claims
    a simulation only (no body analysis, no live model, no wire call), has one outcome per
    requested source in order, none of them analysed and some of them usable, and whose
    finding, generated artifacts and suggested actions are stored and cite usable sources
    only. *)
Theorem finished_result_is_sound w context output now fresh w' e :
  finish_agent_execution w context output now fresh = (w', Ok e) ->
  e ∈ wf_agent_executions w' /\ same_request (adc_execution context) e
  /\ ae_status e = Succeeded /\ wf_revision w' = wf_revision w + 1
  /\ exists result, ae_result e = Some result
    /\ agr_simulated result = true /\ agr_body_analyzed result = false
    /\ agr_live_llm result = false /\ agr_mcp_wire_executed result = false
    /\ map aso_evidence_revision_ref (agr_source_outcomes result) = ae_evidence_revision_refs e
    /\ (forall o, o ∈ agr_source_outcomes result -> aso_outcome o <> Analyzed)
    /\ usable_sources result <> []
    /\ length (agr_finding_revision_refs result) = length (opt_to_list (ao_finding output))
    /\ (forall r, r ∈ agr_finding_revision_refs result ->
         exists f, f ∈ wf_findings w' /\ finding_ref f = r
           /\ fi_origin_execution_id f = Some (ae_id e)
           /\ forall x, x ∈ fi_evidence_revision_refs f -> x ∈ usable_sources result)
    /\ (forall g, g ∈ wf_generated_artifacts w' -> ga_execution_id g = ae_id e ->
         forall x, x ∈ ga_source_revision_refs g -> x ∈ usable_sources result)
    /\ (forall s, s ∈ wf_suggested_actions w' -> sa_execution_id s = ae_id e ->
         forall x, x ∈ sa_supporting_revision_refs s -> x ∈ usable_sources result).
Proof.
  intros H%commit_Ok. apply try_finish_Ok in H.
  destruct H as (fs & gen & sug & it & result & Hb & Ho & Hl & Hres & _ & _ & _ & Hw & Hf & Hv).
  apply build_agent_context_Ok in Hb as (Hfe & _ & _ & _ & _ & _ & Hsc).
  assert (e = mark_succeeded now result (wi_revision it + 1) (adc_execution context)) as He.
  { rewrite Hw in Hf. cbn in Hf. rewrite (find_updated _ _ _ _ Hfe) in Hf; [by simplify_eq|].
    cbn. by apply bool_decide_eq_true_2. }
  assert (wf_revision w' = wf_revision w + 1) as Hrev by (by rewrite Hw).
  assert (ae_executed_by (adc_execution context) = SYNTHETIC_EXECUTOR
          /\ ae_evidence_revision_refs (adc_execution context) <> []) as [Hx Hne].
  { unfold validate_scope in Hsc. inv_ok. simp_bool. split; [done|]. intros Heq.
    by rewrite Heq in *. }
  apply validate_output_Ok in Ho as (Hm & Hu & _ & _ & _ & Ha). specialize (Ha Hx).
  apply find_Some_iff in Hf as [Hin _].
  apply validate_integrity_wf in Hv as [pl Hwf]. pose proof (wf_agents _ _ Hwf) as Hag.
  assert (ae_result e = Some result) as Hr by (by rewrite He).
  assert (agr_source_outcomes result <> []) as Hno.
  { rewrite Hres. cbn. intros Heq. rewrite Heq in Hm. by apply Hne. }
  assert (usable_sources result = usable_outcomes (ao_source_outcomes output)) as Hus.
  { unfold usable_sources. rewrite Hres in *. cbn in *. by destruct (ao_source_outcomes output). }
  destruct (candidates_cite_usable w' e result (agents_ids _ Hag) (wf_candidates _ _ Hwf) Hin Hr)
    as [Hg Hs].
  split_and!; try done; try by rewrite He.
  exists result. split_and!; try done; try (by rewrite Hres).
  - by rewrite He, Hres.
  - by rewrite Hus.
  - rewrite Hres. cbn [finished_result agr_finding_revision_refs]. rewrite <-Hl.
    destruct (ao_finding output), fs as [|f [|]]; done.
  - intros r Hr'. destruct (validate_result_findings w' e result r) as (f & Hf); try done.
    + by apply (agents_checked _ Hag).
    + destruct_and!. exists f. split_and!; done.
  - intros g Hgi Hid. by apply Hg.
  - intros s Hsi Hid. by apply Hs.
Qed.

End Theorems.
