(* ===== verification/AccessTheorems.v ===== *)
(** * AccessTheorems: what an actor can see and do

    The read models and the commands against the policy authority: an actor without an
    effective responsibility sees and does nothing, a task is readable exactly by its assignee
    under its acting responsibility, a revocation in the policy takes work away at once, and
    what a task summary offers is what the command accepts. *)
From stdpp Require Import base gmap sets list strings relations.
From Stdlib Require Import ZArith Lia.
From S2P Require Import Prelude WorkTypes WorkSetters Text Externals Principals Organization.
From S2P Require Import OrganizationFacts OrganizationTheorems Context WorkflowReads Evidence.
From S2P Require Import Agent Integrity Files AgentRun Commands WorkflowFacts.
From S2P Require Import Machine Runs WorkflowTheorems.

Local Open Scope Z_scope.

Section Theorems.
Context {X : Externals}.

(** ** No responsibility, no access *)

Section NoGrants.
Variables (w : Workflow) (actor : VerifiedActor).
Hypothesis Hnone : Policy.responsibilities (policy w) actor (evaluated_at w) = [].

Lemma none_responsibility id : Policy.responsibility (policy w) actor id (evaluated_at w) = None.
Proof.
  destruct (Policy.responsibility _ _ _ _) eqn:E; [|done].
  apply responsibility_listed in E as [E _]. rewrite Hnone in E. by apply elem_of_nil in E.
Qed.

Lemma none_can_act it action : can_act w actor it action = false.
Proof.
  unfold can_act. destruct (wi_acting_assignment_id it) as [id|]; cbn; [|apply andb_false_r].
  unfold step_responsibility. rewrite none_responsibility.
  destruct (step_role it); apply andb_false_r.
Qed.

Lemma none_can_read it : can_read w actor it = false.
Proof. apply none_can_act. Qed.

Lemma none_eligible it action : eligible w actor it action = false.
Proof. unfold eligible, eligible_in. rewrite Hnone. by destruct (step_role it). Qed.

Lemma none_context_grant action scope : context_grant w actor action scope = false.
Proof. unfold context_grant. rewrite Hnone. by destruct (plan w). Qed.

Lemma none_lists view : list_tasks w actor view = [].
Proof.
  unfold list_tasks, list_tasks_in. rewrite Hnone. cbn [is_some andb List.filter existsb ok unwrap_or].
  assert (forall l, List.filter
            (lists_item w actor None [] false ((view == TaskView_Context) && continuity_in w actor None))
            l = []) as Hl.
  { intros l. induction l as [|it l IH]; [done|]. cbn [List.filter].
    assert (lists_item w actor None [] false
              ((view == TaskView_Context) && continuity_in w actor None) it = false) as ->; [|done].
    unfold lists_item. rewrite none_can_read. cbn. rewrite andb_false_r. cbn.
    unfold continuity_in. rewrite Hnone. destruct (plan w); by rewrite andb_false_r. }
  by rewrite Hl.
Qed.

Lemma none_detail id : is_err (detail w actor id) = true.
Proof. unfold detail. destruct (item w id); cbn; [|done]. by rewrite none_can_read. Qed.

Lemma none_artifact id : is_err (artifact w actor id) = true.
Proof.
  unfold artifact. destruct (find _ _) as [a|]; cbn; [|done].
  destruct (item w _); cbn; [|done]. by rewrite none_can_read.
Qed.

Lemma none_snapshot id : is_err (snapshot w actor id) = true.
Proof.
  unfold snapshot. destruct (find _ _) as [s|]; cbn [ok_or rbind]; [|done].
  assert (source_readable w actor s = false) as ->.
  { unfold source_readable, is_ok_and.
    destruct (item w _); [rewrite none_eligible|]; apply andb_false_r. }
  assert (target_readable w actor s id = false) as ->.
  { apply existsb_false. intros it _. by rewrite none_can_read, andb_false_r. }
  assert (current_readable w actor id = false) as ->.
  { apply existsb_false. intros it _. by rewrite none_can_read. }
  done.
Qed.

Lemma none_record task attempt r member :
  record_visible w actor task attempt r member = false.
Proof.
  unfold record_visible. apply orb_false_iff. split.
  - unfold is_ok_and. destruct (item w task); [|done]. by rewrite none_can_read, andb_false_r.
  - apply existsb_false. intros s _. pose proof (none_snapshot (hs_id s)) as H.
    unfold is_err in H. apply negb_true_iff in H. by rewrite H, andb_false_r.
Qed.

Lemma none_evidence id : is_err (evidence_record w actor id) = true.
Proof.
  unfold evidence_record. destruct (find _ _); cbn; [|done].
  by rewrite none_record, orb_true_r.
Qed.

Lemma none_finding id : is_err (finding w actor id) = true.
Proof.
  unfold finding. destruct (find _ _); cbn; [|done]. by rewrite none_record, orb_true_r.
Qed.

Lemma none_decision id : is_err (decision w actor id) = true.
Proof.
  unfold decision. destruct (find _ _); cbn; [|done]. by rewrite none_record, orb_true_r.
Qed.

Lemma none_execution id : is_err (agent_execution w actor id) = true.
Proof.
  unfold agent_execution. destruct (find _ _) as [e|]; cbn; [|done].
  destruct (item w _); cbn; [|done]. by rewrite none_can_read, !orb_true_r.
Qed.

Lemma none_context scope : context_view w actor scope = None.
Proof.
  unfold context_view, context_title_for. rewrite !none_context_grant.
  assert (assignee_in w actor scope = false) as ->.
  { apply existsb_false. intros it _. rewrite none_can_read. by rewrite andb_false_r. }
  by destruct (plan w).
Qed.

End NoGrants.

(** C15: an actor with no effective responsibility at the evaluation instant sees no task,
    detail, draft, submission, evidence, finding, decision, agent execution or context, and
    every command of an actor with none at its commit instant is rejected without effect. *)
Theorem no_responsibility_no_access w actor :
  (Policy.responsibilities (policy w) actor (evaluated_at w) = [] ->
   (forall view, list_tasks w actor view = []) /\ (forall scope, context_view w actor scope = None)
   /\ forall id,
     is_err (detail w actor id) = true /\ is_err (artifact w actor id) = true
     /\ is_err (snapshot w actor id) = true /\ is_err (evidence_record w actor id) = true
     /\ is_err (finding w actor id) = true /\ is_err (decision w actor id) = true
     /\ is_err (agent_execution w actor id) = true)
  /\ forall c now fresh t,
     rfc3339_parse now = Some t -> Policy.responsibilities (policy w) actor t = [] ->
     exists e, apply w actor c now fresh = (w, Err e).
Proof.
  split.
  - intros H. split_and!; [by apply none_lists|by apply none_context|].
    intros id. split_and!; [by apply none_detail|by apply none_artifact|by apply none_snapshot
      |by apply none_evidence|by apply none_finding|by apply none_decision|by apply none_execution].
  - intros c now fresh t Ht Hn.
    destruct (apply w actor c now fresh) as [w' [r|e]] eqn:E.
    + apply workflow_apply_Ok in E as (t' & it & w1 & Hc).
      pose proof (c_instant _ _ _ _ _ _ _ _ _ _ Hc) as Ht'. rewrite Ht in Ht'. simplify_eq.
      destruct (authorize_command_Ok _ _ _ it (c_authorized _ _ _ _ _ _ _ _ _ _ Hc)
                  (c_item _ _ _ _ _ _ _ _ _ _ Hc)) as (resp & Hr & _).
      apply responsibility_listed in Hr as [Hr _].
      change (resp ∈ Policy.responsibilities (policy w) actor t') in Hr.
      rewrite Hn in Hr. by apply elem_of_nil in Hr.
    + exists e. pose proof (workflow_apply_Err _ _ _ _ _ _ _ E) as ->. done.
Qed.

(** ** Reading a task *)

(** The detail of a task is disclosed exactly to its assignee, while the acting
    responsibility of the assignment is effective for them, has the step's role and allows
    reading. *)
Theorem detail_iff_effective_assignee w actor id :
  is_ok (detail w actor id) = true <->
  exists it acting resp, item w id = Ok it /\ wi_assignee it = Some actor
    /\ wi_acting_assignment_id it = Some acting
    /\ Policy.responsibility (policy w) actor acting (evaluated_at w) = Some resp
    /\ step_role it = Some (rs_role_id resp) /\ allows resp WorkRead = true.
Proof.
  unfold detail, can_read, can_act. split.
  - destruct (item w id) as [it|]; cbn; [|done].
    destruct (_ && _) eqn:E; cbn; [|done]. intros _. apply andb_true_iff in E as [E1 E2].
    apply is_some_and_true in E2 as (acting & Ha & Hs). apply is_some_true in Hs as [r Hr].
    apply step_responsibility_Some in Hr. simp_bool. destruct_and!. exists it, acting, r. done.
  - intros (it & acting & r & -> & Ha & Hac & Hr & Hs & Hal). cbn.
    rewrite Ha, Hac, bool_decide_eq_true_2 by done. cbn. unfold step_responsibility.
    rewrite Hs, Hr. cbn. by rewrite bool_decide_eq_true_2, Hal by done.
Qed.

(** ** Revocation takes work away *)

Lemma revoke_revokes p actor context id reason now new_id p' r :
  Policy.apply p actor (RevokeRoleAssignment context id reason) now new_id = (p', Ok r) ->
  revoked_in p' id.
Proof.
  intros H%apply_Ok. apply try_apply_Ok in H as (t & _ & _ & _ & _ & _ & H & _).
  cbn [Policy.apply_validated] in H. apply revoke_role_assignment_Ok in H as (_ & (a & Ha & _) & ->).
  unfold revoked_in. rewrite assignment_with_revoked, Ha. cbn.
  apply assignment_Some in Ha as [_ Hid]. rewrite bool_decide_eq_true_2 by done. eauto.
Qed.

Lemma revoked_no_responsibility p actor id t :
  revoked_in p id -> Policy.responsibility p actor id t = None.
Proof.
  intros (a & Ha & Hr). unfold Policy.responsibility.
  by rewrite Ha, (revoked_not_effective _ _ _ Hr), andb_false_r.
Qed.

(** C26: after a committed revocation of a formal assignment, whatever policy
    commands follow, a workflow evaluated under the resulting policy no longer lets anyone
    read a task that is held under that assignment, and rejects every command that acts under
    it, at any instant. *)
Theorem revocation_takes_work_away p manager context id reason now new_id p1 r p2 w :
  Policy.apply p manager (RevokeRoleAssignment context id reason) now new_id = (p1, Ok r) ->
  rtc policy_step p1 p2 ->
  auth_policy (wf_authority w) = Some p2 ->
  (forall actor it, wi_acting_assignment_id it = Some id -> can_read w actor it = false)
  /\ forall actor c now' fresh,
     cc_acting_assignment_id (command_context c) = id ->
     exists e, apply w actor c now' fresh = (w, Err e).
Proof.
  intros Hrev%revoke_revokes Hs Hp. apply (revoked_steps _ _ _ Hs) in Hrev.
  assert (forall actor t, Policy.responsibility (policy w) actor id t = None) as Hn.
  { intros actor t. unfold policy. rewrite Hp. by apply revoked_no_responsibility. }
  split.
  - intros actor it Hit. unfold can_read, can_act. rewrite Hit. cbn.
    unfold step_responsibility. rewrite Hn. destruct (step_role it); apply andb_false_r.
  - intros actor c now' fresh Hc.
    destruct (apply w actor c now' fresh) as [w' [r'|e]] eqn:E.
    + apply workflow_apply_Ok in E as (t & it & w1 & Hcm).
      destruct (authorize_command_Ok _ _ _ it (c_authorized _ _ _ _ _ _ _ _ _ _ Hcm)
                  (c_item _ _ _ _ _ _ _ _ _ _ Hcm)) as (resp & Hr & _).
      rewrite Hc in Hr. pose proof (Hn actor t) as Hn'.
      change (Policy.responsibility (policy w) actor id t = Some resp) in Hr. congruence.
    + exists e. pose proof (workflow_apply_Err _ _ _ _ _ _ _ E) as ->. done.
Qed.

(** ** Offers *)

(** When the task summary offers a claim, the claim with the offered responsibility
    and the shown revision passes the authorization and the command's own checks, up to the
    exhaustion of the item revision: what is offered is what is accepted. *)
Theorem offered_claim_is_accepted w actor id it acting operation now fresh :
  Policy.validate_integrity (policy w) = Ok tt ->
  item w id = Ok it -> 0 <= wi_revision it < i64_max ->
  ts_claim_assignment_id (summary w actor it) = Some acting ->
  get_version_num operation = 7 ->
  let c := Claim id {| cc_operation_id := operation; cc_expected_revision := wi_revision it;
                       cc_acting_assignment_id := acting |} in
  authorize_command w actor c = Ok tt
  /\ exists w' task, apply_validated w actor c now fresh = Ok (w', MR_Claimed task)
       /\ wf_assignments w'
          = wf_assignments w
            ++ [{| war_id := fresh 0%nat; war_task_id := id; war_attempt_id := wi_attempt_id it;
                   war_principal := actor; war_acting_assignment_id := acting;
                   war_assigned_by := None; war_manager_assignment_id := None;
                   war_reason := None; war_started_at := now; war_ended_at := None;
                   war_ended_by := None |}].
Proof.
  intros Hv Hit Hrev Hoff Hver c.
  cbn [summary summary_in ts_claim_assignment_id] in Hoff. unfold summary, summary_in in Hoff.
  cbn in Hoff.
  destruct ((wi_state it == Ready) && is_none (wi_assignee it)) eqn:Hst; [|done]. simp_bool.
  destruct (eligible_in w actor it WorkClaim None) as [r|] eqn:He; [|done]. cbn in Hoff.
  injection Hoff as Hid. unfold eligible_in in He.
  destruct (step_role it) as [role|] eqn:Hrole; [|done]. cbn in He.
  apply find_Some_iff in He as [Hin Hp]. simp_bool.
  apply validate_integrity_Ok in Hv. apply (listed_responsibility _ _ _ _ Hv) in Hin as Hr.
  rewrite Hid in Hr. split.
  - unfold authorize_command, c. cbn [command_context command_task_id cc_acting_assignment_id].
    unfold authorize_context. cbn. rewrite Hver, bool_decide_eq_true_2 by done. cbn.
    rewrite (proj2 (Z.ltb_ge _ _)) by lia. cbn. rewrite Hr. cbn. rewrite Hit. cbn.
    rewrite Hrole. rewrite bool_decide_eq_true_2 by congruence. cbn.
    match goal with H : allows r WorkClaim = true |- _ => by rewrite H end.
  - unfold c. cbn [apply_validated]. unfold apply_claim.
    rewrite (item_item_mut _ _ _ _ Hit). cbn [rbind].
    rewrite bool_decide_eq_true_2 by done.
    match goal with H : wi_assignee it = None |- _ => rewrite H end. cbn [is_some negb orb].
    match goal with |- context [bump ?x] =>
      assert (in_i64 (wi_revision x + 1)) as Hx by
        (cbn; unfold in_i64, i64_min, i64_max in *; lia);
      rewrite (proj2 (bump_Ok x (set_wi_revision (wi_revision x + 1) x)) (conj eq_refl Hx));
      cbn [rbind];
      match goal with |- context [put_item w id ?y] =>
        pose proof (item_put w id it y Hit eq_refl) as Hp end
    end.
    match goal with |- context [item (set_wf_assignments ?l ?w0) id] =>
      change (item (set_wf_assignments l w0) id) with (item w0 id) end.
    rewrite Hp. cbn [rbind]. do 2 eexists. split; [done|]. cbn.
    destruct (put_item_rest w id (set_wi_revision (wi_revision it + 1)
      (set_wi_acting_assignment_id (Some acting) (set_wi_work_assignment_id (Some (fresh 0%nat))
         (set_wi_assignee (Some actor) (set_wi_state Active it)))))) as (_ & Ha & _).
    cbn in Ha. rewrite (item_id _ _ _ Hit). f_equal. exact Ha.
Qed.

End Theorems.
