(* ===== verification/Witnesses.v ===== *)
(** * Witnesses: every theorem with hypotheses, applied to the concrete runs of [Scenario]

    Each lemma applies one theorem to a concrete policy, workflow and clock on which its
    hypotheses hold by evaluation. *)
From stdpp Require Import base gmap sets list strings relations.
From Stdlib Require Import ZArith Lia.
From S2P Require Import Prelude WorkTypes WorkSetters Text Externals Principals Organization.
From S2P Require Import OrganizationFacts OrganizationTheorems Context WorkflowReads Evidence.
From S2P Require Import Agent Integrity Files AgentRun Commands Scenario WorkflowFacts.
From S2P Require Import Machine Runs WorkflowTheorems AgentTheorems AccessTheorems.
Import Clock.

Local Open Scope Z_scope.

(** ** The policy authority *)

Lemma granted_commits :
  exists r, Policy.apply Policy.synthetic Approver01 PolicyRun.grant Run.noon (Run.uuid 2000)
            = (PolicyRun.granted, Ok r).
Proof.
  unfold PolicyRun.granted. apply (ok_pair (Policy.apply Policy.synthetic Approver01 PolicyRun.grant Run.noon (Run.uuid 2000))).
  vm_compute. reflexivity.
Qed.

Lemma delegated_commits :
  exists r, Policy.apply PolicyRun.granted Sales01 PolicyRun.delegate Run.noon (Run.uuid 2001)
            = (PolicyRun.delegated, Ok r).
Proof.
  unfold PolicyRun.delegated. apply (ok_pair (Policy.apply PolicyRun.granted Sales01 PolicyRun.delegate Run.noon (Run.uuid 2001))).
  vm_compute. reflexivity.
Qed.

Lemma revoked_commits :
  exists r, Policy.apply PolicyRun.delegated Approver01 PolicyRun.revoke Run.noon (Run.uuid 2002)
            = (PolicyRun.revoked, Ok r).
Proof.
  unfold PolicyRun.revoked. apply (ok_pair (Policy.apply PolicyRun.delegated Approver01 PolicyRun.revoke Run.noon (Run.uuid 2002))).
  vm_compute. reflexivity.
Qed.

Lemma responsibility_lookup_witness :
  Policy.validate_integrity PolicyRun.delegated = Ok tt
  /\ forall r,
     Policy.responsibility PolicyRun.delegated Delegate01 (Run.uuid 2001) PolicyRun.at_noon = Some r
     <-> r ∈ Policy.responsibilities PolicyRun.delegated Delegate01 PolicyRun.at_noon
         /\ rs_id r = Run.uuid 2001.
Proof.
  assert (Policy.validate_integrity PolicyRun.delegated = Ok tt) as H by (vm_compute; reflexivity).
  split; [exact H|]. intros r. exact (responsibility_lookup_iff_listed _ _ _ _ r H).
Defined.

Lemma delegation_narrows_witness :
  exists r, r ∈ Policy.responsibilities PolicyRun.delegated Delegate01 PolicyRun.at_noon
    /\ rs_kind r = Kind_Delegation
    /\ exists delegator r0, rs_delegator r = Some delegator /\ delegator <> Delegate01
         /\ r0 ∈ Policy.responsibilities PolicyRun.delegated delegator PolicyRun.at_noon
         /\ rs_role_id r = rs_role_id r0.
Proof.
  assert (exists r l, Policy.responsibilities PolicyRun.delegated Delegate01 PolicyRun.at_noon
                      = r :: l /\ rs_kind r = Kind_Delegation) as (r & l & Hl & Hk)
    by (vm_compute; do 2 eexists; split; reflexivity).
  assert (r ∈ Policy.responsibilities PolicyRun.delegated Delegate01 PolicyRun.at_noon) as Hr
    by (rewrite Hl; apply elem_of_cons; by left).
  exists r. split; [exact Hr|]. split; [exact Hk|].
  destruct (delegation_narrows PolicyRun.delegated Delegate01 PolicyRun.at_noon r) as
    (delegator & r0 & H); [vm_compute; reflexivity|exact Hr|exact Hk|].
  destruct_and!. exists delegator, r0. auto.
Defined.

Lemma no_self_escalation_witness :
  exists r, Policy.responsibilities PolicyRun.granted Approver01 PolicyRun.at_noon
            = r :: tail (Policy.responsibilities PolicyRun.granted Approver01 PolicyRun.at_noon)
    /\ r ∈ Policy.responsibilities Policy.synthetic Approver01 PolicyRun.at_noon.
Proof.
  destruct granted_commits as [result H].
  assert (exists r l, Policy.responsibilities PolicyRun.granted Approver01 PolicyRun.at_noon
                      = r :: l) as (r & l & Hl) by (vm_compute; do 2 eexists; reflexivity).
  exists r. split; [by rewrite Hl|].
  apply (policy_no_self_escalation _ _ _ _ _ _ _ _ r H). rewrite Hl. apply elem_of_cons. by left.
Defined.

Lemma policy_append_only_witness :
  exists r, Policy.apply PolicyRun.delegated Approver01 PolicyRun.revoke Run.noon (Run.uuid 2002)
            = (PolicyRun.revoked, Ok r)
    /\ Policy.validate_integrity PolicyRun.revoked = Ok tt
    /\ policy_extends PolicyRun.delegated PolicyRun.revoked.
Proof.
  destruct revoked_commits as [r H]. exists r. split; [exact H|].
  destruct (policy_apply_append_only _ _ _ _ _ _ _ H) as (H1 & H2 & _). auto.
Defined.

Lemma revocation_is_final_witness :
  exists r, r ∈ Policy.responsibilities PolicyRun.revoked Office01 PolicyRun.at_noon
    /\ rs_id r <> SALES_ASSIGNMENT_ID /\ rs_source_assignment_id r <> Some SALES_ASSIGNMENT_ID.
Proof.
  assert (exists r l, Policy.responsibilities PolicyRun.revoked Office01 PolicyRun.at_noon
                      = r :: l) as (r & l & Hl) by (vm_compute; do 2 eexists; reflexivity).
  assert (r ∈ Policy.responsibilities PolicyRun.revoked Office01 PolicyRun.at_noon) as Hr
    by (rewrite Hl; apply elem_of_cons; by left).
  assert (exists a, Policy.assignment PolicyRun.revoked SALES_ASSIGNMENT_ID = Some a
                    /\ is_some (ra_revoked_at a) = true) as (a & Ha & Hs)
    by (vm_compute; eexists; split; reflexivity).
  exists r. split; [exact Hr|].
  apply (revocation_is_final PolicyRun.revoked PolicyRun.revoked SALES_ASSIGNMENT_ID a Office01
           PolicyRun.at_noon r); [vm_compute; reflexivity|exact Ha| |apply rtc_refl|exact Hr].
  intros Hn. rewrite Hn in Hs. discriminate.
Defined.

Definition sales_assignment : RoleAssignment :=
  fixture_assignment SALES_ASSIGNMENT_ID Sales01 ROLE_SALES_ID UNIT_SALES_ID.

Lemma assignments_exclusive_witness :
  sales_assignment ∈ op_role_assignments PolicyRun.granted
  /\ Policy.assignment_effective PolicyRun.granted sales_assignment PolicyRun.at_noon = true
  /\ forall b, b ∈ op_role_assignments PolicyRun.granted -> same_grant sales_assignment b ->
     Policy.assignment_effective PolicyRun.granted b PolicyRun.at_noon = true ->
     sales_assignment = b.
Proof.
  destruct granted_commits as [r H].
  assert (sales_assignment ∈ op_role_assignments PolicyRun.granted) as Ha.
  { apply (bool_decide_eq_true_1 (sales_assignment ∈ op_role_assignments PolicyRun.granted)).
    vm_compute. reflexivity. }
  assert (Policy.assignment_effective PolicyRun.granted sales_assignment PolicyRun.at_noon = true)
    as He by (vm_compute; reflexivity).
  split; [exact Ha|]. split; [exact He|]. intros b Hb Hg Hbe.
  apply (reachable_assignments_exclusive PolicyRun.granted PolicyRun.at_noon sales_assignment b);
    [|exact Ha|exact Hb|exact Hg|exact He|exact Hbe].
  apply rtc_once. exists Approver01, PolicyRun.grant, Run.noon, (Run.uuid 2000), r. exact H.
Defined.

Lemma commits_validated_witness :
  exists p' r,
    Policy.apply Policy.synthetic Approver01 PolicyRun.grant Run.noon (Run.uuid 2000) = (p', Ok r)
    /\ within_quota p'.
Proof.
  assert (exists p' r, Policy.apply_validated (set_op_revision 1 Policy.synthetic) Approver01
            PolicyRun.grant PolicyRun.at_noon Run.noon (Run.uuid 2000) = Ok (p', r))
    as (p' & r & H) by (vm_compute; do 2 eexists; reflexivity).
  exists p', r.
  apply (policy_apply_commits_validated Policy.synthetic Approver01 PolicyRun.grant Run.noon
           (Run.uuid 2000) PolicyRun.at_noon p' r).
  - vm_compute. reflexivity.
  - intros actor. destruct actor; vm_compute; discriminate.
  - apply (bool_decide_eq_true_1 (Run.uuid 2000 ∉ Policy.all_ids Policy.synthetic)).
    vm_compute. reflexivity.
  - vm_compute. reflexivity.
  - vm_compute. reflexivity.
  - vm_compute. reflexivity.
  - vm_compute. reflexivity.
  - vm_compute. reflexivity.
  - exact H.
Defined.

Lemma management_survives_witness :
  exists r, Policy.management PolicyRun.revoked Approver01 APPROVER_MANAGEMENT_ASSIGNMENT_ID
              PolicyRun.at_noon = Ok r.
Proof.
  destruct revoked_commits as [result H].
  assert (exists r, Policy.management PolicyRun.delegated Approver01
            APPROVER_MANAGEMENT_ASSIGNMENT_ID PolicyRun.at_noon = Ok r) as [r Hr]
    by (vm_compute; eexists; reflexivity).
  exists r. exact (management_survives_commit _ _ _ _ _ _ _ _ _ H Hr).
Defined.

Lemma not_backdated_witness :
  exists result t,
    Policy.apply PolicyRun.granted Sales01 PolicyRun.delegate Run.noon (Run.uuid 2001)
      = (PolicyRun.delegated, Ok result)
    /\ match result with
       | MR_DelegationCreated d _ =>
           exists from until, stored_instant (dg_valid_from d) = Some from /\ t <= from
             /\ stored_instant (dg_valid_until d) = Some until /\ from < until
       | _ => True
       end.
Proof.
  destruct delegated_commits as [result H]. exists result, PolicyRun.at_noon.
  split; [exact H|].
  assert (parse_instant Run.noon = Ok PolicyRun.at_noon) as Ht by (vm_compute; reflexivity).
  pose proof (created_records_not_backdated _ _ _ _ _ _ _ _ H Ht) as Hc.
  destruct result; try exact I. exact Hc.
Defined.

(** ** The workflow aggregate *)

Lemma drafted_commits :
  exists r, apply Run.start Sales01 Run.save_draft Run.noon (Run.fresh_from 1000)
            = (Run.drafted, Ok r).
Proof.
  unfold Run.drafted. apply (ok_pair (apply Run.start Sales01 Run.save_draft Run.noon (Run.fresh_from 1000))).
  vm_compute. reflexivity.
Qed.

Lemma evidenced_commits :
  exists r, apply Run.drafted Sales01 Run.register Run.noon (Run.fresh_from 1010)
            = (Run.evidenced, Ok r).
Proof.
  unfold Run.evidenced. apply (ok_pair (apply Run.drafted Sales01 Run.register Run.noon (Run.fresh_from 1010))).
  vm_compute. reflexivity.
Qed.

Lemma submitted_commits :
  exists r, apply Run.evidenced Sales01 Run.submit Run.noon (Run.fresh_from 1020)
            = (Run.submitted, Ok r).
Proof.
  unfold Run.submitted. apply (ok_pair (apply Run.evidenced Sales01 Run.submit Run.noon (Run.fresh_from 1020))).
  vm_compute. reflexivity.
Qed.

Lemma claimed_commits :
  exists r, apply Run.submitted Office01 Run.claim Run.noon (Run.fresh_from 1030)
            = (Run.claimed, Ok r).
Proof.
  unfold Run.claimed. apply (ok_pair (apply Run.submitted Office01 Run.claim Run.noon (Run.fresh_from 1030))).
  vm_compute. reflexivity.
Qed.

Lemma assigned_commits :
  exists r, apply Run.submitted Approver01 Run.assign Run.noon (Run.fresh_from 1080)
            = (Run.assigned, Ok r).
Proof.
  unfold Run.assigned. apply (ok_pair (apply Run.submitted Approver01 Run.assign Run.noon (Run.fresh_from 1080))).
  vm_compute. reflexivity.
Qed.

Lemma requested_commits :
  exists r, apply Run.evidenced Sales01 Run.request Run.noon (Run.fresh_from 1090)
            = (Run.requested, Ok r).
Proof.
  unfold Run.requested. apply (ok_pair (apply Run.evidenced Sales01 Run.request Run.noon (Run.fresh_from 1090))).
  vm_compute. reflexivity.
Qed.

Lemma reachable_start : reachable Run.start.
Proof.
  destruct CONTEXT_FIXTURES as [|f l] eqn:E; [discriminate|].
  exists f, (Some Run.DOCUMENT_ID), 0, Run.start. split; [rewrite E; apply elem_of_cons; by left|].
  split; [|apply rtc_refl]. injection E as <- _. reflexivity.
Qed.

Lemma reachable_apply w actor c now fresh w' :
  (exists r, apply w actor c now fresh = (w', Ok r)) -> reachable w -> reachable w'.
Proof.
  intros [r H] (f & d & t & w0 & Hf & H0 & Hr). exists f, d, t, w0. split_and!; try done.
  eapply rtc_r; [exact Hr|]. by eapply run_apply.
Qed.

Lemma reachable_claimed : reachable Run.claimed.
Proof.
  eapply reachable_apply; [exact claimed_commits|].
  eapply reachable_apply; [exact submitted_commits|].
  eapply reachable_apply; [exact evidenced_commits|].
  eapply reachable_apply; [exact drafted_commits|]. exact reachable_start.
Qed.

Lemma transaction_witness :
  exists r, apply Run.start Sales01 Run.save_draft Run.noon (Run.fresh_from 1000)
            = (Run.drafted, Ok r)
    /\ wf_revision Run.drafted = wf_revision Run.start + 1.
Proof.
  destruct drafted_commits as [r H]. exists r. split; [exact H|].
  destruct (apply_is_transaction _ _ _ _ _ _ _ H) as (t & _ & Hr & _). exact Hr.
Defined.

Lemma mediation_witness :
  exists r, apply Run.submitted Approver01 Run.assign Run.noon (Run.fresh_from 1080)
            = (Run.assigned, Ok r)
    /\ exists t it resp, rfc3339_parse Run.noon = Some t
         /\ item Run.submitted OFFICE_TASK_ID = Ok it
         /\ granted Run.submitted t Approver01 Run.assign it resp.
Proof.
  destruct assigned_commits as [r H]. exists r. split; [exact H|].
  destruct (apply_is_mediated _ _ _ _ _ _ _ H) as (t & it & resp & H1 & H2 & _ & _ & H3).
  exists t, it, resp. split; [exact H1|]. split; [exact H2|exact H3].
Defined.

Lemma refinement_witness :
  exists r, apply Run.evidenced Sales01 Run.submit Run.noon (Run.fresh_from 1020)
            = (Run.submitted, Ok r)
    /\ phase_step Run.submit (phase_of Run.evidenced) (phase_of Run.submitted).
Proof.
  destruct submitted_commits as [r H]. exists r. split; [exact H|].
  exact (apply_refines_machine _ _ _ _ _ _ _ H).
Defined.

Lemma one_open_step_witness :
  reachable Run.claimed
  /\ (forall n, wf_next Run.claimed = Some n ->
        wi_state (wf_source Run.claimed) = Completed \/ wi_state n = Completed).
Proof.
  split; [exact reachable_claimed|].
  exact (proj1 (reachable_one_open_step _ reachable_claimed)).
Defined.

Lemma stale_command_witness :
  exists e, apply Run.drafted Sales01 Run.save_draft Run.noon (Run.fresh_from 1000)
            = (Run.drafted, Err e).
Proof.
  destruct drafted_commits as [r H].
  apply (stale_command_rejected _ _ _ _ _ _ _ Run.drafted Sales01 Run.save_draft Run.noon
           (Run.fresh_from 1000) H); [reflexivity|apply rtc_refl|reflexivity|].
  apply Z.le_refl.
Defined.

Lemma append_only_witness : evolves Run.submitted Run.claimed.
Proof.
  destruct claimed_commits as [r H].
  exact (run_is_append_only _ _ (rtc_once _ _ (run_apply _ _ _ _ _ _ _ H))).
Defined.

Lemma pins_witness :
  exists r, apply Run.evidenced Sales01 Run.submit Run.noon (Run.fresh_from 1020)
            = (Run.submitted, Ok r)
    /\ exists s, wf_snapshots Run.submitted = wf_snapshots Run.evidenced ++ [s]
         /\ Forall2 (pins Run.evidenced)
              [ {| sel_artifact_id := Run.uuid 1000; sel_revision := 0 |} ] (hs_artifacts s).
Proof.
  destruct submitted_commits as [r H]. exists r. split; [exact H|].
  destruct (submission_pins_selection _ _ _ _ _ _ _ _ _ _ _ _ _ H) as (s & n & H1 & _ & H2 & _).
  exists s. split; [exact H1|exact H2].
Defined.

Lemma numbered_witness : reachable Run.claimed /\ numbered Run.claimed.
Proof.
  split; [exact reachable_claimed|]. exact (reachable_submissions_numbered _ reachable_claimed).
Defined.

Lemma artifact_quota_witness :
  reachable Run.claimed
  /\ count (fun a => wa_attempt_id a == SALES_ATTEMPT_ID) (wf_artifacts Run.claimed)
     <= MAX_ARTIFACTS.
Proof.
  split; [exact reachable_claimed|].
  exact (reachable_artifact_quota _ SALES_ATTEMPT_ID reachable_claimed).
Defined.

Lemma counters_witness : reachable Run.claimed /\ in_i64 (wf_revision Run.claimed).
Proof.
  split; [exact reachable_claimed|].
  exact (proj1 (reachable_counters_in_range _ reachable_claimed)).
Defined.

Lemma periods_witness :
  exists p l, wf_assignments Run.claimed = p :: l /\ war_ended_at p = None
    /\ exists it, it ∈ current_items Run.claimed /\ wi_state it <> Completed
         /\ wi_assignee it = Some (war_principal p).
Proof.
  destruct claimed_commits as [r H].
  assert (exists p l, wf_assignments Run.claimed = p :: l /\ war_ended_at p = None)
    as (p & l & Hl & Hp) by (vm_compute; do 2 eexists; split; reflexivity).
  exists p, l. split; [exact Hl|]. split; [exact Hp|].
  destruct (proj2 (open_periods_match_items _ _ _ _ _ _ _ H) p) as (it & Hit);
    [rewrite Hl; apply elem_of_cons; by left|exact Hp|].
  destruct_and!. exists it. auto.
Defined.

(** ** Agent executions *)

Lemma fresh_executions_witness :
  exists e l, wf_agent_executions Run.requested = e :: l /\ is_active (ae_status e) = true
    /\ current_execution Run.requested e.
Proof.
  destruct requested_commits as [r H].
  assert (exists e l, wf_agent_executions Run.requested = e :: l
                      /\ is_active (ae_status e) = true)
    as (e & l & Hl & Ha) by (vm_compute; do 2 eexists; split; reflexivity).
  exists e, l. split; [exact Hl|]. split; [exact Ha|].
  apply (proj1 (active_executions_are_current _ _ _ _ _ _ _ H)); [|exact Ha].
  rewrite Hl. apply elem_of_cons. by left.
Defined.

Lemma running_starts :
  exists d, start_agent_execution Run.requested Sales01 (Run.uuid 110) Run.noon
            = (Run.running, Ok (Some d)).
Proof.
  destruct (ok_pair (start_agent_execution Run.requested Sales01 (Run.uuid 110) Run.noon))
    as [o H]; [vm_compute; reflexivity|].
  destruct o as [d|]; [exists d; exact H|]. exfalso.
  apply (f_equal snd) in H. vm_compute in H. discriminate.
Qed.

Lemma dispatch_witness :
  exists d, start_agent_execution Run.requested Sales01 (Run.uuid 110) Run.noon
            = (Run.running, Ok (Some d))
    /\ ae_status (adc_execution d) = Running
    /\ adc_allowed_tools d = [DocumentRevision; DocumentVersionFiles].
Proof.
  destruct running_starts as [d H]. exists d. split; [exact H|].
  destruct (start_dispatches_requested_scope _ _ _ _ _ _ H) as (_ & _ & _ & H1 & _ & _ & H2 & _).
  split; [exact H1|exact H2].
Defined.

Lemma fail_branches_witness :
  in_i64 (wf_revision Run.exhausted)
  /\ exists w' e, fail_agent_execution Run.exhausted Sales01 (Run.uuid 110) Code_Interrupted
                    Run.noon = (w', Err IntegrityViolation)
       /\ find (fun e => (ae_id e == Run.uuid 110) && (ae_requested_by e == Sales01))
            (wf_agent_executions w') = Some e
       /\ ae_status e = OutcomeUnknown.
Proof.
  assert (in_i64 (wf_revision Run.exhausted)) as Hr by (vm_compute; split; discriminate).
  split; [exact Hr|].
  assert (exists e,
            find (fun e => (ae_id e == Run.uuid 110) && (ae_requested_by e == Sales01))
              (wf_agent_executions Run.exhausted) = Some e /\ is_active (ae_status e) = true)
    as (e & Hf & Ha) by (vm_compute; eexists; split; reflexivity).
  pose proof (fail_agent_execution_branches Run.exhausted Sales01 (Run.uuid 110) Code_Interrupted
                Run.noon Hr) as H.
  rewrite Hf in H. rewrite Ha in H.
  destruct H as (w' & outcome & H & (e' & He' & Hs & _) & Hb).
  change (wf_revision Run.exhausted <? i64_max) with false in Hb. destruct Hb as [_ ->].
  exists w', e'. split; [exact H|]. split; [exact He'|]. exact Hs.
Defined.

Lemma interrupt_witness :
  exists w' n, interrupt_agent_executions Run.requested Sales01 Run.noon = (w', Ok n)
    /\ forall e, e ∈ wf_agent_executions w' -> ae_requested_by e = Sales01 ->
       is_active (ae_status e) = false.
Proof.
  destruct (ok_pair (interrupt_agent_executions Run.requested Sales01 Run.noon)) as [n H];
    [vm_compute; reflexivity|].
  exists (fst (interrupt_agent_executions Run.requested Sales01 Run.noon)), n.
  split; [exact H|].
  refine (proj2 (proj2 (proj2 (interrupt_ends_all_active _ _ _ _ _ _ H)))).
  apply (bool_decide_eq_true_1 (NoDup (map ae_id (wf_agent_executions Run.requested)))).
  vm_compute. reflexivity.
Defined.

Lemma finish_witness :
  exists d w' e, finish_agent_execution Run.running d Run.output Run.noon (Run.fresh_from 1100)
                 = (w', Ok e)
    /\ ae_status e = Succeeded
    /\ exists result, ae_result e = Some result /\ agr_simulated result = true
         /\ agr_live_llm result = false.
Proof.
  destruct Run.dispatched as [d|] eqn:Hd; [|vm_compute in Hd; discriminate].
  destruct (ok_pair (Run.finish d)) as [e H].
  { pose proof Run.run_commits as Hr. apply andb_true_iff in Hr as [_ Hr].
    rewrite Hd in Hr. exact Hr. }
  exists d, (fst (Run.finish d)), e. split; [exact H|].
  destruct (finished_result_is_sound _ _ _ _ _ _ _ H) as (_ & _ & Hs & _ & result & Hr).
  split; [exact Hs|]. exists result. destruct_and!. auto.
Defined.

(** ** Access *)

Lemma no_access_witness :
  Policy.responsibilities (policy Run.claimed) Delegate01 (evaluated_at Run.claimed) = []
  /\ list_tasks Run.claimed Delegate01 TaskView_Context = []
  /\ exists e, apply Run.submitted Delegate01 Run.claim Run.noon (Run.fresh_from 1030)
               = (Run.submitted, Err e).
Proof.
  assert (Policy.responsibilities (policy Run.claimed) Delegate01 (evaluated_at Run.claimed) = [])
    as H by (vm_compute; reflexivity).
  split; [exact H|]. split.
  - exact (proj1 (proj1 (no_responsibility_no_access Run.claimed Delegate01) H) TaskView_Context).
  - apply (proj2 (no_responsibility_no_access Run.submitted Delegate01) Run.claim Run.noon
             (Run.fresh_from 1030) PolicyRun.at_noon); vm_compute; reflexivity.
Defined.

Lemma revocation_witness :
  exists e, apply (attach_authority Run.start PolicyRun.revoked PolicyRun.at_noon) Sales01
              Run.save_draft Run.noon (Run.fresh_from 1000)
            = (attach_authority Run.start PolicyRun.revoked PolicyRun.at_noon, Err e).
Proof.
  destruct revoked_commits as [r H].
  apply (proj2 (revocation_takes_work_away _ _ _ _ _ _ _ _ _ PolicyRun.revoked
                  (attach_authority Run.start PolicyRun.revoked PolicyRun.at_noon) H
                  (rtc_refl _ _) eq_refl)).
  reflexivity.
Defined.

Lemma offer_witness :
  exists it, item Run.submitted OFFICE_TASK_ID = Ok it
    /\ authorize_command Run.submitted Office01
         (Claim OFFICE_TASK_ID
            {| cc_operation_id := Run.uuid 103; cc_expected_revision := wi_revision it;
               cc_acting_assignment_id := OFFICE_ASSIGNMENT_ID |}) = Ok tt.
Proof.
  destruct (item Run.submitted OFFICE_TASK_ID) as [it|e] eqn:Hit;
    [|vm_compute in Hit; discriminate].
  exists it. split; [reflexivity|].
  refine (proj1 (offered_claim_is_accepted Run.submitted Office01 OFFICE_TASK_ID it
                   OFFICE_ASSIGNMENT_ID (Run.uuid 103) Run.noon (Run.fresh_from 1030) _ Hit _ _ _)).
  - vm_compute. reflexivity.
  - vm_compute in Hit. injection Hit as <-. vm_compute. split; [discriminate|reflexivity].
  - vm_compute in Hit. injection Hit as <-. vm_compute. reflexivity.
  - vm_compute. reflexivity.
Defined.
