(* ===== verification/DocumentValues.v ===== *)
(** * DocumentValues: the value types of the document-domain crate

    error.rs, ids.rs, principal.rs, metadata.rs, resource_ref.rs, file.rs, folder.rs and the
    scalar types of document.rs.  A newtype of the source is a record with one field, and its
    validating constructor [T::new] is [T_new].  Unicode normalization and JSON values belong to
    other crates: they are the classes [Unicode] and [Json]. *)
From stdpp Require Import base gmap sets list strings.
From Stdlib Require Import ZArith Lia Ascii.
From S2P Require Import Prelude Text.

Local Open Scope Z_scope.

(** error.rs. *)
Inductive DomainError : Type :=
| InvalidVersionNo
| InvalidDocumentRevisionNumber
| InvalidDocumentMetadataSnapshot
| InvalidContentHash
| InvalidFileSize
| BlankTitle
| InvalidStorageKey
| BlankIdentityProvider
| BlankPrincipalId
| BlankMediaType
| BlankOriginalFilename
| VersionDocumentMismatch
| CurrentVersionAlreadySet
| VersionNotWorking
| RevisionOverflow
| InvalidLogicalPath
| InvalidContentManifest
| DuplicateContentItemKey
| InvalidSemanticFormat
| InvalidInspectionProfile
| NoCurrentPublishedVersion
| ExistingWorkingVersion
| StaleVersionBase
| VersionNotPublished
| InvalidRestorationCandidate
| InvalidPersistedState
| InvalidPolicySubject
| InvalidPolicyGrant
| EmptyExplicitPolicy
| DuplicatePolicySubject
| InvalidFolderName.
#[global] Instance DomainError_eq_dec : EqDecision DomainError.
Proof. solve_decision. Defined.

Abbreviation DResult A := (Result A DomainError).

(** ** Typed identifiers (ids.rs, the macro [typed_id!]) *)

Record DocumentId : Type := DocumentId_from_uuid { DocumentId_as_uuid : Uuid }.
Record DocumentVersionId : Type :=
  DocumentVersionId_from_uuid { DocumentVersionId_as_uuid : Uuid }.
Record DocumentRevisionId : Type :=
  DocumentRevisionId_from_uuid { DocumentRevisionId_as_uuid : Uuid }.
Record FileId : Type := FileId_from_uuid { FileId_as_uuid : Uuid }.
Record FolderId : Type := FolderId_from_uuid { FolderId_as_uuid : Uuid }.
Record EventId : Type := EventId_from_uuid { EventId_as_uuid : Uuid }.
Record AuditEventId : Type := AuditEventId_from_uuid { AuditEventId_as_uuid : Uuid }.
Record PolicyId : Type := PolicyId_from_uuid { PolicyId_as_uuid : Uuid }.

#[global] Instance DocumentId_eq_dec : EqDecision DocumentId.
Proof. solve_decision. Defined.
#[global] Instance DocumentVersionId_eq_dec : EqDecision DocumentVersionId.
Proof. solve_decision. Defined.
#[global] Instance DocumentRevisionId_eq_dec : EqDecision DocumentRevisionId.
Proof. solve_decision. Defined.
#[global] Instance FileId_eq_dec : EqDecision FileId.
Proof. solve_decision. Defined.
#[global] Instance FolderId_eq_dec : EqDecision FolderId.
Proof. solve_decision. Defined.
#[global] Instance EventId_eq_dec : EqDecision EventId.
Proof. solve_decision. Defined.
#[global] Instance AuditEventId_eq_dec : EqDecision AuditEventId.
Proof. solve_decision. Defined.
#[global] Instance PolicyId_eq_dec : EqDecision PolicyId.
Proof. solve_decision. Defined.

(** resource_ref.rs. *)
Inductive ResourceRef : Type :=
| Resource_Document (id : DocumentId)
| Resource_Folder (id : FolderId)
| Resource_AccessPolicy (id : PolicyId).

Inductive PolicyTarget : Type :=
| Target_Document (id : DocumentId)
| Target_Folder (id : FolderId).

Definition ResourceRef_from (target : PolicyTarget) : ResourceRef :=
  match target with
  | Target_Document id => Resource_Document id
  | Target_Folder id => Resource_Folder id
  end.

(** ** Principals (principal.rs) *)

Record PrincipalRef : Type := {
  pr_identity_provider : string;
  pr_principal_id : string
}.
#[global] Instance PrincipalRef_eq_dec : EqDecision PrincipalRef.
Proof. solve_decision. Defined.

Definition PrincipalRef_new (identity_provider principal_id : string) : DResult PrincipalRef :=
  if is_empty (trim identity_provider) then Err BlankIdentityProvider
  else if is_empty (trim principal_id) then Err BlankPrincipalId
  else Ok {| pr_identity_provider := trimmed identity_provider;
             pr_principal_id := trimmed principal_id |}.

(** ** Scalars of document.rs *)

Record VersionNo : Type := { VersionNo_get : Z }.
#[global] Instance VersionNo_eq_dec : EqDecision VersionNo.
Proof. solve_decision. Defined.

Definition VersionNo_new (value : Z) : DResult VersionNo :=
  if 0 <? value then Ok {| VersionNo_get := value |} else Err InvalidVersionNo.

Record Title : Type := { Title_as_str : string }.
#[global] Instance Title_eq_dec : EqDecision Title.
Proof. solve_decision. Defined.

Definition Title_new (value : string) : DResult Title :=
  if is_empty (trim value) then Err BlankTitle else Ok {| Title_as_str := trimmed value |}.

(** ** Files (file.rs) *)

(** A SHA-256 content hash: the type [[u8; 32]]. *)
Record ContentHash : Type := { ContentHash_as_bytes : vec ascii 32 }.

(** [value.try_into()] of a slice: exactly 32 bytes. *)
Definition array32 (value : list ascii) : option (vec ascii 32) :=
  match decide (length value = 32%nat) with
  | left H => Some (eq_rect _ (vec ascii) (list_to_vec value) _ H)
  | right _ => None
  end.

Definition ContentHash_from_slice (value : list ascii) : DResult ContentHash :=
  let? bytes := ok_or (array32 value) InvalidContentHash in
  Ok {| ContentHash_as_bytes := bytes |}.

Record FileSize : Type := { FileSize_get : Z }.

Definition FileSize_new (value : Z) : DResult FileSize :=
  if 0 <=? value then Ok {| FileSize_get := value |} else Err InvalidFileSize.

(** A path component that changes what a path denotes: empty, here, or the parent. *)
Definition ambiguous (component : string) : bool :=
  (component == "") || (component == ".") || (component == "..").

Record StorageKey : Type := { StorageKey_as_str : string }.

Definition StorageKey_new (value : string) : DResult StorageKey :=
  if (value == "") || starts_with value 47 || starts_with value 92 then Err InvalidStorageKey
  else if existsb ambiguous (split_at_any [47; 92] value) then Err InvalidStorageKey
  else Ok {| StorageKey_as_str := value |}.

Record MediaType : Type := { MediaType_as_str : string }.

Definition MediaType_new (value : string) : DResult MediaType :=
  if is_empty (trim value) then Err BlankMediaType
  else Ok {| MediaType_as_str := trimmed value |}.

Record StoredFileDescriptor : Type := {
  sfd_storage_key : StorageKey;
  sfd_content_hash : ContentHash;
  sfd_size_bytes : FileSize;
  sfd_media_type : MediaType
}.

Inductive FileRole : Type := Primary | Attachment.

Record FileObject : Type := {
  fo_file_id : FileId;
  fo_content_hash : ContentHash;
  fo_media_type : MediaType;
  fo_size_bytes : FileSize;
  fo_storage_key : StorageKey;
  fo_created_at : Instant
}.

(** [FileObject::new], which [FileObject::restore] only calls. *)
Definition FileObject_new (file_id : FileId) (stored_file : StoredFileDescriptor)
    (created_at : Instant) : FileObject :=
  {| fo_file_id := file_id;
     fo_content_hash := sfd_content_hash stored_file;
     fo_media_type := sfd_media_type stored_file;
     fo_size_bytes := sfd_size_bytes stored_file;
     fo_storage_key := sfd_storage_key stored_file;
     fo_created_at := created_at |}.

Record VersionFile : Type := {
  vf_document_version_id : DocumentVersionId;
  vf_file_id : FileId;
  vf_role : FileRole;
  vf_ordinal : Z;
  vf_original_filename : string
}.

Definition VersionFile_primary (document_version_id : DocumentVersionId) (file_id : FileId)
    (original_filename : string) : VersionFile :=
  {| vf_document_version_id := document_version_id;
     vf_file_id := file_id;
     vf_role := Primary;
     vf_ordinal := 0;
     vf_original_filename := original_filename |}.

Definition VersionFile_restore_primary (document_version_id : DocumentVersionId)
    (file_id : FileId) (original_filename : string) : DResult VersionFile :=
  if is_empty (trim original_filename) then Err BlankOriginalFilename
  else Ok (VersionFile_primary document_version_id file_id original_filename).

(** ** Third-party types and functions *)

(** [serde_json]: maps, values, and what a match on a value sees.  The constructors are those
    the macro [json!] uses. *)
Inductive ValueView (Map : Type) : Type :=
| View_Null
| View_String (value : string)
| View_Object (value : Map)
| View_Other.
Arguments View_Null {Map}.
Arguments View_String {Map} value.
Arguments View_Object {Map} value.
Arguments View_Other {Map}.

Class Json : Type := {
  JsonMap : Type;
  JsonValue : Type;
  map_get : JsonMap -> string -> option JsonValue;
  view : JsonValue -> ValueView JsonMap;
  Value_Null : JsonValue;
  Value_String : string -> JsonValue;
  Value_Object : JsonMap -> JsonValue;
  map_of : list (string * JsonValue) -> JsonMap
}.

(** What a built value looks like; a map built from distinct keys holds exactly them. *)
Class JsonLaws {J : Json} : Prop := {
  view_Null : view Value_Null = View_Null;
  view_String : forall s, view (Value_String s) = View_String s;
  view_Object : forall m, view (Value_Object m) = View_Object m;
  view_String_inv : forall v s, view v = View_String s -> v = Value_String s;
  view_Object_inv : forall v m, view v = View_Object m -> v = Value_Object m;
  get_map_of : forall l k, NoDup (map fst l) ->
    map_get (map_of l) k = option_map snd (find (fun e => fst e == k) l)
}.

(** metadata.rs. *)
Record Metadata {J : Json} : Type := { Metadata_as_map : JsonMap }.
Arguments Metadata : clear implicits.

(** The crate [unicode-normalization]: [nfc().collect()]. *)
Class Unicode : Type := { nfc : string -> string }.

(** ** Folder names (folder.rs) *)

Definition normalize_folder_name {U : Unicode} (value : string) : DResult string :=
  if existsb is_control (chars value) then Err InvalidFolderName
  else
    let name := nfc (trimmed value) in
    if (name == "") || (name == ".") || (name == "..") || (255 <? len (chars name))
       || contains_char name 47 || contains_char name 92
    then Err InvalidFolderName
    else Ok name.

(** ** Paths stay below their root

    [resolve] is the reference meaning of a relative path: a stack of names, where an empty
    component or a dot stays and two dots leave the last name, or the root. *)
Fixpoint resolve (stack : list string) (components : list string) : option (list string) :=
  match components with
  | [] => Some stack
  | c :: rest =>
      if (c == "") || (c == ".") then resolve stack rest
      else if c == ".." then
        match rev stack with
        | [] => None
        | _ :: up => resolve (rev up) rest
        end
      else resolve (stack ++ [c]) rest
  end.

Lemma resolve_plain components : forall stack,
  existsb ambiguous components = false -> resolve stack components = Some (stack ++ components).
Proof.
  induction components as [|c rest IH]; intros stack; cbn.
  - intros _. by rewrite app_nil_r.
  - unfold ambiguous at 1. intros H. simp_bool.
    rewrite !bool_decide_eq_false_2 by done. cbn. by rewrite IH, <- app_assoc.
Qed.

(** No piece of a split contains a separator. *)
Lemma split_at_any_not_sep seps s :
  Forall (fun piece => forall c, c ∈ bytes piece -> c ∉ seps) (split_at_any seps s).
Proof.
  induction s as [|c s IH]; cbn; [repeat constructor; set_solver|].
  destruct (contains seps _) eqn:E; [constructor; [set_solver|done]|].
  destruct (split_at_any seps s) as [|piece pieces]; constructor;
    try (by inversion_clear IH); cbn; intros x [->|Hx]%elem_of_cons;
    try (intros Hc; apply contains_true in Hc; congruence).
  - set_solver.
  - inversion_clear IH; eauto.
Qed.
