(* ===== verification/AccessPolicy.v ===== *)
(** * AccessPolicy: document access policies (access_policy.rs)

    Grants of actions to subjects, the validation of an explicit policy, the policy that governs
    a resource on the path to its root, and the decision. *)
From stdpp Require Import base gmap sets list strings.
From Stdlib Require Import ZArith Lia.
From S2P Require Import Prelude Text DocumentValues.

Local Open Scope Z_scope.

Inductive Action : Type := Read | ReadHistory | Write | Publish | Administer.
#[global] Instance Action_eq_dec : EqDecision Action.
Proof. solve_decision. Defined.

Definition Action_code (a : Action) : N :=
  match a with Read => 0 | ReadHistory => 1 | Write => 2 | Publish => 3 | Administer => 4 end.

Definition Action_of_code (n : N) : option Action :=
  match n with
  | 0 => Some Read | 1 => Some ReadHistory | 2 => Some Write | 3 => Some Publish
  | 4 => Some Administer | _ => None
  end%N.

#[global] Program Instance Action_countable : Countable Action :=
  inj_countable Action_code Action_of_code _.
Next Obligation. by intros []. Qed.

Inductive PolicySubjectKind : Type := Principal | Group | Role.
#[global] Instance PolicySubjectKind_eq_dec : EqDecision PolicySubjectKind.
Proof. solve_decision. Defined.

Record PolicySubject : Type := {
  ps_kind : PolicySubjectKind;
  ps_identity_provider : string;
  ps_subject_id : string
}.
#[global] Instance PolicySubject_eq_dec : EqDecision PolicySubject.
Proof. solve_decision. Defined.

Definition PolicySubjectKind_code (k : PolicySubjectKind) : N :=
  match k with Principal => 0 | Group => 1 | Role => 2 end.

Definition PolicySubject_of (t : N * string * string) : option PolicySubject :=
  let '(n, provider, id) := t in
  let make k :=
    Some {| ps_kind := k; ps_identity_provider := provider; ps_subject_id := id |} in
  match n with 0 => make Principal | 1 => make Group | 2 => make Role | _ => None end%N.

#[global] Program Instance PolicySubject_countable : Countable PolicySubject :=
  inj_countable
    (fun s => (PolicySubjectKind_code (ps_kind s), ps_identity_provider s, ps_subject_id s))
    PolicySubject_of _.
Next Obligation. by intros [[] ? ?]. Qed.

Definition PolicySubject_new (kind : PolicySubjectKind) (identity_provider subject_id : string)
    : DResult PolicySubject :=
  let provider := trim identity_provider in
  let id := trim subject_id in
  if is_empty provider || is_empty id || existsb is_control provider || existsb is_control id
  then Err InvalidPolicySubject
  else Ok {| ps_kind := kind;
             ps_identity_provider := trimmed identity_provider;
             ps_subject_id := trimmed subject_id |}.

Record PolicyGrant : Type := {
  pg_subject : PolicySubject;
  pg_actions : gset Action
}.

(** The loop of [PolicyGrant::new]. *)
Definition insert_action (unique : gset Action) (action : Action) : DResult (gset Action) :=
  if bool_decide (action ∈ unique) then Err InvalidPolicyGrant else Ok ({[action]} ∪ unique).

Definition PolicyGrant_new (subject : PolicySubject) (actions : list Action)
    : DResult PolicyGrant :=
  let? unique := for_each insert_action ∅ actions in
  if unique == ∅ then Err InvalidPolicyGrant
  else Ok {| pg_subject := subject; pg_actions := unique |}.

Inductive PolicyMode : Type :=
| Inherit
| Explicit (grants : list PolicyGrant).

(** The loop of [validate_explicit]. *)
Definition insert_subject (subjects : gset PolicySubject) (grant : PolicyGrant)
    : DResult (gset PolicySubject) :=
  if pg_actions grant == ∅ then Err InvalidPolicyGrant
  else if bool_decide (pg_subject grant ∈ subjects) then Err DuplicatePolicySubject
  else Ok ({[pg_subject grant]} ∪ subjects).

Definition validate_explicit (grants : list PolicyGrant) : DResult unit :=
  if is_empty grants then Err EmptyExplicitPolicy
  else try? for_each insert_subject ∅ grants in Ok tt.

Definition PolicyMode_validate (mode : PolicyMode) : DResult unit :=
  match mode with
  | Inherit => Ok tt
  | Explicit grants => validate_explicit grants
  end.

Definition is_explicit (mode : PolicyMode) : bool :=
  match mode with Explicit _ => true | Inherit => false end.

Definition nearest_explicit_policy (path_from_resource : list PolicyMode) : option PolicyMode :=
  find is_explicit path_from_resource.

Definition evaluate_policy (subjects : list PolicySubject) (effective : PolicyMode)
    (required : list Action) : bool :=
  match effective with
  | Inherit => false
  | Explicit grants =>
      if is_empty grants || is_empty required then false
      else
        forallb
          (fun action =>
             existsb (fun grant => contains subjects (pg_subject grant)
                                   && bool_decide (action ∈ pg_actions grant)) grants)
          required
  end.

(** ** The decision on a path *)

(** The actions a list of subjects holds under a list of grants. *)
Definition granted_actions (subjects : list PolicySubject) (grants : list PolicyGrant)
    : gset Action :=
  ⋃ (map pg_actions (List.filter (fun g => contains subjects (pg_subject g)) grants)).

Lemma elem_of_granted subjects grants action :
  action ∈ granted_actions subjects grants <->
  exists g, g ∈ grants /\ pg_subject g ∈ subjects /\ action ∈ pg_actions g.
Proof.
  unfold granted_actions. rewrite elem_of_union_list. split.
  - intros (X & (g & -> & Hg)%list_elem_of_fmap & Ha).
    apply elem_of_filter_bool in Hg as [? ?%contains_true]. eauto.
  - intros (g & Hg & Hs & Ha). exists (pg_actions g). split; [|done].
    apply list_elem_of_fmap. exists g. split; [done|].
    apply elem_of_filter_bool. by rewrite contains_true.
Qed.

Lemma nearest_explicit_split path mode :
  nearest_explicit_policy path = Some mode <->
  exists grants n above, mode = Explicit grants /\ path = replicate n Inherit ++ mode :: above.
Proof.
  unfold nearest_explicit_policy. split.
  - induction path as [|[|grants] path IH]; cbn; [done| |].
    + intros (grants & n & above & -> & ->)%IH. by exists grants, (S n), above.
    + intros [= <-]. by exists grants, 0%nat, path.
  - intros (grants & n & above & -> & ->). by induction n.
Qed.

Lemma evaluate_explicit subjects grants required :
  evaluate_policy subjects (Explicit grants) required = true <->
  required <> [] /\ forall action, action ∈ required -> action ∈ granted_actions subjects grants.
Proof.
  cbn. setoid_rewrite elem_of_granted.
  destruct grants as [|g grants]; cbn [is_empty orb].
  { split; [done|]. intros [Hr H]. destruct required as [|a r]; [done|].
    destruct (H a) as (? & ? & _); set_solver. }
  destruct required as [|a required]; cbn [is_empty]; [naive_solver|].
  rewrite forallb_true. setoid_rewrite existsb_true.
  setoid_rewrite andb_true_iff. setoid_rewrite contains_true.
  setoid_rewrite bool_decide_eq_true. naive_solver.
Qed.

(** C36: access is denied unless the nearest policy on the path that is explicit grants
    every required action, and at least one is required, to the caller's subjects taken
    together: an inherited policy passes the decision up, and nothing above the nearest explicit
    policy matters. *)
Theorem policy_decision_exact subjects path required :
  (exists effective, nearest_explicit_policy path = Some effective
     /\ evaluate_policy subjects effective required = true) <->
  required <> [] /\ exists n grants above,
    path = replicate n Inherit ++ Explicit grants :: above
    /\ forall action, action ∈ required -> action ∈ granted_actions subjects grants.
Proof.
  split.
  - intros (mode & (grants & n & above & -> & ->)%nearest_explicit_split & H).
    apply evaluate_explicit in H as [? ?]. eauto 6.
  - intros [Hr (n & grants & above & -> & H)]. exists (Explicit grants).
    rewrite nearest_explicit_split, evaluate_explicit. naive_solver.
Qed.
