(* ===== verification/Lifecycle.v ===== *)
(** * Lifecycle: documents and their versions (document.rs)

    Creation, publication, new working versions, rebasing, the end of a publication and
    withdrawal, with the checks on persisted state.  A method that takes [&mut self] and
    [&mut target] returns both; it changes neither when it fails. *)
From stdpp Require Import base gmap sets list strings.
From Stdlib Require Import ZArith Lia.
From S2P Require Import Prelude Text DocumentValues.

Local Open Scope Z_scope.

Inductive LifecycleState : Type := Working | Published | Withdrawn.
#[global] Instance LifecycleState_eq_dec : EqDecision LifecycleState.
Proof. solve_decision. Defined.

Record PublishTransition : Type := { pt_resulting_document_revision : Z }.

Record WithdrawTransition : Type := {
  wt_former_current_version_id : option DocumentVersionId;
  wt_resulting_current_version_id : option DocumentVersionId;
  wt_resulting_document_revision : Z
}.

Record EndPublicationTransition : Type := {
  ept_former_current_version_id : option DocumentVersionId;
  ept_resulting_document_revision : Z
}.

Section Lifecycle.
Context {J : Json}.

Record Document : Type := {
  doc_document_id : DocumentId;
  doc_folder_id : FolderId;
  doc_current_version_id : option DocumentVersionId;
  doc_revision : Z;
  doc_metadata : Metadata J;
  doc_created_at : Instant
}.

Record DocumentVersion : Type := {
  dv_document_version_id : DocumentVersionId;
  dv_document_id : DocumentId;
  dv_version_no : VersionNo;
  dv_base_document_version_id : option DocumentVersionId;
  dv_lifecycle_state : LifecycleState;
  dv_title : Title;
  dv_revision_reason : option string;
  dv_approved_at : option Instant;
  dv_scheduled_publish_at : option Instant;
  dv_published_at : option Instant;
  dv_withdrawn_at : option Instant;
  dv_effective_from : option Instant;
  dv_effective_to : option Instant;
  dv_created_by : PrincipalRef;
  dv_metadata : Metadata J;
  dv_created_at : Instant
}.

Record RestoreDocument : Type := {
  rd_document_id : DocumentId;
  rd_folder_id : FolderId;
  rd_current_version_id : option DocumentVersionId;
  rd_revision : Z;
  rd_metadata : Metadata J;
  rd_created_at : Instant
}.

Record RestoreDocumentVersion : Type := {
  rdv_document_version_id : DocumentVersionId;
  rdv_document_id : DocumentId;
  rdv_version_no : VersionNo;
  rdv_base_document_version_id : option DocumentVersionId;
  rdv_lifecycle_state : LifecycleState;
  rdv_title : Title;
  rdv_revision_reason : option string;
  rdv_approved_at : option Instant;
  rdv_scheduled_publish_at : option Instant;
  rdv_published_at : option Instant;
  rdv_withdrawn_at : option Instant;
  rdv_effective_from : option Instant;
  rdv_effective_to : option Instant;
  rdv_created_by : PrincipalRef;
  rdv_metadata : Metadata J;
  rdv_created_at : Instant
}.

Record CreateWorkingVersion : Type := {
  cwv_document_version_id : DocumentVersionId;
  cwv_document_id : DocumentId;
  cwv_version_no : VersionNo;
  cwv_base_document_version_id : DocumentVersionId;
  cwv_title : Title;
  cwv_created_by : PrincipalRef;
  cwv_metadata : Metadata J;
  cwv_created_at : Instant
}.

Record CreateInitialDocument : Type := {
  cid_document_id : DocumentId;
  cid_version_id : DocumentVersionId;
  cid_file_id : FileId;
  cid_folder_id : FolderId;
  cid_title : Title;
  cid_document_metadata : Metadata J;
  cid_version_metadata : Metadata J;
  cid_principal : PrincipalRef;
  cid_stored_file : StoredFileDescriptor;
  cid_original_filename : string;
  cid_created_at : Instant
}.

Record InitialDocument : Type := {
  ind_document : Document;
  ind_version : DocumentVersion;
  ind_file : FileObject;
  ind_version_file : VersionFile
}.

(** Assignments to the mutable fields. *)
Definition set_doc_current (current : option DocumentVersionId) (revision : Z) (d : Document)
    : Document :=
  {| doc_document_id := doc_document_id d; doc_folder_id := doc_folder_id d;
     doc_current_version_id := current; doc_revision := revision;
     doc_metadata := doc_metadata d; doc_created_at := doc_created_at d |}.

Definition set_dv_state (base : option DocumentVersionId) (state : LifecycleState)
    (published_at withdrawn_at : option Instant) (v : DocumentVersion) : DocumentVersion :=
  {| dv_document_version_id := dv_document_version_id v;
     dv_document_id := dv_document_id v;
     dv_version_no := dv_version_no v;
     dv_base_document_version_id := base;
     dv_lifecycle_state := state;
     dv_title := dv_title v;
     dv_revision_reason := dv_revision_reason v;
     dv_approved_at := dv_approved_at v;
     dv_scheduled_publish_at := dv_scheduled_publish_at v;
     dv_published_at := published_at;
     dv_withdrawn_at := withdrawn_at;
     dv_effective_from := dv_effective_from v;
     dv_effective_to := dv_effective_to v;
     dv_created_by := dv_created_by v;
     dv_metadata := dv_metadata v;
     dv_created_at := dv_created_at v |}.

(** [target.lifecycle_state = Published; target.published_at = Some(published_at)]. *)
Definition mark_published (published_at : Instant) (v : DocumentVersion) : DocumentVersion :=
  set_dv_state (dv_base_document_version_id v) Published (Some published_at)
    (dv_withdrawn_at v) v.

Definition mark_withdrawn (withdrawn_at : Instant) (v : DocumentVersion) : DocumentVersion :=
  set_dv_state (dv_base_document_version_id v) Withdrawn (dv_published_at v)
    (Some withdrawn_at) v.

Definition set_base (base : DocumentVersionId) (v : DocumentVersion) : DocumentVersion :=
  set_dv_state (Some base) (dv_lifecycle_state v) (dv_published_at v) (dv_withdrawn_at v) v.

(** [self.revision.checked_add(1).ok_or(RevisionOverflow)?]. *)
Definition next_revision (d : Document) : DResult Z :=
  ok_or (checked_add_i64 (doc_revision d) 1) RevisionOverflow.

(** ** Persisted state *)

Definition Document_restore (input : RestoreDocument) : DResult Document :=
  if rd_revision input <? 0 then Err InvalidPersistedState
  else
    Ok {| doc_document_id := rd_document_id input;
          doc_folder_id := rd_folder_id input;
          doc_current_version_id := rd_current_version_id input;
          doc_revision := rd_revision input;
          doc_metadata := rd_metadata input;
          doc_created_at := rd_created_at input |}.

Definition DocumentVersion_restore (input : RestoreDocumentVersion) : DResult DocumentVersion :=
  if negb (Bool.eqb (VersionNo_get (rdv_version_no input) =? 1)
             (is_none (rdv_base_document_version_id input)))
     || (rdv_base_document_version_id input == Some (rdv_document_version_id input))
     || ((rdv_lifecycle_state input == Published) && is_none (rdv_published_at input))
     || ((rdv_lifecycle_state input == Withdrawn) && is_none (rdv_withdrawn_at input))
     || ((rdv_lifecycle_state input == Working)
         && (is_some (rdv_published_at input) || is_some (rdv_withdrawn_at input)))
  then Err InvalidPersistedState
  else
    Ok {| dv_document_version_id := rdv_document_version_id input;
          dv_document_id := rdv_document_id input;
          dv_version_no := rdv_version_no input;
          dv_base_document_version_id := rdv_base_document_version_id input;
          dv_lifecycle_state := rdv_lifecycle_state input;
          dv_title := rdv_title input;
          dv_revision_reason := rdv_revision_reason input;
          dv_approved_at := rdv_approved_at input;
          dv_scheduled_publish_at := rdv_scheduled_publish_at input;
          dv_published_at := rdv_published_at input;
          dv_withdrawn_at := rdv_withdrawn_at input;
          dv_effective_from := rdv_effective_from input;
          dv_effective_to := rdv_effective_to input;
          dv_created_by := rdv_created_by input;
          dv_metadata := rdv_metadata input;
          dv_created_at := rdv_created_at input |}.

(** The values a document and a version show through their accessors, which is what is stored. *)
Definition persisted_document (d : Document) : RestoreDocument :=
  {| rd_document_id := doc_document_id d;
     rd_folder_id := doc_folder_id d;
     rd_current_version_id := doc_current_version_id d;
     rd_revision := doc_revision d;
     rd_metadata := doc_metadata d;
     rd_created_at := doc_created_at d |}.

Definition persisted_version (v : DocumentVersion) : RestoreDocumentVersion :=
  {| rdv_document_version_id := dv_document_version_id v;
     rdv_document_id := dv_document_id v;
     rdv_version_no := dv_version_no v;
     rdv_base_document_version_id := dv_base_document_version_id v;
     rdv_lifecycle_state := dv_lifecycle_state v;
     rdv_title := dv_title v;
     rdv_revision_reason := dv_revision_reason v;
     rdv_approved_at := dv_approved_at v;
     rdv_scheduled_publish_at := dv_scheduled_publish_at v;
     rdv_published_at := dv_published_at v;
     rdv_withdrawn_at := dv_withdrawn_at v;
     rdv_effective_from := dv_effective_from v;
     rdv_effective_to := dv_effective_to v;
     rdv_created_by := dv_created_by v;
     rdv_metadata := dv_metadata v;
     rdv_created_at := dv_created_at v |}.

(** ** Publication *)

Definition publish_initial_version (d : Document) (target : DocumentVersion)
    (published_at : Instant) : Document * DocumentVersion * DResult PublishTransition :=
  commit (d, target)
    (if dv_document_id target != doc_document_id d then Err VersionDocumentMismatch
     else if is_some (doc_current_version_id d) then Err CurrentVersionAlreadySet
     else if dv_lifecycle_state target != Working then Err VersionNotWorking
     else
       let? revision := next_revision d in
       let target := mark_published published_at target in
       let d := set_doc_current (Some (dv_document_version_id target)) revision d in
       Ok (d, target, {| pt_resulting_document_revision := revision |})).

Definition validate_new_working (d : Document) (base : DocumentVersion)
    (existing_working : option DocumentVersion) : DResult unit :=
  if dv_document_id base != doc_document_id d then Err VersionDocumentMismatch
  else if dv_lifecycle_state base != Published then Err VersionNotPublished
  else
    let? current := ok_or (doc_current_version_id d) NoCurrentPublishedVersion in
    if dv_document_version_id base != current then Err StaleVersionBase
    else
      match existing_working with
      | Some working =>
          if dv_document_id working != doc_document_id d then Err VersionDocumentMismatch
          else if dv_lifecycle_state working == Working then Err ExistingWorkingVersion
          else Ok tt
      | None => Ok tt
      end.

Definition publish_next_version (d : Document) (target : DocumentVersion)
    (published_at : Instant) : Document * DocumentVersion * DResult PublishTransition :=
  commit (d, target)
    (if dv_document_id target != doc_document_id d then Err VersionDocumentMismatch
     else if dv_lifecycle_state target != Working then Err VersionNotWorking
     else
       let? current := ok_or (doc_current_version_id d) NoCurrentPublishedVersion in
       if (dv_base_document_version_id target != Some current)
          || (dv_document_version_id target == current)
       then Err StaleVersionBase
       else
         let? revision := next_revision d in
         let target := mark_published published_at target in
         let d := set_doc_current (Some (dv_document_version_id target)) revision d in
         Ok (d, target, {| pt_resulting_document_revision := revision |})).

Definition end_publication (d : Document) (current : DocumentVersion)
    : Document * DResult EndPublicationTransition :=
  commit d
    (if dv_document_id current != doc_document_id d then Err VersionDocumentMismatch
     else
       let? current_id := ok_or (doc_current_version_id d) NoCurrentPublishedVersion in
       if dv_document_version_id current != current_id then Err StaleVersionBase
       else if dv_lifecycle_state current != Published then Err VersionNotPublished
       else
         let? revision := next_revision d in
         Ok (set_doc_current None revision d,
             {| ept_former_current_version_id := Some current_id;
                ept_resulting_document_revision := revision |})).

(** The current version a withdrawal leaves: the given base when the withdrawn version is
    current, the same one otherwise. *)
Definition current_after_withdrawal (d : Document) (target : DocumentVersion)
    (eligible_base : option DocumentVersion) : DResult (option DocumentVersionId) :=
  if doc_current_version_id d == Some (dv_document_version_id target) then
    match eligible_base with
    | Some base =>
        if (Some (dv_document_version_id base) != dv_base_document_version_id target)
           || (dv_document_id base != doc_document_id d)
           || (dv_lifecycle_state base != Published)
        then Err InvalidRestorationCandidate
        else Ok (Some (dv_document_version_id base))
    | None => Ok None
    end
  else if is_some eligible_base then Err InvalidRestorationCandidate
  else Ok (doc_current_version_id d).

Definition withdraw_version (d : Document) (target : DocumentVersion)
    (eligible_base : option DocumentVersion) (withdrawn_at : Instant)
    : Document * DocumentVersion * DResult WithdrawTransition :=
  commit (d, target)
    (if dv_document_id target != doc_document_id d then Err VersionDocumentMismatch
     else if dv_lifecycle_state target != Published then Err VersionNotPublished
     else
       let former_current := doc_current_version_id d in
       let? resulting_current := current_after_withdrawal d target eligible_base in
       let? revision := next_revision d in
       Ok (set_doc_current resulting_current revision d, mark_withdrawn withdrawn_at target,
           {| wt_former_current_version_id := former_current;
              wt_resulting_current_version_id := resulting_current;
              wt_resulting_document_revision := revision |})).

(** ** Versions *)

Definition new_working (input : CreateWorkingVersion) : DResult DocumentVersion :=
  if (VersionNo_get (cwv_version_no input) <=? 1)
     || (cwv_document_version_id input == cwv_base_document_version_id input)
  then Err StaleVersionBase
  else
    Ok {| dv_document_version_id := cwv_document_version_id input;
          dv_document_id := cwv_document_id input;
          dv_version_no := cwv_version_no input;
          dv_base_document_version_id := Some (cwv_base_document_version_id input);
          dv_lifecycle_state := Working;
          dv_title := cwv_title input;
          dv_revision_reason := None;
          dv_approved_at := None;
          dv_scheduled_publish_at := None;
          dv_published_at := None;
          dv_withdrawn_at := None;
          dv_effective_from := None;
          dv_effective_to := None;
          dv_created_by := cwv_created_by input;
          dv_metadata := cwv_metadata input;
          dv_created_at := cwv_created_at input |}.

Definition rebase_to_current (v : DocumentVersion) (d : Document) (base : DocumentVersion)
    : DocumentVersion * DResult unit :=
  commit v
    (if (dv_document_id v != doc_document_id d) || (dv_document_id base != doc_document_id d)
     then Err VersionDocumentMismatch
     else if dv_lifecycle_state v != Working then Err VersionNotWorking
     else if dv_lifecycle_state base != Published then Err VersionNotPublished
     else if (doc_current_version_id d != Some (dv_document_version_id base))
             || (dv_document_version_id v == dv_document_version_id base)
     then Err StaleVersionBase
     else Ok (set_base (dv_document_version_id base) v, tt)).

(** ** Creation *)

Definition InitialDocument_create (input : CreateInitialDocument) : DResult InitialDocument :=
  if is_empty (trim (cid_original_filename input)) then Err BlankOriginalFilename
  else
    let? version_no := VersionNo_new 1 in
    Ok {| ind_document :=
            {| doc_document_id := cid_document_id input;
               doc_folder_id := cid_folder_id input;
               doc_current_version_id := None;
               doc_revision := 0;
               doc_metadata := cid_document_metadata input;
               doc_created_at := cid_created_at input |};
          ind_version :=
            {| dv_document_version_id := cid_version_id input;
               dv_document_id := cid_document_id input;
               dv_version_no := version_no;
               dv_base_document_version_id := None;
               dv_lifecycle_state := Working;
               dv_title := cid_title input;
               dv_revision_reason := None;
               dv_approved_at := None;
               dv_scheduled_publish_at := None;
               dv_published_at := None;
               dv_withdrawn_at := None;
               dv_effective_from := None;
               dv_effective_to := None;
               dv_created_by := cid_principal input;
               dv_metadata := cid_version_metadata input;
               dv_created_at := cid_created_at input |};
          ind_file :=
            FileObject_new (cid_file_id input) (cid_stored_file input) (cid_created_at input);
          ind_version_file :=
            VersionFile_primary (cid_version_id input) (cid_file_id input)
              (cid_original_filename input) |}.

Definition InitialDocument_restore_published (input : CreateInitialDocument)
    (published_at : Instant) : DResult InitialDocument :=
  let? aggregate := InitialDocument_create input in
  let '(document, version, outcome) :=
    publish_initial_version (ind_document aggregate) (ind_version aggregate) published_at in
  try? outcome in
  Ok {| ind_document := document; ind_version := version; ind_file := ind_file aggregate;
        ind_version_file := ind_version_file aggregate |}.

End Lifecycle.
