(* ===== verification/LifecycleTheorems.v ===== *)
(** * LifecycleTheorems: what the document operations promise together

    A [store] is a document with its versions.  [doc_step] has one constructor per operation,
    applied to stored versions as the contract tests of the crate compose them; [reachable_store]
    starts at a created document. *)
From stdpp Require Import base gmap sets list strings relations.
From Stdlib Require Import ZArith Lia.
From S2P Require Import Prelude Text DocumentValues Lifecycle.

Local Open Scope Z_scope.

Section LifecycleTheorems.
Context {J : Json}.

Abbreviation vid := dv_document_version_id.
Abbreviation state := dv_lifecycle_state.

Definition store : Type := Document * list DocumentVersion.

Definition put_version (v : DocumentVersion) (vs : list DocumentVersion)
    : list DocumentVersion :=
  update_first (fun x => vid x == vid v) (fun _ => v) vs.

Definition working_version (vs : list DocumentVersion) : option DocumentVersion :=
  find (fun v => state v == Working) vs.

Inductive doc_step : store -> store -> Prop :=
| step_publish_initial d vs v t d' v' r :
    v ∈ vs -> publish_initial_version d v t = (d', v', Ok r) ->
    doc_step (d, vs) (d', put_version v' vs)
| step_new_working d vs base input v :
    base ∈ vs -> validate_new_working d base (working_version vs) = Ok tt ->
    cwv_document_id input = doc_document_id d ->
    cwv_base_document_version_id input = vid base ->
    cwv_document_version_id input ∉ map vid vs ->
    new_working input = Ok v ->
    doc_step (d, vs) (d, vs ++ [v])
| step_publish_next d vs v t d' v' r :
    v ∈ vs -> publish_next_version d v t = (d', v', Ok r) ->
    doc_step (d, vs) (d', put_version v' vs)
| step_rebase d vs v base v' :
    v ∈ vs -> base ∈ vs -> rebase_to_current v d base = (v', Ok tt) ->
    doc_step (d, vs) (d, put_version v' vs)
| step_end_publication d vs v d' r :
    v ∈ vs -> end_publication d v = (d', Ok r) -> doc_step (d, vs) (d', vs)
| step_withdraw d vs v base t d' v' r :
    v ∈ vs -> (forall b, base = Some b -> b ∈ vs) ->
    withdraw_version d v base t = (d', v', Ok r) ->
    doc_step (d, vs) (d', put_version v' vs).

Definition created (s : store) : Prop :=
  exists input a, InitialDocument_create input = Ok a
    /\ s = (ind_document a, [ind_version a]).

Definition reachable_store (s : store) : Prop := exists s0, created s0 /\ rtc doc_step s0 s.

(** ** The effect of each operation *)

(** The version a step rewrites, and the current version it leaves. *)
Inductive version_effect (d : Document) (vs : list DocumentVersion) (v : DocumentVersion)
    : option DocumentVersionId -> DocumentVersion -> Prop :=
| effect_publish t :
    state v = Working ->
    version_effect d vs v (Some (vid v)) (mark_published t v)
| effect_rebase base :
    state v = Working -> base ∈ vs -> state base = Published -> vid v <> vid base ->
    doc_current_version_id d = Some (vid base) ->
    version_effect d vs v (doc_current_version_id d) (set_base (vid base) v)
| effect_withdraw t current :
    state v = Published ->
    (dv_base_document_version_id v <> Some (vid v) -> current <> Some (vid v)) ->
    (current = doc_current_version_id d \/ current = None
     \/ exists base, base ∈ vs /\ state base = Published /\ current = Some (vid base)) ->
    version_effect d vs v current (mark_withdrawn t v).

Inductive store_effect (d : Document) (vs : list DocumentVersion) : store -> Prop :=
| effect_version v current revision v' :
    v ∈ vs -> dv_document_id v = doc_document_id d -> version_effect d vs v current v' ->
    (revision = doc_revision d \/ revision = doc_revision d + 1 /\ in_i64 revision) ->
    store_effect d vs (set_doc_current current revision d, put_version v' vs)
| effect_end revision :
    revision = doc_revision d + 1 -> in_i64 revision ->
    store_effect d vs (set_doc_current None revision d, vs)
| effect_new base v :
    base ∈ vs -> state base = Published -> working_version vs = None ->
    vid v ∉ map vid vs -> dv_document_id v = doc_document_id d -> state v = Working ->
    dv_base_document_version_id v = Some (vid base) -> 1 < VersionNo_get (dv_version_no v) ->
    dv_published_at v = None -> dv_withdrawn_at v = None ->
    store_effect d vs (d, vs ++ [v]).

Lemma next_revision_Ok d r :
  next_revision d = Ok r -> r = doc_revision d + 1 /\ in_i64 r.
Proof.
  unfold next_revision. intros H. inv_ok. by apply checked_add_i64_Some in H as [-> ?].
Qed.

Lemma set_doc_current_same d : set_doc_current (doc_current_version_id d) (doc_revision d) d = d.
Proof. by destruct d. Qed.

Lemma withdrawal_current d (vs : list DocumentVersion) v base current :
  (forall b, base = Some b -> b ∈ vs) ->
  current_after_withdrawal d v base = Ok current ->
  (dv_base_document_version_id v <> Some (vid v) -> current <> Some (vid v))
  /\ (current = doc_current_version_id d \/ current = None
      \/ exists b, b ∈ vs /\ state b = Published /\ current = Some (vid b)).
Proof.
  unfold current_after_withdrawal. intros Hb H.
  case_bool_decide as Hc.
  - destruct base as [b|]; inv_ok; subst; [|naive_solver]. simp_bool.
    split; [congruence|]. right. right. exists b. naive_solver.
  - inv_ok. simp_bool. subst. auto.
Qed.

(** A committed operation: its passed guards and the values it left. *)
Ltac inv_doc E :=
  apply commit_Ok in E; cbv zeta in E; inv_ok; simp_bool; simplify_eq;
  try match goal with H : next_revision _ = _ |- _ => apply next_revision_Ok in H end.

Lemma doc_step_effect d vs s : doc_step (d, vs) s -> store_effect d vs s.
Proof.
  intros H. inversion H as [? ? ? ? ? ? ? Hv E|? ? ? ? ? Hv E Hd Hb Hn E'
    |? ? ? ? ? ? ? Hv E|? ? ? ? ? Hv Hv' E|? ? ? ? ? Hv E|? ? ? ? ? ? ? ? Hv Hbase E];
    subst; clear H.
  - inv_doc E.
    eapply effect_version; [done|done|by apply effect_publish|naive_solver].
  - unfold validate_new_working in E. inv_ok. simp_bool. simplify_eq.
    assert (working_version vs = None) as Hw.
    { destruct (working_version vs) as [w|] eqn:Hw; [|done]. inv_ok. simp_bool.
      apply find_Some_iff in Hw as [_ Hw]. by simp_bool. }
    unfold new_working in E'. inv_ok. simp_bool. simplify_eq.
    eapply effect_new; cbn; try done. by rewrite Hb.
  - inv_doc E.
    eapply effect_version; [done|done|by apply effect_publish|naive_solver].
  - inv_doc E.
    rewrite <- (set_doc_current_same d) at 2.
    eapply (effect_version _ _ v); [done|done|by apply effect_rebase|by left].
  - inv_doc E.
    apply effect_end; naive_solver.
  - inv_doc E.
    match goal with H : current_after_withdrawal _ _ _ = _ |- _ =>
      apply (withdrawal_current _ _ _ _ _ Hbase) in H as [? ?] end.
    eapply effect_version; [done|done|by apply effect_withdraw|naive_solver].
Qed.

(** ** The invariant *)

(** A version passes the check on persisted state. *)
Definition persistable (v : DocumentVersion) : Prop :=
  DocumentVersion_restore (persisted_version v) = Ok v.

Record store_sound (d : Document) (vs : list DocumentVersion) : Prop := {
  ss_ids : NoDup (map vid vs);
  ss_document : forall v, v ∈ vs -> dv_document_id v = doc_document_id d;
  ss_current : forall id, doc_current_version_id d = Some id ->
    exists v, v ∈ vs /\ vid v = id /\ state v = Published;
  ss_one_working : forall v w, v ∈ vs -> w ∈ vs -> state v = Working -> state w = Working -> v = w;
  ss_base : forall v id, v ∈ vs -> dv_base_document_version_id v = Some id ->
    exists b, b ∈ vs /\ vid b = id /\ state b <> Working;
  ss_first : forall v, v ∈ vs -> dv_base_document_version_id v = None -> state v = Working ->
    vs = [v];
  ss_persistable : forall v, v ∈ vs -> persistable v;
  ss_revision : 0 <= doc_revision d <= i64_max
}.

Lemma persistable_iff v :
  persistable v <->
  (VersionNo_get (dv_version_no v) = 1 <-> dv_base_document_version_id v = None)
  /\ dv_base_document_version_id v <> Some (vid v)
  /\ match state v with
     | Published => dv_published_at v <> None
     | Withdrawn => dv_withdrawn_at v <> None
     | Working => dv_published_at v = None /\ dv_withdrawn_at v = None
     end.
Proof.
  unfold persistable, DocumentVersion_restore.
  destruct v as [id doc [n] base st title rr aa sp pa wa ef et cb md ca]. cbn.
  destruct (Z.eqb_spec n 1), base as [b|], st, pa, wa; cbn; try case_bool_decide; cbn;
    split; intros; simplify_eq; naive_solver.
Qed.

Lemma put_version_ids v vs : map vid (put_version v vs) = map vid vs.
Proof.
  unfold put_version. induction vs as [|x vs IH]; cbn; [done|].
  case_bool_decide as E; cbn; by rewrite ?E, ?IH.
Qed.

(** Under distinct identifiers a stored version is the rewritten one or another one. *)
Lemma elem_of_put v v' vs x :
  NoDup (map vid vs) -> v ∈ vs -> vid v' = vid v ->
  x ∈ put_version v' vs <-> x = v' \/ x ∈ vs /\ vid x <> vid v.
Proof.
  unfold put_version. intros Hn Hv Heq. rewrite Heq.
  induction vs as [|y vs IH]; cbn in *; [set_solver|].
  apply NoDup_cons in Hn as [Hy Hn]. rewrite elem_of_cons in Hv.
  assert (forall z, z ∈ vs -> vid z <> vid y) as Hz.
  { intros z Hz Heq'. apply Hy. rewrite <- Heq'. apply list_elem_of_fmap. eauto. }
  case_bool_decide as E.
  - assert (v = y) as -> by (destruct Hv as [|Hv]; [done|by destruct (Hz v Hv)]).
    rewrite !elem_of_cons. naive_solver.
  - rewrite !elem_of_cons, IH by naive_solver. naive_solver.
Qed.


(** ** Preservation *)

Lemma effect_same_version d vs v c v' :
  version_effect d vs v c v' -> vid v' = vid v /\ dv_document_id v' = dv_document_id v.
Proof. by intros []. Qed.

(** What the rewritten version is: a working one keeps its state and gets a stored base; an
    ended or published one keeps its base. *)
Lemma effect_state d vs v c v' :
  version_effect d vs v c v' ->
  (state v' = Working ->
     state v = Working /\ exists b, b ∈ vs /\ state b = Published /\ vid b <> vid v
       /\ dv_base_document_version_id v' = Some (vid b))
  /\ (state v' <> Working -> dv_base_document_version_id v' = dv_base_document_version_id v)
  /\ (state v <> Working -> state v' <> Working).
Proof.
  intros []; cbn; split_and!; try done.
  - intros _. split; [done|]. eauto 10.
Qed.

Lemma effect_persistable d vs v c v' :
  store_sound d vs -> v ∈ vs -> version_effect d vs v c v' -> persistable v'.
Proof.
  intros Hs Hv He. pose proof (ss_persistable _ _ Hs v Hv) as Hp.
  apply persistable_iff in Hp as (Hn & Hb & Hst). apply persistable_iff.
  destruct He as [t Hw|b Hw Hin Hpub Hne Hcur|t c Hpub]; cbn.
  - done.
  - split_and!; [|congruence|by rewrite Hw in *].
    split; [|done]. intros H%Hn. rewrite (ss_first _ _ Hs v Hv H Hw) in Hin.
    apply list_elem_of_singleton in Hin. congruence.
  - done.
Qed.

Lemma effect_current d vs v c v' id :
  store_sound d vs -> v ∈ vs -> version_effect d vs v c v' -> c = Some id ->
  exists u, u ∈ put_version v' vs /\ vid u = id /\ state u = Published.
Proof.
  intros Hs Hv He Hc. destruct (effect_same_version _ _ _ _ _ He) as [Hid _].
  assert (forall u, u ∈ vs -> vid u <> vid v -> vid u = id -> state u = Published ->
    exists u, u ∈ put_version v' vs /\ vid u = id /\ state u = Published) as Hother.
  { intros u Hu Hne Heq Hp. exists u. split; [|done].
    apply (elem_of_put v); [apply Hs|done|done|by right]. }
  destruct He as [t Hw|b Hw Hin Hpub Hne Hcur|t c Hpub Hnot Hcases]; simplify_eq.
  - eexists. split; [apply (elem_of_put v); [apply Hs|done|done|by left]|done].
  - by apply (Hother b).
  - pose proof (ss_persistable _ _ Hs v Hv) as (_ & Hself & _)%persistable_iff.
    specialize (Hnot Hself).
    destruct Hcases as [Hc|[?|(b & Hb & Hp & [= ->])]]; [|done|apply (Hother b); congruence].
    destruct (ss_current _ _ Hs id) as (u & Hu & <- & Hp); [done|]. eapply Hother; eauto. congruence.
Qed.

Lemma version_effect_sound d vs v c revision v' :
  store_sound d vs -> v ∈ vs -> version_effect d vs v c v' ->
  (revision = doc_revision d \/ revision = doc_revision d + 1 /\ in_i64 revision) ->
  store_sound (set_doc_current c revision d) (put_version v' vs).
Proof.
  intros Hs Hv He Hr. destruct (effect_same_version _ _ _ _ _ He) as [Hid Hdoc].
  destruct (effect_state _ _ _ _ _ He) as (Hw & Hb & Hnw).
  pose proof (fun x => elem_of_put v v' vs x (ss_ids _ _ Hs) Hv Hid) as Hput.
  assert (forall b, b ∈ vs -> state b <> Working -> exists b', b' ∈ put_version v' vs
    /\ vid b' = vid b /\ state b' <> Working) as Hkept.
  { intros b Hin Hnb. destruct (decide (vid b = vid v)) as [Heq|Hne].
    - assert (b = v) as -> by (apply (NoDup_key vid vs); [apply Hs|done..]).
      exists v'. rewrite Hput. naive_solver.
    - exists b. rewrite Hput. naive_solver. }
  split; cbn.
  - rewrite put_version_ids. apply Hs.
  - intros x [->|[Hx _]]%Hput; [rewrite Hdoc|]; by apply (ss_document _ _ Hs).
  - intros id. by eapply effect_current.
  - intros x y [->|[Hx Hx']]%Hput [->|[Hy Hy']]%Hput Hxw Hyw; [done|..].
    + destruct (Hw Hxw) as [Hvw _]. by rewrite (ss_one_working _ _ Hs y v) in Hy'.
    + destruct (Hw Hyw) as [Hvw _]. by rewrite (ss_one_working _ _ Hs x v) in Hx'.
    + by apply (ss_one_working _ _ Hs).
  - intros x id [->|[Hx _]]%Hput Hbase.
    + destruct (decide (state v' = Working)) as [H|H].
      * destruct (Hw H) as (_ & b & Hin & Hp & Hne & Heq). destruct (Hkept b) as (b' & ?); [done|congruence|].
        exists b'. naive_solver congruence.
      * rewrite (Hb H) in Hbase. destruct (ss_base _ _ Hs v id Hv Hbase) as (b & Hin & <- & Hnb).
        by apply Hkept.
    + destruct (ss_base _ _ Hs x id Hx Hbase) as (b & Hin & <- & Hnb). by apply Hkept.
  - intros x [->|[Hx Hne]]%Hput Hbase Hxw; [destruct (Hw Hxw); naive_solver congruence|].
    rewrite (ss_first _ _ Hs x Hx Hbase Hxw) in Hv. by apply list_elem_of_singleton in Hv as ->.
  - intros x [->|[Hx _]]%Hput; [by eapply effect_persistable|by apply (ss_persistable _ _ Hs)].
  - pose proof (ss_revision _ _ Hs). unfold in_i64 in Hr. lia.
Qed.

Lemma new_version_sound d vs base v :
  store_sound d vs -> base ∈ vs -> state base = Published -> working_version vs = None ->
  vid v ∉ map vid vs -> dv_document_id v = doc_document_id d -> state v = Working ->
  dv_base_document_version_id v = Some (vid base) -> 1 < VersionNo_get (dv_version_no v) ->
  dv_published_at v = None -> dv_withdrawn_at v = None ->
  store_sound d (vs ++ [v]).
Proof.
  intros Hs Hin Hp Hnone Hnew Hdoc Hw Hb Hno Hpa Hwa.
  assert (forall x, x ∈ vs -> state x <> Working) as Hnw.
  { intros x Hx Hxw. unfold working_version in Hnone. rewrite find_None_iff in Hnone. specialize (Hnone x Hx). by simp_bool. }
  assert (forall x, x ∈ vs ++ [v] <-> x ∈ vs \/ x = v) as Happ by set_solver.
  split.
  - rewrite map_app. apply NoDup_app. split_and!; [apply Hs| |apply NoDup_singleton].
    intros id Hid ->%list_elem_of_singleton. done.
  - intros x [Hx| ->]%Happ; [by apply (ss_document _ _ Hs)|done].
  - intros id Hc. destruct (ss_current _ _ Hs id Hc) as (u & ? & ?). exists u. set_solver.
  - intros x y [Hx| ->]%Happ [Hy| ->]%Happ Hxw Hyw; [by destruct (Hnw _ Hx)..|by destruct (Hnw _ Hy)|done].
  - intros x id [Hx| ->]%Happ Hbase.
    + destruct (ss_base _ _ Hs x id Hx Hbase) as (b & ? & ?). exists b. set_solver.
    + exists base. split_and!; [set_solver|congruence|congruence].
  - intros x [Hx| ->]%Happ Hbase Hxw; [by destruct (Hnw _ Hx)|congruence].
  - intros x [Hx| ->]%Happ; [by apply (ss_persistable _ _ Hs)|].
    apply persistable_iff. rewrite Hb, Hw. split_and!; [|intros [= Heq]|done..].
    + split; [lia|done].
    + apply Hnew. rewrite <- Heq. apply list_elem_of_fmap. eauto.
  - apply Hs.
Qed.

Lemma doc_step_sound d vs d' vs' :
  store_sound d vs -> doc_step (d, vs) (d', vs') -> store_sound d' vs'.
Proof.
  intros Hs H%doc_step_effect. inversion H; simplify_eq.
  - by eapply version_effect_sound.
  - pose proof (ss_revision _ _ Hs).
    match goal with H : in_i64 _ |- _ => unfold in_i64 in H end.
    destruct Hs. split; cbn; try done. lia.
  - by eapply new_version_sound.
Qed.

Lemma created_sound d vs : created (d, vs) -> store_sound d vs.
Proof.
  intros (input & a & H & E). unfold InitialDocument_create in H. inv_ok. cbn in Hok. inv_ok.
  simplify_eq. split; cbn; try setoid_rewrite list_elem_of_singleton; try naive_solver.
  - apply NoDup_singleton.
  - done.
Qed.

Lemma steps_sound d vs d' vs' :
  store_sound d vs -> rtc doc_step (d, vs) (d', vs') -> store_sound d' vs'.
Proof.
  intros Hs H. remember (d, vs) as s eqn:E. revert d vs E Hs.
  remember (d', vs') as s' eqn:E'. induction H as [s|s [d1 vs1] s' H _ IH];
    intros d vs -> Hs; simplify_eq; [done|].
  eapply IH; [done..|]. by eapply doc_step_sound.
Qed.

Lemma reachable_sound d vs : reachable_store (d, vs) -> store_sound d vs.
Proof.
  intros ([d0 vs0] & Hc%created_sound & H). by eapply steps_sound.
Qed.

(** C13: in every reachable document store the versions have distinct identifiers and
    belong to the document; the current version is stored and published; at most one version is
    working; and the base of a version is a stored version that has been published. *)
Theorem reachable_document_sound d vs :
  reachable_store (d, vs) ->
  NoDup (map vid vs)
  /\ (forall v, v ∈ vs -> dv_document_id v = doc_document_id d)
  /\ (forall id, doc_current_version_id d = Some id ->
        exists v, v ∈ vs /\ vid v = id /\ state v = Published)
  /\ (forall v w, v ∈ vs -> w ∈ vs -> state v = Working -> state w = Working -> v = w)
  /\ (forall v id, v ∈ vs -> dv_base_document_version_id v = Some id ->
        exists b, b ∈ vs /\ vid b = id /\ state b <> Working /\ vid b <> vid v).
Proof.
  intros Hs%reachable_sound. split_and!; try apply Hs.
  intros v id Hv Hb. destruct (ss_base _ _ Hs v id Hv Hb) as (b & Hin & <- & Hnb).
  exists b. split_and!; [done..|].
  pose proof (ss_persistable _ _ Hs v Hv) as (_ & Hself & _)%persistable_iff. congruence.
Qed.

(** Every document and version of a reachable store is accepted back from its
    persisted fields, unchanged: the operations never produce a state that the check on
    persisted state rejects. *)
Theorem reachable_store_restores d vs :
  reachable_store (d, vs) ->
  Document_restore (persisted_document d) = Ok d
  /\ Forall (fun v => DocumentVersion_restore (persisted_version v) = Ok v) vs.
Proof.
  intros Hs%reachable_sound. split; [|apply Forall_forall, Hs].
  unfold Document_restore. cbn. pose proof (ss_revision _ _ Hs).
  destruct (Z.ltb_spec (doc_revision d) 0); [lia|by destruct d].
Qed.

(** ** Published versions do not change *)

(** What may happen to a version: a working one is rebased or published, a published one is
    withdrawn, and nothing else about it changes. *)
Inductive version_change : DocumentVersion -> DocumentVersion -> Prop :=
| change_rebase v b : state v = Working -> version_change v (set_base b v)
| change_publish v t : state v = Working -> version_change v (mark_published t v)
| change_withdraw v t : state v = Published -> version_change v (mark_withdrawn t v).

Lemma put_version_grows v v' vs :
  NoDup (map vid vs) -> v ∈ vs -> vid v' = vid v -> version_change v v' ->
  grows (rtc version_change) vs (put_version v' vs).
Proof.
  intros Hn Hv Hid Hc. unfold put_version. rewrite Hid.
  apply grows_Forall2, Forall2_update_first; [done|].
  intros x Hx Heq. simp_bool. assert (x = v) as -> by (by apply (NoDup_key vid vs)).
  by apply rtc_once.
Qed.

Lemma doc_step_grows d vs d' vs' :
  store_sound d vs -> doc_step (d, vs) (d', vs') -> grows (rtc version_change) vs vs'.
Proof.
  intros Hs H%doc_step_effect. inversion H as [v c r v' Hv Hd He| |]; simplify_eq.
  - destruct (effect_same_version _ _ _ _ _ He) as [Hid _].
    apply (put_version_grows v); [apply Hs|done|done|]. destruct He; by constructor.
  - done.
  - by apply grows_app, _.
Qed.

Lemma steps_grow d vs d' vs' :
  store_sound d vs -> rtc doc_step (d, vs) (d', vs') -> grows (rtc version_change) vs vs'.
Proof.
  intros Hs H. remember (d, vs) as s eqn:E. revert d vs E Hs.
  remember (d', vs') as s' eqn:E'. induction H as [s|s [d1 vs1] s' H _ IH];
    intros d vs -> Hs; simplify_eq; [done|].
  transitivity vs1; [by eapply doc_step_grows|].
  eapply IH; [done..|]. by eapply doc_step_sound.
Qed.

Lemma withdrawn_stays v v' : rtc version_change v v' -> state v = Withdrawn -> v' = v.
Proof. intros H Hw. inversion H as [|? y ? Hc]; [done|]. destruct Hc; congruence. Qed.

Lemma published_stays v v' :
  rtc version_change v v' -> state v = Published ->
  v' = v \/ exists t, v' = mark_withdrawn t v.
Proof.
  intros H Hp. inversion H as [|? y ? Hc Hr]; [by left|]. destruct Hc as [? ? Hw|? ? Hw|? t Hw];
    [congruence..|]. right. exists t. by apply withdrawn_stays in Hr.
Qed.

(** C35: whatever operations follow, a published version stays as it is until it is
    withdrawn, which changes its state and the withdrawal instant only; a withdrawn version
    never changes again and is never current again. *)
Theorem published_versions_immutable d vs d' vs' v :
  reachable_store (d, vs) -> rtc doc_step (d, vs) (d', vs') -> v ∈ vs ->
  (state v = Published ->
     exists v', v' ∈ vs' /\ vid v' = vid v /\ (v' = v \/ exists t, v' = mark_withdrawn t v))
  /\ (state v = Withdrawn -> v ∈ vs' /\ doc_current_version_id d' <> Some (vid v)).
Proof.
  intros Hs%reachable_sound Hr Hv. pose proof (steps_sound _ _ _ _ Hs Hr) as Hs'.
  destruct (grows_elem _ _ _ _ (steps_grow _ _ _ _ Hs Hr) Hv) as (v' & Hin & Hc).
  split; intros Hst.
  - exists v'. pose proof (published_stays _ _ Hc Hst) as H.
    split_and!; [done| |done]. by destruct H as [->|[t ->]].
  - apply withdrawn_stays in Hc as ->; [|done]. split; [done|]. intros Hcur.
    destruct (ss_current _ _ Hs' _ Hcur) as (u & Hu & Heq & Hp).
    apply (NoDup_key vid vs') in Heq; [congruence|apply Hs'|done..].
Qed.
End LifecycleTheorems.
