(* ===== verification/Manifest.v ===== *)
(** * Manifest: logical paths and the identity of a version's content (versioning.rs)

    A manifest normalizes a title and sorts its items by ordinal and path; its identity is the
    SHA-256 digest of a length-prefixed encoding.  The digest function and Unicode
    normalization belong to other crates and are parameters.  The encoding that is hashed can be
    read back in one way only, so that two manifests with the same digest are the same manifest
    or show a collision of the hash function; a manifest does not depend on the order in which
    its items were given, and accepted paths stay below their root. *)
From stdpp Require Import base gmap sets list strings sorting vector.
From Stdlib Require Import ZArith Lia Ascii.
From S2P Require Import Prelude Text DocumentValues.
Local Open Scope Z_scope.

(** The crate [sha2]: the digest of the bytes fed to a hasher, in order. *)
Class Digest : Type := { sha256 : list ascii -> vec ascii 32 }.

Record LogicalPath : Type := { LogicalPath_as_str : string }.
#[global] Instance LogicalPath_eq_dec : EqDecision LogicalPath.
Proof. solve_decision. Defined.

Definition LogicalPath_new {U : Unicode} (value : string) : DResult LogicalPath :=
  let normalized := nfc value in
  if (normalized == "")
     || starts_with normalized 47
     || contains_char normalized 92
     || existsb is_control (chars normalized)
     || (u32_max <? str_len normalized)
     || existsb ambiguous (split_at_any [47] normalized)
  then Err InvalidLogicalPath
  else Ok {| LogicalPath_as_str := normalized |}.

Record SemanticContentItem : Type := {
  sci_logical_path : LogicalPath;
  sci_ordinal : Z;
  sci_format_id : string;
  sci_inspection_profile_id : string;
  sci_semantic_fingerprint : vec ascii 32
}.

(** Letters, digits, and the bytes [. - _ +]. *)
Definition valid_identifier (value : string) : bool :=
  negb (value == "")
  && (str_len value <=? u32_max)
  && forallb (fun byte => is_ascii_alphanumeric byte || contains [46; 45; 95; 43] byte)
       (bytes value).

Definition SemanticContentItem_new (logical_path : LogicalPath) (ordinal : Z)
    (format_id inspection_profile_id : string) (semantic_fingerprint : vec ascii 32)
    : DResult SemanticContentItem :=
  if negb (valid_identifier format_id) then Err InvalidSemanticFormat
  else if negb (valid_identifier inspection_profile_id) then Err InvalidInspectionProfile
  else
    Ok {| sci_logical_path := logical_path;
          sci_ordinal := ordinal;
          sci_format_id := format_id;
          sci_inspection_profile_id := inspection_profile_id;
          sci_semantic_fingerprint := semantic_fingerprint |}.

(** ** The manifest *)

(** The order of [str]: lexicographic on bytes. *)
Fixpoint lex_le (l k : list Z) : bool :=
  match l, k with
  | [], _ => true
  | _, [] => false
  | a :: l, b :: k => (a <? b) || ((a =? b) && lex_le l k)
  end.

Definition item_key (it : SemanticContentItem) : Z * string :=
  (sci_ordinal it, LogicalPath_as_str (sci_logical_path it)).

Definition key_le (a b : Z * string) : bool :=
  (a.1 <? b.1) || ((a.1 =? b.1) && lex_le (bytes a.2) (bytes b.2)).

Definition item_le (a b : SemanticContentItem) : Prop := key_le (item_key a) (item_key b) = true.

#[global] Instance item_le_dec a b : Decision (item_le a b).
Proof. unfold item_le. apply _. Defined.

(** [items.windows(2).any(same key)]. *)
Fixpoint adjacent_duplicate (items : list SemanticContentItem) : bool :=
  match items with
  | a :: ((b :: _) as rest) =>
      ((sci_ordinal a =? sci_ordinal b) && (sci_logical_path a == sci_logical_path b))
      || adjacent_duplicate rest
  | _ => false
  end.

(** [replace("\r\n", "\n")] and [replace('\r', "\n")]. *)
Fixpoint replace_crlf (s : string) : string :=
  match s with
  | String a ((String b r) as rest) =>
      if (byte_of_ascii a =? 13) && (byte_of_ascii b =? 10)
      then String (ascii_of_N 10) (replace_crlf r)
      else String a (replace_crlf rest)
  | _ => s
  end.

Fixpoint replace_cr (s : string) : string :=
  match s with
  | EmptyString => EmptyString
  | String a r => String (if byte_of_ascii a =? 13 then ascii_of_N 10 else a) (replace_cr r)
  end.

Record VersionManifest : Type := {
  vm_title : Title;
  vm_items : list SemanticContentItem
}.

Definition VersionManifest_new {U : Unicode} (title : Title) (items : list SemanticContentItem)
    : DResult VersionManifest :=
  if is_empty items || (u32_max <? len items) then Err InvalidContentManifest
  else
    let normalized := replace_cr (replace_crlf (Title_as_str title)) in
    let normalized := nfc normalized in
    let? title := Title_new (trimmed normalized) in
    if u32_max <? str_len (Title_as_str title) then Err InvalidContentManifest
    else
      let items := merge_sort item_le items in
      if adjacent_duplicate items then Err DuplicateContentItemKey
      else Ok {| vm_title := title; vm_items := items |}.

(** ** The identity digest *)

Definition IDENTITY_DOMAIN : list ascii :=
  String.list_ascii_of_string "document-version-identity-v0" ++ [ascii_of_N 0].

(** [u32::to_be_bytes]. *)
Definition u32_be (z : Z) : list ascii :=
  map (fun k => ascii_of_N (Z.to_N (Z.land (Z.shiftr z k) 255))) [24; 16; 8; 0].

(** [digest_field]: the length, then the bytes.  [None] is the panic of [expect]. *)
Definition digest_field (field : string) : option (list ascii) :=
  n ← u32_try_from (str_len field);
  Some (u32_be n ++ String.list_ascii_of_string field).

Definition item_bytes (it : SemanticContentItem) : option (list ascii) :=
  path ← digest_field (LogicalPath_as_str (sci_logical_path it));
  format ← digest_field (sci_format_id it);
  profile ← digest_field (sci_inspection_profile_id it);
  Some (path ++ u32_be (sci_ordinal it) ++ format ++ profile
        ++ vec_to_list (sci_semantic_fingerprint it)).

(** What the hasher is fed. *)
Definition identity_bytes (m : VersionManifest) : option (list ascii) :=
  title ← digest_field (Title_as_str (vm_title m));
  n ← u32_try_from (len (vm_items m));
  items ← mapM item_bytes (vm_items m);
  Some (IDENTITY_DOMAIN ++ title ++ u32_be n ++ concat items).

Definition identity_digest {D : Digest} (m : VersionManifest) : option (vec ascii 32) :=
  sha256 <$> identity_bytes m.

(** ** The order on items *)

Lemma lex_le_total l : forall k, lex_le l k = true \/ lex_le k l = true.
Proof.
  induction l as [|a l IH]; intros [|b k]; cbn; auto.
  destruct (Z.ltb_spec a b), (Z.ltb_spec b a), (Z.eqb_spec a b), (Z.eqb_spec b a);
    cbn; auto; lia.
Qed.

Lemma lex_le_trans l : forall k m, lex_le l k = true -> lex_le k m = true -> lex_le l m = true.
Proof.
  induction l as [|a l IH]; intros [|b k] [|c m]; cbn; try done.
  rewrite !orb_true_iff, !andb_true_iff, !Z.ltb_lt, !Z.eqb_eq.
  intros [?|[-> ?]] [?|[-> ?]]; [left; lia..|]. right. eauto.
Qed.

Lemma lex_le_antisym l : forall k, lex_le l k = true -> lex_le k l = true -> l = k.
Proof.
  induction l as [|a l IH]; intros [|b k]; cbn; try done.
  rewrite !orb_true_iff, !andb_true_iff, !Z.ltb_lt, !Z.eqb_eq.
  intros [?|[-> ?]] [?|[? ?]]; try lia. f_equal. auto.
Qed.

Lemma bytes_inj s t : bytes s = bytes t -> s = t.
Proof.
  revert t. induction s as [|a s IH]; intros [|b t]; cbn; try done.
  intros [= Hab Hst]. f_equal; [|auto].
  unfold byte_of_ascii in Hab. apply N2Z.inj in Hab.
  by rewrite <- (ascii_N_embedding a), <- (ascii_N_embedding b), Hab.
Qed.

Lemma key_le_antisym a b : key_le a b = true -> key_le b a = true -> a = b.
Proof.
  destruct a as [o p], b as [o' p']. unfold key_le. cbn.
  rewrite !orb_true_iff, !andb_true_iff, !Z.ltb_lt, !Z.eqb_eq.
  intros [?|[-> ?]] [?|[? ?]]; try lia. f_equal. by apply bytes_inj, lex_le_antisym.
Qed.

#[global] Instance item_le_total : Total item_le.
Proof.
  intros a b. unfold item_le, key_le. rewrite !orb_true_iff, !andb_true_iff, !Z.ltb_lt, !Z.eqb_eq.
  destruct (lex_le_total (bytes (item_key a).2) (bytes (item_key b).2)),
    (Z.lt_trichotomy (item_key a).1 (item_key b).1) as [|[|]]; auto.
Qed.

#[global] Instance item_le_trans : Transitive item_le.
Proof.
  intros a b c. unfold item_le, key_le. rewrite !orb_true_iff, !andb_true_iff, !Z.ltb_lt, !Z.eqb_eq.
  intros [?|[Hab ?]] [?|[Hbc ?]]; [left; lia..|]. right. split; [lia|].
  by eapply lex_le_trans.
Qed.

Lemma item_key_eq a b :
  ((sci_ordinal a =? sci_ordinal b) && (sci_logical_path a == sci_logical_path b))%rust = true
  <-> item_key a = item_key b.
Proof.
  unfold item_key. rewrite andb_true_iff, Z.eqb_eq, bool_decide_eq_true.
  destruct (sci_logical_path a), (sci_logical_path b). cbn. naive_solver congruence.
Qed.

(** On sorted items, no adjacent duplicate means no duplicate. *)
Lemma adjacent_duplicate_false items :
  StronglySorted item_le items ->
  adjacent_duplicate items = false <-> NoDup (map item_key items).
Proof.
  induction 1 as [|a items Hs IH Ha]; cbn; [split; [constructor|done]|].
  rewrite NoDup_cons. destruct items as [|b items]; [split; [intros _; split; [set_solver|constructor]|done]|].
  rewrite orb_false_iff, IH. rewrite <- not_true_iff_false, item_key_eq.
  inversion Hs as [|? ? Hs' Hb]; inversion Ha as [|? ? Hab Ha']; subst.
  split; [|intros [Hn ?]; split; [intros Heq; apply Hn; rewrite Heq; left|done]].
  intros [Hne Hn]. split; [|done].
  intros [Heq|(c & Heq & Hc)%list_elem_of_fmap]%elem_of_cons; [done|].
  apply Hne, key_le_antisym; [done|]. rewrite Heq.
  rewrite Forall_forall in Hb. by apply Hb.
Qed.

Lemma sort_canonical items items' :
  Permutation items items' -> NoDup (map item_key items) ->
  merge_sort item_le items = merge_sort item_le items'.
Proof.
  intros Hp Hn.
  assert (Permutation (merge_sort item_le items) (merge_sort item_le items')) as Hpp.
  { by rewrite !merge_sort_Permutation. }
  apply (StronglySorted_unique_strong item_le);
    [|by apply (StronglySorted_merge_sort _)..|done].
  intros x y Hx Hy H1 H2. rewrite merge_sort_Permutation in Hx. rewrite merge_sort_Permutation, <- Hp in Hy.
  apply (NoDup_key item_key items); try done. by apply key_le_antisym.
Qed.
Local Open Scope Z_scope.

(** ** Confinement *)

Section ManifestTheorems.
Context {U : Unicode}.

(** A storage key is accepted only if resolving it component by component, with both
    kinds of slashes as separators, goes down from any directory by exactly its components,
    none of which contains a separator, and never up; the same holds of a logical path after
    normalization, which moreover contains no backslash and no control character. *)
Theorem accepted_paths_confined value root :
  (forall key, StorageKey_new value = Ok key ->
     StorageKey_as_str key = value
     /\ resolve root (split_at_any [47; 92] value) = Some (root ++ split_at_any [47; 92] value)
     /\ Forall (fun c => c <> ".." /\ 47 ∉ bytes c /\ 92 ∉ bytes c)
          (split_at_any [47; 92] value))
  /\ (forall path, LogicalPath_new value = Ok path ->
     let components := split_at_any [47] (LogicalPath_as_str path) in
     LogicalPath_as_str path = nfc value
     /\ resolve root components = Some (root ++ components)
     /\ Forall (fun c => c <> ".." /\ 47 ∉ bytes c) components
     /\ 92 ∉ bytes (LogicalPath_as_str path)
     /\ forall c, c ∈ chars (LogicalPath_as_str path) -> is_control c = false).
Proof.
  assert (forall l c, existsb ambiguous l = false -> c ∈ l -> c <> "..") as Hup.
  { intros l c H Hin ->. rewrite existsb_false in H. by specialize (H _ Hin). }
  split.
  - intros key H. unfold StorageKey_new in H. inv_ok. subst. cbn.
    split_and!; [done|by apply resolve_plain|].
    apply Forall_forall. intros c Hc.
    pose proof (proj1 (Forall_forall _ _) (split_at_any_not_sep [47; 92] value) c Hc) as Hn.
    split_and!; [by eapply Hup|intros Hin; by apply (Hn _ Hin); set_solver..].
  - intros path H. unfold LogicalPath_new in H. inv_ok. subst. cbn. simp_bool.
    split_and!; [done|by apply resolve_plain| | |].
    + apply Forall_forall. intros c Hc.
      pose proof (proj1 (Forall_forall _ _) (split_at_any_not_sep [47] (nfc value)) c Hc) as Hn.
      split; [by eapply Hup|]. intros Hin. apply (Hn _ Hin). set_solver.
    + by unfold contains_char, contains in *; simp_bool.
    + by apply existsb_false.
Qed.

(** ** The manifest is canonical *)

(** A manifest depends on its items as a set: the same items in another order give
    the same result, the same manifest or the same error; a manifest that is built lists the
    given items, sorted, with distinct keys. *)
Theorem manifest_canonical title items items' :
  Permutation items items' ->
  VersionManifest_new title items = VersionManifest_new title items'
  /\ forall m, VersionManifest_new title items = Ok m ->
       Permutation (vm_items m) items' /\ StronglySorted item_le (vm_items m)
       /\ NoDup (map item_key (vm_items m)).
Proof.
  intros Hp.
  assert (forall l, StronglySorted item_le (merge_sort item_le l)) as Hs.
  { intros l. by apply (StronglySorted_merge_sort _). }
  assert (forall l, adjacent_duplicate (merge_sort item_le l) = false <-> NoDup (map item_key l))
    as Hd.
  { intros l. rewrite adjacent_duplicate_false by done. by rewrite merge_sort_Permutation. }
  split.
  - unfold VersionManifest_new, len. rewrite (Permutation_length Hp).
    replace (is_empty items') with (is_empty items)
      by (destruct items, items'; try done; by apply Permutation_length in Hp).
    destruct (_ || _); [done|]. cbv zeta.
    match goal with |- context [Title_new ?x] => destruct (Title_new x) as [t|e] end; [|done].
    cbn [rbind]. destruct (u32_max <? _); [done|].
    destruct (adjacent_duplicate (merge_sort item_le items)) eqn:E.
    + destruct (adjacent_duplicate (merge_sort item_le items')) eqn:E'; [done|].
      apply Hd in E'. rewrite <- Hp in E'. apply Hd in E'. congruence.
    + pose proof (proj1 (Hd _) E) as Hn. rewrite (sort_canonical _ _ Hp Hn) in E |- *.
      by rewrite E.
  - intros m H. unfold VersionManifest_new in H. cbv zeta in H. inv_ok. subst. cbn.
    split_and!; [by rewrite merge_sort_Permutation|done|by apply adjacent_duplicate_false].
Qed.

(** ** The encoding *)

Definition built_item (it : SemanticContentItem) : Prop :=
  exists value path ordinal format profile fingerprint,
    LogicalPath_new value = Ok path /\ in_u32 ordinal
    /\ SemanticContentItem_new path ordinal format profile fingerprint = Ok it.

Definition built (m : VersionManifest) : Prop :=
  exists title items, Forall built_item items /\ VersionManifest_new title items = Ok m.

Lemma ascii_of_byte_inj a b :
  0 <= a < 256 -> 0 <= b < 256 ->
  ascii_of_N (Z.to_N a) = ascii_of_N (Z.to_N b) -> a = b.
Proof.
  intros Ha Hb H. apply (f_equal N_of_ascii) in H.
  rewrite !N_ascii_embedding in H by lia. lia.
Qed.

Lemma u32_be_inj a b : in_u32 a -> in_u32 b -> u32_be a = u32_be b -> a = b.
Proof.
  unfold in_u32, u32_max, u32_be. cbn [map]. intros Ha Hb H.
  apply (inj2 cons) in H as [H1 H]. apply (inj2 cons) in H as [H2 H].
  apply (inj2 cons) in H as [H3 H]. apply (inj2 cons) in H as [H4 _].
  assert (forall z, 0 <= z mod 256 < 256) as Hm by (intros; apply Z.mod_pos_bound; lia).
  change 255 with (Z.ones 8) in *. rewrite !Z.land_ones, !Z.shiftr_div_pow2 in * by lia.
  change (2 ^ 8) with 256 in *. change (2 ^ 24) with 16777216 in *.
  change (2 ^ 16) with 65536 in *. change (2 ^ 0) with 1 in *.
  apply ascii_of_byte_inj in H1, H2, H3, H4; auto.
  rewrite !Z.div_1_r in *. Z.to_euclidean_division_equations. lia.
Qed.

Lemma u32_be_length a : length (u32_be a) = 4%nat.
Proof. done. Qed.

#[local] Opaque u32_be.

Lemma u32_be_app_inj a b (x y : list ascii) :
  in_u32 a -> in_u32 b -> u32_be a ++ x = u32_be b ++ y -> a = b /\ x = y.
Proof.
  intros Ha Hb H. apply app_inj_1 in H as [H ->]; [|by rewrite !u32_be_length].
  by apply u32_be_inj in H.
Qed.

Lemma list_ascii_length s : length (String.list_ascii_of_string s) = String.length s.
Proof. induction s; cbn; congruence. Qed.

Lemma list_ascii_inj s t :
  String.list_ascii_of_string s = String.list_ascii_of_string t -> s = t.
Proof.
  intros H. rewrite <- (String.string_of_list_ascii_of_string s), H.
  apply String.string_of_list_ascii_of_string.
Qed.

Lemma digest_field_Some s b :
  digest_field s = Some b <->
  in_u32 (str_len s) /\ b = u32_be (str_len s) ++ String.list_ascii_of_string s.
Proof.
  unfold digest_field, u32_try_from, in_u32. rewrite bind_Some. split.
  - intros (n & H & [= <-]). case_match eqn:E; [|done]. simp_bool. by simplify_eq.
  - intros [H ->]. exists (str_len s). split; [|done].
    destruct (Z.leb_spec 0 (str_len s)), (Z.leb_spec (str_len s) u32_max); cbn; try done; lia.
Qed.

Lemma digest_field_is_Some s : in_u32 (str_len s) -> is_Some (digest_field s).
Proof. intros H. eexists. by apply digest_field_Some. Qed.

Lemma digest_field_inj s t a b x y :
  digest_field s = Some a -> digest_field t = Some b -> a ++ x = b ++ y -> s = t /\ x = y.
Proof.
  intros [Hs ->]%digest_field_Some [Ht ->]%digest_field_Some. rewrite <- !app_assoc.
  intros [Hl H]%u32_be_app_inj; [|done..].
  apply app_inj_1 in H as [H ->]; [by apply list_ascii_inj in H|].
  rewrite !list_ascii_length. unfold str_len in Hl. lia.
Qed.

Lemma item_bytes_inj i j a b x y :
  in_u32 (sci_ordinal i) -> in_u32 (sci_ordinal j) ->
  item_bytes i = Some a -> item_bytes j = Some b -> a ++ x = b ++ y -> i = j /\ x = y.
Proof.
  intros Hi Hj Ha Hb H. unfold item_bytes in Ha, Hb.
  apply bind_Some in Ha as (p & Hp & Ha), Hb as (p' & Hp' & Hb).
  apply bind_Some in Ha as (f & Hf & Ha), Hb as (f' & Hf' & Hb).
  apply bind_Some in Ha as (r & Hr & [= <-]), Hb as (r' & Hr' & [= <-]).
  rewrite <- !app_assoc in H.
  destruct (digest_field_inj _ _ _ _ _ _ Hp Hp' H) as [Ep H1].
  apply u32_be_app_inj in H1 as [Eo H1]; [|done..].
  destruct (digest_field_inj _ _ _ _ _ _ Hf Hf' H1) as [Ef H2].
  destruct (digest_field_inj _ _ _ _ _ _ Hr Hr' H2) as [Er H3].
  apply app_inj_1 in H3 as [H3 ->]; [|by rewrite !length_vec_to_list].
  apply vec_to_list_inj2 in H3. split; [|done].
  destruct i as [[]], j as [[]]. cbn in *. by subst.
Qed.

Lemma items_bytes_inj ks js a b x y :
  Forall (fun i => in_u32 (sci_ordinal i)) ks -> Forall (fun i => in_u32 (sci_ordinal i)) js ->
  length ks = length js -> mapM item_bytes ks = Some a -> mapM item_bytes js = Some b ->
  concat a ++ x = concat b ++ y -> ks = js /\ x = y.
Proof.
  intros Hi. revert js a b. induction Hi as [|i ks Hi His IH]; intros [|j js] a b Hj Hl Ha Hb H;
    cbn in *; try done; simplify_eq; [done|].
  apply bind_Some in Ha as (c & Hc & Ha), Hb as (d & Hd & Hb).
  apply bind_Some in Ha as (cs & Hcs & [= <-]), Hb as (ds & Hds & [= <-]).
  inversion Hj as [|? ? Hj1 Hj2]; subst. cbn in H. rewrite <- !app_assoc in H.
  destruct (item_bytes_inj _ _ _ _ _ _ Hi Hj1 Hc Hd H) as [-> H'].
  by destruct (IH js cs ds) as [-> ->].
Qed.

(** ** What a built manifest satisfies *)

Lemma valid_identifier_len s : valid_identifier s = true -> in_u32 (str_len s).
Proof. unfold valid_identifier, in_u32, str_len. intros H. simp_bool. lia. Qed.

Lemma built_item_bytes it :
  built_item it -> in_u32 (sci_ordinal it) /\ is_Some (item_bytes it).
Proof.
  intros (value & path & ordinal & format & profile & fp & Hp & Ho & H).
  unfold LogicalPath_new in Hp. cbv zeta in Hp. inv_ok. simp_bool.
  unfold SemanticContentItem_new in H. inv_ok. simp_bool. subst. cbn. split; [done|].
  repeat match goal with H : valid_identifier _ = true |- _ => apply valid_identifier_len in H end.
  unfold item_bytes. cbn.
  destruct (digest_field_is_Some (nfc value)) as [b1 ->]; [unfold in_u32, str_len in *; lia|].
  destruct (digest_field_is_Some format) as [b2 ->]; [done|].
  destruct (digest_field_is_Some profile) as [b3 ->]; [done|].
  cbn. eauto.
Qed.

Lemma built_bytes m :
  built m ->
  Forall (fun i => in_u32 (sci_ordinal i)) (vm_items m) /\ in_u32 (len (vm_items m))
  /\ is_Some (identity_bytes m).
Proof.
  intros (title & items & Hi & H). unfold VersionManifest_new in H. cbv zeta in H. inv_ok.
  simp_bool. subst. unfold identity_bytes. cbn.
  assert (Forall built_item (merge_sort item_le items)) as Hs by (by rewrite merge_sort_Permutation).
  assert (in_u32 (len (merge_sort item_le items))) as Hn.
  { unfold len. rewrite merge_sort_Permutation. unfold in_u32, len in *. lia. }
  split_and!; [|done|].
  - eapply Forall_impl; [exact Hs|]. by intros it [? ?]%built_item_bytes.
  - destruct (digest_field_is_Some (Title_as_str a)) as [b ->];
      [unfold in_u32, str_len in *; lia|].
    unfold u32_try_from. unfold in_u32 in Hn.
    rewrite (proj2 (Z.leb_le _ _)) by lia. rewrite (proj2 (Z.leb_le _ _)) by lia. cbn.
    assert (is_Some (mapM item_bytes (merge_sort item_le items))) as [c ->]; [|cbn; eauto].
    apply mapM_is_Some. eapply Forall_impl; [exact Hs|]. by intros it [? ?]%built_item_bytes.
Qed.

Lemma identity_bytes_inj m m' b :
  built m -> built m' -> identity_bytes m = Some b -> identity_bytes m' = Some b -> m = m'.
Proof.
  intros (Ho & Hn & _)%built_bytes (Ho' & Hn' & _)%built_bytes H H'.
  unfold identity_bytes in H, H'.
  apply bind_Some in H as (t & Ht & H), H' as (t' & Ht' & H').
  apply bind_Some in H as (n & Hc & H), H' as (n' & Hc' & H').
  apply bind_Some in H as (l & Hl & [= <-]), H' as (l' & Hl' & [= Heq]).
  destruct (digest_field_inj _ _ _ _ _ _ Ht' Ht Heq) as [Et H].
  assert (forall k z, u32_try_from k = Some z -> z = k) as Hu.
  { unfold u32_try_from. intros k z E. case_match; by simplify_eq. }
  apply Hu in Hc as ->, Hc' as ->.
  apply u32_be_app_inj in H as [Elen H]; [|done..].
  rewrite <- (app_nil_r (concat l)), <- (app_nil_r (concat l')) in H.
  assert (length (vm_items m') = length (vm_items m)) as Elen' by (unfold len in Elen; lia).
  destruct (items_bytes_inj _ _ _ _ _ _ Ho' Ho Elen' Hl' Hl H) as [Ei _].
  destruct m as [[]], m' as [[]]. cbn in *. by subst.
Qed.

(** C14: the identity digest of a manifest that the constructors built is defined (no
    length check panics), and two such manifests with the same digest are equal, title and items,
    unless their encodings are a collision of the hash function. *)
Theorem manifest_identity_separates {D : Digest} m m' :
  built m -> built m' ->
  exists b b', identity_bytes m = Some b /\ identity_bytes m' = Some b'
    /\ (m = m' <-> b = b')
    /\ (identity_digest m = identity_digest m' -> m = m' \/ b <> b' /\ sha256 b = sha256 b').
Proof.
  intros Hm Hm'. destruct (built_bytes m Hm) as (_ & _ & [b Hb]).
  destruct (built_bytes m' Hm') as (_ & _ & [b' Hb']).
  assert (m = m' <-> b = b') as Heq.
  { split; [intros <-; congruence|intros <-; by apply (identity_bytes_inj _ _ b)]. }
  exists b, b'. split_and!; [done..|]. unfold identity_digest. rewrite Hb, Hb'.
  intros [= Hd]. destruct (decide (b = b')); [left; by apply Heq|by right].
Qed.
End ManifestTheorems.
