(* ===== verification/Revision.v ===== *)
(** * Revision: numbered document revisions and their metadata snapshots (revision.rs). *)
From stdpp Require Import base gmap sets list strings.
From Stdlib Require Import ZArith Lia.
From S2P Require Import Prelude Text DocumentValues.

Local Open Scope Z_scope.

Record DocumentRevisionNumber : Type := {
  drn_major_no : Z;
  drn_minor_no : Z
}.

Definition DocumentRevisionNumber_new (major_no minor_no : Z) : DResult DocumentRevisionNumber :=
  if (major_no <? 1) || (minor_no <? 0) then Err InvalidDocumentRevisionNumber
  else Ok {| drn_major_no := major_no; drn_minor_no := minor_no |}.

Inductive DocumentRevisionMetadataStatus : Type := Complete | UnavailableLegacy.
#[global] Instance DocumentRevisionMetadataStatus_eq_dec :
  EqDecision DocumentRevisionMetadataStatus.
Proof. solve_decision. Defined.

Definition DocumentRevisionMetadataStatus_as_str (s : DocumentRevisionMetadataStatus) : string :=
  match s with
  | Complete => "complete"
  | UnavailableLegacy => "unavailable_legacy"
  end.

Inductive DocumentRevisionSourceKind : Type :=
| InitialPublication
| ContentPublication
| MetadataRevision
| WithdrawFallback
| LegacyBackfill.
#[global] Instance DocumentRevisionSourceKind_eq_dec : EqDecision DocumentRevisionSourceKind.
Proof. solve_decision. Defined.

Definition DocumentRevisionSourceKind_as_str (k : DocumentRevisionSourceKind) : string :=
  match k with
  | InitialPublication => "initialPublication"
  | ContentPublication => "contentPublication"
  | MetadataRevision => "metadataRevision"
  | WithdrawFallback => "withdrawFallback"
  | LegacyBackfill => "legacyBackfill"
  end.

Section Revision.
Context {J : Json}.

(** ** Metadata snapshots *)

Record DocumentMetadataSnapshot : Type := {
  dms_document_type : option string;
  dms_owning_department : option string;
  dms_category : option string;
  dms_extensions : option JsonMap
}.

(** The closure [optional_string]. *)
Definition optional_string (values : JsonMap) (key : string) : DResult (option string) :=
  match map_get values key with
  | None => Ok None
  | Some value =>
      match view value with
      | View_String value => Ok (Some value)
      | _ => Err InvalidDocumentMetadataSnapshot
      end
  end.

Definition DocumentMetadataSnapshot_from_metadata (metadata : Metadata J)
    : DResult DocumentMetadataSnapshot :=
  let values := Metadata_as_map metadata in
  let? extensions :=
    match map_get values "extensions" with
    | None => Ok None
    | Some value =>
        match view value with
        | View_Object value => Ok (Some value)
        | _ => Err InvalidDocumentMetadataSnapshot
        end
    end in
  let? document_type := optional_string values "document_type" in
  let? owning_department := optional_string values "owning_department" in
  let? category := optional_string values "category" in
  Ok {| dms_document_type := document_type;
        dms_owning_department := owning_department;
        dms_category := category;
        dms_extensions := extensions |}.

(** [json!] of an optional string: the string, or null. *)
Definition json_option (o : option string) : JsonValue :=
  match o with Some s => Value_String s | None => Value_Null end.

Definition DocumentMetadataSnapshot_as_json (s : DocumentMetadataSnapshot) : JsonValue :=
  let extensions := unwrap_or Value_Null (option_map Value_Object (dms_extensions s)) in
  Value_Object
    (map_of [("document_type", json_option (dms_document_type s));
             ("owning_department", json_option (dms_owning_department s));
             ("category", json_option (dms_category s));
             ("extensions", extensions)]).

(** ** Revisions *)

Record DocumentRevision : Type := {
  dr_revision_id : DocumentRevisionId;
  dr_document_id : DocumentId;
  dr_document_version_id : DocumentVersionId;
  dr_number : DocumentRevisionNumber;
  dr_metadata_snapshot : option DocumentMetadataSnapshot;
  dr_metadata_snapshot_status : DocumentRevisionMetadataStatus;
  dr_source_kind : DocumentRevisionSourceKind;
  dr_operation_id : option Uuid;
  dr_created_at : Instant;
  dr_actor : option PrincipalRef;
  dr_reason : option string
}.

Definition DocumentRevision_new (revision_id : DocumentRevisionId) (document_id : DocumentId)
    (document_version_id : DocumentVersionId) (number : DocumentRevisionNumber)
    (metadata_snapshot : option DocumentMetadataSnapshot)
    (metadata_snapshot_status : DocumentRevisionMetadataStatus)
    (source_kind : DocumentRevisionSourceKind) (operation_id : option Uuid)
    (created_at : Instant) (actor : option PrincipalRef) (reason : option string)
    : DResult DocumentRevision :=
  let is_legacy := source_kind == LegacyBackfill in
  let snapshot_valid :=
    match metadata_snapshot_status, is_some metadata_snapshot with
    | Complete, true | UnavailableLegacy, false => true
    | _, _ => false
    end in
  let provenance_valid :=
    if is_legacy then is_none operation_id && is_none actor && is_none reason
    else is_some operation_id && is_some actor in
  if negb snapshot_valid
     || negb provenance_valid
     || ((metadata_snapshot_status == UnavailableLegacy) && negb is_legacy)
  then Err InvalidDocumentMetadataSnapshot
  else
    Ok {| dr_revision_id := revision_id;
          dr_document_id := document_id;
          dr_document_version_id := document_version_id;
          dr_number := number;
          dr_metadata_snapshot := metadata_snapshot;
          dr_metadata_snapshot_status := metadata_snapshot_status;
          dr_source_kind := source_kind;
          dr_operation_id := operation_id;
          dr_created_at := created_at;
          dr_actor := actor;
          dr_reason := reason |}.

(** ** The snapshot is faithful *)

Definition T5_KEYS : list string :=
  ["document_type"; "owning_department"; "category"; "extensions"].

Lemma optional_string_Ok {L : JsonLaws} values key o :
  optional_string values key = Ok o ->
  json_option o = unwrap_or Value_Null (map_get values key).
Proof.
  unfold optional_string. destruct (map_get values key) as [v|]; [|by intros [= <-]].
  destruct (view v) eqn:E; try done. intros [= <-]. by apply view_String_inv in E as ->.
Qed.

(** The JSON form of a snapshot is an object with exactly the four snapshot keys,
    holding what the metadata holds under each, and an explicit null where it holds nothing. *)
Theorem snapshot_json_faithful {L : JsonLaws} metadata s :
  DocumentMetadataSnapshot_from_metadata metadata = Ok s ->
  exists m, DocumentMetadataSnapshot_as_json s = Value_Object m
    /\ (forall key, key ∈ T5_KEYS ->
          map_get m key = Some (unwrap_or Value_Null (map_get (Metadata_as_map metadata) key)))
    /\ (forall key, key ∉ T5_KEYS -> map_get m key = None).
Proof.
  unfold DocumentMetadataSnapshot_from_metadata. cbv zeta. intros H. inv_ok. simplify_eq.
  repeat match goal with H : optional_string _ _ = Ok _ |- _ =>
    apply optional_string_Ok in H end.
  assert (unwrap_or Value_Null (option_map Value_Object a)
          = unwrap_or Value_Null (map_get (Metadata_as_map metadata) "extensions")) as Hx.
  { destruct (map_get _ "extensions") as [v|]; [|by simplify_eq].
    destruct (view v) eqn:E; simplify_eq. by apply view_Object_inv in E as ->. }
  eexists. split; [done|].
  assert (forall l k, NoDup (map fst l) -> map_get (map_of l) k
            = option_map snd (find (fun e : string * JsonValue => fst e == k) l)) as Hget
    by apply get_map_of.
  split.
  - intros key Hk. rewrite Hget by (apply (bool_decide_unpack _); by vm_compute).
    unfold T5_KEYS in Hk. rewrite !elem_of_cons, elem_of_nil in Hk.
    destruct Hk as [->|[->|[->|[->|[]]]]]; cbn -[bool_decide].
    all: repeat (case_bool_decide; [|try done]); try done; cbn; congruence.
  - intros key Hk. rewrite Hget by (apply (bool_decide_unpack _); by vm_compute).
    unfold T5_KEYS in Hk. rewrite !not_elem_of_cons in Hk. destruct Hk as (? & ? & ? & ? & _).
    cbn. by rewrite !bool_decide_eq_false_2 by done.
Qed.

End Revision.
