(* ===== verification/DocumentScenario.v ===== *)
(** * DocumentScenario: concrete library functions, a concrete document run, and the document
    theorems applied to them

    The JSON values are trees of strings and objects, normalization is the identity and the
    digest keeps the first 32 bytes: functions that satisfy what the theorems assume.  The run
    creates a document, publishes it, publishes a second version and withdraws it again. *)
From stdpp Require Import base gmap sets list strings relations sorting vector.
From Stdlib Require Import ZArith Lia Ascii.
From S2P Require Import Prelude Text DocumentValues AccessPolicy Lifecycle LifecycleTheorems.
From S2P Require Import Manifest Revision.

Local Open Scope Z_scope.

Module Tree.
Inductive value : Type :=
| Null
| Text (s : string)
| Object (entries : list (string * value))
| Number (z : Z).

Definition look (v : value) : ValueView (list (string * value)) :=
  match v with
  | Null => View_Null
  | Text s => View_String s
  | Object entries => View_Object entries
  | Number _ => View_Other
  end.

#[global] Instance json : Json := {|
  JsonMap := list (string * value);
  JsonValue := value;
  map_get := fun entries k => option_map snd (find (fun e => fst e == k) entries);
  view := look;
  Value_Null := Null;
  Value_String := Text;
  Value_Object := Object;
  map_of := fun entries => entries
|}.

#[global] Instance laws : JsonLaws.
Proof. split; try done; intros [] ?; cbn; congruence. Qed.

#[global] Instance unicode : Unicode := {| nfc := fun s => s |}.

Definition first32 (l : list ascii) : vec ascii 32 :=
  fun_to_vec (fun i => default (ascii_of_N 0) (l !! (fin_to_nat i))).

#[global] Instance digest : Digest := {| sha256 := first32 |}.
End Tree.

Module DocRun.
Definition document_id : DocumentId := DocumentId_from_uuid 1.
Definition first_id : DocumentVersionId := DocumentVersionId_from_uuid 2.
Definition second_id : DocumentVersionId := DocumentVersionId_from_uuid 3.

Definition author : PrincipalRef :=
  {| pr_identity_provider := "windows"; pr_principal_id := "principal-1" |}.

Definition stored_file : StoredFileDescriptor :=
  {| sfd_storage_key := {| StorageKey_as_str := "objects/ab/file-id" |};
     sfd_content_hash := {| ContentHash_as_bytes := Tree.first32 [] |};
     sfd_size_bytes := {| FileSize_get := 3 |};
     sfd_media_type := {| MediaType_as_str := "application/pdf" |} |}.

Definition metadata : Metadata Tree.json :=
  {| Metadata_as_map :=
       [("document_type", Tree.Text "policy"); ("other", Tree.Number 7)] |}.

Definition input : CreateInitialDocument :=
  {| cid_document_id := document_id; cid_version_id := first_id;
     cid_file_id := FileId_from_uuid 4; cid_folder_id := FolderId_from_uuid 5;
     cid_title := {| Title_as_str := "Policy" |};
     cid_document_metadata := metadata; cid_version_metadata := metadata;
     cid_principal := author; cid_stored_file := stored_file;
     cid_original_filename := "policy.pdf"; cid_created_at := 100 |}.

Definition second : CreateWorkingVersion :=
  {| cwv_document_version_id := second_id; cwv_document_id := document_id;
     cwv_version_no := {| VersionNo_get := 2 |}; cwv_base_document_version_id := first_id;
     cwv_title := {| Title_as_str := "Policy" |}; cwv_created_by := author;
     cwv_metadata := metadata; cwv_created_at := 300 |}.

(** The result of an operation that succeeds. *)
Definition get_ok {A E} (r : Result A E) : is_ok r = true -> A :=
  match r with
  | Ok a => fun _ => a
  | Err _ => fun H => match Bool.diff_false_true H with end
  end.

Definition aggregate : InitialDocument := get_ok (InitialDocument_create input) eq_refl.
Definition document : Document := ind_document aggregate.
Definition first : DocumentVersion := ind_version aggregate.

Definition publication := publish_initial_version document first 200.
Definition published : store := (publication.1.1, put_version publication.1.2 [first]).

Definition draft : DocumentVersion := get_ok (new_working second) eq_refl.
Definition drafted : store := (published.1, published.2 ++ [draft]).

Definition replacement := publish_next_version drafted.1 draft 400.
Definition replaced : store := (replacement.1.1, put_version replacement.1.2 drafted.2).

Definition withdrawal :=
  withdraw_version replaced.1 replacement.1.2 (Some publication.1.2) 500.
Definition withdrawn : store := (withdrawal.1.1, put_version withdrawal.1.2 replaced.2).

(** The run commits every step: the second version is withdrawn and the first is current. *)
Example document_run :
  doc_current_version_id withdrawn.1 = Some first_id
  /\ doc_revision withdrawn.1 = 3
  /\ map dv_lifecycle_state withdrawn.2 = [Published; Withdrawn].
Proof. by vm_compute. Qed.

Lemma reachable_published : reachable_store published.
Proof.
  exists (document, [first]). split; [by exists input, aggregate|]. apply rtc_once.
  apply (step_publish_initial _ _ first 200 _ _ (get_ok publication.2 eq_refl)); [left|].
  by vm_compute.
Qed.

Lemma published_steps : rtc doc_step published withdrawn.
Proof.
  apply (rtc_l _ _ drafted).
  { apply (step_new_working _ _ publication.1.2 second); try by vm_compute.
    - vm_compute. left.
    - vm_compute. intros H. apply list_elem_of_singleton in H. done. }
  apply (rtc_l _ _ replaced).
  { apply (step_publish_next _ _ draft 400 _ _ (get_ok replacement.2 eq_refl)); [|by vm_compute].
    apply elem_of_app. right. left. }
  apply rtc_once.
  apply (step_withdraw _ _ replacement.1.2 (Some publication.1.2) 500 _ _
           (get_ok withdrawal.2 eq_refl)); [..|by vm_compute].
  - vm_compute. right. left.
  - intros b [= <-]. vm_compute. left.
Qed.

Lemma reachable_withdrawn : reachable_store withdrawn.
Proof.
  destruct reachable_published as (s0 & Hc & H). exists s0. split; [done|].
  etrans; [exact H|apply published_steps].
Qed.
End DocRun.

Module DocWitnesses.
Import DocRun.

Lemma document_sound_witness :
  reachable_store withdrawn
  /\ exists v, v ∈ withdrawn.2 /\ dv_document_version_id v = first_id
       /\ dv_lifecycle_state v = Published.
Proof.
  split; [exact reachable_withdrawn|].
  destruct (reachable_document_sound withdrawn.1 withdrawn.2 reachable_withdrawn)
    as (_ & _ & H & _).
  apply H. by vm_compute.
Defined.

Lemma store_restores_witness :
  reachable_store withdrawn
  /\ Document_restore (persisted_document withdrawn.1) = Ok withdrawn.1.
Proof.
  split; [exact reachable_withdrawn|].
  exact (proj1 (reachable_store_restores withdrawn.1 withdrawn.2 reachable_withdrawn)).
Defined.

Lemma versions_immutable_witness :
  publication.1.2 ∈ published.2 /\ dv_lifecycle_state publication.1.2 = Published
  /\ exists v', v' ∈ withdrawn.2 /\ dv_document_version_id v' = first_id
       /\ (v' = publication.1.2 \/ exists t, v' = mark_withdrawn t publication.1.2).
Proof.
  assert (publication.1.2 ∈ published.2) as Hin by (vm_compute; left).
  split; [exact Hin|]. split; [by vm_compute|].
  destruct (published_versions_immutable published.1 published.2 withdrawn.1 withdrawn.2
              publication.1.2 reachable_published published_steps Hin) as [H _].
  apply H. by vm_compute.
Defined.

(** ** Manifests *)

Definition path (s : string) : LogicalPath := {| LogicalPath_as_str := s |}.

Definition content (p : string) (ordinal : Z) : SemanticContentItem :=
  {| sci_logical_path := path p; sci_ordinal := ordinal; sci_format_id := "pdf";
     sci_inspection_profile_id := "pdf-v0"; sci_semantic_fingerprint := Tree.first32 [] |}.

Definition policy_title : Title := {| Title_as_str := "Policy" |}.

Definition manifest_of (items : list SemanticContentItem) : VersionManifest :=
  {| vm_title := policy_title; vm_items := items |}.

Definition main_items : list SemanticContentItem := [content "body.pdf" 0; content "a/b.pdf" 1].

Lemma built_content p ordinal :
  LogicalPath_new p = Ok (path p) -> in_u32 ordinal -> built_item (content p ordinal).
Proof. intros Hp Ho. by exists p, (path p), ordinal, "pdf", "pdf-v0", (Tree.first32 []). Qed.

Lemma built_main : built (manifest_of main_items).
Proof.
  exists policy_title, main_items. split; [|by vm_compute].
  repeat constructor; apply built_content; by vm_compute.
Qed.

Lemma built_body : built (manifest_of [content "body.pdf" 0]).
Proof.
  exists policy_title, [content "body.pdf" 0]. split; [|by vm_compute].
  repeat constructor; apply built_content; by vm_compute.
Qed.

Lemma identity_separates_witness :
  exists b b', identity_bytes (manifest_of main_items) = Some b
    /\ identity_bytes (manifest_of [content "body.pdf" 0]) = Some b' /\ b <> b'.
Proof.
  destruct (manifest_identity_separates (manifest_of main_items)
              (manifest_of [content "body.pdf" 0]) built_main built_body)
    as (b & b' & Hb & Hb' & Heq & _).
  exists b, b'. split; [exact Hb|]. split; [exact Hb'|]. intros H%Heq. discriminate H.
Defined.

Lemma canonical_witness :
  VersionManifest_new policy_title (reverse main_items) = Ok (manifest_of main_items).
Proof.
  rewrite <- (proj1 (manifest_canonical policy_title main_items (reverse main_items)
                       (symmetry (reverse_Permutation main_items)))).
  by vm_compute.
Defined.

Lemma paths_confined_witness :
  resolve ["srv"] (split_at_any [47; 92] "objects/ab") = Some ["srv"; "objects"; "ab"]
  /\ StorageKey_new "objects/../../etc" = Err InvalidStorageKey.
Proof.
  split; [|by vm_compute].
  destruct (accepted_paths_confined "objects/ab" ["srv"]) as [H _].
  exact (proj1 (proj2 (H {| StorageKey_as_str := "objects/ab" |} eq_refl))).
Defined.

(** ** Snapshots *)

Lemma snapshot_faithful_witness :
  exists s m, DocumentMetadataSnapshot_from_metadata metadata = Ok s
    /\ DocumentMetadataSnapshot_as_json s = Tree.Object m
    /\ map_get m "document_type" = Some (Tree.Text "policy")
    /\ map_get m "category" = Some Tree.Null
    /\ map_get m "other" = None.
Proof.
  pose (s := get_ok (DocumentMetadataSnapshot_from_metadata metadata) eq_refl).
  destruct (snapshot_json_faithful metadata s eq_refl) as (m & Hm & Hin & Hout).
  exists s, m. split; [reflexivity|]. split; [exact Hm|].
  split; [rewrite Hin; [reflexivity|left]|].
  split; [rewrite Hin; [reflexivity|right; right; left]|].
  apply Hout. apply (bool_decide_unpack _). by vm_compute.
Defined.
End DocWitnesses.
