(* ===== verification/Inspection.v ===== *)
(** * Inspection: document-semantic-inspection-core

    The evidence a sandboxed worker reports about one file (evidence.rs, fingerprint.rs,
    protocol.rs), the canonical order of its unordered collections (canonical.rs) and the
    capability rule for moving authority between formats (cross_format.rs).  serde_json is not
    part of the repository: parsing is a parameter. *)
From stdpp Require Import base gmap sets list strings vector sorting.
From Stdlib Require Import ZArith Lia Ascii Sorting.Sorted.
From S2P Require Import Prelude Text Ordered Manifest.
Local Open Scope Z_scope.

(** [[u8; 32]], ordered byte by byte. *)
Abbreviation Bytes32 := (vec ascii 32).

#[global] Instance bytes32_ord : Ord Bytes32 := fun a b =>
  cmp (map byte_of_ascii (vec_to_list a)) (map byte_of_ascii (vec_to_list b)).

(** ** format.rs and profile.rs *)

Inductive FormatId : Type := Docx | Xlsx | Xlsm | Pptx | Pdf | Txt | Csv | Html.
#[global] Instance FormatId_eq_dec : EqDecision FormatId.
Proof. solve_decision. Defined.

Definition REQUIRED_V0 : list FormatId := [Docx; Xlsx; Xlsm; Pptx; Pdf; Txt; Csv; Html].

(** The derived order: the position of the variant. *)
Definition FormatId_rank (f : FormatId) : Z :=
  match f with
  | Docx => 0 | Xlsx => 1 | Xlsm => 2 | Pptx => 3 | Pdf => 4 | Txt => 5 | Csv => 6 | Html => 7
  end.
#[global] Instance FormatId_ord : Ord FormatId := fun a b =>
  cmp (FormatId_rank a) (FormatId_rank b).

Inductive InspectionProfileVersion : Type := DsiV0.
#[global] Instance InspectionProfileVersion_eq_dec : EqDecision InspectionProfileVersion.
Proof. solve_decision. Defined.
#[global] Instance InspectionProfileVersion_ord : Ord InspectionProfileVersion := fun _ _ => Eq.

Definition InspectionProfileVersion_as_str (v : InspectionProfileVersion) : string :=
  match v with DsiV0 => "dsi-v0" end.

(** ** error.rs *)

Inductive CoreError : Type :=
| InvalidSha256Length (observed : Z)
| ResultTooLarge (observed limit : Z)
| UnknownProtocolVersion (version : string)
| InvalidWorkerResult (message : string)
| CoreJson.

(** ** fingerprint.rs *)

Inductive FingerprintAlgorithm : Type := Sha256.
#[global] Instance FingerprintAlgorithm_eq_dec : EqDecision FingerprintAlgorithm.
Proof. solve_decision. Defined.

Record SemanticFingerprint : Type := {
  sf_algorithm : FingerprintAlgorithm;
  sf_digest : Bytes32
}.
#[global] Instance SemanticFingerprint_eq_dec : EqDecision SemanticFingerprint.
Proof. solve_decision. Defined.

(** [<[u8; 32]>::try_from]: exactly 32 bytes. *)
Definition array32 (value : list ascii) : option Bytes32 :=
  match decide (length value = 32%nat) with
  | left E => Some (eq_rect _ (vec ascii) (list_to_vec value) _ E)
  | right _ => None
  end.

Definition sha256_from_slice (value : list ascii) : Result SemanticFingerprint CoreError :=
  let? digest := ok_or (array32 value) (InvalidSha256Length (len value)) in
  Ok {| sf_algorithm := Sha256; sf_digest := digest |}.

Definition SemanticFingerprint_sha256 {D : Digest} (projection : list ascii)
    : SemanticFingerprint :=
  {| sf_algorithm := Sha256; sf_digest := sha256 projection |}.

(** ** evidence.rs *)

Inductive CapabilityState : Type := Present | Absent | NotRepresentable | NotVerifiable.
#[global] Instance CapabilityState_eq_dec : EqDecision CapabilityState.
Proof. solve_decision. Defined.

Record CapabilityEvidence : Type := {
  capability_id : string;
  presence : CapabilityState;
  version_significant : bool;
  equivalence_fingerprint : option SemanticFingerprint
}.

Record TrackedChangeEvidence : Type := {
  tc_kind : string;
  tc_author_label : option string;
  tc_timestamp : option string;
  tc_source_locator : string;
  tc_unresolved : bool
}.

Record CommentEvidence : Type := {
  ce_author_label : option string;
  ce_timestamp : option string;
  ce_resolved_state : string;
  ce_source_locator : string;
  ce_content : string
}.

Record EditorialProvenance : Type := {
  tracked_changes : list TrackedChangeEvidence;
  comments : list CommentEvidence;
  document_author_labels : list string;
  last_modified_by : option string;
  modification_metadata : list (string * string)
}.

Record ExternalDependency : Type := {
  dependency_kind : string;
  normalized_reference : string;
  ed_source_locator : string;
  ed_version_significant : bool
}.

Inductive SignatureValidity : Type := Valid | Invalid | Unverifiable.

Record DigitalSignatureEvidence : Type := {
  signature_type : string;
  signer_claim : option string;
  certificate_subject : option string;
  certificate_issuer : option string;
  certificate_fingerprint : option string;
  signed_at : option string;
  cryptographic_validity : SignatureValidity;
  covered_content : list string;
  validation_diagnostics : list string
}.

Record ParserLibraryIdentity : Type := { pl_name : string; pl_version : string }.

Record NativeDependencyIdentity : Type := {
  nd_name : string;
  nd_version : option string;
  nd_sha256 : option Bytes32
}.

Record ExtractorProvenance : Type := {
  worker_build_id : string;
  adapter_id : string;
  adapter_version : string;
  parser_libraries : list ParserLibraryIdentity;
  native_dependency_identity : list NativeDependencyIdentity
}.

Record Diagnostic : Type := { diag_code : string; diag_message : string }.

(** ** protocol.rs *)

Inductive WorkerProtocolVersion : Type := V0.
#[global] Instance WorkerProtocolVersion_eq_dec : EqDecision WorkerProtocolVersion.
Proof. solve_decision. Defined.

Definition WorkerProtocolVersion_as_str (v : WorkerProtocolVersion) : string :=
  match v with V0 => "dsi-worker-v0" end.

Record TraceContext : Type := { traceparent : string; tracestate : option string }.

Record WorkerRequest : Type := {
  wq_protocol_version : WorkerProtocolVersion;
  wq_inspection_profile_version : InspectionProfileVersion;
  declared_media_type : string;
  expected_raw_content_hash : Bytes32;
  expected_size_bytes : Z;
  trace_context : option TraceContext
}.

Record WorkerResponse : Type := {
  wr_protocol_version : WorkerProtocolVersion;
  wr_inspection_profile_version : InspectionProfileVersion;
  observed_raw_content_hash : Bytes32;
  observed_size_bytes : Z;
  detected_format : FormatId;
  wr_semantic_fingerprint : SemanticFingerprint;
  semantic_capabilities : list CapabilityEvidence;
  editorial_provenance : EditorialProvenance;
  external_dependencies : list ExternalDependency;
  digital_signature_evidence : list DigitalSignatureEvidence;
  extractor_provenance : ExtractorProvenance;
  diagnostics : list Diagnostic
}.

Definition require_non_blank (field value : string) : Result unit CoreError :=
  if is_empty (trim value) then Err (InvalidWorkerResult (field +:+ " must not be blank"))
  else Ok tt.

(** The loop over the capabilities: the identifiers seen so far. *)
Definition check_capability (capability_ids : list string) (capability : CapabilityEvidence)
    : Result (list string) CoreError :=
  try? require_non_blank "capability_id" (capability_id capability) in
  if contains capability_ids (capability_id capability)
  then Err (InvalidWorkerResult
              ("duplicate capability_id: " +:+ capability_id capability))
  else Ok (capability_id capability :: capability_ids).

Definition WorkerResponse_validate (r : WorkerResponse) : Result unit CoreError :=
  let p := extractor_provenance r in
  try? for_each check_capability [] (semantic_capabilities r) in
  try? require_non_blank "extractor_provenance.worker_build_id" (worker_build_id p) in
  try? require_non_blank "extractor_provenance.adapter_id" (adapter_id p) in
  try? require_non_blank "extractor_provenance.adapter_version" (adapter_version p) in
  try? for_each (fun _ parser =>
                   try? require_non_blank "parser_library.name" (pl_name parser) in
                   require_non_blank "parser_library.version" (pl_version parser))
         tt (parser_libraries p) in
  for_each (fun _ native => require_non_blank "native_dependency.name" (nd_name native))
    tt (native_dependency_identity p).

Section Decoding.
(** serde_json: [from_slice], [Value::get(..).and_then(as_str)] and [from_value]. *)
Context {Value : Type}
  (from_slice : list ascii -> option Value)
  (get_str : Value -> string -> option string)
  (from_value : Value -> option WorkerResponse).

Definition decode_worker_response_bounded (input : list ascii) (max_bytes : Z)
    : Result WorkerResponse CoreError :=
  if max_bytes <? len input then Err (ResultTooLarge (len input) max_bytes)
  else
    let? value := ok_or (from_slice input) CoreJson in
    let? protocol_version :=
      ok_or (get_str value "protocol_version")
        (InvalidWorkerResult "missing string protocol_version") in
    if protocol_version != WorkerProtocolVersion_as_str V0
    then Err (UnknownProtocolVersion protocol_version)
    else
      let? response := ok_or (from_value value) CoreJson in
      try? WorkerResponse_validate response in
      Ok response.
End Decoding.

(** ** canonical.rs: [normalize_unordered_collections] *)

Definition dependency_key (d : ExternalDependency) : string * string * string :=
  (dependency_kind d, normalized_reference d, ed_source_locator d).

Definition signature_key (s : DigitalSignatureEvidence) : string * option string * option string :=
  (signature_type s, certificate_fingerprint s, signed_at s).

Definition parser_key (p : ParserLibraryIdentity) : string * string := (pl_name p, pl_version p).

Definition native_key (n : NativeDependencyIdentity) : string * option string * option Bytes32 :=
  (nd_name n, nd_version n, nd_sha256 n).

Definition diagnostic_key (d : Diagnostic) : string * string := (diag_code d, diag_message d).

Definition normalize_signature (s : DigitalSignatureEvidence) : DigitalSignatureEvidence := {|
  signature_type := signature_type s;
  signer_claim := signer_claim s;
  certificate_subject := certificate_subject s;
  certificate_issuer := certificate_issuer s;
  certificate_fingerprint := certificate_fingerprint s;
  signed_at := signed_at s;
  cryptographic_validity := cryptographic_validity s;
  covered_content := dedup (sort (covered_content s));
  validation_diagnostics := dedup (sort (validation_diagnostics s))
|}.

Definition normalize_unordered_collections (r : WorkerResponse) : WorkerResponse :=
  let e := editorial_provenance r in
  let p := extractor_provenance r in
  {| wr_protocol_version := wr_protocol_version r;
     wr_inspection_profile_version := wr_inspection_profile_version r;
     observed_raw_content_hash := observed_raw_content_hash r;
     observed_size_bytes := observed_size_bytes r;
     detected_format := detected_format r;
     wr_semantic_fingerprint := wr_semantic_fingerprint r;
     semantic_capabilities := sort_by_key capability_id (semantic_capabilities r);
     editorial_provenance :=
       {| tracked_changes := tracked_changes e;
          comments := comments e;
          document_author_labels := dedup (sort (document_author_labels e));
          last_modified_by := last_modified_by e;
          modification_metadata := modification_metadata e |};
     external_dependencies := sort_by_key dependency_key (external_dependencies r);
     digital_signature_evidence :=
       map normalize_signature (sort_by_key signature_key (digital_signature_evidence r));
     extractor_provenance :=
       {| worker_build_id := worker_build_id p;
          adapter_id := adapter_id p;
          adapter_version := adapter_version p;
          parser_libraries := sort_by_key parser_key (parser_libraries p);
          native_dependency_identity :=
            sort_by_key native_key (native_dependency_identity p) |};
     diagnostics := sort_by_key diagnostic_key (diagnostics r) |}.

(** [canonical_worker_response_bytes]: [to_json] is the serde_json rendering of the response
    with its object keys in byte order. *)
Definition canonical_worker_response_bytes
    (to_json : WorkerResponse -> option (list ascii)) (response : WorkerResponse)
    : Result (list ascii) CoreError :=
  let normalized := normalize_unordered_collections response in
  try? WorkerResponse_validate normalized in
  ok_or (to_json normalized) CoreJson.

(** ** cross_format.rs *)

Inductive AuthorityMigrationDecision : Type :=
| Eligible
| Denied (missing : list string).

(** [target.iter().map(|c| (id, c)).collect::<BTreeMap<_, _>>()]: a later entry replaces. *)
Definition by_id (target : list CapabilityEvidence) : list (string * CapabilityEvidence) :=
  fold_left (fun m c => bt_insert (capability_id c) c m) target [].

(** Whether one source capability is put into [missing]. *)
Definition lost (target_by_id : list (string * CapabilityEvidence))
    (source_capability : CapabilityEvidence) : bool :=
  if negb (version_significant source_capability) then false
  else
    match presence source_capability with
    | Absent => false
    | NotRepresentable | NotVerifiable => true
    | Present =>
        match bt_get (capability_id source_capability) target_by_id with
        | None => true
        | Some target_capability =>
            (presence target_capability != Present)
            || (is_some (equivalence_fingerprint source_capability)
                && (equivalence_fingerprint source_capability
                    != equivalence_fingerprint target_capability))
        end
    end.

Definition assess_authority_migration (source target : list CapabilityEvidence)
    : AuthorityMigrationDecision :=
  let target_by_id := by_id target in
  let missing :=
    fold_left
      (fun missing c =>
         if lost target_by_id c then bt_insert (capability_id c) tt missing else missing)
      source [] in
  match missing with
  | [] => Eligible
  | _ => Denied (map fst missing)
  end.

(** ** Moving authority between formats *)

(** The target's evidence for a capability: the last entry counts. *)
Definition target_evidence (target : list CapabilityEvidence) (id : string)
    : option CapabilityEvidence :=
  last (filter (fun c => capability_id c = id) target).

(** What the rule promises: a significant capability of the source survives in the target. *)
Definition preserved (target : list CapabilityEvidence) (c : CapabilityEvidence) : Prop :=
  version_significant c = false \/ presence c = Absent
  \/ (presence c = Present
      /\ exists t, target_evidence target (capability_id c) = Some t /\ presence t = Present
         /\ (equivalence_fingerprint c = None
             \/ equivalence_fingerprint c = equivalence_fingerprint t)).

Lemma by_id_wf target m : bt_wf m -> bt_wf (fold_left (fun m c => bt_insert (capability_id c) c m) target m).
Proof.
  revert m. induction target as [|c l IH]; cbn; intros m Hm; [done|]. by apply IH, bt_wf_alter.
Qed.

Lemma by_id_get target id : bt_get id (by_id target) = target_evidence target id.
Proof.
  unfold by_id, target_evidence. induction target as [|c l IH] using rev_ind; [done|].
  rewrite fold_left_app. cbn [fold_left]. rewrite bt_get_insert by apply by_id_wf, bt_wf_nil.
  rewrite IH, filter_app, filter_cons. case_decide as E.
  - rewrite decide_True by done. by rewrite filter_nil, last_snoc.
  - rewrite decide_False by done. by rewrite filter_nil, app_nil_r.
Qed.

Lemma lost_spec target c : lost (by_id target) c = false <-> preserved target c.
Proof.
  unfold lost, preserved. rewrite by_id_get.
  destruct (version_significant c); [|naive_solver]. cbn [negb].
  destruct (presence c); [|naive_solver..].
  destruct (target_evidence target (capability_id c)) as [t|].
  - rewrite orb_false_iff, andb_false_iff, is_some_false, !negb_false_iff, !bool_decide_eq_true.
    naive_solver.
  - naive_solver.
Qed.

Lemma missing_spec (p : CapabilityEvidence -> bool) source m :
  bt_wf m ->
  let m' := fold_left (fun m c => if p c then bt_insert (capability_id c) tt m else m) source m in
  bt_wf m' /\ forall id, bt_get id m' = Some tt <->
    bt_get id m = Some tt \/ exists c, c ∈ source /\ capability_id c = id /\ p c = true.
Proof.
  revert m. induction source as [|c l IH]; cbn; intros m Hm; [split; [done|]; set_solver|].
  destruct (p c) eqn:E.
  - destruct (IH (bt_insert (capability_id c) tt m)) as [Hw Hg]; [by apply bt_wf_alter|].
    split; [done|]. intros id. rewrite Hg, bt_get_insert by done. case_decide; set_solver.
  - destruct (IH m Hm) as [Hw Hg]. split; [done|]. intros id. rewrite Hg.
    split; [set_solver|]. intros [?|(c' & [->|?]%elem_of_cons & ? & ?)]; [by left|congruence|set_solver].
Qed.

Lemma bt_get_keys (m : list (string * unit)) id : bt_wf m -> bt_get id m = Some tt <-> id ∈ map fst m.
Proof.
  intros Hm. rewrite bt_get_elem by done. split.
  - intros H. apply list_elem_of_fmap. by exists (id, tt).
  - intros ([i []] & -> & H)%list_elem_of_fmap. done.
Qed.

(** Authority may move to another format exactly when every significant capability
    of the source is absent from it or demonstrably present, with an equal fingerprint, in the
    target; otherwise the answer names exactly the capabilities that would be lost, each once. *)
Theorem migration_preserves_capabilities source target :
  match assess_authority_migration source target with
  | Eligible => forall c, c ∈ source -> preserved target c
  | Denied missing =>
      missing <> [] /\ NoDup missing
      /\ forall id, id ∈ missing <->
           exists c, c ∈ source /\ capability_id c = id /\ ~ preserved target c
  end.
Proof.
  unfold assess_authority_migration.
  destruct (missing_spec (lost (by_id target)) source [] bt_wf_nil) as [Hw Hg]. cbn zeta in *.
  set (m := fold_left _ source []) in *.
  assert (forall c, lost (by_id target) c = true <-> ~ preserved target c) as Hl.
  { intros c. rewrite <-lost_spec. by destruct (lost _ c). }
  assert (forall id, id ∈ map fst m <->
    exists c, c ∈ source /\ capability_id c = id /\ ~ preserved target c) as Hm.
  { intros id. rewrite <-bt_get_keys, Hg by done. cbn. setoid_rewrite Hl. naive_solver. }
  destruct m as [|e m'] eqn:Em.
  - intros c Hc. apply lost_spec. destruct (lost (by_id target) c) eqn:E; [|done].
    destruct (Hm (capability_id c)) as [_ H]. exfalso. eapply not_elem_of_nil, H.
    exists c. split; [done|]. split; [done|]. by apply Hl.
  - split; [done|]. split; [by apply bt_wf_NoDup|]. exact Hm.
Qed.
