(* ===== verification/Diff.v ===== *)
(** * Diff: comparison of two document versions (document-diff-core)

    Changes and locators, the protocol of the comparison worker, display fragments and the
    alignment of items, and their properties.  The JSON reader of serde_json is a parameter. *)
From stdpp Require Import base gmap sets list strings vector sorting.
From Stdlib Require Import ZArith Lia Ascii.
From S2P Require Import Prelude Text Ordered Manifest Inspection.
Local Open Scope Z_scope.

Inductive DiffCoreError : Type :=
| InvalidResponse (message : string)
| UnknownDiffProtocol (version : string)
| ResourceLimitError (class : string)
| DiffJson.

(** ** change.rs *)

Inductive ContentVerdict : Type := Same | Different | Unknown.

Inductive DiffCoverage : Type := CoverageFull | CoveragePartial | CoverageNone.
#[global] Instance DiffCoverage_eq_dec : EqDecision DiffCoverage.
Proof. solve_decision. Defined.

Inductive ChangeOperation : Type := Added | Removed | Modified.

Inductive RelocationKind : Type := Moved | RelReordered | Renamed.

Inductive UnverifiedReason : Type :=
| UnsupportedSemanticConstruct
| CorruptedSource
| MissingInspectionEvidence
| AmbiguousAlignment
| ReasonResourceLimit.

Definition UnverifiedReason_as_str (r : UnverifiedReason) : string :=
  match r with
  | UnsupportedSemanticConstruct => "unsupported_semantic_construct"
  | CorruptedSource => "corrupted_source"
  | MissingInspectionEvidence => "missing_inspection_evidence"
  | AmbiguousAlignment => "ambiguous_alignment"
  | ReasonResourceLimit => "resource_limit"
  end.

Inductive SourceLocator : Type :=
| ContentItem
| TextSpan (line byte_start byte_end : Z)
| CsvCell (row column : Z)
| HtmlNode (path : string)
| OfficePath (path : string)
| SheetCell (sheet cell : string)
| VbaModule (module : string) (procedure : option string)
| SlideObject (slide : Z) (object : option string)
| PdfPage (page : Z) (region : option (Z * Z * Z * Z)).
#[global] Instance SourceLocator_eq_dec : EqDecision SourceLocator.
Proof. solve_decision. Defined.

Definition valid_label (value : string) : bool :=
  negb (is_empty (trim value)) && (str_len value <=? 4096)
  && negb (existsb is_control (chars value)).

(** The guarded arms of [SourceLocator::validate]. *)
Definition SourceLocator_ok (l : SourceLocator) : bool :=
  match l with
  | ContentItem => true
  | TextSpan line byte_start byte_end => (0 <? line) && (byte_start <? byte_end)
  | CsvCell row column => (0 <? row) && (0 <? column)
  | HtmlNode path | OfficePath path => valid_label path
  | SheetCell sheet cell => valid_label sheet && valid_label cell
  | VbaModule module procedure => valid_label module && is_none_or procedure valid_label
  | SlideObject slide object => (0 <? slide) && is_none_or object valid_label
  | PdfPage page region =>
      (0 <? page)
      && is_none_or region (fun '(r0, r1, r2, r3) => (r0 <? r2) && (r1 <? r3))
  end.

Definition SourceLocator_validate (l : SourceLocator) : Result unit DiffCoreError :=
  if SourceLocator_ok l then Ok tt else Err (InvalidResponse "invalid source locator").

(** [if let Some(locator) = side { locator.validate()?; }]. *)
Definition validate_side (side : option SourceLocator) : Result unit DiffCoreError :=
  match side with Some locator => SourceLocator_validate locator | None => Ok tt end.

Record WorkerChange : Type := {
  wc_operation : option ChangeOperation;
  wc_relocation : option RelocationKind;
  wc_facet : string;
  wc_base : option SourceLocator;
  wc_target : option SourceLocator;
  wc_reason_code : string
}.

Definition sides_valid (c : WorkerChange) : bool :=
  match wc_operation c with
  | Some Added => is_none (wc_base c) && is_some (wc_target c)
  | Some Removed => is_some (wc_base c) && is_none (wc_target c)
  | Some Modified | None => is_some (wc_base c) && is_some (wc_target c)
  end.

Definition WorkerChange_validate (c : WorkerChange) : Result unit DiffCoreError :=
  if is_none (wc_operation c) && is_none (wc_relocation c)
  then Err (InvalidResponse "change has no operation or relocation")
  else if negb (valid_label (wc_facet c)) || negb (valid_label (wc_reason_code c))
  then Err (InvalidResponse "change facet or reason is blank")
  else if negb (sides_valid c) then Err (InvalidResponse "change has invalid source sides")
  else
    try? validate_side (wc_base c) in
    validate_side (wc_target c).

Record WorkerUnverifiedRegion : Type := {
  wu_base : option SourceLocator;
  wu_target : option SourceLocator;
  wu_reason : UnverifiedReason;
  wu_navigation_hint : option string
}.

Record WorkerAncillaryChange : Type := {
  wa_kind : string;
  wa_base_digest : option Bytes32;
  wa_target_digest : option Bytes32
}.

Definition WorkerAncillaryChange_validate (a : WorkerAncillaryChange)
    : Result unit DiffCoreError :=
  if negb (valid_label (wa_kind a)) || (is_none (wa_base_digest a) && is_none (wa_target_digest a))
  then Err (InvalidResponse "invalid ancillary change")
  else Ok tt.

Definition WorkerUnverifiedRegion_validate (r : WorkerUnverifiedRegion)
    : Result unit DiffCoreError :=
  if is_none (wu_base r) && is_none (wu_target r)
  then Err (InvalidResponse "unverified region has no source")
  else
    try? validate_side (wu_base r) in
    try? validate_side (wu_target r) in
    if is_some_and (wu_navigation_hint r) (fun h => negb (valid_label h))
    then Err (InvalidResponse "invalid navigation hint")
    else Ok tt.

(** ** The comparison budget *)

Definition u64_max : Z := 2 ^ 64 - 1.

Definition checked_add_u64 (a b : Z) : option Z :=
  if a + b <=? u64_max then Some (a + b) else None.

Definition charge (current count limit : Z) (class : string) : Result Z DiffCoreError :=
  let? next := ok_or (checked_add_u64 current count) (ResourceLimitError class) in
  if limit <? next then Err (ResourceLimitError class) else Ok next.

Record ComparisonBudget : Type := {
  max_candidates : Z;
  max_changes : Z;
  cb_candidates : Z;
  cb_changes : Z
}.

Definition ComparisonBudget_new (candidates changes : Z) : ComparisonBudget := {|
  max_candidates := candidates; max_changes := changes; cb_candidates := 0; cb_changes := 0 |}.

Definition consume_candidates (b : ComparisonBudget) (count : Z)
    : Result ComparisonBudget DiffCoreError :=
  let? next := charge (cb_candidates b) count (max_candidates b) "candidates" in
  Ok {| max_candidates := max_candidates b; max_changes := max_changes b;
        cb_candidates := next; cb_changes := cb_changes b |}.

Definition consume_changes (b : ComparisonBudget) (count : Z)
    : Result ComparisonBudget DiffCoreError :=
  let? next := charge (cb_changes b) count (max_changes b) "changes" in
  Ok {| max_candidates := max_candidates b; max_changes := max_changes b;
        cb_candidates := cb_candidates b; cb_changes := next |}.

(** ** protocol.rs *)

Definition MAX_SOURCE_BYTES_V0 : Z := 256 * 1024 * 1024.
Definition MAX_RESULT_BYTES_V0 : Z := 16 * 1024 * 1024.
Definition MAX_CHANGES_V0 : Z := 100000.

Inductive DiffWorkerProtocol : Type := DiffWorkerV0.
#[global] Instance DiffWorkerProtocol_eq_dec : EqDecision DiffWorkerProtocol.
Proof. solve_decision. Defined.
Definition DiffWorkerProtocol_as_str (v : DiffWorkerProtocol) : string :=
  match v with DiffWorkerV0 => "diff-worker-v0" end.

Inductive DiffProfileVersion : Type := DiffProfileV0.
#[global] Instance DiffProfileVersion_eq_dec : EqDecision DiffProfileVersion.
Proof. solve_decision. Defined.
Definition DiffProfileVersion_as_str (v : DiffProfileVersion) : string :=
  match v with DiffProfileV0 => "document-diff-v0" end.

Inductive ResourceProfileVersion : Type := ResourceProfileV0.
#[global] Instance ResourceProfileVersion_eq_dec : EqDecision ResourceProfileVersion.
Proof. solve_decision. Defined.
Definition ResourceProfileVersion_as_str (v : ResourceProfileVersion) : string :=
  match v with ResourceProfileV0 => "diff-resource-v0" end.

Record WorkerDiffRequest : Type := {
  dq_protocol_version : DiffWorkerProtocol;
  dq_diff_profile_version : DiffProfileVersion;
  dq_resource_profile_version : ResourceProfileVersion;
  dq_format : FormatId;
  dq_base_raw_sha256 : Bytes32;
  dq_base_size_bytes : Z;
  dq_target_raw_sha256 : Bytes32;
  dq_target_size_bytes : Z
}.

Definition WorkerDiffRequest_validate (q : WorkerDiffRequest) : Result unit DiffCoreError :=
  if (MAX_SOURCE_BYTES_V0 <? dq_base_size_bytes q) || (MAX_SOURCE_BYTES_V0 <? dq_target_size_bytes q)
  then Err (ResourceLimitError "source bytes")
  else Ok tt.

Record WorkerDiffResponse : Type := {
  dr_protocol_version : DiffWorkerProtocol;
  dr_diff_profile_version : DiffProfileVersion;
  dr_resource_profile_version : ResourceProfileVersion;
  dr_base_raw_sha256 : Bytes32;
  dr_base_size_bytes : Z;
  dr_target_raw_sha256 : Bytes32;
  dr_target_size_bytes : Z;
  dr_format : FormatId;
  dr_coverage : DiffCoverage;
  dr_changes : list WorkerChange;
  dr_unverified_regions : list WorkerUnverifiedRegion;
  dr_ancillary_changes : list WorkerAncillaryChange;
  dr_parser_provenance : string
}.

Definition WorkerDiffResponse_validate (r : WorkerDiffResponse) : Result unit DiffCoreError :=
  if is_empty (trim (dr_parser_provenance r)) || (4096 <? str_len (dr_parser_provenance r))
  then Err (InvalidResponse "missing parser provenance")
  else if (MAX_CHANGES_V0 <? len (dr_changes r)) || (MAX_CHANGES_V0 <? len (dr_unverified_regions r))
          || (MAX_CHANGES_V0 <? len (dr_ancillary_changes r))
  then Err (ResourceLimitError "result entries")
  else if (dr_coverage r == CoverageFull) && negb (is_empty (dr_unverified_regions r))
  then Err (InvalidResponse "full result has unverified regions")
  else if (dr_coverage r == CoveragePartial) && is_empty (dr_unverified_regions r)
  then Err (InvalidResponse "partial result lacks unverified region")
  else if (dr_coverage r == CoverageNone)
          && (is_empty (dr_unverified_regions r) || negb (is_empty (dr_changes r)))
  then Err (InvalidResponse "none coverage has invalid result")
  else
    try? for_each (fun _ c => WorkerChange_validate c) tt (dr_changes r) in
    try? for_each (fun _ c => WorkerUnverifiedRegion_validate c) tt (dr_unverified_regions r) in
    for_each (fun _ c => WorkerAncillaryChange_validate c) tt (dr_ancillary_changes r).

Definition WorkerDiffResponse_validate_against (r : WorkerDiffResponse) (q : WorkerDiffRequest)
    : Result unit DiffCoreError :=
  try? WorkerDiffRequest_validate q in
  try? WorkerDiffResponse_validate r in
  if (dr_protocol_version r != dq_protocol_version q)
     || (dr_diff_profile_version r != dq_diff_profile_version q)
     || (dr_resource_profile_version r != dq_resource_profile_version q)
     || (dr_format r != dq_format q)
     || (dr_base_raw_sha256 r != dq_base_raw_sha256 q)
     || negb (dr_base_size_bytes r =? dq_base_size_bytes q)
     || (dr_target_raw_sha256 r != dq_target_raw_sha256 q)
     || negb (dr_target_size_bytes r =? dq_target_size_bytes q)
  then Err (InvalidResponse "worker response binding mismatch")
  else Ok tt.

Section DiffDecoding.
(** serde_json: [from_slice], [Value::get(..).and_then(as_str)] and [from_value]. *)
Context {Value : Type}
  (from_slice : list ascii -> option Value)
  (get_str : Value -> string -> option string)
  (from_value : Value -> option WorkerDiffResponse).

Definition decode_diff_response_bounded (input : list ascii) (max_bytes : Z)
    : Result WorkerDiffResponse DiffCoreError :=
  if Z.min max_bytes MAX_RESULT_BYTES_V0 <? len input
  then Err (ResourceLimitError "response bytes")
  else
    let? value := ok_or (from_slice input) DiffJson in
    let version := unwrap_or "" (get_str value "protocol_version") in
    if version != DiffWorkerProtocol_as_str DiffWorkerV0 then Err (UnknownDiffProtocol version)
    else
      let? response := ok_or (from_value value) DiffJson in
      try? WorkerDiffResponse_validate response in
      Ok response.
End DiffDecoding.

(** ** display.rs *)

Definition MAX_DISPLAY_FRAGMENT_BYTES_V0 : Z := 16 * 1024.
Definition MAX_DISPLAY_PAGE_BYTES_V0 : Z := 1024 * 1024.
Definition MAX_DISPLAY_SOURCE_BYTES_V0 : Z := 256 * 1024 * 1024.

Record DisplayCell : Type := {
  dc_row : option Z;
  dc_column : option Z;
  dc_label : option string;
  dc_value : string
}.

Inductive DisplayUnavailableReason : Type :=
| NonTextual | DisplayUnverified | DisplayResourceLimit | DisplayUnsupported.

Inductive DisplayFragment : Type :=
| FragmentText (text : string) (truncated : bool) (locator : SourceLocator)
| FragmentTable (cells : list DisplayCell) (truncated : bool) (locator : SourceLocator)
| FragmentStructural (summary : string) (locator : SourceLocator)
| FragmentUnavailable (reason : DisplayUnavailableReason).

Record WorkerDisplayRequest : Type := {
  yq_protocol_version : DiffWorkerProtocol;
  yq_format : FormatId;
  yq_raw_sha256 : Bytes32;
  yq_size_bytes : Z;
  yq_locator : SourceLocator;
  yq_max_fragment_bytes : Z
}.

Definition WorkerDisplayRequest_validate (q : WorkerDisplayRequest) : Result unit DiffCoreError :=
  if (MAX_DISPLAY_SOURCE_BYTES_V0 <? yq_size_bytes q)
     || negb (in_range 32 MAX_DISPLAY_FRAGMENT_BYTES_V0 (yq_max_fragment_bytes q))
  then Err (ResourceLimitError "display request bounds")
  else SourceLocator_validate (yq_locator q).

Record WorkerDisplayResponse : Type := {
  yr_protocol_version : DiffWorkerProtocol;
  yr_format : FormatId;
  yr_raw_sha256 : Bytes32;
  yr_size_bytes : Z;
  yr_fragment : DisplayFragment
}.

(** The locator a fragment shows, when it shows one. *)
Definition fragment_locator (f : DisplayFragment) : option SourceLocator :=
  match f with
  | FragmentText _ _ l | FragmentTable _ _ l | FragmentStructural _ l => Some l
  | FragmentUnavailable _ => None
  end.

Section Display.
(** [serde_json::to_vec]. *)
Context (to_vec : DisplayFragment -> option (list ascii)).

Definition serialized_fragment_bytes (f : DisplayFragment) : Z :=
  match to_vec f with Some bytes => len bytes | None => u64_max end.

Definition WorkerDisplayResponse_validate_against (r : WorkerDisplayResponse)
    (q : WorkerDisplayRequest) : Result unit DiffCoreError :=
  try? WorkerDisplayRequest_validate q in
  if (yr_protocol_version r != yq_protocol_version q)
     || (yr_format r != yq_format q)
     || (yr_raw_sha256 r != yq_raw_sha256 q)
     || negb (yr_size_bytes r =? yq_size_bytes q)
     || (yq_max_fragment_bytes q <? serialized_fragment_bytes (yr_fragment r))
  then Err (InvalidResponse "display response binding or size mismatch")
  else if is_some_and (fragment_locator (yr_fragment r)) (fun l => l != yq_locator q)
  then Err (InvalidResponse "display locator mismatch")
  else Ok tt.
End Display.

(** ** alignment.rs *)

Record ItemAnchor : Type := {
  ia_logical_path : string;
  ia_ordinal : Z;
  ia_format : option FormatId;
  ia_inspection_profile : InspectionProfileVersion;
  ia_semantic_fingerprint : option Bytes32
}.

Inductive AlignmentKind : Type := Exact | Reordered | Relocated.

Record AlignedPair : Type := {
  base_index : nat;
  target_index : nat;
  pair_kind : AlignmentKind
}.

Record UnresolvedCluster : Type := { base_indices : list nat; target_indices : list nat }.

Record AlignmentOutcome : Type := {
  pairs : list AlignedPair;
  unmatched_base : list nat;
  unmatched_target : list nat;
  unresolved : list UnresolvedCluster;
  exhausted : bool
}.

Record AlignmentBudget : Type := { ab_limit : Z; ab_used : Z }.

Definition AlignmentBudget_new (max_candidates : Z) : AlignmentBudget :=
  {| ab_limit := max_candidates; ab_used := 0 |}.

(** [limit.saturating_sub(used)]. *)
Definition AlignmentBudget_remaining (b : AlignmentBudget) : Z :=
  Z.max 0 (ab_limit b - ab_used b).

(** [charge]: [None] when it refuses, which leaves the budget as it was. *)
Definition AlignmentBudget_charge (b : AlignmentBudget) (count : Z) : option AlignmentBudget :=
  match checked_add_u64 (ab_used b) count with
  | Some next => if next <=? ab_limit b then Some {| ab_limit := ab_limit b; ab_used := next |}
                 else None
  | None => None
  end.

(** The variables of [align_items]. *)
Record Aligning : Type := {
  al_pairs : list AlignedPair;
  al_base_used : list bool;
  al_target_used : list bool;
  al_budget : AlignmentBudget
}.

Definition pair (st : Aligning) (b : AlignmentBudget) (i j : nat) (kind : AlignmentKind)
    : Aligning := {|
  al_pairs := al_pairs st ++ [{| base_index := i; target_index := j; pair_kind := kind |}];
  al_base_used := <[i := true]> (al_base_used st);
  al_target_used := <[j := true]> (al_target_used st);
  al_budget := b
|}.

Definition with_budget (st : Aligning) (b : AlignmentBudget) : Aligning := {|
  al_pairs := al_pairs st;
  al_base_used := al_base_used st;
  al_target_used := al_target_used st;
  al_budget := b
|}.

Definition enumerate {A} (l : list A) : list (nat * A) := combine (seq 0 (length l)) l.

(** [iter().enumerate().filter(|(i, _)| !used[*i])]. *)
Definition unused (items : list ItemAnchor) (used : list bool) : list (nat * ItemAnchor) :=
  List.filter (fun e => negb (unwrap_or false (used !! e.1))) (enumerate items).

Definition exact_key (item : ItemAnchor) : string * Z := (ia_logical_path item, ia_ordinal item).

Definition FingerprintKey : Type := FormatId * InspectionProfileVersion * Bytes32.

(** The key, when the item has a format and a fingerprint. *)
Definition fingerprint_key (item : ItemAnchor) : option FingerprintKey :=
  match ia_format item, ia_semantic_fingerprint item with
  | Some format, Some fingerprint => Some (format, ia_inspection_profile item, fingerprint)
  | _, _ => None
  end.

(** One turn of the first two loops: a group with one item on each side is paired; the state
    is returned as the error when the budget is spent. *)
Definition align_unique {K} `{Ord K} (kind : AlignmentKind) (targets : list (K * list nat))
    (st : Aligning) (group : K * list nat) : Result Aligning Aligning :=
  match bt_get group.1 targets, group.2 with
  | Some [new], [old] =>
      match AlignmentBudget_charge (al_budget st) 1 with
      | None => Err st
      | Some b => Ok (pair st b old new kind)
      end
  | _, _ => Ok st
  end.

(** [u64::saturating_mul]. *)
Definition saturating_mul_u64 (a b : Z) : Z := Z.min u64_max (a * b).

(** One turn of the third loop: every candidate pair of a shared fingerprint is charged. *)
Definition align_fingerprint (targets : list (FingerprintKey * list nat)) (st : Aligning)
    (group : FingerprintKey * list nat) : Result Aligning Aligning :=
  match bt_get group.1 targets with
  | None => Ok st
  | Some new =>
      match AlignmentBudget_charge (al_budget st) (saturating_mul_u64 (len group.2) (len new)) with
      | None => Err st
      | Some b =>
          match group.2, new with
          | [i], [j] => Ok (pair st b i j Relocated)
          | _, _ => Ok (with_budget st b)
          end
      end
  end.

Definition exact_groups (items : list ItemAnchor) : list ((string * Z) * list nat) :=
  group_by (fun e => exact_key e.2) fst (enumerate items).

Definition path_groups (items : list ItemAnchor) (used : list bool) : list (string * list nat) :=
  group_by (fun e => ia_logical_path e.2) fst (unused items used).

(** [if let (Some(format), Some(fingerprint)) = ... { entry(..).push(i) }]. *)
Definition fingerprint_groups (items : list ItemAnchor) (used : list bool)
    : list (FingerprintKey * list nat) :=
  group_by fst snd
    (filter_map (fun e => option_map (fun k => (k, e.1)) (fingerprint_key e.2))
       (unused items used)).

Definition remaining (used : list bool) : list nat :=
  map fst (List.filter (fun e => negb e.2) (enumerate used)).

Definition pair_key (p : AlignedPair) : Z * Z :=
  (Z.of_nat (base_index p), Z.of_nat (target_index p)).

Definition finish (st : Aligning) (is_exhausted : bool) : AlignmentOutcome :=
  let sorted := sort_by_key pair_key (al_pairs st) in
  let base_remaining := remaining (al_base_used st) in
  let target_remaining := remaining (al_target_used st) in
  let ambiguous :=
    is_exhausted || (negb (is_empty base_remaining) && negb (is_empty target_remaining)) in
  if ambiguous then
    {| pairs := sorted; unmatched_base := []; unmatched_target := [];
       unresolved := [{| base_indices := base_remaining; target_indices := target_remaining |}];
       exhausted := is_exhausted |}
  else
    {| pairs := sorted; unmatched_base := base_remaining; unmatched_target := target_remaining;
       unresolved := []; exhausted := is_exhausted |}.

(** The three loops; an error carries the state at the early return. *)
Definition align_loops (base target : list ItemAnchor) (budget : AlignmentBudget)
    : Result Aligning Aligning :=
  let start := {| al_pairs := [];
                  al_base_used := replicate (length base) false;
                  al_target_used := replicate (length target) false;
                  al_budget := budget |} in
  let? st := for_each (align_unique Exact (exact_groups target)) start (exact_groups base) in
  let? st := for_each (align_unique Reordered (path_groups target (al_target_used st))) st
               (path_groups base (al_base_used st)) in
  for_each (align_fingerprint (fingerprint_groups target (al_target_used st))) st
    (fingerprint_groups base (al_base_used st)).

Definition align_items (base target : list ItemAnchor) (budget : AlignmentBudget)
    : AlignmentOutcome * AlignmentBudget :=
  match align_loops base target budget with
  | Ok st => (finish st false, al_budget st)
  | Err st => (finish st true, al_budget st)
  end.
Local Open Scope Z_scope.

#[global] Instance FormatId_ord_laws : OrdLaws FormatId.
Proof. apply (OrdLaws_inj FormatId_rank); [done|]. by intros [] []. Qed.

#[global] Instance InspectionProfileVersion_ord_laws : OrdLaws InspectionProfileVersion.
Proof. split; try done. by intros [] []. Qed.

#[global] Instance byte_of_ascii_injective : Inj (=) (=) byte_of_ascii.
Proof.
  intros a b. unfold byte_of_ascii. intros H%N2Z.inj. apply (f_equal ascii_of_N) in H.
  by rewrite !ascii_N_embedding in H.
Qed.

#[global] Instance bytes32_ord_laws : OrdLaws Bytes32.
Proof.
  apply (OrdLaws_inj (fun v : Bytes32 => map byte_of_ascii (vec_to_list v))); [done|].
  intros a b H. apply vec_to_list_inj2. by apply (inj (fmap byte_of_ascii)) in H.
Qed.

(** ** Positions *)

Lemma filter_none {A} (p : A -> bool) l :
  (forall x, x ∈ l -> p x = false) -> List.filter p l = [].
Proof.
  induction l as [|y l IH]; cbn; [done|]. intros H. rewrite (H y) by set_solver.
  apply IH. set_solver.
Qed.

Lemma enumerate_from_elem {A} (l : list A) s i x :
  (i, x) ∈ combine (seq s (length l)) l <-> exists k, i = (s + k)%nat /\ l !! k = Some x.
Proof.
  revert s. induction l as [|y l IH]; intros s; cbn; [set_solver|].
  rewrite elem_of_cons, IH. split.
  - intros [[= -> ->]|(k & -> & Hk)]; [exists 0%nat|exists (S k)]; split; try done; lia.
  - intros ([|k] & -> & Hk); cbn in Hk; [left|right; exists k]; [|split; [lia|done]].
    injection Hk as ->. f_equal. lia.
Qed.

Lemma enumerate_elem {A} (l : list A) i x : (i, x) ∈ enumerate l <-> l !! i = Some x.
Proof. unfold enumerate. rewrite enumerate_from_elem. naive_solver. Qed.

Lemma enumerate_fst {A} (l : list A) : map fst (enumerate l) = seq 0 (length l).
Proof.
  unfold enumerate. generalize 0%nat. induction l as [|y l IH]; intros n; cbn; [done|].
  by rewrite IH.
Qed.

Lemma remaining_elem used i : i ∈ remaining used <-> used !! i = Some false.
Proof.
  unfold remaining. rewrite list_elem_of_fmap. split.
  - intros ([j b] & -> & H). apply elem_of_filter_bool in H as [H Hb].
    apply enumerate_elem in H. cbn in *. by destruct b.
  - intros H. exists (i, false). split; [done|]. apply elem_of_filter_bool.
    by rewrite enumerate_elem.
Qed.

Lemma remaining_NoDup used : NoDup (remaining used).
Proof.
  unfold remaining. pose proof (NoDup_seq 0 (length used)) as H.
  rewrite <- enumerate_fst in H. revert H. generalize (enumerate used).
  intros l. induction l as [|[n b] l IH]; cbn; [done|]. intros [Hn Hd]%NoDup_cons.
  destruct (negb b); cbn; [|auto]. apply NoDup_cons. split; [|auto].
  rewrite list_elem_of_fmap in Hn |- *. intros (x & -> & Hx). apply Hn. exists x.
  split; [done|]. by apply elem_of_filter_bool in Hx as [? _].
Qed.

Lemma unused_elem items used i x :
  (i, x) ∈ unused items used <-> items !! i = Some x /\ used !! i <> Some true.
Proof.
  unfold unused. rewrite elem_of_filter_bool, enumerate_elem. cbn.
  destruct (used !! i) as [[]|]; cbn; naive_solver.
Qed.

(** The positions in a group are those of the elements with its key. *)
Lemma group_index {A K} `{OrdLaws K, EqDecision K} (key : A -> K) (val : A -> nat) xs k vs :
  (k, vs) ∈ group_by key val xs ->
  forall i, i ∈ vs <-> exists x, x ∈ xs /\ key x = k /\ val x = i.
Proof.
  intros [-> _]%group_by_elem i. rewrite list_elem_of_fmap. split.
  - intros (x & -> & Hx). apply elem_of_filter_bool in Hx as [? ?]. simp_bool. by exists x.
  - intros (x & Hx & <- & <-). exists x. split; [done|]. apply elem_of_filter_bool.
    by rewrite bool_decide_eq_true_2.
Qed.

(** ** The invariant of the three loops *)

Section Alignment.
Context (base target : list ItemAnchor) (b0 : AlignmentBudget).

(** Why two items may be paired. *)
Definition justified (p : AlignedPair) : Prop :=
  exists x y, base !! base_index p = Some x /\ target !! target_index p = Some y
  /\ match pair_kind p with
     | Exact =>
         exact_key x = exact_key y
         /\ (forall i x', base !! i = Some x' -> exact_key x' = exact_key x -> i = base_index p)
         /\ (forall j y', target !! j = Some y' -> exact_key y' = exact_key y -> j = target_index p)
     | Reordered => ia_logical_path x = ia_logical_path y
     | Relocated => fingerprint_key x = fingerprint_key y /\ fingerprint_key x <> None
     end.

Record al_inv (st : Aligning) : Prop := {
  ai_base_nodup : NoDup (map base_index (al_pairs st));
  ai_target_nodup : NoDup (map target_index (al_pairs st));
  ai_base_used : forall i, al_base_used st !! i = Some true <-> i ∈ map base_index (al_pairs st);
  ai_target_used : forall j,
      al_target_used st !! j = Some true <-> j ∈ map target_index (al_pairs st);
  ai_base_length : length (al_base_used st) = length base;
  ai_target_length : length (al_target_used st) = length target;
  ai_justified : Forall justified (al_pairs st);
  ai_limit : ab_limit (al_budget st) = ab_limit b0;
  ai_spent : ab_used b0 + len (al_pairs st) <= ab_used (al_budget st);
  ai_cap : ab_used (al_budget st) <= Z.max (ab_used b0) (ab_limit b0)
}.

Lemma charge_spec b n b' :
  AlignmentBudget_charge b n = Some b' ->
  ab_limit b' = ab_limit b /\ ab_used b' = ab_used b + n /\ ab_used b' <= ab_limit b.
Proof.
  unfold AlignmentBudget_charge, checked_add_u64. repeat case_match; try done.
  intros [= <-]. simplify_eq. simp_bool. cbn. lia.
Qed.

Lemma al_inv_budget st b :
  al_inv st -> ab_limit b = ab_limit (al_budget st) ->
  ab_used (al_budget st) <= ab_used b <= Z.max (ab_used (al_budget st)) (ab_limit b) ->
  al_inv (with_budget st b).
Proof. intros [] Hl Hu. split; cbn; try done; [congruence|lia..]. Qed.

Lemma used_insert (l : list bool) i j (is_ : list nat) :
  l !! i = Some false -> (forall j, l !! j = Some true <-> j ∈ is_) ->
  <[i := true]> l !! j = Some true <-> j ∈ is_ ++ [i].
Proof.
  intros Hi Hl. rewrite elem_of_app, list_elem_of_singleton, <- Hl.
  destruct (decide (i = j)) as [<-|Hne].
  - rewrite list_lookup_insert_eq by (by eapply lookup_lt_Some). naive_solver.
  - rewrite list_lookup_insert_ne by done. naive_solver.
Qed.

Lemma al_inv_pair st b i j kind :
  al_inv st -> ab_limit b = ab_limit (al_budget st) ->
  ab_used (al_budget st) < ab_used b <= ab_limit b ->
  al_base_used st !! i = Some false -> al_target_used st !! j = Some false ->
  justified {| base_index := i; target_index := j; pair_kind := kind |} ->
  al_inv (pair st b i j kind).
Proof.
  intros Hinv Hl Hu Hi Hj Hjust. pose proof (ai_spent _ Hinv). pose proof (ai_limit _ Hinv).
  assert (i ∉ map base_index (al_pairs st)) by (rewrite <- ai_base_used by done; congruence).
  assert (j ∉ map target_index (al_pairs st)) by (rewrite <- ai_target_used by done; congruence).
  split; cbn; rewrite ?map_app, ?length_insert; try apply Hinv.
  - apply NoDup_app. split; [apply Hinv|]. cbn. split; [set_solver|apply NoDup_singleton].
  - apply NoDup_app. split; [apply Hinv|]. cbn. split; [set_solver|apply NoDup_singleton].
  - intros k. by apply used_insert, Hinv.
  - intros k. by apply used_insert, Hinv.
  - apply Forall_app. split; [apply Hinv|by apply Forall_singleton].
  - congruence.
  - unfold len in *. rewrite length_app. cbn. lia.
  - lia.
Qed.

(** ** One loop *)

(** What a turn does: it spends, and pairs only a group with one position on each side. *)
Definition turn {K} `{Ord K} (kind : AlignmentKind) (targets : list (K * list nat))
    (st : Aligning) (g : K * list nat) (st' : Aligning) : Prop :=
  st' = st
  \/ exists b, ab_limit b = ab_limit (al_budget st) /\ ab_used b <= ab_limit b
     /\ ((ab_used (al_budget st) <= ab_used b /\ st' = with_budget st b)
         \/ exists i j, g.2 = [i] /\ bt_get g.1 targets = Some [j]
              /\ ab_used (al_budget st) < ab_used b /\ st' = pair st b i j kind).

Definition turns {K} `{Ord K} (kind : AlignmentKind) (targets : list (K * list nat))
    (body : Aligning -> K * list nat -> Result Aligning Aligning) : Prop :=
  forall st g, match body st g with Ok st' => turn kind targets st g st' | Err e => e = st end.

Lemma align_unique_turns {K} `{Ord K} kind (targets : list (K * list nat)) :
  turns kind targets (align_unique kind targets).
Proof.
  intros st [k old]. unfold align_unique, turn. cbn.
  destruct (bt_get k targets) as [[|new [|]]|] eqn:Eg; try (by left).
  destruct old as [|i [|]]; try (by left).
  destruct (AlignmentBudget_charge _ _) as [b|] eqn:Ec; [|done].
  apply charge_spec in Ec as (Hl & Hu & Hc). right. exists b. split; [done|]. split; [lia|].
  right. exists i, new. split_and!; try done. lia.
Qed.

Lemma align_fingerprint_turns targets : turns Relocated targets (align_fingerprint targets).
Proof.
  intros st [k old]. unfold align_fingerprint, turn. cbn.
  destruct (bt_get k targets) as [new|] eqn:Eg; [|by left].
  destruct (AlignmentBudget_charge _ _) as [b|] eqn:Ec; [|done].
  apply charge_spec in Ec as (Hl & Hu & Hc). unfold saturating_mul_u64, u64_max, len in Hu.
  assert (ab_used (al_budget st) <= ab_used b) as Hle by nia.
  destruct old as [|i [|]], new as [|j [|]];
    right; exists b; (split; [done|split; [lia|]]); try (left; split; [done|reflexivity]).
  right. exists i, j. cbn in Hu. split_and!; try done. lia.
Qed.

Lemma phase_inv {K} `{Ord K} kind (targets : list (K * list nat)) body gs st
    (bkey tkey : nat -> option K) :
  turns kind targets body -> al_inv st -> NoDup (map fst gs) ->
  (forall k vs i, (k, vs) ∈ gs -> i ∈ vs -> al_base_used st !! i = Some false /\ bkey i = Some k) ->
  (forall k vs j, bt_get k targets = Some vs -> j ∈ vs -> tkey j = Some k) ->
  (forall k vs j, k ∈ map fst gs -> bt_get k targets = Some vs -> j ∈ vs ->
     al_target_used st !! j = Some false) ->
  (forall k i j, (k, [i]) ∈ gs -> bt_get k targets = Some [j] ->
     justified {| base_index := i; target_index := j; pair_kind := kind |}) ->
  match for_each body st gs with Ok st' | Err st' => al_inv st' end.
Proof.
  intros Hbody. revert st. induction gs as [|[k vs] gs IH]; intros st Hinv Hnd Hb Htk Ht Hj;
    cbn [for_each]; [done|].
  cbn in Hnd. apply NoDup_cons in Hnd as [Hk Hnd].
  specialize (Hbody st (k, vs)). destruct (body st (k, vs)) as [st1|e]; cbn; [|by subst e].
  assert (forall st1, al_inv st1 ->
            (forall i, al_base_used st !! i = Some false -> bkey i <> Some k ->
                       al_base_used st1 !! i = Some false) ->
            (forall j, al_target_used st !! j = Some false -> tkey j <> Some k ->
                       al_target_used st1 !! j = Some false) ->
            match for_each body st1 gs with Ok st' | Err st' => al_inv st' end) as Hnext.
  { clear st1 Hbody. intros st1 Hi1 Hbu Htu. apply IH; try done.
    - intros k' vs' i Hg Hin. destruct (Hb k' vs' i) as [Hu Hkey]; [set_solver|done|].
      split; [|done]. apply Hbu; [done|]. rewrite Hkey. intros [= ->]. apply Hk.
      apply list_elem_of_fmap. by exists (k, vs').
    - intros k' vs' j Hg Hget Hin. apply Htu; [apply (Ht k' vs'); [by apply elem_of_cons; right|done..]|].
      rewrite (Htk _ _ _ Hget Hin). intros [= ->]. done.
    - intros k' i j Hg Hget. apply (Hj k'); [by apply elem_of_cons; right|done]. }
  destruct Hbody as [->|(b & Hl & Hc & [[Hu ->]|(i & j & Evs & Eg & Hu & ->)])].
  - by apply Hnext.
  - apply Hnext; [|done..]. apply al_inv_budget; [done..|lia].
  - cbn in Evs, Eg. subst vs. destruct (Hb k [i] i) as [Hub Hkb]; [set_solver..|].
    pose proof (Htk _ _ _ Eg (list_elem_of_here _ _)) as Hkt.
    assert (al_target_used st !! j = Some false) as Hut.
    { apply (Ht k [j]); [apply list_elem_of_here|exact Eg|apply list_elem_of_here]. }
    apply Hnext.
    + apply al_inv_pair; try done. apply (Hj k); [apply list_elem_of_here|exact Eg].
    + intros i' Hi' Hne. cbn. rewrite list_lookup_insert_ne; [done|]. congruence.
    + intros j' Hj' Hne. cbn. rewrite list_lookup_insert_ne; [done|]. congruence.
Qed.

(** ** The three loops *)

Lemma used_false (items : list ItemAnchor) (used : list bool) i x :
  length used = length items -> items !! i = Some x -> used !! i <> Some true ->
  used !! i = Some false.
Proof.
  intros Hl Hi Hu. assert (i < length used)%nat as Hlt
    by (rewrite Hl; by eapply lookup_lt_Some).
  apply lookup_lt_is_Some in Hlt as [[] Hb]; [by destruct Hu|done].
Qed.

(** A group over unused items holds unused positions with its key. *)
Lemma unused_group {K} `{OrdLaws K, EqDecision K} (key : ItemAnchor -> K) items used k vs i :
  length used = length items ->
  (k, vs) ∈ group_by (fun e => key e.2) fst (unused items used) -> i ∈ vs ->
  used !! i = Some false /\ (key <$> items !! i) = Some k.
Proof.
  intros Hl Hg Hi. apply (group_index _ _ _ _ _ Hg) in Hi as ([i' x] & Hx & Hk & <-).
  apply unused_elem in Hx as [Hx Hu]. cbn in *. rewrite Hx. cbn. split; [|by rewrite Hk].
  by eapply used_false.
Qed.

Lemma fingerprint_group items used k vs i :
  length used = length items -> (k, vs) ∈ fingerprint_groups items used -> i ∈ vs ->
  used !! i = Some false /\ (items !! i ≫= fingerprint_key) = Some k.
Proof.
  intros Hl Hg Hi. apply (group_index _ _ _ _ _ Hg) in Hi as ([k' i'] & Hx & Hk & Hi).
  cbn in Hk, Hi. subst. apply elem_of_filter_map in Hx as ([i' x] & Hx & He). cbn in He.
  destruct (fingerprint_key x) as [k'|] eqn:Ek; [|done]. cbn in He. injection He as -> ->.
  apply unused_elem in Hx as [Hx Hu]. rewrite Hx. split; [by eapply used_false|done].
Qed.

Lemma exact_group items k vs i :
  (k, vs) ∈ exact_groups items -> i ∈ vs <-> (exact_key <$> items !! i) = Some k.
Proof.
  intros Hg. rewrite (group_index _ _ _ _ _ Hg). split.
  - intros ([i' x] & Hx%enumerate_elem & <- & <-). cbn. by rewrite Hx.
  - destruct (items !! i) as [x|] eqn:Ex; [|done]. intros [= <-]. exists (i, x).
    by rewrite enumerate_elem.
Qed.

Lemma start_inv :
  al_inv {| al_pairs := []; al_base_used := replicate (length base) false;
            al_target_used := replicate (length target) false; al_budget := b0 |}.
Proof.
  assert (forall n i, replicate n false !! i = Some true <-> i ∈ ([] : list nat)) as Hr.
  { intros n i. split; [|set_solver]. by intros [[=] _]%lookup_replicate. }
  split; cbn; rewrite ?length_replicate; try done; try apply NoDup_nil_2; unfold len; cbn; lia.
Qed.

Lemma exact_phase st :
  al_inv st -> al_base_used st = replicate (length base) false ->
  al_target_used st = replicate (length target) false ->
  match for_each (align_unique Exact (exact_groups target)) st (exact_groups base) with
  | Ok st' | Err st' => al_inv st'
  end.
Proof.
  intros Hinv Hbu Htu.
  assert (forall (items : list ItemAnchor) i k, (exact_key <$> items !! i) = Some k ->
          replicate (length items) false !! i = Some false) as Hfalse.
  { intros items i k Hk. destruct (items !! i) as [x|] eqn:Ex; [|done].
    apply lookup_lt_Some in Ex. by apply lookup_replicate_2. }
  apply (phase_inv Exact (exact_groups target) _ _ _ (fun i => exact_key <$> base !! i)
           (fun j => exact_key <$> target !! j)); try done.
  - apply align_unique_turns.
  - apply bt_wf_NoDup, group_by_wf.
  - intros k vs i Hg Hi. apply (exact_group _ _ _ _ Hg) in Hi. rewrite Hbu. eauto.
  - intros k vs j Hg Hj. apply bt_get_elem in Hg; [|apply group_by_wf].
    by apply (exact_group _ _ _ _ Hg) in Hj.
  - intros k vs j _ Hg Hj. apply bt_get_elem in Hg; [|apply group_by_wf].
    apply (exact_group _ _ _ _ Hg) in Hj. rewrite Htu. eauto.
  - intros k i j Hg Ht. apply bt_get_elem in Ht; [|apply group_by_wf].
    pose proof (exact_group _ _ _ i Hg) as Hi. pose proof (exact_group _ _ _ j Ht) as Hj.
    rewrite list_elem_of_singleton in Hi, Hj.
    destruct (base !! i) as [x|] eqn:Ex; [|cbn in Hi; naive_solver].
    destruct (target !! j) as [y|] eqn:Ey; [|cbn in Hj; naive_solver].
    destruct Hi as [Hi _], Hj as [Hj _]. specialize (Hi eq_refl). specialize (Hj eq_refl).
    cbn in Hi, Hj. injection Hi as Hi. injection Hj as Hj.
    exists x, y. cbn. rewrite Ex, Ey, Hi, Hj. split_and!; try done.
    + intros i' x' Ex' Hk'. apply (list_elem_of_singleton i' i), (exact_group _ _ _ _ Hg).
      by rewrite Ex', <- Hk'.
    + intros j' y' Ey' Hk'. apply (list_elem_of_singleton j' j), (exact_group _ _ _ _ Ht).
      by rewrite Ey', <- Hk'.
Qed.

Lemma reordered_phase st :
  al_inv st ->
  match for_each (align_unique Reordered (path_groups target (al_target_used st))) st
          (path_groups base (al_base_used st)) with
  | Ok st' | Err st' => al_inv st'
  end.
Proof.
  intros Hinv. pose proof (ai_base_length _ Hinv) as Hlb. pose proof (ai_target_length _ Hinv) as Hlt.
  apply (phase_inv Reordered (path_groups target (al_target_used st)) _ _ _
           (fun i => ia_logical_path <$> base !! i) (fun j => ia_logical_path <$> target !! j));
    try done.
  - apply align_unique_turns.
  - apply bt_wf_NoDup, group_by_wf.
  - intros k vs i Hg Hi. by apply (unused_group _ _ _ _ _ _ Hlb Hg).
  - intros k vs j Hg Hj. apply bt_get_elem in Hg; [|apply group_by_wf].
    by apply (unused_group _ _ _ _ _ _ Hlt Hg).
  - intros k vs j _ Hg Hj. apply bt_get_elem in Hg; [|apply group_by_wf].
    by apply (unused_group _ _ _ _ _ _ Hlt Hg).
  - intros k i j Hg Ht. apply bt_get_elem in Ht; [|apply group_by_wf].
    destruct (unused_group _ _ _ _ _ i Hlb Hg) as [_ Hi]; [set_solver|].
    destruct (unused_group _ _ _ _ _ j Hlt Ht) as [_ Hj]; [set_solver|].
    apply fmap_Some in Hi as (x & Ex & ->). apply fmap_Some in Hj as (y & Ey & Hxy).
    by exists x, y.
Qed.

Lemma relocated_phase st :
  al_inv st ->
  match for_each (align_fingerprint (fingerprint_groups target (al_target_used st))) st
          (fingerprint_groups base (al_base_used st)) with
  | Ok st' | Err st' => al_inv st'
  end.
Proof.
  intros Hinv. pose proof (ai_base_length _ Hinv) as Hlb. pose proof (ai_target_length _ Hinv) as Hlt.
  apply (phase_inv Relocated (fingerprint_groups target (al_target_used st)) _ _ _
           (fun i => base !! i ≫= fingerprint_key) (fun j => target !! j ≫= fingerprint_key));
    try done.
  - apply align_fingerprint_turns.
  - apply bt_wf_NoDup, group_by_wf.
  - intros k vs i Hg Hi. by apply (fingerprint_group _ _ _ _ _ Hlb Hg).
  - intros k vs j Hg Hj. apply bt_get_elem in Hg; [|apply group_by_wf].
    by apply (fingerprint_group _ _ _ _ _ Hlt Hg).
  - intros k vs j _ Hg Hj. apply bt_get_elem in Hg; [|apply group_by_wf].
    by apply (fingerprint_group _ _ _ _ _ Hlt Hg).
  - intros k i j Hg Ht. apply bt_get_elem in Ht; [|apply group_by_wf].
    destruct (fingerprint_group _ _ _ _ i Hlb Hg) as [_ Hi]; [set_solver|].
    destruct (fingerprint_group _ _ _ _ j Hlt Ht) as [_ Hj]; [set_solver|].
    apply bind_Some in Hi as (x & Ex & Ekx). apply bind_Some in Hj as (y & Ey & Eky).
    exists x, y. cbn. by rewrite Ekx, Eky.
Qed.

Lemma align_loops_inv :
  match align_loops base target b0 with Ok st | Err st => al_inv st end.
Proof.
  unfold align_loops. pose proof (exact_phase _ start_inv eq_refl eq_refl) as H1.
  destruct (for_each (align_unique Exact _) _ _) as [st1|e]; [cbn|done].
  pose proof (reordered_phase _ H1) as H2.
  destruct (for_each (align_unique Reordered _) _ _) as [st2|e]; [cbn|done].
  exact (relocated_phase _ H2).
Qed.

(** ** The exact phase misses nothing *)

Lemma turns_pairs {K} `{Ord K} kind (targets : list (K * list nat)) body gs st st' p :
  turns kind targets body -> for_each body st gs = Ok st' -> p ∈ al_pairs st -> p ∈ al_pairs st'.
Proof.
  intros Hb. revert st. induction gs as [|g gs IH]; cbn; intros st He Hp; [by simplify_eq|].
  apply rbind_Ok in He as (st1 & H1 & He). apply (IH _ He).
  specialize (Hb st g). rewrite H1 in Hb.
  destruct Hb as [->|(b & _ & _ & [[_ ->]|(i & j & _ & _ & _ & ->)])]; cbn; set_solver.
Qed.

Lemma align_unique_complete {K} `{Ord K} kind (targets : list (K * list nat)) gs st st' k i j :
  for_each (align_unique kind targets) st gs = Ok st' ->
  (k, [i]) ∈ gs -> bt_get k targets = Some [j] ->
  {| base_index := i; target_index := j; pair_kind := kind |} ∈ al_pairs st'.
Proof.
  revert st. induction gs as [|g gs IH]; cbn [for_each]; intros st He Hin Ht; [set_solver|].
  apply rbind_Ok in He as (st1 & H1 & He). apply elem_of_cons in Hin as [<-|Hin]; [|by eapply IH].
  eapply (turns_pairs kind targets); [apply align_unique_turns|exact He|].
  unfold align_unique in H1. cbn in H1. rewrite Ht in H1.
  destruct (AlignmentBudget_charge _ _); [|done]. injection H1 as <-. cbn. set_solver.
Qed.

(** The group of a key with one position. *)
Lemma exact_groups_singleton items i x :
  items !! i = Some x ->
  (forall i' x', items !! i' = Some x' -> exact_key x' = exact_key x -> i' = i) ->
  (exact_key x, [i]) ∈ exact_groups items.
Proof.
  intros Hi Hu. apply group_by_elem. split; [|done].
  assert (forall e, e ∈ enumerate items -> bool_decide (exact_key e.2 = exact_key x) = true -> e = (i, x)) as Ho.
  { intros [i' x'] He Hb. apply enumerate_elem in He. simp_bool. cbn in Hb.
    assert (i' = i) as -> by eauto. congruence. }
  assert (List.filter (fun e => exact_key e.2 == exact_key x) (enumerate items) = [(i, x)]) as ->;
    [|done].
  assert ((i, x) ∈ enumerate items) as Hin by (by apply enumerate_elem).
  assert (NoDup (enumerate items)) as Hnd.
  { apply (NoDup_fmap_1 fst). change (fst <$> enumerate items) with (map fst (enumerate items)).
    rewrite enumerate_fst. apply NoDup_seq. }
  clear Hi Hu. induction (enumerate items) as [|e l IH]; [set_solver|].
  apply NoDup_cons in Hnd as [Hn Hd]. cbn. destruct (exact_key e.2 == exact_key x) eqn:E.
  - assert (e = (i, x)) as -> by (apply Ho; [set_solver|done]). f_equal.
    apply filter_none. intros e' He'. destruct (exact_key e'.2 == exact_key x) eqn:E'; [|done].
    assert (e' = (i, x)) as -> by (apply Ho; [set_solver|done]). done.
  - apply IH; [set_solver| |done]. apply elem_of_cons in Hin as [<-|]; [|done].
    simp_bool. done.
Qed.
End Alignment.

(** Used and unused positions together are all positions. *)
Lemma positions_split (idx : list nat) (used : list bool) n :
  NoDup idx -> (forall i, used !! i = Some true <-> i ∈ idx) -> length used = n ->
  Permutation (idx ++ remaining used) (seq 0 n).
Proof.
  intros Hd Hu Hl. apply NoDup_Permutation.
  - apply NoDup_app. split; [done|]. split; [|apply remaining_NoDup].
    intros i Hi%Hu Hr%remaining_elem. congruence.
  - apply NoDup_seq.
  - intros i. rewrite elem_of_app, remaining_elem, <- Hu, elem_of_seq. split.
    + intros [H|H]; apply lookup_lt_Some in H; lia.
    + intros [_ Hi]. assert (i < length used)%nat as Hi' by lia.
      apply lookup_lt_is_Some in Hi' as [[] Hb]; auto.
Qed.

Lemma finish_parts st e :
  pairs (finish st e) = sort_by_key pair_key (al_pairs st) /\ exhausted (finish st e) = e
  /\ unmatched_base (finish st e) ++ flat_map base_indices (unresolved (finish st e))
     = remaining (al_base_used st)
  /\ unmatched_target (finish st e) ++ flat_map target_indices (unresolved (finish st e))
     = remaining (al_target_used st)
  /\ (unmatched_base (finish st e) = [] \/ unmatched_target (finish st e) = [])
  /\ (e = true -> unmatched_base (finish st e) = [] /\ unmatched_target (finish st e) = []).
Proof.
  unfold finish. destruct (remaining (al_base_used st)) as [|x l],
    (remaining (al_target_used st)) as [|y k], e; cbn; rewrite ?app_nil_r; naive_solver.
Qed.

Lemma finish_partition base target budget st e :
  al_inv base target budget st ->
  let o := finish st e in
  Permutation (map base_index (pairs o) ++ unmatched_base o ++ flat_map base_indices (unresolved o))
    (seq 0 (length base))
  /\ Permutation
       (map target_index (pairs o) ++ unmatched_target o ++ flat_map target_indices (unresolved o))
       (seq 0 (length target))
  /\ Forall (justified base target) (pairs o)
  /\ ab_limit (al_budget st) = ab_limit budget
  /\ ab_used budget + len (pairs o) <= ab_used (al_budget st)
     <= Z.max (ab_used budget) (ab_limit budget).
Proof.
  intros [Hbn Htn Hbu Htu Hbl Htl Hj Hl Hs Hc]. cbv zeta.
  destruct (finish_parts st e) as (-> & _ & -> & -> & _).
  pose proof (sort_by_key_Permutation pair_key (al_pairs st)) as Hp. unfold len in *.
  split; [|split; [|split; [|split; [done|]]]].
  - etrans; [apply Permutation_app_tail, Permutation_map, Hp|]. by apply positions_split.
  - etrans; [apply Permutation_app_tail, Permutation_map, Hp|]. by apply positions_split.
  - by apply (Permutation_Forall (Permutation_sym Hp)).
  - apply Permutation_length in Hp. rewrite Hp. done.
Qed.

Lemma exact_complete base target budget st i j x y :
  align_loops base target budget = Ok st ->
  base !! i = Some x -> target !! j = Some y -> exact_key x = exact_key y ->
  (forall i' x', base !! i' = Some x' -> exact_key x' = exact_key x -> i' = i) ->
  (forall j' y', target !! j' = Some y' -> exact_key y' = exact_key x -> j' = j) ->
  {| base_index := i; target_index := j; pair_kind := Exact |} ∈ al_pairs st.
Proof.
  unfold align_loops. intros H Hx Hy Hxy Hi Hj.
  apply rbind_Ok in H as (st1 & H1 & H). apply rbind_Ok in H as (st2 & H2 & H3).
  refine (turns_pairs _ _ _ _ _ _ _ (align_fingerprint_turns _) H3 _).
  refine (turns_pairs _ _ _ _ _ _ _ (align_unique_turns _ _) H2 _).
  apply (align_unique_complete Exact _ _ _ _ (exact_key x) i j H1);
    [by apply exact_groups_singleton|].
  apply bt_get_elem; [apply group_by_wf|]. rewrite Hxy in *. by apply exact_groups_singleton.
Qed.

(** Alignment accounts for every item exactly once on each side: in a pair, as
    unmatched, or in an unresolved cluster.  Every pair is justified by its kind; an exact pair
    joins the only items with that path and ordinal, and unless the budget ran out none is
    missed.  Nothing is called unmatched while the other side has an unexplained item, or once
    the budget ran out.  Each pair was paid for, within the limit. *)
Theorem align_items_partition base target budget :
  let '(o, b) := align_items base target budget in
  Permutation (map base_index (pairs o) ++ unmatched_base o ++ flat_map base_indices (unresolved o))
    (seq 0 (length base))
  /\ Permutation
       (map target_index (pairs o) ++ unmatched_target o ++ flat_map target_indices (unresolved o))
       (seq 0 (length target))
  /\ Forall (justified base target) (pairs o)
  /\ (exhausted o = false -> forall i j x y,
        base !! i = Some x -> target !! j = Some y -> exact_key x = exact_key y ->
        (forall i' x', base !! i' = Some x' -> exact_key x' = exact_key x -> i' = i) ->
        (forall j' y', target !! j' = Some y' -> exact_key y' = exact_key x -> j' = j) ->
        {| base_index := i; target_index := j; pair_kind := Exact |} ∈ pairs o)
  /\ (unmatched_base o = [] \/ unmatched_target o = [])
  /\ (exhausted o = true -> unmatched_base o = [] /\ unmatched_target o = [])
  /\ ab_limit b = ab_limit budget
  /\ ab_used budget + len (pairs o) <= ab_used b <= Z.max (ab_used budget) (ab_limit budget).
Proof.
  unfold align_items. pose proof (align_loops_inv base target budget) as Hinv.
  destruct (align_loops base target budget) as [st|st] eqn:E.
  - destruct (finish_partition _ _ _ _ false Hinv) as (H1 & H2 & H3 & H4 & H5).
    destruct (finish_parts st false) as (Hp & Hex & _ & _ & Hu & He).
    split_and!; try done; try apply H5; [|by rewrite Hex].
    intros _ i j x y Hx Hy Hxy Hi Hj. rewrite Hp.
    apply (elem_of_Permutation_proper _ _ _ (sort_by_key_Permutation _ _)).
    by eapply exact_complete.
  - destruct (finish_partition _ _ _ _ true Hinv) as (H1 & H2 & H3 & H4 & H5).
    destruct (finish_parts st true) as (_ & Hex & _ & _ & Hu & He).
    split_and!; try done; apply H5.
Qed.

(** ** Answers *)

(** A comparison answer accepted for a request is about exactly the two files of
    that request, and honest about what it covers: full coverage is declared exactly when no
    region is left unverified, an answer that covers nothing reports no change, and every change
    has the source sides its operation needs, with valid locators. *)
Theorem accepted_diff_bound r q :
  WorkerDiffResponse_validate_against r q = Ok tt ->
  dr_base_raw_sha256 r = dq_base_raw_sha256 q /\ dr_target_raw_sha256 r = dq_target_raw_sha256 q
  /\ dr_base_size_bytes r = dq_base_size_bytes q /\ dr_target_size_bytes r = dq_target_size_bytes q
  /\ dr_base_size_bytes r <= MAX_SOURCE_BYTES_V0 /\ dr_target_size_bytes r <= MAX_SOURCE_BYTES_V0
  /\ dr_format r = dq_format q
  /\ (dr_coverage r = CoverageFull <-> dr_unverified_regions r = [])
  /\ (dr_coverage r = CoverageNone -> dr_changes r = [])
  /\ (forall c, c ∈ dr_changes r ->
        (wc_base c = None <-> exists t, wc_operation c = Some Added /\ wc_target c = Some t)
        /\ (wc_target c = None <-> exists b, wc_operation c = Some Removed /\ wc_base c = Some b)
        /\ (forall l, wc_base c = Some l \/ wc_target c = Some l -> SourceLocator_ok l = true)).
Proof.
  unfold WorkerDiffResponse_validate_against, WorkerDiffRequest_validate,
    WorkerDiffResponse_validate. intros H.
  apply rbind_Ok in H as ([] & Hq & H). apply rbind_Ok in H as ([] & Hv & H).
  inv_ok_hyp Hq. inv_ok_hyp H. do 5 inv_ok_hyp Hv.
  apply rbind_Ok in Hv as ([] & Hc & _). apply for_each_unit in Hc. rewrite Forall_forall in Hc.
  simp_bool. split_and!; try congruence; try lia.
  - destruct (dr_coverage r), (dr_unverified_regions r); cbn in *; naive_solver.
  - destruct (dr_coverage r), (dr_changes r); cbn in *; try done.
    by destruct (dr_unverified_regions r).
  - intros c Hin. specialize (Hc c Hin). unfold WorkerChange_validate in Hc.
    do 3 inv_ok_hyp Hc. apply rbind_Ok in Hc as ([] & Hb & Ht).
    unfold sides_valid, validate_side, SourceLocator_validate in *. simp_bool.
    destruct (wc_operation c) as [[]|], (wc_base c) as [lb|], (wc_target c) as [lt|]; cbn in *;
      try done; inv_ok; split_and!; try naive_solver.
Qed.

Module DiffToy.
Definition zeros : Bytes32 := fun_to_vec (fun _ => Ascii.ascii_of_N 0).

Definition request : WorkerDiffRequest := {|
  dq_protocol_version := DiffWorkerV0; dq_diff_profile_version := DiffProfileV0;
  dq_resource_profile_version := ResourceProfileV0; dq_format := Txt;
  dq_base_raw_sha256 := zeros; dq_base_size_bytes := 3;
  dq_target_raw_sha256 := zeros; dq_target_size_bytes := 4 |}.

Definition added : WorkerChange := {|
  wc_operation := Some Added; wc_relocation := None; wc_facet := "text";
  wc_base := None; wc_target := Some (TextSpan 1 0 4); wc_reason_code := "line_added" |}.

Definition response : WorkerDiffResponse := {|
  dr_protocol_version := DiffWorkerV0; dr_diff_profile_version := DiffProfileV0;
  dr_resource_profile_version := ResourceProfileV0;
  dr_base_raw_sha256 := zeros; dr_base_size_bytes := 3;
  dr_target_raw_sha256 := zeros; dr_target_size_bytes := 4; dr_format := Txt;
  dr_coverage := CoverageFull; dr_changes := [added]; dr_unverified_regions := [];
  dr_ancillary_changes := []; dr_parser_provenance := "text-v0" |}.

Lemma accepted_diff_bound_witness :
  dr_changes response <> [] /\ dr_format response = Txt
  /\ (dr_coverage response = CoverageFull <-> dr_unverified_regions response = []).
Proof.
  destruct (accepted_diff_bound response request) as (_&_&_&_&_&_&Hf&Hc&_).
  { vm_compute. reflexivity. }
  split; [discriminate|]. split; [exact Hf|exact Hc].
Defined.
End DiffToy.
