(* ===== verification/Json.v ===== *)
(** * Json: audit-core's rejection codes (codes.rs) and bounded JSON admission (json.rs)

    A rejection carries a code and at most a static location; it has no room for payload.

    A value is the tree serde_json builds; the members of an object are listed in iteration
    order.  The text parser of serde_json is not part of the repository: [parse_bounded] is
    interpreted over the visitor calls that parser makes, the parameter [deserializer]. *)
From stdpp Require Import base gmap sets list strings pretty sorting.
From S2P Require Import Prelude Text Ordered.
From Stdlib Require Import ZArith Lia Ascii.

(** ** codes.rs *)

Inductive RejectionCode : Type :=
| EnvelopeTooLarge
| InvalidJson
| DuplicateKey
| InvalidEnvelope
| UnknownEventType
| ControlTypeForbidden
| InvalidSource
| InvalidSubject
| InvalidResource
| NilClientId
| InvalidResult
| InvalidActor
| InvalidServiceExecutor
| UnknownField
| MissingField
| InvalidField
| InvalidCorrelation
| InvalidSourceCorrelation
| InvalidReason
| ReasonNotString
| ActorMismatch
| SourceRowTooLarge
| SourceDigestMismatch
| InvalidProvenance
| InvalidExtensions.
#[global] Instance RejectionCode_eq_dec : EqDecision RejectionCode.
Proof. solve_decision. Defined.

(** [RejectionCode::ALL]. *)
Definition RejectionCode_ALL : list RejectionCode :=
  [EnvelopeTooLarge; InvalidJson; DuplicateKey; InvalidEnvelope; UnknownEventType;
   ControlTypeForbidden; InvalidSource; InvalidSubject; InvalidResource; NilClientId;
   InvalidResult; InvalidActor; InvalidServiceExecutor; UnknownField; MissingField;
   InvalidField; InvalidCorrelation; InvalidSourceCorrelation; InvalidReason;
   ReasonNotString; ActorMismatch; SourceRowTooLarge; SourceDigestMismatch;
   InvalidProvenance; InvalidExtensions].

(** The wire name. *)
Definition RejectionCode_as_str (code : RejectionCode) : string :=
  match code with
  | EnvelopeTooLarge => "envelope_too_large"
  | InvalidJson => "invalid_json"
  | DuplicateKey => "duplicate_key"
  | InvalidEnvelope => "invalid_envelope"
  | UnknownEventType => "unknown_event_type"
  | ControlTypeForbidden => "control_type_forbidden"
  | InvalidSource => "invalid_source"
  | InvalidSubject => "invalid_subject"
  | InvalidResource => "invalid_resource"
  | NilClientId => "nil_client_id"
  | InvalidResult => "invalid_result"
  | InvalidActor => "invalid_actor"
  | InvalidServiceExecutor => "invalid_service_executor"
  | UnknownField => "unknown_field"
  | MissingField => "missing_field"
  | InvalidField => "invalid_field"
  | InvalidCorrelation => "invalid_correlation"
  | InvalidSourceCorrelation => "invalid_source_correlation"
  | InvalidReason => "invalid_reason"
  | ReasonNotString => "reason_not_string"
  | ActorMismatch => "actor_mismatch"
  | SourceRowTooLarge => "source_row_too_large"
  | SourceDigestMismatch => "source_digest_mismatch"
  | InvalidProvenance => "invalid_provenance"
  | InvalidExtensions => "invalid_extensions"
  end.

Definition RejectionCode_parse (value : string) : option RejectionCode :=
  find (fun code => RejectionCode_as_str code == value) RejectionCode_ALL.

Record Rejection : Type := { rejection_code : RejectionCode; rejection_field : option string }.

Definition Rejection_new (code : RejectionCode) : Rejection :=
  {| rejection_code := code; rejection_field := None |}.

(** [Rejection::at]. *)
Definition Rejection_at (code : RejectionCode) (field : string) : Rejection :=
  {| rejection_code := code; rejection_field := Some field |}.

(** envelope.rs [reject]. *)
Definition reject {T} (code : RejectionCode) (field : string) : Result T Rejection :=
  Err (Rejection_at code field).

Lemma RejectionCode_ALL_complete code : code ∈ RejectionCode_ALL.
Proof. destruct code; vm_compute; repeat constructor. Qed.

(** Every code has its own wire name, and parsing it gives the code back. *)
Lemma RejectionCode_parse_as_str code : RejectionCode_parse (RejectionCode_as_str code) = Some code.
Proof. by destruct code. Qed.

Local Open Scope Z_scope.

(** Floating-point numbers and their shortest decimal rendering (crate ryu). *)
Class Floats : Type := {
  f64 : Type;
  f64_eqb : f64 -> f64 -> bool;
  f64_to_string : f64 -> string
}.

Section Values.
Context {F : Floats}.

Inductive Number : Type := NInt (z : Z) | NFloat (f : f64).

Inductive Value : Type :=
| VNull
| VBool (b : bool)
| VNumber (n : Number)
| VString (s : string)
| VArray (items : list Value)
| VObject (members : list (string * Value)).

(** Induction through the nested lists. *)
Section Induction.
Context (P : Value -> Prop)
  (Hnull : P VNull)
  (Hbool : forall b, P (VBool b))
  (Hnum : forall n, P (VNumber n))
  (Hstr : forall s, P (VString s))
  (Harr : forall items, Forall P items -> P (VArray items))
  (Hobj : forall members, Forall (fun e => P e.2) members -> P (VObject members)).

Fixpoint Value_nested_ind (v : Value) : P v :=
  match v with
  | VNull => Hnull
  | VBool b => Hbool b
  | VNumber n => Hnum n
  | VString s => Hstr s
  | VArray items =>
      Harr items
        ((fix go l := match l return Forall P l with
                      | [] => Forall_nil_2 _
                      | x :: l => Forall_cons_2 _ x l (Value_nested_ind x) (go l)
                      end) items)
  | VObject members =>
      Hobj members
        ((fix go l := match l return Forall (fun e => P e.2) l with
                      | [] => Forall_nil_2 _
                      | x :: l => Forall_cons_2 _ x l (Value_nested_ind x.2) (go l)
                      end) members)
  end.
End Induction.

Definition number_to_string (n : Number) : string :=
  match n with NInt z => pretty z | NFloat f => f64_to_string f end.

(** ** Accessors *)

Definition as_str (v : Value) : option string :=
  match v with VString s => Some s | _ => None end.

Definition as_bool (v : Value) : option bool :=
  match v with VBool b => Some b | _ => None end.

(** An integer that fits; a float such as [1.0] never does. *)
Definition as_i64 (v : Value) : option Z :=
  match v with
  | VNumber (NInt z) => if (i64_min <=? z) && (z <=? i64_max) then Some z else None
  | _ => None
  end.

Definition as_u64 (v : Value) : option Z :=
  match v with
  | VNumber (NInt z) => if (0 <=? z) && (z <? 2 ^ 64) then Some z else None
  | _ => None
  end.

Definition as_array (v : Value) : option (list Value) :=
  match v with VArray items => Some items | _ => None end.

Definition as_object (v : Value) : option (list (string * Value)) :=
  match v with VObject members => Some members | _ => None end.

Definition is_null (v : Value) : bool := match v with VNull => true | _ => false end.

(** [Map::get] and [Map::contains_key]. *)
Definition member (m : list (string * Value)) (name : string) : option Value :=
  snd <$> find (fun e => e.1 == name) m.

Definition has_member (m : list (string * Value)) (name : string) : bool :=
  is_some (member m name).

(** [Value::get] of a member name, and indexing, which gives [Null] for a missing one. *)
Definition get (v : Value) (name : string) : option Value :=
  match v with VObject m => member m name | _ => None end.

Definition index (v : Value) (name : string) : Value := unwrap_or VNull (get v name).

(** [PartialEq]: objects are equal when they have the same members, in whatever order. *)
Fixpoint value_eqb (a b : Value) : bool :=
  match a, b with
  | VNull, VNull => true
  | VBool x, VBool y => Bool.eqb x y
  | VNumber (NInt x), VNumber (NInt y) => x =? y
  | VNumber (NFloat x), VNumber (NFloat y) => f64_eqb x y
  | VString x, VString y => x == y
  | VArray xs, VArray ys =>
      (fix go xs ys :=
         match xs, ys with
         | [], [] => true
         | x :: xs, y :: ys => value_eqb x y && go xs ys
         | _, _ => false
         end) xs ys
  | VObject xs, VObject ys =>
      (len xs =? len ys)
      && (fix go xs :=
            match xs with
            | [] => true
            | (k, x) :: xs =>
                match member ys k with
                | Some y => value_eqb x y
                | None => false
                end && go xs
            end) xs
  | _, _ => false
  end.

(** [value == "text"]. *)
Definition is_text (v : Value) (text : string) : bool := as_str v == Some text.

Definition opt_value_eqb (a b : option Value) : bool :=
  match a, b with
  | None, None => true
  | Some a, Some b => value_eqb a b
  | _, _ => false
  end.

(** [all(|(i, item)| !items[..i].contains(item))]. *)
Fixpoint distinct_values (before items : list Value) : bool :=
  match items with
  | [] => true
  | item :: items =>
      negb (existsb (fun x => value_eqb x item) before)
      && distinct_values (before ++ [item]) items
  end.

(** ** The length of the PostgreSQL rendering *)

Definition usize_max : Z := 2 ^ 64 - 1.
Definition saturating_add (a b : Z) : Z := Z.min usize_max (a + b).
Definition saturating_sub (a b : Z) : Z := Z.max 0 (a - b).

Definition len_utf8 (c : Z) : Z :=
  if c <? 0x80 then 1 else if c <? 0x800 then 2 else if c <? 0x10000 then 3 else 4.

(** The short escapes: quote, backslash, backspace, form feed, newline, return and tab. *)
Definition short_escape (c : Z) : bool := contains [34; 92; 8; 12; 10; 13; 9] c.

Definition char_len (c : Z) : Z :=
  if short_escape c then 2 else if c <? 0x20 then 6 else len_utf8 c.

Definition quoted_len (text : string) : Z :=
  2 + fold_right Z.add 0 (map char_len (chars text)).

(** The work of one turn of the loop: the length a popped value adds and what it pushes; the
    stack is a [Vec], so the last pushed is popped first. *)
Definition visit_len (value : Value) : Z * list Value :=
  match value with
  | VNull | VBool true => (4, [])
  | VBool false => (5, [])
  | VNumber n => (str_len (number_to_string n), [])
  | VString text => (quoted_len text, [])
  | VArray items => (2 + 2 * saturating_sub (len items) 1, rev items)
  | VObject members =>
      (fold_left (fun l e => saturating_add l (quoted_len e.1 + 2)) members
         (2 + 2 * saturating_sub (len members) 1),
       rev (map snd members))
  end.

(** [while let Some(value) = stack.pop()]; [None] when the fuel runs out. *)
Fixpoint text_len_loop (fuel : nat) (total : Z) (stack : list Value) : option Z :=
  match fuel, stack with
  | _, [] => Some total
  | O, _ => None
  | S fuel, value :: stack =>
      let '(l, pushed) := visit_len value in
      text_len_loop fuel (saturating_add total l) (pushed ++ stack)
  end.

(** The number of nodes, which bounds the turns of the loop. *)
Fixpoint nodes (v : Value) : nat :=
  match v with
  | VArray items => S (fold_right (fun x n => nodes x + n)%nat O items)
  | VObject members => S (fold_right (fun e n => nodes e.2 + n)%nat O members)
  | _ => 1
  end.

Definition jsonb_text_len (value : Value) : option Z := text_len_loop (nodes value) 0 [value].

(** ** [canonicalize] (json.rs; canonical.rs has the same function) *)

Fixpoint canonicalize (value : Value) : Value :=
  match value with
  | VObject members =>
      VObject (sort_by_key fst (map (fun e => (e.1, canonicalize e.2)) members))
  | VArray items => VArray (map canonicalize items)
  | other => other
  end.

(** ** Admission: the visitor [UniqueSeed] *)

(** The calls a deserializer makes on a visitor.  An input that breaks off inside a container
    ends its items with [false]; a value that cannot be read at all is [RError]. *)
Inductive Raw : Type :=
| RUnit
| RBool (b : bool)
| RInt (z : Z)
| RFloat (f : option f64)
| RStr (s : string)
| RSeq (items : list Raw) (complete : bool)
| RMap (members : list (string * Raw)) (complete : bool)
| RError.

(** Why a visit fails: the flag [state.duplicate] distinguishes a repeated member. *)
Inductive VisitError : Type := VisitDuplicate | VisitInvalid.

(** [MAX_JSON_BYTES] and [MAX_JSON_DEPTH]. *)
Definition MAX_JSON_BYTES : Z := 64 * 1024.
Definition MAX_JSON_DEPTH : Z := 8.

(** [UniqueSeed::enter]. *)
Definition enter (max_depth depth : Z) : Result Z VisitError :=
  if max_depth <? depth + 1 then Err VisitInvalid else Ok (depth + 1).

(** The loops of [visit_seq] and [visit_map]: the elements until the container ends; [seen]
    holds the member names already inserted. *)
Definition visit_items (seed : Raw -> Result Value VisitError) (complete : bool)
    : list Raw -> Result (list Value) VisitError :=
  fix go l :=
    match l with
    | [] => if complete then Ok [] else Err VisitInvalid
    | x :: l =>
        let? v := seed x in
        let? vs := go l in
        Ok (v :: vs)
    end.

Definition visit_members (seed : Raw -> Result Value VisitError) (complete : bool)
    : list string -> list (string * Raw) -> Result (list (string * Value)) VisitError :=
  fix go seen l :=
    match l with
    | [] => if complete then Ok [] else Err VisitInvalid
    | (key, x) :: l =>
        if contains seen key then Err VisitDuplicate
        else
          let? v := seed x in
          let? vs := go (key :: seen) l in
          Ok ((key, v) :: vs)
    end.

(** The methods of the visitor: [visit_f64] refuses a number that is not finite, [visit_seq]
    and [visit_map] enter one level and read until the end of the container. *)
Fixpoint visit (max_depth depth : Z) (raw : Raw) : Result Value VisitError :=
  match raw with
  | RUnit => Ok VNull
  | RBool b => Ok (VBool b)
  | RInt z => Ok (VNumber (NInt z))
  | RFloat (Some f) => Ok (VNumber (NFloat f))
  | RFloat None => Err VisitInvalid
  | RStr s => Ok (VString s)
  | RSeq items complete =>
      let? inner := enter max_depth depth in
      let? vs := visit_items (visit max_depth inner) complete items in
      Ok (VArray vs)
  | RMap members complete =>
      let? inner := enter max_depth depth in
      let? vs := visit_members (visit max_depth inner) complete [] members in
      Ok (VObject vs)
  | RError => Err VisitInvalid
  end.

(** The flag [state.duplicate] decides the code. *)
Definition rejection (e : VisitError) : Rejection :=
  match e with
  | VisitDuplicate => Rejection_new DuplicateKey
  | VisitInvalid => Rejection_new InvalidJson
  end.

(** [deserializer text] is what [serde_json::Deserializer::from_str] presents: the value read
    and whether nothing but white space follows it. *)
Definition parse_bounded (deserializer : string -> Raw * bool) (text : string)
    (max_bytes max_depth : Z) : Result Value Rejection :=
  if max_bytes <? str_len text then Err (Rejection_new EnvelopeTooLarge)
  else
    let '(raw, at_end) := deserializer text in
    let? value := map_err rejection (visit max_depth 0 raw) in
    if at_end then Ok value else Err (Rejection_new InvalidJson).

Definition parse_unique (deserializer : string -> Raw * bool) (text : string)
    : Result Value Rejection :=
  parse_bounded deserializer text MAX_JSON_BYTES MAX_JSON_DEPTH.
End Values.
