(* ===== verification/JsonTheorems.v ===== *)
(** * JsonTheorems: the measured length, canonical member order and admission

    [render] is the reference: the PostgreSQL text of a value, one space after every member
    colon and every separating comma.  The loop of [jsonb_text_len] terminates within one turn
    per node and measures exactly that text, up to the saturation of [usize]. *)
From stdpp Require Import base gmap sets list strings pretty sorting.
From Stdlib Require Import ZArith Lia Ascii.
From S2P Require Import Prelude Text Ordered Json.

Local Open Scope Z_scope.

Definition sumZ (l : list Z) : Z := fold_right Z.add 0 l.

Lemma sumZ_app l k : sumZ (l ++ k) = sumZ l + sumZ k.
Proof. unfold sumZ. induction l as [|a l IH]; cbn in *; lia. Qed.

Lemma sumZ_perm l k : Permutation l k -> sumZ l = sumZ k.
Proof. unfold sumZ. induction 1; cbn in *; lia. Qed.

Lemma len_cons {A} (a : A) l : len (a :: l) = 1 + len l.
Proof. unfold len. cbn. lia. Qed.

Lemma len_map {A B} (f : A -> B) l : len (map f l) = len l.
Proof. unfold len. by rewrite length_map. Qed.

Lemma len_concat {A} (ls : list (list A)) : len (concat ls) = sumZ (map len ls).
Proof.
  unfold sumZ. induction ls as [|l ls IH]; cbn; [done|]. rewrite len_app. cbn in IH. lia.
Qed.

Lemma len_bytes s : len (bytes s) = str_len s.
Proof.
  unfold str_len, len. f_equal. induction s as [|c s IH]; cbn; [done|]. by rewrite IH.
Qed.

Section Theorems.
Context {F : Floats}.

(** ** The reference rendering *)

Definition hex_digit (d : Z) : Z := if d <? 10 then 48 + d else 87 + d.

Definition escape_letter (c : Z) : Z :=
  if c =? 8 then 98 else if c =? 12 then 102 else if c =? 10 then 110
  else if c =? 13 then 114 else if c =? 9 then 116 else c.

Definition render_char (c : Z) : list Z :=
  if short_escape c then [92; escape_letter c]
  else if c <? 32 then [92; 117; 48; 48; hex_digit (Z.shiftr c 4); hex_digit (Z.land c 15)]
  else encode_char c.

Definition render_string (s : string) : list Z :=
  [34] ++ concat (map render_char (chars s)) ++ [34].

Fixpoint separated (parts : list (list Z)) : list Z :=
  match parts with
  | [] => []
  | [p] => p
  | p :: ps => p ++ [44; 32] ++ separated ps
  end.

Fixpoint render (v : Value) : list Z :=
  match v with
  | VNull => bytes "null"
  | VBool true => bytes "true"
  | VBool false => bytes "false"
  | VNumber n => bytes (number_to_string n)
  | VString s => render_string s
  | VArray items => [91] ++ separated (map render items) ++ [93]
  | VObject members =>
      [123] ++ separated (map (fun e => render_string e.1 ++ [58; 32] ++ render e.2) members)
      ++ [125]
  end.

(** ** Lengths *)

Lemma render_char_len c : len (render_char c) = char_len c.
Proof.
  unfold render_char, char_len, encode_char, len_utf8. destruct (short_escape c); [done|].
  destruct (c <? 32) eqn:E1; [done|].
  repeat (case_match; [done|]). done.
Qed.

Lemma render_string_len s : len (render_string s) = quoted_len s.
Proof.
  unfold render_string, quoted_len. rewrite !len_app, len_concat, map_map.
  rewrite (map_ext _ char_len) by apply render_char_len. cbn. unfold sumZ, len. cbn. lia.
Qed.

Lemma separated_len ps :
  len (separated ps) = sumZ (map len ps) + 2 * saturating_sub (len ps) 1.
Proof.
  induction ps as [|p [|q ps] IH]; [done| |].
  - cbn [separated map sumZ fold_right]. unfold saturating_sub. change (len [p]) with 1. lia.
  - change (separated (p :: q :: ps)) with (p ++ [44; 32] ++ separated (q :: ps)).
    rewrite !len_app, IH. cbn [map sumZ fold_right]. unfold saturating_sub.
    change (len [44; 32]) with 2. rewrite !len_cons. pose proof (len_nonneg ps).
    unfold sumZ. lia.
Qed.

Lemma quoted_len_nonneg s : 0 <= quoted_len s.
Proof. rewrite <- render_string_len. apply len_nonneg. Qed.

Lemma fold_saturating (members : list (string * Value)) l :
  0 <= l ->
  Z.min usize_max
    (fold_left (fun l e => saturating_add l (quoted_len e.1 + 2)) members l)
  = Z.min usize_max (l + sumZ (map (fun e => quoted_len e.1 + 2) members))
  /\ 0 <= fold_left (fun l e => saturating_add l (quoted_len e.1 + 2)) members l.
Proof.
  revert l. induction members as [|e members IH]; intros l Hl; cbn; [split; [f_equal; lia|done]|].
  pose proof (quoted_len_nonneg e.1). unfold saturating_add at 2 4.
  destruct (IH (Z.min usize_max (l + (quoted_len e.1 + 2)))) as [H1 H2]; [unfold usize_max; lia|].
  assert (0 <= sumZ (map (fun e => quoted_len e.1 + 2) members)).
  { unfold sumZ. clear. induction members as [|e m IH]; cbn; [done|].
    pose proof (quoted_len_nonneg e.1). lia. }
  split; [|done]. rewrite H1. unfold sumZ in *. lia.
Qed.

Lemma Z_min_add_l a b c : Z.min a b = Z.min a c -> forall d, 0 <= d ->
  Z.min a (b + d) = Z.min a (c + d).
Proof. lia. Qed.

(** One turn: the added length and the lengths of the pushed values make the whole. *)
Lemma visit_len_spec v :
  0 <= (visit_len v).1 /\
  Z.min usize_max ((visit_len v).1 + sumZ (map (fun x => len (render x)) (visit_len v).2))
  = Z.min usize_max (len (render v)).
Proof.
  assert (forall l : list Value, sumZ (map (fun x => len (render x)) (rev l))
                                 = sumZ (map (fun x => len (render x)) l)) as Hrev.
  { intros l. apply sumZ_perm, Permutation_map. symmetry. apply Permutation_rev. }
  destruct v as [|[]|n|s|items|members]; cbn [visit_len fst snd].
  1-3: by vm_compute.
  - cbn [render map sumZ fold_right]. rewrite len_bytes. unfold str_len. split; [lia|f_equal; lia].
  - cbn [render map sumZ fold_right]. rewrite render_string_len. pose proof (quoted_len_nonneg s).
    split; [done|f_equal; lia].
  - cbn [render]. rewrite !len_app, separated_len, map_map, len_map, Hrev.
    unfold saturating_sub. pose proof (len_nonneg items). split; [lia|]. f_equal.
    change (len [91]) with 1. change (len [93]) with 1. lia.
  - cbn [render]. rewrite !len_app, separated_len, map_map, len_map, Hrev, map_map.
    change (len [123]) with 1. change (len [125]) with 1.
    set (base := 2 + 2 * saturating_sub (len members) 1).
    assert (0 <= base) as Hb by (unfold base, saturating_sub; lia).
    destruct (fold_saturating members base Hb) as [H1 H2]. split; [done|].
    erewrite Z_min_add_l; [|exact H1|].
    + f_equal. unfold base. clear H1 H2 Hb base. unfold sumZ.
      enough (fold_right Z.add 0 (map (fun e => quoted_len e.1 + 2) members)
              + fold_right Z.add 0 (map (fun e => len (render e.2)) members)
              = fold_right Z.add 0
                  (map (fun e => len (render_string e.1 ++ [58; 32] ++ render e.2)) members))
        by lia.
      induction members as [|e m IH]; cbn [map fold_right]; [done|].
      rewrite <- IH, !len_app, render_string_len. change (len [58; 32]) with 2. lia.
    + unfold sumZ. clear. induction members as [|e m IH]; cbn; [done|].
      pose proof (len_nonneg (render e.2)). lia.
Qed.

Definition stack_nodes (stack : list Value) : nat := fold_right (fun x n => nodes x + n)%nat O stack.

Lemma stack_nodes_app l k : stack_nodes (l ++ k) = (stack_nodes l + stack_nodes k)%nat.
Proof. unfold stack_nodes. induction l as [|x l IH]; cbn in *; lia. Qed.

Lemma stack_nodes_rev l : stack_nodes (rev l) = stack_nodes l.
Proof.
  induction l as [|x l IH]; cbn; [done|]. rewrite stack_nodes_app, IH. cbn.
  fold (stack_nodes l). lia.
Qed.

Lemma visit_len_nodes v : nodes v = S (stack_nodes (visit_len v).2).
Proof.
  destruct v as [|[]|n|s|items|members]; cbn [visit_len snd nodes]; try done; f_equal.
  - by rewrite stack_nodes_rev.
  - rewrite stack_nodes_rev. clear. induction members as [|e m IH]; cbn; [done|]. by rewrite IH.
Qed.

Lemma render_sum_nonneg l : 0 <= sumZ (map (fun x => len (render x)) l).
Proof.
  unfold sumZ. induction l as [|x l IH]; cbn; [done|]. pose proof (len_nonneg (render x)). lia.
Qed.

(** Fuel for every node on the stack is enough, and the loop adds up the rendered lengths. *)
Lemma text_len_loop_spec fuel total stack :
  0 <= total <= usize_max -> (stack_nodes stack <= fuel)%nat ->
  text_len_loop fuel total stack
  = Some (Z.min usize_max (total + sumZ (map (fun x => len (render x)) stack))).
Proof.
  revert total stack. induction fuel as [|fuel IH]; intros total [|v stack] Ht Hf;
    cbn [text_len_loop].
  1,3: f_equal; unfold sumZ; cbn; lia.
  - cbn in Hf. pose proof (visit_len_nodes v). lia.
  - pose proof (visit_len_nodes v) as Hn. destruct (visit_len_spec v) as [Hl Hs].
    destruct (visit_len v) as [l pushed]. cbn in Hn, Hl, Hs. cbn in Hf.
    pose proof (render_sum_nonneg pushed). pose proof (render_sum_nonneg stack).
    pose proof (len_nonneg (render v)). unfold saturating_add. rewrite IH.
    + f_equal. rewrite map_app, sumZ_app. cbn [map sumZ fold_right].
      fold (sumZ (map (fun x => len (render x)) stack)).
      unfold sumZ in *. lia.
    + unfold usize_max in *. lia.
    + rewrite stack_nodes_app. unfold stack_nodes in *. lia.
Qed.

Lemma jsonb_text_len_spec value :
  jsonb_text_len value = Some (Z.min usize_max (len (render value))).
Proof.
  unfold jsonb_text_len. rewrite text_len_loop_spec; cbn.
  - do 2 f_equal. lia.
  - unfold usize_max. lia.
  - lia.
Qed.

(** The work-list loop that measures an envelope terminates: with one turn per node,
    or any larger number, it returns, and its result is the length of the text PostgreSQL
    stores, capped at the largest [usize]. *)
Theorem jsonb_text_len_exact value fuel :
  (nodes value <= fuel)%nat ->
  text_len_loop fuel 0 [value] = Some (Z.min usize_max (len (render value)))
  /\ jsonb_text_len value = text_len_loop fuel 0 [value].
Proof.
  intros Hf. rewrite jsonb_text_len_spec, text_len_loop_spec; cbn; [|unfold usize_max; lia|lia].
  rewrite Z.add_0_r. done.
Qed.

(** ** Member order *)

(** Values that differ in the order of object members, at any depth. *)
Inductive reordered : Value -> Value -> Prop :=
| ro_refl v : reordered v v
| ro_trans u v w : reordered u v -> reordered v w -> reordered u w
| ro_swap ms ms' : NoDup (map fst ms) -> Permutation ms ms' -> reordered (VObject ms) (VObject ms')
| ro_member k v v' l r : reordered v v' ->
    reordered (VObject (l ++ (k, v) :: r)) (VObject (l ++ (k, v') :: r))
| ro_item v v' l r : reordered v v' ->
    reordered (VArray (l ++ v :: r)) (VArray (l ++ v' :: r)).

(** The canonical form does not depend on the order in which object members
    were written, at any depth, and it is a fixed point. *)
Theorem canonicalize_canonical :
  (forall v w, reordered v w -> canonicalize v = canonicalize w) /\
  (forall v, canonicalize (canonicalize v) = canonicalize v).
Proof.
  split.
  - induction 1 as [| |ms ms' Hn Hp|k v v' l r _ IH|v v' l r _ IH]; [done|congruence| | |]; cbn.
    + f_equal. apply sort_by_key_unique; [|by apply Permutation_map].
      by rewrite map_map.
    + by rewrite !map_app; cbn; rewrite IH.
    + by rewrite !map_app; cbn; rewrite IH.
  - induction v as [| | | |items IH|ms IH] using Value_nested_ind; cbn; try done.
    + f_equal. rewrite map_map. apply map_ext_Forall. done.
    + f_equal. set (f := fun e : string * Value => (e.1, canonicalize e.2)).
      assert (map f (sort_by_key fst (map f ms)) = sort_by_key fst (map f ms)) as ->.
      { assert (Forall (fun e => f e = e) (sort_by_key fst (map f ms))) as Hid.
        { rewrite sort_by_key_Permutation. apply Forall_fmap.
          eapply Forall_impl; [exact IH|]. intros [k v] E. unfold f. cbn in *. by rewrite E. }
        induction Hid as [|e l He _ IHl]; cbn; [done|]. by rewrite He, IHl. }
      apply stable_sort_sorted_id, sort_by_key_sorted.
Qed.


(** ** Admission *)

(** The visitor calls that present a value. *)
Fixpoint to_raw (v : Value) : Raw :=
  match v with
  | VNull => RUnit
  | VBool b => RBool b
  | VNumber (NInt z) => RInt z
  | VNumber (NFloat f) => RFloat (Some f)
  | VString s => RStr s
  | VArray items => RSeq (map to_raw items) true
  | VObject members => RMap (map (fun e => (e.1, to_raw e.2)) members) true
  end.

(** Container nesting: the root container is at depth 1. *)
Fixpoint depth (v : Value) : Z :=
  match v with
  | VArray items => 1 + fold_right (fun x d => Z.max (depth x) d) 0 items
  | VObject members => 1 + fold_right (fun e d => Z.max (depth e.2) d) 0 members
  | _ => 0
  end.

(** No object repeats a member name, at any depth. *)
Fixpoint unique_members (v : Value) : Prop :=
  match v with
  | VArray items => fold_right (fun x P => unique_members x /\ P) True items
  | VObject members =>
      NoDup (map fst members) /\ fold_right (fun e P => unique_members e.2 /\ P) True members
  | _ => True
  end.

Section RawInduction.
Context (P : Raw -> Prop)
  (Hleaf : forall r, (forall l b, r <> RSeq l b) -> (forall l b, r <> RMap l b) -> P r)
  (Hseq : forall items b, Forall P items -> P (RSeq items b))
  (Hmap : forall members b, Forall (fun e => P e.2) members -> P (RMap members b)).

Fixpoint Raw_nested_ind (r : Raw) : P r.
Proof.
  destruct r as [| | | | |items b|members b|]; try (by apply Hleaf).
  - apply Hseq. induction items; constructor; [apply Raw_nested_ind|done].
  - apply Hmap. induction members as [|e members IH]; constructor; [apply Raw_nested_ind|done].
Defined.
End RawInduction.

Definition admitted (max_depth d : Z) (raw : Raw) (v : Value) : Prop :=
  raw = to_raw v /\ unique_members v /\ d + depth v <= max_depth.

Lemma visit_items_inv max_depth d b items vs :
  Forall (fun r => forall v, visit max_depth d r = Ok v -> admitted max_depth d r v) items ->
  visit_items (visit max_depth d) b items = Ok vs -> d <= max_depth ->
  b = true /\ admitted max_depth (d - 1) (RSeq items b) (VArray vs).
Proof.
  intros Hall Hv Hd. unfold admitted.
  enough (b = true /\ items = map to_raw vs /\ unique_members (VArray vs)
          /\ d + fold_right (fun x d => Z.max (depth x) d) 0 vs <= max_depth) as (-> & -> & ? & ?).
  { cbn in *. repeat split; try done. lia. }
  revert vs Hv. induction Hall as [|r items Hr _ IH]; cbn; intros vs Hv.
  - destruct b; inv_ok; subst. cbn. repeat split; try done. lia.
  - inv_ok. subst. destruct (Hr _ Hok) as (-> & ? & ?). destruct (IH _ Hok0) as (-> & -> & ? & ?).
    cbn in *. repeat split; try done. lia.
Qed.

Lemma visit_members_inv max_depth d b seen members vs :
  Forall (fun e => forall v, visit max_depth d e.2 = Ok v -> admitted max_depth d e.2 v) members ->
  visit_members (visit max_depth d) b seen members = Ok vs -> d <= max_depth ->
  b = true /\ members = map (fun e => (e.1, to_raw e.2)) vs
  /\ NoDup (map fst vs) /\ (forall k, k ∈ map fst vs -> k ∉ seen)
  /\ fold_right (fun e P => unique_members e.2 /\ P) True vs
  /\ d + fold_right (fun e d => Z.max (depth e.2) d) 0 vs <= max_depth.
Proof.
  intros Hall Hv Hd. revert seen vs Hv.
  induction Hall as [|[k r] members Hr _ IH]; cbn; intros seen vs Hv.
  - destruct b; inv_ok; subst. cbn. repeat split; try done; [constructor|set_solver|lia].
  - inv_ok. subst. destruct (Hr _ Hok) as (Hraw & ? & ?). cbn in Hraw. subst r.
    destruct (IH _ _ Hok0) as (-> & -> & Hn & Hs & ? & ?).
    unfold contains in Hguard. simp_bool. cbn in *. repeat split; try done.
    + apply NoDup_cons. split; [|done]. intros Hk. apply (Hs k Hk). set_solver.
    + intros j [->|Hj]%elem_of_cons; [done|]. specialize (Hs j Hj). set_solver.
    + lia.
Qed.

Lemma visit_inv max_depth raw : forall d v,
  d <= max_depth -> visit max_depth d raw = Ok v -> admitted max_depth d raw v.
Proof.
  unfold admitted. induction raw as [r H1 H2|items b IH|members b IH] using Raw_nested_ind;
    intros d v Hd Hv.
  - destruct r as [| | |[f|]| |items b|members b|]; cbn in Hv; inv_ok; subst; cbn;
      try (repeat split; done || lia).
    + by destruct (H1 items b).
    + by destruct (H2 members b).
  - cbn in Hv. unfold enter in Hv. inv_ok. simp_bool. subst.
    apply visit_items_inv in Hok0 as [-> (Hr & ? & ?)]; [| |lia].
    + rewrite Hr. split; [done|]. split; [done|lia].
    + eapply Forall_impl; [exact IH|]. intros r Hr w Hw. apply Hr; [lia|done].
  - cbn in Hv. unfold enter in Hv. inv_ok. simp_bool. subst.
    apply visit_members_inv in Hok0 as (-> & -> & ? & _ & ? & ?); [| |lia].
    + cbn. repeat split; try done. lia.
    + eapply Forall_impl; [exact IH|]. intros r Hr w Hw. apply Hr; [lia|done].
Qed.

Lemma depth_nonneg v : 0 <= depth v.
Proof.
  destruct v; cbn; try lia.
  - induction items; cbn; lia.
  - induction members; cbn; lia.
Qed.

Lemma visit_items_ok max_depth d vs :
  Forall (fun v => visit max_depth d (to_raw v) = Ok v) vs ->
  visit_items (visit max_depth d) true (map to_raw vs) = Ok vs.
Proof. induction 1 as [|v vs Hv _ IH]; cbn; [done|]. by rewrite Hv, IH. Qed.

Lemma visit_members_ok max_depth d vs seen :
  Forall (fun e => visit max_depth d (to_raw e.2) = Ok e.2) vs ->
  NoDup (map fst vs) -> (forall k, k ∈ map fst vs -> k ∉ seen) ->
  visit_members (visit max_depth d) true seen (map (fun e => (e.1, to_raw e.2)) vs) = Ok vs.
Proof.
  intros Hall. revert seen. induction Hall as [|[k v] vs Hv _ IH]; cbn; intros seen Hn Hs; [done|].
  apply NoDup_cons in Hn as [Hk Hn]. unfold contains.
  rewrite bool_decide_eq_false_2 by (apply Hs; set_solver). cbn in Hv. rewrite Hv. cbn.
  rewrite IH; [done|done|]. intros j Hj. specialize (Hs j). set_solver.
Qed.

Lemma visit_to_raw max_depth v : forall d,
  d <= max_depth -> unique_members v -> d + depth v <= max_depth ->
  visit max_depth d (to_raw v) = Ok v.
Proof.
  induction v as [| |[]| |items IH|members IH] using Value_nested_ind; intros d Hd Hu Hm; try done;
    cbn in *; unfold enter; (destruct (Z.ltb_spec max_depth (d + 1)) as [Hlt|Hle];
      [exfalso|cbn]).
  - enough (0 <= fold_right (fun x d => Z.max (depth x) d) 0 items) by lia. clear. induction items; cbn; lia.
  - rewrite visit_items_ok; [done|]. revert Hu Hm. induction IH as [|v items Hv _ IHl]; cbn;
      intros Hu Hm; constructor; [apply Hv; [lia|tauto|lia]|apply IHl; [tauto|lia]].
  - enough (0 <= fold_right (fun e d => Z.max (depth e.2) d) 0 members) by lia.
    clear. induction members; cbn; lia.
  - destruct Hu as [Hn Hu]. rewrite visit_members_ok; [done| |done|set_solver].
    clear Hn. revert Hu Hm. induction IH as [|e members Hv _ IHl]; cbn;
      intros Hu Hm; constructor; [apply Hv; [lia|tauto|lia]|apply IHl; [tauto|lia]].
Qed.

(** A text is admitted exactly when it has at most 64 KiB, presents one complete
    value with nothing after it, no object of that value repeats a member name at any depth,
    and containers nest at most eight deep; the value is then returned unchanged. *)
Theorem parse_unique_spec deserializer text value :
  parse_unique deserializer text = Ok value <->
  str_len text <= 65536 /\ deserializer text = (to_raw value, true)
  /\ unique_members value /\ depth value <= 8.
Proof.
  unfold parse_unique, parse_bounded, MAX_JSON_BYTES, MAX_JSON_DEPTH. split.
  - intros H. destruct (deserializer text) as [raw at_end]. inv_ok. simp_bool. subst.
    apply visit_inv in Hok as (-> & ? & ?); [|lia]. repeat split; try done; lia.
  - intros (Hl & -> & Hu & Hd). destruct (Z.ltb_spec (64 * 1024) (str_len text)); [lia|].
    rewrite visit_to_raw; [done|lia|done|lia].
Qed.
End Theorems.
