(* ===== verification/AuditKinds.v ===== *)
(** * AuditKinds: the value kinds of the audit catalog (kinds.rs)

    There is no free-text kind: every string kind is a closed grammar or a closed set.  The
    calendar of the [time] crate and the [uuid] crate are parameters. *)
From stdpp Require Import base gmap sets list strings pretty.
From Stdlib Require Import ZArith Lia Ascii.
From S2P Require Import Prelude Text Json.

Local Open Scope Z_scope.

(** [time::Date::from_ordinal_date] and [from_calendar_date] succeed, [time::Month::try_from]
    succeeds; [Uuid::parse_str] and [Uuid::to_string]. *)
Class AuditExternals : Type := {
  ordinal_date_ok : Z -> Z -> bool;
  calendar_date_ok : Z -> Z -> Z -> bool;
  month_ok : Z -> bool;
  uuid_parse : string -> option Uuid;
  uuid_to_string : Uuid -> string
}.

Definition MAX_STRING_BYTES : Z := 512.
Definition MAX_PRINCIPAL_PART_BYTES : Z := 256.
Definition MAX_UUID_LIST : Z := 100.
Definition MAX_CONTROL_LIST : Z := 16.
Definition MAX_DB_ROLE_BYTES : Z := 63.
Definition MAX_EVENT_TYPE_BYTES : Z := 128.
Definition MAX_CODE_BYTES : Z := 64.
Definition NIL_UUID : string := "00000000-0000-0000-0000-000000000000".
Definition MAX_SAFE_INTEGER : Z := 9007199254740991.

(** catalog.rs [AUDIT_STORE_RESOURCE_ID]. *)
Definition AUDIT_STORE_RESOURCE_ID : string := "audit-store".

Inductive Kind : Type :=
| KUuid
| KNullableUuid
| KCounter
| KNullableCounter
| KPositiveCounter
| KBoolean
| KEnum
| KNullableEnum
| KEnumList
| KDigest
| KNullableDigest
| KPrincipal
| KLegacyTime
| KUtcTimestamp
| KUuidList
| KHexDigest
| KNullableHexDigest
| KNullableUtcTimestamp
| KNullablePositiveCounter
| KResourceRef
| KEventType
| KEventTypeList
| KSourceUrn
| KSourceList
| KDbRole
| KNullableDbRole
| KPrincipalRef
| KInt8Text
| KCode
| KSafeCounter
| KPositiveSafeCounter.
#[global] Instance Kind_eq_dec : EqDecision Kind.
Proof. solve_decision. Defined.

Definition Kind_as_str (k : Kind) : string :=
  match k with
  | KUuid => "uuid"
  | KNullableUuid => "nullable_uuid"
  | KCounter => "counter"
  | KNullableCounter => "nullable_counter"
  | KPositiveCounter => "positive_counter"
  | KBoolean => "boolean"
  | KEnum => "enum"
  | KNullableEnum => "nullable_enum"
  | KEnumList => "enum_list"
  | KDigest => "digest"
  | KNullableDigest => "nullable_digest"
  | KPrincipal => "principal"
  | KLegacyTime => "legacy_time"
  | KUtcTimestamp => "utc_timestamp"
  | KUuidList => "uuid_list"
  | KHexDigest => "hex_digest"
  | KNullableHexDigest => "nullable_hex_digest"
  | KNullableUtcTimestamp => "nullable_utc_timestamp"
  | KNullablePositiveCounter => "nullable_positive_counter"
  | KResourceRef => "resource_ref"
  | KEventType => "event_type"
  | KEventTypeList => "event_type_list"
  | KSourceUrn => "source_urn"
  | KSourceList => "source_list"
  | KDbRole => "db_role"
  | KNullableDbRole => "nullable_db_role"
  | KPrincipalRef => "principal_ref"
  | KInt8Text => "int8_text"
  | KCode => "code"
  | KSafeCounter => "safe_counter"
  | KPositiveSafeCounter => "positive_safe_counter"
  end.

(** [Kind::takes_values], [derives_values] and [is_control_only]. *)
Definition takes_values (k : Kind) : bool :=
  match k with KEnum | KNullableEnum | KEnumList => true | _ => false end.

Definition derives_values (k : Kind) : bool :=
  match k with KSourceUrn | KSourceList => true | _ => false end.

Definition is_control_only (k : Kind) : bool :=
  match k with
  | KResourceRef | KEventType | KEventTypeList | KSourceUrn | KSourceList | KDbRole
  | KNullableDbRole | KPrincipalRef | KInt8Text | KCode => true
  | _ => false
  end.

(** ** Grammars of single strings *)

Definition is_ascii_lowercase (b : Z) : bool := in_range 97 122 b.

Definition is_lower_hex (b : Z) : bool := is_ascii_digit b || in_range 97 102 b.

(** Lowercase hyphenated form; the hyphens are at 8, 13, 18 and 23. *)
Definition is_canonical_uuid (text : string) : bool :=
  let bs := bytes text in
  (len bs =? 36)
  && forallb
       (fun '(i, b) =>
          if contains [8; 13; 18; 23] (Z.of_nat i) then b =? 45 else is_lower_hex b)
       (combine (seq 0 (length bs)) bs).

Definition is_uuid (text : string) : bool := is_canonical_uuid text && (text != NIL_UUID).

Definition is_hex_digest (text : string) : bool :=
  (str_len text =? 64) && forallb is_lower_hex (bytes text).

Definition is_w3c_trace_id (text : string) : bool :=
  (str_len text =? 32) && forallb is_lower_hex (bytes text)
  && existsb (fun b => negb (b =? 48)) (bytes text).

Definition is_bounded_text (text : string) (max : Z) : bool :=
  (str_len text <=? max) && negb (existsb is_control (chars text)).

Definition is_forbidden_in_principal (code : Z) : bool :=
  is_control code
  || (code =? 0x061C) || (code =? 0x200E) || (code =? 0x200F)
  || in_range 0x202A 0x202E code || in_range 0x2066 0x2069 code
  || (code =? 0x2028) || (code =? 0x2029) || (code =? 0xFEFF)
  || in_range 0xE0000 0xE007F code || in_range 0xFDD0 0xFDEF code
  || (Z.land code 0xFFFE =? 0xFFFE).

Definition is_principal_part (text : string) : bool :=
  (str_len text <=? MAX_PRINCIPAL_PART_BYTES)
  && negb (is_some_and (head (chars text)) is_whitespace)
  && negb (is_some_and (last (chars text)) is_whitespace)
  && negb (text == "")
  && negb (existsb is_forbidden_in_principal (chars text)).

Definition is_resource_ref (text : string) : bool :=
  is_canonical_uuid text || (text == AUDIT_STORE_RESOURCE_ID).

(** [[a-z_][a-z0-9_$]{0,62}]. *)
Definition is_db_role (text : string) : bool :=
  (str_len text <=? MAX_DB_ROLE_BYTES)
  && match bytes text with
     | [] => false
     | b :: rest =>
         (is_ascii_lowercase b || (b =? 95))
         && forallb (fun b => is_ascii_lowercase b || is_ascii_digit b || (b =? 95) || (b =? 36)) rest
     end.

(** [str::parse::<i64>]: an optional sign, then at least one digit, within range. *)
Definition digits_value (ds : list Z) : option Z :=
  match ds with
  | [] => None
  | _ =>
      fold_left
        (fun acc d =>
           match acc with
           | Some n => if is_ascii_digit d then Some (n * 10 + (d - 48)) else None
           | None => None
           end) ds (Some 0)
  end.

Definition parse_i64 (text : string) : option Z :=
  let signed :=
    match bytes text with
    | 45 :: ds => option_map Z.opp (digits_value ds)
    | 43 :: ds => digits_value ds
    | ds => digits_value ds
    end in
  opt_filter (fun n => (i64_min <=? n) && (n <=? i64_max)) signed.

Definition is_int8_text (text : string) : bool :=
  is_some_and (parse_i64 text) (fun n => (pretty n : string) == text).

Definition is_event_type_part (part : string) : bool :=
  match bytes part with
  | [] => false
  | b :: rest =>
      is_ascii_lowercase b
      && forallb (fun b => is_ascii_lowercase b || is_ascii_digit b || (b =? 95)) rest
  end.

Definition is_event_type (text : string) : bool :=
  (str_len text <=? MAX_EVENT_TYPE_BYTES)
  && (2 <=? len (split_at_any [46] text))
  && forallb is_event_type_part (split_at_any [46] text).

Definition is_code (text : string) : bool :=
  negb (text == "") && (str_len text <=? MAX_CODE_BYTES)
  && forallb (fun b => is_ascii_lowercase b || is_ascii_digit b || (b =? 95)) (bytes text).

(** The bytes of a slice of the timestamp, read as a decimal number. *)
Definition number_at (bs : list Z) (start stop : nat) : Z :=
  fold_left (fun acc b => acc * 10 + (b - 48)) (take (stop - start) (drop start bs)) 0.

Definition timestamp_layout (i : nat) (b : Z) : bool :=
  match i with
  | 4%nat | 7%nat => b =? 45
  | 10%nat => b =? 84
  | 13%nat | 16%nat => b =? 58
  | 19%nat => b =? 46
  | 26%nat => b =? 90
  | _ => is_ascii_digit b
  end.

Section Kinds.
Context {F : Floats} {X : AuditExternals}.

Definition is_utc_timestamp (text : string) : bool :=
  let bs := bytes text in
  if negb (len bs =? 27) then false
  else if negb (forallb (fun '(i, b) => timestamp_layout i b) (combine (seq 0 (length bs)) bs))
  then false
  else
    let year := number_at bs 0 4 in
    let month := number_at bs 5 7 in
    let day := number_at bs 8 10 in
    let hour := number_at bs 11 13 in
    let minute := number_at bs 14 16 in
    let second := number_at bs 17 19 in
    let micros := number_at bs 20 26 in
    if negb (month_ok month) then false
    else
      (1 <=? year) && calendar_date_ok year month day
      && (hour <=? 23) && (minute <=? 59) && (second <=? 59) && (micros <=? 999999).

(** ** Checks of values *)

Definition is_counter (value : Value) : bool := is_some_and (as_i64 value) (fun n => 0 <=? n).

Definition is_safe_counter (value : Value) (min : Z) : bool :=
  is_some_and (as_i64 value) (fun n => (min <=? n) && (n <=? MAX_SAFE_INTEGER)).

Definition is_control_list (value : Value) (item : Value -> bool) : bool :=
  is_some_and (as_array value) (fun items =>
    negb (is_empty items) && (len items <=? MAX_CONTROL_LIST)
    && forallb item items && distinct_values [] items).

Definition is_digest (value : Value) : bool :=
  is_some_and (as_array value) (fun items =>
    (len items =? 32)
    && forallb (fun b => is_some_and (as_u64 b) (fun b => b <=? 255)) items).

Definition is_legacy_principal (value : Value) : bool :=
  is_some_and (as_object value) (fun object =>
    (len object =? 2)
    && forallb
         (fun key =>
            is_some_and (member object key) (fun v => is_some_and (as_str v) is_principal_part))
         ["identityProvider"; "principalId"]).

(** The tuple [year, ordinal, hour, minute, second, nanosecond, offset h, m, s]; [i32] and
    [u16] conversions of the date. *)
Definition is_legacy_time (value : Value) : bool :=
  match option_map (fun items => (len items, mapM as_i64 items)) (as_array value) with
  | Some (9, Some [year; ordinal; hour; minute; second; nanos; off_h; off_m; off_s]) =>
      if negb (in_range (- 2 ^ 31) (2 ^ 31 - 1) year && in_range 0 65535 ordinal) then false
      else
        let date_ok := in_range (-9999) 9999 year && ordinal_date_ok year ordinal in
        let time_ok :=
          in_range 0 23 hour && in_range 0 59 minute && in_range 0 59 second
          && in_range 0 999999999 nanos in
        let offsets := [off_h; off_m; off_s] in
        let offset_ok :=
          in_range (-25) 25 off_h && in_range (-59) 59 off_m && in_range (-59) 59 off_s
          && negb (existsb (fun n => n <? 0) offsets && existsb (fun n => 0 <? n) offsets) in
        date_ok && time_ok && offset_ok
  | _ => false
  end.

(** [Kind::accepts]; [values] is the closed set of the enum and source kinds. *)
Definition accepts (kind : Kind) (values : list string) (value : Value) : bool :=
  let in_set v := is_some_and (as_str v) (contains values) in
  let text (check : string -> bool) := is_some_and (as_str value) check in
  match kind with
  | KUuid => text is_uuid
  | KNullableUuid => is_null value || text is_uuid
  | KCounter => is_counter value
  | KNullableCounter => is_null value || is_counter value
  | KPositiveCounter => is_some_and (as_i64 value) (fun n => 1 <=? n)
  | KBoolean => is_some (as_bool value)
  | KEnum => in_set value
  | KNullableEnum => is_null value || in_set value
  | KEnumList =>
      is_some_and (as_array value) (fun items =>
        negb (is_empty items) && (len items <=? len values)
        && forallb in_set items && distinct_values [] items)
  | KDigest => is_digest value
  | KNullableDigest => is_null value || is_digest value
  | KPrincipal => is_legacy_principal value
  | KLegacyTime => is_legacy_time value
  | KUtcTimestamp => text is_utc_timestamp
  | KUuidList =>
      is_some_and (as_array value) (fun items =>
        (len items <=? MAX_UUID_LIST)
        && forallb (fun item => is_some_and (as_str item) is_uuid) items
        && distinct_values [] items)
  | KHexDigest => text is_hex_digest
  | KNullableHexDigest => is_null value || text is_hex_digest
  | KNullableUtcTimestamp => is_null value || text is_utc_timestamp
  | KNullablePositiveCounter => is_null value || is_some_and (as_i64 value) (fun n => 1 <=? n)
  | KResourceRef => text is_resource_ref
  | KEventType => text is_event_type
  | KEventTypeList =>
      is_control_list value (fun item => is_some_and (as_str item) is_event_type)
  | KSourceUrn => in_set value
  | KSourceList => is_control_list value in_set
  | KDbRole => text is_db_role
  | KNullableDbRole => is_null value || text is_db_role
  | KPrincipalRef => text is_principal_part
  | KInt8Text => text is_int8_text
  | KCode => text is_code
  | KSafeCounter => is_safe_counter value 0
  | KPositiveSafeCounter => is_safe_counter value 1
  end.
End Kinds.
