(* ===== verification/AuditCatalog.v ===== *)
(** * AuditCatalog: the audit event catalog and its loader (catalog.rs)

    One adapter per source and one entry per event type.  The loader checks every entry; the
    envelope validator and the projections read it.  Deserialization into the raw records is
    serde's and a parameter of the loader. *)
From stdpp Require Import base gmap sets list strings.
From Stdlib Require Import ZArith Lia Ascii.
From S2P Require Import Prelude Text Ordered Json AuditKinds.

Local Open Scope Z_scope.

Definition MAX_CATALOG_BYTES : Z := 512 * 1024.
Definition MAX_CATALOG_DEPTH : Z := 8.
Definition CATALOG_VERSION : Z := 1.
Definition DOCUMENT_SOURCE : string := "urn:knowledge-platform:document-platform".
Definition AUDIT_STORE_SOURCE : string := "urn:knowledge-platform:audit-store".
Definition AUDIT_RELAY_SOURCE : string := "urn:knowledge-platform:audit-relay".
Definition CONTROL_TYPE_PREFIX : string := "audit.".

Inductive Origin : Type := Relay | Store | RelayControl.
#[global] Instance Origin_eq_dec : EqDecision Origin.
Proof. solve_decision. Defined.

Definition Origin_as_str (o : Origin) : string :=
  match o with Relay => "relay" | Store => "store" | RelayControl => "relay_control" end.

Definition Origin_parse (value : string) : option Origin :=
  find (fun o => Origin_as_str o == value) [Relay; Store; RelayControl].

Inductive EventClass : Type :=
| Security
| PrivilegedOperation
| ContentLifecycle
| ClassAccessPolicy
| DataAccess
| SearchAccess
| Configuration
| SystemAudit.
#[global] Instance EventClass_eq_dec : EqDecision EventClass.
Proof. solve_decision. Defined.

Definition EventClass_as_str (c : EventClass) : string :=
  match c with
  | Security => "SECURITY"
  | PrivilegedOperation => "PRIVILEGED_OPERATION"
  | ContentLifecycle => "CONTENT_LIFECYCLE"
  | ClassAccessPolicy => "ACCESS_POLICY"
  | DataAccess => "DATA_ACCESS"
  | SearchAccess => "SEARCH_ACCESS"
  | Configuration => "CONFIGURATION"
  | SystemAudit => "SYSTEM_AUDIT"
  end.

Inductive ResourceType : Type := RTDocument | RTFolder | RTAccessPolicy | RTAuditStore.
#[global] Instance ResourceType_eq_dec : EqDecision ResourceType.
Proof. solve_decision. Defined.

Definition ResourceType_as_str (r : ResourceType) : string :=
  match r with
  | RTDocument => "Document"
  | RTFolder => "Folder"
  | RTAccessPolicy => "AccessPolicy"
  | RTAuditStore => "AuditStore"
  end.

Definition ResourceType_parse (value : string) : option ResourceType :=
  find (fun r => ResourceType_as_str r == value)
    [RTDocument; RTFolder; RTAccessPolicy; RTAuditStore].

Inductive Requirement : Type := Required | Optional | Forbidden.
#[global] Instance Requirement_eq_dec : EqDecision Requirement.
Proof. solve_decision. Defined.

Record AdapterSpec : Type := {
  as_source : string;
  as_origin : Origin;
  as_source_format : string;
  as_adapter_version : Z;
  as_commitment : Requirement;
  as_registration : Requirement;
  as_trace_id : bool
}.

Inductive VersionRequirement : Type := VersionRequired | VersionForbidden | VersionOptional.
#[global] Instance VersionRequirement_eq_dec : EqDecision VersionRequirement.
Proof. solve_decision. Defined.

Inductive ReasonPolicy : Type := ReasonAbsent | CallerText.
#[global] Instance ReasonPolicy_eq_dec : EqDecision ReasonPolicy.
Proof. solve_decision. Defined.

Record FieldSpec : Type := {
  fs_kind : Kind;
  fs_values : list string;
  fs_client_chosen : bool
}.

Inductive BindingTarget : Type := BindId | BindVersionId | BindType.

Definition BindingTarget_as_str (b : BindingTarget) : string :=
  match b with
  | BindId => "resource.id"
  | BindVersionId => "resource.version_id"
  | BindType => "resource.type"
  end.

Record Binding : Type := { binding_field : string; binding_equals : BindingTarget }.

(** One part of a subject template. *)
Inductive Segment : Type :=
| Literal (text : string)
| SegResourceId
| SegVersionId
| Detail (name : string).

Record SubjectSpec : Type := {
  subject_template : string;
  subject_resource : option ResourceType;
  subject_segments : list Segment
}.

Record EventSpec : Type := {
  event_type : string;
  es_source : string;
  es_origin : Origin;
  es_class : EventClass;
  es_resources : list ResourceType;
  es_version_required : VersionRequirement;
  es_results : list string;
  es_subjects : list SubjectSpec;
  es_fields : list (string * FieldSpec);
  es_required : list string;
  es_reason : ReasonPolicy;
  es_reason_code_field : option string;
  es_service_executor_field : option string;
  es_duplicated_actor_field : option string;
  es_operation_id_field : option string;
  es_publish_operation_id_field : option string;
  es_nil_resource_allowed : bool;
  es_bindings : list Binding;
  es_client_chosen_resource_ids : list ResourceType;
  es_client_chosen_version_id : bool
}.

(** ** What the entries answer *)

Section Specs.
Context {F : Floats} {X : AuditExternals}.

(** [FieldSpec::accepts]. *)
Definition field_accepts (f : FieldSpec) (value : Value) : bool :=
  accepts (fs_kind f) (fs_values f) value.

(** [SubjectSpec::render]: [None] when a placeholder cannot be resolved. *)
Definition render_segment (resource_id : string) (version_id : option string)
    (details : list (string * Value)) (segment : Segment) : option string :=
  match segment with
  | Literal text => Some text
  | SegResourceId => Some resource_id
  | SegVersionId => version_id
  | Detail name => v ← member details name; as_str v
  end.

Definition subject_render (s : SubjectSpec) (resource_type : ResourceType)
    (resource_id : string) (version_id : option string) (details : list (string * Value))
    : option string :=
  if is_some_and (subject_resource s) (fun only => only != resource_type) then None
  else
    parts ← mapM (render_segment resource_id version_id details) (subject_segments s);
    Some (String.concat "" parts).

(** [EventSpec::is_detail_field]: a field that is neither lifted into the service executor nor
    dropped as the duplicated actor. *)
Definition is_detail_field (spec : EventSpec) (name : string) : bool :=
  is_some (bt_get name (es_fields spec))
  && (es_service_executor_field spec != Some name)
  && (es_duplicated_actor_field spec != Some name).

Definition detail_fields (spec : EventSpec) : list (string * FieldSpec) :=
  List.filter (fun e => is_detail_field spec e.1) (es_fields spec).

Definition detail_required (spec : EventSpec) : list string :=
  List.filter (is_detail_field spec) (es_required spec).

Definition allows_resource (spec : EventSpec) (r : ResourceType) : bool :=
  contains (es_resources spec) r.

Definition allows_result (spec : EventSpec) (result : string) : bool :=
  contains (es_results spec) result.

(** ** The catalog *)

Record Catalog : Type := {
  cat_version : Z;
  cat_adapters : list AdapterSpec;
  cat_events : list EventSpec;
  cat_index : list (string * Z)
}.

(** [Catalog::get]: the index is a position in the list of entries. *)
Definition Catalog_get (c : Catalog) (t : string) : option EventSpec :=
  i ← bt_get t (cat_index c); cat_events c !! Z.to_nat i.

Definition Catalog_adapter (c : Catalog) (source : string) : option AdapterSpec :=
  find (fun a => as_source a == source) (cat_adapters c).

Definition registered_types (c : Catalog) : list (string * string * Z) :=
  filter_map
    (fun e => option_map (fun a => (es_source e, event_type e, as_adapter_version a))
                (Catalog_adapter c (es_source e)))
    (List.filter (fun e => es_origin e == Relay) (cat_events c)).
End Specs.

(** ** Loading *)

Inductive CatalogError : Type :=
| CatalogJson (code : string)
| CatalogShape (message : string)
| CatalogVersion
| CatalogEntry (event : string) (problem : string).

Inductive RawSubject : Type :=
| RawTemplate (template : string)
| RawScoped (template : string) (resource : ResourceType).

Record RawEvent : Type := {
  raw_type : string;
  raw_source : string;
  raw_origin : Origin;
  raw_class : EventClass;
  raw_resources : list ResourceType;
  raw_version_required : VersionRequirement;
  raw_results : list string;
  raw_subjects : list RawSubject;
  raw_fields : list (string * FieldSpec);
  raw_required : list string;
  raw_reason : ReasonPolicy;
  raw_reason_code_field : option string;
  raw_service_executor_field : option string;
  raw_duplicated_actor_field : option string;
  raw_operation_id_field : option string;
  raw_publish_operation_id_field : option string;
  raw_nil_resource_allowed : bool;
  raw_bindings : list Binding;
  raw_client_chosen_resource_ids : list ResourceType;
  raw_client_chosen_version_id : bool
}.

Record RawCatalog : Type := {
  rc_version : Z;
  rc_adapters : list AdapterSpec;
  rc_events : list RawEvent
}.

(** [unique]: every item is new to the set. *)
Definition unique {A} `{EqDecision A} (items : list A) : bool := bool_decide (NoDup items).

Definition starts_with_str (s p : string) : bool := String.prefix p s.

(** [catalog_sources]: a [BTreeSet] of the adapter sources and the two control sources. *)
Definition catalog_sources (adapters : list AdapterSpec) : list string :=
  dedup (sort (map as_source adapters ++ [AUDIT_STORE_SOURCE; AUDIT_RELAY_SOURCE])).

Definition is_source_format (text : string) : bool :=
  negb (text == "") && (str_len text <=? 64)
  && forallb (fun b => is_ascii_lowercase b || is_ascii_digit b || (b =? 45)) (bytes text).

Definition is_control_source (source : string) : bool :=
  (source == AUDIT_STORE_SOURCE) || (source == AUDIT_RELAY_SOURCE).

Definition adapter_source_ok (a : AdapterSpec) : bool :=
  match as_origin a with
  | Store => as_source a == AUDIT_STORE_SOURCE
  | RelayControl => as_source a == AUDIT_RELAY_SOURCE
  | Relay =>
      negb (is_control_source (as_source a)) && starts_with_str (as_source a) "urn:"
      && (str_len (as_source a) <=? MAX_STRING_BYTES)
  end.

Definition check_adapter (a : AdapterSpec) : Result unit CatalogError :=
  let shape message := Err (CatalogShape ("adapter " +:+ as_source a +:+ message)) in
  if negb (adapter_source_ok a) then shape ": source does not fit its origin"
  else if negb (is_source_format (as_source_format a))
  then shape ": source_format must be [a-z0-9-]{1,64}"
  else if as_adapter_version a <? 1 then shape ": adapter_version must be at least 1"
  else if (as_origin a != Relay)
          && ((as_commitment a != Forbidden) || (as_registration a != Forbidden)
              || as_trace_id a)
  then shape ": control adapters carry no commitment, registration or trace id"
  else Ok tt.

Definition check_adapters (adapters : list AdapterSpec) : Result unit CatalogError :=
  if is_empty adapters then Err (CatalogShape "adapters must be non-empty")
  else if negb (unique (map as_source adapters)) || negb (unique (map as_source_format adapters))
  then Err (CatalogShape "adapter sources and source formats must be unique")
  else for_each (fun _ a => check_adapter a) tt adapters.

Definition is_ascii_alphabetic (b : Z) : bool := in_range 65 90 b || in_range 97 122 b.

Definition is_token (text : string) : bool :=
  match chars text with
  | [] => false
  | c :: rest =>
      is_ascii_alphabetic c && forallb (fun c => is_ascii_alphanumeric c || (c =? 95)) rest
  end.

Definition is_enum_value (text : string) : bool :=
  negb (text == "") && (str_len text <=? 64)
  && forallb (fun c => is_ascii_alphanumeric c || (c =? 95) || (c =? 45)) (chars text).

(** [&s[..i]] and [&s[i + 1..]] around the first [c]. *)
Fixpoint split_once_byte (c : Z) (s : string) : option (string * string) :=
  match s with
  | EmptyString => None
  | String a r =>
      if byte_of_ascii a =? c then Some (EmptyString, r)
      else
        match split_once_byte c r with
        | Some (k, t) => Some (String a k, t)
        | None => None
        end
  end.

(** The longest prefix without [c], and the rest. *)
Fixpoint span_byte (c : Z) (s : string) : string * string :=
  match s with
  | EmptyString => (EmptyString, EmptyString)
  | String a r =>
      if byte_of_ascii a =? c then (EmptyString, s)
      else let '(k, t) := span_byte c r in (String a k, t)
  end.

(** [str::strip_prefix]. *)
Fixpoint strip_prefix (p s : string) : option string :=
  match p, s with
  | EmptyString, _ => Some s
  | String a p, String b s => if (a =? b)%char then strip_prefix p s else None
  | String _ _, EmptyString => None
  end.

Section Loading.

(** The placeholder between braces. *)
Definition parse_placeholder (template name : string) (raw : RawEvent) (applies_to_store : bool)
    : Result Segment string :=
  if name == "resource.id" then
    if applies_to_store
    then Err (template +:+ ": {resource.id} cannot render the AuditStore resource")
    else Ok SegResourceId
  else if name == "resource.version_id" then
    if raw_version_required raw == VersionForbidden
    then Err (template +:+ ": version placeholder without versions")
    else Ok SegVersionId
  else
    let? field :=
      ok_or (strip_prefix "details." name) (template +:+ ": unknown placeholder " +:+ name) in
    let resolvable :=
      is_some_and (bt_get field (raw_fields raw)) (fun f => fs_kind f == KUuid)
      && contains (raw_required raw) field
      && (raw_service_executor_field raw != Some field)
      && (raw_duplicated_actor_field raw != Some field) in
    if negb resolvable
    then Err (template +:+ ": " +:+ field +:+ " must be a required uuid field")
    else Ok (Detail field).

(** [while !rest.is_empty()]; [None] when the fuel runs out. *)
Fixpoint template_loop (fuel : nat) (template : string) (raw : RawEvent)
    (applies_to_store : bool) (rest : string) : option (Result (list Segment) string) :=
  match fuel, rest with
  | _, EmptyString => Some (Ok [])
  | O, _ => None
  | S fuel, String a after =>
      if byte_of_ascii a =? 123 then
        match split_once_byte 125 after with
        | None => Some (Err ("unterminated placeholder in " +:+ template))
        | Some (name, rest) =>
            match parse_placeholder template name raw applies_to_store with
            | Err e => Some (Err e)
            | Ok segment =>
                option_map (fun r => let? l := r in Ok (segment :: l))
                  (template_loop fuel template raw applies_to_store rest)
            end
        end
      else
        let '(literal, rest) := span_byte 123 rest in
        if negb (forallb
                   (fun c => is_ascii_lowercase c || is_ascii_digit c || contains [47; 45; 95; 46] c)
                   (chars literal))
        then Some (Err (template +:+ ": literal text must be lowercase path characters"))
        else
          option_map (fun r => let? l := r in Ok (Literal literal :: l))
            (template_loop fuel template raw applies_to_store rest)
  end.

Definition parse_template (template : string) (raw : RawEvent) (applies_to_store : bool)
    : Result (list Segment) string :=
  if (template == "") || (256 <? str_len template)
  then Err "subject template must be 1..=256 bytes"
  else
    unwrap_or (Err "")
      (template_loop (String.length template) template raw applies_to_store template).

Definition entry_error {A} (t problem : string) : Result A CatalogError :=
  Err (CatalogEntry t problem).

Definition with_values (f : FieldSpec) (values : list string) : FieldSpec :=
  {| fs_kind := fs_kind f; fs_values := values; fs_client_chosen := fs_client_chosen f |}.

(** The checks of one field of an entry. *)
Definition check_field (t : string) (origin : Origin) (e : string * FieldSpec)
    : Result unit CatalogError :=
  let '(name, field) := e in
  let kind := fs_kind field in
  let uuid_kind := contains [KUuid; KNullableUuid; KUuidList] kind in
  if negb (is_token name) || (name == "reason")
  then entry_error t "field names must be tokens and must not be reason"
  else if (origin == Relay) && is_control_only kind
  then entry_error t (name +:+ ": " +:+ Kind_as_str kind +:+ " is reserved for control events")
  else if takes_values kind
          && (is_empty (fs_values field) || negb (unique (fs_values field))
              || negb (forallb is_enum_value (fs_values field)))
  then entry_error t
         (name +:+ ": enum values must be a non-empty set of [A-Za-z0-9_-]{1,64}")
  else if negb (takes_values kind) && negb (is_empty (fs_values field))
  then entry_error t (name +:+ ": values only apply to enum kinds")
  else if fs_client_chosen field && ((origin != Relay) || negb uuid_kind)
  then entry_error t (name +:+ ": client_chosen applies to uuid kinds of relay entries")
  else Ok tt.

(** The source and type rule of an origin. *)
Definition check_source (raw : RawEvent) : Result unit CatalogError :=
  let t := raw_type raw in
  let control := starts_with_str t CONTROL_TYPE_PREFIX in
  let control_rule source :=
    if (raw_source raw != source) || negb control
    then entry_error t "control origins need an audit.* type and their own source"
    else Ok tt in
  match raw_origin raw with
  | Store => control_rule AUDIT_STORE_SOURCE
  | RelayControl => control_rule AUDIT_RELAY_SOURCE
  | Relay =>
      if control || is_control_source (raw_source raw)
         || negb (starts_with_str (raw_source raw) "urn:")
         || (MAX_STRING_BYTES <? str_len (raw_source raw))
      then entry_error t "relay origin needs a non-control type and source"
      else Ok tt
  end.

(** [field_kind(name)]: the kind of a named field, when a name is given. *)
Definition named_kind (fields : list (string * FieldSpec)) (name : option string)
    : option (option Kind) :=
  option_map (fun n => fs_kind <$> bt_get n fields) name.

Definition check_binding (raw : RawEvent) (fields : list (string * FieldSpec)) (b : Binding)
    : Result unit CatalogError :=
  let t := raw_type raw in
  match bt_get (binding_field b) fields with
  | None => entry_error t "binding names an unknown field"
  | Some spec =>
      let ok :=
        contains (raw_required raw) (binding_field b)
        && match binding_equals b with
           | BindId =>
               (fs_kind spec == KUuid) && negb (raw_nil_resource_allowed raw)
               && negb (contains (raw_resources raw) RTAuditStore)
           | BindVersionId =>
               (fs_kind spec == KUuid) && (raw_version_required raw == VersionRequired)
           | BindType =>
               (fs_kind spec == KEnum)
               && forallb
                    (fun v => is_some_and (ResourceType_parse v) (contains (raw_resources raw)))
                    (fs_values spec)
           end in
      if negb ok
      then entry_error t
             ("binding " +:+ binding_field b +:+ " -> "
              +:+ BindingTarget_as_str (binding_equals b) +:+ " is not resolvable")
      else Ok tt
  end.

Definition check_subject (raw : RawEvent) (subject : RawSubject) : Result SubjectSpec CatalogError :=
  let '(template, resource) :=
    match subject with
    | RawTemplate template => (template, None)
    | RawScoped template resource => (template, Some resource)
    end in
  let t := raw_type raw in
  if is_some_and resource (fun r => negb (contains (raw_resources raw) r))
  then entry_error t "subject resource must be one of resources"
  else
    let applies_to_store :=
      match resource with
      | Some only => only == RTAuditStore
      | None => contains (raw_resources raw) RTAuditStore
      end in
    let? segments := map_err (CatalogEntry t) (parse_template template raw applies_to_store) in
    Ok {| subject_template := template;
          subject_resource := resource;
          subject_segments := segments |}.

(** The checks on the lists of an entry that precede its fields. *)
Definition check_shape (raw : RawEvent) : Result unit CatalogError :=
  let t := raw_type raw in
  if negb (is_event_type t) then entry_error t "type must be lowercase dotted segments"
  else
    try? check_source raw in
    if is_empty (raw_resources raw) || negb (unique (raw_resources raw))
    then entry_error t "resources must be non-empty and unique"
    else if (raw_origin raw == Relay) && contains (raw_resources raw) RTAuditStore
    then entry_error t "AuditStore resources are reserved for control events"
    else if is_empty (raw_results raw) || negb (unique (raw_results raw))
            || negb (forallb is_token (raw_results raw))
    then entry_error t "results must be non-empty unique tokens"
    else Ok tt.

(** The checks on client-chosen identifiers and named fields that follow. *)
Definition check_roles (raw : RawEvent) (fields : list (string * FieldSpec))
    : Result unit CatalogError :=
  let t := raw_type raw in
  let is_required name := contains (raw_required raw) name in
  let wrong kind name := is_some_and (named_kind fields name) (fun k => k != Some kind) in
  if (raw_origin raw != Relay)
     && (negb (is_empty (raw_client_chosen_resource_ids raw)) || raw_client_chosen_version_id raw)
  then entry_error t "control entries have no client-chosen ids"
  else if negb (unique (raw_client_chosen_resource_ids raw))
          || existsb (fun r => (r == RTAuditStore) || negb (contains (raw_resources raw) r))
               (raw_client_chosen_resource_ids raw)
  then entry_error t "client_chosen_resource_ids must be unique resources of the entry"
  else if raw_client_chosen_version_id raw && (raw_version_required raw == VersionForbidden)
  then entry_error t "client_chosen_version_id needs versions"
  else if negb (unique (raw_required raw))
          || existsb (fun r => is_none (bt_get r fields)) (raw_required raw)
  then entry_error t "required must be unique and a subset of fields"
  else if wrong KEnum (raw_reason_code_field raw)
          || is_some_and (raw_reason_code_field raw) (fun n => negb (is_required n))
  then entry_error t "reason_code_field must be a required enum field"
  else if wrong KPrincipal (raw_service_executor_field raw)
  then entry_error t "service_executor_field must name a principal field"
  else if wrong KPrincipal (raw_duplicated_actor_field raw)
  then entry_error t "duplicated_actor_field must name a principal field"
  else if is_some_and (raw_duplicated_actor_field raw) (fun n => negb (is_required n))
  then entry_error t "duplicated_actor_field must be required"
  else if is_some (raw_service_executor_field raw)
          && (raw_service_executor_field raw == raw_duplicated_actor_field raw)
  then entry_error t "service executor and duplicated actor must differ"
  else if wrong KUuid (raw_operation_id_field raw)
  then entry_error t "operation_id_field must name a uuid field"
  else if wrong KUuid (raw_publish_operation_id_field raw)
  then entry_error t "publish_operation_id_field must name a uuid field"
  else if raw_nil_resource_allowed raw && contains (raw_resources raw) RTAuditStore
  then entry_error t "nil resources cannot apply to AuditStore"
  else if (raw_reason raw == CallerText) && (raw_origin raw != Relay)
  then entry_error t "caller_text reasons exist only on relay events"
  else Ok tt.

(** [raw] after [field.values = sources] for the kinds that derive their values. *)
Definition with_fields (raw : RawEvent) (fields : list (string * FieldSpec)) : RawEvent := {|
  raw_type := raw_type raw;
  raw_source := raw_source raw;
  raw_origin := raw_origin raw;
  raw_class := raw_class raw;
  raw_resources := raw_resources raw;
  raw_version_required := raw_version_required raw;
  raw_results := raw_results raw;
  raw_subjects := raw_subjects raw;
  raw_fields := fields;
  raw_required := raw_required raw;
  raw_reason := raw_reason raw;
  raw_reason_code_field := raw_reason_code_field raw;
  raw_service_executor_field := raw_service_executor_field raw;
  raw_duplicated_actor_field := raw_duplicated_actor_field raw;
  raw_operation_id_field := raw_operation_id_field raw;
  raw_publish_operation_id_field := raw_publish_operation_id_field raw;
  raw_nil_resource_allowed := raw_nil_resource_allowed raw;
  raw_bindings := raw_bindings raw;
  raw_client_chosen_resource_ids := raw_client_chosen_resource_ids raw;
  raw_client_chosen_version_id := raw_client_chosen_version_id raw
|}.

Definition check_event (raw : RawEvent) (sources : list string) : Result EventSpec CatalogError :=
  let t := raw_type raw in
  try? check_shape raw in
  try? for_each (fun _ e => check_field t (raw_origin raw) e) tt (raw_fields raw) in
  let fields :=
    map (fun e => (e.1, if derives_values (fs_kind e.2) then with_values e.2 sources else e.2))
      (raw_fields raw) in
  let raw := with_fields raw fields in
  try? check_roles raw fields in
  try? for_each (fun _ b => check_binding raw fields b) tt (raw_bindings raw) in
  if is_empty (raw_subjects raw) then entry_error t "subjects must be non-empty"
  else
    let? subjects := try_map (check_subject raw) (raw_subjects raw) in
    if negb (unique (map (fun s => (subject_template s, subject_resource s)) subjects))
    then entry_error t "subjects must be unique"
    else if existsb
              (fun resource =>
                 negb (existsb
                         (fun s => is_none_or (subject_resource s) (fun only => only == resource))
                         subjects))
              (raw_resources raw)
    then entry_error t "every resource needs a subject shape"
    else
      Ok {| event_type := t;
            es_source := raw_source raw;
            es_origin := raw_origin raw;
            es_class := raw_class raw;
            es_resources := raw_resources raw;
            es_version_required := raw_version_required raw;
            es_results := raw_results raw;
            es_subjects := subjects;
            es_fields := fields;
            es_required := raw_required raw;
            es_reason := raw_reason raw;
            es_reason_code_field := raw_reason_code_field raw;
            es_service_executor_field := raw_service_executor_field raw;
            es_duplicated_actor_field := raw_duplicated_actor_field raw;
            es_operation_id_field := raw_operation_id_field raw;
            es_publish_operation_id_field := raw_publish_operation_id_field raw;
            es_nil_resource_allowed := raw_nil_resource_allowed raw;
            es_bindings := raw_bindings raw;
            es_client_chosen_resource_ids := raw_client_chosen_resource_ids raw;
            es_client_chosen_version_id := raw_client_chosen_version_id raw |}.

(** The loop over the entries: the accepted ones and the index of their positions. *)
Definition load_event (adapters : list AdapterSpec) (sources : list string)
    (st : list EventSpec * list (string * Z)) (raw_event : RawEvent)
    : Result (list EventSpec * list (string * Z)) CatalogError :=
  let '(events, idx) := st in
  let? event := check_event raw_event sources in
  if negb (existsb (fun a => (as_source a == es_source event) && (as_origin a == es_origin event))
             adapters)
  then entry_error (event_type event) "no adapter with this source and origin"
  else if is_some (bt_get (event_type event) idx)
  then entry_error (event_type event) "duplicate type"
  else Ok (events ++ [event], bt_insert (event_type event) (len events) idx).

(** [from_json] after deserialization. *)
Definition check_catalog (raw : RawCatalog) : Result Catalog CatalogError :=
  if negb (rc_version raw =? CATALOG_VERSION) then Err CatalogVersion
  else
    try? check_adapters (rc_adapters raw) in
    let sources := catalog_sources (rc_adapters raw) in
    let? '(events, idx) := for_each (load_event (rc_adapters raw) sources) ([], []) (rc_events raw) in
    match find (fun a => negb (existsb (fun e => es_source e == as_source a) events))
            (rc_adapters raw) with
    | Some unused => Err (CatalogShape ("adapter " +:+ as_source unused +:+ " has no event types"))
    | None =>
        Ok {| cat_version := rc_version raw;
              cat_adapters := rc_adapters raw;
              cat_events := events;
              cat_index := idx |}
    end.

(** [Catalog::from_json]: [from_value] is the derived deserializer of the raw records. *)
Definition Catalog_from_json {F : Floats} (deserializer : string -> Raw * bool)
    (from_value : Value -> Result RawCatalog string) (text : string)
    : Result Catalog CatalogError :=
  let? value :=
    map_err (fun r => CatalogJson (RejectionCode_as_str (rejection_code r)))
      (parse_bounded deserializer text MAX_CATALOG_BYTES MAX_CATALOG_DEPTH) in
  let? raw := map_err CatalogShape (from_value value) in
  check_catalog raw.
End Loading.
