(* ===== verification/AuditEnvelope.v ===== *)
(** * AuditEnvelope: the closed envelope validator (envelope.rs)

    Validation is driven by the catalog and reports the first violation in a fixed order.  The
    embedded catalog is an argument: it is loaded once and never changes. *)
From stdpp Require Import base gmap sets list strings.
From Stdlib Require Import ZArith Lia Ascii.
From S2P Require Import Prelude Text Ordered Json AuditKinds AuditCatalog.

Local Open Scope Z_scope.

Definition SPECVERSION : string := "1.0".
Definition DATACONTENTTYPE : string := "application/json".
Definition DATASCHEMA : string := "urn:knowledge-platform:audit:payload:v1".
Definition SCHEMA_VERSION : Z := 1.
Definition JSONB_TEXT_LIMIT : Z := 32 * 1024.
Definition REASON_TEXT_RETAINED : string := "source_systems".
Definition MAX_REASON_UTF8_BYTES : Z := 1048576.
Definition REGISTRATION_KINDS : list string := ["trigger"; "backfill"; "repair"].
Definition DB_ROLE_ISSUER : string := "db_role".

Definition ATTRIBUTES : list string :=
  ["data"; "datacontenttype"; "dataschema"; "id"; "source"; "specversion"; "subject"; "time";
   "type"].
Definition DATA_REQUIRED : list string :=
  ["action"; "actor"; "correlation"; "details"; "event_class"; "extensions"; "provenance";
   "resource"; "result"; "schema_version"].
Definition DATA_OPTIONAL : list string := ["reason"; "reason_code"; "service_executor"].
Definition PRINCIPAL_KEYS : list string := ["issuer"; "principal_id"].
Definition REASON_KEYS : list string := ["provided"; "text_retained"; "utf8_bytes"].
Definition CORRELATION_KEYS : list string :=
  ["operation_id"; "publish_operation_id"; "source_correlation_id"; "trace_id"].

Inductive Keys : Type := KeysExact | KeysUnknown | KeysMissing (name : string).

Section Envelope.
Context {F : Floats} {X : AuditExternals}.

Abbreviation Members := (list (string * Value)).

Definition check_keys (object : Members) (required optional : list string) : Keys :=
  if existsb (fun e => negb (contains required e.1) && negb (contains optional e.1)) object
  then KeysUnknown
  else
    match find (fun key => negb (has_member object key)) required with
    | Some missing => KeysMissing missing
    | None => KeysExact
    end.

Definition keys_exact (object : Members) (required optional : list string) : bool :=
  match check_keys object required optional with KeysExact => true | _ => false end.

(** [object[name]] of a map that has the member. *)
Definition at_ (object : Members) (name : string) : Value := unwrap_or VNull (member object name).

Definition is_principal (value : Value) : bool :=
  is_some_and (as_object value) (fun object =>
    keys_exact object PRINCIPAL_KEYS []
    && forallb (fun key => is_some_and (as_str (at_ object key)) is_principal_part) PRINCIPAL_KEYS).

Definition is_reason_summary (value : Value) : bool :=
  is_some_and (as_object value) (fun object =>
    keys_exact object REASON_KEYS []
    && value_eqb (at_ object "provided") (VBool true)
    && is_text (at_ object "text_retained") REASON_TEXT_RETAINED
    && is_some_and (as_i64 (at_ object "utf8_bytes"))
         (fun n => (0 <=? n) && (n <=? MAX_REASON_UTF8_BYTES))).

Definition member_ok (object : Members) (name : string) (requirement : Requirement)
    (valid : Value -> bool) : bool :=
  match requirement, member object name with
  | Required, Some m | Optional, Some m => valid m
  | Optional, None | Forbidden, None => true
  | Required, None | Forbidden, Some _ => false
  end.

Definition is_provenance (adapter : AdapterSpec) (value : Value) : bool :=
  match as_object value with
  | None => false
  | Some object =>
      forallb
        (fun e => contains ["adapter_version"; "registration"; "source_commitment"; "source_format"] e.1)
        object
      && ((member object "source_format" ≫= as_str) == Some (as_source_format adapter))
      && ((member object "adapter_version" ≫= as_i64) == Some (as_adapter_version adapter))
      && member_ok object "source_commitment" (as_commitment adapter)
           (fun c => is_some_and (as_str c) is_hex_digest)
      && member_ok object "registration" (as_registration adapter)
           (fun r => is_some_and (as_str r) (contains REGISTRATION_KINDS))
  end.

(** Every string anywhere is bounded and free of control characters. *)
Fixpoint strings_are_bounded (value : Value) : bool :=
  match value with
  | VString text => is_bounded_text text MAX_STRING_BYTES
  | VArray items => forallb strings_are_bounded items
  | VObject members =>
      forallb (fun e => is_bounded_text e.1 MAX_STRING_BYTES && strings_are_bounded e.2) members
  | _ => true
  end.

Record ResourceView : Type := {
  view_kind : ResourceType;
  view_id : string;
  view_version_id : option string
}.

Definition check_resource (spec : EventSpec) (path : Origin) (value : Value)
    : Result ResourceView Rejection :=
  let invalid := Rejection_at InvalidResource "data.resource" in
  let? object := ok_or (as_object value) invalid in
  if negb (keys_exact object ["id"; "type"] ["version_id"]) then Err invalid
  else
    let? kind :=
      ok_or (opt_filter (allows_resource spec) (as_str (at_ object "type") ≫= ResourceType_parse))
        invalid in
    let? id := ok_or (as_str (at_ object "id")) invalid in
    let relay := path == Relay in
    if (id == NIL_UUID) && negb (es_nil_resource_allowed spec) && relay
       && contains (es_client_chosen_resource_ids spec) kind
    then reject NilClientId "data.resource.id"
    else
      let id_ok :=
        match kind with
        | RTAuditStore => id == AUDIT_STORE_RESOURCE_ID
        | _ => is_uuid id || (es_nil_resource_allowed spec && (id == NIL_UUID))
        end in
      if negb id_ok then Err invalid
      else
        let? version_id :=
          match member object "version_id" with
          | None => Ok None
          | Some version =>
              if is_text version NIL_UUID && relay && es_client_chosen_version_id spec
              then reject NilClientId "data.resource.version_id"
              else
                let? v := ok_or (opt_filter is_uuid (as_str version)) invalid in
                Ok (Some v)
          end in
        let version_ok :=
          match es_version_required spec with
          | VersionRequired => is_some version_id
          | VersionForbidden => is_none version_id
          | VersionOptional => true
          end in
        if negb version_ok then Err invalid
        else Ok {| view_kind := kind; view_id := id; view_version_id := version_id |}.

(** A uuid-kind value that is, or for lists contains, the nil UUID. *)
Definition is_nil_client_id (kind : Kind) (value : Value) : bool :=
  match kind with
  | KUuid | KNullableUuid => is_text value NIL_UUID
  | KUuidList =>
      is_some_and (as_array value) (fun items => existsb (fun item => is_text item NIL_UUID) items)
  | _ => false
  end.

Definition check_detail (path : Origin) (details : Members) (e : string * FieldSpec)
    : Result unit Rejection :=
  let '(name, field) := e in
  match member details name with
  | None => Ok tt
  | Some value =>
      if (path == Relay) && fs_client_chosen field && is_nil_client_id (fs_kind field) value
      then reject NilClientId name
      else if negb (field_accepts field value) then reject InvalidField name
      else Ok tt
  end.

Definition check_details (spec : EventSpec) (path : Origin) (value : Value)
    : Result Members Rejection :=
  match as_object value with
  | None => reject InvalidField "data.details"
  | Some details =>
      if existsb (fun e => negb (is_detail_field spec e.1)) details
      then reject UnknownField "data.details"
      else
        match find (fun name => negb (has_member details name)) (detail_required spec) with
        | Some missing => reject MissingField missing
        | None =>
            try? for_each (fun _ e => check_detail path details e) tt (detail_fields spec) in
            Ok details
        end
  end.

Definition check_correlation (spec : EventSpec) (adapter : AdapterSpec) (details : Members)
    (value : Value) : Result unit Rejection :=
  match as_object value with
  | None => reject InvalidCorrelation "data.correlation"
  | Some correlation =>
      if negb (keys_exact correlation [] CORRELATION_KEYS)
      then reject InvalidCorrelation "data.correlation"
      else
        try? for_each
               (fun _ '(m, field) =>
                  let expected := field ≫= member details in
                  if negb (opt_value_eqb (member correlation m) expected)
                  then reject InvalidCorrelation "data.correlation"
                  else Ok tt)
               tt
               [("operation_id", es_operation_id_field spec);
                ("publish_operation_id", es_publish_operation_id_field spec)] in
        if is_some_and (member correlation "source_correlation_id")
             (fun id => negb (is_some_and (as_str id) is_uuid))
        then reject InvalidSourceCorrelation "data.correlation.source_correlation_id"
        else if is_some_and (member correlation "trace_id")
                  (fun trace => negb (as_trace_id adapter)
                                || negb (is_some_and (as_str trace) is_w3c_trace_id))
        then reject InvalidCorrelation "data.correlation.trace_id"
        else Ok tt
  end.

Definition is_db_role_actor_consistent (actor : Value) (details : Members) : bool :=
  if negb (is_text (index actor "issuer") DB_ROLE_ISSUER) then true
  else
    is_some_and (as_str (index actor "principal_id")) (fun role =>
      is_db_role role
      && opt_value_eqb (member details "session_role") (Some (index actor "principal_id"))).

Definition check_bindings (spec : EventSpec) (resource : ResourceView) (details : Members)
    : Result unit Rejection :=
  for_each
    (fun _ b =>
       let expected :=
         match binding_equals b with
         | BindId => Some (view_id resource)
         | BindVersionId => view_version_id resource
         | BindType => Some (ResourceType_as_str (view_kind resource))
         end in
       if (member details (binding_field b) ≫= as_str) != expected
       then reject InvalidField (binding_field b)
       else Ok tt)
    tt (es_bindings spec).

(** The closure [bounded]. *)
Definition bounded_attribute (envelope : Members) (name : string) : Result string Rejection :=
  ok_or (opt_filter (fun text => negb (text == "") && is_bounded_text text MAX_STRING_BYTES)
           (as_str (at_ envelope name)))
    (Rejection_at InvalidEnvelope name).

(** The attributes of the envelope; its type, source and payload. *)
Definition check_attributes (value : Value) : Result (string * string * Members * Members) Rejection :=
  if is_some_and (jsonb_text_len value) (fun n => JSONB_TEXT_LIMIT <? n)
  then Err (Rejection_new EnvelopeTooLarge)
  else
    let? envelope := ok_or (as_object value) (Rejection_new InvalidEnvelope) in
    if negb (keys_exact envelope ATTRIBUTES []) then Err (Rejection_new InvalidEnvelope)
    else
      try? for_each
             (fun _ '(name, expected) =>
                if negb (is_text (at_ envelope name) expected)
                then reject InvalidEnvelope name
                else Ok tt)
             tt
             [("specversion", SPECVERSION); ("datacontenttype", DATACONTENTTYPE);
              ("dataschema", DATASCHEMA)] in
      if negb (is_some_and (as_str (at_ envelope "id")) is_uuid) then reject InvalidEnvelope "id"
      else if negb (is_some_and (as_str (at_ envelope "time")) is_utc_timestamp)
      then reject InvalidEnvelope "time"
      else
        let? t := bounded_attribute envelope "type" in
        let? source := bounded_attribute envelope "source" in
        match as_object (at_ envelope "data") with
        | None => reject InvalidEnvelope "data"
        | Some data => Ok (t, source, envelope, data)
        end.

(** What the relay path refuses before the catalog is consulted. *)
Definition check_path (path : Origin) (t source : string) (data : Members) : Result unit Rejection :=
  if path == Relay then
    if starts_with_str t CONTROL_TYPE_PREFIX then reject ControlTypeForbidden "type"
    else if is_control_source source then reject ControlTypeForbidden "source"
    else if (r ← member data "resource"; v ← get r "type"; as_str v)
            == Some (ResourceType_as_str RTAuditStore)
    then reject ControlTypeForbidden "data.resource.type"
    else Ok tt
  else Ok tt.

(** The payload members up to the details. *)
Definition check_payload (spec : EventSpec) (t : string) (data : Members) : Result unit Rejection :=
  match check_keys data DATA_REQUIRED DATA_OPTIONAL with
  | KeysUnknown => reject UnknownField "data"
  | KeysMissing name => reject MissingField name
  | KeysExact =>
      if as_i64 (at_ data "schema_version") != Some SCHEMA_VERSION
      then reject InvalidEnvelope "data.schema_version"
      else if negb (is_text (at_ data "action") t) then reject InvalidEnvelope "data.action"
      else if negb (is_text (at_ data "event_class") (EventClass_as_str (es_class spec)))
      then reject InvalidEnvelope "data.event_class"
      else if negb (is_principal (at_ data "actor")) then reject InvalidActor "data.actor"
      else if is_some_and (member data "service_executor")
                (fun executor => is_none (es_service_executor_field spec)
                                 || negb (is_principal executor))
      then reject InvalidServiceExecutor "data.service_executor"
      else Ok tt
  end.

Definition subject_ok (spec : EventSpec) (resource : ResourceView) (details : Members)
    (subject : string) : bool :=
  is_bounded_text subject MAX_STRING_BYTES
  && existsb
       (fun shape =>
          subject_render shape (view_kind resource) (view_id resource) (view_version_id resource)
            details == Some subject)
       (es_subjects spec).

Definition reason_ok (spec : EventSpec) (data : Members) : bool :=
  match es_reason spec, member data "reason" with
  | CallerText, Some summary => is_reason_summary summary
  | ReasonAbsent, None => true
  | _, _ => false
  end.

(** The checks that follow the details. *)
Definition check_rest (spec : EventSpec) (adapter : AdapterSpec) (path : Origin)
    (resource : ResourceView) (details envelope data : Members) (value : Value)
    : Result unit Rejection :=
  if (path != Relay) && negb (is_db_role_actor_consistent (at_ data "actor") details)
  then reject InvalidActor "data.actor"
  else
    try? check_bindings spec resource details in
    let subject := unwrap_or "" (as_str (at_ envelope "subject")) in
    if negb (subject_ok spec resource details subject) then reject InvalidSubject "subject"
    else if negb (opt_value_eqb (member data "reason_code")
                    (es_reason_code_field spec ≫= member details))
    then reject InvalidField "data.reason_code"
    else if negb (reason_ok spec data) then reject InvalidReason "data.reason"
    else
      try? check_correlation spec adapter details (at_ data "correlation") in
      if negb (is_some_and (as_object (at_ data "extensions")) is_empty)
      then reject InvalidExtensions "data.extensions"
      else if negb (is_provenance adapter (at_ data "provenance"))
      then reject InvalidProvenance "data.provenance"
      else if negb (strings_are_bounded value) then Err (Rejection_new InvalidEnvelope)
      else Ok tt.

(** [validate_with]. *)
Definition validate_with (catalog : Catalog) (value : Value) (path : Origin)
    : Result EventSpec Rejection :=
  let? '(t, source, envelope, data) := check_attributes value in
  try? check_path path t source data in
  let? spec := ok_or (Catalog_get catalog t) (Rejection_at UnknownEventType "type") in
  if es_origin spec != path then reject ControlTypeForbidden "type"
  else if source != es_source spec then reject InvalidSource "source"
  else
    let? adapter :=
      ok_or (Catalog_adapter catalog (es_source spec)) (Rejection_at InvalidSource "source") in
    try? check_payload spec t data in
    let? resource := check_resource spec path (at_ data "resource") in
    if negb (is_some_and (as_str (at_ data "result")) (allows_result spec))
    then reject InvalidResult "data.result"
    else
      let? details := check_details spec path (at_ data "details") in
      try? check_rest spec adapter path resource details envelope data value in
      Ok spec.

(** ** A validated envelope *)

Record AuditEnvelope : Type := {
  env_value : Value;
  env_id : Uuid;
  env_spec : EventSpec;
  env_origin : Origin
}.

(** [AuditEnvelope::from_value] and [from_json]. *)
Definition AuditEnvelope_from_value (catalog : Catalog) (value : Value) (path : Origin)
    : Result AuditEnvelope Rejection :=
  let? spec := validate_with catalog value path in
  let? id :=
    ok_or (as_str (index value "id") ≫= uuid_parse) (Rejection_at InvalidEnvelope "id") in
  Ok {| env_value := canonicalize value; env_id := id; env_spec := spec; env_origin := path |}.

Definition AuditEnvelope_from_json (deserializer : string -> Raw * bool) (catalog : Catalog)
    (text : string) (path : Origin) : Result AuditEnvelope Rejection :=
  let? value := parse_unique deserializer text in
  AuditEnvelope_from_value catalog value path.

Definition env_attribute (e : AuditEnvelope) (name : string) : string :=
  unwrap_or "" (as_str (index (env_value e) name)).
End Envelope.
