(* ===== verification/AuditLegacy.v ===== *)
(** * AuditLegacy: from a Document staging row to an envelope (legacy.rs)

    The row's reason text never reaches the projection; only its type and length do. *)
From stdpp Require Import base gmap sets list strings.
From Stdlib Require Import ZArith Lia Ascii.
From S2P Require Import Prelude Text Ordered Json AuditKinds AuditCatalog AuditEnvelope.

Local Open Scope Z_scope.

Definition LEGACY_ADAPTER_VERSION : Z := 1.

(** envelope.rs [LEGACY_SOURCE_FORMAT]. *)
Definition LEGACY_SOURCE_FORMAT : string := "document-audit-outbox-v0".

Section Legacy.
Context {F : Floats} {X : AuditExternals}.

Record DocumentStagingProjection : Type := {
  sp_event_id : string;
  sp_event_type : string;
  sp_source : string;
  sp_subject : string;
  sp_actor_identity_provider : string;
  sp_actor_principal_id : string;
  sp_resource_type : string;
  sp_resource_id : string;
  sp_resource_version_id : option string;
  sp_result : string;
  sp_trace_id : option string;
  sp_occurred_at : string;
  sp_oversize : bool;
  sp_data : option Value;
  sp_data_kind : string;
  sp_reason_kind : option string;
  sp_reason_bytes : option Z;
  sp_source_intact : bool;
  sp_source_commitment : string;
  sp_registration_kind : string
}.

(** A struct member that is present only when it has a value. *)
Definition opt_member (name : string) (v : option Value) : list (string * Value) :=
  match v with Some v => [(name, v)] | None => [] end.

(** The admission checks before the members are read. *)
Definition project_admit (catalog : Catalog) (row : DocumentStagingProjection)
    : Result (EventSpec * list (string * Value)) Rejection :=
  if negb (sp_source_intact row) then Err (Rejection_new SourceDigestMismatch)
  else if sp_oversize row then Err (Rejection_new SourceRowTooLarge)
  else
    let? data := ok_or (sp_data row ≫= as_object) (Rejection_at InvalidField "data") in
    if starts_with_str (sp_event_type row) CONTROL_TYPE_PREFIX
    then reject ControlTypeForbidden "event_type"
    else if is_control_source (sp_source row) then reject ControlTypeForbidden "source"
    else if sp_resource_type row == ResourceType_as_str RTAuditStore
    then reject ControlTypeForbidden "resource_type"
    else
      let? spec :=
        ok_or (Catalog_get catalog (sp_event_type row))
          (Rejection_at UnknownEventType "event_type") in
      if es_origin spec != Relay then reject ControlTypeForbidden "event_type"
      else if has_member data "reason" then reject UnknownField "reason"
      else Ok (spec, data).

(** The summary that stands for the caller's reason. *)
Definition project_reason (spec : EventSpec) (row : DocumentStagingProjection)
    : Result (option Value) Rejection :=
  match es_reason spec with
  | CallerText =>
      match sp_reason_kind row with
      | None => reject InvalidReason "reason"
      | Some kind =>
          if kind == "string" then
            match sp_reason_bytes row with
            | Some n =>
                if (0 <=? n) && (n <=? MAX_REASON_UTF8_BYTES)
                then Ok (Some (VObject [("provided", VBool true);
                                        ("utf8_bytes", VNumber (NInt n));
                                        ("text_retained", VString REASON_TEXT_RETAINED)]))
                else reject InvalidReason "reason"
            | None => reject InvalidReason "reason"
            end
          else reject ReasonNotString "reason"
      end
  | ReasonAbsent =>
      if is_some (sp_reason_kind row) || is_some (sp_reason_bytes row)
      then reject UnknownField "reason"
      else Ok None
  end.

(** The actor that is recorded twice must agree with the row's columns. *)
Definition project_actor (spec : EventSpec) (data : list (string * Value))
    (row : DocumentStagingProjection) : Result unit Rejection :=
  match es_duplicated_actor_field spec with
  | None => Ok tt
  | Some field =>
      let actor := at_ data field in
      if negb (accepts KPrincipal [] actor) then reject InvalidActor field
      else if negb (is_text (index actor "identityProvider") (sp_actor_identity_provider row))
              || negb (is_text (index actor "principalId") (sp_actor_principal_id row))
      then reject ActorMismatch field
      else Ok tt
  end.

Definition project_executor (spec : EventSpec) (data : list (string * Value))
    : Result (option Value) Rejection :=
  match (field ← es_service_executor_field spec;
         value ← member data field;
         Some (field, value)) with
  | None => Ok None
  | Some (field, executor) =>
      if negb (accepts KPrincipal [] executor) then reject InvalidServiceExecutor field
      else Ok (Some (VObject [("issuer", index executor "identityProvider");
                              ("principal_id", index executor "principalId")]))
  end.

Definition project_correlation (spec : EventSpec) (details : list (string * Value))
    (row : DocumentStagingProjection) : Result (list (string * Value)) Rejection :=
  let ids :=
    opt_member "operation_id" (es_operation_id_field spec ≫= member details)
    ++ opt_member "publish_operation_id" (es_publish_operation_id_field spec ≫= member details) in
  match sp_trace_id row with
  | None => Ok ids
  | Some trace =>
      if negb (is_uuid trace) then reject InvalidSourceCorrelation "trace_id"
      else Ok (ids ++ [("source_correlation_id", VString trace)])
  end.

Definition project_payload (spec : EventSpec) (row : DocumentStagingProjection)
    (executor reason : option Value) (correlation details : list (string * Value)) : Value :=
  VObject
    ([("schema_version", VNumber (NInt SCHEMA_VERSION));
      ("event_class", VString (EventClass_as_str (es_class spec)));
      ("action", VString (sp_event_type row));
      ("actor", VObject [("issuer", VString (sp_actor_identity_provider row));
                         ("principal_id", VString (sp_actor_principal_id row))])]
     ++ opt_member "service_executor" executor
     ++ [("resource",
          VObject ([("type", VString (sp_resource_type row)); ("id", VString (sp_resource_id row))]
                   ++ opt_member "version_id" (option_map VString (sp_resource_version_id row))));
         ("result", VString (sp_result row))]
     ++ opt_member "reason_code" (es_reason_code_field spec ≫= member details)
     ++ opt_member "reason" reason
     ++ [("correlation", VObject correlation);
         ("details", VObject details);
         ("extensions", VObject []);
         ("provenance",
          VObject [("source_format", VString LEGACY_SOURCE_FORMAT);
                   ("adapter_version", VNumber (NInt LEGACY_ADAPTER_VERSION));
                   ("source_commitment", VString (sp_source_commitment row));
                   ("registration", VString (sp_registration_kind row))])]).

Definition project (catalog : Catalog) (row : DocumentStagingProjection)
    : Result AuditEnvelope Rejection :=
  let? '(spec, data) := project_admit catalog row in
  let? reason := project_reason spec row in
  if existsb (fun e => is_none (bt_get e.1 (es_fields spec))) data then reject UnknownField "data"
  else
    match find (fun name => negb (has_member data name)) (es_required spec) with
    | Some missing => reject MissingField missing
    | None =>
        try? project_actor spec data row in
        let? executor := project_executor spec data in
        let details := List.filter (fun e => is_detail_field spec e.1) data in
        let? correlation := project_correlation spec details row in
        let payload := project_payload spec row executor reason correlation details in
        let envelope :=
          VObject [("specversion", VString SPECVERSION);
                   ("id", VString (sp_event_id row));
                   ("source", VString (sp_source row));
                   ("type", VString (sp_event_type row));
                   ("subject", VString (sp_subject row));
                   ("time", VString (sp_occurred_at row));
                   ("datacontenttype", VString DATACONTENTTYPE);
                   ("dataschema", VString DATASCHEMA);
                   ("data", payload)] in
        AuditEnvelope_from_value catalog envelope Relay
    end.
End Legacy.
