(* ===== verification/AuditChain.v ===== *)
(** * AuditChain: the write-time hash chain (chain.rs)

    SHA-256 is the parameter [Digest] of the development; what is modelled is which bytes it is
    fed. *)
From stdpp Require Import base gmap sets list strings vector.
From Stdlib Require Import ZArith Lia Ascii.
From S2P Require Import Prelude Text Ordered Manifest AuditKinds.

Local Open Scope Z_scope.

Definition ascii_of_byte (b : Z) : ascii := ascii_of_N (Z.to_N b).

Definition raw_bytes (s : string) : list ascii := String.list_ascii_of_string s.

Definition GENESIS_PREIMAGE : list ascii := raw_bytes "kp-audit-chain-genesis-v1".
Definition CHAIN_DOMAIN : list ascii := raw_bytes "kp-audit-chain-v1".
Definition EXPIRED_SET_DOMAIN : list ascii := raw_bytes "kp-audit-expired-set-v1".

(** The constant, written out. *)
Definition GENESIS : vec ascii 32 :=
  Eval compute in
  vmap ascii_of_byte
    [# 0x9a; 0xe4; 0xe1; 0xd7; 0x94; 0x2c; 0xe3; 0x18; 0x77; 0x0d; 0xe8; 0x97; 0xb2; 0xa3; 0x36;
     0xed; 0xc2; 0xa9; 0xe7; 0x00; 0xf8; 0x73; 0x3f; 0x65; 0x8d; 0xcd; 0xc2; 0xe5; 0x63; 0xaf;
     0xf3; 0x44].

(** [i64::to_be_bytes] and [Uuid::as_bytes]: the two's complement and the number, big endian. *)
Definition be_bytes (width : list Z) (z : Z) : list ascii :=
  map (fun k => ascii_of_byte (Z.land (Z.shiftr z k) 255)) width.

Definition i64_be (z : Z) : list ascii := be_bytes [56; 48; 40; 32; 24; 16; 8; 0] z.

Definition uuid_be (u : Uuid) : list ascii :=
  be_bytes [120; 112; 104; 96; 88; 80; 72; 64; 56; 48; 40; 32; 24; 16; 8; 0] (Z.of_N u).

(** What [envelope_digest], [chain_next] and [expired_set_digest] feed the hasher. *)
Definition chain_preimage (prev : vec ascii 32) (seq : Z) (event_id : Uuid)
    (digest : vec ascii 32) : list ascii :=
  CHAIN_DOMAIN ++ vec_to_list prev ++ i64_be seq ++ uuid_be event_id ++ vec_to_list digest.

Definition expired_set_preimage (seqs : list Z) : list ascii :=
  EXPIRED_SET_DOMAIN ++ concat (map i64_be (sort seqs)).

Section Chain.
Context {D : Digest}.

Definition envelope_digest (text : string) : vec ascii 32 := sha256 (raw_bytes text).

Definition chain_next (prev : vec ascii 32) (seq : Z) (event_id : Uuid)
    (digest : vec ascii 32) : vec ascii 32 :=
  sha256 (chain_preimage prev seq event_id digest).

Definition expired_set_digest (seqs : list Z) : vec ascii 32 := sha256 (expired_set_preimage seqs).
End Chain.

(** ** Hex *)

Definition hex_digit_of (d : Z) : ascii := ascii_of_byte (if d <? 10 then 48 + d else 87 + d).

Definition hex_of_byte (b : Z) : list ascii :=
  [hex_digit_of (Z.shiftr b 4); hex_digit_of (Z.land b 15)].

(** [to_hex]. *)
Definition to_hex (bs : list ascii) : string :=
  String.string_of_list_ascii (flat_map (fun c => hex_of_byte (byte_of_ascii c)) bs).

Definition nibble (b : Z) : Z := if is_ascii_digit b then b - 48 else b - 97 + 10.

(** The loop of [parse_hex32]: two characters per byte. *)
Fixpoint unhex (bs : list Z) : list ascii :=
  match bs with
  | hi :: lo :: rest =>
      ascii_of_byte (Z.lor (Z.land (Z.shiftl (nibble hi) 4) 255) (nibble lo)) :: unhex rest
  | _ => []
  end.

Definition parse_hex32 (text : string) : option (vec ascii 32) :=
  if negb (is_hex_digest text) then None
  else
    match decide (length (unhex (bytes text)) = 32%nat) with
    | left E => Some (eq_rect _ (vec ascii) (list_to_vec (unhex (bytes text))) _ E)
    | right _ => None
    end.

Lemma hex_of_byte_spec c :
  forallb is_lower_hex (map byte_of_ascii (hex_of_byte (byte_of_ascii c))) = true /\
  unhex (map byte_of_ascii (hex_of_byte (byte_of_ascii c))) = [c].
Proof. destruct c as [[] [] [] [] [] [] [] []]; vm_compute; done. Qed.

Lemma bytes_of_list l : bytes (String.string_of_list_ascii l) = map byte_of_ascii l.
Proof. induction l as [|c l IH]; cbn; [done|]. by rewrite IH. Qed.

Lemma byte_of_ascii_of_byte b : 0 <= b < 256 -> byte_of_ascii (ascii_of_byte b) = b.
Proof. intros Hb. unfold byte_of_ascii, ascii_of_byte. rewrite N_ascii_embedding; lia. Qed.

Lemma bytes_to_hex bs :
  bytes (to_hex bs) = flat_map (fun c => map byte_of_ascii (hex_of_byte (byte_of_ascii c))) bs.
Proof.
  unfold to_hex. rewrite bytes_of_list. induction bs as [|c bs IH]; [done|].
  cbn [flat_map]. by rewrite map_app, IH.
Qed.

Lemma unhex_to_hex bs : unhex (bytes (to_hex bs)) = bs.
Proof.
  rewrite bytes_to_hex. induction bs as [|c bs IH]; [done|]. cbn [flat_map].
  destruct (hex_of_byte_spec c) as [_ Hc]. cbn [hex_of_byte map app unhex] in Hc |- *.
  injection Hc as Hc. rewrite Hc. f_equal. exact IH.
Qed.

Lemma to_hex_digits bs : forallb is_lower_hex (bytes (to_hex bs)) = true.
Proof.
  rewrite bytes_to_hex. induction bs as [|c bs IH]; [done|]. cbn [flat_map].
  rewrite forallb_app, IH. by rewrite (proj1 (hex_of_byte_spec c)).
Qed.

Lemma to_hex_length bs : str_len (to_hex bs) = 2 * len bs.
Proof.
  rewrite str_len_bytes, bytes_to_hex. unfold len. induction bs as [|c bs IH]; [done|].
  cbn [flat_map]. rewrite length_app, Nat2Z.inj_add, IH. cbn [length map hex_of_byte]. lia.
Qed.
