(* ===== verification/AuditExport.v ===== *)
(** * AuditExport: out-of-database verification of Store exports (export.rs)

    [verify] walks the lines of an export from a trusted anchor: contiguous numbers, linked and
    recomputed chain values, body digests, origins, attested epoch changes and settled expiries.
    [assess_recovery] compares the verified path with out-of-band checkpoints and records.
    serde's line deserializer is a parameter that keeps the envelope text verbatim. *)
From stdpp Require Import base gmap sets list strings vector.
From Stdlib Require Import ZArith Lia Ascii.
From S2P Require Import Prelude Text Ordered Manifest Json AuditKinds AuditCatalog.
From S2P Require Import AuditChain.

Local Open Scope Z_scope.

Abbreviation Hash := (vec ascii 32).

Definition RETENTION_EXPIRED : string := "audit.retention.expired".
Definition BODY_PURGED : string := "audit.body.purged".
Definition EPOCH_STARTED : string := "audit.recovery.epoch_started".

(** ** The verified path *)

Record Checkpoint : Type := { cp_epoch : Z; cp_seq : Z; cp_chain : Hash }.
#[global] Instance Checkpoint_eq_dec : EqDecision Checkpoint.
Proof. solve_decision. Defined.

Definition Checkpoint_GENESIS : Checkpoint := {| cp_epoch := 1; cp_seq := 0; cp_chain := GENESIS |}.

Inductive Anchor : Type := AnchorGenesis | AnchorCheckpoint (c : Checkpoint).

Definition anchor_checkpoint (a : Anchor) : Checkpoint :=
  match a with AnchorGenesis => Checkpoint_GENESIS | AnchorCheckpoint c => c end.

Inductive RecoveryClassification : Type := Restore | PlannedMove | Regression.
#[global] Instance RecoveryClassification_eq_dec : EqDecision RecoveryClassification.
Proof. solve_decision. Defined.

Definition RecoveryClassification_as_str (c : RecoveryClassification) : string :=
  match c with Restore => "restore" | PlannedMove => "planned_move" | Regression => "regression" end.

Definition RecoveryClassification_parse (value : string) : option RecoveryClassification :=
  find (fun c => RecoveryClassification_as_str c == value) [Restore; PlannedMove; Regression].

Record EpochAttestation : Type := {
  ea_restored_head_seq : Z;
  ea_restored_head_chain : Hash;
  ea_lost_from_seq : Z;
  ea_lost_upper_seq : Z;
  ea_lost_upper_known : bool;
  ea_classification : RecoveryClassification
}.

Record EpochTransition : Type := {
  et_seq : Z;
  et_old_epoch : Z;
  et_new_epoch : Z;
  et_attestation : option EpochAttestation
}.

Record ExpiredRowEvidence : Type := { er_seq : Z; er_evidence_seq : Z; er_verified : bool }.

Record ExportReport : Type := {
  anchored : bool;
  anchor : option Checkpoint;
  rep_head : Checkpoint;
  rows : Z;
  bodies : Z;
  expired : Z;
  unverified_expiry_evidence : Z;
  unverified_restored_heads : Z;
  epochs_authenticated : bool;
  chains : list Hash;
  transitions : list EpochTransition;
  expiries : list ExpiredRowEvidence
}.

(** [self.anchor.filter(|_| self.anchored)]. *)
Definition trusted_anchor (r : ExportReport) : option Checkpoint :=
  opt_filter (fun _ => anchored r) (anchor r).

(** [ExportReport::epoch_at] and [chain_at]. *)
Definition epoch_at (r : ExportReport) (seq : Z) : option Z :=
  match trusted_anchor r with
  | None => None
  | Some a =>
      if (seq <? cp_seq a) || (cp_seq (rep_head r) <? seq) then None
      else
        Some (match find (fun t => et_seq t <=? seq) (rev (transitions r)) with
              | Some t => et_new_epoch t
              | None => cp_epoch a
              end)
  end.

Definition checked_sub_i64 (a b : Z) : option Z :=
  if (i64_min <=? a - b) && (a - b <=? i64_max) then Some (a - b) else None.

Definition chain_at (r : ExportReport) (seq : Z) : option Hash :=
  match trusted_anchor r with
  | None => None
  | Some a =>
      if seq =? cp_seq a then Some (cp_chain a)
      else
        d ← checked_sub_i64 seq (cp_seq a);
        index ← checked_sub_i64 d 1;
        if index <? 0 then None else chains r !! Z.to_nat index
  end.

(** ** Lines *)

Inductive ExportError : Type :=
| Malformed (line : Z)
| SeqGap (line expected found : Z)
| BrokenLink (line : Z)
| ChainMismatch (line : Z)
| DigestMismatch (line : Z)
| EventIdMismatch (line : Z)
| BodyState (line : Z)
| OriginMismatch (line : Z)
| ExpiryOnControlEvent (line : Z)
| ExpiryEvidenceMissing (line : Z)
| ExpiryEvidenceMismatch (line : Z)
| EpochRegressed (line : Z)
| EpochSkipped (line : Z)
| UnattestedEpochChange (line : Z)
| EpochStartedWithoutTransition (line : Z)
| WatermarkMismatch (watermark head : Z).

Inductive Mode : Type := Bodies | IdentityChain.
#[global] Instance Mode_eq_dec : EqDecision Mode.
Proof. solve_decision. Defined.

Definition LINE_KEYS : list string :=
  ["chain"; "envelope"; "envelope_digest"; "event_id"; "expired"; "expired_by_seq"; "origin";
   "prev_chain"; "recovery_epoch"; "seq"].

Record RawLine : Type := {
  rl_seq : Z;
  rl_event_id : string;
  rl_origin : string;
  rl_envelope_digest : string;
  rl_prev_chain : string;
  rl_chain : string;
  rl_recovery_epoch : Z;
  rl_expired : bool;
  rl_expired_by_seq : option Z;
  rl_envelope : option string
}.

Inductive Evidence : Type :=
| Retention (count : option Z) (first_seq last_seq : option (option Z)) (digest : option Hash)
| Purge (target_seq : option Z) (target_event_id : option Uuid)
| EpochStarted (old_epoch new_epoch restored_head_seq : option Z)
    (restored_head_chain : option Hash) (lost_from_seq lost_upper_seq : option Z)
    (lost_upper_known : option bool) (classification : option RecoveryClassification).

Record Body : Type := {
  body_text : string;
  body_id : option string;
  body_event_type : option string;
  body_source : option string;
  body_evidence : option Evidence
}.

Record Line : Type := {
  ln_seq : Z;
  ln_event_id : Uuid;
  ln_origin : Origin;
  ln_digest : Hash;
  ln_prev_chain : Hash;
  ln_chain : Hash;
  ln_epoch : Z;
  ln_expired_by_seq : option Z;
  ln_body : option Body
}.

Section ExportLines.
Context {F : Floats} {X : AuditExternals} {D : Digest}.

Definition nullable_int (value : option Value) : option (option Z) :=
  match value with
  | None => None
  | Some VNull => Some None
  | Some other => Some <$> as_i64 other
  end.

Definition hex (value : option Value) : option Hash :=
  v ← value; s ← as_str v; parse_hex32 s.

Definition evidence (event_type : string) (details : Value) : option Evidence :=
  let int name := v ← get details name; as_i64 v in
  if event_type == RETENTION_EXPIRED then
    Some (Retention (int "count") (nullable_int (get details "first_seq"))
            (nullable_int (get details "last_seq")) (hex (get details "expired_set_digest")))
  else if event_type == BODY_PURGED then
    Some (Purge (int "target_seq")
            (v ← get details "target_event_id"; s ← as_str v;
             id ← opt_filter is_uuid (Some s); uuid_parse id))
  else if event_type == EPOCH_STARTED then
    Some (EpochStarted (int "old_epoch") (int "new_epoch") (int "restored_head_seq")
            (hex (get details "restored_head_chain")) (int "lost_from_seq") (int "lost_upper_seq")
            (v ← get details "lost_upper_known"; as_bool v)
            (v ← get details "classification"; s ← as_str v; RecoveryClassification_parse s))
  else None.

(** The body of a line: absent for [null], read from an object; anything else is malformed. *)
Definition parse_body (value : Value) (raw_envelope : option string) : option (option Body) :=
  match value, raw_envelope with
  | VNull, _ => Some None
  | VObject envelope, Some raw_body =>
      let text_of name := v ← member envelope name; as_str v in
      let t := text_of "type" in
      Some (Some {| body_text := raw_body;
                    body_id := text_of "id";
                    body_event_type := t;
                    body_source := text_of "source";
                    body_evidence :=
                      ty ← t;
                      d ← member envelope "data";
                      details ← get d "details";
                      evidence ty details |})
  | _, _ => None
  end.

(** [deserializer] as in [parse_unique]; [raw_line] is [serde_json::from_str::<RawLine>]. *)
Context (deserializer : string -> Raw * bool) (raw_line : string -> option RawLine).

Definition parse_line (text : string) : option Line :=
  value ← ok (parse_unique deserializer text);
  object ← as_object value;
  if negb (len object =? len LINE_KEYS) || negb (forallb (has_member object) LINE_KEYS) then None
  else
    raw ← raw_line text;
    origin ← Origin_parse (rl_origin raw);
    if (rl_seq raw <? 1) || (rl_recovery_epoch raw <? 1) || negb (is_uuid (rl_event_id raw))
       || negb (Bool.eqb (rl_expired raw) (is_some (rl_expired_by_seq raw)))
    then None
    else
      body ← parse_body (unwrap_or VNull (member object "envelope")) (rl_envelope raw);
      event_id ← uuid_parse (rl_event_id raw);
      digest ← parse_hex32 (rl_envelope_digest raw);
      prev ← parse_hex32 (rl_prev_chain raw);
      chain ← parse_hex32 (rl_chain raw);
      Some {| ln_seq := rl_seq raw;
              ln_event_id := event_id;
              ln_origin := origin;
              ln_digest := digest;
              ln_prev_chain := prev;
              ln_chain := chain;
              ln_epoch := rl_recovery_epoch raw;
              ln_expired_by_seq := rl_expired_by_seq raw;
              ln_body := body |}.

(** The catalog entry when the type is known, the structural rule otherwise. *)
Definition origin_matches (catalog : Catalog) (origin : Origin) (body : Body) : bool :=
  match body_event_type body, body_source body with
  | Some t, Some source =>
      match Catalog_get catalog t with
      | Some spec => (es_origin spec == origin) && (es_source spec == source)
      | None =>
          let control := starts_with_str t CONTROL_TYPE_PREFIX in
          match origin with
          | Store => control && (source == AUDIT_STORE_SOURCE)
          | RelayControl => control && (source == AUDIT_RELAY_SOURCE)
          | Relay => negb control && negb (is_control_source source)
          end
      end
  | _, _ => false
  end.

Definition strip_newline (s : string) : string :=
  match rev (raw_bytes s) with
  | c :: r => if byte_of_ascii c =? 10 then String.string_of_list_ascii (rev r) else s
  | [] => s
  end.

Definition split_lines (text : string) : list string :=
  if text == "" then [] else split_at_any [10] (strip_newline text).

(** ** Expiry bookkeeping *)

Record PendingExpiry : Type := { pe_seq : Z; pe_event_id : Uuid; pe_line : Z }.

Record ExpiryLedger : Type := {
  by_evidence : list (Z * list PendingExpiry);
  ledger_evidence : list (Z * (Z * Evidence))
}.

Definition expired_rows_of (evidence_seq : Z) (verified : bool) (pending : list PendingExpiry)
    : list ExpiredRowEvidence :=
  map (fun row => {| er_seq := pe_seq row; er_evidence_seq := evidence_seq;
                     er_verified := verified |}) pending.

Definition ledger_unverified (l : ExpiryLedger) : list ExpiredRowEvidence :=
  sort_by_key er_seq (flat_map (fun e => expired_rows_of e.1 false e.2) (by_evidence l)).

(** The first loop of [settle]: evidence past the head is recorded as unverified, evidence
    inside the export must be there. *)
Definition settle_missing (l : ExpiryLedger) (head_seq : Z) (settled : list ExpiredRowEvidence)
    (e : Z * list PendingExpiry) : Result (list ExpiredRowEvidence) ExportError :=
  let '(evidence_seq, pending) := e in
  if head_seq <? evidence_seq then Ok (settled ++ expired_rows_of evidence_seq false pending)
  else if is_none (bt_get evidence_seq (ledger_evidence l))
  then Err (ExpiryEvidenceMissing (match pending with row :: _ => pe_line row | [] => 0 end))
  else Ok settled.

(** [usize::try_from(count)]. *)
Definition usize_of (count : Z) : option Z := if 0 <=? count then Some count else None.

(** The second loop: the rows an evidence names are exactly the rows that name it. *)
Definition settle_evidence (l : ExpiryLedger) (anchor_seq : Z) (settled : list ExpiredRowEvidence)
    (e : Z * (Z * Evidence)) : Result (list ExpiredRowEvidence) ExportError :=
  let '(evidence_seq, (line, ev)) := e in
  let pending := bt_values evidence_seq (by_evidence l) in
  let mismatch := Err (ExpiryEvidenceMismatch line) in
  match ev with
  | Retention (Some count) (Some first) (Some last_) (Some digest) =>
      let seqs := map pe_seq pending in
      if is_some_and first (fun f => f <=? anchor_seq) then
        let fits :=
          is_some_and (usize_of count) (fun c => len seqs <=? c)
          && forallb (fun seq => is_some_and first (fun f => f <=? seq)
                                 && is_some_and last_ (fun l => seq <=? l)) seqs in
        if negb fits then mismatch else Ok (settled ++ expired_rows_of evidence_seq false pending)
      else
        let exact :=
          is_some_and (usize_of count) (fun c => len seqs =? c)
          && (first == head seqs) && (last_ == last seqs)
          && (expired_set_digest seqs == digest) in
        if negb exact then mismatch else Ok (settled ++ expired_rows_of evidence_seq true pending)
  | Retention _ _ _ _ => mismatch
  | Purge None _ => mismatch
  | Purge (Some target_seq) target_event_id =>
      let ok :=
        if target_seq <=? anchor_seq then is_empty pending
        else
          match pending with
          | [row] => (pe_seq row =? target_seq) && (Some (pe_event_id row) == target_event_id)
          | _ => false
          end in
      if negb ok then mismatch else Ok (settled ++ expired_rows_of evidence_seq true pending)
  | EpochStarted _ _ _ _ _ _ _ _ => Ok settled
  end.

Definition settle (l : ExpiryLedger) (anchor_seq head_seq : Z)
    : Result (list ExpiredRowEvidence) ExportError :=
  let? settled := for_each (settle_missing l head_seq) [] (by_evidence l) in
  let? settled := for_each (settle_evidence l anchor_seq) settled (ledger_evidence l) in
  Ok (sort_by_key er_seq settled).

(** ** Epoch changes *)

Definition attest_transition (line : Line) (old_epoch : Z) (report : ExportReport)
    : option EpochAttestation :=
  body ← ln_body line;
  match body_evidence body with
  | Some (EpochStarted (Some recorded_old) (Some recorded_new) (Some restored_seq)
            (Some restored_chain) (Some lost_from) (Some lost_upper) (Some lost_upper_known)
            (Some classification)) =>
      let attested :=
        (ln_origin line == Store)
        && (body_event_type body == Some EPOCH_STARTED)
        && (recorded_old =? old_epoch) && (recorded_new =? ln_epoch line)
        && (0 <=? restored_seq) && (restored_seq <? ln_seq line)
        && (checked_add_i64 restored_seq 1 == Some lost_from)
        && (restored_seq <=? lost_upper)
        && is_none_or (chain_at report restored_seq) (fun chain => chain == restored_chain) in
      then_some attested
        {| ea_restored_head_seq := restored_seq;
           ea_restored_head_chain := restored_chain;
           ea_lost_from_seq := lost_from;
           ea_lost_upper_seq := lost_upper;
           ea_lost_upper_known := lost_upper_known;
           ea_classification := classification |}
  | _ => None
  end.

Definition is_epoch_started (line : Line) : bool :=
  (ln_origin line == Store)
  && is_some_and (ln_body line) (fun body => body_event_type body == Some EPOCH_STARTED).
End ExportLines.
