(* ===== verification/AuditVerify.v ===== *)
(** * AuditVerify: the verification loop and the recovery assessment (export.rs) *)
From stdpp Require Import base gmap sets list strings vector.
From Stdlib Require Import ZArith Lia Ascii.
From S2P Require Import Prelude Text Ordered Manifest Json AuditKinds AuditCatalog.
From S2P Require Import AuditChain AuditExport.

Local Open Scope Z_scope.

(** ** [verify] *)

Section Verify.
Context {F : Floats} {X : AuditExternals} {D : Digest}.
Context (deserializer : string -> Raw * bool) (raw_line : string -> option RawLine)
  (catalog : Catalog).

(** The variables of the loop. *)
Record Verifying : Type := {
  vf_head : Checkpoint;
  vf_report : ExportReport;
  vf_ledger : ExpiryLedger
}.

(** Numbers, links and epochs against the previous row; whether the epoch changes. *)
Definition check_position (st : Verifying) (line : Line) (number : Z) : Result bool ExportError :=
  let head := vf_head st in
  let? next_seq := ok_or (checked_add_i64 (cp_seq head) 1) (Malformed number) in
  if anchored (vf_report st) then
    if negb (ln_seq line =? next_seq) then Err (SeqGap number next_seq (ln_seq line))
    else if ln_prev_chain line != cp_chain head then Err (BrokenLink number)
    else if ln_epoch line <? cp_epoch head then Err (EpochRegressed number)
    else if cp_epoch head <? ln_epoch line then
      if checked_add_i64 (cp_epoch head) 1 != Some (ln_epoch line)
      then Err (EpochSkipped number)
      else Ok true
    else Ok false
  else if (0 <? rows (vf_report st)) && (ln_seq line <? next_seq)
  then Err (SeqGap number next_seq (ln_seq line))
  else Ok false.

Definition check_expiry (line : Line) (watermark : option Z) (number : Z)
    : Result unit ExportError :=
  match ln_expired_by_seq line with
  | None => Ok tt
  | Some evidence_seq =>
      if ln_origin line != Relay then Err (ExpiryOnControlEvent number)
      else if (evidence_seq <=? ln_seq line) || is_some_and watermark (fun w => w <? evidence_seq)
      then Err (ExpiryEvidenceMissing number)
      else Ok tt
  end.

(** Body presence, digest, identifier and origin; the number of bodies read. *)
Definition check_body (mode : Mode) (line : Line) (number : Z) : Result Z ExportError :=
  match mode, ln_expired_by_seq line, ln_body line with
  | Bodies, None, Some body =>
      if envelope_digest (body_text body) != ln_digest line then Err (DigestMismatch number)
      else if body_id body != Some (uuid_to_string (ln_event_id line))
      then Err (EventIdMismatch number)
      else if negb (origin_matches catalog (ln_origin line) body) then Err (OriginMismatch number)
      else Ok 1
  | Bodies, Some _, None => Ok 0
  | IdentityChain, _, None => Ok 0
  | _, _, _ => Err (BodyState number)
  end.

(** The transition recorded for the line, and whether its restored head precedes the anchor. *)
Definition check_transition (mode : Mode) (st : Verifying) (line : Line) (transition : bool)
    (number : Z) : Result (list EpochTransition * Z) ExportError :=
  let report := vf_report st in
  let head := vf_head st in
  let attests := anchored report && (mode == Bodies) in
  if transition then
    let? '(attestation, before) :=
      if attests then
        let? a := ok_or (attest_transition line (cp_epoch head) report)
                    (UnattestedEpochChange number) in
        Ok (Some a, if is_some_and (anchor report)
                         (fun c => ea_restored_head_seq a <? cp_seq c)
                    then 1 else 0)
      else Ok (None, 0) in
    Ok ([{| et_seq := ln_seq line;
            et_old_epoch := cp_epoch head;
            et_new_epoch := ln_epoch line;
            et_attestation := attestation |}], before)
  else if attests && is_epoch_started line then Err (EpochStartedWithoutTransition number)
  else Ok ([], 0).

Definition ledger_add (l : ExpiryLedger) (line : Line) (number : Z) : ExpiryLedger := {|
  by_evidence :=
    match ln_expired_by_seq line with
    | Some evidence_seq =>
        bt_push evidence_seq
          {| pe_seq := ln_seq line; pe_event_id := ln_event_id line; pe_line := number |}
          (by_evidence l)
    | None => by_evidence l
    end;
  ledger_evidence :=
    match ln_origin line, ln_body line ≫= body_evidence with
    | Store, Some ((Retention _ _ _ _ | Purge _ _) as ev) =>
        bt_insert (ln_seq line) (number, ev) (ledger_evidence l)
    | _, _ => ledger_evidence l
    end
|}.

Definition verify_line (mode : Mode) (watermark : option Z) (st : Verifying)
    (numbered : Z * string) : Result Verifying ExportError :=
  let '(number, text) := numbered in
  let report := vf_report st in
  let? line := ok_or (parse_line deserializer raw_line text) (Malformed number) in
  let? transition := check_position st line number in
  if chain_next (ln_prev_chain line) (ln_seq line) (ln_event_id line) (ln_digest line)
     != ln_chain line
  then Err (ChainMismatch number)
  else
    try? check_expiry line watermark number in
    let? read := check_body mode line number in
    let? '(changes, before) := check_transition mode st line transition number in
    Ok {| vf_head :=
            {| cp_epoch := ln_epoch line; cp_seq := ln_seq line; cp_chain := ln_chain line |};
          vf_report :=
            {| anchored := anchored report;
               anchor := anchor report;
               rep_head := rep_head report;
               rows := rows report + 1;
               bodies := bodies report + read;
               expired := expired report + (if is_some (ln_expired_by_seq line) then 1 else 0);
               unverified_expiry_evidence := unverified_expiry_evidence report;
               unverified_restored_heads := unverified_restored_heads report + before;
               epochs_authenticated := epochs_authenticated report;
               chains := chains report ++ (if anchored report then [ln_chain line] else []);
               transitions := transitions report ++ changes;
               expiries := expiries report |};
          vf_ledger := ledger_add (vf_ledger st) line number |}.

Definition verify_start (start : option Anchor) (mode : Mode) : Verifying :=
  let anchor_ := option_map anchor_checkpoint start in
  let head := unwrap_or Checkpoint_GENESIS anchor_ in
  {| vf_head := head;
     vf_report :=
       {| anchored := is_some anchor_;
          anchor := anchor_;
          rep_head := head;
          rows := 0;
          bodies := 0;
          expired := 0;
          unverified_expiry_evidence := 0;
          unverified_restored_heads := 0;
          epochs_authenticated := is_some anchor_ && (mode == Bodies);
          chains := [];
          transitions := [];
          expiries := [] |};
     vf_ledger := {| by_evidence := []; ledger_evidence := [] |} |}.

(** [enumerate], counting lines from one. *)
Fixpoint numbered_from (n : Z) (lines : list string) : list (Z * string) :=
  match lines with
  | [] => []
  | l :: lines => (n, l) :: numbered_from (n + 1) lines
  end.

(** What follows the loop. *)
Definition verify_finish (mode : Mode) (watermark : option Z) (st : Verifying)
    : Result ExportReport ExportError :=
  let head := vf_head st in
  let report := vf_report st in
  if is_some_and watermark (fun w => negb (cp_seq head =? w))
  then Err (WatermarkMismatch (unwrap_or 0 watermark) (cp_seq head))
  else
    let? settled :=
      match anchor report, mode with
      | Some a, Bodies => settle (vf_ledger st) (cp_seq a) (cp_seq head)
      | _, _ => Ok (ledger_unverified (vf_ledger st))
      end in
    Ok {| anchored := anchored report;
          anchor := anchor report;
          rep_head := head;
          rows := rows report;
          bodies := bodies report;
          expired := expired report;
          unverified_expiry_evidence := count (fun row => negb (er_verified row)) settled;
          unverified_restored_heads := unverified_restored_heads report;
          epochs_authenticated := epochs_authenticated report;
          chains := chains report;
          transitions := transitions report;
          expiries := settled |}.

Definition verify (text : string) (start : option Anchor) (mode : Mode) (watermark : option Z)
    : Result ExportReport ExportError :=
  let? st :=
    for_each (verify_line mode watermark) (verify_start start mode)
      (numbered_from 1 (split_lines text)) in
  verify_finish mode watermark st.

(** The entry points. *)
Definition verify_export (text : string) (start : Anchor) :=
  verify text (Some start) Bodies None.
Definition verify_export_complete (text : string) (start : Anchor) (watermark : Z) :=
  verify text (Some start) Bodies (Some watermark).
Definition verify_identity_chain (text : string) (start : Anchor) :=
  verify text (Some start) IdentityChain None.
Definition verify_identity_chain_complete (text : string) (start : Anchor) (watermark : Z) :=
  verify text (Some start) IdentityChain (Some watermark).
Definition verify_export_subset (text : string) := verify text None Bodies None.
End Verify.

(** ** Comparison with an out-of-band checkpoint *)

Inductive CheckpointComparison : Type :=
| CMatch | CMismatch | CEpochMismatch | CStoreBehind | CAhead | CBeforeAnchor | CUnanchored.
#[global] Instance CheckpointComparison_eq_dec : EqDecision CheckpointComparison.
Proof. solve_decision. Defined.

Definition compare_checkpoint (report : ExportReport) (checkpoint : Checkpoint)
    : CheckpointComparison :=
  match trusted_anchor report with
  | None => CUnanchored
  | Some a =>
      if cp_seq (rep_head report) <? cp_seq checkpoint then CStoreBehind
      else if cp_seq checkpoint <? cp_seq a then CBeforeAnchor
      else
        match chain_at report (cp_seq checkpoint) with
        | Some chain =>
            if chain == cp_chain checkpoint then
              if epoch_at report (cp_seq checkpoint) != Some (cp_epoch checkpoint)
              then CEpochMismatch
              else if cp_seq checkpoint =? cp_seq (rep_head report) then CMatch
              else CAhead
            else CMismatch
        | None => CMismatch
        end
  end.

(** ** Recovery records *)

Record RecoveryRecord : Type := {
  rr_old_epoch : Z;
  rr_new_epoch : Z;
  rr_restored_head_seq : Z;
  rr_restored_head_chain : Hash;
  rr_lost_upper : Z;
  rr_lost_upper_known : bool
}.
#[global] Instance RecoveryRecord_eq_dec : EqDecision RecoveryRecord.
Proof. solve_decision. Defined.

(** [RecoveryRecord::loses], [covers] and [matches]. *)
Definition loses (r : RecoveryRecord) : bool :=
  negb (rr_lost_upper_known r) || (rr_restored_head_seq r <? rr_lost_upper r).

Definition covers (r : RecoveryRecord) (seq : Z) : bool :=
  (rr_restored_head_seq r <? seq) && (negb (rr_lost_upper_known r) || (seq <=? rr_lost_upper r)).

Definition record_matches (r : RecoveryRecord) (transition : EpochTransition)
    (report : ExportReport) : bool :=
  match checked_sub_i64 (et_seq transition) 1 with
  | None => false
  | Some last_before =>
      let shape :=
        (rr_old_epoch r =? et_old_epoch transition) && (rr_new_epoch r =? et_new_epoch transition)
        && (0 <=? rr_restored_head_seq r) && (rr_restored_head_seq r <? et_seq transition)
        && (last_before <=? rr_lost_upper r) in
      let attested :=
        is_none_or (et_attestation transition) (fun body =>
          (ea_restored_head_seq body =? rr_restored_head_seq r)
          && (ea_restored_head_chain body == rr_restored_head_chain r)
          && (ea_lost_upper_seq body =? rr_lost_upper r)
          && Bool.eqb (ea_lost_upper_known body) (rr_lost_upper_known r)
          && ((ea_classification body != PlannedMove) || negb (loses r))) in
      shape && attested
      && is_none_or (chain_at report (rr_restored_head_seq r))
           (fun chain => chain == rr_restored_head_chain r)
  end.

(** ** The verdict *)

Inductive ChainVerdict : Type :=
| Authentic
| AuthenticThrough (seq : Z)
| UnverifiedExpiry
| NoCheckpoint
| Lost
| UnverifiedRecovery
| Tampered
| Unanchored.
#[global] Instance ChainVerdict_eq_dec : EqDecision ChainVerdict.
Proof. solve_decision. Defined.

(** The derived order: best to worst, then the field. *)
Definition verdict_key (v : ChainVerdict) : Z * Z :=
  match v with
  | Authentic => (0, 0)
  | AuthenticThrough seq => (1, seq)
  | UnverifiedExpiry => (2, 0)
  | NoCheckpoint => (3, 0)
  | Lost => (4, 0)
  | UnverifiedRecovery => (5, 0)
  | Tampered => (6, 0)
  | Unanchored => (7, 0)
  end.
#[global] Instance ChainVerdict_ord : Ord ChainVerdict := fun a b =>
  cmp (verdict_key a) (verdict_key b).

(** [Ord::max]. *)
Definition worse (a b : ChainVerdict) : ChainVerdict :=
  match cmp a b with Gt => a | _ => b end.

Record EpochReview : Type := {
  review_transition : EpochTransition;
  review_record : option RecoveryRecord;
  restored_head_verified : bool
}.

Record CheckpointFinding : Type := {
  cf_checkpoint : Checkpoint;
  cf_comparison : CheckpointComparison;
  cf_verdict : ChainVerdict;
  cf_explained_by : option RecoveryRecord
}.

Record RecoveryAssessment : Type := {
  verdict : ChainVerdict;
  authenticated_through : option Z;
  epochs : list EpochReview;
  findings : list CheckpointFinding;
  unmatched_records : list RecoveryRecord;
  records_before_anchor : list RecoveryRecord;
  records_after_head : list RecoveryRecord;
  unconfirmed_expiries : Z
}.

(** The loop of [classify_difference] over the later recoveries. *)
Fixpoint classify_loop (checkpoint : Checkpoint) (disagrees : bool) (later : list EpochReview)
    : ChainVerdict * option RecoveryRecord :=
  match later with
  | [] => (if disagrees then UnverifiedRecovery else Tampered, None)
  | epoch :: later =>
      match review_record epoch with
      | Some record =>
          if cp_seq checkpoint <=? rr_restored_head_seq record then (Tampered, None)
          else if covers record (cp_seq checkpoint) then (Lost, Some record)
          else classify_loop checkpoint true later
      | None =>
          classify_loop checkpoint
            (disagrees || (et_seq (review_transition epoch) <=? cp_seq checkpoint)) later
      end
  end.

Definition classify_difference (checkpoint : Checkpoint) (epochs : list EpochReview)
    : ChainVerdict * option RecoveryRecord :=
  classify_loop checkpoint false
    (List.filter (fun e => cp_epoch checkpoint <=? et_old_epoch (review_transition e)) epochs).

Definition review_epoch (report : ExportReport) (records : list RecoveryRecord)
    (transition : EpochTransition) : EpochReview :=
  let record := find (fun r => record_matches r transition report) records in
  let restored_head :=
    match record with
    | Some r => Some (rr_restored_head_seq r, rr_restored_head_chain r)
    | None =>
        option_map (fun a => (ea_restored_head_seq a, ea_restored_head_chain a))
          (et_attestation transition)
    end in
  {| review_transition := transition;
     review_record := record;
     restored_head_verified :=
       is_some_and restored_head (fun '(seq, chain) => chain_at report seq == Some chain) |}.

Definition epoch_verdict (e : EpochReview) : ChainVerdict :=
  match review_record e with
  | None => UnverifiedRecovery
  | Some record =>
      if negb (restored_head_verified e) then UnverifiedRecovery
      else if loses record then Lost
      else Authentic
  end.

(** One checkpoint: its finding, and what it does to the verdict and the authenticated seq. *)
Definition assess_checkpoint (report : ExportReport) (a : Checkpoint) (epochs : list EpochReview)
    (st : ChainVerdict * option Z * list CheckpointFinding) (checkpoint : Checkpoint)
    : ChainVerdict * option Z * list CheckpointFinding :=
  let '(worst, through, findings) := st in
  let comparison := compare_checkpoint report checkpoint in
  let at_anchor := cp_seq checkpoint =? cp_seq a in
  let '(v, explained) :=
    if at_anchor then (NoCheckpoint, None)
    else
      match comparison with
      | CMatch => (Authentic, None)
      | CAhead => (AuthenticThrough (cp_seq checkpoint), None)
      | CBeforeAnchor => (NoCheckpoint, None)
      | CUnanchored => (Unanchored, None)
      | CEpochMismatch => (UnverifiedRecovery, None)
      | CMismatch | CStoreBehind => classify_difference checkpoint epochs
      end in
  let '(worst, through) :=
    if at_anchor then (worst, through)
    else
      match comparison with
      | CMatch | CAhead =>
          (worst, match through with
                  | Some t => Some (Z.max t (cp_seq checkpoint))
                  | None => Some (cp_seq checkpoint)
                  end)
      | CBeforeAnchor => (worst, through)
      | _ => (worse worst v, through)
      end in
  (worst, through,
   findings ++ [{| cf_checkpoint := checkpoint;
                   cf_comparison := comparison;
                   cf_verdict := v;
                   cf_explained_by := explained |}]).

Definition assess_recovery (report : ExportReport) (checkpoints : list Checkpoint)
    (records : list RecoveryRecord) : RecoveryAssessment :=
  match trusted_anchor report with
  | None =>
      {| verdict := Unanchored; authenticated_through := None; epochs := []; findings := [];
         unmatched_records := records; records_before_anchor := []; records_after_head := [];
         unconfirmed_expiries := 0 |}
  | Some a =>
      let epochs := map (review_epoch report records) (transitions report) in
      let unused :=
        List.filter (fun r => negb (existsb (fun e => review_record e == Some r) epochs)) records in
      let before := List.filter (fun r => rr_new_epoch r <=? cp_epoch a) unused in
      let rest := List.filter (fun r => negb (rr_new_epoch r <=? cp_epoch a)) unused in
      let after := List.filter (fun r => cp_epoch (rep_head report) <=? rr_old_epoch r) rest in
      let unmatched :=
        List.filter (fun r => negb (cp_epoch (rep_head report) <=? rr_old_epoch r)) rest in
      let worst := fold_left (fun w e => worse w (epoch_verdict e)) epochs Authentic in
      let worst := if is_empty unmatched then worst else worse worst UnverifiedRecovery in
      let '(worst, through, found) :=
        fold_left (assess_checkpoint report a epochs) checkpoints (worst, None, []) in
      let confirmed :=
        match through with
        | None => NoCheckpoint
        | Some seq => if seq =? cp_seq (rep_head report) then Authentic else AuthenticThrough seq
        end in
      let worst := worse worst confirmed in
      let unconfirmed :=
        match through with
        | None => 0
        | Some t =>
            count (fun row => (er_seq row <=? t)
                              && (negb (er_verified row) || (t <? er_evidence_seq row)))
              (expiries report)
        end in
      let worst :=
        if (0 <? unconfirmed)
           || ((worst == Authentic) && (0 <? unverified_expiry_evidence report))
        then worse worst UnverifiedExpiry
        else worst in
      {| verdict := worst;
         authenticated_through := through;
         epochs := epochs;
         findings := found;
         unmatched_records := unmatched;
         records_before_anchor := before;
         records_after_head := after;
         unconfirmed_expiries := unconfirmed |}
  end.

(** ** [ChainIntegrity] *)

Inductive ChainIntegrity : Type := Intact | Broken (e : ExportError) | IntegrityUnanchored.

Definition integrity_of (result : Result ExportReport ExportError) : ChainIntegrity :=
  match result with
  | Ok report => if anchored report then Intact else IntegrityUnanchored
  | Err e => Broken e
  end.
