(* ===== verification/AuditTheorems.v ===== *)
(** * AuditTheorems: what a verified and an authentic export guarantee

    A verified path is a contiguous, linked and recomputed sequence of rows.  Two paths from
    the same anchor that end in the same chain value carry the same rows, unless two different
    byte strings fed to SHA-256 along them have the same digest; an export that is assessed as
    authentic is therefore a prefix of the history its checkpoints were taken from.  Every body
    a verified export lacks is attested by its expiry ledger. *)
From stdpp Require Import base gmap sets list strings vector sorting.
From Stdlib Require Import ZArith Lia Ascii.
From S2P Require Import Prelude Text Ordered Manifest Json AuditKinds AuditCatalog AuditChain.
From S2P Require Import AuditExport AuditVerify.
Local Open Scope Z_scope.

(** [Uuid::parse_str] gives 128 bits. *)
Class AuditExternalsLaws {X : AuditExternals} : Prop := {
  uuid_parse_width : forall s u, uuid_parse s = Some u -> (u < 2 ^ 128)%N
}.

(** ** Fixed-width encodings *)

Lemma be_bytes_length width z : length (be_bytes width z) = length width.
Proof. unfold be_bytes. by rewrite length_map. Qed.

Lemma byte_ascii_inj a b :
  0 <= a < 256 -> 0 <= b < 256 -> ascii_of_byte a = ascii_of_byte b -> a = b.
Proof.
  unfold ascii_of_byte. intros Ha Hb H.
  apply (f_equal N_of_ascii) in H. rewrite !N_ascii_embedding in H; lia.
Qed.

Lemma land_255 z k : 0 <= Z.land (Z.shiftr z k) 255 < 256.
Proof. change 255 with (Z.ones 8). rewrite Z.land_ones by lia. apply Z.mod_pos_bound. lia. Qed.

(** Equal big-endian bytes mean equal bits at the offsets of the encoding. *)
Lemma be_bytes_bits width a b :
  be_bytes width a = be_bytes width b ->
  forall k i, k ∈ width -> 0 <= k -> 0 <= i < 8 -> Z.testbit a (k + i) = Z.testbit b (k + i).
Proof.
  unfold be_bytes. intros H k i Hk Hk0 Hi.
  assert (Z.land (Z.shiftr a k) 255 = Z.land (Z.shiftr b k) 255) as E.
  { apply byte_ascii_inj; [apply land_255..|].
    induction width as [|w width IH]; [set_solver|]. cbn in H. apply (inj2 cons) in H as [H1 H2].
    apply elem_of_cons in Hk as [->|Hk]; [done|]. auto. }
  apply (f_equal (fun z => Z.testbit z i)) in E. rewrite !Z.land_spec, !Z.shiftr_spec in E by lia.
  change 255 with (Z.ones 8) in E. rewrite Z.ones_spec_low, !andb_true_r in E by lia.
  by rewrite !(Z.add_comm k).
Qed.

Lemma uuid_be_inj u v : (u < 2 ^ 128)%N -> (v < 2 ^ 128)%N -> uuid_be u = uuid_be v -> u = v.
Proof.
  intros Hu Hv H. apply N2Z.inj. apply Z.bits_inj'. intros n Hn.
  destruct (Z.lt_ge_cases n 128) as [Hlt|Hge].
  - pose proof (be_bytes_bits _ _ _ H (8 * (n / 8)) (n mod 8)) as Hb.
    rewrite <- Z.div_mod in Hb by lia. apply Hb.
    + assert (0 <= n / 8 < 16) as Hq by (split; [apply Z.div_pos|apply Z.div_lt_upper_bound]; lia).
      apply list_elem_of_In. cbn. lia.
    + pose proof (Z.div_pos n 8). lia.
    + apply Z.mod_pos_bound. lia.
  - assert (forall w : N, (w < 2 ^ 128)%N -> Z.testbit (Z.of_N w) n = false) as Hz.
    { intros w Hw. rewrite <- (Z.mod_small (Z.of_N w) (2 ^ 128)) by lia.
      apply Z.mod_pow2_bits_high. lia. }
    by rewrite !Hz.
Qed.

Lemma app_inv_length {A} (a b c d : list A) :
  length a = length c -> a ++ b = c ++ d -> a = c /\ b = d.
Proof. intros Hl H. by apply app_inj_1. Qed.

Lemma vec_to_list_inj {n} (v w : vec ascii n) : vec_to_list v = vec_to_list w -> v = w.
Proof. apply vec_to_list_inj2. Qed.

(** The fields of a chain step are recovered from the bytes that are hashed. *)
Lemma chain_preimage_inj p s e d p' s' e' d' :
  (e < 2 ^ 128)%N -> (e' < 2 ^ 128)%N ->
  chain_preimage p s e d = chain_preimage p' s' e' d' -> p = p' /\ e = e' /\ d = d'.
Proof.
  intros He He' H. unfold chain_preimage in H.
  apply app_inv_length in H as [_ H]; [|done].
  apply app_inv_length in H as [Hp H]; [|by rewrite !length_vec_to_list].
  apply app_inv_length in H as [_ H]; [|by unfold i64_be; rewrite !be_bytes_length].
  apply app_inv_length in H as [Hu Hd]; [|by unfold uuid_be; rewrite !be_bytes_length].
  apply vec_to_list_inj in Hp, Hd. apply uuid_be_inj in Hu; auto.
Qed.

Lemma raw_bytes_inj s t : raw_bytes s = raw_bytes t -> s = t.
Proof.
  intros H. apply (f_equal String.string_of_list_ascii) in H. unfold raw_bytes in H.
  by rewrite !String.string_of_list_ascii_of_string in H.
Qed.

(** ** Linked paths *)

Section Paths.
Context {F : Floats} {X : AuditExternals} {D : Digest} {LX : AuditExternalsLaws}.

Definition row_position (l : Line) : Checkpoint :=
  {| cp_epoch := ln_epoch l; cp_seq := ln_seq l; cp_chain := ln_chain l |}.

Definition row_preimage (l : Line) : list ascii :=
  chain_preimage (ln_prev_chain l) (ln_seq l) (ln_event_id l) (ln_digest l).

(** A row that continues the path: the next number, the link, the recomputed chain value and
    the digest of a present body. *)
Definition next_row (cp : Checkpoint) (l : Line) : Prop :=
  ln_seq l = cp_seq cp + 1 /\ ln_prev_chain l = cp_chain cp
  /\ ln_chain l = sha256 (row_preimage l) /\ (ln_event_id l < 2 ^ 128)%N
  /\ (forall b, ln_body l = Some b -> envelope_digest (body_text b) = ln_digest l).

Fixpoint linked (cp : Checkpoint) (ls : list Line) : Prop :=
  match ls with
  | [] => True
  | l :: ls => next_row cp l /\ linked (row_position l) ls
  end.

Definition end_of (cp : Checkpoint) (ls : list Line) : Checkpoint :=
  match last ls with Some l => row_position l | None => cp end.

(** The byte strings hashed along a path. *)
Definition hashed (ls : list Line) : list (list ascii) :=
  flat_map (fun l => row_preimage l :: match ln_body l with
                                       | Some b => [raw_bytes (body_text b)]
                                       | None => []
                                       end) ls.

Definition collision (xs ys : list (list ascii)) : Prop :=
  exists x y, x ∈ xs /\ y ∈ ys /\ x <> y /\ sha256 x = sha256 y.

(** The same row: number, event, digest, chain value, and text where both carry it. *)
Definition same_row (l l' : Line) : Prop :=
  ln_seq l = ln_seq l' /\ ln_event_id l = ln_event_id l' /\ ln_digest l = ln_digest l'
  /\ ln_chain l = ln_chain l'
  /\ (forall b b', ln_body l = Some b -> ln_body l' = Some b' -> body_text b = body_text b').

Lemma end_of_snoc cp ls l : end_of cp (ls ++ [l]) = row_position l.
Proof. unfold end_of. by rewrite last_snoc. Qed.

Lemma end_of_cons cp l ls : end_of cp (l :: ls) = end_of (row_position l) ls.
Proof. unfold end_of. rewrite last_cons. by destruct (last ls). Qed.

Lemma linked_snoc cp ls l : linked cp (ls ++ [l]) <-> linked cp ls /\ next_row (end_of cp ls) l.
Proof.
  revert cp. induction ls as [|x ls IH]; intros cp; cbn; [unfold end_of; cbn; tauto|].
  rewrite IH, end_of_cons. tauto.
Qed.

Lemma linked_take k cp ls : linked cp ls -> linked cp (take k ls).
Proof.
  revert k cp. induction ls as [|x ls IH]; intros [|k] cp; cbn; auto. intros [? ?]. auto.
Qed.

Lemma linked_seq cp ls : linked cp ls -> cp_seq (end_of cp ls) = cp_seq cp + len ls.
Proof.
  revert cp. induction ls as [|x ls IH]; intros cp; cbn; [unfold end_of, len; cbn; lia|].
  intros [Hx Hl]. rewrite end_of_cons, IH by done. cbn. destruct Hx as [-> _].
  unfold len. cbn. lia.
Qed.

Lemma elem_of_hashed_app ls ls' x : x ∈ hashed (ls ++ ls') <-> x ∈ hashed ls \/ x ∈ hashed ls'.
Proof. unfold hashed. rewrite flat_map_app. set_solver. Qed.

Lemma collision_mono xs xs' ys ys' :
  (forall x, x ∈ xs -> x ∈ xs') -> (forall y, y ∈ ys -> y ∈ ys') ->
  collision xs ys -> collision xs' ys'.
Proof. unfold collision. naive_solver. Qed.

Lemma row_preimage_hashed l : row_preimage l ∈ hashed [l].
Proof. cbn. apply elem_of_cons. by left. Qed.

Lemma body_text_hashed l b : ln_body l = Some b -> raw_bytes (body_text b) ∈ hashed [l].
Proof. intros E. cbn. rewrite E. set_solver. Qed.

(** Rows that continue two paths and have the same chain value. *)
Lemma same_step cp cp' l l' :
  next_row cp l -> next_row cp' l' -> cp_seq cp = cp_seq cp' -> ln_chain l = ln_chain l' ->
  (same_row l l' /\ cp_chain cp = cp_chain cp') \/ collision (hashed [l]) (hashed [l']).
Proof.
  intros (Hs & Hp & Hc & Hw & Hb) (Hs' & Hp' & Hc' & Hw' & Hb') Hseq Hch.
  destruct (decide (row_preimage l = row_preimage l')) as [E|Hne].
  - pose proof E as E'. apply chain_preimage_inj in E' as (Hpp & He & Hd); [|done..].
    destruct (ln_body l) as [b|] eqn:Eb, (ln_body l') as [b'|] eqn:Eb'.
    + destruct (decide (raw_bytes (body_text b) = raw_bytes (body_text b'))) as [Et|Hnt].
      * left. apply raw_bytes_inj in Et. split; [|congruence].
        split; [congruence|]. repeat split; try done; congruence.
      * right. exists (raw_bytes (body_text b)), (raw_bytes (body_text b')).
        repeat split; [by apply body_text_hashed..|done|].
        specialize (Hb _ eq_refl). specialize (Hb' _ eq_refl).
        unfold envelope_digest in *. congruence.
    + left. split; [|congruence]. repeat split; try done; congruence.
    + left. split; [|congruence]. repeat split; try done; congruence.
    + left. split; [|congruence]. repeat split; try done; congruence.
  - right. exists (row_preimage l), (row_preimage l').
    repeat split; [apply row_preimage_hashed..|done|congruence].
Qed.

(** Two paths of the same length from the same anchor to the same chain value. *)
Lemma linked_determined cp ls : forall ls',
  linked cp ls -> linked cp ls' -> length ls = length ls' ->
  cp_chain (end_of cp ls) = cp_chain (end_of cp ls') ->
  Forall2 same_row ls ls' \/ collision (hashed ls) (hashed ls').
Proof.
  induction ls as [|l ls IH] using rev_ind; intros ls' H1 H2 Hl Hc.
  { destruct ls'; [|done]. left. constructor. }
  destruct ls' as [|l' ls' _] using rev_ind; [rewrite length_app in Hl; cbn in Hl; lia|].
  rewrite !length_app in Hl. cbn in Hl. rewrite !end_of_snoc in Hc.
  apply linked_snoc in H1 as [H1 Hr], H2 as [H2 Hr'].
  assert (cp_seq (end_of cp ls) = cp_seq (end_of cp ls')) as Hs.
  { rewrite !linked_seq by done. unfold len. lia. }
  destruct (same_step _ _ _ _ Hr Hr' Hs Hc) as [[Hrow Hprev]|Hcol].
  - destruct (IH ls' H1 H2 ltac:(lia) Hprev) as [Hall|Hcol].
    + left. apply Forall2_app; [done|]. by constructor.
    + right. eapply collision_mono; [..|exact Hcol]; intros x Hx; apply elem_of_hashed_app; auto.
  - right. eapply collision_mono; [..|exact Hcol]; intros x Hx; apply elem_of_hashed_app; auto.
Qed.
End Paths.
Local Open Scope Z_scope.

Section Authentic.
Context {F : Floats} {X : AuditExternals} {D : Digest} {LX : AuditExternalsLaws}.
Context (deserializer : string -> Raw * bool) (raw_line : string -> option RawLine)
  (catalog : Catalog).

Abbreviation parse := (parse_line deserializer raw_line).

Lemma parse_line_width text l : parse text = Some l -> (ln_event_id l < 2 ^ 128)%N.
Proof.
  unfold parse_line. intros H.
  repeat match type of H with
  | (?o ≫= _) = Some _ => apply bind_Some in H as (? & ? & H)
  | (if ?b then _ else _) = Some _ => destruct b; [discriminate H|]
  end.
  simplify_eq/=. by eapply uuid_parse_width.
Qed.

(** One accepted line continues the path and is remembered in the report. *)
Lemma verify_line_step mode w st n text st' :
  anchored (vf_report st) = true ->
  verify_line deserializer raw_line catalog mode w st (n, text) = Ok st' ->
  exists l, parse text = Some l /\ next_row (vf_head st) l /\ vf_head st' = row_position l
    /\ chains (vf_report st') = chains (vf_report st) ++ [ln_chain l]
    /\ anchored (vf_report st') = true /\ anchor (vf_report st') = anchor (vf_report st).
Proof.
  intros Ha H. unfold verify_line in H. cbv zeta in H.
  apply rbind_Ok in H as (l & Hl & H). apply ok_or_Ok in Hl.
  apply rbind_Ok in H as (tr & Hpos & H).
  inv_ok_hyp H. simp_bool.
  apply rbind_Ok in H as ([] & _ & H). apply rbind_Ok in H as (rd & Hbody & H).
  apply rbind_Ok in H as ([changes before] & _ & H). injection H as <-. cbn.
  unfold check_position in Hpos. rewrite Ha in Hpos.
  inv_ok. simp_bool. unfold checked_add_i64 in Hok.
  destruct (_ && _)%bool in Hok; [injection Hok as <-|discriminate Hok].
  exists l. rewrite Ha. repeat split; try done.
  - by eapply parse_line_width.
  - intros b Eb. unfold check_body in Hbody. rewrite Eb in Hbody.
    destruct mode, (ln_expired_by_seq l); try discriminate Hbody. inv_ok. by simp_bool.
Qed.

Lemma verify_lines_path mode w lines : forall st st',
  anchored (vf_report st) = true ->
  for_each (verify_line deserializer raw_line catalog mode w) st lines = Ok st' ->
  exists ls, map (fun e => parse e.2) lines = map Some ls /\ linked (vf_head st) ls
    /\ vf_head st' = end_of (vf_head st) ls
    /\ chains (vf_report st') = chains (vf_report st) ++ map ln_chain ls
    /\ anchored (vf_report st') = true /\ anchor (vf_report st') = anchor (vf_report st).
Proof.
  induction lines as [|[n text] lines IH]; intros st st' Ha H; cbn in H.
  - injection H as <-. exists []. by rewrite app_nil_r.
  - apply rbind_Ok in H as (st1 & H1 & H).
    apply verify_line_step in H1 as (l & Hl & Hr & Hh & Hc & Ha1 & Han); [|done].
    destruct (IH _ _ Ha1 H) as (ls & Hm & Hk & Hh' & Hc' & Ha' & Han').
    exists (l :: ls). cbn [map fst snd linked]. rewrite Hl, Hm, end_of_cons. rewrite <- Hh.
    split; [done|]. split; [done|]. split; [done|].
    split; [by rewrite Hc', Hc, <- app_assoc|]. split; [done|by rewrite Han'].
Qed.

Lemma numbered_from_snd n lines : map snd (numbered_from n lines) = lines.
Proof. revert n. induction lines as [|l lines IH]; intros n; cbn; [done|]. by rewrite IH. Qed.

(** The rows of an export text, when every line parses. *)
Definition export_rows (text : string) (ls : list Line) : Prop :=
  map parse (split_lines text) = map Some ls.

(** A verified export is a linked path from its anchor to its head, and the report holds the
    chain value of each row. *)
Lemma verify_path text start mode w report :
  verify deserializer raw_line catalog text (Some start) mode w = Ok report ->
  exists ls, export_rows text ls /\ linked (anchor_checkpoint start) ls
    /\ rep_head report = end_of (anchor_checkpoint start) ls
    /\ chains report = map ln_chain ls
    /\ trusted_anchor report = Some (anchor_checkpoint start).
Proof.
  unfold verify. intros H. apply rbind_Ok in H as (st & Hst & H).
  apply verify_lines_path in Hst as (ls & Hm & Hk & Hh & Hc & Ha & Han); [|done].
  unfold verify_finish in H. inv_ok. subst report. exists ls. cbn in *.
  repeat split; try done.
  - unfold export_rows. rewrite <- Hm, <- (numbered_from_snd 1 (split_lines text)) at 1.
    by rewrite map_map.
  - unfold trusted_anchor. cbn. by rewrite Ha, Han.
Qed.

(** ** Checkpoints *)

Lemma worse_Authentic a b : worse a b = Authentic -> a = Authentic /\ b = Authentic.
Proof.
  unfold worse, cmp, ChainVerdict_ord, cmp, pair_ord.
  destruct a, b; cbn; try done; repeat (case_match; try done).
Qed.

(** A checkpoint that confirms the path at its own position. *)
Definition confirms (report : ExportReport) (a cp : Checkpoint) : Prop :=
  cp_seq cp <> cp_seq a
  /\ (compare_checkpoint report cp = CMatch \/ compare_checkpoint report cp = CAhead).

(** What one checkpoint does to the verdict and to the authenticated position. *)
Lemma assess_checkpoint_state report a epochs st cp :
  (assess_checkpoint report a epochs st cp).1 =
  if cp_seq cp =? cp_seq a then st.1
  else
    match compare_checkpoint report cp with
    | CMatch | CAhead =>
        (st.1.1, match st.1.2 with
                 | Some t => Some (Z.max t (cp_seq cp))
                 | None => Some (cp_seq cp)
                 end)
    | CBeforeAnchor => st.1
    | CUnanchored => (worse st.1.1 Unanchored, st.1.2)
    | CEpochMismatch => (worse st.1.1 UnverifiedRecovery, st.1.2)
    | CMismatch | CStoreBehind => (worse st.1.1 (classify_difference cp epochs).1, st.1.2)
    end.
Proof.
  destruct st as [[w t] f]. unfold assess_checkpoint.
  destruct (cp_seq cp =? cp_seq a); [done|].
  destruct (compare_checkpoint report cp); try done; by destruct (classify_difference cp epochs).
Qed.

Lemma classify_not_Authentic cp epochs : (classify_difference cp epochs).1 <> Authentic.
Proof.
  unfold classify_difference. generalize false. induction (List.filter _ _) as [|e l IH]; cbn.
  { by intros []. }
  intros b. destruct (review_record e) as [r|]; [|apply IH].
  destruct (_ <=? _); [done|]. destruct (covers r _); [done|apply IH].
Qed.

Lemma assess_checkpoint_through report a epochs cps : forall st s,
  (fold_left (assess_checkpoint report a epochs) cps st).1.2 = Some s ->
  st.1.2 = Some s \/ exists cp, cp ∈ cps /\ confirms report a cp /\ cp_seq cp = s.
Proof.
  induction cps as [|cp cps IH]; intros st s H; cbn in H; [by left|].
  destruct (IH _ _ H) as [Hst|(cp' & Hin & Hcp)]; [|right; exists cp'; split; [by right|done]].
  rewrite assess_checkpoint_state in Hst. clear IH H.
  destruct (Z.eqb_spec (cp_seq cp) (cp_seq a)) as [E|Hne]; [by left|].
  destruct (compare_checkpoint report cp) eqn:Ec; cbn in Hst; try (by left).
  all: assert (confirms report a cp) as Hc by (split; auto).
  all: destruct (st.1.2) as [t|]; injection Hst as Hst;
    [destruct (Z.max_spec t (cp_seq cp)) as [[_ Hm]|[_ Hm]]; rewrite Hm in Hst; [|left; by subst]|].
  all: right; exists cp; split; [by left|done].
Qed.

Lemma assess_checkpoint_worst report a epochs cps : forall st,
  (fold_left (assess_checkpoint report a epochs) cps st).1.1 = Authentic ->
  st.1.1 = Authentic /\
  forall cp, cp ∈ cps -> cp_seq cp <> cp_seq a ->
    compare_checkpoint report cp ∈ [CMatch; CAhead; CBeforeAnchor].
Proof.
  induction cps as [|cp cps IH]; intros st H; cbn in H; [split; [done|set_solver]|].
  destruct (IH _ H) as [Hst Hall]. clear IH H. rewrite assess_checkpoint_state in Hst.
  enough (st.1.1 = Authentic /\ (cp_seq cp <> cp_seq a ->
            compare_checkpoint report cp ∈ [CMatch; CAhead; CBeforeAnchor])) as [? ?].
  { split; [done|]. intros cp' [->|]%elem_of_cons; auto. }
  destruct (Z.eqb_spec (cp_seq cp) (cp_seq a)) as [E|Hne]; [done|].
  destruct (compare_checkpoint report cp); cbn in Hst;
    try (split; [done|]; intros _; repeat constructor);
    apply worse_Authentic in Hst as [? Hc]; try done; by apply classify_not_Authentic in Hc.
Qed.

Lemma fold_worse_Authentic epochs : forall w,
  fold_left (fun w e => worse w (epoch_verdict e)) epochs w = Authentic ->
  w = Authentic /\ Forall (fun e => epoch_verdict e = Authentic) epochs.
Proof.
  induction epochs as [|e epochs IH]; cbn; intros w H; [done|].
  apply IH in H as [H1 H2]. apply worse_Authentic in H1 as [-> ?]. by split; [|constructor].
Qed.

(** A path without a bad epoch: every change has a record that matches and lost nothing. *)
Lemma epochs_recorded report records t :
  fold_left (fun w e => worse w (epoch_verdict e))
    (map (review_epoch report records) (transitions report)) Authentic = Authentic ->
  t ∈ transitions report ->
  exists r, r ∈ records /\ record_matches r t report = true /\ loses r = false.
Proof.
  intros [_ Hf]%fold_worse_Authentic Ht. rewrite Forall_forall in Hf.
  assert (epoch_verdict (review_epoch report records t) = Authentic) as He
    by (apply Hf, list_elem_of_fmap; eauto).
  unfold epoch_verdict in He. cbn in He. destruct (find _ records) as [r|] eqn:Er; [|done].
  apply find_Some_iff in Er as [Hr Hm]. exists r. split; [done|]. split; [done|].
  destruct (loses r); [|done]. destruct (negb _) in He; done.
Qed.

(** The steps of an assessment that ends as authentic. *)
Lemma authentic_inv report checkpoints records :
  verdict (assess_recovery report checkpoints records) = Authentic ->
  exists a worst, trusted_anchor report = Some a
  /\ (let st := fold_left (assess_checkpoint report a
                             (map (review_epoch report records) (transitions report)))
                  checkpoints (worst, None, []) in
      st.1.1 = Authentic /\ st.1.2 = Some (cp_seq (rep_head report)))
  /\ fold_left (fun w e => worse w (epoch_verdict e))
       (map (review_epoch report records) (transitions report)) Authentic = Authentic
  /\ unverified_expiry_evidence report <= 0.
Proof.
  unfold assess_recovery. destruct (trusted_anchor report) as [a|] eqn:Ea; [|done].
  set (worst0 := if is_empty _ then _ else _).
  intros H. exists a, worst0. split; [done|].
  destruct (fold_left _ checkpoints _) as [[worst through] found] eqn:Ef. cbn in H |- *.
  set (n := match through with None => 0 | Some t => _ end) in H.
  set (conf := match through with None => NoCheckpoint | Some s => _ end) in H.
  assert (worse worst conf = Authentic /\ unverified_expiry_evidence report <= 0) as [Hw Hx].
  { destruct (_ || _)%bool eqn:E in H; [by apply worse_Authentic in H as [_ ?]|].
    rewrite H in E. split; [done|]. apply orb_false_iff in E as [_ E].
    rewrite bool_decide_eq_true_2 in E by done. cbn in E. by simp_bool. }
  apply worse_Authentic in Hw as [-> Hconf]. subst conf.
  split; [|split; [|done]].
  - split; [done|]. destruct through as [s|]; [|done].
    destruct (Z.eqb_spec s (cp_seq (rep_head report))); [by subst s|done].
  - pose proof (f_equal (fun x => x.1.1) Ef) as Ew.
    destruct (assess_checkpoint_worst _ _ _ _ _ Ew) as [Hst _]. cbn in Hst. subst worst0.
    destruct (is_empty _) in Hst; [done|]. by apply worse_Authentic in Hst as [? _].
Qed.

(** The checkpoint that authenticates the head. *)
Lemma authentic_head report checkpoints records a :
  verdict (assess_recovery report checkpoints records) = Authentic ->
  trusted_anchor report = Some a ->
  exists cp, cp ∈ checkpoints /\ cp_seq cp <> cp_seq a /\ cp_seq cp = cp_seq (rep_head report)
    /\ chain_at report (cp_seq cp) = Some (cp_chain cp)
    /\ epoch_at report (cp_seq cp) = Some (cp_epoch cp).
Proof.
  intros (a' & w & Ea & [_ Ht] & _)%authentic_inv Ea'. rewrite Ea' in Ea. injection Ea as <-.
  destruct (assess_checkpoint_through _ _ _ _ _ _ Ht) as [|(cp & Hin & [Hne Hc] & Hseq)]; [done|].
  exists cp. split; [done|]. split; [done|]. split; [done|].
  unfold compare_checkpoint in Hc. rewrite Ea' in Hc.
  destruct (Z.ltb_spec (cp_seq (rep_head report)) (cp_seq cp)); [lia|].
  destruct (Z.ltb_spec (cp_seq cp) (cp_seq a)); [naive_solver|].
  destruct (chain_at report (cp_seq cp)) as [ch|]; [|naive_solver].
  case_bool_decide; [|naive_solver]. subst ch. split; [done|].
  case_bool_decide as He; [done|]. cbn in Hc. naive_solver.
Qed.

(** C21: the verdict "authentic" is given only when the export was verified from a
    trusted anchor, an out-of-band checkpoint past the anchor equals the head in number, chain
    value and epoch, no checkpoint past the anchor contradicts the path, every recovery epoch
    on the path has a matching out-of-band record that lost nothing, and no expired row is
    without verified evidence. *)
Theorem authentic_verdict_sound report checkpoints records :
  verdict (assess_recovery report checkpoints records) = Authentic ->
  exists a, trusted_anchor report = Some a
  /\ (exists cp, cp ∈ checkpoints /\ cp_seq cp <> cp_seq a /\ cp_seq cp = cp_seq (rep_head report)
       /\ chain_at report (cp_seq cp) = Some (cp_chain cp)
       /\ epoch_at report (cp_seq cp) = Some (cp_epoch cp))
  /\ (forall cp, cp ∈ checkpoints -> cp_seq cp <> cp_seq a ->
       compare_checkpoint report cp ∈ [CMatch; CAhead; CBeforeAnchor])
  /\ (forall t, t ∈ transitions report ->
       exists r, r ∈ records /\ record_matches r t report = true /\ loses r = false)
  /\ unverified_expiry_evidence report <= 0.
Proof.
  intros H. destruct (authentic_inv _ _ _ H) as (a & w & Ea & [Hw _] & He & Hx).
  exists a. split; [done|]. split; [by eapply authentic_head|].
  split; [by apply (assess_checkpoint_worst _ _ _ _ _ Hw)|]. split; [|done].
  intros t Ht. by eapply epochs_recorded.
Qed.

(** ** History *)

(** A checkpoint taken from a history: some prefix of it ends there. *)
Definition taken_from (start : Checkpoint) (history : list Line) (cp : Checkpoint) : Prop :=
  exists k, (k <= length history)%nat
    /\ cp_seq (end_of start (take k history)) = cp_seq cp
    /\ cp_chain (end_of start (take k history)) = cp_chain cp.

(** On a verified path the chain value at the head's number is the head's. *)
Lemma chain_at_head report start ls :
  trusted_anchor report = Some start -> linked start ls ->
  rep_head report = end_of start ls -> chains report = map ln_chain ls ->
  cp_seq (rep_head report) <> cp_seq start ->
  forall ch, chain_at report (cp_seq (rep_head report)) = Some ch -> ch = cp_chain (rep_head report).
Proof.
  intros Ha Hl Hh Hc Hne ch H. unfold chain_at in H. rewrite Ha in H.
  destruct (Z.eqb_spec (cp_seq (rep_head report)) (cp_seq start)); [done|].
  apply bind_Some in H as (d & Hd & H). apply bind_Some in H as (i & Hi & H).
  unfold checked_sub_i64 in Hd, Hi. repeat case_match; simplify_eq/=.
  rewrite Hh in *. pose proof (linked_seq _ _ Hl) as Hs.
  destruct ls as [|l ls _] using rev_ind; [done|]. rewrite end_of_snoc in *. cbn.
  rewrite Hc, map_app in H. cbn in H, Hs.
  assert (Z.to_nat (ln_seq l - cp_seq start - 1) = length (map ln_chain ls)) as E.
  { rewrite Hs, length_map. unfold len. rewrite length_app. cbn. lia. }
  rewrite E, list_lookup_middle in H by done. congruence.
Qed.

(** C1: an export that verifies and is assessed as authentic against checkpoints taken
    from the Store's history is that history's prefix, row by row and body by body, unless two
    different byte strings that verification and history hash have the same SHA-256 digest. *)
Theorem authentic_export_is_history text start report checkpoints records history :
  verify_export deserializer raw_line catalog text start = Ok report ->
  verdict (assess_recovery report checkpoints records) = Authentic ->
  linked (anchor_checkpoint start) history ->
  (forall cp, cp ∈ checkpoints -> taken_from (anchor_checkpoint start) history cp) ->
  exists ls, export_rows text ls
    /\ (Forall2 same_row ls (take (length ls) history)
        \/ collision (hashed ls) (hashed history)).
Proof.
  intros Hv Hd Hhist Hcps.
  apply verify_path in Hv as (ls & Hrows & Hl & Hh & Hc & Ha). exists ls. split; [done|].
  destruct (authentic_head _ _ _ _ Hd Ha) as (cp & Hin & Hne & Hseq & Hch & _).
  destruct (Hcps _ Hin) as (k & Hk & Hks & Hkc).
  pose proof (linked_seq _ _ Hl) as Hs. pose proof (linked_seq _ _ (linked_take k _ _ Hhist)) as Hs'.
  assert (length ls = k) as Hlen.
  { rewrite Hks, Hseq, Hh, Hs in Hs'. unfold len in Hs'. rewrite length_take in Hs'. lia. }
  assert (cp_chain (end_of (anchor_checkpoint start) ls)
          = cp_chain (end_of (anchor_checkpoint start) (take k history))) as He.
  { rewrite Hkc, <- Hh. symmetry. rewrite Hseq in Hch, Hne.
    exact (chain_at_head report _ ls Ha Hl Hh Hc Hne _ Hch). }
  rewrite Hlen.
  destruct (linked_determined _ ls (take k history) Hl (linked_take k _ _ Hhist)) as [|Hcol];
    [rewrite length_take; lia|done|by left|].
  right. eapply collision_mono; [done| |exact Hcol].
  intros y Hy. rewrite <- (take_drop k history). apply elem_of_hashed_app. by left.
Qed.
End Authentic.
Local Open Scope Z_scope.

Section Expiry.
Context {F : Floats} {X : AuditExternals} {D : Digest}.
Context (deserializer : string -> Raw * bool) (raw_line : string -> option RawLine)
  (catalog : Catalog).

Abbreviation parse := (parse_line deserializer raw_line).

(** The ledger that a list of numbered rows builds. *)
Definition ledger_of (nls : list (Z * Line)) : ExpiryLedger :=
  fold_left (fun l e => ledger_add l e.2 e.1) nls {| by_evidence := []; ledger_evidence := [] |}.

(** What the loop has checked of a row whose body is gone. *)
Definition expiry_ok (l : Line) : Prop :=
  forall e, ln_expired_by_seq l = Some e -> ln_origin l = Relay /\ ln_body l = None /\ ln_seq l < e.

Lemma verify_line_ledger w st n text st' :
  verify_line deserializer raw_line catalog Bodies w st (n, text) = Ok st' ->
  exists l, parse text = Some l /\ expiry_ok l /\ vf_ledger st' = ledger_add (vf_ledger st) l n
    /\ (anchored (vf_report st) = true -> ln_seq l = cp_seq (vf_head st) + 1)
    /\ cp_seq (vf_head st') = ln_seq l /\ anchored (vf_report st') = anchored (vf_report st)
    /\ anchor (vf_report st') = anchor (vf_report st).
Proof.
  intros H. unfold verify_line in H. cbv zeta in H.
  apply rbind_Ok in H as (l & Hl & H). apply ok_or_Ok in Hl.
  apply rbind_Ok in H as (tr & Hpos & H). inv_ok_hyp H.
  apply rbind_Ok in H as ([] & Hexp & H). apply rbind_Ok in H as (rd & Hbody & H).
  apply rbind_Ok in H as ([changes before] & _ & H). injection H as <-.
  exists l. cbn. split; [done|]. split; [|split; [done|split; [|done]]].
  - intros e He. unfold check_expiry in Hexp. unfold check_body in Hbody.
    rewrite He in Hexp, Hbody. destruct (ln_body l); [discriminate Hbody|].
    inv_ok. by simp_bool.
  - intros Ha. unfold check_position in Hpos. rewrite Ha in Hpos.
    apply rbind_Ok in Hpos as (nx & Hnx & Hpos). unfold checked_add_i64 in Hnx.
    destruct (_ && _)%bool in Hnx; [|discriminate Hnx]. injection Hnx as <-.
    inv_ok_hyp Hpos. by simp_bool.
Qed.

Lemma verify_lines_ledger w lines : forall st st',
  for_each (verify_line deserializer raw_line catalog Bodies w) st lines = Ok st' ->
  exists ls, map (fun e => parse e.2) lines = map Some ls /\ Forall expiry_ok ls
    /\ vf_ledger st' = fold_left (fun l e => ledger_add l e.2 e.1)
                         (combine (map fst lines) ls) (vf_ledger st)
    /\ (anchored (vf_report st) = true ->
        StronglySorted Z.lt (cp_seq (vf_head st) :: map ln_seq ls))
    /\ anchor (vf_report st') = anchor (vf_report st).
Proof.
  induction lines as [|[n text] lines IH]; intros st st' H; cbn in H.
  - injection H as <-. exists []. repeat split; try done. intros _. repeat constructor.
  - apply rbind_Ok in H as (st1 & H1 & H).
    apply verify_line_ledger in H1 as (l & Hl & He & Hg & Hs & Hh & Ha & Han).
    destruct (IH _ _ H) as (ls & Hm & Hall & Hg' & Hs' & Han').
    exists (l :: ls). cbn [map fst snd combine fold_left]. rewrite Hl, Hm, Hg', Hg.
    split; [done|]. split; [by constructor|]. split; [done|]. split; [|congruence].
    intros Hanch. specialize (Hs Hanch). rewrite <- Ha in Hanch. specialize (Hs' Hanch).
    rewrite Hh in Hs'. constructor; [done|]. inversion Hs' as [|? ? _ Hf]; subst.
    constructor; [lia|]. eapply Forall_impl; [exact Hf|]. cbn. lia.
Qed.

(** ** The ledger, read back *)

Definition pending_of (e : Z * Line) : option (Z * PendingExpiry) :=
  option_map
    (fun ev => (ev, {| pe_seq := ln_seq e.2; pe_event_id := ln_event_id e.2; pe_line := e.1 |}))
    (ln_expired_by_seq e.2).

Lemma ledger_by_evidence nls :
  by_evidence (ledger_of nls) = group_by fst snd (filter_map pending_of nls).
Proof.
  unfold ledger_of, group_by.
  assert (forall l m, by_evidence l = m ->
    by_evidence (fold_left (fun l e => ledger_add l e.2 e.1) nls l)
    = fold_left (fun m x => bt_push x.1 x.2 m) (filter_map pending_of nls) m) as Hg;
    [|by apply Hg].
  induction nls as [|[n l] nls IH]; intros g m Hm; cbn; [done|].
  unfold pending_of at 1. cbn. destruct (ln_expired_by_seq l) as [ev|] eqn:E; cbn;
    apply IH; cbn; by rewrite E, Hm.
Qed.

(** Retention and purge bodies of Store rows, by number. *)
Definition evidence_row (e : Z * Line) (entry : Z * (Z * Evidence)) : Prop :=
  ln_origin e.2 = Store /\ (ln_body e.2 ≫= body_evidence) = Some entry.2.2
  /\ entry = (ln_seq e.2, (e.1, entry.2.2)).

Lemma ledger_evidence_rows nls entry :
  entry ∈ ledger_evidence (ledger_of nls) -> exists e, e ∈ nls /\ evidence_row e entry.
Proof.
  unfold ledger_of.
  enough (forall l, entry ∈ ledger_evidence (fold_left (fun l e => ledger_add l e.2 e.1) nls l) ->
    entry ∈ ledger_evidence l \/ exists e, e ∈ nls /\ evidence_row e entry) as Hg.
  { intros H. destruct (Hg _ H) as [Hin|]; [set_solver|done]. }
  induction nls as [|[n l] nls IH]; intros g; cbn; [by left|].
  intros [Hin|(e & ? & ?)]%IH; [|right; exists e; set_solver].
  cbn in Hin. destruct (ln_origin l) eqn:Eo; try (by left).
  destruct (ln_body l ≫= body_evidence) as [[c f la d|t i|]|] eqn:Eb; try (by left).
  all: apply bt_insert_elem in Hin as [->|]; [right|by left].
  all: exists (n, l); split; [by left|done].
Qed.

Lemma ledger_evidence_wf nls : bt_wf (ledger_evidence (ledger_of nls)).
Proof.
  unfold ledger_of.
  assert (forall l, bt_wf (ledger_evidence l) ->
    bt_wf (ledger_evidence (fold_left (fun l e => ledger_add l e.2 e.1) nls l))) as Hg;
    [|apply Hg; constructor].
  induction nls as [|[n l] nls IH]; intros g Hg; cbn; [done|]. apply IH. cbn.
  destruct (ln_origin l); try done. destruct (_ ≫= _) as [[]|]; try done; by apply bt_wf_alter.
Qed.

(** ** Settling *)

(** The rows an evidence was checked against. *)
Definition checked_evidence (l : ExpiryLedger) (evidence_seq : Z) (ev : Evidence)
    (row : PendingExpiry) : Prop :=
  let pending := bt_values evidence_seq (by_evidence l) in
  row ∈ pending
  /\ match ev with
     | Retention (Some count) _ _ (Some digest) =>
         count = len pending /\ digest = expired_set_digest (map pe_seq pending)
     | Purge (Some target) id => target = pe_seq row /\ id = Some (pe_event_id row)
     | _ => False
     end.

Lemma settle_missing_verified l head_seq settled e settled' row :
  settle_missing l head_seq settled e = Ok settled' -> row ∈ settled' ->
  er_verified row = true -> row ∈ settled.
Proof.
  destruct e as [s pending]. unfold settle_missing. intros H Hin Hv.
  destruct (head_seq <? s).
  - injection H as <-. apply elem_of_app in Hin as [|Hin]; [done|].
    apply list_elem_of_fmap in Hin as (p & -> & _). done.
  - destruct (is_none _); [discriminate H|]. by injection H as <-.
Qed.

Lemma settle_evidence_verified l a settled e settled' row :
  settle_evidence l a settled e = Ok settled' -> row ∈ settled' -> er_verified row = true ->
  row ∈ settled \/ exists p, checked_evidence l e.1 e.2.2 p /\ er_seq row = pe_seq p
                        /\ er_evidence_seq row = e.1.
Proof.
  destruct e as [s [line ev]]. cbn. unfold checked_evidence. set (pending := bt_values s _).
  intros H Hin Hv.
  assert (row ∈ settled ++ expired_rows_of s true pending -> row ∈ settled \/
    exists p, p ∈ pending /\ er_seq row = pe_seq p /\ er_evidence_seq row = s) as Hrow.
  { intros [|(p & -> & ?)%list_elem_of_fmap]%elem_of_app; [by left|right; by exists p]. }
  destruct ev as [[c|] [f|] [la|] [d|]|[t|] id| ]; cbn in H; try discriminate H; fold pending in H.
  - destruct (is_some_and f _).
    + destruct (negb _); [discriminate H|]. injection H as <-.
      apply elem_of_app in Hin as [|(p & -> & _)%list_elem_of_fmap]; [by left|done].
    + destruct (negb _) eqn:E in H; [discriminate H|]. injection H as <-. simp_bool.
      apply is_some_and_true in H as (c' & Hc & Hc'). unfold usize_of in Hc.
      destruct (0 <=? c) in Hc; [injection Hc as <-|discriminate Hc]. simp_bool.
      destruct (Hrow Hin) as [|(p & ? & ? & ?)]; [by left|right]. exists p.
      split; [split; [done|split; [|done]]|done]. unfold len in *. by rewrite length_map in Hc'.
  - destruct (negb _) eqn:E in H; [discriminate H|]. injection H as <-. simp_bool.
    destruct (Hrow Hin) as [|(p & Hp & ? & ?)]; [by left|right]. exists p.
    destruct (t <=? a); [destruct pending; [by apply elem_of_nil in Hp|done]|].
    destruct pending as [|p' [|]]; try done. apply list_elem_of_singleton in Hp as ->.
    simp_bool. repeat split; [by left|done..].
  - injection H as <-. by left.
Qed.

Lemma for_each_verified {A} (body : list ExpiredRowEvidence -> A -> Result _ ExportError)
    (P : A -> ExpiredRowEvidence -> Prop) es : forall s s' row,
  (forall s e s', e ∈ es -> body s e = Ok s' -> row ∈ s' -> row ∈ s \/ P e row) ->
  for_each body s es = Ok s' -> row ∈ s' -> row ∈ s \/ exists e, e ∈ es /\ P e row.
Proof.
  induction es as [|e es IH]; intros s s' row Hb H Hin; cbn in H.
  - injection H as <-. by left.
  - apply rbind_Ok in H as (s1 & H1 & H).
    destruct (IH s1 s' row) as [Hin1|(e' & ? & ?)]; try done.
    + intros ? ? ? ?. apply Hb. set_solver.
    + destruct (Hb _ _ _ ltac:(by left) H1 Hin1) as [|]; [by left|right]. exists e. set_solver.
    + right. exists e'. set_solver.
Qed.

(** A verified row of a settled ledger was checked against its evidence. *)
Lemma settle_verified l a h rows row :
  settle l a h = Ok rows -> row ∈ rows -> er_verified row = true ->
  exists e, e ∈ ledger_evidence l /\
    exists p, checked_evidence l e.1 e.2.2 p /\ er_seq row = pe_seq p /\ er_evidence_seq row = e.1.
Proof.
  unfold settle. intros H Hin Hv. apply rbind_Ok in H as (s1 & H1 & H).
  apply rbind_Ok in H as (s2 & H2 & H). injection H as <-.
  rewrite sort_by_key_Permutation in Hin.
  destruct (for_each_verified _ (fun e row => exists p, checked_evidence l e.1 e.2.2 p
      /\ er_seq row = pe_seq p /\ er_evidence_seq row = e.1) _ _ _ row
      ltac:(intros; by eapply settle_evidence_verified) H2 Hin) as [Hin1|Hex]; [|done].
  exfalso.
  destruct (for_each_verified _ (fun _ _ => False) _ _ _ row
      ltac:(intros; left; by eapply settle_missing_verified) H1 Hin1) as [Hnil|(? & _ & [])].
  by apply elem_of_nil in Hnil.
Qed.

(** The rows of a path whose body a given row removed. *)
Definition removed_by (ls : list Line) (evidence_seq : Z) : list Z :=
  map ln_seq (List.filter (fun l => ln_expired_by_seq l == Some evidence_seq) ls).

Lemma ledger_pending ns ls ev :
  length ns = length ls ->
  map pe_seq (bt_values ev (by_evidence (ledger_of (combine ns ls)))) = removed_by ls ev.
Proof.
  intros Hl. rewrite ledger_by_evidence, group_by_values, map_map. unfold removed_by.
  revert ns Hl. induction ls as [|l ls IH]; intros [|n ns] Hl; try done. injection Hl as Hl.
  cbn. unfold pending_of at 1. cbn.
  destruct (ln_expired_by_seq l) as [ev'|] eqn:E; cbn.
  - case_bool_decide; case_bool_decide; simplify_eq; cbn; by rewrite IH.
  - by rewrite IH.
Qed.

(** The body of a row names what it removed: the count and the digest of the whole set, or the
    one row that was purged. *)
Definition attests (ls : list Line) (e : Line) (seq : Z) : Prop :=
  match ln_body e ≫= body_evidence with
  | Some (Retention (Some count) _ _ (Some digest)) =>
      count = len (removed_by ls (ln_seq e))
      /\ digest = expired_set_digest (removed_by ls (ln_seq e))
  | Some (Purge (Some target) _) => target = seq
  | _ => False
  end.

Lemma removed_row ls ev seq :
  Forall expiry_ok ls -> seq ∈ removed_by ls ev ->
  exists r, r ∈ ls /\ ln_seq r = seq /\ ln_expired_by_seq r = Some ev /\ ln_origin r = Relay
    /\ ln_body r = None /\ seq < ev.
Proof.
  intros Hall (r & -> & Hr)%list_elem_of_fmap. apply elem_of_filter_bool in Hr as [Hr He].
  simp_bool. rewrite Forall_forall in Hall. destruct (Hall _ Hr _ He) as (? & ? & ?).
  by exists r.
Qed.

(** When verification of a body export reports an expired row as verified, the export
    itself carries the evidence: the row is a relay event without a body that names a later
    row, and that row is a Store control event whose chained body states the count and the
    digest of exactly the rows naming it, or names this row as the one purged. *)
Theorem verified_expiry_attested text start w report row :
  verify deserializer raw_line catalog text (Some start) Bodies w = Ok report ->
  row ∈ expiries report -> er_verified row = true ->
  exists ls r e, export_rows deserializer raw_line text ls
    /\ r ∈ ls /\ ln_seq r = er_seq row /\ ln_expired_by_seq r = Some (ln_seq e)
    /\ ln_origin r = Relay /\ ln_body r = None
    /\ e ∈ ls /\ ln_seq e = er_evidence_seq row /\ ln_seq r < ln_seq e
    /\ ln_origin e = Store /\ attests ls e (ln_seq r).
Proof.
  unfold verify. intros H Hin Hv. apply rbind_Ok in H as (st & Hst & H).
  apply verify_lines_ledger in Hst as (ls & Hm & Hall & Hg & _ & Ha). cbn in Hg, Ha.
  unfold verify_finish in H. rewrite Ha in H. inv_ok_hyp H.
  apply rbind_Ok in H as (settled & Hs & H). injection H as <-. cbn in Hin.
  rewrite Hg in Hs. fold (ledger_of (combine (map fst (numbered_from 1 (split_lines text))) ls)) in Hs.
  assert (map (fun e => parse e.2) (numbered_from 1 (split_lines text))
          = map parse (split_lines text)) as Hp.
  { rewrite <- (numbered_from_snd 1 (split_lines text)) at 2. by rewrite map_map. }
  assert (length (map fst (numbered_from 1 (split_lines text))) = length ls) as Hlen.
  { apply (f_equal length) in Hm. rewrite !length_map in Hm. by rewrite length_map. }
  destruct (settle_verified _ _ _ _ _ Hs Hin Hv) as ([s [n ev]] & He & p & [Hpin Hchk] & Hr & Hes).
  cbn in *. apply ledger_evidence_rows in He as ([n' e] & Hine & Ho & Hev & [= Hseq _]).
  cbn in *. apply list_elem_of_In, in_combine_r, list_elem_of_In in Hine.
  assert (pe_seq p ∈ removed_by ls s) as Hrem.
  { rewrite <- (ledger_pending _ ls s Hlen). apply list_elem_of_fmap. eauto. }
  destruct (removed_row _ _ _ Hall Hrem) as (r & Hrin & Hrs & Hre & Hro & Hrb & Hlt).
  exists ls, r, e. unfold export_rows, attests. rewrite Hev, <- Hp, Hrs, <- Hseq.
  repeat (split; [congruence || done|]).
  destruct ev as [[c|] ? ? [d|]|[t|] id|]; try done.
  - rewrite (ledger_pending _ ls s Hlen) in Hchk. destruct Hchk as [-> ->]. split; [|done].
    rewrite <- (ledger_pending _ ls s Hlen). unfold len. by rewrite length_map.
  - by destruct Hchk.
Qed.
End Expiry.
