(* ===== verification/AuditCatalogTheorems.v ===== *)
(** * AuditCatalogTheorems: the invariant of a loaded catalog, the template parser, and what an
    accepted envelope guarantees *)
From stdpp Require Import base gmap sets list strings sorting.
From Stdlib Require Import ZArith Lia Ascii.
From S2P Require Import Prelude Text Ordered Json AuditKinds AuditCatalog JsonTheorems.
From S2P Require Import AuditEnvelope AuditLegacy.
Local Open Scope Z_scope.

(** ** The template parser terminates *)

Lemma split_once_byte_shorter c s k t :
  split_once_byte c s = Some (k, t) -> (String.length t < String.length s)%nat.
Proof.
  revert k t. induction s as [|a s IH]; cbn; [done|]. intros k t.
  destruct (_ =? _); [intros [= <- <-]; lia|].
  destruct (split_once_byte c s) as [[k' t']|]; [|done]. intros [= <- <-].
  specialize (IH _ _ eq_refl). lia.
Qed.

Lemma span_byte_length c s :
  (String.length (span_byte c s).2 <= String.length s)%nat.
Proof.
  induction s as [|a s IH]; cbn; [done|]. destruct (_ =? _); [done|].
  destruct (span_byte c s); cbn in *; lia.
Qed.

Lemma span_byte_progress c a s :
  byte_of_ascii a =? c = false ->
  (String.length (span_byte c (String a s)).2 <= String.length s)%nat.
Proof.
  intros E. cbn. rewrite E. pose proof (span_byte_length c s).
  destruct (span_byte c s). done.
Qed.

(** One unit of fuel per byte is enough: every turn consumes at least one. *)
Lemma template_loop_total fuel template raw store rest :
  (String.length rest <= fuel)%nat -> template_loop fuel template raw store rest <> None.
Proof.
  revert rest. induction fuel as [|fuel IH]; intros [|a rest] Hl; cbn in Hl; try done; try lia.
  cbn [template_loop]. destruct (byte_of_ascii a =? 123) eqn:E.
  - destruct (split_once_byte 125 rest) as [[name rest']|] eqn:Es; [|done].
    destruct (parse_placeholder _ _ _ _); [|done].
    apply split_once_byte_shorter in Es. specialize (IH rest' ltac:(lia)).
    by destruct (template_loop _ _ _ _ _).
  - pose proof (span_byte_progress 123 a rest E) as Hp.
    destruct (span_byte 123 (String a rest)) as [lit rest'].
    destruct (negb _); [done|]. cbn in Hp. specialize (IH rest' ltac:(lia)).
    by destruct (template_loop _ _ _ _ _).
Qed.

(** ** Well-formed entries *)

(** What the loader guarantees of an entry: relay entries stay outside the audit system's own
    vocabulary, control entries inside it, and named fields have the kind their role needs. *)
Definition entry_ok (e : EventSpec) : Prop :=
  is_event_type (event_type e) = true
  /\ match es_origin e with
     | Relay =>
         starts_with_str (event_type e) CONTROL_TYPE_PREFIX = false
         /\ is_control_source (es_source e) = false /\ RTAuditStore ∉ es_resources e
         /\ (forall n f, (n, f) ∈ es_fields e -> is_control_only (fs_kind f) = false)
     | Store =>
         starts_with_str (event_type e) CONTROL_TYPE_PREFIX = true
         /\ es_source e = AUDIT_STORE_SOURCE /\ es_reason e = ReasonAbsent
     | RelayControl =>
         starts_with_str (event_type e) CONTROL_TYPE_PREFIX = true
         /\ es_source e = AUDIT_RELAY_SOURCE /\ es_reason e = ReasonAbsent
     end
  /\ es_subjects e <> [].

Lemma check_field_control t name f :
  check_field t Relay (name, f) = Ok tt -> is_control_only (fs_kind f) = false.
Proof.
  unfold check_field, entry_error. cbv zeta.
  destruct (_ || _); [done|]. cbn. destruct (is_control_only (fs_kind f)); done.
Qed.

Lemma try_map_nonempty {A B E} (g : A -> Result B E) l r :
  try_map g l = Ok r -> l <> [] -> r <> [].
Proof. destruct l; cbn; [done|]. intros H _. by inv_ok; subst. Qed.

(** The last rule of [check_roles]: free-text reasons exist on relay events only. *)
Lemma check_roles_reason raw fields :
  check_roles raw fields = Ok tt -> raw_origin raw <> Relay -> raw_reason raw = ReasonAbsent.
Proof.
  unfold check_roles, entry_error. cbv zeta. intros H Hne.
  repeat match type of H with
         | (if ?b then _ else _) = _ => destruct b eqn:?; [discriminate H|]
         end.
  destruct (raw_reason raw), (raw_origin raw); done.
Qed.

(** What an accepted entry keeps of the raw one. *)
Lemma check_event_parts raw sources e :
  check_event raw sources = Ok e ->
  check_shape raw = Ok tt
  /\ (forall n f, (n, f) ∈ raw_fields raw -> check_field (raw_type raw) (raw_origin raw) (n, f) =
    Ok tt)
  /\ (raw_origin raw <> Relay -> raw_reason raw = ReasonAbsent)
  /\ event_type e = raw_type raw /\ es_source e = raw_source raw
  /\ es_origin e = raw_origin raw /\ es_resources e = raw_resources raw
  /\ es_reason e = raw_reason raw /\ es_subjects e <> []
  /\ es_fields e = map (fun p => (p.1, if derives_values (fs_kind p.2)
                                       then with_values p.2 sources else p.2)) (raw_fields raw).
Proof.
  unfold check_event, entry_error. cbv zeta. intros H.
  apply rbind_Ok in H as ([] & Hshape & H). apply rbind_Ok in H as ([] & Hfields & H).
  apply rbind_Ok in H as ([] & Hroles & H). apply rbind_Ok in H as ([] & _ & H).
  pose proof (check_roles_reason _ _ Hroles) as Hreason.
  inv_ok_hyp H. apply rbind_Ok in H as (subjects & Hsub & H). inv_ok_hyp H. inv_ok_hyp H.
  assert (subjects <> []) as Hne.
  { eapply try_map_nonempty; [exact Hsub|]. cbn in Hguard |- *. by destruct (raw_subjects raw). }
  inversion H; subst e; cbn. split_and!; try done.
  intros n f Hin. apply for_each_unit in Hfields.
  by apply (proj1 (Forall_forall _ _) Hfields (n, f)).
Qed.

Lemma check_event_ok raw sources e : check_event raw sources = Ok e -> entry_ok e.
Proof.
  intros H%check_event_parts.
  destruct H as (Hs & Hf & Hr & Ht & Hsrc & Ho & Hres & Hrea & Hsub & Hfs).
  unfold check_shape, check_source, entry_error in Hs. cbv zeta in Hs.
  inv_ok_hyp Hs. apply rbind_Ok in Hs as ([] & Hsource & Hs). inv_ok_hyp Hs. inv_ok_hyp Hs.
  unfold entry_ok. rewrite Ht, Ho, Hsrc, Hres, Hrea. split; [by apply negb_false_iff|].
  split; [|done].
  destruct (raw_origin raw) eqn:Eo; inv_ok_hyp Hsource; simp_bool; split_and!; auto.
  - intros Hin. destruct (contains _ _) eqn:Ec; [by cbn in Hguard1|].
    by apply bool_decide_eq_false in Ec.
  - intros n f Hin. rewrite Hfs, list_elem_of_fmap in Hin.
    destruct Hin as ([n' f'] & [= _ ->] & Hin).
    specialize (Hf _ _ Hin). apply check_field_control in Hf. by destruct (derives_values _).
Qed.

(** ** The loader's invariant *)

(** [e] has an adapter of its own source and origin. *)
Definition has_adapter (adapters : list AdapterSpec) (e : EventSpec) : Prop :=
  exists a, a ∈ adapters /\ as_source a = es_source e /\ as_origin a = es_origin e.

(** The index of the loader maps each accepted type to the position of its entry, and nothing
    else. *)
Record load_wf (adapters : list AdapterSpec) (st : list EventSpec * list (string * Z)) : Prop := {
  lw_sorted : bt_wf st.2;
  lw_entries : Forall (fun e => entry_ok e /\ has_adapter adapters e) st.1;
  lw_index : forall i e, st.1 !! i = Some e -> bt_get (event_type e) st.2 = Some (Z.of_nat i);
  lw_back : forall t i, bt_get t st.2 = Some i ->
      exists e, st.1 !! Z.to_nat i = Some e /\ event_type e = t
}.

Lemma load_event_wf adapters sources st raw st' :
  load_wf adapters st -> load_event adapters sources st raw = Ok st' -> load_wf adapters st'.
Proof.
  destruct st as [events idx]. intros [Hs He Hi Hb] H. cbn in *.
  apply rbind_Ok in H as (e & Hev & H). unfold entry_error in H.
  inv_ok_hyp H. inv_ok_hyp H. inversion H; subst; clear H. simp_bool.
  apply check_event_ok in Hev. split; cbn.
  - by apply bt_wf_alter.
  - apply Forall_app. split; [done|]. apply Forall_singleton. split; [done|].
    apply existsb_exists in Hguard as (a & Ha & Hx). simp_bool. exists a.
    by rewrite list_elem_of_In.
  - intros i x Hx. rewrite bt_get_insert by done.
    apply lookup_app_Some in Hx as [Hx|[Hlen Hx]].
    + rewrite decide_False; [by apply Hi|]. intros Eq. apply Hi in Hx. congruence.
    + apply list_lookup_singleton_Some in Hx as [Hz <-]. rewrite decide_True by done.
      unfold len. f_equal. lia.
  - intros t i Ht. rewrite bt_get_insert in Ht by done. case_decide as Hd.
    + injection Ht as <-. exists e. unfold len. rewrite Nat2Z.id. split; [|done].
      by apply list_lookup_middle.
    + destruct (Hb _ _ Ht) as (x & Hx & <-). exists x. split; [|done].
      by apply lookup_app_l_Some.
Qed.

(** C32: a catalog the loader accepts is well formed.  Every entry satisfies the rules of
    its origin (relay entries stay out of the audit system's own vocabulary, control entries keep
    to it); looking a type up returns the entry of that type, and every entry is found under its
    own type; and the adapter found by an entry's source is the adapter of its origin. *)
Theorem loaded_catalog_wf raw c :
  check_catalog raw = Ok c ->
  Forall entry_ok (cat_events c)
  /\ (forall t e, Catalog_get c t = Some e <-> e ∈ cat_events c /\ event_type e = t)
  /\ (forall e, e ∈ cat_events c -> exists a,
        Catalog_adapter c (es_source e) = Some a /\ as_origin a = es_origin e)
  /\ (forall a, a ∈ cat_adapters c -> exists e, e ∈ cat_events c /\ es_source e = as_source a).
Proof.
  unfold check_catalog. intros H. inv_ok_hyp H.
  apply rbind_Ok in H as ([] & Ha & H). apply rbind_Ok in H as ([events idx] & Hl & H).
  destruct (find _ _) eqn:Hf in H; [done|]. inversion H; subst; clear H.
  eapply (for_each_inv (load_wf (rc_adapters raw))) in Hl;
    [|intros; by eapply load_event_wf|split; cbn; try done; apply bt_wf_nil].
  destruct Hl as [Hs He Hi Hb]. unfold Catalog_get, Catalog_adapter. cbn in *.
  rewrite Forall_forall in He. split_and!.
  - apply Forall_forall. intros e Hin. by apply He.
  - intros t e. split.
    + intros (i & Hget & Hlook)%bind_Some. destruct (Hb _ _ Hget) as (e' & Hl & <-).
      assert (e' = e) as -> by congruence. split; [by eapply list_elem_of_lookup_2|done].
    + intros [(i & Hlook)%list_elem_of_lookup <-]. rewrite (Hi _ _ Hlook). cbn.
      by rewrite Nat2Z.id.
  - intros e Hin. destruct (He _ Hin) as (_ & a & Hain & Hsrc & Ho). exists a.
    split; [|done]. rewrite <-Hsrc. apply find_NoDup; [|done].
    unfold check_adapters in Ha. inv_ok_hyp Ha. inv_ok_hyp Ha.
    simp_bool. unfold unique in *. by simp_bool.
  - intros a Hin. pose proof (proj1 (find_None_iff _ _) Hf _ Hin) as Hx.
    apply negb_false_iff, existsb_exists in Hx as (e & Hein & Hx). exists e.
    rewrite list_elem_of_In. by simp_bool.
Qed.
Local Open Scope Z_scope.

Lemma bt_get_in {K V} `{OrdLaws K} (m : list (K * V)) k v : bt_get k m = Some v -> (k, v) ∈ m.
Proof.
  induction m as [|[k' w] m IH]; cbn; [done|].
  destruct (cmp k k') eqn:E; [|done|right; auto].
  apply cmp_eq in E as ->. intros [= ->]. by left.
Qed.

Section Envelopes.
Context {F : Floats} {X : AuditExternals}.

Abbreviation Members := (list (string * Value)).

Lemma has_member_in (m : Members) k : has_member m k = true -> k ∈ map fst m.
Proof.
  unfold has_member, member. destruct (find _ m) as [[k' v]|] eqn:E; [|done]. intros _.
  apply find_Some_iff in E as [Hin Hk]. simp_bool. cbn in Hk. subst k'.
  apply list_elem_of_fmap. by exists (k, v).
Qed.

Lemma keys_exact_spec (object : Members) required optional :
  keys_exact object required optional = true ->
  (forall k, k ∈ map fst object -> k ∈ required ++ optional)
  /\ (forall k, k ∈ required -> k ∈ map fst object).
Proof.
  unfold keys_exact, check_keys. destruct (existsb _ object) eqn:E; [done|].
  destruct (find _ required) eqn:Ef; [done|]. intros _. split.
  - intros k (e & -> & He)%list_elem_of_fmap. rewrite existsb_false in E. specialize (E e He).
    apply andb_false_iff in E as [E|E]; simp_bool; unfold contains in E; simp_bool; set_solver.
  - intros k Hk. rewrite find_None_iff in Ef. specialize (Ef k Hk). apply has_member_in.
    by simp_bool.
Qed.

(** The details of an accepted envelope: every member is a field the entry keeps in details,
    with a value of the field's kind, and every required one is there. *)
Lemma check_details_spec spec path value details :
  check_details spec path value = Ok details ->
  value = VObject details
  /\ (forall k v, member details k = Some v ->
      exists f, (k, f) ∈ es_fields spec /\ field_accepts f v = true)
  /\ (forall k, k ∈ detail_required spec -> k ∈ map fst details).
Proof.
  unfold check_details. destruct value as [| | | | |ds]; cbn; try done.
  destruct (existsb _ ds) eqn:Ex; [done|]. destruct (find _ _) eqn:Ef; [done|].
  intros H. apply rbind_Ok in H as ([] & Hall & H). injection H as <-. split; [done|]. split.
  - intros k v Hm.
    assert (exists f, bt_get k (es_fields spec) = Some f /\ is_detail_field spec k = true) as (f &
      Hf & Hd).
    { unfold member in Hm. apply fmap_Some in Hm as ([k' v'] & Hfind & ->).
      apply find_Some_iff in Hfind as [Hin Hk]. simp_bool. cbn in Hk. subst k'.
      rewrite existsb_false in Ex. specialize (Ex _ Hin). cbn in Ex. simp_bool.
      pose proof Ex as Ex'. unfold is_detail_field in Ex'. simp_bool.
      eauto. }
    exists f. apply bt_get_in in Hf. split; [done|].
    assert (check_detail path ds (k, f) = Ok tt) as Hc.
    { apply for_each_unit in Hall. rewrite Forall_forall in Hall. apply (Hall (k, f)).
      by apply elem_of_filter_bool. }
    unfold check_detail, reject in Hc. rewrite Hm in Hc. inv_ok. by simp_bool.
  - intros k Hk. rewrite find_None_iff in Ef. specialize (Ef k Hk). apply has_member_in.
    by simp_bool.
Qed.

Lemma bounded_attribute_str (envelope : Members) name x :
  bounded_attribute envelope name = Ok x -> at_ envelope name = VString x.
Proof.
  unfold bounded_attribute. intros Hx%ok_or_Ok.
  apply opt_filter_Some in Hx as [Hx _]. by destruct (at_ envelope name); simplify_eq/=.
Qed.

(** The attributes of an accepted envelope. *)
Lemma check_attributes_spec value t source envelope data :
  check_attributes value = Ok (t, source, envelope, data) ->
  value = VObject envelope /\ len (render value) <= JSONB_TEXT_LIMIT
  /\ (forall k, k ∈ map fst envelope <-> k ∈ ATTRIBUTES)
  /\ at_ envelope "type" = VString t /\ at_ envelope "source" = VString source
  /\ at_ envelope "data" = VObject data.
Proof.
  unfold check_attributes, reject. rewrite jsonb_text_len_spec. cbn [is_some_and].
  intros H. inv_ok_hyp H. simp_bool. apply rbind_Ok in H as (env' & He & H). apply ok_or_Ok in He.
  destruct value as [| | | | |env]; try done. injection He as <-.
  inv_ok_hyp H. simp_bool. apply keys_exact_spec in Hguard0 as [Hk Hk'].
  rewrite app_nil_r in Hk.
  apply rbind_Ok in H as ([] & _ & H). inv_ok_hyp H. inv_ok_hyp H.
  apply rbind_Ok in H as (t' & Ht & H). apply rbind_Ok in H as (s' & Hs & H).
  destruct (at_ env "data") as [| | | | |d] eqn:Ed; try done. cbn in H. simplify_eq.
  repeat split; auto using bounded_attribute_str.
  unfold JSONB_TEXT_LIMIT, usize_max in *. lia.
Qed.

(** The strings of a value, the names of its members among them. *)
Inductive text_of : Value -> string -> Prop :=
| text_itself x : text_of (VString x) x
| text_item items v x : v ∈ items -> text_of v x -> text_of (VArray items) x
| text_name members k v : (k, v) ∈ members -> text_of (VObject members) k
| text_member members k v x : (k, v) ∈ members -> text_of v x -> text_of (VObject members) x.

Lemma is_bounded_text_spec x max :
  is_bounded_text x max = true ->
  str_len x <= max /\ Forall (fun c => is_control c = false) (chars x).
Proof.
  unfold is_bounded_text. intros H. simp_bool. split; [done|]. apply Forall_forall. intros c Hc.
  by eapply existsb_false in H0.
Qed.

Lemma bounded_texts value x :
  strings_are_bounded value = true -> text_of value x ->
  str_len x <= MAX_STRING_BYTES /\ Forall (fun c => is_control c = false) (chars x).
Proof.
  intros H Hx. induction Hx as [x|items v x Hin _ IH|ms k v Hin|ms k v x Hin _ IH]; cbn in H.
  - by apply is_bounded_text_spec.
  - rewrite forallb_forall in H. apply IH, H. by apply list_elem_of_In.
  - rewrite forallb_forall in H. apply list_elem_of_In, H in Hin. cbn in Hin. simp_bool.
    by apply is_bounded_text_spec.
  - rewrite forallb_forall in H. apply list_elem_of_In, H in Hin. cbn in Hin. simp_bool.
    by apply IH.
Qed.

(** C28: an envelope accepted on the relay path is one the catalog registers for the relay.
    Its type, source and resource are not the audit system's own; its attributes are exactly the
    closed set; its payload has every required member and, beyond those, only optional ones; its
    details have every member the entry requires, and each of them is a field of the entry with a
    value of that field's kind; every string in it is bounded and free of control characters, and
    its stored text is at most 32 KiB. *)
Theorem relay_envelope_mediated catalog value spec :
  validate_with catalog value Relay = Ok spec ->
  exists t source envelope data details,
    value = VObject envelope
    /\ at_ envelope "type" = VString t /\ Catalog_get catalog t = Some spec
    /\ at_ envelope "source" = VString source /\ es_source spec = source
    /\ es_origin spec = Relay
    /\ starts_with_str t CONTROL_TYPE_PREFIX = false /\ is_control_source source = false
    /\ is_text (index (at_ data "resource") "type") (ResourceType_as_str RTAuditStore) = false
    /\ (forall k, k ∈ map fst envelope <-> k ∈ ATTRIBUTES)
    /\ at_ envelope "data" = VObject data
    /\ (forall k, k ∈ DATA_REQUIRED -> k ∈ map fst data)
    /\ (forall k, k ∈ map fst data -> k ∈ DATA_REQUIRED ++ DATA_OPTIONAL)
    /\ at_ data "details" = VObject details
    /\ (forall k, k ∈ detail_required spec -> k ∈ map fst details)
    /\ (forall k v, member details k = Some v ->
        exists f, (k, f) ∈ es_fields spec /\ field_accepts f v = true)
    /\ (forall x, text_of value x ->
        str_len x <= MAX_STRING_BYTES /\ Forall (fun c => is_control c = false) (chars x))
    /\ len (render value) <= JSONB_TEXT_LIMIT.
Proof.
  unfold validate_with, reject. intros H.
  apply rbind_Ok in H as ([[[t source] envelope] data] & Ha & H).
  apply check_attributes_spec in Ha as (Hv & Hl & Hk & Ht & Hs & Hd).
  apply rbind_Ok in H as ([] & Hp & H). apply rbind_Ok in H as (sp & Hg & H).
  apply ok_or_Ok in Hg. inv_ok_hyp H. inv_ok_hyp H. simp_bool.
  apply rbind_Ok in H as (ad & _ & H). apply rbind_Ok in H as ([] & Hpay & H).
  apply rbind_Ok in H as (res & _ & H). inv_ok_hyp H.
  apply rbind_Ok in H as (details & Hdet & H). apply rbind_Ok in H as ([] & Hrest & H).
  injection H as ->. apply check_details_spec in Hdet as (Hdv & Hdf & Hdr).
  exists t, source, envelope, data, details.
  unfold check_path, reject in Hp. rewrite bool_decide_eq_true_2 in Hp by done.
  inv_ok_hyp Hp. inv_ok_hyp Hp. inv_ok_hyp Hp.
  assert ((forall k, k ∈ map fst data -> k ∈ DATA_REQUIRED ++ DATA_OPTIONAL)
    /\ (forall k, k ∈ DATA_REQUIRED -> k ∈ map fst data)) as [Hdk Hdk'].
  { apply (keys_exact_spec data DATA_REQUIRED DATA_OPTIONAL). unfold keys_exact.
    unfold check_payload in Hpay. by destruct (check_keys _ _ _). }
  assert (strings_are_bounded value = true) as Hsb.
  { unfold check_rest, reject in Hrest. cbn [rbind] in Hrest. inv_ok. by simp_bool. }
  repeat (split; [done|]). split; [|repeat (split; [done|]); split; [|done];
    intros x; by apply bounded_texts].
  unfold is_text, index, at_. simp_bool. rewrite bool_decide_eq_false.
  intros E. apply Hguard4. destruct (member data "resource") as [r|] eqn:Er; [|done]. cbn in *.
  destruct (get r "type") as [v|]; [done|done].
Qed.
End Envelopes.
