(* ===== verification/AuditPort.v ===== *)
(** * AuditPort: what the relay and the Store tell each other (audit-core, port.rs)

    The rows of the Store are data until they are decoded: an ingest row becomes a receipt, a
    verdict or an outage, a receipt row becomes a receipt or an outage.  The embedded catalog is
    an argument; printing is left out. *)
From stdpp Require Import base gmap sets list strings vector.
From Stdlib Require Import ZArith Lia Ascii.
From S2P Require Import Prelude Text Ordered Manifest Json AuditKinds AuditCatalog AuditEnvelope.
From S2P Require Import AuditChain.

Local Open Scope Z_scope.

Definition MAX_RECEIPT_LOOKUP : Z := 1000.

(** ** Codes *)

Record BoundedCode : Type := { BoundedCode_as_str : string }.
#[global] Instance BoundedCode_eq_dec : EqDecision BoundedCode.
Proof. solve_decision. Defined.

Definition BoundedCode_new (code : string) : option BoundedCode :=
  if is_code code then Some {| BoundedCode_as_str := code |} else None.

Record EventTypeName : Type := { EventTypeName_as_str : string }.
#[global] Instance EventTypeName_eq_dec : EqDecision EventTypeName.
Proof. solve_decision. Defined.

Definition EventTypeName_new (name : string) : option EventTypeName :=
  if is_event_type name then Some {| EventTypeName_as_str := name |} else None.

Inductive OutageCode : Type :=
| OcTransport | OcTimeout | OcConnection | OcResources | OcReadOnly | OcShutdown
| OcSerialization | OcDeadlock | OcLockUnavailable | OcDeployMismatch | OcInternal | OcOther
| OcOutcomeUnknown | OcRecoveryRequired | OcRegressed | OcPostureInvalid | OcUnregisteredType
| OcDenied.
#[global] Instance OutageCode_eq_dec : EqDecision OutageCode.
Proof. solve_decision. Defined.

Definition OutageCode_ALL : list OutageCode :=
  [OcTransport; OcTimeout; OcConnection; OcResources; OcReadOnly; OcShutdown; OcSerialization;
   OcDeadlock; OcLockUnavailable; OcDeployMismatch; OcInternal; OcOther; OcOutcomeUnknown;
   OcRecoveryRequired; OcRegressed; OcPostureInvalid; OcUnregisteredType; OcDenied].

Definition OutageCode_as_str (code : OutageCode) : string :=
  match code with
  | OcTransport => "store_transport" | OcTimeout => "store_timeout"
  | OcConnection => "store_connection" | OcResources => "store_resources"
  | OcReadOnly => "store_read_only" | OcShutdown => "store_shutdown"
  | OcSerialization => "store_serialization" | OcDeadlock => "store_deadlock"
  | OcLockUnavailable => "store_lock_unavailable"
  | OcDeployMismatch => "store_deploy_mismatch" | OcInternal => "store_internal"
  | OcOther => "store_other" | OcOutcomeUnknown => "store_outcome_unknown"
  | OcRecoveryRequired => "store_recovery_required" | OcRegressed => "store_regressed"
  | OcPostureInvalid => "store_posture_invalid"
  | OcUnregisteredType => "store_unregistered_type" | OcDenied => "store_denied"
  end.

Definition OutageCode_parse (value : string) : option OutageCode :=
  find (fun code => OutageCode_as_str code == value) OutageCode_ALL.

Definition OutageCode_parse_lenient (value : string) : option OutageCode :=
  find
    (fun code =>
       (OutageCode_as_str code == value)
       || (strip_prefix "store_" (OutageCode_as_str code) == Some value)) OutageCode_ALL.

Definition counts_toward_outage_streak (code : OutageCode) : bool :=
  match code with OcInternal | OcOther => true | _ => false end.

Definition is_ascii_uppercase (b : Z) : bool := (65 <=? b) && (b <=? 90).

Definition classify_sqlstate (sqlstate : string) : OutageCode :=
  let bs := bytes sqlstate in
  if negb (len bs =? 5) || negb (forallb (fun b => is_ascii_digit b || is_ascii_uppercase b) bs)
  then OcOther
  else if sqlstate == "25006" then OcReadOnly
  else if sqlstate == "57014" then OcTimeout
  else if sqlstate == "40001" then OcSerialization
  else if sqlstate == "40P01" then OcDeadlock
  else if sqlstate == "55P03" then OcLockUnavailable
  else
    (** [&sqlstate[..2]]; the bytes are ASCII here. *)
    let class := take 2 bs in
    if (class == bytes "57") && (nth 2 bs 0 =? 80) then OcShutdown
    else if class == bytes "08" then OcConnection
    else if class == bytes "53" then OcResources
    else if class == bytes "42" then OcDeployMismatch
    else if (class == bytes "58") || (class == bytes "XX") || (class == bytes "54")
    then OcInternal
    else OcOther.

(** [Verdict] has one value, which only this file's functions could name: it is left out. *)
Inductive StoreError : Type :=
| SeOutage (code : OutageCode)
| SeConflict
| SeRejected (code : BoundedCode).
#[global] Instance StoreError_eq_dec : EqDecision StoreError.
Proof. solve_decision. Defined.

Definition StoreError_is_terminal (e : StoreError) : bool :=
  match e with SeConflict | SeRejected _ => true | SeOutage _ => false end.

Definition StoreError_is_outage (e : StoreError) : bool := negb (StoreError_is_terminal e).

Definition StoreError_outage_code (e : StoreError) : option OutageCode :=
  match e with SeOutage code => Some code | SeConflict | SeRejected _ => None end.

Definition StoreError_counts (e : StoreError) : bool :=
  match e with
  | SeOutage code => counts_toward_outage_streak code
  | SeConflict | SeRejected _ => false
  end.

(** ** Ingest *)

Inductive IngestOutcome : Type :=
| IoStored | IoDuplicate | IoDuplicateExpired | IoDuplicateReprojected.
#[global] Instance IngestOutcome_eq_dec : EqDecision IngestOutcome.
Proof. solve_decision. Defined.

Definition IngestOutcome_ALL : list IngestOutcome :=
  [IoStored; IoDuplicate; IoDuplicateExpired; IoDuplicateReprojected].

Definition IngestOutcome_as_str (o : IngestOutcome) : string :=
  match o with
  | IoStored => "stored" | IoDuplicate => "duplicate"
  | IoDuplicateExpired => "duplicate_expired"
  | IoDuplicateReprojected => "duplicate_reprojected"
  end.

Definition IngestOutcome_parse (value : string) : option IngestOutcome :=
  find (fun outcome => IngestOutcome_as_str outcome == value) IngestOutcome_ALL.

Record IngestReceipt : Type := {
  ir_seq : Z;
  ir_envelope_digest : vec ascii 32;
  ir_outcome : IngestOutcome;
  ir_adapter_version : Z
}.

Record IngestRow : Type := {
  iw_status : string;
  iw_seq : option Z;
  iw_envelope_digest : option (list ascii);
  iw_adapter_version : option Z;
  iw_code : option string
}.

(** [<[u8; 32]>::try_from(bytes).ok()]. *)
Definition digest32 (value : list ascii) : option (vec ascii 32) :=
  match decide (length value = 32%nat) with
  | left E => Some (eq_rect _ (vec ascii) (list_to_vec value) _ E)
  | right _ => None
  end.

(** The three receipt columns that are present. *)
Definition receipt_columns (row : IngestRow) : list bool :=
  [is_some (iw_seq row); is_some (iw_envelope_digest row); is_some (iw_adapter_version row)].

(** The receipt of a row, when its columns are present and in range. *)
Definition row_receipt (row : IngestRow) (outcome : IngestOutcome) : option IngestReceipt :=
  match iw_seq row, iw_envelope_digest row, iw_adapter_version row with
  | Some seq, Some digest, Some adapter_version =>
      if (1 <=? seq) && (1 <=? adapter_version) then
        option_map
          (fun envelope_digest => {| ir_seq := seq; ir_envelope_digest := envelope_digest;
                                     ir_outcome := outcome;
                                     ir_adapter_version := adapter_version |})
          (digest32 digest)
      else None
  | _, _, _ => None
  end.

Definition into_result (row : IngestRow) : Result IngestReceipt StoreError :=
  match IngestOutcome_parse (iw_status row) with
  | Some outcome =>
      if is_some (iw_code row) then Err (SeOutage OcOther)
      else ok_or (row_receipt row outcome) (SeOutage OcOther)
  | None =>
      let none := negb (existsb id (receipt_columns row)) in
      let all_or_none := forallb id (receipt_columns row) || none in
      let status := iw_status row in
      if (status == "conflict") && all_or_none then Err SeConflict
      else if ((status == "rejected") || (status == "recovery_required")
               || (status == "outage") || (status == "denied") || (status == "conflict"))
              && negb none
      then Err (SeOutage OcOther)
      else if status == "rejected" then
        match iw_code row ≫= BoundedCode_new with
        | Some code => Err (SeRejected code)
        | None => Err (SeOutage OcOther)
        end
      else if status == "recovery_required" then Err (SeOutage OcRecoveryRequired)
      else if status == "outage" then
        Err (SeOutage (unwrap_or OcOther (iw_code row ≫= OutageCode_parse_lenient)))
      else if status == "denied" then Err (SeOutage OcDenied)
      else Err (SeOutage OcOther)
  end.

Section Port.
Context {F : Floats} {X : AuditExternals}.

(** [precheck_ingest]: what may be sent at all. *)
Definition precheck_ingest (envelope : AuditEnvelope) : Result unit StoreError :=
  if env_origin envelope == Relay then Ok tt
  else
    Err (SeRejected {| BoundedCode_as_str := RejectionCode_as_str ControlTypeForbidden |}).

(** ** Receipts *)

Record ReceiptIdentity : Type := {
  rn_seq : Z;
  rn_event_id : Uuid;
  rn_envelope_digest : vec ascii 32
}.
#[global] Instance ReceiptIdentity_eq_dec : EqDecision ReceiptIdentity.
Proof. solve_decision. Defined.

Record ReceiptRow : Type := {
  rr_seq : Z;
  rr_event_id : Uuid;
  rr_origin : Origin;
  rr_event_type : EventTypeName;
  rr_envelope_digest : vec ascii 32;
  rr_source_commitment : option (vec ascii 32);
  rr_expired : bool;
  rr_recovery_epoch : Z
}.

Record RawReceiptRow : Type := {
  qr_seq : Z;
  qr_event_id : Uuid;
  qr_origin : string;
  qr_event_type : string;
  qr_envelope_digest : list ascii;
  qr_source_commitment : option (list ascii);
  qr_expired : bool;
  qr_recovery_epoch : Z
}.

Definition receipt_identity (row : ReceiptRow) : ReceiptIdentity :=
  {| rn_seq := rr_seq row; rn_event_id := rr_event_id row;
     rn_envelope_digest := rr_envelope_digest row |}.

Definition is_confirmed_by (self : ReceiptIdentity) (rows : list ReceiptRow) : bool :=
  existsb (fun row => receipt_identity row == self) rows.

Context (catalog : Catalog).

Definition origin_matches_type (origin : Origin) (event_type : EventTypeName) : bool :=
  let control := starts_with_str (EventTypeName_as_str event_type) CONTROL_TYPE_PREFIX in
  Bool.eqb control (origin != Relay)
  && match Catalog_get catalog (EventTypeName_as_str event_type) with
     | None => true
     | Some spec => es_origin spec == origin
     end.

Definition malformed : StoreError := SeOutage OcOther.

Definition receipt_decode (raw : RawReceiptRow) : Result ReceiptRow StoreError :=
  if (qr_seq raw <? 1) || (qr_recovery_epoch raw <? 1) then Err malformed
  else
    let? source_commitment :=
      match qr_source_commitment raw with
      | None => Ok None
      | Some bs => let? d := ok_or (digest32 bs) malformed in Ok (Some d)
      end in
    let? origin := ok_or (Origin_parse (qr_origin raw)) malformed in
    let? event_type := ok_or (EventTypeName_new (qr_event_type raw)) malformed in
    if negb (origin_matches_type origin event_type)
       || ((origin != Relay) && (is_some source_commitment || qr_expired raw))
    then Err malformed
    else
      let? digest := ok_or (digest32 (qr_envelope_digest raw)) malformed in
      Ok {| rr_seq := qr_seq raw; rr_event_id := qr_event_id raw; rr_origin := origin;
            rr_event_type := event_type; rr_envelope_digest := digest;
            rr_source_commitment := source_commitment; rr_expired := qr_expired raw;
            rr_recovery_epoch := qr_recovery_epoch raw |}.

Inductive ReconcileMode : Type := RmReadOnly | RmRepair.
#[global] Instance ReconcileMode_eq_dec : EqDecision ReconcileMode.
Proof. solve_decision. Defined.

Definition ReconcileMode_as_str (m : ReconcileMode) : string :=
  match m with RmReadOnly => "read_only" | RmRepair => "repair" end.

Definition REPLAY_REQUESTED : string := "audit.delivery.replay_requested".
Definition RECONCILIATION_COMPLETED : string := "audit.reconciliation.completed".
Definition SOURCE_MISMATCH_DETECTED : string := "audit.integrity.source_mismatch_detected".

Record ControlReceiptRow : Type := {
  cr_seq : Z;
  cr_recovery_epoch : Z;
  cr_origin : Origin;
  cr_event_type : EventTypeName;
  cr_target_event_id : option Uuid;
  cr_code : option BoundedCode
}.

Record RawControlReceiptRow : Type := {
  qc_seq : Z;
  qc_recovery_epoch : Z;
  qc_origin : string;
  qc_event_type : string;
  qc_target_event_id : option Uuid;
  qc_code : option string
}.

(** What a control type says of its target and its code. *)
Definition control_consistent (event_type : EventTypeName) (target : option Uuid)
    (code : option BoundedCode) : bool :=
  let t := EventTypeName_as_str event_type in
  if (t == REPLAY_REQUESTED) || (t == SOURCE_MISMATCH_DETECTED) then is_some target && is_some code
  else if t == RECONCILIATION_COMPLETED then
    is_none target
    && is_some_and code
         (fun code => existsb (fun mode => ReconcileMode_as_str mode == BoundedCode_as_str code)
                        [RmReadOnly; RmRepair])
  else is_none code.

Definition control_decode (raw : RawControlReceiptRow) : Result ControlReceiptRow StoreError :=
  if (qc_seq raw <? 1) || (qc_recovery_epoch raw <? 1) then Err malformed
  else
    let? origin :=
      ok_or (opt_filter (fun origin => origin != Relay) (Origin_parse (qc_origin raw))) malformed in
    let? event_type :=
      ok_or
        (opt_filter (origin_matches_type origin)
           (opt_filter
              (fun name => starts_with_str (EventTypeName_as_str name) CONTROL_TYPE_PREFIX)
              (EventTypeName_new (qc_event_type raw))))
        malformed in
    let? code :=
      match qc_code raw with
      | None => Ok None
      | Some code => let? c := ok_or (BoundedCode_new code) malformed in Ok (Some c)
      end in
    if negb (control_consistent event_type (qc_target_event_id raw) code) then Err malformed
    else
      Ok {| cr_seq := qc_seq raw; cr_recovery_epoch := qc_recovery_epoch raw;
            cr_origin := origin; cr_event_type := event_type;
            cr_target_event_id := qc_target_event_id raw; cr_code := code |}.

Record ControlReceipt : Type := { ct_seq : Z; ct_recovery_epoch : Z }.

(** ** The probe *)

Record ProbeExpectation : Type := {
  px_source : string;
  px_adapter_version : Z;
  px_types : list string;
  px_last_ack : option ReceiptIdentity
}.

Definition from_catalog (source : string) (last_ack : option ReceiptIdentity)
    : option ProbeExpectation :=
  let registered :=
    List.filter (fun '(s, _, _) => s == source) (registered_types catalog) in
  match registered with
  | [] => None
  | (_, _, adapter_version) :: _ =>
      Some {| px_source := source; px_adapter_version := adapter_version;
              px_types := map (fun '(_, t, _) => t) registered; px_last_ack := last_ack |}
  end.

Inductive StoreState : Type := StOperational | StRecoveryMode | StPostureInvalid | StReadOnly.
#[global] Instance StoreState_eq_dec : EqDecision StoreState.
Proof. solve_decision. Defined.

Definition StoreState_ALL : list StoreState :=
  [StOperational; StRecoveryMode; StPostureInvalid; StReadOnly].

Definition StoreState_as_str (s : StoreState) : string :=
  match s with
  | StOperational => "operational" | StRecoveryMode => "recovery_mode"
  | StPostureInvalid => "posture_invalid" | StReadOnly => "read_only"
  end.

Definition StoreState_outage_code (s : StoreState) : option OutageCode :=
  match s with
  | StOperational => None
  | StRecoveryMode => Some OcRecoveryRequired
  | StPostureInvalid => Some OcPostureInvalid
  | StReadOnly => Some OcReadOnly
  end.

Record StoreStatus : Type := {
  ss_head_seq : Z;
  ss_recovery_epoch : Z;
  ss_state : StoreState;
  ss_missing_types : list EventTypeName;
  ss_regression_detected : bool;
  ss_last_verified_seq : option Z
}.

Definition StoreStatus_admission (self : StoreStatus) : Result unit OutageCode :=
  match StoreState_outage_code (ss_state self) with
  | Some code => Err code
  | None =>
      if ss_regression_detected self then Err OcRegressed
      else if negb (is_empty (ss_missing_types self)) then Err OcUnregisteredType
      else Ok tt
  end.

(** ** Control events of the relay *)

Inductive SourceMismatchCode : Type := SmSourceDigestMismatch | SmActorMismatch.
#[global] Instance SourceMismatchCode_eq_dec : EqDecision SourceMismatchCode.
Proof. solve_decision. Defined.

Definition SourceMismatchCode_rejection_code (c : SourceMismatchCode) : RejectionCode :=
  match c with
  | SmSourceDigestMismatch => SourceDigestMismatch
  | SmActorMismatch => ActorMismatch
  end.

Definition SourceMismatchCode_as_str (c : SourceMismatchCode) : string :=
  RejectionCode_as_str (SourceMismatchCode_rejection_code c).

Record ReconcileCounts : Type := {
  rc_ok : Z;
  rc_delivered_missing : Z;
  rc_digest_mismatch : Z;
  rc_quarantined_stored : Z;
  rc_quarantined_conflict : Z;
  rc_pending : Z;
  rc_quarantined : Z;
  rc_unregistered : Z;
  rc_source_tampered : Z;
  rc_store_only : Z;
  rc_unaudited_replay : Z;
  rc_replay_record_lost : Z;
  rc_relay_catalog_skew : Z;
  rc_repaired_delivered_missing : Z;
  rc_repaired_quarantined_stored : Z;
  rc_repaired_unregistered : Z
}.

(** A JSON object built by insertion: names are sorted, a later value replaces an earlier one. *)
Definition json_object (members : list (string * Value)) : list (string * Value) :=
  fold_left (fun m '(k, v) => bt_insert k v m) members [].

Definition counts_members (c : ReconcileCounts) : list (string * Value) :=
  map (fun '(name, count) => (name, VNumber (NInt count)))
    [("count_ok"%string, rc_ok c);
     ("count_delivered_missing"%string, rc_delivered_missing c);
     ("count_digest_mismatch"%string, rc_digest_mismatch c);
     ("count_quarantined_stored"%string, rc_quarantined_stored c);
     ("count_quarantined_conflict"%string, rc_quarantined_conflict c);
     ("count_pending"%string, rc_pending c);
     ("count_quarantined"%string, rc_quarantined c);
     ("count_unregistered"%string, rc_unregistered c);
     ("count_source_tampered"%string, rc_source_tampered c);
     ("count_store_only"%string, rc_store_only c);
     ("count_unaudited_replay"%string, rc_unaudited_replay c);
     ("count_replay_record_lost"%string, rc_replay_record_lost c);
     ("count_relay_catalog_skew"%string, rc_relay_catalog_skew c);
     ("repaired_delivered_missing"%string, rc_repaired_delivered_missing c);
     ("repaired_quarantined_stored"%string, rc_repaired_quarantined_stored c);
     ("repaired_unregistered"%string, rc_repaired_unregistered c)].

Definition counts_details (c : ReconcileCounts) : list (string * Value) :=
  json_object (counts_members c).

Inductive RelayControlKind : Type :=
| ReplayRequested (event_id : Uuid) (previous_code : BoundedCode)
| ReconciliationCompleted (run_id : Uuid) (mode : ReconcileMode) (watermark : Z)
    (id_set_digest : vec ascii 32) (counts : ReconcileCounts)
| SourceMismatchDetected (event_id : Uuid) (code : SourceMismatchCode).

Definition control_event_type (kind : RelayControlKind) : string :=
  match kind with
  | ReplayRequested _ _ => REPLAY_REQUESTED
  | ReconciliationCompleted _ _ _ _ _ => RECONCILIATION_COMPLETED
  | SourceMismatchDetected _ _ => SOURCE_MISMATCH_DETECTED
  end.

Definition control_details (kind : RelayControlKind) : list (string * Value) :=
  match kind with
  | ReplayRequested event_id previous_code =>
      json_object [("event_id"%string, VString (uuid_to_string event_id));
                   ("quarantine_code"%string, VString (BoundedCode_as_str previous_code))]
  | ReconciliationCompleted run_id mode watermark id_set_digest counts =>
      fold_left (fun m '(k, v) => bt_insert k v m)
        [("run_id"%string, VString (uuid_to_string run_id));
         ("mode"%string, VString (ReconcileMode_as_str mode));
         ("watermark"%string, VNumber (NInt watermark));
         ("id_set_digest"%string, VString (to_hex (vec_to_list id_set_digest)))]
        (counts_details counts)
  | SourceMismatchDetected event_id code =>
      json_object [("event_id"%string, VString (uuid_to_string event_id));
                   ("mismatch_code"%string, VString (SourceMismatchCode_as_str code))]
  end.
End Port.

(** ** Codes and digests *)

Lemma digest32_Some bs (d : vec ascii 32) : digest32 bs = Some d <-> bs = vec_to_list d.
Proof.
  unfold digest32. destruct (decide _) as [E|E].
  - assert (vec_to_list (eq_rect _ (vec ascii) (list_to_vec bs) _ E) = bs) as Hv.
    { destruct E. cbn. apply vec_to_list_to_vec. }
    split; [intros [= <-]; by rewrite Hv|]. intros ->. f_equal. by apply vec_to_list_inj2.
  - split; [done|]. intros ->. by rewrite length_vec_to_list in E.
Qed.

Lemma Origin_parse_iff s o : Origin_parse s = Some o <-> s = Origin_as_str o.
Proof.
  unfold Origin_parse. split.
  - intros H%find_some. destruct H as [_ H]. by apply bool_decide_eq_true in H.
  - intros ->. by destruct o.
Qed.

Lemma IngestOutcome_parse_iff s o : IngestOutcome_parse s = Some o <-> s = IngestOutcome_as_str o.
Proof.
  unfold IngestOutcome_parse. split.
  - intros H%find_some. destruct H as [_ H]. by apply bool_decide_eq_true in H.
  - intros ->. by destruct o.
Qed.

Lemma BoundedCode_new_iff s c :
  BoundedCode_new s = Some c <-> BoundedCode_as_str c = s /\ is_code s = true.
Proof.
  unfold BoundedCode_new. destruct (is_code s); [|naive_solver]. destruct c as [c]. cbn.
  split; [by intros [= ->]|]. by intros [-> _].
Qed.

Lemma EventTypeName_new_iff s t :
  EventTypeName_new s = Some t <-> EventTypeName_as_str t = s /\ is_event_type s = true.
Proof.
  unfold EventTypeName_new. destruct (is_event_type s); [|naive_solver]. destruct t as [t]. cbn.
  split; [by intros [= ->]|]. by intros [-> _].
Qed.

Lemma OutageCode_round_trip code :
  OutageCode_parse (OutageCode_as_str code) = Some code /\
  OutageCode_parse_lenient (OutageCode_as_str code) = Some code /\
  option_map OutageCode_parse_lenient (strip_prefix "store_" (OutageCode_as_str code))
  = Some (Some code).
Proof. by destruct code. Qed.

(** ** Ingest rows *)

(** The receipt a row states, columns and all. *)
Definition states_receipt (row : IngestRow) (r : IngestReceipt) : Prop :=
  iw_status row = IngestOutcome_as_str (ir_outcome r) /\ iw_code row = None /\
  iw_seq row = Some (ir_seq r) /\ 1 <= ir_seq r /\
  iw_envelope_digest row = Some (vec_to_list (ir_envelope_digest r)) /\
  iw_adapter_version row = Some (ir_adapter_version r) /\ 1 <= ir_adapter_version r.

Lemma row_receipt_Some row outcome r :
  row_receipt row outcome = Some r <->
  ir_outcome r = outcome /\ iw_seq row = Some (ir_seq r) /\ 1 <= ir_seq r /\
  iw_envelope_digest row = Some (vec_to_list (ir_envelope_digest r)) /\
  iw_adapter_version row = Some (ir_adapter_version r) /\ 1 <= ir_adapter_version r.
Proof.
  unfold row_receipt. destruct (iw_seq row) as [seq|]; [|naive_solver].
  destruct (iw_envelope_digest row) as [bs|]; [|naive_solver].
  destruct (iw_adapter_version row) as [v|]; [|naive_solver].
  destruct ((1 <=? seq) && (1 <=? v)) eqn:E; cycle 1.
  { split; [done|]. intros (_ & [= ->] & ? & _ & [= ->] & ?).
    apply andb_false_iff in E as [E|E]; apply Z.leb_gt in E; lia. }
  apply andb_true_iff in E as [E1%Z.leb_le E2%Z.leb_le].
  destruct (digest32 bs) as [d|] eqn:Ed; cbn.
  - apply digest32_Some in Ed as ->. destruct r as [s d' o v']. cbn. split.
    + intros [= -> -> -> ->]. done.
    + intros (-> & [= ->] & _ & [= Hd] & [= ->] & _). apply vec_to_list_inj2 in Hd as ->. done.
  - split; [done|]. intros (_ & _ & _ & [= ->] & _).
    rewrite (proj2 (digest32_Some _ _) eq_refl) in Ed. done.
Qed.

Definition no_receipt_column (row : IngestRow) : Prop :=
  iw_seq row = None /\ iw_envelope_digest row = None /\ iw_adapter_version row = None.
Definition every_receipt_column (row : IngestRow) : Prop :=
  is_Some (iw_seq row) /\ is_Some (iw_envelope_digest row) /\ is_Some (iw_adapter_version row).

Lemma receipt_columns_none row :
  negb (existsb id (receipt_columns row)) = true <-> no_receipt_column row.
Proof.
  unfold receipt_columns, no_receipt_column.
  destruct (iw_seq row), (iw_envelope_digest row), (iw_adapter_version row); naive_solver.
Qed.

Lemma receipt_columns_all row :
  forallb id (receipt_columns row) = true <-> every_receipt_column row.
Proof.
  unfold receipt_columns, every_receipt_column, is_Some.
  destruct (iw_seq row), (iw_envelope_digest row), (iw_adapter_version row); naive_solver.
Qed.

Lemma unknown_status row :
  IngestOutcome_parse (iw_status row) = None ->
  (forall r, ~ states_receipt row r) /\ forall o, iw_status row <> IngestOutcome_as_str o.
Proof.
  intros Hn.
  assert (forall o, iw_status row <> IngestOutcome_as_str o) as Ho.
  { intros o He. apply IngestOutcome_parse_iff in He. congruence. }
  split; [|done]. intros r (He & _). by apply (Ho (ir_outcome r)).
Qed.

(** The decoder of ingest rows is exact: a receipt comes back exactly for a row that states it in
    all its columns, a conflict exactly for a conflict row whose receipt columns are all there
    or all absent, a rejection exactly for a rejected row with a bounded code and no receipt
    column; every other row, whatever it holds, is an outage, which is never a verdict. *)
Theorem into_result_exact row :
  (forall r, into_result row = Ok r <-> states_receipt row r) /\
  (into_result row = Err SeConflict <->
   iw_status row = "conflict"%string /\ (no_receipt_column row \/ every_receipt_column row)) /\
  (forall c, into_result row = Err (SeRejected c) <->
   iw_status row = "rejected"%string /\ no_receipt_column row /\
   iw_code row = Some (BoundedCode_as_str c) /\ is_code (BoundedCode_as_str c) = true).
Proof.
  unfold into_result. destruct (IngestOutcome_parse (iw_status row)) as [outcome|] eqn:Ep.
  - apply IngestOutcome_parse_iff in Ep. split_and!.
    + intros r. unfold states_receipt. destruct (iw_code row); cbn; [naive_solver|].
      rewrite ok_or_Ok, row_receipt_Some. split.
      * by intros (-> & ? & ? & ? & ? & ?).
      * intros (Hs & _ & ?). split; [|done]. rewrite Ep in Hs. by destruct outcome, (ir_outcome r).
    + rewrite Ep. split; [|by destruct outcome; intros [? _]].
      destruct (is_some _); [done|]. by destruct (row_receipt _ _).
    + intros c. rewrite Ep. split; [|by destruct outcome; intros [? _]].
      destruct (is_some _); [done|]. by destruct (row_receipt _ _).
  - apply unknown_status in Ep as [Hno _].
    pose proof (receipt_columns_none row) as Hnone. pose proof (receipt_columns_all row) as Hall.
    set (none := negb _) in *. set (all := forallb _ _) in *.
    split_and!.
    + intros r. split; [|by intros H; apply Hno in H]. by repeat (case_match; try done).
    + split.
      * case_match eqn:E1.
        -- simp_bool. intros _. split; [done|]. destruct all eqn:Ea; [right; by apply Hall|].
           left. by apply Hnone.
        -- by repeat (case_match; try done).
      * intros [-> Hc]. rewrite bool_decide_eq_true_2 by done.
        assert (all || none = true) as ->; [|done]. apply orb_true_iff. naive_solver.
    + intros c. split.
      * destruct (bool_decide (iw_status row = "conflict"%string) && _); [done|].
        case_match eqn:E2; [done|]. case_bool_decide as Hr; [|by repeat (case_match; try done)].
        cbn in E2. apply negb_false_iff in E2.
        destruct (iw_code row ≫= BoundedCode_new) as [c'|] eqn:Ec; [|done]. intros [= ->].
        apply bind_Some in Ec as (code & Hcode & [Hc Hb]%BoundedCode_new_iff).
        split_and!; [done|by apply Hnone|by rewrite Hcode, Hc|by rewrite Hc].
      * intros (-> & Hn%Hnone & Hcode & Hb). rewrite Hn, Hcode. cbn.
        unfold BoundedCode_new. rewrite Hb. by destruct c.
Qed.

(** ** Receipt rows *)

#[local] Arguments Origin_parse : simpl never.

Section Receipts.
Context {F : Floats} {X : AuditExternals} (catalog : Catalog).

(** What the Store's own rules say of a receipt row. *)
Record receipt_ok (row : ReceiptRow) : Prop := {
  ro_seq : 1 <= rr_seq row;
  ro_epoch : 1 <= rr_recovery_epoch row;
  ro_type : is_event_type (EventTypeName_as_str (rr_event_type row)) = true;
  ro_origin : origin_matches_type catalog (rr_origin row) (rr_event_type row) = true;
  ro_control : rr_origin row <> Relay -> rr_source_commitment row = None /\ rr_expired row = false
}.

Definition raw_receipt (row : ReceiptRow) : RawReceiptRow := {|
  qr_seq := rr_seq row; qr_event_id := rr_event_id row;
  qr_origin := Origin_as_str (rr_origin row);
  qr_event_type := EventTypeName_as_str (rr_event_type row);
  qr_envelope_digest := vec_to_list (rr_envelope_digest row);
  qr_source_commitment := option_map vec_to_list (rr_source_commitment row);
  qr_expired := rr_expired row; qr_recovery_epoch := rr_recovery_epoch row |}.

(** The decoder of receipt rows accepts exactly the rows that are written for a receipt the
    Store may hold, and gives that receipt back: nothing malformed or inconsistent gets through,
    and nothing is lost. *)
Theorem receipt_decode_exact raw row :
  receipt_decode catalog raw = Ok row <-> raw = raw_receipt row /\ receipt_ok row.
Proof.
  unfold receipt_decode. destruct (_ || _) eqn:E0.
  { split; [done|]. intros (-> & [? ? _ _ _]). cbn in E0.
    apply orb_true_iff in E0 as [E%Z.ltb_lt|E%Z.ltb_lt]; lia. }
  apply orb_false_iff in E0 as [E1%Z.ltb_ge E2%Z.ltb_ge]. split.
  - intros (commitment & Hc & (origin & Ho%ok_or_Ok%Origin_parse_iff &
      (t & Ht%ok_or_Ok%EventTypeName_new_iff & H)%rbind_Ok)%rbind_Ok)%rbind_Ok.
    destruct (_ || _) eqn:E3; [done|].
    apply orb_false_iff in E3 as [Hm%negb_false_iff Hx].
    apply rbind_Ok in H as (d & Hd%ok_or_Ok%digest32_Some & [= <-]).
    destruct Ht as [Htn Htt]. split.
    + unfold raw_receipt. cbn. rewrite <- Ho, Htn, <- Hd.
      assert (qr_source_commitment raw = option_map vec_to_list commitment) as <-;
        [|by destruct raw].
      destruct (qr_source_commitment raw) as [bs|]; [|by injection Hc as <-].
      apply rbind_Ok in Hc as (c & Hc%ok_or_Ok%digest32_Some & [= <-]). cbn. by rewrite Hc.
    + split; cbn; [lia|lia|by rewrite Htn|done|]. intros Hne.
      rewrite bool_decide_eq_false_2 in Hx by done. cbn in Hx.
      apply orb_false_iff in Hx as [? ?]. by destruct commitment.
  - intros (-> & [_ _ Ht Hm Hx]). unfold raw_receipt in *. cbn in *.
    assert (forall d : vec ascii 32, digest32 (vec_to_list d) = Some d) as Hd
      by (intros d; by apply digest32_Some).
    rewrite (proj2 (Origin_parse_iff _ _) eq_refl), (proj2 (EventTypeName_new_iff _ _) (conj
      eq_refl Ht)).
    rewrite !Hd. destruct row as [seq id origin t d c expired epoch]. cbn in *.
    destruct c as [c|]; cbn; rewrite ?Hd; cbn; rewrite Hm; cbn;
      (case_bool_decide as Hr; [done|]); destruct (Hx Hr) as [? ->]; done.
Qed.

Record control_ok (row : ControlReceiptRow) : Prop := {
  co_seq : 1 <= cr_seq row;
  co_epoch : 1 <= cr_recovery_epoch row;
  co_origin : cr_origin row <> Relay;
  co_type : is_event_type (EventTypeName_as_str (cr_event_type row)) = true;
  co_prefix : starts_with_str (EventTypeName_as_str (cr_event_type row)) CONTROL_TYPE_PREFIX = true;
  co_matches : origin_matches_type catalog (cr_origin row) (cr_event_type row) = true;
  co_code : forall c, cr_code row = Some c -> is_code (BoundedCode_as_str c) = true;
  co_consistent : control_consistent (cr_event_type row) (cr_target_event_id row) (cr_code row) =
    true
}.

Definition raw_control (row : ControlReceiptRow) : RawControlReceiptRow := {|
  qc_seq := cr_seq row; qc_recovery_epoch := cr_recovery_epoch row;
  qc_origin := Origin_as_str (cr_origin row);
  qc_event_type := EventTypeName_as_str (cr_event_type row);
  qc_target_event_id := cr_target_event_id row;
  qc_code := option_map BoundedCode_as_str (cr_code row) |}.

(** The same for control rows: their origin, type, target and code fit together. *)
Theorem control_decode_exact raw row :
  control_decode catalog raw = Ok row <-> raw = raw_control row /\ control_ok row.
Proof.
  unfold control_decode. destruct (_ || _) eqn:E0.
  { split; [done|]. intros (-> & [? ? _ _ _ _ _ _]). cbn in E0.
    apply orb_true_iff in E0 as [E%Z.ltb_lt|E%Z.ltb_lt]; lia. }
  apply orb_false_iff in E0 as [E1%Z.ltb_ge E2%Z.ltb_ge]. split.
  - intros (origin & [Ho%Origin_parse_iff
      Hr%negb_true_iff%bool_decide_eq_false]%ok_or_Ok%opt_filter_Some &
      (t & [[[Htn Htt]%EventTypeName_new_iff Htp]%opt_filter_Some Hm]%ok_or_Ok%opt_filter_Some &
       (code & Hc & H)%rbind_Ok)%rbind_Ok)%rbind_Ok.
    destruct (control_consistent _ _ _) eqn:E3; [|done]. injection H as <-.
    assert (qc_code raw = option_map BoundedCode_as_str code /\
            forall c, code = Some c -> is_code (BoundedCode_as_str c) = true) as [Hcr Hcc].
    { destruct (qc_code raw) as [s|]; [|by injection Hc as <-].
      apply rbind_Ok in Hc as (c & [Hcn Hci]%ok_or_Ok%BoundedCode_new_iff & [= <-]). cbn.
      rewrite Hcn. split; [done|]. intros c' [= <-]. by rewrite Hcn. }
    split; [unfold raw_control; cbn; rewrite <- Ho, Htn, <- Hcr; by destruct raw|].
    split; cbn; try done. by rewrite Htn.
  - intros (-> & [_ _ Hr Ht Hp Hm Hc Hx]). unfold raw_control in *. cbn in *.
    rewrite (proj2 (Origin_parse_iff _ _) eq_refl). cbn. rewrite bool_decide_eq_false_2 by done.
    cbn.
    rewrite (proj2 (EventTypeName_new_iff _ _) (conj eq_refl Ht)). cbn. rewrite Hp. cbn.
    rewrite Hm. cbn.
    destruct row as [seq epoch origin t target [c|]]; cbn in *.
    + rewrite (proj2 (BoundedCode_new_iff _ _) (conj eq_refl (Hc c eq_refl))). cbn. by rewrite Hx.
    + by rewrite Hx.
Qed.
End Receipts.

(** ** Hexadecimal digests *)

(** A digest is read back from its text. *)
Lemma parse_hex32_to_hex (d : vec ascii 32) : parse_hex32 (to_hex (vec_to_list d)) = Some d.
Proof.
  unfold parse_hex32, is_hex_digest. rewrite to_hex_digits, to_hex_length. unfold len.
  rewrite length_vec_to_list. cbn [Z.eqb andb negb Z.of_nat]. rewrite andb_true_r. cbn.
  rewrite unhex_to_hex. apply (proj2 (digest32_Some _ _)). done.
Qed.

(** ** Admission, classes and control events *)

Lemma admission_exact status :
  StoreStatus_admission status = Ok tt <->
  ss_state status = StOperational /\ ss_regression_detected status = false /\
  ss_missing_types status = [].
Proof.
  unfold StoreStatus_admission. destruct (ss_state status), (ss_regression_detected status),
    (ss_missing_types status); naive_solver.
Qed.

Section Controls.
Context {F : Floats} {X : AuditExternals}.

Lemma precheck_exact envelope :
  (precheck_ingest envelope = Ok tt <-> env_origin envelope = Relay) /\
  forall e, precheck_ingest envelope = Err e -> StoreError_is_terminal e = true.
Proof.
  unfold precheck_ingest. case_bool_decide; [naive_solver|]. split; [naive_solver|].
  by intros e [= <-].
Qed.

(** Two control events of one type with the same details are the same event: the counts, the
    mode, the watermark, the digest, the event and the code are all recorded. *)
Theorem control_details_faithful k1 k2 :
  (forall u v, uuid_to_string u = uuid_to_string v -> u = v) ->
  control_event_type k1 = control_event_type k2 -> control_details k1 = control_details k2 ->
  k1 = k2.
Proof.
  intros Hu Ht Hd.
  assert (forall key, bt_get key (control_details k1) = bt_get key (control_details k2)) as H
    by (intros key; by rewrite Hd).
  destruct k1 as [e1 [c1]|r1 m1 w1 d1 n1|e1 c1], k2 as [e2 [c2]|r2 m2 w2 d2 n2|e2 c2]; try done.
  - pose proof (H "event_id"%string) as He. pose proof (H "quarantine_code"%string) as Hc.
    vm_compute in He, Hc. injection He as He%Hu. injection Hc as ->. by rewrite He.
  - assert (n1 = n2) as ->.
    { pose proof (fun key => f_equal (fun o => o) (H key)) as G. destruct n1, n2.
      f_equal;
        [set (k := "count_ok"%string)|set (k := "count_delivered_missing"%string)
        |set (k := "count_digest_mismatch"%string)|set (k := "count_quarantined_stored"%string)
        |set (k := "count_quarantined_conflict"%string)|set (k := "count_pending"%string)
        |set (k := "count_quarantined"%string)|set (k := "count_unregistered"%string)
        |set (k := "count_source_tampered"%string)|set (k := "count_store_only"%string)
        |set (k := "count_unaudited_replay"%string)|set (k := "count_replay_record_lost"%string)
        |set (k := "count_relay_catalog_skew"%string)
        |set (k := "repaired_delivered_missing"%string)
        |set (k := "repaired_quarantined_stored"%string)
        |set (k := "repaired_unregistered"%string)];
        specialize (G k); subst k; vm_compute in G; by injection G. }
    pose proof (H "run_id"%string) as Hr. pose proof (H "mode"%string) as Hm.
    pose proof (H "watermark"%string) as Hw. pose proof (H "id_set_digest"%string) as Hi.
    cbn -[uuid_to_string to_hex ReconcileMode_as_str] in Hr, Hm, Hw, Hi.
    injection Hr as Hr%Hu. injection Hw as ->.
    assert (m1 = m2) as -> by (destruct m1, m2; done).
    injection Hi as Hi. apply (f_equal parse_hex32) in Hi. rewrite !parse_hex32_to_hex in Hi.
    injection Hi as ->. by rewrite Hr.
  - pose proof (H "event_id"%string) as He. pose proof (H "mismatch_code"%string) as Hc.
    vm_compute in He, Hc. injection He as He%Hu. rewrite He. by destruct c1, c2.
Qed.
End Controls.
