(* ===== verification/RelayBreaker.v ===== *)
(** * RelayBreaker: admission of the audit relay (audit-relay, breaker.rs)

    The breaker's methods are atomic [Action]s under its lock; [acquire] is a program of such
    actions and of questions to the source and the Store, with arbitrary answers, and the
    actions of the handlers come in between.  Times are numbers of nanoseconds, read anew at
    every use of the clock; counters of outages are unbounded. *)
From stdpp Require Import base gmap sets list strings vector.
From Stdlib Require Import ZArith Lia Ascii.
From S2P Require Import Prelude Text Ordered Manifest Json AuditKinds AuditCatalog AuditEnvelope.
From S2P Require Import AuditLegacy AuditPort.

Local Open Scope Z_scope.

(** store.rs [outage_of]. *)
Definition outage_of (error : StoreError) : OutageCode :=
  unwrap_or OcOther (StoreError_outage_code error).

(** ** State *)

Record BreakerConfig : Type := {
  bc_initial_cooldown : Z;
  bc_max_cooldown : Z;
  bc_probe_timeout : Z;
  bc_closed_claims : Z
}.

Definition seconds (n : Z) : Z := n * 1000000000.

Definition BreakerConfig_default : BreakerConfig := {|
  bc_initial_cooldown := seconds 1; bc_max_cooldown := seconds 60;
  bc_probe_timeout := seconds 5; bc_closed_claims := 32 |}.

Inductive Mode : Type := ModeClosed | ModeOpen | ModeHalfOpen.
#[global] Instance Mode_eq_dec : EqDecision Mode.
Proof. solve_decision. Defined.

Definition Mode_as_str (m : Mode) : string :=
  match m with ModeClosed => "closed" | ModeOpen => "open" | ModeHalfOpen => "half_open" end.

Inductive Gate : Type :=
| GateUnknown | GateOk | GateOutage (code : OutageCode) | GateSourceUnavailable | GateRegressed.
#[global] Instance Gate_eq_dec : EqDecision Gate.
Proof. solve_decision. Defined.

Definition Gate_as_str (g : Gate) : string :=
  match g with
  | GateUnknown => "unknown" | GateOk => "ok" | GateOutage code => OutageCode_as_str code
  | GateSourceUnavailable => "source_unavailable"
  | GateRegressed => OutageCode_as_str OcRegressed
  end.

Inductive State : Type :=
| Closed
| Open (until : Z)
| HalfOpen (admitted : option Z).
#[global] Instance State_eq_dec : EqDecision State.
Proof. solve_decision. Defined.

Record Inner : Type := {
  in_state : State;
  in_cooldown : Z;
  in_epoch_hint : option Z;
  in_regressed_epoch : option Z;
  in_gate : Gate;
  in_outages : Z;
  in_outage_streak : Z
}.

Record BreakerSnapshot : Type := {
  bs_mode : Mode;
  bs_gate : Gate;
  bs_outage_streak : Z;
  bs_outages : Z
}.

Record Breaker : Type := { br_config : BreakerConfig; br_inner : Inner; br_permits : Z }.

Definition Breaker_new (config : BreakerConfig) : Breaker := {|
  br_config := config;
  br_inner := {| in_state := HalfOpen None; in_cooldown := bc_initial_cooldown config;
                 in_epoch_hint := None; in_regressed_epoch := None; in_gate := GateUnknown;
                 in_outages := 0; in_outage_streak := 0 |};
  br_permits := 1 |}.

Definition with_inner (self : Breaker) (inner : Inner) : Breaker :=
  {| br_config := br_config self; br_inner := inner; br_permits := br_permits self |}.

Definition with_state (self : Breaker) (state : State) : Breaker :=
  let i := br_inner self in
  with_inner self {| in_state := state; in_cooldown := in_cooldown i;
    in_epoch_hint := in_epoch_hint i; in_regressed_epoch := in_regressed_epoch i;
    in_gate := in_gate i; in_outages := in_outages i; in_outage_streak := in_outage_streak i |}.

Definition state_mode (state : State) : Mode :=
  match state with Closed => ModeClosed | Open _ => ModeOpen | HalfOpen _ => ModeHalfOpen end.

Definition snapshot (self : Breaker) : BreakerSnapshot := {|
  bs_mode := state_mode (in_state (br_inner self)); bs_gate := in_gate (br_inner self);
  bs_outage_streak := in_outage_streak (br_inner self); bs_outages := in_outages (br_inner self)
|}.

Definition mode (self : Breaker) : Mode := bs_mode (snapshot self).

(** A permit of a breaker; [release] of a detached one does nothing. *)
Record BreakerPermit : Type := {
  bp_attached : bool;
  bp_id : Z;
  bp_epoch : Z;
  bp_half_open : bool
}.
#[global] Instance BreakerPermit_eq_dec : EqDecision BreakerPermit.
Proof. solve_decision. Defined.

Definition BreakerPermit_detached (epoch : Z) : BreakerPermit :=
  {| bp_attached := false; bp_id := 0; bp_epoch := epoch; bp_half_open := false |}.

(** ** Operations *)

Definition record_outage (now : Z) (self : Breaker) : Breaker :=
  let i := br_inner self in
  with_inner self {| in_state := Open (now + in_cooldown i);
    in_cooldown := Z.min (in_cooldown i * 2) (bc_max_cooldown (br_config self));
    in_epoch_hint := in_epoch_hint i; in_regressed_epoch := in_regressed_epoch i;
    in_gate := in_gate i; in_outages := in_outages i + 1;
    in_outage_streak := in_outage_streak i + 1 |}.

Definition record_verdict (self : Breaker) : Breaker :=
  let i := br_inner self in
  with_inner self {| in_state := Closed; in_cooldown := bc_initial_cooldown (br_config self);
    in_epoch_hint := in_epoch_hint i; in_regressed_epoch := in_regressed_epoch i;
    in_gate := in_gate i; in_outages := in_outages i; in_outage_streak := 0 |}.

Definition breaker_release (permit_id : Z) (self : Breaker) : Breaker :=
  if in_state (br_inner self) == HalfOpen (Some permit_id) then with_state self (HalfOpen None)
  else self.

Definition permit_release (permit : BreakerPermit) (self : Breaker) : Breaker :=
  if bp_attached permit then breaker_release (bp_id permit) self else self.

Definition set_gate (gate : Gate) (self : Breaker) : Breaker :=
  let i := br_inner self in
  with_inner self {| in_state := in_state i; in_cooldown := in_cooldown i;
    in_epoch_hint := in_epoch_hint i; in_regressed_epoch := in_regressed_epoch i;
    in_gate := gate; in_outages := in_outages i; in_outage_streak := in_outage_streak i |}.

Definition set_epoch_hint (epoch : Z) (self : Breaker) : Breaker :=
  let i := br_inner self in
  with_inner self {| in_state := in_state i; in_cooldown := in_cooldown i;
    in_epoch_hint := Some epoch; in_regressed_epoch := in_regressed_epoch i;
    in_gate := in_gate i; in_outages := in_outages i; in_outage_streak := in_outage_streak i |}.

Definition set_regressed (regressed : option Z) (self : Breaker) : Breaker :=
  let i := br_inner self in
  with_inner self {| in_state := in_state i; in_cooldown := in_cooldown i;
    in_epoch_hint := in_epoch_hint i; in_regressed_epoch := regressed;
    in_gate := in_gate i; in_outages := in_outages i; in_outage_streak := in_outage_streak i |}.

(** [fetch_add] wraps around. *)
Definition u64_next (n : Z) : Z := (n + 1) mod 2 ^ 64.

Definition Breaker_admit (now epoch : Z) (self : Breaker) : Breaker * option BreakerPermit :=
  let grant (half_open : bool) :=
    let id := br_permits self in
    let self := {| br_config := br_config self; br_inner := br_inner self;
                   br_permits := u64_next id |} in
    (if half_open then with_state self (HalfOpen (Some id)) else self,
     Some {| bp_attached := false; bp_id := id; bp_epoch := epoch; bp_half_open := half_open |}) in
  match in_state (br_inner self) with
  | Closed => grant false
  | Open until => if now <? until then (self, None) else grant true
  | HalfOpen None => grant true
  | HalfOpen (Some _) => (self, None)
  end.

Definition cooling_down (now : Z) (self : Breaker) : bool :=
  match in_state (br_inner self) with Open until => now <? until | _ => false end.

(** The section of [gate] that compares the epoch with the regressed one: it refuses, or it
    forgets the regression of another epoch. *)
Definition check_regressed (epoch : Z) (self : Breaker) : Breaker :=
  match in_regressed_epoch (br_inner self) with
  | Some regressed =>
      if regressed =? epoch then set_gate GateRegressed self else set_regressed None self
  | None => self
  end.

Definition max_claims_per_permit (self : Breaker) : Z :=
  match mode self with
  | ModeClosed => Z.max (bc_closed_claims (br_config self)) 1
  | ModeOpen | ModeHalfOpen => 1
  end.

(** ** Admission *)

Inductive Action : Type :=
| ARead
| AOutage (now : Z)
| AVerdict
| ARelease (id : Z)
| ASetGate (gate : Gate)
| ASetHint (epoch : Z)
| ACheckRegressed (epoch : Z)
| ASetRegressed (epoch : Z)
| AAdmit (now epoch : Z).

Definition act (self : Breaker) (a : Action) : Breaker * option BreakerPermit :=
  match a with
  | ARead => (self, None)
  | AOutage now => (record_outage now self, None)
  | AVerdict => (record_verdict self, None)
  | ARelease id => (breaker_release id self, None)
  | ASetGate gate => (set_gate gate self, None)
  | ASetHint epoch => (set_epoch_hint epoch self, None)
  | ACheckRegressed epoch => (check_regressed epoch self, None)
  | ASetRegressed epoch => (set_gate GateRegressed (set_regressed (Some epoch) self), None)
  | AAdmit now epoch => Breaker_admit now epoch self
  end.

(** What [acquire] does: an action, chosen with the time at which the lock is taken, after which
    it goes on with the state it found and the permit it was given; a question; a report whose
    outcome is not looked at. *)
Inductive Prog : Type :=
| Return (r : option BreakerPermit)
| Do (action : Z -> Action) (k : Z -> Breaker -> option BreakerPermit -> Prog)
| AskAcked (epoch : Z) (k : option (option ReceiptIdentity) -> Prog)
| AskProbe (expected : ProbeExpectation) (k : option (Result StoreStatus StoreError) -> Prog)
| Report (identity : ReceiptIdentity) (k : Prog).

Section Admission.
Context {F : Floats} {X : AuditExternals} (catalog : Catalog).

Definition expectation (last_ack : option ReceiptIdentity) : ProbeExpectation :=
  unwrap_or
    {| px_source := DOCUMENT_SOURCE; px_adapter_version := LEGACY_ADAPTER_VERSION;
       px_types := []; px_last_ack := last_ack |}
    (from_catalog catalog DOCUMENT_SOURCE last_ack).

Definition refuse (gate : Gate) : Prog :=
  Do (fun _ => ASetGate gate) (fun _ _ _ =>
    if gate != GateSourceUnavailable
    then Do AOutage (fun _ _ _ => Return None)
    else Return None).

(** An answer is [None] when it did not come in time or, from the source, when it failed. *)
Definition probe_at (epoch : option Z)
    (k : Result (StoreStatus * option ReceiptIdentity) Gate -> Prog) : Prog :=
  let probe last_ack :=
    AskProbe (expectation last_ack) (fun answer =>
      k match answer with
        | Some (Ok status) => Ok (status, last_ack)
        | Some (Err error) => Err (GateOutage (outage_of error))
        | None => Err (GateOutage OcTimeout)
        end) in
  match epoch with
  | None => probe None
  | Some epoch =>
      AskAcked epoch (fun answer =>
        match answer with
        | Some last_ack => probe last_ack
        | None => k (Err GateSourceUnavailable)
        end)
  end.

(** [gate] from the check of the regressed epoch on. *)
Definition gate_status (status : StoreStatus) (last_ack : option ReceiptIdentity)
    (admitted : Z -> Prog) : Prog :=
  let epoch := ss_recovery_epoch status in
  Do (fun _ => ACheckRegressed epoch) (fun _ before _ =>
    if in_regressed_epoch (br_inner before) == Some epoch then Return None
    else
      match StoreState_outage_code (ss_state status) with
      | Some code => refuse (GateOutage code)
      | None =>
          if ss_regression_detected status then
            Do (fun _ => ASetRegressed epoch) (fun _ _ _ =>
              Do AOutage (fun _ _ _ =>
                match last_ack with
                | Some identity => Report identity (Return None)
                | None => Return None
                end))
          else
            match StoreStatus_admission status with
            | Err code => refuse (GateOutage code)
            | Ok _ => Do (fun _ => ASetGate GateOk) (fun _ _ _ => admitted epoch)
            end
      end).

Definition gate (admitted : Z -> Prog) : Prog :=
  Do (fun _ => ARead) (fun _ before _ =>
    let hint := in_epoch_hint (br_inner before) in
    probe_at hint (fun r =>
      match r with
      | Err g => refuse g
      | Ok (status, last_ack) =>
          if hint != Some (ss_recovery_epoch status) then
            let epoch := ss_recovery_epoch status in
            Do (fun _ => ASetHint epoch) (fun _ _ _ =>
              probe_at (Some epoch) (fun r =>
                match r with
                | Err g => refuse g
                | Ok (status, last_ack) =>
                    if negb (ss_recovery_epoch status =? epoch) then
                      Do (fun _ => ASetHint (ss_recovery_epoch status)) (fun _ _ _ =>
                        Do (fun _ => ASetGate GateUnknown) (fun _ _ _ => Return None))
                    else gate_status status last_ack admitted
                end))
          else gate_status status last_ack admitted
      end)).

Definition attach (permit : BreakerPermit) : BreakerPermit :=
  {| bp_attached := true; bp_id := bp_id permit; bp_epoch := bp_epoch permit;
     bp_half_open := bp_half_open permit |}.

Definition acquire : Prog :=
  Do (fun _ => ARead) (fun now before _ =>
    if cooling_down now before then Return None
    else
      gate (fun epoch =>
        Do (fun now => AAdmit now epoch) (fun _ _ permit => Return (option_map attach permit)))).
End Admission.

(** ** Runs of actions

    Any interleaving of handlers and admissions is a sequence of actions. *)

Definition config_ok (config : BreakerConfig) : Prop :=
  0 < bc_initial_cooldown config <= bc_max_cooldown config.

Fixpoint run (self : Breaker) (actions : list Action) : Breaker * list BreakerPermit :=
  match actions with
  | [] => (self, [])
  | a :: actions =>
      let '(self, permit) := act self a in
      let '(self, permits) := run self actions in
      (self, option_list permit ++ permits)
  end.

Lemma run_app self xs ys :
  run self (xs ++ ys) = (fst (run (fst (run self xs)) ys),
                         snd (run self xs) ++ snd (run (fst (run self xs)) ys)).
Proof.
  revert self. induction xs as [|x xs IH]; intros self; cbn.
  - by destruct (run self ys).
  - destruct (act self x) as [s p]. rewrite IH. destruct (run s xs) as [s' ps]. cbn.
    by rewrite app_assoc.
Qed.

Definition is_outage (a : Action) : bool := match a with AOutage _ => true | _ => false end.
Definition is_verdict (a : Action) : bool := match a with AVerdict => true | _ => false end.

(** Outages since the last verdict. *)
Definition streak (actions : list Action) : Z :=
  fold_left (fun n a => if is_verdict a then 0 else if is_outage a then n + 1 else n) actions 0.

Lemma streak_snoc actions a :
  streak (actions ++ [a])
  = if is_verdict a then 0 else if is_outage a then streak actions + 1 else streak actions.
Proof. unfold streak. by rewrite fold_left_app. Qed.

Lemma streak_nonneg actions : 0 <= streak actions.
Proof.
  induction actions as [|a l IH] using rev_ind; [done|]. rewrite streak_snoc.
  destruct (is_verdict a); [lia|]. destruct (is_outage a); lia.
Qed.

Lemma run_snoc self actions a :
  fst (run self (actions ++ [a])) = fst (act (fst (run self actions)) a).
Proof. rewrite run_app. cbn. by destruct (act _ a). Qed.

Lemma act_config self a : br_config (fst (act self a)) = br_config self.
Proof.
  destruct a; cbn; try done; unfold breaker_release, check_regressed, Breaker_admit.
  all: repeat case_match; done.
Qed.

Lemma run_config self actions : br_config (fst (run self actions)) = br_config self.
Proof.
  induction actions as [|a l IH] using rev_ind; [done|]. by rewrite run_snoc, act_config.
Qed.

(** Only an outage and a verdict change the counters and the cooldown. *)
Lemma act_counters self a :
  let i := br_inner self in let i' := br_inner (fst (act self a)) in
  match a with
  | AOutage _ =>
      in_outages i' = in_outages i + 1 /\ in_outage_streak i' = in_outage_streak i + 1 /\
      in_cooldown i' = Z.min (in_cooldown i * 2) (bc_max_cooldown (br_config self))
  | AVerdict =>
      in_outages i' = in_outages i /\ in_outage_streak i' = 0 /\
      in_cooldown i' = bc_initial_cooldown (br_config self)
  | _ =>
      in_outages i' = in_outages i /\ in_outage_streak i' = in_outage_streak i /\
      in_cooldown i' = in_cooldown i
  end.
Proof.
  destruct a; cbn; try done; unfold breaker_release, check_regressed, Breaker_admit.
  all: repeat case_match; done.
Qed.

(** The counters are the outages of the run, in all and since the last verdict, and the cooldown
    is the initial one doubled once per outage since the last verdict, up to the maximum. *)
Theorem breaker_counters_exact config actions :
  config_ok config ->
  let i := br_inner (fst (run (Breaker_new config) actions)) in
  in_outages i = len (List.filter is_outage actions) /\ in_outage_streak i = streak actions /\
  in_cooldown i = Z.min (bc_initial_cooldown config * 2 ^ streak actions) (bc_max_cooldown config).
Proof.
  intros Hc. induction actions as [|a l IH] using rev_ind.
  - cbn. change (streak []) with 0. unfold config_ok in Hc. split_and!; [done|done|]. lia.
  - cbn zeta in *. rewrite run_snoc, streak_snoc, List.filter_app.
    pose proof (act_counters (fst (run (Breaker_new config) l)) a) as Ha. cbn zeta in Ha.
    rewrite run_config in Ha. pose proof (streak_nonneg l) as Hn. unfold len in *.
    rewrite length_app. destruct IH as (Ho & Hs & Hcd). unfold config_ok in Hc.
    destruct a; cbn [is_verdict is_outage List.filter length] in *;
      destruct Ha as (-> & -> & ->); rewrite ?Ho, ?Hs, ?Hcd.
    all: try (split_and!; [lia|done|done]).
    + split_and!; [lia|done|]. rewrite Z.pow_add_r by lia. cbn. lia.
    + split_and!; [lia|done|]. cbn. lia.
Qed.

(** Whether the actions of a list leave the half-open window alone. *)
Definition is_outcome (a : Action) : bool :=
  match a with AOutage _ | AVerdict | ARelease _ => true | _ => false end.

Lemma act_state self a :
  is_outcome a = false ->
  (in_state (br_inner (fst (act self a))) = in_state (br_inner self) /\
   (snd (act self a) = None \/
    (in_state (br_inner self) = Closed /\ exists p, snd (act self a) = Some p /\ bp_half_open p =
      false)))
  \/ (exists p, snd (act self a) = Some p /\ bp_half_open p = true /\
        in_state (br_inner (fst (act self a))) = HalfOpen (Some (bp_id p)) /\
        in_state (br_inner self) <> Closed).
Proof.
  destruct a; cbn; try done; try (by left; auto).
  - left. unfold check_regressed. repeat case_match; auto.
  - intros _. unfold Breaker_admit.
    destruct (in_state (br_inner self)) as [|until|[id|]] eqn:E; cbn.
    + left. split; [done|]. right. split; [done|]. by eexists.
    + case_match; cbn; [left; auto|]. right. by eexists.
    + left. auto.
    + right. by eexists.
Qed.

Lemma admitted_window self actions id :
  forallb (fun a => negb (is_outcome a)) actions = true ->
  in_state (br_inner self) = HalfOpen (Some id) ->
  snd (run self actions) = [] /\
  in_state (br_inner (fst (run self actions))) = HalfOpen (Some id).
Proof.
  revert self. induction actions as [|a l IH]; intros self Ho Hs; [done|].
  cbn in Ho. apply andb_true_iff in Ho as [Ha%negb_true_iff Hl]. cbn.
  assert (snd (act self a) = None /\ in_state (br_inner (fst (act self a))) = HalfOpen (Some id))
    as [Hp Hst].
  { destruct a; try done; cbn; unfold check_regressed, Breaker_admit; rewrite ?Hs;
      repeat case_match;
      done. }
  destruct (act self a) as [s p]. cbn in *. subst p. specialize (IH s Hl Hst).
  by destruct (run s l).
Qed.

(** One claim proves the Store: while a breaker is not closed, at most one permit is granted, and
    it is half-open, until an outcome, an outage or the release of a permit. *)
Theorem one_half_open_claim self actions :
  forallb (fun a => negb (is_outcome a)) actions = true -> mode self <> ModeClosed ->
  snd (run self actions) = [] \/
  exists p, snd (run self actions) = [p] /\ bp_half_open p = true /\
    in_state (br_inner (fst (run self actions))) = HalfOpen (Some (bp_id p)).
Proof.
  revert self. induction actions as [|a l IH]; intros self Ho Hm; [by left|].
  pose proof Ho as Ho'. cbn in Ho. apply andb_true_iff in Ho as [Ha%negb_true_iff Hl].
  destruct (act_state self a Ha) as [[Hs [Hp|[Hc _]]]|(p & Hp & Hh & Hs & _)].
  - cbn. destruct (act self a) as [s o]. cbn in *. subst o.
    assert (mode s <> ModeClosed) as Hm' by (unfold mode, snapshot in *; cbn in *; by rewrite Hs).
    specialize (IH s Hl Hm'). by destruct (run s l).
  - unfold mode, snapshot in Hm. cbn in Hm. by rewrite Hc in Hm.
  - right. exists p. cbn. destruct (act self a) as [s o]. cbn in *. subst o.
    destruct (admitted_window s l _ Hl Hs) as [Hn Hst].
    destruct (run s l) as [s' ps]. cbn in *. by subst ps.
Qed.

(** A closed breaker has seen a verdict and no outage since. *)
Lemma closed_since config actions :
  in_state (br_inner (fst (run (Breaker_new config) actions))) = Closed ->
  exists before after, actions = before ++ AVerdict :: after /\
    forallb (fun a => negb (is_outage a)) after = true.
Proof.
  induction actions as [|a l IH] using rev_ind; [done|]. rewrite run_snoc.
  set (b := fst (run (Breaker_new config) l)) in *. intros Hs.
  assert (is_verdict a = true \/
          (is_outage a = false /\ in_state (br_inner b) = Closed)) as [Hv|[Ho Hb]].
  { destruct a; cbn in Hs |- *; auto; try done;
      unfold breaker_release, check_regressed, Breaker_admit in Hs;
      repeat (case_match; cbn in Hs); try congruence; auto. }
  - exists l, []. by destruct a.
  - destruct (IH Hb) as (before & after & -> & Ha). exists before, (after ++ [a]).
    rewrite <- app_assoc. split; [done|]. rewrite forallb_app, Ha. cbn. by rewrite Ho.
Qed.

(** Claims beyond the first need a verdict: a permit that is not half-open is granted only when a
    verdict came after the last outage. *)
Theorem batch_claims_need_verdict config actions now epoch p :
  snd (act (fst (run (Breaker_new config) actions)) (AAdmit now epoch)) = Some p ->
  bp_half_open p = false ->
  exists before after, actions = before ++ AVerdict :: after /\
    forallb (fun a => negb (is_outage a)) after = true.
Proof.
  cbn. unfold Breaker_admit. intros Hp Hh. apply (closed_since config).
  destruct (in_state _) as [|until|[id|]]; [done| |done|by simplify_eq/=].
  case_match; by simplify_eq/=.
Qed.

(** The times of a list of actions lie in an interval. *)
Definition timed (lo hi : Z) (a : Action) : bool :=
  match a with AOutage t | AAdmit t _ => (lo <=? t) && (t <? hi) | _ => true end.

Lemma open_until_stays self until lo actions :
  in_state (br_inner self) = Open until -> 0 < in_cooldown (br_inner self) ->
  in_cooldown (br_inner self) <= bc_max_cooldown (br_config self) ->
  until <= lo + in_cooldown (br_inner self) -> lo <= until ->
  forallb (fun a => negb (is_verdict a) && timed lo until a) actions = true ->
  snd (run self actions) = [].
Proof.
  assert (forall u, until <= u -> in_state (br_inner self) = Open u ->
    0 < in_cooldown (br_inner self) <= bc_max_cooldown (br_config self) ->
    until <= lo + in_cooldown (br_inner self) ->
    forallb (fun a => negb (is_verdict a) && timed lo until a) actions = true ->
    snd (run self actions) = []) as H; [|intros; by eapply (H until)].
  revert self. induction actions as [|a l IH]; intros self u Hu Hs Hc Hl Ht; [done|].
  cbn in Ht. apply andb_true_iff in Ht as [[Hv Ha]%andb_true_iff Ht]. apply negb_true_iff in Hv.
  pose proof (act_counters self a) as Hk. pose proof (act_config self a) as Hcfg. cbn zeta in Hk.
  assert (snd (act self a) = None /\ exists u', until <= u' /\
            in_state (br_inner (fst (act self a))) = Open u') as [Hp (u' & Hu' & Hs')].
  { destruct a as [|now| |id|g|e|e|e|now e]; try done; cbn in Ha |- *; rewrite ?Hs.
    - eauto.
    - split; [done|]. eexists. split; [|done]. apply andb_true_iff in Ha as [?%Z.leb_le _]. lia.
    - unfold breaker_release. rewrite Hs. cbn. rewrite ?Hs. eauto.
    - eauto.
    - eauto.
    - unfold check_regressed. repeat case_match; cbn; rewrite ?Hs; eauto.
    - eauto.
    - unfold Breaker_admit. rewrite Hs. apply andb_true_iff in Ha as [_ ?%Z.ltb_lt].
      assert (now <? u = true) as -> by (apply Z.ltb_lt; lia). cbn. rewrite ?Hs. eauto. }
  cbn. destruct (act self a) as [s o] eqn:E. cbn in *. subst o.
  assert (snd (run s l) = []) as Hn.
  { eapply (IH s u'); [done|done| | |done]; rewrite ?Hcfg.
    - destruct a; cbn in Hv; try done; destruct Hk as (_ & _ & ->); lia.
    - destruct a; cbn in Hv; try done; destruct Hk as (_ & _ & ->); lia. }
  by destruct (run s l).
Qed.

(** No claim while the breaker cools down: after an outage at time [now], without a verdict, no
    permit is granted before the cooldown has passed, whatever else happens. *)
Theorem no_claim_while_open config before now actions :
  config_ok config ->
  let self := fst (run (Breaker_new config) before) in
  let until := now + in_cooldown (br_inner self) in
  forallb (fun a => negb (is_verdict a) && timed now until a) actions = true ->
  snd (run self (AOutage now :: actions)) = [].
Proof.
  intros Hc self until Ht. cbn.
  destruct (breaker_counters_exact config before Hc) as (_ & _ & Hcd). fold self in Hcd.
  pose proof (run_config (Breaker_new config) before) as Hcfg. fold self in Hcfg. cbn in Hcfg.
  unfold config_ok in Hc. pose proof (streak_nonneg before) as Hn.
  assert (0 < 2 ^ streak before) as Hp by (apply Z.pow_pos_nonneg; lia).
  assert (0 < in_cooldown (br_inner self) <= bc_max_cooldown config) as Hb by (rewrite Hcd; nia).
  pose proof (open_until_stays (record_outage now self) until now actions) as Ho. cbn in Ho.
  rewrite Hcfg in Ho. destruct (run (record_outage now self) actions) as [s ps]. cbn in *.
  apply Ho; [done|lia|lia|subst until; lia|subst until; lia|done].
Qed.

(** ** Runs of an admission *)

Definition handler_action (a : Action) : bool := is_outcome a.

Inductive Event : Type :=
| EAct (a : Action)
| EAcked (epoch : Z) (answer : option (option ReceiptIdentity))
| EProbe (expected : ProbeExpectation) (answer : option (Result StoreStatus StoreError))
| EReport (identity : ReceiptIdentity).

(** A program runs with the actions of handlers in between. *)
Inductive exec : Prog -> Breaker -> list Event -> Breaker -> option BreakerPermit -> Prop :=
| exec_return r b : exec (Return r) b [] b r
| exec_other P b a tr b' r :
    handler_action a = true -> exec P (fst (act b a)) tr b' r -> exec P b (EAct a :: tr) b' r
| exec_do f k now b tr b' r :
    exec (k now b (snd (act b (f now)))) (fst (act b (f now))) tr b' r ->
    exec (Do f k) b (EAct (f now) :: tr) b' r
| exec_acked epoch k answer b tr b' r :
    exec (k answer) b tr b' r -> exec (AskAcked epoch k) b (EAcked epoch answer :: tr) b' r
| exec_probe expected k answer b tr b' r :
    exec (k answer) b tr b' r -> exec (AskProbe expected k) b (EProbe expected answer :: tr) b' r
| exec_report identity P b tr b' r :
    exec P b tr b' r -> exec (Report identity P) b (EReport identity :: tr) b' r.

Definition actions_of (tr : list Event) : list Action :=
  flat_map (fun e => match e with EAct a => [a] | _ => [] end) tr.

(** An admission that interleaves with handlers is a run of actions. *)
Lemma exec_is_run P b tr b' r : exec P b tr b' r -> b' = fst (run b (actions_of tr)).
Proof.
  assert (forall b a l, fst (run b (a :: l)) = fst (run (fst (act b a)) l)) as Hc.
  { intros c a l. cbn. destruct (act c a) as [s o]. cbn. by destruct (run s l). }
  induction 1 as [| P b a tr b' r _ _ IH|f k now b tr b' r _ IH| | | ]; try done.
  - change (actions_of (EAct a :: tr)) with (a :: actions_of tr). by rewrite Hc.
  - change (actions_of (EAct (f now) :: tr)) with (f now :: actions_of tr). by rewrite Hc.
Qed.

(** What holds of every run of a program from a state with the invariant [I], when the answers
    of the Store satisfy [A]; [seen] are the questions asked so far. *)
Section Assertions.
Context (I : Breaker -> Prop) (A : option (Result StoreStatus StoreError) -> Prop).
Context (Q : list Event -> option BreakerPermit -> Prop).

Fixpoint always (seen : list Event) (P : Prog) : Prop :=
  match P with
  | Return r => Q seen r
  | Do f k => forall now b, I b ->
      I (fst (act b (f now))) /\ always seen (k now b (snd (act b (f now))))
  | AskAcked epoch k => forall answer, always (seen ++ [EAcked epoch answer]) (k answer)
  | AskProbe expected k => forall answer, A answer ->
      always (seen ++ [EProbe expected answer]) (k answer)
  | Report identity P => always seen P
  end.

Definition asked (tr : list Event) : list Event :=
  List.filter (fun e => match e with EAcked _ _ | EProbe _ _ => true | _ => false end) tr.

Definition answers_ok (tr : list Event) : Prop :=
  forall expected answer, EProbe expected answer ∈ tr -> A answer.

Lemma exec_always P b tr b' r seen :
  (forall b a, handler_action a = true -> I b -> I (fst (act b a))) ->
  exec P b tr b' r -> I b -> answers_ok tr -> always seen P -> I b' /\ Q (seen ++ asked tr) r.
Proof.
  intros Hstable Hexec. revert seen.
  induction Hexec as [r b|P b a tr b' r Ha _ IH|f k now b tr b' r _ IH|epoch k answer b tr b' r _ IH
    |expected k answer b tr b' r _ IH|identity P b tr b' r _ IH]; intros seen Hi Hans HP.
  all: try (assert (answers_ok tr) as Hans' by
    (intros x y H; apply (Hans x); by apply list_elem_of_further)).
  - cbn. by rewrite app_nil_r.
  - apply IH; auto.
  - cbn in HP. destruct (HP now b Hi) as [Hi' HP']. by apply IH.
  - change (asked (EAcked epoch answer :: tr)) with ([EAcked epoch answer] ++ asked tr).
    rewrite app_assoc. apply IH; [done..|apply HP].
  - change (asked (EProbe expected answer :: tr)) with ([EProbe expected answer] ++ asked tr).
    rewrite app_assoc. apply IH; [done..|]. apply HP, (Hans expected). apply list_elem_of_here.
  - by apply IH.
Qed.
End Assertions.

Section AdmissionTheorems.
Context {F : Floats} {X : AuditExternals} (catalog : Catalog).

Lemma always_refuse I A Q seen g :
  (forall b, I b -> I (set_gate g b)) -> (forall now b, I b -> I (record_outage now b)) ->
  Q seen None -> always I A Q seen (refuse g).
Proof.
  intros Hg Ho Hq. cbn. intros now b Hi. split; [by apply Hg|].
  destruct (bool_decide _); cbn; [done|]. intros now' b' Hi'. split; [by apply Ho|done].
Qed.

(** A probe answers with the head acknowledged in the epoch it was asked for. *)
Lemma always_probe_at I A Q seen epoch k :
  (forall last_ack status qs,
     A (Some (Ok status)) ->
     match epoch with
     | None => last_ack = None /\ qs = [EProbe (expectation catalog None) (Some (Ok status))]
     | Some epoch => qs = [EAcked epoch (Some last_ack);
                           EProbe (expectation catalog last_ack) (Some (Ok status))]
     end -> always I A Q (seen ++ qs) (k (Ok (status, last_ack)))) ->
  (forall g qs, always I A Q (seen ++ qs) (k (Err g))) ->
  always I A Q seen (probe_at catalog epoch k).
Proof.
  intros Hok Herr. unfold probe_at. destruct epoch as [epoch|]; cbn.
  - intros [last_ack|]; [|apply Herr]. cbn. intros answer Ha. rewrite <- app_assoc. cbn.
    destruct answer as [[status|error]|]; [|apply Herr..]. by apply Hok.
  - intros answer Ha. destruct answer as [[status|error]|]; [|apply Herr..]. by apply Hok.
Qed.

(** What was asked last before a permit was granted. *)
Definition asked_soundly (tr : list Event) (p : BreakerPermit) : Prop :=
  exists before last_ack status,
    tr = before ++ [EAcked (bp_epoch p) (Some last_ack);
                    EProbe (expectation catalog last_ack) (Some (Ok status))] /\
    ss_recovery_epoch status = bp_epoch p /\ StoreStatus_admission status = Ok tt.

Definition sound_result (tr : list Event) (r : option BreakerPermit) : Prop :=
  match r with None => True | Some p => bp_attached p = true /\ asked_soundly tr p end.

Lemma admit_epoch now epoch self p : snd (Breaker_admit now epoch self) = Some p -> bp_epoch p =
  epoch.
Proof. unfold Breaker_admit. repeat case_match; cbn; by intros [= <-]. Qed.

Lemma acquire_sound : always (fun _ => True) (fun _ => True) sound_result [] (acquire catalog).
Proof.
  set (admitted := fun epoch =>
    Do (fun now => AAdmit now epoch) (fun _ _ permit => Return (option_map attach permit))).
  assert (forall g seen, always (fun _ => True) (fun _ => True) sound_result seen (refuse g)) as Hr
    by (intros; by apply always_refuse).
  assert (forall seen status last_ack,
    always (fun _ => True) (fun _ => True) sound_result
      (seen ++ [EAcked (ss_recovery_epoch status) (Some last_ack);
                EProbe (expectation catalog last_ack) (Some (Ok status))])
      (gate_status status last_ack admitted)) as Hs.
  { intros seen status last_ack. cbn. intros now b _. split; [done|].
    destruct (bool_decide _); [done|]. destruct (StoreState_outage_code _); [apply Hr|].
    destruct (ss_regression_detected status).
    - cbn. intros. split; [done|]. intros. split; [done|]. by destruct last_ack.
    - destruct (StoreStatus_admission status) as [[]|] eqn:Ea; [|apply Hr].
      cbn. intros now1 b1 _. split; [done|]. intros now2 b2 _. split; [done|].
      destruct (snd (Breaker_admit now2 _ b2)) as [p|] eqn:Ep; cbn; [|done].
      apply admit_epoch in Ep. split; [done|]. exists seen, last_ack, status.
      unfold attach. cbn. by rewrite Ep. }
  unfold acquire. cbn [always]. intros now b _. split; [done|].
  destruct (cooling_down now b); [done|]. cbn [always gate]. intros now' b' _. split; [done|].
  apply always_probe_at; [|intros; apply Hr]. intros last_ack status qs _ Hqs.
  case_bool_decide as Hh; cbn [negb].
  - cbn in Hh. rewrite Hh in Hqs. subst qs. apply Hs.
  - cbn [always]. intros. split; [done|].
    apply always_probe_at; [|intros; apply Hr]. intros last_ack' status' qs' _ ->.
    destruct (ss_recovery_epoch status' =? ss_recovery_epoch status) eqn:Ee; cbn [negb].
    + apply Z.eqb_eq in Ee. rewrite <- Ee. apply Hs.
    + cbn. intros. split; [done|]. intros. by split.
Qed.

(** C31: A permit rests on the Store's own answer: before it is granted, the source was asked for
  the
    head acknowledged in the permit's epoch and the Store, asked with exactly that head, answered
    last that it is in that epoch, operational, without a regression and with every type
    registered, whatever handlers did in between and whatever was answered before. *)
Theorem admission_sound b tr b' p :
  exec (acquire catalog) b tr b' (Some p) -> bp_attached p = true /\ asked_soundly (asked tr) p.
Proof.
  intros He. pose proof (exec_always (fun _ => True) (fun _ => True) sound_result _ _ _ _ _ []
    (fun _ _ _ _ => I) He I (fun _ _ _ => I) acquire_sound) as [_ H]. exact H.
Qed.

(** ** Sticky regressions *)

Definition regressed_at (e : Z) (b : Breaker) : Prop := in_regressed_epoch (br_inner b) = Some e.

(** Every status the Store answered is of epoch [e]. *)
Definition answers_epoch (e : Z) (answer : option (Result StoreStatus StoreError)) : Prop :=
  forall status, answer = Some (Ok status) -> ss_recovery_epoch status = e.

Lemma handler_keeps_regressed e b a :
  handler_action a = true -> regressed_at e b -> regressed_at e (fst (act b a)).
Proof.
  unfold regressed_at. destruct a; cbn; try done. unfold breaker_release. by case_bool_decide.
Qed.

Lemma acquire_regressed e :
  always (regressed_at e) (answers_epoch e) (fun _ r => r = None) [] (acquire catalog).
Proof.
  set (admitted := fun epoch =>
    Do (fun now => AAdmit now epoch) (fun _ _ permit => Return (option_map attach permit))).
  assert (forall g seen,
    always (regressed_at e) (answers_epoch e) (fun _ r => r = None) seen (refuse g)) as Hr
    by (intros; by apply always_refuse).
  assert (forall seen status last_ack, ss_recovery_epoch status = e ->
    always (regressed_at e) (answers_epoch e) (fun _ r => r = None) seen
      (gate_status status last_ack admitted)) as Hs.
  { intros seen status last_ack He. cbn. intros now b Hb. rewrite He. unfold regressed_at in *.
    unfold check_regressed. rewrite Hb, Z.eqb_refl, bool_decide_eq_true_2 by done.
    split; [exact Hb|done]. }
  unfold acquire. cbn [always]. intros now b Hb. split; [done|].
  destruct (cooling_down now b); [done|]. cbn [always gate]. intros now' b' Hb'. split; [done|].
  apply always_probe_at; [|intros; apply Hr]. intros last_ack status qs Ha _.
  specialize (Ha status eq_refl). destruct (bool_decide _); cbn [negb]; [by apply Hs|].
  cbn [always]. intros. split; [done|]. apply always_probe_at; [|intros; apply Hr].
  intros last_ack' status' qs' Ha' _. specialize (Ha' status' eq_refl).
  rewrite Ha, Ha', Z.eqb_refl. by apply Hs.
Qed.

(** The life of a relay: admissions one after the other, handlers at any time. *)
Inductive life : Breaker -> list Event -> Breaker -> list BreakerPermit -> Prop :=
| life_nil b : life b [] b []
| life_handler a b tr b' ps :
    handler_action a = true -> life (fst (act b a)) tr b' ps -> life b (EAct a :: tr) b' ps
| life_acquire b tr1 b1 r tr2 b' ps :
    exec (acquire catalog) b tr1 b1 r -> life b1 tr2 b' ps ->
    life b (tr1 ++ tr2) b' (option_list r ++ ps).

(** C19: A regression is sticky: once the Store was seen to have lost an acknowledged receipt in an
    epoch, no permit is granted, whatever the Store, the source and the handlers do, as long as
    the Store stays in that epoch. *)
Theorem regression_sticky e b tr b' ps :
  life b tr b' ps -> regressed_at e b -> answers_ok (answers_epoch e) tr ->
  ps = [] /\ regressed_at e b'.
Proof.
  induction 1 as [b|a b tr b' ps Ha _ IH|b tr1 b1 r tr2 b' ps He _ IH]; intros Hb Hans.
  - done.
  - apply IH; [by apply handler_keeps_regressed|].
    intros x y H. apply (Hans x). by apply list_elem_of_further.
  - assert (answers_ok (answers_epoch e) tr1 /\ answers_ok (answers_epoch e) tr2) as [H1 H2]
      by (split; intros x y H; apply (Hans x), elem_of_app; auto).
    pose proof (exec_always _ _ _ _ _ _ _ _ [] (handler_keeps_regressed e) He Hb H1
      (acquire_regressed e)) as [Hb1 Hq]. cbn in Hq. subst r. by apply IH.
Qed.
End AdmissionTheorems.
