(* ===== verification/AuditScenario.v ===== *)
(** * AuditScenario: a concrete catalog, envelope and export

    Concrete instances of the audit parameters and small documents on which the properties of
    audit-core and of the relay's breaker are evaluated. *)
From stdpp Require Import base gmap sets list strings vector.
From Stdlib Require Import ZArith Lia Ascii.
From S2P Require Import Prelude Text Ordered Manifest Json JsonTheorems AuditKinds.
From S2P Require Import AuditCatalog AuditEnvelope AuditChain AuditExport AuditVerify.
From S2P Require Import AuditTheorems.
From S2P Require Import AuditCatalogTheorems AuditPort RelayBreaker.

Local Open Scope Z_scope.

Module AuditToy.
(** No floating-point numbers occur. *)
#[local] Instance floats : Floats :=
  {| f64 := Empty_set; f64_eqb := fun _ _ => false; f64_to_string := fun _ => "" |}.

Definition uuid_of_text (s : string) : option Uuid :=
  opt_filter (fun u => bool_decide (u < 2 ^ 128)%N)
    (Some (Z.to_N (fold_left (fun n b => if b =? 45 then n else n * 16 + nibble b) (bytes s) 0))).

Definition text_of_uuid (u : Uuid) : string :=
  let h := to_hex (uuid_be u) in
  String.substring 0 8 h +:+ "-" +:+ String.substring 8 4 h +:+ "-" +:+ String.substring 12 4 h
  +:+ "-" +:+ String.substring 16 4 h +:+ "-" +:+ String.substring 20 12 h.

#[local] Instance externals : AuditExternals := {|
  ordinal_date_ok := fun _ d => in_range 1 365 d;
  calendar_date_ok := fun _ _ d => in_range 1 28 d;
  month_ok := in_range 1 12;
  uuid_parse := uuid_of_text;
  uuid_to_string := text_of_uuid
|}.

#[local] Instance externals_laws : AuditExternalsLaws.
Proof.
  split. cbn. unfold uuid_of_text, opt_filter. intros s u.
  case_bool_decide; [|done]. by intros [= <-].
Qed.

(** A digest that keeps the last 32 bytes. *)
Definition last32 (l : list ascii) : vec ascii 32 :=
  fun_to_vec (fun i => default (ascii_of_N 0) (rev l !! (fin_to_nat i))).
#[local] Instance digest : Digest := {| sha256 := last32 |}.

(** ** A catalog of one relay event and one Store event *)

Definition viewed : string := "document.viewed".
Definition id1 : string := "00000000-0000-0000-0000-000000000001".
Definition id2 : string := "00000000-0000-0000-0000-00000000000a".

Definition field (k : Kind) : FieldSpec :=
  {| fs_kind := k; fs_values := []; fs_client_chosen := false |}.

Definition relay_adapter : AdapterSpec := {|
  as_source := DOCUMENT_SOURCE; as_origin := Relay; as_source_format := "document-outbox";
  as_adapter_version := 1; as_commitment := Forbidden; as_registration := Optional;
  as_trace_id := false |}.
Definition store_adapter : AdapterSpec := {|
  as_source := AUDIT_STORE_SOURCE; as_origin := Store; as_source_format := "audit-store";
  as_adapter_version := 1; as_commitment := Forbidden; as_registration := Forbidden;
  as_trace_id := false |}.

Definition raw_event (t source : string) (origin : Origin) (class : EventClass)
    (resource : ResourceType) (subject : string) (fields : list (string * FieldSpec)) : RawEvent :=
{|
  raw_type := t; raw_source := source; raw_origin := origin; raw_class := class;
  raw_resources := [resource]; raw_version_required := VersionForbidden;
  raw_results := ["success"]; raw_subjects := [RawTemplate subject]; raw_fields := fields;
  raw_required := map fst fields; raw_reason := ReasonAbsent; raw_reason_code_field := None;
  raw_service_executor_field := None; raw_duplicated_actor_field := None;
  raw_operation_id_field := None; raw_publish_operation_id_field := None;
  raw_nil_resource_allowed := false; raw_bindings := [];
  raw_client_chosen_resource_ids := []; raw_client_chosen_version_id := false |}.

Definition raw_catalog : RawCatalog := {|
  rc_version := 1;
  rc_adapters := [relay_adapter; store_adapter];
  rc_events :=
    [raw_event viewed DOCUMENT_SOURCE Relay DataAccess RTDocument
       "documents/{resource.id}/views/{details.session_id}" [("session_id", field KUuid)];
     raw_event BODY_PURGED AUDIT_STORE_SOURCE Store SystemAudit RTAuditStore "audit-store"
       [("target_event_id", field KUuid); ("target_seq", field KPositiveCounter)]]
|}.

Definition catalog : Catalog :=
  match check_catalog raw_catalog with
  | Ok c => c
  | Err _ => {| cat_version := 0; cat_adapters := []; cat_events := []; cat_index := [] |}
  end.

Example catalog_loads : len (cat_events catalog) = 2 /\ check_catalog raw_catalog = Ok catalog.
Proof. split; vm_compute; reflexivity. Qed.

(** ** An envelope of the relay event *)

Definition envelope : Value :=
  VObject
    [("specversion", VString SPECVERSION); ("id", VString id1);
     ("source", VString DOCUMENT_SOURCE); ("type", VString viewed);
     ("time", VString "2026-07-01T08:30:00.000000Z"); ("datacontenttype", VString DATACONTENTTYPE);
     ("dataschema", VString DATASCHEMA);
     ("subject", VString ("documents/" +:+ id2 +:+ "/views/" +:+ id1));
     ("data", VObject
        [("schema_version", VNumber (NInt 1)); ("action", VString viewed);
         ("event_class", VString "DATA_ACCESS"); ("result", VString "success");
         ("actor", VObject [("issuer", VString "windows"); ("principal_id", VString "S-1-5")]);
         ("resource", VObject [("type", VString "Document"); ("id", VString id2)]);
         ("details", VObject [("session_id", VString id1)]);
         ("correlation", VObject []); ("extensions", VObject []);
         ("provenance", VObject [("source_format", VString "document-outbox");
                                 ("adapter_version", VNumber (NInt 1))])])].

Definition spec_of (v : Value) : option EventSpec := ok (validate_with catalog v Relay).

Example envelope_accepted : is_some (spec_of envelope) = true.
Proof. vm_compute. reflexivity. Qed.

(** ** An export of two rows: a relay event whose body was purged, and the purge *)

Definition row_values (envelope : Raw) : list (string * Raw) :=
  map (fun k => (k, if k == "envelope" then envelope else RUnit)) LINE_KEYS.

Definition purge_envelope : Raw :=
  RMap [("id", RStr id2); ("type", RStr BODY_PURGED); ("source", RStr AUDIT_STORE_SOURCE);
        ("data", RMap [("details", RMap [("target_seq", RInt 1); ("target_event_id", RStr id1)]
                                     true)] true)] true.

Definition deserializer (text : string) : Raw * bool :=
  if text == "row-1" then (RMap (row_values RUnit) true, true)
  else if text == "row-2" then (RMap (row_values purge_envelope) true, true)
  else (RError, false).

Definition digest1 : Hash := envelope_digest "viewed".
Definition digest2 : Hash := envelope_digest "purged".
Definition chain1 : Hash := chain_next GENESIS 1 1 digest1.
Definition chain2 : Hash := chain_next chain1 2 10 digest2.

Definition raw_line (text : string) : option RawLine :=
  let hex_of (h : Hash) := to_hex (vec_to_list h) in
  if text == "row-1" then
    Some {| rl_seq := 1; rl_event_id := id1; rl_origin := "relay";
            rl_envelope_digest := hex_of digest1; rl_prev_chain := hex_of GENESIS;
            rl_chain := hex_of chain1; rl_recovery_epoch := 1; rl_expired := true;
            rl_expired_by_seq := Some 2; rl_envelope := None |}
  else if text == "row-2" then
    Some {| rl_seq := 2; rl_event_id := id2; rl_origin := "store";
            rl_envelope_digest := hex_of digest2; rl_prev_chain := hex_of chain1;
            rl_chain := hex_of chain2; rl_recovery_epoch := 1; rl_expired := false;
            rl_expired_by_seq := None; rl_envelope := Some "purged" |}
  else None.

Definition export_text : string :=
  "row-1" +:+ String (ascii_of_byte 10) ("row-2" +:+ String (ascii_of_byte 10) "").

Definition dflt_report : ExportReport := {|
  anchored := false; anchor := None; rep_head := Checkpoint_GENESIS; rows := 0; bodies := 0;
  expired := 0; unverified_expiry_evidence := 0; unverified_restored_heads := 0;
  epochs_authenticated := false; chains := []; transitions := []; expiries := [] |}.

Definition report : ExportReport :=
  match verify_export deserializer raw_line catalog export_text AnchorGenesis with
  | Ok r => r
  | Err _ => dflt_report
  end.

Definition head_checkpoint : Checkpoint := {| cp_epoch := 1; cp_seq := 2; cp_chain := chain2 |}.

Definition history : list Line :=
  Eval vm_compute in filter_map (parse_line deserializer raw_line) ["row-1"; "row-2"].

Example export_verifies :
  rows report = 2 /\ bodies report = 1
  /\ verify_export deserializer raw_line catalog export_text AnchorGenesis = Ok report.
Proof. split; [|split]; vm_compute; reflexivity. Qed.

(** A row that was changed in transit is refused at its line. *)
Example broken_link_refused :
  verify_export deserializer raw_line catalog
    ("row-2" +:+ String (ascii_of_byte 10) "") AnchorGenesis = Err (SeqGap 1 1 2).
Proof. vm_compute. reflexivity. Qed.

Lemma history_linked : linked (anchor_checkpoint AnchorGenesis) history.
Proof.
  unfold history. cbn [linked]. unfold next_row.
  split; [|split; [|exact I]]; split_and!; try (vm_compute; reflexivity); cbn [ln_body];
    intros b Hb; [discriminate Hb|]. injection Hb as <-. vm_compute. reflexivity.
Qed.

(** ** Witnesses *)

Lemma jsonb_text_len_exact_witness :
  (nodes envelope <= 100)%nat /\ jsonb_text_len envelope = text_len_loop 100 0 [envelope].
Proof. split; [vm_compute; lia|apply (jsonb_text_len_exact envelope 100); vm_compute; lia]. Defined.

Lemma loaded_catalog_wf_witness : Forall entry_ok (cat_events catalog).
Proof. apply (loaded_catalog_wf raw_catalog catalog). vm_compute. reflexivity. Defined.

Lemma relay_envelope_mediated_witness :
  exists spec, validate_with catalog envelope Relay = Ok spec /\ es_origin spec = Relay.
Proof.
  destruct (validate_with catalog envelope Relay) as [spec|e] eqn:E;
    [|vm_compute in E; discriminate E].
  exists spec. split; [reflexivity|].
  destruct (relay_envelope_mediated catalog envelope spec E)
    as (t & src & env & data & details & _ & _ & _ & _ & _ & Ho & _). exact Ho.
Defined.

Lemma authentic_verdict_sound_witness :
  exists a, trusted_anchor report = Some a.
Proof.
  destruct (authentic_verdict_sound report [head_checkpoint] []) as (a & Ha & _);
    [vm_compute; reflexivity|]. by exists a.
Defined.

Lemma authentic_export_is_history_witness :
  exists ls, export_rows deserializer raw_line export_text ls.
Proof.
  destruct (authentic_export_is_history deserializer raw_line catalog export_text AnchorGenesis
              report [head_checkpoint] [] history) as (ls & Hls & _).
  - vm_compute. reflexivity.
  - vm_compute. reflexivity.
  - apply history_linked.
  - intros cp ->%list_elem_of_singleton. exists 2%nat.
    split; [vm_compute; lia|]. split; vm_compute; reflexivity.
  - by exists ls.
Defined.

Lemma verified_expiry_attested_witness :
  exists ls, export_rows deserializer raw_line export_text ls.
Proof.
  destruct (verified_expiry_attested deserializer raw_line catalog export_text AnchorGenesis None
              report {| er_seq := 1; er_evidence_seq := 2; er_verified := true |})
    as (ls & r & e & Hls & _).
  - vm_compute. reflexivity.
  - vm_compute. apply elem_of_cons. by left.
  - reflexivity.
  - by exists ls.
Defined.
(** ** The relay: an admission, a lost receipt, an outage *)

Definition status (epoch : Z) (regression : bool) : StoreStatus := {|
  ss_head_seq := 5; ss_recovery_epoch := epoch; ss_state := StOperational;
  ss_missing_types := []; ss_regression_detected := regression; ss_last_verified_seq := None |}.

Definition ack : ReceiptIdentity :=
  {| rn_seq := 5; rn_event_id := 1%N; rn_envelope_digest := last32 [] |}.

Definition breaker : Breaker := Breaker_new BreakerConfig_default.

(** Epoch 1 is found, its head is asked for, and one claim is admitted. *)
Definition admission_trace (regression : bool) : list Event :=
  [EAct ARead; EAct ARead; EProbe (expectation catalog None) (Some (Ok (status 1 false)));
   EAct (ASetHint 1); EAcked 1 (Some (Some ack));
   EProbe (expectation catalog (Some ack)) (Some (Ok (status 1 regression)));
   EAct (ACheckRegressed 1)]
  ++ if regression
     then [EAct (ASetRegressed 1); EAct (AOutage 0); EReport ack]
     else [EAct (ASetGate GateOk); EAct (AAdmit 0 1)].

Definition first_permit : BreakerPermit :=
  {| bp_attached := true; bp_id := 1; bp_epoch := 1; bp_half_open := true |}.

Ltac exec_step :=
  first
    [ refine (exec_return _ _)
    | refine (exec_do _ _ 0 _ _ _ _ _); cbn
    | refine (exec_acked _ _ _ _ _ _ _ _); cbn
    | refine (exec_probe _ _ _ _ _ _ _ _); cbn
    | refine (exec_report _ _ _ _ _ _ _); cbn ].

Lemma admission_run :
  exists b', exec (acquire catalog) breaker (admission_trace false) b' (Some first_permit).
Proof. eexists. repeat exec_step. Defined.

Lemma admission_sound_witness :
  bp_attached first_permit = true /\
  asked_soundly catalog (asked (admission_trace false)) first_permit.
Proof.
  destruct admission_run as [b' H]. exact (admission_sound catalog breaker _ b' _ H).
Defined.

(** The receipt is lost: the breaker remembers it and opens; a verdict of a handler closes it, and
    the next admission of the same epoch is refused all the same. *)
Definition lost : Breaker := fst (run breaker (actions_of (admission_trace true) ++ [AVerdict])).

Lemma regression_sticky_witness :
  mode lost = ModeClosed /\
  exists tr b', life catalog lost tr b' [] /\ len tr = 5 /\ regressed_at 1 b'.
Proof.
  split; [vm_compute; reflexivity|].
  set (tr := [EAct ARead; EAct ARead; EAcked 1 (Some (Some ack));
              EProbe (expectation catalog (Some ack)) (Some (Ok (status 1 false)));
              EAct (ACheckRegressed 1)]).
  assert (exists b', life catalog lost (tr ++ []) b' (option_list None ++ [])) as [b' H].
  { eexists. eapply life_acquire; [|apply life_nil]. unfold lost. repeat exec_step. }
  exists tr, b'. split; [exact H|]. split; [reflexivity|].
  refine (proj2 (regression_sticky catalog 1 lost (tr ++ []) b' _ H _ _)).
  - vm_compute. reflexivity.
  - intros x y Hin status' ->. unfold tr in Hin. set_solver.
Defined.

Lemma no_claim_while_open_witness :
  snd (run breaker [AOutage 10; ARelease 7; AAdmit (10 + seconds 1 - 1) 1]) = [] /\
  len (snd (run breaker [AOutage 10; AAdmit (10 + seconds 1) 1])) = 1.
Proof.
  split; [|vm_compute; reflexivity].
  apply (no_claim_while_open BreakerConfig_default [] 10 [ARelease 7; AAdmit (10 + seconds 1 - 1) 1]).
  - split; vm_compute; [reflexivity|discriminate].
  - vm_compute. reflexivity.
Defined.

Lemma one_half_open_claim_witness :
  snd (run breaker [AAdmit 0 1; AAdmit 1 1; ARead; AAdmit 2 1]) = [] \/
  exists p, snd (run breaker [AAdmit 0 1; AAdmit 1 1; ARead; AAdmit 2 1]) = [p] /\
    bp_half_open p = true /\
    in_state (br_inner (fst (run breaker [AAdmit 0 1; AAdmit 1 1; ARead; AAdmit 2 1])))
    = HalfOpen (Some (bp_id p)).
Proof.
  apply (one_half_open_claim breaker [AAdmit 0 1; AAdmit 1 1; ARead; AAdmit 2 1]).
  - reflexivity.
  - vm_compute. discriminate.
Defined.
End AuditToy.
