(* ===== verification/Base64.v ===== *)
(** * Base64: the error vocabulary and the padded Base64 of the JSON wire

    local-workspace-runtime, error.rs and base64.rs.

    Encoding, strict bounded decoding, and that they are inverse to each other: every byte
    string has exactly one accepted text. *)
From stdpp Require Import base gmap sets list strings.
From S2P Require Import Prelude Text.
From Stdlib Require Import ZArith Lia Ascii.

(** ** error.rs *)

Inductive RuntimeErrorCode : Type :=
| RUnavailable | RInvalidLocator | RDenied | RStaleContext | RNotFound | RConflict | RLimit
| RCancelled | ROutcomeUnknown.
#[global] Instance RuntimeErrorCode_eq_dec : EqDecision RuntimeErrorCode.
Proof. solve_decision. Defined.

Definition RuntimeErrorCode_as_str (c : RuntimeErrorCode) : string :=
  match c with
  | RUnavailable => "unavailable"
  | RInvalidLocator => "invalid_locator"
  | RDenied => "denied"
  | RStaleContext => "stale_context"
  | RNotFound => "not_found"
  | RConflict => "conflict"
  | RLimit => "limit"
  | RCancelled => "cancelled"
  | ROutcomeUnknown => "outcome_unknown"
  end.

Inductive RuntimeErrorReason : Type :=
| UnsupportedPlatform | InstanceLocked | RegistryUnreadable | RegistryWriteFailed | FolderReplaced
| SymbolicLink | LinkedFile | SpecialFile | ProtectedLocation | ManagedBinding | AlreadyBound
| AlreadyExists | ConcurrentChange | SafeCaptureUnavailable | OperationMismatch | PickerBusy
| SelectionExpired | HandleExpired | TooLarge | TooMany | InvalidName | InvalidCursor
| InvalidRequest | UnknownCommand | Io.
#[global] Instance RuntimeErrorReason_eq_dec : EqDecision RuntimeErrorReason.
Proof. solve_decision. Defined.

Record RuntimeError : Type := {
  rt_code : RuntimeErrorCode;
  rt_reason : option RuntimeErrorReason
}.
#[global] Instance RuntimeError_eq_dec : EqDecision RuntimeError.
Proof. solve_decision. Defined.

Definition RuntimeError_new (code : RuntimeErrorCode) : RuntimeError :=
  {| rt_code := code; rt_reason := None |}.

Definition RuntimeError_with (code : RuntimeErrorCode) (reason : RuntimeErrorReason)
    : RuntimeError := {| rt_code := code; rt_reason := Some reason |}.

Abbreviation RuntimeResult A := (Result A RuntimeError).

Definition err {A} (code : RuntimeErrorCode) (reason : RuntimeErrorReason) : RuntimeResult A :=
  Err (RuntimeError_with code reason).

Local Open Scope Z_scope.

Definition ALPHABET : list Z :=
  bytes "ABCDEFGHIJKLMNOPQRSTUVWXYZabcdefghijklmnopqrstuvwxyz0123456789+/".

(** [slice::chunks(3)] and [chunks(4)]: the last chunk may be short. *)
Fixpoint chunks3 (l : list Z) : list (list Z) :=
  match l with
  | [] => []
  | a :: b :: c :: rest => [a; b; c] :: chunks3 rest
  | short => [short]
  end.

Fixpoint chunks4 (l : list Z) : list (list Z) :=
  match l with
  | [] => []
  | a :: b :: c :: d :: rest => [a; b; c; d] :: chunks4 rest
  | short => [short]
  end.

(** [ALPHABET[v as usize]]; the index is six bits wide. *)
Definition alph (v : Z) : Z := unwrap_or 0 (ALPHABET !! Z.to_nat v).

(** The four characters of a chunk of one to three bytes. *)
Definition encode_chunk (chunk : list Z) : list Z :=
  let b i := unwrap_or 0 (chunk !! i) in
  let n := Z.lor (Z.lor (Z.shiftl (b 0%nat) 16) (Z.shiftl (b 1%nat) 8)) (b 2%nat) in
  map (fun i => if i <=? len chunk
                then alph (Z.land (Z.shiftr n (18 - 6 * i)) 63)
                else 61)
    [0; 1; 2; 3].

Definition encode (bs : list Z) : string := of_bytes (flat_map encode_chunk (chunks3 bs)).

Definition value (c : Z) : option Z :=
  if in_range 65 90 c then Some (c - 65)
  else if in_range 97 122 c then Some (c - 97 + 26)
  else if in_range 48 57 c then Some (c - 48 + 52)
  else if c =? 43 then Some 62
  else if c =? 47 then Some 63
  else None.

Definition invalid : RuntimeError := RuntimeError_with RInvalidLocator Io.

Fixpoint take_while (p : Z -> bool) (l : list Z) : list Z :=
  match l with
  | x :: l => if p x then x :: take_while p l else []
  | [] => []
  end.

(** [n = (n << 6) | value(c)?] over the characters before the padding. *)
Definition sextets (cs : list Z) : RuntimeResult Z :=
  for_each (fun n c => let? v := ok_or (value c) invalid in Ok (Z.lor (Z.shiftl n 6) v)) 0 cs.

(** One turn of the loop: the bytes of a chunk. *)
Definition decode_chunk (chunk : list Z) (is_last : bool) : RuntimeResult (list Z) :=
  let pad := len (take_while (fun c => c =? 61) (rev chunk)) in
  if (2 <? pad) || ((0 <? pad) && negb is_last) then Err invalid
  else
    let? n := sextets (take (Z.to_nat (4 - pad)) chunk) in
    let n := Z.shiftl n (6 * pad) in
    let b0 := Z.land (Z.shiftr n 16) 255 in
    let b1 := Z.land (Z.shiftr n 8) 255 in
    let b2 := Z.land n 255 in
    if ((pad =? 1) && negb (b2 =? 0)) || ((pad =? 2) && (negb (b1 =? 0) || negb (b2 =? 0)))
    then Err invalid
    else Ok (take (Z.to_nat (3 - pad)) [b0; b1; b2]).

(** The loop over the chunks; the last one is the one nothing follows. *)
Fixpoint decode_chunks (chunks : list (list Z)) : RuntimeResult (list Z) :=
  match chunks with
  | [] => Ok []
  | chunk :: rest =>
      let? out := decode_chunk chunk (is_empty rest) in
      let? more := decode_chunks rest in
      Ok (out ++ more)
  end.

Definition too_large : RuntimeError := RuntimeError_with RLimit TooLarge.

Definition decode_base64 (text : string) (max_bytes : Z) : RuntimeResult (list Z) :=
  let input := bytes text in
  if negb (len input mod 4 =? 0) then Err invalid
  else if max_bytes + 2 <? len input / 4 * 3 then Err too_large
  else
    let? out := decode_chunks (chunks4 input) in
    if max_bytes <? len out then Err too_large else Ok out.

(** ** Arithmetic of the six-bit groups *)

Lemma lor_shiftl a b k : 0 <= k -> 0 <= b < 2 ^ k -> Z.lor (Z.shiftl a k) b = a * 2 ^ k + b.
Proof.
  intros Hk Hb. rewrite <- Z.shiftl_mul_pow2 by lia. symmetry. apply Z.add_nocarry_lor.
  apply Z.bits_inj'. intros n Hn. rewrite Z.land_spec, Z.bits_0.
  destruct (Z.lt_ge_cases n k); [by rewrite Z.shiftl_spec_low|].
  rewrite <- (Z.mod_small b (2 ^ k)), Z.mod_pow2_bits_high by lia. apply andb_false_r.
Qed.

Lemma land_low a k : 0 <= k -> Z.land a (2 ^ k - 1) = a mod 2 ^ k.
Proof. intros Hk. rewrite <- Z.land_ones by done. by rewrite Z.ones_equiv, Z.sub_1_r. Qed.

(** The alphabet and [value] are inverse; the padding character is neither. *)
Lemma alph_value v : 0 <= v < 64 -> value (alph v) = Some v /\ alph v <> 61 /\ 0 <= alph v < 256.
Proof.
  intros Hv. assert (Z.of_nat (Z.to_nat v) = v) as Hz by lia.
  assert (forallb (fun k => (value (alph (Z.of_nat k)) == Some (Z.of_nat k))
            && negb (alph (Z.of_nat k) =? 61) && in_range 0 255 (alph (Z.of_nat k))) (seq 0 64)
          = true) as Hall by (vm_compute; reflexivity).
  rewrite forallb_forall in Hall. rewrite <- Hz. specialize (Hall (Z.to_nat v)).
  unfold in_range in Hall. rewrite in_seq, !andb_true_iff in Hall.
  destruct Hall as [[H1 H2] H3]; [lia|]. simp_bool. split_and!; [done|done|lia..].
Qed.

Lemma value_range c v : value c = Some v -> 43 <= c <= 122 /\ 0 <= v < 64.
Proof. unfold value, in_range. repeat case_match; intros; simplify_eq; simp_bool; lia. Qed.

Lemma value_alph c v : value c = Some v -> alph v = c.
Proof.
  intros H. pose proof (value_range c v H) as [Hc _].
  assert (forallb (fun k => is_none_or (value (Z.of_nat k)) (fun v => alph v =? Z.of_nat k)) (seq 0 128)
          = true) as Hall by (vm_compute; reflexivity).
  rewrite forallb_forall in Hall. specialize (Hall (Z.to_nat c)).
  rewrite Z2Nat.id, H, in_seq in Hall by lia. cbn in Hall. apply Z.eqb_eq, Hall. lia.
Qed.

(** ** Chunks *)

Lemma group24 a b c :
  byte a -> byte b -> byte c ->
  Z.lor (Z.lor (Z.shiftl a 16) (Z.shiftl b 8)) c = a * 65536 + b * 256 + c.
Proof.
  unfold byte. intros Ha Hb Hc. rewrite (Z.shiftl_mul_pow2 b) by lia.
  rewrite (lor_shiftl a (b * 2 ^ 8) 16) by lia.
  replace (a * 2 ^ 16 + b * 2 ^ 8) with (Z.shiftl (a * 256 + b) 8)
    by (rewrite Z.shiftl_mul_pow2; lia).
  rewrite lor_shiftl by lia. lia.
Qed.

Lemma sextet n k : 0 <= k -> Z.land (Z.shiftr n k) 63 = n / 2 ^ k mod 64.
Proof. intros Hk. rewrite Z.shiftr_div_pow2 by done. apply (land_low _ 6). lia. Qed.

Lemma octet n k : 0 <= k -> Z.land (Z.shiftr n k) 255 = n / 2 ^ k mod 256.
Proof. intros Hk. rewrite Z.shiftr_div_pow2 by done. apply (land_low _ 8). lia. Qed.

Lemma sextets_of a b c :
  byte a -> byte b -> byte c ->
  let n := a * 65536 + b * 256 + c in
  n / 2 ^ 18 mod 64 = a / 4 /\ n / 2 ^ 12 mod 64 = a mod 4 * 16 + b / 16
  /\ n / 2 ^ 6 mod 64 = b mod 16 * 4 + c / 64 /\ n / 2 ^ 0 mod 64 = c mod 64.
Proof.
  unfold byte. cbv zeta. intros Ha Hb Hc.
  split_and!; Z.to_euclidean_division_equations; lia.
Qed.

(** The characters of one, two and three bytes. *)
Lemma encode_chunk_spec a b c :
  byte a -> byte b -> byte c ->
  encode_chunk [a; b; c] = [alph (a / 4); alph (a mod 4 * 16 + b / 16);
                            alph (b mod 16 * 4 + c / 64); alph (c mod 64)]
  /\ encode_chunk [a; b] = [alph (a / 4); alph (a mod 4 * 16 + b / 16); alph (b mod 16 * 4); 61]
  /\ encode_chunk [a] = [alph (a / 4); alph (a mod 4 * 16); 61; 61].
Proof.
  intros Ha Hb Hc. assert (byte 0) as H0 by (unfold byte; lia).
  set (n3 := Z.lor (Z.lor (Z.shiftl a 16) (Z.shiftl b 8)) c).
  set (n2 := Z.lor (Z.lor (Z.shiftl a 16) (Z.shiftl b 8)) 0).
  set (n1 := Z.lor (Z.lor (Z.shiftl a 16) (Z.shiftl 0 8)) 0).
  set (s := fun n k => alph (Z.land (Z.shiftr n k) 63)).
  change (encode_chunk [a; b; c]) with [s n3 18; s n3 12; s n3 6; s n3 0].
  change (encode_chunk [a; b]) with [s n2 18; s n2 12; s n2 6; 61].
  change (encode_chunk [a]) with [s n1 18; s n1 12; 61; 61].
  subst n1 n2 n3 s. cbv beta. rewrite !group24, !sextet by (done || lia). unfold byte in *.
  destruct (sextets_of a b c) as (-> & -> & -> & ->); [done..|].
  destruct (sextets_of a b 0) as (-> & -> & -> & _); [done..|].
  destruct (sextets_of a 0 0) as (-> & -> & _); [done..|].
  by rewrite !Z.add_0_r.
Qed.

Lemma sextets_Ok cs n :
  sextets cs = Ok n <->
  exists vs, Forall2 (fun c v => value c = Some v) cs vs /\ n = fold_left (fun n v => n * 64 + v) vs 0.
Proof.
  unfold sextets. generalize 0. revert n. induction cs as [|c cs IH]; intros n m; cbn.
  - split; [intros [= <-]; by exists []|]. intros (vs & H & ->). inversion H. done.
  - destruct (value c) as [v|] eqn:Ev; cbn.
    + rewrite IH. pose proof (value_range _ _ Ev) as [_ Hv]. rewrite lor_shiftl by lia. split.
      * intros (vs & H & ->). exists (v :: vs). by split; [constructor|].
      * intros (vs & H & ->). inversion H as [|? w ? ? Hw]; subst. exists l'.
        assert (w = v) as -> by congruence. done.
    + split; [done|]. intros (vs & H & ->). inversion H. congruence.
Qed.

(** The bytes of a chunk, by the number of padding characters. *)
Definition octets (n : Z) : Z * Z * Z :=
  (n / 2 ^ 16 mod 256, n / 2 ^ 8 mod 256, n mod 256).

#[local] Arguments sextets : simpl never.

Lemma decode_chunk_cases w x y z l :
  decode_chunk [w; x; y; z] l =
  if negb (z =? 61) then
    let? n := sextets [w; x; y; z] in
    let '(b0, b1, b2) := octets n in Ok [b0; b1; b2]
  else if negb (y =? 61) then
    if negb l then Err invalid
    else
      let? n := sextets [w; x; y] in
      let '(b0, b1, b2) := octets (n * 64) in
      if negb (b2 =? 0) then Err invalid else Ok [b0; b1]
  else if negb (x =? 61) then
    if negb l then Err invalid
    else
      let? n := sextets [w; x] in
      let '(b0, b1, b2) := octets (n * 4096) in
      if negb (b1 =? 0) || negb (b2 =? 0) then Err invalid else Ok [b0]
  else Err invalid.
Proof.
  unfold decode_chunk, octets. cbv zeta. cbn [rev app take_while].
  assert (forall n, Z.land n 255 = n mod 256) as Hl by (intros n; apply (land_low n 8); lia).
  destruct (z =? 61); cbn [take_while negb]; [destruct (y =? 61)|];
    cbn [take_while negb]; [destruct (x =? 61)|..]; cbn [take_while negb].
  - destruct (w =? 61); reflexivity.
  - change (len [z; y]) with 2. destruct l; cbn; [|done].
    change (take (Z.to_nat (4 - 2)) [w; x; y; z]) with [w; x].
    destruct (sextets [w; x]) as [n|]; cbn; [|done].
    change (6 * 2) with 12. by rewrite !octet, Hl, Z.shiftl_mul_pow2 by lia.
  - change (len [z]) with 1. destruct l; cbn; [|done].
    change (take (Z.to_nat (4 - 1)) [w; x; y; z]) with [w; x; y].
    destruct (sextets [w; x; y]) as [n|]; cbn; [|done].
    change (6 * 1) with 6. rewrite !octet, Hl, Z.shiftl_mul_pow2 by lia. by rewrite orb_false_r.
  - change (len []) with 0. cbn.
    change (take (Z.to_nat (4 - 0)) [w; x; y; z]) with [w; x; y; z].
    destruct (sextets [w; x; y; z]) as [n|]; cbn; [|done].
    change (6 * 0) with 0. by rewrite !octet, Hl, Z.shiftl_0_r by lia.
Qed.

Lemma octets_of v0 v1 v2 v3 :
  0 <= v0 < 64 -> 0 <= v1 < 64 -> 0 <= v2 < 64 -> 0 <= v3 < 64 ->
  octets (((v0 * 64 + v1) * 64 + v2) * 64 + v3)
  = (v0 * 4 + v1 / 16, v1 mod 16 * 16 + v2 / 4, v2 mod 4 * 64 + v3).
Proof.
  unfold octets. intros H0 H1 H2 H3.
  f_equal; [f_equal|]; Z.to_euclidean_division_equations; lia.
Qed.

#[local] Arguments octets : simpl never.

Definition sixbit (v : Z) : Prop := 0 <= v < 64.

Ltac arith := unfold byte, sixbit in *; Z.to_euclidean_division_equations; lia.

Lemma sextets_alph vs :
  Forall sixbit vs -> sextets (map alph vs) = Ok (fold_left (fun n v => n * 64 + v) vs 0).
Proof.
  intros H. apply sextets_Ok. exists vs. split; [|done].
  induction H; constructor; [by apply alph_value|done].
Qed.

Lemma alph_not_pad v : sixbit v -> (alph v =? 61) = false.
Proof. intros H. by apply Z.eqb_neq, alph_value. Qed.

(** Decoding in terms of the six-bit groups. *)
Lemma decode_alph_4 v0 v1 v2 v3 l :
  Forall sixbit [v0; v1; v2; v3] ->
  decode_chunk [alph v0; alph v1; alph v2; alph v3] l
  = Ok [v0 * 4 + v1 / 16; v1 mod 16 * 16 + v2 / 4; v2 mod 4 * 64 + v3].
Proof.
  intros H. rewrite decode_chunk_cases. change [alph v0; alph v1; alph v2; alph v3] with
    (map alph [v0; v1; v2; v3]). rewrite sextets_alph by done.
  rewrite !Forall_cons in H. destruct H as (H0 & H1 & H2 & H3 & _).
  rewrite alph_not_pad by done. cbn. change (0 * 64 + v0) with v0. by rewrite octets_of.
Qed.

Lemma decode_alph_3 v0 v1 v2 :
  Forall sixbit [v0; v1; v2] ->
  decode_chunk [alph v0; alph v1; alph v2; 61] true
  = if v2 mod 4 =? 0 then Ok [v0 * 4 + v1 / 16; v1 mod 16 * 16 + v2 / 4] else Err invalid.
Proof.
  intros H. rewrite decode_chunk_cases. change [alph v0; alph v1; alph v2] with
    (map alph [v0; v1; v2]). rewrite sextets_alph by done.
  rewrite !Forall_cons in H. destruct H as (H0 & H1 & H2 & _).
  rewrite alph_not_pad by done. cbn. change (0 * 64 + v0) with v0.
  replace (((v0 * 64 + v1) * 64 + v2) * 64) with (((v0 * 64 + v1) * 64 + v2) * 64 + 0) by lia.
  rewrite octets_of by arith. rewrite Z.add_0_r.
  destruct (Z.eqb_spec (v2 mod 4) 0) as [->|Hn]; [done|].
  by destruct (Z.eqb_spec (v2 mod 4 * 64) 0); [lia|].
Qed.

Lemma decode_alph_2 v0 v1 :
  Forall sixbit [v0; v1] ->
  decode_chunk [alph v0; alph v1; 61; 61] true
  = if v1 mod 16 =? 0 then Ok [v0 * 4 + v1 / 16] else Err invalid.
Proof.
  intros H. rewrite decode_chunk_cases. change [alph v0; alph v1] with (map alph [v0; v1]).
  rewrite sextets_alph by done.
  rewrite !Forall_cons in H. destruct H as (H0 & H1 & _).
  rewrite alph_not_pad by done. cbn. change (0 * 64 + v0) with v0.
  replace ((v0 * 64 + v1) * 4096) with (((v0 * 64 + v1) * 64 + 0) * 64 + 0) by lia.
  rewrite octets_of by arith. change (0 / 4) with 0. rewrite !Z.add_0_r.
  destruct (Z.eqb_spec (v1 mod 16) 0) as [->|Hn]; [done|].
  by destruct (Z.eqb_spec (v1 mod 16 * 16) 0); [lia|].
Qed.

(** What an encoded chunk is decoded to. *)
Lemma decode_encode_chunk chunk l :
  Forall byte chunk -> (1 <= length chunk <= 3)%nat -> (length chunk = 3%nat \/ l = true) ->
  decode_chunk (encode_chunk chunk) l = Ok chunk.
Proof.
  intros Hb Hlen Hl. assert (byte 0) as B0 by (unfold byte; lia).
  destruct chunk as [|a [|b [|c [|? ?]]]]; cbn in Hlen; try lia;
    repeat match goal with H : Forall _ (_ :: _) |- _ => apply Forall_cons in H as [? H] end.
  - destruct (encode_chunk_spec a 0 0) as (_ & _ & ->); [done..|]. destruct Hl as [[=]| ->].
    rewrite decode_alph_2 by (repeat constructor; arith).
    rewrite (proj2 (Z.eqb_eq _ _)) by arith. repeat f_equal. arith.
  - destruct (encode_chunk_spec a b 0) as (_ & -> & _); [done..|]. destruct Hl as [[=]| ->].
    rewrite decode_alph_3 by (repeat constructor; arith).
    rewrite (proj2 (Z.eqb_eq _ _)) by arith. f_equal. f_equal; [|f_equal]; arith.
  - destruct (encode_chunk_spec a b c) as (-> & _ & _); [done..|].
    rewrite decode_alph_4 by (repeat constructor; arith).
    f_equal. f_equal; [|f_equal; [|f_equal]]; arith.
Qed.

(** The bytes of four six-bit groups, regrouped. *)
Lemma regroup v0 v1 v2 v3 :
  sixbit v0 -> sixbit v1 -> sixbit v2 -> sixbit v3 ->
  let a := v0 * 4 + v1 / 16 in let b := v1 mod 16 * 16 + v2 / 4 in let c := v2 mod 4 * 64 + v3 in
  byte a /\ byte b /\ byte c
  /\ a / 4 = v0 /\ a mod 4 * 16 + b / 16 = v1 /\ b mod 16 * 4 + c / 64 = v2 /\ c mod 64 = v3.
Proof. cbv zeta. intros. split_and!; arith. Qed.

Lemma sextets_inv cs n :
  sextets cs = Ok n ->
  exists vs, cs = map alph vs /\ Forall sixbit vs /\ n = fold_left (fun n v => n * 64 + v) vs 0.
Proof.
  intros (vs & Hvs & ->)%sextets_Ok. exists vs.
  split; [|split; [|done]]; induction Hvs as [|c v cs vs Hv Hvs IH]; cbn; try constructor; auto.
  - by rewrite IH, (value_alph _ _ Hv).
  - by apply (value_range c).
Qed.

(** An accepted chunk is the encoding of its bytes. *)
Lemma encode_decode_chunk w x y z l out :
  decode_chunk [w; x; y; z] l = Ok out ->
  encode_chunk out = [w; x; y; z] /\ Forall byte out
  /\ (1 <= length out <= 3)%nat /\ (l = false -> length out = 3%nat).
Proof.
  assert (sixbit 0) as B0 by (unfold sixbit; lia). intros H. pose proof H as Hd.
  rewrite decode_chunk_cases in Hd.
  destruct (negb (z =? 61)) eqn:Ez; [|destruct (negb (y =? 61)) eqn:Ey;
    [|destruct (negb (x =? 61)) eqn:Ex]]; simp_bool; subst; try done;
    try (destruct l; [cbn in Hd|done]); apply rbind_Ok in Hd as (n & Hn & _);
    apply sextets_inv in Hn as (vs & Hm & Hall & _);
    repeat (destruct vs as [|? vs]; try done); injection Hm as; subst;
    rewrite ?decode_alph_4, ?decode_alph_3, ?decode_alph_2 in H by done;
    repeat (apply Forall_cons in Hall as [? Hall]).
  - destruct (regroup z0 z1 z2 z3) as (Ba & Bb & Bc & E0 & E1 & E2 & E3); [done..|].
    injection H as <-. split; [|split; [rewrite !Forall_cons, Forall_nil; done|cbn; lia]].
    destruct (encode_chunk_spec _ _ _ Ba Bb Bc) as (-> & _). by rewrite E0, E1, E2, E3.
  - destruct (regroup z z0 z1 0) as (Ba & Bb & Bc & E0 & E1 & E2 & E3); [done..|].
    destruct (z1 mod 4 =? 0) eqn:E; [|done]. simp_bool. injection H as <-.
    split; [|split; [rewrite !Forall_cons, Forall_nil; done|by cbn; lia]].
    destruct (encode_chunk_spec _ _ _ Ba Bb Bc) as (_ & -> & _). rewrite E0, E1.
    rewrite E in E2. change ((0 * 64 + 0) / 64) with 0 in E2. by rewrite Z.add_0_r in E2; rewrite E2.
  - destruct (regroup z z0 0 0) as (Ba & Bb & Bc & E0 & E1 & E2 & E3); [done..|].
    destruct (z0 mod 16 =? 0) eqn:E; [|done]. simp_bool. injection H as <-.
    split; [|split; [rewrite !Forall_cons, Forall_nil; done|by cbn; lia]].
    destruct (encode_chunk_spec _ _ _ Ba Bb Bc) as (_ & _ & ->). rewrite E0.
    rewrite E in E1. change ((0 * 16 + 0 / 4) / 16) with 0 in E1. by rewrite Z.add_0_r in E1; rewrite E1.
Qed.

(** ** Texts *)

Lemma encode_chunk_byte chunk :
  Forall byte chunk -> (1 <= length chunk <= 3)%nat ->
  length (encode_chunk chunk) = 4%nat /\ Forall byte (encode_chunk chunk).
Proof.
  intros Hb Hlen. split; [done|]. assert (byte 0) as B0 by (unfold byte; lia).
  assert (forall v, sixbit v -> byte (alph v)) as Hv by (intros v Hv; apply alph_value, Hv).
  destruct chunk as [|a [|b [|c [|? ?]]]]; cbn in Hlen; try lia;
    repeat match goal with H : Forall _ (_ :: _) |- _ => apply Forall_cons in H as [? H] end.
  - destruct (encode_chunk_spec a 0 0) as (_ & _ & ->); [done..|].
    rewrite !Forall_cons, Forall_nil. split_and!; try (apply Hv; arith); by unfold byte.
  - destruct (encode_chunk_spec a b 0) as (_ & -> & _); [done..|].
    rewrite !Forall_cons, Forall_nil. split_and!; try (apply Hv; arith); by unfold byte.
  - destruct (encode_chunk_spec a b c) as (-> & _ & _); [done..|].
    rewrite !Forall_cons, Forall_nil. split_and!; try (apply Hv; arith); by unfold byte.
Qed.

(** Three bytes at a time. *)
Lemma list_ind3 (P : list Z -> Prop) :
  P [] -> (forall a, P [a]) -> (forall a b, P [a; b]) ->
  (forall a b c l, P l -> P (a :: b :: c :: l)) -> forall l, P l.
Proof.
  intros H0 H1 H2 H3. fix IH 1. intros [|a [|b [|c l]]];
    [apply H0|apply H1|apply H2|apply H3, IH].
Qed.

Lemma chunks4_app chunk l : length chunk = 4%nat -> chunks4 (chunk ++ l) = chunk :: chunks4 l.
Proof. destruct chunk as [|a [|b [|c [|d [|? ?]]]]]; done. Qed.

Lemma chunks3_nil bs : is_empty (chunks3 bs) = is_empty bs.
Proof. by destruct bs as [|? [|? [|? ?]]]. Qed.

Lemma encode_parts bs :
  Forall byte bs ->
  let cs := flat_map encode_chunk (chunks3 bs) in
  Forall byte cs /\ chunks4 cs = map encode_chunk (chunks3 bs)
  /\ len cs = 4 * ((len bs + 2) / 3) /\ decode_chunks (chunks4 cs) = Ok bs.
Proof.
  cbv zeta. induction bs as [|a|a b|a b c bs IH] using list_ind3; intros Hb.
  - done.
  - destruct (encode_chunk_byte [a]) as [Hl He]; [done|cbn; lia|]. cbn [chunks3 flat_map map].
    rewrite chunks4_app by done. rewrite app_nil_r. cbn [chunks4 decode_chunks is_empty].
    rewrite decode_encode_chunk by (try done; cbn; auto; lia). done.
  - destruct (encode_chunk_byte [a; b]) as [Hl He]; [done|cbn; lia|]. cbn [chunks3 flat_map map].
    rewrite chunks4_app by done. rewrite app_nil_r. cbn [chunks4 decode_chunks is_empty].
    rewrite decode_encode_chunk by (try done; cbn; auto; lia). done.
  - change (a :: b :: c :: bs) with ([a; b; c] ++ bs) in Hb. apply Forall_app in Hb as [H3 Hb].
    destruct (IH Hb) as (Hc & Hk & Hn & Hd). cbn [chunks3 flat_map map].
    destruct (encode_chunk_byte [a; b; c]) as [Hl He]; [done|cbn; lia|].
    rewrite chunks4_app by done. split_and!.
    + by apply Forall_app.
    + by rewrite Hk.
    + unfold len in *. rewrite length_app, Hl. cbn [length].
      Z.to_euclidean_division_equations; lia.
    + cbn [decode_chunks]. rewrite decode_encode_chunk by (try done; cbn; auto; lia).
      cbn. by rewrite Hd.
Qed.

(** Decoding chunks and encoding them again. *)
Lemma decode_chunks_inv chunks bs :
  Forall (fun c => length c = 4%nat) chunks -> decode_chunks chunks = Ok bs ->
  Forall byte bs /\ map encode_chunk (chunks3 bs) = chunks.
Proof.
  intros H4. revert bs. induction H4 as [|chunk rest H4 _ IH]; intros bs; cbn [decode_chunks].
  - intros [= <-]. done.
  - intros (out & Ho & H)%rbind_Ok. apply rbind_Ok in H as (more & Hm & [= <-]).
    destruct (IH _ Hm) as [Hb Hc].
    destruct chunk as [|w [|x [|y [|z [|? ?]]]]]; cbn in H4; try lia.
    apply encode_decode_chunk in Ho as (He & Hbo & Hl & Hlast).
    split; [by apply Forall_app|].
    destruct rest as [|c rest].
    + cbn in Hm. injection Hm as <-. rewrite app_nil_r.
      destruct out as [|a [|b [|d [|? ?]]]]; cbn in Hl; try lia; cbn [chunks3 map]; by rewrite He.
    + specialize (Hlast eq_refl). destruct out as [|a [|b [|d [|? ?]]]]; cbn in Hlast; try lia.
      cbn [app chunks3 map]. by rewrite He, Hc.
Qed.

Lemma chunks4_full cs :
  len cs mod 4 = 0 -> Forall (fun c => length c = 4%nat) (chunks4 cs) /\ concat (chunks4 cs) = cs.
Proof.
  assert (forall n cs, (length cs = 4 * n)%nat ->
            Forall (fun c => length c = 4%nat) (chunks4 cs) /\ concat (chunks4 cs) = cs) as Hn.
  { induction n as [|n IH]; intros [|a [|b [|c [|d l]]]] Hl; cbn in Hl; try lia; [done|].
    destruct (IH l) as [H1 H2]; [lia|]. cbn. rewrite H2. by split; [constructor|]. }
  intros Hm. apply (Hn (length cs / 4)%nat). unfold len in Hm.
  pose proof (Nat.div_mod_eq (length cs) 4).
  assert ((length cs mod 4)%nat = 0%nat) by (apply Nat2Z.inj; rewrite Nat2Z.inj_mod; done). lia.
Qed.

(** Strict decoding accepts exactly the encodings, and returns what was encoded: a
    text decodes to some bytes if and only if it is their encoding and they fit the bound.  So
    decoding inverts encoding, and no two texts decode to the same bytes. *)
Theorem decode_iff_encode text max_bytes bs :
  decode_base64 text max_bytes = Ok bs <->
  text = encode bs /\ Forall byte bs /\ len bs <= max_bytes.
Proof.
  unfold decode_base64. split.
  - intros H. inv_ok_hyp H. inv_ok_hyp H. apply rbind_Ok in H as (out & Ho & H). inv_ok_hyp H.
    injection H as <-. simp_bool. destruct (chunks4_full _ Hguard) as [H4 Hc].
    destruct (decode_chunks_inv _ _ H4 Ho) as [Hb Hm]. split; [|done].
    unfold encode. by rewrite flat_map_concat_map, Hm, Hc, of_bytes_bytes.
  - intros (-> & Hb & Hl). destruct (encode_parts bs Hb) as (Hc & _ & Hn & Hd).
    unfold encode. rewrite bytes_of_bytes by done. rewrite Hn, Hd.
    assert (len bs >= 0) by (unfold len; lia).
    rewrite (proj2 (Z.eqb_eq _ _)) by (Z.to_euclidean_division_equations; lia).
    rewrite (proj2 (Z.ltb_ge _ _)) by (Z.to_euclidean_division_equations; lia). cbn.
    by rewrite (proj2 (Z.ltb_ge _ _)).
Qed.
