(* ===== verification/LocalRegistry.v ===== *)
(** * LocalRegistry: locators and the protected registry (locator.rs, registry.rs)

    Relative names and locators, workspace names and operation identifiers; the records of the
    registry and its bounded memory of operations. *)
From stdpp Require Import base gmap sets list strings.
From Stdlib Require Import ZArith Lia Ascii.
From S2P Require Import Prelude Text Base64 Json.

Local Open Scope Z_scope.

(** ** locator.rs *)

Definition MAX_DEPTH : Z := 32.
Definition MAX_NAME_BYTES : Z := 255.
Definition MAX_WORKSPACE_NAME_CHARS : Z := 80.

(** Angle brackets, colon, double quote, slash, backslash, bar, question mark and asterisk. *)
Definition WINDOWS_FORBIDDEN : list Z := [60; 62; 58; 34; 47; 92; 124; 63; 42].
Definition RESERVED_BASES : list string := ["CON"; "PRN"; "AUX"; "NUL"; "CONIN$"; "CONOUT$"].

Definition invalid_name : RuntimeError := RuntimeError_with RInvalidLocator InvalidName.

Definition to_ascii_uppercase (s : string) : string :=
  of_bytes (map (fun b => if in_range 97 122 b then b - 32 else b) (bytes s)).

Definition trim_end_spaces (s : string) : string :=
  of_bytes (rev ((fix go l := match l with b :: r => if b =? 32 then go r else l | [] => [] end)
                   (rev (bytes s)))).

(** [str::strip_prefix]. *)
Fixpoint without_prefix (p s : string) : option string :=
  match p, s with
  | EmptyString, _ => Some s
  | String a p, String b s => if (a =? b)%char then without_prefix p s else None
  | String _ _, EmptyString => None
  end.

Definition numbered_device (upper prefix : string) : bool :=
  match without_prefix prefix upper with
  | None => false
  | Some rest =>
      match chars rest with
      | [c] => is_ascii_digit c || contains [0xb9; 0xb2; 0xb3] c
      | _ => false
      end
  end.

Definition is_reserved_device (name : string) : bool :=
  let base := trim_end_spaces (unwrap_or name (head (split_at_any [46] name))) in
  let upper := to_ascii_uppercase base in
  contains RESERVED_BASES upper || existsb (numbered_device upper) ["COM"; "LPT"].

Definition ends_with (s : string) (b : Z) : bool := is_some_and (last (bytes s)) (fun c => c =? b).

Definition validate_name (name : string) : RuntimeResult unit :=
  if (name == "") || (MAX_NAME_BYTES <? str_len name) || (name == ".") || (name == "..")
  then Err invalid_name
  else if existsb (fun c => is_control c || contains WINDOWS_FORBIDDEN c) (chars name)
  then Err invalid_name
  else if ends_with name 46 || ends_with name 32 then Err invalid_name
  else if is_reserved_device name then Err invalid_name
  else Ok tt.

Definition validate_locator (locator : list string) : RuntimeResult unit :=
  if MAX_DEPTH <? len locator then err RLimit TooMany
  else for_each (fun _ name => validate_name name) tt locator.

Definition normalize_workspace_name (name : string) : RuntimeResult string :=
  let trimmed := trim name in
  if is_empty trimmed || (MAX_WORKSPACE_NAME_CHARS <? len trimmed) || existsb is_control trimmed
  then Err invalid_name
  else Ok (of_chars trimmed).

Definition validate_operation_id (operation_id : string) : RuntimeResult unit :=
  let ok :=
    negb (operation_id == "") && (str_len operation_id <=? 64)
    && forallb (fun b => is_ascii_alphanumeric b || (b =? 45) || (b =? 95)) (bytes operation_id) in
  if ok then Ok tt else err RInvalidLocator OperationMismatch.

(** ** registry.rs *)

Definition SCHEMA : Z := 1.
Definition MAX_OPERATIONS : Z := 1024.

Inductive BindingSource : Type := SourceManaged | SourceExplicit.
#[global] Instance BindingSource_eq_dec : EqDecision BindingSource.
Proof. solve_decision. Defined.

(** A path as its components. *)
Abbreviation Path := (list string).

Record BindingRecord : Type := {
  br_id : string;
  br_source : BindingSource;
  br_label : string;
  br_path : option Path;
  br_dev : Z;
  br_ino : Z;
  br_birth : option (Z * Z)
}.

Record WorkspaceRecord : Type := {
  wr_id : string;
  wr_name : string;
  wr_revision : Z;
  wr_revision_binding : Z;
  wr_managed_binding_id : string;
  wr_bindings : list BindingRecord
}.

Inductive OperationKind : Type :=
| CreateWorkspace | RenameWorkspace | AttachDirectory | DetachDirectory | CreateFile.
#[global] Instance OperationKind_eq_dec : EqDecision OperationKind.
Proof. solve_decision. Defined.

(** The serde names. *)
Definition OperationKind_name (k : OperationKind) : string :=
  match k with
  | CreateWorkspace => "create_workspace"
  | RenameWorkspace => "rename_workspace"
  | AttachDirectory => "attach_directory"
  | DetachDirectory => "detach_directory"
  | CreateFile => "create_file"
  end.

Inductive OperationState : Type := OpPending | OpCompleted.
#[global] Instance OperationState_eq_dec : EqDecision OperationState.
Proof. solve_decision. Defined.

Section Registry.
Context {F : Floats}.

Record OperationRecord : Type := {
  op_id : string;
  op_kind : OperationKind;
  op_digest : string;
  op_state : OperationState;
  op_result : Value
}.

Record RegistryFile : Type := {
  rg_schema : Z;
  identity_key : string;
  workspaces : list WorkspaceRecord;
  operations : list OperationRecord
}.

Definition RegistryFile_new (key : string) : RegistryFile :=
  {| rg_schema := SCHEMA; identity_key := key; workspaces := []; operations := [] |}.

Definition with_operations (r : RegistryFile) (ops : list OperationRecord) : RegistryFile := {|
  rg_schema := rg_schema r;
  identity_key := identity_key r;
  workspaces := workspaces r;
  operations := ops
|}.

Definition with_workspaces (r : RegistryFile) (ws : list WorkspaceRecord) : RegistryFile := {|
  rg_schema := rg_schema r;
  identity_key := identity_key r;
  workspaces := ws;
  operations := operations r
|}.

Definition operation (r : RegistryFile) (id : string) : option OperationRecord :=
  find (fun op => op_id op == id) (operations r).

(** [Iterator::position] and [Vec::remove]. *)
Fixpoint position {A} (p : A -> bool) (l : list A) : option nat :=
  match l with
  | [] => None
  | x :: l => if p x then Some O else option_map S (position p l)
  end.

Definition evictable (op : OperationRecord) : bool := op_kind op != CreateWorkspace.

(** The record the next turn of the loop forgets: the oldest completed one, then the oldest
    pending one, never a workspace creation and never the record just added. *)
Definition eviction (ops : list OperationRecord) : option nat :=
  let older := take (length ops - 1) ops in
  match position (fun op => evictable op && (op_state op == OpCompleted)) older with
  | Some i => Some i
  | None => position evictable older
  end.

(** [while self.operations.len() > MAX_OPERATIONS]: a turn removes one record or stops. *)
Fixpoint evict_loop (fuel : nat) (ops : list OperationRecord) : list OperationRecord :=
  match fuel with
  | O => ops
  | S fuel =>
      if len ops <=? MAX_OPERATIONS then ops
      else
        match eviction ops with
        | Some i => evict_loop fuel (delete i ops)
        | None => ops
        end
  end.

(** [*iter_mut().find(..) = record]: the first match is replaced. *)
Fixpoint replace_first {A} (p : A -> bool) (x : A) (l : list A) : list A :=
  match l with
  | [] => []
  | y :: l => if p y then x :: l else y :: replace_first p x l
  end.

Definition upsert_operation (r : RegistryFile) (record : OperationRecord) : RegistryFile :=
  if is_some (operation r (op_id record))
  then with_operations r (replace_first (fun op => op_id op == op_id record) record (operations r))
  else
    let ops := operations r ++ [record] in
    with_operations r (evict_loop (length ops) ops).

Definition workspace (r : RegistryFile) (id : string) : option WorkspaceRecord :=
  find (fun w => wr_id w == id) (workspaces r).

(** [if let Some(record) = workspace_mut(id)], with the assignment [f]. *)
Definition update_workspace (r : RegistryFile) (id : string)
    (f : WorkspaceRecord -> WorkspaceRecord) : RegistryFile :=
  with_workspaces r (update_first (fun w => wr_id w == id) f (workspaces r)).
End Registry.
