(* ===== verification/LocalBroker.v ===== *)
(** * LocalBroker: the device-local workspace broker (local-workspace-runtime, lib.rs)

    The broker's state is the registry in memory, the registry on disk, the open picker, the
    pending folder selections and the open read handles.  What the operating system answers is a
    [World], given to each operation anew: every call of the platform layer is numbered by its
    place in the operation, so that two calls of one operation may be answered differently.  A
    failed save may or may not have reached the disk, and the reload that follows may fail too. *)
From stdpp Require Import base gmap sets list strings pretty vector.
From Stdlib Require Import ZArith Lia Ascii.
From S2P Require Import Prelude Text Ordered Manifest Json AuditKinds AuditChain.
From S2P Require Import Base64 LocalRegistry.

Local Open Scope Z_scope.

Definition MAX_ENTRY_PAGE : Z := 100.
Definition MAX_READ_RANGE : Z := 1024 * 1024.
Definition MAX_SNAPSHOT_BYTES : Z := 8 * 1024 * 1024.
Definition MAX_CREATE_BYTES : Z := 8 * 1024 * 1024.
Definition MAX_READ_HANDLES : Z := 4.
Definition MAX_RETAINED_SNAPSHOT_BYTES : Z := 32 * 1024 * 1024.
Definition MAX_SCANNED_ENTRIES : Z := 10000.
Definition MAX_SELECTIONS : Z := 4.
Definition MAX_WORKSPACES : Z := 256.
Definition MAX_PENDING_CREATIONS : Z := 16.
Definition MAX_EXPLICIT_BINDINGS : Z := 32.
Definition MAX_LABEL_CHARS : Z := 80.
Definition MANAGED_DIR : string := "managed".

(** ** The platform layer, as the operations see it *)

Inductive FileKind : Type := KindDirectory | KindRegular | KindSymlink | KindOther.
#[global] Instance FileKind_eq_dec : EqDecision FileKind.
Proof. solve_decision. Defined.

Record Stat : Type := {
  st_dev : Z;
  st_ino : Z;
  st_kind : FileKind;
  st_nlink : Z;
  st_size : N;
  st_mtime : Z * Z;
  st_ctime : Z * Z;
  st_birth : option (Z * Z)
}.
#[global] Instance Stat_eq_dec : EqDecision Stat.
Proof. solve_decision. Defined.

Definition identity (s : Stat) : Z * Z := (st_dev s, st_ino s).

(** A directory pinned by its descriptor, and an open file. *)
Record Dir : Type := { dir_fd : Z; dir_stat : Stat }.
Record File : Type := { file_fd : Z }.

(** What became of a save: done, or failed with the new file in place or not, and read back or
    not. *)
Inductive SaveOutcome : Type := Saved | SaveFailed (written reloaded : bool).

(** The operating system's answers.  [w_read_at copy call file offset want] is what the first
    attempt of a read that is not interrupted returns (an interrupted one is repeated at once);
    the caller sees at most [want] bytes of it. *)
Record World : Type := {
  w_open_absolute : nat -> Path -> RuntimeResult Dir;
  w_open_child_dir : nat -> Dir -> string -> RuntimeResult Dir;
  w_make_private_child_dir : nat -> Dir -> string -> RuntimeResult unit;
  w_open_child_file : nat -> Dir -> string -> RuntimeResult (File * Stat);
  w_create_child_file : nat -> Dir -> string -> RuntimeResult File;
  w_stat_child : nat -> Dir -> string -> RuntimeResult Stat;
  w_unlink_child_file : nat -> Dir -> string -> RuntimeResult unit;
  w_entry_names : nat -> Dir -> Z -> RuntimeResult (list (list Z));
  w_fstat_file : nat -> File -> RuntimeResult Stat;
  w_filesystem_type : File -> RuntimeResult Z;
  w_acquire_lease : File -> RuntimeResult unit;
  w_lease_held : File -> bool;
  w_read_at : nat -> nat -> File -> nat -> nat -> RuntimeResult (list Z);
  w_write_all_durable : nat -> File -> list Z -> RuntimeResult unit;
  w_canonicalize : Path -> option Path;
  w_create_private_dir_all : nat -> Path -> RuntimeResult unit;
  w_acquire_lock : Path -> RuntimeResult unit;
  w_readable : bool;
  w_save : nat -> SaveOutcome;
  w_now : Z;
  w_random : nat -> string
}.

(** ** Values exchanged with callers *)

Record ContextRef : Type := { cx_revision : string; cx_workspace_id : string }.

Record LocalRef : Type := { lf_binding_id : string; lf_locator : list string }.

Record BindingView : Type := {
  bv_binding_id : string;
  bv_source : string;
  bv_label : string;
  bv_available : bool
}.

Record WorkspaceView : Type := {
  wv_workspace_id : string;
  wv_name : string;
  wv_revision : string;
  wv_effective_context_revision : string;
  wv_scope : string;
  wv_managed_binding_id : string;
  wv_bindings : list BindingView
}.

Record RuntimeWorkspaceReceipt : Type := {
  wrc_operation_id : string;
  wrc_workspace_id : string;
  wrc_managed_binding_id : string;
  wrc_runtime_revision : string
}.

Record WorkspaceCreated : Type := {
  created_receipt : RuntimeWorkspaceReceipt;
  created_workspace : WorkspaceView
}.

Inductive RuntimeWorkspaceOutcome : Type :=
| OutcomeReady (receipt : RuntimeWorkspaceReceipt)
| OutcomeNotFound
| OutcomeUnavailable
| OutcomeIsUnknown.

Record BindingReceipt : Type := {
  brc_operation_id : string;
  brc_binding_id : string;
  brc_runtime_revision : string
}.

Record BindingAttached : Type := {
  attached_receipt : BindingReceipt;
  attached_workspace : WorkspaceView
}.

Inductive EntryKind : Type := EntryFile | EntryDirectory.

Record Entry : Type := {
  en_locator : list string;
  en_name : string;
  en_kind : EntryKind;
  en_file_identity : string
}.

Record EntryPage : Type := {
  ep_entries : list Entry;
  ep_next_cursor : option string;
  ep_omitted_count : Z
}.

Record ReadHandle : Type := {
  rh_id : string;
  rh_content_generation : string;
  rh_size_bytes : Z
}.

Record BytePage : Type := {
  bp_bytes : list Z;
  bp_offset : Z;
  bp_content_generation : string;
  bp_eof : bool
}.

Record FileReceipt : Type := {
  fr_operation_id : string;
  fr_ref : LocalRef;
  fr_file_identity : string;
  fr_size_bytes : Z;
  fr_sha256 : string
}.

Record RuntimeOptions : Type := { handle_lease : Z; selection_ttl : Z }.

Record PickerTicket : Type := { pt_id : Z; pt_workspace_id : string }.

Record Selection : Type := {
  sel_workspace_id : string;
  sel_path : Path;
  sel_identity : Z * Z;
  sel_birth : option (Z * Z);
  sel_label : string;
  sel_created : Z
}.

Record HandleEntry : Type := {
  he_workspace_id : string;
  he_context_revision : string;
  he_binding_id : string;
  he_bytes : list Z;
  he_generation : string;
  he_expires : Z
}.

Section Broker.
Context {F : Floats} {D : Digest}.

(** serde_json: rendering, and the derived conversions of the stored receipts. *)
Context (json_text : Value -> string)
  (binding_receipt_value : BindingReceipt -> Value)
  (binding_receipt_from : Value -> option BindingReceipt)
  (file_receipt_value : FileReceipt -> Value)
  (file_receipt_from : Value -> option FileReceipt).

Record State : Type := {
  st_registry : RegistryFile;
  st_disk : RegistryFile;
  st_key : list ascii;
  st_picker : option Z;
  st_picker_sequence : Z;
  st_selections : gmap string Selection;
  st_handles : gmap string HandleEntry
}.

(** [LocalWorkspaceRuntime], less the state behind its lock. *)
Record Runtime : Type := {
  state_root : Path;
  state_identity : Z * Z;
  options : RuntimeOptions
}.

Definition set_registry (r disk : RegistryFile) (s : State) : State := {|
  st_registry := r; st_disk := disk; st_key := st_key s; st_picker := st_picker s;
  st_picker_sequence := st_picker_sequence s; st_selections := st_selections s;
  st_handles := st_handles s |}.
Definition set_picker (p : option Z) (n : Z) (s : State) : State := {|
  st_registry := st_registry s; st_disk := st_disk s; st_key := st_key s; st_picker := p;
  st_picker_sequence := n; st_selections := st_selections s; st_handles := st_handles s |}.
Definition set_selections (m : gmap string Selection) (s : State) : State := {|
  st_registry := st_registry s; st_disk := st_disk s; st_key := st_key s;
  st_picker := st_picker s; st_picker_sequence := st_picker_sequence s; st_selections := m;
  st_handles := st_handles s |}.
Definition set_handles (m : gmap string HandleEntry) (s : State) : State := {|
  st_registry := st_registry s; st_disk := st_disk s; st_key := st_key s;
  st_picker := st_picker s; st_picker_sequence := st_picker_sequence s;
  st_selections := st_selections s; st_handles := m |}.

(** ** Operations under the lock: a state and an error *)

Definition M (A : Type) : Type := State -> State * RuntimeResult A.

Definition ret {A} (a : A) : M A := fun s => (s, Ok a).
Definition lift {A} (r : RuntimeResult A) : M A := fun s => (s, r).
Definition fail {A} (e : RuntimeError) : M A := lift (Err e).
Definition get_state : M State := fun s => (s, Ok s).
Definition modify (f : State -> State) : M unit := fun s => (f s, Ok tt).
Definition bind {A B} (m : M A) (k : A -> M B) : M B := fun s =>
  match m s with
  | (s', Ok a) => k a s'
  | (s', Err e) => (s', Err e)
  end.
End Broker.

Declare Scope broker_scope.
Delimit Scope broker_scope with broker.
Notation "'let!' x := m 'in' k" := (bind m (fun x => k))
  (at level 200, x name, m at level 100, k at level 200, right associativity) : broker_scope.
Notation "'let!' ' p := m 'in' k" := (bind m (fun x => match x with p => k end))
  (at level 200, p pattern, m at level 100, k at level 200, right associativity) : broker_scope.
Notation "'do!' m 'in' k" := (bind m (fun _ => k))
  (at level 200, m at level 100, k at level 200, right associativity) : broker_scope.

Open Scope broker_scope.

Section Helpers.
Context {F : Floats} {D : Digest}.

Definition content_bytes (l : list Z) : list ascii := map ascii_of_byte l.

Definition sha256_hex (bs : list ascii) : string := to_hex (vec_to_list (sha256 bs)).

Definition random_id (w : World) (site : nat) (prefix : string) : string :=
  prefix +:+ w_random w site.

(** [u64::to_le_bytes] and [i64::to_le_bytes]. *)
Definition le64 (z : Z) : list ascii := be_bytes [0; 8; 16; 24; 32; 40; 48; 56] z.

Definition keyed (key : list ascii) (label : string) (parts : list (list ascii)) : string :=
  to_hex (take 16 (vec_to_list
    (sha256 (key ++ raw_bytes label ++ flat_map (fun p => le64 (len p) ++ p) parts)))).

Definition file_identity (key : list ascii) (stat : Stat) : string :=
  let '(birth_s, birth_ns) := unwrap_or (0, -1) (st_birth stat) in
  keyed key "file" [le64 (st_dev stat); le64 (st_ino stat); le64 birth_s; le64 birth_ns].

Definition operation_digest (json_text : Value -> string) (kind : OperationKind) (value : Value)
    : string :=
  sha256_hex (raw_bytes (json_text (VArray [VString (OperationKind_name kind); value]))).

Definition context_revision (record : WorkspaceRecord) : string :=
  "c" +:+ pretty (wr_revision_binding record).

Definition label_of (path : Path) : string :=
  of_chars (take (Z.to_nat MAX_LABEL_CHARS) (chars (unwrap_or "folder" (last path)))).

Definition not_found {A} : RuntimeResult A := Err (RuntimeError_new RNotFound).
Definition mismatch {A} : RuntimeResult A := err RConflict OperationMismatch.

Definition same_file (a b : Stat) : bool := (identity a == identity b) && (st_birth a == st_birth b).

(** [remove_own_file]: two platform calls, at [site] and [site + 1]. *)
Definition remove_own_file (w : World) (site : nat) (dir : Dir) (leaf : string) (created : Stat)
    : bool :=
  match w_stat_child w site dir leaf with
  | Ok current =>
      if same_file current created
      then match w_unlink_child_file w (S site) dir leaf with Ok _ => true | Err _ => false end
      else false
  | Err error => rt_code error == RNotFound
  end.

Definition stored_workspace_ids (op : OperationRecord) : RuntimeResult (string * string) :=
  let get_text key := v ← get (op_result op) key; as_str v in
  match get_text "workspaceId", get_text "managedBindingId" with
  | Some w, Some b => Ok (w, b)
  | _, _ => Err (RuntimeError_new ROutcomeUnknown)
  end.
End Helpers.

Section Operations.
Context {F : Floats} {D : Digest}.
Context (json_text : Value -> string)
  (binding_receipt_value : BindingReceipt -> Value)
  (binding_receipt_from : Value -> option BindingReceipt)
  (file_receipt_value : FileReceipt -> Value)
  (file_receipt_from : Value -> option FileReceipt).
Context (rt : Runtime) (w : World).

(** ** Views *)

Definition managed_path (binding_id : string) : Path := state_root rt ++ [MANAGED_DIR; binding_id].

Definition replaced : RuntimeError := RuntimeError_with RUnavailable FolderReplaced.

Definition open_binding_root (site : nat) (binding : BindingRecord) : RuntimeResult Dir :=
  let? path :=
    match br_source binding, br_path binding with
    | SourceManaged, _ => Ok (managed_path (br_id binding))
    | SourceExplicit, Some path => Ok path
    | SourceExplicit, None => Err replaced
    end in
  let? dir := map_err (fun _ => replaced) (w_open_absolute w site path) in
  if (identity (dir_stat dir) != (br_dev binding, br_ino binding))
     || (is_some (br_birth binding) && (st_birth (dir_stat dir) != br_birth binding))
  then Err replaced
  else Ok dir.

Definition view_binding (site : nat) (binding : BindingRecord) : BindingView := {|
  bv_binding_id := br_id binding;
  bv_source := match br_source binding with SourceManaged => "managed" | SourceExplicit => "explicit" end;
  bv_label := br_label binding;
  bv_available := is_ok (open_binding_root site binding)
|}.

Definition view (site : nat) (record : WorkspaceRecord) : WorkspaceView := {|
  wv_workspace_id := wr_id record;
  wv_name := wr_name record;
  wv_revision := "r" +:+ pretty (wr_revision record);
  wv_effective_context_revision := context_revision record;
  wv_scope := "principal_device_local";
  wv_managed_binding_id := wr_managed_binding_id record;
  wv_bindings := map (view_binding site) (wr_bindings record)
|}.

Definition write_failed : RuntimeError := RuntimeError_with ROutcomeUnknown RegistryWriteFailed.

(** [commit]: the registry is adopted when it was saved; after a failure memory mirrors what
    the disk holds, when that can be read. *)
Definition commit_registry (site : nat) (next : RegistryFile) : M unit := fun s =>
  match w_save w site with
  | Saved => (set_registry next next s, Ok tt)
  | SaveFailed written reloaded =>
      let disk := if written then next else st_disk s in
      (set_registry (if reloaded then disk else st_registry s) disk s, Err write_failed)
  end.

Definition check_context (s : State) (context : ContextRef) : RuntimeResult WorkspaceRecord :=
  match workspace (st_registry s) (cx_workspace_id context) with
  | None => not_found
  | Some record =>
      if context_revision record != cx_revision context
      then Err (RuntimeError_new RStaleContext)
      else Ok record
  end.

Definition list_workspaces : M (list WorkspaceView) :=
  let! s := get_state in
  ret (map (view 0) (workspaces (st_registry s))).

(** The record after a commit; its absence cannot be explained. *)
Definition committed_view (workspace_id : string) : M WorkspaceView :=
  let! s := get_state in
  lift (match workspace (st_registry s) workspace_id with
        | Some record => Ok (view 9 record)
        | None => Err (RuntimeError_new ROutcomeUnknown)
        end).

(** ** Workspaces *)

Definition managed_label : string := of_chars [0x7BA1; 0x7406; 0x30D5; 0x30A9; 0x30EB; 0x30C0; 0x30FC].

Definition complete_operation (r : RegistryFile) (id : string) : RegistryFile :=
  with_operations r
    (update_first (fun op => op_id op == id)
       (fun op => {| op_id := op_id op; op_kind := op_kind op; op_digest := op_digest op;
                     op_state := OpCompleted; op_result := op_result op |}) (operations r)).

Definition new_workspace (workspace_id managed_binding_id name : string) (root : Dir)
    : WorkspaceRecord := {|
  wr_id := workspace_id;
  wr_name := name;
  wr_revision := 1;
  wr_revision_binding := 0;
  wr_managed_binding_id := managed_binding_id;
  wr_bindings :=
    [{| br_id := managed_binding_id;
        br_source := SourceManaged;
        br_label := managed_label;
        br_path := None;
        br_dev := st_dev (dir_stat root);
        br_ino := st_ino (dir_stat root);
        br_birth := st_birth (dir_stat root) |}]
|}.

(** The managed root, made when it is not there and opened without following links. *)
Definition managed_root (managed_binding_id : string) : RuntimeResult Dir :=
  let? managed_parent := w_open_absolute w 1 (state_root rt ++ [MANAGED_DIR]) in
  try? match w_make_private_child_dir w 2 managed_parent managed_binding_id with
       | Ok _ => Ok tt
       | Err error => if rt_reason error == Some AlreadyExists then Ok tt else Err error
       end in
  w_open_child_dir w 3 managed_parent managed_binding_id.

Definition complete_workspace_creation (operation_id workspace_id managed_binding_id : string)
    : M WorkspaceCreated :=
  let receipt := {| wrc_operation_id := operation_id;
                    wrc_workspace_id := workspace_id;
                    wrc_managed_binding_id := managed_binding_id;
                    wrc_runtime_revision := "1" |} in
  let! s := get_state in
  let done :=
    is_some_and (operation (st_registry s) operation_id) (fun op => op_state op == OpCompleted) in
  match workspace (st_registry s) workspace_id, done with
  | Some record, true => ret {| created_receipt := receipt; created_workspace := view 4 record |}
  | _, _ =>
      let name :=
        unwrap_or "" (op ← operation (st_registry s) operation_id;
                      v ← get (op_result op) "name"; as_str v) in
      let! root := lift (managed_root managed_binding_id) in
      let next :=
        if is_none (workspace (st_registry s) workspace_id)
        then with_workspaces (st_registry s)
               (workspaces (st_registry s)
                ++ [new_workspace workspace_id managed_binding_id name root])
        else st_registry s in
      do! commit_registry 5 (complete_operation next operation_id) in
      let! v := committed_view workspace_id in
      ret {| created_receipt := receipt; created_workspace := v |}
  end.

Definition pending_creation (op : OperationRecord) : bool :=
  (op_kind op == CreateWorkspace) && (op_state op == OpPending).

Definition create_workspace (raw_name operation_id : string) : M WorkspaceCreated :=
  do! lift (validate_operation_id operation_id) in
  let! name := lift (normalize_workspace_name raw_name) in
  let digest := operation_digest json_text CreateWorkspace (VString name) in
  let! s := get_state in
  let! '(workspace_id, managed_binding_id) :=
    match operation (st_registry s) operation_id with
    | Some op =>
        if (op_kind op != CreateWorkspace) || (op_digest op != digest) then lift mismatch
        else lift (stored_workspace_ids op)
    | None =>
        if (MAX_WORKSPACES <=? len (workspaces (st_registry s)))
           || (MAX_PENDING_CREATIONS <=? count pending_creation (operations (st_registry s)))
        then lift (err RLimit TooMany)
        else
          let ids := (random_id w 0 "w_", random_id w 1 "b_") in
          do! commit_registry 0
                (upsert_operation (st_registry s)
                   {| op_id := operation_id;
                      op_kind := CreateWorkspace;
                      op_digest := digest;
                      op_state := OpPending;
                      op_result := VObject [("workspaceId", VString ids.1);
                                            ("managedBindingId", VString ids.2);
                                            ("name", VString name)] |}) in
          ret ids
    end in
  complete_workspace_creation operation_id workspace_id managed_binding_id.

Definition recover_workspace (operation_id : string) (s : State)
    : State * RuntimeWorkspaceOutcome :=
  match validate_operation_id operation_id with
  | Err _ => (s, OutcomeNotFound)
  | Ok _ =>
      match operation (st_registry s) operation_id with
      | Some op =>
          if op_kind op != CreateWorkspace then (s, OutcomeNotFound)
          else
            match stored_workspace_ids op with
            | Err _ => (s, OutcomeIsUnknown)
            | Ok (workspace_id, managed_binding_id) =>
                match complete_workspace_creation operation_id workspace_id managed_binding_id s with
                | (s', Ok created) => (s', OutcomeReady (created_receipt created))
                | (s', Err error) =>
                    (s', if rt_code error == ROutcomeUnknown then OutcomeIsUnknown
                         else OutcomeUnavailable)
                end
            end
      | None => (s, OutcomeNotFound)
      end
  end.

Definition renamed (name : string) (record : WorkspaceRecord) : WorkspaceRecord := {|
  wr_id := wr_id record;
  wr_name := name;
  wr_revision := wr_revision record + 1;
  wr_revision_binding := wr_revision_binding record;
  wr_managed_binding_id := wr_managed_binding_id record;
  wr_bindings := wr_bindings record
|}.

(** [Completed], for the operations whose result is [Null]. *)
Definition completed_record (operation_id digest : string) (kind : OperationKind) (result : Value)
    : OperationRecord :=
  {| op_id := operation_id; op_kind := kind; op_digest := digest; op_state := OpCompleted;
     op_result := result |}.

(** A retry of a finished rename or detach answers with the current view. *)
Definition retried_view (op : OperationRecord) (kind : OperationKind) (digest workspace_id : string)
    : M WorkspaceView :=
  if (op_kind op != kind) || (op_digest op != digest) then lift mismatch
  else
    let! s := get_state in
    lift (match workspace (st_registry s) workspace_id with
          | None => not_found
          | Some record => Ok (view 8 record)
          end).

Definition rename_workspace (context : ContextRef) (raw_name operation_id : string)
    : M WorkspaceView :=
  do! lift (validate_operation_id operation_id) in
  let! name := lift (normalize_workspace_name raw_name) in
  let digest :=
    operation_digest json_text RenameWorkspace
      (VArray [VString (cx_workspace_id context); VString name]) in
  let! s := get_state in
  match operation (st_registry s) operation_id with
  | Some op => retried_view op RenameWorkspace digest (cx_workspace_id context)
  | None =>
      do! lift (check_context s context) in
      let next := update_workspace (st_registry s) (cx_workspace_id context) (renamed name) in
      do! commit_registry 0
            (upsert_operation next (completed_record operation_id digest RenameWorkspace VNull)) in
      committed_view (cx_workspace_id context)
  end.

(** ** Folder selection *)

Definition begin_directory_selection (context : ContextRef) : M PickerTicket :=
  let! s := get_state in
  do! lift (check_context s context) in
  if is_some (st_picker s) then lift (err RConflict PickerBusy)
  else
    let id := st_picker_sequence s + 1 in
    do! modify (set_picker (Some id) id) in
    ret {| pt_id := id; pt_workspace_id := cx_workspace_id context |}.

Definition unexpired (now : Z) (sel : Selection) : bool :=
  now - sel_created sel <? selection_ttl (options rt).

(** [min_by_key(|s| s.created)]: the first of the oldest in iteration order. *)
Definition older_of (best : option (string * Selection)) (e : string * Selection)
    : option (string * Selection) :=
  match best with
  | None => Some e
  | Some b => if sel_created e.2 <? sel_created b.2 then Some e else Some b
  end.

Definition oldest (m : gmap string Selection) : option string :=
  option_map fst (fold_left older_of (map_to_list m) None).

(** [while len >= MAX_SELECTIONS]: one selection is dropped per turn. *)
Fixpoint make_room (fuel : nat) (m : gmap string Selection) : gmap string Selection :=
  match fuel with
  | O => m
  | S fuel =>
      if Z.of_nat (size m) <? MAX_SELECTIONS then m
      else
        match oldest m with
        | Some id => make_room fuel (delete id m)
        | None => m
        end
  end.

(** [Path::starts_with]. *)
Definition path_starts_with (p prefix : Path) : bool := take (length prefix) p == prefix.

Definition finish_directory_selection (ticket : PickerTicket) (chosen : option Path)
    : M (option string) :=
  let! s := get_state in
  if st_picker s != Some (pt_id ticket) then lift (err RConflict PickerBusy)
  else
    do! modify (set_picker None (st_picker_sequence s)) in
    match chosen with
    | None => ret None
    | Some chosen =>
        if is_none (workspace (st_registry s) (pt_workspace_id ticket)) then lift not_found
        else
          let! canonical := lift (ok_or (w_canonicalize w chosen) (RuntimeError_new RNotFound)) in
          if path_starts_with canonical (state_root rt) then lift (err RDenied ProtectedLocation)
          else
            let! dir := lift (w_open_absolute w 0 canonical) in
            let kept := filter (fun e => unexpired (w_now w) e.2 = true) (st_selections s) in
            let roomy := make_room (size kept) kept in
            let selection_id := random_id w 0 "s_" in
            do! modify (set_selections
                  (<[selection_id :=
                     {| sel_workspace_id := pt_workspace_id ticket;
                        sel_path := canonical;
                        sel_identity := identity (dir_stat dir);
                        sel_birth := st_birth (dir_stat dir);
                        sel_label := label_of canonical;
                        sel_created := w_now w |}]> roomy)) in
            ret (Some selection_id)
    end.

Definition with_bindings (bindings : list BindingRecord) (record : WorkspaceRecord)
    : WorkspaceRecord := {|
  wr_id := wr_id record;
  wr_name := wr_name record;
  wr_revision := wr_revision record + 1;
  wr_revision_binding := wr_revision_binding record + 1;
  wr_managed_binding_id := wr_managed_binding_id record;
  wr_bindings := bindings
|}.

(** What a binding of the selected folder must pass: the folder is still the one picked, and
    the workspace has room for it. *)
Definition check_attach (chosen : Selection) (record : WorkspaceRecord) : RuntimeResult unit :=
  let? dir := w_open_absolute w 0 (sel_path chosen) in
  if (identity (dir_stat dir) != sel_identity chosen)
     || (st_birth (dir_stat dir) != sel_birth chosen)
     || (sel_identity chosen == state_identity rt)
  then err RConflict FolderReplaced
  else if existsb (fun b => (br_dev b, br_ino b) == sel_identity chosen) (wr_bindings record)
  then err RConflict AlreadyBound
  else if MAX_EXPLICIT_BINDINGS
          <=? count (fun b => br_source b == SourceExplicit) (wr_bindings record)
  then err RLimit TooMany
  else Ok tt.

Definition attach_directory (context : ContextRef) (selection_id operation_id : string)
    : M BindingAttached :=
  do! lift (validate_operation_id operation_id) in
  let digest :=
    operation_digest json_text AttachDirectory
      (VArray [VString (cx_workspace_id context); VString selection_id]) in
  let! s := get_state in
  match operation (st_registry s) operation_id with
  | Some op =>
      if (op_kind op != AttachDirectory) || (op_digest op != digest) then lift mismatch
      else
        let! receipt :=
          lift (ok_or (binding_receipt_from (op_result op)) (RuntimeError_new ROutcomeUnknown)) in
        lift (match workspace (st_registry s) (cx_workspace_id context) with
              | None => not_found
              | Some record =>
                  Ok {| attached_receipt := receipt; attached_workspace := view 8 record |}
              end)
  | None =>
      let! record := lift (check_context s context) in
      let! chosen :=
        lift (ok_or (opt_filter (fun sel => (sel_workspace_id sel == cx_workspace_id context)
                                            && unexpired (w_now w) sel)
                       (st_selections s !! selection_id))
                (RuntimeError_with RNotFound SelectionExpired)) in
      do! lift (check_attach chosen record) in
      let binding_id := random_id w 0 "b_" in
      let binding := {| br_id := binding_id;
                        br_source := SourceExplicit;
                        br_label := sel_label chosen;
                        br_path := Some (sel_path chosen);
                        br_dev := (sel_identity chosen).1;
                        br_ino := (sel_identity chosen).2;
                        br_birth := sel_birth chosen |} in
      let next :=
        update_workspace (st_registry s) (cx_workspace_id context)
          (fun record => with_bindings (wr_bindings record ++ [binding]) record) in
      let receipt := {| brc_operation_id := operation_id;
                        brc_binding_id := binding_id;
                        brc_runtime_revision := "r" +:+ pretty (wr_revision record + 1) |} in
      do! commit_registry 0
            (upsert_operation next
               (completed_record operation_id digest AttachDirectory
                  (binding_receipt_value receipt))) in
      do! modify (fun s => set_selections (delete selection_id (st_selections s)) s) in
      let! v := committed_view (cx_workspace_id context) in
      ret {| attached_receipt := receipt; attached_workspace := v |}
  end.

Definition detach_directory (context : ContextRef) (binding_id operation_id : string)
    : M WorkspaceView :=
  do! lift (validate_operation_id operation_id) in
  let digest :=
    operation_digest json_text DetachDirectory
      (VArray [VString (cx_workspace_id context); VString binding_id]) in
  let! s := get_state in
  match operation (st_registry s) operation_id with
  | Some op => retried_view op DetachDirectory digest (cx_workspace_id context)
  | None =>
      let! record := lift (check_context s context) in
      match find (fun b => br_id b == binding_id) (wr_bindings record) with
      | None => lift not_found
      | Some b =>
          if br_source b == SourceManaged then lift (err RDenied ManagedBinding)
          else
            let next :=
              update_workspace (st_registry s) (cx_workspace_id context)
                (fun record =>
                   with_bindings (List.filter (fun b => br_id b != binding_id) (wr_bindings record))
                     record) in
            do! commit_registry 0
                  (upsert_operation next
                     (completed_record operation_id digest DetachDirectory VNull)) in
            do! modify (fun s =>
                  set_handles (filter (fun e => he_binding_id e.2 <> binding_id) (st_handles s)) s) in
            committed_view (cx_workspace_id context)
      end
  end.
End Operations.
