(* ===== verification/LocalFiles.v ===== *)
(** * LocalFiles: confined resource access of the local broker (lib.rs), and its runs

    Listing and reading below a binding, the crash-safe creation of a file, opening the broker,
    and the sequences of operations and restarts a device goes through.  The calls of the
    platform layer are numbered as in LocalBroker: the directory names of a locator follow each
    other, and what a creation looks up again at its end has numbers of its own. *)
From stdpp Require Import base gmap sets list strings pretty vector.
From Stdlib Require Import ZArith Lia Ascii.
From S2P Require Import Prelude Text Ordered Manifest Json AuditKinds AuditChain.
From S2P Require Import AuditCatalog Base64 LocalRegistry LocalBroker.

Local Open Scope Z_scope.

(** ** Hexadecimal names *)

Definition hex_value (b : Z) : option Z :=
  if in_range 48 57 b then Some (b - 48)
  else if in_range 97 102 b then Some (b - 97 + 10)
  else if in_range 65 70 b then Some (b - 65 + 10)
  else None.

(** [u8::from_str_radix(_, 16)] of two bytes: a plus sign before one digit is accepted. *)
Definition byte_from_hex (hi lo : Z) : option Z :=
  if hi =? 43 then hex_value lo
  else
    match hex_value hi, hex_value lo with
    | Some h, Some l => Some (16 * h + l)
    | _, _ => None
    end.

Fixpoint unhex_pairs (bs : list Z) : option (list Z) :=
  match bs with
  | [] => Some []
  | hi :: lo :: rest =>
      match byte_from_hex hi lo, unhex_pairs rest with
      | Some b, Some r => Some (b :: r)
      | _, _ => None
      end
  | [_] => None
  end.

Definition unhex (text : string) : option (list Z) := unhex_pairs (bytes text).

Definition hex (bs : list Z) : string := to_hex (content_bytes bs).

(** [partition_point(|name| *name <= after)] of the sorted names: a binary search, which on a
    list partitioned by the predicate counts the elements that satisfy it. *)
Definition partition_point (after : list Z) (names : list (list Z)) : nat :=
  length (List.filter (fun n => bool_decide (ord_le n after)) names).

(** [serde_json::json!] of a reference. *)
Definition local_ref_value {F : Floats} (r : LocalRef) : Value :=
  VObject [("bindingId", VString (lf_binding_id r));
           ("locator", VArray (map VString (lf_locator r)))].

Section Files.
Context {F : Floats} {D : Digest}.
Context (json_text : Value -> string)
  (file_receipt_value : FileReceipt -> Value)
  (file_receipt_from : Value -> option FileReceipt).
Context (rt : Runtime) (w : World).

(** ** Reaching a place below a binding *)

Definition binding (record : WorkspaceRecord) (binding_id : string) : RuntimeResult BindingRecord :=
  ok_or (find (fun b => br_id b == binding_id) (wr_bindings record)) (RuntimeError_new RNotFound).

Fixpoint walk (site : nat) (current : Dir) (locator : list string) : RuntimeResult Dir :=
  match locator with
  | [] => Ok current
  | name :: rest =>
      let? next := w_open_child_dir w site current name in
      if identity (dir_stat next) == state_identity rt then err RDenied ProtectedLocation
      else walk (S site) next rest
  end.

(** [slice::split_last]. *)
Definition split_last (l : list string) : option (string * list string) :=
  match last l with
  | Some x => Some (x, take (length l - 1) l)
  | None => None
  end.

Definition open_parent (site : nat) (record : WorkspaceRecord) (target : LocalRef)
    : RuntimeResult (Dir * string) :=
  try? validate_locator (lf_locator target) in
  match split_last (lf_locator target) with
  | None => err RInvalidLocator InvalidName
  | Some (name, parents) =>
      let? b := binding record (lf_binding_id target) in
      let? root := open_binding_root rt w site b in
      let? parent := walk site root parents in
      Ok (parent, name)
  end.

(** ** Listing *)

Definition invalid_cursor : RuntimeError := RuntimeError_with RInvalidLocator InvalidCursor.

Definition cursor_tag (key : list ascii) (dir : Dir) : string :=
  keyed key "cursor" [le64 (st_dev (dir_stat dir)); le64 (st_ino (dir_stat dir))].

Definition cursor_after (tag : string) (cursor : option string)
    : RuntimeResult (option (list Z)) :=
  match cursor with
  | None => Ok None
  | Some cursor =>
      let? '(found, name) := ok_or (split_once_byte 46 cursor) invalid_cursor in
      if found != tag then Err invalid_cursor
      else let? after := ok_or (unhex name) invalid_cursor in Ok (Some after)
  end.

(** What the loop does with one name: an entry, one more omission, or neither (the protected
    directory itself). *)
Inductive Listed : Type := ListedEntry (e : Entry) | ListedOmitted | ListedHidden.

Definition list_name (key : list ascii) (dir : Dir) (locator : list string) (index : nat)
    (raw : list Z) : Listed :=
  match opt_filter (fun n => is_ok (validate_name n)) (from_utf8 raw) with
  | None => ListedOmitted
  | Some name =>
      match w_stat_child w index dir name with
      | Err _ => ListedOmitted
      | Ok stat =>
          let entry kind := ListedEntry {| en_locator := locator ++ [name];
                                           en_name := name;
                                           en_kind := kind;
                                           en_file_identity := file_identity key stat |} in
          match st_kind stat with
          | KindDirectory =>
              if identity stat == state_identity rt then ListedHidden else entry EntryDirectory
          | KindRegular => entry EntryFile
          | KindSymlink | KindOther => ListedOmitted
          end
      end
  end.

(** The loop from [index] on; [previous] is the name before [index], [room] the number of
    entries the page still takes. *)
Fixpoint list_loop (key : list ascii) (dir : Dir) (locator : list string) (tag : string)
    (index : nat) (previous : list Z) (room : nat) (names : list (list Z)) : EntryPage :=
  match names with
  | [] => {| ep_entries := []; ep_next_cursor := None; ep_omitted_count := 0 |}
  | raw :: rest =>
      match room with
      | O => {| ep_entries := [];
                ep_next_cursor := Some (tag +:+ "." +:+ hex previous);
                ep_omitted_count := 0 |}
      | S more =>
          match list_name key dir locator index raw with
          | ListedEntry e =>
              let page := list_loop key dir locator tag (S index) raw more rest in
              {| ep_entries := e :: ep_entries page;
                 ep_next_cursor := ep_next_cursor page;
                 ep_omitted_count := ep_omitted_count page |}
          | ListedOmitted =>
              let page := list_loop key dir locator tag (S index) raw room rest in
              {| ep_entries := ep_entries page;
                 ep_next_cursor := ep_next_cursor page;
                 ep_omitted_count := ep_omitted_count page + 1 |}
          | ListedHidden => list_loop key dir locator tag (S index) raw room rest
          end
      end
  end.

Definition list_page (key : list ascii) (dir : Dir) (locator : list string) (tag : string)
    (after : option (list Z)) (scanned : list (list Z)) : EntryPage :=
  let names := sort scanned in
  let start := match after with None => O | Some after => partition_point after names end in
  list_loop key dir locator tag start (unwrap_or [] (last (take start names)))
    (Z.to_nat MAX_ENTRY_PAGE) (drop start names).

Definition list_entries (context : ContextRef) (target : LocalRef) (cursor : option string)
    : M EntryPage :=
  do! lift (validate_locator (lf_locator target)) in
  let! s := get_state in
  let! record := lift (check_context s context) in
  let! b := lift (binding record (lf_binding_id target)) in
  let! root := lift (open_binding_root rt w 0 b) in
  let! dir := lift (walk 0 root (lf_locator target)) in
  let tag := cursor_tag (st_key s) dir in
  let! after := lift (cursor_after tag cursor) in
  let! scanned := lift (w_entry_names w 0 dir MAX_SCANNED_ENTRIES) in
  ret (list_page (st_key s) dir (lf_locator target) tag after scanned).

(** ** Reading a snapshot (platform_unix.rs on Linux) *)

Definition LOCAL_CAPTURE_FILESYSTEMS : list Z :=
  [0xEF53; 0x58465342; 0x9123683E; 0x01021994; 0xF2F52010; 0x4d44; 0x2011BAB0; 0x7366746E;
   0x2FC12FC1; 0xCA451A4E].

Definition changed : RuntimeError := RuntimeError_with RConflict ConcurrentChange.

(** One [read_at] into the rest of the buffer. *)
Definition read_at (copy call : nat) (file : File) (offset want : nat) : RuntimeResult (list Z) :=
  let? bs := w_read_at w copy call file offset want in Ok (take want bs).

(** [while filled < buffer.len()]: every turn fills at least one byte, so [size] turns do. *)
Fixpoint read_loop (copy : nat) (file : File) (fuel call offset want : nat)
    : RuntimeResult (list Z) :=
  match fuel with
  | O => Ok []
  | S fuel =>
      match want with
      | O => Ok []
      | _ =>
          let? bs := read_at copy call file offset want in
          match bs with
          | [] => Err changed
          | _ =>
              let? rest :=
                read_loop copy file fuel (S call) (offset + length bs) (want - length bs) in
              Ok (bs ++ rest)
          end
      end
  end.

(** [read_all_at]: the bytes of the observed size, and nothing after them. *)
Definition read_all_at (copy : nat) (file : File) (size : N) : RuntimeResult (list Z) :=
  let n := N.to_nat size in
  let? bs := read_loop copy file n 1 0 n in
  let? probe := read_at copy 0 file n 1 in
  match probe with [] => Ok bs | _ => Err changed end.

(** [read_stable]: two complete copies between three equal observations, under a lease. *)
Definition read_stable (file : File) (first : Stat) : RuntimeResult (list Z) :=
  let? fs := w_filesystem_type w file in
  if negb (contains LOCAL_CAPTURE_FILESYSTEMS fs) then err RUnavailable SafeCaptureUnavailable
  else
    try? w_acquire_lease w file in
    let? s1 := w_fstat_file w 10 file in
    if s1 != first then Err changed
    else
      let? a := read_all_at 0 file (st_size first) in
      let? s2 := w_fstat_file w 11 file in
      if s2 != first then Err changed
      else
        let? b := read_all_at 1 file (st_size first) in
        let? s3 := w_fstat_file w 12 file in
        if (s3 != first) || (a != b) || negb (w_lease_held w file) then Err changed
        else Ok a.

Definition handle_live (now : Z) (r : RegistryFile) (h : HandleEntry) : bool :=
  (now <? he_expires h)
  && is_some_and (workspace r (he_workspace_id h))
       (fun rec => context_revision rec == he_context_revision h).

(** [values().map(|h| h.bytes.len()).sum()]. *)
Definition retained_bytes (m : gmap string HandleEntry) : Z :=
  map_fold (fun _ h n => len (he_bytes h) + n) 0 m.

Definition generation_of (key : list ascii) (stat : Stat) (content : list Z) : string :=
  keyed key "generation"
    [raw_bytes (file_identity key stat); le64 (Z.of_N (st_size stat));
     le64 (st_mtime stat).1; le64 (st_mtime stat).2;
     le64 (st_ctime stat).1; le64 (st_ctime stat).2;
     vec_to_list (sha256 (content_bytes content))].

Definition open_read (context : ContextRef) (target : LocalRef) (expected_file_identity : string)
    : M ReadHandle :=
  let! s := get_state in
  let! record := lift (check_context s context) in
  let! '(parent, name) := lift (open_parent 0 record target) in
  let! '(file, stat) := lift (w_open_child_file w 0 parent name) in
  if negb (st_nlink stat =? 1) then lift (err RDenied LinkedFile)
  else if MAX_SNAPSHOT_BYTES <? Z.of_N (st_size stat) then lift (err RLimit TooLarge)
  else if file_identity (st_key s) stat != expected_file_identity
  then lift (err RConflict ConcurrentChange)
  else
    let live := filter (fun e => handle_live (w_now w) (st_registry s) e.2 = true) (st_handles s) in
    do! modify (set_handles live) in
    if (MAX_READ_HANDLES <=? Z.of_nat (size live))
       || (MAX_RETAINED_SNAPSHOT_BYTES <? retained_bytes live + Z.of_N (st_size stat))
    then lift (err RLimit TooMany)
    else
      let! content := lift (read_stable file stat) in
      let generation := generation_of (st_key s) stat content in
      let read_handle_id := random_id w 0 "h_" in
      do! modify (set_handles
            (<[read_handle_id :=
               {| he_workspace_id := cx_workspace_id context;
                  he_context_revision := cx_revision context;
                  he_binding_id := lf_binding_id target;
                  he_bytes := content;
                  he_generation := generation;
                  he_expires := w_now w + handle_lease (options rt) |}]> live)) in
      ret {| rh_id := read_handle_id;
             rh_content_generation := generation;
             rh_size_bytes := len content |}.

Definition u64_max : Z := 2 ^ 64 - 1.
Definition saturating_add_u64 (a b : Z) : Z := Z.min (a + b) u64_max.

Definition read_file (context : ContextRef) (read_handle_id : string) (offset length : Z)
    : M BytePage :=
  let! s := get_state in
  do! lift (check_context s context) in
  if (length =? 0) || (MAX_READ_RANGE <? length) then lift (err RLimit TooLarge)
  else
    let fresh := filter (fun e => (w_now w <? he_expires e.2) = true) (st_handles s) in
    do! modify (set_handles fresh) in
    match fresh !! read_handle_id with
    | None => lift (err RNotFound HandleExpired)
    | Some handle =>
        if (he_workspace_id handle != cx_workspace_id context)
           || (he_context_revision handle != cx_revision context)
        then lift not_found
        else
          let size := len (he_bytes handle) in
          if size <? offset then lift (err RInvalidLocator TooLarge)
          else
            let end_ := Z.min (saturating_add_u64 offset length) size in
            ret {| bp_bytes :=
                     take (Z.to_nat (end_ - offset)) (drop (Z.to_nat offset) (he_bytes handle));
                   bp_offset := offset;
                   bp_content_generation := he_generation handle;
                   bp_eof := end_ =? size |}
    end.

Definition close_read (context : ContextRef) (read_handle_id : string) : M unit :=
  modify (fun s =>
    if is_some_and (st_handles s !! read_handle_id)
         (fun h => he_workspace_id h == cx_workspace_id context)
    then set_handles (delete read_handle_id (st_handles s)) s
    else s).

(** ** Creating a file *)

Definition file_receipt (s : State) (operation_id : string) (target : LocalRef) (stat : Stat)
    (content_sha256 : string) : FileReceipt := {|
  fr_operation_id := operation_id;
  fr_ref := target;
  fr_file_identity := file_identity (st_key s) stat;
  fr_size_bytes := Z.of_N (st_size stat);
  fr_sha256 := content_sha256
|}.

Definition complete_create (operation_id digest : string) (receipt : FileReceipt)
    : M FileReceipt :=
  let! s := get_state in
  do! commit_registry w 2
        (upsert_operation (st_registry s)
           (completed_record operation_id digest CreateFile (file_receipt_value receipt))) in
  ret receipt.

Definition outcome_unknown : RuntimeError := RuntimeError_new ROutcomeUnknown.

(** [abandon]: the error, when our own file is known to be gone. *)
Definition abandon (site : nat) (dir : Dir) (leaf : string) (created : option Stat)
    (error : RuntimeError) : RuntimeError :=
  if is_some_and created (remove_own_file w site dir leaf) then error else outcome_unknown.

Definition record_identity (r : RegistryFile) (operation_id id : string) : RegistryFile :=
  with_operations r
    (update_first (fun op => op_id op == operation_id)
       (fun op => {| op_id := op_id op; op_kind := op_kind op; op_digest := op_digest op;
                     op_state := op_state op;
                     op_result := VObject [("fileIdentity", VString id)] |}) (operations r)).

Definition create_new_file (context : ContextRef) (target : LocalRef) (content : list Z)
    (content_sha256 operation_id : string) : M FileReceipt :=
  let! s := get_state in
  let! record :=
    lift (ok_or (workspace (st_registry s) (cx_workspace_id context)) (RuntimeError_new RNotFound)) in
  let! '(dir, leaf) := lift (open_parent 100 record target) in
  let! file := lift (w_create_child_file w 0 dir leaf) in
  match w_fstat_file w 0 file with
  | Err error => lift (Err (abandon 10 dir leaf None error))
  | Ok created =>
      let next := record_identity (st_registry s) operation_id (file_identity (st_key s) created) in
      fun s0 =>
        match commit_registry w 1 next s0 with
        | (s1, Err _) =>
            (s1, Err (abandon 20 dir leaf (Some created)
                        (RuntimeError_with RUnavailable RegistryWriteFailed)))
        | (s1, Ok _) =>
            match w_write_all_durable w 0 file content with
            | Err error => (s1, Err (abandon 30 dir leaf (Some created) error))
            | Ok _ =>
                if negb (is_ok_and (open_parent 200 record target)
                           (fun again => identity (dir_stat again.1) == identity (dir_stat dir)))
                then (s1, Err (abandon 40 dir leaf (Some created)
                                 (RuntimeError_with RConflict ConcurrentChange)))
                else if negb (is_ok_and (w_stat_child w 50 dir leaf)
                                (fun now => same_file now created))
                then (s1, Err outcome_unknown)
                else
                  match w_fstat_file w 1 file with
                  | Err _ => (s1, Err outcome_unknown)
                  | Ok stat =>
                      (s1, Ok (file_receipt s1 operation_id target stat content_sha256))
                  end
            end
        end
  end.

(** Create anew and record the outcome; a definite failure forgets the attempt, whether or not
    that can be saved. *)
Definition create_and_record (context : ContextRef) (target : LocalRef) (content : list Z)
    (content_sha256 operation_id digest : string) : M FileReceipt := fun s =>
  match create_new_file context target content content_sha256 operation_id s with
  | (s1, Ok receipt) => complete_create operation_id digest receipt s1
  | (s1, Err error) =>
      if rt_code error == ROutcomeUnknown then (s1, Err error)
      else
        let next :=
          with_operations (st_registry s1)
            (List.filter (fun op => op_id op != operation_id) (operations (st_registry s1))) in
        ((commit_registry w 3 next s1).1, Err error)
  end.

(** A retry of a completed creation: the receipt, while the file is still the one recorded. *)
Definition retry_completed (s : State) (context : ContextRef) (target : LocalRef)
    (op : OperationRecord) : RuntimeResult FileReceipt :=
  let? receipt := ok_or (file_receipt_from (op_result op)) outcome_unknown in
  let? record :=
    ok_or (workspace (st_registry s) (cx_workspace_id context)) (RuntimeError_new RNotFound) in
  let? '(dir, leaf) := open_parent 0 record target in
  let? current := w_stat_child w 0 dir leaf in
  if file_identity (st_key s) current != fr_file_identity receipt
  then err RConflict ConcurrentChange
  else Ok receipt.

(** [bytes.starts_with(&content)]. *)
Definition starts_with (content prefix : list Z) : bool := take (length prefix) content == prefix.

(** What a retry of a pending creation finds under the name: nothing (create it), the complete
    file (with its attributes), or an interrupted write of ours, now removed (create it). *)
Definition retry_pending (s : State) (context : ContextRef) (target : LocalRef)
    (content : list Z) (content_sha256 : string) (op : OperationRecord)
    : RuntimeResult (option Stat) :=
  let? record := check_context s context in
  let? '(dir, leaf) := open_parent 0 record target in
  let recorded := v ← get (op_result op) "fileIdentity"; as_str v in
  match w_stat_child w 0 dir leaf with
  | Err error => if rt_code error == RNotFound then Ok None else Err error
  | Ok existing =>
      if negb (is_some_and recorded (fun id => id == file_identity (st_key s) existing))
      then err RConflict AlreadyExists
      else
        let? '(file, stat) := w_open_child_file w 0 dir leaf in
        let? found := read_stable file stat in
        if (st_nlink stat =? 1) && (sha256_hex (content_bytes found) == content_sha256)
        then Ok (Some stat)
        else if (len content <=? len found) || negb (starts_with content found)
        then err RConflict ConcurrentChange
        else if negb (remove_own_file w 1 dir leaf existing) then Err outcome_unknown
        else Ok None
  end.

Definition create_file (context : ContextRef) (parent : LocalRef) (name : string)
    (content : list Z) (operation_id : string) : M FileReceipt :=
  do! lift (validate_operation_id operation_id) in
  do! lift (validate_locator (lf_locator parent)) in
  do! lift (validate_name name) in
  if MAX_CREATE_BYTES <? len content then lift (err RLimit TooLarge)
  else
    let target := {| lf_binding_id := lf_binding_id parent;
                     lf_locator := lf_locator parent ++ [name] |} in
    do! lift (validate_locator (lf_locator target)) in
    let content_sha256 := sha256_hex (content_bytes content) in
    let digest :=
      operation_digest json_text CreateFile
        (VArray [VString (cx_workspace_id context); local_ref_value target;
                 VString content_sha256; VNumber (NInt (len content))]) in
    let! s := get_state in
    let create := create_and_record context target content content_sha256 operation_id digest in
    match operation (st_registry s) operation_id with
    | Some op =>
        if (op_kind op != CreateFile) || (op_digest op != digest) then lift mismatch
        else if op_state op == OpCompleted then lift (retry_completed s context target op)
        else
          let! found := lift (retry_pending s context target content content_sha256 op) in
          match found with
          | Some stat =>
              complete_create operation_id digest
                (file_receipt s operation_id target stat content_sha256)
          | None => create
          end
    | None =>
        do! lift (check_context s context) in
        let next :=
          upsert_operation (st_registry s)
            {| op_id := operation_id; op_kind := CreateFile; op_digest := digest;
               op_state := OpPending; op_result := VNull |} in
        do! (fun s0 =>
               match commit_registry w 0 next s0 with
               | (s1, Ok _) => (s1, Ok tt)
               | (s1, Err _) => (s1, Err (RuntimeError_with RUnavailable RegistryWriteFailed))
               end) in
        create
    end.
End Files.
