(* ===== verification/LocalRuns.v ===== *)
(** * LocalRuns: opening the broker, and its operations in sequence

    [open_with_options] starts a broker from what the disk holds.  A device runs any sequence of
    operations and restarts, each with its own answers of the operating system. *)
From stdpp Require Import base gmap sets list strings pretty vector.
From Stdlib Require Import ZArith Lia Ascii.
From S2P Require Import Prelude Text Manifest Json.
From S2P Require Import Base64 LocalRegistry LocalBroker LocalFiles.

Local Open Scope Z_scope.

Definition LOCK_FILE : string := ".lock".

(** [platform::SUPPORTED] on Unix. *)
Definition SUPPORTED : bool := true.

Inductive Availability : Type := Available | Unavailable.

Record Capabilities : Type := {
  local_resources : Availability;
  native_directory_picker : Availability;
  managed_workspace : Availability;
  multi_window : bool;
  sidecar : bool
}.

Definition Capabilities_unavailable : Capabilities := {|
  local_resources := Unavailable;
  native_directory_picker := Unavailable;
  managed_workspace := Unavailable;
  multi_window := false;
  sidecar := false
|}.

Definition capabilities (picker_available : bool) : Capabilities :=
  let available yes := if yes && SUPPORTED then Available else Unavailable in {|
  local_resources := available true;
  native_directory_picker := available picker_available;
  managed_workspace := available true;
  multi_window := false;
  sidecar := false
|}.

(** ** Opening *)

Section Opening.
Context {F : Floats}.

Definition unreadable : RuntimeError := RuntimeError_with RUnavailable RegistryUnreadable.

(** [registry::load], given what the disk holds. *)
Definition load (w : World) (disk : option RegistryFile) : RuntimeResult (option RegistryFile) :=
  match disk with
  | None => Ok None
  | Some registry =>
      if negb (w_readable w) then Err unreadable
      else if negb (rg_schema registry =? SCHEMA) || negb (str_len (identity_key registry) =? 64)
      then Err unreadable
      else Ok (Some registry)
  end.

(** The registry of a first start: saved before it is used. *)
Definition first_registry (w : World) : option RegistryFile * RuntimeResult RegistryFile :=
  let registry := RegistryFile_new (w_random w 0 +:+ w_random w 1) in
  match w_save w 0 with
  | Saved => (Some registry, Ok registry)
  | SaveFailed written _ =>
      (if written then Some registry else None,
       Err (RuntimeError_with RUnavailable RegistryWriteFailed))
  end.

(** The disk afterwards, and the broker. *)
Definition open_with_options (w : World) (requested : Path) (opts : RuntimeOptions)
    (disk : option RegistryFile) : option RegistryFile * RuntimeResult (Runtime * State) :=
  let prepared :=
    try? w_create_private_dir_all w 0 requested in
    let? root := ok_or (w_canonicalize w requested) (RuntimeError_with RUnavailable Io) in
    try? w_acquire_lock w (root ++ [LOCK_FILE]) in
    try? w_create_private_dir_all w 1 (root ++ [MANAGED_DIR]) in
    let? state_dir := w_open_absolute w 0 root in
    let? registry := load w disk in
    Ok (root, state_dir, registry) in
  match prepared with
  | Err error => (disk, Err error)
  | Ok (root, state_dir, loaded) =>
      let '(disk', registry) :=
        match loaded with
        | Some registry => (disk, Ok registry)
        | None => first_registry w
        end in
      (disk',
       let? registry := registry in
       let? key :=
         ok_or (opt_filter (fun k => len k =? 32) (unhex (identity_key registry))) unreadable in
       Ok ({| state_root := root;
              state_identity := identity (dir_stat state_dir);
              options := opts |},
           {| st_registry := registry;
              st_disk := registry;
              st_key := content_bytes key;
              st_picker := None;
              st_picker_sequence := 0;
              st_selections := ∅;
              st_handles := ∅ |}))
  end.
End Opening.

(** ** Operations in sequence *)

Inductive Op : Type :=
| OListWorkspaces
| OCreateWorkspace (name operation_id : string)
| ORecoverWorkspace (operation_id : string)
| ORenameWorkspace (context : ContextRef) (name operation_id : string)
| OBeginSelection (context : ContextRef)
| OFinishSelection (ticket : PickerTicket) (chosen : option Path)
| OAttachDirectory (context : ContextRef) (selection_id operation_id : string)
| ODetachDirectory (context : ContextRef) (binding_id operation_id : string)
| OListEntries (context : ContextRef) (target : LocalRef) (cursor : option string)
| OOpenRead (context : ContextRef) (target : LocalRef) (expected_file_identity : string)
| OReadFile (context : ContextRef) (read_handle_id : string) (offset length : Z)
| OCloseRead (context : ContextRef) (read_handle_id : string)
| OCreateFile (context : ContextRef) (parent : LocalRef) (name : string) (content : list Z)
    (operation_id : string)
| ORestart (requested : Path) (opts : RuntimeOptions).

Inductive Answer : Type :=
| AViews (r : RuntimeResult (list WorkspaceView))
| ACreated (r : RuntimeResult WorkspaceCreated)
| AOutcome (r : RuntimeWorkspaceOutcome)
| AView (r : RuntimeResult WorkspaceView)
| ATicket (r : RuntimeResult PickerTicket)
| ASelection (r : RuntimeResult (option string))
| AAttached (r : RuntimeResult BindingAttached)
| AEntries (r : RuntimeResult EntryPage)
| AHandle (r : RuntimeResult ReadHandle)
| APage (r : RuntimeResult BytePage)
| AClosed (r : RuntimeResult unit)
| AReceipt (r : RuntimeResult FileReceipt)
| AStarted (r : RuntimeResult unit).

Section Runs.
Context {F : Floats} {D : Digest}.
Context (json_text : Value -> string)
  (binding_receipt_value : BindingReceipt -> Value)
  (binding_receipt_from : Value -> option BindingReceipt)
  (file_receipt_value : FileReceipt -> Value)
  (file_receipt_from : Value -> option FileReceipt).

Abbreviation Broker := (Runtime * State)%type.

Definition answered {A} (f : RuntimeResult A -> Answer) (m : M A) (s : State) : State * Answer :=
  let '(s', r) := m s in (s', f r).

(** An operation of a running broker; a restart is below. *)
Definition exec_op (rt : Runtime) (w : World) (op : Op) (s : State) : State * Answer :=
  match op with
  | OListWorkspaces => answered AViews (list_workspaces rt w) s
  | OCreateWorkspace name id => answered ACreated (create_workspace json_text rt w name id) s
  | ORecoverWorkspace id => let '(s', r) := recover_workspace rt w id s in (s', AOutcome r)
  | ORenameWorkspace cx name id => answered AView (rename_workspace json_text rt w cx name id) s
  | OBeginSelection cx => answered ATicket (begin_directory_selection cx) s
  | OFinishSelection ticket chosen =>
      answered ASelection (finish_directory_selection rt w ticket chosen) s
  | OAttachDirectory cx sel id =>
      answered AAttached
        (attach_directory json_text binding_receipt_value binding_receipt_from rt w cx sel id) s
  | ODetachDirectory cx b id => answered AView (detach_directory json_text rt w cx b id) s
  | OListEntries cx target cursor => answered AEntries (list_entries rt w cx target cursor) s
  | OOpenRead cx target id => answered AHandle (open_read rt w cx target id) s
  | OReadFile cx h offset length => answered APage (read_file w cx h offset length) s
  | OCloseRead cx h => answered AClosed (close_read cx h) s
  | OCreateFile cx parent name content id =>
      answered AReceipt
        (create_file json_text file_receipt_value file_receipt_from rt w cx parent name content id) s
  | ORestart _ _ => (s, AStarted (Ok tt))
  end.

(** A restart that fails leaves no broker; the device is then as before, and may try again. *)
Definition exec (w : World) (op : Op) (b : Broker) : Broker * Answer :=
  let '(rt, s) := b in
  match op with
  | ORestart requested opts =>
      match (open_with_options w requested opts (Some (st_disk s))).2 with
      | Ok b' => (b', AStarted (Ok tt))
      | Err error => (b, AStarted (Err error))
      end
  | _ => let '(s', a) := exec_op rt w op s in ((rt, s'), a)
  end.

(** A run, with the steps it took: the broker before, the operation, the answer. *)
Fixpoint run (steps : list (World * Op)) (b : Broker) : Broker * list (Broker * Op * Answer) :=
  match steps with
  | [] => (b, [])
  | (w, op) :: steps =>
      let '(b', a) := exec w op b in
      let '(b'', log) := run steps b' in
      (b'', (b, op, a) :: log)
  end.
End Runs.
