(* ===== verification/LocalWire.v ===== *)
(** * LocalWire: the JSON command of the desktop shell (local-workspace-runtime, wire.rs)

    [dispatch] decodes a request, runs the operation and renders its result.  The derived
    decoders and encoders of serde are a class; a native dialog is two functions.  The command
    adds nothing to the broker's operations. *)
From stdpp Require Import base gmap sets list strings.
From Stdlib Require Import ZArith Lia Ascii.
From S2P Require Import Prelude Manifest Json Base64 LocalRegistry LocalBroker LocalFiles.
From S2P Require Import LocalRuns.
Local Open Scope Z_scope.

Definition COMMANDS : list string :=
  ["capabilities"; "workspace.list"; "workspace.create"; "workspace.recover"; "workspace.rename";
   "directory.choose"; "directory.attach"; "directory.detach"; "entries.list"; "file.openRead";
   "file.read"; "file.closeRead"; "file.create"].

Inductive PickerOutcome : Type := PickerChosen (path : Path) | PickerCancelled | PickerFailed.

Record DirectoryPicker : Type := {
  available : bool;
  pick_directory : PickerOutcome
}.

Record CreateWorkspaceRequest : Type := { cwr_name : string; cwr_operation_id : string }.
Record RecoverRequest : Type := { rcr_operation_id : string }.
Record RenameRequest : Type := {
  rnr_context : ContextRef; rnr_name : string; rnr_operation_id : string }.
Record ChooseRequest : Type := { chr_context : ContextRef }.
Record AttachRequest : Type := {
  atr_context : ContextRef; atr_selection_id : string; atr_operation_id : string }.
Record DetachRequest : Type := {
  dtr_context : ContextRef; dtr_binding_id : string; dtr_operation_id : string }.
Record ListEntriesRequest : Type := {
  ler_context : ContextRef; ler_ref : LocalRef; ler_cursor : option string }.
Record OpenReadRequest : Type := {
  orr_context : ContextRef; orr_ref : LocalRef; orr_expected_file_identity : string }.
Record ReadRangeRequest : Type := {
  rrr_context : ContextRef; rrr_read_handle_id : string; rrr_offset : Z; rrr_length : Z }.
Record CloseReadRequest : Type := { clr_context : ContextRef; clr_read_handle_id : string }.
Record CreateFileRequest : Type := {
  cfr_context : ContextRef; cfr_parent : LocalRef; cfr_name : string; cfr_bytes_base64 : string;
  cfr_operation_id : string }.

(** serde_json: the derived conversions. *)
Class Serde `{F : Floats} : Type := {
  de_create_workspace : Value -> option CreateWorkspaceRequest;
  de_recover : Value -> option RecoverRequest;
  de_rename : Value -> option RenameRequest;
  de_choose : Value -> option ChooseRequest;
  de_attach : Value -> option AttachRequest;
  de_detach : Value -> option DetachRequest;
  de_list_entries : Value -> option ListEntriesRequest;
  de_open_read : Value -> option OpenReadRequest;
  de_read_range : Value -> option ReadRangeRequest;
  de_close_read : Value -> option CloseReadRequest;
  de_create_file : Value -> option CreateFileRequest;
  ser_capabilities : Capabilities -> option Value;
  ser_views : list WorkspaceView -> option Value;
  ser_created : WorkspaceCreated -> option Value;
  ser_outcome : RuntimeWorkspaceOutcome -> option Value;
  ser_view : WorkspaceView -> option Value;
  ser_selection : option string -> option Value;
  ser_attached : BindingAttached -> option Value;
  ser_entries : EntryPage -> option Value;
  ser_handle : ReadHandle -> option Value;
  ser_page : BytePage -> option Value;
  ser_receipt : FileReceipt -> option Value
}.

Definition invalid_request : RuntimeError := RuntimeError_with RInvalidLocator InvalidRequest.
Definition unknown_command : RuntimeError := RuntimeError_with RUnavailable UnknownCommand.

Definition parse {T V} (de : V -> option T) (request : V) : RuntimeResult T :=
  ok_or (de request) invalid_request.

Definition json {T V} (ser : T -> option V) (value : T) : RuntimeResult V :=
  ok_or (ser value) (RuntimeError_new ROutcomeUnknown).

Section Dispatch.
Context {F : Floats} {D : Digest} {S : Serde}.
Context (json_text : Value -> string)
  (binding_receipt_value : BindingReceipt -> Value)
  (binding_receipt_from : Value -> option BindingReceipt)
  (file_receipt_value : FileReceipt -> Value)
  (file_receipt_from : Value -> option FileReceipt).

(** [json(m?)]. *)
Definition rendered {T} (ser : T -> option Value) (m : M T) : M Value :=
  let! v := m in lift (json ser v).

(** The dialog between the two halves of a selection; the guard's own release matters only when
    the dialog panics. *)
Definition choose (rt : Runtime) (w : World) (picker : DirectoryPicker) (r : ChooseRequest)
    : M Value :=
  if negb (available picker) then lift (err RUnavailable UnsupportedPlatform)
  else
    let! ticket := begin_directory_selection (chr_context r) in
    match pick_directory picker with
    | PickerChosen path =>
        rendered ser_selection (finish_directory_selection rt w ticket (Some path))
    | PickerCancelled =>
        do! finish_directory_selection rt w ticket None in ret VNull
    | PickerFailed =>
        do! finish_directory_selection rt w ticket None in lift (err RUnavailable Io)
    end.

Definition decode_content (text : string) : RuntimeResult (list Z) :=
  map_err (fun error => if rt_code error == RLimit then error else invalid_request)
    (decode_base64 text MAX_CREATE_BYTES).

(** The arms of the command match. *)
Definition dispatch_command (rt : Runtime) (w : World) (picker : DirectoryPicker)
    (command : string) (request : Value) : M Value :=
  if command == "workspace.list" then rendered ser_views (list_workspaces rt w)
  else if command == "workspace.create" then
    let! r := lift (parse de_create_workspace request) in
    rendered ser_created (create_workspace json_text rt w (cwr_name r) (cwr_operation_id r))
  else if command == "workspace.recover" then
    let! r := lift (parse de_recover request) in
    fun s => let '(s', o) := recover_workspace rt w (rcr_operation_id r) s in (s', json ser_outcome o)
  else if command == "workspace.rename" then
    let! r := lift (parse de_rename request) in
    rendered ser_view
      (rename_workspace json_text rt w (rnr_context r) (rnr_name r) (rnr_operation_id r))
  else if command == "directory.choose" then
    let! r := lift (parse de_choose request) in choose rt w picker r
  else if command == "directory.attach" then
    let! r := lift (parse de_attach request) in
    rendered ser_attached
      (attach_directory json_text binding_receipt_value binding_receipt_from rt w
         (atr_context r) (atr_selection_id r) (atr_operation_id r))
  else if command == "directory.detach" then
    let! r := lift (parse de_detach request) in
    rendered ser_view
      (detach_directory json_text rt w (dtr_context r) (dtr_binding_id r) (dtr_operation_id r))
  else if command == "entries.list" then
    let! r := lift (parse de_list_entries request) in
    rendered ser_entries (list_entries rt w (ler_context r) (ler_ref r) (ler_cursor r))
  else if command == "file.openRead" then
    let! r := lift (parse de_open_read request) in
    rendered ser_handle (open_read rt w (orr_context r) (orr_ref r) (orr_expected_file_identity r))
  else if command == "file.read" then
    let! r := lift (parse de_read_range request) in
    rendered ser_page
      (read_file w (rrr_context r) (rrr_read_handle_id r) (rrr_offset r) (rrr_length r))
  else if command == "file.closeRead" then
    let! r := lift (parse de_close_read request) in
    do! close_read (clr_context r) (clr_read_handle_id r) in ret VNull
  else if command == "file.create" then
    let! r := lift (parse de_create_file request) in
    let! content := lift (decode_content (cfr_bytes_base64 r)) in
    rendered ser_receipt
      (create_file json_text file_receipt_value file_receipt_from rt w (cfr_context r)
         (cfr_parent r) (cfr_name r) content (cfr_operation_id r))
  else lift (Err unknown_command).

(** [runtime] is the broker, or why it could not be opened. *)
Definition dispatch (runtime : RuntimeResult Runtime) (w : World) (picker : DirectoryPicker)
    (command : string) (request : Value) : M Value :=
  if negb (contains COMMANDS command) then lift (Err unknown_command)
  else if command == "capabilities" then
    lift (json ser_capabilities
            (match runtime with
             | Ok _ => capabilities (available picker)
             | Err _ => Capabilities_unavailable
             end))
  else
    match runtime with
    | Err error => lift (Err error)
    | Ok rt => dispatch_command rt w picker command request
    end.
End Dispatch.
Section WireTheorems.
Context {F : Floats} {D : Digest} {S : Serde}.
Context (json_text : Value -> string)
  (binding_receipt_value : BindingReceipt -> Value)
  (binding_receipt_from : Value -> option BindingReceipt)
  (file_receipt_value : FileReceipt -> Value)
  (file_receipt_from : Value -> option FileReceipt).

Abbreviation exec_op := (exec_op json_text binding_receipt_value binding_receipt_from
  file_receipt_value file_receipt_from).
Abbreviation run := (run json_text binding_receipt_value binding_receipt_from
  file_receipt_value file_receipt_from).
Abbreviation dispatch := (dispatch json_text binding_receipt_value binding_receipt_from
  file_receipt_value file_receipt_from).

Definition is_restart (op : Op) : bool := match op with ORestart _ _ => true | _ => false end.

(** [s'] is reached from [s] by at most [n] operations of the broker, no restart among them. *)
Definition within (n : nat) (rt : Runtime) (w : World) (s s' : State) : Prop :=
  exists ops, (length ops <= n)%nat /\ forallb (fun op => negb (is_restart op)) ops = true
  /\ (run (map (fun op => (w, op)) ops) (rt, s)).1 = (rt, s').

Lemma within_none n rt w s : within n rt w s s.
Proof. exists []. split; [cbn; lia|done]. Qed.

Lemma exec_not_restart rt w op s :
  is_restart op = false ->
  exec json_text binding_receipt_value binding_receipt_from file_receipt_value file_receipt_from
    w op (rt, s) = ((rt, (exec_op rt w op s).1), (exec_op rt w op s).2).
Proof. intros Hop. unfold exec. destruct op; try done; by destruct (exec_op _ _ _ s). Qed.

Lemma within_op n rt w op s s' :
  is_restart op = false -> (1 <= n)%nat -> (exec_op rt w op s).1 = s' -> within n rt w s s'.
Proof.
  intros Hop Hn <-. exists [op]. split; [done|]. cbn [forallb map LocalRuns.run].
  rewrite Hop, exec_not_restart by done. done.
Qed.

Lemma within_two rt w op1 op2 s s1 s2 :
  is_restart op1 = false -> is_restart op2 = false ->
  (exec_op rt w op1 s).1 = s1 -> (exec_op rt w op2 s1).1 = s2 -> within 2 rt w s s2.
Proof.
  intros H1 H2 <- <-. exists [op1; op2]. split; [cbn; lia|]. cbn [forallb map LocalRuns.run].
  rewrite H1, H2. by rewrite !exec_not_restart by done.
Qed.

(** ** The shapes of the arms *)

Lemma within_parsed {T B} n rt w (de : Value -> option T) request (k : T -> M B) s :
  (forall r, within n rt w s (k r s).1) ->
  within n rt w s (bind (lift (parse de request)) k s).1.
Proof.
  intros Hk. unfold bind, lift, parse. destruct (de request) as [r|]; [apply Hk|apply within_none].
Qed.

Lemma rendered_state {T} (ser : T -> option Value) (m : M T) s : (rendered ser m s).1 = (m s).1.
Proof. unfold rendered, bind, lift. by destruct (m s) as [s' []]. Qed.

Lemma answered_state {A} (f : RuntimeResult A -> Answer) (m : M A) s :
  (answered f m s).1 = (m s).1.
Proof. unfold answered. by destruct (m s). Qed.

Lemma within_choose rt w picker r s : within 2 rt w s (choose rt w picker r s).1.
Proof.
  unfold choose. destruct (negb _); [apply within_none|]. unfold bind at 1.
  destruct (begin_directory_selection (chr_context r) s) as [s1 [ticket|e]] eqn:Eb.
  - assert (forall chosen s2, (finish_directory_selection rt w ticket chosen s1).1 = s2 ->
      within 2 rt w s s2) as Hf.
    { intros chosen s2 <-. apply (within_two rt w (OBeginSelection (chr_context r))
        (OFinishSelection ticket chosen) s s1); [done|done| |]; cbn [LocalRuns.exec_op]; rewrite answered_state; [|done].
      by rewrite Eb. }
    destruct (pick_directory picker) as [path| |].
    + rewrite rendered_state. by apply (Hf (Some path)).
    + apply (Hf None). unfold bind.
      by destruct (finish_directory_selection rt w ticket None s1) as [s2 []].
    + apply (Hf None). unfold bind.
      by destruct (finish_directory_selection rt w ticket None s1) as [s2 []].
  - apply (within_op 2 rt w (OBeginSelection (chr_context r))); [done|lia|]. cbn [LocalRuns.exec_op].
    by rewrite answered_state, Eb.
Qed.

(** Whatever command and request the desktop shell forwards, the broker's state
    afterwards is one that at most two of its operations lead to (a folder choice takes two),
    so everything proved of runs of operations holds of the wire; a broker that could not be
    opened is never touched. *)
Theorem dispatch_refines_operations runtime w picker command request s :
  match runtime with
  | Ok rt => within 2 rt w s (dispatch (Ok rt) w picker command request s).1
  | Err e => (dispatch (Err e) w picker command request s).1 = s
  end.
Proof.
  unfold LocalWire.dispatch. destruct runtime as [rt|e].
  2: { destruct (negb _); [done|]. by destruct (_ == _). }
  destruct (negb _); [apply within_none|]. destruct (command == "capabilities"); [apply within_none|].
  unfold dispatch_command. repeat (case_bool_decide; [try apply within_parsed; intros; rewrite ?rendered_state|]).
  - apply (within_op 2 rt w OListWorkspaces); [done|lia|]. cbn [LocalRuns.exec_op]. by rewrite answered_state.
  - apply (within_op 2 rt w (OCreateWorkspace (cwr_name r) (cwr_operation_id r))); [done|lia|].
    cbn [LocalRuns.exec_op]. by rewrite answered_state.
  - apply (within_op 2 rt w (ORecoverWorkspace (rcr_operation_id r))); [done|lia|]. cbn [LocalRuns.exec_op].
    by destruct (recover_workspace _ _ _ s).
  - apply (within_op 2 rt w (ORenameWorkspace (rnr_context r) (rnr_name r) (rnr_operation_id r)));
      [done|lia|]. cbn [LocalRuns.exec_op]. by rewrite answered_state.
  - apply within_choose.
  - apply (within_op 2 rt w (OAttachDirectory (atr_context r) (atr_selection_id r)
      (atr_operation_id r))); [done|lia|]. cbn [LocalRuns.exec_op]. by rewrite answered_state.
  - apply (within_op 2 rt w (ODetachDirectory (dtr_context r) (dtr_binding_id r)
      (dtr_operation_id r))); [done|lia|]. cbn [LocalRuns.exec_op]. by rewrite answered_state.
  - apply (within_op 2 rt w (OListEntries (ler_context r) (ler_ref r) (ler_cursor r)));
      [done|lia|]. cbn [LocalRuns.exec_op]. by rewrite answered_state.
  - apply (within_op 2 rt w (OOpenRead (orr_context r) (orr_ref r) (orr_expected_file_identity r)));
      [done|lia|]. cbn [LocalRuns.exec_op]. by rewrite answered_state.
  - apply (within_op 2 rt w (OReadFile (rrr_context r) (rrr_read_handle_id r) (rrr_offset r)
      (rrr_length r))); [done|lia|]. cbn [LocalRuns.exec_op]. by rewrite answered_state.
  - apply (within_op 2 rt w (OCloseRead (clr_context r) (clr_read_handle_id r))); [done|lia|].
    cbn [LocalRuns.exec_op]. rewrite answered_state. unfold bind, close_read, modify. done.
  - unfold bind, lift. destruct (decode_content _) as [content|]; [|apply within_none].
    rewrite rendered_state.
    apply (within_op 2 rt w (OCreateFile (cfr_context r) (cfr_parent r) (cfr_name r) content
      (cfr_operation_id r))); [done|lia|]. cbn [LocalRuns.exec_op]. by rewrite answered_state.
  - apply within_none.
Qed.
End WireTheorems.
