(* ===== verification/LocalJournal.v ===== *)
(** * LocalJournal: the registry of the local broker as a journal

    [delta] lists what one commit may change in the registry in memory; [jstep] is what a commit
    or a restart does to the pair of the registry in memory and the registry on disk, whatever
    the outcome of the save.  The order [advances] (nothing promised is forgotten) is kept by
    every sequence of such steps, and so is the consistency of memory and disk. *)
From stdpp Require Import base gmap sets list strings pretty vector.
From Stdlib Require Import ZArith Lia Ascii.
From S2P Require Import Prelude Text Manifest Json.
From S2P Require Import Base64 LocalRegistry LocalBroker LocalFiles.

Local Open Scope Z_scope.

(** ** Lookups in updated lists *)

Lemma find_update_first_found {A} (p : A -> bool) (f : A -> A) l x :
  find p l = Some x -> p (f x) = true -> find p (update_first p f l) = Some (f x).
Proof.
  induction l as [|y l IH]; cbn; [done|]. destruct (p y) eqn:E; cbn.
  - intros [= ->] ->. done.
  - rewrite E. auto.
Qed.

Lemma find_update_first_ne {A} (p q : A -> bool) (f : A -> A) l :
  (forall x, p x = true -> q x = false /\ q (f x) = false) ->
  find q (update_first p f l) = find q l.
Proof.
  intros H. induction l as [|y l IH]; cbn; [done|]. destruct (p y) eqn:E; cbn.
  - by destruct (H y E) as [-> ->].
  - by rewrite IH.
Qed.

Lemma elem_of_update_first_inv {A} (p : A -> bool) (f : A -> A) l x :
  x ∈ l -> x ∈ update_first p f l \/ p x = true /\ f x ∈ update_first p f l.
Proof.
  induction l as [|y l IH]; cbn; [set_solver|].
  destruct (p y) eqn:E; intros [->|Hx]%elem_of_cons; set_solver.
Qed.

Lemma elem_of_replace_first {A} (p : A -> bool) (r : A) l x :
  x ∈ replace_first p r l -> x ∈ l \/ x = r.
Proof. induction l as [|y l IH]; cbn; [auto|]. destruct (p y); set_solver. Qed.

Lemma elem_of_replace_first_inv {A} (p : A -> bool) (r : A) l x :
  x ∈ l -> x ∈ replace_first p r l \/ p x = true.
Proof.
  induction l as [|y l IH]; cbn; [auto|].
  destruct (p y) eqn:E; intros [->|Hx]%elem_of_cons; set_solver.
Qed.

Lemma replace_first_found {A} (p : A -> bool) (r : A) l :
  is_some (find p l) = true -> r ∈ replace_first p r l.
Proof. induction l as [|y l IH]; cbn; [done|]. destruct (p y); set_solver. Qed.

Lemma map_replace_first {A B} (g : A -> B) `{EqDecision B} (r : A) l :
  map g (replace_first (fun x => g x == g r) r l) = map g l.
Proof.
  induction l as [|y l IH]; cbn; [done|]. case_bool_decide as E; cbn; by rewrite ?E, ?IH.
Qed.

Lemma position_Some {A} (p : A -> bool) l i :
  position p l = Some i -> exists x, l !! i = Some x /\ p x = true.
Proof.
  revert i. induction l as [|y l IH]; cbn; intros i; [done|]. destruct (p y) eqn:E.
  - intros [= <-]. by exists y.
  - destruct (position p l) as [j|]; [|done]. intros [= <-]. cbn. by apply IH.
Qed.

Section Journal.
Context {F : Floats} {D : Digest}.

(** ** Eviction *)

Lemma eviction_older (ops : list OperationRecord) i :
  eviction ops = Some i ->
  exists op, ops !! i = Some op /\ evictable op = true /\ (i < length ops - 1)%nat.
Proof.
  unfold eviction. intros H.
  assert (exists op, take (length ops - 1) ops !! i = Some op /\ evictable op = true)
    as (op & Hop & Hev).
  { destruct (position _ (take _ ops)) as [j|] eqn:E.
    - simplify_eq. apply position_Some in E as (op & ? & ?). simp_bool. eauto.
    - apply position_Some in H as (op & ? & ?). eauto. }
  exists op. pose proof (lookup_lt_Some _ _ _ Hop) as Hlt.
  rewrite length_take in Hlt. rewrite lookup_take_lt in Hop by lia. auto with lia.
Qed.

Lemma evict_loop_sublist fuel (ops : list OperationRecord) : sublist (evict_loop fuel ops) ops.
Proof.
  revert ops. induction fuel as [|fuel IH]; intros ops; cbn; [done|].
  destruct (_ <=? _); [done|]. destruct (eviction ops); [|done].
  etrans; [apply IH|]. apply sublist_delete.
Qed.

(** Workspace creations are never forgotten. *)
Lemma evict_loop_keeps fuel (ops : list OperationRecord) op :
  op ∈ ops -> evictable op = false -> op ∈ evict_loop fuel ops.
Proof.
  revert ops. induction fuel as [|fuel IH]; intros ops Hop Hev; cbn; [done|].
  destruct (_ <=? _); [done|]. destruct (eviction ops) as [i|] eqn:E; [|done].
  apply IH; [|done]. apply eviction_older in E as (op' & Hi & Hev' & _).
  apply list_elem_of_lookup in Hop as [j Hj].
  assert (i <> j) by congruence.
  rewrite list_elem_of_lookup. destruct (decide (i < j)%nat).
  - exists (j - 1)%nat. rewrite list_lookup_delete_ge by lia. rewrite <-Hj. f_equal. lia.
  - exists j. by rewrite list_lookup_delete_lt by lia.
Qed.

(** Nor is the newest record. *)
Lemma evict_loop_last fuel (ops : list OperationRecord) : last (evict_loop fuel ops) = last ops.
Proof.
  revert ops. induction fuel as [|fuel IH]; intros ops; cbn; [done|].
  destruct (_ <=? _); [done|]. destruct (eviction ops) as [i|] eqn:E; [|done].
  rewrite IH. apply eviction_older in E as (op' & Hi & _ & Hlt).
  pose proof (lookup_lt_Some _ _ _ Hi).
  rewrite !last_lookup, length_delete by eauto.
  rewrite list_lookup_delete_ge by lia. f_equal. lia.
Qed.

(** ** Records with distinct identifiers *)

Definition ops_wf (r : RegistryFile) : Prop := NoDup (map op_id (operations r)).

Lemma operation_elem r id op : operation r id = Some op -> op ∈ operations r /\ op_id op = id.
Proof. unfold operation. intros [? ?]%find_Some_iff. simp_bool. done. Qed.

Lemma operation_None r id op : operation r id = None -> op ∈ operations r -> op_id op <> id.
Proof. unfold operation. rewrite find_None_iff. intros H Hop Heq. apply H in Hop. by simp_bool. Qed.

Lemma operation_of_elem r op :
  ops_wf r -> op ∈ operations r -> operation r (op_id op) = Some op.
Proof. apply find_NoDup. Qed.

Lemma upsert_wf r op : ops_wf r -> ops_wf (upsert_operation r op).
Proof.
  unfold ops_wf, upsert_operation. intros Hwf.
  destruct (is_some (operation r (op_id op))) eqn:E; cbn [operations with_operations].
  - by rewrite map_replace_first.
  - eapply sublist_NoDup; [|apply (fmap_sublist op_id), evict_loop_sublist].
    change (NoDup (map op_id (operations r ++ [op]))).
    rewrite map_app. apply NoDup_app. split; [done|]. split; [|apply NoDup_singleton].
    intros x Hx ->%list_elem_of_singleton. apply list_elem_of_fmap in Hx as (op' & Hid & Hop').
    simp_bool. by eapply operation_None.
Qed.

Lemma upsert_elem r op op' :
  op' ∈ operations (upsert_operation r op) -> op' ∈ operations r \/ op' = op.
Proof.
  unfold upsert_operation. destruct (is_some _); cbn [operations with_operations].
  - apply elem_of_replace_first.
  - intros H. eapply elem_of_sublist in H; [|apply evict_loop_sublist]. set_solver.
Qed.

Lemma upsert_keeps r op op' :
  op' ∈ operations r -> op_kind op' = CreateWorkspace -> op_id op' <> op_id op ->
  op' ∈ operations (upsert_operation r op).
Proof.
  intros Hop Hk Hne. unfold upsert_operation. destruct (is_some _); cbn [operations with_operations].
  - destruct (elem_of_replace_first_inv (fun x => op_id x == op_id op) op _ _ Hop) as [|E]; [done|].
    by simp_bool.
  - apply evict_loop_keeps; [set_solver|]. unfold evictable. by rewrite bool_decide_eq_true_2.
Qed.

Lemma upsert_found r op : op ∈ operations (upsert_operation r op).
Proof.
  unfold upsert_operation. destruct (is_some (operation r (op_id op))) eqn:E;
    cbn [operations with_operations].
  - by apply replace_first_found.
  - apply last_Some_elem_of. by rewrite evict_loop_last, last_snoc.
Qed.

(** ** What a commit changes *)

(** The bound set of a workspace never changes without its revision. *)
Definition record_advances (a b : WorkspaceRecord) : Prop :=
  wr_revision_binding a < wr_revision_binding b
  \/ wr_revision_binding a = wr_revision_binding b /\ wr_bindings a = wr_bindings b.

#[global] Instance record_advances_preorder : PreOrder record_advances.
Proof.
  split; [right; done|]. intros a b c. unfold record_advances. intros [|[? Hb]] [|[? Hc]]; try (left; lia).
  right. split; [lia|congruence].
Qed.

(** What was promised about a creation: its operation, kind and stored identities. *)
Definition same_promise (a b : OperationRecord) : Prop :=
  op_id a = op_id b /\ op_kind a = op_kind b /\ op_digest a = op_digest b
  /\ op_result a = op_result b.

#[global] Instance same_promise_preorder : PreOrder same_promise.
Proof.
  split; [by repeat split|]. unfold same_promise. intros a b c (?&?&?&?) (?&?&?&?).
  repeat split; congruence.
Qed.

Record advances (r r' : RegistryFile) : Prop := {
  adv_workspaces id rec :
    workspace r id = Some rec -> exists rec', workspace r' id = Some rec' /\ record_advances rec rec';
  adv_creations op :
    op ∈ operations r -> op_kind op = CreateWorkspace ->
    exists op', op' ∈ operations r' /\ same_promise op op'
}.

#[global] Instance advances_preorder : PreOrder advances.
Proof.
  split.
  - intros r. split; eauto.
    + intros id rec H. exists rec. split; [done|reflexivity].
    + intros op Hop _. exists op. split; [done|reflexivity].
  - intros r1 r2 r3 [W1 C1] [W2 C2]. split.
    + intros id rec (rec2 & H2 & A2)%W1. apply W2 in H2 as (rec3 & H3 & A3).
      exists rec3. split; [done|]. by etrans.
    + intros op Hop Hk. destruct (C1 _ Hop Hk) as (op2 & Hop2 & P2).
      destruct (C2 _ Hop2) as (op3 & Hop3 & P3); [destruct P2 as (?&?&?); congruence|].
      exists op3. split; [done|]. by etrans.
Qed.

(** An identifier taken by another kind of operation does not become a creation. *)
Definition no_turn (r r' : RegistryFile) : Prop :=
  forall op op', op ∈ operations r -> op' ∈ operations r' -> op_id op = op_id op' ->
  op_kind op' = CreateWorkspace -> op_kind op = CreateWorkspace.

(** The identifier [id] is not that of a creation. *)
Definition not_creation (r : RegistryFile) (id : string) : Prop :=
  forall op, op ∈ operations r -> op_id op = id -> op_kind op <> CreateWorkspace.

Definition explicit_count (rec : WorkspaceRecord) : Z :=
  count (fun b => br_source b == SourceExplicit) (wr_bindings rec).

(** A change of one workspace by rename, attach or detach, as its caller checked it. *)
Inductive edit (rec : WorkspaceRecord) : (WorkspaceRecord -> WorkspaceRecord) -> Prop :=
| edit_rename name : edit rec (renamed name)
| edit_attach b :
    br_source b = SourceExplicit -> explicit_count rec < MAX_EXPLICIT_BINDINGS ->
    edit rec (fun rec => with_bindings (wr_bindings rec ++ [b]) rec)
| edit_detach id :
    edit rec (fun rec => with_bindings (List.filter (fun b => br_id b != id) (wr_bindings rec)) rec).

Inductive delta (r : RegistryFile) : RegistryFile -> Prop :=
| delta_reserve op :
    operation r (op_id op) = None -> pending_creation op = true ->
    count pending_creation (operations r) < MAX_PENDING_CREATIONS ->
    delta r (upsert_operation r op)
| delta_complete id new :
    Forall (fun rec => workspace r (wr_id rec) = None /\ explicit_count rec = 0) new ->
    (length new <= 1)%nat ->
    delta r (complete_operation (with_workspaces r (workspaces r ++ new)) id)
| delta_edit wid rec f op :
    workspace r wid = Some rec -> edit rec f -> operation r (op_id op) = None ->
    op_kind op <> CreateWorkspace ->
    delta r (upsert_operation (update_workspace r wid f) op)
| delta_file op :
    not_creation r (op_id op) -> op_kind op = CreateFile -> delta r (upsert_operation r op)
| delta_identity id fid :
    not_creation r id -> delta r (record_identity r id fid)
| delta_forget id :
    not_creation r id ->
    delta r (with_operations r (List.filter (fun op => op_id op != id) (operations r))).

(** The registries in memory and on disk, around a commit or a restart. *)
Inductive jstep : RegistryFile * RegistryFile -> RegistryFile * RegistryFile -> Prop :=
| jstep_saved m d next : delta m next -> jstep (m, d) (next, next)
| jstep_failed m d next written reloaded :
    delta m next ->
    let disk := if written : bool then next else d in
    jstep (m, d) (if reloaded : bool then disk else m, disk)
| jstep_restart m d : jstep (m, d) (d, d).

(** ** Every change advances the registry *)

Lemma upsert_workspaces r op : workspaces (upsert_operation r op) = workspaces r.
Proof. unfold upsert_operation. by destruct (is_some _). Qed.

Lemma workspace_eq r r' id : workspaces r' = workspaces r -> workspace r' id = workspace r id.
Proof. unfold workspace. by intros ->. Qed.

Lemma edit_id rec f x : edit rec f -> wr_id (f x) = wr_id x.
Proof. by destruct 1. Qed.

Lemma edit_advances rec f x : edit rec f -> record_advances x (f x).
Proof. destruct 1; unfold record_advances; cbn; [right; done|left; lia..]. Qed.

Lemma not_creation_None r id : operation r id = None -> not_creation r id.
Proof. intros H op Hop Hid. by eapply operation_None in H. Qed.

Lemma upsert_advances r op : not_creation r (op_id op) -> advances r (upsert_operation r op).
Proof.
  intros Hn. split.
  - intros id rec H. exists rec. rewrite (workspace_eq r) by apply upsert_workspaces.
    split; [done|reflexivity].
  - intros op' Hop' Hk. exists op'. split; [|reflexivity]. apply upsert_keeps; [done..|].
    intros Hid. by apply (Hn op').
Qed.

Lemma update_workspace_advances r wid rec f : edit rec f -> advances r (update_workspace r wid f).
Proof.
  intros He. split.
  - intros id rec0 H. unfold workspace in *. cbn [workspaces update_workspace with_workspaces].
    destruct (decide (id = wid)) as [->|Hne].
    + exists (f rec0). split; [|by eapply edit_advances]. apply find_update_first_found; [done|].
      apply find_Some_iff in H as [_ H]. by rewrite (edit_id rec).
    + exists rec0. split; [|reflexivity]. rewrite find_update_first_ne; [done|].
      intros x Hx. simp_bool. rewrite (edit_id rec) by done.
      split; apply bool_decide_eq_false; congruence.
  - intros op Hop Hk. exists op. split; [done|reflexivity].
Qed.

Lemma update_first_advances r id g :
  (forall op, op_kind op = CreateWorkspace -> op_id op = id -> op ∈ operations r ->
     same_promise op (g op)) ->
  advances r (with_operations r (update_first (fun op => op_id op == id) g (operations r))).
Proof.
  intros Hg. split; [intros wid rec H; exists rec; split; [done|reflexivity]|].
  intros op Hop Hk. cbn [operations with_operations].
  destruct (elem_of_update_first_inv (fun op => op_id op == id) g _ _ Hop) as [|[Hp ?]].
  - exists op. split; [done|reflexivity].
  - simp_bool. exists (g op). auto.
Qed.

Lemma delta_advances r r' : delta r r' -> advances r r'.
Proof.
  intros [op Hn _ _|id new Hnew _|wid rec f op _ He Hn _|op Hn _|id fid Hn|id Hn].
  - by apply upsert_advances, not_creation_None.
  - trans (with_workspaces r (workspaces r ++ new)).
    + split; [|intros op Hop _; exists op; split; [done|reflexivity]].
      intros wid rec H. exists rec. split; [|reflexivity]. by apply find_app_Some.
    + apply update_first_advances. by intros.
  - trans (update_workspace r wid f); [by eapply update_workspace_advances|].
    by apply upsert_advances, (not_creation_None (update_workspace r wid f)).
  - by apply upsert_advances.
  - apply update_first_advances. intros op Hk Hid Hop. by destruct (Hn op).
  - split; [intros wid rec H; exists rec; split; [done|reflexivity]|].
    intros op Hop Hk. exists op. split; [|reflexivity]. cbn [operations with_operations].
    apply elem_of_filter_bool. split; [done|]. apply negb_true_iff, bool_decide_eq_false.
    intros Hid. by apply (Hn op).
Qed.

Lemma filter_sublist {A} (p : A -> bool) l : sublist (List.filter p l) l.
Proof. induction l as [|x l IH]; cbn; [done|]. destruct (p x); by constructor. Qed.

Lemma delta_wf r r' : ops_wf r -> delta r r' -> ops_wf r'.
Proof.
  intros Hwf [op|id new|wid rec f op|op|id fid|id]; try by apply upsert_wf.
  - unfold ops_wf, complete_operation. cbn [operations with_operations with_workspaces].
    by rewrite map_update_first.
  - unfold ops_wf, record_identity. cbn [operations with_operations]. by rewrite map_update_first.
  - unfold ops_wf. cbn [operations with_operations].
    eapply sublist_NoDup; [done|]. apply (fmap_sublist op_id), filter_sublist.
Qed.

Lemma upsert_no_turn r op :
  ops_wf r -> (op_kind op = CreateWorkspace -> operation r (op_id op) = None) ->
  no_turn r (upsert_operation r op).
Proof.
  intros Hwf Hn o o' Ho [Ho'| ->]%upsert_elem Hid Hk.
  - by rewrite (NoDup_key op_id (operations r) o o').
  - by destruct (operation_None _ _ _ (Hn Hk) Ho).
Qed.

Lemma update_first_no_turn r ops id g :
  ops_wf r -> ops = operations r -> (forall op, op_id (g op) = op_id op /\ op_kind (g op) = op_kind op) ->
  no_turn r (with_operations r (update_first (fun op => op_id op == id) g ops)).
Proof.
  intros Hwf -> Hg o o' Ho [Ho'|(x & Hx & _ & ->)]%elem_of_update_first Hid Hk.
  - by rewrite (NoDup_key op_id (operations r) o o').
  - destruct (Hg x) as [Hgi Hgk]. rewrite Hgi in Hid. rewrite Hgk in Hk.
    by rewrite (NoDup_key op_id (operations r) o x).
Qed.

Lemma delta_no_turn r r' : ops_wf r -> delta r r' -> no_turn r r'.
Proof.
  intros Hwf [op Hn _ _|id new _ _|wid rec f op _ _ Hn Hk|op Hn Hk|id fid Hn|id Hn].
  - by apply upsert_no_turn.
  - apply (update_first_no_turn (with_workspaces r (workspaces r ++ new))); done.
  - apply (upsert_no_turn (update_workspace r wid f)); done.
  - apply upsert_no_turn; [done|]. congruence.
  - by apply update_first_no_turn.
  - intros o o' Ho [Ho' _]%elem_of_filter_bool Hid Hk'.
    by rewrite (NoDup_key op_id (operations r) o o').
Qed.

(** ** Memory and disk *)

Record journal_ok (j : RegistryFile * RegistryFile) : Prop := {
  jo_memory : ops_wf j.1;
  jo_disk : ops_wf j.2;
  jo_advances : advances j.1 j.2;
  jo_no_turn : no_turn j.1 j.2
}.

Lemma no_turn_refl r : ops_wf r -> no_turn r r.
Proof. intros Hwf o o' Ho Ho' Hid Hk. by rewrite (NoDup_key op_id (operations r) o o'). Qed.

Lemma journal_ok_same r : ops_wf r -> journal_ok (r, r).
Proof. intros H. split; [done..|reflexivity|by apply no_turn_refl]. Qed.

(** Whatever becomes of a save, memory only advances and stays behind the disk. *)
Lemma jstep_ok j j' :
  journal_ok j -> jstep j j' -> journal_ok j' /\ advances j.1 j'.1 /\ no_turn j.1 j'.1.
Proof.
  intros [Wm Wd A T] Hs. destruct Hs as [m d next Hd|m d next written reloaded Hd|m d]; cbn in *.
  - pose proof (delta_wf _ _ Wm Hd). split; [by apply journal_ok_same|].
    split; [by apply delta_advances|by apply delta_no_turn].
  - pose proof (delta_wf _ _ Wm Hd). pose proof (delta_advances _ _ Hd).
    pose proof (delta_no_turn _ _ Wm Hd).
    destruct written, reloaded; cbn; split; try (split; assumption);
      try (by apply journal_ok_same); try (by split); (split; [reflexivity|by apply no_turn_refl]).
  - split; [by apply journal_ok_same|]. done.
Qed.

Lemma jsteps_ok j j' : journal_ok j -> rtc jstep j j' -> journal_ok j' /\ advances j.1 j'.1.
Proof.
  intros Hj Hs. induction Hs as [j|j j1 j2 H1 _ IH]; [split; [done|reflexivity]|].
  destruct (jstep_ok _ _ Hj H1) as (Hj1 & A1 & _). destruct (IH Hj1) as [Hj2 A2].
  split; [done|]. by etrans.
Qed.

(** A property of registries that changes keep holds of memory and disk. *)
Lemma jsteps_invariant (P : RegistryFile -> Prop) j j' :
  (forall r r', P r -> delta r r' -> P r') ->
  P j.1 /\ P j.2 -> rtc jstep j j' -> P j'.1 /\ P j'.2.
Proof.
  intros HP Hj Hs. induction Hs as [|j j1 j2 H1 _ IH]; [done|]. apply IH. clear IH.
  destruct H1 as [m d next Hd|m d next written reloaded Hd|m d]; cbn in *.
  - naive_solver.
  - destruct written, reloaded; naive_solver.
  - naive_solver.
Qed.
End Journal.
