(* ===== verification/LocalEffects.v ===== *)
(** * LocalEffects: what each operation of the local broker does to its state

    Every operation is a sequence of journal steps; none but [open_read] adds a read handle. *)
From stdpp Require Import base gmap sets list strings pretty vector.
From Stdlib Require Import ZArith Lia Ascii.
From S2P Require Import Prelude Text Manifest Json.
From S2P Require Import Base64 LocalRegistry LocalBroker LocalFiles LocalJournal.

Local Open Scope Z_scope.

Section Effects.
Context {F : Floats} {D : Digest}.
Context (json_text : Value -> string)
  (binding_receipt_value : BindingReceipt -> Value)
  (binding_receipt_from : Value -> option BindingReceipt)
  (file_receipt_value : FileReceipt -> Value)
  (file_receipt_from : Value -> option FileReceipt).
Context (rt : Runtime) (w : World).

Definition journal (s : State) : RegistryFile * RegistryFile := (st_registry s, st_disk s).

Record effect (s s' : State) : Prop := {
  eff_journal : rtc jstep (journal s) (journal s');
  eff_handles : st_handles s' ⊆ st_handles s;
  eff_selections : Z.of_nat (size (st_selections s)) <= MAX_SELECTIONS ->
                   Z.of_nat (size (st_selections s')) <= MAX_SELECTIONS
}.

#[local] Instance effect_preorder : PreOrder effect.
Proof.
  split; [by split|]. intros s1 s2 s3 [J1 H1 S1] [J2 H2 S2]. split; [by etrans|by etrans|auto].
Qed.

Lemma effect_same s s' :
  journal s = journal s' -> st_handles s' ⊆ st_handles s -> st_selections s' = st_selections s ->
  effect s s'.
Proof. intros Hj Hh Hs. split; [by rewrite Hj|done|by rewrite Hs]. Qed.

Lemma effect_ok s s' : journal_ok (journal s) -> effect s s' -> journal_ok (journal s').
Proof. intros Hj [J _ _]. by destruct (jsteps_ok _ _ Hj J). Qed.

(** ** Sequencing *)

Lemma effect_bind {A B} (m : M A) (k : A -> M B) s :
  effect s (m s).1 -> (forall a s', m s = (s', Ok a) -> effect s' (k a s').1) ->
  effect s (bind m k s).1.
Proof.
  unfold bind. destruct (m s) as [s' [a|e]]; cbn; intros Hm Hk; [|done]. etrans; [done|]. auto.
Qed.

Lemma effect_lift {A} (r : RuntimeResult A) s : effect s (lift r s).1.
Proof. reflexivity. Qed.

Lemma effect_ret {A} (a : A) s : effect s (ret a s).1.
Proof. reflexivity. Qed.

Lemma effect_bind_lift {A B} (r : RuntimeResult A) (k : A -> M B) s :
  (forall a, r = Ok a -> effect s (k a s).1) -> effect s (bind (lift r) k s).1.
Proof. intros H. apply effect_bind; [done|]. intros a s' [= <- ->]. by apply H. Qed.

Lemma effect_bind_get {B} (k : State -> M B) s :
  effect s (k s s).1 -> effect s (bind get_state k s).1.
Proof. intros H. apply effect_bind; [done|]. by intros a s' [= <- <-]. Qed.

Lemma effect_bind_modify {B} (f : State -> State) (k : unit -> M B) s :
  effect s (f s) -> (forall u, effect (f s) (k u (f s)).1) -> effect s (bind (modify f) k s).1.
Proof. intros Hf Hk. apply effect_bind; [done|]. intros u s' [= <- _]. apply Hk. Qed.

Lemma effect_commit site next s :
  delta (st_registry s) next -> effect s (commit_registry w site next s).1.
Proof.
  intros Hd. unfold commit_registry.
  destruct (w_save w site) as [|written reloaded]; (split; [|done..]); apply rtc_once.
  - by apply jstep_saved.
  - by apply (jstep_failed (st_registry s) (st_disk s) next written reloaded).
Qed.

(** A commit that succeeds leaves the new registry in both places. *)
Lemma commit_Saved site next s s' u :
  commit_registry w site next s = (s', Ok u) -> s' = set_registry next next s.
Proof. unfold commit_registry. destruct (w_save w site); by intros [= <-]. Qed.

Lemma effect_bind_commit {B} site next (k : unit -> M B) s :
  delta (st_registry s) next ->
  (forall s', s' = set_registry next next s -> effect s s' -> effect s' (k tt s').1) ->
  effect s (bind (commit_registry w site next) k s).1.
Proof.
  intros Hd Hk. pose proof (effect_commit site next s Hd) as He.
  apply effect_bind; [done|]. intros [] s' E. pose proof (commit_Saved _ _ _ _ _ E).
  rewrite E in He. by apply Hk.
Qed.

Ltac eff_step :=
  match goal with
  | |- effect _ (lift _ _).1 => apply effect_lift
  | |- effect _ (ret _ _).1 => apply effect_ret
  | |- effect _ (bind (lift _) _ _).1 => apply effect_bind_lift; intros ? ?
  | |- effect _ (bind get_state _ _).1 => apply effect_bind_get
  | |- effect _ (bind (modify _) _ _).1 => apply effect_bind_modify; [|intros _]
  | |- effect _ (bind (commit_registry _ _ _) _ _).1 =>
      apply effect_bind_commit; [|intros ? ? ?]
  | |- effect _ ((if ?b then _ else _) _).1 => let E := fresh "E" in destruct b eqn:E
  end.
Ltac eff := repeat eff_step.

Lemma committed_view_effect id s : effect s (committed_view rt w id s).1.
Proof. unfold committed_view. eff. Qed.

(** ** Workspaces *)

Lemma check_context_Ok s cx rec :
  check_context s cx = Ok rec ->
  workspace (st_registry s) (cx_workspace_id cx) = Some rec /\ context_revision rec = cx_revision cx.
Proof.
  unfold check_context. destruct (workspace _ _) as [r|]; [|done]. intros H. inv_ok. simp_bool.
  by simplify_eq.
Qed.

Lemma completing_delta r id (wid : string) rec :
  wr_id rec = wid -> explicit_count rec = 0 ->
  delta r (complete_operation
    (if is_none (workspace r wid) then with_workspaces r (workspaces r ++ [rec]) else r) id).
Proof.
  intros <- He. destruct (is_none _) eqn:E.
  - simp_bool. apply delta_complete; [by repeat constructor|cbn; lia].
  - pose proof (delta_complete r id [] (Forall_nil_2 _) (Nat.le_0_l _)) as Hd.
    rewrite app_nil_r in Hd. by destruct r.
Qed.

Lemma complete_creation_effect id wid bid s :
  effect s (complete_workspace_creation rt w id wid bid s).1.
Proof.
  unfold complete_workspace_creation. eff_step.
  assert (forall A B (x : option A) (y : bool) (a : A -> M B) (b : M B),
    (forall x', effect s (a x' s).1) -> effect s (b s).1 ->
    effect s ((match x, y with Some x', true => a x' | _, _ => b end) s).1) as Hm.
  { intros A B [x|] [] f g; auto. }
  apply Hm; [intros; eff|]. eff.
  - by apply completing_delta.
  - apply effect_bind; [apply committed_view_effect|]. intros. eff.
Qed.

Lemma create_workspace_effect name id s : effect s (create_workspace json_text rt w name id s).1.
Proof.
  unfold create_workspace. eff. apply effect_bind.
  - destruct (operation (st_registry s) id) as [op|] eqn:Eop; eff.
    simp_bool. apply delta_reserve; [done|done|lia].
  - intros [wid bid] s' _. apply complete_creation_effect.
Qed.

Lemma recover_workspace_effect id s : effect s (recover_workspace rt w id s).1.
Proof.
  unfold recover_workspace. destruct (validate_operation_id id); [|done].
  destruct (operation (st_registry s) id) as [op|]; [|done].
  destruct (op_kind op != CreateWorkspace); [done|].
  destruct (stored_workspace_ids op) as [[wid bid]|]; [|done].
  pose proof (complete_creation_effect id wid bid s) as He.
  by destruct (complete_workspace_creation rt w id wid bid s) as [s' []].
Qed.

Lemma retried_view_effect op kind digest wid s :
  effect s (retried_view rt w op kind digest wid s).1.
Proof. unfold retried_view. eff. Qed.

Lemma rename_workspace_effect cx name id s :
  effect s (rename_workspace json_text rt w cx name id s).1.
Proof.
  unfold rename_workspace. eff.
  destruct (operation (st_registry s) id) as [op|] eqn:Eop; [apply retried_view_effect|]. eff.
  - apply check_context_Ok in H1 as [Hw _]. eapply delta_edit; [done|apply edit_rename|done|by cbn].
  - apply committed_view_effect.
Qed.

(** ** Bindings *)

Lemma check_attach_Ok chosen rec :
  check_attach rt w chosen rec = Ok tt -> explicit_count rec < MAX_EXPLICIT_BINDINGS.
Proof. unfold check_attach, err. intros H. inv_ok. by simp_bool. Qed.

Lemma size_delete_le (id : string) (m : gmap string Selection) : (size (delete id m) <= size m)%nat.
Proof. apply map_subseteq_size, delete_subseteq. Qed.

Lemma attach_directory_effect cx sel id s :
  effect s (attach_directory json_text binding_receipt_value binding_receipt_from rt w cx sel id s).1.
Proof.
  unfold attach_directory. eff. destruct (operation (st_registry s) id) as [op|] eqn:Eop; eff.
  - apply check_context_Ok in H0 as [Hw _]. destruct a2. apply check_attach_Ok in H2.
    eapply delta_edit; [done|by apply edit_attach|done|by cbn].
  - split; [done|done|]. cbn. pose proof (size_delete_le sel (st_selections s')). lia.
  - apply effect_bind; [apply committed_view_effect|]. intros. eff.
Qed.

Lemma detach_directory_effect cx bid id s : effect s (detach_directory json_text rt w cx bid id s).1.
Proof.
  unfold detach_directory. eff.
  destruct (operation (st_registry s) id) as [op|] eqn:Eop; [apply retried_view_effect|]. eff.
  destruct (find _ (wr_bindings a0)) as [b|]; eff.
  - apply check_context_Ok in H0 as [Hw _]. eapply delta_edit; [done|apply edit_detach|done|by cbn].
  - apply effect_same; [done|apply map_filter_subseteq|done].
  - apply committed_view_effect.
Qed.

(** ** Selections *)

Lemma begin_selection_effect cx s : effect s (begin_directory_selection cx s).1.
Proof. unfold begin_directory_selection. eff. by apply effect_same. Qed.

Lemma older_of_some best e : is_Some (older_of best e).
Proof. unfold older_of. destruct best as [b|]; [destruct (_ <? _)|]; eauto. Qed.

Lemma oldest_fold l best :
  is_Some best \/ l <> [] -> is_Some (fold_left older_of l best).
Proof.
  revert best. induction l as [|e l IH]; intros best [H|H]; cbn; try done; apply IH; left;
    apply older_of_some.
Qed.

Lemma oldest_fold_elem l best b :
  fold_left older_of l best = Some b -> b ∈ l \/ best = Some b.
Proof.
  revert best. induction l as [|e l IH]; intros best; cbn; [auto|]. intros [H|H]%IH; [set_solver|].
  destruct best as [b'|]; cbn in H; [destruct (_ <? _)|]; simplify_eq; set_solver.
Qed.

Lemma oldest_Some m : m <> ∅ -> exists id sel, oldest m = Some id /\ m !! id = Some sel.
Proof.
  intros Hm. destruct (oldest_fold (map_to_list m) None) as [[id sel] Hb].
  { right. intros H. by apply map_to_list_empty_iff in H. }
  exists id, sel. unfold oldest. rewrite Hb. split; [done|].
  apply oldest_fold_elem in Hb as [Hb|]; [|done]. by apply elem_of_map_to_list.
Qed.

(** The loop ends with room for one more, whatever number of turns that takes. *)
Lemma make_room_size m fuel :
  (size m <= fuel)%nat -> Z.of_nat (size (make_room fuel m)) < MAX_SELECTIONS.
Proof.
  revert m. induction fuel as [|fuel IH]; intros m Hf; cbn.
  - unfold MAX_SELECTIONS. lia.
  - destruct (_ <? _) eqn:E; simp_bool; [done|].
    destruct (oldest_Some m) as (id & sel & -> & Hs).
    { intros ->. rewrite map_size_empty in E. unfold MAX_SELECTIONS in E. lia. }
    apply IH. rewrite map_size_delete_Some by eauto.
    assert (size m <> O); [|lia]. intros H0%map_size_empty_inv. by subst.
Qed.

Lemma finish_selection_effect ticket chosen s :
  effect s (finish_directory_selection rt w ticket chosen s).1.
Proof.
  unfold finish_directory_selection. eff; [by apply effect_same|].
  destruct chosen as [chosen|]; eff. split; [done|done|]. intros _. cbn.
  match goal with
  | |- context [make_room ?f ?m] =>
      pose proof (make_room_size m f (Nat.le_refl _)) as Hr; set (room := make_room f m) in *
  end.
  rewrite map_size_insert. destruct (room !! _); unfold MAX_SELECTIONS, id in *; lia.
Qed.

(** ** Files *)

Lemma list_workspaces_effect s : effect s (list_workspaces rt w s).1.
Proof. unfold list_workspaces. eff. Qed.

Lemma list_entries_effect cx target cursor s : effect s (list_entries rt w cx target cursor s).1.
Proof. unfold list_entries. eff. Qed.

Lemma read_file_effect cx h offset length s : effect s (read_file w cx h offset length s).1.
Proof.
  unfold read_file. eff; [apply effect_same; [done|apply map_filter_subseteq|done]|].
  destruct (_ !! _); eff.
Qed.

Lemma close_read_effect cx h s : effect s (close_read cx h s).1.
Proof.
  unfold close_read, modify. cbn. destruct (is_some_and _ _); [|done].
  apply effect_same; [done|apply delete_subseteq|done].
Qed.

Lemma complete_create_effect id digest receipt s :
  not_creation (st_registry s) id ->
  effect s (complete_create file_receipt_value w id digest receipt s).1.
Proof. intros Hn. unfold complete_create. eff. by apply delta_file. Qed.

(** An identifier that is not a creation stays so over one commit. *)
Lemma not_creation_commit site next s id op :
  journal_ok (journal s) -> delta (st_registry s) next ->
  op ∈ operations (st_registry s) -> op_id op = id -> op_kind op <> CreateWorkspace ->
  not_creation (st_registry (commit_registry w site next s).1) id.
Proof.
  intros Hj Hd Hop Hid Hk op' Hop' Hid' Hk'. apply Hk.
  assert (jstep (journal s) (journal (commit_registry w site next s).1)) as Hs.
  { unfold commit_registry. destruct (w_save w site) as [|written reloaded].
    - by apply jstep_saved.
    - by apply (jstep_failed (st_registry s) (st_disk s) next written reloaded). }
  apply jstep_ok in Hs as (_ & _ & T); [|done]. eapply T; [done..|congruence|done].
Qed.

(** The identifier is recorded as the creation of a file. *)
Definition file_pending (s : State) (id : string) : Prop :=
  exists op, op ∈ operations (st_registry s) /\ op_id op = id /\ op_kind op = CreateFile.

Lemma file_pending_not_creation s id :
  journal_ok (journal s) -> file_pending s id -> not_creation (st_registry s) id.
Proof.
  intros [Hwf _ _ _] (op & Hop & Hid & Hk) op' Hop' Hid'. cbn in Hwf.
  rewrite (NoDup_key op_id _ op' op Hwf) by congruence. congruence.
Qed.

Lemma create_new_file_effect cx target content sha id s :
  journal_ok (journal s) -> file_pending s id ->
  let s' := (create_new_file rt w cx target content sha id s).1 in
  effect s s' /\ not_creation (st_registry s') id.
Proof.
  intros Hj Hp. pose proof (file_pending_not_creation _ _ Hj Hp) as Hn.
  assert (forall A B (r : RuntimeResult A) (k : A -> M B),
    (forall a, r = Ok a -> effect s (k a s).1 /\ not_creation (st_registry (k a s).1) id) ->
    effect s (bind (lift r) k s).1 /\ not_creation (st_registry (bind (lift r) k s).1) id) as Hl.
  { intros A B [a|e] k Hk; cbn; [by apply Hk|]. split; [reflexivity|done]. }
  unfold create_new_file. cbn zeta.
  change (bind get_state ?k s) with (k s s). cbv beta.
  apply Hl; intros rec _. apply Hl; intros [dir leaf] _. apply Hl; intros file _.
  destruct (w_fstat_file w 0 file) as [created|]; [|split; [reflexivity|done]].
  set (next := record_identity _ _ _). assert (delta (st_registry s) next) as Hd
    by by apply delta_identity.
  pose proof (effect_commit 1 next s Hd) as He.
  destruct Hp as (op & Hop & Hid & Hk).
  assert (not_creation (st_registry (commit_registry w 1 next s).1) id) as Hn1.
  { eapply not_creation_commit; [done..|congruence]. }
  destruct (commit_registry w 1 next s) as [s1 [u|e]]; [|done].
  repeat (case_match; [|done]); repeat case_match; done.
Qed.

Lemma create_and_record_effect cx target content sha id digest s :
  journal_ok (journal s) -> file_pending s id ->
  effect s (create_and_record file_receipt_value rt w cx target content sha id digest s).1.
Proof.
  intros Hj Hp. unfold create_and_record.
  destruct (create_new_file_effect cx target content sha id s Hj Hp) as [He Hn].
  destruct (create_new_file rt w cx target content sha id s) as [s1 [receipt|e]]; cbn in *.
  - etrans; [done|]. by apply complete_create_effect.
  - destruct (_ == _); [done|]. etrans; [done|]. cbn. by apply effect_commit, delta_forget.
Qed.

Lemma create_file_effect cx parent name content id s :
  journal_ok (journal s) ->
  effect s (create_file json_text file_receipt_value file_receipt_from rt w cx parent name content
              id s).1.
Proof.
  intros Hj. unfold create_file. eff.
  destruct (operation (st_registry s) id) as [op|] eqn:Eop; eff.
  - simp_bool. apply operation_elem in Eop as [Hop Hid].
    assert (file_pending s id) as Hp by by exists op.
    destruct a3 as [stat|]; [|by apply create_and_record_effect].
    by apply complete_create_effect, file_pending_not_creation.
  - assert (delta (st_registry s) (upsert_operation (st_registry s)
        {| op_id := id; op_kind := CreateFile;
           op_digest := operation_digest json_text CreateFile
             (VArray [VString (cx_workspace_id cx);
                local_ref_value {| lf_binding_id := lf_binding_id parent;
                                   lf_locator := lf_locator parent ++ [name] |};
                VString (sha256_hex (content_bytes content)); VNumber (NInt (len content))]);
           op_state := OpPending; op_result := VNull |})) as Hd
      by by apply delta_file; [apply not_creation_None|].
    set (next := upsert_operation _ _) in *. pose proof (effect_commit 0 next s Hd) as He.
    apply effect_bind; [by destruct (commit_registry w 0 next s) as [s1 []]|].
    intros u s1 Hrun. destruct (commit_registry w 0 next s) as [s1' []] eqn:Ec; [|done].
    simplify_eq. pose proof (commit_Saved _ _ _ _ _ Ec) as ->.
    apply create_and_record_effect; [by eapply effect_ok|].
    eexists. split; [apply upsert_found|done].
Qed.
End Effects.
