(* ===== verification/LocalTheorems.v ===== *)
(** * LocalTheorems: what the local broker guarantees over every run

    Runs are arbitrary sequences of operations and restarts, with arbitrary answers of the
    operating system at every call, failed and half-failed saves included. *)
From stdpp Require Import base gmap sets list strings pretty vector.
From Stdlib Require Import ZArith Lia Ascii.
From S2P Require Import Prelude Text Manifest Json.
From S2P Require Import Base64 LocalRegistry LocalBroker LocalFiles LocalRuns.
From S2P Require Import LocalJournal LocalEffects.

Local Open Scope Z_scope.

Section Theorems.
Context {F : Floats} {D : Digest}.
Context (json_text : Value -> string)
  (binding_receipt_value : BindingReceipt -> Value)
  (binding_receipt_from : Value -> option BindingReceipt)
  (file_receipt_value : FileReceipt -> Value)
  (file_receipt_from : Value -> option FileReceipt).

Abbreviation exec_op := (exec_op json_text binding_receipt_value binding_receipt_from
  file_receipt_value file_receipt_from).
Abbreviation exec := (exec json_text binding_receipt_value binding_receipt_from
  file_receipt_value file_receipt_from).
Abbreviation run := (run json_text binding_receipt_value binding_receipt_from
  file_receipt_value file_receipt_from).

(** ** Snapshots have the size that was checked *)

Lemma read_loop_length w copy file fuel call offset want bs :
  (want <= fuel)%nat -> read_loop w copy file fuel call offset want = Ok bs -> length bs = want.
Proof.
  revert call offset want bs. induction fuel as [|fuel IH]; intros call offset want bs Hf; cbn.
  - intros [= <-]. cbn. lia.
  - destruct want as [|n]; [by intros [= <-]|]. intros H. inv_ok.
    unfold read_at in Hok. inv_ok. subst.
    pose proof (f_equal length Hok) as Hl. rewrite length_take in Hl. cbn [length] in Hl.
    apply IH in Hok0; cbn [length] in *; [|lia]. rewrite length_app. lia.
Qed.

Lemma read_stable_length w file stat bs :
  read_stable w file stat = Ok bs -> len bs = Z.of_N (st_size stat).
Proof.
  unfold read_stable, err. intros H. inv_ok. subst. unfold read_all_at in *. inv_ok.
  repeat (case_match; [|done]). simplify_eq. unfold len.
  match goal with H : read_loop _ 0 _ _ _ _ _ = Ok ?a |- context [?a] =>
    apply read_loop_length in H; [|done] end. lia.
Qed.

(** ** Handles *)

Definition attached (rec : WorkspaceRecord) (binding_id : string) : Prop :=
  exists b, b ∈ wr_bindings rec /\ br_id b = binding_id.

(** A handle was opened at a revision the workspace has reached, and while it is the current
    one its binding is attached. *)
Definition handle_ok (r : RegistryFile) (h : HandleEntry) : Prop :=
  exists rec n, workspace r (he_workspace_id h) = Some rec
  /\ he_context_revision h = "c" +:+ pretty n /\ n <= wr_revision_binding rec
  /\ (n = wr_revision_binding rec -> attached rec (he_binding_id h)).

Lemma handle_ok_advances r r' h : advances r r' -> handle_ok r h -> handle_ok r' h.
Proof.
  intros [Aw _] (rec & n & Hw & Hc & Hn & Hb). apply Aw in Hw as (rec' & Hw' & A).
  exists rec', n. split; [done|]. split; [done|].
  destruct A as [?|[Hr Heq]]; [split; [lia|lia]|]. split; [lia|].
  intros ->. rewrite <-Hr in *. destruct Hb as (b & Hb & Hid); [done|]. exists b.
  by rewrite <-Heq.
Qed.

Definition registry_ok (r : RegistryFile) : Prop :=
  count pending_creation (operations r) <= MAX_PENDING_CREATIONS
  /\ Forall (fun rec => explicit_count rec <= MAX_EXPLICIT_BINDINGS) (workspaces r).

Record broker_ok (s : State) : Prop := {
  bo_journal : journal_ok (journal s);
  bo_handles : map_Forall (fun _ h => handle_ok (st_registry s) h) (st_handles s);
  bo_registries : registry_ok (st_registry s) /\ registry_ok (st_disk s);
  bo_handle_count : Z.of_nat (size (st_handles s)) <= MAX_READ_HANDLES;
  bo_retained : retained_bytes (st_handles s) <= MAX_RETAINED_SNAPSHOT_BYTES;
  bo_selections : Z.of_nat (size (st_selections s)) <= MAX_SELECTIONS
}.

(** ** Bounds of a registry *)

Lemma count_sublist {A} (p : A -> bool) l k : sublist l k -> count p l <= count p k.
Proof. induction 1; rewrite ?count_cons; [done|lia|destruct (p x); lia]. Qed.

Lemma count_replace_first {A} (p q : A -> bool) (r : A) l :
  p r = false -> count p (replace_first q r l) <= count p l.
Proof.
  intros Hr. induction l as [|y l IH]; cbn; [done|].
  destruct (q y); rewrite !count_cons, ?Hr; [destruct (p y); lia|lia].
Qed.

Lemma upsert_pending r op :
  count pending_creation (operations (upsert_operation r op))
  <= count pending_creation (operations r)
     + (if is_some (operation r (op_id op)) then 0 else if pending_creation op then 1 else 0)
  \/ pending_creation op = true /\ is_some (operation r (op_id op)) = true.
Proof.
  unfold upsert_operation. destruct (is_some _) eqn:E; cbn [operations with_operations].
  - destruct (pending_creation op) eqn:Ep; [by right|]. left.
    rewrite Z.add_0_r. by apply count_replace_first.
  - left. etrans; [apply count_sublist, evict_loop_sublist|].
    by rewrite count_app, count_cons, Z.add_0_r.
Qed.

Lemma upsert_not_pending r op :
  op_kind op <> CreateWorkspace ->
  count pending_creation (operations (upsert_operation r op))
  <= count pending_creation (operations r).
Proof.
  intros Hk. assert (pending_creation op = false) as Hp.
  { unfold pending_creation. by rewrite bool_decide_eq_false_2. }
  destruct (upsert_pending r op) as [H|[? _]]; [|congruence]. rewrite Hp in H.
  destruct (is_some _); lia.
Qed.

Lemma count_update_first_le {A} (p q : A -> bool) (g : A -> A) l :
  (forall x, p (g x) = true -> p x = true) -> count p (update_first q g l) <= count p l.
Proof.
  intros Hg. induction l as [|x l IH]; cbn; [done|]. specialize (Hg x).
  destruct (q x); rewrite !count_cons; [|destruct (p x); lia].
  destruct (p (g x)), (p x); try lia.
Qed.

Lemma edit_explicit rec f :
  edit rec f -> explicit_count rec <= MAX_EXPLICIT_BINDINGS -> explicit_count (f rec) <=
    MAX_EXPLICIT_BINDINGS.
Proof.
  unfold explicit_count. destruct 1 as [name|b Hb Hlt|id]; cbn [wr_bindings renamed with_bindings].
  - done.
  - intros _. rewrite count_app, count_cons, bool_decide_eq_true_2 by done.
    unfold explicit_count in Hlt. change (count _ []) with 0. lia.
  - intros H. etrans; [apply count_sublist, filter_sublist|done].
Qed.

Lemma update_workspace_ok r wid rec f :
  workspace r wid = Some rec -> edit rec f -> registry_ok r -> registry_ok (update_workspace r wid
    f).
Proof.
  intros Hw He [Hp Hf]. split; [done|]. cbn [workspaces update_workspace with_workspaces].
  unfold workspace in Hw. revert Hw Hf. induction (workspaces r) as [|x l IH]; cbn; [done|].
  case_bool_decide; [intros [= ->]|intros Hw]; rewrite !Forall_cons; intros [Hx Hf].
  - split; [by apply edit_explicit|done].
  - auto.
Qed.

Lemma delta_registry_ok r r' : registry_ok r -> delta r r' -> registry_ok r'.
Proof.
  intros Hr [op Hn Hp Hlt|id new Hnew _|wid rec f op Hw He Hn Hk|op Hn Hk|id fid Hn|id Hn].
  - destruct Hr as [_ Hf]. split; [|by rewrite upsert_workspaces].
    destruct (upsert_pending r op) as [H|[_ H]]; rewrite Hn in H; [|done]. cbn in H.
    rewrite Hp in H. unfold MAX_PENDING_CREATIONS in *. lia.
  - destruct Hr as [Hp Hf]. split.
    + etrans; [|done]. apply count_update_first_le. intros x.
      unfold pending_creation. cbn. by rewrite andb_false_r.
    + cbn [workspaces complete_operation with_operations with_workspaces].
      apply Forall_app. split; [done|]. eapply Forall_impl; [done|]. cbn. intros x [_ ->].
      unfold MAX_EXPLICIT_BINDINGS. lia.
  - pose proof (update_workspace_ok _ _ _ _ Hw He Hr) as [Hp Hf].
    split; [|by rewrite upsert_workspaces]. etrans; [by apply upsert_not_pending|done].
  - destruct Hr as [Hp Hf]. split; [|by rewrite upsert_workspaces].
    etrans; [apply upsert_not_pending; congruence|done].
  - destruct Hr as [Hp Hf]. split; [|done]. etrans; [|done]. by apply count_update_first_le.
  - destruct Hr as [Hp Hf]. split; [|done]. etrans; [|done]. apply count_sublist, filter_sublist.
Qed.

(** ** Retained bytes *)

Definition bytes_sum (l : list (string * HandleEntry)) : Z :=
  foldr (fun e n => len (he_bytes e.2) + n) 0 l.

Lemma retained_sum m : retained_bytes m = bytes_sum (map_to_list m).
Proof.
  unfold retained_bytes. rewrite map_fold_foldr. unfold bytes_sum.
  induction (map_to_list m) as [|[k h] l IH]; cbn; [done|]. by rewrite IH.
Qed.

Lemma bytes_sum_perm l k : Permutation l k -> bytes_sum l = bytes_sum k.
Proof. unfold bytes_sum. induction 1; cbn; lia. Qed.

Lemma bytes_sum_submseteq l k : l ⊆+ k -> bytes_sum l <= bytes_sum k.
Proof.
  unfold bytes_sum.
  induction 1 as [|x l k _ IH|x y l|x l k _ IH|l1 l2 l3 _ IH1 _ IH2]; cbn; try lia.
  pose proof (len_nonneg (he_bytes x.2)). lia.
Qed.

Lemma retained_subseteq m m' : m ⊆ m' -> retained_bytes m <= retained_bytes m'.
Proof.
  intros H. rewrite !retained_sum. by apply bytes_sum_submseteq, map_to_list_submseteq.
Qed.

Lemma retained_insert k h m : retained_bytes (<[k := h]> m) <= len (he_bytes h) + retained_bytes m.
Proof.
  rewrite <-insert_delete_eq. rewrite retained_sum.
  rewrite (bytes_sum_perm _ _ (map_to_list_insert _ _ _ (lookup_delete_eq m k))).
  pose proof (retained_subseteq _ _ (delete_subseteq m k)) as H. rewrite !retained_sum in *.
  cbn [bytes_sum foldr snd]. unfold bytes_sum in *. lia.
Qed.

(** ** Every step keeps the invariant *)

Lemma effect_broker_ok s s' : broker_ok s -> effect s s' -> broker_ok s'.
Proof.
  intros [Bj Bh Br Bc Bb Bs] [J H S]. destruct (jsteps_ok _ _ Bj J) as [Bj' A]. split; try done.
  - intros id h Hh. eapply handle_ok_advances; [done|]. eapply Bh. by eapply lookup_weaken.
  - apply (jsteps_invariant registry_ok (journal s) (journal s') delta_registry_ok Br J).
  - apply map_subseteq_size in H. lia.
  - apply retained_subseteq in H. lia.
  - auto.
Qed.

Lemma exec_op_effect rt w op s :
  journal_ok (journal s) -> (forall cx target id, op <> OOpenRead cx target id) ->
  effect s (exec_op rt w op s).1.
Proof.
  intros Hj Hop. destruct op; unfold LocalRuns.exec_op, answered.
  - pose proof (list_workspaces_effect rt w s). by destruct (list_workspaces rt w s).
  - pose proof (create_workspace_effect json_text rt w name operation_id s) as H.
    by destruct (create_workspace json_text rt w name operation_id s).
  - pose proof (recover_workspace_effect rt w operation_id s) as H.
    by destruct (recover_workspace rt w operation_id s).
  - pose proof (rename_workspace_effect json_text rt w context name operation_id s) as H.
    by destruct (rename_workspace json_text rt w context name operation_id s).
  - pose proof (begin_selection_effect context s) as H.
    by destruct (begin_directory_selection context s).
  - pose proof (finish_selection_effect rt w ticket chosen s) as H.
    by destruct (finish_directory_selection rt w ticket chosen s).
  - pose proof (attach_directory_effect json_text binding_receipt_value binding_receipt_from rt w
      context selection_id operation_id s) as H.
    by destruct (attach_directory _ _ _ _ _ _ _ _ s).
  - pose proof (detach_directory_effect json_text rt w context binding_id operation_id s) as H.
    by destruct (detach_directory _ _ _ _ _ _ s).
  - pose proof (list_entries_effect rt w context target cursor s) as H.
    by destruct (list_entries rt w context target cursor s).
  - by destruct (Hop context target expected_file_identity).
  - pose proof (read_file_effect w context read_handle_id offset length s) as H.
    by destruct (read_file w context read_handle_id offset length s).
  - pose proof (close_read_effect context read_handle_id s) as H.
    by destruct (close_read context read_handle_id s).
  - pose proof (create_file_effect json_text file_receipt_value file_receipt_from rt w context
      parent name content operation_id s Hj) as H.
    by destruct (create_file _ _ _ _ _ _ _ _ _ _ s).
  - by split.
Qed.

Lemma binding_attached rec id b : LocalFiles.binding rec id = Ok b -> attached rec id.
Proof.
  unfold LocalFiles.binding. intros H. inv_ok. apply find_Some_iff in H as [? ?]. simp_bool.
  by exists b.
Qed.

Lemma open_parent_attached rt w site rec target d :
  open_parent rt w site rec target = Ok d -> attached rec (lf_binding_id target).
Proof.
  unfold open_parent, err. intros H. inv_ok. destruct (split_last _) as [[name parents]|]; [|done].
  inv_ok. by eapply binding_attached.
Qed.

(** Opening a handle under the current context, within the limits. *)
Lemma insert_handle_ok s m id h :
  broker_ok s -> m ⊆ st_handles s -> handle_ok (st_registry s) h ->
  Z.of_nat (size m) < MAX_READ_HANDLES ->
  retained_bytes m + len (he_bytes h) <= MAX_RETAINED_SNAPSHOT_BYTES ->
  broker_ok (set_handles (<[id := h]> m) s).
Proof.
  intros [Bj Bh Br Bc Bb Bs] Hm Hh Hc Hb. split; try done; cbn.
  - apply map_Forall_insert_2; [done|]. intros id' h' Hl. eapply Bh. by eapply lookup_weaken.
  - rewrite map_size_insert. destruct (m !! id); unfold MAX_READ_HANDLES, Datatypes.id in *; lia.
  - pose proof (retained_insert id h m). lia.
Qed.

Lemma open_read_ok rt w cx target fid s :
  broker_ok s -> broker_ok (open_read rt w cx target fid s).1.
Proof.
  intros Hs. unfold open_read, bind, lift, ret, get_state, modify. cbn -[retained_bytes].
  destruct (check_context s cx) as [rec|] eqn:Ec; [|done]. cbn -[retained_bytes].
  destruct (open_parent rt w 0 rec target) as [[parent name]|] eqn:Ep; [|done].
  cbn -[retained_bytes].
  destruct (w_open_child_file w 0 parent name) as [[file stat]|]; [|done]. cbn -[retained_bytes].
  destruct (negb _); [done|]. destruct (_ <? _); [done|]. destruct (_ != _); [done|].
  set (live := filter _ (st_handles s)). assert (live ⊆ st_handles s) as Hl
    by apply map_filter_subseteq.
  assert (broker_ok (set_handles live s)) as Hs'.
  { eapply effect_broker_ok; [done|]. by apply effect_same. }
  destruct (_ || _) eqn:Elim; [done|]. cbn -[retained_bytes]. simp_bool.
  destruct (read_stable w file stat) as [content|] eqn:Er; [|done]. cbn -[retained_bytes].
  apply read_stable_length in Er.
  apply (insert_handle_ok s live); [done..| |lia|cbn; lia].
  apply check_context_Ok in Ec as [Hw Hrev]. apply open_parent_attached in Ep.
  exists rec, (wr_revision_binding rec). cbn. by rewrite <-Hrev.
Qed.

(** A start from a registry on disk adopts exactly that registry. *)
Lemma open_adopts w requested opts disk b :
  (open_with_options w requested opts (Some disk)).2 = Ok b ->
  st_registry b.2 = disk /\ st_disk b.2 = disk /\ st_handles b.2 = ∅ /\ st_selections b.2 = ∅.
Proof.
  unfold open_with_options.
  match goal with |- context [match ?p with Ok _ => _ | Err _ => _ end] => set (prepared := p) end.
  destruct prepared as [[[root dir] loaded]|] eqn:E; [|done]. unfold prepared, load in E. inv_ok.
  simplify_eq. cbn. intros H. inv_ok. by subst.
Qed.

Lemma open_broker_ok w requested opts disk b :
  ops_wf disk -> registry_ok disk ->
  (open_with_options w requested opts (Some disk)).2 = Ok b -> broker_ok b.2.
Proof.
  intros Hwf Hr (Hm & Hd & Hh & Hs)%open_adopts.
  split; unfold journal; rewrite ?Hm, ?Hd, ?Hh, ?Hs; try done. by apply journal_ok_same.
Qed.

Lemma exec_broker_ok w op b : broker_ok b.2 -> broker_ok (exec w op b).1.2.
Proof.
  destruct b as [rt s]. intros Hs. cbn in Hs. unfold LocalRuns.exec.
  destruct op eqn:Eop.
  14: { destruct (open_with_options w requested opts (Some (st_disk s))).2 as [b'|] eqn:E; [|done].
        eapply open_broker_ok; [| |done];
          [apply (jo_disk _ (bo_journal _ Hs))|apply bo_registries, Hs]. }
  10: { pose proof (open_read_ok rt w context target expected_file_identity s Hs) as H.
        cbn. unfold answered. by destruct (open_read _ _ _ _ _ s). }
  all: rewrite <-Eop;
    pose proof (exec_op_effect rt w op s (bo_journal _ Hs)) as He;
    destruct (exec_op rt w op s); cbn; (eapply effect_broker_ok; [done|]); apply He; by rewrite Eop.
Qed.

(** ** Runs *)

Lemma exec_advances w op b :
  broker_ok b.2 -> advances (st_registry b.2) (st_registry (exec w op b).1.2).
Proof.
  destruct b as [rt s]. intros Hs. cbn in Hs. unfold LocalRuns.exec. destruct op eqn:Eop.
  14: { destruct (open_with_options w requested opts (Some (st_disk s))).2 as [b'|] eqn:E; [|done].
        apply open_adopts in E as (Hm & _). cbn. rewrite Hm.
        apply (jo_advances _ (bo_journal _ Hs)). }
  10: { cbn. unfold answered, open_read, bind, lift, ret, get_state, modify.
        repeat (case_match; simplify_eq; try done). }
  all: rewrite <-Eop;
    pose proof (exec_op_effect rt w op s (bo_journal _ Hs)) as He;
    destruct (exec_op rt w op s); cbn;
    (destruct He as [J _ _]; [by rewrite Eop|]);
    apply (jsteps_ok _ _ (bo_journal _ Hs) J).
Qed.

(** Every step of a run starts in a good state, and the registry only advances after it. *)
Lemma run_log steps b :
  broker_ok b.2 ->
  broker_ok (run steps b).1.2 /\ advances (st_registry b.2) (st_registry (run steps b).1.2)
  /\ Forall (fun e => broker_ok e.1.1.2 /\ exists w b1, exec w e.1.2 e.1.1 = (b1, e.2)
       /\ advances (st_registry b1.2) (st_registry (run steps b).1.2)) (run steps b).2.
Proof.
  revert b. induction steps as [|[w op] steps IH]; intros b Hb;
    [split; [done|]; split; [reflexivity|constructor]|].
  cbn [LocalRuns.run].
  pose proof (exec_broker_ok w op b Hb) as Hb'. pose proof (exec_advances w op b Hb) as Ha.
  destruct (exec w op b) as [b1 a] eqn:E. cbn in Hb', Ha. destruct (IH b1 Hb') as (H1 & H2 & H3).
  destruct (run steps b1) as [b2 log]. cbn in *. split; [done|]. split; [by etrans|].
  constructor; [|done]. cbn. split; [done|]. by exists w, b1.
Qed.

(** The [i]-th record of a log is of the [i]-th step, taken in its world. *)
Lemma run_lookup steps b i e :
  (run steps b).2 !! i = Some e ->
  exists w b1, steps !! i = Some (w, e.1.2) /\ exec w e.1.2 e.1.1 = (b1, e.2).
Proof.
  revert b i. induction steps as [|[w op] steps IH]; intros b i; cbn [LocalRuns.run]; [done|].
  destruct (exec w op b) as [b1 a] eqn:E. specialize (IH b1). destruct (run steps b1) as [b2 log].
  destruct i as [|i]; cbn; [|apply IH]. intros [= <-]. by exists w, b1.
Qed.

Lemma first_open_ok w requested opts disk b :
  open_with_options w requested opts None = (disk, Ok b) -> broker_ok b.2.
Proof.
  unfold open_with_options.
  match goal with |- context [match ?p with Ok _ => _ | Err _ => _ end] => set (prepared := p) end.
  destruct prepared as [[[root dir] loaded]|] eqn:E; [|done]. unfold prepared, load in E. inv_ok.
  simplify_eq. unfold first_registry. destruct (w_save w 0); [|done].
  intros [= _ H]. inv_ok. subst. split; cbn; try done.
  apply journal_ok_same. constructor.
Qed.

(** ** Creating a workspace *)

(** The identities an answer grants: the operation, the workspace and its managed binding. *)
Definition granted (a : Answer) : option (string * (string * string)) :=
  let of_receipt r := (wrc_operation_id r, (wrc_workspace_id r, wrc_managed_binding_id r)) in
  match a with
  | ACreated (Ok c) => Some (of_receipt (created_receipt c))
  | AOutcome (OutcomeReady r) => Some (of_receipt r)
  | _ => None
  end.

Definition promised (r : RegistryFile) (id : string) (ids : string * string) : Prop :=
  (exists op, op ∈ operations r /\ op_id op = id /\ op_kind op = CreateWorkspace
    /\ stored_workspace_ids op = Ok ids)
  /\ exists rec, workspace r ids.1 = Some rec.

Lemma promised_advances r r' id ids : advances r r' -> promised r id ids -> promised r' id ids.
Proof.
  intros [Aw Ac] [(op & Hop & Hid & Hk & Hst) [rec Hw]]. split.
  - destruct (Ac _ Hop Hk) as (op' & Hop' & (Pi & Pk & _ & Pr)). exists op'.
    unfold stored_workspace_ids in *. rewrite <-Pi, <-Pk, <-Pr. done.
  - apply Aw in Hw as (rec' & ? & _). by exists rec'.
Qed.

Lemma promised_unique r id ids ids' :
  ops_wf r -> promised r id ids -> promised r id ids' -> ids = ids'.
Proof.
  intros Hwf [(op & Hop & Hid & _ & Hs) _] [(op' & Hop' & Hid' & _ & Hs') _].
  rewrite (NoDup_key op_id _ op op' Hwf) in Hs by congruence. congruence.
Qed.

Lemma complete_creation_grants rt w id wid bid s s' c :
  complete_workspace_creation rt w id wid bid s = (s', Ok c) ->
  granted (ACreated (Ok c)) = Some (id, (wid, bid))
  /\ exists rec, workspace (st_registry s') wid = Some rec.
Proof.
  unfold complete_workspace_creation. change (bind get_state ?k s) with (k s s). cbv beta zeta.
  set (fin := is_some_and _ _). set (name := unwrap_or _ _).
  assert (forall next, (let! root := lift (managed_root rt w bid) in
      do! commit_registry w 5 (next root) in
      let! v := committed_view rt w wid in
      ret {| created_receipt := {| wrc_operation_id := id; wrc_workspace_id := wid;
                                   wrc_managed_binding_id := bid; wrc_runtime_revision := "1" |};
             created_workspace := v |}) s = (s', Ok c) ->
    granted (ACreated (Ok c)) = Some (id, (wid, bid))
    /\ exists rec, workspace (st_registry s') wid = Some rec) as Hmake.
  { intros next. unfold bind at 1, lift. destruct (managed_root rt w bid) as [root|]; [|done].
    unfold bind at 1. destruct (commit_registry w 5 _ s) as [s1 []]; [|done].
    unfold committed_view, bind, get_state, lift, ret.
    destruct (workspace (st_registry s1) wid) as [rec|] eqn:Ew; [|done].
    intros [= <- <-]. split; [done|]. by exists rec. }
  destruct (workspace (st_registry s) wid) as [rec|] eqn:Ew; destruct fin;
    try (exact (Hmake (fun root => complete_operation _ id))).
  intros [= <- <-]. split; [done|]. by exists rec.
Qed.

(** The promise is recorded when the identities are completed from a stored creation. *)
Lemma complete_creation_promises rt w id wid bid s s' c op :
  journal_ok (journal s) -> operation (st_registry s) id = Some op ->
  op_kind op = CreateWorkspace -> stored_workspace_ids op = Ok (wid, bid) ->
  complete_workspace_creation rt w id wid bid s = (s', Ok c) ->
  granted (ACreated (Ok c)) = Some (id, (wid, bid)) /\ promised (st_registry s') id (wid, bid).
Proof.
  intros Hj Hop Hk Hst H. pose proof (complete_creation_effect rt w id wid bid s) as [J _ _].
  destruct (complete_creation_grants _ _ _ _ _ _ _ _ H) as [Hg Hw]. rewrite H in J.
  split; [done|]. apply operation_elem in Hop as [Hop Hid].
  destruct (jsteps_ok _ _ Hj J) as [_ [_ Ac]].
  destruct (Ac _ Hop Hk) as (op' & Hop' & (Pi & Pk & _ & Pr)).
  split; [|done]. exists op'. unfold stored_workspace_ids in *.
  rewrite <-Pi, <-Pk, <-Pr. done.
Qed.

Lemma create_workspace_promises rt w name id s s' c :
  journal_ok (journal s) -> create_workspace json_text rt w name id s = (s', Ok c) ->
  exists ids, granted (ACreated (Ok c)) = Some (id, ids) /\ promised (st_registry s') id ids.
Proof.
  intros Hj. unfold create_workspace. unfold bind at 1, lift at 1.
  destruct (validate_operation_id id); [|done]. unfold bind at 1, lift at 1.
  destruct (normalize_workspace_name name) as [nm|]; [|done].
  change (bind get_state ?k s) with (k s s). cbv beta zeta. unfold bind at 1.
  destruct (operation (st_registry s) id) as [op|] eqn:Eop.
  - destruct (_ || _) eqn:Eg; [done|]. simp_bool. unfold lift.
    destruct (stored_workspace_ids op) as [[wid bid]|] eqn:Est; [|done].
    intros Hrun. exists (wid, bid). by eapply complete_creation_promises.
  - destruct (_ || _) eqn:Eg; [done|]. simp_bool.
    match goal with |- context [commit_registry w 0 (upsert_operation _ ?o)] => set (op := o) end.
    assert (delta (st_registry s) (upsert_operation (st_registry s) op)) as Hd
      by (apply delta_reserve; [done|done|lia]).
    pose proof (effect_ok _ _ Hj (effect_commit w 0 _ s Hd)) as Hj1.
    unfold bind at 1, ret. destruct (commit_registry w 0 _ s) as [s1 []] eqn:Ec; [|done].
    apply commit_Saved in Ec. intros Hrun. cbn in Hj1.
    exists (random_id w 0 "w_", random_id w 1 "b_").
    apply (complete_creation_promises rt w id (random_id w 0 "w_") (random_id w 1 "b_") s1 s' c op Hj1); [|done|done|exact Hrun].
    subst s1. cbn. apply (operation_of_elem _ op); [apply Hj1|apply upsert_found].
Qed.

Lemma recover_workspace_promises rt w id s s' r :
  journal_ok (journal s) -> recover_workspace rt w id s = (s', OutcomeReady r) ->
  exists ids, granted (AOutcome (OutcomeReady r)) = Some (id, ids) /\ promised (st_registry s') id
    ids.
Proof.
  intros Hj. unfold recover_workspace. destruct (validate_operation_id id); [|done].
  destruct (operation (st_registry s) id) as [op|] eqn:Eop; [|done].
  destruct (_ != _) eqn:Ek; [done|]. simp_bool.
  destruct (stored_workspace_ids op) as [[wid bid]|] eqn:Est; [|done].
  destruct (complete_workspace_creation rt w id wid bid s) as [s1 [c|e]] eqn:Ec;
    [|by destruct (_ == _)].
  intros [= <- <-]. exists (wid, bid).
  by apply (complete_creation_promises _ _ _ _ _ _ _ _ _ Hj Eop Ek Est Ec).
Qed.

Lemma exec_promises w op b b' a id ids :
  broker_ok b.2 -> exec w op b = (b', a) -> granted a = Some (id, ids) ->
  promised (st_registry b'.2) id ids.
Proof.
  destruct b as [rt s]. intros Hs. pose proof (bo_journal _ Hs) as Hj. cbn in Hj.
  unfold LocalRuns.exec, LocalRuns.exec_op, answered.
  destruct op; repeat case_match; intros [= <- <-] Hg; cbn in Hg; simplify_eq; try done.
  - destruct r; [|done].
    eapply create_workspace_promises in Hj as (ids' & Hg' & Hp); [|done].
    rewrite Hg in Hg'. by simplify_eq.
  - destruct r; try done.
    eapply recover_workspace_promises in Hj as (ids' & Hg' & Hp); [|done].
    rewrite Hg in Hg'. by simplify_eq.
Qed.

(** C4: after a first start, over any sequence of operations, failed saves and
    restarts, every successful answer to one workspace creation (a creation or a recovery with
    its operation identifier) names the same workspace and the same managed binding, and that
    workspace is still registered at the end. *)
Theorem creation_idempotent w requested opts disk b steps b' log e1 e2 id ids1 ids2 :
  open_with_options w requested opts None = (disk, Ok b) ->
  run steps b = (b', log) -> e1 ∈ log -> e2 ∈ log ->
  granted e1.2 = Some (id, ids1) -> granted e2.2 = Some (id, ids2) ->
  ids1 = ids2 /\ exists rec, workspace (st_registry b'.2) ids1.1 = Some rec.
Proof.
  intros Ho%first_open_ok Hr He1 He2 Hg1 Hg2.
  destruct (run_log steps b Ho) as (Hb' & _ & Hlog). rewrite Hr in *. cbn in Hb', Hlog.
  rewrite Forall_forall in Hlog.
  assert (forall e ids, e ∈ log -> granted e.2 = Some (id, ids) ->
    promised (st_registry b'.2) id ids) as Hp.
  { intros e ids He Hg. destruct (Hlog _ He) as (Hok & w1 & b1 & Hx & Ha).
    eapply promised_advances; [done|]. by eapply exec_promises. }
  pose proof (Hp _ _ He1 Hg1) as Hp1. split; [|apply Hp1].
  eapply promised_unique; [|done|by apply (Hp e2)]. apply (jo_memory _ (bo_journal _ Hb')).
Qed.

Lemma context_text_inj (n m : Z) : "c" +:+ pretty n = "c" +:+ pretty m -> pretty n = pretty m.
Proof. by intros [= ?]. Qed.

Lemma handle_bytes_bound s h handle :
  broker_ok s -> st_handles s !! h = Some handle ->
  len (he_bytes handle) <= MAX_RETAINED_SNAPSHOT_BYTES.
Proof.
  intros Hok Hh. etrans; [|apply (bo_retained _ Hok)].
  assert ({[h := handle]} ⊆ st_handles s) as Hs by by apply map_singleton_subseteq_l.
  apply retained_subseteq in Hs.
  rewrite (retained_sum {[h := handle]}), map_to_list_singleton in Hs.
  cbn in Hs. unfold len in *. lia.
Qed.

(** The range a page takes, with its saturating end, is the requested one. *)
Lemma slice_take (l : list Z) offset length :
  0 <= offset -> len l <= MAX_RETAINED_SNAPSHOT_BYTES ->
  take (Z.to_nat (Z.min (saturating_add_u64 offset length) (len l) - offset)) (drop (Z.to_nat
    offset) l)
  = take (Z.to_nat length) (drop (Z.to_nat offset) l).
Proof.
  intros Ho Hl. unfold saturating_add_u64, u64_max, MAX_RETAINED_SNAPSHOT_BYTES in *.
  destruct (decide (offset + length <= len l)).
  - f_equal. f_equal. lia.
  - rewrite !take_ge; [done| |]; rewrite length_drop; unfold len in *; lia.
Qed.

(** C22: a page is answered only from a handle that has not expired at the time of the request,
    while the context is current and the binding the file was opened under is attached to the
    workspace; its bytes are the requested range of the snapshot. *)
Theorem read_confined w0 requested opts disk b steps b' log i rt s cx h offset length page :
  open_with_options w0 requested opts None = (disk, Ok b) -> run steps b = (b', log) ->
  0 <= offset ->
  log !! i = Some ((rt, s), OReadFile cx h offset length, APage (Ok page)) ->
  exists w rec handle, steps !! i = Some (w, OReadFile cx h offset length)
  /\ st_handles s !! h = Some handle /\ w_now w < he_expires handle
  /\ workspace (st_registry s) (cx_workspace_id cx) = Some rec
  /\ context_revision rec = cx_revision cx
  /\ he_workspace_id handle = cx_workspace_id cx
  /\ attached rec (he_binding_id handle)
  /\ bp_bytes page = take (Z.to_nat length) (drop (Z.to_nat offset) (he_bytes handle))
  /\ len (bp_bytes page) <= MAX_READ_RANGE.
Proof.
  intros Ho%first_open_ok Hr Hoff He. pose proof (run_lookup steps b i) as Hat.
  destruct (run_log steps b Ho) as (_ & _ & Hlog). rewrite Hr in Hlog, Hat. cbn in Hlog, Hat.
  destruct (Hat _ He) as (w & b1 & Hs & Hx). apply list_elem_of_lookup_2 in He.
  rewrite Forall_forall in Hlog. destruct (Hlog _ He) as [Hok _]. cbn in Hok, Hx, Hs.
  unfold answered in Hx. destruct (read_file w cx h offset length s) as [s1 r] eqn:Er.
  simplify_eq. unfold read_file, bind, lift, ret, get_state, modify, not_found, err in Er.
  destruct (check_context s cx) as [rec|] eqn:Ec; [|done].
  destruct ((length =? 0) || _) eqn:El; [done|]. simp_bool.
  destruct (filter _ (st_handles s) !! h) as [handle|] eqn:Eh; [|done].
  destruct ((_ != _) || _) eqn:Ew; [done|]. simp_bool.
  destruct (len (he_bytes handle) <? offset) eqn:Esz; [done|]. simp_bool. simplify_eq.
  apply check_context_Ok in Ec as [Hw Hrev]. apply map_lookup_filter_Some in Eh as [Hh Hfresh].
  exists w, rec, handle. cbn in Hfresh. do 6 (split; [done || lia|]). split.
  - destruct (bo_handles _ Hok _ _ Hh) as (rec' & n & Hw' & Hn & _ & Ha). cbn in Hw'.
    replace rec' with rec in * by congruence. apply Ha.
    apply (inj pretty), (context_text_inj n). unfold context_revision in Hrev. congruence.
  - cbn [bp_bytes]. rewrite slice_take; [|done|].
    2: { pose proof (handle_bytes_bound _ _ _ Hok Hh). lia. }
    split; [done|]. unfold len, MAX_READ_RANGE in *. rewrite length_take. lia.
Qed.

(** In every state a run goes through, the broker holds at most four read
    handles, thirty-two mebibytes of snapshots, four pending selections, and, in memory and on
    disk, at most sixteen unfinished creations and thirty-two folders per workspace. *)
Theorem broker_bounds w requested opts disk b steps b' log e :
  open_with_options w requested opts None = (disk, Ok b) -> run steps b = (b', log) ->
  e ∈ log ++ [(b', ORestart requested opts, AStarted (Ok tt))] ->
  let s := e.1.1.2 in
  Z.of_nat (size (st_handles s)) <= 4 /\ retained_bytes (st_handles s) <= 33554432
  /\ Z.of_nat (size (st_selections s)) <= 4
  /\ forall r, r = st_registry s \/ r = st_disk s ->
     count pending_creation (operations r) <= 16
     /\ forall rec, rec ∈ workspaces r ->
          count (fun x => br_source x == SourceExplicit) (wr_bindings rec) <= 32.
Proof.
  intros Ho%first_open_ok Hr He s. destruct (run_log steps b Ho) as (Hb' & _ & Hlog).
  rewrite Hr in *. cbn in Hb', Hlog. rewrite Forall_forall in Hlog.
  assert (broker_ok s) as [_ _ [Rm Rd] Hc Hb Hs].
  { apply elem_of_app in He as [He| ->%list_elem_of_singleton]; [apply (Hlog _ He)|done]. }
  split; [done|]. split; [done|]. split; [done|].
  assert (forall r, registry_ok r -> count pending_creation (operations r) <= 16
     /\ forall rec, rec ∈ workspaces r ->
          count (fun x => br_source x == SourceExplicit) (wr_bindings rec) <= 32) as Hreg.
  { intros r [Hp Hf]. split; [done|]. intros rec Hrec. rewrite Forall_forall in Hf. by apply Hf. }
  intros r [-> | ->]; auto.
Qed.
End Theorems.
