(* ===== verification/LocalPaging.v ===== *)
(** * LocalPaging: following the cursors of a listing visits every entry once

    The cursor of a page is the directory's keyed tag and the last name of the page in
    hexadecimal; while the directory does not change, asking again with each cursor in turn ends
    and returns the entries of the sorted directory, none twice and none left out. *)
From stdpp Require Import base gmap sets list strings pretty vector.
From Stdlib Require Import ZArith Lia Ascii Sorting.Sorted.
From S2P Require Import Prelude Text Ordered Manifest Json AuditKinds AuditChain.
From S2P Require Import AuditCatalog Base64 LocalRegistry LocalBroker LocalFiles.

Local Open Scope Z_scope.

Definition is_byte (b : Z) : Prop := 0 <= b < 256.

(** ** Hexadecimal text *)

(** A statement about a byte, decided by trying all of them. *)
Lemma all_bytes (p : Z -> bool) :
  forallb p (map Z.of_nat (seq 0 256)) = true -> forall b, is_byte b -> p b = true.
Proof.
  rewrite forallb_true. intros H b Hb. apply H. apply list_elem_of_fmap.
  exists (Z.to_nat b). unfold is_byte in Hb. split; [lia|]. apply elem_of_seq. lia.
Qed.

Lemma byte_of_ascii_is_byte c : is_byte (byte_of_ascii c).
Proof. unfold is_byte, byte_of_ascii. pose proof (N_ascii_bounded c). lia. Qed.

Definition hex_text (b : Z) : list Z := map byte_of_ascii (hex_of_byte b).

Lemma hex_texts l : bytes (to_hex l) = flat_map (fun c => hex_text (byte_of_ascii c)) l.
Proof. exact (bytes_to_hex l). Qed.

Lemma hex_text_byte b :
  is_byte b -> forall hi lo, hex_text b = [hi; lo] -> byte_from_hex hi lo = Some b.
Proof.
  intros Hb hi lo E. apply (bool_decide_eq_true (byte_from_hex hi lo = Some b)).
  revert b Hb hi lo E. enough (forall b, is_byte b ->
    match hex_text b with [hi; lo] => bool_decide (byte_from_hex hi lo = Some b) | _ => true end = true)
    as H by (intros b Hb hi lo E; specialize (H b Hb); by rewrite E in H).
  apply all_bytes. by vm_compute.
Qed.

Lemma hex_text_no_dot b : is_byte b -> forallb (fun c => negb (c =? 46)) (hex_text b) = true.
Proof. revert b. apply all_bytes. by vm_compute. Qed.

Lemma unhex_hex bs : Forall is_byte bs -> LocalFiles.unhex (hex bs) = Some bs.
Proof.
  unfold LocalFiles.unhex, hex. rewrite hex_texts. unfold content_bytes.
  induction 1 as [|b bs Hb _ IH]; [done|]. cbn [map flat_map]. rewrite byte_of_ascii_of_byte by done.
  destruct (hex_text b) as [|hi [|lo [|]]] eqn:E; try by unfold hex_text, hex_of_byte in E.
  cbn [app unhex_pairs]. by rewrite (hex_text_byte b Hb _ _ E), IH.
Qed.

Lemma split_once_app s t :
  forallb (fun c => negb (c =? 46)) (bytes s) = true ->
  split_once_byte 46 (s +:+ "." +:+ t) = Some (s, t).
Proof.
  induction s as [|c s IH]; [done|]. intros [Hc Hs]%andb_prop. apply negb_true_iff in Hc.
  change (split_once_byte 46 (String c (s +:+ "." +:+ t)) = Some (String c s, t)).
  cbn [split_once_byte]. by rewrite Hc, IH.
Qed.

Lemma to_hex_no_dot l : forallb (fun c => negb (c =? 46)) (bytes (to_hex l)) = true.
Proof.
  rewrite hex_texts. induction l as [|c l IH]; [done|]. cbn [flat_map]. rewrite forallb_app, IH.
  by rewrite hex_text_no_dot by apply byte_of_ascii_is_byte.
Qed.

Section Paging.
Context {F : Floats} {D : Digest}.
Context (rt : Runtime) (w : World).

Lemma cursor_roundtrip key dir after :
  Forall is_byte after ->
  cursor_after (cursor_tag key dir) (Some (cursor_tag key dir +:+ "." +:+ hex after))
  = Ok (Some after).
Proof.
  intros Hb. unfold cursor_after. rewrite split_once_app by apply to_hex_no_dot. cbn.
  rewrite bool_decide_eq_true_2 by done. cbn. by rewrite unhex_hex.
Qed.

(** ** One page *)

(** The entries of the names from [index] on, without a limit. *)
Fixpoint entries_from (key : list ascii) (dir : Dir) (locator : list string) (index : nat)
    (names : list (list Z)) : list Entry :=
  match names with
  | [] => []
  | raw :: rest =>
      let more := entries_from key dir locator (S index) rest in
      match list_name rt w key dir locator index raw with
      | ListedEntry e => e :: more
      | _ => more
      end
  end.

Lemma list_loop_spec key dir locator tag names index previous room :
  let page := list_loop rt w key dir locator tag index previous room names in
  match ep_next_cursor page with
  | None => ep_entries page = entries_from key dir locator index names
  | Some c => exists k, (k < length names)%nat /\ (0 < room -> 0 < k)%nat
      /\ c = tag +:+ "." +:+ hex (unwrap_or previous (last (take k names)))
      /\ ep_entries page ++ entries_from key dir locator (index + k) (drop k names)
         = entries_from key dir locator index names
  end.
Proof.
  revert index previous room. induction names as [|raw rest IH]; intros index previous room; [done|].
  destruct room as [|more]; cbn [list_loop ep_next_cursor].
  { exists O. cbn [length take drop last unwrap_or]. rewrite Nat.add_0_r. repeat split; [lia|lia]. }
  cbn [entries_from].
  assert (forall k, last (take (S k) (raw :: rest)) = Some (unwrap_or raw (last (take k rest)))) as Hl.
  { intros k. cbn [take]. rewrite last_cons. by destruct (last (take k rest)). }
  assert (forall room' pre page,
    list_loop rt w key dir locator tag (S index) raw room' rest = page ->
    match ep_next_cursor page with
    | None => pre ++ ep_entries page = pre ++ entries_from key dir locator (S index) rest
    | Some c => exists k, (k < length (raw :: rest))%nat /\ (0 < S more -> 0 < k)%nat
        /\ c = tag +:+ "." +:+ hex (unwrap_or previous (last (take k (raw :: rest))))
        /\ (pre ++ ep_entries page) ++ entries_from key dir locator (index + k) (drop k (raw :: rest))
           = pre ++ entries_from key dir locator (S index) rest
    end) as Hstep.
  { intros room' pre page <-. specialize (IH (S index) raw room'). cbn zeta in IH. revert IH.
    destruct (ep_next_cursor _) as [c|]; [|by intros ->]. intros (k & Hk & _ & -> & He).
    exists (S k). split; [cbn; lia|]. split; [lia|]. rewrite Hl. split; [done|].
    rewrite <-He, <-app_assoc, Nat.add_succ_r. done. }
  destruct (list_name rt w key dir locator index raw) as [e| |]; cbn [ep_entries ep_next_cursor].
  - by apply (Hstep more [e]).
  - by apply (Hstep (S more) []).
  - by apply (Hstep (S more) []).
Qed.

(** ** Where a cursor resumes *)

Lemma filter_nil_bool {A} (p : A -> bool) l :
  (forall x, x ∈ l -> p x = false) -> List.filter p l = [].
Proof.
  induction l as [|x l IH]; cbn; intros H; [done|]. rewrite H by set_solver. apply IH. set_solver.
Qed.

Lemma partition_point_lookup (names : list (list Z)) k after :
  StronglySorted ord_le names -> NoDup names ->
  names !! k = Some after -> partition_point after names = S k.
Proof.
  unfold partition_point. intros Hs. revert k.
  induction Hs as [|x l Hs IH Hx]; intros k; [done|]. intros [Hn Hd]%NoDup_cons.
  rewrite Forall_forall in Hx. destruct k as [|k]; cbn [lookup list_lookup List.filter].
  - intros [= ->]. rewrite bool_decide_eq_true_2 by (unfold ord_le; by rewrite cmp_refl).
    cbn [length]. f_equal. apply length_zero_iff_nil, filter_nil_bool. intros y Hy.
    apply bool_decide_eq_false. intros Hle. apply Hn.
    by rewrite <-(anti_symm ord_le y after Hle (Hx y Hy)).
  - intros Hk. rewrite bool_decide_eq_true_2 by (apply Hx; by eapply list_elem_of_lookup_2).
    cbn [length]. by rewrite (IH k).
Qed.

(** ** All pages *)

Definition start_of (after : option (list Z)) (names : list (list Z)) : nat :=
  match after with None => O | Some after => partition_point after names end.

(** The client's loop: ask for a page, then for the one its cursor points to. *)
Fixpoint follow (fuel : nat) (key : list ascii) (dir : Dir) (locator : list string)
    (cursor : option string) (scanned : list (list Z)) : option (list Entry) :=
  match fuel with
  | O => None
  | S fuel =>
      let tag := cursor_tag key dir in
      match cursor_after tag cursor with
      | Err _ => None
      | Ok after =>
          let page := list_page rt w key dir locator tag after scanned in
          match ep_next_cursor page with
          | None => Some (ep_entries page)
          | Some c => (ep_entries page ++.) <$> follow fuel key dir locator (Some c) scanned
          end
      end
  end.

Lemma follow_from fuel key dir locator cursor after scanned :
  NoDup scanned -> Forall (Forall is_byte) scanned ->
  cursor_after (cursor_tag key dir) cursor = Ok after ->
  let start := start_of after (sort scanned) in
  (start <= length scanned)%nat -> (length scanned - start < fuel)%nat ->
  follow fuel key dir locator cursor scanned
  = Some (entries_from key dir locator start (drop start (sort scanned))).
Proof.
  intros Hd Hb. revert cursor after.
  assert (length (sort scanned) = length scanned) as Hlen by by rewrite sort_Permutation.
  induction fuel as [|fuel IH]; intros cursor after Hc start Hs Hf; [lia|]. cbn [follow].
  rewrite Hc. unfold list_page. change (match after with None => O | Some a => _ end) with start.
  set (names := drop start (sort scanned)). set (previous := unwrap_or [] _).
  pose proof (list_loop_spec key dir locator (cursor_tag key dir) names start previous
    (Z.to_nat MAX_ENTRY_PAGE)) as Hp. cbn zeta in Hp. revert Hp.
  destruct (ep_next_cursor _) as [c|]; [|by intros ->].
  intros (k & Hk & Hpos & -> & He). unfold names in Hk. rewrite length_drop, Hlen in Hk.
  specialize (Hpos ltac:(unfold MAX_ENTRY_PAGE; lia)).
  destruct (lookup_lt_is_Some_2 (sort scanned) (start + (k - 1))) as [name Hname]; [lia|].
  assert (last (take k names) = Some name) as Hlast.
  { rewrite last_lookup, length_take, lookup_take_lt by (unfold names; rewrite length_drop; lia).
    unfold names. rewrite lookup_drop, <-Hname, length_drop. f_equal. lia. }
  rewrite Hlast. cbn [unwrap_or].
  assert (start_of (Some name) (sort scanned) = start + k)%nat as Hnext.
  { cbn [start_of]. erewrite partition_point_lookup; [|apply sort_sorted| |done]; [lia|].
    by rewrite sort_Permutation. }
  rewrite (IH _ (Some name)); rewrite ?Hnext; [| |lia|lia].
  - cbn [fmap option_fmap option_map]. f_equal. rewrite <-He. unfold names. by rewrite drop_drop.
  - apply cursor_roundtrip. rewrite Forall_forall in Hb. apply Hb.
    rewrite <-(sort_Permutation scanned). by eapply list_elem_of_lookup_2.
Qed.

(** C34: over a directory whose distinct names do not change, asking for page after page
    with the cursors returned ends after at most one request per name and one more, and yields
    exactly the entries of the sorted directory, in order, each once. *)
Theorem listing_complete key dir locator scanned :
  NoDup scanned -> Forall (Forall is_byte) scanned ->
  follow (S (length scanned)) key dir locator None scanned
  = Some (entries_from key dir locator 0 (sort scanned)).
Proof.
  intros Hd Hb. rewrite (follow_from _ _ _ _ None None) by (done || (cbn; lia)). done.
Qed.
End Paging.
