(* ===== verification/LocalScenario.v ===== *)
(** * LocalScenario: a small device, a run with a failed save and a restart

    A concrete operating system on which the properties of the local broker are evaluated. *)
From stdpp Require Import base gmap sets list strings pretty vector.
From Stdlib Require Import ZArith Lia Ascii.
From S2P Require Import Prelude Text Ordered Manifest Json AuditKinds AuditChain.
From S2P Require Import Base64 LocalRegistry LocalBroker LocalFiles LocalRuns.
From S2P Require Import LocalTheorems LocalPaging.

Local Open Scope Z_scope.

Module LocalToy.
#[local] Instance floats : Floats :=
  {| f64 := Empty_set; f64_eqb := fun _ _ => false; f64_to_string := fun _ => "" |}.

(** A digest that keeps the last 32 bytes. *)
#[local] Instance digest : Digest := {|
  sha256 l := fun_to_vec (fun i => default (ascii_of_N 0) (rev l !! (fin_to_nat i))) |}.

Definition folder : Dir := {| dir_fd := 3; dir_stat := {|
  st_dev := 1; st_ino := 7; st_kind := KindDirectory; st_nlink := 2; st_size := 0;
  st_mtime := (0, 0); st_ctime := (0, 0); st_birth := None |} |}.

Definition note : Stat := {|
  st_dev := 1; st_ino := 9; st_kind := KindRegular; st_nlink := 1; st_size := 3;
  st_mtime := (5, 0); st_ctime := (5, 0); st_birth := Some (5, 0) |}.

(** One folder, with the file that is asked for; [salt] distinguishes random identifiers, [save]
    says what becomes of the saves. *)
Definition device (salt : string) (save : nat -> SaveOutcome) : World := {|
  w_open_absolute _ _ := Ok folder;
  w_open_child_dir _ _ _ := Ok folder;
  w_make_private_child_dir _ _ _ := Ok tt;
  w_open_child_file _ _ _ := Ok ({| file_fd := 4 |}, note);
  w_create_child_file _ _ _ := Ok {| file_fd := 4 |};
  w_stat_child _ _ _ := Ok note;
  w_unlink_child_file _ _ _ := Ok tt;
  w_entry_names _ _ _ := Ok [bytes "b.txt"; bytes "a.txt"];
  w_fstat_file _ _ := Ok note;
  w_filesystem_type _ := Ok 0xEF53;
  w_acquire_lease _ := Ok tt;
  w_lease_held _ := true;
  w_read_at _ _ _ offset _ := Ok (drop offset [10; 20; 30]);
  w_write_all_durable _ _ _ := Ok tt;
  w_canonicalize p := Some p;
  w_create_private_dir_all _ _ := Ok tt;
  w_acquire_lock _ := Ok tt;
  w_readable := true;
  w_save := save;
  w_now := 100;
  w_random site := "0123456789abcdef0123456789abcde" +:+ salt
|}.

Definition fine : World := device "1" (fun _ => Saved).

(** The first save fails after the file was replaced, and cannot be read back. *)
Definition failing : World := device "2" (fun _ => SaveFailed true false).

Definition opts : RuntimeOptions := {| handle_lease := 60; selection_ttl := 60 |}.

Definition root : Path := ["home"; "state"].

Definition run_toy := run (fun _ => "text") (fun _ => VNull) (fun _ => None) (fun _ => VNull)
  (fun _ => None).

Definition no_broker : Runtime * State := (
  {| state_root := []; state_identity := (0, 0); options := opts |},
  {| st_registry := RegistryFile_new ""; st_disk := RegistryFile_new ""; st_key := [];
     st_picker := None; st_picker_sequence := 0; st_selections := ∅; st_handles := ∅ |}).

Definition started : Runtime * State :=
  match (open_with_options fine root opts None).2 with Ok b => b | Err _ => no_broker end.

Definition wid : string := "w_0123456789abcdef0123456789abcde1".
Definition bid : string := "b_0123456789abcdef0123456789abcde1".
Definition context : ContextRef := {| cx_revision := "c0"; cx_workspace_id := wid |}.
Definition target : LocalRef := {| lf_binding_id := bid; lf_locator := ["a.txt"] |}.

Definition script : list (World * Op) := [
  (failing, OCreateWorkspace "Notes" "op-1");
  (fine, OCreateWorkspace "Notes" "op-1");
  (fine, ORestart root opts);
  (device "3" (fun _ => Saved), OCreateWorkspace "Notes" "op-1");
  (device "4" (fun _ => Saved), ORecoverWorkspace "op-1");
  (fine, OOpenRead context target (file_identity (st_key started.2) note));
  (fine, OReadFile context "h_0123456789abcdef0123456789abcde1" 1 10)].

Definition finished := run_toy script started.

Definition entry (n : nat) : (Runtime * State) * Op * Answer :=
  nth n finished.2 (no_broker, OListWorkspaces, AStarted (Ok tt)).

Lemma entry_logged n : (n <? length finished.2)%nat = true -> entry n ∈ finished.2.
Proof. intros H. apply list_elem_of_In, nth_In. by apply Nat.ltb_lt. Qed.

Lemma opened : open_with_options fine root opts None = (Some (st_disk started.2), Ok started).
Proof. vm_compute. reflexivity. Qed.

Lemma creation_idempotent_witness :
  granted (entry 1).2 = Some ("op-1", (wid, bid)) /\ granted (entry 4).2 = Some ("op-1", (wid, bid))
  /\ (wid, bid) = (wid, bid)
  /\ exists rec, workspace (st_registry finished.1.2) wid = Some rec.
Proof.
  split; [vm_compute; reflexivity|]. split; [vm_compute; reflexivity|].
  apply (creation_idempotent (fun _ => "text") (fun _ => VNull) (fun _ => None) (fun _ => VNull)
    (fun _ => None) fine root opts (Some (st_disk started.2)) started script finished.1 finished.2
    (entry 1) (entry 4) "op-1" (wid, bid) (wid, bid) opened).
  - vm_compute. reflexivity.
  - apply entry_logged. vm_compute. reflexivity.
  - apply entry_logged. vm_compute. reflexivity.
  - vm_compute. reflexivity.
  - vm_compute. reflexivity.
Defined.

(** After a failed save that reached the disk and could not be read back, memory does not mirror
    the disk: the reservation of the first attempt is on disk only. *)
Lemma failed_save_not_mirrored :
  let s := (entry 1).1.1.2 in
  operation (st_registry s) "op-1" = None /\ is_some (operation (st_disk s) "op-1") = true.
Proof. vm_compute. by split. Qed.

Definition page : BytePage :=
  match (entry 6).2 with
  | APage (Ok p) => p
  | _ => {| bp_bytes := []; bp_offset := 0; bp_content_generation := ""; bp_eof := false |}
  end.

Lemma read_confined_witness :
  bp_bytes page = [20; 30]
  /\ exists w rec handle,
    script !! 6%nat = Some (w, OReadFile context "h_0123456789abcdef0123456789abcde1" 1 10)
  /\ st_handles (entry 6).1.1.2 !! "h_0123456789abcdef0123456789abcde1" = Some handle
  /\ w_now w < he_expires handle
  /\ workspace (st_registry (entry 6).1.1.2) wid = Some rec
  /\ context_revision rec = "c0"
  /\ he_workspace_id handle = wid
  /\ attached rec (he_binding_id handle)
  /\ bp_bytes page = take 10 (drop 1 (he_bytes handle))
  /\ len (bp_bytes page) <= MAX_READ_RANGE.
Proof.
  split; [vm_compute; reflexivity|].
  apply (read_confined (fun _ => "text") (fun _ => VNull) (fun _ => None) (fun _ => VNull)
    (fun _ => None) fine root opts (Some (st_disk started.2)) started script finished.1 finished.2
    6 (entry 6).1.1.1 (entry 6).1.1.2 context "h_0123456789abcdef0123456789abcde1" 1 10 page opened).
  - vm_compute. reflexivity.
  - lia.
  - vm_compute. reflexivity.
Defined.

Lemma broker_bounds_witness :
  let s := (entry 6).1.1.2 in
  Z.of_nat (size (st_handles s)) <= 4 /\ retained_bytes (st_handles s) <= 33554432
  /\ Z.of_nat (size (st_selections s)) <= 4
  /\ forall r, r = st_registry s \/ r = st_disk s ->
     count pending_creation (operations r) <= 16
     /\ forall rec, rec ∈ workspaces r ->
          count (fun x => br_source x == SourceExplicit) (wr_bindings rec) <= 32.
Proof.
  apply (broker_bounds (fun _ => "text") (fun _ => VNull) (fun _ => None) (fun _ => VNull)
    (fun _ => None) fine root opts (Some (st_disk started.2)) started script finished.1 finished.2
    (entry 6) opened).
  - vm_compute. reflexivity.
  - apply elem_of_app. left. apply entry_logged. vm_compute. reflexivity.
Defined.

Definition names : list (list Z) := [bytes "b.txt"; bytes "a.txt"].

Lemma listing_complete_witness :
  follow started.1 fine 3 [] folder [] None names
  = Some (entries_from started.1 fine [] folder [] 0 (sort names))
  /\ map en_name (entries_from started.1 fine [] folder [] 0 (sort names)) = ["a.txt"; "b.txt"].
Proof.
  split; [|vm_compute; reflexivity]. apply (listing_complete started.1 fine [] folder [] names).
  - apply (bool_decide_eq_true (NoDup names)). vm_compute. reflexivity.
  - vm_compute. repeat constructor; discriminate.
Defined.
End LocalToy.
