(* ===== verification/SearchValues.v ===== *)
(** * SearchValues: typed values, facts and predicates of search-core

    predicate.rs and fact.rs: the values facts carry, their comparison, and the four-valued
    evaluation of applicability predicates.  [time::Date] is its day number and
    [time::Duration] its nanoseconds; both are only compared.  Digit strings are lists of
    ASCII bytes.

    [compare_decimal] works on digit strings so that no scale can overflow; it is the order of
    the rationals the decimals denote.  [evaluate] is a depth-bounded evaluator; it is the
    denotation [sem] of an expression within the bound and an error beyond it, and learning
    more facts never turns a conclusion into the opposite one. *)
From stdpp Require Import base gmap sets list strings.
From Stdlib Require Import ZArith Lia Ascii.
From S2P Require Import Prelude Text Ordered.
Local Open Scope Z_scope.

(** ** Identifiers (id.rs) *)
Abbreviation SourceId := Uuid.
Abbreviation ResourceId := Uuid.
Abbreviation LogicalResourceId := Uuid.
Abbreviation RepresentationId := Uuid.
Abbreviation ResourceVersionId := Uuid.
Abbreviation UsageProfileId := Uuid.
Abbreviation DiscoveryEvaluationId := Uuid.
Abbreviation BindingId := Uuid.
Abbreviation ClaimId := Uuid.
Abbreviation GapId := Uuid.
Abbreviation RelationId := Uuid.
Abbreviation AssertionId := Uuid.
Abbreviation ProjectionGenerationId := Uuid.
Abbreviation FactId := Uuid.

(** ** Values *)

Definition MAX_PREDICATE_DEPTH : Z := 64.

Record DecimalValue : Type := { dv_coefficient : Z; dv_scale : Z }.
#[global] Instance DecimalValue_eq_dec : EqDecision DecimalValue.
Proof. solve_decision. Defined.

Record MoneyValue : Type := { mv_amount_minor : Z; mv_currency : string }.
#[global] Instance MoneyValue_eq_dec : EqDecision MoneyValue.
Proof. solve_decision. Defined.

Record QuantityValue : Type := { qv_amount : DecimalValue; qv_unit : string }.
#[global] Instance QuantityValue_eq_dec : EqDecision QuantityValue.
Proof. solve_decision. Defined.

Inductive TypedValue : Type :=
| TVBool (b : bool)
| TVString (s : string)
| TVInteger (i : Z)
| TVDecimal (d : DecimalValue)
| TVDate (day : Z)
| TVDateTime (t : Instant)
| TVDuration (d : Z)
| TVConceptRef (c : string)
| TVResourceRef (r : ResourceId)
| TVList (items : list TypedValue)
| TVSet (items : list TypedValue)
| TVMoney (m : MoneyValue)
| TVQuantity (q : QuantityValue).

(** Derived [Eq]: structural, a set's order included. *)
#[global] Instance TypedValue_eq_dec : EqDecision TypedValue.
Proof.
  refine (fix go (x y : TypedValue) : Decision (x = y) :=
    let go_list := @list_eq_dec TypedValue go in
    match x, y with
    | TVBool a, TVBool b => cast_if (decide (a = b))
    | TVString a, TVString b => cast_if (decide (a = b))
    | TVInteger a, TVInteger b => cast_if (decide (a = b))
    | TVDecimal a, TVDecimal b => cast_if (decide (a = b))
    | TVDate a, TVDate b => cast_if (decide (a = b))
    | TVDateTime a, TVDateTime b => cast_if (decide (a = b))
    | TVDuration a, TVDuration b => cast_if (decide (a = b))
    | TVConceptRef a, TVConceptRef b => cast_if (decide (a = b))
    | TVResourceRef a, TVResourceRef b => cast_if (decide (a = b))
    | TVList a, TVList b => cast_if (go_list a b)
    | TVSet a, TVSet b => cast_if (go_list a b)
    | TVMoney a, TVMoney b => cast_if (decide (a = b))
    | TVQuantity a, TVQuantity b => cast_if (decide (a = b))
    | _, _ => right _
    end); clear go go_list; abstract congruence.
Defined.

Inductive Operand : Type :=
| OpFact (key : string)
| OpValue (value : TypedValue).

Inductive PredicateExpr : Type :=
| PAnd (children : list PredicateExpr)
| POr (children : list PredicateExpr)
| PNot (child : PredicateExpr)
| PEq (l r : Operand)
| PNe (l r : Operand)
| PLt (l r : Operand)
| PLte (l r : Operand)
| PGt (l r : Operand)
| PGte (l r : Operand)
| PIn (needle haystack : Operand)
| PContains (haystack needle : Operand)
| PIntersects (l r : Operand)
| PSubset (l r : Operand)
| PExists (key : string)
| PMissing (key : string)
| PSameConcept (l r : Operand)
| PIsA (l r : Operand)
| PDescendantOf (l r : Operand).

Inductive TruthValue : Type := TTrue | TFalse | TUnknown | TError.
#[global] Instance TruthValue_eq_dec : EqDecision TruthValue.
Proof. solve_decision. Defined.

Definition from_bool (value : bool) : TruthValue := if value then TTrue else TFalse.

Definition truth_not (v : TruthValue) : TruthValue :=
  match v with
  | TTrue => TFalse
  | TFalse => TTrue
  | other => other
  end.

(** The pinned concept view the caller supplies. *)
Class ConceptResolver : Type := {
  same_concept : string -> string -> TruthValue;
  is_a : string -> string -> TruthValue;
  descendant_of : string -> string -> TruthValue
}.

(** ** Facts (fact.rs) *)

Inductive FactOrigin : Type :=
| FactExplicit | FactAuthoritative | FactObserved | FactDerived | FactInferred.
#[global] Instance FactOrigin_eq_dec : EqDecision FactOrigin.
Proof. solve_decision. Defined.

Record Fact : Type := {
  fact_id : option FactId;
  fact_value : TypedValue;
  fact_origin : FactOrigin;
  fact_evidence_ref : option string;
  fact_observed_at : option Instant;
  fact_valid_from : option Instant;
  fact_valid_to : option Instant;
  fact_confidence_basis_points : option Z
}.

Definition Fact_new (value : TypedValue) (origin : FactOrigin) : Fact := {|
  fact_id := None; fact_value := value; fact_origin := origin; fact_evidence_ref := None;
  fact_observed_at := None; fact_valid_from := None; fact_valid_to := None;
  fact_confidence_basis_points := None
|}.

(** [FactSet]: a [BTreeMap<String, Fact>]. *)
Definition FactSet : Type := list (string * Fact).

Definition FactSet_insert (facts : FactSet) (key : string) (fact : Fact)
    : FactSet * option Fact :=
  (bt_insert key fact facts, bt_get key facts).

Definition FactSet_get (facts : FactSet) (key : string) : option Fact := bt_get key facts.

Definition FactSet_contains (facts : FactSet) (key : string) : bool := bt_contains_key key facts.

(** ** Comparison *)

Definition CHAR_ZERO : Z := 48.

(** [u128::to_string]: the decimal digits, most significant first; a number has at most one
    more digit than bits. *)
Fixpoint digits_loop (fuel : nat) (n : Z) (acc : list Z) : list Z :=
  match fuel with
  | O => acc
  | S fuel =>
      let acc := (CHAR_ZERO + n mod 10) :: acc in
      if n <? 10 then acc else digits_loop fuel (n / 10) acc
  end.

Definition u128_to_string (n : Z) : list Z := digits_loop (S (Z.to_nat (Z.log2 n))) n [].

Definition decimal_parts (value : DecimalValue) : list Z * list Z :=
  let digits := u128_to_string (Z.abs (dv_coefficient value)) in
  let scale := Z.to_nat (dv_scale value) in
  let padded := replicate (scale + 1 - length digits)%nat CHAR_ZERO ++ digits in
  let split := (length padded - scale)%nat in
  (take split padded, drop split padded).

(** [format!("{text:0<width$}")]. *)
Definition pad_right (width : nat) (text : list Z) : list Z :=
  text ++ replicate (width - length text)%nat CHAR_ZERO.

Definition compare_decimal (l r : DecimalValue) : comparison :=
  if (dv_coefficient l =? 0) && (dv_coefficient r =? 0) then Eq
  else
    let left_negative := dv_coefficient l <? 0 in
    let right_negative := dv_coefficient r <? 0 in
    if negb (Bool.eqb left_negative right_negative) then (if left_negative then Lt else Gt)
    else
      let '(left_integer, left_fraction) := decimal_parts l in
      let '(right_integer, right_fraction) := decimal_parts r in
      let order :=
        and_then (Nat.compare (length left_integer) (length right_integer))
          (and_then (list_cmp Z.compare left_integer right_integer)
             (let width := Nat.max (length left_fraction) (length right_fraction) in
              list_cmp Z.compare (pad_right width left_fraction)
                (pad_right width right_fraction))) in
      if left_negative then CompOpp order else order.

Definition bool_cmp (a b : bool) : comparison := Z.compare (Z.b2z a) (Z.b2z b).

Definition compare_values (l r : TypedValue) : option comparison :=
  match l, r with
  | TVBool a, TVBool b => Some (bool_cmp a b)
  | TVString a, TVString b => Some (cmp a b)
  | TVInteger a, TVInteger b => Some (a ?= b)
  | TVDecimal a, TVDecimal b => Some (compare_decimal a b)
  | TVDate a, TVDate b => Some (a ?= b)
  | TVDateTime a, TVDateTime b => Some (a ?= b)
  | TVDuration a, TVDuration b => Some (a ?= b)
  | TVConceptRef a, TVConceptRef b => Some (cmp a b)
  | TVResourceRef a, TVResourceRef b => Some (N.compare a b)
  | TVMoney a, TVMoney b =>
      if mv_currency a == mv_currency b then Some (mv_amount_minor a ?= mv_amount_minor b)
      else None
  | TVQuantity a, TVQuantity b =>
      if qv_unit a == qv_unit b then Some (compare_decimal (qv_amount a) (qv_amount b))
      else None
  | _, _ => None
  end.

Definition is_eq (o : comparison) : bool := match o with Eq => true | _ => false end.
Definition is_lt (o : comparison) : bool := match o with Lt => true | _ => false end.
Definition is_le (o : comparison) : bool := match o with Gt => false | _ => true end.
Definition is_gt (o : comparison) : bool := match o with Gt => true | _ => false end.
Definition is_ge (o : comparison) : bool := match o with Lt => false | _ => true end.

Definition and_step (result value : TruthValue) : TruthValue :=
  match result, value with
  | TError, _ | _, TError => TError
  | TFalse, _ | _, TFalse => TFalse
  | TUnknown, _ | _, TUnknown => TUnknown
  | _, _ => TTrue
  end.

Definition or_step (result value : TruthValue) : TruthValue :=
  match result, value with
  | TError, _ | _, TError => TError
  | TTrue, _ | _, TTrue => TTrue
  | TUnknown, _ | _, TUnknown => TUnknown
  | _, _ => TFalse
  end.

Definition combine_and (values : list TruthValue) : TruthValue := fold_left and_step values TTrue.
Definition combine_or (values : list TruthValue) : TruthValue := fold_left or_step values TFalse.

(** The loop of [membership_in_slice_at_depth] over an equality test. *)
Definition membership_loop (equal : TypedValue -> TypedValue -> TruthValue)
    (needle : TypedValue) (haystack : list TypedValue) : TruthValue :=
  let '(found, error) :=
    fold_left
      (fun '(found, error) item =>
         match equal needle item with
         | TTrue => (true, error)
         | TError => (found, true)
         | _ => (found, error)
         end) haystack (false, false) in
  if error then TError else from_bool found.

(** [values_equal_at_depth] and [membership_in_slice_at_depth], by the depth that is left: at
    depth [d] there are [MAX_PREDICATE_DEPTH + 1 - d] levels, none of them past the bound. *)
Fixpoint values_equal_within (levels : nat) (l r : TypedValue) : TruthValue :=
  match levels with
  | O => TError
  | S n =>
      let membership needle haystack :=
        match n with
        | O => TError
        | S m => membership_loop (values_equal_within m) needle haystack
        end in
      match l, r with
      | TVList a, TVList b =>
          if negb (length a =? length b)%nat then TFalse
          else combine_and (zip_with (values_equal_within n) a b)
      | TVSet a, TVSet b =>
          combine_and (map (fun item => membership item b) a
                       ++ map (fun item => membership item a) b)
      | _, _ =>
          match compare_values l r with
          | Some order => from_bool (is_eq order)
          | None => TError
          end
      end
  end.

Definition levels_left (depth : Z) : nat := Z.to_nat (MAX_PREDICATE_DEPTH + 1 - depth).

Definition values_equal (l r : TypedValue) : TruthValue :=
  values_equal_within (levels_left 0) l r.

Definition semantically_equal (l r : TypedValue) : bool := values_equal l r == TTrue.

Definition collection (value : TypedValue) : option (list TypedValue) :=
  match value with
  | TVList values | TVSet values => Some values
  | _ => None
  end.

Definition membership_in_slice (needle : TypedValue) (haystack : list TypedValue) : TruthValue :=
  membership_loop (values_equal_within (levels_left 1)) needle haystack.

Definition membership (needle haystack : TypedValue) : TruthValue :=
  match collection haystack with
  | Some values => membership_in_slice needle values
  | None => TError
  end.

Definition collection_relation (l r : TypedValue) (intersects : bool) : TruthValue :=
  match collection l, collection r with
  | Some a, Some b =>
      let values := map (fun item => membership_in_slice item b) a in
      if intersects then combine_or values else combine_and values
  | _, _ => TError
  end.

(** ** Evaluation *)

Definition resolve (operand : Operand) (facts : FactSet) : option TypedValue :=
  match operand with
  | OpFact key => option_map fact_value (FactSet_get facts key)
  | OpValue value => Some value
  end.

Definition binary (l r : Operand) (facts : FactSet)
    (compare : TypedValue -> TypedValue -> TruthValue) : TruthValue :=
  match resolve l facts, resolve r facts with
  | Some a, Some b => compare a b
  | _, _ => TUnknown
  end.

Definition ordered (l r : Operand) (facts : FactSet) (accepts : comparison -> bool)
    : TruthValue :=
  binary l r facts (fun a b =>
    match compare_values a b with
    | Some order => from_bool (accepts order)
    | None => TError
    end).

Definition concept_binary (l r : Operand) (facts : FactSet)
    (evaluate : string -> string -> TruthValue) : TruthValue :=
  binary l r facts (fun a b =>
    match a, b with
    | TVConceptRef a, TVConceptRef b => evaluate a b
    | _, _ => TError
    end).

Section Evaluate.
Context {concepts : ConceptResolver}.

(** [PredicateEvaluator::at_depth]. *)
Fixpoint at_depth (facts : FactSet) (expression : PredicateExpr) (depth : Z) : TruthValue :=
  if MAX_PREDICATE_DEPTH <? depth then TError
  else
    match expression with
    | PAnd children =>
        if is_empty children then TError
        else combine_and (map (fun child => at_depth facts child (depth + 1)) children)
    | POr children =>
        if is_empty children then TError
        else combine_or (map (fun child => at_depth facts child (depth + 1)) children)
    | PNot child => truth_not (at_depth facts child (depth + 1))
    | PExists key => from_bool (FactSet_contains facts key)
    | PMissing key => from_bool (negb (FactSet_contains facts key))
    | PEq l r => binary l r facts values_equal
    | PNe l r => binary l r facts (fun a b => truth_not (values_equal a b))
    | PLt l r => ordered l r facts is_lt
    | PLte l r => ordered l r facts is_le
    | PGt l r => ordered l r facts is_gt
    | PGte l r => ordered l r facts is_ge
    | PIn needle haystack => binary needle haystack facts membership
    | PContains haystack needle => binary haystack needle facts (fun a b => membership b a)
    | PIntersects l r => binary l r facts (fun a b => collection_relation a b true)
    | PSubset l r => binary l r facts (fun a b => collection_relation a b false)
    | PSameConcept l r => concept_binary l r facts same_concept
    | PIsA l r => concept_binary l r facts is_a
    | PDescendantOf l r => concept_binary l r facts descendant_of
    end.

Definition evaluate (expression : PredicateExpr) (facts : FactSet) : TruthValue :=
  at_depth facts expression 0.
End Evaluate.

Example decimal_scales :
  compare_decimal {| dv_coefficient := 150; dv_scale := 2 |}
    {| dv_coefficient := 15; dv_scale := 1 |} = Eq /\
  compare_decimal {| dv_coefficient := -7; dv_scale := 3 |}
    {| dv_coefficient := -6; dv_scale := 3 |} = Lt /\
  compare_decimal {| dv_coefficient := 99; dv_scale := 1 |}
    {| dv_coefficient := 10; dv_scale := 0 |} = Lt.
Proof. done. Qed.

Example sets_ignore_order :
  values_equal (TVSet [TVInteger 1; TVInteger 2]) (TVSet [TVInteger 2; TVInteger 1; TVInteger 1])
  = TTrue.
Proof. done. Qed.
Local Open Scope Z_scope.

(** ** Digit strings as numbers *)

Definition digit (d : Z) : Prop := 48 <= d <= 57.

(** The number a digit string denotes. *)
Fixpoint dval (ds : list Z) : Z :=
  match ds with
  | [] => 0
  | d :: ds => (d - 48) * 10 ^ Z.of_nat (length ds) + dval ds
  end.

Lemma pow10_pos n : 0 < 10 ^ Z.of_nat n.
Proof. apply Z.pow_pos_nonneg; lia. Qed.

Lemma pow10_S n : 10 ^ Z.of_nat (S n) = 10 * 10 ^ Z.of_nat n.
Proof. rewrite Nat2Z.inj_succ, Z.pow_succ_r by lia. lia. Qed.

Lemma pow10_add n m : 10 ^ Z.of_nat (n + m) = 10 ^ Z.of_nat n * 10 ^ Z.of_nat m.
Proof. rewrite Nat2Z.inj_add, Z.pow_add_r by lia. lia. Qed.

Lemma dval_app l k : dval (l ++ k) = dval l * 10 ^ Z.of_nat (length k) + dval k.
Proof.
  induction l as [|d l IH]; cbn [dval app]; [lia|].
  rewrite IH, length_app, pow10_add. lia.
Qed.

Lemma dval_zeros n : dval (replicate n CHAR_ZERO) = 0.
Proof. induction n as [|n IH]; cbn [dval replicate]; [done|]. rewrite IH. unfold CHAR_ZERO. lia. Qed.

Lemma dval_bound ds : Forall digit ds -> 0 <= dval ds < 10 ^ Z.of_nat (length ds).
Proof.
  induction 1 as [|d ds Hd _ IH]; cbn [dval length]; [cbn; lia|].
  unfold digit in Hd. rewrite pow10_S. nia.
Qed.

Lemma zeros_digits n : Forall digit (replicate n CHAR_ZERO).
Proof. apply Forall_replicate. unfold digit, CHAR_ZERO. lia. Qed.

(** Strings of one length compare as their numbers. *)
Lemma list_cmp_dval l k :
  Forall digit l -> Forall digit k -> length l = length k ->
  list_cmp Z.compare l k = (dval l ?= dval k).
Proof.
  intros Hl. revert k. induction Hl as [|a l Ha Hl IH]; intros [|b k] Hk Hlen; try done.
  inversion Hk as [|? ? Hb Hk']; subst. injection Hlen as Hlen. cbn [list_cmp dval].
  rewrite IH, Hlen by done. unfold digit in *.
  pose proof (dval_bound l Hl). pose proof (dval_bound k Hk'). rewrite Hlen in *.
  destruct (Z.compare_spec a b) as [->|Hlt|Hgt]; cbn [and_then].
  - destruct (Z.compare_spec (dval l) (dval k)); symmetry;
      [apply Z.compare_eq_iff|apply Z.compare_lt_iff|apply Z.compare_gt_iff]; lia.
  - symmetry. apply Z.compare_lt_iff. nia.
  - symmetry. apply Z.compare_gt_iff. nia.
Qed.

(** A string without a leading zero, other than a single digit. *)
Definition canonical_digits (ds : list Z) : Prop :=
  Forall digit ds /\ match ds with [] => False | [_] => True | d :: _ => d <> 48 end.

Lemma canonical_lower ds :
  canonical_digits ds -> (1 < length ds)%nat -> 10 ^ Z.of_nat (length ds - 1) <= dval ds.
Proof.
  intros [Hd Hc] Hlen. destruct ds as [|d [|e ds]]; cbn [length] in *; [done|lia|].
  inversion Hd as [|? ? Hd1 Hd2]; subst. cbn [dval]. unfold digit in Hd1.
  pose proof (dval_bound _ Hd2). replace (S (S (length ds)) - 1)%nat with (length (e :: ds))
    by (cbn; lia). cbn [dval] in *. nia.
Qed.

Lemma canonical_shorter l k :
  canonical_digits l -> canonical_digits k -> (length l < length k)%nat -> dval l < dval k.
Proof.
  intros [Hl Hcl] Hk Hlen. pose proof (dval_bound _ Hl) as Hb.
  assert (1 < length k)%nat as Hk1 by (destruct l; cbn in *; [done|lia]).
  pose proof (canonical_lower _ Hk Hk1) as Hlow.
  assert (10 ^ Z.of_nat (length l) <= 10 ^ Z.of_nat (length k - 1)); [|lia].
  apply Z.pow_le_mono_r; lia.
Qed.

(** Canonical strings compare by length first. *)
Lemma canonical_cmp l k :
  canonical_digits l -> canonical_digits k ->
  and_then (Nat.compare (length l) (length k)) (list_cmp Z.compare l k) = (dval l ?= dval k).
Proof.
  intros Hl Hk. destruct (Nat.compare_spec (length l) (length k)) as [He|Hlt|Hgt]; cbn [and_then].
  - apply list_cmp_dval; [apply Hl|apply Hk|done].
  - symmetry. apply Z.compare_lt_iff. by apply canonical_shorter.
  - symmetry. apply Z.compare_gt_iff. by apply canonical_shorter.
Qed.

(** ** [u128::to_string] *)

Lemma digits_loop_spec fuel n acc :
  0 <= n -> n < 2 ^ Z.of_nat fuel -> (0 < fuel)%nat -> Forall digit acc ->
  exists ds, digits_loop fuel n acc = ds ++ acc /\ canonical_digits ds /\ dval ds = n.
Proof.
  revert n acc. induction fuel as [|fuel IH]; intros n acc Hn Hf Hpos Hacc; [lia|].
  cbn [digits_loop]. pose proof (Z.mod_pos_bound n 10 ltac:(lia)) as Hm.
  assert (digit (CHAR_ZERO + n mod 10)) as Hd by (unfold digit, CHAR_ZERO; lia).
  destruct (Z.ltb_spec n 10) as [Hs|Hs].
  - exists [CHAR_ZERO + n mod 10]. split; [done|]. split; [split; [by apply Forall_singleton|done]|].
    cbn. unfold CHAR_ZERO. rewrite Z.mod_small by lia. lia.
  - pose proof (Z.div_mod n 10 ltac:(lia)) as Hdm.
    assert (2 ^ Z.of_nat (S fuel) = 2 * 2 ^ Z.of_nat fuel) as Hp
      by (rewrite Nat2Z.inj_succ, Z.pow_succ_r; lia).
    destruct (IH (n / 10) ((CHAR_ZERO + n mod 10) :: acc)) as (ds & He & [Hds Hc] & Hv).
    + lia.
    + lia.
    + destruct fuel; [cbn in *; lia|lia].
    + by constructor.
    + exists (ds ++ [CHAR_ZERO + n mod 10]). rewrite He, <- app_assoc. split; [done|]. split.
      * split; [apply Forall_app; split; [done|by apply Forall_singleton]|].
        destruct ds as [|d [|e ds]]; cbn; [done| |done].
        cbn in Hv. lia.
      * rewrite dval_app, Hv. cbn [dval length]. unfold CHAR_ZERO. lia.
Qed.

Lemma u128_to_string_spec n :
  0 <= n -> canonical_digits (u128_to_string n) /\ dval (u128_to_string n) = n.
Proof.
  intros Hn. unfold u128_to_string.
  destruct (digits_loop_spec (S (Z.to_nat (Z.log2 n))) n []) as (ds & He & Hc & Hv);
    [done| |lia|constructor|].
  - rewrite Nat2Z.inj_succ, Z2Nat.id by apply Z.log2_nonneg.
    destruct (Z.eq_dec n 0) as [->|]; [cbn; lia|]. apply Z.log2_spec. lia.
  - rewrite app_nil_r in He. rewrite He. done.
Qed.

(** ** [compare_decimal] *)

(** The two strings of a decimal: the integer part is canonical and the fraction has the
    scale's width. *)
Lemma decimal_parts_spec d i f :
  0 <= dv_scale d -> decimal_parts d = (i, f) ->
  canonical_digits i /\ Forall digit f /\ Z.of_nat (length f) = dv_scale d /\
  Z.abs (dv_coefficient d) = dval i * 10 ^ dv_scale d + dval f.
Proof.
  intros Hs. unfold decimal_parts.
  destruct (u128_to_string_spec (Z.abs (dv_coefficient d)) ltac:(lia)) as [[Hd Hc] Hv].
  set (ds := u128_to_string _) in *. set (s := Z.to_nat (dv_scale d)).
  set (p := replicate _ _ ++ ds). intros [= <- <-].
  assert (Forall digit p) as Hp by (apply Forall_app; split; [apply zeros_digits|done]).
  assert (length p = (s + 1 - length ds) + length ds)%nat as Hlen
    by (unfold p; by rewrite length_app, length_replicate).
  assert (length (drop (length p - s) p) = s) as Hf by (rewrite length_drop; lia).
  assert (dval p = Z.abs (dv_coefficient d)) as Hpv
    by (unfold p; rewrite dval_app, dval_zeros; lia).
  split_and!.
  - split; [by apply Forall_take|].
    destruct (decide (length ds <= s + 1)%nat) as [Hle|Hgt].
    + replace (length p - s)%nat with 1%nat by lia. destruct p; cbn in *; [lia|done].
    + unfold p. replace (s + 1 - length ds)%nat with 0%nat by lia. cbn [replicate app].
      destruct ds as [|a [|b ds']]; cbn [length] in *; [lia|lia|].
      destruct (S (S (length ds')) - s)%nat as [|[|m]] eqn:E; [lia|lia|]. cbn. done.
  - by apply Forall_drop.
  - rewrite Hf. unfold s. lia.
  - rewrite <- Hpv, <- (take_drop (length p - s) p) at 1. rewrite dval_app, Hf.
    unfold s. by rewrite Z2Nat.id.
Qed.

Lemma pad_right_spec w f :
  Forall digit f -> (length f <= w)%nat ->
  Forall digit (pad_right w f) /\ length (pad_right w f) = w /\
  dval (pad_right w f) = dval f * 10 ^ Z.of_nat (w - length f).
Proof.
  intros Hf Hw. unfold pad_right. split_and!.
  - apply Forall_app. split; [done|apply zeros_digits].
  - rewrite length_app, length_replicate. lia.
  - rewrite dval_app, dval_zeros, length_replicate. lia.
Qed.

Lemma compare_scale a b p : 0 < p -> (a ?= b) = (a * p ?= b * p).
Proof. intros Hp. apply Zmult_compare_compat_r. lia. Qed.

Lemma fraction_cmp f g :
  Forall digit f -> Forall digit g ->
  let w := Nat.max (length f) (length g) in
  list_cmp Z.compare (pad_right w f) (pad_right w g) =
  (dval f * 10 ^ Z.of_nat (length g) ?= dval g * 10 ^ Z.of_nat (length f)).
Proof.
  intros Hf Hg w. destruct (pad_right_spec w f Hf ltac:(lia)) as (D1 & L1 & V1).
  destruct (pad_right_spec w g Hg ltac:(lia)) as (D2 & L2 & V2).
  rewrite list_cmp_dval, V1, V2 by congruence.
  (* both sides scaled by the common power *)
  set (m := Nat.min (length f) (length g)).
  rewrite (compare_scale _ _ _ (pow10_pos m)).
  rewrite <- !Z.mul_assoc, <- !pow10_add.
  by replace (w - length f + m)%nat with (length g) by lia;
    replace (w - length g + m)%nat with (length f) by lia.
Qed.

(** Magnitudes with parts [i.f] compare by integer part, then fraction. *)
Lemma scaled_compare i f j g p q :
  0 < p -> 0 < q -> 0 <= f < p -> 0 <= g < q ->
  and_then (i ?= j) (f * q ?= g * p) = ((i * p + f) * q ?= (j * q + g) * p).
Proof.
  intros Hp Hq Hf Hg. destruct (Z.compare_spec i j) as [->|Hlt|Hgt]; cbn [and_then].
  - destruct (Z.compare_spec (f * q) (g * p)); symmetry;
      [apply Z.compare_eq_iff|apply Z.compare_lt_iff|apply Z.compare_gt_iff]; nia.
  - symmetry. apply Z.compare_lt_iff.
    assert ((i + 1) * (p * q) <= j * (p * q)) by nia. assert (f * q < p * q) by nia. nia.
  - symmetry. apply Z.compare_gt_iff.
    assert ((j + 1) * (p * q) <= i * (p * q)) by nia. assert (g * p < q * p) by nia. nia.
Qed.

Lemma compare_signs a b p q : 0 < p -> 0 < q -> a < 0 -> 0 <= b -> (a * p ?= b * q) = Lt.
Proof. intros Hp Hq Ha Hb. apply Z.compare_lt_iff. nia. Qed.

Lemma and_then_assoc a b c : and_then a (and_then b c) = and_then (and_then a b) c.
Proof. by destruct a. Qed.

(** The comparison of decimals by aligned digit strings is the exact comparison of the two
    rational numbers, for all coefficients and all scales of a byte, with no overflow. *)
Theorem compare_decimal_exact l r :
  0 <= dv_scale l <= 255 -> 0 <= dv_scale r <= 255 ->
  compare_decimal l r =
  (dv_coefficient l * 10 ^ dv_scale r ?= dv_coefficient r * 10 ^ dv_scale l).
Proof.
  intros Hl Hr. unfold compare_decimal.
  pose proof (Z.pow_pos_nonneg 10 (dv_scale l) ltac:(lia) ltac:(lia)) as Pl.
  pose proof (Z.pow_pos_nonneg 10 (dv_scale r) ltac:(lia) ltac:(lia)) as Pr.
  destruct ((dv_coefficient l =? 0) && (dv_coefficient r =? 0)) eqn:Hz.
  { simp_bool. rewrite H, H0. done. }
  destruct (Bool.eqb (dv_coefficient l <? 0) (dv_coefficient r <? 0)) eqn:Hsign; cbn [negb].
  2:{ destruct (Z.ltb_spec (dv_coefficient l) 0), (Z.ltb_spec (dv_coefficient r) 0);
        try done; symmetry; [|rewrite Z.compare_antisym, CompOpp_iff]; cbn;
        by apply compare_signs. }
  destruct (decimal_parts l) as [i f] eqn:El, (decimal_parts r) as [j g] eqn:Er.
  destruct (decimal_parts_spec l _ _ ltac:(lia) El) as (Ci & Df & Lf & Vl).
  destruct (decimal_parts_spec r _ _ ltac:(lia) Er) as (Cj & Dg & Lg & Vr).
  pose proof (dval_bound _ Df) as Bf. pose proof (dval_bound _ Dg) as Bg. rewrite Lf in Bf.
  rewrite Lg in Bg.
  rewrite and_then_assoc, canonical_cmp, fraction_cmp, Lf, Lg by done.
  rewrite scaled_compare, <- Vl, <- Vr by done.
  destruct (Z.ltb_spec (dv_coefficient l) 0), (Z.ltb_spec (dv_coefficient r) 0); try done.
  - rewrite !Z.abs_neq by lia. rewrite !Z.mul_opp_l, Z.compare_opp. by rewrite <- Z.compare_antisym.
  - by rewrite !Z.abs_eq by lia.
Qed.

(** ** The evaluator *)

(** Induction over expressions with the children of conjunctions and disjunctions. *)
Lemma PredicateExpr_nested_ind (P : PredicateExpr -> Prop) :
  (forall cs, Forall P cs -> P (PAnd cs)) -> (forall cs, Forall P cs -> P (POr cs)) ->
  (forall c, P c -> P (PNot c)) ->
  (forall e, match e with PAnd _ | POr _ | PNot _ => True | _ => P e end) -> forall e, P e.
Proof.
  intros Ha Ho Hn Hl. fix IH 1. intros e.
  destruct e as [cs|cs|c| | | | | | | | | | | | | | | ] eqn:E;
    try (specialize (Hl e); rewrite E in Hl; exact Hl).
  - apply Ha. clear E. induction cs; constructor; auto.
  - apply Ho. clear E. induction cs; constructor; auto.
  - apply Hn, IH.
Qed.

(** Strong Kleene connectives in which an error of any operand is an error of the whole. *)
Definition kleene_and (vs : list TruthValue) : TruthValue :=
  if contains vs TError then TError
  else if contains vs TFalse then TFalse
  else if contains vs TUnknown then TUnknown else TTrue.

Definition kleene_or (vs : list TruthValue) : TruthValue :=
  if contains vs TError then TError
  else if contains vs TTrue then TTrue
  else if contains vs TUnknown then TUnknown else TFalse.

(** The denotation of an expression: a connective with no operand is an error, and a
    comparison means what it evaluates to on its own. *)
Fixpoint sem {C : ConceptResolver} (facts : FactSet) (e : PredicateExpr) : TruthValue :=
  match e with
  | PAnd cs => if is_empty cs then TError else kleene_and (map (sem facts) cs)
  | POr cs => if is_empty cs then TError else kleene_or (map (sem facts) cs)
  | PNot c => truth_not (sem facts c)
  | comparison => at_depth facts comparison 0
  end.

(** The number of edges from the root to the deepest leaf. *)
Fixpoint expr_depth (e : PredicateExpr) : Z :=
  match e with
  | PAnd cs | POr cs => fold_right (fun c m => Z.max (1 + expr_depth c) m) 0 cs
  | PNot c => 1 + expr_depth c
  | _ => 0
  end.

Lemma contains_cons {A} `{EqDecision A} (a x : A) l : contains (a :: l) x = (x == a) || contains l x.
Proof.
  unfold contains. destruct (decide (x = a)) as [->|Hne].
  - by rewrite !bool_decide_eq_true_2 by set_solver.
  - rewrite (bool_decide_eq_false_2 (x = a)) by done. cbn.
    apply bool_decide_ext. set_solver.
Qed.

Lemma contains_nil {A} `{EqDecision A} (x : A) : contains [] x = false.
Proof. apply bool_decide_eq_false_2. set_solver. Qed.

Lemma fold_and_step vs v :
  fold_left and_step vs v = kleene_and (v :: vs).
Proof.
  revert v. induction vs as [|w vs IH]; intros v; cbn [fold_left];
    [unfold kleene_and; rewrite !contains_cons, !contains_nil; by destruct v|].
  rewrite IH. unfold kleene_and. rewrite !contains_cons.
  destruct v, w; cbn; destruct (contains vs TError), (contains vs TFalse), (contains vs TUnknown);
    done.
Qed.

Lemma fold_or_step vs v :
  fold_left or_step vs v = kleene_or (v :: vs).
Proof.
  revert v. induction vs as [|w vs IH]; intros v; cbn [fold_left];
    [unfold kleene_or; rewrite !contains_cons, !contains_nil; by destruct v|].
  rewrite IH. unfold kleene_or. rewrite !contains_cons.
  destruct v, w; cbn; destruct (contains vs TError), (contains vs TTrue), (contains vs TUnknown);
    done.
Qed.

Lemma combine_and_spec vs : combine_and vs = kleene_and vs.
Proof. unfold combine_and. rewrite fold_and_step. unfold kleene_and. by rewrite !contains_cons. Qed.

Lemma combine_or_spec vs : combine_or vs = kleene_or vs.
Proof. unfold combine_or. rewrite fold_or_step. unfold kleene_or. by rewrite !contains_cons. Qed.

Lemma depth_children cs d :
  0 <= d -> fold_right (fun c m => Z.max (1 + expr_depth c) m) 0 cs <= d <->
  Forall (fun c => 1 + expr_depth c <= d) cs.
Proof.
  intros Hd. induction cs as [|c cs IH]; cbn; [split; [constructor|lia]|].
  rewrite Forall_cons, <- IH. lia.
Qed.

Lemma expr_depth_nonneg e : 0 <= expr_depth e.
Proof.
  revert e.
  apply PredicateExpr_nested_ind; [intros cs _|intros cs _|intros c IH|intros e]; cbn [expr_depth].
  1,2: induction cs as [|c cs IH]; cbn [fold_right]; lia.
  - lia.
  - by destruct e.
Qed.

Section Evaluator.
Context {C : ConceptResolver}.

(** The children of a connective: their denotations within the bound, an error among them
    beyond it. *)
Lemma children_within facts cs d :
  0 <= d <= MAX_PREDICATE_DEPTH ->
  Forall (fun e => forall d, 0 <= d -> at_depth facts e d =
    if MAX_PREDICATE_DEPTH <? d + expr_depth e then TError else sem facts e) cs ->
  let vs := map (fun c => at_depth facts c (d + 1)) cs in
  if MAX_PREDICATE_DEPTH <? d + expr_depth (PAnd cs)
  then contains vs TError = true else vs = map (sem facts) cs.
Proof.
  intros Hd IH vs. rewrite Forall_forall in IH.
  destruct (Z.ltb_spec MAX_PREDICATE_DEPTH (d + expr_depth (PAnd cs))) as [Hlt|Hge].
  - assert (~ Forall (fun c => 1 + expr_depth c <= MAX_PREDICATE_DEPTH - d) cs) as Hn.
    { rewrite <- depth_children by lia. cbn [expr_depth] in Hlt. lia. }
    apply not_Forall_Exists in Hn; [|intros c; apply _].
    apply Exists_exists in Hn as (c & Hc & Hdeep). apply contains_true, list_elem_of_fmap.
    cbn in Hdeep. exists c. split; [|done]. rewrite IH by (done || lia).
    destruct (Z.ltb_spec MAX_PREDICATE_DEPTH (d + 1 + expr_depth c)); [done|lia].
  - assert (Forall (fun c => 1 + expr_depth c <= MAX_PREDICATE_DEPTH - d) cs) as Ha.
    { apply depth_children; [lia|]. cbn [expr_depth] in Hge. lia. }
    unfold vs. apply map_ext_in. intros c Hc%list_elem_of_In. rewrite IH by (done || lia).
    rewrite Forall_forall in Ha. specialize (Ha _ Hc).
    destruct (Z.ltb_spec MAX_PREDICATE_DEPTH (d + 1 + expr_depth c)); [lia|done].
Qed.

Lemma at_depth_exact facts e d :
  0 <= d -> at_depth facts e d =
  if MAX_PREDICATE_DEPTH <? d + expr_depth e then TError else sem facts e.
Proof.
  revert d. pattern e. revert e.
  apply PredicateExpr_nested_ind; [intros cs IH|intros cs IH|intros c IH|intros e].
  - intros d Hd. pose proof (children_within facts cs d) as Hc. cbn [at_depth sem].
    destruct (Z.ltb_spec MAX_PREDICATE_DEPTH d) as [|Hle].
    { destruct (Z.ltb_spec MAX_PREDICATE_DEPTH (d + expr_depth (PAnd cs))) as [|Hx]; [done|].
      pose proof (expr_depth_nonneg (PAnd cs)). lia. }
    specialize (Hc ltac:(lia) IH). cbn [expr_depth] in *.
    destruct cs as [|c cs]; cbn [is_empty]; [by destruct (_ <? _)|].
    rewrite combine_and_spec. destruct (MAX_PREDICATE_DEPTH <? _); [|by rewrite Hc].
    unfold kleene_and. by rewrite Hc.
  - intros d Hd. pose proof (children_within facts cs d) as Hc. cbn [at_depth sem].
    destruct (Z.ltb_spec MAX_PREDICATE_DEPTH d) as [|Hle].
    { destruct (Z.ltb_spec MAX_PREDICATE_DEPTH (d + expr_depth (POr cs))) as [|Hx]; [done|].
      pose proof (expr_depth_nonneg (POr cs)). lia. }
    specialize (Hc ltac:(lia) IH). cbn [expr_depth] in *.
    destruct cs as [|c cs]; cbn [is_empty]; [by destruct (_ <? _)|].
    rewrite combine_or_spec. destruct (MAX_PREDICATE_DEPTH <? _); [|by rewrite Hc].
    unfold kleene_or. by rewrite Hc.
  - intros d Hd. cbn [at_depth sem expr_depth]. rewrite IH by lia.
    pose proof (expr_depth_nonneg c) as Hp.
    replace (d + (1 + expr_depth c)) with (d + 1 + expr_depth c) by lia.
    destruct (Z.ltb_spec MAX_PREDICATE_DEPTH d), (Z.ltb_spec MAX_PREDICATE_DEPTH (d + 1 + expr_depth c));
      try done. lia.
  - destruct e; try done; intros d Hd; cbn [at_depth sem expr_depth]; rewrite Z.add_0_r;
      by destruct (MAX_PREDICATE_DEPTH <? d).
Qed.

(** Evaluation of an applicability predicate is the four-valued semantics of its connectives and
    comparisons, for every expression within the depth limit, and an error beyond it. *)
Theorem evaluate_exact facts e :
  evaluate e facts =
  if MAX_PREDICATE_DEPTH <? expr_depth e then TError else sem facts e.
Proof. apply (at_depth_exact facts e 0). lia. Qed.

(** ** Learning facts *)

(** [v] may become [v'] when more is known: unknown may be settled, and an error may surface. *)
Definition refines (v v' : TruthValue) : Prop := v' = v \/ v = TUnknown \/ v' = TError.

(** [facts'] knows everything [facts] does. *)
Definition extends (facts facts' : FactSet) : Prop :=
  forall k f, FactSet_get facts k = Some f -> FactSet_get facts' k = Some f.

(** No condition on a fact being absent or present. *)
Fixpoint presence_free (e : PredicateExpr) : bool :=
  match e with
  | PAnd cs | POr cs => forallb presence_free cs
  | PNot c => presence_free c
  | PExists _ | PMissing _ => false
  | _ => true
  end.

Lemma refines_refl v : refines v v.
Proof. by left. Qed.

Lemma and_step_refines a a' b b' :
  refines a a' -> refines b b' -> refines (and_step a b) (and_step a' b').
Proof. unfold refines. destruct a, a', b, b'; cbn; naive_solver. Qed.

Lemma or_step_refines a a' b b' :
  refines a a' -> refines b b' -> refines (or_step a b) (or_step a' b').
Proof. unfold refines. destruct a, a', b, b'; cbn; naive_solver. Qed.

Lemma fold_refines (step : TruthValue -> TruthValue -> TruthValue) vs vs' v v' :
  (forall a a' b b', refines a a' -> refines b b' -> refines (step a b) (step a' b')) ->
  Forall2 refines vs vs' -> refines v v' -> refines (fold_left step vs v) (fold_left step vs' v').
Proof.
  intros Hs Hvs. revert v v'. induction Hvs; intros v v' Hv; cbn; auto.
Qed.

Lemma binary_refines l r facts facts' compare :
  extends facts facts' -> refines (binary l r facts compare) (binary l r facts' compare).
Proof.
  intros He.
  assert (forall o x, resolve o facts = Some x -> resolve o facts' = Some x) as Hr.
  { intros [k|x] y; cbn; [|done]. destruct (FactSet_get facts k) as [f|] eqn:E; [|done].
    by rewrite (He _ _ E). }
  unfold binary. destruct (resolve l facts) as [a|] eqn:El; [|by right; left].
  destruct (resolve r facts) as [b|] eqn:Er; [|by right; left].
  rewrite (Hr _ _ El), (Hr _ _ Er). apply refines_refl.
Qed.

Lemma at_depth_refines facts facts' e d :
  extends facts facts' -> presence_free e = true ->
  refines (at_depth facts e d) (at_depth facts' e d).
Proof.
  intros He. revert d. pattern e. revert e.
  apply PredicateExpr_nested_ind; [intros cs IH|intros cs IH|intros c IH|intros e].
  1,2: intros d Hp; cbn [at_depth]; destruct (MAX_PREDICATE_DEPTH <? d); [apply refines_refl|];
    destruct (is_empty cs); [apply refines_refl|];
    apply fold_refines; [apply and_step_refines || apply or_step_refines| |apply refines_refl];
    rewrite Forall2_fmap; apply Forall_Forall2_diag; cbn in Hp;
    rewrite forallb_true in Hp; rewrite Forall_forall in *; auto.
  - intros d Hp. cbn [at_depth]. destruct (MAX_PREDICATE_DEPTH <? d); [apply refines_refl|].
    destruct (IH (d + 1) Hp) as [->|[->| ->]]; [apply refines_refl|by right; left|by right; right].
  - destruct e; try done; intros d Hp; try discriminate Hp; cbn [at_depth];
      (destruct (MAX_PREDICATE_DEPTH <? d); [apply refines_refl|]); by apply binary_refines.
Qed.

(** Learning a fact never flips a decision: for predicates that do not test the presence of a
    fact, true and false are kept when facts are added, unless an evaluation fails. *)
Theorem learning_never_flips facts facts' e :
  extends facts facts' -> presence_free e = true -> evaluate e facts' <> TError ->
  (evaluate e facts = TTrue -> evaluate e facts' = TTrue) /\
  (evaluate e facts = TFalse -> evaluate e facts' = TFalse).
Proof.
  intros He Hp Hn. unfold evaluate in *.
  destruct (at_depth_refines facts facts' e 0 He Hp) as [->|[->|Herr]]; by rewrite ?Herr.
Qed.
End Evaluator.
