(* ===== verification/SearchResolution.v ===== *)
(** * SearchResolution: which assertion wins and which candidate qualifies

    search-core assertion.rs and authority.rs, the candidates, gaps and rejections of
    discovery.rs, applicability.rs and contrast.rs, over the values of SearchValues. *)
From stdpp Require Import base gmap sets list strings.
From Stdlib Require Import ZArith Lia.
From S2P Require Import Prelude Text Ordered SearchValues.

Local Open Scope Z_scope.

(** ** assertion.rs and authority.rs *)

Inductive AssertionOrigin : Type :=
| Authoritative | Declared | Curated | Derived | Extracted | Observed | Inferred.
#[global] Instance AssertionOrigin_eq_dec : EqDecision AssertionOrigin.
Proof. solve_decision. Defined.

Definition AssertionOrigin_rank (o : AssertionOrigin) : Z :=
  match o with
  | Authoritative => 0 | Declared => 1 | Curated => 2 | Derived => 3 | Extracted => 4
  | Observed => 5 | Inferred => 6
  end.
#[global] Instance AssertionOrigin_ord : Ord AssertionOrigin :=
  fun a b => cmp (AssertionOrigin_rank a) (AssertionOrigin_rank b).
#[global] Instance AssertionOrigin_ord_laws : OrdLaws AssertionOrigin.
Proof. apply (OrdLaws_inj AssertionOrigin_rank); [done|]. by intros [] []. Qed.

Record Assertion : Type := {
  as_assertion_id : option AssertionId;
  as_subject_ref : string;
  as_predicate : string;
  as_value : TypedValue;
  as_source_ref : string;
  as_origin : AssertionOrigin;
  as_authority_scope : string;
  as_evidence_refs : list string;
  as_observed_at : Instant;
  as_effective_from : option Instant;
  as_effective_to : option Instant;
  as_derived_by : option string
}.
#[global] Instance Assertion_eq_dec : EqDecision Assertion.
Proof. solve_decision. Defined.

Definition Assertion_new (subject_ref predicate : string) (value : TypedValue)
    (source_ref : string) (origin : AssertionOrigin) (authority_scope : string)
    (observed_at : Instant) : Assertion := {|
  as_assertion_id := None; as_subject_ref := subject_ref; as_predicate := predicate;
  as_value := value; as_source_ref := source_ref; as_origin := origin;
  as_authority_scope := authority_scope; as_evidence_refs := [];
  as_observed_at := observed_at; as_effective_from := None; as_effective_to := None;
  as_derived_by := None
|}.

(** [BTreeMap<(String, String, AssertionOrigin), u16>]. *)
Definition AuthorityPolicy : Type := list ((string * string * AssertionOrigin) * Z).

Definition grant_rank (policy : AuthorityPolicy) (authority_scope predicate : string)
    (origin : AssertionOrigin) (rank : Z) : AuthorityPolicy :=
  bt_insert (authority_scope, predicate, origin) rank policy.

Definition policy_rank (policy : AuthorityPolicy) (authority_scope predicate : string)
    (origin : AssertionOrigin) : option Z :=
  bt_get (authority_scope, predicate, origin) policy.

Record AuthorityConflict : Type := {
  ac_subject_ref : string;
  ac_predicate : string;
  ac_authority_scope : string;
  ac_rank : Z;
  ac_values : list TypedValue
}.
#[global] Instance AuthorityConflict_eq_dec : EqDecision AuthorityConflict.
Proof. solve_decision. Defined.

Inductive AuthorityResolution : Type :=
| AuthorityUnresolved
| AuthorityResolved (value : TypedValue)
| AuthorityConflicted (conflict : AuthorityConflict).
#[global] Instance AuthorityResolution_eq_dec : EqDecision AuthorityResolution.
Proof. solve_decision. Defined.

(** The assertions of the subject, predicate and scope that the policy ranks. *)
Definition scoped_assertions (assertions : list Assertion) (policy : AuthorityPolicy)
    (subject_ref predicate authority_scope : string) : list (Assertion * Z) :=
  filter_map (fun a => option_map (pair a) (policy_rank policy authority_scope predicate (as_origin a)))
    (List.filter
       (fun a => (as_subject_ref a == subject_ref) && (as_predicate a == predicate)
                 && (as_authority_scope a == authority_scope)) assertions).

Definition is_protected (a : Assertion) : bool :=
  match as_origin a with Authoritative | Curated => true | _ => false end.

Definition eligible_assertions (scoped : list (Assertion * Z)) : list (Assertion * Z) :=
  let has_protected := existsb (fun '(a, _) => is_protected a) scoped in
  List.filter (fun '(a, _) => negb has_protected || (as_origin a != Inferred)) scoped.

(** [iter().max()]. *)
Definition max_rank (ranks : list Z) : option Z :=
  match ranks with
  | [] => None
  | r :: rs => Some (fold_left Z.max rs r)
  end.

Definition collect_values (best_rank : Z) (eligible : list (Assertion * Z)) : list TypedValue :=
  fold_left
    (fun values '(a, rank) =>
       if (rank =? best_rank) && negb (existsb (fun existing => semantically_equal existing (as_value a)) values)
       then values ++ [as_value a] else values) eligible [].

Definition resolve_assertions (assertions : list Assertion) (policy : AuthorityPolicy)
    (subject_ref predicate authority_scope : string) : AuthorityResolution :=
  let eligible :=
    eligible_assertions (scoped_assertions assertions policy subject_ref predicate authority_scope) in
  match max_rank (map snd eligible) with
  | None => AuthorityUnresolved
  | Some best_rank =>
      match collect_values best_rank eligible with
      | [value] => AuthorityResolved value
      | values =>
          AuthorityConflicted {| ac_subject_ref := subject_ref; ac_predicate := predicate;
            ac_authority_scope := authority_scope; ac_rank := best_rank; ac_values := values |}
      end
  end.

(** ** discovery.rs: candidates and gaps *)

Inductive CandidateIdentityClass : Type :=
| DurableResource | RemoteStableReference | EphemeralCandidate.

Record FederatedCandidate : Type := {
  fc_candidate_id : string;
  fc_identity_class : CandidateIdentityClass;
  fc_resource_ref : option ResourceId;
  fc_logical_resource_ref : option LogicalResourceId;
  fc_source_ref : SourceId;
  fc_retrieval_method : string;
  fc_locator : option string;
  fc_matched_signals : list string;
  fc_materialization_state : option string;
  fc_provenance : option string;
  fc_retrieval_trace_ref : option string
}.

Definition FederatedCandidate_new (candidate_id : string)
    (identity_class : CandidateIdentityClass) (source_ref : SourceId)
    (retrieval_method : string) : FederatedCandidate := {|
  fc_candidate_id := candidate_id; fc_identity_class := identity_class;
  fc_resource_ref := None; fc_logical_resource_ref := None; fc_source_ref := source_ref;
  fc_retrieval_method := retrieval_method; fc_locator := None; fc_matched_signals := [];
  fc_materialization_state := None; fc_provenance := None; fc_retrieval_trace_ref := None
|}.

Inductive GapReason : Type :=
| GapMissingFact | GapInsufficientEvidenceClass | GapAuthority | GapFreshness
| GapCorroboration | GapConflict | GapAvailability | GapUnsupportedCoverage.
#[global] Instance GapReason_eq_dec : EqDecision GapReason.
Proof. solve_decision. Defined.

Record InformationGap : Type := {
  ig_gap_id : option GapId;
  ig_required_fact : string;
  ig_reason : GapReason;
  ig_blocking : bool;
  ig_acceptable_evidence : list string
}.

Definition InformationGap_new (required_fact : string) (reason : GapReason) (blocking : bool)
    : InformationGap := {|
  ig_gap_id := None; ig_required_fact := required_fact; ig_reason := reason;
  ig_blocking := blocking; ig_acceptable_evidence := []
|}.

(** ** applicability.rs *)

Inductive ApplicabilityState : Type := Applicable | Excluded | Unresolved | Invalid.
#[global] Instance ApplicabilityState_eq_dec : EqDecision ApplicabilityState.
Proof. solve_decision. Defined.

Inductive DiscriminatorImportance : Type := Hard | Soft.
#[global] Instance DiscriminatorImportance_eq_dec : EqDecision DiscriminatorImportance.
Proof. solve_decision. Defined.

Inductive MinimumFactEvidence : Type := AnyEvidence | NotInferred | AuthoritativeOrExplicit.
#[global] Instance MinimumFactEvidence_eq_dec : EqDecision MinimumFactEvidence.
Proof. solve_decision. Defined.

Definition accepts (m : MinimumFactEvidence) (origin : FactOrigin) : bool :=
  match m with
  | AnyEvidence => true
  | NotInferred => origin != FactInferred
  | AuthoritativeOrExplicit =>
      match origin with FactAuthoritative | FactExplicit => true | _ => false end
  end.

Record Discriminator : Type := {
  dc_facet : string;
  dc_importance : DiscriminatorImportance;
  dc_predicate : PredicateExpr;
  dc_minimum_fact_evidence : MinimumFactEvidence
}.

Definition Discriminator_new (facet : string) (importance : DiscriminatorImportance)
    (predicate : PredicateExpr) : Discriminator := {|
  dc_facet := facet; dc_importance := importance; dc_predicate := predicate;
  dc_minimum_fact_evidence := AnyEvidence
|}.

Record ApplicabilityEvaluation : Type := {
  ae_state : ApplicabilityState;
  ae_matched_conditions : list string;
  ae_resolved_discriminators : list string;
  ae_remaining_nonblocking_unknowns : list string;
  ae_gaps : list InformationGap;
  ae_reasons : list string
}.

Record QualifiedResource : Type := {
  qr_resource_ref : ResourceId;
  qr_source_ref : option SourceId;
  qr_usage_profile_ref : option UsageProfileId;
  qr_applicability : ApplicabilityState;
  qr_matched_conditions : list string;
  qr_resolved_discriminators : list string;
  qr_remaining_nonblocking_unknowns : list string;
  qr_contrast_resolution : option string;
  qr_evidence_refs : list string;
  qr_qualification_trace : list string
}.

Definition qualify (self : ApplicabilityEvaluation) (candidate : FederatedCandidate)
    : option QualifiedResource :=
  if ae_state self != Applicable then None
  else
    match fc_resource_ref candidate with
    | None => None
    | Some resource_ref =>
        Some {| qr_resource_ref := resource_ref; qr_source_ref := Some (fc_source_ref candidate);
                qr_usage_profile_ref := None; qr_applicability := ae_state self;
                qr_matched_conditions := ae_matched_conditions self;
                qr_resolved_discriminators := ae_resolved_discriminators self;
                qr_remaining_nonblocking_unknowns := ae_remaining_nonblocking_unknowns self;
                qr_contrast_resolution := None; qr_evidence_refs := [];
                qr_qualification_trace := ae_reasons self |}
    end.

Record RejectedCandidate : Type := {
  rc_candidate_id : string;
  rc_state : ApplicabilityState;
  rc_reason_trace : list string
}.

Definition RejectedCandidate_from_evaluation (candidate : FederatedCandidate)
    (evaluation : ApplicabilityEvaluation) : option RejectedCandidate :=
  if ae_state evaluation == Applicable then None
  else Some {| rc_candidate_id := fc_candidate_id candidate; rc_state := ae_state evaluation;
               rc_reason_trace := ae_reasons evaluation |}.

(** A fact under the key that the minimum does not accept. *)
Definition insufficient_key (facts : FactSet) (minimum : MinimumFactEvidence) (key : string)
    : bool :=
  is_some_and (FactSet_get facts key) (fun f => negb (accepts minimum (fact_origin f))).

Definition operand_key (o : Operand) : list string :=
  match o with OpFact key => [key] | OpValue _ => [] end.

Fixpoint expr_size (e : PredicateExpr) : nat :=
  match e with
  | PAnd cs | POr cs => S (fold_right (fun c n => (expr_size c + n)%nat) 0%nat cs)
  | PNot c => S (expr_size c)
  | _ => 1%nat
  end.

(** The worklist of [insufficient_predicate_fact], its top at the head; every expression is
    popped once. *)
Fixpoint insufficient_loop (fuel : nat) (pending : list PredicateExpr) (facts : FactSet)
    (minimum : MinimumFactEvidence) : option string :=
  match fuel with
  | O => None
  | S fuel =>
      match pending with
      | [] => None
      | current :: rest =>
          match current with
          | PAnd children | POr children =>
              insufficient_loop fuel (children ++ rest) facts minimum
          | PNot child => insufficient_loop fuel (child :: rest) facts minimum
          | PExists key | PMissing key =>
              if insufficient_key facts minimum key then Some key
              else insufficient_loop fuel rest facts minimum
          | PEq l r | PNe l r | PLt l r | PLte l r | PGt l r | PGte l r | PIn l r
          | PContains l r | PIntersects l r | PSubset l r | PSameConcept l r | PIsA l r
          | PDescendantOf l r =>
              match find (insufficient_key facts minimum) (operand_key l ++ operand_key r) with
              | Some key => Some key
              | None => insufficient_loop fuel rest facts minimum
              end
          end
      end
  end.

Definition insufficient_predicate_fact (expression : PredicateExpr) (facts : FactSet)
    (minimum : MinimumFactEvidence) : option string :=
  if minimum == AnyEvidence then None
  else insufficient_loop (S (expr_size expression)) [expression] facts minimum.

Section Applicability.
Context {concepts : ConceptResolver}.

Definition insufficient_fact (facts : FactSet) (rule : Discriminator) : option string :=
  if insufficient_key facts (dc_minimum_fact_evidence rule) (dc_facet rule)
  then Some (dc_facet rule)
  else insufficient_predicate_fact (dc_predicate rule) facts (dc_minimum_fact_evidence rule).

(** The value a rule contributes: its predicate's, unless it rests on facts that are too weak. *)
Definition rule_value (facts : FactSet) (rule : Discriminator) : TruthValue :=
  let evaluated := evaluate (dc_predicate rule) facts in
  if is_some (insufficient_fact facts rule) && (evaluated != TError) then TUnknown
  else evaluated.

Record GateState : Type := {
  gs_result : ApplicabilityEvaluation;
  gs_hard_false : bool;
  gs_hard_unknown : bool;
  gs_invalid : bool
}.

Definition with_reason (r : ApplicabilityEvaluation) (reason : string)
    : ApplicabilityEvaluation := {|
  ae_state := ae_state r; ae_matched_conditions := ae_matched_conditions r;
  ae_resolved_discriminators := ae_resolved_discriminators r;
  ae_remaining_nonblocking_unknowns := ae_remaining_nonblocking_unknowns r;
  ae_gaps := ae_gaps r; ae_reasons := ae_reasons r ++ [reason]
|}.

Definition gate_rule (facts : FactSet) (s : GateState) (rule : Discriminator) : GateState :=
  let r := gs_result s in
  let facet := dc_facet rule in
  match dc_importance rule, rule_value facts rule with
  | _, TError =>
      {| gs_result := with_reason r (facet ++ ": predicate error");
         gs_hard_false := gs_hard_false s; gs_hard_unknown := gs_hard_unknown s;
         gs_invalid := true |}
  | Hard, TFalse =>
      {| gs_result := with_reason r (facet ++ ": hard mismatch");
         gs_hard_false := true; gs_hard_unknown := gs_hard_unknown s;
         gs_invalid := gs_invalid s |}
  | Hard, TUnknown =>
      let lacking := insufficient_fact facts rule in
      let gap :=
        InformationGap_new (unwrap_or facet lacking)
          (if is_some lacking then GapInsufficientEvidenceClass else GapMissingFact) true in
      let r := with_reason r (facet ++ ": hard unresolved") in
      {| gs_result := {| ae_state := ae_state r; ae_matched_conditions := ae_matched_conditions r;
           ae_resolved_discriminators := ae_resolved_discriminators r;
           ae_remaining_nonblocking_unknowns := ae_remaining_nonblocking_unknowns r;
           ae_gaps := ae_gaps r ++ [gap]; ae_reasons := ae_reasons r |};
         gs_hard_false := gs_hard_false s; gs_hard_unknown := true; gs_invalid := gs_invalid s |}
  | Soft, TUnknown =>
      let r := with_reason r (facet ++ ": soft unresolved") in
      {| gs_result := {| ae_state := ae_state r; ae_matched_conditions := ae_matched_conditions r;
           ae_resolved_discriminators := ae_resolved_discriminators r;
           ae_remaining_nonblocking_unknowns := ae_remaining_nonblocking_unknowns r ++ [facet];
           ae_gaps := ae_gaps r; ae_reasons := ae_reasons r |};
         gs_hard_false := gs_hard_false s; gs_hard_unknown := gs_hard_unknown s;
         gs_invalid := gs_invalid s |}
  | _, TTrue =>
      {| gs_result := {| ae_state := ae_state r;
           ae_matched_conditions := ae_matched_conditions r ++ [facet];
           ae_resolved_discriminators := ae_resolved_discriminators r ++ [facet];
           ae_remaining_nonblocking_unknowns := ae_remaining_nonblocking_unknowns r;
           ae_gaps := ae_gaps r; ae_reasons := ae_reasons r |};
         gs_hard_false := gs_hard_false s; gs_hard_unknown := gs_hard_unknown s;
         gs_invalid := gs_invalid s |}
  | Soft, TFalse =>
      let r := with_reason r (facet ++ ": soft mismatch") in
      {| gs_result := {| ae_state := ae_state r; ae_matched_conditions := ae_matched_conditions r;
           ae_resolved_discriminators := ae_resolved_discriminators r ++ [facet];
           ae_remaining_nonblocking_unknowns := ae_remaining_nonblocking_unknowns r;
           ae_gaps := ae_gaps r; ae_reasons := ae_reasons r |};
         gs_hard_false := gs_hard_false s; gs_hard_unknown := gs_hard_unknown s;
         gs_invalid := gs_invalid s |}
  end.

Definition gate_init : GateState := {|
  gs_result := {| ae_state := Applicable; ae_matched_conditions := [];
    ae_resolved_discriminators := []; ae_remaining_nonblocking_unknowns := [];
    ae_gaps := []; ae_reasons := [] |};
  gs_hard_false := false; gs_hard_unknown := false; gs_invalid := false
|}.

Definition set_state (r : ApplicabilityEvaluation) (state : ApplicabilityState)
    : ApplicabilityEvaluation := {|
  ae_state := state; ae_matched_conditions := ae_matched_conditions r;
  ae_resolved_discriminators := ae_resolved_discriminators r;
  ae_remaining_nonblocking_unknowns := ae_remaining_nonblocking_unknowns r;
  ae_gaps := ae_gaps r; ae_reasons := ae_reasons r
|}.

Definition evaluate_applicability (candidate : FederatedCandidate) (facts : FactSet)
    (discriminators : list Discriminator) : ApplicabilityEvaluation :=
  let s := fold_left (gate_rule facts) discriminators gate_init in
  set_state (gs_result s)
    (if gs_invalid s then Invalid
     else if gs_hard_false s then Excluded
     else if gs_hard_unknown s then Unresolved
     else Applicable).

(** contrast.rs. *)
Record ContrastSet : Type := {
  cs_contrast_set_id : string;
  cs_members : list ResourceId;
  cs_discriminators : list Discriminator
}.

Definition resolve_contrast (contrast_set : ContrastSet) (candidate : FederatedCandidate)
    (facts : FactSet) : ApplicabilityEvaluation :=
  let result := evaluate_applicability candidate facts (cs_discriminators contrast_set) in
  if negb (is_some_and (fc_resource_ref candidate) (contains (cs_members contrast_set)))
  then with_reason (set_state result Invalid) "candidate outside contrast set"
  else result.
End Applicability.
