(* ===== verification/SearchEvidence.v ===== *)
(** * SearchEvidence: evidence, observations and bindings of search-core

    evidence.rs (claims and their sufficiency), identity.rs, observation.rs, temporal.rs,
    materialization.rs and binding.rs.  Instants are nanoseconds and a [time::Duration] the
    nanoseconds it spans. *)
From stdpp Require Import base gmap sets list strings.
From Stdlib Require Import ZArith Lia.
From S2P Require Import Prelude Text Ordered SearchValues SearchResolution.

Local Open Scope Z_scope.

(** ** relation.rs [RelationTemporalScope] *)

Record RelationTemporalScope : Type := {
  rts_valid_from : option Instant;
  rts_valid_to : option Instant
}.
#[global] Instance RelationTemporalScope_eq_dec : EqDecision RelationTemporalScope.
Proof. solve_decision. Defined.

Definition scope_contains (self : RelationTemporalScope) (target : Instant) : bool :=
  is_none_or (rts_valid_from self) (fun from => from <=? target)
  && is_none_or (rts_valid_to self) (fun to => target <? to).

(** ** evidence.rs *)

Inductive EvidenceRole : Type :=
| RolePrimary | RoleCorroborating | RoleContradicting | RoleContextual | RoleDerived.
#[global] Instance EvidenceRole_eq_dec : EqDecision EvidenceRole.
Proof. solve_decision. Defined.

Record EvidenceReference : Type := {
  er_source_ref : SourceId;
  er_evidence_ref : option string;
  er_upstream_origin : string;
  er_role : EvidenceRole;
  er_citation_chain : list string;
  er_content_digest : option string;
  er_is_summary : bool
}.

Definition EvidenceReference_new (source_ref : SourceId) (upstream_origin : string)
    (role : EvidenceRole) : EvidenceReference := {|
  er_source_ref := source_ref; er_evidence_ref := None; er_upstream_origin := upstream_origin;
  er_role := role; er_citation_chain := []; er_content_digest := None; er_is_summary := false
|}.

Definition claim_values_semantically_equal (l r : TypedValue) : bool := semantically_equal l r.

Definition is_verified_direct_claim_evidence (role : EvidenceRole) (is_summary : bool)
    (upstream_origin : string) : bool :=
  negb is_summary && negb (is_empty (trim upstream_origin))
  && match role with RolePrimary | RoleCorroborating | RoleContradicting => true | _ => false end.

Inductive ClaimState : Type :=
| ClaimSupported | ClaimAbsent | ClaimUnknown | ClaimConflicted | ClaimInvalid.
#[global] Instance ClaimState_eq_dec : EqDecision ClaimState.
Proof. solve_decision. Defined.

Record Claim : Type := {
  cl_claim_id : ClaimId;
  cl_subject : option string;
  cl_predicate : option string;
  cl_value : option TypedValue;
  cl_temporal_scope : RelationTemporalScope;
  cl_evidence_refs : list EvidenceReference;
  cl_state : ClaimState
}.

Definition Claim_new (claim_id : ClaimId) (state : ClaimState) : Claim := {|
  cl_claim_id := claim_id; cl_subject := None; cl_predicate := None; cl_value := None;
  cl_temporal_scope := {| rts_valid_from := None; rts_valid_to := None |};
  cl_evidence_refs := []; cl_state := state
|}.

Record EvidenceRequirement : Type := {
  rq_required_claims : list ClaimId;
  rq_authority_requirements : list string;
  rq_freshness_requirements : list string;
  rq_minimum_independent_sources : Z;
  rq_contradiction_policy : string;
  rq_completion_policy : string
}.

Definition EvidenceRequirement_new (required_claims : list ClaimId) : EvidenceRequirement := {|
  rq_required_claims := required_claims; rq_authority_requirements := [];
  rq_freshness_requirements := []; rq_minimum_independent_sources := 1;
  rq_contradiction_policy := "block"; rq_completion_policy := "all-required"
|}.

Inductive EvidenceSufficiency : Type :=
| Sufficient | InsufficientEvidence | UnresolvedEvidence | ConflictedEvidence | InvalidEvidence.
#[global] Instance EvidenceSufficiency_eq_dec : EqDecision EvidenceSufficiency.
Proof. solve_decision. Defined.

(** The loop over the supported claims of one id: the last value seen, or an early conflict. *)
Fixpoint values_agree (observed : option TypedValue) (values : list (option TypedValue)) : bool :=
  match values with
  | [] => true
  | None :: values => values_agree observed values
  | Some value :: values =>
      if is_some_and observed (fun existing => negb (claim_values_semantically_equal existing value))
      then false
      else values_agree (Some value) values
  end.

Definition verified (e : EvidenceReference) : bool :=
  is_verified_direct_claim_evidence (er_role e) (er_is_summary e) (er_upstream_origin e).

(** [BTreeSet<&str>] of the trimmed origins of verified supporting evidence. *)
Definition independent_origins (evidence : list EvidenceReference) : list (string * unit) :=
  fold_left (fun s e => bt_insert (trimmed (er_upstream_origin e)) tt s)
    (List.filter
       (fun e => match er_role e with RolePrimary | RoleCorroborating => verified e | _ => false end)
       evidence) [].

(** The two flags the loop carries: [insufficient] and [unresolved]. *)
Definition check_claim (requirement : EvidenceRequirement) (claims : list Claim)
    (flags : bool * bool) (claim_id : ClaimId) : Result (bool * bool) EvidenceSufficiency :=
  let '(insufficient, unresolved) := flags in
  let matching := List.filter (fun c => cl_claim_id c == claim_id) claims in
  let any_state st := existsb (fun c => cl_state c == st) matching in
  if is_empty matching then Ok (insufficient, true)
  else if any_state ClaimInvalid then Err InvalidEvidence
  else if any_state ClaimConflicted then Err ConflictedEvidence
  else
    let supported := any_state ClaimSupported in
    let absent := any_state ClaimAbsent in
    if supported && absent then Err ConflictedEvidence
    else if negb (values_agree None
                    (map cl_value (List.filter (fun c => cl_state c == ClaimSupported) matching)))
    then Err ConflictedEvidence
    else
      let evidence := flat_map cl_evidence_refs matching in
      if existsb (fun e => (er_role e == RoleContradicting) && verified e) evidence
      then Err ConflictedEvidence
      else
        let unresolved :=
          if existsb (fun e => er_role e == RoleContradicting) evidence then true else unresolved in
        if absent then Ok (true, unresolved)
        else if negb supported || any_state ClaimUnknown then Ok (insufficient, true)
        else
          let has_primary := existsb (fun e => (er_role e == RolePrimary) && verified e) evidence in
          if negb has_primary
             || (len (independent_origins evidence) <? rq_minimum_independent_sources requirement)
          then Ok (true, unresolved)
          else Ok (insufficient, unresolved).

Definition evaluate_evidence_sufficiency (requirement : EvidenceRequirement)
    (claims : list Claim) : EvidenceSufficiency :=
  match for_each (check_claim requirement claims) (false, false) (rq_required_claims requirement) with
  | Err verdict => verdict
  | Ok (insufficient, unresolved) =>
      let unresolved :=
        if negb (is_empty (rq_authority_requirements requirement))
           || negb (is_empty (rq_freshness_requirements requirement))
        then true else unresolved in
      if insufficient then InsufficientEvidence
      else if unresolved then UnresolvedEvidence
      else Sufficient
  end.

(** ** identity.rs *)

Inductive IdentityState : Type :=
| IdentityResolved | IdentityProvisional | IdentityUnresolved | IdentityConflict.
#[global] Instance IdentityState_eq_dec : EqDecision IdentityState.
Proof. solve_decision. Defined.

Inductive IdentityEvidenceKind : Type :=
| StableProviderId | SourceNativeId | CanonicalUri | IntegrityDigest | ExplicitDeclaration
| SchemaAndContentIdentity | NameSimilarity | SchemaSimilarity | LlmInference.

Definition is_strong (k : IdentityEvidenceKind) : bool :=
  match k with
  | StableProviderId | SourceNativeId | CanonicalUri | IntegrityDigest | ExplicitDeclaration
  | SchemaAndContentIdentity => true
  | _ => false
  end.

Record IdentityEvidence : Type := {
  ie_kind : IdentityEvidenceKind;
  ie_supports_same_resource : bool;
  ie_evidence_ref : option string
}.

Definition resolve_identity (evidence : list IdentityEvidence) : IdentityState :=
  let supports_strong :=
    existsb (fun i => is_strong (ie_kind i) && ie_supports_same_resource i) evidence in
  let rejects_strong :=
    existsb (fun i => is_strong (ie_kind i) && negb (ie_supports_same_resource i)) evidence in
  if supports_strong && rejects_strong then IdentityConflict
  else if supports_strong then IdentityResolved
  else if rejects_strong then IdentityUnresolved
  else if existsb ie_supports_same_resource evidence then IdentityProvisional
  else IdentityUnresolved.

(** ** observation.rs *)

Inductive Presence : Type := Present | Absent | PresenceUnknown.
#[global] Instance Presence_eq_dec : EqDecision Presence.
Proof. solve_decision. Defined.

Inductive Reachability : Type := Reachable | Unreachable | ReachabilityUnknown.
#[global] Instance Reachability_eq_dec : EqDecision Reachability.
Proof. solve_decision. Defined.

Inductive Coverage : Type := CompleteEnumeration | PartialEnumeration | QueryResult | DirectLookup.
#[global] Instance Coverage_eq_dec : EqDecision Coverage.
Proof. solve_decision. Defined.

Inductive Freshness : Type := Fresh | Stale | FreshnessUnknown.
#[global] Instance Freshness_eq_dec : EqDecision Freshness.
Proof. solve_decision. Defined.

Record ResourceObservation : Type := {
  ro_resource_ref : string;
  ro_observed_at : Instant;
  ro_observation_method : string;
  ro_presence : Presence;
  ro_reachability : Reachability;
  ro_source_coverage : Coverage;
  ro_remote_version : option string;
  ro_etag : option string;
  ro_digest : option string
}.

Record IntegrityConflict : Type := { ic_remote_version : string; ic_digests : list string }.

Record EffectiveResourceState : Type := {
  ef_presence : Presence;
  ef_reachability : Reachability;
  ef_observed_at : option Instant;
  ef_integrity_conflict : option IntegrityConflict
}.

(** [BTreeMap<&str, BTreeSet<&str>>]: the digests seen for each remote version. *)
Definition digests_by_version (observations : list ResourceObservation)
    : list (string * list (string * unit)) :=
  fold_left
    (fun m o =>
       match ro_remote_version o, ro_digest o with
       | Some version, Some digest =>
           bt_alter (fun set => bt_insert digest tt (unwrap_or [] set)) version m
       | _, _ => m
       end) observations [].

(** [max_by_key]: the last of the latest. *)
Definition latest_observation (observations : list ResourceObservation)
    : option ResourceObservation :=
  fold_left
    (fun best o =>
       match best with
       | None => Some o
       | Some b => if ro_observed_at b <=? ro_observed_at o then Some o else Some b
       end) observations None.

Definition derive_effective_resource_state (resource_ref : string)
    (observations : list ResourceObservation) : EffectiveResourceState :=
  let observations := List.filter (fun o => ro_resource_ref o == resource_ref) observations in
  let integrity_conflict :=
    option_map
      (fun '(v, digests) => {| ic_remote_version := v; ic_digests := map fst digests |})
      (find (fun '(_, digests) => 1 <? len digests) (digests_by_version observations)) in
  let '(presence, reachability, observed_at) :=
    match latest_observation observations with
    | None => (PresenceUnknown, ReachabilityUnknown, None)
    | Some o =>
        let presence :=
          match ro_presence o, ro_source_coverage o with
          | Absent, (PartialEnumeration | QueryResult) => PresenceUnknown
          | presence, _ => presence
          end in
        (presence, ro_reachability o, Some (ro_observed_at o))
    end in
  {| ef_presence := presence; ef_reachability := reachability; ef_observed_at := observed_at;
     ef_integrity_conflict := integrity_conflict |}.

(** ** temporal.rs *)

Record TemporalDiscoveryProfile : Type := {
  td_freshness_anchor_at : option Instant;
  td_freshness_basis : option string;
  td_effective_from : option Instant;
  td_effective_to : option Instant
}.
#[global] Instance TemporalDiscoveryProfile_eq_dec : EqDecision TemporalDiscoveryProfile.
Proof. solve_decision. Defined.

Record TemporalEvaluationContext : Type := {
  te_evaluation_id : DiscoveryEvaluationId;
  te_evaluated_at : Instant;
  te_temporal_target : Instant;
  te_business_timezone : string
}.

Record TemporalEvaluation : Type := {
  tv_freshness : Freshness;
  tv_effective_at_target : TruthValue
}.

Definition evaluate_temporal_profile (profile : TemporalDiscoveryProfile)
    (context : TemporalEvaluationContext) (max_current_age : option Z) : TemporalEvaluation :=
  let freshness :=
    match td_freshness_anchor_at profile, max_current_age with
    | Some anchor, Some limit =>
        if (0 <=? limit) && (anchor <=? te_evaluated_at context) then
          if limit <? te_evaluated_at context - anchor then Stale else Fresh
        else FreshnessUnknown
    | _, _ => FreshnessUnknown
    end in
  let effective_at_target :=
    if is_none (td_effective_from profile) && is_none (td_effective_to profile) then TUnknown
    else
      let in_window :=
        is_none_or (td_effective_from profile) (fun from => from <=? te_temporal_target context)
        && is_none_or (td_effective_to profile) (fun to => te_temporal_target context <? to) in
      if in_window then TTrue else TFalse in
  {| tv_freshness := freshness; tv_effective_at_target := effective_at_target |}.

(** ** materialization.rs *)

Inductive MaterializationState : Type :=
| ReferenceOnly | MetadataState | Probed | Fragment | FullContent.
#[global] Instance MaterializationState_eq_dec : EqDecision MaterializationState.
Proof. solve_decision. Defined.

Definition MaterializationState_rank (s : MaterializationState) : Z :=
  match s with
  | ReferenceOnly => 0 | MetadataState => 1 | Probed => 2 | Fragment => 3 | FullContent => 4
  end.

Definition can_advance_to (self next : MaterializationState) : bool :=
  MaterializationState_rank self <=? MaterializationState_rank next.

Inductive ProviderContentPermission : Type :=
| PermitReferenceOnly | PermitMetadata | PermitFragment | PermitFullContent.

Definition permits (self : ProviderContentPermission) (state : MaterializationState) : bool :=
  match self, state with
  | _, ReferenceOnly => true
  | (PermitMetadata | PermitFragment | PermitFullContent), MetadataState => true
  | (PermitFragment | PermitFullContent), Fragment => true
  | PermitFullContent, FullContent => true
  | _, Probed => false
  | _, _ => false
  end.

(** ** binding.rs *)

Inductive BindingMode : Type :=
| SnapshotPinned | RemoteVersionPinned | SessionSnapshot | LiveReference.
#[global] Instance BindingMode_eq_dec : EqDecision BindingMode.
Proof. solve_decision. Defined.

Inductive RevalidationMarker : Type := RevalidationRequired | RevalidationNotRequired.
#[global] Instance RevalidationMarker_eq_dec : EqDecision RevalidationMarker.
Proof. solve_decision. Defined.

Record RepresentationBinding : Type := {
  rb_binding_id : BindingId;
  rb_logical_resource_ref : LogicalResourceId;
  rb_representation_ref : RepresentationId;
  rb_resource_version_ref : option ResourceVersionId;
  rb_source_ref : SourceId;
  rb_provider_ref : option string;
  rb_schema_digest : option string;
  rb_content_digest : option string;
  rb_binding_mode : BindingMode;
  rb_revalidation_marker : RevalidationMarker;
  rb_bound_at : Instant
}.
#[global] Instance RepresentationBinding_eq_dec : EqDecision RepresentationBinding.
Proof. solve_decision. Defined.

Definition RepresentationBinding_new (binding_id : BindingId)
    (logical_resource_ref : LogicalResourceId) (representation_ref : RepresentationId)
    (source_ref : SourceId) (binding_mode : BindingMode) (bound_at : Instant)
    : RepresentationBinding := {|
  rb_binding_id := binding_id; rb_logical_resource_ref := logical_resource_ref;
  rb_representation_ref := representation_ref; rb_resource_version_ref := None;
  rb_source_ref := source_ref; rb_provider_ref := None; rb_schema_digest := None;
  rb_content_digest := None; rb_binding_mode := binding_mode;
  rb_revalidation_marker :=
    if binding_mode == LiveReference then RevalidationRequired else RevalidationNotRequired;
  rb_bound_at := bound_at
|}.

Definition binding_validate (b : RepresentationBinding) : Result unit string :=
  if (rb_binding_mode b == LiveReference) && (rb_revalidation_marker b != RevalidationRequired)
  then Err "live reference requires current revalidation"
  else if (rb_binding_mode b == RemoteVersionPinned) && is_none (rb_resource_version_ref b)
  then Err "remote version binding requires version identity"
  else if (rb_binding_mode b == SnapshotPinned) && is_none (rb_resource_version_ref b)
          && is_none (rb_content_digest b)
  then Err "snapshot binding requires version or content digest"
  else Ok tt.

(** [SessionBindingSet]: a [BTreeMap<BindingId, RepresentationBinding>]. *)
Definition SessionBindingSet : Type := list (BindingId * RepresentationBinding).

Definition bind_if_absent (self : SessionBindingSet) (binding : RepresentationBinding)
    : SessionBindingSet * Result RepresentationBinding string :=
  match binding_validate binding with
  | Err e => (self, Err e)
  | Ok _ =>
      match bt_get (rb_binding_id binding) self with
      | Some existing =>
          if existing != binding
          then (self, Err "BindingId collision with different representation binding")
          else (self, Ok existing)
      | None => (bt_insert (rb_binding_id binding) binding self, Ok binding)
      end
  end.

Definition binding_get (self : SessionBindingSet) (binding_id : BindingId)
    : option RepresentationBinding := bt_get binding_id self.
