(* ===== verification/SearchResolutionTheorems.v ===== *)
(** * SearchResolutionTheorems: what a settled claim, a qualified candidate and a binding mean

    Each decision of SearchResolution and SearchEvidence is characterised by the conditions
    its loop accumulates: sufficiency of evidence, applicability of a candidate, authority of
    an assertion; session bindings never change once made. *)
From stdpp Require Import base gmap sets list strings.
From Stdlib Require Import ZArith Lia.
From S2P Require Import Prelude Text Ordered SearchValues SearchResolution SearchEvidence.

Local Open Scope Z_scope.

(** ** Sufficiency of evidence *)

(** Neighbouring values agree. *)
Fixpoint chained (vs : list TypedValue) : Prop :=
  match vs with
  | a :: ((b :: _) as rest) => semantically_equal a b = true /\ chained rest
  | _ => True
  end.

Lemma values_agree_chained o vs :
  values_agree o vs = true <-> chained (opt_to_list o ++ filter_map (fun v => v) vs).
Proof.
  revert o. induction vs as [|[v|] vs IH]; intros o; cbn [values_agree filter_map].
  - by destruct o.
  - destruct o as [w|]; cbn [is_some_and opt_to_list app].
    + unfold claim_values_semantically_equal. cbn [chained].
      destruct (semantically_equal w v); cbn; rewrite ?IH; cbn; naive_solver.
    + rewrite IH. done.
  - apply IH.
Qed.

(** The origins that count towards independence. *)
Definition supporting_origins (evidence : list EvidenceReference) : list string :=
  map (fun e => trimmed (er_upstream_origin e))
    (List.filter
       (fun e => match er_role e with RolePrimary | RoleCorroborating => verified e | _ => false end)
       evidence).

(** A [BTreeSet] built by insertion has one entry per distinct element. *)
Lemma bt_set_size {K} `{OrdLaws K} `{Countable K} (ks : list K) :
  len (fold_left (fun s k => bt_insert k tt s) ks []) = Z.of_nat (size (list_to_set ks : gset K)).
Proof.
  assert (forall (s : list (K * unit)), bt_wf s ->
    let s' := fold_left (fun s k => bt_insert k tt s) ks s in
    bt_wf s' /\ forall k, k ∈ map fst s' <-> k ∈ map fst s \/ k ∈ ks) as Hs.
  { induction ks as [|k ks IH]; intros s Hw; cbn [fold_left]; [split; [done|set_solver]|].
    destruct (IH (bt_insert k tt s)) as [Hw' Hk]; [by apply bt_wf_alter|].
    split; [done|]. intros j. rewrite Hk, bt_insert_keys by done. set_solver. }
  destruct (Hs [] bt_wf_nil) as [Hw Hk].
  set (s := fold_left _ ks []) in *. unfold len. f_equal.
  rewrite <- (length_map fst). rewrite <- (size_list_to_set (C := gset K)) by (by apply bt_wf_NoDup).
  f_equal. apply set_eq. intros k. rewrite !elem_of_list_to_set, Hk. set_solver.
Qed.

Lemma independent_origins_size evidence :
  len (independent_origins evidence) =
  Z.of_nat (size (list_to_set (supporting_origins evidence) : gset string)).
Proof.
  rewrite <- bt_set_size. unfold independent_origins, supporting_origins.
  generalize (@nil (string * unit)).
  induction (List.filter _ evidence) as [|e l IH]; intros s; [done|]. apply IH.
Qed.

(** What it takes for one required claim to be settled: it was claimed, every claim of it is
    supported, neighbouring values agree, nothing contradicts it, and verified direct evidence
    supports it from enough independent origins, one of them primary. *)
Definition claim_settled (requirement : EvidenceRequirement) (claims : list Claim)
    (claim_id : ClaimId) : Prop :=
  let matching := List.filter (fun c => cl_claim_id c == claim_id) claims in
  let evidence := flat_map cl_evidence_refs matching in
  matching <> [] /\
  (forall c, c ∈ matching -> cl_state c = ClaimSupported) /\
  chained (filter_map cl_value matching) /\
  (forall e, e ∈ evidence -> er_role e <> RoleContradicting) /\
  (exists e, e ∈ evidence /\ er_role e = RolePrimary /\ verified e = true) /\
  rq_minimum_independent_sources requirement <=
    Z.of_nat (size (list_to_set (supporting_origins evidence) : gset string)).

Lemma filter_all {A} (p : A -> bool) l : (forall x, x ∈ l -> p x = true) -> List.filter p l = l.
Proof.
  induction l as [|x l IH]; cbn; [done|]. intros Hp. rewrite (Hp x) by set_solver.
  f_equal. apply IH. set_solver.
Qed.

Lemma any_state_false (l : list Claim) st :
  existsb (fun c => cl_state c == st) l = false <-> forall c, c ∈ l -> cl_state c <> st.
Proof.
  rewrite existsb_false. split; intros H c Hc; specialize (H c Hc).
  - by apply bool_decide_eq_false in H.
  - by apply bool_decide_eq_false.
Qed.

Lemma any_state_supported (l : list Claim) :
  l <> [] -> (forall c, c ∈ l -> cl_state c = ClaimSupported) ->
  existsb (fun c => cl_state c == ClaimSupported) l = true.
Proof.
  intros Hne Ha. destruct l as [|c l]; [done|]. apply existsb_true. exists c.
  split; [set_solver|]. apply bool_decide_eq_true, Ha. set_solver.
Qed.

Lemma contradicting_false (l : list EvidenceReference) :
  existsb (fun e => er_role e == RoleContradicting) l = false <->
  forall e, e ∈ l -> er_role e <> RoleContradicting.
Proof.
  rewrite existsb_false. split; intros H e He; specialize (H e He).
  - by apply bool_decide_eq_false in H.
  - by apply bool_decide_eq_false.
Qed.

Lemma filter_map_map {A B C} (f : A -> B) (g : B -> option C) l :
  filter_map g (map f l) = filter_map (fun x => g (f x)) l.
Proof. induction l as [|x l IH]; cbn; [done|]. destruct (g (f x)); by rewrite IH. Qed.

(** A pass of the loop that leaves both flags clear settles its claim. *)
Lemma check_claim_settles requirement claims i u claim_id :
  check_claim requirement claims (i, u) claim_id = Ok (false, false) ->
  i = false /\ u = false /\ claim_settled requirement claims claim_id.
Proof.
  unfold check_claim, claim_settled.
  set (matching := List.filter _ claims). set (evidence := flat_map _ matching).
  destruct (is_empty matching) eqn:Em; [done|].
  destruct (existsb _ matching) eqn:Ei; [done|].
  destruct (existsb (fun c => cl_state c == ClaimConflicted) matching) eqn:Ec; [done|].
  destruct (existsb (fun c => cl_state c == ClaimSupported) matching) eqn:Es,
    (existsb (fun c => cl_state c == ClaimAbsent) matching) eqn:Ea; cbn [andb negb orb];
    try done; destruct (values_agree _ _) eqn:Ev; try done; cbn [negb];
    (destruct (existsb (fun e => (er_role e == RoleContradicting) && verified e) evidence) eqn:E1;
       [done|]); try done.
  destruct (existsb (fun c => cl_state c == ClaimUnknown) matching) eqn:Eu; [done|].
  destruct (existsb (fun e => (er_role e == RolePrimary) && verified e) evidence) eqn:Ep;
    cbn [negb orb]; [|done].
  destruct (Z.ltb_spec (len (independent_origins evidence))
    (rq_minimum_independent_sources requirement)) as [|Hmin]; [done|].
  destruct (existsb (fun e => er_role e == RoleContradicting) evidence) eqn:E2; [done|].
  intros [= -> ->]. rewrite any_state_false in Ei, Ec, Ea, Eu. rewrite contradicting_false in E2.
  assert (forall c, c ∈ matching -> cl_state c = ClaimSupported) as Hall.
  { intros c Hc. specialize (Ei c Hc). specialize (Ec c Hc). specialize (Ea c Hc).
    specialize (Eu c Hc). by destruct (cl_state c). }
  split_and!; try done.
  - by destruct matching.
  - rewrite values_agree_chained, filter_map_map in Ev. cbn in Ev.
    rewrite filter_all in Ev; [done|]. intros c Hc. by apply bool_decide_eq_true, Hall.
  - apply existsb_true in Ep as (e & He & Hp). exists e. simp_bool. done.
  - by rewrite <- independent_origins_size.
Qed.

Lemma settled_check_claim requirement claims claim_id :
  claim_settled requirement claims claim_id ->
  check_claim requirement claims (false, false) claim_id = Ok (false, false).
Proof.
  unfold check_claim, claim_settled.
  set (matching := List.filter _ claims). set (evidence := flat_map _ matching).
  intros (Hne & Hall & Hv & Hc & (e & He & Hp & Hver) & Hmin).
  assert (forall st, st <> ClaimSupported -> existsb (fun c => cl_state c == st) matching = false)
    as Hst.
  { intros st Hst. apply any_state_false. intros c Hin. by rewrite (Hall c Hin). }
  destruct (is_empty matching) eqn:Em; [by destruct matching|].
  rewrite (Hst ClaimInvalid), (Hst ClaimConflicted), (Hst ClaimAbsent), (Hst ClaimUnknown),
    any_state_supported by done. cbn [andb negb orb].
  assert (existsb (fun e => er_role e == RoleContradicting) evidence = false) as E2
    by (by apply contradicting_false).
  assert (existsb (fun e => (er_role e == RoleContradicting) && verified e) evidence = false) as E1.
  { apply existsb_false. intros x Hx. apply andb_false_iff. left.
    apply bool_decide_eq_false, Hc, Hx. }
  assert (existsb (fun e => (er_role e == RolePrimary) && verified e) evidence = true) as Ep.
  { apply existsb_true. exists e. split; [done|]. rewrite Hver, bool_decide_eq_true_2; done. }
  rewrite E1, E2, Ep. rewrite filter_all by (intros c Hin; by apply bool_decide_eq_true, Hall).
  assert (values_agree None (map cl_value matching) = true) as ->.
  { rewrite values_agree_chained, filter_map_map. done. }
  cbn [negb orb]. rewrite independent_origins_size.
  destruct (Z.ltb_spec (Z.of_nat (size (list_to_set (supporting_origins evidence) : gset string)))
    (rq_minimum_independent_sources requirement)); [lia|done].
Qed.

Lemma check_claim_err requirement claims s claim_id v :
  check_claim requirement claims s claim_id = Err v -> v <> Sufficient.
Proof.
  unfold check_claim. destruct s. intros H.
  repeat (case_match; simplify_eq; try done).
Qed.

Lemma check_all_settled requirement claims ids i u :
  for_each (check_claim requirement claims) (i, u) ids = Ok (false, false) <->
  i = false /\ u = false /\ Forall (claim_settled requirement claims) ids.
Proof.
  revert i u. induction ids as [|id ids IH]; intros i u; cbn [for_each].
  - split; [by intros [= -> ->]|]. by intros (-> & -> & _).
  - rewrite rbind_Ok, Forall_cons. split.
    + intros ([i' u'] & Hc & Hrest). apply IH in Hrest as (-> & -> & Hs).
      by apply check_claim_settles in Hc as (-> & -> & Hc).
    + intros (-> & -> & Hc & Hs). exists (false, false). split; [by apply settled_check_claim|].
      by apply IH.
Qed.

Lemma check_all_err requirement claims ids s v :
  for_each (check_claim requirement claims) s ids = Err v -> v <> Sufficient.
Proof.
  revert s. induction ids as [|id ids IH]; intros s; cbn; [done|].
  destruct (check_claim requirement claims s id) as [s'|e] eqn:E; cbn; [apply IH|].
  intros [= ->]. by eapply check_claim_err.
Qed.

(** C24: The evidence for an answer is called sufficient exactly when no authority or freshness
    requirement is left open and every required claim is settled: it was claimed, every claim of
    it is supported, the values agree, nothing contradicts it, and verified evidence supports it
    from enough distinct origins, one of them primary. *)
Theorem sufficiency_exact requirement claims :
  evaluate_evidence_sufficiency requirement claims = Sufficient <->
  rq_authority_requirements requirement = [] /\ rq_freshness_requirements requirement = [] /\
  Forall (claim_settled requirement claims) (rq_required_claims requirement).
Proof.
  unfold evaluate_evidence_sufficiency.
  pose proof (check_all_settled requirement claims (rq_required_claims requirement) false false) as Hs.
  destruct (for_each _ _ _) as [[i u]|v] eqn:E.
  - destruct (rq_authority_requirements requirement), (rq_freshness_requirements requirement), i, u;
      cbn in *; naive_solver.
  - apply check_all_err in E. naive_solver.
Qed.

(** ** Applicability *)

(** The facts an expression reads. *)
Fixpoint expr_keys (e : PredicateExpr) : list string :=
  match e with
  | PAnd cs | POr cs => flat_map expr_keys cs
  | PNot c => expr_keys c
  | PExists key | PMissing key => [key]
  | PEq l r | PNe l r | PLt l r | PLte l r | PGt l r | PGte l r | PIn l r
  | PContains l r | PIntersects l r | PSubset l r | PSameConcept l r | PIsA l r
  | PDescendantOf l r => operand_key l ++ operand_key r
  end.

Definition pending_size (es : list PredicateExpr) : nat :=
  fold_right (fun c n => (expr_size c + n)%nat) 0%nat es.

Lemma pending_size_app l k : pending_size (l ++ k) = (pending_size l + pending_size k)%nat.
Proof. unfold pending_size. induction l; cbn in *; lia. Qed.

Lemma find_app {A} (p : A -> bool) l k :
  find p (l ++ k) = match find p l with Some x => Some x | None => find p k end.
Proof. induction l as [|x l IH]; cbn; [done|]. by destruct (p x). Qed.

(** The worklist visits the expression in order and finds the first weak fact it reads. *)
Lemma insufficient_loop_find fuel pending facts minimum :
  (pending_size pending < fuel)%nat ->
  insufficient_loop fuel pending facts minimum =
  find (insufficient_key facts minimum) (flat_map expr_keys pending).
Proof.
  revert pending. induction fuel as [|fuel IH]; intros [|e rest] Hf; try (cbn in *; lia); [done|].
  cbn [pending_size fold_right] in Hf. change (fold_right _ _ rest) with (pending_size rest) in Hf.
  cbn [insufficient_loop flat_map]. rewrite find_app.
  destruct e; cbn [expr_keys expr_size] in *;
    try (rewrite IH by lia; done);
    try (cbn [find]; destruct (insufficient_key facts minimum key); [done|]; rewrite IH by lia; done).
  1,2: rewrite IH by (rewrite pending_size_app; unfold pending_size at 1; lia);
    rewrite flat_map_app, find_app; done.
  rewrite IH by (cbn [pending_size fold_right]; change (fold_right _ _ rest) with (pending_size rest); lia).
  cbn [flat_map]. by rewrite find_app.
Qed.

(** Every fact among [keys] is acceptable evidence. *)
Definition acceptable (facts : FactSet) (minimum : MinimumFactEvidence) (keys : list string)
    : Prop :=
  forall k f, k ∈ keys -> FactSet_get facts k = Some f -> accepts minimum (fact_origin f) = true.

Lemma find_insufficient_None facts minimum keys :
  find (insufficient_key facts minimum) keys = None <-> acceptable facts minimum keys.
Proof.
  rewrite find_None_iff. unfold acceptable, insufficient_key. split.
  - intros H k f Hk Hf. specialize (H k Hk). rewrite Hf in H. cbn in H.
    by apply negb_false_iff in H.
  - intros H k Hk. destruct (FactSet_get facts k) as [f|] eqn:E; [|done]. cbn.
    apply negb_false_iff. by eapply H.
Qed.

Lemma acceptable_any facts keys : acceptable facts AnyEvidence keys.
Proof. by intros k f. Qed.

Lemma insufficient_predicate_fact_None e facts minimum :
  insufficient_predicate_fact e facts minimum = None <-> acceptable facts minimum (expr_keys e).
Proof.
  unfold insufficient_predicate_fact. case_bool_decide as Hm.
  - subst. split; [intros _; apply acceptable_any|done].
  - rewrite insufficient_loop_find by (cbn; lia). cbn. rewrite app_nil_r.
    apply find_insufficient_None.
Qed.

Section Gates.
Context {C : ConceptResolver}.

Lemma insufficient_fact_None facts rule :
  insufficient_fact facts rule = None <->
  acceptable facts (dc_minimum_fact_evidence rule) (dc_facet rule :: expr_keys (dc_predicate rule)).
Proof.
  rewrite <- find_insufficient_None. unfold insufficient_fact. cbn [find].
  destruct (insufficient_key _ _ _); [done|].
  by rewrite find_insufficient_None, insufficient_predicate_fact_None.
Qed.

(** A rule holds when its predicate does, on acceptable facts only. *)
Definition rule_holds (facts : FactSet) (rule : Discriminator) : Prop :=
  evaluate (dc_predicate rule) facts = TTrue /\
  acceptable facts (dc_minimum_fact_evidence rule) (dc_facet rule :: expr_keys (dc_predicate rule)).

Lemma rule_value_true facts rule : rule_value facts rule = TTrue <-> rule_holds facts rule.
Proof.
  unfold rule_value, rule_holds. rewrite <- insufficient_fact_None.
  destruct (insufficient_fact facts rule) as [k|]; cbn [is_some andb].
  - split; [|by intros [_ [=]]]. case_bool_decide as He; cbn; [|done]. by rewrite He.
  - naive_solver.
Qed.

Lemma rule_value_error facts rule :
  rule_value facts rule = TError <-> evaluate (dc_predicate rule) facts = TError.
Proof.
  unfold rule_value. destruct (is_some _); cbn; [|done].
  case_bool_decide as He; cbn; [by rewrite He|naive_solver].
Qed.

(** The three flags of the loop and the gaps it records. *)
Definition errs (facts : FactSet) (r : Discriminator) : bool := rule_value facts r == TError.
Definition hard_with (facts : FactSet) (v : TruthValue) (r : Discriminator) : bool :=
  (dc_importance r == Hard) && (rule_value facts r == v).

Lemma gate_flags facts rules s :
  let s' := fold_left (gate_rule facts) rules s in
  gs_invalid s' = gs_invalid s || existsb (errs facts) rules /\
  gs_hard_false s' = gs_hard_false s || existsb (hard_with facts TFalse) rules /\
  gs_hard_unknown s' = gs_hard_unknown s || existsb (hard_with facts TUnknown) rules /\
  map ig_blocking (ae_gaps (gs_result s')) =
    map ig_blocking (ae_gaps (gs_result s))
    ++ map (fun _ => true) (List.filter (hard_with facts TUnknown) rules).
Proof.
  revert s. induction rules as [|r rules IH]; intros s; cbn [fold_left existsb List.filter].
  { cbn. by rewrite !orb_false_r, app_nil_r. }
  destruct (IH (gate_rule facts s r)) as (-> & -> & -> & ->). clear IH.
  assert (forall v, hard_with facts v r =
    match dc_importance r with Hard => rule_value facts r == v | Soft => false end) as Hh
    by (intros v; unfold hard_with; by destruct (dc_importance r)).
  rewrite !Hh. unfold errs, gate_rule. clear Hh.
  destruct (dc_importance r), (rule_value facts r); cbn;
    rewrite ?orb_true_r, ?orb_false_r, ?map_app, <- ?app_assoc; done.
Qed.

(** The four outcomes, by the rules' values. *)
Lemma applicability_state candidate facts rules :
  ae_state (evaluate_applicability candidate facts rules) =
  if existsb (errs facts) rules then Invalid
  else if existsb (hard_with facts TFalse) rules then Excluded
  else if existsb (hard_with facts TUnknown) rules then Unresolved
  else Applicable.
Proof.
  unfold evaluate_applicability. cbn. by destruct (gate_flags facts rules gate_init) as (-> & -> & -> & _).
Qed.

Lemma applicable_iff candidate facts rules :
  ae_state (evaluate_applicability candidate facts rules) = Applicable <->
  Forall (fun r => evaluate (dc_predicate r) facts <> TError /\
                   (dc_importance r = Hard -> rule_holds facts r)) rules.
Proof.
  rewrite applicability_state, Forall_forall.
  destruct (existsb (errs facts) rules) eqn:Ee.
  { split; [done|]. apply existsb_true in Ee as (r & Hr & He). apply bool_decide_eq_true in He.
    intros H. destruct (H r Hr) as [Hn _]. by apply rule_value_error in He. }
  rewrite existsb_false in Ee.
  assert (forall v r, hard_with facts v r = true -> dc_importance r = Hard /\ rule_value facts r = v)
    as Hw by (intros v r Hh; unfold hard_with in Hh; simp_bool; done).
  destruct (existsb (hard_with facts TFalse) rules) eqn:Ef;
    [|destruct (existsb (hard_with facts TUnknown) rules) eqn:Eu].
  1,2: split; [done|]; intros H;
    (apply existsb_true in Ef as (r & Hr & Hh) || apply existsb_true in Eu as (r & Hr & Hh));
    apply Hw in Hh as [Hi Hv]; destruct (H r Hr) as [_ Hd];
    specialize (Hd Hi); rewrite <- rule_value_true in Hd; congruence.
  split; [intros _ r Hr|done]. rewrite existsb_false in Ef, Eu.
  specialize (Ee r Hr). specialize (Ef r Hr). specialize (Eu r Hr).
  unfold errs, hard_with in *. apply bool_decide_eq_false in Ee. split.
  - by rewrite <- rule_value_error.
  - intros Hi. rewrite Hi in *. cbn in *. simp_bool. apply rule_value_true.
    by destruct (rule_value facts r).
Qed.

(** C30: A candidate is qualified exactly when it names a resource, no rule fails to evaluate, and
    every hard rule holds on facts of acceptable evidence only; soft rules never block it. *)
Theorem qualification_exact candidate facts rules :
  (exists q, qualify (evaluate_applicability candidate facts rules) candidate = Some q) <->
  (exists id, fc_resource_ref candidate = Some id) /\
  Forall (fun r => evaluate (dc_predicate r) facts <> TError /\
                   (dc_importance r = Hard -> rule_holds facts r)) rules.
Proof.
  rewrite <- (applicable_iff candidate). unfold qualify. case_bool_decide as Hs; cbn.
  - destruct (fc_resource_ref candidate) as [id|]; naive_solver.
  - naive_solver.
Qed.

(** An unsettled candidate reports a blocking gap; it is never rejected silently. *)
Lemma unresolved_has_gap candidate facts rules :
  ae_state (evaluate_applicability candidate facts rules) = Unresolved ->
  exists g, g ∈ ae_gaps (evaluate_applicability candidate facts rules) /\ ig_blocking g = true.
Proof.
  rewrite applicability_state. intros Hs.
  destruct (existsb (errs facts) rules); [done|].
  destruct (existsb (hard_with facts TFalse) rules); [done|].
  destruct (existsb (hard_with facts TUnknown) rules) eqn:Eu; [|done].
  apply existsb_true in Eu as (r & Hr & Hh).
  destruct (gate_flags facts rules gate_init) as (_ & _ & _ & Hg). cbn in Hg.
  assert (true ∈ map ig_blocking (ae_gaps (gs_result (fold_left (gate_rule facts) rules gate_init))))
    as Hin.
  { rewrite Hg. apply list_elem_of_fmap. exists r. split; [done|]. by apply elem_of_filter_bool. }
  apply list_elem_of_fmap in Hin as (g & Hb & Hin). exists g. done.
Qed.
End Gates.

(** ** Authority *)

Section Authority.
Context (assertions : list Assertion) (policy : AuthorityPolicy)
  (subject_ref predicate authority_scope : string).

(** A ranked assertion about the subject, predicate and scope. *)
Definition ranked (a : Assertion) (r : Z) : Prop :=
  a ∈ assertions /\ as_subject_ref a = subject_ref /\ as_predicate a = predicate /\
  as_authority_scope a = authority_scope /\
  policy_rank policy authority_scope predicate (as_origin a) = Some r.

(** It competes unless it is an inference in the presence of a protected assertion. *)
Definition contender (a : Assertion) (r : Z) : Prop :=
  ranked a r /\
  (as_origin a = Inferred -> forall b s, ranked b s -> is_protected b = false).

(** A contender no other outranks. *)
Definition top (a : Assertion) (r : Z) : Prop :=
  contender a r /\ forall b s, contender b s -> s <= r.

Let scoped := scoped_assertions assertions policy subject_ref predicate authority_scope.

Lemma elem_of_scoped a r : (a, r) ∈ scoped <-> ranked a r.
Proof.
  unfold scoped, scoped_assertions, ranked. rewrite elem_of_filter_map. split.
  - intros (b & [Hb Hp]%elem_of_filter_bool & Hr). simp_bool.
    destruct (policy_rank _ _ _ _) eqn:E; [|done]. by injection Hr as -> ->.
  - intros (Ha & Hs & Hp & Hq & Hr). exists a. rewrite Hr. split; [|done].
    apply elem_of_filter_bool. split; [done|].
    by rewrite !andb_true_iff, !bool_decide_eq_true.
Qed.

Lemma elem_of_eligible a r : (a, r) ∈ eligible_assertions scoped <-> contender a r.
Proof.
  unfold eligible_assertions, contender. rewrite elem_of_filter_bool, elem_of_scoped.
  split; intros [Hr H]; (split; [done|]).
  - intros Hi b s Hb%elem_of_scoped. rewrite Hi in H.
    apply orb_true_iff in H as [Hn|Hn]; [|done]. apply negb_true_iff in Hn.
    rewrite existsb_false in Hn. apply (Hn (b, s) Hb).
  - case_bool_decide as Hi; [|by rewrite orb_true_r]. rewrite orb_false_r.
    apply negb_true_iff, existsb_false. intros [b s] Hb%elem_of_scoped. by eapply H.
Qed.

Lemma fold_max_spec rs m :
  fold_left Z.max rs m ∈ m :: rs /\ forall x, x ∈ m :: rs -> x <= fold_left Z.max rs m.
Proof.
  revert m. induction rs as [|r rs IH]; intros m; cbn [fold_left].
  - split; [set_solver|]. intros x. rewrite elem_of_cons, elem_of_nil. intros [->|[]]. lia.
  - destruct (IH (Z.max m r)) as [Hin Hmax]. split.
    + rewrite elem_of_cons in Hin. destruct Hin as [->|Hin]; [|set_solver].
      destruct (Z.max_spec m r) as [[_ ->]|[_ ->]]; set_solver.
    + intros x. specialize (Hmax (Z.max m r)) as H0. rewrite !elem_of_cons in *.
      intros [->|[->|Hx]]; [| |by apply Hmax; set_solver]; specialize (H0 (or_introl eq_refl)); lia.
Qed.

Lemma max_rank_top m :
  max_rank (map snd (eligible_assertions scoped)) = Some m ->
  (exists a, contender a m) /\ (forall b s, contender b s -> s <= m).
Proof.
  unfold max_rank. destruct (map snd _) as [|r rs] eqn:E; [done|]. intros [= <-].
  destruct (fold_max_spec rs r) as [Hin Hmax]. rewrite <- E in Hin, Hmax. split.
  - apply list_elem_of_fmap in Hin as ([a s] & Hs & Ha). cbn in Hs. rewrite Hs. exists a.
    by apply elem_of_eligible.
  - intros b s Hb%elem_of_eligible. apply Hmax, list_elem_of_fmap. by exists (b, s).
Qed.

(** The values collected: each a best assertion's, each best assertion's represented. *)
Lemma collect_values_spec best l acc :
  let vs := fold_left
    (fun values '(a, rank) =>
       if (rank =? best) && negb (existsb (fun existing => semantically_equal existing (as_value a)) values)
       then values ++ [as_value a] else values) l acc in
  (forall v, v ∈ vs -> v ∈ acc \/ exists a, (a, best) ∈ l /\ as_value a = v) /\
  (forall a, (a, best) ∈ l ->
     exists v, v ∈ vs /\ (v = as_value a \/ semantically_equal v (as_value a) = true)) /\
  (forall v, v ∈ acc -> v ∈ vs).
Proof.
  revert acc. induction l as [|[a r] l IH]; intros acc; cbn [fold_left];
    [split_and!; set_solver|].
  match goal with |- context [fold_left _ l ?x] => set (acc' := x) end. destruct (IH acc') as (H1 & H2 & H3). clear IH.
  assert (forall v, v ∈ acc' -> v ∈ acc \/ (r = best /\ as_value a = v)) as Ha.
  { unfold acc'. intros v. destruct (r =? best) eqn:E; cbn; [|auto].
    apply Z.eqb_eq in E. destruct (negb _); [|auto]. rewrite elem_of_app, elem_of_cons.
    intros [Hv|[->|Hv]]; [auto|auto|by apply elem_of_nil in Hv]. }
  assert (forall v, v ∈ acc -> v ∈ acc') as Hacc
    by (unfold acc'; intros v Hv; case_match; [apply elem_of_app; by left|done]).
  split_and!.
  - intros v Hv. destruct (H1 v Hv) as [[Hin|[-> Hin]]%Ha|(b & Hb & <-)].
    + by left.
    + right. exists a. split; [by left|done].
    + right. exists b. split; [by right|done].
  - intros b Hb. apply elem_of_cons in Hb as [[= -> <-]|Hb]; [|by apply H2].
    destruct (existsb (fun existing => semantically_equal existing (as_value a)) acc) eqn:E.
    + apply existsb_true in E as (v & Hv & Hs). exists v. split; [by apply H3, Hacc|by right].
    + exists (as_value a). split; [|by left]. apply H3. unfold acc'. rewrite Z.eqb_refl. cbn.
      try rewrite E. cbn. apply elem_of_app. right. by apply list_elem_of_singleton.
  - auto.
Qed.

(** Resolving authority is sound on every branch: unresolved means that no assertion contends; a
    resolved value is the value of an assertion of the best rank and every other one of that rank
    agrees with it; a conflict lists at least two values, all of the best rank, and covers every
    value asserted at that rank. *)
Theorem authority_resolution_sound :
  match resolve_assertions assertions policy subject_ref predicate authority_scope with
  | AuthorityUnresolved => forall a r, ~ contender a r
  | AuthorityResolved v =>
      exists a r, top a r /\ as_value a = v /\
        forall b, top b r -> v = as_value b \/ semantically_equal v (as_value b) = true
  | AuthorityConflicted c =>
      (2 <= length (ac_values c))%nat /\
      (forall v, v ∈ ac_values c -> exists a, top a (ac_rank c) /\ as_value a = v) /\
      forall b, top b (ac_rank c) -> exists v, v ∈ ac_values c /\
        (v = as_value b \/ semantically_equal v (as_value b) = true)
  end.
Proof.
  unfold resolve_assertions. fold scoped.
  destruct (max_rank (map snd (eligible_assertions scoped))) as [m|] eqn:Em.
  2:{ intros a r Hc%elem_of_eligible. destruct (eligible_assertions scoped); [|done].
      by apply elem_of_nil in Hc. }
  destruct (max_rank_top m Em) as [[a0 Ha0] Hmax].
  destruct (collect_values_spec m (eligible_assertions scoped) []) as (H1 & H2 & _).
  fold (collect_values m (eligible_assertions scoped)) in H1, H2.
  assert (forall a, (a, m) ∈ eligible_assertions scoped <-> top a m) as Htop.
  { intros a. rewrite elem_of_eligible. unfold top. naive_solver. }
  assert (forall v, v ∈ collect_values m (eligible_assertions scoped) ->
    exists a, top a m /\ as_value a = v) as H1'.
  { intros v Hv. destruct (H1 v Hv) as [Hn|(a & Ha%Htop & Hav)]; [by apply elem_of_nil in Hn|].
    by exists a. }
  assert (forall b, top b m -> exists v, v ∈ collect_values m (eligible_assertions scoped) /\
    (v = as_value b \/ semantically_equal v (as_value b) = true)) as H2'
    by (intros b Hb%Htop; by apply H2).
  destruct (collect_values m (eligible_assertions scoped)) as [|v [|w vs]].
  - destruct (H2' a0) as (v & Hv & _); [by split|]. by apply elem_of_nil in Hv.
  - destruct (H1' v) as (a & Ha & Hav); [by left|]. exists a, m. split_and!; [done..|].
    intros b Hb. destruct (H2' b Hb) as (x & Hx & He).
    by apply list_elem_of_singleton in Hx as ->.
  - cbn. split; [lia|done].
Qed.
End Authority.

(** ** Session bindings *)

(** Every binding is filed under its id and valid. *)
Definition bindings_wf (s : SessionBindingSet) : Prop :=
  bt_wf s /\ forall id b, binding_get s id = Some b -> rb_binding_id b = id /\ binding_validate b = Ok tt.

Lemma bind_if_absent_spec s b s' r :
  bindings_wf s -> bind_if_absent s b = (s', r) ->
  bindings_wf s' /\
  (forall id x, binding_get s id = Some x -> binding_get s' id = Some x) /\
  (forall x, r = Ok x -> x = b /\ binding_get s' (rb_binding_id b) = Some b) /\
  (is_err r = true -> s' = s).
Proof.
  intros [Hw Hb]. unfold bind_if_absent, binding_get.
  destruct (binding_validate b) as [[]|e] eqn:Ev; [|intros [= <- <-]; by split_and!].
  destruct (bt_get (rb_binding_id b) s) as [x|] eqn:Eg.
  - case_bool_decide as Hx; cbn; intros [= <- <-]; (split_and!; try done).
    intros y [= <-]. by subst.
  - intros [= <- <-]. split_and!.
    + split; [by apply bt_wf_alter|]. intros id y. unfold binding_get.
      rewrite bt_get_insert by done. case_decide as Hd; [|apply Hb]. intros [= <-]. by subst.
    + intros id y Hy. rewrite bt_get_insert by done. case_decide; [|done]. subst. congruence.
    + intros y [= <-]. split; [done|]. rewrite bt_get_insert by done. by rewrite decide_True.
    + done.
Qed.

(** A session: the bindings requested so far, in order. *)
Definition session (requests : list RepresentationBinding) (s : SessionBindingSet)
    : SessionBindingSet := fold_left (fun s b => fst (bind_if_absent s b)) requests s.

Lemma session_spec requests s :
  bindings_wf s ->
  bindings_wf (session requests s) /\
  forall id x, binding_get s id = Some x -> binding_get (session requests s) id = Some x.
Proof.
  revert s. induction requests as [|b requests IH]; intros s Hs; [done|].
  change (session (b :: requests) s) with (session requests (fst (bind_if_absent s b))).
  destruct (bind_if_absent s b) as [s1 r] eqn:E.
  destruct (bind_if_absent_spec _ _ _ _ Hs E) as (Hw & Hk & _ & _).
  destruct (IH s1 Hw) as [Hw' Hk']. split; [done|]. auto.
Qed.

(** A session binding is never replaced: what a successful request bound is what every later
    lookup of its identifier returns, whatever is requested in between. *)
Theorem bindings_never_replaced before request later b :
  let s := session before [] in
  snd (bind_if_absent s request) = Ok b ->
  b = request /\ binding_validate b = Ok tt /\
  binding_get (session later (fst (bind_if_absent s request))) (rb_binding_id request) = Some request.
Proof.
  intros s H. destruct (session_spec before []) as [Hs _]; [split; [constructor|done]|].
  fold s in Hs. destruct (bind_if_absent s request) as [s1 r] eqn:E. cbn in *.
  destruct (bind_if_absent_spec _ _ _ _ Hs E) as (Hw & _ & Hr & _).
  destruct (Hr b H) as [-> Hg]. split; [done|]. split.
  - by apply (proj2 Hw _ _ Hg).
  - by apply session_spec.
Qed.

(** ** Observations *)

Lemma latest_observation_in l o :
  latest_observation l = Some o -> o ∈ l /\ Forall (fun p => ro_observed_at p <= ro_observed_at o) l.
Proof.
  unfold latest_observation.
  assert (forall acc, fold_left
    (fun best o => match best with None => Some o
       | Some b => if ro_observed_at b <=? ro_observed_at o then Some o else Some b end) l acc = Some o ->
    (acc = Some o \/ o ∈ l) /\
    (forall p, acc = Some p -> ro_observed_at p <= ro_observed_at o) /\
    Forall (fun p => ro_observed_at p <= ro_observed_at o) l) as H.
  { induction l as [|p l IH]; intros acc; cbn [fold_left].
    - intros ->. split_and!; [by left| |constructor]. by intros p [= ->].
    - intros (Hin & Hacc & Hall)%IH. destruct acc as [b|].
      + destruct (Z.leb_spec (ro_observed_at b) (ro_observed_at p)) as [Hle|Hlt].
        * specialize (Hacc p eq_refl). split_and!; [|intros q [= <-]; lia|by constructor].
          right. destruct Hin as [[= ->]|?]; set_solver.
        * specialize (Hacc b eq_refl). split_and!; [|intros q [= <-]; lia|constructor; [lia|done]].
          destruct Hin as [?|?]; [by left|right; set_solver].
      + specialize (Hacc p eq_refl). split_and!; [|done|by constructor].
        right. destruct Hin as [[= ->]|?]; set_solver. }
  intros Hl. destruct (H None Hl) as ([[=]|Hin] & _ & Hall). done.
Qed.

(** A resource is only reported absent by its latest observation, made by a method that would
    have seen it. *)
Lemma absence_needs_coverage resource_ref observations :
  ef_presence (derive_effective_resource_state resource_ref observations) = Absent ->
  exists o, o ∈ observations /\ ro_resource_ref o = resource_ref /\ ro_presence o = Absent /\
    (ro_source_coverage o = CompleteEnumeration \/ ro_source_coverage o = DirectLookup) /\
    forall p, p ∈ observations -> ro_resource_ref p = resource_ref ->
      ro_observed_at p <= ro_observed_at o.
Proof.
  unfold derive_effective_resource_state.
  destruct (latest_observation _) as [o|] eqn:E; [|done].
  apply latest_observation_in in E as [[Hin Href]%elem_of_filter_bool Hall].
  apply bool_decide_eq_true in Href. cbn. intros Hp. exists o.
  split_and!; try done.
  - by destruct (ro_presence o), (ro_source_coverage o).
  - destruct (ro_presence o), (ro_source_coverage o); auto; done.
  - intros p Hin' Href'. rewrite Forall_forall in Hall. apply Hall, elem_of_filter_bool.
    by rewrite bool_decide_eq_true_2.
Qed.
