(* ===== verification/SearchGraph.v ===== *)
(** * SearchGraph: typed n-ary relations and their bounded traversal

    relation.rs, graph.rs, projection.rs and source.rs of search-core, and the in-memory graph
    of search-graph-memory: building an immutable generation of relations (index.rs) and
    traversing it under access control and budgets (traversal.rs).

    Access decisions come from the port [CurrentAccessEvaluatorPort], which may answer
    differently from call to call: [access_evaluate] takes the number of calls already made.
    An [expect] that fails is the outcome [Panicked]. *)
From stdpp Require Import base gmap sets list strings.
From Stdlib Require Import ZArith Lia.
From S2P Require Import Prelude Text Ordered SearchValues SearchResolution SearchEvidence.
Local Open Scope Z_scope.

(** ** source.rs *)

Inductive ResourceKind : Type :=
| KindKnowledge | KindDocument | KindFolderPlacement | KindSemantic | KindCapability
| KindAgentSkill | KindWorkflow | KindPolicy.
#[global] Instance ResourceKind_eq_dec : EqDecision ResourceKind.
Proof. solve_decision. Defined.

Inductive DiscoveryMode : Type :=
| LocalDirectory | LocalContentSearch | RemoteEnumeration | RemoteQuery | DirectAddress | LiveOnly.
#[global] Instance DiscoveryMode_eq_dec : EqDecision DiscoveryMode.
Proof. solve_decision. Defined.

Inductive EnumerationSemantics : Type := EnumComplete | EnumPartial | EnumQueryOnly | EnumNone.

Inductive RetentionMode : Type :=
| PersistentResource | PersistentDiscoveryMetadata | CacheWithExpiry | SessionOnly | NoRetention.
#[global] Instance RetentionMode_eq_dec : EqDecision RetentionMode.
Proof. solve_decision. Defined.

Record CostProfile : Type := {
  cp_expected_latency_ms : option Z;
  cp_cpu_ms : option Z;
  cp_peak_memory_bytes : option Z;
  cp_io_read_bytes : option Z;
  cp_io_write_bytes : option Z;
  cp_network_bytes : option Z;
  cp_llm_input_tokens : option Z;
  cp_llm_output_tokens : option Z;
  cp_remote_calls : option Z;
  cp_monetary_cost_minor_units : option Z;
  cp_monetary_cost_currency : option string
}.

Record DiscoverableSource : Type := {
  ds_source_id : SourceId;
  ds_source_type : string;
  ds_resource_types : list ResourceKind;
  ds_business_domains : list string;
  ds_concept_refs : list string;
  ds_discovery_modes : list DiscoveryMode;
  ds_discovery_capabilities : list string;
  ds_enumeration_semantics : EnumerationSemantics;
  ds_authority_scope : option string;
  ds_provenance : option string;
  ds_access_model : option string;
  ds_retention_mode : RetentionMode;
  ds_freshness_policy : option string;
  ds_latency_profile : option CostProfile;
  ds_cost_profile : option CostProfile;
  ds_availability_state : option string
}.

Definition DiscoverableSource_new (source_id : SourceId) (source_type : string)
    (enumeration_semantics : EnumerationSemantics) (retention_mode : RetentionMode)
    : DiscoverableSource := {|
  ds_source_id := source_id; ds_source_type := source_type; ds_resource_types := [];
  ds_business_domains := []; ds_concept_refs := []; ds_discovery_modes := [];
  ds_discovery_capabilities := []; ds_enumeration_semantics := enumeration_semantics;
  ds_authority_scope := None; ds_provenance := None; ds_access_model := None;
  ds_retention_mode := retention_mode; ds_freshness_policy := None;
  ds_latency_profile := None; ds_cost_profile := None; ds_availability_state := None
|}.

Definition supports (self : DiscoverableSource) (mode : DiscoveryMode) : bool :=
  contains (ds_discovery_modes self) mode.

(** ** relation.rs *)

Inductive RelationNamespace : Type := NsDiscovery | NsSemantic | NsEvidence.
#[global] Instance RelationNamespace_eq_dec : EqDecision RelationNamespace.
Proof. solve_decision. Defined.
Definition RelationNamespace_rank (n : RelationNamespace) : Z :=
  match n with NsDiscovery => 0 | NsSemantic => 1 | NsEvidence => 2 end.
#[global] Instance RelationNamespace_ord : Ord RelationNamespace :=
  fun a b => cmp (RelationNamespace_rank a) (RelationNamespace_rank b).
#[global] Instance RelationNamespace_ord_laws : OrdLaws RelationNamespace.
Proof. apply (OrdLaws_inj RelationNamespace_rank); [done|]. by intros [] []. Qed.

Record RelationParticipant : Type := { pt_role : string; pt_resource_ref : ResourceId }.
#[global] Instance RelationParticipant_eq_dec : EqDecision RelationParticipant.
Proof. solve_decision. Defined.
Definition participant_key (p : RelationParticipant) : string * ResourceId :=
  (pt_role p, pt_resource_ref p).
#[global] Instance RelationParticipant_ord : Ord RelationParticipant :=
  fun a b => cmp (participant_key a) (participant_key b).
#[global] Instance RelationParticipant_ord_laws : OrdLaws RelationParticipant.
Proof. apply (OrdLaws_inj participant_key); [done|]. by intros [] [] [= -> ->]. Qed.

Record TypedRelationInstance : Type := {
  ri_relation_id : RelationId;
  ri_namespace : RelationNamespace;
  ri_relation_type : string;
  ri_participants : list RelationParticipant;
  ri_qualifiers : list (string * TypedValue);
  ri_temporal_scope : RelationTemporalScope;
  ri_authority : option string;
  ri_provenance : option string;
  ri_evidence_refs : list string
}.
#[global] Instance TypedRelationInstance_eq_dec : EqDecision TypedRelationInstance.
Proof. solve_decision. Defined.

Definition TypedRelationInstance_new (relation_id : RelationId) (namespace : RelationNamespace)
    (relation_type : string) (participants : list RelationParticipant)
    : TypedRelationInstance := {|
  ri_relation_id := relation_id; ri_namespace := namespace; ri_relation_type := relation_type;
  ri_participants := participants; ri_qualifiers := [];
  ri_temporal_scope := {| rts_valid_from := None; rts_valid_to := None |};
  ri_authority := None; ri_provenance := None; ri_evidence_refs := []
|}.

Definition same_participants_as (self other : TypedRelationInstance) : bool :=
  sort (ri_participants self) == sort (ri_participants other).

Definition has_participant (self : TypedRelationInstance) (role : string)
    (resource_ref : option ResourceId) : bool :=
  existsb
    (fun p => (pt_role p == role)
              && is_none_or resource_ref (fun resource => pt_resource_ref p == resource))
    (ri_participants self).

Definition relation_validate (self : TypedRelationInstance) : Result unit string :=
  if (ri_relation_type self == EmptyString) || (len (ri_participants self) <? 2)
  then Err "relation requires a type and at least two participants"
  else if existsb (fun p => pt_role p == EmptyString) (ri_participants self)
  then Err "participant role must be nonempty"
  else
    match rts_valid_from (ri_temporal_scope self), rts_valid_to (ri_temporal_scope self) with
    | Some from, Some to =>
        if to <=? from then Err "relation temporal interval must be ordered" else Ok tt
    | _, _ => Ok tt
    end.

(** ** graph.rs *)

Record RelationPathPattern : Type := {
  pp_namespace : RelationNamespace;
  pp_relation_type : string;
  pp_from_role : string;
  pp_to_role : string;
  pp_from_resource : option ResourceId;
  pp_to_resource : option ResourceId;
  pp_required_participants : list RelationParticipant
}.

Definition RelationPathPattern_new (namespace : RelationNamespace)
    (relation_type from_role to_role : string) : RelationPathPattern := {|
  pp_namespace := namespace; pp_relation_type := relation_type; pp_from_role := from_role;
  pp_to_role := to_role; pp_from_resource := None; pp_to_resource := None;
  pp_required_participants := []
|}.

Definition matches_relation (self : RelationPathPattern) (relation : TypedRelationInstance)
    : bool :=
  (ri_namespace relation == pp_namespace self)
  && (ri_relation_type relation == pp_relation_type self)
  && has_participant relation (pp_from_role self) (pp_from_resource self)
  && has_participant relation (pp_to_role self) (pp_to_resource self)
  && forallb (fun p => has_participant relation (pt_role p) (Some (pt_resource_ref p)))
       (pp_required_participants self).

(** relation.rs [matching_relation_ids]. *)
Definition matching_relation_ids (relations : list TypedRelationInstance)
    (pattern : RelationPathPattern) : list RelationId :=
  map ri_relation_id (List.filter (matches_relation pattern) relations).

Record TraversalBudget : Type := {
  tb_max_hops : Z;
  tb_max_relations : Z;
  tb_max_branching_per_node : Z;
  tb_max_seed_nodes : Z;
  tb_max_paths : Z
}.

Record GraphTraversalPlan : Type := {
  gp_seed_nodes : list ResourceId;
  gp_path_patterns : list RelationPathPattern;
  gp_allowed_relation_types : list string;
  gp_allowed_namespaces : list RelationNamespace;
  gp_authority_requirement : option string;
  gp_temporal_context : option TemporalEvaluationContext;
  gp_access_context : string;
  gp_expansion_budget : TraversalBudget;
  gp_stop_conditions : list string
}.

Definition plan_validate (self : GraphTraversalPlan) : Result unit string :=
  let b := gp_expansion_budget self in
  if is_empty (gp_seed_nodes self) || is_empty (gp_path_patterns self)
     || is_empty (gp_allowed_relation_types self) || is_empty (gp_allowed_namespaces self)
  then Err "traversal requires seed and relation constraints"
  else if (gp_access_context self == EmptyString) || is_none (gp_temporal_context self)
  then Err "traversal requires access and temporal context"
  else if (tb_max_hops b =? 0) || (tb_max_relations b =? 0) || (tb_max_branching_per_node b =? 0)
          || (tb_max_seed_nodes b =? 0) || (tb_max_paths b =? 0)
  then Err "traversal requires finite positive budgets"
  else if tb_max_seed_nodes b <? len (gp_seed_nodes self)
  then Err "graph seed budget exceeded"
  else if negb (is_empty (gp_stop_conditions self))
  then Err "graph stop conditions are not supported"
  else Ok tt.

Definition plan_allows (self : GraphTraversalPlan) (relation : TypedRelationInstance) : bool :=
  if is_err (plan_validate self) || is_err (relation_validate relation) then false
  else
    contains (gp_allowed_namespaces self) (ri_namespace relation)
    && contains (gp_allowed_relation_types self) (ri_relation_type relation)
    && existsb (fun pattern => matches_relation pattern relation) (gp_path_patterns self)
    && is_none_or (gp_authority_requirement self)
         (fun required => ri_authority relation == Some required)
    && is_some_and (gp_temporal_context self)
         (fun context => scope_contains (ri_temporal_scope relation) (te_temporal_target context)).

Record GraphPathStepEvidence : Type := {
  st_relation_id : RelationId;
  st_namespace : RelationNamespace;
  st_relation_type : string;
  st_from_role : string;
  st_from_resource : ResourceId;
  st_to_role : string;
  st_to_resource : ResourceId;
  st_participants : list RelationParticipant;
  st_evidence_refs : list string;
  st_provenance : option string
}.
#[global] Instance GraphPathStepEvidence_eq_dec : EqDecision GraphPathStepEvidence.
Proof. solve_decision. Defined.
Definition step_key (s : GraphPathStepEvidence) :=
  (st_relation_id s, (st_namespace s, (st_relation_type s, (st_from_role s, (st_from_resource s,
    (st_to_role s, (st_to_resource s, (st_participants s, (st_evidence_refs s,
      st_provenance s))))))))).
#[global] Instance GraphPathStepEvidence_ord : Ord GraphPathStepEvidence :=
  fun a b => cmp (step_key a) (step_key b).
#[global] Instance GraphPathStepEvidence_ord_laws : OrdLaws GraphPathStepEvidence.
Proof. apply (OrdLaws_inj step_key); [done|]. intros [] []. cbn. by intros [=]; subst. Qed.

Record GraphPathEvidence : Type := {
  pe_resource_path : list ResourceId;
  pe_steps : list GraphPathStepEvidence
}.
#[global] Instance GraphPathEvidence_eq_dec : EqDecision GraphPathEvidence.
Proof. solve_decision. Defined.
Definition path_key (p : GraphPathEvidence) := (pe_resource_path p, pe_steps p).
#[global] Instance GraphPathEvidence_ord : Ord GraphPathEvidence :=
  fun a b => cmp (path_key a) (path_key b).
#[global] Instance GraphPathEvidence_ord_laws : OrdLaws GraphPathEvidence.
Proof. apply (OrdLaws_inj path_key); [done|]. by intros [] [] [= -> ->]. Qed.

(** ** projection.rs *)

Inductive FacetState (T : Type) : Type :=
| FacetKnown (value : T) | FacetUnknown | FacetNotApplicable | FacetConflict.
Arguments FacetKnown {T} value.
Arguments FacetUnknown {T}.
Arguments FacetNotApplicable {T}.
Arguments FacetConflict {T}.

Record ProjectionGenerationKey : Type := {
  gk_source_id : SourceId;
  gk_generation_id : ProjectionGenerationId
}.
#[global] Instance ProjectionGenerationKey_eq_dec : EqDecision ProjectionGenerationKey.
Proof. solve_decision. Defined.
Definition generation_key (k : ProjectionGenerationKey) := (gk_source_id k, gk_generation_id k).
#[global] Instance ProjectionGenerationKey_ord : Ord ProjectionGenerationKey :=
  fun a b => cmp (generation_key a) (generation_key b).
#[global] Instance ProjectionGenerationKey_ord_laws : OrdLaws ProjectionGenerationKey.
Proof. apply (OrdLaws_inj generation_key); [done|]. by intros [] [] [= -> ->]. Qed.

Record ProjectionGenerationManifest : Type := {
  pm_source_id : SourceId;
  pm_generation_id : ProjectionGenerationId;
  pm_projection_schema_version : string;
  pm_lens_version : Z;
  pm_semantic_registry_version : string;
  pm_analyzer_version : option string;
  pm_embedding_model_version : option string;
  pm_graph_schema_version : option string;
  pm_source_snapshot : string;
  pm_resource_count : Z;
  pm_relation_count : option Z;
  pm_coverage : Coverage;
  pm_digest : string;
  pm_built_at : Instant
}.
#[global] Instance ProjectionGenerationManifest_eq_dec : EqDecision ProjectionGenerationManifest.
Proof. solve_decision. Defined.

Definition manifest_key (self : ProjectionGenerationManifest) : ProjectionGenerationKey :=
  {| gk_source_id := pm_source_id self; gk_generation_id := pm_generation_id self |}.

Record DirectoryProjection : Type := {
  dp_resource_ref : ResourceId;
  dp_resource_version : option ResourceVersionId;
  dp_kind : ResourceKind;
  dp_canonical_name : string;
  dp_title : option string;
  dp_aliases : list string
}.

Record StructuredProjection : Type := {
  sp_resource_ref : ResourceId;
  sp_concept_refs : list string;
  sp_high_signal_facets : list (string * FacetState string);
  sp_typed_facets : list (string * FacetState TypedValue);
  sp_assertions : list Assertion;
  sp_authority_resolutions : list (string * AuthorityResolution)
}.

Record TemporalProjection : Type := {
  tp_resource_ref : ResourceId;
  tp_valid_from : option Instant;
  tp_valid_to : option Instant;
  tp_profile : TemporalDiscoveryProfile
}.

Record AccessProjection : Type := {
  ap_resource_ref : ResourceId;
  ap_access_scope : option string;
  ap_source_access_model : option string
}.

Record CompiledResourceProjection : Type := {
  rp_manifest : ProjectionGenerationManifest;
  rp_retention_mode : RetentionMode;
  rp_directory : DirectoryProjection;
  rp_structured : StructuredProjection;
  rp_temporal : TemporalProjection;
  rp_access : AccessProjection;
  rp_relations : list TypedRelationInstance
}.

(** ** Ports and externals *)

(** search-application error.rs and ports.rs. *)
Inductive SearchError : Type :=
| InvalidRequest (reason : string)
| SourceUnavailable (reason : string)
| OperationFailed (reason : string)
| FenceLost
| CompletionUnknown.

Inductive AccessDecision : Type := Allowed | Denied | AccessUnknown.
#[global] Instance AccessDecision_eq_dec : EqDecision AccessDecision.
Proof. solve_decision. Defined.

(** [CurrentAccessEvaluatorPort::evaluate] after a number of earlier calls. *)
Class AccessPort : Type :=
  access_evaluate : nat -> ResourceId -> string -> Result AccessDecision SearchError.

(** The [Display] of the uuid crate. *)
Class UuidText : Type := uuid_display : Uuid -> string.

Record GraphRetrievalHit : Type := {
  gh_candidate : FederatedCandidate;
  gh_paths : list GraphPathEvidence
}.

Record GraphRetrievalResult : Type := {
  gr_generation : ProjectionGenerationKey;
  gr_hits : list GraphRetrievalHit
}.

(** ** index.rs *)

Inductive GraphIndexError : Type :=
| SourceMismatch | UnsupportedSchemaVersion | PersistenceDenied | ProjectionMismatch
| ResourceCountMismatch | RelationCountMismatch | InvalidRelation | DuplicateGeneration
| LockPoisoned.
#[global] Instance GraphIndexError_eq_dec : EqDecision GraphIndexError.
Proof. solve_decision. Defined.

(** [ResourceMetadata] is its one field. *)
Record ResourceMetadata : Type := { rm_temporal : TemporalProjection }.

Record GenerationIndex : Type := {
  gi_resources : list (ResourceId * ResourceMetadata);
  gi_relations : list (RelationId * TypedRelationInstance);
  gi_incidence : list ((ResourceId * string) * list RelationId)
}.

Record MemoryGraphRetriever : Type := {
  mg_generations : list (ProjectionGenerationKey * GenerationIndex);
  mg_poisoned : bool
}.

Definition MemoryGraphRetriever_new : MemoryGraphRetriever :=
  {| mg_generations := []; mg_poisoned := false |}.

Definition persistent (mode : RetentionMode) : bool :=
  match mode with PersistentResource | PersistentDiscoveryMetadata => true | _ => false end.

(** The relation as it is stored: participants and evidence references in order. *)
Definition canonical_relation (r : TypedRelationInstance) : TypedRelationInstance := {|
  ri_relation_id := ri_relation_id r; ri_namespace := ri_namespace r;
  ri_relation_type := ri_relation_type r; ri_participants := sort (ri_participants r);
  ri_qualifiers := ri_qualifiers r; ri_temporal_scope := ri_temporal_scope r;
  ri_authority := ri_authority r; ri_provenance := ri_provenance r;
  ri_evidence_refs := dedup (sort (ri_evidence_refs r))
|}.

(** The loop over the relations of one projection: the ids seen in it, and the map. *)
Definition add_relation (id : ResourceId)
    (s : list (RelationId * unit) * list (RelationId * TypedRelationInstance))
    (relation : TypedRelationInstance)
    : Result (list (RelationId * unit) * list (RelationId * TypedRelationInstance)) GraphIndexError :=
  let '(local_ids, relations) := s in
  if is_err (relation_validate relation)
     || negb (existsb (fun p => pt_resource_ref p == id) (ri_participants relation))
     || bt_contains_key (ri_relation_id relation) local_ids
  then Err InvalidRelation
  else
    let local_ids := bt_insert (ri_relation_id relation) tt local_ids in
    let relation := canonical_relation relation in
    if any_adjacent_equal (ri_participants relation) then Err InvalidRelation
    else if is_some_and (bt_get (ri_relation_id relation) relations)
              (fun existing => existing != relation)
    then Err InvalidRelation
    else Ok (local_ids, bt_insert (ri_relation_id relation) relation relations).

Definition add_projection (manifest : ProjectionGenerationManifest)
    (s : list (ResourceId * ResourceMetadata) * list (RelationId * TypedRelationInstance))
    (projection : CompiledResourceProjection)
    : Result (list (ResourceId * ResourceMetadata) * list (RelationId * TypedRelationInstance))
        GraphIndexError :=
  let '(resources, relations) := s in
  let id := dp_resource_ref (rp_directory projection) in
  if (rp_manifest projection != manifest)
     || (sp_resource_ref (rp_structured projection) != id)
     || (tp_resource_ref (rp_temporal projection) != id)
     || (ap_resource_ref (rp_access projection) != id)
     || negb (persistent (rp_retention_mode projection))
  then Err ProjectionMismatch
  else if bt_contains_key id resources then Err ProjectionMismatch
  else
    let? s := for_each (add_relation id) ([], relations) (rp_relations projection) in
    Ok (bt_insert id {| rm_temporal := rp_temporal projection |} resources, snd s).

Definition build_incidence (relations : list (RelationId * TypedRelationInstance))
    : list ((ResourceId * string) * list RelationId) :=
  fold_left
    (fun incidence '(relation_id, relation) =>
       fold_left
         (fun incidence p => bt_push (pt_resource_ref p, pt_role p) relation_id incidence)
         (ri_participants relation) incidence) relations [].

Definition try_build_generation (self : MemoryGraphRetriever)
    (manifest : ProjectionGenerationManifest) (source : DiscoverableSource)
    (projections : list CompiledResourceProjection)
    : Result MemoryGraphRetriever GraphIndexError :=
  let key := manifest_key manifest in
  if ds_source_id source != gk_source_id key then Err SourceMismatch
  else if negb (persistent (ds_retention_mode source)) then Err PersistenceDenied
  else if pm_graph_schema_version manifest != Some "typed-nary-v1"%string
  then Err UnsupportedSchemaVersion
  else if len projections != pm_resource_count manifest then Err ResourceCountMismatch
  else if mg_poisoned self then Err LockPoisoned
  else if bt_contains_key key (mg_generations self) then Err DuplicateGeneration
  else
    let? ' (resources, relations) := for_each (add_projection manifest) ([], []) projections in
    if is_some_and (pm_relation_count manifest) (fun count => count != len relations)
    then Err RelationCountMismatch
    else
      let generation :=
        {| gi_resources := resources; gi_relations := relations;
           gi_incidence := build_incidence relations |} in
      match bt_get key (mg_generations self) with
      | None =>
          Ok {| mg_generations := bt_insert key generation (mg_generations self);
                mg_poisoned := mg_poisoned self |}
      | Some _ => Err DuplicateGeneration
      end.

Definition build_generation (self : MemoryGraphRetriever)
    (manifest : ProjectionGenerationManifest) (source : DiscoverableSource)
    (projections : list CompiledResourceProjection)
    : MemoryGraphRetriever * Result unit GraphIndexError :=
  match try_build_generation self manifest source projections with
  | Ok self' => (self', Ok tt)
  | Err e => (self, Err e)
  end.

Definition discard_generation (self : MemoryGraphRetriever) (key : ProjectionGenerationKey)
    : MemoryGraphRetriever * Result bool GraphIndexError :=
  if mg_poisoned self then (self, Err LockPoisoned)
  else
    ({| mg_generations := bt_remove key (mg_generations self); mg_poisoned := mg_poisoned self |},
     Ok (bt_contains_key key (mg_generations self))).

(** ** traversal.rs *)

(** How a traversal ends without a result. *)
Inductive Abort : Type :=
| Failed (error : SearchError)
| Panicked (message : string).

Definition invalid_request {A} (reason : string) : Result A Abort :=
  Err (Failed (InvalidRequest reason)).

Definition usize_max : Z := 2 ^ 64 - 1.

Definition checked_add_usize (a b : Z) : option Z :=
  if a + b <=? usize_max then Some (a + b) else None.

(** [count.is_none_or(|count| count > limit)]. *)
Definition exceeds (count : option Z) (limit : Z) : bool :=
  is_none_or count (fun count => limit <? count).

Record PartialPath : Type := {
  pa_current : ResourceId;
  pa_resource_path : list ResourceId;
  pa_steps : list GraphPathStepEvidence
}.

(** The decisions made so far in a traversal, and how often the port was called. *)
Record AccessState : Type := {
  ac_cache : list (ResourceId * bool);
  ac_calls : nat
}.

Definition temporally_valid (temporal : TemporalProjection) (target : Instant) : bool :=
  is_none_or (tp_valid_from temporal) (fun from => from <=? target)
  && is_none_or (tp_valid_to temporal) (fun to => target <? to)
  && is_none_or (td_effective_from (tp_profile temporal)) (fun from => from <=? target)
  && is_none_or (td_effective_to (tp_profile temporal)) (fun to => target <? to).

Definition decide_visible (s : AccessState) (id : ResourceId) (visible : bool) (calls : nat)
    : AccessState * bool :=
  ({| ac_cache := bt_insert id visible (ac_cache s); ac_calls := calls |}, visible).

Section Traversal.
Context {port : AccessPort} {U : UuidText}.

Definition visible (index : GenerationIndex) (id : ResourceId) (plan : GraphTraversalPlan)
    (s : AccessState) : Result (AccessState * bool) Abort :=
  match bt_get id (ac_cache s) with
  | Some v => Ok (s, v)
  | None =>
      match bt_get id (gi_resources index) with
      | None => Ok (decide_visible s id false (ac_calls s))
      | Some resource =>
          match gp_temporal_context plan with
          | None => Err (Panicked "validated traversal has temporal context")
          | Some context =>
              if negb (temporally_valid (rm_temporal resource) (te_temporal_target context))
              then Ok (decide_visible s id false (ac_calls s))
              else
                let v :=
                  match access_evaluate (ac_calls s) id (gp_access_context plan) with
                  | Ok Allowed => true
                  | _ => false
                  end in
                Ok (decide_visible s id v (S (ac_calls s)))
          end
      end
  end.

(** The loop over a relation's participants, left at the first one that is not visible. *)
Fixpoint all_visible (index : GenerationIndex) (plan : GraphTraversalPlan)
    (participants : list RelationParticipant) (s : AccessState)
    : Result (AccessState * bool) Abort :=
  match participants with
  | [] => Ok (s, true)
  | p :: participants =>
      let? ' (s, v) := visible index (pt_resource_ref p) plan s in
      if v then all_visible index plan participants s else Ok (s, false)
  end.

Definition seed_step (index : GenerationIndex) (plan : GraphTraversalPlan)
    (acc : AccessState * list PartialPath) (seed : ResourceId)
    : Result (AccessState * list PartialPath) Abort :=
  let '(s, frontier) := acc in
  let? ' (s, v) := visible index seed plan s in
  if v then
    if exceeds (checked_add_usize (len frontier) 1) (tb_max_paths (gp_expansion_budget plan))
    then invalid_request "graph path budget exceeded"
    else Ok (s, frontier ++ [{| pa_current := seed; pa_resource_path := [seed]; pa_steps := [] |}])
  else Ok (s, frontier).

Definition step_evidence (pattern : RelationPathPattern) (current : ResourceId)
    (relation_id : RelationId) (relation : TypedRelationInstance) (target : ResourceId)
    : GraphPathStepEvidence := {|
  st_relation_id := relation_id; st_namespace := ri_namespace relation;
  st_relation_type := ri_relation_type relation; st_from_role := pp_from_role pattern;
  st_from_resource := current; st_to_role := pp_to_role pattern; st_to_resource := target;
  st_participants := ri_participants relation; st_evidence_refs := ri_evidence_refs relation;
  st_provenance := ri_provenance relation
|}.

Definition extend_path (pattern : RelationPathPattern) (path : PartialPath)
    (relation_id : RelationId) (relation : TypedRelationInstance) (target : ResourceId)
    : PartialPath := {|
  pa_current := target;
  pa_resource_path := pa_resource_path path ++ [target];
  pa_steps := pa_steps path
    ++ [step_evidence pattern (pa_current path) relation_id relation target]
|}.

(** The participants a pattern may step to. *)
Definition targets (pattern : RelationPathPattern) (relation : TypedRelationInstance)
    : list RelationParticipant :=
  List.filter
    (fun p => (pt_role p == pp_to_role pattern)
              && is_none_or (pp_to_resource pattern) (fun id => id == pt_resource_ref p))
    (ri_participants relation).

Definition branch_step (plan : GraphTraversalPlan) (pattern : RelationPathPattern)
    (path : PartialPath) (next_len : Z) (relation_id : RelationId)
    (relation : TypedRelationInstance) (branches : list PartialPath) (p : RelationParticipant)
    : Result (list PartialPath) Abort :=
  match checked_add_usize (len branches) 1 with
  | None => invalid_request "graph path budget exceeded"
  | Some branch_count =>
      if tb_max_branching_per_node (gp_expansion_budget plan) <? branch_count
      then invalid_request "graph branching budget exceeded"
      else if exceeds (checked_add_usize next_len branch_count)
                (tb_max_paths (gp_expansion_budget plan))
      then invalid_request "graph path budget exceeded"
      else Ok (branches ++ [extend_path pattern path relation_id relation (pt_resource_ref p)])
  end.

(** Whether a relation is skipped before its participants' visibility is asked. *)
Definition skips (plan : GraphTraversalPlan) (pattern : RelationPathPattern)
    (current : ResourceId) (relation : TypedRelationInstance) : bool :=
  negb (plan_allows plan relation) || negb (matches_relation pattern relation)
  || is_some_and (pp_from_resource pattern) (fun id => id != current)
  || negb (has_participant relation (pp_from_role pattern) (Some current)).

Record ExpandState : Type := {
  ex_access : AccessState;
  ex_branches : list PartialPath;
  ex_relation_expansions : Z
}.

Definition relation_step (index : GenerationIndex) (plan : GraphTraversalPlan)
    (pattern : RelationPathPattern) (path : PartialPath) (next_len expanded_relations : Z)
    (s : ExpandState) (relation_id : RelationId) : Result ExpandState Abort :=
  match bt_get relation_id (gi_relations index) with
  | None => Err (Panicked "incidence relation exists")
  | Some relation =>
      if skips plan pattern (pa_current path) relation then Ok s
      else
        let? ' (access, shown) := all_visible index plan (ri_participants relation) (ex_access s) in
        if negb shown
        then Ok {| ex_access := access; ex_branches := ex_branches s;
                   ex_relation_expansions := ex_relation_expansions s |}
        else
          let? branches :=
            for_each (branch_step plan pattern path next_len relation_id relation)
              (ex_branches s) (targets pattern relation) in
          if len (ex_branches s) <? len branches then
            match checked_add_usize (ex_relation_expansions s) 1 with
            | None => invalid_request "graph relation budget exceeded"
            | Some relation_expansions =>
                if exceeds (checked_add_usize expanded_relations relation_expansions)
                     (tb_max_relations (gp_expansion_budget plan))
                then invalid_request "graph relation budget exceeded"
                else Ok {| ex_access := access; ex_branches := branches;
                           ex_relation_expansions := relation_expansions |}
            end
          else Ok {| ex_access := access; ex_branches := branches;
                     ex_relation_expansions := ex_relation_expansions s |}
  end.

Record LevelState : Type := {
  lv_access : AccessState;
  lv_paths : list PartialPath;
  lv_expanded : Z
}.

Definition path_step (index : GenerationIndex) (plan : GraphTraversalPlan)
    (pattern : RelationPathPattern) (s : LevelState) (path : PartialPath)
    : Result LevelState Abort :=
  let? e :=
    for_each
      (relation_step index plan pattern path (len (lv_paths s)) (lv_expanded s))
      {| ex_access := lv_access s; ex_branches := []; ex_relation_expansions := 0 |}
      (bt_values (pa_current path, pp_from_role pattern) (gi_incidence index)) in
  match checked_add_usize (lv_expanded s) (ex_relation_expansions e) with
  | None => invalid_request "graph budget exceeded"
  | Some expanded =>
      Ok {| lv_access := ex_access e; lv_paths := lv_paths s ++ ex_branches e;
            lv_expanded := expanded |}
  end.

Definition pattern_step (index : GenerationIndex) (plan : GraphTraversalPlan) (s : LevelState)
    (pattern : RelationPathPattern) : Result LevelState Abort :=
  for_each (path_step index plan pattern)
    {| lv_access := lv_access s; lv_paths := []; lv_expanded := lv_expanded s |} (lv_paths s).

Definition path_evidence (p : PartialPath) : GraphPathEvidence :=
  {| pe_resource_path := pa_resource_path p; pe_steps := pa_steps p |}.

Definition hit (generation : ProjectionGenerationKey)
    (entry : ResourceId * list GraphPathEvidence) : GraphRetrievalHit :=
  let '(id, paths) := entry in
  let source := uuid_display (gk_source_id generation) in
  let c :=
    FederatedCandidate_new (source ++ ":" ++ uuid_display id)%string DurableResource
      (gk_source_id generation) "hypergraph" in
  {| gh_candidate :=
       {| fc_candidate_id := fc_candidate_id c; fc_identity_class := fc_identity_class c;
          fc_resource_ref := Some id; fc_logical_resource_ref := fc_logical_resource_ref c;
          fc_source_ref := fc_source_ref c; fc_retrieval_method := fc_retrieval_method c;
          fc_locator := fc_locator c; fc_matched_signals := fc_matched_signals c;
          fc_materialization_state := fc_materialization_state c;
          fc_provenance := fc_provenance c;
          fc_retrieval_trace_ref :=
            Some (source ++ ":" ++ uuid_display (gk_generation_id generation))%string |};
     gh_paths := dedup (sort paths) |}.

(** [traverse] up to the grouping of the paths, with the decisions made on the way. *)
Definition explore (index : GenerationIndex) (plan : GraphTraversalPlan) (s : AccessState)
    : Result LevelState Abort :=
  let? ' (access, frontier) :=
    for_each (seed_step index plan) (s, []) (dedup (sort (gp_seed_nodes plan))) in
  for_each (pattern_step index plan)
    {| lv_access := access; lv_paths := frontier; lv_expanded := 0 |} (gp_path_patterns plan).

Definition traverse (generation : ProjectionGenerationKey) (index : GenerationIndex)
    (plan : GraphTraversalPlan) : Result GraphRetrievalResult Abort :=
  match plan_validate plan with
  | Err reason => invalid_request reason
  | Ok _ =>
      if tb_max_hops (gp_expansion_budget plan) <? len (gp_path_patterns plan)
      then invalid_request "graph path exceeds hop budget"
      else
        let? final := explore index plan {| ac_cache := []; ac_calls := 0 |} in
        Ok {| gr_generation := generation;
              gr_hits := map (hit generation)
                           (group_by pa_current path_evidence (lv_paths final)) |}
  end.

Definition retrieve (self : MemoryGraphRetriever) (generation : ProjectionGenerationKey)
    (plan : GraphTraversalPlan) : Result GraphRetrievalResult Abort :=
  if mg_poisoned self then Err (Failed (OperationFailed "graph index lock is poisoned"))
  else
    match bt_get generation (mg_generations self) with
    | None => invalid_request "unknown graph generation"
    | Some index => traverse generation index plan
    end.
End Traversal.
