(* ===== verification/SearchGraphTheorems.v ===== *)
(** * SearchGraphTheorems: a traversal returns exactly the paths the requester may see

    The traversal interleaves expansion, access decisions and budget checks.  A run that
    succeeds computes the reference [ref_paths] of its own access decisions, and those are the
    walks of [walk]: nothing that was denied is disclosed, and no visible path is dropped
    because of a budget. *)
From stdpp Require Import base gmap sets list strings sorting.
From Stdlib Require Import ZArith Lia.
From S2P Require Import Prelude Text Ordered SearchValues SearchResolution SearchEvidence.
From S2P Require Import SearchGraph.

Local Open Scope Z_scope.

(** ** Access decisions *)

Definition known (s : AccessState) (id : ResourceId) (v : bool) : Prop :=
  bt_get id (ac_cache s) = Some v.

(** Later states keep every decision. *)
Definition access_le (s s' : AccessState) : Prop := forall id v, known s id v -> known s' id v.

#[global] Instance access_le_preorder : PreOrder access_le.
Proof. split; unfold access_le; [by intros s id v|intros s t u H1 H2 id v H; auto]. Qed.

(** A view of the resources that agrees with the decisions of a state. *)
Definition agrees (V : ResourceId -> bool) (s : AccessState) : Prop :=
  forall id v, known s id v -> V id = v.

Lemma agrees_le V s s' : access_le s s' -> agrees V s' -> agrees V s.
Proof. unfold access_le, agrees. auto. Qed.

(** The view that shows what was decided visible. *)
Definition shown (s : AccessState) (id : ResourceId) : bool :=
  unwrap_or false (bt_get id (ac_cache s)).

Lemma shown_agrees s : agrees (shown s) s.
Proof. intros id v Hk. unfold shown. by rewrite Hk. Qed.

Section Access.
Context {port : AccessPort} {U : UuidText} (index : GenerationIndex) (plan : GraphTraversalPlan).

(** A resource of the generation, valid at the target, that the source allowed in one of the
    first [n] calls. *)
Definition granted (n : nat) (id : ResourceId) : Prop :=
  exists resource context k,
    bt_get id (gi_resources index) = Some resource /\
    gp_temporal_context plan = Some context /\
    temporally_valid (rm_temporal resource) (te_temporal_target context) = true /\
    (k < n)%nat /\ access_evaluate k id (gp_access_context plan) = Ok Allowed.

(** A resource the generation does not have, that is not valid at the target, or that the
    source did not allow in one of the first [n] calls. *)
Definition withheld (n : nat) (id : ResourceId) : Prop :=
  (bt_get id (gi_resources index) = None) \/
  (exists resource context,
     bt_get id (gi_resources index) = Some resource /\
     gp_temporal_context plan = Some context /\
     temporally_valid (rm_temporal resource) (te_temporal_target context) = false) \/
  (exists k, (k < n)%nat /\ access_evaluate k id (gp_access_context plan) <> Ok Allowed).

(** Why a resource is or is not shown. *)
Definition grounds (n : nat) (id : ResourceId) (v : bool) : Prop :=
  if v then granted n id else withheld n id.

Definition access_inv (s : AccessState) : Prop :=
  bt_wf (ac_cache s) /\ forall id v, known s id v -> grounds (ac_calls s) id v.

Lemma grounds_mono n m id v : (n <= m)%nat -> grounds n id v -> grounds m id v.
Proof.
  intros Hle. destruct v; cbn.
  - intros (r & c & k & H1 & H2 & H3 & H4 & H5). exists r, c, k. split_and!; [done..|lia|done].
  - intros [H|[H|(k & Hk & H)]]; [by left|by right; left|].
    right. right. exists k. split; [lia|done].
Qed.

(** Recording one more decision. *)
Lemma decide_visible_spec s id v n s' b :
  access_inv s -> bt_get id (ac_cache s) = None -> (ac_calls s <= n)%nat ->
  grounds n id v -> decide_visible s id v n = (s', b) ->
  access_inv s' /\ access_le s s' /\ known s' id b.
Proof.
  intros [Hw Hg] Hnone Hn Hv [= <- <-]. unfold known, access_le, access_inv in *. cbn in *.
  split_and!.
  - by apply bt_wf_alter.
  - intros j w Hj. unfold known in Hj. cbn in Hj. rewrite bt_get_insert in Hj by done.
    case_decide as Hd; [subst; injection Hj as ->; auto|].
    eapply grounds_mono; [exact Hn|]. by apply Hg.
  - intros j w Hj. unfold known in *. cbn. rewrite bt_get_insert by done.
    case_decide; [congruence|done].
  - rewrite bt_get_insert by done. by rewrite decide_True.
Qed.

Lemma visible_spec id s s' v :
  access_inv s -> visible index id plan s = Ok (s', v) ->
  access_inv s' /\ access_le s s' /\ known s' id v.
Proof.
  intros Hi. unfold visible. destruct (bt_get id (ac_cache s)) as [w|] eqn:Ec.
  { intros [= <- <-]. by split_and!. }
  destruct (bt_get id (gi_resources index)) as [r|] eqn:Er.
  2:{ intros H. apply Ok_inj in H. eapply decide_visible_spec; [..|exact H]; auto. by left. }
  destruct (gp_temporal_context plan) as [c|] eqn:Et; [|done].
  destruct (temporally_valid _ _) eqn:Ev; cbn [negb]; intros H; apply Ok_inj in H;
    (eapply decide_visible_spec; [..|exact H]; auto).
  - destruct (access_evaluate _ _ _) as [[]|] eqn:Ea; cbn;
      [exists r, c, (ac_calls s); split_and!; auto|..];
      (right; right; exists (ac_calls s); rewrite Ea; split; [lia|done]).
  - right. left. by exists r, c.
Qed.

Lemma all_visible_spec ps s s' b :
  access_inv s -> all_visible index plan ps s = Ok (s', b) ->
  access_inv s' /\ access_le s s' /\
  forall V, agrees V s' -> b = forallb (fun p => V (pt_resource_ref p)) ps.
Proof.
  revert s. induction ps as [|p ps IH]; intros s Hi; cbn [all_visible].
  { intros [= <- <-]. by split_and!. }
  intros H. apply rbind_Ok in H as ([s1 v] & Hv & H).
  destruct (visible_spec _ _ _ _ Hi Hv) as (Hi1 & Hle1 & Hk). destruct v.
  - destruct (IH s1 Hi1 H) as (Hi2 & Hle2 & Hb). split_and!; [done|by etrans|].
    intros V HV. cbn. rewrite (agrees_le V _ _ Hle2 HV _ _ Hk). by apply Hb.
  - injection H as <- <-. split_and!; [done..|]. intros V HV. cbn. by rewrite (HV _ _ Hk).
Qed.

(** ** The reference traversal over fixed decisions *)

Definition seed_path (seed : ResourceId) : PartialPath :=
  {| pa_current := seed; pa_resource_path := [seed]; pa_steps := [] |}.

Definition succ (V : ResourceId -> bool) (pattern : RelationPathPattern) (path : PartialPath)
    (relation_id : RelationId) : list PartialPath :=
  match bt_get relation_id (gi_relations index) with
  | None => []
  | Some relation =>
      if skips plan pattern (pa_current path) relation
         || negb (forallb (fun p => V (pt_resource_ref p)) (ri_participants relation))
      then []
      else map (fun p => extend_path pattern path relation_id relation (pt_resource_ref p))
             (targets pattern relation)
  end.

Definition expand (V : ResourceId -> bool) (pattern : RelationPathPattern) (path : PartialPath)
    : list PartialPath :=
  flat_map (succ V pattern path)
    (bt_values (pa_current path, pp_from_role pattern) (gi_incidence index)).

Definition ref_paths (V : ResourceId -> bool) (patterns : list RelationPathPattern)
    : list PartialPath :=
  fold_left (fun paths pattern => flat_map (expand V pattern) paths) patterns
    (map seed_path (List.filter V (dedup (sort (gp_seed_nodes plan))))).

(** A loop whose passes append what the decisions give, whatever is decided later. *)
Definition appends {S A} (acc : S -> AccessState) (out : S -> list PartialPath)
    (g : (ResourceId -> bool) -> A -> list PartialPath) (s : S) (xs : list A) (s' : S) : Prop :=
  access_inv (acc s') /\ access_le (acc s) (acc s') /\
  forall V, agrees V (acc s') -> out s' = out s ++ flat_map (g V) xs.

Lemma for_each_appends {S A} (acc : S -> AccessState) out g (body : S -> A -> Result S Abort) :
  (forall s x s', access_inv (acc s) -> body s x = Ok s' -> appends acc out g s [x] s') ->
  forall xs s s', access_inv (acc s) -> for_each body s xs = Ok s' -> appends acc out g s xs s'.
Proof.
  intros Hb. induction xs as [|x xs IH]; intros s s' Hi; cbn [for_each].
  { intros [= <-]. split_and!; [done..|]. intros f _. by rewrite app_nil_r. }
  intros H. apply rbind_Ok in H as (s1 & H1 & H).
  destruct (Hb _ _ _ Hi H1) as (Hi1 & Hle1 & Ho1).
  destruct (IH s1 s' Hi1 H) as (Hi2 & Hle2 & Ho2).
  split_and!; [done|by etrans|]. intros V HV.
  rewrite (Ho2 V), (Ho1 V) by (done || by eapply agrees_le).
  cbn. by rewrite app_nil_r, app_assoc.
Qed.

Lemma branch_loop pattern path n rid relation ps branches branches' :
  for_each (branch_step plan pattern path n rid relation) branches ps = Ok branches' ->
  branches' = branches ++ map (fun p => extend_path pattern path rid relation (pt_resource_ref p)) ps.
Proof.
  revert branches. induction ps as [|p ps IH]; intros branches; cbn [for_each].
  { intros [= <-]. by rewrite app_nil_r. }
  intros H. apply rbind_Ok in H as (b1 & H1 & H). apply IH in H. rewrite H. clear H.
  unfold branch_step in H1. repeat case_match; try done. injection H1 as <-.
  by rewrite <- app_assoc.
Qed.

Lemma seed_step_appends acc seed acc' :
  access_inv (fst acc) -> seed_step index plan acc seed = Ok acc' ->
  appends fst snd (fun V seed => if V seed then [seed_path seed] else []) acc [seed] acc'.
Proof.
  destruct acc as [s frontier]. intros Hi. cbn [seed_step]. intros H.
  apply rbind_Ok in H as ([s1 v] & Hv & H). destruct (visible_spec _ _ _ _ Hi Hv) as (Hi1 & Hle & Hk).
  destruct v; [destruct (exceeds _ _); [done|]|]; injection H as <-; (split_and!; [done..|]);
    intros V HV; cbn; rewrite (HV _ _ Hk); by rewrite ?app_nil_r.
Qed.

Lemma relation_step_appends pattern path n m s rid s' :
  access_inv (ex_access s) -> relation_step index plan pattern path n m s rid = Ok s' ->
  appends ex_access ex_branches (fun V => succ V pattern path) s [rid] s'.
Proof.
  intros Hi. unfold relation_step, appends, succ. cbn [flat_map].
  destruct (bt_get rid (gi_relations index)) as [relation|]; [|done].
  destruct (skips _ _ _ _); cbn [orb].
  { intros [= <-]. split_and!; [done..|]. intros f _. by rewrite !app_nil_r. }
  intros H. apply rbind_Ok in H as ([a b] & Ha & H).
  destruct (all_visible_spec _ _ _ _ Hi Ha) as (Hi1 & Hle & Hb).
  destruct b; cbn [negb] in H.
  - apply rbind_Ok in H as (branches & Hbr & H). apply branch_loop in Hbr.
    assert (ex_access s' = a /\ ex_branches s' = branches) as [-> ->].
    { destruct (_ <? _); [|by injection H as <-]. destruct (checked_add_usize _ _); [|done].
      destruct (exceeds _ _); [done|]. by injection H as <-. }
    split_and!; [done..|]. intros V HV. rewrite <- (Hb V HV). cbn. by rewrite app_nil_r.
  - injection H as <-. split_and!; [done..|]. intros V HV. rewrite <- (Hb V HV). cbn.
    by rewrite app_nil_r.
Qed.

Lemma path_step_appends pattern s path s' :
  access_inv (lv_access s) -> path_step index plan pattern s path = Ok s' ->
  appends lv_access lv_paths (fun V => expand V pattern) s [path] s'.
Proof.
  intros Hi. unfold path_step. intros H. apply rbind_Ok in H as (e & He & H).
  eapply (for_each_appends ex_access ex_branches (fun V => succ V pattern path) _
    (relation_step_appends pattern path _ _)) in He as (Hi1 & Hle & Ho); [|done].
  destruct (checked_add_usize _ _); [|done]. injection H as <-. split_and!; [done..|].
  intros V HV. cbn. rewrite (Ho V HV). cbn. by rewrite app_nil_r.
Qed.

Lemma patterns_ref patterns s s' :
  access_inv (lv_access s) -> for_each (pattern_step index plan) s patterns = Ok s' ->
  access_inv (lv_access s') /\ access_le (lv_access s) (lv_access s') /\
  forall V, agrees V (lv_access s') ->
    lv_paths s' = fold_left (fun paths pattern => flat_map (expand V pattern) paths)
                    patterns (lv_paths s).
Proof.
  revert s. induction patterns as [|pattern patterns IH]; intros s Hi; cbn [for_each].
  { intros [= <-]. by split_and!. }
  intros H. apply rbind_Ok in H as (s1 & H1 & H).
  eapply (for_each_appends lv_access lv_paths (fun V => expand V pattern) _
    (path_step_appends pattern)) in H1 as (Hi1 & Hle1 & Ho1); [|done].
  destruct (IH s1 Hi1 H) as (Hi2 & Hle2 & Ho2).
  split_and!; [done|by etrans|]. intros V HV. cbn [fold_left].
  rewrite (Ho2 V HV), (Ho1 V) by (by eapply agrees_le). done.
Qed.

Lemma seeds_ref (V : ResourceId -> bool) seeds :
  flat_map (fun seed => if V seed then [seed_path seed] else []) seeds =
  map seed_path (List.filter V seeds).
Proof. induction seeds as [|x l IH]; cbn; [done|]. destruct (V x); cbn; by rewrite IH. Qed.

Lemma access_inv_init : access_inv {| ac_cache := []; ac_calls := 0 |}.
Proof. split; [constructor|done]. Qed.

(** A run that succeeds computed the reference of its decisions. *)
Lemma explore_ref s final :
  access_inv s -> explore index plan s = Ok final ->
  access_inv (lv_access final) /\
  forall V, agrees V (lv_access final) -> lv_paths final = ref_paths V (gp_path_patterns plan).
Proof.
  intros Hi H. unfold explore in H. apply rbind_Ok in H as ([a frontier] & Hs & H).
  eapply (for_each_appends fst snd _ _ seed_step_appends) in Hs as (Hi1 & _ & Ho1); [|done].
  eapply patterns_ref in H as (Hi2 & Hle & Ho2); [|exact Hi1]. split; [done|].
  intros V HV. rewrite (Ho2 V HV). unfold ref_paths. f_equal. cbn in *.
  rewrite (Ho1 V) by (by eapply agrees_le). apply seeds_ref.
Qed.
End Access.

(** ** The index of a generation *)

Record index_wf (index : GenerationIndex) : Prop := {
  iw_resources : bt_wf (gi_resources index);
  iw_relations : bt_wf (gi_relations index);
  iw_entries : forall rid relation, (rid, relation) ∈ gi_relations index ->
    ri_relation_id relation = rid /\ relation_validate relation = Ok tt /\
    StronglySorted ord_le (ri_participants relation) /\ NoDup (ri_participants relation) /\
    NoDup (ri_evidence_refs relation) /\
    exists p, p ∈ ri_participants relation /\
      is_some (bt_get (pt_resource_ref p) (gi_resources index)) = true;
  iw_incidence : gi_incidence index = build_incidence (gi_relations index)
}.

(** What the incidence lists hold: the relations with the participant. *)
Definition incidence_pairs (relations : list (RelationId * TypedRelationInstance))
    : list ((ResourceId * string) * RelationId) :=
  flat_map (fun '(rid, relation) =>
      map (fun p => ((pt_resource_ref p, pt_role p), rid)) (ri_participants relation)) relations.

Lemma build_incidence_group relations :
  build_incidence relations = group_by fst snd (incidence_pairs relations).
Proof.
  unfold build_incidence, group_by. generalize (@nil ((ResourceId * string) * list RelationId)).
  induction relations as [|[rid relation] relations IH]; intros m; [done|].
  cbn [fold_left incidence_pairs flat_map]. rewrite fold_left_app, IH. f_equal. clear IH.
  revert m. induction (ri_participants relation) as [|p ps IHp]; intros m; [done|]. cbn. apply IHp.
Qed.

Lemma elem_of_flat_map {A B} (f : A -> list B) l y : y ∈ flat_map f l <-> exists x, x ∈ l /\ y ∈ f x.
Proof. rewrite list_elem_of_In, in_flat_map. by setoid_rewrite list_elem_of_In. Qed.

Lemma elem_of_incidence relations id role rid :
  rid ∈ bt_values (id, role) (build_incidence relations) <->
  exists relation, (rid, relation) ∈ relations /\
    {| pt_role := role; pt_resource_ref := id |} ∈ ri_participants relation.
Proof.
  rewrite build_incidence_group, group_by_values, list_elem_of_fmap. split.
  - intros ([k r] & -> & [Hin Hk]%elem_of_filter_bool). apply bool_decide_eq_true in Hk.
    cbn in Hk. subst k. apply elem_of_flat_map in Hin as ([r' relation] & Hrel & Hin).
    apply list_elem_of_fmap in Hin as ([ro re] & [= -> -> ->] & Hp). cbn. eauto.
  - intros (relation & Hrel & Hp). exists ((id, role), rid). split; [done|].
    apply elem_of_filter_bool. split; [|by apply bool_decide_eq_true].
    apply elem_of_flat_map. exists (rid, relation). split; [done|]. apply list_elem_of_fmap.
    by exists {| pt_role := role; pt_resource_ref := id |}.
Qed.

Lemma has_participant_some relation role id :
  has_participant relation role (Some id) = true <->
  {| pt_role := role; pt_resource_ref := id |} ∈ ri_participants relation.
Proof.
  unfold has_participant. rewrite existsb_true. split.
  - intros ([ro re] & Hp & H). cbn in H. simp_bool. by subst.
  - intros Hp. eexists. split; [exact Hp|]. cbn. by rewrite !bool_decide_eq_true_2.
Qed.

(** ** Walks *)

Section Walks.
Context (index : GenerationIndex) (plan : GraphTraversalPlan) (V : ResourceId -> bool).

(** A walk starts at a visible seed; each step crosses one allowed relation that matches the
    next pattern at the walk's end, all of whose participants are visible. *)
Inductive walk : list RelationPathPattern -> PartialPath -> Prop :=
| walk_seed seed :
    seed ∈ gp_seed_nodes plan -> V seed = true -> walk [] (seed_path seed)
| walk_step patterns path pattern rid relation p :
    walk patterns path ->
    bt_get rid (gi_relations index) = Some relation ->
    plan_allows plan relation = true -> matches_relation pattern relation = true ->
    (forall id, pp_from_resource pattern = Some id -> id = pa_current path) ->
    {| pt_role := pp_from_role pattern; pt_resource_ref := pa_current path |}
      ∈ ri_participants relation ->
    (forall q, q ∈ ri_participants relation -> V (pt_resource_ref q) = true) ->
    p ∈ ri_participants relation -> pt_role p = pp_to_role pattern ->
    (forall id, pp_to_resource pattern = Some id -> id = pt_resource_ref p) ->
    walk (patterns ++ [pattern]) (extend_path pattern path rid relation (pt_resource_ref p)).

Lemma skips_false pattern current relation :
  skips plan pattern current relation = false <->
  plan_allows plan relation = true /\ matches_relation pattern relation = true /\
  (forall id, pp_from_resource pattern = Some id -> id = current) /\
  {| pt_role := pp_from_role pattern; pt_resource_ref := current |} ∈ ri_participants relation.
Proof.
  unfold skips. rewrite !orb_false_iff, !negb_false_iff, has_participant_some.
  assert (is_some_and (pp_from_resource pattern) (fun id => id != current) = false <->
    forall id, pp_from_resource pattern = Some id -> id = current) as ->; [|tauto].
  destruct (pp_from_resource pattern) as [id|]; cbn; [|naive_solver].
  rewrite negb_false_iff, bool_decide_eq_true. naive_solver.
Qed.

Lemma elem_of_targets pattern relation p :
  p ∈ targets pattern relation <->
  p ∈ ri_participants relation /\ pt_role p = pp_to_role pattern /\
  (forall id, pp_to_resource pattern = Some id -> id = pt_resource_ref p).
Proof.
  unfold targets. rewrite elem_of_filter_bool, andb_true_iff, bool_decide_eq_true, is_none_or_true.
  by setoid_rewrite bool_decide_eq_true.
Qed.

Lemma elem_of_expand (W : index_wf index) pattern path path' :
  path' ∈ expand index plan V pattern path <->
  exists rid relation p, bt_get rid (gi_relations index) = Some relation /\
    skips plan pattern (pa_current path) relation = false /\
    (forall q, q ∈ ri_participants relation -> V (pt_resource_ref q) = true) /\
    p ∈ targets pattern relation /\
    path' = extend_path pattern path rid relation (pt_resource_ref p).
Proof.
  unfold expand. rewrite elem_of_flat_map. split.
  - intros (rid & _ & H). unfold succ in H.
    destruct (bt_get rid (gi_relations index)) as [relation|] eqn:Er; [|by apply elem_of_nil in H].
    destruct (skips _ _ _ _) eqn:Es; cbn in H; [by apply elem_of_nil in H|].
    destruct (forallb _ _) eqn:Ev; cbn in H; [|by apply elem_of_nil in H].
    apply list_elem_of_fmap in H as (p & -> & Hp). rewrite forallb_true in Ev.
    by exists rid, relation, p.
  - intros (rid & relation & p & Hr & Hs & Hv & Hp & ->). exists rid. split.
    + rewrite (iw_incidence _ W), elem_of_incidence. exists relation.
      split; [by apply bt_get_elem; [apply (iw_relations _ W)|]|].
      by apply skips_false in Hs as (_ & _ & _ & Hs).
    + unfold succ. rewrite Hr, Hs. apply forallb_true in Hv. rewrite Hv. cbn.
      apply list_elem_of_fmap. by exists p.
Qed.

Lemma ref_paths_walk (W : index_wf index) patterns path :
  path ∈ ref_paths index plan V patterns <-> walk patterns path.
Proof.
  revert path. induction patterns as [|pattern patterns IH] using rev_ind; intros path.
  - unfold ref_paths. cbn. rewrite list_elem_of_fmap. split.
    + intros (seed & -> & [Hs Hv]%elem_of_filter_bool). rewrite elem_of_dedup, elem_of_sort in Hs.
      by constructor.
    + inversion 1 as [seed Hs Hv|patterns path' pattern ? ? ? ? ? ? ? ? ? ? ? ? ? Hn]; subst.
      * exists seed. split; [done|]. apply elem_of_filter_bool.
        by rewrite elem_of_dedup, elem_of_sort.
      * by apply app_nil in Hn as [_ [=]].
  - unfold ref_paths. rewrite fold_left_app. cbn [fold_left].
    change (fold_left _ patterns _) with (ref_paths index plan V patterns).
    rewrite elem_of_flat_map. split.
    + intros (path0 & H0%IH & (rid & relation & p & Hr & Hs & Hv & Hp & ->)%elem_of_expand); [|done].
      apply skips_false in Hs as (? & ? & ? & ?). apply elem_of_targets in Hp as (? & ? & ?).
      by apply walk_step.
    + inversion 1 as [seed ? ? Hn|patterns' path0 pattern' rid relation p Hw Hr Ha Hm Hf Hc Hv Hp Hro Hto Hn];
        subst.
      * symmetry in Hn. by apply app_nil in Hn as [_ [=]].
      * apply app_inj_tail in Hn as [-> ->]. exists path0. split; [by apply IH|].
        apply elem_of_expand; [done|]. exists rid, relation, p. split_and!; try done.
        -- by apply skips_false.
        -- by apply elem_of_targets.
Qed.

(** A walk visits one more resource than it crosses relations. *)
Lemma walk_length patterns path :
  walk patterns path -> length (pa_steps path) = length patterns /\
  length (pa_resource_path path) = S (length patterns).
Proof.
  induction 1 as [seed|patterns path pattern rid relation p Hw [IH1 IH2]]; [done|].
  cbn. rewrite !length_app, IH1, IH2. cbn. lia.
Qed.
End Walks.

(** ** Results *)

Section Results.
Context {port : AccessPort} {U : UuidText}.

Lemma elem_of_hits generation paths id ev :
  (exists h, h ∈ map (hit generation) (group_by pa_current path_evidence paths) /\
     fc_resource_ref (gh_candidate h) = Some id /\ ev ∈ gh_paths h) <->
  exists path, path ∈ paths /\ pa_current path = id /\ path_evidence path = ev.
Proof.
  split.
  - intros (h & ([k evs] & -> & Hin)%list_elem_of_fmap & Hid & Hev). cbn in Hid, Hev.
    injection Hid as ->. rewrite elem_of_dedup, elem_of_sort in Hev.
    apply group_by_elem in Hin as [-> _]. apply list_elem_of_fmap in Hev as (path & -> & Hp).
    apply elem_of_filter_bool in Hp as [Hp Hk]. apply bool_decide_eq_true in Hk. eauto.
  - intros (path & Hp & <- & <-).
    set (evs := map path_evidence (List.filter (fun x => pa_current x == pa_current path) paths)).
    assert (path_evidence path ∈ evs) as Hev.
    { apply list_elem_of_fmap. exists path. split; [done|]. apply elem_of_filter_bool.
      split; [done|]. by apply bool_decide_eq_true. }
    exists (hit generation (pa_current path, evs)). split_and!; [|done|].
    + apply list_elem_of_fmap. eexists. split; [reflexivity|]. apply group_by_elem.
      split; [done|]. intros Hn. rewrite Hn in Hev. by apply elem_of_nil in Hev.
    + cbn. by rewrite elem_of_dedup, elem_of_sort.
Qed.

Lemma traverse_Ok generation index plan result :
  traverse generation index plan = Ok result ->
  exists final, plan_validate plan = Ok tt /\
    len (gp_path_patterns plan) <= tb_max_hops (gp_expansion_budget plan) /\
    explore index plan {| ac_cache := []; ac_calls := 0 |} = Ok final /\
    gr_generation result = generation /\
    gr_hits result = map (hit generation) (group_by pa_current path_evidence (lv_paths final)).
Proof.
  unfold traverse. destruct (plan_validate plan) as [[]|]; [|done].
  destruct (Z.ltb_spec (tb_max_hops (gp_expansion_budget plan)) (len (gp_path_patterns plan)));
    [done|]. intros Hx. apply rbind_Ok in Hx as (final & Hf & Hx). injection Hx as <-.
  by exists final.
Qed.

(** The hits of a traversal that succeeds are the walks over its own decisions. *)
Lemma traverse_walks generation index plan result :
  index_wf index -> traverse generation index plan = Ok result ->
  exists (decided : ResourceId -> option bool) n,
    (forall id v, decided id = Some v -> grounds index plan n id v) /\
    forall V : ResourceId -> bool, (forall id v, decided id = Some v -> V id = v) ->
    forall id ev,
      (exists h, h ∈ gr_hits result /\ fc_resource_ref (gh_candidate h) = Some id /\
         ev ∈ gh_paths h) <->
      (exists path, walk index plan V (gp_path_patterns plan) path /\
         pa_current path = id /\ path_evidence path = ev).
Proof.
  intros W H. apply traverse_Ok in H as (final & _ & _ & Hf & _ & Hh).
  destruct (explore_ref index plan _ _ (access_inv_init index plan) Hf) as [[_ Hg] Hp].
  exists (fun id => bt_get id (ac_cache (lv_access final))), (ac_calls (lv_access final)).
  split; [exact Hg|]. intros V HV id ev. rewrite Hh, elem_of_hits, (Hp V HV).
  by setoid_rewrite ref_paths_walk.
Qed.
End Results.
