(* ===== verification/SearchGraphBuild.v ===== *)
(** * SearchGraphBuild: generations are built whole, and traversals keep their budgets

    [build_generation] stores the canonical form of exactly the relations it is given, under
    a fresh key, and changes no other generation; every index it stores satisfies [index_wf].
    A traversal of such an index never panics and a result stays within every budget. *)
From stdpp Require Import base gmap sets list strings sorting.
From Stdlib Require Import ZArith Lia.
From S2P Require Import Prelude Text Ordered SearchValues SearchResolution SearchEvidence.
From S2P Require Import SearchGraph SearchGraphTheorems.

Local Open Scope Z_scope.

(** ** Building *)

Lemma existsb_Permutation {A} (p : A -> bool) l k :
  Permutation l k -> existsb p l = existsb p k.
Proof. induction 1; cbn; try congruence. by destruct (p x), (p y). Qed.

(** Sorting the participants leaves a relation valid. *)
Lemma canonical_validate r : relation_validate (canonical_relation r) = relation_validate r.
Proof.
  unfold relation_validate. cbn. unfold len.
  rewrite (Permutation_length (sort_Permutation (ri_participants r))).
  by rewrite (existsb_Permutation _ _ _ (sort_Permutation (ri_participants r))).
Qed.

(** A stored relation. *)
Definition stored (r : TypedRelationInstance) : Prop :=
  relation_validate r = Ok tt /\ StronglySorted ord_le (ri_participants r) /\
  NoDup (ri_participants r) /\ NoDup (ri_evidence_refs r).

(** The relations map after the relations [given] by projections that own [owned]. *)
Record relations_inv (owned : ResourceId -> Prop) (given : list TypedRelationInstance)
    (relations : list (RelationId * TypedRelationInstance)) : Prop := {
  rv_wf : bt_wf relations;
  rv_exact : forall rid rel, bt_get rid relations = Some rel <->
    exists r, r ∈ given /\ ri_relation_id r = rid /\ rel = canonical_relation r;
  rv_stored : forall rid rel, bt_get rid relations = Some rel -> stored rel /\
    exists p, p ∈ ri_participants rel /\ owned (pt_resource_ref p)
}.

Lemma add_relation_inv id owned given s r s' :
  owned id -> relations_inv owned given (snd s) -> add_relation id s r = Ok s' ->
  relations_inv owned (given ++ [r]) (snd s').
Proof.
  intros Ho [Hw He Hs]. destruct s as [ids rels]. cbn in *. intros H.
  destruct (_ || _) eqn:Eg in H; [done|]. simp_bool.
  destruct (any_adjacent_equal _) eqn:Ea; [done|].
  destruct (is_some_and _ _) eqn:Ex; [done|]. injection H as <-. cbn [snd].
  set (c := canonical_relation r) in *.
  assert (stored c) as Hc.
  { split_and!.
    - unfold c. rewrite canonical_validate. unfold is_err in *.
      destruct (relation_validate r) as [[]|]; [done|]. cbn in *. done.
    - apply sort_sorted.
    - apply any_adjacent_equal_false; [apply sort_sorted|done].
    - apply dedup_NoDup, sort_sorted. }
  assert (forall rel, bt_get (ri_relation_id r) rels = Some rel -> rel = c) as Hsame.
  { intros rel Hrel. rewrite Hrel in Ex. cbn in Ex. by simp_bool. }
  split.
  - by apply bt_wf_alter.
  - intros rid rel. rewrite bt_get_insert by done. setoid_rewrite elem_of_app.
    setoid_rewrite list_elem_of_singleton. case_decide as Hd.
    + subst rid. split.
      * intros [= <-]. exists r. by split_and!; [right|..].
      * intros (q & [Hq| ->] & Hid & ->); [|done]. f_equal. symmetry. apply Hsame, He.
        by exists q.
    + rewrite He. split.
      * intros (q & Hq & Hid & ->). exists q. by split_and!; [left|..].
      * intros (q & [Hq| ->] & Hid & ->); [by exists q|]. by destruct Hd.
  - intros rid rel. rewrite bt_get_insert by done. case_decide as Hd; [|apply Hs].
    intros [= <-]. split; [done|].
    match goal with Hx : existsb _ (ri_participants r) = true |- _ =>
      apply existsb_true in Hx as (p & Hp & Hpid) end.
    apply bool_decide_eq_true in Hpid. exists p. rewrite Hpid. split; [|done].
    unfold c. cbn. by rewrite elem_of_sort.
Qed.

Lemma add_relations_inv id owned rs given s s' :
  owned id -> relations_inv owned given (snd s) -> for_each (add_relation id) s rs = Ok s' ->
  relations_inv owned (given ++ rs) (snd s').
Proof.
  intros Ho. revert given s. induction rs as [|r rs IH]; intros given s Hi; cbn [for_each].
  { intros [= <-]. by rewrite app_nil_r. }
  intros H. apply rbind_Ok in H as (s1 & H1 & H).
  eapply add_relation_inv in H1; [|done..]. eapply IH in H; [|done].
  by rewrite <- app_assoc in H.
Qed.

Lemma relations_inv_mono (owned owned' : ResourceId -> Prop) given rels :
  (forall id, owned id -> owned' id) -> relations_inv owned given rels ->
  relations_inv owned' given rels.
Proof. intros Hm [Hw He Hs]. split; [done..|]. intros rid rel Hr. destruct (Hs _ _ Hr) as (? & p & ? & ?). eauto. Qed.

(** The resources and relations after some projections. *)
Definition resource_in (resources : list (ResourceId * ResourceMetadata)) (id : ResourceId) : Prop :=
  is_some (bt_get id resources) = true.

Record build_inv (done_ : list CompiledResourceProjection)
    (s : list (ResourceId * ResourceMetadata) * list (RelationId * TypedRelationInstance)) : Prop := {
  bi_resources : bt_wf (fst s);
  bi_temporal : forall id m, bt_get id (fst s) = Some m <->
    exists p, p ∈ done_ /\ dp_resource_ref (rp_directory p) = id /\
      m = {| rm_temporal := rp_temporal p |};
  bi_relations : relations_inv (resource_in (fst s)) (flat_map rp_relations done_) (snd s)
}.

Lemma add_projection_inv manifest done_ s p s' :
  build_inv done_ s -> add_projection manifest s p = Ok s' -> build_inv (done_ ++ [p]) s'.
Proof.
  intros [Hw Ht Hr]. destruct s as [resources rels]. cbn in Hw, Ht, Hr. unfold add_projection.
  set (id := dp_resource_ref (rp_directory p)). set (m := {| rm_temporal := rp_temporal p |}).
  destruct (_ || _); [done|]. destruct (bt_contains_key id resources) eqn:Ek; [done|]. intros H.
  apply rbind_Ok in H as (s1 & H1 & H). injection H as <-.
  unfold bt_contains_key in Ek. apply is_some_false in Ek.
  assert (forall j, resource_in resources j -> resource_in (bt_insert id m resources) j) as Hm.
  { unfold resource_in. intros j Hj. rewrite bt_get_insert by done. by case_decide. }
  split; cbn [fst snd].
  - by apply bt_wf_alter.
  - intros j x. rewrite bt_get_insert by done. setoid_rewrite elem_of_app.
    setoid_rewrite list_elem_of_singleton. case_decide as Hd.
    + subst j. split.
      * intros [= <-]. exists p. by split_and!; [right|..].
      * intros (q & [Hq| ->] & Hid & ->); [|done]. exfalso.
        assert (bt_get id resources = Some {| rm_temporal := rp_temporal q |}) as Hx
          by (apply Ht; by exists q). congruence.
    + rewrite Ht. split.
      * intros (q & Hq & Hid & ->). exists q. by split_and!; [left|..].
      * intros (q & [Hq| ->] & Hid & ->); [by exists q|]. by destruct Hd.
  - rewrite flat_map_app. cbn [flat_map]. rewrite app_nil_r.
    apply (add_relations_inv id _ _ _ ([], rels)); [|by eapply relations_inv_mono|done].
    unfold resource_in. rewrite bt_get_insert by done. by rewrite decide_True.
Qed.

Lemma add_projections_inv manifest ps done_ s s' :
  build_inv done_ s -> for_each (add_projection manifest) s ps = Ok s' -> build_inv (done_ ++ ps) s'.
Proof.
  revert done_ s. induction ps as [|p ps IH]; intros done_ s Hi; cbn [for_each].
  { intros [= <-]. by rewrite app_nil_r. }
  intros H. apply rbind_Ok in H as (s1 & H1 & H).
  eapply add_projection_inv in H1; [|done]. eapply IH in H; [|done].
  by rewrite <- app_assoc in H.
Qed.

Lemma build_inv_init : build_inv [] ([], []).
Proof.
  split; cbn; [constructor| |split; cbn; [constructor| |done]].
  - intros id m. split; [done|]. intros (p & Hp & _). by apply elem_of_nil in Hp.
  - intros id m. split; [done|]. intros (p & Hp & _). by apply elem_of_nil in Hp.
Qed.

Lemma build_inv_index ps resources relations :
  build_inv ps (resources, relations) ->
  index_wf {| gi_resources := resources; gi_relations := relations;
              gi_incidence := build_incidence relations |}.
Proof.
  intros [Hw Ht [Hrw He Hs]]. split; cbn in *; [done..| |done].
  intros rid rel Hin. apply bt_get_elem in Hin; [|done].
  destruct (Hs _ _ Hin) as ((? & ? & ? & ?) & p & ? & ?).
  apply He in Hin as (r & _ & <- & ->). split_and!; try done. by exists p.
Qed.

(** ** The retriever *)

Definition retriever_wf (self : MemoryGraphRetriever) : Prop :=
  bt_wf (mg_generations self) /\
  forall key index, bt_get key (mg_generations self) = Some index -> index_wf index.

(** What a generation holds of the projections it was built from. *)
Definition index_of (ps : list CompiledResourceProjection) (index : GenerationIndex) : Prop :=
  (forall id m, bt_get id (gi_resources index) = Some m <->
     exists p, p ∈ ps /\ dp_resource_ref (rp_directory p) = id /\
       m = {| rm_temporal := rp_temporal p |}) /\
  (forall rid rel, bt_get rid (gi_relations index) = Some rel <->
     exists p r, p ∈ ps /\ r ∈ rp_relations p /\ ri_relation_id r = rid /\
       rel = canonical_relation r).

Lemma try_build_spec self manifest source ps self' :
  retriever_wf self -> try_build_generation self manifest source ps = Ok self' ->
  bt_get (manifest_key manifest) (mg_generations self) = None /\
  mg_poisoned self' = mg_poisoned self /\
  exists index, index_wf index /\ index_of ps index /\
    mg_generations self' = bt_insert (manifest_key manifest) index (mg_generations self).
Proof.
  intros [Hw Hi]. unfold try_build_generation. set (key := manifest_key manifest).
  intros H. do 6 (match type of H with (if ?b then _ else _) = _ => destruct b; [done|] end).
  apply rbind_Ok in H as ([resources relations] & Hb & H).
  destruct (is_some_and _ _); [done|].
  destruct (bt_get key (mg_generations self)) eqn:Ek; [done|]. injection H as <-.
  pose proof (add_projections_inv _ _ _ _ _ build_inv_init Hb) as Hinv. cbn [app] in Hinv.
  split_and!; [done..|]. eexists. split_and!; [by eapply build_inv_index| |done].
  destruct Hinv as [Hrw Ht [_ He _]]. cbn in *. split; [done|].
  intros rid rel. rewrite He. setoid_rewrite elem_of_flat_map. naive_solver.
Qed.

Lemma discard_wf self key : retriever_wf self -> retriever_wf (fst (discard_generation self key)).
Proof.
  intros [Hw Hi]. unfold discard_generation. destruct (mg_poisoned self); [done|]. cbn.
  split; [by apply bt_wf_remove|]. intros k index. cbn. destruct (decide (k = key)) as [->|Hne].
  - by rewrite bt_get_remove.
  - rewrite bt_get_remove_ne by done. apply Hi.
Qed.

(** Building a generation is all or nothing: a refused build changes nothing, a successful
    one adds under a fresh key an index that holds exactly the given resources with their
    temporal projections and the canonical forms of exactly the given relations, and touches no
    other generation; stored indexes stay well formed. *)
Theorem build_generation_exact self manifest source ps self' result :
  retriever_wf self -> build_generation self manifest source ps = (self', result) ->
  retriever_wf self' /\
  (forall key, key <> manifest_key manifest ->
     bt_get key (mg_generations self') = bt_get key (mg_generations self)) /\
  match result with
  | Ok _ => bt_get (manifest_key manifest) (mg_generations self) = None /\
      exists index, bt_get (manifest_key manifest) (mg_generations self') = Some index /\
        index_of ps index
  | Err _ => self' = self
  end.
Proof.
  intros Hwf. unfold build_generation.
  destruct (try_build_generation self manifest source ps) as [s1|e] eqn:E; intros [= <- <-];
    [|by split_and!].
  destruct (try_build_spec _ _ _ _ _ Hwf E) as (Hn & Hp & index & Hi & Ho & Hg).
  destruct Hwf as [Hw Hall]. rewrite Hg. split_and!.
  - split; rewrite Hg; [by apply bt_wf_alter|]. intros k ix. rewrite bt_get_insert by done.
    case_decide; [by intros [= <-]|apply Hall].
  - intros k Hk. rewrite bt_get_insert by done. by rewrite decide_False.
  - done.
  - exists index. split; [|done]. rewrite bt_get_insert by done. by rewrite decide_True.
Qed.

(** ** The life of a retriever *)

Inductive GraphOp : Type :=
| OpBuild (manifest : ProjectionGenerationManifest) (source : DiscoverableSource)
    (projections : list CompiledResourceProjection)
| OpDiscard (key : ProjectionGenerationKey).

Definition graph_op (self : MemoryGraphRetriever) (op : GraphOp) : MemoryGraphRetriever :=
  match op with
  | OpBuild manifest source projections => fst (build_generation self manifest source projections)
  | OpDiscard key => fst (discard_generation self key)
  end.

Definition graph_run (ops : list GraphOp) : MemoryGraphRetriever :=
  fold_left graph_op ops MemoryGraphRetriever_new.

Lemma build_wf self manifest source ps :
  retriever_wf self -> retriever_wf (fst (build_generation self manifest source ps)).
Proof.
  intros Hwf. unfold build_generation.
  destruct (try_build_generation self manifest source ps) as [s1|e] eqn:E; [|done]. cbn.
  destruct (try_build_spec _ _ _ _ _ Hwf E) as (Hn & Hp & index & Hi & Ho & Hg).
  destruct Hwf as [Hw Hall]. split; rewrite Hg; [by apply bt_wf_alter|].
  intros k ix. rewrite bt_get_insert by done. case_decide; [by intros [= <-]|apply Hall].
Qed.

Lemma graph_run_wf ops : retriever_wf (graph_run ops).
Proof.
  unfold graph_run. assert (retriever_wf MemoryGraphRetriever_new) as H0 by (split; [constructor|done]).
  revert H0. generalize MemoryGraphRetriever_new.
  induction ops as [|[m s ps|key] ops IH]; intros self Hs; [done|apply IH, build_wf, Hs|].
  apply IH, discard_wf, Hs.
Qed.

(** ** Traversals of a stored generation do not panic *)

Definition no_panic {A} (r : Result A Abort) : Prop := forall message, r <> Err (Panicked message).

Lemma no_panic_bind {A B} (m : Result A Abort) (k : A -> Result B Abort) :
  no_panic m -> (forall a, m = Ok a -> no_panic (k a)) -> no_panic (rbind m k).
Proof. intros Hm Hk message. destruct m; cbn; [by apply Hk|]. intros [= ->]. by apply (Hm message). Qed.

Lemma no_panic_for_each {S A} (body : S -> A -> Result S Abort) xs s :
  (forall s x, x ∈ xs -> no_panic (body s x)) -> no_panic (for_each body s xs).
Proof.
  revert s. induction xs as [|x xs IH]; intros s Hb; cbn [for_each]; [done|].
  apply no_panic_bind; [apply Hb; set_solver|]. intros s' _. apply IH. set_solver.
Qed.

Section Totality.
Context {port : AccessPort} {U : UuidText} (index : GenerationIndex) (plan : GraphTraversalPlan)
  (W : index_wf index) (Hctx : is_some (gp_temporal_context plan) = true).

Lemma visible_no_panic id s : no_panic (visible index id plan s).
Proof.
  unfold visible. intros message. destruct (gp_temporal_context plan); [|done].
  by repeat case_match.
Qed.

Lemma all_visible_no_panic ps s : no_panic (all_visible index plan ps s).
Proof.
  revert s. induction ps as [|p ps IH]; intros s; cbn [all_visible]; [done|].
  apply no_panic_bind; [apply visible_no_panic|]. intros [s1 []] _; [apply IH|done].
Qed.

Lemma relation_step_no_panic pattern path n m s rid :
  rid ∈ bt_values (pa_current path, pp_from_role pattern) (gi_incidence index) ->
  no_panic (relation_step index plan pattern path n m s rid).
Proof.
  rewrite (iw_incidence _ W), elem_of_incidence. intros (relation & Hr & _).
  apply bt_get_elem in Hr; [|apply (iw_relations _ W)]. unfold relation_step. rewrite Hr.
  destruct (skips _ _ _ _); [done|]. apply no_panic_bind; [apply all_visible_no_panic|].
  intros [a b] _. destruct b; cbn; [|done]. apply no_panic_bind.
  - apply no_panic_for_each. intros branches p _ message. unfold branch_step. by repeat case_match.
  - intros branches _ message. by repeat case_match.
Qed.

Lemma explore_no_panic s : no_panic (explore index plan s).
Proof.
  unfold explore. apply no_panic_bind.
  - apply no_panic_for_each. intros [a frontier] seed _. cbn. apply no_panic_bind.
    + apply visible_no_panic.
    + intros [a1 v] _ message. by repeat case_match.
  - intros [a frontier] _. apply no_panic_for_each. intros l pattern _. unfold pattern_step.
    apply no_panic_for_each. intros l' path _. unfold path_step. apply no_panic_bind.
    + apply no_panic_for_each. intros e rid Hrid. by apply relation_step_no_panic.
    + intros e _ message. by case_match.
Qed.
End Totality.

Lemma plan_validate_context plan :
  plan_validate plan = Ok tt -> is_some (gp_temporal_context plan) = true.
Proof.
  unfold plan_validate. intros H. inv_ok. simp_bool.
  destruct (gp_temporal_context plan); [done|]. discriminate.
Qed.

Section Retrieval.
Context {port : AccessPort} {U : UuidText}.

Lemma retrieve_index self generation plan result :
  retriever_wf self -> retrieve self generation plan = Ok result ->
  exists index, bt_get generation (mg_generations self) = Some index /\ index_wf index /\
    traverse generation index plan = Ok result.
Proof.
  intros [_ Hi]. unfold retrieve. destruct (mg_poisoned self); [done|].
  destruct (bt_get generation (mg_generations self)) as [index|] eqn:E; [|done].
  intros H. exists index. split_and!; [done|by eapply Hi|done].
Qed.

(** Whatever was built and discarded before, a retrieval never panics: the two [expect]s of the
    traversal cannot fail. *)
Theorem retrieve_never_panics ops generation plan message :
  retrieve (graph_run ops) generation plan <> Err (Panicked message).
Proof.
  pose proof (graph_run_wf ops) as [_ Hi]. unfold retrieve.
  destruct (mg_poisoned _); [done|].
  destruct (bt_get generation _) as [index|] eqn:E; [|done]. unfold traverse.
  destruct (plan_validate plan) as [[]|] eqn:Ev; [|done]. destruct (_ <? _); [done|].
  apply no_panic_bind; [|done]. apply explore_no_panic; [by eapply Hi|by apply plan_validate_context].
Qed.

(** C11: A graph retrieval that succeeds discloses exactly the visible paths: after any builds and
    discards, the hits and their paths are the walks that start at a visible seed and cross, one
    pattern after the other, relations the plan allows all of whose participants are visible.
    What counts as visible was decided once per resource: shown only if the generation has it,
    it is valid at the target and the source allowed it; nothing is dropped for a budget. *)
Theorem retrieve_exact ops generation plan result :
  retrieve (graph_run ops) generation plan = Ok result ->
  exists index (decided : ResourceId -> option bool) n,
    bt_get generation (mg_generations (graph_run ops)) = Some index /\
    (forall id v, decided id = Some v -> grounds index plan n id v) /\
    forall V : ResourceId -> bool, (forall id v, decided id = Some v -> V id = v) ->
    forall id ev,
      (exists h, h ∈ gr_hits result /\ fc_resource_ref (gh_candidate h) = Some id /\
         ev ∈ gh_paths h) <->
      (exists path, walk index plan V (gp_path_patterns plan) path /\
         pa_current path = id /\ path_evidence path = ev).
Proof.
  intros H. apply retrieve_index in H as (index & Hg & W & H); [|apply graph_run_wf].
  destruct (traverse_walks _ _ _ _ W H) as (decided & n & H1 & H2).
  exists index, decided, n. by split_and!.
Qed.
End Retrieval.

(** ** Budgets *)

Section Budgets.
Context {port : AccessPort} {U : UuidText} (index : GenerationIndex) (plan : GraphTraversalPlan).
Let b := gp_expansion_budget plan.
Context (Hrel : 0 <= tb_max_relations b) (Hpaths : 0 <= tb_max_paths b)
  (Hbranch : 0 <= tb_max_branching_per_node b).

Lemma checked_add_usize_Some x y c : checked_add_usize x y = Some c -> c = x + y.
Proof. unfold checked_add_usize. destruct (_ <=? _); congruence. Qed.

Lemma exceeds_false x y limit :
  exceeds (checked_add_usize x y) limit = false -> x + y <= limit.
Proof.
  unfold exceeds, checked_add_usize. destruct (_ <=? _); cbn; [|done]. intros H. by simp_bool.
Qed.

(** Within a node: the branches fit the node's budget, the level's paths and the relations. *)
Definition expand_ok (n m : Z) (s : ExpandState) : Prop :=
  n + len (ex_branches s) <= tb_max_paths b /\
  len (ex_branches s) <= tb_max_branching_per_node b /\
  0 <= ex_relation_expansions s /\ m + ex_relation_expansions s <= tb_max_relations b.

Lemma branch_loop_ok pattern path n rid relation ps branches branches' :
  n + len branches <= tb_max_paths b -> len branches <= tb_max_branching_per_node b ->
  for_each (branch_step plan pattern path n rid relation) branches ps = Ok branches' ->
  n + len branches' <= tb_max_paths b /\ len branches' <= tb_max_branching_per_node b.
Proof.
  intros H1 H2 H. revert H.
  apply (for_each_inv (fun l => n + len l <= tb_max_paths b /\ len l <= tb_max_branching_per_node b));
    [|done].
  intros l p l' _. unfold branch_step. fold b.
  destruct (checked_add_usize (len l) 1) as [c|] eqn:E; [|done].
  apply checked_add_usize_Some in E as ->.
  destruct (Z.ltb_spec (tb_max_branching_per_node b) (len l + 1)); [done|].
  destruct (exceeds _ _) eqn:Ex; [done|]. apply exceeds_false in Ex. intros [= <-].
  rewrite len_app. unfold len in *. cbn in *. lia.
Qed.

Lemma relation_step_ok pattern path n m s rid s' :
  expand_ok n m s -> relation_step index plan pattern path n m s rid = Ok s' -> expand_ok n m s'.
Proof.
  intros (H1 & H2 & H3 & H4). unfold relation_step. fold b.
  destruct (bt_get rid (gi_relations index)) as [relation|]; [|done].
  destruct (skips _ _ _ _); [by intros [= <-]|]. intros H.
  apply rbind_Ok in H as ([a v] & _ & H). destruct v; cbn [negb] in H; [|by injection H as <-].
  apply rbind_Ok in H as (branches & Hb & H). eapply branch_loop_ok in Hb as [Hb1 Hb2]; [|done..].
  destruct (_ <? _); [|injection H as <-; unfold expand_ok; cbn; lia].
  destruct (checked_add_usize (ex_relation_expansions s) 1) as [c|] eqn:Ec; [|done].
  apply checked_add_usize_Some in Ec as ->.
  destruct (exceeds _ _) eqn:Ex; [done|]. apply exceeds_false in Ex. injection H as <-.
  unfold expand_ok. cbn. lia.
Qed.

Definition level_ok (s : LevelState) : Prop :=
  len (lv_paths s) <= tb_max_paths b /\ 0 <= lv_expanded s <= tb_max_relations b.

Lemma path_step_ok pattern s path s' :
  level_ok s -> path_step index plan pattern s path = Ok s' -> level_ok s'.
Proof.
  intros [H1 H2]. unfold path_step. intros H. apply rbind_Ok in H as (e & He & H).
  eapply (for_each_inv (expand_ok (len (lv_paths s)) (lv_expanded s))) in He as (E1 & E2 & E3 & E4).
  - destruct (checked_add_usize _ _) as [c|] eqn:Ec; [|done]. injection H as <-.
    apply checked_add_usize_Some in Ec as ->.
    unfold level_ok. cbn. rewrite len_app. lia.
  - intros s0 rid s1. apply relation_step_ok.
  - unfold expand_ok. cbn. change (len []) with 0. lia.
Qed.

Lemma explore_ok s final : explore index plan s = Ok final -> level_ok final.
Proof.
  intros H. unfold explore in H. apply rbind_Ok in H as ([a frontier] & Hs & H).
  assert (len frontier <= tb_max_paths b) as Hf.
  { eapply (for_each_inv (fun acc => len (snd acc) <= tb_max_paths b)) in Hs; [done| |done].
    intros [a1 l] seed acc' Hl. cbn. intros Hx. apply rbind_Ok in Hx as ([a2 v] & _ & Hx).
    destruct v; [|injection Hx as <-; done]. destruct (exceeds _ _) eqn:Ex; [done|].
    apply exceeds_false in Ex. injection Hx as <-. cbn. rewrite len_app. exact Ex. }
  eapply (for_each_inv level_ok) in H; [done| |split; cbn; [done|lia]].
  intros s1 pattern s2 [_ Hs1] Hp. unfold pattern_step in Hp.
  eapply (for_each_inv level_ok) in Hp; [done| |split; cbn; [change (len []) with 0; lia|done]].
  intros s3 path s4. apply path_step_ok.
Qed.
End Budgets.

(** Grouping neither loses nor adds a path. *)
Definition group_total {K V} (m : list (K * list V)) : Z := fold_right (fun e n => len (snd e) + n) 0 m.

Lemma group_total_push {K V} `{Ord K} (k : K) (v : V) m :
  group_total (bt_push k v m) = group_total m + 1.
Proof.
  unfold bt_push, group_total. induction m as [|[j vs] m IH]; cbn; [done|].
  destruct (cmp k j); cbn; [rewrite len_app| |]; unfold len in *; cbn in *; lia.
Qed.

Lemma group_by_total {A K V} `{Ord K} (key : A -> K) (val : A -> V) xs :
  group_total (group_by key val xs) = len xs.
Proof.
  unfold group_by. assert (forall m, group_total (fold_left (fun m x => bt_push (key x) (val x) m) xs m)
    = group_total m + len xs) as Hm; [|by rewrite Hm].
  induction xs as [|x xs IH]; intros m; cbn [fold_left]; [unfold len; cbn; lia|].
  rewrite IH, group_total_push. unfold len. cbn [length]. lia.
Qed.

Lemma dedup_length {A} `{EqDecision A} (l : list A) : (length (dedup l) <= length l)%nat.
Proof.
  induction l as [|a [|c l] IH]; cbn [dedup]; [done..|]. destruct (decide (a = c)); cbn in *; lia.
Qed.

Section Bounded.
Context {port : AccessPort} {U : UuidText}.

Lemma hits_total generation paths :
  fold_right (fun h n => len (gh_paths h) + n) 0
    (map (hit generation) (group_by pa_current path_evidence paths)) <= len paths.
Proof.
  rewrite <- (group_by_total pa_current path_evidence paths). unfold group_total.
  induction (group_by _ _ _) as [|[id evs] m IH]; cbn; [done|].
  pose proof (dedup_length (sort evs)). pose proof (Permutation_length (sort_Permutation evs)).
  unfold len in *. lia.
Qed.

(** A result keeps every budget of its plan: it has at most the allowed number of paths, and
    each path crosses exactly one relation per pattern, at most the allowed number of hops, and
    names every resource on the way. *)
Theorem retrieve_within_budget ops generation plan result :
  let b := gp_expansion_budget plan in
  0 <= tb_max_relations b -> 0 <= tb_max_paths b -> 0 <= tb_max_branching_per_node b ->
  retrieve (graph_run ops) generation plan = Ok result ->
  fold_right (fun h n => len (gh_paths h) + n) 0 (gr_hits result) <= tb_max_paths b /\
  forall h ev, h ∈ gr_hits result -> ev ∈ gh_paths h ->
    len (pe_steps ev) = len (gp_path_patterns plan) /\
    len (pe_resource_path ev) = len (pe_steps ev) + 1 /\
    len (pe_steps ev) <= tb_max_hops b.
Proof.
  intros b H1 H2 H3 H. apply retrieve_index in H as (index & _ & W & H); [|apply graph_run_wf].
  apply traverse_Ok in H as (final & _ & Hhops & Hf & _ & Hh). rewrite Hh. split.
  - pose proof (hits_total generation (lv_paths final)).
    destruct (explore_ok index plan H1 H2 H3 _ _ Hf) as [Hl _]. fold b in Hl. lia.
  - intros h ev ([id evs] & -> & Hin)%list_elem_of_fmap Hev. cbn in Hev.
    rewrite elem_of_dedup, elem_of_sort in Hev.
    apply group_by_elem in Hin as [-> _]. apply list_elem_of_fmap in Hev as (path & -> & Hp).
    apply elem_of_filter_bool in Hp as [Hp _].
    destruct (explore_ref index plan _ _ (access_inv_init index plan) Hf) as [_ Href].
    rewrite (Href _ (shown_agrees _)) in Hp. apply ref_paths_walk, walk_length in Hp as [Hs Hr]; [|done].
    cbn. unfold len in *. fold b in Hhops. rewrite Hs, Hr. lia.
Qed.
End Bounded.
