(* ===== verification/SearchUnits.v ===== *)
(** * SearchUnits: the byte formats of search units

    search-core knowledge_unit.rs (framing, [Reader]), knowledge_unit/locator.rs and
    knowledge_unit/identity.rs.  Bytes are numbers below 256; a [Reader] is the bytes that
    remain, and a function that appends to an output buffer returns what it appends.  NFC and
    SHA-256 belong to other crates. *)
From stdpp Require Import base gmap sets list strings vector.
From Stdlib Require Import ZArith Lia Ascii.
From S2P Require Import Prelude Text Ordered DocumentValues Manifest AuditKinds AuditChain SearchValues.

Local Open Scope Z_scope.

Inductive UnitCodecError : Type := CodecInvalid (reason : string).
#[global] Instance UnitCodecError_eq_dec : EqDecision UnitCodecError.
Proof. solve_decision. Defined.

Definition CResult (A : Type) : Type := Result A UnitCodecError.
Definition codec_err {A} (reason : string) : CResult A := Err (CodecInvalid reason).

(** ** Framing *)

(** [u32::to_be_bytes], [u64::to_be_bytes] and back. *)
Definition be (width : list Z) (n : Z) : list Z := map (fun k => Z.land (Z.shiftr n k) 255) width.
Definition u32_be (n : Z) : list Z := be [24; 16; 8; 0] n.
Definition u64_be (n : Z) : list Z := be [56; 48; 40; 32; 24; 16; 8; 0] n.
Definition from_be (bs : list Z) : Z := fold_left (fun acc b => acc * 256 + b) bs 0.

Definition write_u32 (value : Z) : CResult (list Z) :=
  match u32_try_from value with
  | Some v => Ok (u32_be v)
  | None => codec_err "length"
  end.

Definition write_frame (value : list Z) : CResult (list Z) :=
  let? n := write_u32 (len value) in Ok (n ++ value).

(** Reading: a value and the bytes that remain after it. *)
Definition Read (A : Type) : Type := list Z -> CResult (A * list Z).

Definition remaining (input : list Z) : Z := len input.

Definition r_take (size : Z) : Read (list Z) := fun input =>
  if remaining input <? size then codec_err "truncated bytes"
  else Ok (take (Z.to_nat size) input, drop (Z.to_nat size) input).

Definition r_byte : Read Z := fun input =>
  let? ' (bs, input) := r_take 1 input in Ok (unwrap_or 0 (head bs), input).

Definition r_u32 : Read Z := fun input =>
  let? ' (bs, input) := r_take 4 input in Ok (from_be bs, input).

Definition r_u64 : Read Z := fun input =>
  let? ' (bs, input) := r_take 8 input in Ok (from_be bs, input).

Definition r_frame : Read (list Z) := fun input =>
  let? ' (size, input) := r_u32 input in r_take size input.

Definition r_finish (input : list Z) : CResult unit :=
  if negb (remaining input =? 0) then codec_err "trailing bytes" else Ok tt.

(** [for _ in 0..count { v.push(read(&mut input)?) }]. *)
Fixpoint r_many {A E} (count : nat) (read : list Z -> Result (A * list Z) E)
    : list Z -> Result (list A * list Z) E := fun input =>
  match count with
  | O => Ok ([], input)
  | S count =>
      let? ' (x, input) := read input in
      let? ' (xs, input) := r_many count read input in
      Ok (x :: xs, input)
  end.

(** ** locator.rs *)

Inductive DocxStep : Type :=
| BodyBlock (i : Z)
| Row (i : Z)
| Cell (i : Z)
| CellBlock (i : Z).
#[global] Instance DocxStep_eq_dec : EqDecision DocxStep.
Proof. solve_decision. Defined.

Inductive PptxTextSlot : Type :=
| ShapeParagraph (paragraph : Z)
| TableCellParagraph (row col paragraph : Z).
#[global] Instance PptxTextSlot_eq_dec : EqDecision PptxTextSlot.
Proof. solve_decision. Defined.

Inductive NativeLocator : Type :=
| LDocx (steps : list DocxStep)
| LSpreadsheet (sheet_ordinal row col : Z)
| LPptx (slide_ordinal : Z) (shape_path : list Z) (text_slot : PptxTextSlot)
| LPdf (page_index char_start char_end : Z)
| LText (line_start line_end : Z)
| LCsv (record field : Z)
| LHtml (text_node_path : list Z)
| LArchive (members : list string) (inner : NativeLocator).
#[global] Instance NativeLocator_eq_dec : EqDecision NativeLocator.
Proof. solve_decision. Defined.

Section Units.
Context {N : Unicode}.

Definition is_nfc (value : string) : bool := nfc value == value.

Definition validate_logical_path (value : string) : CResult unit :=
  if (value == EmptyString) || negb (is_nfc value) || starts_with value 47
     || contains_char value 92 || existsb is_control (chars value)
     || (u32_max <? str_len value)
     || existsb (fun part => (part == EmptyString) || (part == "."%string) || (part == ".."%string))
          (split_at_any [47] value)
  then codec_err "logical path"
  else Ok tt.

Definition validate_archive_member (value : string) : CResult unit := validate_logical_path value.

(** [as_chunks::<3>] without remainder, every chunk a row, a cell and a block. *)
Fixpoint docx_triplets (steps : list DocxStep) : bool :=
  match steps with
  | [] => true
  | Row _ :: Cell _ :: CellBlock _ :: rest => docx_triplets rest
  | _ => false
  end.

Definition validate_docx_steps (steps : list DocxStep) : CResult unit :=
  match steps with
  | BodyBlock _ :: rest =>
      if negb (docx_triplets rest) then codec_err "Docx step grammar" else Ok tt
  | _ => codec_err "Docx step grammar"
  end.

(** The bytes of ["native-locator:v1\0"]. *)
Definition LOCATOR_PREFIX : list Z := bytes "native-locator:v1" ++ [0].

Definition docx_step_bytes (step : DocxStep) : list Z :=
  match step with
  | BodyBlock i => 1 :: u32_be i
  | Row i => 2 :: u32_be i
  | Cell i => 3 :: u32_be i
  | CellBlock i => 4 :: u32_be i
  end.

Definition text_slot_bytes (slot : PptxTextSlot) : list Z :=
  match slot with
  | ShapeParagraph paragraph => 1 :: u32_be paragraph
  | TableCellParagraph row col paragraph => 2 :: flat_map u32_be [row; col; paragraph]
  end.

(** The loop over the members of an archive locator. *)
Fixpoint member_frames (members : list string) : CResult (list Z) :=
  match members with
  | [] => Ok []
  | member :: members =>
      try? validate_archive_member member in
      let? frame := write_frame (bytes member) in
      let? rest := member_frames members in
      Ok (frame ++ rest)
  end.

Definition is_archive (l : NativeLocator) : bool :=
  match l with LArchive _ _ => true | _ => false end.

Fixpoint locator_encode (self : NativeLocator) : CResult (list Z) :=
  let? body :=
    match self with
    | LDocx steps =>
        try? validate_docx_steps steps in
        let? n := write_u32 (len steps) in
        Ok (1 :: n ++ flat_map docx_step_bytes steps)
    | LSpreadsheet sheet_ordinal row col => Ok (2 :: flat_map u32_be [sheet_ordinal; row; col])
    | LPptx slide_ordinal shape_path text_slot =>
        if is_empty shape_path then codec_err "empty shape path"
        else
          let? n := write_u32 (len shape_path) in
          Ok (3 :: u32_be slide_ordinal ++ n ++ flat_map u32_be shape_path
              ++ text_slot_bytes text_slot)
    | LPdf page_index char_start char_end =>
        if char_end <=? char_start then codec_err "PDF range"
        else Ok (4 :: flat_map u32_be [page_index; char_start; char_end])
    | LText line_start line_end =>
        if line_end <=? line_start then codec_err "text range"
        else Ok (5 :: flat_map u32_be [line_start; line_end])
    | LCsv record field => Ok (6 :: flat_map u32_be [record; field])
    | LHtml text_node_path =>
        if is_empty text_node_path then codec_err "empty HTML path"
        else
          let? n := write_u32 (len text_node_path) in
          Ok (7 :: n ++ flat_map u32_be text_node_path)
    | LArchive members inner =>
        if is_empty members || is_archive inner then codec_err "archive nesting"
        else
          let? n := write_u32 (len members) in
          let? frames := member_frames members in
          let? inner := locator_encode inner in
          let? frame := write_frame inner in
          Ok (8 :: n ++ frames ++ frame)
    end in
  Ok (LOCATOR_PREFIX ++ body).

Definition read_docx_step : Read DocxStep := fun input =>
  let? ' (tag, input) := r_byte input in
  let? ' (index, input) := r_u32 input in
  if tag =? 1 then Ok (BodyBlock index, input)
  else if tag =? 2 then Ok (Row index, input)
  else if tag =? 3 then Ok (Cell index, input)
  else if tag =? 4 then Ok (CellBlock index, input)
  else codec_err "Docx step tag".

Definition read_text_slot : Read PptxTextSlot := fun input =>
  let? ' (tag, input) := r_byte input in
  if tag =? 1 then
    let? ' (paragraph, input) := r_u32 input in Ok (ShapeParagraph paragraph, input)
  else if tag =? 2 then
    let? ' (row, input) := r_u32 input in
    let? ' (col, input) := r_u32 input in
    let? ' (paragraph, input) := r_u32 input in
    Ok (TableCellParagraph row col paragraph, input)
  else codec_err "Pptx text slot tag".

Definition read_member : Read string := fun input =>
  let? ' (frame, input) := r_frame input in
  match from_utf8 frame with
  | None => codec_err "member UTF-8"
  | Some member =>
      try? validate_archive_member member in
      Ok (member, input)
  end.

Definition read_body (inner_decode : list Z -> CResult NativeLocator) (tag : Z)
    : Read NativeLocator := fun input =>
  if tag =? 1 then
    let? ' (count, input) := r_u32 input in
    if remaining input / 5 <? count then codec_err "Docx step count"
    else
      let? ' (steps, input) := r_many (Z.to_nat count) read_docx_step input in
      try? validate_docx_steps steps in
      Ok (LDocx steps, input)
  else if tag =? 2 then
    let? ' (sheet_ordinal, input) := r_u32 input in
    let? ' (row, input) := r_u32 input in
    let? ' (col, input) := r_u32 input in
    Ok (LSpreadsheet sheet_ordinal row col, input)
  else if tag =? 3 then
    let? ' (slide_ordinal, input) := r_u32 input in
    let? ' (count, input) := r_u32 input in
    if (count =? 0) || (remaining input / 4 <? count) then codec_err "shape path count"
    else
      let? ' (shape_path, input) := r_many (Z.to_nat count) r_u32 input in
      let? ' (text_slot, input) := read_text_slot input in
      Ok (LPptx slide_ordinal shape_path text_slot, input)
  else if tag =? 4 then
    let? ' (page_index, input) := r_u32 input in
    let? ' (char_start, input) := r_u32 input in
    let? ' (char_end, input) := r_u32 input in
    if char_end <=? char_start then codec_err "PDF range"
    else Ok (LPdf page_index char_start char_end, input)
  else if tag =? 5 then
    let? ' (line_start, input) := r_u32 input in
    let? ' (line_end, input) := r_u32 input in
    if line_end <=? line_start then codec_err "text range"
    else Ok (LText line_start line_end, input)
  else if tag =? 6 then
    let? ' (record, input) := r_u32 input in
    let? ' (field, input) := r_u32 input in
    Ok (LCsv record field, input)
  else if tag =? 7 then
    let? ' (count, input) := r_u32 input in
    if (count =? 0) || (remaining input / 4 <? count) then codec_err "HTML path count"
    else
      let? ' (text_node_path, input) := r_many (Z.to_nat count) r_u32 input in
      Ok (LHtml text_node_path, input)
  else if tag =? 8 then
    let? ' (count, input) := r_u32 input in
    if (count =? 0) || (remaining input / 4 <? count) then codec_err "archive member count"
    else
      let? ' (members, input) := r_many (Z.to_nat count) read_member input in
      let? ' (inner_bytes, input) := r_frame input in
      if inner_bytes !! length LOCATOR_PREFIX == Some 8 then codec_err "recursive archive locator"
      else
        let? inner := inner_decode inner_bytes in
        if is_archive inner then codec_err "recursive archive locator"
        else Ok (LArchive members inner, input)
  else codec_err "locator tag".

Definition decode_with (inner_decode : list Z -> CResult NativeLocator) (bs : list Z)
    : CResult NativeLocator :=
  let? ' (prefix, input) := r_take (len LOCATOR_PREFIX) bs in
  if prefix != LOCATOR_PREFIX then codec_err "locator prefix"
  else
    let? ' (tag, input) := r_byte input in
    let? ' (value, input) := read_body inner_decode tag input in
    try? r_finish input in
    Ok value.

(** [NativeLocator::decode]: an inner locator is never an archive's, which is rejected before
    it is decoded, so that the recursion has one level. *)
Definition locator_decode (bs : list Z) : CResult NativeLocator :=
  decode_with (decode_with (fun _ => codec_err "recursive archive locator")) bs.
End Units.

(** ** identity.rs *)

Record ResourceVersionRef : Type := {
  vr_source_id : SourceId;
  vr_resource_id : ResourceId;
  vr_source_native_version : string
}.
#[global] Instance ResourceVersionRef_eq_dec : EqDecision ResourceVersionRef.
Proof. solve_decision. Defined.

Record ContentPartRef : Type := {
  cp_source_native_part_id : string;
  cp_logical_path : string;
  cp_ordinal : Z
}.
#[global] Instance ContentPartRef_eq_dec : EqDecision ContentPartRef.
Proof. solve_decision. Defined.

(** [ExtractionProfileId] and [UnitId]. *)
Abbreviation ExtractionProfileId := string.
Abbreviation UnitId := (vec ascii 32).

Definition UNIT_PREFIX : list Z := bytes "knowledge-unit:v1" ++ [0].

Definition ascii_bytes (bs : list Z) : list ascii := map ascii_of_byte bs.
Definition uuid_bytes (u : Uuid) : list Z := map byte_of_ascii (uuid_be u).

Section Identity.
Context {N : Unicode} {D : Digest}.

(** The bytes [UnitId::derive] hashes. *)
Definition unit_preimage (version : ResourceVersionRef) (part : ContentPartRef)
    (profile : ExtractionProfileId) (locator : NativeLocator) (ordinal : Z) : CResult (list Z) :=
  if (vr_source_native_version version == EmptyString)
     || negb (is_nfc (vr_source_native_version version))
     || (cp_source_native_part_id part == EmptyString)
     || negb (is_nfc (cp_source_native_part_id part))
  then codec_err "native version or part ID"
  else
    try? validate_logical_path (cp_logical_path part) in
    let? f1 := write_frame (uuid_bytes (vr_source_id version)) in
    let? f2 := write_frame (uuid_bytes (vr_resource_id version)) in
    let? f3 := write_frame (bytes (vr_source_native_version version)) in
    let? f4 := write_frame (bytes (cp_source_native_part_id part)) in
    let? f5 := write_frame (bytes (cp_logical_path part)) in
    let? f6 := write_frame (u32_be (cp_ordinal part)) in
    let? f7 := write_frame (bytes profile) in
    let? encoded := locator_encode locator in
    let? f8 := write_frame encoded in
    let? f9 := write_frame (u32_be ordinal) in
    Ok (UNIT_PREFIX ++ f1 ++ f2 ++ f3 ++ f4 ++ f5 ++ f6 ++ f7 ++ f8 ++ f9).

Definition UnitId_derive (version : ResourceVersionRef) (part : ContentPartRef)
    (profile : ExtractionProfileId) (locator : NativeLocator) (ordinal : Z) : CResult UnitId :=
  let? input := unit_preimage version part profile locator ordinal in
  Ok (sha256 (ascii_bytes input)).
End Identity.

(** [str::strip_prefix]. *)
Definition strip_text_prefix (prefix value : string) : option string :=
  let n := String.length prefix in
  if String.prefix prefix value then Some (String.substring n (String.length value - n) value)
  else None.

Definition UnitId_parse (value : string) : CResult UnitId :=
  match strip_text_prefix "ku1:" value with
  | None => codec_err "UnitId prefix"
  | Some hex =>
      if negb (str_len hex =? 64) || negb (forallb is_lower_hex (bytes hex))
      then codec_err "UnitId hex"
      else
        match parse_hex32 hex with
        | Some id => Ok id
        | None => codec_err "UnitId hex"
        end
  end.

(** profile.rs [lower_hex]. *)
Definition lower_hex (bs : list ascii) : string := to_hex bs.

Definition UnitId_display (id : UnitId) : string := ("ku1:" ++ lower_hex (vec_to_list id))%string.
