(* ===== verification/SearchUnitProfiles.v ===== *)
(** * SearchUnitProfiles: extraction profiles and the validation of units

    search-core knowledge_unit/profile.rs and the records and validation of
    knowledge_unit.rs.  An [Arc] is the value it points to: the functions that share
    allocations ([share_unit_context], [restamp_source_snapshot]) change no value but the
    snapshot, and are not modelled. *)
From stdpp Require Import base gmap sets list strings vector.
From Stdlib Require Import ZArith Lia Ascii.
From S2P Require Import Prelude Text Ordered DocumentValues Manifest AuditKinds AuditChain.
From S2P Require Import SearchValues SearchGraph SearchUnits.
Local Open Scope Z_scope.

(** ** Formats and budgets *)

Inductive FormatId : Type := Docx | Xlsx | Xlsm | Pptx | Pdf | TextFormat | Csv | Html | Zip.
#[global] Instance FormatId_eq_dec : EqDecision FormatId.
Proof. solve_decision. Defined.

Definition FormatId_tag (f : FormatId) : Z :=
  match f with
  | Docx => 1 | Xlsx => 2 | Xlsm => 3 | Pptx => 4 | Pdf => 5 | TextFormat => 6 | Csv => 7
  | Html => 8 | Zip => 9
  end.

Definition FormatId_from_tag (tag : Z) : CResult FormatId :=
  if tag =? 1 then Ok Docx else if tag =? 2 then Ok Xlsx else if tag =? 3 then Ok Xlsm
  else if tag =? 4 then Ok Pptx else if tag =? 5 then Ok Pdf else if tag =? 6 then Ok TextFormat
  else if tag =? 7 then Ok Csv else if tag =? 8 then Ok Html else if tag =? 9 then Ok Zip
  else codec_err "format tag".

Inductive BudgetKey : Type :=
| InputBytes | ZipEntries | ZipEntryBytes | ZipTotalBytes | ZipDepth | BudgetUnits
| UnitUtf8Bytes | WorkerOutputBytes | XmlDepth | XmlNodes | PdfPages | PdfOperations
| HtmlNodes | CsvRecords | CsvFieldBytes.
#[global] Instance BudgetKey_eq_dec : EqDecision BudgetKey.
Proof. solve_decision. Defined.

Definition BudgetKey_ALL : list BudgetKey :=
  [InputBytes; ZipEntries; ZipEntryBytes; ZipTotalBytes; ZipDepth; BudgetUnits; UnitUtf8Bytes;
   WorkerOutputBytes; XmlDepth; XmlNodes; PdfPages; PdfOperations; HtmlNodes; CsvRecords;
   CsvFieldBytes].

Definition BudgetKey_tag (k : BudgetKey) : Z :=
  match k with
  | InputBytes => 1 | ZipEntries => 2 | ZipEntryBytes => 3 | ZipTotalBytes => 4 | ZipDepth => 5
  | BudgetUnits => 6 | UnitUtf8Bytes => 7 | WorkerOutputBytes => 8 | XmlDepth => 9
  | XmlNodes => 10 | PdfPages => 11 | PdfOperations => 12 | HtmlNodes => 13 | CsvRecords => 14
  | CsvFieldBytes => 15
  end.
#[global] Instance BudgetKey_ord : Ord BudgetKey :=
  fun a b => cmp (BudgetKey_tag a) (BudgetKey_tag b).
#[global] Instance BudgetKey_ord_laws : OrdLaws BudgetKey.
Proof. apply (OrdLaws_inj BudgetKey_tag); [done|]. by intros [] []. Qed.

(** [ALL.get(tag.wrapping_sub(1))]: index 0 wraps around, out of range. *)
Definition BudgetKey_from_tag (tag : Z) : CResult BudgetKey :=
  ok_or
    (opt_filter (fun key => BudgetKey_tag key =? tag)
       (if tag =? 0 then None else BudgetKey_ALL !! Z.to_nat (tag - 1)))
    (CodecInvalid "budget tag").

Inductive FormatSettings : Type :=
| SettingsNone
| SettingsText (charset : string)
| SettingsCsv (charset : string) (delimiter quote : Z)
| SettingsArchive (member_decoder : string).
#[global] Instance FormatSettings_eq_dec : EqDecision FormatSettings.
Proof. solve_decision. Defined.

Abbreviation Hash32 := (vec ascii 32).

Record ExtractionProfileDefinitionV1 : Type := {
  ep_format : FormatId;
  ep_parser_name : string;
  ep_parser_version : string;
  ep_parser_build_sha256 : Hash32;
  ep_native_binary_sha256 : option Hash32;
  ep_scope_revision : Z;
  ep_segmentation_revision : Z;
  ep_normalization_revision : Z;
  ep_locator_revision : Z;
  ep_format_settings : FormatSettings;
  ep_limits : list (BudgetKey * Z)
}.
#[global] Instance ExtractionProfileDefinitionV1_eq_dec : EqDecision ExtractionProfileDefinitionV1.
Proof. solve_decision. Defined.

Definition is_ascii_graphic (b : Z) : bool := in_range 33 126 b.

Definition valid_ascii_id (value : string) : bool :=
  (value != EmptyString) && (str_len value <=? u32_max) && forallb is_ascii_graphic (bytes value).

Section Profiles.
Context {N : Unicode}.

Definition canonical_setting (value : string) : bool :=
  (value != EmptyString) && (str_len value <=? u32_max) && is_nfc value
  && negb (existsb is_control (chars value)).

Definition read_string (bs : list Z) : CResult string :=
  ok_or (from_utf8 bs) (CodecInvalid "profile UTF-8").

Definition read_u32_payload (bs : list Z) : CResult Z :=
  let? ' (value, input) := r_u32 bs in
  try? r_finish input in
  Ok value.

Definition settings_valid (format : FormatId) (settings : FormatSettings) : bool :=
  match format, settings with
  | TextFormat, SettingsText charset => canonical_setting charset
  | Csv, SettingsCsv charset _ _ => canonical_setting charset
  | Zip, SettingsArchive member_decoder => canonical_setting member_decoder
  | (Docx | Xlsx | Xlsm | Pptx | Pdf | Html), SettingsNone => true
  | _, _ => false
  end.

Definition definition_validate (self : ExtractionProfileDefinitionV1) : CResult unit :=
  if negb (valid_ascii_id (ep_parser_name self)) || negb (valid_ascii_id (ep_parser_version self))
  then codec_err "parser identifier"
  else if (ep_format self == Pdf) && is_none (ep_native_binary_sha256 self)
  then codec_err "PDF native pin"
  else if negb (ep_normalization_revision self =? 1) || negb (ep_locator_revision self =? 1)
  then codec_err "profile revision"
  else if negb (settings_valid (ep_format self) (ep_format_settings self))
  then codec_err "format settings"
  else if negb (len (ep_limits self) =? len BudgetKey_ALL)
          || existsb (fun key => negb (bt_contains_key key (ep_limits self))) BudgetKey_ALL
  then codec_err "budget keys"
  else Ok tt.

Definition PROFILE_PREFIX : list Z := bytes "extraction-profile:v1" ++ [0].

Definition hash_bytes (h : Hash32) : list Z := map byte_of_ascii (vec_to_list h).

Definition native_bytes (native : option Hash32) : list Z :=
  match native with
  | None => [0]
  | Some hash => 1 :: hash_bytes hash
  end.

Definition settings_bytes (settings : FormatSettings) : CResult (list Z) :=
  match settings with
  | SettingsNone => Ok [0]
  | SettingsText charset =>
      let? f := write_frame (bytes charset) in Ok (1 :: f)
  | SettingsCsv charset delimiter quote =>
      let? f := write_frame (bytes charset) in Ok (2 :: f ++ [delimiter; quote])
  | SettingsArchive member_decoder =>
      let? f := write_frame (bytes member_decoder) in Ok (3 :: f)
  end.

(** [self.limits[&key]]: the key is present in a valid definition. *)
Definition budget_bytes (limits : list (BudgetKey * Z)) : CResult (list Z) :=
  let? n := write_u32 (len BudgetKey_ALL) in
  Ok (n ++ flat_map
             (fun key => BudgetKey_tag key :: u64_be (unwrap_or 0 (bt_get key limits)))
             BudgetKey_ALL).

Definition definition_encode (self : ExtractionProfileDefinitionV1) : CResult (list Z) :=
  try? definition_validate self in
  let? f1 := write_frame [FormatId_tag (ep_format self)] in
  let? f2 := write_frame (bytes (ep_parser_name self)) in
  let? f3 := write_frame (bytes (ep_parser_version self)) in
  let? f4 := write_frame (hash_bytes (ep_parser_build_sha256 self)) in
  let? f5 := write_frame (native_bytes (ep_native_binary_sha256 self)) in
  let? f6 := write_frame (u32_be (ep_scope_revision self)) in
  let? f7 := write_frame (u32_be (ep_segmentation_revision self)) in
  let? f8 := write_frame (u32_be (ep_normalization_revision self)) in
  let? f9 := write_frame (u32_be (ep_locator_revision self)) in
  let? settings := settings_bytes (ep_format_settings self) in
  let? f10 := write_frame settings in
  let? budgets := budget_bytes (ep_limits self) in
  let? f11 := write_frame budgets in
  Ok (PROFILE_PREFIX ++ f1 ++ f2 ++ f3 ++ f4 ++ f5 ++ f6 ++ f7 ++ f8 ++ f9 ++ f10 ++ f11).

(** [<[u8; 32]>::try_from(slice)]. *)
Definition hash_from (bs : list Z) : option Hash32 :=
  match decide (length (ascii_bytes bs) = 32%nat) with
  | left E => Some (eq_rect _ (vec ascii) (list_to_vec (ascii_bytes bs)) _ E)
  | right _ => None
  end.

Definition read_format (bs : list Z) : CResult FormatId :=
  let? ' (tag, input) := r_byte bs in
  let? value := FormatId_from_tag tag in
  try? r_finish input in
  Ok value.

(** [expect("32 bytes")] of a slice of 32 bytes. *)
Definition read_native (bs : list Z) : CResult (option Hash32) :=
  let? ' (tag, input) := r_byte bs in
  let? ' (value, input) :=
    (if tag =? 0 then Ok (None, input)
     else if tag =? 1 then
       let? ' (hash, input) := r_take 32 input in Ok (hash_from hash, input)
     else codec_err "native pin option") in
  try? r_finish input in
  Ok value.

Definition read_settings (bs : list Z) : CResult FormatSettings :=
  let? ' (tag, input) := r_byte bs in
  let? ' (value, input) :=
    (if tag =? 0 then Ok (SettingsNone, input)
     else if tag =? 1 then
       let? ' (frame, input) := r_frame input in
       let? charset := read_string frame in
       Ok (SettingsText charset, input)
     else if tag =? 2 then
       let? ' (frame, input) := r_frame input in
       let? charset := read_string frame in
       let? ' (delimiter, input) := r_byte input in
       let? ' (quote, input) := r_byte input in
       Ok (SettingsCsv charset delimiter quote, input)
     else if tag =? 3 then
       let? ' (frame, input) := r_frame input in
       let? member_decoder := read_string frame in
       Ok (SettingsArchive member_decoder, input)
     else codec_err "settings tag") in
  try? r_finish input in
  Ok value.

(** The loop over the expected budget keys: the map built so far and the bytes that remain. *)
Definition read_limit (s : list (BudgetKey * Z) * list Z) (expected : BudgetKey)
    : CResult (list (BudgetKey * Z) * list Z) :=
  let '(map, input) := s in
  let? ' (tag, input) := r_byte input in
  let? key := BudgetKey_from_tag tag in
  if key != expected then codec_err "budget order"
  else
    let? ' (value, input) := r_u64 input in
    if bt_contains_key key map then codec_err "budget order"
    else Ok (bt_insert key value map, input).

Definition read_limits (bs : list Z) : CResult (list (BudgetKey * Z)) :=
  let? ' (count, input) := r_u32 bs in
  if negb (count =? 15) then codec_err "budget count"
  else
    let? ' (limits, input) := for_each read_limit ([], input) BudgetKey_ALL in
    try? r_finish input in
    Ok limits.

Definition definition_decode (bs : list Z) : CResult ExtractionProfileDefinitionV1 :=
  let? ' (prefix, input) := r_take (len PROFILE_PREFIX) bs in
  if prefix != PROFILE_PREFIX then codec_err "profile prefix"
  else
    let? ' (f1, input) := r_frame input in
    let? format := read_format f1 in
    let? ' (f2, input) := r_frame input in
    let? parser_name := read_string f2 in
    let? ' (f3, input) := r_frame input in
    let? parser_version := read_string f3 in
    let? ' (f4, input) := r_frame input in
    let? parser_build_sha256 := ok_or (hash_from f4) (CodecInvalid "parser hash") in
    let? ' (f5, input) := r_frame input in
    let? native_binary_sha256 := read_native f5 in
    let? ' (f6, input) := r_frame input in
    let? scope_revision := read_u32_payload f6 in
    let? ' (f7, input) := r_frame input in
    let? segmentation_revision := read_u32_payload f7 in
    let? ' (f8, input) := r_frame input in
    let? normalization_revision := read_u32_payload f8 in
    let? ' (f9, input) := r_frame input in
    let? locator_revision := read_u32_payload f9 in
    let? ' (f10, input) := r_frame input in
    let? format_settings := read_settings f10 in
    let? ' (f11, input) := r_frame input in
    let? limits := read_limits f11 in
    try? r_finish input in
    let value :=
      {| ep_format := format; ep_parser_name := parser_name; ep_parser_version := parser_version;
         ep_parser_build_sha256 := parser_build_sha256;
         ep_native_binary_sha256 := native_binary_sha256; ep_scope_revision := scope_revision;
         ep_segmentation_revision := segmentation_revision;
         ep_normalization_revision := normalization_revision;
         ep_locator_revision := locator_revision; ep_format_settings := format_settings;
         ep_limits := limits |} in
    try? definition_validate value in
    Ok value.
End Profiles.

(** ** Archive plans *)

Record ArchiveReaderNode : Type := {
  an_members : list string;
  an_parser_build_id : string;
  an_definition : ExtractionProfileDefinitionV1
}.
#[global] Instance ArchiveReaderNode_eq_dec : EqDecision ArchiveReaderNode.
Proof. solve_decision. Defined.

Record ArchiveProfilePlan : Type := {
  pl_nodes : list ArchiveReaderNode;
  pl_used_leaf_chains : list (list string)
}.
#[global] Instance ArchiveProfilePlan_eq_dec : EqDecision ArchiveProfilePlan.
Proof. solve_decision. Defined.

(** [slice::starts_with]. *)
Definition starts_with_list (l prefix : list string) : bool := take (length prefix) l == prefix.

Section Plans.
Context {N : Unicode}.

(** The first loop of [validate]: the map of nodes and the previous chain. *)
Definition plan_node (s : list (list string * FormatId) * option (list string))
    (node : ArchiveReaderNode)
    : CResult (list (list string * FormatId) * option (list string)) :=
  let '(nodes, previous) := s in
  if negb (valid_ascii_id (an_parser_build_id node)) then codec_err "archive build ID"
  else
    try? definition_validate (an_definition node) in
    try? for_each (fun _ member => validate_archive_member member) tt (an_members node) in
    if is_some_and previous (fun chain => bool_decide (cmp chain (an_members node) <> Lt))
    then codec_err "archive node order"
    else if bt_contains_key (an_members node) nodes then codec_err "duplicate archive node"
    else Ok (bt_insert (an_members node) (ep_format (an_definition node)) nodes,
             Some (an_members node)).

(** A node below the root: every proper prefix of its chain is an archive. *)
Definition plan_prefixes (nodes : list (list string * FormatId)) (node : ArchiveReaderNode)
    : CResult unit :=
  if is_empty (an_members node)
     || existsb (fun length => bt_get (take length (an_members node)) nodes != Some Zip)
          (seq 0 (length (an_members node)))
  then codec_err "missing ZIP prefix"
  else Ok tt.

Definition plan_leaf (nodes : list (list string * FormatId))
    (leaves : list (list string * unit)) (chain : list string)
    : CResult (list (list string * unit)) :=
  if is_empty chain || bt_contains_key chain leaves
     || is_none_or (bt_get chain nodes) (fun format => format == Zip)
  then codec_err "archive leaf"
  else Ok (bt_insert chain tt leaves).

Definition plan_used (leaves : list (list string * unit)) (node : ArchiveReaderNode)
    : CResult unit :=
  if ep_format (an_definition node) == Zip then
    if negb (existsb
               (fun leaf => starts_with_list leaf (an_members node)
                            && (len (an_members node) <? len leaf)) (map fst leaves))
    then codec_err "unused ZIP node"
    else Ok tt
  else if negb (bt_contains_key (an_members node) leaves) then codec_err "unused leaf node"
  else Ok tt.

Definition ArchiveProfilePlan_validate (self : ArchiveProfilePlan) : CResult unit :=
  match pl_nodes self with
  | [] => codec_err "empty archive plan"
  | root :: rest =>
      if is_empty (pl_used_leaf_chains self) then codec_err "empty archive plan"
      else
        let? ' (nodes, _) := for_each plan_node ([], None) (pl_nodes self) in
        if (an_members root != []) || (ep_format (an_definition root) != Zip)
        then codec_err "archive root"
        else
          try? for_each (fun _ node => plan_prefixes nodes node) tt rest in
          let? leaves := for_each (plan_leaf nodes) [] (pl_used_leaf_chains self) in
          for_each (fun _ node => plan_used leaves node) tt rest
  end.

Definition ARCHIVE_PREFIX : list Z := bytes "extraction-profile:archive:v2" ++ [0].

(** [for x in xs { write(&mut output, x)? }]. *)
Fixpoint write_all {A E} (write : A -> Result (list Z) E) (xs : list A) : Result (list Z) E :=
  match xs with
  | [] => Ok []
  | x :: xs =>
      let? f := write x in
      let? rest := write_all write xs in
      Ok (f ++ rest)
  end.

Definition chain_bytes (members : list string) : CResult (list Z) :=
  let? n := write_u32 (len members) in
  let? frames := write_all (fun member => write_frame (bytes member)) members in
  Ok (n ++ frames).

Definition node_bytes (node : ArchiveReaderNode) : CResult (list Z) :=
  let? chain := chain_bytes (an_members node) in
  let? f1 := write_frame chain in
  let? f2 := write_frame (bytes (an_parser_build_id node)) in
  let? definition := definition_encode (an_definition node) in
  let? f3 := write_frame definition in
  write_frame (f1 ++ f2 ++ f3).

Definition ArchiveProfilePlan_encode (self : ArchiveProfilePlan) : CResult (list Z) :=
  try? ArchiveProfilePlan_validate self in
  let? n := write_u32 (len (pl_nodes self)) in
  let? nodes := write_all node_bytes (pl_nodes self) in
  Ok (ARCHIVE_PREFIX ++ n ++ nodes).

Definition read_chain_member : Read string := fun input =>
  let? ' (frame, input) := r_frame input in
  let? member := read_string frame in
  try? validate_archive_member member in
  Ok (member, input).

Definition read_chain (bs : list Z) : CResult (list string) :=
  let? ' (member_count, chain) := r_u32 bs in
  if remaining chain / 4 <? member_count then codec_err "archive chain count"
  else
    let? ' (members, chain) := r_many (Z.to_nat member_count) read_chain_member chain in
    try? r_finish chain in
    Ok members.

Definition read_node : Read ArchiveReaderNode := fun input =>
  let? ' (node, input) := r_frame input in
  let? ' (chain, node) := r_frame node in
  let? members := read_chain chain in
  let? ' (id, node) := r_frame node in
  let? parser_build_id := read_string id in
  let? ' (bytes, node) := r_frame node in
  let? definition := definition_decode bytes in
  try? r_finish node in
  Ok ({| an_members := members; an_parser_build_id := parser_build_id;
         an_definition := definition |}, input).

Definition ArchiveProfilePlan_decode (bs : list Z) (used_leaf_chains : list (list string))
    : CResult ArchiveProfilePlan :=
  let? ' (prefix, input) := r_take (len ARCHIVE_PREFIX) bs in
  if prefix != ARCHIVE_PREFIX then codec_err "archive profile prefix"
  else
    let? ' (count, input) := r_u32 input in
    if (count =? 0) || (remaining input / 4 <? count) then codec_err "archive node count"
    else
      let? ' (nodes, input) := r_many (Z.to_nat count) read_node input in
      try? r_finish input in
      let plan := {| pl_nodes := nodes; pl_used_leaf_chains := used_leaf_chains |} in
      try? ArchiveProfilePlan_validate plan in
      Ok plan.

(** ** Profile identifiers *)

Definition ExtractionProfileId_parse (value : string) : CResult ExtractionProfileId :=
  match strip_text_prefix "sha256:" value with
  | None => codec_err "profile ID prefix"
  | Some hex =>
      if negb (str_len hex =? 64) || negb (forallb is_lower_hex (bytes hex))
      then codec_err "profile ID hex"
      else Ok value
  end.

Context {D : Digest}.

Definition profile_id_of (encoded : list Z) : ExtractionProfileId :=
  ("sha256:" ++ lower_hex (vec_to_list (sha256 (ascii_bytes encoded))))%string.

Definition for_definition (definition : ExtractionProfileDefinitionV1)
    : CResult ExtractionProfileId :=
  let? encoded := definition_encode definition in Ok (profile_id_of encoded).

Definition for_archive (plan : ArchiveProfilePlan) : CResult ExtractionProfileId :=
  let? encoded := ArchiveProfilePlan_encode plan in Ok (profile_id_of encoded).

(** ** Units *)

Record RawBinding : Type := {
  rw_sha256 : Hash32;
  rw_size_bytes : Z;
  rw_media_type : string
}.
#[global] Instance RawBinding_eq_dec : EqDecision RawBinding.
Proof. solve_decision. Defined.

Inductive UnitKind : Type :=
| Heading | Paragraph | TableCell | SpreadsheetCell | SlideText | PdfText | PlainText | CsvField
| HtmlText.
#[global] Instance UnitKind_eq_dec : EqDecision UnitKind.
Proof. solve_decision. Defined.

(** [text.replace("\r\n", "\n").replace('\r', "\n")] on bytes. *)
Fixpoint replace_crlf (bs : list Z) : list Z :=
  match bs with
  | 13 :: 10 :: rest => 10 :: replace_crlf rest
  | b :: rest => b :: replace_crlf rest
  | [] => []
  end.

Definition normalize_unit_text (text : string) : string :=
  nfc (of_bytes (map (fun b => if b =? 13 then 10 else b) (replace_crlf (bytes text)))).

Definition text_sha256 (text : string) : Hash32 := sha256 (raw_bytes text).

Record UnitProvenance : Type := {
  up_source_snapshot : string;
  up_authoritative_representation_ref : string;
  up_raw : RawBinding;
  up_detected_format : FormatId;
  up_archive_inner_format : option FormatId;
  up_profile : ExtractionProfileId;
  up_parser_build_id : string
}.
#[global] Instance UnitProvenance_eq_dec : EqDecision UnitProvenance.
Proof. solve_decision. Defined.

Record KnowledgeUnit : Type := {
  ku_unit_id : UnitId;
  ku_version : ResourceVersionRef;
  ku_part : ContentPartRef;
  ku_parent_unit_id : option UnitId;
  ku_ordinal : Z;
  ku_kind : UnitKind;
  ku_text : string;
  ku_locator : NativeLocator;
  ku_text_sha256 : Hash32;
  ku_provenance : UnitProvenance
}.

Record UnitAuthorityBinding : Type := {
  ub_version : ResourceVersionRef;
  ub_part : ContentPartRef;
  ub_source_snapshot : string;
  ub_authoritative_representation_ref : string;
  ub_raw : RawBinding;
  ub_detected_format : FormatId;
  ub_archive_inner_format : option FormatId;
  ub_profile : ExtractionProfileId;
  ub_parser_build_id : string;
  ub_archive_plan : option ArchiveProfilePlan
}.

Inductive UnitValidationError : Type :=
| UvCodec (error : UnitCodecError)
| UvInvalid (reason : string).

Definition VResult (A : Type) : Type := Result A UnitValidationError.
Definition invalid_unit {A} (reason : string) : VResult A := Err (UvInvalid reason).

(** [?] on a codec result. *)
Definition from_codec {A} (r : CResult A) : VResult A := map_err UvCodec r.

Definition is_mime_token (token : string) : bool :=
  (token != EmptyString)
  && forallb
       (fun b => is_ascii_lowercase b || is_ascii_digit b
                 || contains [33; 35; 36; 37; 38; 39; 42; 43; 45; 46; 94; 95; 96; 124; 126] b)
       (bytes token).

Definition valid_mime_essence (value : string) : bool :=
  match split_once_slash value with
  | None => false
  | Some (kind, subtype) => is_mime_token kind && is_mime_token subtype
  end.

Definition compatible_kind (format : FormatId) (locator : NativeLocator) (kind : UnitKind)
    : bool :=
  match format, locator with
  | Docx, LDocx steps =>
      match kind with
      | Heading => true
      | Paragraph => len steps =? 1
      | TableCell => 1 <? len steps
      | _ => false
      end
  | _, _ =>
      match format, locator, kind with
      | (Xlsx | Xlsm), LSpreadsheet _ _ _, SpreadsheetCell => true
      | Pptx, LPptx _ _ _, SlideText => true
      | Pdf, LPdf _ _ _, PdfText => true
      | TextFormat, LText _ _, PlainText => true
      | Csv, LCsv _ _, CsvField => true
      | Html, LHtml _, (HtmlText | Heading) => true
      | _, _, _ => false
      end
  end.

Definition binding_valid (b : UnitAuthorityBinding) : bool :=
  negb ((vr_source_native_version (ub_version b) == EmptyString)
        || negb (is_nfc (vr_source_native_version (ub_version b)))
        || (cp_source_native_part_id (ub_part b) == EmptyString)
        || negb (is_nfc (cp_source_native_part_id (ub_part b)))
        || (ub_source_snapshot b == EmptyString)
        || (ub_authoritative_representation_ref b == EmptyString)
        || negb (valid_ascii_id (ub_parser_build_id b))
        || negb (valid_mime_essence (rw_media_type (ub_raw b)))).

(** The archive part of the binding. *)
Definition validate_binding_archive (b : UnitAuthorityBinding) : VResult unit :=
  if ub_detected_format b == Zip then
    match ub_archive_plan b with
    | None => invalid_unit "archive binding"
    | Some plan =>
        if (ub_archive_inner_format b == Some Zip)
           || is_none_or (head (pl_nodes plan))
                (fun root => an_parser_build_id root != ub_parser_build_id b)
        then invalid_unit "archive profile"
        else
          let? profile := from_codec (for_archive plan) in
          if profile != ub_profile b then invalid_unit "archive profile" else Ok tt
    end
  else if is_some (ub_archive_inner_format b) || is_some (ub_archive_plan b)
  then invalid_unit "nonarchive binding"
  else Ok tt.

(** The fields of a unit that must be the binding's. *)
Definition matches_binding (b : UnitAuthorityBinding) (u : KnowledgeUnit) : bool :=
  let p := ku_provenance u in
  (ku_version u == ub_version b) && (ku_part u == ub_part b)
  && (up_source_snapshot p == ub_source_snapshot b)
  && (up_authoritative_representation_ref p == ub_authoritative_representation_ref b)
  && (up_raw p == ub_raw b)
  && (up_detected_format p == ub_detected_format b)
  && negb ((ub_detected_format b != Zip)
           && (up_archive_inner_format p != ub_archive_inner_format b))
  && negb ((ub_detected_format b == Zip) && is_some (ub_archive_inner_format b)
           && (up_archive_inner_format p != ub_archive_inner_format b))
  && (up_profile p == ub_profile b)
  && (up_parser_build_id p == ub_parser_build_id b).

Definition validate_unit_locator (b : UnitAuthorityBinding) (u : KnowledgeUnit) : VResult unit :=
  match ku_locator u, ub_detected_format b with
  | LArchive members inner, Zip =>
      let? leaf_format :=
        ok_or (up_archive_inner_format (ku_provenance u)) (UvInvalid "archive inner format") in
      let? plan := ok_or (ub_archive_plan b) (UvInvalid "archive plan") in
      if negb (contains (pl_used_leaf_chains plan) members)
         || is_none_or (find (fun node => an_members node == members) (pl_nodes plan))
              (fun node => ep_format (an_definition node) != leaf_format)
         || negb (compatible_kind leaf_format inner (ku_kind u))
      then invalid_unit "archive leaf locator"
      else Ok tt
  | LArchive _ _, _ | _, Zip => invalid_unit "archive locator"
  | locator, format =>
      if negb (compatible_kind format locator (ku_kind u)) then invalid_unit "kind locator"
      else Ok tt
  end.

(** The loop state: the next index, the ids and the encoded locators seen so far. *)
Record UnitLoop : Type := {
  ul_index : Z;
  ul_seen_ids : list UnitId;
  ul_seen_locators : list (list Z)
}.

Definition validate_unit (b : UnitAuthorityBinding) (s : UnitLoop) (u : KnowledgeUnit)
    : VResult UnitLoop :=
  let? index := ok_or (u32_try_from (ul_index s)) (UvInvalid "unit count") in
  if negb (ku_ordinal u =? index) || negb (matches_binding b u)
  then invalid_unit "unit authority mismatch"
  else if (ku_text u == EmptyString) || (u32_max <? str_len (ku_text u))
          || (normalize_unit_text (ku_text u) != ku_text u)
  then invalid_unit "unit text"
  else if text_sha256 (ku_text u) != ku_text_sha256 u then invalid_unit "text digest"
  else
    let? locator_bytes := from_codec (locator_encode (ku_locator u)) in
    if contains (ul_seen_locators s) locator_bytes then invalid_unit "duplicate locator"
    else
      try? validate_unit_locator b u in
      let? id :=
        from_codec (UnitId_derive (ku_version u) (ku_part u) (up_profile (ku_provenance u))
                 (ku_locator u) (ku_ordinal u)) in
      if id != ku_unit_id u then invalid_unit "unit ID"
      else if is_some_and (ku_parent_unit_id u) (fun parent => negb (contains (ul_seen_ids s) parent))
      then invalid_unit "parent unit"
      else if contains (ul_seen_ids s) (ku_unit_id u) then invalid_unit "duplicate unit ID"
      else Ok {| ul_index := ul_index s + 1; ul_seen_ids := ku_unit_id u :: ul_seen_ids s;
                 ul_seen_locators := locator_bytes :: ul_seen_locators s |}.

Definition validate_part_units (b : UnitAuthorityBinding) (units : list KnowledgeUnit)
    : VResult unit :=
  if negb (binding_valid b) then invalid_unit "authority binding"
  else
    try? from_codec (validate_logical_path (cp_logical_path (ub_part b))) in
    try? validate_binding_archive b in
    try? for_each (validate_unit b)
           {| ul_index := 0; ul_seen_ids := []; ul_seen_locators := [] |} units in
    Ok tt.
End Plans.

(** ** Pinned hits and cache keys *)

Record EmbeddingCacheKey : Type := {
  ek_embedding_model_id : string;
  ek_unit_id : UnitId;
  ek_text_sha256 : Hash32;
  ek_profile : ExtractionProfileId;
  ek_source_id : SourceId;
  ek_authority_scope_key : string;
  ek_retention_lease_id : string;
  ek_lifetime_scope_id : string
}.

Record VectorHitRef : Type := {
  vh_generation : ProjectionGenerationKey;
  vh_unit_id : UnitId;
  vh_version : ResourceVersionRef;
  vh_part : ContentPartRef;
  vh_authoritative_representation_ref : string;
  vh_raw : RawBinding;
  vh_profile : ExtractionProfileId;
  vh_text_sha256 : Hash32
}.

Record VectorAuthorityInput : Type := {
  va_generation : ProjectionGenerationKey;
  va_version : ResourceVersionRef;
  va_part : ContentPartRef;
  va_authoritative_representation_ref : string;
  va_raw : RawBinding;
  va_profile : ExtractionProfileId;
  va_authority_scope_key : string;
  va_retention_lease_id : string;
  va_lifetime_scope_id : string;
  va_retention_mode : RetentionMode;
  va_lease_expires_at : option Instant
}.

Definition matches_pinned_unit (hit : VectorHitRef) (unit : KnowledgeUnit)
    (pinned : VectorAuthorityInput) : bool :=
  (gk_source_id (va_generation pinned) == vr_source_id (va_version pinned))
  && (vh_generation hit == va_generation pinned)
  && (vh_unit_id hit == ku_unit_id unit)
  && (vh_version hit == ku_version unit)
  && (vh_version hit == va_version pinned)
  && (vh_part hit == ku_part unit)
  && (vh_part hit == va_part pinned)
  && (vh_authoritative_representation_ref hit
        == up_authoritative_representation_ref (ku_provenance unit))
  && (vh_authoritative_representation_ref hit == va_authoritative_representation_ref pinned)
  && (vh_raw hit == up_raw (ku_provenance unit))
  && (vh_raw hit == va_raw pinned)
  && (vh_profile hit == up_profile (ku_provenance unit))
  && (vh_profile hit == va_profile pinned)
  && (vh_text_sha256 hit == ku_text_sha256 unit).

Definition cache_key_matches_authority (key : EmbeddingCacheKey) (unit : KnowledgeUnit)
    (pinned : VectorAuthorityInput) : bool :=
  (ek_source_id key == gk_source_id (va_generation pinned))
  && (ek_source_id key == vr_source_id (va_version pinned))
  && (ek_source_id key == vr_source_id (ku_version unit))
  && (ek_unit_id key == ku_unit_id unit)
  && (ek_text_sha256 key == ku_text_sha256 unit)
  && (ek_profile key == up_profile (ku_provenance unit))
  && (ek_profile key == va_profile pinned)
  && (ek_authority_scope_key key == va_authority_scope_key pinned)
  && (ek_retention_lease_id key == va_retention_lease_id pinned)
  && (ek_lifetime_scope_id key == va_lifetime_scope_id pinned)
  && (ku_version unit == va_version pinned)
  && (ku_part unit == va_part pinned)
  && (up_authoritative_representation_ref (ku_provenance unit)
        == va_authoritative_representation_ref pinned)
  && (up_raw (ku_provenance unit) == va_raw pinned).
