(* ===== verification/SearchUnitCodec.v ===== *)
(** * SearchUnitCodec: reading inverts writing

    A reader and a writer form a [codec] when the reader gives back what was written and
    accepts nothing else, so that every value has one byte form.  The readers of SearchUnits
    compose such codecs; the locator format and the preimage of a unit id follow. *)
From stdpp Require Import base gmap sets list strings vector sorting.
From Stdlib Require Import ZArith Lia Ascii.
From S2P Require Import Prelude Text Ordered DocumentValues Manifest AuditKinds AuditChain.
From S2P Require Import SearchValues SearchUnits AuditTheorems SearchGraph SearchUnitProfiles.
Local Open Scope Z_scope.

(** ** Big-endian numbers *)

Fixpoint be_width (w : nat) : list Z :=
  match w with
  | O => []
  | S w => map (Z.add 8) (be_width w) ++ [0]
  end.

Lemma be_width_nonneg w k : In k (be_width w) -> 0 <= k.
Proof.
  revert k. induction w as [|w IH]; intros k; cbn; [done|].
  rewrite in_app_iff, in_map_iff. intros [(j & <- & Hj)|[<-|[]]]; [apply IH in Hj|]; lia.
Qed.

Lemma be_S w n : be (be_width (S w)) n = be (be_width w) (n / 256) ++ [n mod 256].
Proof.
  unfold be. cbn [be_width]. rewrite map_app. f_equal.
  - rewrite map_map. apply map_ext_in. intros k Hk%be_width_nonneg. f_equal.
    change 256 with (2 ^ 8). rewrite <- Z.shiftr_div_pow2, Z.shiftr_shiftr by lia.
    done.
  - cbn. rewrite Z.shiftr_0_r. change 255 with (Z.ones 8). by rewrite Z.land_ones.
Qed.

Lemma from_be_snoc l b : from_be (l ++ [b]) = from_be l * 256 + b.
Proof. unfold from_be. by rewrite fold_left_app. Qed.

Lemma length_be_width w : length (be_width w) = w.
Proof. induction w as [|w IH]; [done|]. cbn. rewrite length_app, length_map, IH. cbn. lia. Qed.

Lemma length_be ks n : length (be ks n) = length ks.
Proof. apply length_map. Qed.

Lemma be_byte ks n : Forall byte (be ks n).
Proof.
  unfold be. apply Forall_forall. intros x (k & -> & _)%list_elem_of_fmap. unfold byte.
  change 255 with (Z.ones 8). rewrite Z.land_ones by lia. apply Z.mod_pos_bound. lia.
Qed.

Lemma from_be_be w n : 0 <= n < 256 ^ Z.of_nat w -> from_be (be (be_width w) n) = n.
Proof.
  revert n. induction w as [|w IH]; intros n Hn; [cbn in *; lia|].
  rewrite Nat2Z.inj_succ, Z.pow_succ_r in Hn by lia.
  rewrite be_S, from_be_snoc, IH by (split; [apply Z.div_pos; lia|apply Z.div_lt_upper_bound; lia]).
  pose proof (Z.div_mod n 256). lia.
Qed.

Lemma be_from_be w bs :
  Forall byte bs -> length bs = w ->
  be (be_width w) (from_be bs) = bs /\ 0 <= from_be bs < 256 ^ Z.of_nat w.
Proof.
  revert bs. induction w as [|w IH]; intros bs Hb Hl.
  { destruct bs; [|done]. cbn. split; [done|lia]. }
  destruct bs as [|b bs _] using rev_ind; [done|]. rewrite length_app in Hl. cbn in Hl.
  apply Forall_app in Hb as [Hbs Hb]. rewrite Forall_singleton in Hb. unfold byte in Hb.
  destruct (IH bs Hbs ltac:(lia)) as [He Hr].
  rewrite be_S, from_be_snoc. rewrite Nat2Z.inj_succ, Z.pow_succ_r by lia. split; [|lia].
  rewrite Z.div_add_l, (Z.div_small b), Z.add_0_r, He by lia. f_equal. f_equal.
  rewrite Z.add_comm, Z.mod_add, Z.mod_small by lia. done.
Qed.

(** ** Codecs *)

Record codec {A E} (read : list Z -> Result (A * list Z) E) (enc : A -> list Z) (ok : A -> Prop) :
  Prop := {
  read_enc : forall a rest, ok a -> read (enc a ++ rest) = Ok (a, rest);
  enc_read : forall bs a rest, Forall byte bs -> read bs = Ok (a, rest) ->
    bs = enc a ++ rest /\ ok a
}.

Lemma rest_bytes {A E} (read : list Z -> Result (A * list Z) E) enc ok bs a rest :
  codec read enc ok -> Forall byte bs -> read bs = Ok (a, rest) -> Forall byte rest.
Proof.
  intros C Hb Hr. destruct (enc_read _ _ _ C _ _ _ Hb Hr) as [-> _].
  by apply Forall_app in Hb as [_ Hb].
Qed.

Definition is_u32 (n : Z) : Prop := 0 <= n <= u32_max.
Definition is_u64 (n : Z) : Prop := 0 <= n < 2 ^ 64.

Lemma take_codec n : 0 <= n -> codec (r_take n) (fun bs => bs) (fun bs => len bs = n).
Proof.
  intros Hpos. split.
  - intros bs rest Hl. unfold r_take, remaining. rewrite len_app.
    pose proof (len_nonneg rest). destruct (Z.ltb_spec (len bs + len rest) n); [lia|].
    unfold len in Hl. rewrite take_app_length', drop_app_length' by lia. done.
  - intros bs a rest _. unfold r_take, remaining.
    destruct (Z.ltb_spec (len bs) n) as [|Hn]; [done|]. intros [= <- <-].
    rewrite take_drop. split; [done|]. unfold len in *. rewrite length_take. lia.
Qed.

Lemma byte_codec : codec r_byte (fun b => [b]) byte.
Proof.
  split.
  - intros b rest Hb. unfold r_byte. by rewrite (read_enc _ _ _ (take_codec 1 ltac:(lia)) [b] rest).
  - intros bs b rest Hbs H. unfold r_byte in H. apply rbind_Ok in H as ([l r] & H1 & H).
    injection H as <- <-.
    destruct (enc_read _ _ _ (take_codec 1 ltac:(lia)) _ _ _ Hbs H1) as [-> Hl].
    destruct l as [|x [|y l]]; unfold len in Hl; cbn in Hl; try lia. cbn. split; [done|].
    by inversion Hbs.
Qed.

Lemma be_codec w (read : Read Z) (width : list Z) :
  width = be_width w ->
  (forall input, read input = let? ' (bs, input) := r_take (Z.of_nat w) input in Ok (from_be bs,
    input)) ->
  codec read (be width) (fun n => 0 <= n < 256 ^ Z.of_nat w).
Proof.
  intros -> Hr. split.
  - intros n rest Hn. rewrite Hr, (read_enc _ _ _ (take_codec (Z.of_nat w) ltac:(lia)));
      [|unfold len; by rewrite length_be, length_be_width].
    cbn. by rewrite from_be_be.
  - intros bs n rest Hb H. rewrite Hr in H. apply rbind_Ok in H as ([l r] & H1 & H).
    injection H as <- <-.
    destruct (enc_read _ _ _ (take_codec (Z.of_nat w) ltac:(lia)) _ _ _ Hb H1) as [-> Hl].
    apply Forall_app in Hb as [Hb _].
    destruct (be_from_be w l Hb) as [-> Hn]; [unfold len in Hl; lia|].
    done.
Qed.

Lemma codec_ok_ext {A E} (read : list Z -> Result (A * list Z) E) enc (ok ok' : A -> Prop) :
  (forall a, ok a <-> ok' a) -> codec read enc ok -> codec read enc ok'.
Proof.
  intros He [H1 H2]. split.
  - intros a rest Ha. apply H1, He, Ha.
  - intros bs a rest Hb Hr. rewrite <- He. by apply H2.
Qed.

Lemma u32_codec : codec r_u32 u32_be is_u32.
Proof.
  eapply codec_ok_ext; [|apply (be_codec 4); done].
  intros n. unfold is_u32, u32_max. change (256 ^ Z.of_nat 4) with (2 ^ 32). lia.
Qed.

Lemma u64_codec : codec r_u64 u64_be is_u64.
Proof. apply (be_codec 8); done. Qed.

(** A frame: its length, then its bytes. *)
Definition frame_bytes (bs : list Z) : list Z := u32_be (len bs) ++ bs.

Lemma frame_codec : codec r_frame frame_bytes (fun bs => len bs <= u32_max).
Proof.
  split.
  - intros bs rest Hl. unfold r_frame, frame_bytes. rewrite <- app_assoc.
    rewrite (read_enc _ _ _ u32_codec) by (unfold is_u32; pose proof (len_nonneg bs); lia). cbn.
    by apply (read_enc _ _ _ (take_codec (len bs) (len_nonneg bs))).
  - intros bs a rest Hb H. unfold r_frame in H. apply rbind_Ok in H as ([n r] & H1 & H).
    destruct (enc_read _ _ _ u32_codec _ _ _ Hb H1) as [-> Hn]. apply Forall_app in Hb as [_ Hb].
    destruct (enc_read _ _ _ (take_codec n (proj1 Hn)) _ _ _ Hb H) as [-> <-].
    unfold frame_bytes. rewrite <- app_assoc. split; [done|]. unfold is_u32 in Hn. lia.
Qed.

Lemma many_codec {A E} (read : list Z -> Result (A * list Z) E) enc ok n :
  codec read enc ok ->
  codec (r_many n read) (flat_map enc) (fun xs => length xs = n /\ Forall ok xs).
Proof.
  intros C. induction n as [|n IH].
  - split.
    + intros [|x xs] rest [Hl _]; done.
    + intros bs xs rest _ [= <- <-]. done.
  - split.
    + intros [|x xs] rest [Hl Hok]; [done|]. inversion Hok; subst. injection Hl as Hl.
      cbn. rewrite <- app_assoc, (read_enc _ _ _ C) by done. cbn.
      by rewrite (read_enc _ _ _ IH).
    + intros bs xs rest Hb H. cbn in H. apply rbind_Ok in H as ([x r] & H1 & H).
      apply rbind_Ok in H as ([ys r'] & H2 & H). injection H as <- <-.
      pose proof (rest_bytes _ _ _ _ _ _ C Hb H1) as Hr.
      destruct (enc_read _ _ _ C _ _ _ Hb H1) as [-> Hx].
      destruct (enc_read _ _ _ IH _ _ _ Hr H2) as [-> [Hl Hys]]. cbn.
      rewrite <- app_assoc. split; [done|]. split; [by rewrite Hl|by constructor].
Qed.

(** [write_u32] and [write_frame] write these when the length fits. *)
Lemma write_u32_Ok n out : 0 <= n -> write_u32 n = Ok out <-> n <= u32_max /\ out = u32_be n.
Proof.
  intros Hn. unfold write_u32, u32_try_from.
  destruct (Z.leb_spec 0 n), (Z.leb_spec n u32_max); cbn; try lia; split; intros; simplify_eq;
    try done.
  - naive_solver.
  - lia.
Qed.

Lemma write_frame_Ok bs out :
  write_frame bs = Ok out <-> len bs <= u32_max /\ out = frame_bytes bs.
Proof.
  unfold write_frame, frame_bytes. split.
  - intros H. apply rbind_Ok in H as (n & Hn & H). injection H as <-.
    by apply write_u32_Ok in Hn as [Hl ->]; [|apply len_nonneg].
  - intros [Hl ->]. apply rbind_Ok. exists (u32_be (len bs)). split; [|done].
    apply write_u32_Ok; [apply len_nonneg|done].
Qed.

(** ** The parts of a locator *)

Definition docx_step_typed (s : DocxStep) : Prop :=
  match s with BodyBlock i | Row i | Cell i | CellBlock i => is_u32 i end.

Definition text_slot_typed (s : PptxTextSlot) : Prop :=
  match s with
  | ShapeParagraph paragraph => is_u32 paragraph
  | TableCellParagraph row col paragraph => is_u32 row /\ is_u32 col /\ is_u32 paragraph
  end.

(** A Rust [str]: its bytes are UTF-8. *)
Definition str_typed (s : string) : Prop := from_utf8 (bytes s) = Some s.

(** [dec C]: what a successful read of codec [C] consumed. *)
Ltac dec C :=
  match goal with
  | Hb : Forall byte ?bs, H : _ ?bs = Ok (_, _) |- _ =>
      let Hx := fresh "Hx" in
      destruct (enc_read _ _ _ C _ _ _ Hb H) as [-> Hx]; clear H;
      apply Forall_app in Hb as [_ Hb]
  end.

(** [bind_step]: one step of a successful read. *)
Ltac bind_step H := apply rbind_Ok in H as ([? ?] & ? & H).

Ltac dec_all :=
  repeat match goal with H : rbind _ _ = Ok _ |- _ => bind_step H end;
  repeat first [dec u32_codec | dec byte_codec].

Ltac enc C := rewrite (read_enc _ _ _ C); [cbn [rbind]|].

Ltac tag_case H :=
  match type of H with
  | (if ?t =? ?k then _ else _) = _ => destruct (Z.eqb_spec t k) as [->|?]
  end.

Lemma docx_step_codec : codec read_docx_step docx_step_bytes docx_step_typed.
Proof.
  split.
  - intros s rest Hs. unfold read_docx_step. destruct s; cbn [docx_step_bytes docx_step_typed] in *;
      rewrite <- app_comm_cons;
      change (?t :: u32_be i ++ rest) with ([t] ++ (u32_be i ++ rest));
      (enc byte_codec; [|unfold byte; lia]); by enc u32_codec.
  - intros bs s rest Hb H. unfold read_docx_step in H. bind_step H. bind_step H.
    dec byte_codec. dec u32_codec.
    repeat (match type of H with (if ?z =? ?k then _ else _) = _ =>
      destruct (Z.eqb_spec z k) as [->|_] end;
      [injection H as <- <-; split; [by rewrite <- app_comm_cons|done]|]).
    done.
Qed.

Lemma text_slot_codec : codec read_text_slot text_slot_bytes text_slot_typed.
Proof.
  split.
  - intros s rest Hs. unfold read_text_slot.
    destruct s; cbn [text_slot_bytes text_slot_typed flat_map] in *;
      rewrite <- app_comm_cons.
    + change (1 :: ?x) with ([1] ++ x). enc byte_codec; [|unfold byte; lia]. cbn [Z.eqb Pos.eqb].
      by enc u32_codec.
    + change (2 :: ?x) with ([2] ++ x). enc byte_codec; [|unfold byte; lia]. cbn [Z.eqb Pos.eqb].
      rewrite app_nil_r, <- !app_assoc. destruct Hs as (? & ? & ?).
      do 2 (enc u32_codec; [|done]). by enc u32_codec.
  - intros bs s rest Hb H. unfold read_text_slot in H. bind_step H. dec byte_codec.
    destruct (Z.eqb_spec z 1) as [->|_].
    { bind_step H. dec u32_codec. injection H as <- <-. split; [by rewrite <- app_comm_cons|done]. }
    destruct (Z.eqb_spec z 2) as [->|_]; [|done].
    do 3 bind_step H. do 3 dec u32_codec. injection H as <- <-.
    cbn [text_slot_bytes flat_map text_slot_typed]. rewrite app_nil_r.
    split; [|done]. cbn [app]. by rewrite <- !app_assoc.
Qed.

Lemma from_utf8_Some bs s : Forall byte bs -> from_utf8 bs = Some s -> bytes s = bs /\ str_typed s.
Proof.
  intros Hb H. unfold str_typed. pose proof H as H'. unfold from_utf8 in H.
  destruct (_ && _); [|done]. injection H as <-. by rewrite bytes_of_bytes.
Qed.

Section Locator.
Context {N : Unicode}.

Definition member_valid (m : string) : Prop :=
  str_typed m /\ validate_archive_member m = Ok tt /\ str_len m <= u32_max.

Definition member_bytes (m : string) : list Z := frame_bytes (bytes m).

Lemma member_codec : codec read_member member_bytes member_valid.
Proof.
  split.
  - intros m rest (Hs & Hv & Hl). unfold read_member, member_bytes.
    enc frame_codec; [|by rewrite <- str_len_bytes]. rewrite Hs, Hv. done.
  - intros bs m rest Hb H. unfold read_member in H. apply rbind_Ok in H as ([f r] & H1 & H).
    destruct (enc_read _ _ _ frame_codec _ _ _ Hb H1) as [-> Hl].
    apply Forall_app in Hb as [Hb _]. unfold frame_bytes in Hb. apply Forall_app in Hb as [_ Hb].
    destruct (from_utf8 f) as [s|] eqn:E; [|done]. apply rbind_Ok in H as ([] & Hv & H).
    injection H as <- <-. destruct (from_utf8_Some _ _ Hb E) as [<- Ht].
    split; [done|]. split_and!; [done..|]. by rewrite str_len_bytes.
Qed.

Lemma member_frames_Ok ms out :
  Forall str_typed ms ->
  member_frames ms = Ok out <-> Forall member_valid ms /\ out = flat_map member_bytes ms.
Proof.
  intros Ht. revert out. induction Ht as [|m ms Hm _ IH]; intros out; cbn [member_frames flat_map].
  - split; [intros [= <-]; by split|by intros [_ ->]].
  - split.
    + intros H. apply rbind_Ok in H as ([] & Hv & H). apply rbind_Ok in H as (f & Hf & H).
      apply rbind_Ok in H as (r & Hr & H). injection H as <-.
      apply write_frame_Ok in Hf as [Hl ->]. apply IH in Hr as [Hr ->].
      split; [|done]. constructor; [|done]. by rewrite <- str_len_bytes in Hl.
    + intros [Hv ->]. inversion Hv as [|? ? (_ & Hm1 & Hl) Hms]; subst. rewrite Hm1. cbn.
      apply rbind_Ok. exists (member_bytes m).
      split; [apply write_frame_Ok; by rewrite <- str_len_bytes|].
      apply rbind_Ok. exists (flat_map member_bytes ms). split; [by apply IH|done].
Qed.

(** ** Locators *)

(** The fields are of the types the code gives them. *)
Fixpoint locator_typed (l : NativeLocator) : Prop :=
  match l with
  | LDocx steps => Forall docx_step_typed steps
  | LSpreadsheet a b c | LPdf a b c => is_u32 a /\ is_u32 b /\ is_u32 c
  | LPptx slide path slot => is_u32 slide /\ Forall is_u32 path /\ text_slot_typed slot
  | LText a b | LCsv a b => is_u32 a /\ is_u32 b
  | LHtml path => Forall is_u32 path
  | LArchive members inner => Forall str_typed members /\ locator_typed inner
  end.

(** The one byte form of a locator, after the prefix. *)
Fixpoint payload (l : NativeLocator) : list Z :=
  match l with
  | LDocx steps => 1 :: u32_be (len steps) ++ flat_map docx_step_bytes steps
  | LSpreadsheet a b c => 2 :: flat_map u32_be [a; b; c]
  | LPptx slide path slot =>
      3 :: u32_be slide ++ u32_be (len path) ++ flat_map u32_be path ++ text_slot_bytes slot
  | LPdf a b c => 4 :: flat_map u32_be [a; b; c]
  | LText a b => 5 :: flat_map u32_be [a; b]
  | LCsv a b => 6 :: flat_map u32_be [a; b]
  | LHtml path => 7 :: u32_be (len path) ++ flat_map u32_be path
  | LArchive members inner =>
      8 :: u32_be (len members) ++ flat_map member_bytes members
      ++ frame_bytes (LOCATOR_PREFIX ++ payload inner)
  end.

(** The locators that have a byte form. *)
Fixpoint locator_valid (l : NativeLocator) : Prop :=
  match l with
  | LDocx steps =>
      Forall docx_step_typed steps /\ validate_docx_steps steps = Ok tt /\ len steps <= u32_max
  | LSpreadsheet a b c => is_u32 a /\ is_u32 b /\ is_u32 c
  | LPptx slide path slot =>
      is_u32 slide /\ Forall is_u32 path /\ text_slot_typed slot /\ path <> [] /\ len path <=
        u32_max
  | LPdf a b c => (is_u32 a /\ is_u32 b /\ is_u32 c) /\ b < c
  | LText a b => (is_u32 a /\ is_u32 b) /\ a < b
  | LCsv a b => is_u32 a /\ is_u32 b
  | LHtml path => Forall is_u32 path /\ path <> [] /\ len path <= u32_max
  | LArchive members inner =>
      Forall member_valid members /\ members <> [] /\ len members <= u32_max /\
      is_archive inner = false /\ locator_valid inner /\
      len (LOCATOR_PREFIX ++ payload inner) <= u32_max
  end.

Lemma locator_valid_typed l : locator_valid l -> locator_typed l.
Proof.
  induction l; cbn; try tauto. intros (Hm & _ & _ & _ & Hi & _). split; [|auto].
  eapply Forall_impl; [exact Hm|]. by intros m [Hs _].
Qed.

Lemma is_empty_false {A} (l : list A) : is_empty l = false <-> l <> [].
Proof. by destruct l. Qed.

Lemma count_Ok n out : write_u32 n = Ok out -> 0 <= n -> n <= u32_max /\ out = u32_be n.
Proof. intros H Hn. by apply write_u32_Ok. Qed.

(** Encoding a typed locator succeeds exactly on the valid ones. *)
Lemma locator_encode_Ok l out :
  locator_typed l ->
  locator_encode l = Ok out <-> locator_valid l /\ out = LOCATOR_PREFIX ++ payload l.
Proof.
  revert out. induction l as [steps| | slide path slot | | | | path|members inner IH];
    intros out Ht; cbn [locator_typed] in Ht; (split; [intros H|intros [Hv ->]]).
  all: try (cbn [locator_encode rbind] in H; injection H as <-; by split).
  all: try (by cbn [locator_encode]).
  - cbn [locator_encode] in H. apply rbind_Ok in H as (body & H & Ho). injection Ho as <-.
    apply rbind_Ok in H as ([] & Hv & H). apply rbind_Ok in H as (n & Hn & H). injection H as <-.
    apply count_Ok in Hn as [Hn ->]; [|apply len_nonneg]. by split.
  - destruct Hv as (_ & Hv & Hn). cbn [locator_encode]. rewrite Hv. cbn.
    by rewrite (proj2 (write_u32_Ok (len steps) _ (len_nonneg steps)) (conj Hn eq_refl)).
  - cbn [locator_encode] in H. apply rbind_Ok in H as (body & H & Ho). injection Ho as <-.
    destruct (is_empty path) eqn:E; [done|]. apply is_empty_false in E.
    apply rbind_Ok in H as (n & Hn & H). injection H as <-.
    apply count_Ok in Hn as [Hn ->]; [|apply len_nonneg]. cbn. naive_solver.
  - destruct Hv as (_ & _ & _ & Hne & Hn). cbn [locator_encode].
    apply is_empty_false in Hne. rewrite Hne.
    by rewrite (proj2 (write_u32_Ok (len path) _ (len_nonneg path)) (conj Hn eq_refl)).
  - cbn [locator_encode] in H. destruct (Z.leb_spec char_end char_start); [done|].
    injection H as <-. by split.
  - destruct Hv as [_ Hlt]. cbn [locator_encode].
    destruct (Z.leb_spec char_end char_start); [lia|done].
  - cbn [locator_encode] in H. destruct (Z.leb_spec line_end line_start); [done|].
    injection H as <-. by split.
  - destruct Hv as [_ Hlt]. cbn [locator_encode].
    destruct (Z.leb_spec line_end line_start); [lia|done].
  - cbn [locator_encode] in H. apply rbind_Ok in H as (body & H & Ho). injection Ho as <-.
    destruct (is_empty path) eqn:E; [done|]. apply is_empty_false in E.
    apply rbind_Ok in H as (n & Hn & H). injection H as <-.
    apply count_Ok in Hn as [Hn ->]; [|apply len_nonneg]. by split.
  - destruct Hv as (_ & Hne & Hn). cbn [locator_encode]. apply is_empty_false in Hne. rewrite Hne.
    by rewrite (proj2 (write_u32_Ok (len path) _ (len_nonneg path)) (conj Hn eq_refl)).
  - destruct Ht as [Hm Hi]. cbn [locator_encode] in H. apply rbind_Ok in H as (body & H & Ho).
    injection Ho as <-. destruct (is_empty members) eqn:E; [done|]. apply is_empty_false in E.
    destruct (is_archive inner) eqn:Ea; [done|]. cbn [orb] in H.
    apply rbind_Ok in H as (n & Hn & H). apply rbind_Ok in H as (fs & Hfs & H).
    apply rbind_Ok in H as (enc & He & H). apply rbind_Ok in H as (f & Hf & H). injection H as <-.
    apply count_Ok in Hn as [Hn ->]; [|apply len_nonneg].
    apply member_frames_Ok in Hfs as [Hfs ->]; [|done].
    apply IH in He as [He ->]; [|done]. apply write_frame_Ok in Hf as [Hf ->]. by split_and!.
  - destruct Ht as [Hm Hi]. destruct Hv as (Hms & Hne & Hn & Ha & Hi' & Hl). cbn [locator_encode].
    apply is_empty_false in Hne. rewrite Hne, Ha. cbn [orb].
    rewrite (proj2 (write_u32_Ok (len members) _ (len_nonneg members)) (conj Hn eq_refl)).
    cbn [rbind].
    rewrite (proj2 (member_frames_Ok members _ Hm) (conj Hms eq_refl)). cbn [rbind].
    rewrite (proj2 (IH _ Hi) (conj Hi' eq_refl)). cbn [rbind].
    by rewrite (proj2 (write_frame_Ok _ _) (conj Hl eq_refl)).
Qed.

Lemma prefix_payload_tag l : (LOCATOR_PREFIX ++ payload l) !! length LOCATOR_PREFIX = head (payload
  l).
Proof.
  rewrite lookup_app_r by done. rewrite Nat.sub_diag. by destruct (payload l).
Qed.

Lemma flat_map_len {A} (enc : A -> list Z) xs k :
  (forall x, k <= len (enc x)) -> k * len xs <= len (flat_map enc xs).
Proof.
  intros Hk. induction xs as [|x xs IH]; cbn [flat_map]; [unfold len; cbn; lia|].
  specialize (Hk x). unfold len in *. rewrite length_app. cbn [length]. nia.
Qed.

(** A count that was checked against the bytes that remain. *)
Lemma count_fits {A} (enc : A -> list Z) xs k rest :
  0 < k -> (forall x, k <= len (enc x)) ->
  (remaining (flat_map enc xs ++ rest) / k <? len xs) = false.
Proof.
  intros Hk He. apply Z.ltb_ge, Z.div_le_lower_bound; [lia|]. unfold remaining. rewrite len_app.
  pose proof (flat_map_len enc xs k He). pose proof (len_nonneg rest). lia.
Qed.

Lemma docx_step_length s : 5 <= len (docx_step_bytes s).
Proof. by destruct s. Qed.

Lemma u32_word_length n : 4 <= len (u32_be n).
Proof. done. Qed.

Lemma member_length m : 4 <= len (member_bytes m).
Proof. unfold member_bytes, frame_bytes. rewrite len_app.
  change (len (u32_be _)) with 4. pose proof (len_nonneg (bytes m)). lia. Qed.

Section Decode.
Context (inner_decode : list Z -> CResult NativeLocator).
Hypothesis inner_sound : forall bs l, Forall byte bs -> inner_decode bs = Ok l ->
  locator_valid l /\ bs = LOCATOR_PREFIX ++ payload l.

(** [tag_case k]: the branch of [read_body] for the tag [k]. *)
Ltac finish := cbn [flat_map payload locator_valid app]; rewrite ?app_nil_r, <- ?app_assoc.

Lemma len_count {A} (xs : list A) n : length xs = Z.to_nat n -> 0 <= n -> len xs = n.
Proof. unfold len. lia. Qed.

Lemma read_body_sound tag input l rest :
  Forall byte input -> read_body inner_decode tag input = Ok (l, rest) ->
  locator_valid l /\ tag :: input = payload l ++ rest.
Proof.
  intros Hb H. unfold read_body in H. tag_case H; [|tag_case H; [|tag_case H; [|tag_case H;
    [|tag_case H; [|tag_case H; [|tag_case H; [|tag_case H; [|done]]]]]]]].
  - bind_step H. dec u32_codec. destruct (_ <? _); [done|]. bind_step H.
    dec (many_codec _ _ _ (Z.to_nat z) docx_step_codec). apply rbind_Ok in H as ([] & Hv & H).
    injection H as <- <-. destruct Hx0 as [Hl Ht]. unfold is_u32 in Hx.
    apply len_count in Hl; [|lia]. finish. rewrite Hl. split; [split_and!; [done..|lia]|done].
  - do 3 bind_step H. do 3 dec u32_codec. injection H as <- <-. by finish.
  - do 2 bind_step H. do 2 dec u32_codec. destruct (Z.eqb_spec z0 0) as [|Hz]; [done|].
    cbn [orb] in H. destruct (_ <? _); [done|]. do 2 bind_step H.
    dec (many_codec _ _ _ (Z.to_nat z0) u32_codec). dec text_slot_codec. injection H as <- <-.
    destruct Hx1 as [Hl Ht]. unfold is_u32 in Hx0. apply len_count in Hl; [|lia].
    finish. rewrite Hl. split; [split_and!; [done..| |lia]|done].
    intros ->. unfold len in Hl. cbn in Hl. lia.
  - do 3 bind_step H. do 3 dec u32_codec. destruct (Z.leb_spec z1 z0); [done|].
    injection H as <- <-. by finish.
  - do 2 bind_step H. do 2 dec u32_codec. destruct (Z.leb_spec z0 z); [done|].
    injection H as <- <-. by finish.
  - do 2 bind_step H. do 2 dec u32_codec. injection H as <- <-. by finish.
  - bind_step H. dec u32_codec. destruct (Z.eqb_spec z 0) as [|Hz]; [done|].
    cbn [orb] in H. destruct (_ <? _); [done|]. bind_step H.
    dec (many_codec _ _ _ (Z.to_nat z) u32_codec). injection H as <- <-.
    destruct Hx0 as [Hl Ht]. unfold is_u32 in Hx. apply len_count in Hl; [|lia].
    finish. rewrite Hl. split; [split_and!; [done| |lia]|done].
    intros ->. unfold len in Hl. cbn in Hl. lia.
  - bind_step H. dec u32_codec. destruct (Z.eqb_spec z 0) as [|Hz]; [done|].
    cbn [orb] in H. destruct (_ <? _); [done|]. do 2 bind_step H.
    dec (many_codec _ _ _ (Z.to_nat z) member_codec).
    match goal with Hf : r_frame ?bs = Ok (?f, ?r) |- _ =>
      destruct (enc_read _ _ _ frame_codec _ _ _ Hb Hf) as [-> Hfl]; clear Hf end.
    apply Forall_app in Hb as [Hb _]. unfold frame_bytes in Hb. apply Forall_app in Hb as [_ Hb].
    case_bool_decide; [done|]. apply rbind_Ok in H as (inner & Hi & H).
    apply inner_sound in Hi as [Hi ->]; [|done].
    destruct (is_archive inner) eqn:Ea; [done|]. injection H as <- <-.
    destruct Hx0 as [Hl Ht]. unfold is_u32 in Hx. apply len_count in Hl; [|lia].
    finish. rewrite Hl. split; [split_and!; try done; [|lia]|done].
    intros ->. unfold len in Hl. cbn in Hl. lia.
Qed.

Lemma decode_with_sound bs l :
  Forall byte bs -> decode_with inner_decode bs = Ok l ->
  locator_valid l /\ bs = LOCATOR_PREFIX ++ payload l.
Proof.
  intros Hb H. unfold decode_with in H. bind_step H.
  dec (take_codec (len LOCATOR_PREFIX) (len_nonneg _)). case_bool_decide as Hp; [|done]. subst.
  cbn [negb] in H. bind_step H. dec byte_codec. bind_step H.
  match goal with Hr : read_body _ _ _ = Ok _ |- _ =>
    apply read_body_sound in Hr as [Hv Hl]; [|done] end.
  apply rbind_Ok in H as ([] & Hf & H). injection H as <-. split; [done|]. f_equal.
  cbn [app]. rewrite Hl. unfold r_finish, remaining in Hf.
  match type of Hf with context [len ?r] => destruct r; [by rewrite app_nil_r|] end.
  unfold len in Hf. cbn in Hf. done.
Qed.

(** What an archive locator needs of the decoder of its inner one. *)
Definition inner_complete : Prop := forall l, locator_valid l -> is_archive l = false ->
  inner_decode (LOCATOR_PREFIX ++ payload l) = Ok l.

Lemma read_body_complete l :
  (is_archive l = true -> inner_complete) -> locator_valid l -> exists tag input, byte tag /\
    payload l = tag :: input /\
    read_body inner_decode tag input = Ok (l, []).
Proof.
  intros Hc Hv.
  destruct l as [steps|a b c|slide path slot|a b c|a b|a b|path|members inner];
    cbn [payload locator_valid] in *; eexists _, _;
    (split; [|split; [reflexivity|]]); try (unfold byte; lia); unfold read_body;
    cbn [Z.eqb Pos.eqb flat_map].
  - destruct Hv as (Ht & Hv & Hn). pose proof (len_nonneg steps).
    enc u32_codec; [|unfold is_u32; lia]. rewrite <- (app_nil_r (flat_map _ _)).
    rewrite (count_fits docx_step_bytes steps 5 [] ltac:(lia) docx_step_length).
    enc (many_codec _ _ _ (Z.to_nat (len steps)) docx_step_codec); [|split; [unfold len; lia|done]].
    by rewrite Hv.
  - destruct Hv as (? & ? & ?). do 2 (enc u32_codec; [|done]). by enc u32_codec.
  - destruct Hv as (? & Hp & ? & Hne & Hn). pose proof (len_nonneg path).
    enc u32_codec; [|done]. enc u32_codec; [|unfold is_u32; lia].
    assert (len path <> 0) by (destruct path; [done|unfold len; cbn; lia]).
    destruct (Z.eqb_spec (len path) 0); [done|]. cbn [orb].
    rewrite (count_fits u32_be path 4 _ ltac:(lia) u32_word_length).
    enc (many_codec _ _ _ (Z.to_nat (len path)) u32_codec); [|split; [unfold len; lia|done]].
    rewrite <- (app_nil_r (text_slot_bytes slot)). by enc text_slot_codec.
  - destruct Hv as ((? & ? & ?) & Hlt). do 3 (enc u32_codec; [|done]).
    destruct (Z.leb_spec c b); [lia|done].
  - destruct Hv as ((? & ?) & Hlt). do 2 (enc u32_codec; [|done]).
    destruct (Z.leb_spec b a); [lia|done].
  - destruct Hv as (? & ?). enc u32_codec; [|done]. by enc u32_codec.
  - destruct Hv as (Hp & Hne & Hn). pose proof (len_nonneg path).
    enc u32_codec; [|unfold is_u32; lia].
    assert (len path <> 0) by (destruct path; [done|unfold len; cbn; lia]).
    destruct (Z.eqb_spec (len path) 0); [done|]. cbn [orb]. rewrite <- (app_nil_r (flat_map _ _)).
    rewrite (count_fits u32_be path 4 _ ltac:(lia) u32_word_length).
    by enc (many_codec _ _ _ (Z.to_nat (len path)) u32_codec); [|split; [unfold len; lia|done]].
  - destruct Hv as (Hm & Hne & Hn & Ha & Hi & Hl). pose proof (len_nonneg members).
    enc u32_codec; [|unfold is_u32; lia].
    assert (len members <> 0) by (destruct members; [done|unfold len; cbn; lia]).
    destruct (Z.eqb_spec (len members) 0); [done|]. cbn [orb].
    rewrite (count_fits member_bytes members 4 _ ltac:(lia) member_length).
    enc (many_codec _ _ _ (Z.to_nat (len members)) member_codec); [|split; [unfold len; lia|done]].
    rewrite <- (app_nil_r (frame_bytes _)). enc frame_codec; [|done].
    rewrite prefix_payload_tag. rewrite bool_decide_eq_false_2 by (by destruct inner).
    rewrite (Hc eq_refl) by done. cbn [rbind]. by rewrite Ha.
Qed.

Lemma decode_with_complete l :
  (is_archive l = true -> inner_complete) -> locator_valid l ->
  decode_with inner_decode (LOCATOR_PREFIX ++ payload l) = Ok l.
Proof.
  intros Hc Hv. destruct (read_body_complete l Hc Hv) as (tag & input & Ht & -> & Hr).
  unfold decode_with. enc (take_codec (len LOCATOR_PREFIX) (len_nonneg _)); [|done].
  rewrite bool_decide_eq_true_2 by done. cbn [negb]. change (tag :: input) with ([tag] ++ input).
  enc byte_codec; [|done]. rewrite Hr. done.
Qed.
End Decode.

(** The locator format is canonical: bytes decode to a locator exactly when they are its
    encoding, so that decoding inverts encoding and no second byte string, with trailing bytes, a
    nested archive or a non-normalized path, is accepted for the same place. *)
Theorem locator_codec bs l :
  Forall byte bs ->
  locator_decode bs = Ok l <-> locator_typed l /\ locator_encode l = Ok bs.
Proof.
  intros Hb. unfold locator_decode.
  assert (forall bs l, Forall byte bs ->
    decode_with (fun _ => codec_err "recursive archive locator") bs = Ok l ->
    locator_valid l /\ bs = LOCATOR_PREFIX ++ payload l) as Hs
    by (intros bs' l'; apply decode_with_sound; by unfold codec_err).
  split.
  - intros H. apply decode_with_sound in H as [Hv ->]; [|done..].
    split; [by apply locator_valid_typed|]. apply locator_encode_Ok; [|done].
    by apply locator_valid_typed.
  - intros [Ht He]. apply locator_encode_Ok in He as [Hv ->]; [|done].
    apply decode_with_complete; [|done]. intros _ l' Hv' Ha.
    apply decode_with_complete; [congruence|done].
Qed.
End Locator.

(** ** Unit identity *)

Lemma frame_inj a b x y :
  len a <= u32_max -> len b <= u32_max -> frame_bytes a ++ x = frame_bytes b ++ y -> a = b /\ x = y.
Proof.
  intros Ha Hb H. pose proof (read_enc _ _ _ frame_codec a x Ha) as H1.
  rewrite H, (read_enc _ _ _ frame_codec b y Hb) in H1. by injection H1 as -> ->.
Qed.

Lemma u32_word_inj a b : is_u32 a -> is_u32 b -> u32_be a = u32_be b -> a = b.
Proof.
  intros Ha Hb H. pose proof (read_enc _ _ _ u32_codec a [] Ha) as H1.
  rewrite H, (read_enc _ _ _ u32_codec b [] Hb) in H1. congruence.
Qed.

Lemma byte_of_ascii_inj : Inj (=) (=) byte_of_ascii.
Proof.
  intros a b H. unfold byte_of_ascii in H. apply N2Z.inj in H.
  by rewrite <- (ascii_N_embedding a), <- (ascii_N_embedding b), H.
Qed.

Lemma uuid_bytes_inj u v :
  (u < 2 ^ 128)%N -> (v < 2 ^ 128)%N -> uuid_bytes u = uuid_bytes v -> u = v.
Proof.
  intros Hu Hv H. apply uuid_be_inj; [done..|]. unfold uuid_bytes in H.
  revert H. apply list_fmap_eq_inj. exact byte_of_ascii_inj.
Qed.

(** The arguments of [derive] are of their types. *)
Definition version_typed (v : ResourceVersionRef) : Prop :=
  (vr_source_id v < 2 ^ 128)%N /\ (vr_resource_id v < 2 ^ 128)%N.

Section Units.
Context {N : Unicode} {D : Digest}.

Lemma locator_encode_inj l l' bs :
  locator_typed l -> locator_typed l' -> locator_encode l = Ok bs -> locator_encode l' = Ok bs -> l
    = l'.
Proof.
  intros Ht Ht' H H'. apply locator_encode_Ok in H as [Hv ->]; [|done].
  apply locator_encode_Ok in H' as [Hv' He]; [|done].
  assert (forall k, locator_valid k -> is_archive k = false ->
    decode_with (fun _ => codec_err "recursive archive locator") (LOCATOR_PREFIX ++ payload k) = Ok k)
    as Hc by (intros k Hk Ha; apply decode_with_complete; [congruence|done]).
  pose proof (decode_with_complete _ l (fun _ => Hc) Hv) as H1.
  rewrite He, (decode_with_complete _ l' (fun _ => Hc) Hv') in H1. congruence.
Qed.

Lemma unit_preimage_inj v p pr l o v' p' pr' l' o' bs :
  version_typed v -> version_typed v' -> is_u32 (cp_ordinal p) -> is_u32 (cp_ordinal p') ->
  locator_typed l -> locator_typed l' -> is_u32 o -> is_u32 o' ->
  unit_preimage v p pr l o = Ok bs -> unit_preimage v' p' pr' l' o' = Ok bs ->
  v = v' /\ p = p' /\ pr = pr' /\ l = l' /\ o = o'.
Proof.
  intros [Hv1 Hv2] [Hv1' Hv2'] Hp Hp' Hl Hl' Ho Ho' H H'. unfold unit_preimage in H, H'.
  destruct (_ || _) in H; [done|]. destruct (_ || _) in H'; [done|].
  repeat match goal with Hx : rbind _ _ = Ok _ |- _ => apply rbind_Ok in Hx as (? & ? & Hx) end.
  repeat match goal with Hx : write_frame _ = Ok _ |- _ => apply write_frame_Ok in Hx as [? ->] end.
  apply Ok_inj in H, H'. rewrite <- H in H'. apply app_inv_head in H'.
  do 8 (apply frame_inj in H' as [? H']; [|done..]).
  rewrite <- (app_nil_r (frame_bytes (u32_be o'))), <- (app_nil_r (frame_bytes (u32_be o))) in H'.
  apply frame_inj in H' as [? _]; [|done..].
  repeat match goal with
  | Hx : uuid_bytes _ = uuid_bytes _ |- _ => apply uuid_bytes_inj in Hx; [|done..]
  | Hx : u32_be _ = u32_be _ |- _ => apply u32_word_inj in Hx; [|done..]
  | Hx : bytes _ = bytes _ |- _ => apply bytes_injective in Hx
  end.
  destruct v as [s r n], v' as [s' r' n'], p as [i q k], p' as [i' q' k'].
  cbn [vr_source_id vr_resource_id vr_source_native_version cp_source_native_part_id cp_logical_path
       cp_ordinal] in *.
  subst. split_and!; try done. by eapply locator_encode_inj.
Qed.

Lemma flat_map_bytes {A} (f : A -> list Z) xs :
  (forall x, Forall byte (f x)) -> Forall byte (flat_map f xs).
Proof. intros Hf. induction xs; cbn; [constructor|]. by apply Forall_app. Qed.

Lemma frame_bytes_byte f : Forall byte f -> Forall byte (frame_bytes f).
Proof. intros Hf. apply Forall_app. split; [apply be_byte|done]. Qed.

Lemma prefix_bytes l : Forall byte l -> Forall byte (LOCATOR_PREFIX ++ l).
Proof. intros Hl. apply Forall_app. split; [by repeat constructor|done]. Qed.

Lemma payload_bytes l : Forall byte (payload l).
Proof.
  assert (forall t bs, 0 <= t < 256 -> Forall byte bs -> Forall byte (t :: bs)) as Hc
    by (by constructor).
  assert (forall xs, Forall byte (flat_map u32_be xs)) as Hu
    by (intros xs; apply flat_map_bytes; intros x; apply be_byte).
  induction l as [steps| |slide path slot| | | |path|members inner IH]; cbn [payload];
    (apply Hc; [lia|]); try apply Hu; rewrite ?Forall_app; split_and!; try apply be_byte;
      try apply Hu.
  - apply flat_map_bytes. intros []; (apply Hc; [lia|apply be_byte]).
  - destruct slot; (apply Hc; [lia|]); [apply be_byte|apply Hu].
  - apply flat_map_bytes. intros m. apply frame_bytes_byte, bytes_byte.
  - by apply frame_bytes_byte, prefix_bytes.
Qed.

(** The byte string that [UnitId_derive] hashes. *)
Definition unit_hashed (version : ResourceVersionRef) (part : ContentPartRef)
    (profile : ExtractionProfileId) (locator : NativeLocator) (ordinal : Z) : list (list ascii) :=
  match unit_preimage version part profile locator ordinal with
  | Ok bs => [ascii_bytes bs]
  | Err _ => []
  end.

Lemma unit_preimage_bytes v p pr l o bs :
  unit_preimage v p pr l o = Ok bs -> locator_typed l -> Forall byte bs.
Proof.
  intros H Hl. unfold unit_preimage in H. destruct (_ || _) in H; [done|].
  repeat match goal with Hx : rbind _ _ = Ok _ |- _ => apply rbind_Ok in Hx as (? & ? & Hx) end.
  repeat match goal with Hx : write_frame _ = Ok _ |- _ => apply write_frame_Ok in Hx as [? ->] end.
  apply Ok_inj in H as <-.
  assert (forall u, Forall byte (uuid_bytes u)) as Hu.
  { intros u. apply Forall_forall. intros z (c & -> & _)%list_elem_of_fmap.
    unfold byte, byte_of_ascii. pose proof (N_ascii_bounded c). lia. }
  match goal with Hx : locator_encode _ = Ok _ |- _ =>
    apply locator_encode_Ok in Hx as [_ ->]; [|done] end.
  rewrite !Forall_app. split_and!; try apply frame_bytes_byte; try apply Hu; try apply bytes_byte;
    try apply be_byte.
  - by repeat constructor.
  - apply prefix_bytes, payload_bytes.
Qed.

Lemma ascii_bytes_inj bs bs' :
  Forall byte bs -> Forall byte bs' -> ascii_bytes bs = ascii_bytes bs' -> bs = bs'.
Proof.
  intros Hb Hb' H. apply (f_equal (map byte_of_ascii)) in H. unfold ascii_bytes in H.
  rewrite !map_map in H.
  assert (forall l, Forall byte l -> map (fun x => byte_of_ascii (ascii_of_byte x)) l = l) as Hm.
  { induction 1 as [|b l Hb0 _ IH]; cbn; [done|]. rewrite IH. f_equal.
    unfold byte_of_ascii, ascii_of_byte, byte in *. rewrite N_ascii_embedding; lia. }
  by rewrite !Hm in H.
Qed.

(** A unit id identifies its unit: two derivations that give the same id are of the same
    version, part, profile, locator and ordinal, unless the byte strings they hash are a collision
    of the hash function. *)
Theorem unit_id_identifies v p pr l o v' p' pr' l' o' id :
  version_typed v -> version_typed v' -> is_u32 (cp_ordinal p) -> is_u32 (cp_ordinal p') ->
  locator_typed l -> locator_typed l' -> is_u32 o -> is_u32 o' ->
  UnitId_derive v p pr l o = Ok id -> UnitId_derive v' p' pr' l' o' = Ok id ->
  (v = v' /\ p = p' /\ pr = pr' /\ l = l' /\ o = o')
  \/ collision (unit_hashed v p pr l o) (unit_hashed v' p' pr' l' o').
Proof.
  intros Hv Hv' Hp Hp' Hl Hl' Ho Ho' H H'. unfold UnitId_derive in H, H'.
  apply rbind_Ok in H as (bs & Hb & H). apply rbind_Ok in H' as (bs' & Hb' & H').
  apply Ok_inj in H as <-. apply Ok_inj in H'.
  destruct (decide (ascii_bytes bs' = ascii_bytes bs)) as [He|Hne].
  - left. apply ascii_bytes_inj in He as ->; [|by eapply unit_preimage_bytes..].
    by eapply unit_preimage_inj.
  - right. unfold unit_hashed. rewrite Hb, Hb'. exists (ascii_bytes bs), (ascii_bytes bs').
    split_and!; [by left|by left|done|by rewrite H'].
Qed.
End Units.
