(* ===== verification/SearchVector.v ===== *)
(** * SearchVector: vector contracts over knowledge units (search-core, vector.rs)

    The identity of an embedding model, embeddings bound to a unit and its authority, and the
    manifest of a vector index: checked segment by segment, composed, sealed by a digest and
    checked again against its input.  An [f32] is a float of 24 bits of precision, an [f64] one of
    53, with the operations of SpecFloat; a [FrameHash] is the bytes it was fed. *)
From stdpp Require Import base gmap sets list strings vector sorting.
From Stdlib Require Import ZArith Lia Ascii SpecFloat.
From S2P Require Import Prelude Text Ordered DocumentValues Manifest AuditKinds AuditChain.
From S2P Require Import SearchValues SearchUnits AuditTheorems SearchGraph SearchUnitProfiles.
From S2P Require Import SearchUnitCodec.

Local Open Scope Z_scope.

Inductive VectorContractError : Type :=
| VecInvalid (reason : string)
| VecUnit (error : UnitCodecError).
#[global] Instance VectorContractError_eq_dec : EqDecision VectorContractError.
Proof. solve_decision. Defined.

Definition VecResult (A : Type) : Type := Result A VectorContractError.
Definition vec_err {A} (reason : string) : VecResult A := Err (VecInvalid reason).

(** [?] on a codec result. *)
Definition from_unit {A} (r : CResult A) : VecResult A := map_err VecUnit r.

Definition present (value : string) : bool :=
  negb (is_empty (trim value)) && negb (contains_char value 0).

Definition pinned_revision (value : string) : bool :=
  present value && negb (contains ["main"; "master"; "latest"; "HEAD"]%string value).

Definition valid_digest (value : string) : bool :=
  is_some_and (strip_text_prefix "sha256:" value)
    (fun hex => (str_len hex =? 64) && forallb is_lower_hex (bytes hex)).

Definition digest_string (h : Hash32) : string := ("sha256:" ++ to_hex (vec_to_list h))%string.

(** ** Framed hashing *)

Definition FrameHash : Type := list Z.

Definition domain (name : string) : FrameHash := bytes name ++ [0].

Definition fh_bytes (bs : list Z) (h : FrameHash) : VecResult FrameHash :=
  match u32_try_from (len bs) with
  | Some n => Ok (h ++ u32_be n ++ bs)
  | None => vec_err "frame length"
  end.

(** Consecutive calls of [bytes]; [string], [u32], [u64] and [time] give it these bytes. *)
Fixpoint fh_all (frames : list (list Z)) (h : FrameHash) : VecResult FrameHash :=
  match frames with
  | [] => Ok h
  | frame :: frames => let? h := fh_bytes frame h in fh_all frames h
  end.

(** [i128::to_be_bytes]. *)
Definition i128_be (n : Z) : list Z :=
  be [120; 112; 104; 96; 88; 80; 72; 64; 56; 48; 40; 32; 24; 16; 8; 0] n.

Definition time_bytes (value : option Instant) : list Z :=
  match value with Some value => i128_be value | None => [] end.

(** ** Floats *)

Abbreviation f32 := spec_float.
Abbreviation f64 := spec_float.

Definition is_finite (x : spec_float) : bool :=
  match x with S754_zero _ | S754_finite _ _ _ => true | _ => false end.

(** [f64::from]: exact. *)
Definition f64_from (x : f32) : f64 :=
  match x with
  | S754_finite s m e => binary_normalize 53 1024 (cond_Zopp s (Zpos m)) e s
  | x => x
  end.

Definition f64_zero : f64 := S754_zero false.
Definition f64_one : f64 := S754_finite false 4503599627370496 (-52).
(** The [f64] next to 0.001. *)
Definition f64_milli : f64 := S754_finite false 4611686018427388 (-62).

Definition squared_norm (values : list f32) : f64 :=
  fold_left (fun sum value => SFadd 53 1024 sum (SFmul 53 1024 (f64_from value) (f64_from value)))
    values f64_zero.

(** The bits of an [f32]. *)
Definition f32_bits (x : f32) : Z :=
  let sign (s : bool) : Z := if s then 2 ^ 31 else 0 in
  match x with
  | S754_zero s => sign s
  | S754_infinity s => sign s + 255 * 2 ^ 23
  | S754_nan => 255 * 2 ^ 23 + 2 ^ 22
  | S754_finite s m e =>
      sign s + if Zpos m <? 2 ^ 23 then Zpos m else (e + 149) * 2 ^ 23 + Zpos m
  end.

Definition f32_be (x : f32) : list Z := u32_be (f32_bits x).

(** ** Model identity *)

Inductive VectorPrecision : Type := F32 | F16.
#[global] Instance VectorPrecision_eq_dec : EqDecision VectorPrecision.
Proof. solve_decision. Defined.
Definition VectorPrecision_tag (p : VectorPrecision) : Z := match p with F32 => 1 | F16 => 2 end.

Inductive VectorNormalization : Type := VnNone | VnUnitL2.
#[global] Instance VectorNormalization_eq_dec : EqDecision VectorNormalization.
Proof. solve_decision. Defined.
Definition VectorNormalization_tag (n : VectorNormalization) : Z :=
  match n with VnNone => 1 | VnUnitL2 => 2 end.

Inductive VectorMetric : Type := Dot | Cosine | Euclidean.
#[global] Instance VectorMetric_eq_dec : EqDecision VectorMetric.
Proof. solve_decision. Defined.
Definition VectorMetric_tag (m : VectorMetric) : Z :=
  match m with Dot => 1 | Cosine => 2 | Euclidean => 3 end.

Record EmbeddingModelSpec : Type := {
  es_model_name : string;
  es_model_revision : string;
  es_weights_sha256 : Hash32;
  es_tokenizer_revision : string;
  es_tokenizer_files_sha256 : Hash32;
  es_tokenizer_config_sha256 : Hash32;
  es_unicode_preprocessing : string;
  es_input_preprocessing : string;
  es_query_template : string;
  es_passage_template : string;
  es_pooling : string;
  es_attention_masking : string;
  es_max_tokens : Z;
  es_chunking : string;
  es_truncation : string;
  es_dimension : Z;
  es_precision : VectorPrecision;
  es_normalization : VectorNormalization;
  es_metric : VectorMetric;
  es_runtime_family : string;
  es_runtime_build : string;
  es_native_binary_sha256 : option Hash32;
  es_deterministic_config_sha256 : Hash32
}.

Abbreviation EmbeddingModelId := string.

Definition EmbeddingModelId_parse (value : string) : VecResult EmbeddingModelId :=
  if negb (valid_digest value) then vec_err "embedding model ID" else Ok value.

(** [text.matches("{text}").count()]; the pattern does not overlap itself. *)
Fixpoint count_placeholders (bs : list Z) : Z :=
  match bs with
  | [] => 0
  | b :: rest =>
      (if take 6 bs == bytes "{text}" then 1 else 0) + count_placeholders rest
  end.

Definition spec_valid (self : EmbeddingModelSpec) : bool :=
  negb
    (negb (present (es_model_name self))
     || negb (pinned_revision (es_model_revision self))
     || negb (pinned_revision (es_tokenizer_revision self))
     || negb (present (es_unicode_preprocessing self))
     || negb (present (es_input_preprocessing self))
     || negb (present (es_pooling self))
     || negb (present (es_attention_masking self))
     || negb (present (es_chunking self))
     || negb (present (es_truncation self))
     || negb (present (es_runtime_family self))
     || negb (pinned_revision (es_runtime_build self))
     || (es_max_tokens self =? 0)
     || (es_dimension self =? 0)
     || negb (count_placeholders (bytes (es_query_template self)) =? 1)
     || negb (count_placeholders (bytes (es_passage_template self)) =? 1)).

Definition spec_frames (self : EmbeddingModelSpec) (dimension : Z) : list (list Z) :=
  [bytes (es_model_name self); bytes (es_model_revision self);
   hash_bytes (es_weights_sha256 self); bytes (es_tokenizer_revision self);
   hash_bytes (es_tokenizer_files_sha256 self); hash_bytes (es_tokenizer_config_sha256 self);
   bytes (es_unicode_preprocessing self); bytes (es_input_preprocessing self);
   bytes (es_query_template self); bytes (es_passage_template self); bytes (es_pooling self);
   bytes (es_attention_masking self); u32_be (es_max_tokens self); bytes (es_chunking self);
   bytes (es_truncation self); u32_be dimension;
   [VectorPrecision_tag (es_precision self)]; [VectorNormalization_tag (es_normalization self)];
   [VectorMetric_tag (es_metric self)]; bytes (es_runtime_family self);
   bytes (es_runtime_build self);
   match es_native_binary_sha256 self with Some binary => hash_bytes binary | None => [] end;
   hash_bytes (es_deterministic_config_sha256 self)].

Definition u32_of {E} (value : Z) (e : E) : Result Z E := ok_or (u32_try_from value) e.

Section Vectors.
Context {N : Unicode} {D : Digest}.

Definition fh_finish (h : FrameHash) : Hash32 := sha256 (ascii_bytes h).

Definition validate_and_id (self : EmbeddingModelSpec) : VecResult EmbeddingModelId :=
  if negb (spec_valid self) then vec_err "model specification"
  else
    let? dimension := u32_of (es_dimension self) (VecInvalid "model dimension") in
    let? h := fh_all (spec_frames self dimension) (domain "embedding-model:v1") in
    Ok (digest_string (fh_finish h)).

(** ** Embeddings *)

Definition validate_values (spec : EmbeddingModelSpec) (values : list f32) : VecResult unit :=
  if (len values != es_dimension spec) || existsb (fun value => negb (is_finite value)) values
  then vec_err "vector dimension or finite value"
  else
    let squared := squared_norm values in
    if negb (is_finite squared)
       || ((es_normalization spec == VnUnitL2)
           && SFltb f64_milli (SFabs (SFsub 53 1024 (SFsqrt 53 1024 squared) f64_one)))
       || ((es_metric spec == Cosine) && SFeqb squared f64_zero)
    then vec_err "vector norm"
    else Ok tt.

(** Both zeros are fed as the positive one. *)
Definition value_frame (value : f32) : list Z :=
  f32_be (if SFeqb value (S754_zero false) then S754_zero false else value).

Definition vector_digest (model_id : EmbeddingModelId) (values : list f32) : VecResult Hash32 :=
  let? h := fh_bytes (bytes model_id) (domain "bound-vector:v1") in
  let? n := u32_of (len values) (VecInvalid "vector dimension") in
  let? h := fh_all (u32_be n :: map value_frame values) h in
  Ok (fh_finish h).

Definition hit_for (u : KnowledgeUnit) (pinned : VectorAuthorityInput) : VectorHitRef := {|
  vh_generation := va_generation pinned;
  vh_unit_id := ku_unit_id u;
  vh_version := ku_version u;
  vh_part := ku_part u;
  vh_authoritative_representation_ref := up_authoritative_representation_ref (ku_provenance u);
  vh_raw := up_raw (ku_provenance u);
  vh_profile := up_profile (ku_provenance u);
  vh_text_sha256 := ku_text_sha256 u |}.

Definition valid_unit_kind_and_format (u : KnowledgeUnit) : bool :=
  match ku_locator u, up_detected_format (ku_provenance u),
        up_archive_inner_format (ku_provenance u) with
  | LArchive _ inner, Zip, Some leaf =>
      if leaf != Zip then compatible_kind leaf inner (ku_kind u) else false
  | LArchive _ _, _, _ | _, Zip, _ => false
  | locator, format, None => compatible_kind format locator (ku_kind u)
  | _, _, _ => false
  end.

Definition unit_kind_tag (kind : UnitKind) : Z :=
  match kind with
  | Heading => 1 | Paragraph => 2 | TableCell => 3 | SpreadsheetCell => 4 | SlideText => 5
  | PdfText => 6 | PlainText => 7 | CsvField => 8 | HtmlText => 9
  end.

Definition validate_pinned (u : KnowledgeUnit) (pinned : VectorAuthorityInput)
    : VecResult unit :=
  if (ku_text u == EmptyString) || (normalize_unit_text (ku_text u) != ku_text u)
     || (text_sha256 (ku_text u) != ku_text_sha256 u)
  then vec_err "pinned Unit binding"
  else
    let provenance := ku_provenance u in
    let? id :=
      from_unit (UnitId_derive (ku_version u) (ku_part u) (up_profile provenance)
                   (ku_locator u) (ku_ordinal u)) in
    if (id != ku_unit_id u) || (ku_parent_unit_id u == Some (ku_unit_id u))
       || negb (valid_unit_kind_and_format u)
       || negb (present (up_source_snapshot provenance))
       || negb (present (up_authoritative_representation_ref provenance))
       || negb (present (up_parser_build_id provenance))
       || negb (forallb is_ascii_graphic (bytes (up_parser_build_id provenance)))
       || negb (present (va_authority_scope_key pinned))
       || negb (present (va_retention_lease_id pinned))
       || negb (matches_pinned_unit (hit_for u pinned) u pinned)
    then vec_err "pinned Unit binding"
    else
      let ephemeral := contains [SessionOnly; NoRetention] (va_retention_mode pinned) in
      if Bool.eqb ephemeral (va_lifetime_scope_id pinned == EmptyString)
         || ((va_retention_mode pinned == CacheWithExpiry) && is_none (va_lease_expires_at pinned))
      then vec_err "retention lifetime binding"
      else Ok tt.

Record BoundEmbedding : Type := {
  be_model_id : EmbeddingModelId;
  be_values : list f32;
  be_vector_digest : Hash32;
  be_hit : VectorHitRef;
  be_cache_key : EmbeddingCacheKey
}.

Definition BoundEmbedding_new (spec : EmbeddingModelSpec) (u : KnowledgeUnit)
    (pinned : VectorAuthorityInput) (values : list f32) : VecResult BoundEmbedding :=
  let? model_id := validate_and_id spec in
  try? validate_pinned u pinned in
  try? validate_values spec values in
  let? digest := vector_digest model_id values in
  Ok {| be_model_id := model_id; be_values := values; be_vector_digest := digest;
        be_hit := hit_for u pinned;
        be_cache_key := {|
          ek_embedding_model_id := model_id;
          ek_unit_id := ku_unit_id u;
          ek_text_sha256 := ku_text_sha256 u;
          ek_profile := up_profile (ku_provenance u);
          ek_source_id := vr_source_id (ku_version u);
          ek_authority_scope_key := va_authority_scope_key pinned;
          ek_retention_lease_id := va_retention_lease_id pinned;
          ek_lifetime_scope_id := va_lifetime_scope_id pinned |} |}.

Definition validate_binding (self : BoundEmbedding) (spec : EmbeddingModelSpec) (u : KnowledgeUnit)
    (pinned : VectorAuthorityInput) : VecResult unit :=
  try? validate_pinned u pinned in
  try? validate_values spec (be_values self) in
  let? model_id := validate_and_id spec in
  if be_model_id self != model_id then vec_err "bound embedding"
  else
    let? digest := vector_digest (be_model_id self) (be_values self) in
    if (be_vector_digest self != digest)
       || negb (matches_pinned_unit (be_hit self) u pinned)
       || negb (cache_key_matches_authority (be_cache_key self) u pinned)
       || (ek_embedding_model_id (be_cache_key self) != be_model_id self)
    then vec_err "bound embedding"
    else Ok tt.

Record VectorEntryRef : Type := {
  en_hit : VectorHitRef;
  en_model_id : EmbeddingModelId;
  en_vector_digest : Hash32;
  en_cache_key : EmbeddingCacheKey
}.

Definition entry_ref (self : BoundEmbedding) : VectorEntryRef := {|
  en_hit := be_hit self; en_model_id := be_model_id self;
  en_vector_digest := be_vector_digest self; en_cache_key := be_cache_key self |}.

Record QueryEmbedding : Type := { qe_model_id : EmbeddingModelId; qe_values : list f32 }.

Definition QueryEmbedding_new (spec : EmbeddingModelSpec) (values : list f32)
    : VecResult QueryEmbedding :=
  let? model_id := validate_and_id spec in
  try? validate_values spec values in
  Ok {| qe_model_id := model_id; qe_values := values |}.

Record RankedVectorHit : Type := {
  rh_hit : VectorHitRef;
  rh_model_id : EmbeddingModelId;
  rh_rank : Z;
  rh_raw_similarity : f32
}.

Definition RankedVectorHit_validate (self : RankedVectorHit) (spec : EmbeddingModelSpec)
    (u : KnowledgeUnit) (pinned : VectorAuthorityInput) : VecResult unit :=
  try? validate_pinned u pinned in
  let? model_id := validate_and_id spec in
  if (rh_model_id self != model_id) || (rh_rank self =? 0)
     || negb (is_finite (rh_raw_similarity self))
     || negb (matches_pinned_unit (rh_hit self) u pinned)
  then vec_err "ranked Vector hit"
  else Ok tt.
End Vectors.

(** ** Manifests *)

Inductive VectorActivationPolicy : Type := ActDisabled | EligibleOptIn.
Definition VectorActivationPolicy_default : VectorActivationPolicy := ActDisabled.

Inductive VectorUnitCoverage : Type := Complete | PartialValidated.
#[global] Instance VectorUnitCoverage_eq_dec : EqDecision VectorUnitCoverage.
Proof. solve_decision. Defined.
Definition VectorUnitCoverage_tag (c : VectorUnitCoverage) : Z :=
  match c with Complete => 1 | PartialValidated => 2 end.

Record VectorManifestUnit : Type := {
  mu_unit : KnowledgeUnit;
  mu_authority : VectorAuthorityInput;
  mu_coverage : VectorUnitCoverage
}.

Record VectorManifestInput : Type := {
  mi_bundle_key : ProjectionGenerationKey;
  mi_body_receipt_digest : string;
  mi_source_snapshot : string;
  mi_authority_scope_key : string;
  mi_retention_lease_id : string;
  mi_lease_expires_at : option Instant;
  mi_source_declares_persistent_embedding_permission : bool;
  mi_units : list VectorManifestUnit;
  mi_nonindexed_retention_unit_ids : list UnitId;
  mi_lexical_analyzer_revision : string;
  mi_graph_schema_revision : string
}.

Record VectorManifestHeader : Type := {
  mh_bundle_key : ProjectionGenerationKey;
  mh_body_receipt_digest : string;
  mh_source_snapshot : string;
  mh_authority_scope_key : string;
  mh_retention_lease_id : string;
  mh_lease_expires_at : option Instant;
  mh_source_declares_persistent_embedding_permission : bool;
  mh_nonindexed_retention_unit_ids : list UnitId;
  mh_lexical_analyzer_revision : string;
  mh_graph_schema_revision : string
}.

Definition header (self : VectorManifestInput) : VectorManifestHeader := {|
  mh_bundle_key := mi_bundle_key self;
  mh_body_receipt_digest := mi_body_receipt_digest self;
  mh_source_snapshot := mi_source_snapshot self;
  mh_authority_scope_key := mi_authority_scope_key self;
  mh_retention_lease_id := mi_retention_lease_id self;
  mh_lease_expires_at := mi_lease_expires_at self;
  mh_source_declares_persistent_embedding_permission :=
    mi_source_declares_persistent_embedding_permission self;
  mh_nonindexed_retention_unit_ids := mi_nonindexed_retention_unit_ids self;
  mh_lexical_analyzer_revision := mi_lexical_analyzer_revision self;
  mh_graph_schema_revision := mi_graph_schema_revision self |}.

Record VectorSegmentCheck : Type := {
  sc_version : ResourceVersionRef;
  sc_part : ContentPartRef;
  sc_unit_count : Z;
  sc_indexed_count : Z;
  sc_profiles : list ExtractionProfileId;
  sc_nonindexed : list UnitId;
  sc_bindings_digest : Hash32;
  sc_entries_digest : Hash32
}.

Record VectorIndexDescriptor : Type := {
  vx_engine : string;
  vx_engine_build : string;
  vx_parameters_digest : string;
  vx_index_receipt_digest : string;
  vx_index_digest : string
}.

Definition VectorIndexDescriptor_validate (self : VectorIndexDescriptor) : VecResult unit :=
  if negb (present (vx_engine self)) || negb (pinned_revision (vx_engine_build self))
     || negb (valid_digest (vx_parameters_digest self))
     || negb (valid_digest (vx_index_receipt_digest self))
     || negb (valid_digest (vx_index_digest self))
  then vec_err "index descriptor"
  else Ok tt.

Inductive VectorStorageKind : Type := Volatile | Persistent.
#[global] Instance VectorStorageKind_eq_dec : EqDecision VectorStorageKind.
Proof. solve_decision. Defined.
Definition VectorStorageKind_tag (s : VectorStorageKind) : Z :=
  match s with Volatile => 1 | Persistent => 2 end.

Inductive VectorReadiness : Type := Staged | Ready.
#[global] Instance VectorReadiness_eq_dec : EqDecision VectorReadiness.
Proof. solve_decision. Defined.

Record VectorProjectionManifest : Type := {
  vm_schema_version : Z;
  vm_bundle_key : ProjectionGenerationKey;
  vm_body_receipt_digest : string;
  vm_source_snapshot : string;
  vm_authority_scope_key : string;
  vm_retention_lease_id : string;
  vm_lease_expires_at : option Instant;
  vm_persistence_declared : bool;
  vm_model_id : EmbeddingModelId;
  vm_vector_dimension : Z;
  vm_metric : VectorMetric;
  vm_precision : VectorPrecision;
  vm_normalization : VectorNormalization;
  vm_storage : VectorStorageKind;
  vm_index : VectorIndexDescriptor;
  vm_extraction_profiles : list ExtractionProfileId;
  vm_lexical_analyzer_revision : string;
  vm_graph_schema_revision : string;
  vm_unit_bindings_digest : string;
  vm_indexed_entries_digest : string;
  vm_indexed_unit_count : Z;
  vm_nonindexed_retention_unit_ids : list UnitId;
  vm_created_at : Instant;
  vm_readiness : VectorReadiness;
  vm_manifest_digest : string
}.

Record VectorStageReceipt : Type := {
  vs_schema_version : Z;
  vs_bundle_key : ProjectionGenerationKey;
  vs_body_receipt_digest : string;
  vs_source_snapshot : string;
  vs_authority_scope_key : string;
  vs_retention_lease_id : string;
  vs_model_id : EmbeddingModelId;
  vs_indexed_count : Z;
  vs_nonindexed_retention_count : Z;
  vs_index_digest : string;
  vs_manifest_digest : string
}.

Definition MANIFEST_SCHEMA_VERSION : Z := 2.

Definition retention_tag (mode : RetentionMode) : Z :=
  match mode with
  | PersistentResource => 1 | PersistentDiscoveryMetadata => 2 | CacheWithExpiry => 3
  | SessionOnly => 4 | NoRetention => 5
  end.

(** [UnitId] is ordered by its bytes. *)
#[global] Instance UnitId_ord : Ord UnitId := fun a b => cmp (hash_bytes a) (hash_bytes b).

(** [BTreeSet::insert], and [into_iter]. *)
Definition set_insert {K} `{Ord K} (k : K) (s : list (K * unit)) : list (K * unit) := bt_insert k
  tt s.
Definition set_items {K} (s : list (K * unit)) : list K := map fst s.

Section Manifests.
Context {N : Unicode} {D : Digest}.

(** What [hash_unit] feeds before the locator, and after it. *)
Definition unit_frames_head (item : VectorManifestUnit) : list (list Z) :=
  let u := mu_unit item in
  let provenance := ku_provenance u in
  [bytes (UnitId_display (ku_unit_id u));
   uuid_bytes (vr_source_id (ku_version u)); uuid_bytes (vr_resource_id (ku_version u));
   bytes (vr_source_native_version (ku_version u));
   bytes (cp_source_native_part_id (ku_part u)); bytes (cp_logical_path (ku_part u));
   u32_be (cp_ordinal (ku_part u))]
  ++ match ku_parent_unit_id u with
     | Some parent => [[1]; bytes (UnitId_display parent)]
     | None => [[0]]
     end
  ++ [u32_be (ku_ordinal u); [unit_kind_tag (ku_kind u)];
      bytes (up_authoritative_representation_ref provenance);
      hash_bytes (rw_sha256 (up_raw provenance)); u64_be (rw_size_bytes (up_raw provenance));
      bytes (rw_media_type (up_raw provenance));
      [FormatId_tag (up_detected_format provenance)];
      [match up_archive_inner_format provenance with Some f => FormatId_tag f | None => 0 end];
      bytes (up_profile provenance); bytes (up_parser_build_id provenance);
      hash_bytes (ku_text_sha256 u); bytes (ku_text u)].

Definition unit_frames_tail (item : VectorManifestUnit) : list (list Z) :=
  let authority := mu_authority item in
  [bytes (va_authority_scope_key authority); bytes (va_retention_lease_id authority);
   bytes (va_lifetime_scope_id authority); [retention_tag (va_retention_mode authority)];
   time_bytes (va_lease_expires_at authority); [VectorUnitCoverage_tag (mu_coverage item)]].

Definition hash_unit (h : FrameHash) (item : VectorManifestUnit) : VecResult FrameHash :=
  let? h := fh_all (unit_frames_head item) h in
  let? locator := from_unit (locator_encode (ku_locator (mu_unit item))) in
  let? h := fh_bytes locator h in
  fh_all (unit_frames_tail item) h.

Definition validate_header (header : VectorManifestHeader) (created_at : Instant)
    : VecResult unit :=
  if negb (valid_digest (mh_body_receipt_digest header))
     || negb (present (mh_source_snapshot header))
     || negb (present (mh_authority_scope_key header))
     || negb (present (mh_retention_lease_id header))
     || negb (pinned_revision (mh_lexical_analyzer_revision header))
     || negb (pinned_revision (mh_graph_schema_revision header))
     || is_some_and (mh_lease_expires_at header) (fun expiry => expiry <=? created_at)
  then vec_err "P1 bundle comparison input"
  else Ok tt.

(** The sets that the loop over the units of a segment builds. *)
Record UnitSets : Type := {
  us_by_id : list (UnitId * VectorManifestUnit);
  us_locators : list (list Z);
  us_profiles : list (ExtractionProfileId * unit);
  us_nonindexed : list (UnitId * unit)
}.

Definition UnitSets_new : UnitSets :=
  {| us_by_id := []; us_locators := []; us_profiles := []; us_nonindexed := [] |}.

Definition prohibited (storage : VectorStorageKind) (header : VectorManifestHeader)
    (authority : VectorAuthorityInput) : bool :=
  match storage with
  | Persistent =>
      (va_retention_mode authority != PersistentResource)
      || negb (mh_source_declares_persistent_embedding_permission header)
  | Volatile => va_retention_mode authority == PersistentDiscoveryMetadata
  end.

Definition bound_to (header : VectorManifestHeader) (item : VectorManifestUnit) : bool :=
  negb
    ((va_generation (mu_authority item) != mh_bundle_key header)
     || (up_source_snapshot (ku_provenance (mu_unit item)) != mh_source_snapshot header)
     || (va_authority_scope_key (mu_authority item) != mh_authority_scope_key header)
     || (va_retention_lease_id (mu_authority item) != mh_retention_lease_id header)
     || (va_lease_expires_at (mu_authority item) != mh_lease_expires_at header)).

(** The body of the loop over the units. *)
Definition check_unit (storage : VectorStorageKind) (header : VectorManifestHeader)
    (version : ResourceVersionRef) (part : ContentPartRef) (s : UnitSets)
    (item : VectorManifestUnit) : VecResult UnitSets :=
  let u := mu_unit item in
  try? validate_pinned u (mu_authority item) in
  if (ku_version u != version) || (ku_part u != part)
  then vec_err "Vector segment Version or Part"
  else if negb (bound_to header item) then vec_err "Vector input authority binding"
  else
    let? locator := from_unit (locator_encode (ku_locator u)) in
    if contains (us_locators s) locator || bt_contains_key (ku_unit_id u) (us_by_id s)
    then vec_err "duplicate Unit or locator"
    else
      Ok {| us_by_id := bt_insert (ku_unit_id u) item (us_by_id s);
            us_locators := locator :: us_locators s;
            us_profiles := set_insert (up_profile (ku_provenance u)) (us_profiles s);
            us_nonindexed :=
              if prohibited storage header (mu_authority item)
              then set_insert (ku_unit_id u) (us_nonindexed s) else us_nonindexed s |}.

(** The body of the loop over the map: a parent is of the segment and comes before. *)
Definition check_parent (by_id : list (UnitId * VectorManifestUnit)) (_ : unit)
    (e : UnitId * VectorManifestUnit) : VecResult unit :=
  match ku_parent_unit_id (mu_unit e.2) with
  | None => Ok tt
  | Some parent_id =>
      let? parent := ok_or (bt_get parent_id by_id) (VecInvalid "missing parent Unit") in
      if ku_ordinal (mu_unit e.2) <=? ku_ordinal (mu_unit parent)
      then vec_err "parent Unit binding" else Ok tt
  end.

(** The body of the loop over the entries. *)
Definition check_entry (model_id : EmbeddingModelId) (sets : UnitSets)
    (indexed : list (UnitId * VectorEntryRef)) (entry : VectorEntryRef)
    : VecResult (list (UnitId * VectorEntryRef)) :=
  let unit_id := vh_unit_id (en_hit entry) in
  let? item := ok_or (bt_get unit_id (us_by_id sets)) (VecInvalid "extra Vector entry") in
  if bt_contains_key unit_id (us_nonindexed sets)
     || bt_contains_key unit_id indexed
     || (en_model_id entry != model_id)
     || (ek_embedding_model_id (en_cache_key entry) != model_id)
     || negb (matches_pinned_unit (en_hit entry) (mu_unit item) (mu_authority item))
     || negb (cache_key_matches_authority (en_cache_key entry) (mu_unit item) (mu_authority item))
  then vec_err "Vector entry binding"
  else Ok (bt_insert unit_id entry indexed).

(** What the digest of the entries is fed for a unit. *)
Definition entry_frames (indexed : list (UnitId * VectorEntryRef)) (item : VectorManifestUnit)
    : list (list Z) :=
  match bt_get (ku_unit_id (mu_unit item)) indexed with
  | None => []
  | Some entry =>
      [bytes (UnitId_display (ku_unit_id (mu_unit item))); hash_bytes (en_vector_digest entry);
       bytes (en_model_id entry); bytes (ek_authority_scope_key (en_cache_key entry));
       bytes (ek_retention_lease_id (en_cache_key entry));
       bytes (ek_lifetime_scope_id (en_cache_key entry))]
  end.

Definition check_segment (model_id : EmbeddingModelId) (header : VectorManifestHeader)
    (storage : VectorStorageKind) (units : list VectorManifestUnit) (entries : list VectorEntryRef)
    : VecResult VectorSegmentCheck :=
  let? first := ok_or (head units) (VecInvalid "empty Vector segment") in
  let version := ku_version (mu_unit first) in
  let part := ku_part (mu_unit first) in
  let? sets := for_each (check_unit storage header version part) UnitSets_new units in
  try? for_each (check_parent (us_by_id sets)) tt (us_by_id sets) in
  let? indexed := for_each (check_entry model_id sets) [] entries in
  if negb (len indexed + len (us_nonindexed sets) =? len (us_by_id sets))
  then vec_err "missing Vector entry"
  else
    let? bindings := fh_bytes (u64_be (len units)) (domain "vector-segment-units:v1") in
    let? bindings := for_each hash_unit bindings units in
    let? hashed := fh_bytes (u64_be (len indexed)) (domain "vector-segment-entries:v1") in
    let? hashed := fh_all (flat_map (entry_frames indexed) units) hashed in
    Ok {| sc_version := version; sc_part := part; sc_unit_count := len units;
          sc_indexed_count := len indexed; sc_profiles := set_items (us_profiles sets);
          sc_nonindexed := set_items (us_nonindexed sets);
          sc_bindings_digest := fh_finish bindings; sc_entries_digest := fh_finish hashed |}.

(** The ranges of [check_input]: maximal runs of units of one version and part. *)
Definition same_part (a b : VectorManifestUnit) : bool :=
  negb ((ku_version (mu_unit a) != ku_version (mu_unit b))
        || (ku_part (mu_unit a) != ku_part (mu_unit b))).

Fixpoint ranges (units : list VectorManifestUnit) : list (list VectorManifestUnit) :=
  match units with
  | [] => []
  | a :: units =>
      match ranges units with
      | (b :: range) :: rest =>
          if same_part a b then (a :: b :: range) :: rest else [a] :: (b :: range) :: rest
      | rest => [a] :: rest
      end
  end.

Definition number {A} (l : list A) : list (nat * A) := combine (seq 0 (length l)) l.

(** The body of the loops that record which range a unit is in. *)
Definition own (owner : list (UnitId * nat)) (e : nat * VectorManifestUnit)
    : VecResult (list (UnitId * nat)) :=
  let id := ku_unit_id (mu_unit e.2) in
  if bt_contains_key id owner then vec_err "duplicate Unit or locator"
  else Ok (bt_insert id e.1 owner).

Definition owners (rs : list (list VectorManifestUnit)) : VecResult (list (UnitId * nat)) :=
  for_each own [] (flat_map (fun '(segment, range) => map (pair segment) range) (number rs)).

Definition check_input (model_id : EmbeddingModelId) (input : VectorManifestInput)
    (storage : VectorStorageKind) (entries : list VectorEntryRef)
    : VecResult (list VectorSegmentCheck) :=
  let rs := ranges (mi_units input) in
  let? owner := owners rs in
  let? grouped :=
    try_map (fun entry =>
      let? segment := ok_or (bt_get (vh_unit_id (en_hit entry)) owner)
                        (VecInvalid "extra Vector entry") in
      Ok (segment, entry)) entries in
  try_map (fun '(segment, range) =>
      check_segment model_id (header input) storage range
        (map snd (List.filter (fun e => Nat.eqb (fst e) segment) grouped)))
    (number rs).

(** ** Composition and the manifest *)

Record ComposedSegments : Type := {
  co_profiles : list ExtractionProfileId;
  co_nonindexed : list UnitId;
  co_bindings_digest : string;
  co_entries_digest : string;
  co_indexed_count : Z
}.

Record SegmentSets : Type := {
  ss_parts : list (ResourceVersionRef * ContentPartRef);
  ss_profiles : list (ExtractionProfileId * unit);
  ss_nonindexed : list (UnitId * unit);
  ss_indexed_count : Z
}.

Definition SegmentSets_new : SegmentSets :=
  {| ss_parts := []; ss_profiles := []; ss_nonindexed := []; ss_indexed_count := 0 |}.

(** [BTreeSet::insert] that must add. *)
Definition insert_new (reason : string) (s : list (UnitId * unit)) (id : UnitId)
    : VecResult (list (UnitId * unit)) :=
  if bt_contains_key id s then vec_err reason else Ok (set_insert id s).

(** The body of the loop over the segments. *)
Definition add_segment (s : SegmentSets) (segment : VectorSegmentCheck) : VecResult SegmentSets :=
  if contains (ss_parts s) (sc_version segment, sc_part segment)
  then vec_err "duplicate Vector segment"
  else
    let? nonindexed :=
      for_each (insert_new "duplicate Unit or locator") (ss_nonindexed s) (sc_nonindexed segment) in
    let? indexed_count :=
      ok_or (checked_add_u64 (ss_indexed_count s) (sc_indexed_count segment))
        (VecInvalid "Vector entry count") in
    Ok {| ss_parts := (sc_version segment, sc_part segment) :: ss_parts s;
          ss_profiles :=
            fold_left (fun s profile => set_insert profile s) (sc_profiles segment) (ss_profiles s);
          ss_nonindexed := nonindexed;
          ss_indexed_count := indexed_count |}.

Definition key_frames (key : ProjectionGenerationKey) : list (list Z) :=
  [uuid_bytes (gk_source_id key); uuid_bytes (gk_generation_id key)].

Definition binding_frames (header : VectorManifestHeader) (segments : list VectorSegmentCheck)
    (nonindexed : list UnitId) : list (list Z) :=
  key_frames (mh_bundle_key header)
  ++ [bytes (mh_source_snapshot header); u64_be (len segments)]
  ++ flat_map (fun s => [hash_bytes (sc_bindings_digest s); u64_be (sc_unit_count s)]) segments
  ++ [u64_be (len nonindexed)]
  ++ map (fun id => bytes (UnitId_display id)) nonindexed.

Definition entry_set_frames (header : VectorManifestHeader) (segments : list VectorSegmentCheck)
    : list (list Z) :=
  key_frames (mh_bundle_key header)
  ++ [u64_be (len segments)]
  ++ flat_map (fun s => [hash_bytes (sc_entries_digest s); u64_be (sc_indexed_count s)]) segments.

Definition compose_segments (header : VectorManifestHeader) (created_at : Instant)
    (segments : list VectorSegmentCheck) : VecResult ComposedSegments :=
  try? validate_header header created_at in
  let? s := for_each add_segment SegmentSets_new segments in
  let? declared :=
    for_each (insert_new "nonindexed retention Unit") [] (mh_nonindexed_retention_unit_ids header) in
  if declared != ss_nonindexed s then vec_err "retention prohibition set"
  else
    let nonindexed := set_items (ss_nonindexed s) in
    let? bindings :=
      fh_all (binding_frames header segments nonindexed) (domain "vector-unit-bindings:v2") in
    let? entries := fh_all (entry_set_frames header segments) (domain "vector-index-entries:v2") in
    Ok {| co_profiles := set_items (ss_profiles s); co_nonindexed := nonindexed;
          co_bindings_digest := digest_string (fh_finish bindings);
          co_entries_digest := digest_string (fh_finish entries);
          co_indexed_count := ss_indexed_count s |}.

Definition manifest_frames (self : VectorProjectionManifest) : list (list Z) :=
  [u32_be (vm_schema_version self)] ++ key_frames (vm_bundle_key self)
  ++ [bytes (vm_body_receipt_digest self); bytes (vm_source_snapshot self);
      bytes (vm_authority_scope_key self); bytes (vm_retention_lease_id self);
      time_bytes (vm_lease_expires_at self); [if vm_persistence_declared self then 1 else 0];
      bytes (vm_model_id self); u32_be (vm_vector_dimension self);
      [VectorMetric_tag (vm_metric self)]; [VectorPrecision_tag (vm_precision self)];
      [VectorNormalization_tag (vm_normalization self)]; [VectorStorageKind_tag (vm_storage self)];
      bytes (vx_engine (vm_index self)); bytes (vx_engine_build (vm_index self));
      bytes (vx_parameters_digest (vm_index self)); bytes (vx_index_receipt_digest (vm_index self));
      bytes (vx_index_digest (vm_index self)); u64_be (len (vm_extraction_profiles self))]
  ++ map bytes (vm_extraction_profiles self)
  ++ [bytes (vm_lexical_analyzer_revision self); bytes (vm_graph_schema_revision self);
      bytes (vm_unit_bindings_digest self); bytes (vm_indexed_entries_digest self);
      u64_be (vm_indexed_unit_count self); u64_be (len (vm_nonindexed_retention_unit_ids self))]
  ++ map (fun id => bytes (UnitId_display id)) (vm_nonindexed_retention_unit_ids self)
  ++ [i128_be (vm_created_at self); [match vm_readiness self with Staged => 1 | Ready => 2 end]].

Definition recompute_digest (self : VectorProjectionManifest) : VecResult string :=
  let? h := fh_all (manifest_frames self) (domain "vector-projection-manifest:v1") in
  Ok (digest_string (fh_finish h)).

Definition with_digest (digest : string) (self : VectorProjectionManifest)
    : VectorProjectionManifest := {|
  vm_schema_version := vm_schema_version self; vm_bundle_key := vm_bundle_key self;
  vm_body_receipt_digest := vm_body_receipt_digest self;
  vm_source_snapshot := vm_source_snapshot self;
  vm_authority_scope_key := vm_authority_scope_key self;
  vm_retention_lease_id := vm_retention_lease_id self;
  vm_lease_expires_at := vm_lease_expires_at self;
  vm_persistence_declared := vm_persistence_declared self; vm_model_id := vm_model_id self;
  vm_vector_dimension := vm_vector_dimension self; vm_metric := vm_metric self;
  vm_precision := vm_precision self; vm_normalization := vm_normalization self;
  vm_storage := vm_storage self; vm_index := vm_index self;
  vm_extraction_profiles := vm_extraction_profiles self;
  vm_lexical_analyzer_revision := vm_lexical_analyzer_revision self;
  vm_graph_schema_revision := vm_graph_schema_revision self;
  vm_unit_bindings_digest := vm_unit_bindings_digest self;
  vm_indexed_entries_digest := vm_indexed_entries_digest self;
  vm_indexed_unit_count := vm_indexed_unit_count self;
  vm_nonindexed_retention_unit_ids := vm_nonindexed_retention_unit_ids self;
  vm_created_at := vm_created_at self; vm_readiness := vm_readiness self;
  vm_manifest_digest := digest |}.

(** The manifest before its digest is set. *)
Definition unsealed (spec : EmbeddingModelSpec) (model_id : EmbeddingModelId) (dimension : Z)
    (header : VectorManifestHeader) (index : VectorIndexDescriptor) (composed : ComposedSegments)
    (storage : VectorStorageKind) (created_at : Instant) : VectorProjectionManifest := {|
  vm_schema_version := MANIFEST_SCHEMA_VERSION; vm_bundle_key := mh_bundle_key header;
  vm_body_receipt_digest := mh_body_receipt_digest header;
  vm_source_snapshot := mh_source_snapshot header;
  vm_authority_scope_key := mh_authority_scope_key header;
  vm_retention_lease_id := mh_retention_lease_id header;
  vm_lease_expires_at := mh_lease_expires_at header;
  vm_persistence_declared := mh_source_declares_persistent_embedding_permission header;
  vm_model_id := model_id; vm_vector_dimension := dimension; vm_metric := es_metric spec;
  vm_precision := es_precision spec; vm_normalization := es_normalization spec;
  vm_storage := storage; vm_index := index; vm_extraction_profiles := co_profiles composed;
  vm_lexical_analyzer_revision := mh_lexical_analyzer_revision header;
  vm_graph_schema_revision := mh_graph_schema_revision header;
  vm_unit_bindings_digest := co_bindings_digest composed;
  vm_indexed_entries_digest := co_entries_digest composed;
  vm_indexed_unit_count := co_indexed_count composed;
  vm_nonindexed_retention_unit_ids := co_nonindexed composed;
  vm_created_at := created_at; vm_readiness := Ready; vm_manifest_digest := "" |}.

Definition describes (self : VectorProjectionManifest) (header : VectorManifestHeader) : bool :=
  negb
    ((vm_schema_version self != MANIFEST_SCHEMA_VERSION)
     || (vm_readiness self != Ready)
     || negb (valid_digest (vm_model_id self))
     || (vm_vector_dimension self =? 0)
     || (vm_bundle_key self != mh_bundle_key header)
     || (vm_body_receipt_digest self != mh_body_receipt_digest header)
     || (vm_source_snapshot self != mh_source_snapshot header)
     || (vm_authority_scope_key self != mh_authority_scope_key header)
     || (vm_retention_lease_id self != mh_retention_lease_id header)
     || (vm_lease_expires_at self != mh_lease_expires_at header)
     || (vm_persistence_declared self
           != mh_source_declares_persistent_embedding_permission header)
     || (vm_lexical_analyzer_revision self != mh_lexical_analyzer_revision header)
     || (vm_graph_schema_revision self != mh_graph_schema_revision header)).

Definition receipt (self : VectorProjectionManifest) (composed : ComposedSegments)
    : VectorStageReceipt := {|
  vs_schema_version := vm_schema_version self; vs_bundle_key := vm_bundle_key self;
  vs_body_receipt_digest := vm_body_receipt_digest self;
  vs_source_snapshot := vm_source_snapshot self;
  vs_authority_scope_key := vm_authority_scope_key self;
  vs_retention_lease_id := vm_retention_lease_id self; vs_model_id := vm_model_id self;
  vs_indexed_count := vm_indexed_unit_count self;
  vs_nonindexed_retention_count := len (co_nonindexed composed);
  vs_index_digest := vx_index_digest (vm_index self);
  vs_manifest_digest := vm_manifest_digest self |}.

Definition validate_segments (self : VectorProjectionManifest) (header : VectorManifestHeader)
    (segments : list VectorSegmentCheck) : VecResult VectorStageReceipt :=
  try? VectorIndexDescriptor_validate (vm_index self) in
  if negb (describes self header) then vec_err "Vector manifest input"
  else
    let? composed := compose_segments header (vm_created_at self) segments in
    if (vm_extraction_profiles self != co_profiles composed)
       || (vm_nonindexed_retention_unit_ids self != co_nonindexed composed)
       || (vm_unit_bindings_digest self != co_bindings_digest composed)
       || (vm_indexed_entries_digest self != co_entries_digest composed)
       || (vm_indexed_unit_count self != co_indexed_count composed)
    then vec_err "Vector manifest seal"
    else
      let? digest := recompute_digest self in
      if vm_manifest_digest self != digest then vec_err "Vector manifest seal"
      else Ok (receipt self composed).

Definition validate_against (self : VectorProjectionManifest) (input : VectorManifestInput)
    (entries : list VectorEntryRef) : VecResult VectorStageReceipt :=
  let? segments := check_input (vm_model_id self) input (vm_storage self) entries in
  validate_segments self (header input) segments.

Definition stage_segments (spec : EmbeddingModelSpec) (header : VectorManifestHeader)
    (index : VectorIndexDescriptor) (segments : list VectorSegmentCheck)
    (storage : VectorStorageKind) (created_at : Instant) : VecResult VectorProjectionManifest :=
  let? model_id := validate_and_id spec in
  try? VectorIndexDescriptor_validate index in
  let? composed := compose_segments header created_at segments in
  let? dimension := u32_of (es_dimension spec) (VecInvalid "model dimension") in
  let manifest := unsealed spec model_id dimension header index composed storage created_at in
  let? digest := recompute_digest manifest in
  let manifest := with_digest digest manifest in
  try? validate_segments manifest header segments in
  Ok manifest.

Definition stage (spec : EmbeddingModelSpec) (input : VectorManifestInput)
    (index : VectorIndexDescriptor) (entries : list VectorEntryRef) (storage : VectorStorageKind)
    (created_at : Instant) : VecResult VectorProjectionManifest :=
  let? model_id := validate_and_id spec in
  let? segments := check_input model_id input storage entries in
  stage_segments spec (header input) index segments storage created_at.
End Manifests.

(** ** Maps and loops *)

Lemma hash_bytes_inj : Inj (=) (=) hash_bytes.
Proof.
  intros a b H. apply vec_to_list_inj2. revert H. unfold hash_bytes.
  apply list_fmap_eq_inj. exact byte_of_ascii_inj.
Qed.

#[global] Instance UnitId_ord_laws : OrdLaws UnitId.
Proof. apply (OrdLaws_inj hash_bytes); [done|exact hash_bytes_inj]. Qed.

Lemma bt_insert_fresh {K V} `{OrdLaws K} (k : K) (v : V) m :
  bt_contains_key k m = false -> bt_wf m -> Permutation (bt_insert k v m) ((k, v) :: m).
Proof.
  unfold bt_contains_key, bt_insert. induction m as [|[j w] m IH]; cbn; [done|].
  destruct (cmp k j); [done|done|]. intros Hk Hw. inversion Hw; subst.
  rewrite IH by done. apply perm_swap.
Qed.

Lemma bt_insert_wf {K V} `{OrdLaws K} (k : K) (v : V) m : bt_wf m -> bt_wf (bt_insert k v m).
Proof. apply bt_wf_alter. Qed.

Lemma bt_fresh {K V} `{OrdLaws K} (k : K) (m : list (K * V)) :
  bt_wf m -> bt_contains_key k m = false <-> k ∉ map fst m.
Proof. intros Hw. rewrite bt_keys by done. unfold bt_contains_key. by destruct (is_some _). Qed.

Lemma len_Permutation {A} (l k : list A) : Permutation l k -> len l = len k.
Proof. intros Hp. unfold len. by rewrite Hp. Qed.

(** ** Segments *)

Lemma filter_split {A} (p : A -> bool) l :
  Permutation (List.filter p l ++ List.filter (fun x => negb (p x)) l) l.
Proof.
  induction l as [|x l IH]; cbn; [done|]. destruct (p x); cbn; [by rewrite IH|].
  by rewrite <- Permutation_middle, IH.
Qed.
(** Values numbered from [i] on, taken number by number, are the values. *)
Lemma by_number_Permutation {A} (l : list (nat * A)) n i :
  Forall (fun e => (i <= e.1 < i + n)%nat) l ->
  Permutation
    (flat_map (fun s => map snd (List.filter (fun e => Nat.eqb (fst e) s) l)) (seq i n)) (map snd
      l).
Proof.
  revert i l. induction n as [|n IH]; intros i l Hl; cbn.
  - destruct l; [done|]. inversion Hl; subst. lia.
  - pose proof (Permutation_map snd (filter_split (fun e => Nat.eqb (fst e) i) l)) as Hp.
    rewrite map_app in Hp. rewrite <- Hp. apply Permutation_app_head. rewrite <- (IH (S i)).
    + rewrite !flat_map_concat_map. erewrite map_ext_in; [done|]. cbn. intros s Hs%in_seq.
      f_equal. clear Hl Hp. induction l as [|e l IHl]; cbn; [done|].
      destruct (Nat.eqb_spec e.1 i); cbn; destruct (Nat.eqb_spec e.1 s); cbn;
        first [lia | by rewrite IHl].
    + rewrite Forall_forall in Hl |- *. intros e [Hin Hne]%list_elem_of_In%filter_In.
      apply list_elem_of_In, Hl in Hin. simp_bool. apply Nat.eqb_neq in Hne. lia.
Qed.


Section Segments.
Context {N : Unicode} {D : Digest}.

Abbreviation uid item := (ku_unit_id (mu_unit item)).
Abbreviation eid entry := (vh_unit_id (en_hit entry)).

(** The units of a list that may not be indexed. *)
Definition prohibited_ids storage header (units : list VectorManifestUnit) : list UnitId :=
  map (fun item => uid item)
    (List.filter (fun item => prohibited storage header (mu_authority item)) units).

(** What the checks of a segment ensure of each unit by itself. *)
Definition unit_bound header (item : VectorManifestUnit) : Prop :=
  validate_pinned (mu_unit item) (mu_authority item) = Ok tt /\ bound_to header item = true.

(** The entry is of a unit of the list that may be indexed, and matches it. *)
Definition entry_bound model_id storage header (units : list VectorManifestUnit)
    (entry : VectorEntryRef) : Prop :=
  exists item, item ∈ units /\ uid item = eid entry
    /\ prohibited storage header (mu_authority item) = false
    /\ en_model_id entry = model_id /\ ek_embedding_model_id (en_cache_key entry) = model_id
    /\ matches_pinned_unit (en_hit entry) (mu_unit item) (mu_authority item) = true
    /\ cache_key_matches_authority (en_cache_key entry) (mu_unit item) (mu_authority item) = true.

Lemma prohibited_ids_app storage header us vs :
  prohibited_ids storage header (us ++ vs)
  = prohibited_ids storage header us ++ prohibited_ids storage header vs.
Proof. unfold prohibited_ids. by rewrite List.filter_app, map_app. Qed.

(** What the loop over the units has built from the units it has seen. *)
Definition sets_of storage header version part (units : list VectorManifestUnit) (s : UnitSets)
    : Prop :=
  bt_wf (us_by_id s) /\ Permutation (us_by_id s) (map (fun item => (uid item, item)) units)
  /\ bt_wf (us_nonindexed s)
  /\ Permutation (set_items (us_nonindexed s)) (prohibited_ids storage header units)
  /\ Forall (fun item => ku_version (mu_unit item) = version /\ ku_part (mu_unit item) = part) units
  /\ Forall (unit_bound header) units.

Lemma prohibited_ids_incl storage header units id :
  id ∈ prohibited_ids storage header units -> id ∈ map (fun item => uid item) units.
Proof.
  unfold prohibited_ids. intros (item & -> & Hi)%list_elem_of_fmap. apply list_elem_of_fmap.
  exists item. split; [done|]. apply list_elem_of_In, filter_In in Hi as [Hi _].
  by apply list_elem_of_In.
Qed.

Lemma check_unit_sets storage header version part units s item s' :
  sets_of storage header version part units s ->
  check_unit storage header version part s item = Ok s' ->
  sets_of storage header version part (units ++ [item]) s'.
Proof.
  intros (Hw & Hp & Hwn & Hpn & Hv & Hb) H. unfold check_unit, vec_err, from_unit in H.
  cbn zeta in H. inv_ok.
  apply orb_false_iff in Hguard as [Hv1 Hv2], Hguard1 as [_ Ed]. simp_bool. subst s'.
  assert (uid item ∉ map fst (us_by_id s)) as Hfresh by (by apply bt_fresh).
  unfold sets_of; cbn [us_by_id us_nonindexed]. split_and!.
  - by apply bt_insert_wf.
  - rewrite bt_insert_fresh, Hp, map_app by done. apply Permutation_cons_append.
  - destruct (prohibited _ _ _); [by apply bt_insert_wf|done].
  - rewrite prohibited_ids_app. unfold prohibited_ids at 2. cbn.
    destruct (prohibited _ _ _); cbn; [|by rewrite app_nil_r].
    unfold set_items, set_insert. rewrite bt_insert_fresh; [|apply bt_fresh; [done|]|done].
    + cbn. fold (set_items (us_nonindexed s)). rewrite Hpn. apply Permutation_cons_append.
    + fold (set_items (us_nonindexed s)). rewrite Hpn. intros Hin. apply Hfresh.
      rewrite Hp, map_map. cbn. by eapply prohibited_ids_incl.
  - apply Forall_app. split; [done|]. by repeat constructor.
  - apply Forall_app. split; [done|]. repeat constructor; [|done]. by destruct a.
Qed.

(** What the loop over the entries has built. *)
Definition entries_of model_id storage header units (entries : list VectorEntryRef)
    (indexed : list (UnitId * VectorEntryRef)) : Prop :=
  bt_wf indexed /\ Permutation indexed (map (fun e => (eid e, e)) entries)
  /\ Forall (entry_bound model_id storage header units) entries.

Lemma NoDup_uid_inj (units : list VectorManifestUnit) a b :
  NoDup (map (fun item => uid item) units) -> a ∈ units -> b ∈ units -> uid a = uid b -> a = b.
Proof.
  intros Hn [i Ha]%list_elem_of_lookup [j Hb]%list_elem_of_lookup He.
  assert (i = j) as ->; [|congruence].
  eapply NoDup_lookup; [exact Hn|..]; rewrite list_lookup_fmap.
  - by rewrite Ha.
  - rewrite Hb. cbn. by rewrite He.
Qed.

Lemma sets_of_NoDup storage header version part units s :
  sets_of storage header version part units s -> NoDup (map (fun item => uid item) units).
Proof.
  intros (Hw & Hp & _). apply bt_wf_NoDup in Hw. rewrite Hp, map_map in Hw. exact Hw.
Qed.

Lemma check_entry_entries model_id storage header version part units sets entries indexed entry
  indexed' :
  sets_of storage header version part units sets ->
  entries_of model_id storage header units entries indexed ->
  check_entry model_id sets indexed entry = Ok indexed' ->
  entries_of model_id storage header units (entries ++ [entry]) indexed'.
Proof.
  intros Hs (Hw & Hp & Hb) H. unfold check_entry, vec_err in H. cbn zeta in H. inv_ok.
  repeat match goal with Hg : (_ || _)%bool = false |- _ => apply orb_false_iff in Hg as [Hg ?] end.
  simp_bool. subst indexed'. split_and!.
  - by apply bt_insert_wf.
  - rewrite bt_insert_fresh, Hp, map_app by done. apply Permutation_cons_append.
  - apply Forall_app. split; [done|]. repeat constructor.
    pose proof (sets_of_NoDup _ _ _ _ _ _ Hs) as Hn.
    destruct Hs as (Hwi & Hpi & Hwn & Hpn & _). rename a into item.
    apply bt_get_elem in Hok; [|done]. rewrite Hpi in Hok.
    apply list_elem_of_fmap in Hok as (item' & [= He <-] & Hin).
    exists item. split_and!; try done.
    destruct (prohibited _ _ _) eqn:Epr; [|done]. exfalso.
    apply bt_fresh in Hguard; [|done]. apply Hguard. fold (set_items (us_nonindexed sets)).
    rewrite Hpn, He. apply list_elem_of_fmap. exists item. split; [done|].
    apply list_elem_of_In, filter_In. by rewrite <- list_elem_of_In.
Qed.

(** The parent of the unit, if any, is of the list and comes earlier in its part. *)
Definition parent_before (units : list VectorManifestUnit) (item : VectorManifestUnit) : Prop :=
  forall id, ku_parent_unit_id (mu_unit item) = Some id ->
  exists parent, parent ∈ units /\ uid parent = id
    /\ ku_ordinal (mu_unit parent) < ku_ordinal (mu_unit item).

Lemma check_parent_before by_id units u :
  bt_wf by_id -> Permutation by_id (map (fun item => (uid item, item)) units) ->
  for_each (check_parent by_id) tt by_id = Ok u -> Forall (parent_before units) units.
Proof.
  intros Hw Hp H. destruct u. apply for_each_unit in H. rewrite Hp, Forall_map in H.
  eapply Forall_impl; [exact H|]. intros item Hi id Hid. unfold check_parent, vec_err in Hi.
  cbn in Hi.
  rewrite Hid in Hi. inv_ok. apply bt_get_elem in Hok; [|done]. rewrite Hp in Hok.
  apply list_elem_of_fmap in Hok as (parent & [= -> ->] & Hin). simp_bool. by exists parent.
Qed.

(** What a segment check ensures: its entries are those of exactly the units that may be
    indexed. *)
Definition covers model_id storage header (units : list VectorManifestUnit)
    (entries : list VectorEntryRef) : Prop :=
  NoDup (map (fun item => uid item) units)
  /\ Permutation (map (fun e => eid e) entries ++ prohibited_ids storage header units)
       (map (fun item => uid item) units)
  /\ Forall (unit_bound header) units
  /\ Forall (entry_bound model_id storage header units) entries
  /\ Forall (parent_before units) units.

Lemma prohibited_ids_NoDup storage header units :
  NoDup (map (fun item => uid item) units) -> NoDup (prohibited_ids storage header units).
Proof.
  unfold prohibited_ids. induction units as [|item units IH]; cbn; [done|].
  intros [Hi Hn]%NoDup_cons. destruct (prohibited _ _ _); cbn; [|auto].
  apply NoDup_cons. split; [|auto]. intros Hin. apply Hi. by eapply prohibited_ids_incl.
Qed.

Lemma check_segment_covers model_id header storage units entries c :
  check_segment model_id header storage units entries = Ok c ->
  covers model_id storage header units entries
  /\ Forall (fun item => ku_version (mu_unit item) = sc_version c
                        /\ ku_part (mu_unit item) = sc_part c) units
  /\ Permutation (sc_nonindexed c) (prohibited_ids storage header units)
  /\ sc_indexed_count c = len entries.
Proof.
  intros H. unfold check_segment, vec_err in H. cbn zeta in H. inv_ok. subst c.
  cbn [sc_version sc_part sc_nonindexed sc_indexed_count].
  apply (for_each_prefix (sets_of storage header (ku_version (mu_unit a)) (ku_part (mu_unit a))))
    in Hok0;
    [|by split_and!; constructor|intros; by eapply check_unit_sets].
  apply (for_each_prefix (entries_of model_id storage header units)) in Hok2;
    [|by split_and!; constructor|intros; by eapply check_entry_entries].
  pose proof (sets_of_NoDup _ _ _ _ _ _ Hok0) as Hn.
  destruct Hok0 as (Hw & Hp & Hwn & Hpn & Hv & Hb), Hok2 as (Hwe & Hpe & He).
  pose proof (len_Permutation _ _ Hp) as Hl. pose proof (len_Permutation _ _ Hpe) as Hle.
  pose proof (len_Permutation _ _ Hpn) as Hln. unfold set_items, len in *. rewrite !length_map in *.
  simp_bool. split_and!; try done.
  split_and!; try done; [|by eapply check_parent_before]. apply submseteq_length_Permutation.
  - apply NoDup_submseteq.
    + apply NoDup_app. split_and!; [| |by apply prohibited_ids_NoDup].
      * apply bt_wf_NoDup in Hwe. rewrite Hpe, map_map in Hwe. exact Hwe.
      * intros id (e & -> & Hin)%list_elem_of_fmap (i' & Hid & Hi')%list_elem_of_fmap.
        rewrite Forall_forall in He. apply He in Hin as (item & Hit & Hu & Hpr & _).
        apply list_elem_of_In, filter_In in Hi' as [Hi'%list_elem_of_In Hpr'].
        rewrite (NoDup_uid_inj units item i') in Hpr; [congruence|done..|congruence].
    + intros id [(e & -> & Hin)%list_elem_of_fmap|Hin]%elem_of_app;
        [|by eapply prohibited_ids_incl].
      rewrite Forall_forall in He. apply He in Hin as (item & Hit & <- & _).
      apply list_elem_of_fmap. by exists item.
  - rewrite length_app, !length_map. lia.
Qed.

Lemma concat_ranges units : concat (ranges units) = units.
Proof.
  induction units as [|a units IH]; [done|]. cbn [ranges].
  destruct (ranges units) as [|[|b range] rest]; cbn in *; [by subst..|].
  destruct (same_part a b); cbn; by subst.
Qed.

Lemma number_bound {A} (l : list A) e : e ∈ number l -> (e.1 < length l)%nat.
Proof.
  destruct e as [i x]. intros H%list_elem_of_In%in_combine_l%in_seq. cbn. lia.
Qed.

(** The ranges' units are distinct, and each is owned by its range. *)
Lemma owners_Ok rs owner :
  owners rs = Ok owner ->
  NoDup (map (fun item => uid item) (concat rs))
  /\ (forall id segment, bt_get id owner = Some segment -> (segment < length rs)%nat).
Proof.
  unfold owners. set (flat := flat_map _ _). intros H.
  assert (map snd flat = concat rs) as Hf.
  { unfold flat, number. generalize 0%nat. clear.
    induction rs as [|r rs IH]; intros i; cbn; [done|].
    rewrite map_app, IH. f_equal. rewrite map_map. cbn. apply map_id. }
  apply (for_each_prefix (fun done m => bt_wf m /\
    Permutation m (map (fun e => (uid (e.2 : VectorManifestUnit), e.1 : nat)) done))) in H as [Hw
      Hp].
  - rewrite <- Hf, map_map. split.
    + apply bt_wf_NoDup in Hw. rewrite Hp, map_map in Hw. exact Hw.
    + intros id segment Hg%bt_get_elem; [|done]. rewrite Hp in Hg.
      apply list_elem_of_fmap in Hg as (e & [= _ ->] & Hin).
      unfold flat in Hin. apply list_elem_of_In, in_flat_map in Hin as ([i r] & Hi & He).
      apply in_map_iff in He as (item & <- & _). apply list_elem_of_In in Hi.
      by apply number_bound in Hi.
  - split; constructor.
  - intros seen m e m' [Hm Hs] Ho. unfold own, vec_err in Ho. cbn zeta in Ho. inv_ok. subst m'.
    split.
    + by apply bt_insert_wf.
    + rewrite bt_insert_fresh, Hs, map_app by done. apply Permutation_cons_append.
Qed.

Lemma entry_bound_mono model_id storage header us vs e :
  us ⊆ vs -> entry_bound model_id storage header us e -> entry_bound model_id storage header vs e.
Proof. intros Hs (item & Hin & H). exists item. split; [by apply Hs|done]. Qed.

Lemma parent_before_mono us vs item : us ⊆ vs -> parent_before us item -> parent_before vs item.
Proof. intros Hs H id Hid. destruct (H id Hid) as (p & Hin & Hp). exists p.
  split; [by apply Hs|done]. Qed.

Lemma covers_nil model_id storage header : covers model_id storage header [] [].
Proof. split_and!; constructor. Qed.

Lemma covers_app model_id storage header us vs es fs :
  NoDup (map (fun item => uid item) (us ++ vs)) ->
  covers model_id storage header us es -> covers model_id storage header vs fs ->
  covers model_id storage header (us ++ vs) (es ++ fs).
Proof.
  intros Hn (_ & Hp & Hb & He & Ha) (_ & Hp' & Hb' & He' & Ha').
  split_and!; [done| |by apply Forall_app| |].
  - rewrite prohibited_ids_app, !map_app, <- Hp, <- Hp'. solve_Permutation.
  - apply Forall_app.
    split; (eapply Forall_impl; [done|]); intros e; apply entry_bound_mono; set_solver.
  - apply Forall_app.
    split; (eapply Forall_impl; [done|]); intros e; apply parent_before_mono; set_solver.
Qed.

Lemma covers_Permutation model_id storage header us es fs :
  Permutation es fs -> covers model_id storage header us es -> covers model_id storage header us fs.
Proof.
  intros Hp (Hn & Hc & Hb & He & Ha). split_and!; try done; by rewrite <- Hp.
Qed.

Definition total_indexed (cs : list VectorSegmentCheck) : Z := foldr (fun c n => sc_indexed_count c
  + n) 0 cs.

Lemma segments_cover model_id header storage (group : nat -> list VectorEntryRef) rs i cs :
  Forall2 (fun e c => check_segment model_id header storage e.2 (group e.1) = Ok c)
    (combine (seq i (length rs)) rs) cs ->
  NoDup (map (fun item => uid item) (concat rs)) ->
  covers model_id storage header (concat rs) (flat_map group (seq i (length rs)))
  /\ Permutation (flat_map sc_nonindexed cs) (prohibited_ids storage header (concat rs))
  /\ total_indexed cs = len (flat_map group (seq i (length rs))).
Proof.
  revert i cs. induction rs as [|r rs IH]; intros i cs; cbn.
  - inversion 1; subst. intros _. split_and!; [apply covers_nil|done|done].
  - inversion 1 as [|? c ? cs' Hc Hcs]; subst. cbn in Hc. intros Hn.
    pose proof Hn as Hn'. rewrite map_app in Hn'. apply NoDup_app in Hn' as (_ & _ & Hn').
    apply IH in Hcs as (Hco & Hp & Ht); [|done].
    apply check_segment_covers in Hc as (Hc & _ & Hpc & Hic). split_and!.
    + by apply covers_app.
    + change (sc_nonindexed c ++ flat_map sc_nonindexed cs' ≡ₚ prohibited_ids storage header (r ++
        concat rs)).
      by rewrite prohibited_ids_app, Hpc, Hp.
    + change (sc_indexed_count c + total_indexed cs' = len (group i ++ flat_map group (seq (S i)
        (length rs)))).
      rewrite Ht, Hic. unfold len. rewrite length_app. lia.
Qed.

(** The entries of the units of a range. *)
Definition segment_entries (rs : list (list VectorManifestUnit)) (entries : list VectorEntryRef)
    (segment : nat) : list VectorEntryRef :=
  match owners rs with
  | Ok owner => List.filter (fun e => bt_get (eid e) owner == Some segment) entries
  | Err _ => []
  end.

Lemma grouped_entries (owner : list (UnitId * nat)) entries grouped segment :
  Forall2 (fun (e : VectorEntryRef) (g : nat * VectorEntryRef) =>
    bt_get (eid e) owner = Some g.1 /\ g.2 = e) entries grouped ->
  map snd (List.filter (fun g => Nat.eqb (fst g) segment) grouped)
  = List.filter (fun e => bt_get (eid e) owner == Some segment) entries.
Proof.
  induction 1 as [|e [n x] es gs [Hg Hx] _ IH]; cbn in *; [done|]. subst x. rewrite Hg.
  destruct (Nat.eqb_spec n segment) as [->|Hne]; [rewrite bool_decide_eq_true_2 by done|
    rewrite bool_decide_eq_false_2 by congruence]; cbn; [by rewrite IH|done].
Qed.

(** A check of an input checks each of its ranges against the entries of its units. *)
Lemma check_input_segments model_id input storage entries cs :
  check_input model_id input storage entries = Ok cs ->
  let rs := ranges (mi_units input) in let group := segment_entries rs entries in
  NoDup (map (fun item => uid item) (mi_units input))
  /\ Forall2 (fun e c => check_segment model_id (header input) storage e.2 (group e.1) = Ok c)
       (number rs) cs
  /\ Permutation (flat_map group (seq 0 (length rs))) entries.
Proof.
  intros H rs group. unfold check_input in H. cbn zeta in H. fold rs in H. inv_ok.
  pose proof (owners_Ok _ _ Hok) as [Hn Ho].
  apply try_map_Ok in Hok0, H. rename a0 into grouped. unfold rs in Hn. rewrite concat_ranges in Hn.
  assert (Forall2 (fun (e : VectorEntryRef) (g : nat * VectorEntryRef) =>
    bt_get (eid e) a = Some g.1 /\ g.2 = e) entries grouped) as Hg.
  { eapply Forall2_impl; [exact Hok0|]. intros e [n x] Hx. cbn.
    by destruct (bt_get (eid e) a) as [k|]; cbn in Hx; simplify_eq. }
  assert (forall segment, map snd (List.filter (fun g => Nat.eqb (fst g) segment) grouped)
    = group segment) as Heq.
  { intros s. unfold group, segment_entries. rewrite Hok. by apply grouped_entries. }
  assert (map snd grouped = entries /\ Forall (fun g => (0 <= g.1 < 0 + length rs)%nat) grouped)
    as [He Hb].
  { clear -Hg Ho. induction Hg as [|e g es gs [Hx <-] _ [IH1 IH2]]; cbn; [done|].
    split; [by rewrite IH1|]. constructor; [|done]. split; [lia|]. by eapply Ho. }
  split_and!; [done| |].
  - eapply Forall2_impl; [exact H|]. intros [s r] c Hc. cbn. by rewrite <- Heq.
  - apply by_number_Permutation in Hb. rewrite He in Hb. rewrite <- Hb. clear -Heq.
    by rewrite (flat_map_ext _ _ (fun s => eq_sym (Heq s))).
Qed.

Lemma check_input_covers model_id input storage entries cs :
  check_input model_id input storage entries = Ok cs ->
  covers model_id storage (header input) (mi_units input) entries
  /\ Permutation (flat_map sc_nonindexed cs)
       (prohibited_ids storage (header input) (mi_units input))
  /\ total_indexed cs = len entries.
Proof.
  intros (Hn & Hcs & He)%check_input_segments.
  apply segments_cover in Hcs as (Hc & Hp & Ht); [|by rewrite concat_ranges].
  rewrite concat_ranges in *.
  split_and!; [by eapply covers_Permutation|exact Hp|]. rewrite Ht. by apply len_Permutation.
Qed.

Lemma insert_new_set reason s l s' :
  bt_wf s -> for_each (insert_new reason) s l = Ok s' ->
  bt_wf s' /\ Permutation (set_items s') (set_items s ++ l).
Proof.
  intros Hw. apply (for_each_prefix (fun done s' => bt_wf s' /\ Permutation (set_items s')
    (set_items s ++ done))).
  - by rewrite app_nil_r.
  - intros seen s1 id s2 [Hw1 Hp1] H. unfold insert_new, vec_err in H. inv_ok. subst s2.
    split; [by apply bt_insert_wf|]. unfold set_items, set_insert in *.
    rewrite bt_insert_fresh by done. cbn. rewrite Hp1. rewrite app_assoc.
    apply Permutation_cons_append.
Qed.

Lemma add_segment_sets segments s s' :
  bt_wf (ss_nonindexed s) -> for_each add_segment s segments = Ok s' ->
  bt_wf (ss_nonindexed s')
  /\ Permutation (set_items (ss_nonindexed s')) (set_items (ss_nonindexed s) ++ flat_map
    sc_nonindexed segments)
  /\ ss_indexed_count s' = ss_indexed_count s + total_indexed segments.
Proof.
  revert s. induction segments as [|c segments IH]; intros s Hw; cbn.
  - intros [= <-]. rewrite app_nil_r. unfold total_indexed. cbn. split_and!; [done|done|lia].
  - intros H. inv_ok. unfold add_segment, vec_err, checked_add_u64 in Hok. inv_ok.
    apply insert_new_set in Hok0 as [Hw0 Hp0]; [|done]. subst a.
    apply IH in H as (Hw' & Hp' & Hc'); [|done].
    cbn [ss_nonindexed ss_indexed_count] in *. destruct (_ <? _) in Hok1; [|done]. simplify_eq.
    split_and!; [done|by rewrite Hp', Hp0, app_assoc|]. rewrite Hc'. unfold total_indexed. cbn. lia.
Qed.

Lemma compose_Ok h created_at segments co :
  compose_segments h created_at segments = Ok co ->
  Permutation (co_nonindexed co) (flat_map sc_nonindexed segments)
  /\ Permutation (mh_nonindexed_retention_unit_ids h) (co_nonindexed co)
  /\ co_indexed_count co = total_indexed segments.
Proof.
  intros H. unfold compose_segments, vec_err in H. cbn zeta in H. inv_ok. subst co.
  cbn [co_nonindexed co_indexed_count].
  apply add_segment_sets in Hok0 as (Hw & Hp & Hc); [|constructor]. cbn in Hp, Hc.
  apply insert_new_set in Hok1 as [Hw' Hp']; [|constructor]. cbn in Hp'.
  simp_bool. subst. split_and!; [done|by rewrite <- Hp'|done].
Qed.

(** What a manifest that a check accepts says of its input. *)
Definition manifest_covers (m : VectorProjectionManifest) (input : VectorManifestInput)
    (entries : list VectorEntryRef) : Prop :=
  covers (vm_model_id m) (vm_storage m) (header input) (mi_units input) entries
  /\ Permutation (vm_nonindexed_retention_unit_ids m)
       (prohibited_ids (vm_storage m) (header input) (mi_units input))
  /\ Permutation (mi_nonindexed_retention_unit_ids input) (vm_nonindexed_retention_unit_ids m)
  /\ vm_indexed_unit_count m = len entries.

(** C38: A manifest is accepted only with an entry for exactly each unit that may be indexed:
    entries and prohibited units make up the units, without repetition. *)
Theorem validated_covers m input entries r :
  validate_against m input entries = Ok r -> manifest_covers m input entries.
Proof.
  intros H. unfold validate_against in H. inv_ok. apply check_input_covers in Hok as (Hc & Hp & Ht).
  unfold validate_segments, vec_err in H. cbn zeta in H. inv_ok.
  repeat match goal with Hg : (_ || _)%bool = false |- _ => apply orb_false_iff in Hg as [Hg ?] end.
  apply compose_Ok in Hok0 as (Hn & Hd & Hi). simp_bool.
  unfold manifest_covers.
  match goal with Hx : vm_nonindexed_retention_unit_ids m = _ |- _ => rewrite Hx end.
  split_and!; [done|by rewrite Hn|exact Hd|congruence].
Qed.

Lemma u32_of_Ok {E} n (e : E) k : u32_of n e = Ok k -> k = n.
Proof. unfold u32_of, u32_try_from. case_match; cbn; congruence. Qed.

Lemma validate_and_id_dimension {E} spec id (e : E) :
  validate_and_id spec = Ok id -> u32_of (es_dimension spec) e = Ok (es_dimension spec).
Proof.
  intros H. unfold validate_and_id, vec_err in H. inv_ok.
  clear H. pose proof (u32_of_Ok _ _ _ Hok) as ->. unfold u32_of in *.
  destruct (u32_try_from _); cbn in *; congruence.
Qed.

Lemma recompute_digest_with d m : recompute_digest (with_digest d m) = recompute_digest m.
Proof. done. Qed.

Lemma validate_segments_unsealed m h segments r spec composed :
  describes m h = true -> vm_metric m = es_metric spec -> vm_precision m = es_precision spec ->
  vm_normalization m = es_normalization spec ->
  compose_segments h (vm_created_at m) segments = Ok composed ->
  validate_segments m h segments = Ok r ->
  with_digest (vm_manifest_digest m)
    (unsealed spec (vm_model_id m) (vm_vector_dimension m) h (vm_index m) composed (vm_storage m)
       (vm_created_at m)) = m.
Proof.
  intros Hd Hm Hp Hn Hc H. unfold validate_segments, vec_err in H. rewrite Hd, Hc in H. cbn in H.
  inv_ok.
  unfold describes in Hd. apply negb_true_iff in Hd.
  repeat match goal with Hg : (_ || _)%bool = false |- _ => apply orb_false_iff in Hg as [Hg ?] end.
  simp_bool. destruct m. unfold with_digest, unsealed. cbn in *. by subst.
Qed.

(** Staging and checking agree: for a model of the manifest's identity and shape, a check accepts a
    manifest against an input exactly when staging that input gives the manifest. *)
Theorem stage_iff_validates spec m input entries :
  validate_and_id spec = Ok (vm_model_id m) -> vm_vector_dimension m = es_dimension spec ->
  vm_metric m = es_metric spec -> vm_precision m = es_precision spec ->
  vm_normalization m = es_normalization spec ->
  stage spec input (vm_index m) entries (vm_storage m) (vm_created_at m) = Ok m
  <-> exists r, validate_against m input entries = Ok r.
Proof.
  intros Hid Hdim Hme Hp Hn. unfold stage, validate_against, stage_segments. rewrite Hid.
  cbn [rbind].
  rewrite (validate_and_id_dimension _ _ _ Hid). split.
  - intros H. inv_ok. rewrite Hok. cbn [rbind]. rewrite H in *. eauto.
  - intros [r H]. inv_ok. rename a into segments. rewrite Hok. cbn [rbind].
    pose proof H as Hv. unfold validate_segments, vec_err in H. cbn zeta in H. inv_ok.
    rewrite Hok0, Hok1. cbn [rbind]. simp_bool.
    pose proof (validate_segments_unsealed m _ _ r spec _ Hguard Hme Hp Hn Hok1 Hv) as Hm.
    rewrite <- Hdim, <- (recompute_digest_with (vm_manifest_digest m)), Hm, Hok2. cbn [rbind].
    rewrite <- Hguard1, Hm, Hv. done.
Qed.
End Segments.

(** ** What a digest binds *)

Section Binding.
Context {N : Unicode} {D : Digest}.

Abbreviation uid item := (ku_unit_id (mu_unit item)).

Definition frame_ok (f : list Z) : Prop := len f <= u32_max /\ Forall byte f.

(** *** The byte strings that are hashed *)

Definition preimage (name : string) (fs : list (list Z)) : list ascii :=
  ascii_bytes (domain name ++ flat_map frame_bytes fs).

(** The entries of a segment by their units, as [check_segment] collects them. *)
Definition entries_index (entries : list VectorEntryRef) : list (UnitId * VectorEntryRef) :=
  fold_left (fun m e => bt_insert (vh_unit_id (en_hit e)) e m) entries [].

(** What the check of a segment hashes: its units, and its entries. *)
Definition segment_hashed (units : list VectorManifestUnit) (entries : list VectorEntryRef)
    : list (list ascii) :=
  match for_each hash_unit (domain "vector-segment-units:v1" ++ frame_bytes (u64_be (len units)))
          units with
  | Ok h => [ascii_bytes h]
  | Err _ => []
  end
  ++ [preimage "vector-segment-entries:v1"
        (u64_be (len (entries_index entries)) :: flat_map (entry_frames (entries_index entries))
          units)].

(** What the composition of the segments hashes. *)
Definition composed_hashed (h : VectorManifestHeader) (cs : list VectorSegmentCheck)
    (nonindexed : list UnitId) : list (list ascii) :=
  [preimage "vector-unit-bindings:v2" (binding_frames h cs nonindexed);
   preimage "vector-index-entries:v2" (entry_set_frames h cs)].

Definition manifest_hashed (m : VectorProjectionManifest) : list (list ascii) :=
  [preimage "vector-projection-manifest:v1" (manifest_frames m)].

Definition segments_hashed (group : nat -> list VectorEntryRef)
    (numbered : list (nat * list VectorManifestUnit)) : list (list ascii) :=
  flat_map (fun e => segment_hashed e.2 (group e.1)) numbered.

(** What [validate_against] hashes: the manifest, its composed digests, and each segment. *)
Definition validation_hashed (m : VectorProjectionManifest) (input : VectorManifestInput)
    (entries : list VectorEntryRef) : list (list ascii) :=
  let rs := ranges (mi_units input) in
  manifest_hashed m
  ++ match check_input (vm_model_id m) input (vm_storage m) entries with
     | Ok cs =>
         match compose_segments (header input) (vm_created_at m) cs with
         | Ok co => composed_hashed (header input) cs (co_nonindexed co)
         | Err _ => []
         end
     | Err _ => []
     end
  ++ segments_hashed (segment_entries rs entries) (number rs).

Lemma frames_inj fs gs :
  Forall frame_ok fs -> Forall frame_ok gs ->
  flat_map frame_bytes fs = flat_map frame_bytes gs -> fs = gs.
Proof.
  intros Hf. revert gs.
  induction Hf as [|f fs [Hf _] _ IH]; intros gs Hg H; inversion Hg as [|g gs' [Hgl _] Hg'];
    subst; cbn in H; [done|done|done|].
  apply frame_inj in H as [-> H]; [|done..]. f_equal. by apply IH.
Qed.

Lemma fh_bytes_Ok bs h h' :
  fh_bytes bs h = Ok h' <-> len bs <= u32_max /\ h' = h ++ frame_bytes bs.
Proof.
  unfold fh_bytes, u32_try_from, frame_bytes, vec_err. pose proof (len_nonneg bs).
  destruct (_ && _) eqn:E.
  - simp_bool. split; [intros [= <-]; by split|by intros [_ ->]].
  - split; [done|]. intros [Hl _]. apply andb_false_iff in E as [E|E]; simp_bool; lia.
Qed.

Lemma fh_all_Ok fs h h' :
  fh_all fs h = Ok h' <-> Forall (fun f => len f <= u32_max) fs /\ h' = h ++ flat_map frame_bytes
    fs.
Proof.
  revert h. induction fs as [|f fs IH]; intros h; cbn [fh_all flat_map].
  - rewrite app_nil_r. split; [intros [= ->]; by split|by intros [_ ->]].
  - rewrite Forall_cons. split.
    + intros (h1 & [Hf ->]%fh_bytes_Ok & H)%rbind_Ok. apply IH in H as [Hfs ->].
      by rewrite <- app_assoc.
    + intros [[Hf Hfs] ->]. apply rbind_Ok. exists (h ++ frame_bytes f).
      split; [by apply fh_bytes_Ok|].
      apply IH. by rewrite <- app_assoc.
Qed.

Lemma from_be_mod w n : from_be (be (be_width w) n) = n mod 256 ^ Z.of_nat w.
Proof.
  revert n. induction w as [|w IH]; intros n; [cbn; by rewrite Z.mod_1_r|].
  rewrite Nat2Z.inj_succ, Z.pow_succ_r, be_S, from_be_snoc, IH, Z.rem_mul_r by lia. lia.
Qed.

Definition is_i128 (n : Z) : Prop := - 2 ^ 127 <= n < 2 ^ 127.
Definition time_typed (t : option Instant) : Prop := match t with Some t => is_i128 t | None =>
  True end.

Lemma i128_be_inj a b : is_i128 a -> is_i128 b -> i128_be a = i128_be b -> a = b.
Proof.
  intros Ha Hb H. change (be (be_width 16) a = be (be_width 16) b) in H.
  apply (f_equal from_be) in H. rewrite !from_be_mod in H.
  change (256 ^ Z.of_nat 16) with (2 ^ 128) in H.
  unfold is_i128 in *. pose proof (Z.div_mod a (2 ^ 128)). pose proof (Z.div_mod b (2 ^ 128)). lia.
Qed.

Lemma time_bytes_inj a b : time_typed a -> time_typed b -> time_bytes a = time_bytes b -> a = b.
Proof.
  destruct a, b; cbn -[i128_be]; intros Ha Hb H; [f_equal; by apply i128_be_inj|done..].
Qed.

Lemma u64_word_inj a b : is_u64 a -> is_u64 b -> u64_be a = u64_be b -> a = b.
Proof.
  intros Ha Hb H. pose proof (read_enc _ _ _ u64_codec a [] Ha) as H1.
  rewrite H, (read_enc _ _ _ u64_codec b [] Hb) in H1. congruence.
Qed.

Lemma to_hex_inj : Inj (=) (=) to_hex.
Proof. intros a b H. by rewrite <- (unhex_to_hex a), <- (unhex_to_hex b), H. Qed.

Lemma digest_string_inj : Inj (=) (=) digest_string.
Proof.
  intros a b H. unfold digest_string in H. cbn [String.append] in H. repeat injection H as H.
  apply vec_to_list_inj2. by apply to_hex_inj.
Qed.

Lemma UnitId_display_inj : Inj (=) (=) UnitId_display.
Proof.
  intros a b H. unfold UnitId_display in H. cbn [String.append] in H. repeat injection H as H.
  apply vec_to_list_inj2. by apply to_hex_inj.
Qed.

(** Frames of equal digests are equal. *)
Lemma finish_frames d fs gs h h' :
  Forall byte (domain d) -> Forall (Forall byte) fs -> Forall (Forall byte) gs ->
  fh_all fs (domain d) = Ok h -> fh_all gs (domain d) = Ok h' ->
  fh_finish h = fh_finish h' -> fs = gs \/ collision [preimage d fs] [preimage d gs].
Proof.
  intros Hd Hf Hg H H' He. apply fh_all_Ok in H as [Hl ->], H' as [Hl' ->].
  assert (Forall frame_ok fs /\ Forall frame_ok gs) as [Hfo Hgo].
  { rewrite Forall_forall in Hf, Hg, Hl, Hl'.
    split; apply Forall_forall; intros f Hin; split; auto. }
  assert (forall ks, Forall frame_ok ks -> Forall byte (domain d ++ flat_map frame_bytes ks)) as Hb.
  { intros ks Hk. apply Forall_app. split; [done|].
    induction Hk as [|k ks [_ Hk] _ IH]; cbn [flat_map]; [constructor|].
    apply Forall_app. split; [by apply frame_bytes_byte|done]. }
  destruct (decide (ascii_bytes (domain d ++ flat_map frame_bytes fs)
                    = ascii_bytes (domain d ++ flat_map frame_bytes gs))) as [Ha|Hne].
  - left. apply ascii_bytes_inj in Ha; [|by apply Hb..]. apply app_inv_head in Ha.
    by apply frames_inj.
  - right. exists (preimage d fs), (preimage d gs). split_and!; [by left|by left|done|exact He].
Qed.

Lemma domain_bytes d : Forall byte (domain d).
Proof. apply Forall_app. split; [apply bytes_byte|by repeat constructor]. Qed.

Lemma hash_bytes_byte h : Forall byte (hash_bytes h).
Proof.
  apply Forall_forall. intros z (c & -> & _)%list_elem_of_fmap.
  unfold byte, byte_of_ascii. pose proof (N_ascii_bounded c). lia.
Qed.

Lemma uuid_bytes_byte u : Forall byte (uuid_bytes u).
Proof.
  apply Forall_forall. intros z (c & -> & _)%list_elem_of_fmap.
  unfold byte, byte_of_ascii. pose proof (N_ascii_bounded c). lia.
Qed.

Lemma time_bytes_byte t : Forall byte (time_bytes t).
Proof. destruct t; [apply be_byte|constructor]. Qed.

Lemma map_bytes_byte {A} (f : A -> string) l : Forall (Forall byte) (map (fun x => bytes (f x)) l).
Proof. apply Forall_map, Forall_forall. intros x _. apply bytes_byte. Qed.

(** The model's values of machine types are in range, and a [Vec] is shorter than [u64::MAX]. *)
Definition key_typed (k : ProjectionGenerationKey) : Prop :=
  (gk_source_id k < 2 ^ 128)%N /\ (gk_generation_id k < 2 ^ 128)%N.
Definition manifest_typed (m : VectorProjectionManifest) : Prop :=
  is_u32 (vm_schema_version m) /\ key_typed (vm_bundle_key m) /\ time_typed (vm_lease_expires_at m)
  /\ is_u32 (vm_vector_dimension m) /\ is_u64 (len (vm_extraction_profiles m))
  /\ is_u64 (vm_indexed_unit_count m) /\ is_u64 (len (vm_nonindexed_retention_unit_ids m))
  /\ is_i128 (vm_created_at m).

(** Splits a list of frames, and shows the bytes of each field that is not a tag. *)
Ltac frame_bytes_tac :=
  repeat lazymatch goal with
  | |- Forall _ [] => constructor
  | |- Forall _ (_ :: _) => apply Forall_cons_2
  | |- Forall _ (_ ++ _) => apply Forall_app; split
  | |- Forall byte (bytes _) => apply bytes_byte
  | |- Forall byte (hash_bytes _) => apply hash_bytes_byte
  | |- Forall byte (uuid_bytes _) => apply uuid_bytes_byte
  | |- Forall byte (u32_be _) => apply be_byte
  | |- Forall byte (u64_be _) => apply be_byte
  | |- Forall byte (i128_be _) => apply be_byte
  | |- Forall byte (time_bytes _) => apply time_bytes_byte
  | |- Forall _ (map bytes _) => apply (map_bytes_byte (fun x => x))
  | |- Forall _ (map _ _) => apply map_bytes_byte
  end.

Lemma manifest_frames_byte m : Forall (Forall byte) (manifest_frames m).
Proof.
  unfold manifest_frames, key_frames. frame_bytes_tac;
    unfold byte, VectorMetric_tag, VectorPrecision_tag, VectorNormalization_tag,
      VectorStorageKind_tag;
    case_match; lia.
Qed.

Ltac cons_eq := repeat match goal with H : _ :: _ = _ :: _ |- _ => apply cons_eq_inj in H as [? H]
  end.

Ltac frame_eqs :=
  repeat match goal with
  | H : bytes _ = bytes _ |- _ => apply bytes_injective in H
  | H : hash_bytes _ = hash_bytes _ |- _ => apply hash_bytes_inj in H
  | H : UnitId_display _ = UnitId_display _ |- _ => apply UnitId_display_inj in H
  | H : uuid_bytes _ = uuid_bytes _ |- _ => apply uuid_bytes_inj in H; [|done..]
  | H : u32_be _ = u32_be _ |- _ => apply u32_word_inj in H; [|done..]
  | H : u64_be _ = u64_be _ |- _ => apply u64_word_inj in H; [|done..]
  | H : i128_be _ = i128_be _ |- _ => apply i128_be_inj in H; [|done..]
  | H : time_bytes _ = time_bytes _ |- _ => apply time_bytes_inj in H; [|done..]
  | H : [_] = [_] |- _ => injection H as H
  end.

(** A tag determines its value. *)
Ltac tag_eq t :=
  match goal with H : t ?a = t ?b |- _ =>
    let E := fresh "Htag" in assert (a = b) as E by (revert H; destruct a, b; done); clear H end.

Lemma map_app_eq {A B} (f : A -> B) `{!Inj (=) (=) f} l l' k k' :
  len l = len l' -> map f l ++ k = map f l' ++ k' -> l = l' /\ k = k'.
Proof.
  intros Hl H. apply app_inj_1 in H as [Hm ->].
  - split; [|done]. revert Hm. by apply list_fmap_eq_inj.
  - rewrite !length_map. by apply Nat2Z.inj.
Qed.

#[local] Instance display_frame_inj : Inj (=) (=) (fun id => bytes (UnitId_display id)).
Proof. by intros a b H%bytes_injective%UnitId_display_inj. Qed.
#[local] Existing Instance bytes_injective.

Lemma manifest_frames_inj m m' :
  manifest_typed m -> manifest_typed m' -> manifest_frames m = manifest_frames m' ->
  with_digest "" m = with_digest "" m'.
Proof.
  intros (? & [? ?] & ? & ? & ? & ? & ? & ?) (? & [? ?] & ? & ? & ? & ? & ? & ?) He.
  unfold manifest_frames, key_frames in He. cbn [app] in He. cons_eq. frame_eqs.
  apply (map_app_eq bytes) in He as [? He]; [|done..]. cons_eq. frame_eqs.
  apply (map_app_eq (fun id => bytes (UnitId_display id))) in He as [? He]; [|done..]. cons_eq.
  frame_eqs.
  tag_eq VectorMetric_tag. tag_eq VectorPrecision_tag. tag_eq VectorNormalization_tag.
  tag_eq VectorStorageKind_tag.
  assert (vm_persistence_declared m = vm_persistence_declared m') by (by repeat case_match).
  assert (vm_readiness m = vm_readiness m') by (by destruct (vm_readiness m), (vm_readiness m')).
  destruct m, m'. repeat match goal with k : ProjectionGenerationKey |- _ => destruct k end.
  repeat match goal with k : VectorIndexDescriptor |- _ => destruct k end.
  unfold with_digest. cbn in *. by subst.
Qed.

(** A manifest digest identifies the manifest, unless the two encodings are different byte strings
  of
    one digest. *)
Theorem manifest_digest_identifies m m' d :
  manifest_typed m -> manifest_typed m' ->
  recompute_digest m = Ok d -> recompute_digest m' = Ok d ->
  with_digest "" m = with_digest "" m' \/ collision (manifest_hashed m) (manifest_hashed m').
Proof.
  intros Ht Ht' H H'. apply rbind_Ok in H as (h & Hh & H), H' as (h' & Hh' & H').
  apply Ok_inj in H as <-. apply Ok_inj, digest_string_inj in H' as He. symmetry in He.
  destruct (finish_frames _ _ _ _ _ (domain_bytes _) (manifest_frames_byte m) (manifest_frames_byte
    m') Hh Hh' He)
    as [Hf|Hc]; [left|by right]. by apply manifest_frames_inj.
Qed.

Definition unit_frames (item : VectorManifestUnit) (loc : list Z) : list (list Z) :=
  unit_frames_head item ++ loc :: unit_frames_tail item.

Definition unit_typed (item : VectorManifestUnit) : Prop :=
  version_typed (ku_version (mu_unit item)) /\ is_u32 (cp_ordinal (ku_part (mu_unit item)))
  /\ is_u32 (ku_ordinal (mu_unit item)) /\ is_u64 (rw_size_bytes (up_raw (ku_provenance (mu_unit
    item))))
  /\ locator_typed (ku_locator (mu_unit item)) /\ time_typed (va_lease_expires_at (mu_authority
    item)).

Abbreviation encodes item loc := (locator_encode (ku_locator (mu_unit item)) = Ok loc).

Lemma hash_units_frames units h h' :
  for_each hash_unit h units = Ok h' ->
  exists locs, Forall2 (fun item loc => encodes item loc) units locs
    /\ fh_all (concat (zip_with unit_frames units locs)) h = Ok h'.
Proof.
  revert h. induction units as [|item units IH]; intros h; cbn [for_each].
  - intros [= <-]. by exists [].
  - intros H. inv_ok. apply IH in H as (locs & Hl & Ha). unfold hash_unit, from_unit in Hok. inv_ok.
    rename a0 into x, a1 into loc. exists (loc :: locs). split; [by constructor|].
    cbn [zip_with concat].
    rewrite fh_all_Ok in Hok0, Hok, Ha |- *. apply fh_bytes_Ok in Hok2 as [Hlen ->].
    destruct Hok0 as [H1 ->], Hok as [H2 ->], Ha as [H3 ->]. unfold unit_frames.
    rewrite !flat_map_app. cbn [flat_map]. rewrite <- !app_assoc. split; [|done].
    apply Forall_app. split; [done|]. apply Forall_app. split; [by constructor|exact H3].
Qed.

Lemma bound_to_authority h item :
  unit_bound h item ->
  let u := mu_unit item in let a := mu_authority item in
  va_generation a = mh_bundle_key h /\ up_source_snapshot (ku_provenance u) = mh_source_snapshot h
  /\ va_version a = ku_version u /\ va_part a = ku_part u
  /\ va_authoritative_representation_ref a = up_authoritative_representation_ref (ku_provenance u)
  /\ va_raw a = up_raw (ku_provenance u) /\ va_profile a = up_profile (ku_provenance u).
Proof.
  intros [Hv Hb]. cbn zeta. unfold bound_to in Hb. apply negb_true_iff in Hb.
  unfold validate_pinned, vec_err in Hv. cbn zeta in Hv.
  destruct (_ || _) in Hv; [done|]. apply rbind_Ok in Hv as (id & _ & Hv).
  destruct (_ || _) eqn:Hg in Hv; [done|]. clear Hv.
  repeat match goal with Hx : (_ || _)%bool = false |- _ => apply orb_false_iff in Hx as [Hx ?] end.
  match goal with Hx : negb (matches_pinned_unit _ _ _) = false |- _ =>
    apply negb_false_iff in Hx; unfold matches_pinned_unit, hit_for in Hx; cbn in Hx end.
  simp_bool. by split_and!.
Qed.

Lemma parent_frames_inj (p p' : option UnitId) (k k' : list (list Z)) :
  match p with Some parent => [[1]; bytes (UnitId_display parent)] | None => [[0]] end ++ k
  = match p' with Some parent => [[1]; bytes (UnitId_display parent)] | None => [[0]] end ++ k' ->
  p = p' /\ k = k'.
Proof.
  destruct p, p'; cbn [app]; intros He; cons_eq; frame_eqs; by subst.
Qed.

Lemma inner_format_inj (f f' : option FormatId) :
  match f with Some f => FormatId_tag f | None => 0 end
  = match f' with Some f => FormatId_tag f | None => 0 end -> f = f'.
Proof. destruct f as [f|], f' as [f'|]; [|by destruct f|by destruct f'|done]. by destruct f, f'.
  Qed.

Lemma unit_frames_inj h h' item item' loc loc' rest rest' :
  mh_bundle_key h = mh_bundle_key h' -> mh_source_snapshot h = mh_source_snapshot h' ->
  unit_typed item -> unit_typed item' -> unit_bound h item -> unit_bound h' item' ->
  encodes item loc -> encodes item' loc' ->
  unit_frames item loc ++ rest = unit_frames item' loc' ++ rest' -> item = item' /\ rest = rest'.
Proof.
  intros Hk Hs ([? ?] & ? & ? & ? & ? & ?) ([? ?] & ? & ? & ? & ? & ?) Hb Hb' Hl Hl' He.
  apply bound_to_authority in Hb as (? & ? & ? & ? & ? & ? & ?).
  apply bound_to_authority in Hb' as (? & ? & ? & ? & ? & ? & ?).
  unfold unit_frames, unit_frames_head, unit_frames_tail in He. cbn [app] in He. cons_eq.
  rewrite <- !app_assoc in He. apply parent_frames_inj in He as [? He]. cbn [app] in He. cons_eq.
  frame_eqs. tag_eq unit_kind_tag. tag_eq FormatId_tag. tag_eq retention_tag.
  tag_eq VectorUnitCoverage_tag.
  match goal with Hx : match _ with _ => _ end = _ |- _ => apply inner_format_inj in Hx end.
  subst loc'. assert (ku_locator (mu_unit item) = ku_locator (mu_unit item'))
    by (by eapply locator_encode_inj).
  split; [|done].
  destruct item as [[? [] [] ? ? ? ? ? ? [? ? [] ? ? ? ?]] [] ?],
    item' as [[? [] [] ? ? ? ? ? ? [? ? [] ? ? ? ?]] [] ?]; cbn in *. congruence.
Qed.

Abbreviation encoded units locs := (Forall2 (fun item loc => encodes item loc) units locs).

Lemma units_frames_inj h h' units units' locs locs' :
  mh_bundle_key h = mh_bundle_key h' -> mh_source_snapshot h = mh_source_snapshot h' ->
  Forall unit_typed units -> Forall unit_typed units' ->
  Forall (unit_bound h) units -> Forall (unit_bound h') units' ->
  encoded units locs -> encoded units' locs' ->
  concat (zip_with unit_frames units locs) = concat (zip_with unit_frames units' locs') ->
  units = units'.
Proof.
  intros Hk Hs Ht Ht' Hb Hb' Hl. revert units' locs' Ht' Hb' Ht Hb.
  induction Hl as [|item loc units locs Hi Hl IH]; intros units' locs' Ht' Hb' Ht Hb Hl' He;
    inversion Hl' as [|item' loc' us ls Hi' Hls]; subst; cbn [zip_with concat] in He; [done..|].
  apply Forall_cons in Ht as [? Ht], Hb as [? Hb], Ht' as [? Ht'], Hb' as [? Hb'].
  eapply unit_frames_inj in He as [-> He]; [|exact Hk|exact Hs|done..]. f_equal. by eapply IH.
Qed.

Lemma unit_frames_byte item loc : Forall byte loc -> Forall (Forall byte) (unit_frames item loc).
Proof.
  intros Hl. unfold unit_frames, unit_frames_head, unit_frames_tail. destruct (ku_parent_unit_id _);
  frame_bytes_tac; try done;
    unfold byte, unit_kind_tag, FormatId_tag, retention_tag, VectorUnitCoverage_tag;
      repeat case_match; lia.
Qed.

Lemma encoded_byte units locs :
  encoded units locs -> Forall unit_typed units ->
  Forall (Forall byte) (concat (zip_with unit_frames units locs)).
Proof.
  induction 1 as [|item loc units locs Hi _ IH]; intros Ht; cbn [zip_with concat]; [constructor|].
  apply Forall_cons in Ht as [(_ & _ & _ & _ & Ht & _) Hts]. apply Forall_app.
  split; [|by apply IH].
  apply unit_frames_byte. apply locator_encode_Ok in Hi as [_ ->]; [|done].
  apply prefix_bytes, payload_bytes.
Qed.

(** What a segment check feeds the digest of the units. *)
Lemma check_segment_bindings model_id h storage units entries c :
  check_segment model_id h storage units entries = Ok c ->
  exists locs b, encoded units locs
    /\ fh_all (u64_be (len units) :: concat (zip_with unit_frames units locs))
         (domain "vector-segment-units:v1") = Ok b
    /\ sc_bindings_digest c = fh_finish b /\ ascii_bytes b ∈ segment_hashed units entries.
Proof.
  intros H. unfold check_segment, vec_err in H. cbn zeta in H. inv_ok. subst c.
  match goal with Hu : for_each hash_unit ?b units = Ok ?b', Hb : fh_bytes _ _ = Ok ?b |- _ =>
    pose proof Hu as Hh; apply hash_units_frames in Hu as (locs & Hl & Ha); exists locs, b';
    cbn [fh_all]; rewrite Hb; apply fh_bytes_Ok in Hb as [_ ->];
    unfold segment_hashed; rewrite Hh end.
  split_and!; [done|done|done|by left].
Qed.

(** A collision of parts of what is hashed is one of the whole. *)
Ltac mono := apply collision_mono; intros ? ?; rewrite ?elem_of_app; by auto.

(** A collision of what a hasher was fed. *)
Lemma fh_all_collision d fs gs h h' xs ys :
  fh_all fs (domain d) = Ok h -> fh_all gs (domain d) = Ok h' ->
  ascii_bytes h ∈ xs -> ascii_bytes h' ∈ ys ->
  collision [preimage d fs] [preimage d gs] -> collision xs ys.
Proof.
  intros [_ ->]%fh_all_Ok [_ ->]%fh_all_Ok Hx Hy.
  by apply collision_mono; intros z ->%list_elem_of_singleton.
Qed.

Lemma segment_binds model_id model_id' h h' storage storage' units units' entries entries' c c' :
  mh_bundle_key h = mh_bundle_key h' -> mh_source_snapshot h = mh_source_snapshot h' ->
  Forall unit_typed units -> Forall unit_typed units' ->
  check_segment model_id h storage units entries = Ok c ->
  check_segment model_id' h' storage' units' entries' = Ok c' ->
  sc_bindings_digest c = sc_bindings_digest c' ->
  units = units' \/ collision (segment_hashed units entries) (segment_hashed units' entries').
Proof.
  intros Hk Hs Ht Ht' H H' He.
  pose proof (check_segment_covers _ _ _ _ _ _ H) as [(_ & _ & Hb & _) _].
  pose proof (check_segment_covers _ _ _ _ _ _ H') as [(_ & _ & Hb' & _) _].
  apply check_segment_bindings in H as (locs & b & Hl & Ha & Hd & Hin).
  apply check_segment_bindings in H' as (locs' & b' & Hl' & Ha' & Hd' & Hin').
  rewrite Hd, Hd' in He.
  eapply finish_frames in He as [He|Hc];
    [|right; eapply fh_all_collision; [exact Ha|exact Ha'|done..]|apply domain_bytes| | |exact Ha
    |exact Ha'].
  - left. cons_eq. by eapply units_frames_inj.
  - constructor; [apply be_byte|by eapply encoded_byte].
  - constructor; [apply be_byte|by eapply encoded_byte].
Qed.

Abbreviation eid entry := (vh_unit_id (en_hit entry)).

Lemma check_entry_index model_id sets seen e indexed :
  check_entry model_id sets (entries_index seen) e = Ok indexed -> indexed = entries_index (seen ++
    [e]).
Proof.
  intros H. unfold check_entry, vec_err in H. cbn zeta in H. inv_ok. unfold entries_index.
  by rewrite fold_left_app.
Qed.

(** What a segment check feeds the digest of the entries. *)
Lemma check_segment_entries model_id h storage units entries c :
  check_segment model_id h storage units entries = Ok c ->
  let indexed := entries_index entries in
  exists b, entries_of model_id storage h units entries indexed
    /\ fh_all (u64_be (len indexed) :: flat_map (entry_frames indexed) units)
         (domain "vector-segment-entries:v1") = Ok b
    /\ sc_entries_digest c = fh_finish b.
Proof.
  intros H. unfold check_segment, vec_err in H. cbn zeta in H. inv_ok. subst c.
  apply (for_each_prefix (sets_of storage h (ku_version (mu_unit a)) (ku_part (mu_unit a)))) in
    Hok0;
    [|by split_and!; constructor|intros; by eapply check_unit_sets].
  apply (for_each_prefix (fun es indexed =>
    entries_of model_id storage h units es indexed /\ indexed = entries_index es)) in Hok2 as [He
      ->];
    [|by split; [split_and!; constructor|]|intros seen m e m' [? ->] ?; split;
      [by eapply check_entry_entries|by eapply check_entry_index]].
  match goal with Ha : fh_all (flat_map _ _) ?b = Ok ?b', Hb : fh_bytes _ _ = Ok ?b |- _ =>
    exists b'; cbn [fh_all]; rewrite Hb end.
  done.
Qed.

(** An accepted entry is determined by its unit and its vector. *)
Lemma entry_determined model_id storage storage' h h' units e e' :
  NoDup (map (fun item => uid item) units) ->
  entry_bound model_id storage h units e -> entry_bound model_id storage' h' units e' ->
  eid e = eid e' -> en_vector_digest e = en_vector_digest e' -> e = e'.
Proof.
  intros Hn (i & Hi & Hu & _ & Hm & Hk & Hh & Hc) (i' & Hi' & Hu' & _ & Hm' & Hk' & Hh' & Hc') He
    Hd.
  assert (i = i') as <- by (eapply NoDup_uid_inj; [done..|congruence]).
  unfold matches_pinned_unit, cache_key_matches_authority in *. simp_bool.
  destruct e as [[] ? ? []], e' as [[] ? ? []]; cbn in *. congruence.
Qed.

(** A unit of a checked segment is indexed unless it is prohibited. *)
Lemma indexed_iff model_id storage h units entries indexed item :
  covers model_id storage h units entries -> entries_of model_id storage h units entries indexed ->
  item ∈ units -> is_some (bt_get (uid item) indexed) = true <-> uid item ∉ prohibited_ids storage
    h units.
Proof.
  intros (Hn & Hp & _) (Hw & Hpe & _) Hi. rewrite <- bt_keys, Hpe, map_map by done. cbn.
  assert (uid item ∈ map (fun e => eid e) entries ++ prohibited_ids storage h units) as Hin.
  { rewrite Hp. apply list_elem_of_fmap. by exists item. }
  rewrite <- Hp in Hn. apply NoDup_app in Hn as (_ & Hd & _). apply elem_of_app in Hin as [Hin|Hin].
  - split; [|done]. intros _. by apply Hd.
  - split; [intros Hx; by apply Hd in Hx|done].
Qed.

Lemma entry_frames_digests (i i' : list (UnitId * VectorEntryRef)) us :
  (forall item, item ∈ us -> is_some (bt_get (uid item) i) = is_some (bt_get (uid item) i')) ->
  flat_map (entry_frames i) us = flat_map (entry_frames i') us ->
  Forall (fun item => option_map en_vector_digest (bt_get (uid item) i)
                    = option_map en_vector_digest (bt_get (uid item) i')) us.
Proof.
  induction us as [|item us IH]; intros Hs He; [constructor|]. cbn [flat_map] in He.
  pose proof (Hs item ltac:(by left)) as Hi. unfold entry_frames at 1 3 in He.
  assert (forall item, item ∈ us -> is_some (bt_get (uid item) i) = is_some (bt_get (uid item) i'))
    as Hs'
    by (intros; apply Hs; by right).
  destruct (bt_get (uid item) i) eqn:E, (bt_get (uid item) i') eqn:E'; cbn in Hi; [|done..|].
  - cbn [app] in He. cons_eq. frame_eqs. constructor; [rewrite E, E'; cbn; congruence|by apply IH].
  - constructor; [by rewrite E, E'|by apply IH].
Qed.

Lemma entries_of_bound model_id storage h units entries indexed id e :
  entries_of model_id storage h units entries indexed -> bt_get id indexed = Some e ->
  eid e = id /\ entry_bound model_id storage h units e.
Proof.
  intros (Hw & Hp & Hb) Hg%bt_get_elem; [|done]. rewrite Hp in Hg.
  apply list_elem_of_fmap in Hg as (e' & [= -> ->] & Hin). rewrite Forall_forall in Hb.
  split; [done|auto].
Qed.

Lemma indexed_incl model_id h h' storage units entries entries' i i' k e :
  NoDup (map (fun item => uid item) units) ->
  entries_of model_id storage h units entries i -> entries_of model_id storage h' units entries' i'
    ->
  Forall (fun item => option_map en_vector_digest (bt_get (uid item) i)
                    = option_map en_vector_digest (bt_get (uid item) i')) units ->
  bt_get k i = Some e -> bt_get k i' = Some e.
Proof.
  intros Hn Hi Hi' Hd Hg. destruct (entries_of_bound _ _ _ _ _ _ _ _ Hi Hg) as [Hk Hb].
  pose proof Hb as (item & Hin & Hu & _). rewrite Forall_forall in Hd. specialize (Hd item Hin).
  rewrite Hu, Hk, Hg in Hd. destruct (bt_get k i') as [e'|] eqn:Hg'; [|done]. cbn in Hd.
  destruct (entries_of_bound _ _ _ _ _ _ _ _ Hi' Hg') as [Hk' Hb'].
  f_equal. symmetry. eapply entry_determined; [done|exact Hb|exact Hb'|congruence|congruence].
Qed.

Lemma entry_frames_byte i us : Forall (Forall byte) (flat_map (entry_frames i) us).
Proof.
  induction us as [|item us IH]; cbn [flat_map]; [constructor|]. apply Forall_app. split; [|done].
  unfold entry_frames. destruct (bt_get _ _); frame_bytes_tac.
Qed.

(** Two checks of the same units that give the same digest of the entries have the same entries. *)
Lemma segment_binds_entries model_id h h' storage units entries entries' c c' :
  prohibited storage h = prohibited storage h' ->
  check_segment model_id h storage units entries = Ok c ->
  check_segment model_id h' storage units entries' = Ok c' ->
  sc_entries_digest c = sc_entries_digest c' ->
  Permutation entries entries' \/ collision (segment_hashed units entries) (segment_hashed units
    entries').
Proof.
  intros Hpr H H' He.
  pose proof (check_segment_covers _ _ _ _ _ _ H) as [Hc _].
  pose proof (check_segment_covers _ _ _ _ _ _ H') as [Hc' _].
  apply check_segment_entries in H as (b & Hi & Ha & Hd), H' as (b' & Hi' & Ha' & Hd').
  rewrite Hd, Hd' in He.
  eapply finish_frames in He as [He|Hx]; [|right|apply domain_bytes| | |exact Ha|exact Ha'];
    [left| |constructor; [apply be_byte|apply entry_frames_byte]..].
  2: { eapply collision_mono; [..|exact Hx]; intros x ->%list_elem_of_singleton;
         apply elem_of_app; right; by left. }
  revert Hi Hi' He. generalize (entries_index entries), (entries_index entries').
  intros i i' Hi Hi' He.
  cons_eq. apply entry_frames_digests in He.
  - assert (i = i') as <-.
    { apply bt_ext; [apply Hi|apply Hi'|]. intros k. apply option_eq. intros e. split.
      - eapply indexed_incl; [apply Hc|exact Hi|exact Hi'|exact He].
      - eapply indexed_incl; [apply Hc'|exact Hi'|exact Hi|].
        eapply Forall_impl; [exact He|]. cbn. congruence. }
    destruct Hi as (_ & Hp & _), Hi' as (_ & Hp' & _). rewrite Hp in Hp'.
    apply (Permutation_map snd) in Hp'. rewrite !map_map in Hp'. cbn in Hp'.
    by rewrite !map_id in Hp'.
  - intros item Hin. pose proof (indexed_iff _ _ _ _ _ _ item Hc Hi Hin) as H1.
    pose proof (indexed_iff _ _ _ _ _ _ item Hc' Hi' Hin) as H2.
    unfold prohibited_ids in H1, H2. rewrite Hpr in H1. apply eq_bool_prop_intro.
    rewrite !Is_true_true. by rewrite H1, H2.
Qed.

(** ** Manifests *)

Lemma hash_word_ne (h : Hash32) n : hash_bytes h <> u64_be n.
Proof.
  intros H%(f_equal length). unfold hash_bytes in H. by rewrite length_map, length_vec_to_list in H.
Qed.

Lemma binding_frames_digests h h' cs cs' ni ni' :
  binding_frames h cs ni = binding_frames h' cs' ni' ->
  map sc_bindings_digest cs = map sc_bindings_digest cs'.
Proof.
  unfold binding_frames, key_frames. cbn [app]. intros He. cons_eq. clear -He. revert cs' He.
  induction cs as [|c cs IH]; intros [|c' cs'] He; cbn [flat_map app] in He; [done|..].
  - cons_eq. symmetry in H. by apply hash_word_ne in H.
  - cons_eq. by apply hash_word_ne in H.
  - cons_eq. frame_eqs. cbn. f_equal; [done|by apply IH].
Qed.

Lemma entry_set_frames_digests h h' cs cs' :
  entry_set_frames h cs = entry_set_frames h' cs' ->
  map sc_entries_digest cs = map sc_entries_digest cs'.
Proof.
  unfold entry_set_frames, key_frames. cbn [app]. intros He. cons_eq. clear -He. revert cs' He.
  induction cs as [|c cs IH]; intros [|c' cs'] He; cbn [flat_map app] in He; [done..|].
  cons_eq. frame_eqs. cbn. f_equal; [done|by apply IH].
Qed.

Lemma binding_frames_byte h cs ni : Forall (Forall byte) (binding_frames h cs ni).
Proof.
  unfold binding_frames, key_frames. frame_bytes_tac.
  induction cs; cbn [flat_map]; [constructor|]. by frame_bytes_tac.
Qed.

Lemma entry_set_frames_byte h cs : Forall (Forall byte) (entry_set_frames h cs).
Proof.
  unfold entry_set_frames, key_frames. frame_bytes_tac.
  induction cs; cbn [flat_map]; [constructor|]. by frame_bytes_tac.
Qed.

Lemma compose_digests h created_at cs co :
  compose_segments h created_at cs = Ok co ->
  exists b e, fh_all (binding_frames h cs (co_nonindexed co)) (domain "vector-unit-bindings:v2") = Ok b
    /\ fh_all (entry_set_frames h cs) (domain "vector-index-entries:v2") = Ok e
    /\ co_bindings_digest co = digest_string (fh_finish b)
    /\ co_entries_digest co = digest_string (fh_finish e).
Proof.
  intros H. unfold compose_segments, vec_err in H. cbn zeta in H. inv_ok. subst co.
  cbn [co_nonindexed co_bindings_digest co_entries_digest].
  do 2 eexists. split_and!; [eassumption|eassumption|done|done].
Qed.

(** Composed digests determine the digests of the segments. *)
Lemma compose_binds h h' t t' cs cs' co co' :
  compose_segments h t cs = Ok co -> compose_segments h' t' cs' = Ok co' ->
  co_bindings_digest co = co_bindings_digest co' -> co_entries_digest co = co_entries_digest co' ->
  (map sc_bindings_digest cs = map sc_bindings_digest cs'
   /\ map sc_entries_digest cs = map sc_entries_digest cs')
  \/ collision (composed_hashed h cs (co_nonindexed co)) (composed_hashed h' cs' (co_nonindexed
    co')).
Proof.
  intros (b & e & Hb & He & Db & De)%compose_digests (b' & e' & Hb' & He' & Db' &
    De')%compose_digests Eb Ee.
  rewrite Db, Db' in Eb. rewrite De, De' in Ee. apply digest_string_inj in Eb, Ee.
  eapply finish_frames in Eb as [Eb|Hc];
    [|right; eapply collision_mono; [..|exact Hc]; intros x ->%list_elem_of_singleton;
      by left|apply domain_bytes|apply binding_frames_byte|apply binding_frames_byte|exact
      Hb|exact Hb'].
  eapply finish_frames in Ee as [Ee|Hc];
    [|right; eapply collision_mono; [..|exact Hc]; intros x ->%list_elem_of_singleton; right;
      by left|apply domain_bytes|apply entry_set_frames_byte|apply entry_set_frames_byte|exact
      He|exact He'].
  left. split; [by eapply binding_frames_digests|by eapply entry_set_frames_digests].
Qed.

Lemma segments_bind model_id h h' storage group group' i rs rs' cs cs' :
  mh_bundle_key h = mh_bundle_key h' -> mh_source_snapshot h = mh_source_snapshot h' ->
  prohibited storage h = prohibited storage h' ->
  Forall unit_typed (concat rs) -> Forall unit_typed (concat rs') ->
  Forall2 (fun e c => check_segment model_id h storage e.2 (group e.1) = Ok c)
    (combine (seq i (length rs)) rs) cs ->
  Forall2 (fun e c => check_segment model_id h' storage e.2 (group' e.1) = Ok c)
    (combine (seq i (length rs')) rs') cs' ->
  map sc_bindings_digest cs = map sc_bindings_digest cs' ->
  map sc_entries_digest cs = map sc_entries_digest cs' ->
  (rs = rs' /\ Permutation (flat_map group (seq i (length rs))) (flat_map group' (seq i (length
    rs'))))
  \/ collision (segments_hashed group (combine (seq i (length rs)) rs))
       (segments_hashed group' (combine (seq i (length rs')) rs')).
Proof.
  intros Hk Hs Hpr. revert i rs' cs cs'.
  induction rs as [|r rs IH]; intros i [|r' rs'] cs cs' Ht Ht' H H' Hb He; cbn in H, H';
    inversion H as [|? c ? ks Hc Hcs]; inversion H' as [|? c' ? ks' Hc' Hcs']; subst;
      [by left|done|done|].
  cbn [map concat] in *. cons_eq. apply Forall_app in Ht as [Ht Hts], Ht' as [Ht' Hts'].
  cbn [fst snd] in Hc, Hc'. unfold segments_hashed in *.
  cbn [length seq combine flat_map fst snd].
  destruct (segment_binds _ _ _ _ _ _ _ _ _ _ _ _ Hk Hs Ht Ht' Hc Hc') as [<-|Hx];
    [done| |right; revert Hx; mono].
  destruct (segment_binds_entries _ _ _ _ _ _ _ _ _ Hpr Hc Hc') as [Hp|Hx];
    [done| |right; revert Hx; mono].
  destruct (IH _ _ _ _ Hts Hts' Hcs Hcs') as [[<- Hps]|Hx]; [done|done| |right].
  2: { revert Hx. mono. }
  left. split; [done|]. cbn. by rewrite Hp, Hps.
Qed.

Lemma with_digest_eq d m m' :
  with_digest d m = with_digest d m' -> vm_manifest_digest m = vm_manifest_digest m' -> m = m'.
Proof. destruct m, m'. unfold with_digest. cbn. intros H ->. injection H. intros. by subst. Qed.

(** What an accepted manifest was checked with. *)
Lemma validated_parts m input entries r :
  validate_against m input entries = Ok r ->
  exists cs co, check_input (vm_model_id m) input (vm_storage m) entries = Ok cs
    /\ compose_segments (header input) (vm_created_at m) cs = Ok co
    /\ vm_unit_bindings_digest m = co_bindings_digest co
    /\ vm_indexed_entries_digest m = co_entries_digest co
    /\ recompute_digest m = Ok (vm_manifest_digest m)
    /\ vm_bundle_key m = mh_bundle_key (header input)
    /\ vm_source_snapshot m = mh_source_snapshot (header input)
    /\ vm_persistence_declared m = mi_source_declares_persistent_embedding_permission input.
Proof.
  intros H. unfold validate_against in H. inv_ok. unfold validate_segments, vec_err in H.
  cbn zeta in H. inv_ok. exists a, a1. unfold describes in Hguard. simp_bool.
  repeat match goal with Hg : (_ || _)%bool = false |- _ => apply orb_false_iff in Hg as [Hg ?] end.
  simp_bool. split_and!; try done. congruence.
Qed.

(** C33: The digest of an accepted manifest binds what it was accepted for: two accepted manifests
  of
    one digest are one manifest, of the same units in the same order and of the same entries, unless
    two different byte strings, each hashed by one of the two validations, have one digest. *)
Theorem manifest_binds_input m m' input input' entries entries' r r' :
  manifest_typed m -> manifest_typed m' ->
  Forall unit_typed (mi_units input) -> Forall unit_typed (mi_units input') ->
  validate_against m input entries = Ok r -> validate_against m' input' entries' = Ok r' ->
  vm_manifest_digest m = vm_manifest_digest m' ->
  (m = m' /\ mi_units input = mi_units input' /\ Permutation entries entries')
  \/ collision (validation_hashed m input entries) (validation_hashed m' input' entries').
Proof.
  intros Hm Hm' Ht Ht' H H' Hd.
  apply validated_parts in H as (cs & co & Hi & Hc & Hb & He & Hr & Hk & Hs & Hp).
  apply validated_parts in H' as (cs' & co' & Hi' & Hc' & Hb' & He' & Hr' & Hk' & Hs' & Hp').
  unfold validation_hashed. rewrite Hi, Hi', Hc, Hc'. rewrite <- Hd in Hr'.
  destruct (manifest_digest_identifies _ _ _ Hm Hm' Hr Hr') as [Hw|Hx]; [|right; revert Hx; mono].
  apply with_digest_eq in Hw as <-; [|done].
  destruct (compose_binds _ _ _ _ _ _ _ _ Hc Hc' (eq_trans (eq_sym Hb) Hb') (eq_trans (eq_sym He)
    He'))
    as [[Eb Ee]|Hx]; [|right; revert Hx; mono].
  apply check_input_segments in Hi as (_ & Hf & Hg), Hi' as (_ & Hf' & Hg').
  rewrite <- (concat_ranges (mi_units input)) in Ht.
  rewrite <- (concat_ranges (mi_units input')) in Ht'.
  assert (prohibited (vm_storage m) (header input) = prohibited (vm_storage m) (header input')) as
    Hpr
    by (unfold prohibited, header; cbn; by rewrite <- Hp, <- Hp').
  destruct (segments_bind _ _ _ _ _ _ _ _ _ _ _ (eq_trans (eq_sym Hk) Hk') (eq_trans (eq_sym Hs)
    Hs') Hpr
    Ht Ht' Hf Hf' Eb Ee) as [[Er Hpe]|Hx]; [left|right; revert Hx; mono].
  rewrite Hg, Hg' in Hpe. split_and!; [done| |done].
  by rewrite <- (concat_ranges (mi_units input)), Er, concat_ranges.
Qed.

(** ** Embeddings *)

Lemma pinned_facts u a :
  validate_pinned u a = Ok tt ->
  matches_pinned_unit (hit_for u a) u a = true.
Proof.
  intros Hv. unfold validate_pinned, vec_err in Hv. cbn zeta in Hv.
  destruct (_ || _) in Hv; [done|]. apply rbind_Ok in Hv as (id & _ & Hv).
  destruct (_ || _) eqn:Hg in Hv; [done|]. by apply orb_false_iff in Hg as [_ ->%negb_false_iff].
Qed.

(** An embedding built for a unit passes every later check of its binding, and its entry is one
    that a manifest accepts. *)
Theorem bound_embedding_validates spec u pinned values b :
  BoundEmbedding_new spec u pinned values = Ok b ->
  validate_binding b spec u pinned = Ok tt
  /\ matches_pinned_unit (en_hit (entry_ref b)) u pinned = true
  /\ cache_key_matches_authority (en_cache_key (entry_ref b)) u pinned = true
  /\ validate_and_id spec = Ok (en_model_id (entry_ref b)).
Proof.
  intros H. unfold BoundEmbedding_new in H. inv_ok.
  destruct a0. pose proof (pinned_facts _ _ Hok0) as Hm. destruct a1.
  assert (cache_key_matches_authority (be_cache_key b) u pinned = true) as Hc.
  { pose proof Hm as Hf. unfold matches_pinned_unit, hit_for in Hf. cbn in Hf. simp_bool. subst b.
    unfold cache_key_matches_authority. cbn. rewrite !andb_true_iff, !bool_decide_eq_true.
    split_and!; congruence. }
  split_and!; [|by subst b|done|by subst b]. unfold validate_binding. rewrite Hok0.
  assert (be_hit b = hit_for u pinned) as Hh by (by subst b).
  assert (be_values b = values) as -> by (by subst b).
  assert (be_model_id b = a) as -> by (by subst b).
  assert (be_vector_digest b = a2) as -> by (by subst b).
  assert (ek_embedding_model_id (be_cache_key b) = a) as -> by (by subst b).
  rewrite Hok1, Hok. cbn [rbind]. rewrite !bool_decide_eq_true_2 by done. cbn [negb].
  rewrite Hok2. cbn [rbind]. rewrite !bool_decide_eq_true_2 by done. by rewrite Hh, Hm, Hc.
Qed.

Definition spec_typed (spec : EmbeddingModelSpec) : Prop := is_u32 (es_max_tokens spec) /\ 0 <=
  es_dimension spec.

Lemma spec_frames_byte spec n : Forall (Forall byte) (spec_frames spec n).
Proof.
  unfold spec_frames. destruct (es_native_binary_sha256 spec); frame_bytes_tac;
    unfold byte, VectorPrecision_tag, VectorNormalization_tag, VectorMetric_tag; case_match; lia.
Qed.

Lemma binary_frame_inj (a b : option Hash32) :
  match a with Some h => hash_bytes h | None => [] end
  = match b with Some h => hash_bytes h | None => [] end -> a = b.
Proof.
  assert (forall h : Hash32, hash_bytes h <> []) as Hne
    by (intros h H%(f_equal length); unfold hash_bytes in H;
      by rewrite length_map, length_vec_to_list in H).
  destruct a, b; intros H; [by apply hash_bytes_inj in H as ->|by apply Hne in H|symmetry in H;
    by apply Hne in H|done].
Qed.

Lemma spec_frames_inj spec spec' :
  is_u32 (es_max_tokens spec) -> is_u32 (es_max_tokens spec') ->
  is_u32 (es_dimension spec) -> is_u32 (es_dimension spec') ->
  spec_frames spec (es_dimension spec) = spec_frames spec' (es_dimension spec') -> spec = spec'.
Proof.
  intros ???? He. unfold spec_frames in He. cons_eq. frame_eqs.
  match goal with Hx : match _ with _ => _ end = _ |- _ => apply binary_frame_inj in Hx end.
  tag_eq VectorPrecision_tag. tag_eq VectorNormalization_tag. tag_eq VectorMetric_tag.
  destruct spec, spec'; cbn in *. by subst.
Qed.

Lemma u32_of_range {E} n (e : E) k : u32_of n e = Ok k -> is_u32 n.
Proof.
  unfold u32_of, u32_try_from, is_u32. destruct (_ && _) eqn:Hb; cbn; [|done]. simp_bool. done.
Qed.

Definition model_hashed (spec : EmbeddingModelSpec) : list (list ascii) :=
  [preimage "embedding-model:v1" (spec_frames spec (es_dimension spec))].

(** The identity of a model binds every field of its specification, unless the two encodings are
    different byte strings of one digest. *)
Theorem model_id_identifies spec spec' id :
  is_u32 (es_max_tokens spec) -> is_u32 (es_max_tokens spec') ->
  validate_and_id spec = Ok id -> validate_and_id spec' = Ok id ->
  spec = spec' \/ collision (model_hashed spec) (model_hashed spec').
Proof.
  intros Ht Ht' H H'. unfold validate_and_id, vec_err in H, H'.
  destruct (negb _) in H; [done|]. destruct (negb _) in H'; [done|].
  apply rbind_Ok in H as (n & Hn & (h & Hh & H)%rbind_Ok), H' as (n' & Hn' & (h' & Hh' &
    H')%rbind_Ok).
  apply Ok_inj in H as <-. apply Ok_inj, digest_string_inj in H' as He. symmetry in He.
  pose proof (u32_of_Ok _ _ _ Hn) as ->. pose proof (u32_of_Ok _ _ _ Hn') as ->.
  destruct (finish_frames _ _ _ _ _ (domain_bytes _) (spec_frames_byte _ _) (spec_frames_byte _ _)
    Hh Hh' He)
    as [Hf|]; [left|by right]. apply spec_frames_inj in Hf; [done..| |]; by eapply u32_of_range.
Qed.

(** An [f32] as IEEE 754 has it: not a [nan], and normal or subnormal. *)
Definition f32_typed (x : f32) : Prop :=
  match x with
  | S754_finite _ m e => (Zpos m < 2 ^ 23 /\ e = -149) \/ (2 ^ 23 <= Zpos m < 2 ^ 24 /\ -149 <= e
    <= 104)
  | S754_nan => False
  | _ => True
  end.

(** Both zeros as the positive one. *)
Definition norm_zero (x : f32) : f32 := match x with S754_zero _ => S754_zero false | x => x end.

Lemma value_frame_norm x : value_frame x = f32_be (norm_zero x).
Proof. by destruct x as [[]|[]| |[] ? ?]. Qed.

Definition f32_sign (x : f32) : bool :=
  match x with S754_zero s | S754_infinity s | S754_finite s _ _ => s | S754_nan => false end.
Definition f32_abs (x : f32) : f32 :=
  match x with
  | S754_zero _ => S754_zero false
  | S754_infinity _ => S754_infinity false
  | S754_finite _ m e => S754_finite false m e
  | S754_nan => S754_nan
  end.

Lemma f32_bits_split x : f32_bits x = (if f32_sign x then 2 ^ 31 else 0) + f32_bits (f32_abs x).
Proof. destruct x as [[]|[]| |[] m e]; cbn -[Z.pow Z.ltb Z.mul Z.add]; lia. Qed.

Lemma f32_abs_bits x : f32_typed x -> 0 <= f32_bits (f32_abs x) < 2 ^ 31.
Proof.
  destruct x as [s|s| |s m e]; [done..|]. unfold f32_typed, f32_bits. cbn [f32_abs].
  destruct (Z.ltb_spec (Zpos m) (2 ^ 23)); lia.
Qed.

Lemma f32_abs_inj x y :
  f32_typed x -> f32_typed y -> f32_bits (f32_abs x) = f32_bits (f32_abs y) -> f32_abs x = f32_abs
    y.
Proof.
  destruct x as [s|s| |s m e], y as [s'|s'| |s' m' e']; try done; unfold f32_typed, f32_bits;
    cbn [f32_abs];
    repeat match goal with |- context [Z.pos ?m <? ?n] => destruct (Z.ltb_spec (Zpos m) n) end;
      intros; try lia;
    (assert (m = m' /\ e = e') as [-> ->]; [|done]; lia).
Qed.

Lemma f32_bits_inj x y : f32_typed x -> f32_typed y -> f32_bits x = f32_bits y -> x = y.
Proof.
  intros Hx Hy H. rewrite (f32_bits_split x), (f32_bits_split y) in H.
  pose proof (f32_abs_bits _ Hx). pose proof (f32_abs_bits _ Hy).
  assert (f32_sign x = f32_sign y /\ f32_bits (f32_abs x) = f32_bits (f32_abs y)) as [Hs Ha]
    by (destruct (f32_sign x), (f32_sign y); lia || (split; [done|lia])).
  apply f32_abs_inj in Ha; [|done..]. destruct x, y; cbn in *; congruence.
Qed.

Lemma f32_bits_u32 x : f32_typed x -> is_u32 (f32_bits x).
Proof.
  intros Hx. rewrite f32_bits_split. pose proof (f32_abs_bits _ Hx) as Hb. unfold is_u32, u32_max.
  revert Hb. generalize (f32_bits (f32_abs x)). intros n Hn. destruct (f32_sign x); lia.
Qed.

Lemma f32_be_inj x y : f32_typed x -> f32_typed y -> f32_be x = f32_be y -> x = y.
Proof.
  intros Hx Hy H. apply f32_bits_inj; [done..|].
  apply u32_word_inj; [by apply f32_bits_u32..|exact H].
Qed.

Lemma norm_zero_typed x : f32_typed x -> f32_typed (norm_zero x).
Proof. by destruct x. Qed.

Definition vector_hashed (id : EmbeddingModelId) (values : list f32) : list (list ascii) :=
  [preimage "bound-vector:v1" (bytes id :: u32_be (len values) :: map value_frame values)].

(** The digest of an embedding binds its model and its values, the two zeros being one value, unless
    the two encodings are different byte strings of one digest. *)
Theorem vector_digest_identifies id id' values values' d :
  Forall f32_typed values -> Forall f32_typed values' ->
  vector_digest id values = Ok d -> vector_digest id' values' = Ok d ->
  (id = id' /\ map norm_zero values = map norm_zero values')
  \/ collision (vector_hashed id values) (vector_hashed id' values').
Proof.
  assert (forall id values, vector_digest id values = Ok d -> exists h,
    fh_all (bytes id :: u32_be (len values) :: map value_frame values) (domain "bound-vector:v1") = Ok h
    /\ fh_finish h = d) as Hf.
  { clear. intros id values (h & Hh & (n & Hn & (h' & Hh' & Hd)%rbind_Ok)%rbind_Ok)%rbind_Ok.
    apply u32_of_Ok in Hn as ->. apply Ok_inj in Hd. exists h'. split; [|exact Hd].
    change (rbind (fh_bytes (bytes id) (domain "bound-vector:v1"))
              (fh_all (u32_be (len values) :: map value_frame values)) = Ok h').
    rewrite Hh. exact Hh'. }
  assert (forall id values, Forall (Forall byte) (bytes id :: u32_be (len values) :: map
    value_frame values)) as Hb.
  { intros i vs. frame_bytes_tac. apply Forall_map, Forall_forall. intros x _. apply be_byte. }
  intros Ht Ht' (h & Hh & Hd)%Hf (h' & Hh' & Hd')%Hf. rewrite <- Hd' in Hd.
  destruct (finish_frames _ _ _ _ _ (domain_bytes _) (Hb _ _) (Hb _ _) Hh Hh' Hd) as [He|];
    [left|by right].
  cons_eq. frame_eqs. split; [done|]. clear -Ht Ht' He. revert values' Ht' He.
  induction Ht as [|x xs Hx _ IH]; intros [|y ys] Ht' He; cbn [map] in *; [done..|].
  apply Forall_cons in Ht' as [Hy Ht']. cons_eq. rewrite !value_frame_norm in H.
  apply f32_be_inj in H; [|by apply norm_zero_typed..]. f_equal; [done|by apply IH].
Qed.
End Binding.
