(* ===== verification/SearchExtraction.v ===== *)
(** * SearchExtraction: the contract with an extraction worker (search-extraction-core)

    Budgets and their meter, coverage states, the binary wire between the host and a sandboxed
    worker, registered profiles and the validation of what a worker reports.  A writer returns
    the bytes that the code appends to its output; a reader returns its value with the bytes
    that remain. *)
From stdpp Require Import base gmap sets list strings vector sorting.
From Stdlib Require Import ZArith Lia Ascii.
From S2P Require Import Prelude Text Ordered DocumentValues Manifest AuditKinds AuditChain.
From S2P Require Import SearchValues SearchUnits.
From S2P Require Import SearchUnitProfiles SearchUnitCodec.

Local Open Scope Z_scope.

(** ** Coverage and operation states (coverage.rs) *)

Inductive CoverageReason : Type :=
| RequiresOcr | UnsupportedFormat | Encrypted | UnsupportedStructure | UnsupportedEncoding
| UnsupportedDialect | UnsupportedCodec | MissingFormulaCache | AmbiguousReadingOrder
| DynamicVisibility | ResourceLimit.
#[global] Instance CoverageReason_eq_dec : EqDecision CoverageReason.
Proof. solve_decision. Defined.

Definition CoverageReason_tag (r : CoverageReason) : Z :=
  match r with
  | RequiresOcr => 1 | UnsupportedFormat => 2 | Encrypted => 3 | UnsupportedStructure => 4
  | UnsupportedEncoding => 5 | UnsupportedDialect => 6 | UnsupportedCodec => 7
  | MissingFormulaCache => 8 | AmbiguousReadingOrder => 9 | DynamicVisibility => 10
  | ResourceLimit => 11
  end.

Definition CoverageReason_from_tag (tag : Z) : option CoverageReason :=
  match tag with
  | 1 => Some RequiresOcr | 2 => Some UnsupportedFormat | 3 => Some Encrypted
  | 4 => Some UnsupportedStructure | 5 => Some UnsupportedEncoding | 6 => Some UnsupportedDialect
  | 7 => Some UnsupportedCodec | 8 => Some MissingFormulaCache | 9 => Some AmbiguousReadingOrder
  | 10 => Some DynamicVisibility | 11 => Some ResourceLimit
  | _ => None
  end.

Inductive BodyCoverage : Type :=
| Supported
| Partial (reasons : list CoverageReason)
| Unsupported (reason : CoverageReason).
#[global] Instance BodyCoverage_eq_dec : EqDecision BodyCoverage.
Proof. solve_decision. Defined.

Inductive PermanentFailureCode : Type :=
| CorruptDocument | MalformedArchive | TextExtractionFailed | WorkerOutputLimit.
#[global] Instance PermanentFailureCode_eq_dec : EqDecision PermanentFailureCode.
Proof. solve_decision. Defined.

Definition PermanentFailureCode_tag (c : PermanentFailureCode) : Z :=
  match c with
  | CorruptDocument => 1 | MalformedArchive => 2 | TextExtractionFailed => 3
  | WorkerOutputLimit => 4
  end.

Definition PermanentFailureCode_from_tag (tag : Z) : option PermanentFailureCode :=
  match tag with
  | 1 => Some CorruptDocument | 2 => Some MalformedArchive | 3 => Some TextExtractionFailed
  | 4 => Some WorkerOutputLimit
  | _ => None
  end.

Inductive RetryableFailureCode : Type := SourceIo | WorkerUnavailable | WorkerKilled | Timeout.
#[global] Instance RetryableFailureCode_eq_dec : EqDecision RetryableFailureCode.
Proof. solve_decision. Defined.

Definition RetryableFailureCode_tag (c : RetryableFailureCode) : Z :=
  match c with SourceIo => 1 | WorkerUnavailable => 2 | WorkerKilled => 3 | Timeout => 4 end.

Definition RetryableFailureCode_from_tag (tag : Z) : option RetryableFailureCode :=
  match tag with
  | 1 => Some SourceIo | 2 => Some WorkerUnavailable | 3 => Some WorkerKilled | 4 => Some Timeout
  | _ => None
  end.

Inductive ItemOperationState : Type :=
| ItemCompleted
| ItemFailedPermanent (code : PermanentFailureCode)
| ItemRetryable (code : RetryableFailureCode).
#[global] Instance ItemOperationState_eq_dec : EqDecision ItemOperationState.
Proof. solve_decision. Defined.

Definition publishable (self : ItemOperationState) : bool :=
  match self with ItemRetryable _ => false | _ => true end.

(** ** Errors, and what a reader fails with *)

Inductive ExtractionError : Type :=
| XWire (reason : string)
| XConfiguration (reason : string)
| XIntegrity (reason : string)
| XPermanent (code : PermanentFailureCode)
| XRetryable (code : RetryableFailureCode).
#[global] Instance ExtractionError_eq_dec : EqDecision ExtractionError.
Proof. solve_decision. Defined.

Abbreviation EResult A := (Result A ExtractionError).

Inductive ReaderFailure : Type :=
| RfUnsupported (reason : CoverageReason)
| RfPermanent (code : PermanentFailureCode)
| RfRetryable (code : RetryableFailureCode).
#[global] Instance ReaderFailure_eq_dec : EqDecision ReaderFailure.
Proof. solve_decision. Defined.

Definition item_outcome (self : ReaderFailure) : ItemOperationState * option BodyCoverage :=
  match self with
  | RfUnsupported reason => (ItemCompleted, Some (Unsupported reason))
  | RfPermanent code => (ItemFailedPermanent code, None)
  | RfRetryable code => (ItemRetryable code, None)
  end.

Definition resource_limit_failure : ReaderFailure := RfUnsupported ResourceLimit.

(** ** Budgets (budget.rs) *)

Definition MAX_WORKER_OUTPUT_BYTES : Z := 16777216.
Definition MAX_INPUT_BYTES : Z := 268435456.

(** [ExtractionBudgets]: the map it wraps. *)
Abbreviation ExtractionBudgets := (list (BudgetKey * Z)).

Definition absolute_ceiling (key : BudgetKey) : Z :=
  match key with
  | InputBytes => MAX_INPUT_BYTES
  | ZipEntries => 20000
  | ZipEntryBytes => 67108864
  | ZipTotalBytes => 536870912
  | ZipDepth => 3
  | BudgetUnits => 100000
  | UnitUtf8Bytes => 1048576
  | WorkerOutputBytes => MAX_WORKER_OUTPUT_BYTES
  | XmlDepth => 256
  | XmlNodes => 2000000
  | PdfPages => 1024
  | PdfOperations => 1000000
  | HtmlNodes => 2000000
  | CsvRecords => 1000000
  | CsvFieldBytes => 1048576
  end.

Definition applicable (format : FormatId) (key : BudgetKey) : bool :=
  match key with
  | InputBytes | BudgetUnits | UnitUtf8Bytes | WorkerOutputBytes => true
  | ZipEntries | ZipEntryBytes | ZipTotalBytes | ZipDepth =>
      contains [Docx; Xlsx; Xlsm; Pptx; Zip] format
  | XmlDepth | XmlNodes => contains [Docx; Xlsx; Xlsm; Pptx; Zip] format
  | PdfPages | PdfOperations => contains [Pdf; Zip] format
  | HtmlNodes => contains [Html; Zip] format
  | CsvRecords | CsvFieldBytes => contains [Csv; Zip] format
  end.

(** [self.0[&key]]: the key is present in valid budgets. *)
Definition budget_get (self : ExtractionBudgets) (key : BudgetKey) : Z :=
  unwrap_or 0 (bt_get key self).

Definition within_ceiling (self : ExtractionBudgets) (key : BudgetKey) : EResult unit :=
  let? value := ok_or (bt_get key self) (XConfiguration "budget keys") in
  if absolute_ceiling key <? value then Err (XConfiguration "budget ceiling") else Ok tt.

Definition required_budget (self : ExtractionBudgets) (key : BudgetKey) : EResult unit :=
  if budget_get self key =? 0 then Err (XConfiguration "required budget") else Ok tt.

Definition budgets_validate (self : ExtractionBudgets) : EResult unit :=
  if negb (len self =? len BudgetKey_ALL) then Err (XConfiguration "budget keys")
  else
    try? for_each (fun _ => within_ceiling self) tt BudgetKey_ALL in
    for_each (fun _ => required_budget self) tt
      [InputBytes; BudgetUnits; UnitUtf8Bytes; WorkerOutputBytes].

Definition applicable_budget (self : ExtractionBudgets) (format : FormatId) (key : BudgetKey)
    : EResult unit :=
  if negb (applicable format key) && negb (budget_get self key =? 0)
  then Err (XConfiguration "inapplicable budget") else Ok tt.

Definition validate_for (self : ExtractionBudgets) (format : FormatId) : EResult unit :=
  try? budgets_validate self in
  for_each (fun _ => applicable_budget self format) tt BudgetKey_ALL.

Definition ExtractionBudgets_new (limits : list (BudgetKey * Z)) : EResult ExtractionBudgets :=
  try? budgets_validate limits in Ok limits.

Definition from_profile (limits : list (BudgetKey * Z)) : EResult ExtractionBudgets :=
  ExtractionBudgets_new limits.

(** *** The meter *)

Record BudgetMeter : Type := {
  bm_limits : ExtractionBudgets;
  bm_charged : list (BudgetKey * Z);
  bm_input_charged : bool
}.

Definition BudgetMeter_new (limits : ExtractionBudgets) : EResult BudgetMeter :=
  try? budgets_validate limits in
  Ok {| bm_limits := limits;
        bm_charged := fold_left (fun m key => bt_insert key 0 m) BudgetKey_ALL [];
        bm_input_charged := false |}.

Definition charged (self : BudgetMeter) (key : BudgetKey) : Z := budget_get (bm_charged self) key.

Definition per_value (key : BudgetKey) : bool :=
  match key with
  | ZipEntryBytes | ZipDepth | UnitUtf8Bytes | XmlDepth | CsvFieldBytes => true
  | _ => false
  end.

Definition check_value (self : BudgetMeter) (key : BudgetKey) (value : Z)
    : Result unit ReaderFailure :=
  if negb (per_value key) || (budget_get (bm_limits self) key <? value)
  then Err (RfUnsupported ResourceLimit) else Ok tt.

Definition set_charged (key : BudgetKey) (value : Z) (self : BudgetMeter) : BudgetMeter :=
  {| bm_limits := bm_limits self; bm_charged := bt_insert key value (bm_charged self);
     bm_input_charged := bm_input_charged self |}.

(** [&mut self]: the meter afterwards, with the result. *)
Definition observe_peak (self : BudgetMeter) (key : BudgetKey) (value : Z)
    : BudgetMeter * Result unit ReaderFailure :=
  match check_value self key value with
  | Err failure => (self, Err failure)
  | Ok _ => (set_charged key (Z.max (charged self key) value) self, Ok tt)
  end.

Definition mark_input (key : BudgetKey) (self : BudgetMeter) : BudgetMeter :=
  {| bm_limits := bm_limits self; bm_charged := bm_charged self;
     bm_input_charged := (key == InputBytes) || bm_input_charged self |}.

Definition charge (self : BudgetMeter) (key : BudgetKey) (delta : Z)
    : BudgetMeter * Result unit ReaderFailure :=
  if per_value key then observe_peak self key delta
  else if (key == InputBytes) && bm_input_charged self
  then (self, Err (RfUnsupported ResourceLimit))
  else
    match checked_add_u64 (charged self key) delta with
    | None => (self, Err (RfUnsupported ResourceLimit))
    | Some next =>
        if budget_get (bm_limits self) key <? next
        then (self, Err (RfUnsupported ResourceLimit))
        else (mark_input key (set_charged key next self), Ok tt)
    end.

Definition charge_input_once (self : BudgetMeter) (raw_bytes : Z)
    : BudgetMeter * Result unit ReaderFailure :=
  charge self InputBytes raw_bytes.

(** ** The wire (protocol.rs) *)

Definition MAGIC : list Z := bytes "search-extraction:v1" ++ [0].
Definition REQUEST_TAG : Z := 1.
Definition REPORT_TAG : Z := 2.
Definition FAILURE_TAG : Z := 3.
Definition MAX_REQUEST_BYTES : Z := 16777216.
Definition MAX_COLLECTION_COUNT : Z := 100000.

Inductive WorkerOperation : Type :=
| OpExtract
| OpResolveLocators (locators : list NativeLocator).
#[global] Instance WorkerOperation_eq_dec : EqDecision WorkerOperation.
Proof. solve_decision. Defined.

Record WorkerRequest : Type := {
  wq_operation : WorkerOperation;
  wq_format : FormatId;
  wq_profile : ExtractionProfileId;
  wq_profile_bytes : list Z;
  wq_expected_raw : RawBinding;
  wq_budgets : ExtractionBudgets
}.

Record WorkerFragment : Type := {
  wf_ordinal : Z;
  wf_parent_ordinal : option Z;
  wf_kind : UnitKind;
  wf_text : string;
  wf_locator : NativeLocator
}.

Record NativeOmission : Type := {
  no_package_path : option string;
  no_physical_child_path : list Z;
  no_reason : CoverageReason
}.

Record WorkerReport : Type := {
  wp_coverage : BodyCoverage;
  wp_fragments : list WorkerFragment;
  wp_reader_use : list ArchiveReaderNode;
  wp_scope_items : Z;
  wp_known_omissions : list NativeOmission;
  wp_traversal_complete : bool
}.

Inductive WorkerResponse : Type :=
| WrReport (report : WorkerReport)
| WrFailure (failure : ReaderFailure).

Definition format_tag (format : FormatId) : Z :=
  match format with
  | Docx => 1 | Xlsx => 2 | Xlsm => 3 | Pptx => 4 | Pdf => 5 | TextFormat => 6 | Csv => 7
  | Html => 8 | Zip => 9
  end.

Definition format_from_tag (tag : Z) : EResult FormatId :=
  match tag with
  | 1 => Ok Docx | 2 => Ok Xlsx | 3 => Ok Xlsm | 4 => Ok Pptx | 5 => Ok Pdf | 6 => Ok TextFormat
  | 7 => Ok Csv | 8 => Ok Html | 9 => Ok Zip
  | _ => Err (XWire "format tag")
  end.

Definition kind_tag (kind : UnitKind) : Z :=
  match kind with
  | Heading => 1 | Paragraph => 2 | TableCell => 3 | SpreadsheetCell => 4 | SlideText => 5
  | PdfText => 6 | PlainText => 7 | CsvField => 8 | HtmlText => 9
  end.

Definition kind_from_tag (tag : Z) : EResult UnitKind :=
  match tag with
  | 1 => Ok Heading | 2 => Ok Paragraph | 3 => Ok TableCell | 4 => Ok SpreadsheetCell
  | 5 => Ok SlideText | 6 => Ok PdfText | 7 => Ok PlainText | 8 => Ok CsvField | 9 => Ok HtmlText
  | _ => Err (XWire "unit kind tag")
  end.

(** *** Writing *)

Definition x_frame (bs : list Z) : EResult (list Z) :=
  let? length := ok_or (u32_try_from (len bs)) (XWire "frame length") in
  Ok (u32_be length ++ bs).

Definition x_string (value : string) : EResult (list Z) := x_frame (bytes value).

Definition x_count (value : Z) : EResult (list Z) :=
  if MAX_COLLECTION_COUNT <? value then Err (XWire "collection count")
  else
    let? value := ok_or (u32_try_from value) (XWire "collection count") in
    Ok (u32_be value).

(** [count(out, xs.len())?; for x in xs { write(out, x)? }]. *)
Definition x_list {A} (write : A -> EResult (list Z)) (xs : list A) : EResult (list Z) :=
  let? n := x_count (len xs) in
  let? items := write_all write xs in
  Ok (n ++ items).

(** *** Reading: a [Cursor] is the bytes that remain *)

Definition Cursor (A : Type) : Type := list Z -> Result (A * list Z) ExtractionError.

Definition c_take (n : Z) (input : list Z) : EResult (list Z * list Z) :=
  if remaining input <? n then Err (XWire "truncated frame")
  else Ok (take (Z.to_nat n) input, drop (Z.to_nat n) input).

Definition c_byte (input : list Z) : EResult (Z * list Z) :=
  let? ' (bs, input) := c_take 1 input in Ok (unwrap_or 0 (head bs), input).

Definition c_u32 (input : list Z) : EResult (Z * list Z) :=
  let? ' (bs, input) := c_take 4 input in Ok (from_be bs, input).

Definition c_u64 (input : list Z) : EResult (Z * list Z) :=
  let? ' (bs, input) := c_take 8 input in Ok (from_be bs, input).

Definition c_frame (input : list Z) : EResult (list Z * list Z) :=
  let? ' (n, input) := c_u32 input in c_take n input.

Definition c_string (input : list Z) : EResult (string * list Z) :=
  let? ' (frame, input) := c_frame input in
  let? value := ok_or (from_utf8 frame) (XWire "UTF-8") in
  Ok (value, input).

Definition c_count (min_item_bytes : Z) (input : list Z) : EResult (Z * list Z) :=
  let? ' (n, input) := c_u32 input in
  if (MAX_COLLECTION_COUNT <? n) || (remaining input / min_item_bytes <? n)
  then Err (XWire "collection count") else Ok (n, input).

Definition c_finish (input : list Z) : EResult unit :=
  if negb (remaining input =? 0) then Err (XWire "trailing bytes") else Ok tt.

(** [let n = input.count(min)?; for _ in 0..n { v.push(read(input)?) }]. *)
Definition c_list {A} (min_item_bytes : Z) (read : list Z -> EResult (A * list Z))
    (input : list Z) : EResult (list A * list Z) :=
  let? ' (n, input) := c_count min_item_bytes input in
  r_many (Z.to_nat n) read input.

(** *** Messages *)

Definition message (tag : Z) (body : list Z) (cap : Z) : EResult (list Z) :=
  if cap <? len MAGIC + 5 + len body then Err (XWire "message limit")
  else let? framed := x_frame body in Ok (MAGIC ++ [tag] ++ framed).

Definition read_message (bs : list Z) (cap : Z) : EResult (Z * list Z) :=
  if cap <? len bs then Err (XWire "message limit")
  else
    let? ' (magic, input) := c_take (len MAGIC) bs in
    if magic != MAGIC then Err (XWire "protocol version")
    else
      let? ' (tag, input) := c_byte input in
      let? ' (body, input) := c_frame input in
      try? c_finish input in
      Ok (tag, body).

(** [BudgetKey::ALL.into_iter().enumerate()], counted from one. *)
Definition numbered_keys : list (Z * BudgetKey) :=
  combine (map Z.of_nat (seq 1 (length BudgetKey_ALL))) BudgetKey_ALL.

Definition write_budgets (budgets : ExtractionBudgets) : list Z :=
  15 :: flat_map (fun e => e.1 :: u64_be (budget_get budgets e.2)) numbered_keys.

Definition x_read_limit (s : list (BudgetKey * Z) * list Z) (e : Z * BudgetKey)
    : EResult (list (BudgetKey * Z) * list Z) :=
  let? ' (tag, input) := c_byte s.2 in
  if tag != e.1 then Err (XWire "budget tag/order")
  else
    let? ' (value, input) := c_u64 input in
    Ok (bt_insert e.2 value s.1, input).

Definition read_budgets (input : list Z) : EResult (ExtractionBudgets * list Z) :=
  let? ' (n, input) := c_byte input in
  if negb (n =? 15) then Err (XWire "budget count")
  else
    let? ' (limits, input) := for_each x_read_limit ([], input) numbered_keys in
    let? budgets := ExtractionBudgets_new limits in
    Ok (budgets, input).

Section Wire.
Context {N : Unicode}.

(** [frame(&mut out, &locator.encode()?)], and back. *)
Definition x_locator (locator : NativeLocator) : EResult (list Z) :=
  let? encoded := map_err (fun _ => XWire "locator") (locator_encode locator) in
  x_frame encoded.

Definition c_locator (input : list Z) : EResult (NativeLocator * list Z) :=
  let? ' (frame, input) := c_frame input in
  let? locator := map_err (fun _ => XWire "locator") (locator_decode frame) in
  Ok (locator, input).

Definition x_operation (operation : WorkerOperation) : EResult (list Z) :=
  match operation with
  | OpExtract => Ok [1]
  | OpResolveLocators locators => let? out := x_list x_locator locators in Ok (2 :: out)
  end.

Definition encode_request (request : WorkerRequest) : EResult (list Z) :=
  try? validate_for (wq_budgets request) (wq_format request) in
  let? operation := x_operation (wq_operation request) in
  let? profile := x_string (wq_profile request) in
  let? profile_bytes := x_frame (wq_profile_bytes request) in
  let? media_type := x_string (rw_media_type (wq_expected_raw request)) in
  message REQUEST_TAG
    (operation ++ [format_tag (wq_format request)] ++ profile ++ profile_bytes
     ++ hash_bytes (rw_sha256 (wq_expected_raw request))
     ++ u64_be (rw_size_bytes (wq_expected_raw request)) ++ media_type
     ++ write_budgets (wq_budgets request))
    MAX_REQUEST_BYTES.

Definition c_operation (input : list Z) : EResult (WorkerOperation * list Z) :=
  let? ' (tag, input) := c_byte input in
  if tag =? 1 then Ok (OpExtract, input)
  else if tag =? 2 then
    let? ' (locators, input) := c_list 4 c_locator input in
    Ok (OpResolveLocators locators, input)
  else Err (XWire "operation tag").

(** [input.take(32)?.try_into().expect(..)]. *)
Definition c_hash (input : list Z) : EResult (Hash32 * list Z) :=
  let? ' (bs, input) := c_take 32 input in
  let? hash := ok_or (hash_from bs) (XWire "truncated frame") in
  Ok (hash, input).

Definition decode_request (bs : list Z) : EResult WorkerRequest :=
  let? ' (tag, input) := read_message bs MAX_REQUEST_BYTES in
  if tag != REQUEST_TAG then Err (XWire "request tag")
  else
    let? ' (operation, input) := c_operation input in
    let? ' (tag, input) := c_byte input in
    let? format := format_from_tag tag in
    let? ' (id, input) := c_string input in
    let? profile := map_err (fun _ => XWire "profile ID") (ExtractionProfileId_parse id) in
    let? ' (profile_bytes, input) := c_frame input in
    let? ' (sha256, input) := c_hash input in
    let? ' (size_bytes, input) := c_u64 input in
    let? ' (media_type, input) := c_string input in
    let? ' (budgets, input) := read_budgets input in
    try? c_finish input in
    try? validate_for budgets format in
    Ok {| wq_operation := operation; wq_format := format; wq_profile := profile;
          wq_profile_bytes := profile_bytes;
          wq_expected_raw :=
            {| rw_sha256 := sha256; rw_size_bytes := size_bytes; rw_media_type := media_type |};
          wq_budgets := budgets |}.

Definition write_coverage (coverage : BodyCoverage) : EResult (list Z) :=
  match coverage with
  | Supported => Ok [1]
  | Partial reasons =>
      let? out := x_list (fun reason => Ok [CoverageReason_tag reason]) reasons in Ok (2 :: out)
  | Unsupported reason => Ok [3; CoverageReason_tag reason]
  end.

Definition read_reason (input : list Z) : EResult (CoverageReason * list Z) :=
  let? ' (tag, input) := c_byte input in
  let? reason := ok_or (CoverageReason_from_tag tag) (XWire "coverage reason tag") in
  Ok (reason, input).

Definition read_coverage (input : list Z) : EResult (BodyCoverage * list Z) :=
  let? ' (tag, input) := c_byte input in
  if tag =? 1 then Ok (Supported, input)
  else if tag =? 2 then
    let? ' (reasons, input) := c_list 1 read_reason input in Ok (Partial reasons, input)
  else if tag =? 3 then
    let? ' (reason, input) := read_reason input in Ok (Unsupported reason, input)
  else Err (XWire "coverage tag").

Definition write_fragment (fragment : WorkerFragment) : EResult (list Z) :=
  let? text := x_string (wf_text fragment) in
  let? locator := x_locator (wf_locator fragment) in
  Ok (u32_be (wf_ordinal fragment)
      ++ match wf_parent_ordinal fragment with
         | None => [0]
         | Some parent => 1 :: u32_be parent
         end
      ++ [kind_tag (wf_kind fragment)] ++ text ++ locator).

Definition c_parent (input : list Z) : EResult (option Z * list Z) :=
  let? ' (tag, input) := c_byte input in
  if tag =? 0 then Ok (None, input)
  else if tag =? 1 then let? ' (parent, input) := c_u32 input in Ok (Some parent, input)
  else Err (XWire "parent tag").

Definition read_fragment (input : list Z) : EResult (WorkerFragment * list Z) :=
  let? ' (ordinal, input) := c_u32 input in
  let? ' (parent_ordinal, input) := c_parent input in
  let? ' (tag, input) := c_byte input in
  let? kind := kind_from_tag tag in
  let? ' (text, input) := c_string input in
  let? ' (locator, input) := c_locator input in
  Ok ({| wf_ordinal := ordinal; wf_parent_ordinal := parent_ordinal; wf_kind := kind;
         wf_text := text; wf_locator := locator |}, input).

Definition x_definition (definition : ExtractionProfileDefinitionV1) : EResult (list Z) :=
  let? encoded := map_err (fun _ => XWire "reader definition") (definition_encode definition) in
  x_frame encoded.

Definition c_definition (input : list Z) : EResult (ExtractionProfileDefinitionV1 * list Z) :=
  let? ' (frame, input) := c_frame input in
  let? definition := map_err (fun _ => XWire "reader definition") (definition_decode frame) in
  Ok (definition, input).

Definition write_reader (reader : ArchiveReaderNode) : EResult (list Z) :=
  let? members := x_list x_string (an_members reader) in
  let? id := x_string (an_parser_build_id reader) in
  let? definition := x_definition (an_definition reader) in
  Ok (members ++ id ++ definition).

Definition read_reader (input : list Z) : EResult (ArchiveReaderNode * list Z) :=
  let? ' (members, input) := c_list 4 c_string input in
  let? ' (id, input) := c_string input in
  let? ' (definition, input) := c_definition input in
  Ok ({| an_members := members; an_parser_build_id := id; an_definition := definition |}, input).

Definition x_path (path : option string) : EResult (list Z) :=
  match path with
  | None => Ok [0]
  | Some path => let? out := x_string path in Ok (1 :: out)
  end.

Definition write_omission (omission : NativeOmission) : EResult (list Z) :=
  let? path := x_path (no_package_path omission) in
  let? children := x_list (fun child => Ok (u32_be child)) (no_physical_child_path omission) in
  Ok (path ++ children ++ [CoverageReason_tag (no_reason omission)]).

Definition c_path (input : list Z) : EResult (option string * list Z) :=
  let? ' (tag, input) := c_byte input in
  if tag =? 0 then Ok (None, input)
  else if tag =? 1 then let? ' (path, input) := c_string input in Ok (Some path, input)
  else Err (XWire "package path tag").

Definition read_omission (input : list Z) : EResult (NativeOmission * list Z) :=
  let? ' (path, input) := c_path input in
  let? ' (children, input) := c_list 4 c_u32 input in
  let? ' (reason, input) := read_reason input in
  Ok ({| no_package_path := path; no_physical_child_path := children; no_reason := reason |},
      input).

Definition write_report (report : WorkerReport) : EResult (list Z) :=
  let? coverage := write_coverage (wp_coverage report) in
  let? fragments := x_list write_fragment (wp_fragments report) in
  let? readers := x_list write_reader (wp_reader_use report) in
  let? omissions := x_list write_omission (wp_known_omissions report) in
  Ok (coverage ++ fragments ++ readers ++ u32_be (wp_scope_items report) ++ omissions
      ++ [if wp_traversal_complete report then 1 else 0]).

Definition write_failure (failure : ReaderFailure) : list Z :=
  match failure with
  | RfUnsupported reason => [1; CoverageReason_tag reason]
  | RfPermanent code => [2; PermanentFailureCode_tag code]
  | RfRetryable code => [3; RetryableFailureCode_tag code]
  end.

Definition encode_response (response : WorkerResponse) : EResult (list Z) :=
  match response with
  | WrReport report =>
      let? out := write_report report in message REPORT_TAG out MAX_WORKER_OUTPUT_BYTES
  | WrFailure failure => message FAILURE_TAG (write_failure failure) MAX_WORKER_OUTPUT_BYTES
  end.

Definition c_flag (input : list Z) : EResult (bool * list Z) :=
  let? ' (tag, input) := c_byte input in
  if tag =? 0 then Ok (false, input)
  else if tag =? 1 then Ok (true, input)
  else Err (XWire "traversal tag").

Definition read_report (input : list Z) : EResult (WorkerReport * list Z) :=
  let? ' (coverage, input) := read_coverage input in
  let? ' (fragments, input) := c_list 10 read_fragment input in
  let? ' (readers, input) := c_list 12 read_reader input in
  let? ' (scope_items, input) := c_u32 input in
  let? ' (omissions, input) := c_list 6 read_omission input in
  let? ' (complete, input) := c_flag input in
  Ok ({| wp_coverage := coverage; wp_fragments := fragments; wp_reader_use := readers;
         wp_scope_items := scope_items; wp_known_omissions := omissions;
         wp_traversal_complete := complete |}, input).

Definition read_failure (input : list Z) : EResult (ReaderFailure * list Z) :=
  let? ' (code, input) := c_byte input in
  if code =? 1 then
    let? ' (reason, input) := read_reason input in Ok (RfUnsupported reason, input)
  else if code =? 2 then
    let? ' (tag, input) := c_byte input in
    let? code := ok_or (PermanentFailureCode_from_tag tag) (XWire "permanent failure tag") in
    Ok (RfPermanent code, input)
  else if code =? 3 then
    let? ' (tag, input) := c_byte input in
    let? code := ok_or (RetryableFailureCode_from_tag tag) (XWire "retryable failure tag") in
    Ok (RfRetryable code, input)
  else Err (XWire "failure tag").

Definition decode_response (bs : list Z) : EResult WorkerResponse :=
  let? ' (tag, input) := read_message bs MAX_WORKER_OUTPUT_BYTES in
  let? ' (response, input) :=
    (if tag =? REPORT_TAG then
       let? ' (report, input) := read_report input in Ok (WrReport report, input)
     else if tag =? FAILURE_TAG then
       let? ' (failure, input) := read_failure input in Ok (WrFailure failure, input)
     else Err (XWire "response tag")) in
  try? c_finish input in
  Ok response.
End Wire.

(** ** Registered profiles and validation (validation.rs) *)

Record RegisteredProfile : Type := {
  rp_id : ExtractionProfileId;
  rp_definition : ExtractionProfileDefinitionV1;
  rp_parser_build_sha256 : Hash32;
  rp_native_binary_sha256 : option Hash32;
  rp_budgets : ExtractionBudgets;
  rp_archive_plan : option ArchiveProfilePlan;
  rp_profile_bytes : list Z
}.

Definition valid_token (part : string) : bool :=
  (part != EmptyString)
  && forallb (fun byte =>
       in_range 97 122 byte || is_ascii_digit byte || contains (bytes "!#$%&'*+-.^_`|~") byte)
       (bytes part).

Definition valid_media_type (value : string) : bool :=
  match split_once_slash value with
  | None => false
  | Some (kind, subtype) => valid_token kind && valid_token subtype
  end.

Definition compatible_kind (format : FormatId) (locator : NativeLocator) (kind : UnitKind) : bool :=
  match format, locator with
  | Docx, LDocx steps =>
      match kind with
      | Heading => true
      | Paragraph => len steps =? 1
      | TableCell => 1 <? len steps
      | _ => false
      end
  | _, _ =>
      match format, locator, kind with
      | (Xlsx | Xlsm), LSpreadsheet _ _ _, SpreadsheetCell => true
      | Pptx, LPptx _ _ _, SlideText => true
      | Pdf, LPdf _ _ _, PdfText => true
      | TextFormat, LText _ _, PlainText => true
      | Csv, LCsv _ _, CsvField => true
      | Html, LHtml _, (HtmlText | Heading) => true
      | _, _, _ => false
      end
  end.

Section Validation.
Context {N : Unicode} {D : Digest}.

Definition register_definition (definition : ExtractionProfileDefinitionV1)
    : EResult RegisteredProfile :=
  if ep_format definition == Zip then Err (XConfiguration "ZIP requires composite profile")
  else
    let? profile_bytes :=
      map_err (fun _ => XConfiguration "profile definition") (definition_encode definition) in
    let? budgets := from_profile (ep_limits definition) in
    try? validate_for budgets (ep_format definition) in
    let? id := map_err (fun _ => XConfiguration "profile ID") (for_definition definition) in
    Ok {| rp_id := id; rp_definition := definition;
          rp_parser_build_sha256 := ep_parser_build_sha256 definition;
          rp_native_binary_sha256 := ep_native_binary_sha256 definition;
          rp_budgets := budgets; rp_archive_plan := None; rp_profile_bytes := profile_bytes |}.

(** The body of the loop over the nodes of a plan. *)
Definition node_budgets (_ : unit) (node : ArchiveReaderNode) : EResult unit :=
  let? budgets := from_profile (ep_limits (an_definition node)) in
  validate_for budgets (ep_format (an_definition node)).

Definition register_archive (plan : ArchiveProfilePlan) : EResult RegisteredProfile :=
  let? profile_bytes :=
    map_err (fun _ => XConfiguration "archive plan") (ArchiveProfilePlan_encode plan) in
  let? id := map_err (fun _ => XConfiguration "archive profile ID") (for_archive plan) in
  let? root := ok_or (head (pl_nodes plan)) (XConfiguration "archive root") in
  let definition := an_definition root in
  let? budgets := from_profile (ep_limits definition) in
  try? validate_for budgets Zip in
  try? for_each node_budgets tt (pl_nodes plan) in
  Ok {| rp_id := id; rp_definition := definition;
        rp_parser_build_sha256 := ep_parser_build_sha256 definition;
        rp_native_binary_sha256 := ep_native_binary_sha256 definition;
        rp_budgets := budgets; rp_archive_plan := Some plan; rp_profile_bytes := profile_bytes |}.

Definition resolvable (budgets : ExtractionBudgets) (operation : WorkerOperation) : bool :=
  match operation with
  | OpExtract => true
  | OpResolveLocators locators =>
      negb ((budget_get budgets BudgetUnits <? len locators)
            || existsb (fun locator => negb (is_ok (locator_encode locator))) locators)
  end.

Definition validate_worker_request (request : WorkerRequest) (profile : RegisteredProfile)
    : EResult unit :=
  if (wq_format request != ep_format (rp_definition profile))
     || (wq_profile request != rp_id profile)
     || (wq_profile_bytes request != rp_profile_bytes profile)
     || (wq_budgets request != rp_budgets profile)
  then Err (XConfiguration "request profile binding")
  else
    try? validate_for (wq_budgets request) (wq_format request) in
    if (budget_get (wq_budgets request) InputBytes <? rw_size_bytes (wq_expected_raw request))
       || negb (valid_media_type (rw_media_type (wq_expected_raw request)))
    then Err (XIntegrity "raw binding")
    else if negb (resolvable (wq_budgets request) (wq_operation request))
    then Err (XIntegrity "resolve locator")
    else Ok tt.

(** The match over the locator and the format of the profile. *)
Definition validate_place (fragment : WorkerFragment) (profile : RegisteredProfile) : EResult unit
  :=
  match wf_locator fragment, ep_format (rp_definition profile) with
  | LArchive members inner, Zip =>
      let? plan := ok_or (rp_archive_plan profile) (XIntegrity "archive plan") in
      let? leaf :=
        ok_or (List.find (fun node => an_members node == members) (pl_nodes plan))
          (XIntegrity "archive leaf") in
      let definition := an_definition leaf in
      if negb (contains (pl_used_leaf_chains plan) members)
         || (ep_format definition == Zip)
         || (budget_get (ep_limits definition) UnitUtf8Bytes <? str_len (wf_text fragment))
         || negb (compatible_kind (ep_format definition) inner (wf_kind fragment))
      then Err (XIntegrity "archive leaf kind") else Ok tt
  | LArchive _ _, _ | _, Zip => Err (XIntegrity "archive locator")
  | locator, format =>
      if negb (compatible_kind format locator (wf_kind fragment))
      then Err (XIntegrity "fragment kind") else Ok tt
  end.

Definition validate_fragment (fragment : WorkerFragment) (index : Z) (profile : RegisteredProfile)
    : EResult (list Z) :=
  if negb (wf_ordinal fragment =? index)
     || is_some_and (wf_parent_ordinal fragment) (fun parent => wf_ordinal fragment <=? parent)
     || (wf_text fragment == EmptyString)
     || (normalize_unit_text (wf_text fragment) != wf_text fragment)
     || (budget_get (rp_budgets profile) UnitUtf8Bytes <? str_len (wf_text fragment))
  then Err (XIntegrity "fragment ordinal/text")
  else
    let? locator_bytes :=
      map_err (fun _ => XIntegrity "fragment locator") (locator_encode (wf_locator fragment)) in
    try? validate_place fragment profile in
    Ok locator_bytes.

(** The loop over the fragments: the next index and the locators seen. *)
Definition fragment_step (profile : RegisteredProfile) (s : Z * list (list Z))
    (fragment : WorkerFragment) : EResult (Z * list (list Z)) :=
  let? locator := validate_fragment fragment s.1 profile in
  if contains s.2 locator then Err (XIntegrity "duplicate locator")
  else Ok (s.1 + 1, locator :: s.2).

(** What [seen_omissions] holds of an omission. *)
Definition omission_scope (omission : NativeOmission) : option string * list Z :=
  (no_package_path omission, no_physical_child_path omission).

Definition omission_step (seen : list (option string * list Z)) (omission : NativeOmission)
    : EResult (list (option string * list Z)) :=
  if (256 <? len (no_physical_child_path omission))
     || is_some_and (no_package_path omission)
          (fun path => (4096 <? str_len path) || negb (is_ok (validate_archive_member path)))
     || (is_none (no_package_path omission) && is_empty (no_physical_child_path omission))
  then Err (XIntegrity "omission scope")
  else if contains seen (omission_scope omission) then Err (XIntegrity "duplicate omission")
  else Ok (omission_scope omission :: seen).

(** [BTreeSet]s of reasons, compared with each other. *)
Definition same_reasons (declared omitted : list CoverageReason) : bool :=
  forallb (contains omitted) declared && forallb (contains declared) omitted.

Definition has_duplicates (reasons : list CoverageReason) : bool := negb (bool_decide (NoDup
  reasons)).

Definition validate_coverage (report : WorkerReport) : EResult unit :=
  match wp_coverage report with
  | Supported =>
      if negb (is_empty (wp_known_omissions report)) then Err (XIntegrity "supported omissions")
      else Ok tt
  | Partial reasons =>
      if is_empty reasons || is_empty (wp_fragments report)
         || is_empty (wp_known_omissions report) || (wp_scope_items report =? 0)
      then Err (XIntegrity "partial witness")
      else if contains reasons ResourceLimit then Err (XIntegrity "partial resource limit")
      else if has_duplicates reasons
              || negb (same_reasons reasons (map no_reason (wp_known_omissions report)))
      then Err (XIntegrity "partial reasons")
      else Ok tt
  | Unsupported _ =>
      if negb (is_empty (wp_fragments report)) || negb (is_empty (wp_known_omissions report))
      then Err (XIntegrity "unsupported output")
      else Ok tt
  end.

Definition validate_reader_use (report : WorkerReport) (profile : RegisteredProfile)
    : EResult unit :=
  match rp_archive_plan profile with
  | Some plan =>
      if wp_reader_use report != pl_nodes plan then Err (XIntegrity "archive reader-use")
      else Ok tt
  | None =>
      if negb (is_empty (wp_reader_use report)) then Err (XIntegrity "nonarchive reader-use")
      else Ok tt
  end.

Definition is_unsupported (coverage : BodyCoverage) : bool :=
  match coverage with Unsupported _ => true | _ => false end.

(** A structured failure that terminates an item: it carries nothing else. *)
Definition empty_report (report : WorkerReport) : bool :=
  is_unsupported (wp_coverage report) && is_empty (wp_fragments report)
  && is_empty (wp_reader_use report) && (wp_scope_items report =? 0)
  && is_empty (wp_known_omissions report).

Definition validate_worker_report (report : WorkerReport) (profile : RegisteredProfile)
    : EResult unit :=
  try? validate_for (rp_budgets profile) (ep_format (rp_definition profile)) in
  let? encoded :=
    map_err (fun _ => XIntegrity "worker output encoding") (encode_response (WrReport report)) in
  if budget_get (rp_budgets profile) WorkerOutputBytes <? len encoded
  then Err (XIntegrity "worker output budget")
  else if negb (wp_traversal_complete report) then
    if empty_report report then Ok tt else Err (XIntegrity "incomplete traversal")
  else if (budget_get (rp_budgets profile) BudgetUnits <? len (wp_fragments report))
          || ((wp_scope_items report =? 0) && negb (is_empty (wp_fragments report)))
  then Err (XIntegrity "scope/unit count")
  else
    try? validate_coverage report in
    try? for_each (fragment_step profile) (0, []) (wp_fragments report) in
    try? for_each omission_step [] (wp_known_omissions report) in
    validate_reader_use report profile.

Definition checked_completed_report (response : WorkerResponse) (profile : RegisteredProfile)
    : EResult WorkerReport :=
  match response with
  | WrReport report => try? validate_worker_report report profile in Ok report
  | WrFailure _ => Err (XIntegrity "no completed report")
  end.
End Validation.

(** ** Readers and writers *)

(** A reader takes back what a writer wrote, and takes nothing else: the values are those of [ok].
*)
Record wire {A E F} (read : list Z -> Result (A * list Z) E) (write : A -> Result (list Z) F)
    (ok : A -> Prop) : Prop := {
  w_read : forall a out rest, ok a -> write a = Ok out -> read (out ++ rest) = Ok (a, rest);
  r_write : forall bs a rest, Forall byte bs -> read bs = Ok (a, rest) ->
    ok a /\ Forall byte rest /\ exists out, write a = Ok out /\ bs = out ++ rest
}.

Lemma wire_of_codec {A E F} (read : list Z -> Result (A * list Z) E) enc ok
    (write : A -> Result (list Z) F) ok' :
  codec read enc ok -> (forall a out, ok' a -> write a = Ok out <-> ok a /\ out = enc a) ->
  (forall a, ok a -> ok' a) -> wire read write ok'.
Proof.
  intros C Hw Ho. split.
  - intros a out rest Ha [Hok ->]%Hw; [|done]. by apply (read_enc _ _ _ C).
  - intros bs a rest Hb H. pose proof (rest_bytes _ _ _ _ _ _ C Hb H).
    destruct (enc_read _ _ _ C _ _ _ Hb H) as [-> Hok]. split_and!; [by apply Ho|done|].
    exists (enc a). split; [|done]. apply Hw; [by apply Ho|done].
Qed.

(** A reader that reports another error. *)
Lemma codec_map_err {A E F} (f : E -> F) (read : list Z -> Result (A * list Z) E)
    (read' : list Z -> Result (A * list Z) F) enc ok :
  (forall bs, read' bs = map_err f (read bs)) -> codec read enc ok -> codec read' enc ok.
Proof.
  intros He [H1 H2]. split.
  - intros a rest Ha. by rewrite He, H1.
  - intros bs a rest Hb. rewrite He. intros H%map_err_Ok. by apply H2.
Qed.

Lemma c_take_codec n : 0 <= n -> codec (c_take n) (fun bs => bs) (fun bs => len bs = n).
Proof.
  intros Hn. apply (codec_map_err (fun _ : UnitCodecError => XWire "truncated frame") (r_take n)).
  - intros bs. unfold c_take, r_take, codec_err. by destruct (_ <? _).
  - by apply take_codec.
Qed.

Lemma c_byte_codec : codec c_byte (fun b => [b]) byte.
Proof.
  apply (codec_map_err (fun _ : UnitCodecError => XWire "truncated frame") r_byte);
    [|exact byte_codec].
  intros bs. unfold c_byte, r_byte, c_take, r_take, codec_err. by destruct (_ <? _).
Qed.

Lemma c_u32_codec : codec c_u32 u32_be is_u32.
Proof.
  apply (codec_map_err (fun _ : UnitCodecError => XWire "truncated frame") r_u32); [|exact u32_codec].
  intros bs. unfold c_u32, r_u32, c_take, r_take, codec_err. by destruct (_ <? _).
Qed.

Lemma c_u64_codec : codec c_u64 u64_be is_u64.
Proof.
  apply (codec_map_err (fun _ : UnitCodecError => XWire "truncated frame") r_u64); [|exact u64_codec].
  intros bs. unfold c_u64, r_u64, c_take, r_take, codec_err. by destruct (_ <? _).
Qed.

Lemma c_frame_codec : codec c_frame frame_bytes (fun bs => len bs <= u32_max).
Proof.
  apply (codec_map_err (fun _ : UnitCodecError => XWire "truncated frame") r_frame); [|exact frame_codec].
  intros bs. unfold c_frame, r_frame, c_u32, r_u32, c_take, r_take, codec_err.
  destruct (_ <? 4); [done|]. cbn [rbind map_err]. by destruct (_ <? _).
Qed.

Lemma x_frame_Ok bs out : x_frame bs = Ok out <-> len bs <= u32_max /\ out = frame_bytes bs.
Proof.
  unfold x_frame, u32_try_from, frame_bytes. pose proof (len_nonneg bs).
  destruct (_ && _) eqn:E; cbn.
  - simp_bool. split; [intros [= <-]; by split|by intros [_ ->]].
  - split; [done|]. intros [Hl _]. apply andb_false_iff in E as [E|E]; simp_bool; lia.
Qed.

Lemma frame_wire : wire c_frame x_frame (Forall byte).
Proof.
  split.
  - intros bs out rest _ [Hl ->]%x_frame_Ok. by apply (read_enc _ _ _ c_frame_codec).
  - intros bs a rest Hb H. pose proof (rest_bytes _ _ _ _ _ _ c_frame_codec Hb H).
    destruct (enc_read _ _ _ c_frame_codec _ _ _ Hb H) as [-> Hl].
    apply Forall_app in Hb as [Hb _]. unfold frame_bytes in Hb. apply Forall_app in Hb as [_ Hb].
    split_and!; [done|done|]. exists (frame_bytes a). split; [by apply x_frame_Ok|done].
Qed.

(** A value whose encoding is a whole frame. *)
Lemma framed_wire {A E F} (read : list Z -> EResult (A * list Z)) (write : A -> EResult (list Z))
    (decode : list Z -> Result A E) (encode : A -> Result (list Z) F) (f : E -> ExtractionError)
    (g : F -> ExtractionError) (ok : A -> Prop) :
  (forall input, read input =
     let? ' (frame, input) := c_frame input in
     let? a := map_err f (decode frame) in Ok (a, input)) ->
  (forall a, write a = let? encoded := map_err g (encode a) in x_frame encoded) ->
  (forall a bs, ok a -> encode a = Ok bs -> decode bs = Ok a) ->
  (forall a bs, Forall byte bs -> decode bs = Ok a -> ok a /\ encode a = Ok bs) ->
  wire read write ok.
Proof.
  intros Hr Hw He Hd. split.
  - intros a out rest Ha H. rewrite Hw in H.
    apply rbind_Ok in H as (bs & Hb%map_err_Ok & [Hl ->]%x_frame_Ok).
    rewrite Hr, (read_enc _ _ _ c_frame_codec) by done. cbn [rbind]. by rewrite (He a bs).
  - intros bs a rest Hb H. rewrite Hr in H. apply rbind_Ok in H as ([fr r] & Hf & H).
    apply rbind_Ok in H as (a' & Ha%map_err_Ok & [= <- <-]).
    destruct (r_write _ _ _ frame_wire _ _ _ Hb Hf) as (Hfb & Hrb & out & Ho & ->).
    destruct (Hd _ _ Hfb Ha) as [Hok Hen]. split_and!; [done|done|]. exists out. split; [|done].
    rewrite Hw, Hen. exact Ho.
Qed.

(** [unread W]: what a successful read of [W] consumed; [reread W]: the read of what was written. *)
Ltac unread W :=
  match goal with
  | Hb : Forall byte ?bs, H : _ ?bs = Ok (_, _) |- _ =>
      let Hok := fresh "Hok" in let Hw := fresh "Hw" in let Hr := fresh "Hrest" in
      destruct (r_write _ _ _ W _ _ _ Hb H) as (Hok & Hr & ? & Hw & ->); clear H Hb
  end.
Ltac reread W := erewrite (w_read _ _ _ W); [cbn [rbind]| |eassumption].

Lemma u32_wire : wire (F := ExtractionError) c_u32 (fun n => Ok (u32_be n)) is_u32.
Proof.
  apply (wire_of_codec _ _ _ _ _ c_u32_codec); [|done].
  intros a out Ha. split; [intros [= <-]; by split|by intros [_ ->]].
Qed.

Lemma u64_wire : wire (F := ExtractionError) c_u64 (fun n => Ok (u64_be n)) is_u64.
Proof.
  apply (wire_of_codec _ _ _ _ _ c_u64_codec); [|done].
  intros a out Ha. split; [intros [= <-]; by split|by intros [_ ->]].
Qed.

Lemma byte_wire : wire (F := ExtractionError) c_byte (fun b => Ok [b]) byte.
Proof.
  apply (wire_of_codec _ _ _ _ _ c_byte_codec); [|done].
  intros a out Ha. split; [intros [= <-]; by split|by intros [_ ->]].
Qed.

(** A tag byte that a function reads back. *)
Lemma tag_wire {A} (read : list Z -> EResult (A * list Z)) (tag : A -> Z)
    (from_tag : Z -> EResult A) :
  (forall input, read input =
     let? ' (t, input) := c_byte input in let? a := from_tag t in Ok (a, input)) ->
  (forall a, byte (tag a)) -> (forall a, from_tag (tag a) = Ok a) ->
  (forall t a, from_tag t = Ok a -> tag a = t) ->
  wire (F := ExtractionError) read (fun a => Ok [tag a]) (fun _ => True).
Proof.
  intros Hr Hb Ht Hf. split.
  - intros a out rest _ [= <-]. rewrite Hr, (read_enc _ _ _ c_byte_codec) by done. cbn [rbind].
    by rewrite Ht.
  - intros bs a rest Hbs H. rewrite Hr in H. apply rbind_Ok in H as ([t r] & Hc & H).
    apply rbind_Ok in H as (a' & Ha & [= <- <-]). unread byte_wire. injection Hw as <-.
    split_and!; [done|done|]. exists [t]. by rewrite (Hf _ _ Ha).
Qed.

Lemma string_wire : wire c_string x_string str_typed.
Proof.
  apply (framed_wire c_string x_string (fun bs => ok_or (from_utf8 bs) tt) (fun s => Ok (E := unit)
    (bytes s))
    (fun _ => XWire "UTF-8") (fun _ => XWire "")).
  - intros input. unfold c_string. destruct (c_frame input) as [[fr r]|]; [|done]. cbn.
    by destruct (from_utf8 fr).
  - done.
  - intros a bs Ha [= <-]. by rewrite Ha.
  - intros a bs Hb H%ok_or_Ok. apply from_utf8_Some in H as [<- Ht]; [|done]. by split.
Qed.

Lemma write_all_len {A E} (write : A -> Result (list Z) E) k xs out :
  (forall a o, write a = Ok o -> k <= len o) -> write_all write xs = Ok out -> k * len xs <= len
    out.
Proof.
  intros Hk. revert out. induction xs as [|x xs IH]; intros out; cbn [write_all].
  - intros [= <-]. unfold len. cbn. lia.
  - intros H. apply rbind_Ok in H as (o & Ho & H). apply rbind_Ok in H as (r & Hr & [= <-]).
    apply Hk in Ho. apply IH in Hr. unfold len in *. rewrite length_app. cbn [length]. nia.
Qed.

Lemma many_wire {A E F} (read : list Z -> Result (A * list Z) E) (write : A -> Result (list Z) F)
  ok n :
  wire read write ok ->
  wire (r_many n read) (write_all write) (fun xs => length xs = n /\ Forall ok xs).
Proof.
  intros W. induction n as [|n IH].
  - split.
    + intros [|x xs] out rest [Hl _] H; [|done]. by injection H as <-.
    + intros bs xs rest Hb [= <- <-]. split_and!; [done|constructor|done|]. by exists [].
  - split.
    + intros [|x xs] out rest [Hl Hok] H; [done|]. inversion Hok; subst. injection Hl as Hl.
      cbn [write_all] in H. apply rbind_Ok in H as (o & Ho & H).
      apply rbind_Ok in H as (r & Hr & [= <-]).
      cbn [r_many]. rewrite <- app_assoc, (w_read _ _ _ W x o) by done. cbn [rbind].
      by rewrite (w_read _ _ _ IH xs r).
    + intros bs xs rest Hb H. cbn [r_many] in H. apply rbind_Ok in H as ([x r] & H1 & H).
      apply rbind_Ok in H as ([ys r'] & H2 & [= <- <-]).
      destruct (r_write _ _ _ W _ _ _ Hb H1) as (Hx & Hr & o & Ho & ->).
      destruct (r_write _ _ _ IH _ _ _ Hr H2) as ([Hl Hys] & Hrb & o' & Ho' & ->).
      split_and!; [by rewrite <- Hl|by constructor|done|].
      exists (o ++ o'). rewrite app_assoc. split; [|done]. cbn [write_all]. by rewrite Ho, Ho'.
Qed.

Lemma x_count_Ok n out :
  0 <= n -> x_count n = Ok out <-> n <= MAX_COLLECTION_COUNT /\ out = u32_be n.
Proof.
  intros Hn. unfold x_count, u32_try_from, MAX_COLLECTION_COUNT.
  destruct (Z.ltb_spec 100000 n); [split; [done|lia]|].
  destruct (_ && _) eqn:E; cbn.
  - split; [intros [= <-]; by split|by intros [_ ->]].
  - apply andb_false_iff in E as [E|E]; simp_bool; unfold u32_max in *; lia.
Qed.

Lemma list_wire {A} min (read : list Z -> EResult (A * list Z)) write ok :
  wire read write ok -> 0 < min -> (forall a out, write a = Ok out -> min <= len out) ->
  wire (c_list min read) (x_list write) (Forall ok).
Proof.
  intros W Hm Hlen. split.
  - intros xs out rest Hok H. unfold x_list in H.
    apply rbind_Ok in H as (c & [Hc ->]%x_count_Ok & H); [|apply len_nonneg].
    apply rbind_Ok in H as (items & Hi & H). apply Ok_inj in H as <-. unfold c_list, c_count.
    pose proof (len_nonneg xs). rewrite <- app_assoc, (read_enc _ _ _ c_u32_codec)
      by (unfold is_u32, u32_max, MAX_COLLECTION_COUNT in *; lia).
    cbn [rbind]. pose proof (write_all_len _ _ _ _ Hlen Hi) as Hl.
    destruct (_ || _) eqn:E.
    + exfalso. apply orb_true_iff in E as [E|E]; simp_bool; [lia|]. revert E. apply Z.nlt_ge.
      apply Z.div_le_lower_bound; [lia|]. unfold remaining. rewrite len_app.
      pose proof (len_nonneg rest). lia.
    + cbn [rbind]. apply (w_read _ _ _ (many_wire _ _ _ (Z.to_nat (len xs)) W)); [|done].
      split; [unfold len; lia|done].
  - intros bs xs rest Hb H. unfold c_list, c_count in H. apply rbind_Ok in H as ([n r] & Hc & H).
    apply rbind_Ok in Hc as ([n' r'] & Hu & Hc). destruct (_ || _) eqn:E in Hc; [done|].
    injection Hc as <- <-. apply orb_false_iff in E as [E _]. simp_bool.
    unread u32_wire. injection Hw as <-.
    destruct (r_write _ _ _ (many_wire _ _ _ (Z.to_nat n') W) _ _ _ Hrest H) as ([Hl Hxs] & Hrb & o
      & Ho & ->).
    unfold is_u32 in Hok. apply len_count in Hl; [|lia]. split_and!; [done|done|].
    exists (u32_be n' ++ o). rewrite app_assoc. split; [|done]. unfold x_list. rewrite Hl.
    rewrite (proj2 (x_count_Ok n' _ ltac:(lia)) (conj E eq_refl)). cbn [rbind]. by rewrite Ho.
Qed.

(** *** Budget maps *)

(** What the model's maps of budgets hold: every key, with a [u64]. *)
Definition limits_typed (l : list (BudgetKey * Z)) : Prop :=
  bt_wf l /\ forall k, exists v, bt_get k l = Some v /\ is_u64 v.

Lemma limits_get l k : limits_typed l -> bt_get k l = Some (budget_get l k) /\ is_u64 (budget_get l
  k).
Proof. intros [_ Hl]. destruct (Hl k) as (v & Hv & Hu). unfold budget_get. by rewrite Hv. Qed.

Section Limits.
Context {E T : Type} (step : list (BudgetKey * Z) * list Z -> T -> Result (list (BudgetKey * Z) *
  list Z) E)
  (key : T -> BudgetKey) (tag : T -> Z).
Context (step_fwd : forall m k v rest, is_u64 v -> bt_contains_key (key k) m = false ->
  step (m, tag k :: u64_be v ++ rest) k = Ok (bt_insert (key k) v m, rest)).
Context (step_bwd : forall m input k s, Forall byte input -> step (m, input) k = Ok s ->
  exists v rest, input = tag k :: u64_be v ++ rest /\ is_u64 v /\ Forall byte rest
    /\ s = (bt_insert (key k) v m, rest)).

Definition limit_bytes (l : list (BudgetKey * Z)) (k : T) : list Z := tag k :: u64_be (budget_get l
  (key k)).

Lemma limits_fwd l ks m rest :
  limits_typed l -> NoDup (map key ks) -> bt_wf m -> (forall k, k ∈ map key ks -> k ∉ map fst m) ->
  exists m', for_each step (m, flat_map (limit_bytes l) ks ++ rest) ks = Ok (m', rest)
    /\ bt_wf m' /\ forall k, bt_get k m' = if decide (k ∈ map key ks) then bt_get k l else bt_get k
      m.
Proof.
  clear step_bwd. intros Hl. revert m.
  induction ks as [|k ks IH]; intros m Hn Hw Hd; cbn [flat_map for_each map].
  - exists m. split_and!; [done|done|]. intros k. by rewrite decide_False by set_solver.
  - cbn [map] in Hn. apply NoDup_cons in Hn as [Hk Hn].
    destruct (limits_get l (key k) Hl) as [Hg Hu].
    unfold limit_bytes at 1. rewrite <- app_assoc, <- app_comm_cons.
    assert (key k ∉ map fst m) as Hf by (apply Hd; cbn; by left).
    rewrite step_fwd; [|done|]; [|rewrite bt_keys in Hf by done; unfold bt_contains_key;
      by destruct (is_some _)].
    cbn [rbind].
    destruct (IH (bt_insert (key k) (budget_get l (key k)) m)) as (m' & Hf' & Hw' & Hg').
    + done.
    + by apply bt_wf_alter.
    + intros j Hj Hin. apply list_elem_of_fmap in Hin as (e & -> & He).
      apply bt_insert_elem in He as [->|He]; [done|]. apply (Hd e.1); [cbn; by right|].
      apply list_elem_of_fmap. by exists e.
    + exists m'. split_and!; [done|done|]. intros j. rewrite Hg', bt_get_insert by done. cbn [map].
      repeat case_decide; subst; try done; set_solver.
Qed.

Lemma limits_bwd ks m input l rest :
  Forall byte input -> NoDup (map key ks) -> bt_wf m -> (forall k, k ∈ map key ks -> k ∉ map fst m)
    ->
  for_each step (m, input) ks = Ok (l, rest) ->
  Forall byte rest /\ input = flat_map (limit_bytes l) ks ++ rest /\ bt_wf l
  /\ (forall k, k ∉ map key ks -> bt_get k l = bt_get k m)
  /\ (forall k, k ∈ map key ks -> exists v, bt_get k l = Some v /\ is_u64 v).
Proof.
  clear step_fwd. intros Hb Hn. revert m input Hb.
  induction ks as [|k ks IH]; intros m input Hb Hw Hd H; cbn [for_each] in H.
  - injection H as <- <-. cbn. split_and!; [done..|]. set_solver.
  - apply rbind_Ok in H as ([m1 r1] & Hs & H). cbn [map] in Hn. apply NoDup_cons in Hn as [Hk Hn].
    apply step_bwd in Hs as (v & r & -> & Hv & Hr & [= -> ->]); [|done].
    apply IH in H as (Hrest & -> & Hwl & Ho & Hi); [|done|done|by apply bt_wf_alter|].
    + assert (bt_get (key k) l = Some v) as Hgk.
      { rewrite Ho, bt_get_insert by done. by rewrite decide_True. }
      split_and!; [done| |done| |].
      * cbn [flat_map]. unfold limit_bytes at 2, budget_get. rewrite Hgk. cbn [unwrap_or].
        by rewrite <- app_assoc, <- app_comm_cons.
      * intros j Hj. cbn [map] in Hj. rewrite Ho, bt_get_insert, decide_False by set_solver. done.
      * intros j [->|Hj]%elem_of_cons; [by exists v|by apply Hi].
    + intros j Hj Hin. apply list_elem_of_fmap in Hin as (e & -> & He).
      apply bt_insert_elem in He as [->|He]; [done|]. apply (Hd e.1); [cbn; by right|].
      apply list_elem_of_fmap. by exists e.
Qed.
End Limits.

Lemma BudgetKey_ALL_all k : k ∈ BudgetKey_ALL.
Proof. destruct k; set_solver. Qed.

Lemma BudgetKey_ALL_NoDup : NoDup BudgetKey_ALL.
Proof. apply (bool_decide_unpack _). vm_compute. done. Qed.

(** A loop over all keys reads the map back. *)
Lemma all_limits_fwd {E T} step (key : T -> BudgetKey) tag ks l rest :
  map key ks = BudgetKey_ALL -> limits_typed l ->
  (forall m k v rest, is_u64 v -> bt_contains_key (key k) m = false ->
    step (m, tag k :: u64_be v ++ rest) k = Ok (E := E) (bt_insert (key k) v m, rest)) ->
  for_each step ([], flat_map (limit_bytes key tag l) ks ++ rest) ks = Ok (l, rest).
Proof.
  intros Hk Hl Hs. destruct (limits_fwd step key tag Hs l ks [] rest) as (m' & -> & Hw & Hg).
  - done.
  - rewrite Hk. apply BudgetKey_ALL_NoDup.
  - apply bt_wf_nil.
  - cbn. set_solver.
  - f_equal. f_equal. apply bt_ext; [done|apply Hl|]. intros k. rewrite Hg, Hk.
    by rewrite decide_True by apply BudgetKey_ALL_all.
Qed.

Lemma all_limits_bwd {E T} step (key : T -> BudgetKey) tag ks input l rest :
  map key ks = BudgetKey_ALL -> Forall byte input ->
  (forall m input k s, Forall byte input -> step (m, input) k = Ok (E := E) s ->
    exists v rest, input = tag k :: u64_be v ++ rest /\ is_u64 v /\ Forall byte rest
      /\ s = (bt_insert (key k) v m, rest)) ->
  for_each step ([], input) ks = Ok (l, rest) ->
  limits_typed l /\ Forall byte rest /\ input = flat_map (limit_bytes key tag l) ks ++ rest.
Proof.
  intros Hk Hb Hs H. apply (limits_bwd step key tag Hs) in H as (Hr & Hi & Hw & _ & Hg).
  - split_and!; [split; [done|]|done|done]. intros k. apply Hg. rewrite Hk. apply BudgetKey_ALL_all.
  - done.
  - rewrite Hk. apply BudgetKey_ALL_NoDup.
  - apply bt_wf_nil.
  - cbn. set_solver.
Qed.

(** *** Profile definitions *)

(** A decoder of whole byte strings inverts an encoder, and accepts nothing else. *)
Record whole {A E F} (decode : list Z -> Result A E) (encode : A -> Result (list Z) F)
    (ok : A -> Prop) : Prop := {
  dec_enc : forall a bs, ok a -> encode a = Ok bs -> decode bs = Ok a;
  enc_dec : forall bs a, Forall byte bs -> decode bs = Ok a -> ok a /\ encode a = Ok bs
}.

Lemma r_finish_Ok input u : r_finish input = Ok u -> input = [].
Proof.
  unfold r_finish, remaining, codec_err. destruct input; [done|]. unfold len. cbn [length].
  destruct (Z.eqb_spec (Z.of_nat (S (length input))) 0); cbn; [lia|done].
Qed.

Lemma read_string_whole : whole (F := unit) read_string (fun s => Ok (bytes s)) str_typed.
Proof.
  split.
  - intros s bs Hs [= <-]. unfold read_string. by rewrite Hs.
  - intros bs s Hb H%ok_or_Ok. apply from_utf8_Some in H as [<- Ht]; [|done]. by split.
Qed.

Lemma read_u32_payload_whole : whole (F := unit) read_u32_payload (fun n => Ok (u32_be n)) is_u32.
Proof.
  split.
  - intros n bs Hn H. apply Ok_inj in H as <-. unfold read_u32_payload.
    rewrite <- (app_nil_r (u32_be n)). by rewrite (read_enc _ _ _ u32_codec).
  - intros bs n Hb H. unfold read_u32_payload in H. bind_step H. dec u32_codec.
    apply rbind_Ok in H as (u & ->%r_finish_Ok & [= ->]). by rewrite app_nil_r.
Qed.

Lemma FormatId_from_tag_Ok t f : FormatId_from_tag t = Ok f -> FormatId_tag f = t.
Proof.
  unfold FormatId_from_tag, codec_err. repeat (case_match; [simp_bool; intros [= <-]; done|]). done.
Qed.

Lemma read_format_whole : whole (F := unit) read_format (fun f => Ok [FormatId_tag f]) (fun _ =>
  True).
Proof.
  split.
  - intros f bs _ [= <-]. by destruct f.
  - intros bs f Hb H. unfold read_format in H. bind_step H. dec byte_codec.
    apply rbind_Ok in H as (f' & Hf%FormatId_from_tag_Ok & H).
    apply rbind_Ok in H as (u & ->%r_finish_Ok & [= ->]). by subst.
Qed.

Lemma ascii_bytes_hash h : ascii_bytes (hash_bytes h) = vec_to_list h.
Proof.
  unfold ascii_bytes, hash_bytes. rewrite map_map. transitivity (map (fun c => c) (vec_to_list h));
    [|apply map_id]. apply map_ext. intros c. unfold ascii_of_byte, byte_of_ascii.
  by rewrite N2Z.id, ascii_N_embedding.
Qed.

Lemma hash_bytes_of bs : Forall byte bs -> map byte_of_ascii (ascii_bytes bs) = bs.
Proof.
  intros Hb. unfold ascii_bytes. rewrite map_map. induction Hb as [|b bs Hb _ IH]; cbn; [done|].
  rewrite IH. f_equal. by apply byte_of_ascii_of_byte.
Qed.

Lemma hash_from_whole {E} (e : E) :
  whole (F := unit) (fun bs => ok_or (hash_from bs) e) (fun h => Ok (hash_bytes h)) (fun _ => True).
Proof.
  assert (forall l (p : length l = 32%nat), vec_to_list (eq_rect _ (vec ascii) (list_to_vec l) _ p)
    = l)
    as Hv by (intros l p; destruct p; apply vec_to_list_to_vec).
  split.
  - intros h bs _ H. apply Ok_inj in H as <-. unfold hash_from. destruct (decide _) as [p|Hn].
    + cbn. f_equal. apply vec_to_list_inj2. rewrite Hv. apply ascii_bytes_hash.
    + exfalso. apply Hn. by rewrite ascii_bytes_hash, length_vec_to_list.
  - intros bs h Hb H. unfold hash_from in H. destruct (decide _) as [p|]; [|done].
    apply Ok_inj in H as <-.
    split; [done|]. f_equal. unfold hash_bytes. by rewrite Hv, hash_bytes_of.
Qed.

Lemma read_native_whole : whole (F := unit) read_native (fun n => Ok (native_bytes n)) (fun _ =>
  True).
Proof.
  split.
  - intros [h|] bs _ H; apply Ok_inj in H as <-; [|done]. unfold native_bytes, read_native.
    change (1 :: hash_bytes h) with ([1] ++ hash_bytes h). enc byte_codec; [|done].
    change (1 =? 0) with false. change (1 =? 1) with true. rewrite <- (app_nil_r (hash_bytes h)).
    assert (len (hash_bytes h) = 32) as Hl
      by (unfold len, hash_bytes; by rewrite length_map, length_vec_to_list).
    enc (take_codec 32 ltac:(lia)); [|done].
    pose proof (dec_enc _ _ _ (hash_from_whole tt) h _ I eq_refl) as Hf%ok_or_Ok. by rewrite Hf.
  - intros bs n Hb H. unfold read_native in H. bind_step H. dec byte_codec.
    apply rbind_Ok in H as ([v r] & Hv & H). apply rbind_Ok in H as (u & ->%r_finish_Ok & [= <-]).
    destruct (Z.eqb_spec z 0) as [->|_]; [by injection Hv as <- ->|].
    destruct (Z.eqb_spec z 1) as [->|_]; [|done]. bind_step Hv.
    match goal with Hr : r_take 32 ?l0 = Ok (?h, ?r) |- _ =>
      destruct (enc_read _ _ _ (take_codec 32 ltac:(lia)) _ _ _ Hb Hr) as [-> Hl] end.
    injection Hv as <- ->. rewrite app_nil_r in *.
    destruct (hash_from l0) as [h|] eqn:Eh.
    + destruct (enc_dec _ _ _ (hash_from_whole tt) l0 h Hb) as [_ He]; [by rewrite Eh|].
      apply Ok_inj in He as <-. done.
    + exfalso. unfold hash_from in Eh. destruct (decide _) as [|Hn]; [done|]. apply Hn.
      unfold ascii_bytes. rewrite length_map. unfold len in Hl. lia.
Qed.

Definition settings_typed (s : FormatSettings) : Prop :=
  match s with
  | SettingsNone => True
  | SettingsText charset => str_typed charset
  | SettingsCsv charset delimiter quote => str_typed charset /\ byte delimiter /\ byte quote
  | SettingsArchive member_decoder => str_typed member_decoder
  end.

Lemma dec_string input fr r s :
  Forall byte input -> r_frame input = Ok (fr, r) -> read_string fr = Ok s ->
  input = frame_bytes (bytes s) ++ r /\ str_typed s
  /\ write_frame (bytes s) = Ok (frame_bytes (bytes s)) /\ Forall byte r.
Proof.
  intros Hb Hf Hs. pose proof (rest_bytes _ _ _ _ _ _ frame_codec Hb Hf) as Hr.
  destruct (enc_read _ _ _ frame_codec _ _ _ Hb Hf) as [-> Hl]. apply Forall_app in Hb as [Hb _].
  unfold frame_bytes in Hb. apply Forall_app in Hb as [_ Hb].
  destruct (enc_dec _ _ _ read_string_whole _ _ Hb Hs) as [Ht [= <-]].
  split_and!; [done|done|by apply write_frame_Ok|done].
Qed.

Lemma read_settings_whole : whole read_settings settings_bytes settings_typed.
Proof.
  split.
  - intros s bs Hs H. unfold read_settings. destruct s; cbn [settings_bytes settings_typed] in *.
    + by apply Ok_inj in H as <-.
    + apply rbind_Ok in H as (f & [Hl ->]%write_frame_Ok & H). apply Ok_inj in H as <-.
      change (1 :: ?x) with ([1] ++ x). enc byte_codec; [|done]. cbn [Z.eqb Pos.eqb].
      rewrite <- (app_nil_r (frame_bytes _)). enc frame_codec; [|done].
      by rewrite (dec_enc _ _ _ read_string_whole charset _ Hs eq_refl).
    + apply rbind_Ok in H as (f & [Hl ->]%write_frame_Ok & H). apply Ok_inj in H as <-.
      destruct Hs as (Hs & Hd & Hq). change (2 :: ?x) with ([2] ++ x). enc byte_codec; [|done].
      cbn [Z.eqb Pos.eqb]. enc frame_codec; [|done].
      rewrite (dec_enc _ _ _ read_string_whole charset _ Hs eq_refl). cbn [rbind].
      change [delimiter; quote] with ([delimiter] ++ [quote] ++ []). enc byte_codec; [|done].
      by enc byte_codec.
    + apply rbind_Ok in H as (f & [Hl ->]%write_frame_Ok & H). apply Ok_inj in H as <-.
      change (3 :: ?x) with ([3] ++ x). enc byte_codec; [|done]. cbn [Z.eqb Pos.eqb].
      rewrite <- (app_nil_r (frame_bytes _)). enc frame_codec; [|done].
      by rewrite (dec_enc _ _ _ read_string_whole member_decoder _ Hs eq_refl).
  - intros bs s Hb H. unfold read_settings in H. bind_step H. dec byte_codec.
    apply rbind_Ok in H as ([v r] & Hv & H). apply rbind_Ok in H as (u & ->%r_finish_Ok & [= <-]).
    tag_case Hv; [by injection Hv as <- ->|].
    tag_case Hv; [|tag_case Hv; [|tag_case Hv; [|done]]]; bind_step Hv;
      apply rbind_Ok in Hv as (charset & Hc & Hv);
      match goal with Hf : r_frame _ = Ok _ |- _ =>
        destruct (dec_string _ _ _ _ Hb Hf Hc) as (-> & Ht & Hw & Hbr) end.
    + injection Hv as <- ->. rewrite app_nil_r. split; [done|]. cbn [settings_bytes]. by rewrite Hw.
    + clear Hb. do 2 bind_step Hv. do 2 dec byte_codec. injection Hv as <- ->.
      split; [done|]. cbn [settings_bytes]. by rewrite Hw.
    + injection Hv as <- ->. rewrite app_nil_r. split; [done|]. cbn [settings_bytes]. by rewrite Hw.
Qed.

Lemma BudgetKey_from_tag_tag k : BudgetKey_from_tag (BudgetKey_tag k) = Ok k.
Proof. by destruct k. Qed.

Lemma BudgetKey_from_tag_Ok t k : BudgetKey_from_tag t = Ok k -> BudgetKey_tag k = t.
Proof. unfold BudgetKey_from_tag. intros H%ok_or_Ok%opt_filter_Some. destruct H as [_ H].
  by simp_bool. Qed.

Lemma BudgetKey_tag_byte k : byte (BudgetKey_tag k).
Proof. by destruct k. Qed.

Lemma read_limit_fwd m k v rest :
  is_u64 v -> bt_contains_key k m = false ->
  read_limit (m, BudgetKey_tag k :: u64_be v ++ rest) k = Ok (bt_insert k v m, rest).
Proof.
  intros Hv Hm. unfold read_limit. change (BudgetKey_tag k :: ?x) with ([BudgetKey_tag k] ++ x).
  enc byte_codec; [|apply BudgetKey_tag_byte]. rewrite BudgetKey_from_tag_tag. cbn [rbind].
  rewrite bool_decide_eq_true_2 by done. cbn [negb]. enc u64_codec; [|done]. by rewrite Hm.
Qed.

Lemma read_limit_bwd m input k s :
  Forall byte input -> read_limit (m, input) k = Ok s ->
  exists v rest, input = BudgetKey_tag k :: u64_be v ++ rest /\ is_u64 v /\ Forall byte rest
    /\ s = (bt_insert k v m, rest).
Proof.
  intros Hb H. unfold read_limit in H. bind_step H. dec byte_codec.
  apply rbind_Ok in H as (k' & Hk%BudgetKey_from_tag_Ok & H). case_bool_decide; [|done]. subst k' z.
  cbn [negb] in H. bind_step H. dec u64_codec. destruct (bt_contains_key k m); [done|].
  injection H as <-. by eexists _, _.
Qed.

Lemma read_limits_whole : whole read_limits budget_bytes limits_typed.
Proof.
  assert (forall l, flat_map (fun key => BudgetKey_tag key :: u64_be (unwrap_or 0 (bt_get key l)))
    BudgetKey_ALL
    = flat_map (limit_bytes (fun k => k) BudgetKey_tag l) BudgetKey_ALL) as Hfm by done.
  assert (map (fun k => k) BudgetKey_ALL = BudgetKey_ALL) as Hid by apply map_id.
  split.
  - intros l bs Hl H. unfold budget_bytes in H.
    change (write_u32 (len BudgetKey_ALL)) with (Ok (E := UnitCodecError) (u32_be 15)) in H.
    cbn [rbind] in H. apply Ok_inj in H as <-. unfold read_limits.
    enc u32_codec; [|done]. change (negb (15 =? 15)) with false. cbn iota.
    rewrite <- (app_nil_r (flat_map _ _)), Hfm.
    rewrite (all_limits_fwd read_limit (fun k => k) BudgetKey_tag) by (done || apply
      read_limit_fwd). done.
  - intros bs l Hb H. unfold read_limits in H. bind_step H. dec u32_codec.
    destruct (Z.eqb_spec z 15) as [->|]; [|done]. cbn [negb] in H. bind_step H.
    match goal with Hf : for_each _ _ _ = Ok _ |- _ =>
      apply (all_limits_bwd read_limit (fun k => k) BudgetKey_tag) in Hf as (Hl & _ & ->);
      [|done|done|apply read_limit_bwd] end.
    apply rbind_Ok in H as (u & ->%r_finish_Ok & [= <-]). split; [done|].
    unfold budget_bytes. rewrite Hfm, app_nil_r. done.
Qed.

Definition definition_typed (d : ExtractionProfileDefinitionV1) : Prop :=
  str_typed (ep_parser_name d) /\ str_typed (ep_parser_version d) /\ is_u32 (ep_scope_revision d)
  /\ is_u32 (ep_segmentation_revision d) /\ is_u32 (ep_normalization_revision d)
  /\ is_u32 (ep_locator_revision d) /\ settings_typed (ep_format_settings d)
  /\ limits_typed (ep_limits d).

Section Profiles.
Context {N : Unicode}.

(** One written frame of a chain of writes. *)
Ltac frame_written H :=
  let f := fresh "f" in let Hf := fresh "Hf" in let Hl := fresh "Hlen" in
  apply rbind_Ok in H as (f & Hf & H); apply write_frame_Ok in Hf as [Hl ->].

Lemma whole_frame {A E F} (decode : list Z -> Result A E) (encode : A -> Result (list Z) F) ok
  input fr r a :
  whole decode encode ok -> Forall byte input -> r_frame input = Ok (fr, r) -> decode fr = Ok a ->
  input = frame_bytes fr ++ r /\ ok a /\ encode a = Ok fr
  /\ write_frame fr = Ok (frame_bytes fr) /\ Forall byte r.
Proof.
  intros W Hb Hf Hd. pose proof (rest_bytes _ _ _ _ _ _ frame_codec Hb Hf) as Hr.
  destruct (enc_read _ _ _ frame_codec _ _ _ Hb Hf) as [-> Hl]. apply Forall_app in Hb as [Hb _].
  unfold frame_bytes in Hb. apply Forall_app in Hb as [_ Hb].
  destruct (enc_dec _ _ _ W _ _ Hb Hd) as [Ht He].
  split_and!; [done|done|done|by apply write_frame_Ok|done].
Qed.

(** One framed field of a chain of reads. *)
Ltac field_read H W :=
  let fr := fresh "fr" in let r := fresh "r" in let Hf := fresh "Hf" in let a := fresh "a" in
  let Ha := fresh "Ha" in let Ho := fresh "Hok" in let He := fresh "He" in let Hw := fresh "Hw" in
  apply rbind_Ok in H as ([fr r] & Hf & H); apply rbind_Ok in H as (a & Ha & H);
  match goal with Hb : Forall byte _ |- _ =>
    destruct (whole_frame _ _ _ _ _ _ _ W Hb Hf Ha) as (-> & Ho & He & Hw & Hr); clear Hb Hf Ha;
    rename Hr into Hb end.

(** The format of a profile definition is canonical. *)
Lemma definition_whole : whole definition_decode definition_encode definition_typed.
Proof.
  split.
  - intros d bs (Hn & Hv & H1 & H2 & H3 & H4 & Hs & Hl) H. unfold definition_encode in H.
    apply rbind_Ok in H as ([] & Hval & H).
    do 9 frame_written H. apply rbind_Ok in H as (settings & Hse & H). frame_written H.
    apply rbind_Ok in H as (budgets & Hbu & H). frame_written H.
    apply Ok_inj in H as <-. unfold definition_decode.
    enc (take_codec (len PROFILE_PREFIX) (len_nonneg _)); [|done].
    rewrite bool_decide_eq_true_2 by done. cbn [negb].
    enc frame_codec; [|done]. rewrite (dec_enc _ _ _ read_format_whole _ _ I eq_refl). cbn [rbind].
    enc frame_codec; [|done]. rewrite (dec_enc _ _ _ read_string_whole _ _ Hn eq_refl). cbn [rbind].
    enc frame_codec; [|done]. rewrite (dec_enc _ _ _ read_string_whole _ _ Hv eq_refl). cbn [rbind].
    enc frame_codec; [|done]. rewrite (dec_enc _ _ _ (hash_from_whole _) _ _ I eq_refl).
    cbn [rbind].
    enc frame_codec; [|done]. rewrite (dec_enc _ _ _ read_native_whole _ _ I eq_refl). cbn [rbind].
    enc frame_codec; [|done]. rewrite (dec_enc _ _ _ read_u32_payload_whole _ _ H1 eq_refl).
    cbn [rbind].
    enc frame_codec; [|done]. rewrite (dec_enc _ _ _ read_u32_payload_whole _ _ H2 eq_refl).
    cbn [rbind].
    enc frame_codec; [|done]. rewrite (dec_enc _ _ _ read_u32_payload_whole _ _ H3 eq_refl).
    cbn [rbind].
    enc frame_codec; [|done]. rewrite (dec_enc _ _ _ read_u32_payload_whole _ _ H4 eq_refl).
    cbn [rbind].
    enc frame_codec; [|done]. rewrite (dec_enc _ _ _ read_settings_whole _ _ Hs Hse). cbn [rbind].
    rewrite <- (app_nil_r (frame_bytes budgets)).
    enc frame_codec; [|done]. rewrite (dec_enc _ _ _ read_limits_whole _ _ Hl Hbu). cbn [rbind].
    destruct d. cbn in *. by rewrite Hval.
  - intros bs d Hb H. unfold definition_decode in H. bind_step H.
    dec (take_codec (len PROFILE_PREFIX) (len_nonneg _)). case_bool_decide as Hp; [|done]. subst.
    cbn [negb] in H.
    field_read H read_format_whole. field_read H read_string_whole. field_read H read_string_whole.
    field_read H (hash_from_whole (CodecInvalid "parser hash")). field_read H read_native_whole.
    do 4 field_read H read_u32_payload_whole. field_read H read_settings_whole.
    field_read H read_limits_whole. apply rbind_Ok in H as (u & ->%r_finish_Ok & H).
    apply rbind_Ok in H as (u' & Hval & H). apply Ok_inj in H as <-. destruct u'.
    split; [by split_and!|]. unfold definition_encode. rewrite Hval. cbn [rbind].
    cbn [ep_format ep_parser_name ep_parser_version ep_parser_build_sha256 ep_native_binary_sha256
         ep_scope_revision ep_segmentation_revision ep_normalization_revision ep_locator_revision
         ep_format_settings ep_limits].
    repeat match goal with Hx : Ok _ = Ok _ |- _ => apply Ok_inj in Hx; subst end.
    repeat (match goal with Hx : ?w = Ok _ |- context [rbind ?w _] => rewrite Hx end; cbn [rbind]).
    by rewrite app_nil_r.
Qed.
End Profiles.

(** *** The parts of a message *)

Lemma CoverageReason_from_tag_Some t r : CoverageReason_from_tag t = Some r -> CoverageReason_tag r
  = t.
Proof. unfold CoverageReason_from_tag. repeat case_match; intros [= <-]; done. Qed.

Lemma PermanentFailureCode_from_tag_Some t c :
  PermanentFailureCode_from_tag t = Some c -> PermanentFailureCode_tag c = t.
Proof. unfold PermanentFailureCode_from_tag. repeat case_match; intros [= <-]; done. Qed.

Lemma RetryableFailureCode_from_tag_Some t c :
  RetryableFailureCode_from_tag t = Some c -> RetryableFailureCode_tag c = t.
Proof. unfold RetryableFailureCode_from_tag. repeat case_match; intros [= <-]; done. Qed.

Lemma format_from_tag_Ok t f : format_from_tag t = Ok f -> format_tag f = t.
Proof. unfold format_from_tag. repeat case_match; intros [= <-]; done. Qed.

Lemma kind_from_tag_Ok t k : kind_from_tag t = Ok k -> kind_tag k = t.
Proof. unfold kind_from_tag. repeat case_match; intros [= <-]; done. Qed.

Lemma reason_wire : wire (F := ExtractionError) read_reason (fun r => Ok [CoverageReason_tag r])
  (fun _ => True).
Proof.
  apply (tag_wire _ _ (fun t => ok_or (CoverageReason_from_tag t) (XWire "coverage reason tag"))).
  - done.
  - by intros [].
  - by intros [].
  - intros t r H%ok_or_Ok. by apply CoverageReason_from_tag_Some.
Qed.

(** Reads of a byte with a continuation. *)
Lemma c_byte_cons b rest : byte b -> c_byte (b :: rest) = Ok (b, rest).
Proof. intros Hb. change (b :: rest) with ([b] ++ rest). by apply (read_enc _ _ _ c_byte_codec).
  Qed.

Lemma c_byte_inv input b rest :
  Forall byte input -> c_byte input = Ok (b, rest) -> byte b /\ input = b :: rest /\ Forall byte
    rest.
Proof.
  intros Hb H. pose proof (rest_bytes _ _ _ _ _ _ c_byte_codec Hb H).
  by destruct (enc_read _ _ _ c_byte_codec _ _ _ Hb H) as [-> ?].
Qed.

(** [byte_read H]: a byte that was read. *)
Ltac byte_read H :=
  let b := fresh "b" in let r := fresh "r" in let Hc := fresh "Hc" in let Hbt := fresh "Hbt" in
  apply rbind_Ok in H as ([b r] & Hc & H);
  match goal with Hb : Forall byte _ |- _ =>
    let Hr := fresh "Hr" in
    destruct (c_byte_inv _ _ _ Hb Hc) as (Hbt & -> & Hr); clear Hb Hc; rename Hr into Hb end.

(** [part_read H W]: a part that was read. *)
Ltac part_read H W :=
  let a := fresh "a" in let r := fresh "r" in let Hc := fresh "Hc" in
  let Ho := fresh "Hok" in let out := fresh "out" in let Hw := fresh "Hw" in
  apply rbind_Ok in H as ([a r] & Hc & H);
  match goal with Hb : Forall byte _ |- _ =>
    let Hr := fresh "Hr" in
    destruct (r_write _ _ _ W _ _ _ Hb Hc) as (Ho & Hr & out & Hw & ->); clear Hb Hc;
    rename Hr into Hb end.

Lemma x_list_len {A} (write : A -> EResult (list Z)) xs out : x_list write xs = Ok out -> 4 <= len
  out.
Proof.
  intros H. unfold x_list in H.
  apply rbind_Ok in H as (c & [_ ->]%x_count_Ok & H); [|apply len_nonneg].
  apply rbind_Ok in H as (items & _ & H). apply Ok_inj in H as <-. rewrite len_app.
  change (len (u32_be _)) with 4. pose proof (len_nonneg items). lia.
Qed.

Lemma x_frame_len bs out : x_frame bs = Ok out -> 4 <= len out.
Proof.
  intros [_ ->]%x_frame_Ok. unfold frame_bytes. rewrite len_app. change (len (u32_be _)) with 4.
  pose proof (len_nonneg bs). lia.
Qed.

Lemma coverage_wire : wire read_coverage write_coverage (fun _ => True).
Proof.
  pose proof (list_wire 1 _ _ _ reason_wire ltac:(lia) ltac:(intros a out [= <-]; done)) as W.
  split.
  - intros c out rest _ H. unfold read_coverage.
    destruct c as [|reasons|reason]; cbn [write_coverage] in H.
    + apply Ok_inj in H as <-. cbn [app]. by rewrite c_byte_cons.
    + apply rbind_Ok in H as (l & Hl & H). apply Ok_inj in H as <-. rewrite <- app_comm_cons.
      rewrite c_byte_cons by done. cbn [rbind Z.eqb Pos.eqb].
      rewrite (w_read _ _ _ W reasons l); [done| |done].
      by apply Forall_forall.
    + apply Ok_inj in H as <-. change ([3; ?t] ++ rest) with (3 :: [t] ++ rest).
      rewrite c_byte_cons by done. cbn [rbind Z.eqb Pos.eqb].
      by rewrite (w_read _ _ _ reason_wire reason).
  - intros bs c rest Hb H. unfold read_coverage in H. byte_read H.
    tag_case H; [by injection H as <- <-; split_and!; [..|exists [1]]|].
    tag_case H.
    { part_read H W. injection H as <- <-. split_and!; [done..|]. exists (2 :: out).
      cbn [write_coverage]. by rewrite Hw. }
    tag_case H; [|done]. part_read H reason_wire. injection H as <- <-. split_and!; [done..|].
    injection Hw as <-. by exists [3; CoverageReason_tag a].
Qed.

Section Messages.
Context {N : Unicode}.

Lemma locator_whole : whole locator_decode locator_encode locator_typed.
Proof.
  split.
  - intros l bs Ht He. apply locator_encode_Ok in He as [Hv ->]; [|done].
    apply locator_codec; [apply prefix_bytes, payload_bytes|]. split; [done|].
    by apply locator_encode_Ok.
  - intros bs l Hb H. by apply locator_codec in H.
Qed.

Lemma locator_wire : wire c_locator x_locator locator_typed.
Proof.
  apply (framed_wire c_locator x_locator locator_decode locator_encode
    (fun _ => XWire "locator") (fun _ => XWire "locator")); [done..| |].
  - apply (dec_enc _ _ _ locator_whole).
  - intros l bs. apply (enc_dec _ _ _ locator_whole).
Qed.

Lemma definition_wire : wire c_definition x_definition definition_typed.
Proof.
  apply (framed_wire c_definition x_definition definition_decode definition_encode
    (fun _ => XWire "reader definition") (fun _ => XWire "reader definition")); [done..| |].
  - apply (dec_enc _ _ _ definition_whole).
  - intros d bs. apply (enc_dec _ _ _ definition_whole).
Qed.

Definition parent_bytes (parent : option Z) : list Z :=
  match parent with None => [0] | Some parent => 1 :: u32_be parent end.

Lemma parent_wire :
  wire (F := ExtractionError) c_parent (fun p => Ok (parent_bytes p)) (fun p => forall n, p = Some
    n -> is_u32 n).
Proof.
  split.
  - intros p out rest Hp H. apply Ok_inj in H as <-. unfold c_parent, parent_bytes.
    destruct p as [n|]; cbn [app].
    + rewrite c_byte_cons by done. cbn [rbind Z.eqb Pos.eqb].
      rewrite (w_read _ _ _ u32_wire n); [done|by apply Hp|done].
    + by rewrite c_byte_cons.
  - intros bs p rest Hb H. unfold c_parent in H. byte_read H.
    tag_case H; [by injection H as <- <-; split_and!; [..|exists [0]]|].
    tag_case H; [|done]. part_read H u32_wire. injection H as <- <-. injection Hw as <-.
    split_and!; [by intros ? [= <-]|done|]. by exists (1 :: u32_be a).
Qed.

Definition fragment_typed (f : WorkerFragment) : Prop :=
  is_u32 (wf_ordinal f) /\ (forall n, wf_parent_ordinal f = Some n -> is_u32 n)
  /\ str_typed (wf_text f) /\ locator_typed (wf_locator f).

Lemma fragment_wire : wire read_fragment write_fragment fragment_typed.
Proof.
  split.
  - intros f out rest (Ho & Hp & Ht & Hl) H. unfold write_fragment in H.
    apply rbind_Ok in H as (text & Htx & H). apply rbind_Ok in H as (loc & Hloc & H).
    apply Ok_inj in H as <-. unfold read_fragment. rewrite <- !app_assoc.
    rewrite (w_read _ _ _ u32_wire (wf_ordinal f)) by done. cbn [rbind].
    change (match wf_parent_ordinal f with None => [0] | Some parent => 1 :: u32_be parent end)
      with (parent_bytes (wf_parent_ordinal f)).
    rewrite (w_read _ _ _ parent_wire (wf_parent_ordinal f)) by done. cbn [rbind app].
    rewrite c_byte_cons by (by destruct (wf_kind f)). cbn [rbind].
    assert (kind_from_tag (kind_tag (wf_kind f)) = Ok (wf_kind f)) as -> by (by destruct (wf_kind
      f)).
    cbn [rbind]. reread string_wire; [|done]. reread locator_wire; [|done]. by destruct f.
  - intros bs f rest Hb H. unfold read_fragment in H. part_read H u32_wire. part_read H parent_wire.
    byte_read H. apply rbind_Ok in H as (k & Hk%kind_from_tag_Ok & H).
    part_read H string_wire. part_read H locator_wire. injection H as <- <-.
    apply Ok_inj in Hw, Hw0. subst. split_and!; [done..|]. eexists. split.
    + unfold write_fragment. cbn [wf_text wf_locator wf_ordinal wf_parent_ordinal wf_kind].
      rewrite Hw1, Hw2. cbn [rbind]. done.
    + rewrite <- !app_assoc. done.
Qed.

Lemma write_fragment_len f out : write_fragment f = Ok out -> 10 <= len out.
Proof.
  intros H. unfold write_fragment in H. apply rbind_Ok in H as (text & Ht%x_frame_len & H).
  apply rbind_Ok in H as (loc & Hl & H). unfold x_locator in Hl.
  apply rbind_Ok in Hl as (e & _ & Hl%x_frame_len). apply Ok_inj in H as <-. rewrite !len_app.
  change (len (u32_be _)) with 4. change (len [kind_tag _]) with 1.
  pose proof (len_nonneg (match wf_parent_ordinal f with None => [0] | Some parent => 1 :: u32_be
    parent end)).
  lia.
Qed.

Definition reader_typed (r : ArchiveReaderNode) : Prop :=
  Forall str_typed (an_members r) /\ str_typed (an_parser_build_id r)
  /\ definition_typed (an_definition r).

Lemma strings_wire : wire (c_list 4 c_string) (x_list x_string) (Forall str_typed).
Proof. apply list_wire; [exact string_wire|lia|]. intros a out. apply x_frame_len. Qed.

Lemma reader_wire : wire read_reader write_reader reader_typed.
Proof.
  split.
  - intros r out rest (Hm & Hi & Hd) H. unfold write_reader in H.
    apply rbind_Ok in H as (ms & Hms & H). apply rbind_Ok in H as (id & Hid & H).
    apply rbind_Ok in H as (d & Hde & H). apply Ok_inj in H as <-. unfold read_reader.
    rewrite <- !app_assoc. reread strings_wire; [|done]. reread string_wire; [|done].
    reread definition_wire; [|done]. by destruct r.
  - intros bs r rest Hb H. unfold read_reader in H. part_read H strings_wire.
    part_read H string_wire.
    part_read H definition_wire. injection H as <- <-. split_and!; [done..|].
    eexists. split; [unfold write_reader; cbn [an_members an_parser_build_id an_definition]|].
    + rewrite Hw, Hw0. cbn [rbind]. by rewrite Hw1.
    + by rewrite <- !app_assoc.
Qed.

Lemma write_reader_len r out : write_reader r = Ok out -> 12 <= len out.
Proof.
  intros H. unfold write_reader in H. apply rbind_Ok in H as (ms & Hm%x_list_len & H).
  apply rbind_Ok in H as (id & Hi%x_frame_len & H). apply rbind_Ok in H as (d & Hd & H).
  unfold x_definition in Hd. apply rbind_Ok in Hd as (e & _ & Hd%x_frame_len).
  apply Ok_inj in H as <-. rewrite !len_app. lia.
Qed.

Lemma path_wire : wire c_path x_path (fun p => forall s, p = Some s -> str_typed s).
Proof.
  split.
  - intros p out rest Hp H. unfold x_path in H. unfold c_path. destruct p as [s|].
    + apply rbind_Ok in H as (o & Ho & H). apply Ok_inj in H as <-. rewrite <- app_comm_cons.
      rewrite c_byte_cons by done. cbn [rbind Z.eqb Pos.eqb].
      by rewrite (w_read _ _ _ string_wire s o) by auto.
    + apply Ok_inj in H as <-. cbn [app]. by rewrite c_byte_cons.
  - intros bs p rest Hb H. unfold c_path in H. byte_read H.
    tag_case H; [by injection H as <- <-; split_and!; [..|exists [0]]|].
    tag_case H; [|done]. part_read H string_wire. injection H as <- <-.
    split_and!; [by intros ? [= <-]|done|]. exists (1 :: out). cbn [x_path]. by rewrite Hw.
Qed.

Definition omission_typed (o : NativeOmission) : Prop :=
  (forall s, no_package_path o = Some s -> str_typed s) /\ Forall is_u32 (no_physical_child_path o).

Lemma children_wire : wire (c_list 4 c_u32) (x_list (fun child => Ok (u32_be child))) (Forall
  is_u32).
Proof. apply list_wire; [exact u32_wire|lia|]. by intros a out [= <-]. Qed.

Lemma omission_wire : wire read_omission write_omission omission_typed.
Proof.
  split.
  - intros o out rest (Hp & Hc) H. unfold write_omission in H.
    apply rbind_Ok in H as (p & Hpa & H). apply rbind_Ok in H as (c & Hch & H).
    apply Ok_inj in H as <-. unfold read_omission.
    rewrite <- !app_assoc. reread path_wire; [|done]. reread children_wire; [|done].
    rewrite (w_read _ _ _ reason_wire (no_reason o)) by done. by destruct o.
  - intros bs o rest Hb H. unfold read_omission in H. part_read H path_wire.
    part_read H children_wire.
    part_read H reason_wire. injection H as <- <-. apply Ok_inj in Hw1 as <-. split_and!; [done..|].
    eexists. split; [unfold write_omission;
      cbn [no_package_path no_physical_child_path no_reason]|].
    + rewrite Hw, Hw0. done.
    + by rewrite <- !app_assoc.
Qed.

Lemma write_omission_len o out : write_omission o = Ok out -> 6 <= len out.
Proof.
  intros H. unfold write_omission in H. apply rbind_Ok in H as (p & Hp & H).
  apply rbind_Ok in H as (c & Hc%x_list_len & H). apply Ok_inj in H as <-. rewrite !len_app.
  change (len [CoverageReason_tag _]) with 1.
  assert (1 <= len p); [|lia]. unfold x_path in Hp. destruct (no_package_path o).
  - apply rbind_Ok in Hp as (f & Hf%x_frame_len & Hp). apply Ok_inj in Hp as <-.
    unfold len in *. cbn [length]. lia.
  - by apply Ok_inj in Hp as <-.
Qed.
Definition report_typed (r : WorkerReport) : Prop :=
  Forall fragment_typed (wp_fragments r) /\ Forall reader_typed (wp_reader_use r)
  /\ is_u32 (wp_scope_items r) /\ Forall omission_typed (wp_known_omissions r).

Lemma fragments_wire : wire (c_list 10 read_fragment) (x_list write_fragment) (Forall
  fragment_typed).
Proof. apply list_wire; [exact fragment_wire|lia|exact write_fragment_len]. Qed.

Lemma readers_wire : wire (c_list 12 read_reader) (x_list write_reader) (Forall reader_typed).
Proof. apply list_wire; [exact reader_wire|lia|exact write_reader_len]. Qed.

Lemma omissions_wire : wire (c_list 6 read_omission) (x_list write_omission) (Forall
  omission_typed).
Proof. apply list_wire; [exact omission_wire|lia|exact write_omission_len]. Qed.

Definition flag_byte (b : bool) : Z := if b then 1 else 0.

Lemma flag_wire : wire (F := ExtractionError) c_flag (fun b => Ok [flag_byte b]) (fun _ => True).
Proof.
  apply (tag_wire _ _ (fun t => if t =? 0 then Ok false else if t =? 1 then Ok true
                                else Err (XWire "traversal tag"))).
  - intros input. unfold c_flag. destruct (c_byte input) as [[t r]|]; [|done]. cbn [rbind].
    by repeat case_match.
  - by intros [].
  - by intros [].
  - intros t a. repeat case_match; intros [= <-]; simp_bool; cbn; lia.
Qed.

Lemma report_wire : wire read_report write_report report_typed.
Proof.
  split.
  - intros r out rest (Hf & Hr & Hs & Ho) H. unfold write_report in H.
    apply rbind_Ok in H as (c & Hc & H). apply rbind_Ok in H as (fs & Hfs & H).
    apply rbind_Ok in H as (rs & Hrs & H). apply rbind_Ok in H as (os & Hos & H).
    apply Ok_inj in H as <-. unfold read_report. rewrite <- !app_assoc.
    reread coverage_wire; [|done]. reread fragments_wire; [|done]. reread readers_wire; [|done].
    rewrite (w_read _ _ _ u32_wire (wp_scope_items r)) by done. cbn [rbind].
    reread omissions_wire; [|done].
    rewrite (w_read _ _ _ flag_wire (wp_traversal_complete r)) by done. by destruct r.
  - intros bs r rest Hb H. unfold read_report in H. part_read H coverage_wire.
    part_read H fragments_wire. part_read H readers_wire. part_read H u32_wire.
    part_read H omissions_wire. part_read H flag_wire. injection H as <- <-.
    apply Ok_inj in Hw2, Hw4. subst. split_and!; [done..|]. eexists. split.
    + unfold write_report. cbn [wp_coverage wp_fragments wp_reader_use wp_scope_items
        wp_known_omissions wp_traversal_complete]. rewrite Hw, Hw0, Hw1, Hw3. done.
    + by rewrite <- !app_assoc.
Qed.

Lemma failure_wire :
  wire (F := ExtractionError) read_failure (fun f => Ok (write_failure f)) (fun _ => True).
Proof.
  split.
  - intros f out rest _ H. apply Ok_inj in H as <-. unfold read_failure.
    destruct f as [r|c|c]; cbn [write_failure app].
    + rewrite c_byte_cons by done. cbn [rbind Z.eqb Pos.eqb].
      change (?t :: rest) with ([t] ++ rest).
      by rewrite (w_read _ _ _ reason_wire r).
    + rewrite c_byte_cons by done. cbn [rbind Z.eqb Pos.eqb].
      rewrite c_byte_cons by (by destruct c). cbn [rbind]. by destruct c.
    + rewrite c_byte_cons by done. cbn [rbind Z.eqb Pos.eqb].
      rewrite c_byte_cons by (by destruct c). cbn [rbind]. by destruct c.
  - intros bs f rest Hb H. unfold read_failure in H. byte_read H.
    tag_case H.
    { part_read H reason_wire. injection H as <- <-. apply Ok_inj in Hw as <-.
      split_and!; [done..|].
      by eexists. }
    tag_case H.
    { byte_read H. apply rbind_Ok in H as (c & Hc%ok_or_Ok%PermanentFailureCode_from_tag_Some & H).
      injection H as <- <-. split_and!; [done..|]. eexists. split; [done|]. cbn. by rewrite Hc. }
    tag_case H; [|done].
    byte_read H. apply rbind_Ok in H as (c & Hc%ok_or_Ok%RetryableFailureCode_from_tag_Some & H).
    injection H as <- <-. split_and!; [done..|]. eexists. split; [done|]. cbn. by rewrite Hc.
Qed.

(** *** Whole messages *)

Lemma c_finish_Ok input u : c_finish input = Ok u -> input = [].
Proof.
  unfold c_finish. destruct input as [|x l]; [done|]. unfold len. cbn [length].
  destruct (Z.eqb_spec (Z.of_nat (S (length l))) 0); cbn; [lia|done].
Qed.

Lemma read_written tag body cap out :
  byte tag -> message tag body cap = Ok out -> read_message out cap = Ok (tag, body).
Proof.
  intros Ht H. unfold message in H. destruct (Z.ltb_spec cap (len MAGIC + 5 + len body)); [done|].
  apply rbind_Ok in H as (f & [Hl ->]%x_frame_Ok & H). apply Ok_inj in H as <-. unfold read_message.
  destruct (Z.ltb_spec cap (len (MAGIC ++ [tag] ++ frame_bytes body))) as [Hc|_].
  { exfalso. unfold frame_bytes in Hc. rewrite !len_app in Hc. change (len (u32_be _)) with 4 in Hc.
    change (len [tag]) with 1 in Hc. lia. }
  rewrite (read_enc _ _ _ (c_take_codec (len MAGIC) ltac:(done))) by done. cbn [rbind].
  destruct (decide (MAGIC = MAGIC)) as [_|]; [|done]. cbn [negb bool_decide].
  cbn [app]. rewrite c_byte_cons by done. cbn [rbind]. rewrite <- (app_nil_r (frame_bytes body)).
  by rewrite (read_enc _ _ _ c_frame_codec).
Qed.

Lemma written_read bs cap tag body :
  Forall byte bs -> read_message bs cap = Ok (tag, body) ->
  byte tag /\ Forall byte body /\ message tag body cap = Ok bs.
Proof.
  intros Hb H. unfold read_message in H. destruct (Z.ltb_spec cap (len bs)) as [|Hcap]; [done|].
  apply rbind_Ok in H as ([m r] & Hm & H). pose proof (c_take_codec (len MAGIC) ltac:(done)) as Cm.
  pose proof (rest_bytes _ _ _ _ _ _ Cm Hb Hm) as Hr.
  destruct (enc_read _ _ _ Cm _ _ _ Hb Hm) as [-> _].
  destruct (m != MAGIC) eqn:Em; [done|]. simp_bool. subst m. clear Hb Hm. byte_read H.
  part_read H frame_wire. apply rbind_Ok in H as (u & Hn%c_finish_Ok & H). injection H as <- <-.
  subst.
  split_and!; [done..|]. unfold message. rewrite app_nil_r in *. apply x_frame_Ok in Hw as Ho.
  destruct Ho as [_ ->]. rewrite Hw.
  destruct (Z.ltb_spec cap (len MAGIC + 5 + len a)) as [Hl|_]; [|done].
  exfalso. unfold frame_bytes in Hcap. cbn [app] in Hcap.
  change (b :: ?l) with ([b] ++ l) in Hcap. rewrite !len_app in Hcap.
  change (len (u32_be _)) with 4 in Hcap.
  change (len [b]) with 1 in Hcap. lia.
Qed.

Definition response_typed (r : WorkerResponse) : Prop :=
  match r with WrReport report => report_typed report | WrFailure _ => True end.

Lemma response_whole : whole decode_response encode_response response_typed.
Proof.
  split.
  - intros r bs Ht H. unfold encode_response in H. unfold decode_response.
    destruct r as [report|failure].
    + apply rbind_Ok in H as (out & Hw & H).
      rewrite (read_written REPORT_TAG _ _ _ ltac:(done) H). cbn [rbind].
      cbn [Z.eqb REPORT_TAG Pos.eqb]. rewrite <- (app_nil_r out).
      by rewrite (w_read _ _ _ report_wire report out).
    + rewrite (read_written FAILURE_TAG _ _ _ ltac:(done) H).
      cbn [rbind Z.eqb REPORT_TAG FAILURE_TAG Pos.eqb].
      rewrite <- (app_nil_r (write_failure failure)).
      by rewrite (w_read _ _ _ failure_wire failure (write_failure failure)).
  - intros bs r Hb H. unfold decode_response in H. apply rbind_Ok in H as ([tag body] & Hm & H).
    apply written_read in Hm as (_ & Hbody & Hm); [|done]. clear Hb.
    apply rbind_Ok in H as ([r' rest] & Hr & H). apply rbind_Ok in H as (u & ->%c_finish_Ok & H).
    apply Ok_inj in H as ->. unfold encode_response.
    tag_case Hr; [|tag_case Hr; [|done]].
    + part_read Hr report_wire. injection Hr as <- ->. rewrite app_nil_r in Hm. split; [done|].
      by rewrite Hw.
    + part_read Hr failure_wire. injection Hr as <- ->. apply Ok_inj in Hw as <-.
      rewrite app_nil_r in Hm. by split.
Qed.

(** *** Requests *)

Lemma numbered_keys_keys : map snd numbered_keys = BudgetKey_ALL.
Proof. vm_compute. done. Qed.

(** A byte of the input, whatever its value. *)
Lemma c_byte_any b rest : c_byte (b :: rest) = Ok (b, rest).
Proof.
  unfold c_byte, c_take, remaining. destruct (Z.ltb_spec (len (b :: rest)) 1) as [H|_]; [|done].
  unfold len in H. cbn [length] in H. lia.
Qed.

Lemma budgets_wire :
  wire (F := ExtractionError) read_budgets (fun l => Ok (write_budgets l))
    (fun l => limits_typed l /\ is_ok (budgets_validate l) = true).
Proof.
  split.
  - intros l out rest [Hl Hv] H. apply Ok_inj in H as <-. unfold read_budgets, write_budgets.
    cbn [app]. rewrite c_byte_any. cbn [rbind negb Z.eqb Pos.eqb].
    change (flat_map _ numbered_keys) with (flat_map (limit_bytes snd fst l) numbered_keys).
    rewrite (all_limits_fwd x_read_limit snd fst _ _ _ numbered_keys_keys Hl).
    + cbn [rbind]. unfold ExtractionBudgets_new. by destruct (budgets_validate l).
    + intros m k v r Hu _. unfold x_read_limit. cbn [fst snd]. rewrite c_byte_any. cbn [rbind].
      rewrite bool_decide_eq_true_2 by done. cbn [negb].
      by rewrite (w_read _ _ _ u64_wire v).
  - intros bs l rest Hb H. unfold read_budgets in H. byte_read H.
    destruct (Z.eqb_spec b 15) as [->|]; [|done]. cbn [negb] in H.
    apply rbind_Ok in H as ([m r'] & Hf & H). apply rbind_Ok in H as (l' & Hn & H).
    injection H as <- <-.
    apply (all_limits_bwd x_read_limit snd fst _ _ _ _ numbered_keys_keys Hb) in Hf as (Hl & Hr &
      ->).
    + unfold ExtractionBudgets_new in Hn. apply rbind_Ok in Hn as (u & Hv & Hn).
      apply Ok_inj in Hn as <-.
      split_and!; [done|by rewrite Hv|done|]. by eexists.
    + clear. intros m input k s Hb H. unfold x_read_limit in H. cbn [fst snd] in H. byte_read H.
      destruct (b != k.1) eqn:Ek; [done|]. simp_bool. subst b. part_read H u64_wire.
      apply Ok_inj in Hw as <-. apply Ok_inj in H as <-. by eexists _, _.
Qed.

Lemma locators_wire : wire (c_list 4 c_locator) (x_list x_locator) (Forall locator_typed).
Proof.
  apply list_wire; [exact locator_wire|lia|]. intros l out H. unfold x_locator in H.
  apply rbind_Ok in H as (e & _ & H). by apply x_frame_len in H.
Qed.

Definition operation_typed (o : WorkerOperation) : Prop :=
  match o with OpExtract => True | OpResolveLocators ls => Forall locator_typed ls end.

Lemma operation_wire : wire c_operation x_operation operation_typed.
Proof.
  split.
  - intros o out rest Ho H. unfold c_operation. destruct o as [|ls]; cbn [x_operation] in H.
    + apply Ok_inj in H as <-. cbn [app]. by rewrite c_byte_any.
    + apply rbind_Ok in H as (l & Hl & H). apply Ok_inj in H as <-. rewrite <- app_comm_cons.
      rewrite c_byte_any. cbn [rbind Z.eqb Pos.eqb]. by rewrite (w_read _ _ _ locators_wire ls l).
  - intros bs o rest Hb H. unfold c_operation in H. byte_read H.
    tag_case H; [by injection H as <- <-; split_and!; [..|exists [1]]|].
    tag_case H; [|done]. part_read H locators_wire. injection H as <- <-. split_and!; [done..|].
    exists (2 :: out). cbn [x_operation]. by rewrite Hw.
Qed.

Lemma hash_wire : wire (F := ExtractionError) c_hash (fun h => Ok (hash_bytes h)) (fun _ => True).
Proof.
  pose proof (c_take_codec 32 ltac:(done)) as C. pose proof (hash_from_whole (XWire "truncated frame")) as W.
  split.
  - intros h out rest _ H. apply Ok_inj in H as <-. unfold c_hash. rewrite (read_enc _ _ _ C).
    + cbn [rbind]. by rewrite (dec_enc _ _ _ W h _ I eq_refl).
    + unfold len, hash_bytes. by rewrite length_map, length_vec_to_list.
  - intros bs h rest Hb H. unfold c_hash in H. apply rbind_Ok in H as ([t r] & Ht & H).
    pose proof (rest_bytes _ _ _ _ _ _ C Hb Ht) as Hr.
    destruct (enc_read _ _ _ C _ _ _ Hb Ht) as [-> _].
    apply Forall_app in Hb as [Hb _]. apply rbind_Ok in H as (h' & Hh & H). injection H as <- <-.
    destruct (enc_dec _ _ _ W _ _ Hb Hh) as [_ He]. apply Ok_inj in He as <-. split_and!; [done..|].
    by eexists.
Qed.

Definition request_typed (q : WorkerRequest) : Prop :=
  operation_typed (wq_operation q) /\ str_typed (wq_profile q)
  /\ ExtractionProfileId_parse (wq_profile q) = Ok (wq_profile q) /\ Forall byte (wq_profile_bytes
    q)
  /\ is_u64 (rw_size_bytes (wq_expected_raw q)) /\ str_typed (rw_media_type (wq_expected_raw q))
  /\ limits_typed (wq_budgets q).

Lemma format_from_tag_tag f : format_from_tag (format_tag f) = Ok f.
Proof. by destruct f. Qed.

Lemma profile_parse_Ok v p : ExtractionProfileId_parse v = Ok p -> p = v.
Proof. unfold ExtractionProfileId_parse. repeat case_match; by intros [= <-]. Qed.

Lemma request_whole : whole decode_request encode_request request_typed.
Proof.
  split.
  - intros q bs (Ho & Hp & Hparse & Hpb & Hs & Hm & Hl) H. unfold encode_request in H.
    apply rbind_Ok in H as ([] & Hv & H). apply rbind_Ok in H as (op & Hop & H).
    apply rbind_Ok in H as (pr & Hpr & H). apply rbind_Ok in H as (pb & Hpbs & H).
    apply rbind_Ok in H as (mt & Hmt & H). unfold decode_request.
    rewrite (read_written REQUEST_TAG _ _ _ ltac:(done) H). cbn [rbind]. clear H.
    rewrite bool_decide_eq_true_2 by done. cbn [negb].
    reread operation_wire; [|done]. cbn [app]. rewrite c_byte_any. cbn [rbind].
    rewrite format_from_tag_tag. cbn [rbind]. reread string_wire; [|done]. rewrite Hparse.
    cbn [rbind map_err].
    reread frame_wire; [|done].
    rewrite (w_read _ _ _ hash_wire (rw_sha256 (wq_expected_raw q))) by done. cbn [rbind].
    rewrite (w_read _ _ _ u64_wire (rw_size_bytes (wq_expected_raw q))) by done. cbn [rbind].
    reread string_wire; [|done]. rewrite <- (app_nil_r (write_budgets _)).
    rewrite (w_read _ _ _ budgets_wire (wq_budgets q)); [| |done].
    + cbn [rbind]. change (c_finish []) with (Ok (E := ExtractionError) tt). cbn [rbind].
      rewrite Hv. cbn [rbind].
      destruct q as [? ? ? ? [] ?]. done.
    + split; [done|]. unfold validate_for in Hv. by apply rbind_Ok in Hv as (u & -> & _).
  - intros bs q Hb H. unfold decode_request in H. apply rbind_Ok in H as ([tag body] & Hm & H).
    apply written_read in Hm as (_ & Hbody & Hm); [|done]. clear Hb.
    destruct (tag != REQUEST_TAG) eqn:Et; [done|]. simp_bool. subst tag.
    part_read H operation_wire. byte_read H. apply rbind_Ok in H as (f & Hf%format_from_tag_Ok & H).
    part_read H string_wire. apply rbind_Ok in H as (p & Hp%map_err_Ok & H).
    part_read H frame_wire. part_read H hash_wire. part_read H u64_wire. part_read H string_wire.
    part_read H budgets_wire. apply rbind_Ok in H as (u & ->%c_finish_Ok & H).
    apply rbind_Ok in H as ([] & Hv & H). apply Ok_inj in H as <-.
    pose proof (profile_parse_Ok _ _ Hp) as ->.
    apply Ok_inj in Hw2, Hw3, Hw5. subst. split; [split_and!; tauto|].
    unfold encode_request.
    cbn [wq_budgets wq_format wq_operation wq_profile wq_profile_bytes wq_expected_raw
      rw_sha256 rw_size_bytes rw_media_type]. rewrite Hv, Hw, Hw0. cbn [rbind]. rewrite Hw1.
      cbn [rbind].
    rewrite Hw4. cbn [rbind]. rewrite <- Hm. f_equal.
Qed.

(** C37: The decoders of the extraction worker's requests and responses invert the encoders and
    accept nothing else: a byte string decodes to a message exactly when it is the encoding of that
    message (its format, budgets, locators, fragments, reader use, omissions and failure codes), so
    every accepted byte string is canonical and no field is lost, whatever the operation, the
      coverage
    or the failure.
    Requests are in addition those whose budgets are valid for their format and whose
    profile identifier parses. *)
Theorem worker_messages_roundtrip bs :
  Forall byte bs ->
  (forall request, decode_request bs = Ok request <->
    request_typed request /\ encode_request request = Ok bs)
  /\ (forall response, decode_response bs = Ok response <->
    response_typed response /\ encode_response response = Ok bs).
Proof.
  intros Hb. split; intros m; split.
  - by apply (enc_dec _ _ _ request_whole).
  - intros []. by apply (dec_enc _ _ _ request_whole).
  - by apply (enc_dec _ _ _ response_whole).
  - intros []. by apply (dec_enc _ _ _ response_whole).
Qed.
End Messages.

(** ** The meter *)

(** Calls of [charge] one after the other: the meter afterwards, and the calls that were accepted.
*)
Fixpoint charge_all (m : BudgetMeter) (calls : list (BudgetKey * Z)) : BudgetMeter * list
  (BudgetKey * Z) :=
  match calls with
  | [] => (m, [])
  | (key, delta) :: calls =>
      let '(m, res) := charge m key delta in
      let '(m, accepted) := charge_all m calls in
      (m, if is_ok res then (key, delta) :: accepted else accepted)
  end.

(** What the accepted calls on a key come to: the largest value, or the sum. *)
Definition account (key : BudgetKey) (start : Z) (accepted : list (BudgetKey * Z)) : Z :=
  fold_left (fun n c =>
    if bool_decide (c.1 = key) then if per_value key then Z.max n c.2 else n + c.2 else n)
    accepted start.

Definition counted_input (accepted : list (BudgetKey * Z)) : bool :=
  existsb (fun c => bool_decide (c.1 = InputBytes)) accepted.

(** What a call must satisfy to be accepted, given what was charged. *)
Definition chargeable (limits : ExtractionBudgets) (key : BudgetKey) (before delta : Z) (input :
  bool) : bool :=
  if per_value key then delta <=? budget_get limits key
  else negb ((key == InputBytes) && input) && (before + delta <=? budget_get limits key).

Definition meter_typed (m : BudgetMeter) : Prop :=
  bt_wf (bm_charged m) /\ (forall k, budget_get (bm_limits m) k < 2 ^ 64)
  /\ forall k, 0 <= charged m k <= budget_get (bm_limits m) k.

Lemma charge_exact m key delta :
  meter_typed m -> is_u64 delta ->
  charge m key delta =
    if chargeable (bm_limits m) key (charged m key) delta (bm_input_charged m) then
      ((if per_value key then set_charged key (Z.max (charged m key) delta) m
        else mark_input key (set_charged key (charged m key + delta) m)), Ok tt)
    else (m, Err (RfUnsupported ResourceLimit)).
Proof.
  intros (_ & Hl & Hc) Hd. unfold charge, chargeable, observe_peak, check_value.
  destruct (per_value key); cbn [negb orb].
  - rewrite Z.ltb_antisym. by destruct (delta <=? _).
  - destruct ((key == InputBytes) && bm_input_charged m); [done|]. cbn [negb andb].
    unfold checked_add_u64. specialize (Hl key).
    destruct (Z.ltb_spec (charged m key + delta) (2 ^ 64)).
    + rewrite Z.ltb_antisym. by destruct (charged m key + delta <=? _).
    + destruct (Z.leb_spec (charged m key + delta) (budget_get (bm_limits m) key)); [lia|done].
Qed.

Lemma charged_set m key v k :
  bt_wf (bm_charged m) -> charged (set_charged key v m) k = if decide (k = key) then v else charged
    m k.
Proof.
  intros Hw. unfold charged, budget_get, set_charged. cbn [bm_charged].
  rewrite bt_get_insert by done.
  by case_decide.
Qed.

(** One call: the meter stays typed and accounts for the call if it was accepted. *)
Lemma charge_step m key delta m' res :
  meter_typed m -> is_u64 delta -> charge m key delta = (m', res) ->
  meter_typed m' /\ bm_limits m' = bm_limits m
  /\ (is_ok res = chargeable (bm_limits m) key (charged m key) delta (bm_input_charged m))
  /\ (forall k, charged m' k = if is_ok res then account k (charged m k) [(key, delta)] else
    charged m k)
  /\ bm_input_charged m' = bm_input_charged m || (is_ok res && counted_input [(key, delta)]).
Proof.
  intros Ht Hd H. rewrite charge_exact in H by done. destruct Ht as (Hw & Hl & Hc).
  destruct (chargeable _ _ _ _ _) eqn:E; apply pair_equal_spec in H as [<- <-]; cbn [is_ok andb].
  2: { split_and!; [done..|by rewrite orb_false_r]. }
  assert (forall v, 0 <= v <= budget_get (bm_limits m) key -> meter_typed (set_charged key v m)) as
    Hset.
  { intros v Hv. split_and!; [by apply bt_wf_alter|done|]. intros k. rewrite charged_set by done.
    case_decide; [by subst|apply Hc]. }
  unfold chargeable in E. unfold account, counted_input. cbn [fold_left existsb fst snd].
  specialize (Hc key) as Hk. unfold is_u64 in Hd. destruct (per_value key) eqn:Ep; simp_bool.
  - split_and!; [apply Hset; lia|done|done| |].
    + intros k. rewrite charged_set by done. case_decide as Hkk.
      * subst k. by rewrite bool_decide_eq_true_2, Ep.
      * by rewrite bool_decide_eq_false_2.
    + destruct (decide (key = InputBytes)) as [->|Hn]; [done|].
      cbn [set_charged bm_input_charged]. by rewrite bool_decide_eq_false_2, orb_false_r.
  - split_and!; [apply Hset; lia|done|done| |].
    + intros k. change (charged (mark_input key ?x) k) with (charged x k).
      rewrite charged_set by done.
      destruct (decide (k = key)) as [Hkk|Hkk].
      * subst k. by rewrite bool_decide_eq_true_2, Ep.
      * by rewrite bool_decide_eq_false_2.
    + cbn [mark_input bm_input_charged]. rewrite orb_false_r. by apply orb_comm.
Qed.

Definition inputs_accepted (accepted : list (BudgetKey * Z)) : nat :=
  length (List.filter (fun c => bool_decide (c.1 = InputBytes)) accepted).

Lemma counted_none accepted : counted_input accepted = false -> inputs_accepted accepted = O.
Proof.
  unfold counted_input, inputs_accepted. induction accepted as [|c l IH]; cbn; [done|].
  destruct (bool_decide _); cbn; [done|exact IH].
Qed.

Lemma charge_all_sound m calls m' accepted :
  meter_typed m -> Forall (fun c => is_u64 c.2) calls -> charge_all m calls = (m', accepted) ->
  meter_typed m' /\ bm_limits m' = bm_limits m
  /\ (forall k, charged m' k = account k (charged m k) accepted)
  /\ bm_input_charged m' = bm_input_charged m || counted_input accepted
  /\ (bm_input_charged m = true -> counted_input accepted = false).
Proof.
  revert m m' accepted.
  induction calls as [|[key delta] calls IH]; intros m m' accepted Ht Hc H; cbn in H.
  - injection H as <- <-. split_and!; [done..|by rewrite orb_false_r|done].
  - apply Forall_cons in Hc as [Hd Hc]. destruct (charge m key delta) as [m1 res] eqn:E1.
    destruct (charge_all m1 calls) as [m2 acc] eqn:E2. apply pair_equal_spec in H as [<- <-].
    apply charge_step in E1 as (Ht1 & Hl1 & Hok & Hch & Hin); [|done..].
    apply IH in E2 as (Ht2 & Hl2 & Hch2 & Hin2 & Hno); [|done..].
    split_and!; [done|congruence| | |].
    + intros k. rewrite Hch2, Hch. by destruct (is_ok res).
    + rewrite Hin2, Hin. destruct (is_ok res); cbn; by rewrite ?orb_false_r, ?orb_assoc.
    + intros Hi. rewrite Hin, Hi in Hno. specialize (Hno eq_refl).
      destruct (is_ok res); [|done].
      change (counted_input (?c :: acc)) with (bool_decide (c.1 = InputBytes) || counted_input acc).
      cbn [fst]. rewrite Hno, orb_false_r. unfold chargeable in Hok. rewrite Hi, andb_true_r in Hok.
      destruct (decide (key = InputBytes)) as [->|Hn];
        [by cbn in Hok|by rewrite bool_decide_eq_false_2].
Qed.

Lemma charge_all_input_once m calls m' accepted :
  meter_typed m -> Forall (fun c => is_u64 c.2) calls -> charge_all m calls = (m', accepted) ->
  (inputs_accepted accepted <= 1)%nat.
Proof.
  revert m m' accepted.
  induction calls as [|[key delta] calls IH]; intros m m' accepted Ht Hc H; cbn in H.
  - injection H as <- <-. cbn. lia.
  - apply Forall_cons in Hc as [Hd Hc]. destruct (charge m key delta) as [m1 res] eqn:E1.
    destruct (charge_all m1 calls) as [m2 acc] eqn:E2. apply pair_equal_spec in H as [_ <-].
    apply charge_step in E1 as (Ht1 & _ & _ & _ & Hin); [|done..].
    specialize (IH _ _ _ Ht1 Hc E2). destruct (is_ok res); [|done].
    destruct (charge_all_sound _ _ _ _ Ht1 Hc E2) as (_ & _ & _ & _ & Hno).
    unfold inputs_accepted. cbn [List.filter fst]. destruct (decide (key = InputBytes)) as [->|Hn].
    + cbn in Hin. rewrite orb_true_r in Hin. apply Hno, counted_none in Hin.
      rewrite bool_decide_eq_true_2 by done. cbn [length]. unfold inputs_accepted in Hin. lia.
    + by rewrite bool_decide_eq_false_2.
Qed.

Lemma budgets_validate_ceiling l :
  budgets_validate l = Ok tt -> forall k, exists v, bt_get k l = Some v /\ v <= absolute_ceiling k.
Proof.
  unfold budgets_validate. intros H k. destruct (negb _); [done|].
  apply rbind_Ok in H as ([] & H & _).
  apply for_each_unit in H. rewrite Forall_forall in H. specialize (H k (BudgetKey_ALL_all k)).
  unfold within_ceiling in H. apply rbind_Ok in H as (v & Hv%ok_or_Ok & H). exists v.
  split; [done|].
  destruct (Z.ltb_spec (absolute_ceiling k) v); [done|lia].
Qed.

Lemma ceiling_u64 k : absolute_ceiling k < 2 ^ 64.
Proof. by destruct k. Qed.

Lemma BudgetMeter_new_typed limits m :
  limits_typed limits -> BudgetMeter_new limits = Ok m ->
  meter_typed m /\ bm_limits m = limits /\ (forall k, charged m k = 0) /\ bm_input_charged m = false
  /\ forall k, budget_get limits k <= absolute_ceiling k.
Proof.
  intros Hl H. unfold BudgetMeter_new in H. apply rbind_Ok in H as ([] & Hv & H).
  apply Ok_inj in H as <-.
  assert (forall k, budget_get limits k <= absolute_ceiling k) as Hc.
  { intros k. destruct (budgets_validate_ceiling _ Hv k) as (v & Hg & Hle). unfold budget_get.
    by rewrite Hg. }
  split_and!; [|done|by intros []|done|done]. unfold meter_typed. cbn [bm_charged bm_limits].
  split_and!.
  - unfold BudgetKey_ALL. cbn [fold_left]. do 15 (apply bt_wf_alter). apply bt_wf_nil.
  - intros k. specialize (Hc k). pose proof (ceiling_u64 k). cbn. lia.
  - intros k. destruct (limits_get _ k Hl) as [_ Hu]. unfold is_u64 in Hu. cbn.
    assert (charged {| bm_limits := limits;
      bm_charged := fold_left (fun m key => bt_insert key 0 m) BudgetKey_ALL [];
      bm_input_charged := false |} k = 0) as Hz by by destruct k. cbn in Hz. rewrite Hz. lia.
Qed.

(** C27: The budget meter of a worker accounts exactly for the work it accepts, and never goes over
    a limit. After any calls of [charge] on a new meter, what is charged on a key is the sum of the
    accepted values of that key (the largest one for the keys that limit single values), at most the
    limit of the profile, which is at most the absolute ceiling; the raw input was accepted at most
    once. A further call is accepted exactly when its value (or the sum with it, computed without
    overflow) stays within the limit and it does not charge the input again;
      a refused call reports the
    resource limit and leaves the meter as it was. *)
Theorem meter_accounts limits m calls m' accepted :
  limits_typed limits -> BudgetMeter_new limits = Ok m -> Forall (fun c => is_u64 c.2) calls ->
  charge_all m calls = (m', accepted) ->
  bm_limits m' = limits
  /\ (forall key, charged m' key = account key 0 accepted
        /\ charged m' key <= budget_get limits key <= absolute_ceiling key)
  /\ (inputs_accepted accepted <= 1)%nat
  /\ (forall key delta, is_u64 delta ->
        if chargeable limits key (account key 0 accepted) delta (counted_input accepted)
        then (charge m' key delta).2 = Ok tt
        else charge m' key delta = (m', Err resource_limit_failure)).
Proof.
  intros Hl Hn Hc H. destruct (BudgetMeter_new_typed _ _ Hl Hn) as (Ht & Hlim & Hz & Hin & Hceil).
  pose proof (charge_all_input_once _ _ _ _ Ht Hc H) as Honce.
  destruct (charge_all_sound _ _ _ _ Ht Hc H) as (Ht' & Hlim' & Hch & Hin' & _).
  rewrite Hin in Hin'. cbn [orb] in Hin'. rewrite Hlim in Hlim'.
  split_and!; [done| |done|].
  - intros key. rewrite Hch, Hz. split; [done|]. destruct Ht' as (_ & _ & Hb). specialize (Hb key).
    rewrite Hch, Hz, Hlim' in Hb. split; [apply Hb|apply Hceil].
  - intros key delta Hd. rewrite charge_exact by done. rewrite Hlim', Hin', Hch, Hz.
    by destruct (chargeable _ _ _ _ _).
Qed.

(** ** Completed reports *)

(** The kinds the worker accepts of a place are those the units of the index accept. *)
Lemma compatible_kind_agrees format locator kind :
  compatible_kind format locator kind = SearchUnitProfiles.compatible_kind format locator kind.
Proof. by destruct format, locator, kind. Qed.

Section Reports.
Context {N : Unicode} {D : Digest}.

(** What a fragment at an index satisfies. *)
Definition fragment_sound (profile : RegisteredProfile) (index : Z) (f : WorkerFragment) : Prop :=
  wf_ordinal f = index
  /\ (forall parent, wf_parent_ordinal f = Some parent -> parent < index)
  /\ wf_text f <> EmptyString /\ normalize_unit_text (wf_text f) = wf_text f
  /\ str_len (wf_text f) <= budget_get (rp_budgets profile) UnitUtf8Bytes
  /\ is_ok (locator_encode (wf_locator f)) = true
  /\ validate_place f profile = Ok tt.

Lemma validate_fragment_Ok f index profile bs :
  validate_fragment f index profile = Ok bs ->
  fragment_sound profile index f /\ locator_encode (wf_locator f) = Ok bs.
Proof.
  unfold validate_fragment. intros H. destruct (_ || _) eqn:E in H; [done|].
  apply rbind_Ok in H as (l & Hl%map_err_Ok & H). apply rbind_Ok in H as ([] & Hp & H).
  apply Ok_inj in H as <-. simp_bool. split; [|done].
  split_and!; [done| |done|done|done|by rewrite Hl|done].
  intros parent Hpar. unfold is_some_and in *. rewrite Hpar in *. simp_bool. lia.
Qed.

Definition locator_bytes (f : WorkerFragment) : option (list Z) := ok (locator_encode (wf_locator
  f)).

Definition fragments_seen (profile : RegisteredProfile) (fs : list WorkerFragment)
    (s : Z * list (list Z)) : Prop :=
  s.1 = len fs /\ (forall i f, fs !! i = Some f -> fragment_sound profile (Z.of_nat i) f)
  /\ NoDup (map locator_bytes fs) /\ (forall f, f ∈ fs -> exists bs, locator_bytes f = Some bs /\
    bs ∈ s.2).

Lemma fragment_step_seen profile fs s f s' :
  fragments_seen profile fs s -> fragment_step profile s f = Ok s' ->
  fragments_seen profile (fs ++ [f]) s'.
Proof.
  intros (Hi & Hf & Hn & Hs) H. unfold fragment_step in H. apply rbind_Ok in H as (bs & Hv & H).
  apply validate_fragment_Ok in Hv as [Hv Hl]. destruct (contains s.2 bs) eqn:Ec; [done|].
  apply Ok_inj in H as <-. assert (bs ∉ s.2) as Hc.
  { intros Hin. apply contains_true in Hin. congruence. }
  assert (locator_bytes f = Some bs) as Hlb by (unfold locator_bytes; by rewrite Hl).
  unfold fragments_seen. cbn [fst snd]. split_and!.
  - rewrite len_app, Hi. done.
  - intros i g Hg. apply lookup_app_Some in Hg as [Hg|[Hle Hg]]; [by apply Hf|].
    apply list_lookup_singleton_Some in Hg as [Hz <-]. replace (Z.of_nat i) with s.1; [done|].
    rewrite Hi. unfold len. lia.
  - rewrite map_app. cbn [map]. apply NoDup_app. split_and!; [done| |apply NoDup_singleton].
    intros o Ho Hin%list_elem_of_singleton. apply list_elem_of_fmap in Ho as (g & -> & Hg).
    destruct (Hs _ Hg) as (b & Hb & Hbs). rewrite Hb in Hin. rewrite Hlb in Hin.
    injection Hin as ->. done.
  - intros g Hg. apply elem_of_app in Hg as [Hg|Hg%list_elem_of_singleton].
    + destruct (Hs _ Hg) as (b & Hb & Hbs). exists b. split; [done|by right].
    + subst g. exists bs. split; [done|by left].
Qed.

Lemma omission_step_seen os s o s' :
  s = rev (map omission_scope os) /\ NoDup (map omission_scope os) -> omission_step s o = Ok s' ->
  s' = rev (map omission_scope (os ++ [o])) /\ NoDup (map omission_scope (os ++ [o])).
Proof.
  intros [-> Hn] H. unfold omission_step in H. destruct (_ || _) in H; [done|].
  destruct (contains _ _) eqn:Ec; [done|]. apply Ok_inj in H as <-.
  assert (omission_scope o ∉ map omission_scope os) as Hc.
  { intros Hin. apply not_true_iff_false in Ec. apply Ec, contains_true.
    apply list_elem_of_In. rewrite <- in_rev. by apply list_elem_of_In. }
  rewrite map_app. cbn [map]. rewrite rev_app_distr. split; [done|].
  apply NoDup_app. split_and!; [done| |apply NoDup_singleton].
  intros x Hx Hin%list_elem_of_singleton. by subst.
Qed.

Lemma same_reasons_iff declared omitted :
  same_reasons declared omitted = true <-> forall r, r ∈ declared <-> r ∈ omitted.
Proof.
  unfold same_reasons. rewrite andb_true_iff, !forallb_forall. setoid_rewrite contains_true.
  setoid_rewrite <- list_elem_of_In. naive_solver.
Qed.

(** What the coverage of a report says of its fragments and its omissions. *)
Definition coverage_sound (report : WorkerReport) : Prop :=
  match wp_coverage report with
  | Supported => wp_known_omissions report = []
  | Partial reasons =>
      NoDup reasons /\ ResourceLimit ∉ reasons /\ wp_fragments report <> []
      /\ wp_known_omissions report <> []
      /\ forall reason, reason ∈ reasons <-> reason ∈ map no_reason (wp_known_omissions report)
  | Unsupported _ => wp_fragments report = [] /\ wp_known_omissions report = []
  end.

Lemma validate_coverage_sound report : validate_coverage report = Ok tt -> coverage_sound report.
Proof.
  unfold validate_coverage, coverage_sound. intros H.
  destruct (wp_coverage report) as [|reasons|reason].
  - destruct (wp_known_omissions report); done.
  - destruct (_ || _) eqn:E1 in H; [done|]. destruct (contains _ _) eqn:E2 in H; [done|].
    destruct (_ || _) eqn:E3 in H; [done|]. simp_bool. unfold has_duplicates in *. simp_bool.
    split_and!; [done| | | |by apply same_reasons_iff].
    + intros Hin%contains_true. congruence.
    + by destruct (wp_fragments report).
    + by destruct (wp_known_omissions report).
  - destruct (wp_fragments report), (wp_known_omissions report); done.
Qed.
Lemma omissions_distinct os s :
  for_each omission_step [] os = Ok s -> NoDup (map omission_scope os).
Proof.
  intros H. refine (proj2 (for_each_prefix (fun os s =>
    s = rev (map omission_scope os) /\ NoDup (map omission_scope os)) _ _ _ _ _ _ H)).
  - split; [done|apply NoDup_nil_2].
  - intros os' s1 o s2. apply omission_step_seen.
Qed.

Lemma fragments_sound profile fs s :
  for_each (fragment_step profile) (0, []) fs = Ok s -> fragments_seen profile fs s.
Proof.
  intros H. refine (for_each_prefix (fragments_seen profile) _ _ _ _ _ _ H).
  - split_and!; [done|done|apply NoDup_nil_2|]. intros f Hf. by apply elem_of_nil in Hf.
  - intros fs' s1 f s2. apply fragment_step_seen.
Qed.

(** C23: A report that is accepted as completed can be used as it is. It is the report of the
    response, it fits the output budget of the profile, and either it is an empty report of an
    interrupted item without a supported body, or its traversal was complete and: the fragments are
    numbered by their position, every parent comes before its child, every text is non-empty,
    normalised and within the budget, every locator encodes and no two are the same, and every
      fragment
    is of a kind its format (or the leaf of its archive) has; full coverage has no omission, partial
    coverage names each reason of its omissions once and no others and never a resource limit,
    unsupported coverage has no fragment; no omission is listed twice;
      and the readers used are those
    of the registered plan. *)
Theorem completed_report_sound response profile report :
  checked_completed_report response profile = Ok report ->
  response = WrReport report
  /\ (exists encoded, encode_response response = Ok encoded
        /\ len encoded <= budget_get (rp_budgets profile) WorkerOutputBytes)
  /\ if wp_traversal_complete report then
       (forall i f, wp_fragments report !! i = Some f -> fragment_sound profile (Z.of_nat i) f)
       /\ NoDup (map locator_bytes (wp_fragments report))
       /\ len (wp_fragments report) <= budget_get (rp_budgets profile) BudgetUnits
       /\ coverage_sound report
       /\ NoDup (map omission_scope (wp_known_omissions report))
       /\ wp_reader_use report = match rp_archive_plan profile with
                                 | Some plan => pl_nodes plan | None => [] end
     else is_unsupported (wp_coverage report) = true /\ wp_fragments report = []
          /\ wp_reader_use report = [] /\ wp_known_omissions report = [].
Proof.
  intros H. destruct response as [r|]; [|done]. cbn [checked_completed_report] in H.
  apply rbind_Ok in H as ([] & H & Hr). apply Ok_inj in Hr as ->. split; [done|].
  unfold validate_worker_report in H. apply rbind_Ok in H as ([] & _ & H).
  apply rbind_Ok in H as (encoded & He%map_err_Ok & H). destruct (Z.ltb_spec
    (budget_get (rp_budgets profile) WorkerOutputBytes) (len encoded)); [done|].
  split; [by exists encoded|]. destruct (wp_traversal_complete report); cbn [negb] in H.
  - destruct (_ || _) eqn:Eu in H; [done|]. simp_bool.
    apply rbind_Ok in H as ([] & Hc%validate_coverage_sound & H).
    apply rbind_Ok in H as (s & Hf%fragments_sound & H). destruct Hf as (_ & Hf & Hn & _).
    apply rbind_Ok in H as (seen & Ho%omissions_distinct & H). split_and!; try done.
    unfold validate_reader_use in H. destruct (rp_archive_plan profile) as [plan|].
    + destruct (wp_reader_use report != pl_nodes plan) eqn:Ep; [done|]. by simp_bool.
    + by destruct (wp_reader_use report).
  - destruct (empty_report report) eqn:E; [|done]. unfold empty_report in E. simp_bool.
    destruct (wp_fragments report), (wp_reader_use report), (wp_known_omissions report); done.
Qed.
End Reports.
