(* ===== verification/SearchProjection.v ===== *)
(** * SearchProjection: compiling resources and the publication of generations

    search-application projection.rs over the records of search-core resource.rs, profile.rs,
    intent.rs and usage.rs: compiling a resource into a projection, the wrappers a persistent
    store accepts, the publication guard of a source's generations, and what a remote projection
    may persist. *)
From stdpp Require Import base gmap sets list strings.
From Stdlib Require Import ZArith Lia.
From S2P Require Import Prelude Text Ordered SearchValues SearchResolution SearchEvidence.
From S2P Require Import SearchGraph.

Local Open Scope Z_scope.

(** ** resource.rs and profile.rs *)

Inductive ResourceBody : Type :=
| BodyKnowledge | BodyDocument | BodyFolderPlacement | BodySemantic | BodyCapability
| BodyAgentSkill | BodyWorkflow | BodyPolicy.

Definition ResourceBody_kind (b : ResourceBody) : ResourceKind :=
  match b with
  | BodyKnowledge => KindKnowledge | BodyDocument => KindDocument
  | BodyFolderPlacement => KindFolderPlacement | BodySemantic => KindSemantic
  | BodyCapability => KindCapability | BodyAgentSkill => KindAgentSkill
  | BodyWorkflow => KindWorkflow | BodyPolicy => KindPolicy
  end.

Record ResourceIdentity : Type := {
  id_resource_id : ResourceId;
  id_resource_type : ResourceKind;
  id_resource_version : option ResourceVersionId;
  id_source_id : SourceId;
  id_source_native_id : option string;
  id_provenance : option string;
  id_valid_from : option Instant;
  id_valid_to : option Instant;
  id_access_scope : option string;
  id_integrity_digest : option string
}.

Definition ResourceIdentity_new (resource_id : ResourceId) (resource_type : ResourceKind)
    (source_id : SourceId) : ResourceIdentity := {|
  id_resource_id := resource_id; id_resource_type := resource_type; id_resource_version := None;
  id_source_id := source_id; id_source_native_id := None; id_provenance := None;
  id_valid_from := None; id_valid_to := None; id_access_scope := None;
  id_integrity_digest := None
|}.

Record DiscoveryProfile : Type := {
  dr_canonical_name : string;
  dr_aliases : list string;
  dr_concept_refs : list string;
  dr_intents : list string;
  dr_high_signal_facets : list (string * FacetState string);
  dr_positive_signals : list string;
  dr_negative_signals : list string;
  dr_confusable_with : list ResourceId;
  dr_distinguished_by : list string;
  dr_projection_version : Z
}.

Definition DiscoveryProfile_new (canonical_name : string) : DiscoveryProfile := {|
  dr_canonical_name := canonical_name; dr_aliases := []; dr_concept_refs := [];
  dr_intents := []; dr_high_signal_facets := []; dr_positive_signals := [];
  dr_negative_signals := []; dr_confusable_with := []; dr_distinguished_by := [];
  dr_projection_version := 1
|}.

Record DiscoveryLens : Type := {
  dl_lens_id : string;
  dl_lens_version : Z;
  dl_resource_type : ResourceKind;
  dl_domain_scope : option string;
  dl_source_scope : option SourceId;
  dl_identity_fields : list string;
  dl_high_signal_facets : list string;
  dl_searchable_fields : list string;
  dl_applicability_fields : list string;
  dl_temporal_fields : list string;
  dl_relation_fields : list string;
  dl_extraction_policy : option string;
  dl_projection_policy : option string
}.

Record DiscoverableResource : Type := {
  dr_identity : ResourceIdentity;
  dr_body : ResourceBody;
  dr_usage_profile_ids : list UsageProfileId;
  dr_discovery_profile : DiscoveryProfile;
  dr_temporal_profile : TemporalDiscoveryProfile;
  dr_relation_ids : list RelationId
}.

Definition TemporalDiscoveryProfile_default : TemporalDiscoveryProfile := {|
  td_freshness_anchor_at := None; td_freshness_basis := None; td_effective_from := None;
  td_effective_to := None
|}.

Definition DiscoverableResource_new (identity : ResourceIdentity) (body : ResourceBody)
    (discovery_profile : DiscoveryProfile) : DiscoverableResource := {|
  dr_identity := identity; dr_body := body; dr_usage_profile_ids := [];
  dr_discovery_profile := discovery_profile;
  dr_temporal_profile := TemporalDiscoveryProfile_default; dr_relation_ids := []
|}.

(** ** intent.rs and the discovery request (discovery.rs) *)

Inductive IntentFactOrigin : Type := IntentExplicit | IntentDerived | IntentInferred.

Record IntentFact (T : Type) : Type := { if_value : T; if_origin : IntentFactOrigin }.

Record IntentSignature : Type := {
  is_purpose : IntentFact string;
  is_business_domain : option (IntentFact string);
  is_business_operation : option (IntentFact string);
  is_subject : option (IntentFact string);
  is_object : option (IntentFact string);
  is_product_scope : option (IntentFact string);
  is_lifecycle_phase : option (IntentFact string);
  is_actor : option (IntentFact string);
  is_trigger : option (IntentFact string);
  is_requested_action : option (IntentFact string);
  is_expected_effect : option (IntentFact string);
  is_temporal_target : option (IntentFact Instant);
  is_required_authority : option (IntentFact string);
  is_required_freshness : option (IntentFact string);
  is_constraints : list (IntentFact string);
  is_unresolved_facets : list string
}.

Record DiscoveryNeed : Type := {
  dn_need_id : Uuid;
  dn_intent_signature : IntentSignature;
  dn_required_resource_types : list ResourceKind;
  dn_required_claims : list ClaimId;
  dn_authority_requirements : list string;
  dn_freshness_requirements : list string;
  dn_constraints : list string;
  dn_completion_requirement : EvidenceRequirement
}.

Record DiscoveryRequest : Type := {
  dq_need : DiscoveryNeed;
  dq_temporal_context : TemporalEvaluationContext;
  dq_access_context : string
}.

(** ** Compiling a resource *)

Record ProjectionInput : Type := {
  pi_resource : DiscoverableResource;
  pi_source : DiscoverableSource;
  pi_lens : DiscoveryLens;
  pi_source_snapshot : string;
  pi_projection_schema_version : string;
  pi_semantic_registry_version : string;
  pi_title : option string;
  pi_typed_facets : list (string * FacetState TypedValue);
  pi_assertions : list Assertion;
  pi_authority_resolutions : list (string * AuthorityResolution);
  pi_relations : list TypedRelationInstance
}.

Inductive ProjectionError : Type :=
| PeSourceMismatch
| PeLensVersionMismatch
| PeSourceSnapshotMismatch
| PeSchemaVersionMismatch
| PeSemanticRegistryVersionMismatch
| PeLensResourceTypeMismatch
| PeInconsistentFacetAuthority (facet : string)
| PeInconsistentHighSignalFacetAuthority (facet : string)
| PeInconsistentFacetProjections (facet : string)
| PeInvalidRelation
| PeFieldNotPermitted (field : string)
| PeContentNotPermitted
| PePersistenceDenied
| PeGenerationNotValidated
| PeInvalidGenerationTransition
| PeUnknownGeneration
| PeDuplicateGeneration.

Abbreviation PResult A := (Result A ProjectionError).

(** [NoConceptResolution]: every concept question is an error. *)
#[local] Instance NoConceptResolution : ConceptResolver := {|
  same_concept := fun _ _ => TError; is_a := fun _ _ => TError; descendant_of := fun _ _ => TError
|}.

(** [PredicateEvaluator::evaluate(Eq(left, right), &FactSet::default(), &NoConceptResolution)]. *)
Definition evaluate_eq (l r : TypedValue) : TruthValue :=
  evaluate (PEq (OpValue l) (OpValue r)) [].

Definition typed_values_semantically_equal (l r : TypedValue) : bool := evaluate_eq l r == TTrue.

Definition facet_matches_resolution {T} (state : FacetState T) (resolution : AuthorityResolution)
    (values_equal : T -> TypedValue -> bool) : bool :=
  match state, resolution with
  | FacetKnown value, AuthorityResolved resolved => values_equal value resolved
  | (FacetUnknown | FacetNotApplicable), AuthorityUnresolved => true
  | FacetConflict, AuthorityConflicted _ => true
  | _, _ => false
  end.

Definition selected_and_typed_facets_agree (high_signal : FacetState string)
    (typed : FacetState TypedValue) : bool :=
  match high_signal, typed with
  | FacetKnown signal, FacetKnown (TVString value) => signal == value
  | FacetUnknown, FacetUnknown | FacetNotApplicable, FacetNotApplicable
  | FacetConflict, FacetConflict => true
  | _, _ => false
  end.

(** The loop over the typed facets. *)
Definition check_typed_facet (input : ProjectionInput) (_ : unit)
    (entry : string * FacetState TypedValue) : PResult unit :=
  let '(facet, state) := entry in
  if is_some_and (bt_get facet (pi_authority_resolutions input))
       (fun resolution =>
          negb (facet_matches_resolution state resolution typed_values_semantically_equal))
  then Err (PeInconsistentFacetAuthority facet)
  else Ok tt.

(** [matches!(resolved, TypedValue::String(value) if signal == value)]. *)
Definition signal_is (signal : string) (resolved : TypedValue) : bool :=
  match resolved with TVString value => signal == value | _ => false end.

(** The loop over the selected high-signal facets. *)
Definition check_signal_facet (input : ProjectionInput) (_ : unit)
    (entry : string * FacetState string) : PResult unit :=
  let '(facet, state) := entry in
  if is_some_and (bt_get facet (pi_authority_resolutions input))
       (fun resolution => negb (facet_matches_resolution state resolution signal_is))
  then Err (PeInconsistentHighSignalFacetAuthority facet)
  else if is_some_and (bt_get facet (pi_typed_facets input))
            (fun typed => negb (selected_and_typed_facets_agree state typed))
  then Err (PeInconsistentFacetProjections facet)
  else Ok tt.

(** [collect::<BTreeSet<_>>()]. *)
Definition bt_set {K} `{Ord K} (ks : list K) : list (K * unit) :=
  fold_left (fun s k => bt_insert k tt s) ks [].

Definition relations_match (input : ProjectionInput) : bool :=
  let resource_id := id_resource_id (dr_identity (pi_resource input)) in
  let expected := bt_set (dr_relation_ids (pi_resource input)) in
  let supplied := bt_set (map ri_relation_id (pi_relations input)) in
  negb ((len expected != len (dr_relation_ids (pi_resource input)))
        || (len supplied != len (pi_relations input))
        || (expected != supplied)
        || existsb
             (fun relation =>
                is_err (relation_validate relation)
                || negb (existsb (fun p => pt_resource_ref p == resource_id)
                           (ri_participants relation)))
             (pi_relations input)).

Definition selected_high_signal_facets (input : ProjectionInput)
    : list (string * FacetState string) :=
  fold_left
    (fun selected facet =>
       match bt_get facet (dr_high_signal_facets (dr_discovery_profile (pi_resource input))) with
       | Some state => bt_insert facet state selected
       | None => selected
       end)
    (dl_high_signal_facets (pi_lens input)) [].

Definition compile_resource (manifest : ProjectionGenerationManifest) (input : ProjectionInput)
    : PResult CompiledResourceProjection :=
  let identity := dr_identity (pi_resource input) in
  let profile := dr_discovery_profile (pi_resource input) in
  if (id_source_id identity != pm_source_id manifest)
     || (ds_source_id (pi_source input) != pm_source_id manifest)
     || is_some_and (dl_source_scope (pi_lens input)) (fun source => source != pm_source_id manifest)
  then Err PeSourceMismatch
  else if negb (dl_lens_version (pi_lens input) =? pm_lens_version manifest)
  then Err PeLensVersionMismatch
  else if pi_source_snapshot input != pm_source_snapshot manifest
  then Err PeSourceSnapshotMismatch
  else if pi_projection_schema_version input != pm_projection_schema_version manifest
  then Err PeSchemaVersionMismatch
  else if pi_semantic_registry_version input != pm_semantic_registry_version manifest
  then Err PeSemanticRegistryVersionMismatch
  else if (dl_resource_type (pi_lens input) != id_resource_type identity)
          || (ResourceBody_kind (dr_body (pi_resource input)) != id_resource_type identity)
  then Err PeLensResourceTypeMismatch
  else
    try? for_each (check_typed_facet input) tt (pi_typed_facets input) in
    if negb (relations_match input) then Err PeInvalidRelation
    else
      let relations := sort_by_key ri_relation_id (pi_relations input) in
      let selected := selected_high_signal_facets input in
      try? for_each (check_signal_facet input) tt selected in
      Ok {| rp_manifest := manifest;
            rp_retention_mode := ds_retention_mode (pi_source input);
            rp_directory := {|
              dp_resource_ref := id_resource_id identity;
              dp_resource_version := id_resource_version identity;
              dp_kind := id_resource_type identity;
              dp_canonical_name := dr_canonical_name profile;
              dp_title := pi_title input;
              dp_aliases := dr_aliases profile |};
            rp_structured := {|
              sp_resource_ref := id_resource_id identity;
              sp_concept_refs := dr_concept_refs profile;
              sp_high_signal_facets := selected;
              sp_typed_facets := pi_typed_facets input;
              sp_assertions := pi_assertions input;
              sp_authority_resolutions := pi_authority_resolutions input |};
            rp_temporal := {|
              tp_resource_ref := id_resource_id identity;
              tp_valid_from := id_valid_from identity;
              tp_valid_to := id_valid_to identity;
              tp_profile := dr_temporal_profile (pi_resource input) |};
            rp_access := {|
              ap_resource_ref := id_resource_id identity;
              ap_access_scope := id_access_scope identity;
              ap_source_access_model := ds_access_model (pi_source input) |};
            rp_relations := relations |}.

(** ** What a persistent store accepts *)

Definition permits_persistent_state (mode : RetentionMode) : bool := persistent mode.

(** The two wrappers are the values they hold: they are built by these functions only. *)
Definition PersistableGenerationManifest : Type := ProjectionGenerationManifest.
Definition PersistableResourceProjection : Type := CompiledResourceProjection.

Definition manifest_try_from (manifest : ProjectionGenerationManifest)
    (source : DiscoverableSource) : PResult PersistableGenerationManifest :=
  if pm_source_id manifest != ds_source_id source then Err PeSourceMismatch
  else if negb (permits_persistent_state (ds_retention_mode source)) then Err PePersistenceDenied
  else Ok manifest.

Definition projection_try_from (projection : CompiledResourceProjection)
    : PResult PersistableResourceProjection :=
  if negb (permits_persistent_state (rp_retention_mode projection)) then Err PePersistenceDenied
  else Ok projection.

(** ** The publication guard *)

Inductive ProjectionPublishState : Type :=
| StBuilding | StValidated | StCurrent | StRetired | StFailed.
#[global] Instance ProjectionPublishState_eq_dec : EqDecision ProjectionPublishState.
Proof. solve_decision. Defined.

Record GenerationRecord : Type := {
  gn_manifest : ProjectionGenerationManifest;
  gn_state : ProjectionPublishState
}.

Record GenerationPublication : Type := {
  pb_source_id : SourceId;
  pb_records : list (ProjectionGenerationId * GenerationRecord);
  pb_current : option ProjectionGenerationId
}.

(** How a method of the guard ends without a value: an error, or a failed [expect]. *)
Inductive PublicationStop : Type :=
| Refused (error : ProjectionError)
| GuardPanicked (message : string).

Definition GenerationPublication_new (source_id : SourceId) : GenerationPublication :=
  {| pb_source_id := source_id; pb_records := []; pb_current := None |}.

Definition with_records (self : GenerationPublication)
    (records : list (ProjectionGenerationId * GenerationRecord)) : GenerationPublication :=
  {| pb_source_id := pb_source_id self; pb_records := records; pb_current := pb_current self |}.

Definition set_state (record : GenerationRecord) (state : ProjectionPublishState)
    : GenerationRecord := {| gn_manifest := gn_manifest record; gn_state := state |}.

Definition record_mut (self : GenerationPublication) (key : ProjectionGenerationKey)
    : Result GenerationRecord PublicationStop :=
  if gk_source_id key != pb_source_id self then Err (Refused PeSourceMismatch)
  else ok_or (bt_get (gk_generation_id key) (pb_records self)) (Refused PeUnknownGeneration).

(** [&mut self] methods change nothing when they are refused. *)
Definition Guarded : Type := GenerationPublication * Result unit PublicationStop.
Definition guard (self : GenerationPublication)
    (r : Result GenerationPublication PublicationStop) : Guarded :=
  match r with Ok self' => (self', Ok tt) | Err e => (self, Err e) end.

Definition publication_begin (self : GenerationPublication)
    (manifest : ProjectionGenerationManifest) : Guarded :=
  guard self
    (if pm_source_id manifest != pb_source_id self then Err (Refused PeSourceMismatch)
     else if bt_contains_key (pm_generation_id manifest) (pb_records self)
     then Err (Refused PeDuplicateGeneration)
     else
       Ok (with_records self
             (bt_insert (pm_generation_id manifest)
                {| gn_manifest := manifest; gn_state := StBuilding |} (pb_records self)))).

Definition publication_validate (self : GenerationPublication) (key : ProjectionGenerationKey)
    : Guarded :=
  guard self
    (let? record := record_mut self key in
     if gn_state record != StBuilding then Err (Refused PeInvalidGenerationTransition)
     else
       Ok (with_records self
             (bt_insert (gk_generation_id key) (set_state record StValidated) (pb_records self)))).

(** The previous current generation is retired before the new one becomes current. *)
Definition retire_previous (self : GenerationPublication)
    : Result (list (ProjectionGenerationId * GenerationRecord)) PublicationStop :=
  match pb_current self with
  | None => Ok (pb_records self)
  | Some previous =>
      let? record :=
        ok_or (bt_get previous (pb_records self)) (GuardPanicked "current generation must exist") in
      Ok (bt_insert previous (set_state record StRetired) (pb_records self))
  end.

Definition publication_publish (self : GenerationPublication) (key : ProjectionGenerationKey)
    : Guarded :=
  guard self
    (let? record := record_mut self key in
     if gn_state record != StValidated then Err (Refused PeGenerationNotValidated)
     else
       let? records := retire_previous self in
       let? record :=
         ok_or (bt_get (gk_generation_id key) records)
           (GuardPanicked "validated generation must exist") in
       Ok {| pb_source_id := pb_source_id self;
             pb_records := bt_insert (gk_generation_id key) (set_state record StCurrent) records;
             pb_current := Some (gk_generation_id key) |}).

Definition publication_fail (self : GenerationPublication) (key : ProjectionGenerationKey)
    : Guarded :=
  guard self
    (let? record := record_mut self key in
     match gn_state record with
     | StBuilding | StValidated =>
         Ok (with_records self
               (bt_insert (gk_generation_id key) (set_state record StFailed) (pb_records self)))
     | _ => Err (Refused PeInvalidGenerationTransition)
     end).

Definition publication_current (self : GenerationPublication) : option ProjectionGenerationKey :=
  option_map (fun id => {| gk_source_id := pb_source_id self; gk_generation_id := id |})
    (pb_current self).

Definition publication_pin_current (self : GenerationPublication)
    : option ProjectionGenerationManifest :=
  match pb_current self with
  | None => None
  | Some id => option_map gn_manifest (bt_get id (pb_records self))
  end.

Definition publication_state (self : GenerationPublication) (key : ProjectionGenerationKey)
    : option ProjectionPublishState :=
  if gk_source_id key != pb_source_id self then None
  else option_map gn_state (bt_get (gk_generation_id key) (pb_records self)).

(** ** Remote projections *)

Inductive RemoteFieldKind : Type :=
| FieldText | FieldInteger | FieldBool | FieldDate | FieldDateTime | FieldConceptRef.

Definition admits (kind : RemoteFieldKind) (value : TypedValue) : bool :=
  match kind, value with
  | FieldText, TVString _ | FieldInteger, TVInteger _ | FieldBool, TVBool _
  | FieldDate, TVDate _ | FieldDateTime, TVDateTime _ | FieldConceptRef, TVConceptRef _ => true
  | _, _ => false
  end.

Definition RESERVED_REMOTE_FIELDS : list string :=
  ["body"; "content"; "fragment"; "snippet"; "text"; "raw"; "raw_response"; "provider_response";
   "credential"; "credentials"; "authorization"; "token"; "secret"; "password"].

(** [str::starts_with] and [str::ends_with] of a string. *)
Definition has_prefix (s p : string) : bool := take (length (bytes p)) (bytes s) == bytes p.
Definition has_suffix (s p : string) : bool :=
  drop (length (bytes s) - length (bytes p)) (bytes s) == bytes p.

Definition reserved (field : string) : bool :=
  existsb
    (fun name => (field == name) || has_prefix field (name ++ ".")%string
                 || has_suffix field ("." ++ name)%string)
    RESERVED_REMOTE_FIELDS.

(** [RemoteFieldProofs] is its one field. *)
Definition RemoteFieldProofs : Type := list (string * RemoteFieldKind).

Definition RemoteFieldProofs_new (fields : list (string * RemoteFieldKind))
    : PResult RemoteFieldProofs :=
  for_each
    (fun allowed '(field, kind) =>
       if (field == EmptyString) || reserved field || bt_contains_key field allowed
       then Err (PeFieldNotPermitted field)
       else Ok (bt_insert field kind allowed))
    [] fields.

(** What [try_from_remote] reads of the registration and of the current policy. *)
Record RegistrationView : Type := {
  rg_retention_mode : RetentionMode;
  rg_source_id : SourceId;
  rg_allowed_resource_kinds : list ResourceKind
}.
Record PolicyView : Type := {
  cu_resource_kind : ResourceKind;
  cu_retention_mode : RetentionMode
}.

Definition check_remote_facet (proofs : RemoteFieldProofs) (_ : unit)
    (entry : string * FacetState TypedValue) : PResult unit :=
  let '(field, state) := entry in
  match state with
  | FacetKnown value =>
      if reserved field || negb (is_some_and (bt_get field proofs) (fun kind => admits kind value))
      then Err (PeFieldNotPermitted field)
      else Ok tt
  | _ => Ok tt
  end.

Definition check_remote_signal (proofs : RemoteFieldProofs) (_ : unit)
    (entry : string * FacetState string) : PResult unit :=
  let '(field, _) := entry in
  if reserved field || negb (bt_contains_key field proofs) then Err (PeFieldNotPermitted field)
  else Ok tt.

Definition try_from_remote (projection : CompiledResourceProjection)
    (registration : RegistrationView) (current_policy : PolicyView)
    (field_proofs : RemoteFieldProofs) : PResult PersistableResourceProjection :=
  let mode := rg_retention_mode registration in
  let kind := dp_kind (rp_directory projection) in
  let structured := rp_structured projection in
  if negb (permits_persistent_state mode)
     || (rp_retention_mode projection != mode)
     || (cu_retention_mode current_policy != mode)
  then Err PePersistenceDenied
  else if pm_source_id (rp_manifest projection) != rg_source_id registration
  then Err PeSourceMismatch
  else if (negb (is_empty (rg_allowed_resource_kinds registration))
           && negb (contains (rg_allowed_resource_kinds registration) kind))
          || (cu_resource_kind current_policy != kind)
  then Err PeLensResourceTypeMismatch
  else
    try? for_each (check_remote_facet field_proofs) tt (sp_typed_facets structured) in
    try? for_each (check_remote_signal field_proofs) tt (sp_high_signal_facets structured) in
    if (mode == PersistentDiscoveryMetadata)
       && (negb (is_empty (sp_assertions structured)) || negb (is_empty (rp_relations projection)))
    then Err PeContentNotPermitted
    else projection_try_from projection.
