(* ===== verification/SearchStore.v ===== *)
(** * SearchStore: the in-memory projection store

    search-projection-memory store.rs and retrieval.rs.  The state under the lock maps each
    source to its generations and its current pointer; a published generation is read-only.
    Serialization (serde_json) is the class [ProjectionJson], SHA-256 the class [Digest]; a
    failed [expect] is the outcome [Panicked], after which the lock is poisoned. *)
From stdpp Require Import base gmap sets list strings vector.
From Stdlib Require Import ZArith Lia Ascii.
From S2P Require Import Prelude Text Ordered Manifest SearchValues SearchResolution.
From S2P Require Import SearchEvidence SearchGraph SearchUnits SearchProjection.

Local Open Scope Z_scope.

(** ports.rs [SemanticRegistrySnapshot]; sets are the maps to unit. *)
Record SemanticRegistrySnapshot : Type := {
  sn_version : string;
  sn_concepts : list (string * unit);
  sn_synonyms : list ((string * string) * unit);
  sn_is_a : list ((string * string) * unit)
}.
#[global] Instance SemanticRegistrySnapshot_eq_dec : EqDecision SemanticRegistrySnapshot.
Proof. solve_decision. Defined.

Definition SemanticRegistrySnapshot_new (version : string) : SemanticRegistrySnapshot :=
  {| sn_version := version; sn_concepts := []; sn_synonyms := []; sn_is_a := [] |}.

(** The parts of a projection that are hashed: all but its manifest. *)
Definition ProjectionBody : Type :=
  RetentionMode * DirectoryProjection * StructuredProjection * TemporalProjection
  * AccessProjection * list TypedRelationInstance.

Definition projection_body (p : CompiledResourceProjection) : ProjectionBody :=
  (rp_retention_mode p, rp_directory p, rp_structured p, rp_temporal p, rp_access p,
   rp_relations p).

(** [serde_json::to_vec] of the values that are hashed or sorted by their text. *)
Class ProjectionJson : Type := {
  typed_value_json : TypedValue -> Result (list Z) string;
  assertion_json : Assertion -> Result (list Z) string;
  registry_json : SemanticRegistrySnapshot -> Result (list Z) string;
  projection_json : ProjectionBody -> Result (list Z) string
}.

Abbreviation SResult A := (Result A Abort).

Definition invalid {A} (message : string) : SResult A := Err (Failed (OperationFailed message)).

(** ** Canonical forms *)

Definition canonical_synonym (e : (string * string) * unit) : string * string :=
  let '((l, r), _) := e in
  match cmp l r with Gt => (r, l) | _ => (l, r) end.

Definition canonical_registry (registry : SemanticRegistrySnapshot) : SemanticRegistrySnapshot := {|
  sn_version := sn_version registry; sn_concepts := sn_concepts registry;
  sn_synonyms := bt_set (map canonical_synonym (sn_synonyms registry));
  sn_is_a := sn_is_a registry
|}.

Section Canonical.
Context {J : ProjectionJson}.

(** [keyed.sort_by(left.0.cmp(&right.0))] of the values paired with their text. *)
Definition sort_by_text {A} (text : A -> Result (list Z) string) (what : string) (values : list A)
    : SResult (list A) :=
  let? keyed :=
    try_map
      (fun value =>
         let? key := map_err (fun e => Failed (OperationFailed (what ++ e)%string)) (text value) in
         Ok (key, value))
      values in
  Ok (map snd (sort_by_key fst keyed)).

Definition sort_typed_values (values : list TypedValue) : SResult (list TypedValue) :=
  sort_by_text typed_value_json "typed value serialization failed: " values.

Fixpoint canonical_typed_value (value : TypedValue) : SResult TypedValue :=
  let canonical_all :=
    (fix go (values : list TypedValue) : SResult (list TypedValue) :=
       match values with
       | [] => Ok []
       | v :: values =>
           let? v := canonical_typed_value v in
           let? values := go values in
           Ok (v :: values)
       end) in
  match value with
  | TVList values => let? values := canonical_all values in Ok (TVList values)
  | TVSet values =>
      let? values := canonical_all values in
      let? values := sort_typed_values values in
      Ok (TVSet values)
  | _ => Ok value
  end.

(** [values_mut()] with a fallible body. *)
Definition map_values {K V} (f : V -> SResult V) (m : list (K * V)) : SResult (list (K * V)) :=
  try_map (fun '(k, v) => let? v := f v in Ok (k, v)) m.

Definition stored_relation (r : TypedRelationInstance) : SResult TypedRelationInstance :=
  let? qualifiers := map_values canonical_typed_value (ri_qualifiers r) in
  Ok {| ri_relation_id := ri_relation_id r; ri_namespace := ri_namespace r;
        ri_relation_type := ri_relation_type r; ri_participants := sort (ri_participants r);
        ri_qualifiers := qualifiers; ri_temporal_scope := ri_temporal_scope r;
        ri_authority := ri_authority r; ri_provenance := ri_provenance r;
        ri_evidence_refs := sort (ri_evidence_refs r) |}.

Definition canonical_facet (state : FacetState TypedValue) : SResult (FacetState TypedValue) :=
  match state with
  | FacetKnown value => let? value := canonical_typed_value value in Ok (FacetKnown value)
  | _ => Ok state
  end.

Definition canonical_assertion (a : Assertion) : SResult Assertion :=
  let? value := canonical_typed_value (as_value a) in
  Ok {| as_assertion_id := as_assertion_id a; as_subject_ref := as_subject_ref a;
        as_predicate := as_predicate a; as_value := value; as_source_ref := as_source_ref a;
        as_origin := as_origin a; as_authority_scope := as_authority_scope a;
        as_evidence_refs := sort (as_evidence_refs a); as_observed_at := as_observed_at a;
        as_effective_from := as_effective_from a; as_effective_to := as_effective_to a;
        as_derived_by := as_derived_by a |}.

Definition canonical_resolution (r : AuthorityResolution) : SResult AuthorityResolution :=
  match r with
  | AuthorityResolved value => let? value := canonical_typed_value value in Ok (AuthorityResolved value)
  | AuthorityConflicted c =>
      let? values := try_map canonical_typed_value (ac_values c) in
      let? values := sort_typed_values values in
      Ok (AuthorityConflicted {| ac_subject_ref := ac_subject_ref c; ac_predicate := ac_predicate c;
            ac_authority_scope := ac_authority_scope c; ac_rank := ac_rank c; ac_values := values |})
  | AuthorityUnresolved => Ok r
  end.

Definition canonical_projection (p : CompiledResourceProjection)
    : SResult CompiledResourceProjection :=
  let d := rp_directory p in
  let s := rp_structured p in
  let? typed_facets := map_values canonical_facet (sp_typed_facets s) in
  let? assertions := try_map canonical_assertion (sp_assertions s) in
  let? assertions := sort_by_text assertion_json "assertion serialization failed: " assertions in
  let? resolutions := map_values canonical_resolution (sp_authority_resolutions s) in
  let? relations := try_map stored_relation (rp_relations p) in
  Ok {| rp_manifest := rp_manifest p; rp_retention_mode := rp_retention_mode p;
        rp_directory := {| dp_resource_ref := dp_resource_ref d;
          dp_resource_version := dp_resource_version d; dp_kind := dp_kind d;
          dp_canonical_name := dp_canonical_name d; dp_title := dp_title d;
          dp_aliases := sort (dp_aliases d) |};
        rp_structured := {| sp_resource_ref := sp_resource_ref s;
          sp_concept_refs := sort (sp_concept_refs s);
          sp_high_signal_facets := sp_high_signal_facets s; sp_typed_facets := typed_facets;
          sp_assertions := assertions; sp_authority_resolutions := resolutions |};
        rp_temporal := rp_temporal p; rp_access := rp_access p;
        rp_relations := sort_by_key ri_relation_id relations |}.

(** ** Validation and the digest *)

Definition validate_registry (registry : SemanticRegistrySnapshot) : SResult unit :=
  if (sn_version registry == EmptyString)
     || existsb (fun c => c == EmptyString) (map fst (sn_concepts registry))
  then invalid "semantic registry contains an empty version or concept"
  else
    for_each
      (fun _ '(l, r) =>
         if negb (bt_contains_key l (sn_concepts registry))
            || negb (bt_contains_key r (sn_concepts registry))
         then invalid "semantic edge refers to an unknown concept"
         else Ok tt)
      tt (map fst (sn_synonyms registry) ++ map fst (sn_is_a registry)).

Definition hash_frame (bs : list Z) : list Z := u64_be (len bs) ++ bs.

(** The resources of a digest, by identifier. *)
Definition digest_resource (source_id : SourceId)
    (by_id : list (ResourceId * CompiledResourceProjection)) (p : CompiledResourceProjection)
    : SResult (list (ResourceId * CompiledResourceProjection)) :=
  if pm_source_id (rp_manifest p) != source_id
  then invalid "projection source does not match digest source"
  else
    let? p := canonical_projection p in
    if bt_contains_key (dp_resource_ref (rp_directory p)) by_id
    then invalid "duplicate resource in projection digest"
    else Ok (bt_insert (dp_resource_ref (rp_directory p)) p by_id).

Definition resource_frame (e : ResourceId * CompiledResourceProjection) : SResult (list Z) :=
  let? bs :=
    map_err (fun e => Failed (OperationFailed ("projection serialization failed: " ++ e)%string))
      (projection_json (projection_body (snd e))) in
  Ok (uuid_bytes (fst e) ++ hash_frame bs).

(** The bytes that are hashed. *)
Definition digest_input (source_id : SourceId) (resources : list CompiledResourceProjection)
    (registry : SemanticRegistrySnapshot) : SResult (list Z) :=
  try? validate_registry registry in
  let? by_id := for_each (digest_resource source_id) [] resources in
  let? registry_bytes :=
    map_err
      (fun e => Failed (OperationFailed ("semantic registry serialization failed: " ++ e)%string))
      (registry_json (canonical_registry registry)) in
  let? frames := try_map resource_frame by_id in
  Ok (bytes "search-projection-memory:v1" ++ [10] ++ uuid_bytes source_id
      ++ hash_frame registry_bytes ++ concat frames).

Context {D : Digest}.

Definition generation_digest (source_id : SourceId) (resources : list CompiledResourceProjection)
    (registry : SemanticRegistrySnapshot) : SResult string :=
  let? input := digest_input source_id resources registry in
  Ok ("sha256:" ++ lower_hex (vec_to_list (sha256 (ascii_bytes input))))%string.
End Canonical.

(** ** The state *)

Inductive Phase : Type := PBuilding | PValidated | PCurrent | PRetired | PFailed.
#[global] Instance Phase_eq_dec : EqDecision Phase.
Proof. solve_decision. Defined.

Definition is_published (p : Phase) : bool :=
  match p with PCurrent | PRetired => true | _ => false end.

Record Segment : Type := {
  sg_manifest : ProjectionGenerationManifest;
  sg_phase : Phase;
  sg_resources : list (ResourceId * CompiledResourceProjection);
  sg_registry : option SemanticRegistrySnapshot;
  sg_staged_ids : list (ResourceId * unit);
  sg_retired_ids : list (ResourceId * unit)
}.

Definition set_phase (s : Segment) (phase : Phase) : Segment := {|
  sg_manifest := sg_manifest s; sg_phase := phase; sg_resources := sg_resources s;
  sg_registry := sg_registry s; sg_staged_ids := sg_staged_ids s;
  sg_retired_ids := sg_retired_ids s
|}.

Record SourceState : Type := {
  so_generations : list (ProjectionGenerationId * Segment);
  so_current : option ProjectionGenerationId
}.

Definition SourceState_default : SourceState := {| so_generations := []; so_current := None |}.

(** [BTreeMap<SourceId, SourceState>]. *)
Definition StoreState : Type := list (SourceId * SourceState).

Record MemoryProjectionStore : Type := { ms_state : StoreState; ms_poisoned : bool }.

Definition MemoryProjectionStore_new : MemoryProjectionStore :=
  {| ms_state := []; ms_poisoned := false |}.

(** A method that takes the write lock: a panic poisons it. *)
Definition write {A} (self : MemoryProjectionStore) (body : StoreState -> StoreState * SResult A)
    : MemoryProjectionStore * SResult A :=
  if ms_poisoned self then (self, invalid "projection store lock poisoned")
  else
    let '(state, result) := body (ms_state self) in
    ({| ms_state := state;
        ms_poisoned := match result with Err (Panicked _) => true | _ => false end |}, result).

Definition read {A} (self : MemoryProjectionStore) (body : StoreState -> SResult A) : SResult A :=
  if ms_poisoned self then invalid "projection store lock poisoned" else body (ms_state self).

(** [state.sources.get(&key.source_id).and_then(|s| s.generations.get(&key.generation_id))]. *)
Definition segment_at (state : StoreState) (key : ProjectionGenerationKey) : option Segment :=
  match bt_get (gk_source_id key) state with
  | None => None
  | Some source => bt_get (gk_generation_id key) (so_generations source)
  end.

(** Assigning through the two [get_mut]s. *)
Definition put_segment (state : StoreState) (key : ProjectionGenerationKey) (segment : Segment)
    : StoreState :=
  match bt_get (gk_source_id key) state with
  | None => state
  | Some source =>
      bt_insert (gk_source_id key)
        {| so_generations := bt_insert (gk_generation_id key) segment (so_generations source);
           so_current := so_current source |} state
  end.

Definition published (state : StoreState) (key : ProjectionGenerationKey) : SResult Segment :=
  match segment_at state key with
  | None => invalid "unknown projection generation"
  | Some segment =>
      if negb (is_published (sg_phase segment))
      then invalid "projection generation is not published"
      else Ok segment
  end.

(** ** Operations *)

Section Store.
Context {J : ProjectionJson} {D : Digest}.

(** The loop over the relations of one resource of a segment: the identifiers seen in this
    resource, and every relation seen so far. *)
Definition check_relation (retired : list (ResourceId * unit)) (id : ResourceId)
    (s : list (RelationId * unit) * list (RelationId * TypedRelationInstance))
    (relation : TypedRelationInstance)
    : SResult (list (RelationId * unit) * list (RelationId * TypedRelationInstance)) :=
  let '(local_relations, all_relations) := s in
  let rid := ri_relation_id relation in
  if existsb (fun p => bt_contains_key (pt_resource_ref p) retired) (ri_participants relation)
  then invalid "projection relation references retired resource"
  else if is_err (relation_validate relation)
          || negb (existsb (fun p => pt_resource_ref p == id) (ri_participants relation))
          || bt_contains_key rid local_relations
  then invalid "invalid or duplicate projection relation"
  else
    let next := (bt_insert rid tt local_relations, bt_insert rid relation all_relations) in
    match bt_get rid all_relations with
    | None => Ok next
    | Some existing =>
        let? existing := stored_relation existing in
        let? relation := stored_relation relation in
        if existing != relation then invalid "relation ID has conflicting definitions"
        else Ok next
    end.

Definition check_resource (segment : Segment)
    (all_relations : list (RelationId * TypedRelationInstance))
    (entry : ResourceId * CompiledResourceProjection)
    : SResult (list (RelationId * TypedRelationInstance)) :=
  let '(id, p) := entry in
  if (rp_manifest p != sg_manifest segment)
     || (dp_resource_ref (rp_directory p) != id)
     || (sp_resource_ref (rp_structured p) != id)
     || (tp_resource_ref (rp_temporal p) != id)
     || (ap_resource_ref (rp_access p) != id)
  then invalid "projection resource identity or manifest mismatch"
  else if negb (persistent (rp_retention_mode p))
  then invalid "projection retention mode forbids persistent state"
  else
    let? s :=
      for_each (check_relation (sg_retired_ids segment) id) ([], all_relations) (rp_relations p) in
    Ok (snd s).

Definition validate_segment (segment : Segment) : SResult unit :=
  let manifest := sg_manifest segment in
  if len (sg_resources segment) != pm_resource_count manifest
  then invalid "projection resource count does not match manifest"
  else
    match sg_registry segment with
    | None => invalid "semantic registry was not staged"
    | Some registry =>
        try? validate_registry registry in
        if sn_version registry != pm_semantic_registry_version manifest
        then invalid "semantic registry version does not match manifest"
        else
          let? all_relations := for_each (check_resource segment) [] (sg_resources segment) in
          if is_some_and (pm_relation_count manifest) (fun count => count != len all_relations)
          then invalid "projection relation count does not match manifest"
          else
            let? actual_digest :=
              generation_digest (pm_source_id manifest) (map snd (sg_resources segment)) registry in
            if actual_digest != pm_digest manifest
            then invalid "projection digest does not match manifest"
            else Ok tt
    end.

Definition base_compatible (base next : ProjectionGenerationManifest) : bool :=
  (pm_source_id base == pm_source_id next)
  && (pm_projection_schema_version base == pm_projection_schema_version next)
  && (pm_lens_version base == pm_lens_version next)
  && (pm_semantic_registry_version base == pm_semantic_registry_version next)
  && (pm_analyzer_version base == pm_analyzer_version next)
  && (pm_embedding_model_version base == pm_embedding_model_version next)
  && (pm_graph_schema_version base == pm_graph_schema_version next)
  && (pm_coverage base == pm_coverage next).

Definition with_generations (source : SourceState)
    (generations : list (ProjectionGenerationId * Segment)) : SourceState :=
  {| so_generations := generations; so_current := so_current source |}.

Definition begin_generation (self : MemoryProjectionStore) (input : PersistableGenerationManifest)
    : MemoryProjectionStore * SResult unit :=
  write self (fun state =>
    let source := unwrap_or SourceState_default (bt_get (pm_source_id input) state) in
    (** [entry(..).or_default()]. *)
    let state := bt_insert (pm_source_id input) source state in
    if bt_contains_key (pm_generation_id input) (so_generations source)
    then (state, invalid "projection generation already exists")
    else
      let segment := {| sg_manifest := input; sg_phase := PBuilding; sg_resources := [];
                        sg_registry := None; sg_staged_ids := []; sg_retired_ids := [] |} in
      (bt_insert (pm_source_id input)
         (with_generations source
            (bt_insert (pm_generation_id input) segment (so_generations source))) state,
       Ok tt)).

(** [projection.manifest = manifest.clone()]. *)
Definition with_manifest (manifest : ProjectionGenerationManifest) (p : CompiledResourceProjection)
    : CompiledResourceProjection := {|
  rp_manifest := manifest; rp_retention_mode := rp_retention_mode p;
  rp_directory := rp_directory p; rp_structured := rp_structured p; rp_temporal := rp_temporal p;
  rp_access := rp_access p; rp_relations := rp_relations p
|}.

(** The resources an incremental generation starts from. *)
Definition carried (manifest : ProjectionGenerationManifest) (retired : list (ResourceId * unit))
    (resources : list (ResourceId * CompiledResourceProjection))
    : list (ResourceId * CompiledResourceProjection) :=
  map (fun '(id, p) => (id, with_manifest manifest p))
    (fold_left (fun resources id => bt_remove id resources) (map fst retired) resources).

Definition begin_incremental_generation (self : MemoryProjectionStore)
    (input : PersistableGenerationManifest) (base : ProjectionGenerationKey)
    (retired : list (ResourceId * unit)) : MemoryProjectionStore * SResult unit :=
  if gk_source_id base != pm_source_id input
  then (self, invalid "incremental base belongs to another source")
  else
    write self (fun state =>
      match bt_get (pm_source_id input) state with
      | None => (state, invalid "incremental base source is unknown")
      | Some source =>
          if bt_contains_key (pm_generation_id input) (so_generations source)
          then (state, invalid "projection generation already exists")
          else
            match bt_get (gk_generation_id base) (so_generations source) with
            | None => (state, invalid "incremental base generation is unknown")
            | Some base_segment =>
                if negb (is_published (sg_phase base_segment))
                   || negb (base_compatible (sg_manifest base_segment) input)
                then (state, invalid "incremental base is not published or version-compatible")
                else if negb (forallb (fun id => bt_contains_key id (sg_resources base_segment))
                                (map fst retired))
                then (state, invalid "retired resource is absent from incremental base")
                else
                  let segment := {|
                    sg_manifest := input; sg_phase := PBuilding;
                    sg_resources := carried input retired (sg_resources base_segment);
                    sg_registry := sg_registry base_segment; sg_staged_ids := [];
                    sg_retired_ids := retired |} in
                  (bt_insert (pm_source_id input)
                     (with_generations source
                        (bt_insert (pm_generation_id input) segment (so_generations source)))
                     state, Ok tt)
            end
      end).

Definition stage_resource (self : MemoryProjectionStore) (input : PersistableResourceProjection)
    : MemoryProjectionStore * SResult unit :=
  match canonical_projection input with
  | Err e => (self, Err e)
  | Ok p =>
      let key := manifest_key (rp_manifest p) in
      let id := dp_resource_ref (rp_directory p) in
      write self (fun state =>
        match segment_at state key with
        | None => (state, invalid "unknown projection generation")
        | Some segment =>
            if sg_phase segment != PBuilding then (state, invalid "generation staging is frozen")
            else if rp_manifest p != sg_manifest segment
            then (state, invalid "projection manifest mismatch")
            else if bt_contains_key id (sg_retired_ids segment)
            then (state, invalid "retired resource cannot be restaged")
            else if (sp_resource_ref (rp_structured p) != id)
                    || (tp_resource_ref (rp_temporal p) != id)
                    || (ap_resource_ref (rp_access p) != id)
            then (state, invalid "projection resource identity mismatch")
            else if negb (persistent (rp_retention_mode p))
            then (state, invalid "projection retention mode forbids persistent state")
            else if bt_contains_key id (sg_staged_ids segment)
            then (state, invalid "resource was staged twice")
            else
              (put_segment state key {|
                 sg_manifest := sg_manifest segment; sg_phase := sg_phase segment;
                 sg_resources := bt_insert id p (sg_resources segment);
                 sg_registry := sg_registry segment;
                 sg_staged_ids := bt_insert id tt (sg_staged_ids segment);
                 sg_retired_ids := sg_retired_ids segment |}, Ok tt)
        end)
  end.

Definition stage_concept_registry (self : MemoryProjectionStore) (key : ProjectionGenerationKey)
    (registry : SemanticRegistrySnapshot) : MemoryProjectionStore * SResult unit :=
  match validate_registry registry with
  | Err e => (self, Err e)
  | Ok _ =>
      let registry := canonical_registry registry in
      write self (fun state =>
        match bt_get (gk_source_id key) state with
        | None => (state, invalid "unknown projection source")
        | Some source =>
            match bt_get (gk_generation_id key) (so_generations source) with
            | None => (state, invalid "unknown projection generation")
            | Some segment =>
                if sg_phase segment != PBuilding then (state, invalid "generation staging is frozen")
                else if sn_version registry != pm_semantic_registry_version (sg_manifest segment)
                then (state, invalid "semantic registry version mismatch")
                else if is_some (sg_registry segment)
                then (state, invalid "semantic registry already staged or inherited")
                else if existsb
                          (fun existing =>
                             (sg_phase existing != PFailed)
                             && is_some_and (sg_registry existing)
                                  (fun staged => (sn_version staged == sn_version registry)
                                                 && (staged != registry)))
                          (map snd (so_generations source))
                then (state, invalid "semantic registry version has different contents")
                else
                  (put_segment state key {|
                     sg_manifest := sg_manifest segment; sg_phase := sg_phase segment;
                     sg_resources := sg_resources segment; sg_registry := Some registry;
                     sg_staged_ids := sg_staged_ids segment;
                     sg_retired_ids := sg_retired_ids segment |}, Ok tt)
            end
        end)
  end.

Definition validate_generation (self : MemoryProjectionStore) (key : ProjectionGenerationKey)
    : MemoryProjectionStore * SResult unit :=
  write self (fun state =>
    match segment_at state key with
    | None => (state, invalid "unknown projection generation")
    | Some segment =>
        if sg_phase segment != PBuilding
        then (state, invalid "only building generations can be validated")
        else
          match validate_segment segment with
          | Ok _ => (put_segment state key (set_phase segment PValidated), Ok tt)
          | Err error => (put_segment state key (set_phase segment PFailed), Err error)
          end
    end).

(** The switch of the current pointer, shared by both ways to publish.  After a panic the lock
    is poisoned and the state is not read again. *)
Definition publish_in (source : SourceState) (id : ProjectionGenerationId) : SResult SourceState :=
  if option_map sg_phase (bt_get id (so_generations source)) != Some PValidated
  then invalid "generation is not validated"
  else
    let? generations :=
      match so_current source with
      | None => Ok (so_generations source)
      | Some previous =>
          let? segment :=
            ok_or (bt_get previous (so_generations source))
              (Panicked "current generation must exist") in
          Ok (bt_insert previous (set_phase segment PRetired) (so_generations source))
      end in
    let? segment :=
      ok_or (bt_get id generations) (Panicked "validated generation must exist") in
    Ok {| so_generations := bt_insert id (set_phase segment PCurrent) generations;
          so_current := Some id |}.

Definition publish_generation (self : MemoryProjectionStore) (key : ProjectionGenerationKey)
    : MemoryProjectionStore * SResult unit :=
  write self (fun state =>
    match bt_get (gk_source_id key) state with
    | None => (state, invalid "unknown projection source")
    | Some source =>
        match publish_in source (gk_generation_id key) with
        | Ok source => (bt_insert (gk_source_id key) source state, Ok tt)
        | Err e => (state, Err e)
        end
    end).

Definition publish_generation_if_current (self : MemoryProjectionStore)
    (key : ProjectionGenerationKey) (expected_current : option ProjectionGenerationKey)
    : MemoryProjectionStore * SResult bool :=
  if is_some_and expected_current (fun expected => gk_source_id expected != gk_source_id key)
  then (self, invalid "expected current belongs to another source")
  else
    write self (fun state =>
      match bt_get (gk_source_id key) state with
      | None => (state, invalid "unknown projection source")
      | Some source =>
          if so_current source != option_map gk_generation_id expected_current
          then (state, Ok false)
          else
            match publish_in source (gk_generation_id key) with
            | Ok source => (bt_insert (gk_source_id key) source state, Ok true)
            | Err e => (state, Err e)
            end
      end).

Definition fail_generation (self : MemoryProjectionStore) (key : ProjectionGenerationKey)
    : MemoryProjectionStore * SResult unit :=
  write self (fun state =>
    match segment_at state key with
    | None => (state, invalid "unknown projection generation")
    | Some segment =>
        match sg_phase segment with
        | PBuilding | PValidated => (put_segment state key (set_phase segment PFailed), Ok tt)
        | _ => (state, invalid "published or failed generation cannot be failed")
        end
    end).

Definition discard_unpublished_generation (self : MemoryProjectionStore)
    (key : ProjectionGenerationKey) : MemoryProjectionStore * SResult bool :=
  write self (fun state =>
    match bt_get (gk_source_id key) state with
    | None => (state, Ok false)
    | Some source =>
        match bt_get (gk_generation_id key) (so_generations source) with
        | None => (state, Ok false)
        | Some segment =>
            if is_published (sg_phase segment) || (so_current source == Some (gk_generation_id key))
            then (state, invalid "published projection generation cannot be discarded")
            else
              let generations := bt_remove (gk_generation_id key) (so_generations source) in
              (if is_empty generations then bt_remove (gk_source_id key) state
               else bt_insert (gk_source_id key) (with_generations source generations) state,
               Ok true)
        end
    end).

(** ** Reads *)

Definition store_pin_current (self : MemoryProjectionStore) (source_id : SourceId)
    : SResult (option ProjectionGenerationManifest) :=
  read self (fun state =>
    Ok match bt_get source_id state with
       | None => None
       | Some source =>
           match so_current source with
           | None => None
           | Some id => option_map sg_manifest (bt_get id (so_generations source))
           end
       end).

Definition resource_at (self : MemoryProjectionStore) (key : ProjectionGenerationKey)
    (resource_id : ResourceId) : SResult (option CompiledResourceProjection) :=
  read self (fun state =>
    let? segment := published state key in
    Ok (bt_get resource_id (sg_resources segment))).

Definition assertions_for (self : MemoryProjectionStore) (generation : ProjectionGenerationKey)
    (resource_ref : ResourceId) (predicate : string) : SResult (list Assertion) :=
  read self (fun state =>
    let? segment := published state generation in
    Ok match bt_get resource_ref (sg_resources segment) with
       | None => []
       | Some resource =>
           List.filter (fun a => as_predicate a == predicate)
             (sp_assertions (rp_structured resource))
       end).

(** The stack of concepts to visit has its top at the head; a concept is pushed once. *)
Definition visit_concept (s : list (string * unit) * list string) (next : string)
    : list (string * unit) * list string :=
  let '(visited, frontier) := s in
  if bt_contains_key next visited then s else (bt_insert next tt visited, next :: frontier).

Definition visit_synonym (node : string) (s : list (string * unit) * list string)
    (edge : string * string) : list (string * unit) * list string :=
  let '(l, r) := edge in
  if l == node then visit_concept s r else if r == node then visit_concept s l else s.

Definition visit_parent (node : string) (s : list (string * unit) * list string)
    (edge : string * string) : list (string * unit) * list string :=
  let '(child, parent) := edge in if child == node then visit_concept s parent else s.

(** The concepts a visit of [node] adds. *)
Definition visit_neighbours (registry : SemanticRegistrySnapshot) (hierarchy : bool) (node : string)
    (s : list (string * unit) * list string) : list (string * unit) * list string :=
  let s := fold_left (visit_synonym node) (map fst (sn_synonyms registry)) s in
  if hierarchy then fold_left (visit_parent node) (map fst (sn_is_a registry)) s else s.

Fixpoint reach_loop (fuel : nat) (registry : SemanticRegistrySnapshot) (hierarchy : bool)
    (target : string) (s : list (string * unit) * list string) : option TruthValue :=
  match fuel, s with
  | _, (_, []) => Some TFalse
  | O, _ => None
  | S fuel, (visited, node :: frontier) =>
      if node == target then Some TTrue
      else
        reach_loop fuel registry hierarchy target
          (visit_neighbours registry hierarchy node (visited, frontier))
  end.

(** Every concept but the first is the end of an edge and is popped at most once. *)
Definition reach_fuel (registry : SemanticRegistrySnapshot) : nat :=
  S (2 * length (sn_synonyms registry) + length (sn_is_a registry)).

Definition concept_reachable (registry : SemanticRegistrySnapshot) (start target : string)
    (hierarchy : bool) : option TruthValue :=
  if negb (bt_contains_key start (sn_concepts registry))
     || negb (bt_contains_key target (sn_concepts registry))
  then Some TUnknown
  else
    reach_loop (reach_fuel registry) registry hierarchy target (bt_insert start tt [], [start]).

(** The resolver of a pinned registry; the search always ends ([concept_search_exact]). *)
Definition PinnedRegistry (registry : SemanticRegistrySnapshot) : ConceptResolver := {|
  same_concept := fun l r => unwrap_or TError (concept_reachable registry l r false);
  is_a := fun child parent => unwrap_or TError (concept_reachable registry child parent true);
  descendant_of := fun child ancestor =>
    unwrap_or TError (concept_reachable registry child ancestor true)
|}.

Definition pin_view (self : MemoryProjectionStore) (generation : ProjectionGenerationKey)
    : SResult ConceptResolver :=
  read self (fun state =>
    let? segment := published state generation in
    match sg_registry segment with
    | None => invalid "published generation has no semantic registry"
    | Some registry => Ok (PinnedRegistry registry)
    end).

(** [ConceptRegistryPort::same_concept] and [is_a]. *)
Definition concept_at (self : MemoryProjectionStore) (generation : ProjectionGenerationKey)
    (l r : string) (hierarchy : bool) : SResult TruthValue :=
  read self (fun state =>
    let? segment := published state generation in
    match sg_registry segment with
    | None => invalid "published generation has no semantic registry"
    | Some registry => Ok (unwrap_or TError (concept_reachable registry l r hierarchy))
    end).
End Store.

(** ** retrieval.rs *)

Record StructuredFacetFilter : Type := { ff_facet : string; ff_expected : TypedValue }.

Inductive StructuredFacetOutcome : Type :=
| OutMatch | OutMismatch | OutUnknown | OutNotApplicable | OutConflict.
#[global] Instance StructuredFacetOutcome_eq_dec : EqDecision StructuredFacetOutcome.
Proof. solve_decision. Defined.

Record StructuredRetrievalHit : Type := {
  sh_candidate : FederatedCandidate;
  sh_outcomes : list StructuredFacetOutcome
}.

Definition relevant_kind (p : CompiledResourceProjection) (request : DiscoveryRequest) : bool :=
  match dp_kind (rp_directory p) with
  | KindDocument | KindFolderPlacement => false
  | kind =>
      is_empty (dn_required_resource_types (dq_need request))
      || contains (dn_required_resource_types (dq_need request)) kind
  end.

Definition facet_outcome (p : CompiledResourceProjection) (filter : StructuredFacetFilter)
    : StructuredFacetOutcome :=
  match bt_get (ff_facet filter) (sp_typed_facets (rp_structured p)) with
  | None | Some FacetUnknown => OutUnknown
  | Some FacetNotApplicable => OutNotApplicable
  | Some FacetConflict => OutConflict
  | Some (FacetKnown actual) =>
      match evaluate_eq actual (ff_expected filter) with
      | TTrue => OutMatch
      | TFalse => OutMismatch
      | TUnknown | TError => OutUnknown
      end
  end.

Section Retrieval.
Context {U : UuidText}.

Definition candidate (key : ProjectionGenerationKey) (p : CompiledResourceProjection)
    (method : string) : FederatedCandidate :=
  let id := dp_resource_ref (rp_directory p) in
  let source := uuid_display (gk_source_id key) in
  let c :=
    FederatedCandidate_new (source ++ ":" ++ uuid_display id)%string DurableResource
      (gk_source_id key) method in
  {| fc_candidate_id := fc_candidate_id c; fc_identity_class := fc_identity_class c;
     fc_resource_ref := Some id; fc_logical_resource_ref := fc_logical_resource_ref c;
     fc_source_ref := fc_source_ref c; fc_retrieval_method := fc_retrieval_method c;
     fc_locator := fc_locator c; fc_matched_signals := fc_matched_signals c;
     fc_materialization_state := fc_materialization_state c; fc_provenance := fc_provenance c;
     fc_retrieval_trace_ref :=
       Some (source ++ ":" ++ uuid_display (gk_generation_id key))%string |}.

Definition retrieve_directory (self : MemoryProjectionStore) (generation : ProjectionGenerationKey)
    (request : DiscoveryRequest) : SResult (list FederatedCandidate) :=
  read self (fun state =>
    let? segment := published state generation in
    Ok (map (fun p => candidate generation p "directory")
          (List.filter (fun p => relevant_kind p request) (map snd (sg_resources segment))))).

Definition retrieve_structured (self : MemoryProjectionStore)
    (generation : ProjectionGenerationKey) (request : DiscoveryRequest)
    (hard_filters : list StructuredFacetFilter) : SResult (list StructuredRetrievalHit) :=
  read self (fun state =>
    let? segment := published state generation in
    Ok (map (fun p => {| sh_candidate := candidate generation p "structured";
                         sh_outcomes := map (facet_outcome p) hard_filters |})
          (List.filter (fun p => relevant_kind p request) (map snd (sg_resources segment))))).
End Retrieval.
