(* ===== verification/SearchStoreTheorems.v ===== *)
(** * SearchStoreTheorems: the projection store

    The concept search of a registry decides reachability.  Every operation of the store makes
    at most one step of one source and never panics; the steps keep the invariant, what was
    published is never changed, publication against an observed pointer succeeds once, the store
    implements the publication guard of search-application, digests depend on contents only, and
    what the compiler and the remote check let through. *)
From stdpp Require Import base gmap sets list strings vector sorting relations.
From Stdlib Require Import ZArith Lia Ascii.
From S2P Require Import Prelude Text Ordered Manifest SearchValues SearchResolution.
From S2P Require Import SearchEvidence SearchGraph SearchUnits SearchProjection SearchStore.
From S2P Require Import SearchGraphBuild.
Local Open Scope Z_scope.

(** ** The concept search *)

Lemma size_list_to_set_le (l : list string) : (size (list_to_set l : gset string) <= length l)%nat.
Proof.
  induction l as [|x l IH]; cbn; [done|]. rewrite size_union_alt, size_singleton.
  assert (size (list_to_set l ∖ {[x]} : gset string) <= size (list_to_set l : gset string))%nat
    by (apply subseteq_size; set_solver). lia.
Qed.

(** One step between concepts: a synonym in either direction, or up the hierarchy. *)
Definition concept_edge (registry : SemanticRegistrySnapshot) (hierarchy : bool) (a b : string)
    : Prop :=
  (a, b) ∈ map fst (sn_synonyms registry) \/ (b, a) ∈ map fst (sn_synonyms registry) \/
  (hierarchy = true /\ (a, b) ∈ map fst (sn_is_a registry)).

Section Reach.
Context (registry : SemanticRegistrySnapshot) (hierarchy : bool).

Abbreviation edge := (concept_edge registry hierarchy).

Definition seen (visited : list (string * unit)) : gset string := list_to_set (map fst visited).

Lemma seen_contains visited x :
  bt_wf visited -> bt_contains_key x visited = true <-> x ∈ seen visited.
Proof.
  intros Hw. unfold seen, bt_contains_key. by rewrite elem_of_list_to_set, bt_keys by done.
Qed.

(** What a fold of visits does: the new concepts [new] are pushed once each. *)
Definition visits (adds : string -> Prop) (s s' : list (string * unit) * list string) : Prop :=
  bt_wf (fst s') /\ exists new,
    snd s' = new ++ snd s /\ NoDup new /\ seen (fst s') = list_to_set new ∪ seen (fst s) /\
    (forall x, x ∈ new -> adds x /\ x ∉ seen (fst s)) /\
    (forall x, adds x -> x ∈ seen (fst s')).

Lemma visit_concept_spec next s :
  bt_wf (fst s) -> visits (fun x => x = next) s (visit_concept s next).
Proof.
  destruct s as [visited frontier]. cbn [fst]. unfold visit_concept. intros Hw.
  pose proof (seen_contains visited next Hw) as Hs.
  destruct (bt_contains_key next visited) eqn:E.
  - split; [done|]. exists []. split_and!; try done; [constructor|set_solver|set_solver|].
    cbn. intros x ->. by apply Hs.
  - assert (next ∉ seen visited) as Hn by (intros Hin; apply Hs in Hin; done).
    assert (seen (bt_insert next tt visited) = {[next]} ∪ seen visited) as Hi.
    { apply set_eq. intros x. unfold seen. rewrite elem_of_union, !elem_of_list_to_set,
        bt_insert_keys, elem_of_singleton by done. done. }
    split; [by apply bt_wf_alter|]. exists [next]. cbn [fst snd]. rewrite Hi.
    split_and!; [done|apply NoDup_singleton|set_solver..].
Qed.

Lemma visits_none s : bt_wf (fst s) -> visits (fun _ => False) s s.
Proof. intros Hw. split; [done|]. exists []. split_and!; [done|constructor|set_solver..]. Qed.

Lemma visits_trans P Q s t u :
  visits P s t -> visits Q t u -> visits (fun x => P x \/ Q x) s u.
Proof.
  intros [_ (n1 & Hf1 & Hd1 & Hs1 & Ha1 & Hb1)] [Hw (n2 & Hf2 & Hd2 & Hs2 & Ha2 & Hb2)].
  split; [done|]. exists (n2 ++ n1). rewrite Hf2, Hf1, Hs2, Hs1 in *.
  split_and!; [by rewrite app_assoc| |set_solver| |set_solver].
  - apply NoDup_app. split_and!; [done| |done]. intros x Hx. apply Ha2 in Hx as [_ Hx]. set_solver.
  - intros x [Hx|Hx]%elem_of_app.
    + destruct (Ha2 x Hx). set_solver.
    + destruct (Ha1 x Hx). set_solver.
Qed.

Lemma visits_iff P Q s t : (forall x, P x <-> Q x) -> visits P s t -> visits Q s t.
Proof. intros Hi [Hw (n & ? & ? & ? & Ha & Hb)]. split; [done|]. exists n. naive_solver. Qed.

Lemma fold_visits {A} (f : list (string * unit) * list string -> A -> list (string * unit) * list
  string)
    (adds : A -> string -> Prop) l s :
  (forall s a, bt_wf (fst s) -> visits (adds a) s (f s a)) ->
  bt_wf (fst s) -> visits (fun x => exists a, a ∈ l /\ adds a x) s (fold_left f l s).
Proof.
  intros Hf. revert s. induction l as [|a l IH]; intros s Hw; cbn [fold_left].
  - eapply visits_iff; [|by apply visits_none]. set_solver.
  - pose proof (Hf s a Hw) as H1.
    eapply visits_iff; [|eapply visits_trans; [exact H1|apply IH, H1]].
    intros x. cbn. setoid_rewrite elem_of_cons. naive_solver.
Qed.

Lemma visit_neighbours_spec node s :
  bt_wf (fst s) -> visits (edge node) s (visit_neighbours registry hierarchy node s).
Proof.
  intros Hw. unfold visit_neighbours.
  assert (visits (fun x => exists e, e ∈ map fst (sn_synonyms registry) /\
                             (e = (node, x) \/ e = (x, node))) s
            (fold_left (visit_synonym node) (map fst (sn_synonyms registry)) s)) as H1.
  { apply (fold_visits _ (fun e x => e = (node, x) \/ e = (x, node))); [|done].
    intros s' [l r] Hw'. cbn. case_bool_decide as Hl; [|case_bool_decide as Hr].
    - eapply visits_iff; [|by apply visit_concept_spec]. naive_solver.
    - eapply visits_iff; [|by apply visit_concept_spec]. naive_solver.
    - eapply visits_iff; [|by apply visits_none]. naive_solver. }
  set (s1 := fold_left _ _ s) in *.
  assert (visits (fun x => (node, x) ∈ map fst (sn_synonyms registry) \/
                           (x, node) ∈ map fst (sn_synonyms registry)) s s1) as Hs1.
  { eapply visits_iff; [|exact H1]. intros x. cbn. naive_solver. }
  pose proof (proj1 Hs1) as Hw1. destruct hierarchy eqn:Eh.
  - eapply visits_iff; [|eapply visits_trans; [exact Hs1|
      apply (fold_visits (visit_parent node) (fun e x => e = (node, x)))]]; [| |done].
    + intros x. cbn. unfold concept_edge. naive_solver.
    + intros s' [c p] Hw'. cbn. case_bool_decide as Hc.
      * eapply visits_iff; [|by apply visit_concept_spec]. naive_solver.
      * eapply visits_iff; [|by apply visits_none]. naive_solver.
  - eapply visits_iff; [|exact Hs1]. intros x. unfold concept_edge. naive_solver.
Qed.

(** The concepts a search can meet. *)
Definition ends : list string :=
  flat_map (fun e => [fst e; snd e]) (map fst (sn_synonyms registry))
  ++ map snd (map fst (sn_is_a registry)).

Lemma edge_ends a b : edge a b -> b ∈ ends.
Proof.
  unfold ends. rewrite elem_of_app. intros [H|[H|[_ H]]].
  - left. apply list_elem_of_In, in_flat_map. exists (a, b). split; [by apply list_elem_of_In|].
    cbn. auto.
  - left. apply list_elem_of_In, in_flat_map. exists (b, a). split; [by apply list_elem_of_In|].
    cbn. auto.
  - right. apply list_elem_of_fmap. by exists (a, b).
Qed.

Context (start target : string).

(** What holds of the loop: everything seen is reachable and may be met, and an edge from a
    concept that has left the stack leads to one that was seen; [target] has not left it. *)
Record reach_inv (s : list (string * unit) * list string) : Prop := {
  ri_wf : bt_wf (fst s);
  ri_start : start ∈ seen (fst s);
  ri_stack : NoDup (snd s);
  ri_pending : forall x, x ∈ snd s -> x ∈ seen (fst s);
  ri_sound : forall x, x ∈ seen (fst s) -> rtc edge start x;
  ri_met : seen (fst s) ⊆ {[start]} ∪ list_to_set ends;
  ri_closed : forall x y, x ∈ seen (fst s) -> x ∉ snd s -> edge x y -> y ∈ seen (fst s);
  ri_target : target ∈ seen (fst s) -> target ∈ snd s
}.

Definition universe : gset string := {[start]} ∪ list_to_set ends.

Lemma reach_step visited node frontier :
  reach_inv (visited, node :: frontier) -> node <> target ->
  let s' := visit_neighbours registry hierarchy node (visited, frontier) in
  reach_inv s' /\
  (size (universe ∖ seen (fst s')) + length (snd s')
   = size (universe ∖ seen visited) + length frontier)%nat.
Proof.
  intros [Hw Hst Hnd Hp Hso Hm Hc Ht] Hne. cbn [fst snd] in *.
  destruct (visit_neighbours_spec node (visited, frontier) Hw) as [Hw' (new & Hf & Hdn & Hs & Ha &
    Hb)].
  set (s' := visit_neighbours _ _ _ _) in *. cbn [fst snd] in Hf, Hs, Ha.
  apply NoDup_cons in Hnd as [Hnf Hnd].
  assert (node ∈ seen visited) as Hnode by (apply Hp; set_solver).
  split; [split|].
  - done.
  - rewrite Hs. set_solver.
  - rewrite Hf. apply NoDup_app. split_and!; [done| |done]. intros x Hx Hx'.
    apply (proj2 (Ha x Hx)), Hp. set_solver.
  - intros x. rewrite Hf, Hs. intros [Hx|Hx]%elem_of_app; [set_solver|].
    apply elem_of_union_r, Hp. set_solver.
  - intros x. rewrite Hs. intros [Hx|Hx]%elem_of_union; [|by apply Hso].
    apply elem_of_list_to_set in Hx. apply Ha in Hx as [Hx _].
    eapply rtc_r; [by apply Hso|done].
  - rewrite Hs. intros x [Hx|Hx]%elem_of_union; [|by apply Hm].
    apply elem_of_list_to_set in Hx. apply Ha in Hx as [Hx%edge_ends _]. set_solver.
  - intros x y Hx Hx' Hxy. rewrite Hf in Hx'. rewrite Hs in Hx |- *.
    apply elem_of_union in Hx as [Hx|Hx]; [set_solver|].
    destruct (decide (x = node)) as [->|Hxn].
    + rewrite <- Hs. by apply Hb.
    + apply elem_of_union_r. eapply Hc; [exact Hx| |done]. set_solver.
  - rewrite Hs, Hf. intros [Hx|Hx]%elem_of_union; [set_solver|].
    apply Ht in Hx. set_solver.
  - rewrite Hf, Hs, length_app.
    assert (list_to_set new ⊆ universe ∖ seen visited) as Hsub.
    { intros x Hx. apply elem_of_list_to_set in Hx. apply elem_of_difference.
      destruct (Ha x Hx) as [He%edge_ends Hn]. unfold universe. set_solver. }
    assert (universe ∖ (list_to_set new ∪ seen visited)
            = (universe ∖ seen visited) ∖ list_to_set new) as -> by set_solver.
    rewrite size_difference by done. rewrite size_list_to_set by done.
    pose proof (subseteq_size _ _ Hsub) as Hz. rewrite size_list_to_set in Hz by done. lia.
Qed.

Lemma closed_reaches (S : gset string) :
  start ∈ S -> (forall x y, x ∈ S -> edge x y -> y ∈ S) -> forall x, rtc edge start x -> x ∈ S.
Proof.
  intros H0 Hc. assert (forall a x, rtc edge a x -> a ∈ S -> x ∈ S) as H.
  { induction 1; [done|]. eauto. }
  intros x Hx. by eapply H.
Qed.

Lemma reach_loop_exact fuel s :
  reach_inv s -> (size (universe ∖ seen (fst s)) + length (snd s) <= fuel)%nat ->
  (reach_loop fuel registry hierarchy target s = Some TTrue /\ rtc edge start target) \/
  (reach_loop fuel registry hierarchy target s = Some TFalse /\ ~ rtc edge start target).
Proof.
  revert s. induction fuel as [|fuel IH]; intros [visited [|node frontier]] Hi Hf;
    cbn [fst snd length] in Hf; try lia.
  1,2: right; split; [done|]; intros Hr; destruct Hi as [_ Hst _ _ _ _ Hc Ht]; cbn [fst snd] in *;
    apply not_elem_of_nil with (x := target), Ht;
    apply (closed_reaches (seen visited)); [done| |done]; intros x y Hx; apply Hc;
      [done|apply not_elem_of_nil].
  cbn [reach_loop]. case_bool_decide as He.
  - left. split; [done|]. subst node. apply (ri_sound _ Hi), (ri_pending _ Hi). set_solver.
  - destruct (reach_step visited node frontier Hi He) as [Hi' Hz]. apply IH; [done|]. lia.
Qed.
End Reach.

(** The concept search ends and decides: between two known concepts it answers true exactly
  when
    one is reached from the other over synonyms, in either direction, and, for the hierarchy,
    over parents; it answers false otherwise, and unknown only for a concept it does not know. *)
Theorem concept_search_exact registry start target hierarchy :
  (concept_reachable registry start target hierarchy = Some TUnknown /\
   (bt_get start (sn_concepts registry) = None \/ bt_get target (sn_concepts registry) = None)) \/
  (is_some (bt_get start (sn_concepts registry)) = true /\
   is_some (bt_get target (sn_concepts registry)) = true /\
   ((concept_reachable registry start target hierarchy = Some TTrue /\
     rtc (concept_edge registry hierarchy) start target) \/
    (concept_reachable registry start target hierarchy = Some TFalse /\
     ~ rtc (concept_edge registry hierarchy) start target))).
Proof.
  unfold concept_reachable, bt_contains_key.
  destruct (bt_get start (sn_concepts registry)) as [[]|]; [|left; cbn; auto].
  destruct (bt_get target (sn_concepts registry)) as [[]|]; [|left; cbn; auto].
  right. split_and!; [done..|]. cbn [is_some negb orb]. apply reach_loop_exact.
  - assert (seen [(start, tt)] = {[start]}) as Hs by (unfold seen; cbn; set_solver).
    split; cbn [fst snd bt_insert bt_alter]; rewrite ?Hs;
      [repeat constructor|set_solver|apply NoDup_singleton|set_solver|
        |set_solver|set_solver|set_solver].
    intros x ->%elem_of_singleton. constructor.
  - cbn [fst snd length bt_insert bt_alter]. unfold reach_fuel.
    assert (universe registry start ∖ seen [(start, tt)] ⊆ list_to_set (ends registry)) as Hsub
      by (unfold universe, seen; cbn; set_solver).
    apply subseteq_size in Hsub. pose proof (size_list_to_set_le (ends registry)) as Hl.
    assert (length (ends registry) = 2 * length (sn_synonyms registry) + length (sn_is_a
      registry))%nat
      as He; [|lia].
    unfold ends. rewrite length_app, !length_map. f_equal.
    induction (sn_synonyms registry) as [|e l IH]; cbn; [done|]. cbn in IH. lia.
Qed.
Local Open Scope Z_scope.

(** ** The life of a store *)

Section Life.
Context {J : ProjectionJson} {D : Digest}.

Inductive StoreOp : Type :=
| OpBegin (manifest : PersistableGenerationManifest)
| OpIncrement (manifest : PersistableGenerationManifest) (base : ProjectionGenerationKey)
    (retired : list (ResourceId * unit))
| OpStage (projection : PersistableResourceProjection)
| OpRegistry (key : ProjectionGenerationKey) (registry : SemanticRegistrySnapshot)
| OpValidate (key : ProjectionGenerationKey)
| OpPublish (key : ProjectionGenerationKey)
| OpPublishIf (key : ProjectionGenerationKey) (expected : option ProjectionGenerationKey)
| OpFail (key : ProjectionGenerationKey)
| OpDiscardUnpublished (key : ProjectionGenerationKey).

Definition store_op (self : MemoryProjectionStore) (op : StoreOp) : MemoryProjectionStore :=
  match op with
  | OpBegin manifest => fst (begin_generation self manifest)
  | OpIncrement manifest base retired =>
      fst (begin_incremental_generation self manifest base retired)
  | OpStage projection => fst (stage_resource self projection)
  | OpRegistry key registry => fst (stage_concept_registry self key registry)
  | OpValidate key => fst (validate_generation self key)
  | OpPublish key => fst (publish_generation self key)
  | OpPublishIf key expected => fst (publish_generation_if_current self key expected)
  | OpFail key => fst (fail_generation self key)
  | OpDiscardUnpublished key => fst (discard_unpublished_generation self key)
  end.

Definition store_run (ops : list StoreOp) : MemoryProjectionStore :=
  fold_left store_op ops MemoryProjectionStore_new.

Definition checked (p : Phase) : bool :=
  match p with PValidated | PCurrent | PRetired => true | _ => false end.

(** What holds of a source: generations are stored under the key of their manifest, the pointer
    names the one generation that is current, and whatever passed validation still does. *)
Record source_ok (sid : SourceId) (source : SourceState) : Prop := {
  sk_wf : bt_wf (so_generations source);
  sk_key : forall id seg, bt_get id (so_generations source) = Some seg ->
    manifest_key (sg_manifest seg) = {| gk_source_id := sid; gk_generation_id := id |};
  sk_current : forall id, so_current source = Some id <->
    exists seg, bt_get id (so_generations source) = Some seg /\ sg_phase seg = PCurrent;
  sk_checked : forall id seg, bt_get id (so_generations source) = Some seg ->
    checked (sg_phase seg) = true -> validate_segment seg = Ok tt
}.

Definition source_opt_ok (sid : SourceId) (o : option SourceState) : Prop :=
  match o with Some source => source_ok sid source | None => True end.

Definition store_ok (state : StoreState) : Prop :=
  bt_wf state /\ forall sid, source_opt_ok sid (bt_get sid state).

(** What an operation may do to a source. *)
Inductive source_step (sid : SourceId) : option SourceState -> option SourceState -> Prop :=
| ss_begin o source id seg :
    o = Some source \/ (o = None /\ source = SourceState_default) ->
    bt_get id (so_generations source) = None ->
    manifest_key (sg_manifest seg) = {| gk_source_id := sid; gk_generation_id := id |} ->
    sg_phase seg = PBuilding ->
    source_step sid o
      (Some (with_generations source (bt_insert id seg (so_generations source))))
| ss_edit source id seg seg' :
    bt_get id (so_generations source) = Some seg -> sg_phase seg = PBuilding ->
    sg_phase seg' = PBuilding -> sg_manifest seg' = sg_manifest seg ->
    source_step sid (Some source)
      (Some (with_generations source (bt_insert id seg' (so_generations source))))
| ss_validate source id seg :
    bt_get id (so_generations source) = Some seg -> sg_phase seg = PBuilding ->
    validate_segment seg = Ok tt ->
    source_step sid (Some source)
      (Some (with_generations source
               (bt_insert id (set_phase seg PValidated) (so_generations source))))
| ss_fail source id seg :
    bt_get id (so_generations source) = Some seg ->
    sg_phase seg = PBuilding \/ sg_phase seg = PValidated ->
    source_step sid (Some source)
      (Some (with_generations source (bt_insert id (set_phase seg PFailed) (so_generations
        source))))
| ss_publish source source' id :
    publish_in source id = Ok source' -> source_step sid (Some source) (Some source')
| ss_discard source id seg :
    bt_get id (so_generations source) = Some seg -> is_published (sg_phase seg) = false ->
    source_step sid (Some source)
      (if is_empty (bt_remove id (so_generations source)) then None
       else Some (with_generations source (bt_remove id (so_generations source)))).

Lemma validate_segment_phase seg p : validate_segment (set_phase seg p) = validate_segment seg.
Proof. reflexivity. Qed.

(** Publishing in a source that keeps its invariant: the validated generation becomes current
    and the previous one, another one, is retired; the [expect]s hold. *)
Definition switched (source : SourceState) (id : ProjectionGenerationId) (seg : Segment)
    : SourceState :=
  {| so_generations :=
       bt_insert id (set_phase seg PCurrent)
         (match so_current source with
          | None => so_generations source
          | Some previous =>
              match bt_get previous (so_generations source) with
              | None => so_generations source
              | Some old => bt_insert previous (set_phase old PRetired) (so_generations source)
              end
          end);
     so_current := Some id |}.

Lemma publish_in_spec sid source id :
  source_ok sid source ->
  match bt_get id (so_generations source) with
  | Some seg =>
      if sg_phase seg == PValidated then publish_in source id = Ok (switched source id seg)
      else publish_in source id = invalid "generation is not validated"
  | None => publish_in source id = invalid "generation is not validated"
  end.
Proof.
  intros [Hw _ Hc _]. unfold publish_in, switched.
  destruct (bt_get id (so_generations source)) as [seg|] eqn:E; cbn [option_map];
    [|by rewrite bool_decide_eq_false_2].
  case_bool_decide as Hp; [|by rewrite bool_decide_eq_false_2 by congruence].
  rewrite bool_decide_eq_true_2 by congruence. cbn [negb].
  destruct (so_current source) as [previous|] eqn:Ec; cbn; [|by rewrite E].
  destruct (proj1 (Hc previous) eq_refl) as (old & Ho & Hph). rewrite Ho. cbn.
  rewrite bt_get_insert by done. rewrite decide_False by (intros ->; congruence).
  by rewrite E.
Qed.

(** Nothing that a method computes panics but the [expect]s of publication. *)
Lemma no_panic_try_map {A B} (f : A -> SResult B) l :
  (forall a, no_panic (f a)) -> no_panic (try_map f l).
Proof.
  intros Hf. induction l as [|a l IH]; cbn [try_map]; [done|]. apply no_panic_bind; [done|].
  intros b _. by apply no_panic_bind.
Qed.

Lemma no_panic_err {A B} e : no_panic (Err e : SResult A) -> no_panic (Err e : SResult B).
Proof. intros H message [= ->]. by apply (H message). Qed.

Lemma no_panic_failed {A} (f : string -> SearchError) (r : Result A string) :
  no_panic (map_err (fun e => Failed (f e)) r).
Proof. by destruct r. Qed.

#[local] Create HintDb nopanic.
Ltac no_panic :=
  repeat first
    [ done
    | solve [auto with nopanic]
    | apply no_panic_failed
    | apply no_panic_bind; [|intros]
    | apply no_panic_try_map; intros
    | apply no_panic_for_each; intros
    | case_match ].

Lemma sort_by_text_no_panic {A} (text : A -> Result (list Z) string) what values :
  no_panic (sort_by_text text what values).
Proof. unfold sort_by_text. no_panic. Qed.
#[local] Hint Resolve sort_by_text_no_panic : nopanic.

Lemma canonical_typed_value_no_panic value : no_panic (canonical_typed_value value).
Proof.
  revert value. fix IH 1. intros [| | | | | | | | |items|items| |]; cbn; try done.
  - apply no_panic_bind; [|done].
    induction items as [|v items IHi]; cbn; [done|]. apply no_panic_bind; [apply IH|intros].
    by apply no_panic_bind.
  - apply no_panic_bind; [|intros; by apply no_panic_bind; [apply sort_by_text_no_panic|]].
    induction items as [|v items IHi]; cbn; [done|]. apply no_panic_bind; [apply IH|intros].
    by apply no_panic_bind.
Qed.
#[local] Hint Resolve canonical_typed_value_no_panic : nopanic.

Lemma stored_relation_no_panic r : no_panic (stored_relation r).
Proof. unfold stored_relation, map_values. no_panic. Qed.
#[local] Hint Resolve stored_relation_no_panic : nopanic.

Lemma canonical_projection_no_panic p : no_panic (canonical_projection p).
Proof.
  unfold canonical_projection, map_values, canonical_facet, canonical_assertion,
    canonical_resolution.
  no_panic.
Qed.
#[local] Hint Resolve canonical_projection_no_panic : nopanic.

Lemma validate_registry_no_panic registry : no_panic (validate_registry registry).
Proof. unfold validate_registry. no_panic. Qed.
#[local] Hint Resolve validate_registry_no_panic : nopanic.

Lemma validate_segment_no_panic segment : no_panic (validate_segment segment).
Proof.
  unfold validate_segment, check_resource, check_relation, generation_digest, digest_input,
    digest_resource, resource_frame.
  no_panic.
Qed.

(** ** The steps of a store *)

(** At most one source makes a step. *)
Definition stepped (state state' : StoreState) : Prop :=
  bt_wf state' /\
  (state' = state \/
   exists sid, source_step sid (bt_get sid state) (bt_get sid state') /\
     forall s, s <> sid -> bt_get s state' = bt_get s state).

(** What a body that takes the lock does in a store that keeps its invariant. *)
Definition moves {A} (state : StoreState) (r : StoreState * SResult A) : Prop :=
  stepped state (fst r) /\ no_panic (snd r).

(** The lock stays healthy and at most one source makes a step. *)
Definition runs (self self' : MemoryProjectionStore) : Prop :=
  ms_poisoned self' = false /\ stepped (ms_state self) (ms_state self').

Lemma runs_none self : bt_wf (ms_state self) -> ms_poisoned self = false -> runs self self.
Proof. intros Hw Hp. split; [done|]. split; auto. Qed.

Lemma moves_none {A} state (r : SResult A) : bt_wf state -> no_panic r -> moves state (state, r).
Proof. intros Hw Hr. split; [|done]. split; auto. Qed.

Lemma moves_insert {A} state sid source' (r : SResult A) :
  bt_wf state -> source_step sid (bt_get sid state) (Some source') -> no_panic r ->
  moves state (bt_insert sid source' state, r).
Proof.
  intros Hw Hs Hr. split; [|done]. split; [by apply bt_wf_alter|]. right. exists sid.
  cbn [fst]. rewrite bt_get_insert, decide_True by done. split; [done|]. intros s Hne.
  by rewrite bt_get_insert, decide_False.
Qed.

Lemma moves_remove {A} state sid (r : SResult A) :
  bt_wf state -> source_step sid (bt_get sid state) None -> no_panic r ->
  moves state (bt_remove sid state, r).
Proof.
  intros Hw Hs Hr. split; [|done]. split; [by apply bt_wf_remove|]. right. exists sid.
  cbn [fst]. rewrite bt_get_remove by done. split; [done|]. intros s Hne.
  by rewrite bt_get_remove_ne.
Qed.

Lemma moves_put {A} state key source seg seg' (r : SResult A) :
  bt_wf state -> bt_get (gk_source_id key) state = Some source ->
  bt_get (gk_generation_id key) (so_generations source) = Some seg ->
  source_step (gk_source_id key) (Some source)
    (Some (with_generations source (bt_insert (gk_generation_id key) seg' (so_generations
      source)))) ->
  no_panic r -> moves state (put_segment state key seg', r).
Proof.
  intros Hw Hs Hg Hst Hr. unfold put_segment. rewrite Hs. apply moves_insert; [done| |done].
  by rewrite Hs.
Qed.

Lemma segment_at_inv state key seg :
  segment_at state key = Some seg -> exists source,
    bt_get (gk_source_id key) state = Some source /\
    bt_get (gk_generation_id key) (so_generations source) = Some seg.
Proof. unfold segment_at. destruct (bt_get _ state); [eauto|done]. Qed.

Lemma write_moves {A} self (body : StoreState -> StoreState * SResult A) :
  ms_poisoned self = false -> moves (ms_state self) (body (ms_state self)) ->
  runs self (fst (write self body)).
Proof.
  intros Hp [Hs Hn]. unfold write. rewrite Hp. destruct (body (ms_state self)) as [state r].
  cbn in *. split; [|done]. destruct r as [|[]]; [done..|]. by destruct (Hn message).
Qed.

(** Publishing in a source that keeps its invariant does not panic. *)
Lemma publish_in_no_panic sid source id : source_ok sid source -> no_panic (publish_in source id).
Proof.
  intros H. pose proof (publish_in_spec sid source id H) as Hp.
  destruct (bt_get id _) as [seg|]; [case_bool_decide|]; by rewrite Hp.
Qed.

Lemma begin_moves self input :
  store_ok (ms_state self) -> ms_poisoned self = false ->
  runs self (fst (begin_generation self input)).
Proof.
  intros [Hw Hk] Hp. apply write_moves; [done|]. set (sid := pm_source_id input).
  destruct (bt_get sid (ms_state self)) as [source|] eqn:E; cbn [unwrap_or].
  - rewrite (bt_insert_same sid source) by done. case_match; [by apply moves_none|].
    apply moves_insert; [done| |done]. rewrite E. apply ss_begin; [by left| |done|done].
    unfold bt_contains_key in *. by destruct (bt_get _ (so_generations source)).
  - cbn [so_generations SourceState_default bt_contains_key bt_get is_some].
    assert (forall v w, bt_insert sid w (bt_insert sid v (ms_state self))
                        = bt_insert sid w (ms_state self)) as Hii.
    { intros v w. apply bt_ext; [by repeat apply bt_wf_alter..|]. intros k.
      rewrite !bt_get_insert by (repeat apply bt_wf_alter; done). by destruct (decide _). }
    rewrite Hii. apply moves_insert; [done| |done]. rewrite E. by apply ss_begin; [right| | |].
Qed.

Lemma increment_moves self input base retired :
  store_ok (ms_state self) -> ms_poisoned self = false ->
  runs self (fst (begin_incremental_generation self input base retired)).
Proof.
  intros [Hw Hk] Hp. unfold begin_incremental_generation.
  case_match; [by apply runs_none|]. apply write_moves; [done|].
  destruct (bt_get _ (ms_state self)) as [source|] eqn:E; [|by apply moves_none].
  destruct (bt_contains_key _ _) eqn:Ec; [by apply moves_none|].
  destruct (bt_get (gk_generation_id base) _); [|by apply moves_none].
  do 2 (case_match; [by apply moves_none|]).
  apply moves_insert; [done| |done]. rewrite E. apply ss_begin; [by left| |done|done].
  unfold bt_contains_key in Ec. by destruct (bt_get (pm_generation_id input) _).
Qed.

Lemma stage_moves self input :
  store_ok (ms_state self) -> ms_poisoned self = false ->
  runs self (fst (stage_resource self input)).
Proof.
  intros [Hw Hk] Hp. unfold stage_resource.
  destruct (canonical_projection input) as [p|]; [|by apply runs_none].
  apply write_moves; [done|]. destruct (segment_at _ _) as [seg|] eqn:E; [|by apply moves_none].
  case_bool_decide as Hb; cbn [negb]; [|by apply moves_none].
  do 5 (case_match; [by apply moves_none|]).
  destruct (segment_at_inv _ _ _ E) as (source & Hs & Hg).
  eapply moves_put; [done..| |done]. by eapply ss_edit.
Qed.

Lemma registry_moves self key registry :
  store_ok (ms_state self) -> ms_poisoned self = false ->
  runs self (fst (stage_concept_registry self key registry)).
Proof.
  intros [Hw Hk] Hp. unfold stage_concept_registry.
  destruct (validate_registry registry); [|by apply runs_none].
  apply write_moves; [done|].
  destruct (bt_get _ (ms_state self)) as [source|] eqn:Hs; [|by apply moves_none].
  destruct (bt_get _ (so_generations source)) as [seg|] eqn:Hg; [|by apply moves_none].
  case_bool_decide as Hb; cbn [negb]; [|by apply moves_none].
  do 3 (case_match; [by apply moves_none|]).
  eapply moves_put; [done..| |done]. by eapply ss_edit.
Qed.

Lemma validate_moves self key :
  store_ok (ms_state self) -> ms_poisoned self = false ->
  runs self (fst (validate_generation self key)).
Proof.
  intros [Hw Hk] Hp. apply write_moves; [done|].
  destruct (segment_at _ _) as [seg|] eqn:E; [|by apply moves_none].
  case_bool_decide as Hb; cbn [negb]; [|by apply moves_none].
  destruct (segment_at_inv _ _ _ E) as (source & Hs & Hg).
  pose proof (validate_segment_no_panic seg) as Hn.
  destruct (validate_segment seg) as [[]|] eqn:Ev; (eapply moves_put; [done..| |done]).
  - by eapply ss_validate.
  - eapply ss_fail; eauto.
Qed.

Lemma publish_in_moves {A} state sid source id (v : A) :
  store_ok state -> bt_get sid state = Some source ->
  moves state
    match publish_in source id with
    | Ok source => (bt_insert sid source state, Ok v)
    | Err e => (state, Err e)
    end.
Proof.
  intros [Hw Hk] Hs. pose proof (Hk sid) as Hok. rewrite Hs in Hok.
  pose proof (publish_in_no_panic sid source id Hok) as Hn.
  destruct (publish_in source id) as [source'|e] eqn:Ep;
    [|by apply moves_none, (no_panic_err e Hn)].
  apply moves_insert; [done| |done]. rewrite Hs. by eapply ss_publish.
Qed.

Lemma publish_moves self key :
  store_ok (ms_state self) -> ms_poisoned self = false ->
  runs self (fst (publish_generation self key)).
Proof.
  intros Hok Hp. apply write_moves; [done|].
  destruct (bt_get _ (ms_state self)) as [source|] eqn:Hs; [|by apply moves_none; [apply Hok|]].
  by apply publish_in_moves.
Qed.

Lemma publish_if_moves self key expected :
  store_ok (ms_state self) -> ms_poisoned self = false ->
  runs self (fst (publish_generation_if_current self key expected)).
Proof.
  intros Hok Hp. unfold publish_generation_if_current.
  case_match; [by apply runs_none, Hp; apply Hok|]. apply write_moves; [done|].
  destruct (bt_get _ (ms_state self)) as [source|] eqn:Hs; [|by apply moves_none; [apply Hok|]].
  case_match; [by apply moves_none; [apply Hok|]|]. by apply publish_in_moves.
Qed.

Lemma fail_moves self key :
  store_ok (ms_state self) -> ms_poisoned self = false ->
  runs self (fst (fail_generation self key)).
Proof.
  intros [Hw Hk] Hp. apply write_moves; [done|].
  destruct (segment_at _ _) as [seg|] eqn:E; [|by apply moves_none].
  destruct (segment_at_inv _ _ _ E) as (source & Hs & Hg).
  destruct (sg_phase seg) eqn:Eph; try by apply moves_none.
  all: eapply moves_put; [done..| |done]; eapply ss_fail; eauto.
Qed.

Lemma discard_moves self key :
  store_ok (ms_state self) -> ms_poisoned self = false ->
  runs self (fst (discard_unpublished_generation self key)).
Proof.
  intros [Hw Hk] Hp. apply write_moves; [done|].
  destruct (bt_get _ (ms_state self)) as [source|] eqn:Hs; [|by apply moves_none].
  destruct (bt_get _ (so_generations source)) as [seg|] eqn:Hg; [|by apply moves_none].
  destruct (is_published (sg_phase seg)) eqn:Epub; cbn [orb]; [by apply moves_none|].
  case_match; [by apply moves_none|].
  pose proof (ss_discard (gk_source_id key) source _ _ Hg Epub) as Hd.
  destruct (is_empty _).
  - apply moves_remove; [done|by rewrite Hs|done].
  - apply moves_insert; [done|by rewrite Hs|done].
Qed.

Lemma store_op_steps self op :
  store_ok (ms_state self) -> ms_poisoned self = false ->
  runs self (store_op self op).
Proof.
  intros Hok Hp. destruct op; cbn [store_op]; eauto using begin_moves, increment_moves, stage_moves,
    registry_moves, validate_moves, publish_moves, publish_if_moves, fail_moves, discard_moves.
Qed.

(** Changing one generation of a source that is neither current before nor after. *)
Lemma source_ok_insert sid source id seg :
  source_ok sid source -> so_current source <> Some id -> sg_phase seg <> PCurrent ->
  manifest_key (sg_manifest seg) = {| gk_source_id := sid; gk_generation_id := id |} ->
  (checked (sg_phase seg) = true -> validate_segment seg = Ok tt) ->
  source_ok sid (with_generations source (bt_insert id seg (so_generations source))).
Proof.
  intros [Hw Hk Hc Hv] Hcur Hp Hm Hval. split; cbn [so_generations so_current with_generations].
  - by apply bt_wf_alter.
  - intros j s. rewrite bt_get_insert by done. destruct (decide (j = id)) as [->|]; [|apply Hk].
    by intros [= <-].
  - intros j. rewrite Hc. setoid_rewrite bt_get_insert; [|done].
    destruct (decide (j = id)) as [->|]; [|done].
    split; [|by intros (s & [= <-] & ?)]. intros He. by apply Hc in He.
  - intros j s. rewrite bt_get_insert by done. destruct (decide (j = id)) as [->|]; [|apply Hv].
    by intros [= <-].
Qed.

Lemma not_current sid source id seg :
  source_ok sid source -> bt_get id (so_generations source) = Some seg -> sg_phase seg <> PCurrent
    ->
  so_current source <> Some id.
Proof. intros [_ _ Hc _] Hg Hp He. apply Hc in He as (s & ? & ?). by simplify_eq. Qed.

Lemma switched_get sid source id seg j :
  source_ok sid source -> bt_get id (so_generations source) = Some seg -> sg_phase seg = PValidated
    ->
  bt_get j (so_generations (switched source id seg))
  = if decide (j = id) then Some (set_phase seg PCurrent)
    else if decide (so_current source = Some j)
         then option_map (fun s => set_phase s PRetired) (bt_get j (so_generations source))
         else bt_get j (so_generations source).
Proof.
  intros [Hw _ Hc _] Hg Hp. unfold switched. cbn [so_generations].
  destruct (so_current source) as [previous|] eqn:Ec.
  - destruct (proj1 (Hc previous) eq_refl) as (old & Ho & Hph). rewrite Ho.
    rewrite !bt_get_insert by (try apply bt_wf_alter; done). destruct (decide (j = id)); [done|].
    destruct (decide (j = previous)) as [->|]; [rewrite decide_True by done; by rewrite Ho|].
    by rewrite decide_False by congruence.
  - rewrite bt_get_insert by done. by destruct (decide (j = id)).
Qed.

Lemma source_ok_switched sid source id seg :
  source_ok sid source -> bt_get id (so_generations source) = Some seg -> sg_phase seg = PValidated
    ->
  source_ok sid (switched source id seg).
Proof.
  intros Hok Hg Hp. pose proof Hok as [Hw Hk Hc Hv].
  assert (forall j, bt_get j (so_generations (switched source id seg)) = _) as He
    by (intros j; by apply (switched_get sid)).
  split.
  - unfold switched. cbn [so_generations]. repeat case_match; by repeat apply bt_wf_alter.
  - intros j s. rewrite He. intros Hs. destruct (decide (j = id)) as [->|].
    + injection Hs as <-. apply (Hk _ _ Hg).
    + destruct (decide (so_current source = Some j)); [|by apply Hk].
      destruct (bt_get j _) eqn:Ej; [|done]. injection Hs as <-. apply (Hk _ _ Ej).
  - intros j. rewrite He. cbn [so_current switched]. split.
    + intros [= <-]. rewrite decide_True by done. by eexists.
    + destruct (decide (j = id)) as [->|]; [done|]. intros H.
      destruct (decide (so_current source = Some j)) as [|Hn].
      * destruct H as (s & Hs & ?). destruct (bt_get j _); by simplify_eq/=.
      * by apply Hc in H.
  - intros j s. rewrite He. intros Hs Hch. destruct (decide (j = id)) as [->|].
    + injection Hs as <-. rewrite validate_segment_phase. apply (Hv _ _ Hg). by rewrite Hp.
    + destruct (decide (so_current source = Some j)) as [Hj|]; [|by apply (Hv j)].
      apply Hc in Hj as (old & Ho & Hph). rewrite Ho in Hs. simplify_eq/=.
      rewrite validate_segment_phase. apply (Hv j); [done|]. by rewrite Hph.
Qed.

Lemma source_ok_remove sid source id seg :
  source_ok sid source -> bt_get id (so_generations source) = Some seg -> sg_phase seg <> PCurrent
    ->
  source_ok sid (with_generations source (bt_remove id (so_generations source))).
Proof.
  intros Hok Hg Hp. pose proof (not_current _ _ _ _ Hok Hg Hp) as Hnc.
  destruct Hok as [Hw Hk Hc Hv].
  assert (forall j, bt_get j (bt_remove id (so_generations source))
                    = if decide (j = id) then None else bt_get j (so_generations source)) as He.
  { intros j. destruct (decide (j = id)) as [->|];
      [by apply bt_get_remove|by apply bt_get_remove_ne]. }
  split; cbn [so_generations so_current with_generations].
  - by apply bt_wf_remove.
  - intros j s. rewrite He. destruct (decide _); [done|apply Hk].
  - intros j. rewrite Hc, He. destruct (decide (j = id)) as [->|]; [|done].
    split; [|by intros (? & ? & _)]. intros H. by apply Hc in H.
  - intros j s. rewrite He. destruct (decide _); [done|apply Hv].
Qed.

Lemma source_step_ok sid o o' :
  source_step sid o o' -> source_opt_ok sid o -> source_opt_ok sid o'.
Proof.
  assert (source_ok sid SourceState_default) as Hd.
  { split; cbn; [constructor|done| |done]. intros id. split; [done|]. by intros (? & ? & _). }
  destruct 1 as [o source id seg Ho Hg Hm Hp|source id seg seg' Hg Hp Hp' Hm|source id seg Hg Hp Hv
                |source id seg Hg Hp|source source' id Hp|source id seg Hg Hp]; cbn; intros Hok.
  - assert (source_ok sid source) as Hs by (destruct Ho as [->|[-> ->]]; done).
    apply source_ok_insert; [done| |by rewrite Hp|done|by rewrite Hp].
    intros He. apply Hs in He as (s & ? & _). congruence.
  - apply source_ok_insert; [done|eapply not_current;
      [done..|by rewrite Hp]|by rewrite Hp'| |by rewrite Hp'].
    rewrite Hm. by apply Hok.
  - apply source_ok_insert; [done|eapply not_current;
      [done..|by rewrite Hp]|done|apply (sk_key _ _ Hok _ _ Hg)|done].
  - apply source_ok_insert; [done|eapply not_current;
      [done..|]|done|apply (sk_key _ _ Hok _ _ Hg)|done].
    destruct Hp; congruence.
  - pose proof (publish_in_spec sid source id Hok) as Hs.
    destruct (bt_get id _) as [seg|] eqn:Hg; [case_bool_decide|]; rewrite Hp in Hs; simplify_eq.
    by apply source_ok_switched.
  - destruct (is_empty _); [done|]. eapply source_ok_remove; [done..|]. intros He.
    by rewrite He in Hp.
Qed.

Lemma runs_ok self self' :
  store_ok (ms_state self) -> runs self self' -> store_ok (ms_state self').
Proof.
  intros [Hw Hk] [_ [Hw' [->|(sid & Hs & Hr)]]]; [done|]. split; [done|]. intros s.
  destruct (decide (s = sid)) as [->|Hne]; [by eapply source_step_ok|]. by rewrite Hr.
Qed.

Lemma store_run_from_ok self ops :
  store_ok (ms_state self) -> ms_poisoned self = false ->
  store_ok (ms_state (fold_left store_op ops self)) /\
  ms_poisoned (fold_left store_op ops self) = false.
Proof.
  revert self. induction ops as [|op ops IH]; intros self Hok Hp; cbn [fold_left]; [done|].
  pose proof (store_op_steps self op Hok Hp) as Hr. apply IH; [by eapply runs_ok|apply Hr].
Qed.

Lemma store_run_ok ops : store_ok (ms_state (store_run ops)) /\ ms_poisoned (store_run ops) = false.
Proof. apply store_run_from_ok; [|done]. split; [constructor|done]. Qed.

(** ** What was published stays *)

(** A step keeps a published generation but for its phase: the current one may be retired, and
    a source with a pointer keeps one. *)
Lemma source_step_published sid source o' id seg :
  source_ok sid source -> source_step sid (Some source) o' ->
  bt_get id (so_generations source) = Some seg -> is_published (sg_phase seg) = true ->
  exists source' p, o' = Some source' /\ (p = sg_phase seg \/ p = PRetired) /\
    (so_current source <> None -> so_current source' <> None) /\
    bt_get id (so_generations source') = Some (set_phase seg p).
Proof.
  intros Hok Hstep Hg Hp. pose proof (sk_wf _ _ Hok) as Hw.
  assert (set_phase seg (sg_phase seg) = seg) as Hid by (by destruct seg).
  assert (forall j s s', bt_get j (so_generations source) = Some s -> is_published (sg_phase s) =
    false ->
            bt_get id (bt_insert j s' (so_generations source)) = Some seg) as Hins.
  { intros j s s' Hj Hn. rewrite bt_get_insert by done. rewrite decide_False; [done|].
    intros ->. congruence. }
  remember (Some source) as o eqn:Eo.
  destruct Hstep as [o src new s Ho Hn Hm Hph|src new s s' Hn Hph Hph' Hm|src new s Hn Hph Hv
                    |src new s Hn Hph|src src' new Hpi|src gone s Hn Hph];
                      subst o || injection Eo as ->.
  1-4: eexists _, (sg_phase seg); rewrite Hid; split_and!; [done|by left| |].
  - destruct Ho as [[= <-]|[? _]]; done.
  - destruct Ho as [[= <-]|[? _]]; [|done]. cbn. rewrite bt_get_insert by done.
    rewrite decide_False; [done|]. intros ->; congruence.
  - done.
  - eapply Hins; [done|]. by rewrite Hph.
  - done.
  - eapply Hins; [done|]. by rewrite Hph.
  - done.
  - eapply Hins; [done|]. by destruct Hph as [-> | ->].
  - pose proof (publish_in_spec sid source new Hok) as Hs.
    destruct (bt_get new _) as [s|] eqn:Hn; [case_bool_decide as Hph|]; rewrite Hpi in Hs;
      simplify_eq.
    pose proof (switched_get sid source new s id Hok Hn Hph) as He.
    destruct (decide (id = new)) as [->|]; [exfalso; rewrite Hg in Hn; injection Hn as ->;
      by rewrite Hph in Hp|].
    destruct (decide (so_current source = Some id)).
    + exists (switched source new s), PRetired. split_and!; [done|by right|done|].
      by rewrite He, Hg.
    + exists (switched source new s), (sg_phase seg). rewrite Hid. split_and!; [done|by left|done|].
      by rewrite He.
  - assert (bt_get id (bt_remove gone (so_generations source)) = Some seg) as Hr by
      (by rewrite bt_get_remove_ne by (done || congruence)).
    destruct (is_empty _) eqn:Ee.
    + destruct (bt_remove gone _); [done|done].
    + eexists _, (sg_phase seg). rewrite Hid. split_and!; [done|by left|done|done].
Qed.

Lemma published_inv state key seg :
  published state key = Ok seg -> exists source,
    bt_get (gk_source_id key) state = Some source /\
    bt_get (gk_generation_id key) (so_generations source) = Some seg /\
    is_published (sg_phase seg) = true.
Proof.
  unfold published. destruct (segment_at state key) as [s|] eqn:E; [|done].
  destruct (segment_at_inv _ _ _ E) as (source & Hs & Hg).
  destruct (is_published (sg_phase s)) eqn:Ep; cbn; [|done]. intros [= <-]. eauto.
Qed.

Lemma runs_published self self' key seg :
  store_ok (ms_state self) -> runs self self' -> published (ms_state self) key = Ok seg ->
  exists p, published (ms_state self') key = Ok (set_phase seg p).
Proof.
  intros [Hw Hk] [_ [Hw' Hst]] Hp.
  assert (set_phase seg (sg_phase seg) = seg) as Hid by (by destruct seg).
  destruct Hst as [->|(sid & Hs & Hr)]; [exists (sg_phase seg); by rewrite Hid|].
  destruct (published_inv _ _ _ Hp) as (source & Hsrc & Hg & Hpub).
  destruct (decide (gk_source_id key = sid)) as [<-|Hne].
  - rewrite Hsrc in Hs. pose proof (Hk (gk_source_id key)) as Hok. rewrite Hsrc in Hok.
    destruct (source_step_published _ _ _ _ _ Hok Hs Hg Hpub) as (source' & p & He & Hpp & _ & Hg').
    exists p. unfold published, segment_at. rewrite He, Hg'. cbn.
    by destruct Hpp as [->| ->]; [rewrite Hpub|].
  - exists (sg_phase seg). unfold published, segment_at. by rewrite Hr, Hsrc, Hg, Hid, Hpub by done.
Qed.

Lemma run_published self more key seg :
  store_ok (ms_state self) -> ms_poisoned self = false -> published (ms_state self) key = Ok seg ->
  exists p, published (ms_state (fold_left store_op more self)) key = Ok (set_phase seg p).
Proof.
  revert self seg. induction more as [|op more IH]; intros self seg Hok Hp Hpub; cbn [fold_left].
  - exists (sg_phase seg). rewrite Hpub. by destruct seg.
  - pose proof (store_op_steps self op Hok Hp) as Hr.
    destruct (runs_published _ _ _ _ Hok Hr Hpub) as (p & Hp').
    destruct (IH _ _ (runs_ok _ _ Hok Hr) (proj1 Hr) Hp') as (q & Hq). by exists q.
Qed.

(** Whatever happens to the store later, every read of a published generation returns what it
    returned: resources, assertions, concept relations, and both retrievals; so an evaluation
    pinned to a generation sees one snapshot, while others are built, published or discarded. *)
Theorem published_immutable {U : UuidText} ops more key :
  is_err (published (ms_state (store_run ops)) key) = false ->
  let before := store_run ops in
  let after := store_run (ops ++ more) in
  (forall id, resource_at after key id = resource_at before key id) /\
  (forall id predicate, assertions_for after key id predicate = assertions_for before key id
    predicate) /\
  (forall l r h, concept_at after key l r h = concept_at before key l r h) /\
  (forall request, retrieve_directory after key request = retrieve_directory before key request) /\
  (forall request filters,
     retrieve_structured after key request filters = retrieve_structured before key request
       filters).
Proof.
  destruct (store_run_ok ops) as [Hok Hp].
  destruct (published (ms_state (store_run ops)) key) as [seg|] eqn:Hpub; [intros _|done].
  cbn zeta. unfold store_run at 1 3 5 7 9. rewrite fold_left_app. fold (store_run ops).
  destruct (run_published _ more _ _ Hok Hp Hpub) as (p & Hq).
  destruct (store_run_from_ok _ more Hok Hp) as [_ Hp'].
  unfold resource_at, assertions_for, concept_at, retrieve_directory, retrieve_structured, read.
  rewrite Hp, Hp', Hpub, Hq. done.
Qed.

(** The generation a source's pointer names can be read and passed validation: it is complete,
    its resources have the manifest's digest. *)
Theorem pinned_generation_validated ops sid manifest :
  store_pin_current (store_run ops) sid = Ok (Some manifest) ->
  exists seg registry,
    published (ms_state (store_run ops)) (manifest_key manifest) = Ok seg /\
    sg_manifest seg = manifest /\ sg_phase seg = PCurrent /\ pm_source_id manifest = sid /\
    len (sg_resources seg) = pm_resource_count manifest /\
    sg_registry seg = Some registry /\
    generation_digest sid (map snd (sg_resources seg)) registry = Ok (pm_digest manifest).
Proof.
  destruct (store_run_ok ops) as [[Hw Hk] Hp]. unfold store_pin_current, read. rewrite Hp.
  specialize (Hk sid). destruct (bt_get sid _) as [source|] eqn:Hs; [|done]. cbn in Hk.
  destruct (so_current source) as [id|] eqn:Hc; [|done].
  apply (sk_current _ _ Hk) in Hc as (seg & Hg & Hph).
  rewrite Hg. intros [= <-]. pose proof (sk_key _ _ Hk _ _ Hg) as Hm.
  assert (pm_source_id (sg_manifest seg) = sid) as Hsid by (by injection Hm).
  pose proof (sk_checked _ _ Hk _ _ Hg) as Hv. rewrite Hph in Hv. specialize (Hv eq_refl).
  unfold validate_segment in Hv. case_bool_decide as Hlen; [cbn [negb] in Hv|done].
  destruct (sg_registry seg) as [registry|] eqn:Hr; [|done]. exists seg, registry.
  destruct (validate_registry registry); [|done]. cbn [rbind] in Hv. case_match; [done|].
  destruct (for_each (check_resource seg) _ _); [|done]. cbn [rbind] in Hv. case_match; [done|].
  rewrite Hsid in Hv. destruct (generation_digest sid _ _) as [d|] eqn:Hd; [|done].
  cbn [rbind] in Hv. case_bool_decide as Heq; [|done]. subst d.
  split_and!; try done. unfold published, segment_at. rewrite Hm. cbn. rewrite Hs, Hg, Hph. done.
Qed.

(** ** Compare and publish *)

(** The pointer has moved past [expected]: it will not be observed again. *)
Definition moved_past (expected : option ProjectionGenerationId) (o : option SourceState) : Prop :=
  match o with
  | None => False
  | Some source =>
      match expected with
      | None => so_current source <> None
      | Some id => exists seg,
          bt_get id (so_generations source) = Some seg /\ sg_phase seg = PRetired
      end
  end.

Lemma moved_past_current sid expected source :
  source_ok sid source -> moved_past expected (Some source) -> so_current source <> expected.
Proof.
  intros Hok. destruct expected as [id|]; cbn; [|done]. intros (seg & Hg & Hp) He.
  apply (sk_current _ _ Hok) in He as (s & ? & ?). congruence.
Qed.

(** Publishing moves the pointer past the generation it replaces. *)
Lemma switched_moved_past sid source id seg :
  source_ok sid source -> bt_get id (so_generations source) = Some seg -> sg_phase seg = PValidated
    ->
  moved_past (so_current source) (Some (switched source id seg)).
Proof.
  intros Hok Hg Hp. destruct (so_current source) as [old|] eqn:Hc; cbn; [|done].
  pose proof Hc as Hc'. apply (sk_current _ _ Hok) in Hc' as (s & Hs & Hph).
  exists (set_phase s PRetired). split; [|done].
  assert (bt_get old (so_generations (switched source id seg)) = Some (set_phase s PRetired)) as He.
  { rewrite (switched_get sid) by done. rewrite decide_False by (intros ->; congruence).
    by rewrite decide_True, Hs by done. }
  exact He.
Qed.

Lemma source_step_moved_past sid expected o o' :
  source_opt_ok sid o -> source_step sid o o' -> moved_past expected o -> moved_past expected o'.
Proof.
  intros Hok Hstep Hm. destruct o as [source|]; [|done]. cbn in Hok. destruct expected as [id|].
  - destruct Hm as (seg & Hg & Hp).
    destruct (source_step_published _ _ _ id seg Hok Hstep Hg) as (source' & p & -> & Hpp & _ &
      Hg');
      [by rewrite Hp|].
    eexists. split; [done|]. by destruct Hpp as [->| ->].
  - cbn in Hm. destruct (so_current source) as [id|] eqn:Hc; [|done].
    pose proof Hc as Hc'. apply (sk_current _ _ Hok) in Hc' as (seg & Hg & Hp).
    destruct (source_step_published _ _ _ id seg Hok Hstep Hg) as (source' & p & -> & _ & Hcur & _);
      [by rewrite Hp|]. apply Hcur. by rewrite Hc.
Qed.

Lemma run_moved_past sid expected self more :
  store_ok (ms_state self) -> ms_poisoned self = false ->
  moved_past expected (bt_get sid (ms_state self)) ->
  moved_past expected (bt_get sid (ms_state (fold_left store_op more self))).
Proof.
  revert self. induction more as [|op more IH]; intros self Hok Hp Hm; cbn [fold_left]; [done|].
  pose proof (store_op_steps self op Hok Hp) as Hr.
  apply IH; [by eapply runs_ok|apply Hr|]. destruct Hr as [_ [_ [->|(s & Hs & Hne)]]]; [done|].
  destruct (decide (sid = s)) as [->|]; [|by rewrite Hne].
  eapply source_step_moved_past; [apply Hok|done..].
Qed.

Lemma publish_if_ok self key expected self' :
  store_ok (ms_state self) -> ms_poisoned self = false ->
  publish_generation_if_current self key expected = (self', Ok true) ->
  exists source seg,
    bt_get (gk_source_id key) (ms_state self) = Some source /\
    so_current source = option_map gk_generation_id expected /\
    bt_get (gk_generation_id key) (so_generations source) = Some seg /\ sg_phase seg = PValidated /\
    self' = {| ms_state := bt_insert (gk_source_id key)
                 (switched source (gk_generation_id key) seg) (ms_state self);
               ms_poisoned := false |}.
Proof.
  intros [Hw Hk] Hp. unfold publish_generation_if_current, write. case_match; [done|]. rewrite Hp.
  pose proof (Hk (gk_source_id key)) as Hok.
  destruct (bt_get (gk_source_id key) _) as [source|]; [|done].
  case_bool_decide as Hc; cbn [negb]; [|done].
  pose proof (publish_in_spec _ source (gk_generation_id key) Hok) as Hs.
  destruct (bt_get (gk_generation_id key) _) as [seg|] eqn:Hg; [case_bool_decide|]; rewrite Hs;
    try done.
  intros [= <-]. exists source, seg. by split_and!.
Qed.

(** C18: Publication against an observed pointer succeeds once: when a builder that observed
    [expected] has published, no builder that observed the same pointer ever publishes against
    it, whatever happens in between; so a stale builder never rewinds a newer generation. *)
Theorem publish_if_current_once ops more key key2 expected self' :
  gk_source_id key2 = gk_source_id key ->
  publish_generation_if_current (store_run ops) key expected = (self', Ok true) ->
  snd (publish_generation_if_current (fold_left store_op more self') key2 expected) <> Ok true.
Proof.
  intros Hsrc Hpub. destruct (store_run_ok ops) as [Hok Hp].
  pose proof (store_op_steps _ (OpPublishIf key expected) Hok Hp) as Hr. cbn [store_op] in Hr.
  rewrite Hpub in Hr. cbn [fst] in Hr. pose proof (runs_ok _ _ Hok Hr) as Hok'.
  destruct (publish_if_ok _ _ _ _ Hok Hp Hpub) as (source & seg & Hs & Hc & Hg & Hph & He).
  assert (moved_past (option_map gk_generation_id expected)
            (bt_get (gk_source_id key) (ms_state self'))) as Hm.
  { rewrite <- Hc, He. cbn. rewrite bt_get_insert, decide_True by (done || apply Hok).
    eapply switched_moved_past; [|done..]. pose proof (proj2 Hok (gk_source_id key)) as H.
    by rewrite Hs in H. }
  destruct (store_run_from_ok self' more Hok' (proj1 Hr)) as [Hok2 Hp2].
  apply (run_moved_past _ _ _ more Hok' (proj1 Hr)) in Hm.
  intros Hagain.
  destruct (publish_generation_if_current (fold_left store_op more self') key2 expected)
    as [self2 r] eqn:E. cbn in Hagain. subst r.
  destruct (publish_if_ok _ _ _ _ Hok2 Hp2 E) as (source2 & seg2 & Hs2 & Hc2 & _).
  rewrite Hsrc in Hs2. rewrite Hs2 in Hm. pose proof (proj2 Hok2 (gk_source_id key)) as Hok3.
  rewrite Hs2 in Hok3. by apply (moved_past_current _ _ _ Hok3 Hm).
Qed.

(** ** The guard of search-application *)

Definition phase_state (p : Phase) : ProjectionPublishState :=
  match p with
  | PBuilding => StBuilding | PValidated => StValidated | PCurrent => StCurrent
  | PRetired => StRetired | PFailed => StFailed
  end.

Definition record_of (seg : Segment) : GenerationRecord :=
  {| gn_manifest := sg_manifest seg; gn_state := phase_state (sg_phase seg) |}.

Definition guard_source (sid : SourceId) (source : SourceState) : GenerationPublication :=
  {| pb_source_id := sid; pb_records := bt_map record_of (so_generations source);
     pb_current := so_current source |}.

(** The publication guard a source of the store stands for. *)
Definition guard_of (sid : SourceId) (state : StoreState) : GenerationPublication :=
  match bt_get sid state with
  | None => GenerationPublication_new sid
  | Some source => guard_source sid source
  end.

Lemma guard_of_default sid state :
  guard_of sid state = guard_source sid (unwrap_or SourceState_default (bt_get sid state)).
Proof. unfold guard_of. by destruct (bt_get sid state). Qed.

Lemma guard_of_insert sid source state :
  bt_wf state -> guard_of sid (bt_insert sid source state) = guard_source sid source.
Proof. intros Hw. unfold guard_of. by rewrite bt_get_insert, decide_True. Qed.

Lemma guard_insert sid source id seg :
  guard_source sid (with_generations source (bt_insert id seg (so_generations source)))
  = with_records (guard_source sid source) (bt_insert id (record_of seg) (pb_records (guard_source
    sid source))).
Proof. unfold guard_source, with_records, with_generations.
  cbn [so_generations so_current pb_records]. by rewrite bt_insert_map. Qed.

Lemma record_mut_source sid source key :
  gk_source_id key = sid ->
  record_mut (guard_source sid source) key
  = ok_or (option_map record_of (bt_get (gk_generation_id key) (so_generations source)))
      (Refused PeUnknownGeneration).
Proof. intros <-. unfold record_mut. cbn. rewrite bool_decide_eq_true_2 by done. cbn.
  by rewrite bt_get_map. Qed.

Lemma phase_state_inj p q : phase_state p = phase_state q -> p = q.
Proof. by destruct p, q. Qed.

Lemma guard_publish sid source key :
  source_ok sid source -> gk_source_id key = sid ->
  publication_publish (guard_source sid source) key
  = match bt_get (gk_generation_id key) (so_generations source) with
    | None => (guard_source sid source, Err (Refused PeUnknownGeneration))
    | Some seg =>
        if sg_phase seg == PValidated
        then (guard_source sid (switched source (gk_generation_id key) seg), Ok tt)
        else (guard_source sid source, Err (Refused PeGenerationNotValidated))
    end.
Proof.
  intros [Hw _ Hc _] Hsid. unfold publication_publish. rewrite record_mut_source by done.
  destruct (bt_get _ _) as [seg|] eqn:Hg; [|done]. cbn [option_map ok_or rbind record_of gn_state].
  case_bool_decide as Hp; cbn [negb].
  - apply (phase_state_inj _ PValidated) in Hp. rewrite bool_decide_eq_true_2 by done.
    unfold retire_previous, switched, guard_source. cbn [pb_current pb_records].
    destruct (so_current source) as [old|] eqn:Eo.
    + destruct (proj1 (Hc old) eq_refl) as (s & Hs & Hph). rewrite bt_get_map, Hs.
      cbn [option_map ok_or rbind].
      change (set_state (record_of s) StRetired) with (record_of (set_phase s PRetired)).
      rewrite <- bt_insert_map, bt_get_map, bt_get_insert, decide_False, Hg
        by (done || (intros He; rewrite He in Hg; congruence)).
      cbn [option_map ok_or rbind guard so_generations so_current].
      by rewrite (bt_insert_map _ _ (set_phase seg PCurrent)).
    + cbn [rbind]. rewrite bt_get_map, Hg.
      cbn [option_map ok_or rbind guard so_generations so_current].
      by rewrite (bt_insert_map _ _ (set_phase seg PCurrent)).
  - rewrite bool_decide_eq_false_2 by (intros He; apply Hp; by rewrite He). done.
Qed.

(** An operation of the store does to the guard of a source what [step] does, and is refused
    exactly when the guard refuses. *)
Definition follows {A} (sid : SourceId) (step : Guarded) (r : MemoryProjectionStore * SResult A)
    : Prop :=
  guard_of sid (ms_state (fst r)) = fst step /\ is_err (snd r) = is_err (snd step).

Lemma begin_guard sid source m :
  pm_source_id m = sid ->
  publication_begin (guard_source sid source) m
  = match bt_get (pm_generation_id m) (so_generations source) with
    | Some _ => (guard_source sid source, Err (Refused PeDuplicateGeneration))
    | None => (with_records (guard_source sid source)
                 (bt_insert (pm_generation_id m) {| gn_manifest := m; gn_state := StBuilding |}
                    (pb_records (guard_source sid source))), Ok tt)
    end.
Proof.
  intros Hm. unfold publication_begin. change (pb_source_id _) with sid.
  rewrite bool_decide_eq_true_2 by done. cbn [negb]. unfold bt_contains_key.
  change (pb_records (guard_source sid source)) with (bt_map record_of (so_generations source)).
  rewrite bt_get_map. by destruct (bt_get _ _).
Qed.

Section Simulation.
Context (self : MemoryProjectionStore) (Hok : store_ok (ms_state self)).
Context (Hlock : ms_poisoned self = false) (sid : SourceId).

Abbreviation g := (guard_of sid (ms_state self)).

Lemma store_wf : bt_wf (ms_state self).
Proof. apply Hok. Qed.

Lemma guard_at source : bt_get sid (ms_state self) = Some source -> g = guard_source sid source.
Proof. unfold guard_of. by intros ->. Qed.

Lemma source_at source : bt_get sid (ms_state self) = Some source -> source_ok sid source.
Proof. intros Hs. pose proof (proj2 Hok sid) as H. by rewrite Hs in H. Qed.

Lemma begin_follows m :
  pm_source_id m = sid -> follows sid (publication_begin g m) (begin_generation self m).
Proof.
  intros Hm. unfold follows, begin_generation, write.
  rewrite Hlock, Hm, (guard_of_default sid (ms_state self)).
  set (source := unwrap_or SourceState_default _). rewrite begin_guard by done.
  unfold bt_contains_key.
  destruct (bt_get (pm_generation_id m) (so_generations source)); cbn [is_some fst snd ms_state].
  - by rewrite guard_of_insert by apply store_wf.
  - rewrite guard_of_insert by (apply bt_wf_alter, store_wf). by rewrite guard_insert.
Qed.

Lemma publish_follows key :
  gk_source_id key = sid -> follows sid (publication_publish g key) (publish_generation self key).
Proof.
  intros Hk. unfold follows, publish_generation, write. rewrite Hlock, Hk.
  destruct (bt_get sid (ms_state self)) as [source|] eqn:Hs.
  - rewrite (guard_at source Hs), guard_publish by (done || by apply source_at).
    pose proof (publish_in_spec _ _ (gk_generation_id key) (source_at source Hs)) as Hp.
    destruct (bt_get _ (so_generations source)) as [seg|]; [case_bool_decide|]; rewrite Hp;
      cbn [fst snd ms_state].
    + by rewrite guard_of_insert by apply store_wf.
    + split; [by apply guard_at|done].
    + split; [by apply guard_at|done].
  - cbn. unfold guard_of. rewrite Hs. unfold publication_publish, record_mut. cbn.
    by rewrite bool_decide_eq_true_2.
Qed.

Lemma publish_if_follows key expected :
  gk_source_id key = sid ->
  match publish_generation_if_current self key expected with
  | (self', Ok true) =>
      publication_current g = expected /\
      publication_publish g key = (guard_of sid (ms_state self'), Ok tt)
  | (self', _) => guard_of sid (ms_state self') = g
  end.
Proof.
  intros Hk. destruct (publish_generation_if_current self key expected) as [self' r] eqn:E.
  assert (r = Ok true \/ r <> Ok true) as [->|Hr] by (destruct r as [[]|]; auto).
  - pose proof E as E'. unfold publish_generation_if_current in E'.
    destruct (is_some_and expected _) eqn:Ex; [done|]. clear E'.
    destruct (publish_if_ok _ _ _ _ Hok Hlock E) as (source & seg & Hs & Hc & Hg & Hph & ->).
    rewrite Hk in Hs.
    rewrite (guard_at source Hs), guard_publish, Hg by (done || by apply source_at).
    rewrite bool_decide_eq_true_2 by done. cbn [ms_state]. rewrite Hk.
    rewrite guard_of_insert by apply store_wf. split; [|done].
    unfold publication_current. cbn. rewrite Hc. destruct expected as [[s id]|]; cbn in *; [|done].
    by case_bool_decide; simplify_eq.
  - assert (ms_state self' = ms_state self) as ->; [|by destruct r as [[]|]].
    revert E. unfold publish_generation_if_current, write. case_match; [by intros [= <-]|].
    rewrite Hlock. destruct (bt_get _ _) as [source|]; [|by intros [= <-]].
    case_bool_decide; cbn [negb]; [|by intros [= <-]].
    by destruct (publish_in source _); intros [= <- <-].
Qed.


Lemma guard_put key source seg :
  gk_source_id key = sid -> bt_get sid (ms_state self) = Some source ->
  guard_of sid (put_segment (ms_state self) key seg)
  = with_records (guard_source sid source)
      (bt_insert (gk_generation_id key) (record_of seg) (pb_records (guard_source sid source))).
Proof.
  intros Hk Hs. unfold put_segment. rewrite Hk, Hs, guard_of_insert by apply store_wf.
  by rewrite <- guard_insert.
Qed.

(** Writing a segment with the record it had. *)
Lemma guard_edit key seg seg' :
  segment_at (ms_state self) key = Some seg -> record_of seg' = record_of seg ->
  guard_of sid (put_segment (ms_state self) key seg') = g.
Proof.
  intros Hat Hr. destruct (segment_at_inv _ _ _ Hat) as (source & Hs & Hg).
  destruct (decide (gk_source_id key = sid)) as [Hk|Hne].
  - rewrite Hk in Hs. rewrite (guard_put key source), (guard_at source Hs), Hr by done.
    rewrite bt_insert_same; [by destruct source| |].
    + cbn. pose proof (source_at source Hs) as [Hw _ _ _]. clear -Hw.
      unfold bt_map, bt_wf in *. induction Hw as [|e m Hw IH Ha]; cbn; constructor; [done|].
      by apply Forall_map.
    + cbn. by rewrite bt_get_map, Hg.
  - unfold put_segment, guard_of. rewrite Hs, bt_get_insert by apply store_wf.
    by rewrite decide_False.
Qed.

Lemma fail_follows key :
  gk_source_id key = sid -> follows sid (publication_fail g key) (fail_generation self key).
Proof.
  intros Hk. unfold follows, fail_generation, write. rewrite Hlock. unfold segment_at. rewrite Hk.
  destruct (bt_get sid (ms_state self)) as [source|] eqn:Hs.
  - rewrite (guard_at source Hs). unfold publication_fail. rewrite record_mut_source by done.
    destruct (bt_get _ (so_generations source)) as [seg|]; [|by split; [apply guard_at|]].
    destruct seg as [m p rs reg st rt]; destruct p;
      cbn [option_map ok_or rbind record_of gn_state sg_phase
      phase_state fst snd ms_state guard]; try by split; [apply guard_at|].
    all: split; [|done]; by rewrite (guard_put key source) by done.
  - cbn. unfold guard_of. rewrite Hs. unfold publication_fail, record_mut. cbn.
    by rewrite bool_decide_eq_true_2.
Qed.

(** A generation that fails validation fails; one that is not building is refused. *)
Lemma validate_follows key :
  gk_source_id key = sid ->
  match validate_generation self key with
  | (self', Ok _) => publication_validate g key = (guard_of sid (ms_state self'), Ok tt)
  | (self', Err _) =>
      publication_fail g key = (guard_of sid (ms_state self'), Ok tt) \/
      (guard_of sid (ms_state self') = g /\ is_err (snd (publication_validate g key)) = true)
  end.
Proof.
  intros Hk. unfold validate_generation, write. rewrite Hlock. unfold segment_at. rewrite Hk.
  destruct (bt_get sid (ms_state self)) as [source|] eqn:Hs.
  - rewrite (guard_at source Hs). unfold publication_fail, publication_validate.
    rewrite record_mut_source by done.
    destruct (bt_get _ (so_generations source)) as [seg|]; [|right; split;
      [by apply guard_at|done]].
    cbn [option_map ok_or rbind]. case_bool_decide as Hp; cbn [negb].
    + assert (gn_state (record_of seg) = StBuilding) as Hb by (cbn; by rewrite Hp).
      destruct (validate_segment seg); [|left]; cbn [ms_state];
        rewrite (guard_put key source) by done.
      * by rewrite bool_decide_eq_true_2.
      * by rewrite Hb.
    + right. split; [by apply guard_at|]. cbn [gn_state record_of].
      rewrite bool_decide_eq_false_2; [done|]. intros He. apply Hp.
      by apply (phase_state_inj _ PBuilding).
  - right. split; [done|]. unfold guard_of. rewrite Hs. unfold publication_validate, record_mut.
    cbn.
    by rewrite bool_decide_eq_true_2.
Qed.

Lemma guard_write {A} (body : StoreState -> StoreState * SResult A) :
  guard_of sid (fst (body (ms_state self))) = g ->
  guard_of sid (ms_state (fst (write self body))) = g.
Proof. unfold write. rewrite Hlock. by destruct (body (ms_state self)). Qed.

Lemma stage_follows p : guard_of sid (ms_state (fst (stage_resource self p))) = g.
Proof.
  unfold stage_resource. destruct (canonical_projection p) as [q|]; [|done].
  apply guard_write. destruct (segment_at _ _) as [seg|] eqn:E; [|done].
  do 6 (case_match; [done|]). cbn [fst]. by apply (guard_edit _ seg).
Qed.

Lemma registry_follows key registry :
  guard_of sid (ms_state (fst (stage_concept_registry self key registry))) = g.
Proof.
  unfold stage_concept_registry. destruct (validate_registry registry); [|done].
  apply guard_write. destruct (bt_get _ (ms_state self)) as [source|] eqn:Hs; [|done].
  destruct (bt_get _ (so_generations source)) as [seg|] eqn:E; [|done].
  do 4 (case_match; [done|]). cbn [fst]. apply (guard_edit _ seg); [|done].
  unfold segment_at. by rewrite Hs.
Qed.

Lemma increment_follows m base retired :
  pm_source_id m = sid ->
  match begin_incremental_generation self m base retired with
  | (self', Ok _) => publication_begin g m = (guard_of sid (ms_state self'), Ok tt)
  | (self', Err _) => guard_of sid (ms_state self') = g
  end.
Proof.
  intros Hm. unfold begin_incremental_generation.
  destruct (gk_source_id base != pm_source_id m); [done|]. unfold write.
  rewrite Hlock, Hm. destruct (bt_get sid (ms_state self)) as [source|] eqn:Hs; [|done].
  unfold bt_contains_key at 1. destruct (bt_get (pm_generation_id m) _) eqn:Hn; [done|].
  cbn [is_some].
  destruct (bt_get (gk_generation_id base) _); [|done].
  destruct (negb (is_published _) || _); [done|]. destruct (negb (forallb _ _)); [done|].
  rewrite (guard_at source Hs), begin_guard, Hn by done. cbn [ms_state].
  by rewrite guard_of_insert, guard_insert by apply store_wf.
Qed.

(** Discarding removes the record of a generation that was never published. *)
Lemma discard_follows key :
  gk_source_id key = sid ->
  match discard_unpublished_generation self key with
  | (self', Ok true) =>
      exists record, bt_get (gk_generation_id key) (pb_records g) = Some record /\
        gn_state record <> StCurrent /\ gn_state record <> StRetired /\
        guard_of sid (ms_state self')
        = with_records g (bt_remove (gk_generation_id key) (pb_records g))
  | (self', _) => guard_of sid (ms_state self') = g
  end.
Proof.
  intros Hk. unfold discard_unpublished_generation, write. rewrite Hlock, Hk.
  destruct (bt_get sid (ms_state self)) as [source|] eqn:Hs; [|done].
  destruct (bt_get _ (so_generations source)) as [seg|] eqn:Hg; [|done].
  destruct (is_published (sg_phase seg)) eqn:Ep; cbn [orb]; [done|].
  case_bool_decide as Hc; [done|]. cbn [fst ms_state]. rewrite (guard_at source Hs).
  change (pb_records _) with (bt_map record_of (so_generations source)).
  exists (record_of seg). rewrite bt_get_map, Hg, <- bt_remove_map. split_and!; [done| | |].
  1,2: unfold record_of; cbn; by destruct (sg_phase seg).
  destruct (is_empty _) eqn:Ee.
  - destruct (bt_remove _ (so_generations source)) eqn:Er; [|done].
    unfold guard_of. rewrite bt_get_remove by apply store_wf.
    unfold with_records, GenerationPublication_new.
    cbn. f_equal. destruct (so_current source) as [cur|] eqn:Ecur; [|done].
    apply (sk_current _ _ (source_at source Hs)) in Ecur as (s & Hcur & _).
    assert (bt_get cur (bt_remove (gk_generation_id key) (so_generations source)) = Some s) as He.
    { rewrite bt_get_remove_ne; [done|apply (source_at source Hs)|]. intros ->. by apply Hc. }
    by rewrite Er in He.
  - by rewrite guard_of_insert by apply store_wf.
Qed.
End Simulation.

Definition op_source (op : StoreOp) : SourceId :=
  match op with
  | OpBegin manifest | OpIncrement manifest _ _ => pm_source_id manifest
  | OpStage projection => pm_source_id (rp_manifest projection)
  | OpRegistry key _ | OpValidate key | OpPublish key | OpPublishIf key _ | OpFail key
  | OpDiscardUnpublished key => gk_source_id key
  end.

Lemma write_other {A} self (body : StoreState -> StoreState * SResult A) s :
  bt_get s (fst (body (ms_state self))) = bt_get s (ms_state self) ->
  bt_get s (ms_state (fst (write self body))) = bt_get s (ms_state self).
Proof. unfold write. destruct (ms_poisoned self); [done|]. by destruct (body (ms_state self)). Qed.

Lemma canonical_projection_manifest p q :
  canonical_projection p = Ok q -> rp_manifest q = rp_manifest p.
Proof.
  unfold canonical_projection. intros H. repeat (apply rbind_Ok in H as (? & _ & H)).
  by injection H as <-.
Qed.

Lemma put_other state key seg s :
  bt_wf state -> s <> gk_source_id key -> bt_get s (put_segment state key seg) = bt_get s state.
Proof.
  intros Hw Hne. unfold put_segment. destruct (bt_get (gk_source_id key) state); [|done].
  by rewrite bt_get_insert, decide_False.
Qed.

(** An operation changes no source but its own. *)
Lemma store_op_other self op s :
  bt_wf (ms_state self) -> s <> op_source op ->
  bt_get s (ms_state (store_op self op)) = bt_get s (ms_state self).
Proof.
  intros Hw Hne.
  assert (forall (state : StoreState) (v : SourceState), bt_wf state ->
            bt_get s (bt_insert (op_source op) v state) = bt_get s state) as Hi
    by (intros state v Hs; by rewrite bt_get_insert, decide_False).
  destruct op; cbn [store_op op_source] in *;
    unfold begin_incremental_generation, stage_resource, stage_concept_registry,
      publish_generation_if_current;
    repeat first [done | apply write_other; cbn beta zeta | case_match]; cbn [fst].
  all: first
    [ by rewrite !Hi by (try apply bt_wf_alter; done)
    | apply put_other; [done|]; cbn; by erewrite ?canonical_projection_manifest by done
    | by rewrite bt_get_remove_ne ].
Qed.

(** C6: The store implements the publication guard of search-application, source by source: begin,
    publish and fail do what the guard's methods do and are refused exactly when they are;
    validation validates, or fails a building generation, or is refused with the guard;
    publication against an observed pointer publishes only when that is the guard's pointer;
    staging does not touch the guard, and discarding removes an unpublished record. *)
Theorem store_refines_guard ops sid :
  let self := store_run ops in
  let g := guard_of sid (ms_state self) in
  (forall op, op_source op <> sid -> guard_of sid (ms_state (store_op self op)) = g) /\
  (forall m, pm_source_id m = sid -> follows sid (publication_begin g m) (begin_generation self m))
    /\
  (forall m base retired, pm_source_id m = sid ->
     match begin_incremental_generation self m base retired with
     | (self', Ok _) => publication_begin g m = (guard_of sid (ms_state self'), Ok tt)
     | (self', Err _) => guard_of sid (ms_state self') = g
     end) /\
  (forall p, guard_of sid (ms_state (fst (stage_resource self p))) = g) /\
  (forall key r, guard_of sid (ms_state (fst (stage_concept_registry self key r))) = g) /\
  (forall key, gk_source_id key = sid ->
     match validate_generation self key with
     | (self', Ok _) => publication_validate g key = (guard_of sid (ms_state self'), Ok tt)
     | (self', Err _) =>
         publication_fail g key = (guard_of sid (ms_state self'), Ok tt) \/
         (guard_of sid (ms_state self') = g /\ is_err (snd (publication_validate g key)) = true)
     end) /\
  (forall key, gk_source_id key = sid ->
     follows sid (publication_publish g key) (publish_generation self key)) /\
  (forall key expected, gk_source_id key = sid ->
     match publish_generation_if_current self key expected with
     | (self', Ok true) =>
         publication_current g = expected /\
         publication_publish g key = (guard_of sid (ms_state self'), Ok tt)
     | (self', _) => guard_of sid (ms_state self') = g
     end) /\
  (forall key, gk_source_id key = sid ->
     follows sid (publication_fail g key) (fail_generation self key)) /\
  (forall key, gk_source_id key = sid ->
     match discard_unpublished_generation self key with
     | (self', Ok true) =>
         exists record, bt_get (gk_generation_id key) (pb_records g) = Some record /\
           gn_state record <> StCurrent /\ gn_state record <> StRetired /\
           guard_of sid (ms_state self')
           = with_records g (bt_remove (gk_generation_id key) (pb_records g))
     | (self', _) => guard_of sid (ms_state self') = g
     end).
Proof.
  cbn zeta. destruct (store_run_ok ops) as [Hok Hp]. split_and!; intros.
  - unfold guard_of. by rewrite store_op_other by (done || apply Hok).
  - by apply begin_follows.
  - by apply increment_follows.
  - by apply stage_follows.
  - by apply registry_follows.
  - by apply validate_follows.
  - by apply publish_follows.
  - by apply publish_if_follows.
  - by apply fail_follows.
  - by apply discard_follows.
Qed.

(** ** The digest *)

Lemma for_each_permutation {S A E} (f : S -> A -> Result S E) (inv : S -> Prop) l k s t :
  (forall s a s', inv s -> f s a = Ok s' -> inv s') ->
  (forall s a b s1 s2, inv s -> f s a = Ok s1 -> f s1 b = Ok s2 ->
     exists s1', f s b = Ok s1' /\ f s1' a = Ok s2) ->
  Permutation l k -> inv s -> for_each f s l = Ok t -> for_each f s k = Ok t.
Proof.
  intros Hinv Hswap Hp. revert s.
  induction Hp as [|a l k Hp IH|a b l|l k j Hp1 IH1 Hp2 IH2]; intros s Hs.
  - done.
  - cbn. rewrite !rbind_Ok. intros (s' & Ha & Hl). exists s'. split; [done|]. apply IH; [|done].
    by eapply Hinv.
  - cbn. rewrite !rbind_Ok. intros (s1 & Hb & Hr). rewrite rbind_Ok in Hr.
    destruct Hr as (s2 & Ha & Hl). destruct (Hswap _ _ _ _ _ Hs Hb Ha) as (s1' & H1 & H2).
    exists s1'. split; [done|]. by rewrite H2.
  - intros H. by apply IH2, IH1.
Qed.

Lemma bt_insert_comm {V} (j k : ResourceId) (v w : V) (m : list (ResourceId * V)) :
  bt_wf m -> j <> k ->
  bt_insert j v (bt_insert k w m) = bt_insert k w (bt_insert j v m).
Proof.
  intros Hw Hne. apply bt_ext; [by repeat apply bt_wf_alter..|]. intros i.
  rewrite !bt_get_insert by (try apply bt_wf_alter; done).
  destruct (decide (i = j)), (decide (i = k)); congruence.
Qed.

Lemma digest_resource_ok sid m p m' :
  digest_resource sid m p = Ok m' <->
  pm_source_id (rp_manifest p) = sid /\ exists q, canonical_projection p = Ok q /\
    bt_get (dp_resource_ref (rp_directory q)) m = None /\
    m' = bt_insert (dp_resource_ref (rp_directory q)) q m.
Proof.
  unfold digest_resource. case_bool_decide as Hs; cbn [negb]; [|naive_solver].
  rewrite rbind_Ok. unfold bt_contains_key. split.
  - intros (q & Hq & H). split; [done|]. exists q. by destruct (bt_get _ m); simplify_eq/=.
  - intros (_ & q & Hq & Hn & ->). exists q. by rewrite Hn.
Qed.

Lemma digest_resources_permutation sid rs rs' by_id :
  Permutation rs rs' -> for_each (digest_resource sid) [] rs = Ok by_id ->
  for_each (digest_resource sid) [] rs' = Ok by_id.
Proof.
  intros Hp. apply (for_each_permutation _ bt_wf); [| |done|constructor].
  - intros m p m' Hw (_ & q & _ & _ & ->)%digest_resource_ok. by apply bt_wf_alter.
  - intros m a b m1 m2 Hw (Ha & qa & Hqa & Hna & ->)%digest_resource_ok
      (Hb & qb & Hqb & Hnb & ->)%digest_resource_ok.
    rewrite bt_get_insert in Hnb by done.
    destruct (decide _) as [|Hne] in Hnb; [done|].
    exists (bt_insert (dp_resource_ref (rp_directory qb)) qb m).
    rewrite !digest_resource_ok. split; [naive_solver|]. split; [done|]. exists qa.
    split_and!; [done| |apply bt_insert_comm; [done|congruence]].
    rewrite bt_get_insert, decide_False by (done || congruence). done.
Qed.

Lemma canonical_with_manifest m p :
  canonical_projection (with_manifest m p)
  = (let? q := canonical_projection p in Ok (with_manifest m q)).
Proof.
  unfold canonical_projection. cbn [with_manifest rp_directory rp_structured rp_relations
    rp_manifest rp_retention_mode rp_temporal rp_access].
  destruct (map_values canonical_facet _); cbn [rbind]; [|done].
  destruct (try_map canonical_assertion _); cbn [rbind]; [|done].
  destruct (sort_by_text assertion_json _ _); cbn [rbind]; [|done].
  destruct (map_values canonical_resolution _); cbn [rbind]; [|done].
  by destruct (try_map stored_relation _).
Qed.

Lemma digest_resources_manifest m sid rs acc by_id :
  pm_source_id m = sid -> for_each (digest_resource sid) acc rs = Ok by_id ->
  for_each (digest_resource sid) (bt_map (with_manifest m) acc) (map (with_manifest m) rs)
  = Ok (bt_map (with_manifest m) by_id).
Proof.
  intros Hm. revert acc. induction rs as [|p rs IH]; intros acc; cbn; [by intros [= ->]|].
  rewrite !rbind_Ok. intros (s & (Hs & q & Hq & Hn & ->)%digest_resource_ok & Hl).
  exists (bt_map (with_manifest m) (bt_insert (dp_resource_ref (rp_directory q)) q acc)).
  split; [|by apply IH]. apply digest_resource_ok. split; [done|]. exists (with_manifest m q).
  rewrite canonical_with_manifest, Hq. split_and!; [done| |by rewrite bt_insert_map].
  cbn. by rewrite bt_get_map, Hn.
Qed.

Lemma resource_frames_manifest m by_id :
  try_map resource_frame (bt_map (with_manifest m) by_id) = try_map resource_frame by_id.
Proof.
  induction by_id as [|e by_id IH]; [done|]. unfold bt_map in *. cbn [map try_map]. by rewrite IH.
Qed.

Lemma digest_resources_forget m sid rs acc by_id :
  Forall (fun p => pm_source_id (rp_manifest p) = sid) rs ->
  for_each (digest_resource sid) (bt_map (with_manifest m) acc) (map (with_manifest m) rs) = Ok
    by_id ->
  is_ok (for_each (digest_resource sid) acc rs) = true.
Proof.
  intros Hs. revert acc. induction Hs as [|p rs Hp Hs IH]; intros acc; cbn; [done|].
  intros (s & (_ & q' & Hq & Hn & ->)%digest_resource_ok & Hl)%rbind_Ok.
  rewrite canonical_with_manifest in Hq. apply rbind_Ok in Hq as (q & Hq & [= <-]).
  cbn [with_manifest rp_directory] in Hn, Hl. rewrite bt_get_map in Hn.
  destruct (bt_get _ acc) eqn:Ea in Hn; [done|].
  assert (digest_resource sid acc p = Ok (bt_insert (dp_resource_ref (rp_directory q)) q acc)) as ->
    by (apply digest_resource_ok; naive_solver).
  apply IH. by rewrite bt_insert_map.
Qed.

(** The resources of a digest, with every manifest replaced. *)
Lemma digest_manifest m sid rs registry d :
  pm_source_id m = sid -> Forall (fun p => pm_source_id (rp_manifest p) = sid) rs ->
  digest_input sid rs registry = Ok d <->
  digest_input sid (map (with_manifest m) rs) registry = Ok d.
Proof.
  intros Hm Hs. unfold digest_input. destruct (validate_registry registry); [|done]. cbn [rbind].
  pose proof (digest_resources_forget m sid rs [] ) as Hf. cbn [bt_map map] in Hf.
  destruct (for_each (digest_resource sid) [] rs) as [by_id|e] eqn:E; cbn [rbind].
  - apply (digest_resources_manifest m _ _ []) in E; [|done]. cbn [bt_map map] in E. rewrite E.
    cbn [rbind]. by rewrite resource_frames_manifest.
  - split; [done|]. destruct (for_each _ _ (map _ rs)) as [by_id|]; [|done].
    by specialize (Hf _ Hs eq_refl).
Qed.

(** The digest of a generation is a function of its contents: it depends neither on the order
  of
    the resources nor on the manifests they carry, so an incremental generation has the digest
    of the full build with the same contents. *)
Theorem generation_digest_contents m sid rs rs' registry digest :
  pm_source_id m = sid ->
  Forall (fun p => pm_source_id (rp_manifest p) = sid) (rs ++ rs') ->
  Permutation (map (with_manifest m) rs) (map (with_manifest m) rs') ->
  generation_digest sid rs registry = Ok digest -> generation_digest sid rs' registry = Ok digest.
Proof.
  intros Hm [H1 H2]%Forall_app Hp. unfold generation_digest. rewrite !rbind_Ok.
  intros (input & Hi & Hd). exists input. split; [|done].
  apply (digest_manifest m) in Hi; [|done..].
  apply (digest_manifest m sid rs'); [done..|].
  unfold digest_input in *. destruct (validate_registry registry); [|done]. cbn [rbind] in *.
  apply rbind_Ok in Hi as (by_id & Hb & Hi). apply rbind_Ok. exists by_id. split; [|done].
  by eapply digest_resources_permutation.
Qed.

(** ** From an input to a staged resource *)

(** What the compiler makes of an input and the persistence check lets through is staged: in a
    store whose generation of that manifest is being built, a resource that is neither retired
    nor staged yet is stored, in canonical form, under its identifier, and the generation
    itself stays open. *)
Theorem compiled_projection_stages self manifest input p stored seg :
  compile_resource manifest input = Ok p -> projection_try_from p = Ok p ->
  canonical_projection p = Ok stored -> ms_poisoned self = false ->
  store_ok (ms_state self) -> segment_at (ms_state self) (manifest_key manifest) = Some seg ->
  sg_phase seg = PBuilding -> sg_manifest seg = manifest ->
  let id := id_resource_id (dr_identity (pi_resource input)) in
  bt_wf (sg_resources seg) ->
  bt_contains_key id (sg_retired_ids seg) = false -> bt_contains_key id (sg_staged_ids seg) = false
    ->
  let self' := fst (stage_resource self p) in
  snd (stage_resource self p) = Ok tt /\ exists seg',
    segment_at (ms_state self') (manifest_key manifest) = Some seg' /\ sg_phase seg' = PBuilding /\
    forall j, bt_get j (sg_resources seg') =
              if decide (j = id) then Some stored else bt_get j (sg_resources seg).
Proof.
  intros Hc Hpt Hcan Hlock Hok Hat Hph Hman id Hwf Hret Hst.
  assert (rp_manifest stored = manifest /\ dp_resource_ref (rp_directory stored) = id /\
          sp_resource_ref (rp_structured stored) = id /\ tp_resource_ref (rp_temporal stored) = id
            /\
          ap_resource_ref (rp_access stored) = id /\
          rp_retention_mode stored = rp_retention_mode p) as (Hm & Hd & Hs & Ht & Ha & Hr).
  { unfold canonical_projection in Hcan. repeat (apply rbind_Ok in Hcan as (? & _ & Hcan)).
    injection Hcan as <-. unfold compile_resource in Hc.
    repeat (case_match; [done|]). apply rbind_Ok in Hc as (? & _ & Hc). case_match; [done|].
    apply rbind_Ok in Hc as (? & _ & Hc). by injection Hc as <-. }
  assert (persistent (rp_retention_mode stored) = true) as Hpers.
  { rewrite Hr. unfold projection_try_from, permits_persistent_state in Hpt.
    by destruct (persistent _). }
  unfold stage_resource, write.
  rewrite Hcan, Hlock, Hm, Hd, Hat, Hph, Hman, Hret, Hs, Ht, Ha, Hpers, Hst.
  rewrite !bool_decide_eq_true_2 by done. cbn. split; [done|]. eexists. split; [|split].
  - destruct (segment_at_inv _ _ _ Hat) as (source & Hsrc & Hg). unfold segment_at, put_segment.
    cbn in Hsrc, Hg |- *. rewrite Hsrc, bt_get_insert, decide_True by (done || apply Hok). cbn.
    pose proof (proj2 Hok (pm_source_id manifest)) as Hso. rewrite Hsrc in Hso.
    rewrite bt_get_insert, decide_True by (done || apply Hso). done.
  - done.
  - intros j. cbn. by rewrite bt_get_insert.
Qed.
End Life.

(** ** What a remote source may persist *)

Lemma for_each_unit_ok {A E} (f : unit -> A -> Result unit E) l u :
  for_each f tt l = Ok u -> forall a, a ∈ l -> f tt a = Ok tt.
Proof.
  induction l as [|b l IH]; cbn; [set_solver|]. rewrite rbind_Ok. intros ([] & Hb & Hl) a.
  rewrite elem_of_cons. intros [->|Ha]; [done|]. by apply IH.
Qed.

Lemma remote_proofs_listed (fields allowed proofs : list (string * RemoteFieldKind)) :
  bt_wf allowed ->
  for_each
    (fun allowed '(field, kind) =>
       if (field == EmptyString) || reserved field || bt_contains_key field allowed
       then Err (PeFieldNotPermitted field)
       else Ok (bt_insert field kind allowed)) allowed fields = Ok proofs ->
  forall field kind, bt_get field proofs = Some kind ->
    bt_get field allowed = Some kind \/ (field, kind) ∈ fields.
Proof.
  revert allowed. induction fields as [|[f k] fields IH]; intros allowed Hw; cbn [for_each].
  - intros [= ->]. auto.
  - rewrite rbind_Ok. intros (allowed' & Ha & Hl) field kind Hg. case_match; [done|].
    injection Ha as <-.
    apply (IH (bt_insert f k allowed) (bt_wf_alter _ _ _ Hw) Hl) in Hg as [Hg|Hg]; [|set_solver].
    rewrite bt_get_insert in Hg by done. destruct (decide (field = f)) as [->|]; [|auto].
    injection Hg as <-. set_solver.
Qed.

(** A projection of a remote source that may be persisted holds nothing the source did not
    prove: every known facet has a listed field that is not reserved and the listed type, every
    high-signal facet a listed field that is not reserved; of a source that may keep discovery
    metadata only, no assertion and no relation. *)
Theorem remote_projection_bounded projection registration policy fields proofs p :
  RemoteFieldProofs_new fields = Ok proofs ->
  try_from_remote projection registration policy proofs = Ok p ->
  p = projection /\ persistent (rp_retention_mode p) = true /\
  rp_retention_mode p = rg_retention_mode registration /\
  pm_source_id (rp_manifest p) = rg_source_id registration /\
  (forall field value, (field, FacetKnown value) ∈ sp_typed_facets (rp_structured p) ->
     reserved field = false /\ exists kind, (field, kind) ∈ fields /\ admits kind value = true) /\
  (forall field state, (field, state) ∈ sp_high_signal_facets (rp_structured p) ->
     reserved field = false /\ exists kind, (field, kind) ∈ fields) /\
  (rp_retention_mode p = PersistentDiscoveryMetadata ->
   sp_assertions (rp_structured p) = [] /\ rp_relations p = []).
Proof.
  intros Hnew.
  assert (forall field kind, bt_get field proofs = Some kind -> (field, kind) ∈ fields) as Hl.
  { intros field kind Hg.
    by destruct (remote_proofs_listed fields [] proofs bt_wf_nil Hnew _ _ Hg) as [H|H]. }
  unfold try_from_remote. destruct (_ || _ || _) eqn:E1; [done|].
  apply orb_false_iff in E1 as [[E1 Hmode]%orb_false_iff _].
  apply negb_false_iff, bool_decide_eq_true in Hmode.
  destruct (pm_source_id (rp_manifest projection) == rg_source_id registration) eqn:Hsrc; [|done].
  apply bool_decide_eq_true in Hsrc. cbn [negb]. destruct (_ || _); [done|].
  intros (u1 & Hf & (u2 & Hg & H2)%rbind_Ok)%rbind_Ok. destruct (_ && _) eqn:E2; [done|].
  unfold projection_try_from, permits_persistent_state in *. rewrite <- Hmode in E1.
  rewrite E1 in H2. injection H2 as <-. apply negb_false_iff in E1.
  split_and!; [done..| | |].
  - intros field value Hin. apply (for_each_unit_ok _ _ _ Hf) in Hin.
    unfold check_remote_facet in Hin.
    destruct (reserved field); [done|]. split; [done|].
    destruct (bt_get field proofs) as [kind|] eqn:Ek; [|done]. cbn in Hin. exists kind.
    split; [by apply Hl|]. by destruct (admits kind value).
  - intros field state Hin. apply (for_each_unit_ok _ _ _ Hg) in Hin.
    unfold check_remote_signal in Hin.
    destruct (reserved field); [done|]. split; [done|]. unfold bt_contains_key in Hin.
    destruct (bt_get field proofs) as [kind|] eqn:Ek; [|done]. exists kind. by apply Hl.
  - intros Hm. rewrite <- Hmode, Hm in E2. rewrite bool_decide_eq_true_2 in E2 by done.
    apply orb_false_iff in E2 as [Ha Hr]. by destruct (sp_assertions _), (rp_relations _).
Qed.
