(* ===== verification/SearchScenario.v ===== *)
(** * SearchScenario: a concrete graph, locators and units

    Concrete instances of the ports and small inputs on which the properties of search-core and
    search-graph-memory and search-projection-memory are evaluated. *)
From stdpp Require Import base gmap sets list strings vector.
From Stdlib Require Import ZArith Lia Ascii SpecFloat.
From S2P Require Import Prelude Text Ordered DocumentValues Manifest AuditTheorems SearchValues.
From S2P Require Import SearchResolution SearchEvidence.
From S2P Require Import SearchResolutionTheorems SearchGraph SearchGraphTheorems SearchGraphBuild.
From S2P Require Import SearchUnits SearchUnitProfiles SearchUnitCodec SearchVector.
From S2P Require Import SearchExtraction.
From S2P Require Import SearchProjection SearchStore SearchStoreTheorems.

Local Open Scope Z_scope.

Module SearchToy.

(** ** Decimals *)

(** 1.50 and 1.5. *)
Definition one_fifty : DecimalValue := {| dv_coefficient := 150; dv_scale := 2 |}.
Definition one_five : DecimalValue := {| dv_coefficient := 15; dv_scale := 1 |}.

Lemma compare_decimal_exact_witness :
  compare_decimal one_fifty one_five = (150 * 10 ^ 1 ?= 15 * 10 ^ 2) /\
  compare_decimal one_fifty one_five = Eq.
Proof. split; [apply (compare_decimal_exact one_fifty one_five); cbn; lia|reflexivity]. Defined.

(** ** A generation of three resources *)

(** Resource 4 is denied, everything else is allowed. *)
#[local] Instance port : AccessPort := fun _ id _ => Ok (if (id =? 4)%N then Denied else Allowed).
#[local] Instance texts : UuidText := fun _ => "u"%string.

Definition manifest : ProjectionGenerationManifest := {|
  pm_source_id := 1%N; pm_generation_id := 2%N; pm_projection_schema_version := "1";
  pm_lens_version := 1; pm_semantic_registry_version := "1"; pm_analyzer_version := None;
  pm_embedding_model_version := None; pm_graph_schema_version := Some "typed-nary-v1"%string;
  pm_source_snapshot := "s"; pm_resource_count := 3; pm_relation_count := Some 2;
  pm_coverage := CompleteEnumeration; pm_digest := "d"; pm_built_at := 0 |}.

Definition source : DiscoverableSource :=
  DiscoverableSource_new 1%N "files" EnumComplete PersistentResource.

Definition participant (role : string) (id : ResourceId) : RelationParticipant :=
  {| pt_role := role; pt_resource_ref := id |}.

(** A form whose procedure is 5, and one whose procedure is the denied 4. *)
Definition uses (relation procedure : Uuid) : TypedRelationInstance :=
  TypedRelationInstance_new relation NsDiscovery "uses"
    [participant "procedure" procedure; participant "form" 3%N].

Definition projection (id : ResourceId) (relations : list TypedRelationInstance)
    : CompiledResourceProjection := {|
  rp_manifest := manifest; rp_retention_mode := PersistentResource;
  rp_directory := {| dp_resource_ref := id; dp_resource_version := None; dp_kind := KindDocument;
                     dp_canonical_name := "n"; dp_title := None; dp_aliases := [] |};
  rp_structured := {| sp_resource_ref := id; sp_concept_refs := []; sp_high_signal_facets := [];
                      sp_typed_facets := []; sp_assertions := []; sp_authority_resolutions := [] |};
  rp_temporal := {| tp_resource_ref := id; tp_valid_from := None; tp_valid_to := None;
                    tp_profile := {| td_freshness_anchor_at := None; td_freshness_basis := None;
                                     td_effective_from := Some 5; td_effective_to := None |} |};
  rp_access := {| ap_resource_ref := id; ap_access_scope := None; ap_source_access_model := None |};
  rp_relations := relations |}.

Definition projections : list CompiledResourceProjection :=
  [projection 3%N [uses 10%N 5%N; uses 11%N 4%N]; projection 4%N []; projection 5%N []].

Definition ops : list GraphOp :=
  [OpBuild manifest source projections;
   OpDiscard {| gk_source_id := 1%N; gk_generation_id := 9%N |}].

Definition plan : GraphTraversalPlan := {|
  gp_seed_nodes := [3%N];
  gp_path_patterns := [RelationPathPattern_new NsDiscovery "uses" "form" "procedure"];
  gp_allowed_relation_types := ["uses"]; gp_allowed_namespaces := [NsDiscovery];
  gp_authority_requirement := None;
  gp_temporal_context := Some {| te_evaluation_id := 0%N; te_evaluated_at := 10;
                                 te_temporal_target := 10; te_business_timezone := "UTC" |};
  gp_access_context := "reader";
  gp_expansion_budget := {| tb_max_hops := 2; tb_max_relations := 4;
    tb_max_branching_per_node := 4; tb_max_seed_nodes := 4; tb_max_paths := 8 |};
  gp_stop_conditions := [] |}.

(** What the traversal of the plan returns. *)
Definition answer : GraphRetrievalResult :=
  match retrieve (graph_run ops) (manifest_key manifest) plan with
  | Ok result => result
  | Err _ => {| gr_generation := manifest_key manifest; gr_hits := [] |}
  end.

(** Procedure 5 is found, the denied procedure 4 is not. *)
Example answer_hits :
  map (fun h => (fc_resource_ref (gh_candidate h), map pe_resource_path (gh_paths h)))
    (gr_hits answer) = [(Some 5%N, [[3%N; 5%N]])].
Proof. vm_compute. reflexivity. Qed.

Lemma retrieve_answer : retrieve (graph_run ops) (manifest_key manifest) plan = Ok answer.
Proof. vm_compute. reflexivity. Defined.

Lemma retrieve_exact_witness :
  exists index (decided : ResourceId -> option bool) n,
    bt_get (manifest_key manifest) (mg_generations (graph_run ops)) = Some index /\
    (forall id v, decided id = Some v -> grounds index plan n id v) /\
    forall V : ResourceId -> bool, (forall id v, decided id = Some v -> V id = v) ->
    forall id ev,
      (exists h, h ∈ gr_hits answer /\ fc_resource_ref (gh_candidate h) = Some id /\
         ev ∈ gh_paths h) <->
      (exists path, walk index plan V (gp_path_patterns plan) path /\
         pa_current path = id /\ path_evidence path = ev).
Proof. exact (retrieve_exact ops (manifest_key manifest) plan answer retrieve_answer). Defined.

Lemma retrieve_within_budget_witness :
  fold_right (fun h n => len (gh_paths h) + n) 0 (gr_hits answer) <= 8 /\
  forall h ev, h ∈ gr_hits answer -> ev ∈ gh_paths h ->
    len (pe_steps ev) = 1 /\ len (pe_resource_path ev) = len (pe_steps ev) + 1 /\
    len (pe_steps ev) <= 2.
Proof.
  apply (retrieve_within_budget ops (manifest_key manifest) plan answer); cbn;
    [lia..|exact retrieve_answer].
Defined.

Lemma build_generation_exact_witness :
  exists index,
    bt_get (manifest_key manifest)
      (mg_generations (fst (build_generation MemoryGraphRetriever_new manifest source projections)))
      = Some index /\ index_of projections index.
Proof.
  destruct (build_generation_exact MemoryGraphRetriever_new manifest source projections
    (fst (build_generation MemoryGraphRetriever_new manifest source projections)) (Ok tt))
    as (_ & _ & _ & index & H).
  - split; [constructor|done].
  - vm_compute. reflexivity.
  - exists index. exact H.
Defined.

(** ** Locators and units *)

#[local] Instance unicode : Unicode := {| nfc := fun s => s |}.
(** A digest that keeps the last 32 bytes. *)
#[local] Instance digest : Digest := {| sha256 := fun l =>
  fun_to_vec (fun i => default (ascii_of_N 0) (rev l !! (fin_to_nat i))) |}.

Definition locator : NativeLocator := LArchive ["a.zip"; "b.csv"] (LCsv 2 3).
Definition locator_bytes : list Z :=
  match locator_encode locator with Ok bs => bs | Err _ => [] end.

Lemma locator_is_typed : locator_typed locator.
Proof.
  cbn. unfold is_u32, u32_max. split; [|lia].
  repeat (apply Forall_cons_2; [vm_compute; reflexivity|]). apply Forall_nil_2.
Qed.

Lemma locator_codec_witness :
  Forall byte locator_bytes /\ locator_decode locator_bytes = Ok locator.
Proof.
  assert (Forall byte locator_bytes) as Hb by (vm_compute; repeat constructor; intros [=]).
  split; [exact Hb|]. apply (locator_codec locator_bytes locator Hb). split.
  - exact locator_is_typed.
  - vm_compute. reflexivity.
Defined.

Definition version : ResourceVersionRef :=
  {| vr_source_id := 1%N; vr_resource_id := 3%N; vr_source_native_version := "v1" |}.
Definition part : ContentPartRef :=
  {| cp_source_native_part_id := "p"; cp_logical_path := "a/b.csv"; cp_ordinal := 0 |}.
Definition profile : ExtractionProfileId := "ep1:csv"%string.
Definition unit_id : UnitId :=
  match UnitId_derive version part profile locator 7 with Ok id => id | Err _ => sha256 [] end.

Lemma unit_id_identifies_witness :
  (version = version /\ part = part /\ profile = profile /\ locator = locator /\ 7 = 7) \/
    collision (unit_hashed version part profile locator 7)
      (unit_hashed version part profile locator 7).
Proof.
  assert (UnitId_derive version part profile locator 7 = Ok unit_id) as Hd
    by (vm_compute; reflexivity).
  apply (unit_id_identifies version part profile locator 7 version part profile locator 7 unit_id);
    [split; by vm_compute..|cbn; unfold is_u32, u32_max; lia|cbn; unfold is_u32, u32_max;
      lia|exact locator_is_typed|exact locator_is_typed
    |unfold is_u32, u32_max; lia|unfold is_u32, u32_max; lia|exact Hd|exact Hd].
Defined.
(** ** A store with two generations *)

(** A serializer that writes the identifier of a resource and the version of a registry. *)
#[local] Instance json : ProjectionJson := {|
  typed_value_json := fun _ => Ok [];
  assertion_json := fun a => Ok (bytes (as_predicate a));
  registry_json := fun r => Ok (bytes (sn_version r));
  projection_json := fun '(_, d, _, _, _, _) => Ok [Z.of_N (dp_resource_ref d)]
|}.

Definition registry : SemanticRegistrySnapshot :=
  {| sn_version := "1"; sn_concepts := [("car"%string, tt); ("vehicle"%string, tt)];
     sn_synonyms := []; sn_is_a := [(("car"%string, "vehicle"%string), tt)] |}.

Definition contents : list CompiledResourceProjection := [projection 3%N []; projection 5%N []].
Definition contents_digest : string :=
  match generation_digest 1%N contents registry with Ok d => d | Err _ => "" end.

(** The manifest of a generation with these contents. *)
Definition generation (id : ProjectionGenerationId) : ProjectionGenerationManifest := {|
  pm_source_id := 1%N; pm_generation_id := id; pm_projection_schema_version := "1";
  pm_lens_version := 1; pm_semantic_registry_version := "1"; pm_analyzer_version := None;
  pm_embedding_model_version := None; pm_graph_schema_version := None;
  pm_source_snapshot := "s"; pm_resource_count := 2; pm_relation_count := None;
  pm_coverage := CompleteEnumeration; pm_digest := contents_digest; pm_built_at := 0 |}.
Definition key (id : ProjectionGenerationId) : ProjectionGenerationKey := manifest_key (generation
  id).

(** Generation 2 is built and published; 3 starts from it and is validated. *)
Definition build : list StoreOp :=
  OpBegin (generation 2%N) :: map (fun p => OpStage (with_manifest (generation 2%N) p)) contents
  ++ [OpRegistry (key 2%N) registry; OpValidate (key 2%N); OpPublish (key 2%N)].
Definition increment : list StoreOp :=
  [OpIncrement (generation 3%N) (key 2%N) [];
   OpStage (with_manifest (generation 3%N) (projection 5%N [])); OpValidate (key 3%N)].
Definition built : MemoryProjectionStore := store_run (build ++ increment).

Lemma published_immutable_witness :
  let after := store_run (build ++ increment ++ [OpPublish (key 3%N); OpFail (key 2%N)]) in
  resource_at after (key 2%N) 5%N = resource_at (store_run build) (key 2%N) 5%N /\
  is_err (resource_at after (key 2%N) 5%N) = false.
Proof.
  split; [|vm_compute; reflexivity].
  apply (published_immutable build (increment ++ [OpPublish (key 3%N);
    OpFail (key 2%N)]) (key 2%N)).
  vm_compute. reflexivity.
Defined.

Lemma pinned_generation_validated_witness :
  exists seg registry,
    published (ms_state (store_run build)) (manifest_key (generation 2%N)) = Ok seg /\
    sg_manifest seg = generation 2%N /\ sg_phase seg = PCurrent /\
    pm_source_id (generation 2%N) = 1%N /\
    len (sg_resources seg) = pm_resource_count (generation 2%N) /\
    sg_registry seg = Some registry /\
    generation_digest 1%N (map snd (sg_resources seg)) registry = Ok (pm_digest (generation 2%N)).
Proof. apply (pinned_generation_validated build 1%N). vm_compute. reflexivity. Defined.

Lemma publish_if_current_once_witness :
  let self' := fst (publish_generation_if_current built (key 3%N) (Some (key 2%N))) in
  snd (publish_generation_if_current built (key 3%N) (Some (key 2%N))) = Ok true /\
  snd (publish_generation_if_current (fold_left store_op [OpBegin (generation 4%N)] self')
         (key 4%N) (Some (key 2%N))) <> Ok true.
Proof.
  split; [vm_compute; reflexivity|].
  apply (publish_if_current_once (build ++ increment) [OpBegin (generation 4%N)] (key 3%N) (key 4%N)
           (Some (key 2%N))); vm_compute; reflexivity.
Defined.

Lemma generation_digest_contents_witness :
  generation_digest 1%N (rev (map (with_manifest (generation 3%N)) contents)) registry
  = Ok contents_digest.
Proof.
  apply (generation_digest_contents manifest 1%N contents
           (rev (map (with_manifest (generation 3%N)) contents)) registry contents_digest).
  - reflexivity.
  - repeat (apply Forall_cons_2; [reflexivity|]). apply Forall_nil_2.
  - apply perm_swap.
  - vm_compute. reflexivity.
Defined.

(** ** Compiling a resource and persisting a remote one *)

Definition lens : DiscoveryLens := {|
  dl_lens_id := "l"; dl_lens_version := 1; dl_resource_type := KindKnowledge;
  dl_domain_scope := None; dl_source_scope := None; dl_identity_fields := [];
  dl_high_signal_facets := ["team"]; dl_searchable_fields := []; dl_applicability_fields := [];
  dl_temporal_fields := []; dl_relation_fields := []; dl_extraction_policy := None;
  dl_projection_policy := None |}.

Definition team_profile : DiscoveryProfile := {|
  dr_canonical_name := "n"; dr_aliases := []; dr_concept_refs := []; dr_intents := [];
  dr_high_signal_facets := [("team"%string, FacetKnown "blue"%string)]; dr_positive_signals := [];
  dr_negative_signals := []; dr_confusable_with := []; dr_distinguished_by := [];
  dr_projection_version := 1 |}.

(** A resource whose team is blue, with and without an authority for it. *)
Definition input : ProjectionInput := {|
  pi_resource :=
    DiscoverableResource_new (ResourceIdentity_new 7%N KindKnowledge 1%N) BodyKnowledge
      team_profile;
  pi_source := source; pi_lens := lens; pi_source_snapshot := "s";
  pi_projection_schema_version := "1"; pi_semantic_registry_version := "1"; pi_title := None;
  pi_typed_facets := [("team"%string, FacetKnown (TVString "blue"))]; pi_assertions := [];
  pi_authority_resolutions := [("team"%string, AuthorityResolved (TVString "blue"))];
  pi_relations := [] |}.

Definition compiled : CompiledResourceProjection :=
  match compile_resource (generation 2%N) input with Ok p => p | Err _ => projection 0%N [] end.

Definition begun : MemoryProjectionStore := store_run [OpBegin (generation 2%N)].

Lemma compiled_projection_stages_witness :
  snd (stage_resource begun compiled) = Ok tt /\ exists seg',
    segment_at (ms_state (fst (stage_resource begun compiled))) (key 2%N) = Some seg' /\
    sg_phase seg' = PBuilding /\
    forall j, bt_get j (sg_resources seg') = if decide (j = 7%N) then Some compiled else None.
Proof.
  apply (compiled_projection_stages begun (generation 2%N) input compiled compiled
           {| sg_manifest := generation 2%N; sg_phase := PBuilding; sg_resources := [];
              sg_registry := None; sg_staged_ids := []; sg_retired_ids := [] |}).
  1-4: vm_compute; reflexivity.
  - apply (store_run_ok [OpBegin (generation 2%N)]).
  - vm_compute. reflexivity.
  - reflexivity.
  - reflexivity.
  - apply bt_wf_nil.
  - reflexivity.
  - reflexivity.
Defined.

Definition fields : list (string * RemoteFieldKind) := [("team"%string, FieldText)].
Definition registration : RegistrationView :=
  {| rg_retention_mode := PersistentResource; rg_source_id := 1%N;
    rg_allowed_resource_kinds := [] |}.
Definition policy : PolicyView :=
  {| cu_resource_kind := KindKnowledge; cu_retention_mode := PersistentResource |}.

Lemma remote_projection_bounded_witness :
  sp_typed_facets (rp_structured compiled) = [("team"%string, FacetKnown (TVString "blue"))] /\
  reserved "team" = false /\
  exists kind, ("team"%string, kind) ∈ fields /\ admits kind (TVString "blue") = true.
Proof.
  split; [vm_compute; reflexivity|].
  apply (remote_projection_bounded compiled registration policy fields fields compiled);
    [vm_compute; reflexivity..|]. vm_compute. apply list_elem_of_here.
Defined.

(** ** A vector index over two parts *)

Module VectorToy.
Definition zeros : string := digest_string (sha256 []).

Definition spec : EmbeddingModelSpec := {|
  es_model_name := "m"; es_model_revision := "r1"; es_weights_sha256 := sha256 [];
  es_tokenizer_revision := "t1"; es_tokenizer_files_sha256 := sha256 [];
  es_tokenizer_config_sha256 := sha256 []; es_unicode_preprocessing := "nfc";
  es_input_preprocessing := "none"; es_query_template := "q: {text}";
  es_passage_template := "p: {text}"; es_pooling := "mean"; es_attention_masking := "full";
  es_max_tokens := 512; es_chunking := "unit"; es_truncation := "none"; es_dimension := 2;
  es_precision := F32; es_normalization := VnUnitL2; es_metric := Cosine;
  es_runtime_family := "onnx"; es_runtime_build := "b1"; es_native_binary_sha256 := None;
  es_deterministic_config_sha256 := sha256 [] |}.

Definition key : ProjectionGenerationKey := {| gk_source_id := 1%N; gk_generation_id := 9%N |}.
Definition raw : RawBinding :=
  {| rw_sha256 := sha256 []; rw_size_bytes := 3; rw_media_type := "text/plain" |}.
Definition part (ordinal : Z) : ContentPartRef :=
  {| cp_source_native_part_id := "p"; cp_logical_path := "a.txt"; cp_ordinal := ordinal |}.
Definition id_of (p : ContentPartRef) (locator : NativeLocator) (ordinal : Z) : UnitId :=
  match UnitId_derive version p "ep1:txt" locator ordinal with Ok id => id | Err _ => sha256 [] end.

Definition unit_at (p : ContentPartRef) (ordinal : Z) (parent : option UnitId) (text : string)
    : KnowledgeUnit := {|
  ku_unit_id := id_of p (LText ordinal (ordinal + 1)) ordinal; ku_version := version; ku_part := p;
  ku_parent_unit_id := parent; ku_ordinal := ordinal; ku_kind := PlainText; ku_text := text;
  ku_locator := LText ordinal (ordinal + 1); ku_text_sha256 := text_sha256 text;
  ku_provenance := {|
    up_source_snapshot := "snap"; up_authoritative_representation_ref := "rep"; up_raw := raw;
    up_detected_format := TextFormat; up_archive_inner_format := None; up_profile := "ep1:txt";
    up_parser_build_id := "parser-1" |} |}.

Definition authority (p : ContentPartRef) (mode : RetentionMode) : VectorAuthorityInput := {|
  va_generation := key; va_version := version; va_part := p;
  va_authoritative_representation_ref := "rep"; va_raw := raw; va_profile := "ep1:txt";
  va_authority_scope_key := "scope"; va_retention_lease_id := "lease"; va_lifetime_scope_id := "";
  va_retention_mode := mode; va_lease_expires_at := Some 100 |}.

Definition item (u : KnowledgeUnit) (mode : RetentionMode) : VectorManifestUnit :=
  {| mu_unit := u; mu_authority := authority (ku_part u) mode; mu_coverage := Complete |}.

(** The second unit may not be indexed. *)
Definition first : VectorManifestUnit := item (unit_at (part 0) 0 None "one") PersistentResource.
Definition second : VectorManifestUnit :=
  item (unit_at (part 0) 1 (Some (ku_unit_id (mu_unit first))) "two") PersistentDiscoveryMetadata.
Definition third : VectorManifestUnit := item (unit_at (part 1) 2 None "three") CacheWithExpiry.

Definition input : VectorManifestInput := {|
  mi_bundle_key := key; mi_body_receipt_digest := zeros; mi_source_snapshot := "snap";
  mi_authority_scope_key := "scope"; mi_retention_lease_id := "lease";
  mi_lease_expires_at := Some 100; mi_source_declares_persistent_embedding_permission := false;
  mi_units := [first; second; third];
  mi_nonindexed_retention_unit_ids := [ku_unit_id (mu_unit second)];
  mi_lexical_analyzer_revision := "lex1"; mi_graph_schema_revision := "graph1" |}.

Definition index : VectorIndexDescriptor := {|
  vx_engine := "flat"; vx_engine_build := "b1"; vx_parameters_digest := zeros;
  vx_index_receipt_digest := zeros; vx_index_digest := zeros |}.

(** The vectors (1, 0) and (0, -1). *)
Definition one : f32 := S754_finite false 8388608 (-23).
Definition bind (i : VectorManifestUnit) (values : list f32) : list VectorEntryRef :=
  match BoundEmbedding_new spec (mu_unit i) (mu_authority i) values with
  | Ok b => [entry_ref b]
  | Err _ => []
  end.
Definition entries : list VectorEntryRef :=
  bind third [S754_zero true; SFopp one] ++ bind first [one; S754_zero false].

Definition staged : VecResult VectorProjectionManifest := stage spec input index entries Volatile
  50.

Definition manifest : VectorProjectionManifest :=
  match staged with
  | Ok m => m
  | Err _ =>
      unsealed spec zeros 2 (header input) index
        {| co_profiles := []; co_nonindexed := []; co_bindings_digest := "";
           co_entries_digest := ""; co_indexed_count := 0 |} Volatile 50
  end.

Lemma manifest_staged : staged = Ok manifest.
Proof. vm_compute. reflexivity. Qed.

Lemma accepted (es : list VectorEntryRef) :
  is_ok (validate_against manifest input es) = true -> exists r, validate_against manifest input es
    = Ok r.
Proof. destruct (validate_against _ _ _); [eauto|done]. Qed.

Lemma validated_covers_witness :
  staged = Ok manifest /\ length entries = 2%nat /\ manifest_covers manifest input entries.
Proof.
  split_and!; [exact manifest_staged|vm_compute; reflexivity|].
  destruct (accepted entries) as [r Hr]; [vm_compute; reflexivity|].
  exact (validated_covers manifest input entries r Hr).
Defined.

Lemma stage_iff_validates_witness :
  staged = Ok manifest <-> exists r, validate_against manifest input entries = Ok r.
Proof.
  apply (stage_iff_validates spec manifest input entries); vm_compute; reflexivity.
Defined.

Lemma manifest_binds_input_witness :
  (manifest = manifest /\ mi_units input = mi_units input /\ Permutation entries (rev entries))
  \/ collision (validation_hashed manifest input entries)
       (validation_hashed manifest input (rev entries)).
Proof.
  destruct (accepted entries) as [r Hr]; [vm_compute; reflexivity|].
  destruct (accepted (rev entries)) as [r' Hr']; [vm_compute; reflexivity|].
  assert (manifest_typed manifest) as Hm by (vm_compute; repeat split; done).
  assert (Forall unit_typed (mi_units input)) as Hu
    by (repeat constructor; vm_compute; done).
  exact (manifest_binds_input manifest manifest input input entries (rev entries) r r' Hm Hm Hu Hu
           Hr Hr' eq_refl).
Defined.
End VectorToy.

(** ** Extraction of a CSV file *)

Module ExtractionToy.
Definition limit (key : BudgetKey) : Z :=
  match key with
  | InputBytes | WorkerOutputBytes => 1000
  | BudgetUnits | CsvRecords => 10
  | UnitUtf8Bytes | CsvFieldBytes => 100
  | _ => 0
  end.
Definition limits : ExtractionBudgets := map (fun key => (key, limit key)) BudgetKey_ALL.

Definition definition : ExtractionProfileDefinitionV1 := {|
  ep_format := Csv; ep_parser_name := "csv"; ep_parser_version := "1";
  ep_parser_build_sha256 := sha256 []; ep_native_binary_sha256 := None; ep_scope_revision := 1;
  ep_segmentation_revision := 1; ep_normalization_revision := 1; ep_locator_revision := 1;
  ep_format_settings := SettingsCsv "utf-8" 44 34; ep_limits := limits |}.

Definition profile : RegisteredProfile :=
  match register_definition definition with
  | Ok profile => profile
  | Err _ =>
      {| rp_id := ""; rp_definition := definition; rp_parser_build_sha256 := sha256 [];
         rp_native_binary_sha256 := None; rp_budgets := []; rp_archive_plan := None;
         rp_profile_bytes := [] |}
  end.
Example registered : register_definition definition = Ok profile.
Proof. vm_compute. reflexivity. Qed.

Lemma limits_are_typed : limits_typed limits.
Proof.
  split.
  - repeat constructor.
  - intros k. exists (limit k). by destruct k.
Qed.

(** *** Messages *)

Definition request : WorkerRequest := {|
  wq_operation := OpResolveLocators [LCsv 2 3; LCsv 4 0]; wq_format := Csv;
  wq_profile := rp_id profile; wq_profile_bytes := rp_profile_bytes profile;
  wq_expected_raw := {| rw_sha256 := sha256 []; rw_size_bytes := 700; rw_media_type := "text/csv" |};
  wq_budgets := limits |}.
Example request_accepted : validate_worker_request request profile = Ok tt.
Proof. vm_compute. reflexivity. Qed.

Definition fragment (ordinal : Z) (parent : option Z) (text : string) : WorkerFragment := {|
  wf_ordinal := ordinal; wf_parent_ordinal := parent; wf_kind := CsvField; wf_text := text;
  wf_locator := LCsv ordinal 0 |}.
Definition report : WorkerReport := {|
  wp_coverage := Partial [UnsupportedDialect];
  wp_fragments := [fragment 0 None "one"; fragment 1 (Some 0) "two"]; wp_reader_use := [];
  wp_scope_items := 3;
  wp_known_omissions :=
    [{| no_package_path := None; no_physical_child_path := [2]; no_reason := UnsupportedDialect |}];
  wp_traversal_complete := true |}.
Definition response : WorkerResponse := WrReport report.

Definition request_bytes : list Z :=
  match encode_request request with Ok bs => bs | Err _ => [] end.
Definition response_bytes : list Z :=
  match encode_response response with Ok bs => bs | Err _ => [] end.

Lemma checked_bytes bs : forallb (fun b => (0 <=? b) && (b <? 256)) bs = true -> Forall byte bs.
Proof. intros H. apply Forall_forall. intros b Hb. rewrite forallb_forall in H.
  apply list_elem_of_In, H in Hb. by simp_bool. Qed.

Lemma request_is_typed : request_typed request.
Proof.
  unfold request_typed. refine (conj _ (conj _ (conj _ (conj _ (conj _ (conj _ _)))))).
  - cbn. repeat (apply Forall_cons_2; [by split|]). apply Forall_nil_2.
  - vm_compute. reflexivity.
  - vm_compute. reflexivity.
  - apply checked_bytes. vm_compute. reflexivity.
  - done.
  - vm_compute. reflexivity.
  - exact limits_are_typed.
Qed.

Lemma response_is_typed : response_typed response.
Proof.
  cbn. split_and!.
  - repeat (apply Forall_cons_2; [split_and!; [done|cbn; intros ? [= <-]; done|done|done]|]).
    apply Forall_nil_2.
  - apply Forall_nil_2.
  - done.
  - apply Forall_cons_2; [|apply Forall_nil_2]. split; [done|].
    apply Forall_cons_2; [done|apply Forall_nil_2].
Qed.

Lemma worker_messages_roundtrip_witness :
  decode_request request_bytes = Ok request /\ decode_response response_bytes = Ok response.
Proof.
  split.
  - apply (worker_messages_roundtrip request_bytes).
    + apply checked_bytes. vm_compute. reflexivity.
    + split; [exact request_is_typed|vm_compute; reflexivity].
  - apply (worker_messages_roundtrip response_bytes).
    + apply checked_bytes. vm_compute. reflexivity.
    + split; [exact response_is_typed|vm_compute; reflexivity].
Defined.

(** *** The meter *)

Definition calls : list (BudgetKey * Z) :=
  [(InputBytes, 700); (CsvRecords, 6); (CsvFieldBytes, 80); (CsvRecords, 5); (InputBytes, 1);
   (CsvFieldBytes, 90); (CsvRecords, 4)].
Definition meter : BudgetMeter :=
  match BudgetMeter_new limits with
  | Ok m => m
  | Err _ => {| bm_limits := []; bm_charged := []; bm_input_charged := false |}
  end.
Definition accepted_calls : list (BudgetKey * Z) := (charge_all meter calls).2.
Example accepted_calls_are :
  accepted_calls = [(InputBytes, 700); (CsvRecords, 6); (CsvFieldBytes, 80); (CsvFieldBytes, 90);
                    (CsvRecords, 4)].
Proof. vm_compute. reflexivity. Qed.

Lemma meter_accounts_witness :
  charged (charge_all meter calls).1 CsvRecords = 10
  /\ charged (charge_all meter calls).1 CsvFieldBytes = 90
  /\ charge (charge_all meter calls).1 CsvRecords 1
       = ((charge_all meter calls).1, Err resource_limit_failure).
Proof.
  destruct (meter_accounts limits meter calls (charge_all meter calls).1 accepted_calls)
    as (_ & Hc & _ & Hn).
  - exact limits_are_typed.
  - vm_compute. reflexivity.
  - repeat (apply Forall_cons_2; [vm_compute; split; congruence|]). apply Forall_nil_2.
  - vm_compute. reflexivity.
  - split_and!.
    + rewrite (proj1 (Hc CsvRecords)). vm_compute. reflexivity.
    + rewrite (proj1 (Hc CsvFieldBytes)). vm_compute. reflexivity.
    + apply (Hn CsvRecords 1). vm_compute. split; congruence.
Defined.

(** *** The report *)

Lemma completed_report_sound_witness :
  fragment_sound profile 1 (fragment 1 (Some 0) "two") /\ coverage_sound report.
Proof.
  destruct (completed_report_sound response profile report) as (_ & _ & H).
  - vm_compute. reflexivity.
  - cbn [wp_traversal_complete report] in H. destruct H as (Hf & _ & _ & Hc & _).
    split; [|exact Hc]. exact (Hf 1%nat (fragment 1 (Some 0) "two") eq_refl).
Defined.
End ExtractionToy.
End SearchToy.
