(* ===== verification/Outbox.v ===== *)
(** * Outbox: values of the delivery of outbox events (outbox-delivery: model.rs, policy.rs,
    observe.rs)

    The codes and decisions of a delivery, the bounds a worker must keep, the deterministic retry
    schedule and the trace context that travels with an event.  A [Duration] is a number of
    nanoseconds.  Metrics are not modelled: nothing reads them back. *)
From stdpp Require Import base gmap sets list strings vector.
From Stdlib Require Import ZArith Lia Ascii.
From S2P Require Import Prelude Text Ordered Manifest Json AuditKinds AuditCatalog AuditChain.

Local Open Scope Z_scope.

(** ** model.rs *)

Inductive ErrorCode : Type :=
| EcUnsupportedEvent | EcInvalidEnvelope | EcSourceUnavailable | EcIndexingFailed
| EcHandlerTimeout | EcDeliveryUnknown | EcDeliveryUnknownAtLimit.
#[global] Instance ErrorCode_eq_dec : EqDecision ErrorCode.
Proof. solve_decision. Defined.

Definition ErrorCode_ALL : list ErrorCode :=
  [EcUnsupportedEvent; EcInvalidEnvelope; EcSourceUnavailable; EcIndexingFailed;
   EcHandlerTimeout; EcDeliveryUnknown; EcDeliveryUnknownAtLimit].

Definition ErrorCode_as_str (code : ErrorCode) : string :=
  match code with
  | EcUnsupportedEvent => "unsupported_event"
  | EcInvalidEnvelope => "invalid_envelope"
  | EcSourceUnavailable => "source_unavailable"
  | EcIndexingFailed => "indexing_failed"
  | EcHandlerTimeout => "handler_timeout"
  | EcDeliveryUnknown => "delivery_unknown"
  | EcDeliveryUnknownAtLimit => "delivery_unknown_at_limit"
  end.

Definition ErrorCode_from_str (value : string) : Result ErrorCode unit :=
  if value == "unsupported_event" then Ok EcUnsupportedEvent
  else if value == "invalid_envelope" then Ok EcInvalidEnvelope
  else if value == "source_unavailable" then Ok EcSourceUnavailable
  else if value == "indexing_failed" then Ok EcIndexingFailed
  else if value == "handler_timeout" then Ok EcHandlerTimeout
  else if value == "delivery_unknown" then Ok EcDeliveryUnknown
  else if value == "delivery_unknown_at_limit" then Ok EcDeliveryUnknownAtLimit
  else Err tt.

Inductive FenceResult : Type := Updated | Lost.
#[global] Instance FenceResult_eq_dec : EqDecision FenceResult.
Proof. solve_decision. Defined.

Inductive DeliveryDecision : Type :=
| DApplied
| DKnownNoop
| DRetryable (code : ErrorCode)
| DTerminal (code : ErrorCode).
#[global] Instance DeliveryDecision_eq_dec : EqDecision DeliveryDecision.
Proof. solve_decision. Defined.

Inductive DeliveryError : Type :=
| PolicyMismatch
| LegacyExhausted (count : Z) (first_ids : list Uuid)
| InvalidConfig
| StoreUnknown.
#[global] Instance DeliveryError_eq_dec : EqDecision DeliveryError.
Proof. solve_decision. Defined.

Section Events.
Context {F : Floats}.

Record DeliveryEnvelope : Type := {
  de_event_id : Uuid;
  de_event_type : string;
  de_aggregate_type : string;
  de_aggregate_id : Uuid;
  de_payload : Value;
  de_occurred_at : Z
}.

Record ClaimedEvent : Type := {
  ce_envelope : DeliveryEnvelope;
  ce_attempt : Z;
  ce_attempt_limit : Z;
  ce_lease_token : Uuid;
  ce_lease_owner : Uuid;
  ce_lease_expires_at : Z
}.
End Events.

(** ** policy.rs *)

(** [Duration::from_millis], [Duration::from_secs]. *)
Definition from_millis (ms : Z) : Z := ms * 1000000.
Definition from_secs (s : Z) : Z := s * 1000000000.

Record DeliveryPolicy : Type := {
  dp_revision : Z;
  dp_max_attempts : Z;
  dp_lease_min_ms : Z;
  dp_lease_max_ms : Z;
  dp_backoff_min_ms : Z;
  dp_backoff_max_ms : Z
}.
#[global] Instance DeliveryPolicy_eq_dec : EqDecision DeliveryPolicy.
Proof. solve_decision. Defined.

Definition DeliveryPolicy_default : DeliveryPolicy := {|
  dp_revision := 1; dp_max_attempts := 8; dp_lease_min_ms := 1000; dp_lease_max_ms := 120000;
  dp_backoff_min_ms := 1000; dp_backoff_max_ms := 300000 |}.

Record DeliveryConfig : Type := {
  dc_batch_size : Z;
  dc_max_in_flight : Z;
  dc_lease_duration : Z;
  dc_renew_interval : Z;
  dc_max_processing : Z;
  dc_drain_timeout : Z;
  dc_poll_interval : Z;
  dc_reap_batch : Z
}.

Definition DeliveryConfig_default : DeliveryConfig := {|
  dc_batch_size := 32; dc_max_in_flight := 8; dc_lease_duration := from_secs 120;
  dc_renew_interval := from_secs 30; dc_max_processing := from_secs (15 * 60);
  dc_drain_timeout := from_secs 30; dc_poll_interval := from_secs 1; dc_reap_batch := 32 |}.

Definition DeliveryConfig_validate (self : DeliveryConfig) : Result unit DeliveryError :=
  let lease_min := from_secs 1 in
  let lease_max := from_secs 120 in
  let processing_max := from_secs (24 * 60 * 60) in
  let valid :=
    in_range 1 32 (dc_batch_size self)
    && in_range 1 8 (dc_max_in_flight self)
    && in_range 1 32 (dc_reap_batch self)
    && in_range lease_min lease_max (dc_lease_duration self)
    && negb (dc_renew_interval self =? 0)
    && (dc_renew_interval self <? dc_lease_duration self / 3)
    && negb (dc_max_processing self =? 0)
    && (dc_max_processing self <=? processing_max)
    && negb (dc_drain_timeout self =? 0)
    && (dc_drain_timeout self <=? dc_max_processing self)
    && negb (dc_poll_interval self =? 0)
    && (dc_poll_interval self <=? dc_lease_duration self) in
  if valid then Ok tt else Err InvalidConfig.

Definition CAP_MS : Z := 300000.

(** [Ord::clamp]; [lo] is at most [hi] at every call. *)
Definition clamp (x lo hi : Z) : Z := if x <? lo then lo else if hi <? x then hi else x.

(** The digest as a number modulo [modulus]. *)
Definition jitter (digest : list ascii) (modulus : Z) : Z :=
  fold_left (fun jitter_ms byte => (jitter_ms * 256 + byte_of_ascii byte) mod modulus) digest 0.

Section Retry.
Context {D : Digest}.

(** [u64::saturating_add]. *)
Definition saturating_add_u64 (a b : Z) : Z := Z.min (a + b) (2 ^ 64 - 1).

Definition retry_delay (event_id : Uuid) (attempt : Z) : Z :=
  let attempt := Z.max attempt 1 in
  if 10 <=? attempt then from_millis CAP_MS
  else
    let base_ms := Z.shiftl 1000 (attempt - 1) in
    let digest := vec_to_list (sha256 (uuid_be event_id ++ be_bytes [24; 16; 8; 0] attempt)) in
    let jitter_ms := jitter digest (base_ms / 4 + 1) in
    from_millis (clamp (saturating_add_u64 base_ms jitter_ms) 1000 CAP_MS).

Definition retry_delay_within (event_id : Uuid) (attempt : Z) (bounds : Z * Z) : Z :=
  let (low, high) := bounds in clamp (retry_delay event_id attempt) low (Z.max high low).
End Retry.

(** ** observe.rs: the trace context of W3C *)

Record ValidatedTrace : Type := { vt_traceparent : string; vt_tracestate : option string }.
#[global] Instance ValidatedTrace_eq_dec : EqDecision ValidatedTrace.
Proof. solve_decision. Defined.

Definition is_ascii (bs : list Z) : bool := forallb (fun b => b <? 128) bs.

(** [&bytes[a..b]] and [bytes[i]], in range at every use. *)
Definition slice (a b : nat) (bs : list Z) : list Z := take (b - a) (drop a bs).
Definition at_index (i : nat) (bs : list Z) : Z := nth i bs (-1).

Definition all_zero (bs : list Z) : bool := forallb (fun c => c =? 48) bs.

(** [str::trim_matches([' ', '\t'])], on bytes. *)
Fixpoint drop_blanks (bs : list Z) : list Z :=
  match bs with
  | c :: r => if (c =? 32) || (c =? 9) then drop_blanks r else bs
  | [] => []
  end.
Definition trim_blanks (s : string) : string :=
  of_bytes (rev (drop_blanks (rev (drop_blanks (bytes s))))).

Definition key_char (c : Z) : bool :=
  is_ascii_lowercase c || is_ascii_digit c || contains [95; 45; 42; 47] c.

Definition valid_key (key : string) : bool :=
  match split_once_byte 64 key with
  | Some (tenant, system) =>
      in_range 1 241 (str_len tenant) && is_ascii_alphanumeric (at_index 0 (bytes tenant))
      && forallb key_char (bytes tenant)
      && in_range 1 14 (str_len system) && is_ascii_lowercase (at_index 0 (bytes system))
      && forallb key_char (bytes system)
  | None =>
      in_range 1 256 (str_len key) && is_ascii_lowercase (at_index 0 (bytes key))
      && forallb key_char (bytes key)
  end.

Definition valid_value (value : string) : bool :=
  in_range 1 256 (str_len value)
  && forallb (fun c => in_range 32 126 c && negb (c =? 44) && negb (c =? 61)) (bytes value)
  && negb (last (bytes value) == Some 32).

(** The loop over the members, with their positions and the keys seen so far. *)
Fixpoint members_valid (index : Z) (keys : list string) (members : list string) : bool :=
  match members with
  | [] => true
  | member :: rest =>
      if 32 <=? index then false
      else
        let member := trim_blanks member in
        if is_empty (bytes member) then members_valid (index + 1) keys rest
        else
          match split_once_byte 61 member with
          | None => false
          | Some (key, value) =>
              if negb (valid_key key) || contains keys key || negb (valid_value value) then false
              else members_valid (index + 1) (keys ++ [key]) rest
          end
  end.

Definition valid_state (state : string) : bool :=
  if (512 <? str_len state) || negb (is_ascii (bytes state)) then false
  else members_valid 0 [] (split_at_any [44] state).

Definition parent_rejected (bs : list Z) : bool :=
  negb (in_range 55 512 (len bs))
  || negb (is_ascii bs)
  || negb (at_index 2 bs =? 45)
  || negb (at_index 35 bs =? 45)
  || negb (at_index 52 bs =? 45)
  || negb (forallb is_lower_hex (slice 0 2 bs))
  || (slice 0 2 bs == bytes "ff")
  || negb (forallb is_lower_hex (slice 3 35 bs))
  || all_zero (slice 3 35 bs)
  || negb (forallb is_lower_hex (slice 36 52 bs))
  || all_zero (slice 36 52 bs)
  || negb (forallb is_lower_hex (slice 53 55 bs))
  || ((slice 0 2 bs == bytes "00") && negb (len bs =? 55))
  || ((55 <? len bs)
      && (negb (at_index 55 bs =? 45) || negb (forallb (in_range 33 126) (drop 56 bs)))).

Definition validate_trace_context (parent state : option string) : option ValidatedTrace :=
  match parent with
  | None => None
  | Some parent =>
      if parent_rejected (bytes parent) then None
      else Some {| vt_traceparent := parent; vt_tracestate := opt_filter valid_state state |}
  end.

Record DeliverySpan : Type := {
  sp_event_id : Uuid;
  sp_attempt : Z;
  sp_parent : option ValidatedTrace;
  sp_context : ValidatedTrace
}.

(** [Uuid::simple]: 32 digits. *)
Definition simple (u : Uuid) : string := to_hex (uuid_be u).

(** [u8::from_str_radix(digits, 16)] of the two lower-case digits of a validated parent. *)
Definition radix16 (digits : list Z) : Z := fold_left (fun n d => n * 16 + nibble d) digits 0.

(** [new]; [trace_uuid] and [span_uuid] are what the two calls of [Uuid::now_v7] return. *)
Definition DeliverySpan_new (trace_uuid span_uuid event_id : Uuid) (attempt : Z)
    (parent : option ValidatedTrace) : DeliverySpan :=
  let trace_id := bytes (simple trace_uuid) in
  let span_id := bytes (simple span_uuid) in
  let '(trace_id, flags) :=
    match parent with
    | None => (trace_id, bytes "00")
    | Some p =>
        let bs := bytes (vt_traceparent p) in
        (slice 3 35 bs,
         if Z.land (radix16 (slice 53 55 bs)) 1 =? 1 then bytes "01" else bytes "00")
    end in
  {| sp_event_id := event_id; sp_attempt := attempt; sp_parent := parent;
     sp_context := {|
       vt_traceparent :=
         of_bytes (bytes "00-" ++ trace_id ++ [45] ++ drop 16 span_id ++ [45] ++ flags);
       vt_tracestate := parent ≫= vt_tracestate |} |}.

(** ** Codes and bounds *)

Lemma ErrorCode_round_trip value code :
  ErrorCode_from_str value = Ok code <-> ErrorCode_as_str code = value.
Proof.
  unfold ErrorCode_from_str. split; [|intros <-; by destruct code].
  repeat (case_bool_decide; [intros [= <-]; by subst|]). done.
Qed.

Lemma clamp_bounds x lo hi : lo <= hi -> lo <= clamp x lo hi <= hi.
Proof. unfold clamp. intros H. repeat case_match; simp_bool; lia. Qed.

Lemma clamp_mono x y lo hi : lo <= hi -> x <= y -> clamp x lo hi <= clamp y lo hi.
Proof. unfold clamp. intros H1 H2. repeat case_match; simp_bool; lia. Qed.

Lemma in_range_iff lo hi x : in_range lo hi x = true <-> lo <= x <= hi.
Proof. unfold in_range. rewrite andb_true_iff, !Z.leb_le. lia. Qed.

(** What a validated configuration guarantees: a heartbeat renews before a third of the lease
    has passed, and a drain ends within the processing time. *)
Lemma DeliveryConfig_validated c :
  DeliveryConfig_validate c = Ok tt ->
  1 <= dc_batch_size c <= 32 /\ 1 <= dc_max_in_flight c <= 8 /\ 1 <= dc_reap_batch c <= 32 /\
  from_secs 1 <= dc_lease_duration c <= from_secs 120 /\
  3 * dc_renew_interval c < dc_lease_duration c /\
  dc_drain_timeout c <= dc_max_processing c <= from_secs 86400.
Proof.
  unfold DeliveryConfig_validate. intros H. inv_ok.
  repeat match goal with H : _ && _ = true |- _ => apply andb_true_iff in H as [H ?] end.
  rewrite !in_range_iff in *. simp_bool.
  pose proof (Z.mul_div_le (dc_lease_duration c) 3 ltac:(lia)). unfold from_secs in *. lia.
Qed.

Example default_config_valid : DeliveryConfig_validate DeliveryConfig_default = Ok tt.
Proof. reflexivity. Qed.

(** ** The retry schedule *)

Lemma jitter_bounds digest modulus : 0 < modulus -> 0 <= jitter digest modulus < modulus.
Proof.
  intros Hm. unfold jitter. set (step := fun _ _ => _).
  enough (forall n, 0 <= n < modulus -> 0 <= fold_left step digest n < modulus) as H
    by (apply H; lia).
  induction digest as [|c digest IH]; intros n Hn; cbn [fold_left]; [done|].
  apply IH, Z.mod_pos_bound, Hm.
Qed.

Lemma shift_base n : 0 <= n -> Z.shiftl 1000 n = 1000 * 2 ^ n.
Proof. intros. by rewrite Z.shiftl_mul_pow2. Qed.

(** The step of the jitter stays far below the width of its accumulator. *)
Lemma jitter_no_overflow acc c modulus :
  0 <= acc < modulus -> modulus <= 64001 -> acc * 256 + byte_of_ascii c < 2 ^ 64.
Proof. intros. unfold byte_of_ascii. pose proof (N_ascii_bounded c). lia. Qed.

Section RetryTheorems.
Context {D : Digest}.

(** The delay before the cap, in milliseconds. *)
Definition raw_delay (event_id : Uuid) (attempt : Z) : Z :=
  let base_ms := 1000 * 2 ^ (attempt - 1) in
  base_ms
  + jitter (vec_to_list (sha256 (uuid_be event_id ++ be_bytes [24; 16; 8; 0] attempt)))
      (base_ms / 4 + 1).

Lemma raw_delay_bounds event_id attempt :
  1 <= attempt -> 1000 * 2 ^ (attempt - 1) <= raw_delay event_id attempt <= 1000 * 2 ^ attempt.
Proof.
  intros Ha. unfold raw_delay. assert (0 < 2 ^ (attempt - 1)) by (apply Z.pow_pos_nonneg; lia).
  replace (2 ^ attempt) with (2 * 2 ^ (attempt - 1)) by (rewrite <- Z.pow_succ_r; [f_equal|]; lia).
  set (b := 2 ^ (attempt - 1)) in *.
  assert (1000 * b / 4 = 250 * b) as -> by (replace (1000 * b) with (250 * b * 4) by lia;
    apply Z.div_mul; lia).
  match goal with |- context [jitter ?d ?m] => pose proof (jitter_bounds d m ltac:(lia)) end. lia.
Qed.

Lemma retry_delay_eq event_id attempt :
  1 <= attempt < 10 -> retry_delay event_id attempt = from_millis (Z.min (raw_delay event_id
    attempt) CAP_MS).
Proof.
  intros Ha. pose proof (raw_delay_bounds event_id attempt ltac:(lia)) as Hb.
  unfold retry_delay. rewrite Z.max_l by lia.
  rewrite (proj2 (Z.leb_gt 10 attempt)) by lia. cbv zeta. rewrite shift_base by lia.
  fold (raw_delay event_id attempt).
  change (1000 * 2 ^ (attempt - 1) + jitter _ _) with (raw_delay event_id attempt) in *.
  f_equal. unfold saturating_add_u64.
  match goal with |- clamp (Z.min ?x _) _ _ = _ => change x with (raw_delay event_id attempt) end.
  assert (2 ^ 0 <= 2 ^ (attempt - 1)) by (apply Z.pow_le_mono_r; lia).
  assert (2 ^ attempt <= 2 ^ 9) by (apply Z.pow_le_mono_r; lia).
  change (2 ^ 0) with 1 in *. change (2 ^ 9) with 512 in *.
  change (2 ^ 64 - 1) with 18446744073709551615.
  rewrite Z.min_l by lia. unfold clamp, CAP_MS in *. repeat case_match; simp_bool; lia.
Qed.

Lemma retry_delay_first event_id attempt :
  retry_delay event_id attempt = retry_delay event_id (Z.max attempt 1).
Proof. unfold retry_delay. by rewrite (Z.max_l (Z.max attempt 1) 1) by lia. Qed.

Lemma retry_delay_late event_id attempt :
  10 <= attempt -> retry_delay event_id attempt = from_millis CAP_MS.
Proof. intros. unfold retry_delay. by rewrite Z.max_l, (proj2 (Z.leb_le 10 attempt)) by lia. Qed.

(** The schedule of one event: whole milliseconds between one second and five minutes, and later
    attempts never wait less than earlier ones, whatever the digests are. *)
Lemma retry_delay_shape event_id attempt :
  exists ms, retry_delay event_id attempt = from_millis ms /\ 1000 <= ms <= CAP_MS.
Proof.
  rewrite retry_delay_first. destruct (Z_lt_ge_dec (Z.max attempt 1) 10) as [Hl|Hl].
  - rewrite retry_delay_eq by lia. eexists. split; [done|].
    pose proof (raw_delay_bounds event_id (Z.max attempt 1) ltac:(lia)).
    assert (2 ^ 0 <= 2 ^ (Z.max attempt 1 - 1)) by (apply Z.pow_le_mono_r; lia).
    unfold CAP_MS. lia.
  - rewrite retry_delay_late by lia. by exists CAP_MS.
Qed.

Lemma retry_delay_mono event_id a b :
  a <= b -> retry_delay event_id a <= retry_delay event_id b.
Proof.
  rewrite (retry_delay_first _ a), (retry_delay_first _ b). intros Hab.
  assert (1 <= Z.max a 1 <= Z.max b 1) as H by lia.
  generalize dependent (Z.max b 1). generalize (Z.max a 1). clear. intros a b [Ha Hab].
  destruct (Z.eq_dec a b) as [->|Hne]; [lia|].
  destruct (Z_lt_ge_dec b 10) as [Hb|Hb].
  - rewrite !retry_delay_eq by lia. unfold from_millis.
    pose proof (raw_delay_bounds event_id a ltac:(lia)).
    pose proof (raw_delay_bounds event_id b ltac:(lia)).
    assert (2 ^ a <= 2 ^ (b - 1)) by (apply Z.pow_le_mono_r; lia). lia.
  - rewrite (retry_delay_late _ b) by lia.
    destruct (retry_delay_shape event_id a) as (ms & -> & ?). unfold from_millis. lia.
Qed.

(** C39: The retry schedule of an event: every delay is a whole number of milliseconds between
    one second and five minutes, a later attempt never waits less than an earlier one, and inside
    the range of a policy the delay stays there and keeps this order, whatever the hash is. *)
Theorem retry_schedule_sound event_id a b low high :
  (exists ms, retry_delay event_id a = from_millis ms /\ 1000 <= ms <= CAP_MS) /\
  (a <= b -> retry_delay event_id a <= retry_delay event_id b) /\
  (low <= high -> low <= retry_delay_within event_id a (low, high) <= high) /\
  (low <= high -> a <= b ->
   retry_delay_within event_id a (low, high) <= retry_delay_within event_id b (low, high)).
Proof.
  split_and!; [apply retry_delay_shape|apply retry_delay_mono| |];
    unfold retry_delay_within; intros H; rewrite Z.max_l by lia.
  - by apply clamp_bounds.
  - intros Hab. apply clamp_mono; [done|by apply retry_delay_mono].
Qed.
End RetryTheorems.

(** ** Trace contexts *)

(** A version 7 identifier: 128 bits, the version and the variant of RFC 9562. *)
Definition v7 (u : Uuid) : Prop :=
  (u < 2 ^ 128)%N /\ Z.land (Z.shiftr (Z.of_N u) 76) 15 = 7 /\
  Z.land (Z.shiftr (Z.of_N u) 62) 3 = 2.

Lemma hex_digit_nonzero d : 0 <= d < 16 -> d <> 0 -> byte_of_ascii (hex_digit_of d) <> 48.
Proof.
  intros H Hd. assert (d ∈ map Z.of_nat (seq 0 16)) as Hin.
  { apply list_elem_of_fmap. exists (Z.to_nat d). split; [lia|]. apply elem_of_seq. lia. }
  cbn in Hin. repeat (apply elem_of_cons in Hin as [->|Hin]; [done|]). by apply elem_of_nil in Hin.
Qed.

Lemma masked_byte z : 0 <= Z.land z 255 < 256.
Proof. change 255 with (Z.ones 8). rewrite Z.land_ones by lia. apply Z.mod_pos_bound. lia. Qed.

(** The leading digit of a byte one of whose upper bits is set. *)
Lemma leading_digit_nonzero z k i :
  0 <= k -> 4 <= i < 8 -> Z.testbit z (k + i) = true ->
  byte_of_ascii (hex_digit_of
    (Z.shiftr (byte_of_ascii (ascii_of_byte (Z.land (Z.shiftr z k) 255))) 4)) <> 48.
Proof.
  intros Hk Hi Hz. rewrite byte_of_ascii_of_byte by apply masked_byte. set (b := Z.land _ 255).
  assert (0 <= b < 256) as Hb.
  { subst b. change 255 with (Z.ones 8). rewrite Z.land_ones by lia.
    apply (Z.mod_pos_bound _ (2 ^ 8)). lia. }
  apply hex_digit_nonzero.
  - rewrite Z.shiftr_div_pow2 by lia. change (2 ^ 4) with 16.
    split; [apply Z.div_pos; lia|apply Z.div_lt_upper_bound; lia].
  - intros H0. assert (Z.testbit (Z.shiftr b 4) (i - 4) = true) as Ht.
    { rewrite Z.shiftr_spec by lia. replace (i - 4 + 4) with i by lia. subst b.
      rewrite Z.land_spec, Z.shiftr_spec by lia. rewrite (Z.add_comm i k), Hz.
      change 255 with (Z.ones 8). by rewrite Z.ones_spec_low by lia. }
    by rewrite H0, Z.bits_0 in Ht.
Qed.

Lemma land_testbit z k w m i :
  0 <= k -> 0 <= i -> Z.land (Z.shiftr z k) w = m -> Z.testbit m i = true ->
  Z.testbit z (k + i) = true.
Proof.
  intros Hk Hi <- H. rewrite Z.land_spec, Z.shiftr_spec in H by lia.
  apply andb_true_iff in H as [H _]. by rewrite Z.add_comm.
Qed.

Lemma simple_length u : length (bytes (simple u)) = 32%nat.
Proof. unfold simple. rewrite bytes_to_hex. reflexivity. Qed.

Lemma simple_hex u : forallb is_lower_hex (bytes (simple u)) = true.
Proof. apply to_hex_digits. Qed.

Lemma forallb_drop {A} (p : A -> bool) n l : forallb p l = true -> forallb p (drop n l) = true.
Proof. rewrite !forallb_forall. intros H x Hx. apply H. rewrite <- (take_drop n l), in_app_iff.
  auto. Qed.

Lemma forallb_slice (q : Z -> bool) i j l :
  forallb q l = true -> forallb q (slice i j l) = true.
Proof.
  rewrite !forallb_forall. intros H x Hx. apply H. unfold slice in Hx.
  rewrite <- (take_drop i l), in_app_iff. right.
  rewrite <- (take_drop (j - i) (drop i l)), in_app_iff. auto.
Qed.

Lemma v7_nonzero u :
  v7 u -> all_zero (bytes (simple u)) = false /\ all_zero (drop 16 (bytes (simple u))) = false.
Proof.
  intros (_ & Hver & Hvar).
  pose proof (land_testbit _ 76 15 7 0 ltac:(lia) ltac:(lia) Hver eq_refl) as H76.
  pose proof (land_testbit _ 62 3 2 1 ltac:(lia) ltac:(lia) Hvar eq_refl) as H63.
  pose proof (leading_digit_nonzero (Z.of_N u) 72 4 ltac:(lia) ltac:(lia) H76) as N6.
  pose proof (leading_digit_nonzero (Z.of_N u) 56 7 ltac:(lia) ltac:(lia) H63) as N8.
  unfold simple, all_zero. rewrite bytes_to_hex.
  unfold uuid_be, be_bytes. cbn [map flat_map hex_of_byte app drop].
  split; apply not_true_iff_false; rewrite forallb_forall; intros H.
  - apply N6, Z.eqb_eq, H. do 12 right. by left.
  - apply N8, Z.eqb_eq, H. by left.
Qed.

Definition trace_bytes (tid sid flags : list Z) : list Z :=
  bytes "00-" ++ tid ++ [45] ++ sid ++ [45] ++ flags.

Lemma lower_hex_ascii l : forallb is_lower_hex l = true -> is_ascii l = true.
Proof.
  unfold is_ascii. rewrite !forallb_forall. intros H x Hx. apply H in Hx.
  unfold is_lower_hex, is_ascii_digit in Hx. rewrite orb_true_iff, !in_range_iff in Hx.
  apply Z.ltb_lt. lia.
Qed.

Lemma lower_hex_bytes l : forallb is_lower_hex l = true -> Forall byte l.
Proof.
  rewrite forallb_forall. intros H. apply Forall_forall. intros x Hx%list_elem_of_In%H.
  unfold is_lower_hex, is_ascii_digit in Hx. rewrite orb_true_iff, !in_range_iff in Hx.
  unfold byte. lia.
Qed.

Lemma slice_app p l s : slice (length p) (length p + length l) (p ++ l ++ s) = l.
Proof.
  unfold slice. rewrite drop_app_length. replace (_ + _ - _)%nat with (length l) by lia.
  apply take_app_length.
Qed.

Lemma index_app p x s : at_index (length p) (p ++ x :: s) = x.
Proof. apply nth_middle. Qed.

Section Accepted.
Context (tid sid flags : list Z).
Context (Ht : length tid = 32%nat) (Hs : length sid = 16%nat) (Hf : length flags = 2%nat).
Context (Xt : forallb is_lower_hex tid = true) (Xs : forallb is_lower_hex sid = true).
Context (Xf : forallb is_lower_hex flags = true).

Lemma trace_bytes_parts :
  let bs := trace_bytes tid sid flags in
  slice 0 2 bs = bytes "00" /\ slice 3 35 bs = tid /\ slice 36 52 bs = sid /\
  slice 53 55 bs = flags /\ at_index 2 bs = 45 /\ at_index 35 bs = 45 /\ at_index 52 bs = 45 /\
  len bs = 55.
Proof.
  unfold trace_bytes. cbv zeta. split_and!.
  - reflexivity.
  - pose proof (slice_app (bytes "00-") tid ([45] ++ sid ++ [45] ++ flags)) as H.
    by rewrite Ht in H.
  - pose proof (slice_app (bytes "00-" ++ tid ++ [45]) sid ([45] ++ flags)) as H.
    rewrite !length_app, Ht, Hs, <- !app_assoc in H. exact H.
  - pose proof (slice_app (bytes "00-" ++ tid ++ [45] ++ sid ++ [45]) flags []) as H.
    rewrite !length_app, Ht, Hs, Hf, <- !app_assoc, app_nil_r in H. exact H.
  - reflexivity.
  - pose proof (index_app (bytes "00-" ++ tid) 45 (sid ++ [45] ++ flags)) as H.
    rewrite length_app, Ht, <- app_assoc in H. exact H.
  - pose proof (index_app (bytes "00-" ++ tid ++ [45] ++ sid) 45 flags) as H.
    rewrite !length_app, Ht, Hs, <- !app_assoc in H. exact H.
  - unfold len. rewrite !length_app, Ht, Hs, Hf. reflexivity.
Qed.

Lemma trace_bytes_accepted :
  all_zero tid = false -> all_zero sid = false ->
  parent_rejected (trace_bytes tid sid flags) = false.
Proof.
  intros Zt Zs. destruct trace_bytes_parts as (E1 & E2 & E3 & E4 & E5 & E6 & E7 & E8).
  unfold parent_rejected. rewrite E1, E2, E3, E4, E5, E6, E7, E8, Xt, Xs, Xf, Zt, Zs.
  assert (is_ascii (trace_bytes tid sid flags) = true) as ->; [|reflexivity].
  pose proof (lower_hex_ascii _ Xt) as At. pose proof (lower_hex_ascii _ Xs) as As.
  pose proof (lower_hex_ascii _ Xf) as Af. unfold is_ascii in *.
  unfold trace_bytes. by rewrite !forallb_app, At, As, Af.
Qed.

Lemma trace_bytes_string :
  bytes (of_bytes (trace_bytes tid sid flags)) = trace_bytes tid sid flags.
Proof.
  apply bytes_of_bytes. unfold trace_bytes. rewrite !Forall_app.
  split_and!; try (by apply lower_hex_bytes); try (constructor; [unfold byte; lia|done]).
  apply bytes_byte.
Qed.
End Accepted.

(** A parent that was validated, taken apart. *)
Lemma validated_parent parent state p :
  validate_trace_context parent state = Some p ->
  parent_rejected (bytes (vt_traceparent p)) = false /\
  vt_tracestate p = opt_filter valid_state (vt_tracestate p).
Proof.
  unfold validate_trace_context. destruct parent as [s|]; [|done].
  destruct (parent_rejected (bytes s)) eqn:E; [done|]. intros [= <-]. cbn. split; [done|].
  destruct state as [st|]; cbn; [|done]. destruct (valid_state st) eqn:Ev; cbn; by rewrite ?Ev.
Qed.

(** The context a delivery hands on is itself a valid one: with identifiers of version 7 and
    a parent that was validated, or none, the new trace parent passes the validation of the next
    reader unchanged, carries the trace of the parent and its state, and names another span. *)
Theorem span_context_valid trace_uuid span_uuid event_id attempt parent :
  v7 trace_uuid -> v7 span_uuid ->
  (forall p, parent = Some p -> exists tp ts, validate_trace_context tp ts = Some p) ->
  let context := sp_context (DeliverySpan_new trace_uuid span_uuid event_id attempt parent) in
  validate_trace_context (Some (vt_traceparent context)) (vt_tracestate context) = Some context /\
  (forall p, parent = Some p ->
   slice 3 35 (bytes (vt_traceparent context)) = slice 3 35 (bytes (vt_traceparent p)) /\
   vt_tracestate context = vt_tracestate p) /\
  slice 36 52 (bytes (vt_traceparent context)) = drop 16 (bytes (simple span_uuid)).
Proof.
  intros [Zt _]%v7_nonzero [_ Zs]%v7_nonzero Hp.
  assert (exists tid flags,
    vt_traceparent (sp_context (DeliverySpan_new trace_uuid span_uuid event_id attempt parent))
      = of_bytes (trace_bytes tid (drop 16 (bytes (simple span_uuid))) flags) /\
    length tid = 32%nat /\ length flags = 2%nat /\ forallb is_lower_hex tid = true /\
    forallb is_lower_hex flags = true /\ all_zero tid = false /\
    forall p, parent = Some p -> tid = slice 3 35 (bytes (vt_traceparent p)) /\
      vt_tracestate p = opt_filter valid_state (vt_tracestate p))
    as (tid & flags & Htp & Lt & Lf & Xt & Xf & Nt & Hpar).
  { unfold DeliverySpan_new. destruct parent as [p|]; cbn [sp_context vt_traceparent].
    - destruct (Hp p eq_refl) as (tp & ts & Hv). apply validated_parent in Hv as [Hr Hst].
      eexists _, _. split; [reflexivity|].
      assert (55 <= len (bytes (vt_traceparent p))) as Hl.
      { unfold parent_rejected in Hr. simp_bool. rewrite in_range_iff in *. lia. }
      unfold parent_rejected in Hr. simp_bool. split_and!; try done.
      + unfold slice. rewrite length_take, length_drop. unfold len in Hl. lia.
      + by destruct (_ =? 1).
      + by destruct (_ =? 1).
      + by intros ? [= <-].
    - eexists _, _. split; [reflexivity|].
      split_and!; by (apply simple_length || apply simple_hex || reflexivity || done). }
  cbv zeta. set (c := sp_context _) in *.
  assert (vt_tracestate c = parent ≫= vt_tracestate) as Hts.
  { unfold c, DeliverySpan_new. by destruct parent. }
  set (sid := drop 16 (bytes (simple span_uuid))) in *.
  assert (length sid = 16%nat) as Ls by (unfold sid; by rewrite length_drop, simple_length).
  assert (forallb is_lower_hex sid = true) as Xs by apply forallb_drop, simple_hex.
  assert (bytes (vt_traceparent c) = trace_bytes tid sid flags) as Hb.
  { rewrite Htp. by apply trace_bytes_string. }
  destruct (trace_bytes_parts tid sid flags Lt Ls Lf) as (_ & Etid & Esid & _).
  rewrite Hb, Etid, Esid. split_and!; [|intros p ->; by split; [apply Hpar|]|done].
  unfold validate_trace_context. rewrite Hb, trace_bytes_accepted by done.
  destruct c as [ctp cts]. cbn in *. f_equal. f_equal. subst cts.
  destruct parent as [p|]; cbn; [|done]. by rewrite <- (proj2 (Hpar p eq_refl)).
Qed.
