(* ===== verification/OutboxStore.v ===== *)
(** * OutboxStore: the outbox table and its fenced leases (outbox-delivery, postgres.rs)

    The store is the table of events with the policy row beside it.  Every operation is one
    transaction, applied as a whole; what its SQL statement selects and assigns is written as a
    predicate and a function on rows, with the clock of the statement as an argument: no two
    statements need to agree on the time.  Instants are numbers of microseconds, as the database
    stores them.  The rows returned by an UPDATE come in no order; here they come in that of the
    table. *)
From stdpp Require Import base gmap sets list strings vector sorting.
From Stdlib Require Import ZArith Lia Ascii.
From S2P Require Import Prelude Text Ordered Manifest Json AuditKinds AuditChain Outbox.

Local Open Scope Z_scope.

Section Store.
Context {F : Floats}.

(** ** State *)

(** A row of outbox_events. *)
Record Row : Type := {
  ob_envelope : DeliveryEnvelope;
  ob_available_at : Z;
  ob_attempt_count : Z;
  ob_attempt_limit : option Z;
  ob_delivered_at : option Z;
  ob_dead_lettered_at : option Z;
  ob_lease_token : option Uuid;
  ob_lease_owner : option Uuid;
  ob_lease_expires_at : option Z;
  ob_last_attempt_at : option Z;
  ob_last_error_code : option string;
  ob_traceparent : option string;
  ob_tracestate : option string
}.

Definition row_id (r : Row) : Uuid := de_event_id (ob_envelope r).

(** The single row of outbox_delivery_policy, when there is one, and outbox_events. *)
Record Db : Type := { db_policy : option DeliveryPolicy; db_rows : list Row }.

Definition with_rows (db : Db) (rows : list Row) : Db :=
  {| db_policy := db_policy db; db_rows := rows |}.

(** UPDATE .. SET .. WHERE, and the rows it changed. *)
Definition update_where (p : Row -> bool) (f : Row -> Row) (db : Db) : Db * list Row :=
  (with_rows db (map (fun r => if p r then f r else r) (db_rows db)),
   map f (List.filter p (db_rows db))).

(** What became of a transaction: it failed before its commit, it was committed and reported, or
    the answer of the commit was lost. *)
Inductive Fate : Type := Reported | Unreported (committed : bool).

Definition transact {A} (fate : Fate) (db : Db) (body : Result (Db * A) DeliveryError)
    : Db * Result A DeliveryError :=
  match fate, body with
  | Reported, Ok (db', a) => (db', Ok a)
  | Reported, Err e => (db, Err e)
  | Unreported true, Ok (db', _) => (db', Err StoreUnknown)
  | Unreported _, _ => (db, Err StoreUnknown)
  end.

(** ** Validation *)

Definition validate_expected (p : DeliveryPolicy) : Result unit DeliveryError :=
  let valid :=
    (0 <? dp_revision p)
    && in_range 1 32 (dp_max_attempts p)
    && in_range 1000 120000 (dp_lease_min_ms p)
    && in_range (dp_lease_min_ms p) 120000 (dp_lease_max_ms p)
    && in_range 1000 300000 (dp_backoff_min_ms p)
    && in_range (dp_backoff_min_ms p) 300000 (dp_backoff_max_ms p) in
  if valid then Ok tt else Err InvalidConfig.

(** [i64::try_from(duration.as_millis())]. *)
Definition as_millis_i64 (duration : Z) : option Z :=
  let ms := duration / 1000000 in if ms <=? i64_max then Some ms else None.

Definition validate_claim (expected : DeliveryPolicy) (limit lease : Z)
    : Result Z DeliveryError :=
  if negb (in_range 1 32 limit) then Err InvalidConfig
  else
    let? lease_ms := ok_or (as_millis_i64 lease) InvalidConfig in
    if negb (in_range (dp_lease_min_ms expected) (dp_lease_max_ms expected) lease_ms)
       || negb (lease =? from_millis lease_ms)
    then Err InvalidConfig
    else Ok lease_ms.

Definition unfinished (r : Row) : bool :=
  is_none (ob_delivered_at r) && is_none (ob_dead_lettered_at r).

(** A row that used all the attempts of the present policy before its limit was pinned. *)
Definition legacy_exhausted (max_attempts : Z) (r : Row) : bool :=
  unfinished r && is_none (ob_attempt_limit r) && (max_attempts <=? ob_attempt_count r).

Definition guard_policy (expected : DeliveryPolicy) (db : Db) : Result Z DeliveryError :=
  let? policy := ok_or (db_policy db) PolicyMismatch in
  if policy != expected then Err PolicyMismatch
  else
    let legacy := List.filter (legacy_exhausted (dp_max_attempts policy)) (db_rows db) in
    let count := len legacy in
    if 0 <? count then Err (LegacyExhausted count (take 32 (sort (map row_id legacy))))
    else Ok (dp_max_attempts policy).

Definition backoff_bounds (expected : DeliveryPolicy) : Z * Z :=
  (from_millis (Z.max 0 (dp_backoff_min_ms expected)),
   from_millis (Z.max 0 (dp_backoff_max_ms expected))).

Definition verify_policy (expected : DeliveryPolicy) (fate : Fate) (db : Db)
    : Db * Result unit DeliveryError :=
  match validate_expected expected with
  | Err e => (db, Err e)
  | Ok _ => transact fate db (let? _ := guard_policy expected db in Ok (db, tt))
  end.

(** ** Claims *)

(** [lease_expires_at IS NULL OR lease_expires_at <= t]. *)
Definition unleased (t : Z) (r : Row) : bool :=
  is_none_or (ob_lease_expires_at r) (fun expires => expires <=? t).

Definition claimable (t db_max : Z) (r : Row) : bool :=
  unfinished r && (ob_available_at r <=? t) && unleased t r
  && (ob_attempt_count r <? unwrap_or db_max (ob_attempt_limit r)).

Definition claim_order (r : Row) : Z * Z * Uuid :=
  (ob_available_at r, de_occurred_at (ob_envelope r), row_id r).

(** ORDER BY .. LIMIT .. FOR UPDATE SKIP LOCKED: [locked] are the rows other transactions hold. *)
Definition pick {K} `{Ord K} (candidate : Row -> bool) (order : Row -> K) (limit : Z)
    (locked : Uuid -> bool) (db : Db) : list Uuid :=
  map row_id
    (take (Z.to_nat limit)
       (List.filter (fun r => negb (locked (row_id r)))
          (sort_by_key order (List.filter candidate (db_rows db))))).

Definition millis (ms : Z) : Z := ms * 1000.

Definition claimed_row (t db_max lease_ms : Z) (owner : Uuid) (tokens : Uuid -> Uuid) (r : Row)
    : Row :=
  {| ob_envelope := ob_envelope r;
     ob_available_at := ob_available_at r;
     ob_attempt_count := ob_attempt_count r + 1;
     ob_attempt_limit := Some (unwrap_or db_max (ob_attempt_limit r));
     ob_delivered_at := ob_delivered_at r;
     ob_dead_lettered_at := ob_dead_lettered_at r;
     ob_lease_token := Some (tokens (row_id r));
     ob_lease_owner := Some owner;
     ob_lease_expires_at := Some (t + millis lease_ms);
     ob_last_attempt_at := Some t;
     ob_last_error_code := ob_last_error_code r;
     ob_traceparent := ob_traceparent r;
     ob_tracestate := ob_tracestate r |}.

(** A column that is NULL is an error: the caller sees an unknown result. *)
Definition map_claimed (r : Row) : Result ClaimedEvent DeliveryError :=
  let? lease_expires_at := ok_or (ob_lease_expires_at r) StoreUnknown in
  let? attempt_limit := ok_or (ob_attempt_limit r) StoreUnknown in
  let? lease_token := ok_or (ob_lease_token r) StoreUnknown in
  let? lease_owner := ok_or (ob_lease_owner r) StoreUnknown in
  Ok {| ce_envelope := ob_envelope r; ce_attempt := ob_attempt_count r;
        ce_attempt_limit := attempt_limit; ce_lease_token := lease_token;
        ce_lease_owner := lease_owner; ce_lease_expires_at := lease_expires_at |}.

(** [tokens] are the values of gen_random_uuid() for the rows. *)
Definition claim (expected : DeliveryPolicy) (locked : Uuid -> bool) (tokens : Uuid -> Uuid)
    (t : Z) (owner : Uuid) (limit lease : Z) (fate : Fate) (db : Db)
    : Db * Result (list ClaimedEvent) DeliveryError :=
  match (try? validate_expected expected in validate_claim expected limit lease) with
  | Err e => (db, Err e)
  | Ok lease_ms =>
      transact fate db
        (let? db_max := guard_policy expected db in
         let picked := pick (claimable t db_max) claim_order limit locked db in
         let '(db', rows) :=
           update_where (fun r => contains picked (row_id r))
             (claimed_row t db_max lease_ms owner tokens) db in
         let? claimed := try_map map_claimed rows in
         Ok (db', claimed))
  end.

(** ** Renewal and settlement *)

(** The row of the event, held under the token at [t]. *)
Definition fenced (event_id lease_token : Uuid) (t : Z) (r : Row) : bool :=
  (row_id r == event_id) && (ob_lease_token r == Some lease_token) && unfinished r
  && is_some_and (ob_lease_expires_at r) (fun expires => t <? expires).

(** [changed] has a row, or not. *)
Definition fence_result (rows : list Row) : FenceResult := if is_empty rows then Lost else Updated.

Definition renewed_row (t lease_ms : Z) (r : Row) : Row :=
  {| ob_envelope := ob_envelope r; ob_available_at := ob_available_at r;
     ob_attempt_count := ob_attempt_count r; ob_attempt_limit := ob_attempt_limit r;
     ob_delivered_at := ob_delivered_at r; ob_dead_lettered_at := ob_dead_lettered_at r;
     ob_lease_token := ob_lease_token r; ob_lease_owner := ob_lease_owner r;
     ob_lease_expires_at := Some (t + millis lease_ms);
     ob_last_attempt_at := ob_last_attempt_at r; ob_last_error_code := ob_last_error_code r;
     ob_traceparent := ob_traceparent r; ob_tracestate := ob_tracestate r |}.

Definition renew (expected : DeliveryPolicy) (t : Z) (event_id lease_token : Uuid) (lease : Z)
    (fate : Fate) (db : Db) : Db * Result FenceResult DeliveryError :=
  match (try? validate_expected expected in validate_claim expected 1 lease) with
  | Err e => (db, Err e)
  | Ok lease_ms =>
      transact fate db
        (let '(db', changed) :=
           update_where (fenced event_id lease_token t) (renewed_row t lease_ms) db in
         Ok (db', fence_result changed))
  end.

Definition delivered_row (t : Z) (r : Row) : Row :=
  {| ob_envelope := ob_envelope r; ob_available_at := ob_available_at r;
     ob_attempt_count := ob_attempt_count r; ob_attempt_limit := ob_attempt_limit r;
     ob_delivered_at := Some t; ob_dead_lettered_at := ob_dead_lettered_at r;
     ob_lease_token := None; ob_lease_owner := None; ob_lease_expires_at := None;
     ob_last_attempt_at := ob_last_attempt_at r; ob_last_error_code := ob_last_error_code r;
     ob_traceparent := ob_traceparent r; ob_tracestate := ob_tracestate r |}.

Definition settle_success (t : Z) (event_id lease_token : Uuid) (fate : Fate) (db : Db)
    : Db * Result FenceResult DeliveryError :=
  transact fate db
    (let '(db', changed) := update_where (fenced event_id lease_token t) (delivered_row t) db in
     Ok (db', fence_result changed)).

(** [attempt_count >= attempt_limit], NULL counting as false. *)
Definition at_limit (r : Row) : bool :=
  is_some_and (ob_attempt_limit r) (fun limit => limit <=? ob_attempt_count r).

Definition failed_row (t backoff_ms : Z) (code : string) (terminal : bool) (r : Row) : Row :=
  let last := terminal || at_limit r in
  {| ob_envelope := ob_envelope r;
     ob_available_at := if last then ob_available_at r else t + millis backoff_ms;
     ob_attempt_count := ob_attempt_count r; ob_attempt_limit := ob_attempt_limit r;
     ob_delivered_at := ob_delivered_at r;
     ob_dead_lettered_at := if last then Some t else None;
     ob_lease_token := None; ob_lease_owner := None; ob_lease_expires_at := None;
     ob_last_attempt_at := ob_last_attempt_at r; ob_last_error_code := Some code;
     ob_traceparent := ob_traceparent r; ob_tracestate := ob_tracestate r |}.

Definition validate_backoff (expected : DeliveryPolicy) (backoff : Z) : Result Z DeliveryError :=
  let? backoff_ms := ok_or (as_millis_i64 backoff) InvalidConfig in
  if negb (in_range (dp_backoff_min_ms expected) (dp_backoff_max_ms expected) backoff_ms)
     || negb (backoff =? from_millis backoff_ms)
  then Err InvalidConfig
  else Ok backoff_ms.

Definition settle_failure (expected : DeliveryPolicy) (t : Z) (event_id lease_token : Uuid)
    (code : ErrorCode) (terminal : bool) (backoff : Z) (fate : Fate) (db : Db)
    : Db * Result FenceResult DeliveryError :=
  match (try? validate_expected expected in validate_backoff expected backoff) with
  | Err e => (db, Err e)
  | Ok backoff_ms =>
      transact fate db
        (let '(db', changed) :=
           update_where
             (fun r => fenced event_id lease_token t r && is_some (ob_attempt_limit r))
             (failed_row t backoff_ms (ErrorCode_as_str code) terminal) db in
         Ok (db', fence_result changed))
  end.

(** ** The reaper *)

Definition reapable (t : Z) (r : Row) : bool :=
  unfinished r && at_limit r
  && (is_none (ob_lease_token r)
      || is_some_and (ob_lease_expires_at r) (fun expires => expires <=? t)).

Definition reap_order (r : Row) : option Z * Uuid := (ob_last_attempt_at r, row_id r).

Definition reaped_row (t : Z) (r : Row) : Row :=
  {| ob_envelope := ob_envelope r; ob_available_at := ob_available_at r;
     ob_attempt_count := ob_attempt_count r; ob_attempt_limit := ob_attempt_limit r;
     ob_delivered_at := ob_delivered_at r; ob_dead_lettered_at := Some t;
     ob_lease_token := None; ob_lease_owner := None; ob_lease_expires_at := None;
     ob_last_attempt_at := ob_last_attempt_at r;
     ob_last_error_code := Some "delivery_unknown_at_limit"%string;
     ob_traceparent := ob_traceparent r; ob_tracestate := ob_tracestate r |}.

Definition reap_exhausted (expected : DeliveryPolicy) (locked : Uuid -> bool) (t limit : Z)
    (fate : Fate) (db : Db) : Db * Result Z DeliveryError :=
  match validate_expected expected with
  | Err e => (db, Err e)
  | Ok _ =>
      if negb (in_range 1 32 limit) then (db, Err InvalidConfig)
      else
        transact fate db
          (try? guard_policy expected db in
           let picked := pick (reapable t) reap_order limit locked db in
           let '(db', reaped) :=
             update_where (fun r => contains picked (row_id r)) (reaped_row t) db in
           Ok (db', len reaped))
  end.

(** ** Reads *)

(** A stored header of more than 512 bytes is not transferred. *)
Definition short_header (s : string) : bool := str_len s <=? 512.

Definition trace_context (event_id lease_token : Uuid) (db : Db) : option ValidatedTrace :=
  find (fun r => (row_id r == event_id) && (ob_lease_token r == Some lease_token)) (db_rows db)
  ≫= fun row => validate_trace_context (opt_filter short_header (ob_traceparent row))
                  (opt_filter short_header (ob_tracestate row)).

Record QueueSnapshot : Type := {
  qs_pending : Z;
  qs_in_flight : Z;
  qs_dead_letter : Z;
  qs_expired : Z;
  qs_exhausted : Z
}.

(** The counts of [queue_snapshot]; its age is a floating-point number and is left out. *)
Definition queue_snapshot (t : Z) (db : Db) : QueueSnapshot :=
  let rows := db_rows db in
  let expired r := is_some_and (ob_lease_expires_at r) (fun e => e <=? t) in
  {| qs_pending := count (fun r => unfinished r && unleased t r) rows;
     qs_in_flight :=
       count (fun r => unfinished r
                       && is_some_and (ob_lease_expires_at r) (fun e => t <? e)) rows;
     qs_dead_letter := count (fun r => is_some (ob_dead_lettered_at r)) rows;
     qs_expired := count (fun r => unfinished r && expired r) rows;
     qs_exhausted := count (fun r => unfinished r && unleased t r && at_limit r) rows |}.

(** ** Runs

    The operations of any number of workers, under whatever policies they expect, with the
    publication of new events and changes of the policy in between. *)

Inductive Op : Type :=
| OVerify (expected : DeliveryPolicy) (fate : Fate)
| OClaim (expected : DeliveryPolicy) (locked : Uuid -> bool) (tokens : Uuid -> Uuid) (t : Z)
    (owner : Uuid) (limit lease : Z) (fate : Fate)
| ORenew (expected : DeliveryPolicy) (t : Z) (event_id token : Uuid) (lease : Z) (fate : Fate)
| OSettleSuccess (t : Z) (event_id token : Uuid) (fate : Fate)
| OSettleFailure (expected : DeliveryPolicy) (t : Z) (event_id token : Uuid) (code : ErrorCode)
    (terminal : bool) (backoff : Z) (fate : Fate)
| OReap (expected : DeliveryPolicy) (locked : Uuid -> bool) (t limit : Z) (fate : Fate)
| OPublish (envelope : DeliveryEnvelope) (available_at : Z) (traceparent tracestate : option string)
| OPolicy (policy : option DeliveryPolicy).

Inductive Reply : Type :=
| RUnit (r : Result unit DeliveryError)
| RClaimed (r : Result (list ClaimedEvent) DeliveryError)
| RFence (r : Result FenceResult DeliveryError)
| RCount (r : Result Z DeliveryError)
| RNone.

(** A new event, with the defaults of the table. *)
Definition new_row (envelope : DeliveryEnvelope) (available_at : Z)
    (traceparent tracestate : option string) : Row :=
  {| ob_envelope := envelope; ob_available_at := available_at; ob_attempt_count := 0;
     ob_attempt_limit := None; ob_delivered_at := None; ob_dead_lettered_at := None;
     ob_lease_token := None; ob_lease_owner := None; ob_lease_expires_at := None;
     ob_last_attempt_at := None; ob_last_error_code := None; ob_traceparent := traceparent;
     ob_tracestate := tracestate |}.

Definition step (db : Db) (op : Op) : Db * Reply :=
  match op with
  | OVerify e fate => let '(db', r) := verify_policy e fate db in (db', RUnit r)
  | OClaim e locked tokens t owner limit lease fate =>
      let '(db', r) := claim e locked tokens t owner limit lease fate db in (db', RClaimed r)
  | ORenew e t id tok lease fate =>
      let '(db', r) := renew e t id tok lease fate db in (db', RFence r)
  | OSettleSuccess t id tok fate =>
      let '(db', r) := settle_success t id tok fate db in (db', RFence r)
  | OSettleFailure e t id tok code terminal backoff fate =>
      let '(db', r) := settle_failure e t id tok code terminal backoff fate db in (db', RFence r)
  | OReap e locked t limit fate =>
      let '(db', r) := reap_exhausted e locked t limit fate db in (db', RCount r)
  | OPublish envelope available_at tp ts =>
      (if contains (map row_id (db_rows db)) (de_event_id envelope) then db
       else with_rows db (db_rows db ++ [new_row envelope available_at tp ts]), RNone)
  | OPolicy p => ({| db_policy := p; db_rows := db_rows db |}, RNone)
  end.

Fixpoint steps (db : Db) (ops : list Op) : Db * list Reply :=
  match ops with
  | [] => (db, [])
  | op :: ops =>
      let '(db1, r) := step db op in
      let '(db2, rs) := steps db1 ops in
      (db2, r :: rs)
  end.

(** ** The life of a row

    What an operation may do to a row: the abstract machine of one event. *)
Inductive moves : Op -> Row -> Row -> Prop :=
| mv_claim e locked tokens t owner limit lease fate db_max lease_ms r :
    1 <= db_max <= 32 -> locked (row_id r) = false -> claimable t db_max r = true ->
    moves (OClaim e locked tokens t owner limit lease fate) r
      (claimed_row t db_max lease_ms owner tokens r)
| mv_renew e t id tok lease fate lease_ms r :
    fenced id tok t r = true ->
    moves (ORenew e t id tok lease fate) r (renewed_row t lease_ms r)
| mv_deliver t id tok fate r :
    fenced id tok t r = true ->
    moves (OSettleSuccess t id tok fate) r (delivered_row t r)
| mv_fail e t id tok code terminal backoff fate backoff_ms r :
    fenced id tok t r = true -> is_some (ob_attempt_limit r) = true ->
    moves (OSettleFailure e t id tok code terminal backoff fate) r
      (failed_row t backoff_ms (ErrorCode_as_str code) terminal r)
| mv_reap e locked t limit fate r :
    locked (row_id r) = false -> reapable t r = true ->
    moves (OReap e locked t limit fate) r (reaped_row t r).

Lemma transact_Ok {A} fate db db' (body : Result (Db * A) DeliveryError) a :
  transact fate db body = (db', Ok a) <-> fate = Reported /\ body = Ok (db', a).
Proof. destruct fate as [|[]], body as [[]|]; cbn; naive_solver. Qed.

Lemma transact_cases {A} fate db (body : Result (Db * A) DeliveryError) :
  fst (transact fate db body) = db \/ exists db' a, body = Ok (db', a) /\
    fst (transact fate db body) = db'.
Proof. destruct fate as [|[]], body as [[]|]; cbn; naive_solver. Qed.

Lemma pick_spec {K} `{Ord K} (candidate : Row -> bool) (order : Row -> K) limit locked db id :
  id ∈ pick candidate order limit locked db ->
  locked id = false /\ exists r, r ∈ db_rows db /\ row_id r = id /\ candidate r = true.
Proof.
  unfold pick. rewrite list_elem_of_fmap. intros (r & -> & Hr).
  apply elem_of_take in Hr as (i & Hr%list_elem_of_lookup_2 & _). rename Hr into Hin.
  apply elem_of_filter_bool in Hin as [Hin Hl]. simp_bool. split; [done|]. exists r.
  rewrite sort_by_key_Permutation in Hin. apply elem_of_filter_bool in Hin as [? ?]. done.
Qed.

(** An operation changes rows in place, each by a move of the machine or not at all; it adds at
    most one, fresh row. *)
Definition changed (op : Op) (r r' : Row) : Prop := r' = r \/ moves op r r'.

Definition ids (db : Db) : list Uuid := map row_id (db_rows db).

Lemma update_changed op db p f :
  (forall r, r ∈ db_rows db -> p r = true -> moves op r (f r)) ->
  Forall2 (changed op) (db_rows db) (db_rows (fst (update_where p f db))).
Proof.
  intros H. unfold update_where, with_rows. cbn. apply Forall2_fmap_r.
  apply Forall_Forall2_diag, Forall_forall. intros r Hr. unfold changed.
  destruct (p r) eqn:Hp; [right; rewrite Hp; by apply H|left; by rewrite Hp].
Qed.

Lemma same_changed op rows : Forall2 (changed op) rows rows.
Proof. apply Forall_Forall2_diag, Forall_forall. intros r _. by left. Qed.

Lemma id_unique db r r' :
  NoDup (ids db) -> r ∈ db_rows db -> r' ∈ db_rows db -> row_id r = row_id r' -> r = r'.
Proof.
  unfold ids. intros Hn [i Hi]%list_elem_of_lookup [j Hj]%list_elem_of_lookup He.
  assert (i = j) as ->; [|congruence].
  eapply (NoDup_lookup _ i j (row_id r) Hn); rewrite list_lookup_fmap, ?Hi, ?Hj; cbn; congruence.
Qed.

(** An update of picked rows moves candidates that no other transaction holds. *)
Lemma picked_changed {K} `{Ord K} op db (candidate : Row -> bool) (order : Row -> K) limit locked f
  :
  NoDup (ids db) ->
  (forall r, r ∈ db_rows db -> locked (row_id r) = false -> candidate r = true -> moves op r (f r))
    ->
  Forall2 (changed op) (db_rows db) (db_rows (fst (update_where
    (fun r => contains (pick candidate order limit locked db) (row_id r)) f db))).
Proof.
  intros Hn Hf. apply update_changed. intros r Hr Hc. apply contains_true in Hc.
  apply pick_spec in Hc as (Hl & r' & Hr' & Hid & Hc).
  apply (id_unique db r' r Hn Hr' Hr) in Hid as ->. auto.
Qed.

Lemma validated_policy p :
  validate_expected p = Ok tt ->
  0 < dp_revision p /\ 1 <= dp_max_attempts p <= 32 /\
  1000 <= dp_lease_min_ms p <= dp_lease_max_ms p /\ dp_lease_max_ms p <= 120000 /\
  1000 <= dp_backoff_min_ms p <= dp_backoff_max_ms p /\ dp_backoff_max_ms p <= 300000.
Proof.
  unfold validate_expected. intros H. inv_ok.
  repeat match goal with H : _ && _ = true |- _ => apply andb_true_iff in H as [H ?] end.
  rewrite !in_range_iff in *. simp_bool. lia.
Qed.

Lemma guard_policy_Ok e db m :
  guard_policy e db = Ok m -> db_policy db = Some e /\ m = dp_max_attempts e /\
  forall r, r ∈ db_rows db -> legacy_exhausted m r = false.
Proof.
  unfold guard_policy. intros H. inv_ok. rewrite negb_false_iff in Hguard. simp_bool. subst.
  split_and!; [done|done|]. intros r Hr. apply not_true_iff_false. intros Hl.
  assert (r ∈ List.filter (legacy_exhausted (dp_max_attempts e)) (db_rows db)) as Hin
    by by apply elem_of_filter_bool.
  destruct (List.filter _ _); [by apply elem_of_nil in Hin|]. unfold len in *. cbn in *. lia.
Qed.

Definition moved (op : Op) (db db' : Db) : Prop :=
  Forall2 (changed op) (db_rows db) (db_rows db').

Lemma transact_moved {A} op fate db (body : Result (Db * A) DeliveryError) :
  (forall db' a, body = Ok (db', a) -> moved op db db') -> moved op db (fst (transact fate db
    body)).
Proof.
  intros H. destruct (transact_cases fate db body) as [->|(db' & a & Hb & ->)];
    [apply same_changed|eauto].
Qed.

Section Moves.
Context (db : Db) (Hn : NoDup (ids db)).

Lemma verify_moved e fate : moved (OVerify e fate) db (fst (verify_policy e fate db)).
Proof.
  unfold verify_policy. destruct (validate_expected e); [|apply same_changed].
  apply transact_moved. intros db' u Hb. inv_ok. simplify_eq. apply same_changed.
Qed.

Lemma claim_moved e locked tokens t owner limit lease fate :
  moved (OClaim e locked tokens t owner limit lease fate) db
    (fst (claim e locked tokens t owner limit lease fate db)).
Proof.
  unfold claim. destruct (validate_expected e) as [[]|] eqn:Ev; [|apply same_changed]. cbn [rbind].
  destruct (validate_claim e limit lease) as [ms|]; [|apply same_changed].
  apply transact_moved. intros db' cs (m & Hm & Hb)%rbind_Ok.
  destruct (update_where _ _ db) as [d rows] eqn:Eu. inv_ok. simplify_eq.
  apply guard_policy_Ok in Hm as (_ & -> & _). apply validated_policy in Ev.
  apply (f_equal fst) in Eu. cbn [fst] in Eu. rewrite <- Eu. apply picked_changed; [done|].
  intros r _ Hl Hc. constructor; [lia|done..].
Qed.

Lemma renew_moved e t id tok lease fate :
  moved (ORenew e t id tok lease fate) db (fst (renew e t id tok lease fate db)).
Proof.
  unfold renew. destruct (rbind (validate_expected e) _) as [ms|]; [|apply same_changed].
  apply transact_moved. intros db' cs [= <- _]. apply update_changed. intros. by constructor.
Qed.

Lemma settle_success_moved t id tok fate :
  moved (OSettleSuccess t id tok fate) db (fst (settle_success t id tok fate db)).
Proof. apply transact_moved. intros ? ? [= <- _]. apply update_changed. intros. by constructor. Qed.

Lemma settle_failure_moved e t id tok code terminal backoff fate :
  moved (OSettleFailure e t id tok code terminal backoff fate) db
    (fst (settle_failure e t id tok code terminal backoff fate db)).
Proof.
  unfold settle_failure. destruct (rbind (validate_expected e) _) as [ms|]; [|apply same_changed].
  apply transact_moved. intros db' cs [= <- _]. apply update_changed.
  intros r _ [? ?]%andb_true_iff. by constructor.
Qed.

Lemma reap_moved e locked t limit fate :
  moved (OReap e locked t limit fate) db (fst (reap_exhausted e locked t limit fate db)).
Proof.
  unfold reap_exhausted. destruct (validate_expected e); [|apply same_changed].
  destruct (negb _); [apply same_changed|].
  apply transact_moved. intros db' n (m & Hm & [= <- _])%rbind_Ok.
  apply picked_changed; [done|]. intros. by constructor.
Qed.
End Moves.

Definition fresh_row (op : Op) (db : Db) (r : Row) : Prop :=
  exists envelope t tp ts, op = OPublish envelope t tp ts /\ r = new_row envelope t tp ts /\
    row_id r ∉ ids db.

(** The table implements the machine: every operation, whatever it replies, moves rows only along
    it and adds at most one fresh row at the end. *)
Lemma step_moves db op :
  NoDup (ids db) ->
  exists rows new, db_rows (fst (step db op)) = rows ++ new /\
    Forall2 (changed op) (db_rows db) rows /\ (new = [] \/ exists r, new = [r] /\ fresh_row op db
      r).
Proof.
  intros Hn.
  assert (forall A (x : Db * A) (f : A -> Reply), moved op db (fst x) ->
    fst (let '(d, r) := x in (d, f r)) = fst x /\ moved op db (fst x)) as Hfst
    by by intros B [].
  assert (moved op db (fst (step db op)) \/
    exists r, db_rows (fst (step db op)) = db_rows db ++ [r] /\ fresh_row op db r) as [H|(r & H &
      Hf)].
  { destruct op as [| | | | | |envelope t tp ts|p]; cbn [step];
      [left; edestruct Hfst as [-> ?]; [|done]..| |].
    - by apply verify_moved.
    - by apply claim_moved.
    - by apply renew_moved.
    - by apply settle_success_moved.
    - by apply settle_failure_moved.
    - by apply reap_moved.
    - destruct (contains _ _) eqn:Ec; cbn [fst]; [left; apply same_changed|]. right.
      exists (new_row envelope t tp ts). split; [done|]. exists envelope, t, tp, ts.
      split_and!; [done..|]. intros Hid. apply not_true_iff_false in Ec. by apply Ec, contains_true.
    - left. apply same_changed. }
  - exists (db_rows (fst (step db op))), []. rewrite app_nil_r. auto.
  - exists (db_rows db), [r]. split_and!; [done|apply same_changed|right; eauto].
Qed.

(** ** Invariant *)

Definition leased (r : Row) : Prop :=
  is_Some (ob_lease_token r) /\ is_Some (ob_lease_owner r) /\ is_Some (ob_lease_expires_at r).
Definition not_leased (r : Row) : Prop :=
  ob_lease_token r = None /\ ob_lease_owner r = None /\ ob_lease_expires_at r = None.

(** The constraints of the table, and that a pinned limit is never exceeded. *)
Record row_ok (r : Row) : Prop := {
  ok_lease : not_leased r \/ leased r;
  ok_one_end : ob_delivered_at r = None \/ ob_dead_lettered_at r = None;
  ok_finished : unfinished r = false -> not_leased r;
  ok_count : 0 <= ob_attempt_count r;
  ok_limit : forall limit, ob_attempt_limit r = Some limit -> 1 <= limit /\ ob_attempt_count r <=
    limit;
  ok_attempted : leased r -> is_Some (ob_attempt_limit r) /\ 1 <= ob_attempt_count r;
  ok_code : forall code, ob_last_error_code r = Some code -> exists c, ErrorCode_as_str c = code
}.

Definition db_ok (db : Db) : Prop := NoDup (ids db) /\ Forall row_ok (db_rows db).

(** What never changes of a row, and what only grows. *)
Record ages (r r' : Row) : Prop := {
  ag_envelope : ob_envelope r' = ob_envelope r;
  ag_count : ob_attempt_count r <= ob_attempt_count r';
  ag_limit : forall limit, ob_attempt_limit r = Some limit -> ob_attempt_limit r' = Some limit;
  ag_final : unfinished r = false -> r' = r
}.

#[export] Instance ages_preorder : PreOrder ages.
Proof.
  split.
  - intros r. by split.
  - intros a b c [E1 C1 L1 F1] [E2 C2 L2 F2]. split; [congruence|lia|auto|].
    intros H. pose proof (F1 H) as ->. by apply F2.
Qed.

Lemma unfinished_iff r :
  unfinished r = true <-> ob_delivered_at r = None /\ ob_dead_lettered_at r = None.
Proof. unfold unfinished. by rewrite andb_true_iff, !is_none_true. Qed.

Lemma moves_unfinished op r r' : moves op r r' -> unfinished r = true.
Proof.
  destruct 1 as [e locked tokens t owner limit lease fate m ms r Hm Hl Hc
    |e t id tok lease fate ms r Hf|t id tok fate r Hf
    |e t id tok code terminal backoff fate ms r Hf Hl|e locked t limit fate r Hl Hc];
    unfold claimable, fenced, reapable in *; by simp_bool.
Qed.

Lemma changed_ages op r r' : changed op r r' -> ages r r'.
Proof.
  intros [->|H]; [done|]. pose proof (moves_unfinished _ _ _ H) as Hu.
  destruct H as [e locked tokens t owner limit lease fate m ms r Hm Hl Hc| | | |]; split; cbn;
    try done; try lia; try congruence.
  by intros l ->.
Qed.

Lemma moves_ok op r r' : moves op r r' -> row_ok r -> row_ok r'.
Proof.
  intros Hm [O1 O2 O3 O4 O5 O6 O7]. pose proof (moves_unfinished _ _ _ Hm) as Hu.
  apply unfinished_iff in Hu as [Hd Hx].
  assert (forall r', unfinished r' = false -> ob_delivered_at r' = None ->
    ob_dead_lettered_at r' = None -> not_leased r') as Hfin.
  { intros x Hf H1 H2. by rewrite (proj2 (unfinished_iff x)) in Hf. }
  destruct Hm as [e locked tokens t owner limit lease fate m ms r Hm Hl Hc
    |e t id tok lease fate ms r Hf|t id tok fate r Hf
    |e t id tok code terminal backoff fate ms r Hf Hl|e locked t limit fate r Hl Hc].
  - unfold claimable in Hc. simp_bool. split; cbn.
    + right. by split_and!.
    + by left.
    + intros Hf. by apply Hfin.
    + lia.
    + intros l [= <-]. destruct (ob_attempt_limit r) as [l|]; cbn in *; [|lia].
      destruct (O5 l eq_refl). lia.
    + intros _. split; [done|lia].
    + done.
  - assert (leased r) as Hleased.
    { destruct O1 as [[? _]|?]; [|done]. unfold fenced in Hf. simp_bool. congruence. }
    split; cbn; [|by left|intros ?; by apply Hfin|done|done|intros _; by apply O6|done].
    right. destruct Hleased as (? & ? & ?). by split_and!.
  - split; cbn; [by left|by right|done|done|done|by intros [[] _]|done].
  - split; cbn; [by left|by left|done|done|done|by intros [[] _]|intros c [= <-]; eauto].
  - split; cbn; [by left|by left|done|done|done|by intros [[] _]|].
    intros c [= <-]. by exists EcDeliveryUnknownAtLimit.
Qed.

Lemma Forall2_changed_ids op rows rows' :
  Forall2 (changed op) rows rows' -> map row_id rows' = map row_id rows.
Proof.
  induction 1 as [|r r' rows rows' H _ IH]; cbn; [done|].
  apply changed_ages, ag_envelope in H. rewrite IH. unfold row_id. by rewrite H.
Qed.

Lemma step_grows db op :
  NoDup (ids db) ->
  NoDup (ids (fst (step db op))) /\ grows ages (db_rows db) (db_rows (fst (step db op))).
Proof.
  intros Hn. destruct (step_moves db op Hn) as (rows & new & Hr & Hc & Hnew). unfold ids.
  rewrite Hr.
  split.
  - rewrite map_app, (Forall2_changed_ids _ _ _ Hc). destruct Hnew as [->|(r & -> & Hf)].
    + by rewrite app_nil_r.
    + destruct Hf as (? & ? & ? & ? & _ & _ & Hf). apply NoDup_app. split_and!; [done| |].
      * intros id Hid [->|[]%elem_of_nil]%elem_of_cons. by apply Hf.
      * apply NoDup_singleton.
  - exists rows, new. split; [done|]. eapply Forall2_impl; [exact Hc|]. apply changed_ages.
Qed.

Lemma step_ok db op : db_ok db -> db_ok (fst (step db op)).
Proof.
  intros [Hn Ho]. split; [by apply step_grows|].
  destruct (step_moves db op Hn) as (rows & new & -> & Hc & Hnew). apply Forall_app. split.
  - clear Hnew. induction Hc as [|r r' rows' rows Hr _ IH]; [done|].
    apply Forall_cons in Ho as [Hr' Ho]. constructor; [|by apply IH].
    destruct Hr as [->|Hm]; [done|by eapply moves_ok].
  - destruct Hnew as [->|(r & -> & envelope & t & tp & ts & _ & -> & _)]; [done|].
    constructor; [|done]. split; cbn; try done; [by left|by left|by intros [[] _]].
Qed.

Lemma steps_cons db op ops :
  fst (steps db (op :: ops)) = fst (steps (fst (step db op)) ops) /\
  snd (steps db (op :: ops)) = snd (step db op) :: snd (steps (fst (step db op)) ops).
Proof. cbn. destruct (step db op) as [db1 r]. cbn. by destruct (steps db1 ops). Qed.

(** In every run of workers and reapers, whatever fails or is reported, whoever else writes
    and whatever the clocks say, the table keeps its constraints: events are distinct, an event
    ends at most once and never under a lease, a lease is whole, and the attempts never exceed
    the limit that was pinned by the first claim. *)
Theorem outbox_invariant db ops : db_ok db -> db_ok (fst (steps db ops)).
Proof.
  revert db. induction ops as [|op ops IH]; intros db H; [done|].
  rewrite (proj1 (steps_cons _ _ _)). by apply IH, step_ok.
Qed.

Lemma rows_only_age db ops :
  NoDup (ids db) ->
  NoDup (ids (fst (steps db ops))) /\ grows ages (db_rows db) (db_rows (fst (steps db ops))).
Proof.
  revert db. induction ops as [|op ops IH]; intros db Hn; [done|].
  rewrite (proj1 (steps_cons _ _ _)). destruct (step_grows db op Hn) as [Hn1 H1].
  destruct (IH _ Hn1) as [Hn2 H2]. split; [done|by etrans].
Qed.

(** ** Fencing *)

Definition holds (db : Db) (id token : Uuid) : Prop :=
  exists r, r ∈ db_rows db /\ row_id r = id /\ ob_lease_token r = Some token.

(** The operations of the worker that was given [token] for the event. *)
Definition under_lease (id token : Uuid) (op : Op) : Prop :=
  match op with
  | ORenew _ _ i k _ _ | OSettleSuccess _ i k _ | OSettleFailure _ _ i k _ _ _ _ =>
      i = id /\ k = token
  | _ => False
  end.

Definition issues (id token : Uuid) (op : Op) : Prop :=
  match op with OClaim _ _ tokens _ _ _ _ _ => tokens id = token | _ => False end.

Lemma update_none (p : Row -> bool) f db :
  (forall r, r ∈ db_rows db -> p r = false) -> update_where p f db = (db, []).
Proof.
  intros H. unfold update_where, with_rows. destruct db as [policy rows]. cbn in *.
  rewrite (map_ext_in _ (fun r => r)), map_id by (intros r Hr;
    by rewrite H by by apply list_elem_of_In).
  assert (List.filter p rows = []) as ->; [|done].
  induction rows as [|r rows IH]; cbn; [done|]. rewrite (H r) by (by left).
  apply IH. intros x Hx. apply H. by right.
Qed.

Lemma fenced_holds db id token t r : r ∈ db_rows db -> fenced id token t r = true -> holds db id
  token.
Proof. unfold fenced. intros Hr H. simp_bool. by exists r. Qed.

Lemma powerless_reply fate db :
  let reply := let '(d, r) := transact fate db (Ok (db, fence_result (@nil Row))) in (d, RFence r)
    in
  fst reply = db /\ snd reply <> RFence (Ok Updated).
Proof. by destruct fate as [|[]]. Qed.

Lemma not_held_powerless db id token op :
  ~ holds db id token -> under_lease id token op ->
  fst (step db op) = db /\ snd (step db op) <> RFence (Ok Updated).
Proof.
  intros Hn Hu.
  assert (forall t r, r ∈ db_rows db -> fenced id token t r = false) as Hf.
  { intros t r Hr. apply not_true_iff_false. intros H. eapply Hn, fenced_holds; eauto. }
  destruct op as [| |e t i k lease fate|t i k fate|e t i k code terminal backoff fate| | |];
    try done; destruct Hu as [-> ->]; cbn [step].
  - unfold renew. destruct (rbind (validate_expected e) _) as [ms|]; [|done].
    rewrite update_none by (intros; by apply Hf).
    apply powerless_reply.
  - unfold settle_success. rewrite update_none by (intros; by apply Hf).
    apply powerless_reply.
  - unfold settle_failure. destruct (rbind (validate_expected e) _) as [ms|]; [|done].
    rewrite update_none by (intros r Hr; by rewrite (Hf t r Hr)).
    apply powerless_reply.
Qed.

Lemma moves_token op r r' id token :
  moves op r r' -> row_id r = id -> ob_lease_token r' = Some token ->
  ob_lease_token r = Some token \/ issues id token op.
Proof. destruct 1; cbn; intros Hid Ht; try done; [right|left]; congruence. Qed.

Lemma not_held_step db op id token :
  NoDup (ids db) -> ~ holds db id token -> ~ issues id token op ->
  ~ holds (fst (step db op)) id token.
Proof.
  intros Hn Hh Hi (r' & Hr' & Hid & Ht).
  destruct (step_moves db op Hn) as (rows & new & Hr & Hc & Hnew). rewrite Hr in Hr'.
  apply elem_of_app in Hr' as [Hr'|Hr'].
  - apply list_elem_of_lookup in Hr' as [i Hr'].
    destruct (Forall2_lookup_r _ _ _ _ _ Hc Hr') as (r & Hr0 & [->|Hm]);
      apply list_elem_of_lookup_2 in Hr0.
    + apply Hh. by exists r.
    + assert (row_id r = id) as Hid0.
      { rewrite <- Hid. unfold row_id.
        by rewrite (ag_envelope r r') by (apply (changed_ages op); by right). }
      destruct (moves_token _ _ _ _ _ Hm Hid0 Ht); [|done]. apply Hh. by exists r.
  - destruct Hnew as [->|(x & -> & ? & ? & ? & ? & _ & -> & _)]; [by apply elem_of_nil in Hr'|].
    by apply list_elem_of_singleton in Hr' as ->.
Qed.

Lemma not_held_steps db ops id token :
  NoDup (ids db) -> ~ holds db id token -> Forall (fun op => ~ issues id token op) ops ->
  ~ holds (fst (steps db ops)) id token.
Proof.
  revert db. induction ops as [|op ops IH]; intros db Hn Hh Ha; [done|].
  apply Forall_cons in Ha as [Hi Ha]. rewrite (proj1 (steps_cons _ _ _)).
  apply IH; [by apply step_grows|by apply not_held_step|done].
Qed.

(** ** Claims *)

(** What a claim hands to the worker for a row. *)
Definition claimed_event (t db_max lease_ms : Z) (owner : Uuid) (tokens : Uuid -> Uuid) (r : Row)
    : ClaimedEvent :=
  {| ce_envelope := ob_envelope r; ce_attempt := ob_attempt_count r + 1;
     ce_attempt_limit := unwrap_or db_max (ob_attempt_limit r);
     ce_lease_token := tokens (row_id r); ce_lease_owner := owner;
     ce_lease_expires_at := t + millis lease_ms |}.

Lemma map_claimed_all t db_max lease_ms owner tokens rows :
  try_map map_claimed (map (claimed_row t db_max lease_ms owner tokens) rows)
  = Ok (map (claimed_event t db_max lease_ms owner tokens) rows).
Proof.
  apply try_map_Ok, Forall2_fmap, Forall_Forall2_diag, Forall_forall. by intros r _.
Qed.

Lemma claim_Ok e locked tokens t owner limit lease fate db db' es :
  claim e locked tokens t owner limit lease fate db = (db', Ok es) ->
  exists lease_ms, fate = Reported /\ validate_expected e = Ok tt /\
    validate_claim e limit lease = Ok lease_ms /\ guard_policy e db = Ok (dp_max_attempts e) /\
    let picked := pick (claimable t (dp_max_attempts e)) claim_order limit locked db in
    db' = fst (update_where (fun r => contains picked (row_id r))
                 (claimed_row t (dp_max_attempts e) lease_ms owner tokens) db) /\
    es = map (claimed_event t (dp_max_attempts e) lease_ms owner tokens)
           (List.filter (fun r => contains picked (row_id r)) (db_rows db)).
Proof.
  unfold claim. destruct (validate_expected e) as [[]|] eqn:Ev; cbn [rbind]; [|done].
  destruct (validate_claim e limit lease) as [ms|]; [|done]. intros H. exists ms.
  apply transact_Ok in H as [-> (m & Hm & H)%rbind_Ok].
  destruct (guard_policy_Ok _ _ _ Hm) as (_ & -> & _). unfold update_where in H.
  rewrite map_claimed_all in H. cbn [rbind] in H. injection H as <- <-. by split_and!.
Qed.

Definition claimed_of (id : Uuid) (reply : Reply) : list ClaimedEvent :=
  match reply with
  | RClaimed (Ok es) => List.filter (fun e => de_event_id (ce_envelope e) == id) es
  | _ => []
  end.

Definition claims (id : Uuid) (replies : list Reply) : list ClaimedEvent :=
  concat (map (claimed_of id) replies).

Lemma filter_unique {A} (key : A -> Uuid) id l :
  NoDup (map key l) -> (length (List.filter (fun x => key x == id) l) <= 1)%nat.
Proof.
  induction l as [|x l IH]; cbn; [lia|]. intros [Hx Hn]%NoDup_cons. specialize (IH Hn).
  case_bool_decide as E; [|lia]. cbn.
  enough (List.filter (fun x => key x == id) l = []) as -> by done.
  subst id. clear IH Hn. induction l as [|y l IH]; cbn in *; [done|].
  rewrite not_elem_of_cons in Hx. destruct Hx as [Hxy Hx].
  rewrite bool_decide_eq_false_2 by congruence. by apply IH.
Qed.

(** One step hands out an event at most once, and its attempt is the next of the row. *)
Lemma step_claims db op id :
  db_ok db ->
  claimed_of id (snd (step db op)) = [] \/
  exists e r r', claimed_of id (snd (step db op)) = [e] /\
    r ∈ db_rows db /\ row_id r = id /\ ce_attempt e = ob_attempt_count r + 1 /\
    (forall limit, ob_attempt_limit r = Some limit -> ce_attempt_limit e = limit) /\
    r' ∈ db_rows (fst (step db op)) /\ row_id r' = id /\ ob_attempt_count r' = ce_attempt e /\
    ob_attempt_limit r' = Some (ce_attempt_limit e).
Proof.
  intros [Hn _]. destruct op as [e fate|e locked tokens t owner limit lease fate|e t i k lease fate
    |t i k fate|e t i k code terminal backoff fate|e locked t limit fate|envelope t tp ts|p];
    cbn [step]; [destruct (verify_policy _ _ _); by left| |destruct (renew _ _ _ _ _ _ _); by left
      |destruct (settle_success _ _ _ _ _); by left
      |destruct (settle_failure _ _ _ _ _ _ _ _ _); by left
      |destruct (reap_exhausted _ _ _ _ _ _); by left|by left..].
  destruct (claim e locked tokens t owner limit lease fate db) as [db' [es|err]] eqn:E; [|by left].
  apply claim_Ok in E as (ms & _ & _ & _ & _ & -> & ->). cbn [fst snd claimed_of].
  set (picked := pick _ _ _ _ _). set (m := dp_max_attempts e).
  set (rows := List.filter (fun r => contains picked (row_id r)) (db_rows db)).
  set (f := claimed_event t m ms owner tokens).
  assert (NoDup (map (fun e => de_event_id (ce_envelope e)) (map f rows))) as Hf.
  { rewrite map_map. by apply NoDup_map_filter. }
  pose proof (filter_unique _ id _ Hf) as Hl.
  destruct (List.filter _ (map f rows)) as [|x [|y l]] eqn:Ex; [by left| |cbn in Hl; lia].
  right. assert (x ∈ List.filter (fun e => de_event_id (ce_envelope e) == id) (map f rows)) as Hx
    by (rewrite Ex; by left).
  apply elem_of_filter_bool in Hx as [(r & -> & Hr)%list_elem_of_fmap Hid]. simp_bool.
  apply elem_of_filter_bool in Hr as [Hr Hp].
  exists (f r), r, (claimed_row t m ms owner tokens r). split_and!; try done.
  - by intros l Hlim; cbn; rewrite Hlim.
  - unfold update_where, with_rows. cbn. apply list_elem_of_fmap. exists r. by rewrite Hp.
Qed.

Lemma claims_cons db op ops id :
  claims id (snd (steps db (op :: ops))) =
  claimed_of id (snd (step db op)) ++ claims id (snd (steps (fst (step db op)) ops)).
Proof. unfold claims. by rewrite (proj2 (steps_cons _ _ _)). Qed.

(** Later claims of an event continue the count of its row, under the pinned limit. *)
Lemma claims_above db ops r :
  db_ok db -> r ∈ db_rows db ->
  Forall (fun e => ob_attempt_count r < ce_attempt e <= ce_attempt_limit e /\
    forall limit, ob_attempt_limit r = Some limit -> ce_attempt_limit e = limit)
    (claims (row_id r) (snd (steps db ops))).
Proof.
  revert db r. induction ops as [|op ops IH]; intros db r Hok Hr; [constructor|].
  rewrite claims_cons. apply Forall_app. pose proof (step_ok db op Hok) as Hok1. split.
  - destruct (step_claims db op (row_id r) Hok) as [->|(e & x & r' & -> & Hx & Hid & Ha & Hl
      & Hr' & _ & Hc' & Hl')]; [constructor|].
    apply (id_unique db _ _ (proj1 Hok) Hx Hr) in Hid as ->. constructor; [|done].
    destruct Hok1 as [_ Hrows]. rewrite Forall_forall in Hrows. pose proof (Hrows _ Hr') as Hok'.
    destruct (ok_limit _ Hok' _ Hl'). split; [lia|done].
  - destruct (step_grows db op (proj1 Hok)) as [_ Hg].
    destruct (grows_elem _ _ _ _ Hg Hr) as (r1 & Hr1 & [E C L _]).
    replace (row_id r) with (row_id r1) by (unfold row_id; by rewrite E).
    eapply Forall_impl; [exact (IH _ _ Hok1 Hr1)|]. intros e [He Hle]. split; [lia|].
    intros limit Hlim. by apply Hle, L.
Qed.

Lemma increasing_bound (cs : list ClaimedEvent) limit lo :
  StronglySorted (fun a b => ce_attempt a < ce_attempt b) cs ->
  Forall (fun e => lo < ce_attempt e <= limit) cs -> cs = [] \/ len cs <= limit - lo.
Proof.
  intros Hs. revert lo. induction Hs as [|x cs _ IH Hx]; intros lo H; [by left|]. right.
  apply Forall_cons in H as [Hlo H].
  destruct (IH (ce_attempt x)) as [->|Hl].
  - eapply Forall_impl; [apply Forall_and; split; [exact Hx|exact H]|]. cbn. lia.
  - unfold len. cbn. lia.
  - unfold len in *. cbn [length]. lia.
Qed.

(** The claims of one event in a run, in order, over all workers: their attempt numbers
    are at least one and strictly increase, and all of them carry one and the same limit, which
    no attempt number exceeds; an event is therefore handed out at most that many times. *)
Theorem claims_numbered db ops id :
  db_ok db ->
  let cs := claims id (snd (steps db ops)) in
  StronglySorted (fun a b => ce_attempt a < ce_attempt b /\
                             ce_attempt_limit a = ce_attempt_limit b) cs /\
  Forall (fun e => 1 <= ce_attempt e <= ce_attempt_limit e /\ len cs <= ce_attempt_limit e) cs.
Proof.
  intros Hok cs.
  assert (StronglySorted (fun a b => ce_attempt a < ce_attempt b /\
    ce_attempt_limit a = ce_attempt_limit b) cs /\
    Forall (fun e => 1 <= ce_attempt e <= ce_attempt_limit e) cs) as [Hs Hf].
  { subst cs. revert db Hok. induction ops as [|op ops IH]; intros db Hok; [split; constructor|].
    rewrite claims_cons. pose proof (step_ok db op Hok) as Hok1. destruct (IH _ Hok1) as [Hs Hf].
    destruct (step_claims db op id Hok) as [->|(e & r & r' & -> & Hr & _ & Ha & _
      & Hr' & <- & Hc' & Hl')]; [done|]. cbn [app].
    pose proof (claims_above _ ops r' Hok1 Hr') as Habove. split; constructor; try done.
    - eapply Forall_impl; [exact Habove|]. cbn. intros x [Hx Hlim]. rewrite Hc' in Hx.
      split; [lia|]. symmetry. by apply Hlim.
    - destruct Hok as [_ H0]. destruct Hok1 as [_ H1]. rewrite Forall_forall in H0, H1.
      pose proof (ok_count _ (H0 _ Hr)). destruct (ok_limit _ (H1 _ Hr') _ Hl'). lia. }
  split; [done|]. destruct cs as [|c cs]; [constructor|].
  assert (forall e, e ∈ c :: cs -> ce_attempt_limit e = ce_attempt_limit c) as Hsame.
  { intros e [->|He]%elem_of_cons; [done|]. apply StronglySorted_inv in Hs as [_ Hs].
    rewrite Forall_forall in Hs. symmetry. by apply Hs. }
  assert (len (c :: cs) <= ce_attempt_limit c) as Hlen.
  { assert (StronglySorted (fun a b => ce_attempt a < ce_attempt b) (c :: cs)) as Hinc.
    { clear -Hs. induction Hs as [|x l _ IH Hx]; constructor; [done|].
      eapply Forall_impl; [exact Hx|]. by intros ? []. }
    assert (Forall (fun e => 0 < ce_attempt e <= ce_attempt_limit c) (c :: cs)) as Hb.
    { apply Forall_forall. intros e He. rewrite Forall_forall in Hf. pose proof (Hf e He) as Hfe.
      rewrite (Hsame e He) in Hfe. lia. }
    destruct (increasing_bound _ _ _ Hinc Hb); [done|lia]. }
  rewrite Forall_forall in Hf. apply Forall_forall. intros e He. split; [by apply Hf|].
  by rewrite (Hsame e He).
Qed.

(** ** Hand-over and end *)

Definition handed_over (id token : Uuid) (reply : Reply) : Prop :=
  exists e, e ∈ claimed_of id reply /\ ce_lease_token e <> token.

Lemma handed_over_not_held db op id token :
  db_ok db -> handed_over id token (snd (step db op)) -> ~ holds (fst (step db op)) id token.
Proof.
  intros [Hn Hok] (e & He & Htok) (x & Hx & Hxid & Hxt).
  pose proof (step_grows db op Hn) as [Hn1 _].
  destruct op as [e0 fate|e0 locked tokens t owner limit lease fate|e0 t i k lease fate
    |t i k fate|e0 t i k code terminal backoff fate|e0 locked t limit fate|envelope t tp ts|p];
    cbn [step] in *; [destruct (verify_policy _ _ _)| |destruct (renew _ _ _ _ _ _ _)
      |destruct (settle_success _ _ _ _ _)|destruct (settle_failure _ _ _ _ _ _ _ _ _)
      |destruct (reap_exhausted _ _ _ _ _ _)| |]; try by apply elem_of_nil in He.
  destruct (claim _ _ _ _ _ _ _ _ db) as [db' [es|err]] eqn:E; [|by apply elem_of_nil in He].
  apply claim_Ok in E as (ms & _ & _ & _ & _ & -> & ->). cbn [fst snd claimed_of] in *.
  apply elem_of_filter_bool in He as [(r & -> & Hr)%list_elem_of_fmap Hid]. simp_bool.
  apply elem_of_filter_bool in Hr as [Hr Hp].
  assert (claimed_row t (dp_max_attempts e0) ms owner tokens r ∈ db_rows (fst (update_where
    (fun r => contains (pick (claimable t (dp_max_attempts e0)) claim_order limit locked db)
      (row_id r))
    (claimed_row t (dp_max_attempts e0) ms owner tokens) db))) as Hr'.
  { unfold update_where, with_rows. cbn. apply list_elem_of_fmap. exists r. by rewrite Hp. }
  apply (id_unique _ _ _ Hn1 Hx) in Hr'; [|by rewrite Hxid, <- Hid].
  subst x. cbn in *. congruence.
Qed.

(** C8: Fencing: once the store has reported the event to a worker under another token, the
    previous holder is powerless: as long as no claim of the event draws its token again, whatever
    the workers do and whatever fails, its renewals and settlements change nothing and are never
    answered as done. *)
Theorem superseded_lease_powerless db op0 ops op id token :
  db_ok db -> handed_over id token (snd (step db op0)) ->
  Forall (fun op => ~ issues id token op) ops -> under_lease id token op ->
  let db1 := fst (steps (fst (step db op0)) ops) in
  fst (step db1 op) = db1 /\ snd (step db1 op) <> RFence (Ok Updated).
Proof.
  intros Hok Hh Hi Hu db1. apply (not_held_powerless db1 id token op); [|done].
  apply not_held_steps; [by apply step_grows, Hok|by apply handed_over_not_held|done].
Qed.

(** What an operation does to an event that a reply would tell its caller. *)
Definition acts_on (id : Uuid) (op : Op) (reply : Reply) : Prop :=
  claimed_of id reply <> [] \/
  (exists token, under_lease id token op /\ reply = RFence (Ok Updated)).

Lemma finished_inert db op r :
  db_ok db -> r ∈ db_rows db -> unfinished r = false -> ~ acts_on (row_id r) op (snd (step db op)).
Proof.
  intros Hok Hr Hf [Hc|(token & Hu & Hrep)].
  - destruct (step_claims db op (row_id r) Hok) as [?|(e & x & r' & _ & Hx & Hid & Ha & _ & Hr' &
      Hid'
      & Hc' & _)]; [done|].
    apply (id_unique db _ _ (proj1 Hok) Hx Hr) in Hid as ->.
    destruct (step_grows db op (proj1 Hok)) as [Hn1 Hg].
    destruct (grows_elem _ _ _ _ Hg Hr) as (r1 & Hr1 & [E _ _ Hfin]). rewrite (Hfin Hf) in *.
    apply (id_unique _ _ _ Hn1 Hr' Hr1) in Hid' as ->. lia.
  - eapply not_held_powerless; [|exact Hu|exact Hrep]. intros (x & Hx & Hid & Ht).
    apply (id_unique db _ _ (proj1 Hok) Hx Hr) in Hid as ->. destruct Hok as [_ Hrows].
    rewrite Forall_forall in Hrows. destruct (ok_finished _ (Hrows _ Hr) Hf). congruence.
Qed.

(** C20: An event that was delivered or dead-lettered is settled for good: its row never changes
    again, and no later operation claims it or is told to have renewed or settled it. *)
Theorem settled_is_final db ops op r :
  db_ok db -> r ∈ db_rows db -> unfinished r = false ->
  let db1 := fst (steps db ops) in
  r ∈ db_rows db1 /\ ~ acts_on (row_id r) op (snd (step db1 op)).
Proof.
  intros Hok Hr Hf db1. destruct (rows_only_age db ops (proj1 Hok)) as [_ Hg].
  destruct (grows_elem _ _ _ _ Hg Hr) as (r1 & Hr1 & [_ _ _ Hfin]). rewrite (Hfin Hf) in Hr1.
  split; [done|]. apply finished_inert; [by apply outbox_invariant|done|done].
Qed.

(** ** Which events a claim takes *)

Definition candidates (t db_max : Z) (locked : Uuid -> bool) (db : Db) : list Row :=
  List.filter (fun r => negb (locked (row_id r)))
    (sort_by_key claim_order (List.filter (claimable t db_max) (db_rows db))).

Lemma filter_picked rows chosen :
  NoDup (map row_id rows) -> NoDup chosen -> (forall r, r ∈ chosen -> r ∈ rows) ->
  Permutation (List.filter (fun r => contains (map row_id chosen) (row_id r)) rows) chosen.
Proof.
  intros Hn Hc Hin. apply NoDup_Permutation; [|done|].
  - apply (NoDup_fmap_1 row_id). by apply NoDup_map_filter.
  - intros r. rewrite elem_of_filter_bool, contains_true, list_elem_of_fmap. split.
    + intros [Hr (c & Hid & Hcin)]. enough (r = c) as -> by done.
      apply (id_unique {| db_policy := None; db_rows := rows |}); auto.
    + intros Hr. split; [by apply Hin|eauto].
Qed.

Lemma NoDup_filter_bool {A} (p : A -> bool) l : NoDup l -> NoDup (List.filter p l).
Proof.
  induction 1 as [|x l Hx _ IH]; cbn; [constructor|]. destruct (p x); [|done].
  constructor; [|done]. by intros [? _]%elem_of_filter_bool.
Qed.

Lemma StronglySorted_filter_bool {A} (R : relation A) (p : A -> bool) l :
  StronglySorted R l -> StronglySorted R (List.filter p l).
Proof.
  induction 1 as [|x l _ IH Hx]; cbn; [constructor|]. destruct (p x); [|done].
  constructor; [done|]. rewrite Forall_forall in Hx |- *.
  intros y [Hy _]%elem_of_filter_bool. by apply Hx.
Qed.

(** What a reported claim takes: of the unfinished, available rows without a live lease and
    with attempts left that no other transaction holds, the first ones in the order of
    availability, at most as many as asked for and fewer only when there are no more; each is
    handed out with its next attempt number under a lease of its own token. *)
Theorem claim_exact e locked tokens t owner limit lease fate db db' es :
  db_ok db -> claim e locked tokens t owner limit lease fate db = (db', Ok es) ->
  exists lease_ms, validate_claim e limit lease = Ok lease_ms /\
  let all := candidates t (dp_max_attempts e) locked db in
  let chosen := take (Z.to_nat limit) all in
  Permutation es (map (claimed_event t (dp_max_attempts e) lease_ms owner tokens) chosen) /\
  len es <= limit /\ (drop (Z.to_nat limit) all <> [] -> len es = limit) /\
  (forall c r, c ∈ chosen -> r ∈ drop (Z.to_nat limit) all -> ord_le (claim_order c) (claim_order
    r)) /\
  (forall r, r ∈ all <-> r ∈ db_rows db /\ claimable t (dp_max_attempts e) r = true /\
     locked (row_id r) = false).
Proof.
  intros [Hn _] H. apply claim_Ok in H as (ms & _ & _ & Hv & _ & _ & ->).
  exists ms. split; [done|]. intros all chosen.
  assert (1 <= limit) as Hlim.
  { unfold validate_claim in Hv. destruct (in_range 1 32 limit) eqn:E; [|done].
    apply in_range_iff in E. lia. }
  assert (forall r, r ∈ all <-> r ∈ db_rows db /\ claimable t (dp_max_attempts e) r = true /\
     locked (row_id r) = false) as Hall.
  { intros r. unfold all, candidates. rewrite elem_of_filter_bool, sort_by_key_Permutation,
      elem_of_filter_bool, negb_true_iff. tauto. }
  assert (NoDup all) as Hnd.
  { unfold all, candidates. apply NoDup_filter_bool. rewrite sort_by_key_Permutation.
    apply NoDup_filter_bool, (NoDup_fmap_1 row_id), Hn. }
  assert (Permutation (List.filter (fun r => contains (pick (claimable t (dp_max_attempts e))
    claim_order limit locked db) (row_id r)) (db_rows db)) chosen) as Hp.
  { apply filter_picked; [done| |].
    - rewrite <- (take_drop (Z.to_nat limit) all) in Hnd. by apply NoDup_app in Hnd as [? _].
    - intros r Hr. apply Hall. eapply subseteq_take; exact Hr. }
  assert (len chosen = Z.min limit (len all)) as Hlen.
  { unfold chosen, len. rewrite length_take. lia. }
  assert (StronglySorted (key_rel claim_order) all) as Hs.
  { unfold all, candidates. apply StronglySorted_filter_bool, sort_by_key_sorted. }
  split_and!.
  - by rewrite Hp.
  - unfold len. rewrite length_map, Hp. fold (len chosen). lia.
  - intros Hd. unfold len. rewrite length_map, Hp. fold (len chosen). rewrite Hlen.
    assert (Z.to_nat limit < length all)%nat; [|unfold len; lia].
    apply Nat.lt_nge. intros Hge. by apply Hd, drop_ge.
  - intros c r Hc Hr. rewrite <- (take_drop (Z.to_nat limit) all) in Hs.
    by apply (StronglySorted_app_1_elem_of _ _ _ _ _ Hs).
  - done.
Qed.

(** ** Progress *)

Lemma pick_one {K} `{OrdLaws K} (candidate : Row -> bool) (order : Row -> K) db r :
  NoDup (ids db) -> r ∈ db_rows db -> candidate r = true ->
  exists c, List.filter (fun r => contains (pick candidate order 1 (fun _ => false) db) (row_id r))
    (db_rows db) = [c].
Proof.
  intros Hn Hr Hc. unfold pick. set (all := List.filter _ (sort_by_key _ _)).
  assert (forall x, x ∈ all <-> x ∈ db_rows db /\ candidate x = true) as Hall.
  { intros x. unfold all. rewrite elem_of_filter_bool, sort_by_key_Permutation, elem_of_filter_bool.
    naive_solver. }
  destruct all as [|c all]; [exfalso; by apply (not_elem_of_nil r), Hall|]. exists c.
  change (take (Z.to_nat 1) (c :: all)) with [c].
  apply Permutation_singleton_r, filter_picked; [done|apply NoDup_singleton|].
  intros x ->%list_elem_of_singleton. apply Hall. by left.
Qed.

Lemma guard_policy_legacy e db :
  db_policy db = Some e ->
  let legacy := List.filter (legacy_exhausted (dp_max_attempts e)) (db_rows db) in
  guard_policy e db =
    match legacy with
    | [] => Ok (dp_max_attempts e)
    | _ => Err (LegacyExhausted (len legacy) (take 32 (sort (map row_id legacy))))
    end.
Proof.
  intros Hp. cbn zeta. unfold guard_policy. rewrite Hp. cbn [ok_or rbind].
  rewrite bool_decide_eq_true_2 by done. by destruct (List.filter _ _).
Qed.

(** A due row that is not [legacy_exhausted] is a candidate for the claim or for the reaper. *)
Lemma due_candidate t m r :
  row_ok r -> legacy_exhausted m r = false ->
  unfinished r = true -> ob_available_at r <= t -> unleased t r = true ->
  claimable t m r = negb (reapable t r).
Proof.
  intros Hok Hleg Hu Ha Hl.
  assert (is_none (ob_lease_token r) || is_some_and (ob_lease_expires_at r) (fun e => e <=? t) =
    true)
    as Hfree.
  { destruct (ok_lease _ Hok) as [(-> & _)|(_ & _ & [x Hx])]; [done|].
    unfold unleased in Hl. rewrite Hx in *. cbn in *. by rewrite Hl, orb_true_r. }
  unfold claimable, reapable, at_limit, legacy_exhausted in *. rewrite Hu, Hfree, Hl in *.
  rewrite (proj2 (Z.leb_le _ _) Ha). cbn in *. rewrite andb_true_r.
  destruct (ob_attempt_limit r) as [l|]; cbn in *.
  - apply Z.ltb_antisym.
  - apply Z.leb_gt in Hleg. by apply Z.ltb_lt.
Qed.

(** C29: No due event is stuck, unless an unfinished row of the table used up the attempts of the
    policy before its own limit was pinned.  Under the policy in force and without such a row, an
    unfinished event that is due and under no live lease is a candidate for exactly one of the claim
    and the reaper, and when no other transaction holds a row and no answer is lost the claim of one
    event hands one out or the reaper ends one.  With such a row the check of the policy, the claim
    and the reaper change nothing and all report it, whatever rows are held: the number of these
    rows and the first thirty-two of their identifiers. *)
Theorem due_event_progresses e t owner tokens lease lease_ms db r :
  db_ok db -> validate_expected e = Ok tt -> db_policy db = Some e ->
  validate_claim e 1 lease = Ok lease_ms ->
  r ∈ db_rows db -> unfinished r = true -> ob_available_at r <= t -> unleased t r = true ->
  let legacy := List.filter (legacy_exhausted (dp_max_attempts e)) (db_rows db) in
  match legacy with
  | [] =>
      claimable t (dp_max_attempts e) r = negb (reapable t r) /\
      ((exists x, snd (claim e (fun _ => false) tokens t owner 1 lease Reported db) = Ok [x]) \/
       snd (reap_exhausted e (fun _ => false) t 1 Reported db) = Ok 1)
  | _ =>
      let report := LegacyExhausted (len legacy) (take 32 (sort (map row_id legacy))) in
      verify_policy e Reported db = (db, Err report) /\
      forall locked,
        claim e locked tokens t owner 1 lease Reported db = (db, Err report) /\
        reap_exhausted e locked t 1 Reported db = (db, Err report)
  end.
Proof.
  intros [Hn Hok] He Hp Hv Hr Hu Ha Hl. rewrite Forall_forall in Hok.
  pose proof (guard_policy_legacy e db Hp) as Hg. cbn zeta in Hg |- *.
  destruct (List.filter _ (db_rows db)) as [|x0 legacy].
  2: { unfold verify_policy, claim, reap_exhausted. rewrite He. cbn [rbind]. rewrite Hv, Hg. done. }
  destruct (guard_policy_Ok _ _ _ Hg) as (_ & _ & Hleg).
  pose proof (due_candidate t _ r (Hok r Hr) (Hleg r Hr) Hu Ha Hl) as Hx.
  split; [done|]. destruct (claimable t (dp_max_attempts e) r) eqn:Hc; [left|right].
  - destruct (pick_one (claimable t (dp_max_attempts e)) claim_order db r Hn Hr Hc) as [c Hq].
    unfold claim. rewrite He. cbn [rbind]. rewrite Hv, Hg. cbn [rbind]. unfold update_where.
    rewrite Hq, map_claimed_all. eexists. reflexivity.
  - symmetry in Hx. apply negb_false_iff in Hx.
    destruct (pick_one (reapable t) reap_order db r Hn Hr Hx) as [c Hq].
    unfold reap_exhausted. rewrite He, Hg. cbn. unfold update_where. by rewrite Hq.
Qed.

(** The delay the runner computes for a failed attempt is one the store accepts. *)
Lemma retry_backoff_accepted {D : Digest} e event_id attempt :
  validate_expected e = Ok tt ->
  exists ms, validate_backoff e (retry_delay_within event_id attempt (backoff_bounds e)) = Ok ms /\
    dp_backoff_min_ms e <= ms <= dp_backoff_max_ms e.
Proof.
  intros He. apply validated_policy in He as (_ & _ & _ & _ & [Hlo Hhi] & Hcap).
  unfold backoff_bounds. rewrite !Z.max_r by lia.
  destruct (retry_delay_shape event_id attempt) as (ms & Hms & Hr).
  exists (clamp ms (dp_backoff_min_ms e) (dp_backoff_max_ms e)).
  pose proof (clamp_bounds ms _ _ Hhi) as Hb.
  assert (retry_delay_within event_id attempt
    (from_millis (dp_backoff_min_ms e), from_millis (dp_backoff_max_ms e))
    = from_millis (clamp ms (dp_backoff_min_ms e) (dp_backoff_max_ms e))) as ->.
  { unfold retry_delay_within. rewrite Hms. unfold clamp, from_millis.
    rewrite Z.max_l by lia. repeat case_match; simp_bool; lia. }
  split; [|done]. unfold validate_backoff, as_millis_i64. set (d := clamp _ _ _) in *.
  assert (from_millis d / 1000000 = d) as -> by (unfold from_millis; by rewrite Z.div_mul).
  rewrite (proj2 (Z.leb_le d i64_max)) by (unfold i64_max; lia). cbn [ok_or rbind].
  by rewrite (proj2 (in_range_iff _ _ _) Hb), Z.eqb_refl.
Qed.
End Store.
