(* ===== verification/OutboxRunner.v ===== *)
(** * OutboxRunner: the dispatch of claimed events (outbox-delivery, runner.rs)

    A claimed event is processed by a task that shares two atomic flags with its parent:
    [cancel], which the parent sets, and [incomplete_io], which it reads when it abandons the
    task.  A task is a computation over a script of [Turn]s, one for each of its atomic actions:
    what the parent does just before it, and what the action is answered.  The script is
    arbitrary; a task whose script is over was dropped there.  Metrics and spans are left out. *)
From stdpp Require Import base gmap sets list strings vector sorting.
From Stdlib Require Import ZArith Lia Ascii.
From S2P Require Import Prelude Text Ordered Manifest Json AuditKinds AuditChain Outbox OutboxStore.

Local Open Scope Z_scope.

Section Runner.
Context {F : Floats} {D : Digest}.

(** ** Tasks and their surroundings *)

Record DeliveryContext : Type := {
  dx_attempt : Z;
  dx_outbox_token : Uuid;
  dx_outbox_deadline : Z;
  dx_trace : option ValidatedTrace
}.

(** The calls of a task to the store, the permit and the handler. *)
Inductive Call : Type :=
| CTrace (event_id token : Uuid)
| CRenew (event_id token : Uuid) (lease : Z)
| CPermitRenew
| CPermitPreflight
| CDeliver (envelope : DeliveryEnvelope) (context : DeliveryContext)
| CSettleSuccess (event_id token : Uuid)
| CSettleFailure (event_id token : Uuid) (code : ErrorCode) (terminal : bool) (backoff : Z).

Inductive TaskEvent : Type :=
| ECall (call : Call)
| ETraced
| EAnswer (r : Result FenceResult DeliveryError)
| EUnanswered
| EDecided (decision : DeliveryDecision).

(** How an await ends: answered, by the deadline of the bounded operation around it, or by the
    processing deadline around the task. *)
Inductive Await : Type := Answered | DependencyElapsed | ProcessingElapsed.

Inductive LoopEvent : Type := LDeadline | LDecision (d : DeliveryDecision) | LTick.

Record Turn : Type := {
  tn_cancel : bool;
  tn_read : bool;
  tn_late : bool;
  tn_await : Await;
  tn_fence : Result FenceResult DeliveryError;
  tn_trace : Result (option ValidatedTrace) DeliveryError;
  tn_event : LoopEvent
}.

(** [ts_reads]: what the parent read of [incomplete_io] after it had cancelled, and what the task
    had done by then. *)
Record Task : Type := {
  ts_turns : list Turn;
  ts_cancel : bool;
  ts_io : bool;
  ts_reads : list (bool * list TaskEvent);
  ts_log : list TaskEvent
}.

Inductive Out (A : Type) : Type := Done (a : A) | Elapsed | Expired | Dropped.
#[global] Arguments Done {A} a.
#[global] Arguments Elapsed {A}.
#[global] Arguments Expired {A}.
#[global] Arguments Dropped {A}.

Definition T (A : Type) : Type := Task -> Task * Out A.

Definition ret {A} (a : A) : T A := fun s => (s, Done a).

Definition bind {A B} (m : T A) (k : A -> T B) : T B := fun s =>
  match m s with
  | (s, Done a) => k a s
  | (s, Elapsed) => (s, Elapsed)
  | (s, Expired) => (s, Expired)
  | (s, Dropped) => (s, Dropped)
  end.

Local Notation "'let*' x ':=' m 'in' k" := (bind m (fun x => k))
  (at level 10, x name, m at level 100, k at level 200).
Local Notation "'do*' m 'in' k" := (bind m (fun _ => k)) (at level 10, m at level 100, k at level 200).

(** [?] in an async block. *)
Definition try_bind {A B} (m : T (Result A DeliveryError)) (k : A -> T (Result B DeliveryError))
    : T (Result B DeliveryError) :=
  let* r := m in match r with Ok a => k a | Err e => ret (Err e) end.
Local Notation "'try*' x ':=' m 'in' k" := (try_bind m (fun x => k))
  (at level 10, x name, m at level 100, k at level 200).

(** The parent's moves before an action: it stores [true] in [cancel], then it may read
    [incomplete_io]. *)
Definition parent_moves (turn : Turn) (turns : list Turn) (s : Task) : Task :=
  let cancel := ts_cancel s || tn_cancel turn in
  {| ts_turns := turns; ts_cancel := cancel; ts_io := ts_io s;
     ts_reads := if cancel && tn_read turn then (ts_io s, ts_log s) :: ts_reads s else ts_reads s;
     ts_log := ts_log s |}.

Definition take_turn : T Turn := fun s =>
  match ts_turns s with
  | [] => (s, Dropped)
  | turn :: turns => (parent_moves turn turns s, Done turn)
  end.

Definition set_cancel (s : Task) : Task :=
  {| ts_turns := ts_turns s; ts_cancel := true; ts_io := ts_io s; ts_reads := ts_reads s;
     ts_log := ts_log s |}.

Definition log (event : TaskEvent) : T unit := fun s =>
  ({| ts_turns := ts_turns s; ts_cancel := ts_cancel s; ts_io := ts_io s; ts_reads := ts_reads s;
      ts_log := ts_log s ++ [event] |}, Done tt).

Definition load_cancel : T bool := do* take_turn in fun s => (s, Done (ts_cancel s)).

Definition store_cancel : T unit := do* take_turn in fun s => (set_cancel s, Done tt).

Definition store_io (io : bool) : T unit :=
  do* take_turn in fun s =>
  ({| ts_turns := ts_turns s; ts_cancel := ts_cancel s; ts_io := io; ts_reads := ts_reads s;
      ts_log := ts_log s |}, Done tt).

(** [Instant::now() >= processing_deadline]. *)
Definition is_late : T bool := let* turn := take_turn in ret (tn_late turn).

(** The end of an await that was not answered. *)
Definition interrupted {A} (await : Await) : T A := fun s =>
  match await with
  | ProcessingElapsed => (s, Expired)
  | _ => (s, Elapsed)
  end.

(** A call to the store or the permit, and its answer. *)
Definition call (c : Call) : T (Result FenceResult DeliveryError) :=
  do* take_turn in
  do* log (ECall c) in
  let* turn := take_turn in
  match tn_await turn with
  | Answered => do* log (EAnswer (tn_fence turn)) in ret (tn_fence turn)
  | await => do* log EUnanswered in interrupted await
  end.

Definition call_trace (event_id token : Uuid) : T (Result (option ValidatedTrace) DeliveryError) :=
  do* take_turn in
  do* log (ECall (CTrace event_id token)) in
  let* turn := take_turn in
  do* log ETraced in
  match tn_await turn with
  | Answered => ret (tn_trace turn)
  | await => interrupted await
  end.

(** [bounded_operation]. *)
Definition bounded {A} (m : T (Result A DeliveryError)) : T (Result A DeliveryError) := fun s =>
  match m s with
  | (s, Elapsed) => (s, Done (Err StoreUnknown))
  | other => other
  end.

(** ** The processing of a claim *)

Inductive FenceCheck : Type := FcCurrent | FcLost | FcCancelled.
Inductive ClaimOutcome : Type := Settled | ClaimLost.

Definition check_preflight (event_id token : Uuid) (lease : Z)
    : T (Result FenceCheck DeliveryError) :=
  let* cancelled := load_cancel in
  if cancelled then ret (Ok FcCancelled) else
  try* outbox := call (CRenew event_id token lease) in
  if outbox == Lost then ret (Ok FcLost) else
  let* cancelled := load_cancel in
  if cancelled then ret (Ok FcCancelled) else
  try* source := call CPermitRenew in
  if source == Lost then ret (Ok FcLost) else
  let* cancelled := load_cancel in
  if cancelled then ret (Ok FcCancelled) else
  try* current := call CPermitPreflight in
  if current == Lost then ret (Ok FcLost) else
  let* cancelled := load_cancel in
  ret (Ok (if cancelled then FcCancelled else FcCurrent)).

(** The renewals of a heartbeat. *)
Definition renewal (event_id token : Uuid) (lease : Z) : T (Result FenceCheck DeliveryError) :=
  try* outbox := call (CRenew event_id token lease) in
  if outbox == Lost then ret (Ok FcLost) else
  let* cancelled := load_cancel in
  if cancelled then ret (Ok FcCancelled) else
  try* source := call CPermitRenew in
  if source == Lost then ret (Ok FcLost) else
  let* cancelled := load_cancel in
  ret (Ok (if cancelled then FcCancelled else FcCurrent)).

(** The loop that waits for the handler: [inl] breaks with its decision, [inr] returns.  Every
    turn of the loop takes one of the script at least. *)
Fixpoint deliver_loop (fuel : nat) (event_id token : Uuid) (lease : Z)
    : T (DeliveryDecision + Result ClaimOutcome DeliveryError) :=
  match fuel with
  | O => fun s => (s, Dropped)
  | S fuel =>
      let* turn := take_turn in
      match tn_event turn with
      | LDeadline => do* store_cancel in ret (inr (Ok ClaimLost))
      | LDecision decision => do* log (EDecided decision) in ret (inl decision)
      | LTick =>
          do* store_io true in
          let* cancelled := load_cancel in
          if cancelled then ret (inr (Ok ClaimLost)) else
          let* source := bounded (renewal event_id token lease) in
          match source with
          | Ok FcCurrent =>
              do* store_io false in
              let* cancelled := load_cancel in
              if cancelled then ret (inr (Ok ClaimLost)) else deliver_loop fuel event_id token lease
          | Ok _ => do* store_cancel in ret (inr (Ok ClaimLost))
          | Err e => do* store_cancel in ret (inr (Err e))
          end
      end
  end.

Record Claim : Type := {
  cl_event : ClaimedEvent;
  cl_config : DeliveryConfig;
  cl_observed : bool;
  cl_backoff_bounds : Z * Z;
  (** the two fresh identifiers of the span *)
  cl_trace_uuid : Uuid;
  cl_span_uuid : Uuid
}.

Definition claim_id (c : Claim) : Uuid := de_event_id (ce_envelope (cl_event c)).
Definition claim_token (c : Claim) : Uuid := ce_lease_token (cl_event c).
Definition claim_lease (c : Claim) : Z := dc_lease_duration (cl_config c).

Definition settle_call (c : Claim) (decision : DeliveryDecision) : Call :=
  let backoff := retry_delay_within (claim_id c) (ce_attempt (cl_event c)) (cl_backoff_bounds c) in
  match decision with
  | DApplied | DKnownNoop => CSettleSuccess (claim_id c) (claim_token c)
  | DRetryable code => CSettleFailure (claim_id c) (claim_token c) code false backoff
  | DTerminal code => CSettleFailure (claim_id c) (claim_token c) code true backoff
  end.

Definition context_of (c : Claim) (parent : option ValidatedTrace) : DeliveryContext :=
  {| dx_attempt := ce_attempt (cl_event c); dx_outbox_token := claim_token c;
     dx_outbox_deadline := ce_lease_expires_at (cl_event c);
     dx_trace :=
       if cl_observed c then
         Some (sp_context (DeliverySpan_new (cl_trace_uuid c) (cl_span_uuid c) (claim_id c)
                 (ce_attempt (cl_event c)) parent))
       else None |}.

(** From the handler's decision on. *)
Definition settle (c : Claim) (decision : DeliveryDecision)
    : T (Result ClaimOutcome DeliveryError) :=
  let* late := is_late in
  if late then ret (Err StoreUnknown) else
  do* store_io true in
  let* cancelled := load_cancel in
  if cancelled then ret (Ok ClaimLost) else
  try* final_check := bounded (check_preflight (claim_id c) (claim_token c) (claim_lease c)) in
  match final_check with
  | FcCurrent =>
      let* late := is_late in
      if late then ret (Err StoreUnknown) else
      let* cancelled := load_cancel in
      if cancelled then ret (Ok ClaimLost) else
      try* settled := bounded (call (settle_call c decision)) in
      ret (Ok match settled with Updated => Settled | Lost => ClaimLost end)
  | _ => ret (Ok ClaimLost)
  end.

(** From the first fence on. *)
Definition dispatch (c : Claim) (parent : option ValidatedTrace)
    : T (Result ClaimOutcome DeliveryError) :=
  try* check := bounded (check_preflight (claim_id c) (claim_token c) (claim_lease c)) in
  match check with
  | FcCurrent =>
      let* late := is_late in
      if late then ret (Err StoreUnknown) else
      do* store_io false in
      let* cancelled := load_cancel in
      if cancelled then ret (Ok ClaimLost) else
      do* log (ECall (CDeliver (ce_envelope (cl_event c)) (context_of c parent))) in
      let* r := fun s => deliver_loop (S (length (ts_turns s))) (claim_id c) (claim_token c)
                           (claim_lease c) s in
      match r with
      | inl decision => settle c decision
      | inr r => ret r
      end
  | _ => ret (Ok ClaimLost)
  end.

(** The parent context, when there is an observer; no failure to read it stops the claim. *)
Definition read_parent (c : Claim) : T (option ValidatedTrace) :=
  if cl_observed c then
    let* r := bounded (call_trace (claim_id c) (claim_token c)) in
    ret match r with Ok parent => parent | Err _ => None end
  else ret None.

Definition process_claim_inner (c : Claim) : T (Result ClaimOutcome DeliveryError) :=
  let* late := is_late in
  if late then ret (Err StoreUnknown) else
  let* cancelled := load_cancel in
  if cancelled then ret (Ok ClaimLost) else
  let* parent := read_parent c in
  do* store_io true in
  let* cancelled := load_cancel in
  if cancelled then ret (Ok ClaimLost) else dispatch c parent.

(** The guard cancels the handler whenever the claim was not settled; the timeout of the whole
    is an unknown result. *)
Definition process_claim (c : Claim) : T (Result ClaimOutcome DeliveryError) := fun s =>
  match process_claim_inner c s with
  | (s, Done (Ok Settled)) => (s, Done (Ok Settled))
  | (s, Done r) => (set_cancel s, Done r)
  | (s, Dropped) => (set_cancel s, Dropped)
  | (s, _) => (set_cancel s, Done (Err StoreUnknown))
  end.

(** ** Cycles

    One cycle of the runner over a script of answers.  [watching]: the cycle was started with a
    shutdown signal to watch; [cy_drain]: the drain has started.  A cycle whose script is over
    was dropped by the timeout around the worker. *)

Record CycleSummary : Type := { su_claimed : Z; su_settled : Z; su_lost : Z; su_reaped : Z }.

Definition CycleSummary_default : CycleSummary :=
  {| su_claimed := 0; su_settled := 0; su_lost := 0; su_reaped := 0 |}.

Inductive CycleCall : Type :=
| KVerify
| KSnapshot
| KReap (limit : Z)
| KAcquire
| KPermit
| KClaim (owner : Uuid) (limit lease : Z)
| KClaimed (events : list ClaimedEvent)
| KSpawn (event : ClaimedEvent)
| KAbort
| KRelease
| KSleep (backoff : Z)
| KFinalReap (limit : Z).

(** [KPermit] marks that the admission gave a permit, [KClaimed] the events that the store handed
    out; [KFinalReap] is the reaper's call at the end of a run.

    What the join loop waits for: a task that ended ([None]: it panicked), a change of the
    signal, or the drain deadline, at which the tasks left show these flags. *)
Inductive JoinEvent : Type :=
| JJoined (result : option (Result ClaimOutcome DeliveryError))
| JChanged (requested : bool)
| JElapsed (incomplete_io : list bool).

(** An answer is [None] when it did not come in time. *)
Record CycleTurn : Type := {
  ct_signal : bool;
  ct_unit : option (Result unit DeliveryError);
  ct_count : option (Result Z DeliveryError);
  ct_permit : option (Result bool DeliveryError);
  ct_claim : option (Result (list ClaimedEvent) DeliveryError);
  ct_join : list JoinEvent
}.

Record Cycle : Type := {
  cy_turns : list CycleTurn;
  cy_drain : bool;
  cy_log : list (bool * CycleCall)
}.

Definition C (A : Type) : Type := Cycle -> Cycle * option A.

Definition cret {A} (a : A) : C A := fun s => (s, Some a).
Definition cbind {A B} (m : C A) (k : A -> C B) : C B := fun s =>
  match m s with (s, Some a) => k a s | (s, None) => (s, None) end.

Definition ctry {A B} (m : C (Result A DeliveryError)) (k : A -> C (Result B DeliveryError))
    : C (Result B DeliveryError) :=
  cbind m (fun r => match r with Ok a => k a | Err e => cret (Err e) end).

Local Notation "'let+' x ':=' m 'in' k" := (cbind m (fun x => k))
  (at level 10, x name, m at level 100, k at level 200).
Local Notation "'do+' m 'in' k" := (cbind m (fun _ => k)) (at level 10, m at level 100, k at level 200).
Local Notation "'try+' x ':=' m 'in' k" := (ctry m (fun x => k))
  (at level 10, x name, m at level 100, k at level 200).

Definition with_drain (drain : bool) (s : Cycle) : Cycle :=
  {| cy_turns := cy_turns s; cy_drain := drain; cy_log := cy_log s |}.

(** The next turn; with the signal set a watching cycle starts the drain ([start_drain]). *)
Definition cturn (watching : bool) : C CycleTurn := fun s =>
  match cy_turns s with
  | [] => (s, None)
  | turn :: turns =>
      ({| cy_turns := turns; cy_drain := cy_drain s || (watching && ct_signal turn);
          cy_log := cy_log s |}, Some turn)
  end.

Definition clog (k : CycleCall) : C unit := fun s =>
  ({| cy_turns := cy_turns s; cy_drain := cy_drain s;
      cy_log := cy_log s ++ [(cy_drain s, k)] |}, Some tt).

Definition shutdown_requested (watching : bool) : C bool :=
  do+ cturn watching in fun s => (s, Some (cy_drain s)).

Definition in_time {A} (answer : option (Result A DeliveryError)) : Result A DeliveryError :=
  match answer with Some r => r | None => Err StoreUnknown end.

Definition prepare_operation {A} (watching : bool) (k : CycleCall)
    (answer : CycleTurn -> option (Result A DeliveryError)) : C (Result A DeliveryError) :=
  let+ requested := shutdown_requested watching in
  if requested then cret (Err StoreUnknown) else
  do+ clog k in
  let+ turn := cturn watching in
  cret (in_time (answer turn)).

(** The receiver is not looked at. *)
Definition cleanup_operation {A} (k : CycleCall)
    (answer : CycleTurn -> option (Result A DeliveryError)) : C (Result A DeliveryError) :=
  do+ clog k in
  let+ turn := cturn false in
  cret (in_time (answer turn)).

Definition get_or_insert (first_error : option DeliveryError) (e : DeliveryError)
    : option DeliveryError :=
  match first_error with Some e => Some e | None => Some e end.

Definition fold_join (summary : CycleSummary) (first_error : option DeliveryError)
    (joined : option (Result ClaimOutcome DeliveryError)) : CycleSummary * option DeliveryError :=
  match (match joined with Some outcome => outcome | None => Err StoreUnknown end) with
  | Ok Settled =>
      ({| su_claimed := su_claimed summary; su_settled := su_settled summary + 1;
          su_lost := su_lost summary; su_reaped := su_reaped summary |}, first_error)
  | Ok ClaimLost =>
      ({| su_claimed := su_claimed summary; su_settled := su_settled summary;
          su_lost := su_lost summary + 1; su_reaped := su_reaped summary |}, first_error)
  | Err err => (summary, get_or_insert first_error err)
  end.

Definition add_lost (n : Z) (summary : CycleSummary) : CycleSummary :=
  {| su_claimed := su_claimed summary; su_settled := su_settled summary;
     su_lost := su_lost summary + n; su_reaped := su_reaped summary |}.

(** The loop over the tasks; an event that cannot occur in its state is passed over. *)
Fixpoint join_loop (watching : bool) (events : list JoinEvent) (tasks : nat)
    (summary : CycleSummary) (first_error : option DeliveryError)
    : C (CycleSummary * option DeliveryError) :=
  match tasks with
  | O => cret (summary, first_error)
  | S left_ =>
      match events with
      | [] => fun s => (s, None)
      | JJoined joined :: events =>
          let '(summary, first_error) := fold_join summary first_error joined in
          join_loop watching events left_ summary first_error
      | JChanged requested :: events =>
          do+ (fun s => (with_drain (cy_drain s || (watching && requested)) s, Some tt)) in
          join_loop watching events tasks summary first_error
      | JElapsed incomplete_io :: events =>
          fun s =>
            if cy_drain s then
              let first_error :=
                if existsb id (take tasks incomplete_io)
                then get_or_insert first_error StoreUnknown else first_error in
              (do+ clog KAbort in cret (add_lost (Z.of_nat tasks) summary, first_error)) s
            else join_loop watching events tasks summary first_error s
      end
  end.

Fixpoint spawn_all (events : list ClaimedEvent) : C unit :=
  match events with
  | [] => cret tt
  | event :: events => do+ clog (KSpawn event) in spawn_all events
  end.

Record Runner : Type := {
  rn_config : DeliveryConfig;
  rn_owner : Uuid;
  rn_observed : bool;
  (** [max_claims_per_permit] of the admission, and the free slots of the semaphore *)
  rn_max_claims : Z;
  rn_free : Z
}.

Definition release : C (Result unit DeliveryError) := cleanup_operation KRelease ct_unit.

(** From the claimed events on. *)
Definition run_claimed (watching : bool) (summary : CycleSummary) (claimed : list ClaimedEvent)
    : C (Result CycleSummary DeliveryError) :=
  let summary := {| su_claimed := len claimed; su_settled := su_settled summary;
                    su_lost := su_lost summary; su_reaped := su_reaped summary |} in
  let+ requested := shutdown_requested watching in
  if requested then
    try+ _ := release in
    cret (if is_empty claimed then Ok summary else Err StoreUnknown)
  else
    do+ spawn_all claimed in
    let+ turn := cturn false in
    let+ joined := join_loop watching (ct_join turn) (length claimed) summary None in
    let+ released := release in
    let first_error :=
      match released with Ok _ => snd joined | Err err => get_or_insert (snd joined) err end in
    cret match first_error with Some err => Err err | None => Ok (fst joined) end.

(** From the free slots on. *)
Definition admit_and_claim (self : Runner) (watching : bool) (summary : CycleSummary)
    : C (Result CycleSummary DeliveryError) :=
  let maximum := Z.min (dc_batch_size (rn_config self)) (rn_max_claims self) in
  if maximum =? 0 then cret (Err InvalidConfig) else
  let slots := Z.min maximum (rn_free self) in
  if slots =? 0 then cret (Ok summary) else
  try+ permit := prepare_operation watching KAcquire ct_permit in
  if negb permit then cret (Ok summary) else
  do+ clog KPermit in
  let+ requested := shutdown_requested watching in
  if requested then (try+ _ := release in cret (Ok summary)) else
  let+ claimed :=
    prepare_operation watching
      (KClaim (rn_owner self) slots (dc_lease_duration (rn_config self))) ct_claim in
  match claimed with
  | Err err => do+ release in cret (Err err)
  | Ok claimed =>
      do+ clog (KClaimed claimed) in
      if slots <? len claimed then do+ release in cret (Err StoreUnknown)
      else run_claimed watching summary claimed
  end.

(** From the reaper on. *)
Definition reap_and_claim (self : Runner) (watching : bool)
    : C (Result CycleSummary DeliveryError) :=
  try+ reaped := prepare_operation watching (KReap (dc_reap_batch (rn_config self))) ct_count in
  let summary := {| su_claimed := 0; su_settled := 0; su_lost := 0; su_reaped := reaped |} in
  let+ requested := shutdown_requested watching in
  if requested then cret (Ok summary) else admit_and_claim self watching summary.

(** The snapshot of the queue: an error ends the cycle only during a shutdown. *)
Definition take_snapshot (watching : bool) : C (option DeliveryError) :=
  let+ snapshot := prepare_operation watching KSnapshot ct_unit in
  match snapshot with
  | Ok _ => cret None
  | Err error =>
      let+ requested := shutdown_requested watching in
      cret (if requested then Some error else None)
  end.

Definition run_cycle_work (self : Runner) (watching : bool)
    : C (Result CycleSummary DeliveryError) :=
  let+ requested := shutdown_requested watching in
  if requested then cret (Ok CycleSummary_default) else
  try+ _ := prepare_operation watching KVerify ct_unit in
  let+ requested := shutdown_requested watching in
  if requested then cret (Ok CycleSummary_default) else
  if rn_observed self then
    let+ failed := take_snapshot watching in
    match failed with
    | Some error => cret (Err error)
    | None =>
        let+ requested := shutdown_requested watching in
        if requested then cret (Ok CycleSummary_default) else reap_and_claim self watching
    end
  else reap_and_claim self watching.

(** ** Runs

    Cycle after cycle until the shutdown.  [frees]: the free slots that each cycle finds; a run
    whose script is over was dropped by the timeout around the worker. *)

Record RunSummary : Type := {
  rs_cycles : Z;
  rs_claimed : Z;
  rs_settled : Z;
  rs_lost : Z;
  rs_reaped : Z;
  rs_outages : Z
}.

Definition RunSummary_default : RunSummary :=
  {| rs_cycles := 0; rs_claimed := 0; rs_settled := 0; rs_lost := 0; rs_reaped := 0;
     rs_outages := 0 |}.

Definition add_cycle (cycle : CycleSummary) (summary : RunSummary) : RunSummary :=
  {| rs_cycles := rs_cycles summary + 1; rs_claimed := rs_claimed summary + su_claimed cycle;
     rs_settled := rs_settled summary + su_settled cycle;
     rs_lost := rs_lost summary + su_lost cycle;
     rs_reaped := rs_reaped summary + su_reaped cycle; rs_outages := rs_outages summary |}.

Definition add_outage (summary : RunSummary) : RunSummary :=
  {| rs_cycles := rs_cycles summary; rs_claimed := rs_claimed summary;
     rs_settled := rs_settled summary; rs_lost := rs_lost summary; rs_reaped := rs_reaped summary;
     rs_outages := rs_outages summary + 1 |}.

Definition add_reaped (reaped : Z) (summary : RunSummary) : RunSummary :=
  {| rs_cycles := rs_cycles summary; rs_claimed := rs_claimed summary;
     rs_settled := rs_settled summary; rs_lost := rs_lost summary;
     rs_reaped := rs_reaped summary + reaped; rs_outages := rs_outages summary |}.

Definition with_free (free : Z) (self : Runner) : Runner :=
  {| rn_config := rn_config self; rn_owner := rn_owner self; rn_observed := rn_observed self;
     rn_max_claims := rn_max_claims self; rn_free := free |}.

(** The state of the loop: the summary, the backoff, the error of the shutdown. *)
Record Loop : Type := {
  lp_summary : RunSummary;
  lp_backoff : Z;
  lp_shutdown_error : option DeliveryError
}.

Definition first_loop (self : Runner) : Loop :=
  {| lp_summary := RunSummary_default;
     lp_backoff := Z.max (dc_poll_interval (rn_config self)) (from_millis 100);
     lp_shutdown_error := None |}.

(** What a cycle leaves, and whether it claimed something. *)
Definition after_cycle (self : Runner) (cycle : Result CycleSummary DeliveryError) (loop : Loop)
    : C (Result (Loop * bool) DeliveryError) :=
  match cycle with
  | Ok cycle =>
      cret (Ok ({| lp_summary := add_cycle cycle (lp_summary loop);
                   lp_backoff := Z.max (dc_poll_interval (rn_config self)) (from_millis 50);
                   lp_shutdown_error := lp_shutdown_error loop |}, 0 <? su_claimed cycle))
  | Err StoreUnknown =>
      let+ requested := shutdown_requested true in
      cret (Ok ({| lp_summary := add_outage (lp_summary loop);
                   lp_backoff := Z.min (lp_backoff loop * 2) (from_secs 5);
                   lp_shutdown_error :=
                     if requested then Some StoreUnknown else lp_shutdown_error loop |}, false))
  | Err err => cret (Err err)
  end.

Fixpoint run_loop (self : Runner) (frees : list Z) (loop : Loop) : C (Result Loop DeliveryError) :=
  let+ requested := shutdown_requested true in
  if requested then cret (Ok loop) else
  match frees with
  | [] => fun s => (s, None)
  | free :: frees =>
      let+ cycle := run_cycle_work (with_free free self) true in
      try+ next := after_cycle self cycle loop in
      let+ requested := shutdown_requested true in
      if requested then cret (Ok (fst next)) else
      if snd next then run_loop self frees (fst next) else
      do+ clog (KSleep (lp_backoff (fst next))) in
      let+ requested := shutdown_requested true in
      if requested then cret (Ok (fst next)) else run_loop self frees (fst next)
  end.

Definition run_until_shutdown_inner (self : Runner) (frees : list Z)
    : C (Result RunSummary DeliveryError) :=
  try+ loop := run_loop self frees (first_loop self) in
  try+ reaped := cleanup_operation (KFinalReap (dc_reap_batch (rn_config self))) ct_count in
  cret match lp_shutdown_error loop with
       | Some err => Err err
       | None => Ok (add_reaped reaped (lp_summary loop))
       end.

(** The timeout around the worker makes a run that was cut an unknown result. *)
Definition run_until_shutdown (self : Runner) (frees : list Z) (s : Cycle)
    : Cycle * Result RunSummary DeliveryError :=
  match run_until_shutdown_inner self frees s with
  | (s, Some r) => (s, r)
  | (s, None) => (s, Err StoreUnknown)
  end.

(** ** The protocol of a delivery

    The abstract machine of one claim, over what the task does: a fence is the renewal of the
    outbox lease, the renewal of the permit and its preflight, in this order, each answered as
    current. *)

Inductive Purpose : Type := ForHandler | ForHeartbeat | ForSettlement (d : DeliveryDecision).

Inductive Phase : Type :=
| PBegin
| PTracing
| PCalls (purpose : Purpose) (left : list Call)
| PAwait (purpose : Purpose) (left : list Call)
| PDeliver
| PHandling
| PSettle (d : DeliveryDecision)
| PSettling (d : DeliveryDecision)
| PSettled (d : DeliveryDecision)
| PStopped.

Section Protocol.
Context (c : Claim).

Definition renew_call : Call := CRenew (claim_id c) (claim_token c) (claim_lease c).
Definition fence : list Call := [renew_call; CPermitRenew; CPermitPreflight].

(** Where a completed sequence of calls leads. *)
Definition then_ (purpose : Purpose) : Phase :=
  match purpose with
  | ForHandler => PDeliver
  | ForHeartbeat => PHandling
  | ForSettlement d => PSettle d
  end.

Definition calls_left (purpose : Purpose) (left : list Call) : Phase :=
  match left with [] => then_ purpose | _ => PCalls purpose left end.

Inductive next : Phase -> TaskEvent -> Phase -> Prop :=
| nx_trace : next PBegin (ECall (CTrace (claim_id c) (claim_token c))) PTracing
| nx_traced : next PTracing ETraced (PCalls ForHandler fence)
| nx_untraced : next PBegin (ECall renew_call) (PAwait ForHandler [CPermitRenew; CPermitPreflight])
| nx_call purpose call left : next (PCalls purpose (call :: left)) (ECall call) (PAwait purpose
  left)
| nx_current purpose left :
    next (PAwait purpose left) (EAnswer (Ok Updated)) (calls_left purpose left)
| nx_refused purpose left r : r <> Ok Updated -> next (PAwait purpose left) (EAnswer r) PStopped
| nx_unanswered purpose left : next (PAwait purpose left) EUnanswered PStopped
| nx_deliver parent :
    next PDeliver (ECall (CDeliver (ce_envelope (cl_event c)) (context_of c parent))) PHandling
| nx_heartbeat : next PHandling (ECall renew_call) (PAwait ForHeartbeat [CPermitRenew])
| nx_decided d : next PHandling (EDecided d) (PCalls (ForSettlement d) fence)
| nx_settle d : next (PSettle d) (ECall (settle_call c d)) (PSettling d)
| nx_settled d : next (PSettling d) (EAnswer (Ok Updated)) (PSettled d)
| nx_not_settled d r : r <> Ok Updated -> next (PSettling d) (EAnswer r) PStopped
| nx_unknown d : next (PSettling d) EUnanswered PStopped.

Inductive path : list TaskEvent -> Phase -> Prop :=
| path_nil : path [] PBegin
| path_snoc l p event q : path l p -> next p event q -> path (l ++ [event]) q.

(** The calls whose outcome the parent must know before it gives a task up for lost. *)
Definition dependency (event : TaskEvent) : bool :=
  match event with
  | ECall (CTrace _ _) | ECall (CDeliver _ _) => false
  | ECall _ => true
  | _ => false
  end.

Definition is_settle (event : TaskEvent) : bool :=
  match event with
  | ECall (CSettleSuccess _ _) | ECall (CSettleFailure _ _ _ _ _) => true
  | _ => false
  end.

(** Phases in which no such call is pending and no settlement was begun. *)
Definition calm (p : Phase) : Prop :=
  match p with PAwait _ _ | PSettling _ | PSettled _ | PStopped => False | _ => True end.

(** What holds of a task at every point: its log follows the protocol; while the flag is down the
    phase is calm; and whatever the parent read as [false] was read after its cancellation, in a
    calm phase, and no dependency was called since. *)
Record at_phase (p : Phase) (s : Task) : Prop := {
  at_path : path (ts_log s) p;
  at_calm : ts_io s = false -> calm p;
  at_reads : forall l, (false, l) ∈ ts_reads s ->
    ts_cancel s = true /\ (exists q, path l q /\ calm q) /\
    exists more, ts_log s = l ++ more /\ Forall (fun e => dependency e = false) more
}.

Definition unread (s : Task) : Prop := forall l, (false, l) ∉ ts_reads s.

(** The flag is up and the parent has not read it down: calls may be made. *)
Definition busy (p : Phase) (s : Task) : Prop := at_phase p s /\ ts_io s = true /\ unread s.

Definition idle (p : Phase) (s : Task) : Prop := at_phase p s /\ ts_io s = false.

Definition unsettled (p : Phase) : Prop := match p with PSettled _ => False | _ => True end.

(** How a task may end, or be dropped, without having settled its claim. *)
Definition sound (s : Task) : Prop := exists p, at_phase p s /\ unsettled p.

Definition spec {A} (P : Task -> Prop) (m : T A) (Q : A -> Task -> Prop) : Prop :=
  forall s, P s -> match m s with (s', Done a) => Q a s' | (s', _) => sound s' end.

Lemma spec_bind {A B} P (m : T A) Q (k : A -> T B) R :
  spec P m Q -> (forall a, spec (Q a) (k a) R) -> spec P (bind m k) R.
Proof.
  intros Hm Hk s Hs. specialize (Hm s Hs). unfold bind.
  destruct (m s) as [s' [a| | |]]; [by apply Hk|done..].
Qed.

Lemma spec_ret {A} (P : Task -> Prop) (a : A) (Q : A -> Task -> Prop) :
  (forall s, P s -> Q a s) -> spec P (ret a) Q.
Proof. intros H s Hs. by apply H. Qed.

Lemma spec_weaken {A} (P P' : Task -> Prop) (m : T A) (Q Q' : A -> Task -> Prop) :
  (forall s, P' s -> P s) -> (forall a s, Q a s -> Q' a s) -> spec P m Q -> spec P' m Q'.
Proof.
  intros HP HQ Hm s Hs. specialize (Hm s (HP s Hs)). destruct (m s) as [s' [a| | |]]; auto.
Qed.

Lemma spec_bounded {A} P (m : T (Result A DeliveryError)) Q :
  spec P m Q -> (forall s, sound s -> Q (Err StoreUnknown) s) -> spec P (bounded m) Q.
Proof.
  intros Hm HQ s Hs. specialize (Hm s Hs). unfold bounded. destruct (m s) as [s' [a| | |]]; auto.
Qed.

(** ** The parent's moves *)

Lemma parent_moves_at p turn turns s : at_phase p s -> at_phase p (parent_moves turn turns s).
Proof.
  intros [Hp Hc Hr]. split; cbn; [done|done|]. intros l Hl.
  assert ((false, l) ∈ ts_reads s \/ (ts_cancel s || tn_cancel turn = true /\ ts_io s = false /\
    l = ts_log s)) as [Hin|(Hca & Hio & ->)].
  { destruct (ts_cancel s || tn_cancel turn); cbn in Hl; [|by left].
    destruct (tn_read turn); [|by left]. apply elem_of_cons in Hl as [[= Hio ->]|Hl]; auto. }
  - destruct (Hr l Hin) as (-> & Hq & Hm). done.
  - split_and!; [done| |].
    + exists p. split; [done|by apply Hc].
    + exists []. by rewrite app_nil_r.
Qed.

Lemma parent_moves_unread turn turns s : ts_io s = true -> unread s -> unread (parent_moves turn
  turns s).
Proof.
  intros Hio Hu l. cbn. destruct (_ && _); [|apply Hu]. rewrite not_elem_of_cons.
  split; [|apply Hu].
  by rewrite Hio.
Qed.

Lemma parent_moves_busy p turn turns s : busy p s -> busy p (parent_moves turn turns s).
Proof. intros (H & Hio & Hu).
  split_and!; [by apply parent_moves_at|done|by apply parent_moves_unread]. Qed.

Lemma parent_moves_idle p turn turns s : idle p s -> idle p (parent_moves turn turns s).
Proof. intros [H Hio]. split; [by apply parent_moves_at|done]. Qed.

Lemma take_turn_spec (P : Task -> Prop) :
  (forall s, P s -> sound s) -> (forall turn turns s, P s -> P (parent_moves turn turns s)) ->
  spec P take_turn (fun _ s => P s).
Proof.
  intros Hs Hp s H. unfold take_turn. destruct (ts_turns s); [by apply Hs|by apply Hp].
Qed.

Lemma busy_sound p s : unsettled p -> busy p s -> sound s.
Proof. intros ? [? _]. by exists p. Qed.
Lemma idle_sound p s : idle p s -> sound s.
Proof. intros [H Hio]. exists p. split; [done|]. by pose proof (at_calm _ _ H Hio); destruct p. Qed.

Lemma take_turn_busy p : unsettled p -> spec (busy p) take_turn (fun _ => busy p).
Proof.
  intros Hp. apply take_turn_spec; [intros s; by apply busy_sound|intros;
    by apply parent_moves_busy].
Qed.

Lemma take_turn_idle p : spec (idle p) take_turn (fun _ => idle p).
Proof. apply take_turn_spec; [apply idle_sound|intros; by apply parent_moves_idle]. Qed.

(** Reading [cancel] as unset shows that nothing was read yet. *)
Lemma unread_uncancelled p s : at_phase p s -> ts_cancel s = false -> unread s.
Proof. intros [_ _ Hr] Hc l Hl. destruct (Hr l Hl) as [? _]. congruence. Qed.

Lemma load_cancel_spec (P : Task -> Prop) :
  spec P take_turn (fun _ => P) ->
  spec P load_cancel (fun cancelled s => P s /\ (cancelled = false -> ts_cancel s = false)).
Proof.
  intros H. unfold load_cancel. eapply spec_bind; [exact H|]. by intros turn s Hs.
Qed.

Lemma is_late_idle p : spec (idle p) is_late (fun _ => idle p).
Proof. eapply spec_bind; [apply take_turn_idle|]. intros turn. by apply spec_ret. Qed.

Lemma is_late_busy p : unsettled p -> spec (busy p) is_late (fun _ => busy p).
Proof. intros. eapply spec_bind; [by apply take_turn_busy|]. intros turn. by apply spec_ret. Qed.

Lemma load_cancel_busy p :
  unsettled p -> spec (busy p) load_cancel (fun _ => busy p).
Proof.
  intros Hp. eapply spec_weaken; [intros s Hs;
    exact Hs| |apply load_cancel_spec, take_turn_busy, Hp].
  by intros b s [? _].
Qed.

(** ** Events and calls *)

Lemma log_at p event q s :
  at_phase p s -> next p event q -> (dependency event = true -> unread s) ->
  (ts_io s = false -> calm q) -> at_phase q (fst (log event s)).
Proof.
  intros [Hp Hc Hr] Hn Hu Hq. split; cbn; [by eapply path_snoc|done|].
  intros l Hl. destruct (Hr l Hl) as (? & ? & more & -> & Hm). split_and!; [done..|].
  exists (more ++ [event]). rewrite app_assoc. split; [done|]. apply Forall_app. split; [done|].
  constructor; [|done]. apply not_true_iff_false. intros Hd. by apply (Hu Hd l).
Qed.

Lemma log_busy p event q : next p event q -> spec (busy p) (log event) (fun _ => busy q).
Proof.
  intros Hn s (H & Hio & Hu). split_and!; [|done|done].
  apply (log_at p); [done|done|done|congruence].
Qed.

Lemma log_idle p event q :
  next p event q -> dependency event = false -> calm q -> spec (idle p) (log event) (fun _ => idle
    q).
Proof.
  intros Hn Hd Hq s (H & Hio). split; [|done]. apply (log_at p); [done|done|congruence|done].
Qed.

Lemma call_spec p c0 q (after : Result FenceResult DeliveryError -> Phase) :
  unsettled p -> unsettled q -> next p (ECall c0) q ->
  (forall r, next q (EAnswer r) (after r)) -> next q EUnanswered PStopped ->
  spec (busy p) (call c0) (fun r => busy (after r)).
Proof.
  intros Up Uq Hc Ha Hu. unfold call.
  eapply spec_bind; [by apply take_turn_busy|]. intros ?; cbv beta.
  eapply spec_bind; [by apply (log_busy p _ q)|]. intros ?; cbv beta.
  eapply spec_bind; [by apply take_turn_busy|]. intros turn.
  assert (forall await, spec (busy q) (do* log EUnanswered in interrupted await)
    (fun r => busy (after r))) as Hi.
  { intros await. eapply spec_bind; [by apply (log_busy q _ PStopped)|]. intros u0 s Hs.
    unfold interrupted.
    destruct await; by apply (busy_sound PStopped). }
  destruct (tn_await turn); [|apply Hi..].
  eapply spec_bind; [apply (log_busy q), Ha|]. intros ?; cbv beta. by apply spec_ret.
Qed.

Definition answered (purpose : Purpose) (left : list Call) (r : Result FenceResult DeliveryError)
    : Phase :=
  match r with Ok Updated => calls_left purpose left | _ => PStopped end.

Lemma fence_call_spec p c0 purpose left :
  unsettled p -> next p (ECall c0) (PAwait purpose left) ->
  spec (busy p) (call c0) (fun r => busy (answered purpose left r)).
Proof.
  intros. apply (call_spec p c0 (PAwait purpose left)); [done|done|done| |constructor].
  intros [[]|]; by constructor.
Qed.

Definition checked (p : Phase) (r : Result FenceCheck DeliveryError) (s : Task) : Prop :=
  match r with Ok FcCurrent => busy p s | _ => sound s end.

(** A call of a fence: it goes on only when it was answered as current. *)
Lemma fence_step {p c0 purpose left} (k : T (Result FenceCheck DeliveryError)) Q :
  unsettled p -> next p (ECall c0) (PAwait purpose left) ->
  spec (busy (calls_left purpose left)) k (checked Q) ->
  spec (busy p) (try* r := call c0 in if r == Lost then ret (Ok FcLost) else k) (checked Q).
Proof.
  intros Hp Hn Hk. eapply spec_bind; [by apply fence_call_spec|].
  intros [[]|e]; cbn [answered]; [exact Hk|..]; (apply spec_ret; intros s Hs;
    by apply (busy_sound PStopped)).
Qed.

Lemma cancel_step {p} (k : T (Result FenceCheck DeliveryError)) Q :
  unsettled p -> spec (busy p) k (checked Q) ->
  spec (busy p) (let* b := load_cancel in if b then ret (Ok FcCancelled) else k) (checked Q).
Proof.
  intros Hp Hk. eapply spec_bind; [by apply load_cancel_busy|]. intros [].
  - apply spec_ret. intros s. by apply busy_sound.
  - exact Hk.
Qed.

Lemma cancel_last p :
  unsettled p ->
  spec (busy p) (let* b := load_cancel in ret (Ok (if b then FcCancelled else FcCurrent))) (checked
    p).
Proof.
  intros Hp. eapply spec_bind; [by apply load_cancel_busy|].
  intros []; apply spec_ret; intros s; cbn;
    [by apply busy_sound|done].
Qed.

Lemma then_unsettled purpose : unsettled (then_ purpose).
Proof. by destruct purpose. Qed.

Lemma check_preflight_spec p purpose :
  unsettled p -> next p (ECall renew_call) (PAwait purpose [CPermitRenew; CPermitPreflight]) ->
  spec (busy p) (check_preflight (claim_id c) (claim_token c) (claim_lease c))
    (checked (then_ purpose)).
Proof.
  intros Hp Hn. unfold check_preflight. fold renew_call.
  apply cancel_step; [done|]. eapply fence_step; [done|exact Hn|].
  apply cancel_step; [done|]. eapply fence_step; [done|apply nx_call|].
  apply cancel_step; [done|]. eapply fence_step; [done|apply nx_call|].
  apply cancel_last, then_unsettled.
Qed.

Lemma renewal_spec :
  spec (busy PHandling) (renewal (claim_id c) (claim_token c) (claim_lease c)) (checked PHandling).
Proof.
  unfold renewal. fold renew_call. eapply fence_step; [done|apply nx_heartbeat|].
  apply cancel_step; [done|]. eapply fence_step; [done|apply nx_call|]. by apply cancel_last.
Qed.

(** ** The flag *)

Definition raised (p : Phase) (s : Task) : Prop := at_phase p s /\ ts_io s = true.

Lemma take_turn_raised p : unsettled p -> spec (raised p) take_turn (fun _ => raised p).
Proof.
  intros Hp. apply take_turn_spec.
  - intros s [H _]. by exists p.
  - intros turn turns s [H Hio]. split; [by apply parent_moves_at|done].
Qed.

(** Publishing the flag before reading [cancel]: when [cancel] was unset, nothing was read down. *)
Lemma raise_spec {A} p (yes no : T A) Q :
  unsettled p -> spec sound yes Q -> spec (busy p) no Q ->
  spec (idle p) (do* store_io true in let* b := load_cancel in if b then yes else no) Q.
Proof.
  intros Hp Hy Hn. eapply (spec_bind _ _ (fun _ => raised p)).
  { unfold store_io. eapply spec_bind; [apply take_turn_idle|]. intros turn s [[H1 H2 H3] _].
    split; [by split|done]. }
  intros u0. eapply (spec_bind _ _ (fun b s => raised p s /\ (b = false -> ts_cancel s = false))).
  { by apply load_cancel_spec, take_turn_raised. }
  intros [].
  - eapply spec_weaken; [|intros a s H; exact H|exact Hy]. intros s [[H _] _]. by exists p.
  - eapply spec_weaken; [|intros a s H; exact H|exact Hn]. intros s [[H Hio] Hc].
    split_and!; [done|done|]. eapply unread_uncancelled; [exact H|by apply Hc].
Qed.

Lemma lower_spec p : calm p -> spec (busy p) (store_io false) (fun _ => idle p).
Proof.
  intros Hp. assert (unsettled p) by by destruct p. unfold store_io.
  eapply spec_bind; [by apply take_turn_busy|]. intros turn s ([H1 H2 H3] & _ & _).
  split; [by split|done].
Qed.

Lemma load_cancel_idle {A} p (yes no : T A) Q :
  spec sound yes Q -> spec (idle p) no Q ->
  spec (idle p) (let* b := load_cancel in if b then yes else no) Q.
Proof.
  intros Hy Hn. eapply spec_bind; [apply load_cancel_spec, take_turn_idle|]. intros [].
  - eapply spec_weaken; [|intros a s H; exact H|exact Hy]. intros s [H _]. by eapply idle_sound.
  - eapply spec_weaken; [|intros a s H; exact H|exact Hn]. by intros s [H _].
Qed.

Lemma take_turn_sound : spec sound take_turn (fun _ => sound).
Proof.
  apply take_turn_spec; [done|]. intros turn turns s (p & H & Hp). exists p.
  split; [by apply parent_moves_at|done].
Qed.

Lemma set_cancel_at p s : at_phase p s -> at_phase p (set_cancel s).
Proof. intros [H1 H2 H3]. split; cbn; [done|done|]. intros l Hl. by destruct (H3 l Hl) as (_ & ?).
  Qed.

Lemma store_cancel_sound : spec sound store_cancel (fun _ => sound).
Proof.
  unfold store_cancel. eapply spec_bind; [apply take_turn_sound|]. intros turn s (p & H & Hp).
  exists p. split; [by apply set_cancel_at|done].
Qed.

(** ** The claim *)

Definition outcome (r : Result ClaimOutcome DeliveryError) (s : Task) : Prop :=
  match r with
  | Ok Settled => exists d, at_phase (PSettled d) s
  | _ => sound s
  end.

Definition loop_result (r : DeliveryDecision + Result ClaimOutcome DeliveryError) (s : Task) : Prop
  :=
  match r with
  | inl d => idle (PCalls (ForSettlement d) fence) s
  | inr r => sound s /\ r <> Ok Settled
  end.

Lemma leave_loop r : r <> Ok Settled -> spec sound (ret (inr r)) loop_result.
Proof. intros Hr. by apply spec_ret. Qed.

Lemma cancel_loop r : r <> Ok Settled -> spec sound (do* store_cancel in ret (inr r)) loop_result.
Proof.
  intros Hr. eapply spec_bind; [apply store_cancel_sound|]. intros ?. by apply leave_loop.
Qed.

Lemma deliver_loop_spec fuel :
  spec (idle PHandling) (deliver_loop fuel (claim_id c) (claim_token c) (claim_lease c))
    loop_result.
Proof.
  induction fuel as [|fuel IH]; cbn [deliver_loop]; [intros s; apply idle_sound|].
  eapply spec_bind; [apply take_turn_idle|]. intros turn. cbv beta.
  destruct (tn_event turn) as [|d|].
  - eapply (spec_weaken sound); [apply idle_sound|intros a s H; exact H|by apply cancel_loop].
  - eapply (spec_bind _ _ (fun _ => idle (PCalls (ForSettlement d) fence))).
    + by apply (log_idle PHandling); [constructor|..].
    + intros ?. by apply spec_ret.
  - apply raise_spec; [done|by apply leave_loop|].
    eapply spec_bind; [apply spec_bounded; [apply renewal_spec|done]|].
    intros [[]|e]; cbn [checked].
    + eapply spec_bind; [by apply lower_spec|]. intros ?. cbv beta.
      apply load_cancel_idle; [by apply leave_loop|exact IH].
    + by apply cancel_loop.
    + by apply cancel_loop.
    + by apply cancel_loop.
Qed.

Definition settlement_answer (d : DeliveryDecision) (r : Result FenceResult DeliveryError) : Phase
  :=
  match r with Ok Updated => PSettled d | _ => PStopped end.

Lemma settle_call_spec d :
  spec (busy (PSettle d)) (call (settle_call c d)) (fun r => busy (settlement_answer d r)).
Proof.
  apply (call_spec _ _ (PSettling d)); [done|done|constructor| |constructor].
  intros [[]|]; by constructor.
Qed.

Lemma ret_outcome r : r <> Ok Settled -> spec sound (ret r) outcome.
Proof. intros Hr. apply spec_ret. intros s Hs. by destruct r as [[]|]. Qed.

Lemma settle_spec d :
  spec (idle (PCalls (ForSettlement d) fence)) (settle c d) outcome.
Proof.
  unfold settle. eapply spec_bind; [apply is_late_idle|]. intros []; cbv beta.
  { eapply (spec_weaken sound); [apply idle_sound|intros a s H; exact H|by apply ret_outcome]. }
  apply raise_spec; [done|by apply ret_outcome|].
  eapply (spec_bind _ _ (checked (PSettle d))).
  { apply spec_bounded; [|done].
    apply (check_preflight_spec _ (ForSettlement d)); [done|apply nx_call]. }
  intros [[]|e]; cbn [checked]; [|by apply ret_outcome..].
  eapply spec_bind; [by apply is_late_busy|]. intros []; cbv beta.
  { eapply (spec_weaken sound); [intros s; by apply busy_sound|intros a s H;
      exact H|by apply ret_outcome]. }
  eapply spec_bind; [by apply load_cancel_busy|]. intros []; cbv beta.
  { eapply (spec_weaken sound); [intros s; by apply busy_sound|intros a s H;
      exact H|by apply ret_outcome]. }
  eapply (spec_bind _ _ (fun r s => match r with Ok Updated => at_phase (PSettled d) s
    | _ => sound s end)).
  { apply spec_bounded; [|done]. eapply spec_weaken; [intros s H; exact H| |apply settle_call_spec].
    intros [[]|] s; cbn; [by intros [? _]|by apply busy_sound..]. }
  intros [[]|e]; apply spec_ret; intros s Hs; [by exists d|done..].
Qed.

(** The trace context is read before the flag is raised, and no answer to it, nor its absence,
    stops the task. *)
Lemma call_trace_spec s :
  idle PBegin s ->
  match call_trace (claim_id c) (claim_token c) s with
  | (s', Done _) | (s', Elapsed) => idle (PCalls ForHandler fence) s'
  | (s', _) => sound s'
  end.
Proof.
  intros Hs. unfold call_trace, bind at 1, take_turn at 1.
  destruct (ts_turns s) as [|t1 rest]; [by eapply idle_sound|].
  pose proof (parent_moves_idle _ t1 rest s Hs) as H1.
  pose proof (log_idle PBegin (ECall (CTrace (claim_id c) (claim_token c))) PTracing
    nx_trace eq_refl I _ H1) as H2. unfold bind at 1. cbn [log] in H2 |- *.
  set (s2 := {| ts_turns := _ |}) in *. unfold bind at 1, take_turn at 1.
  destruct (ts_turns s2) as [|t2 rest2]; [by eapply idle_sound|].
  pose proof (parent_moves_idle _ t2 rest2 s2 H2) as H3.
  pose proof (log_idle PTracing ETraced (PCalls ForHandler fence) nx_traced eq_refl I _ H3) as H4.
  unfold bind at 1. cbn [log] in H4 |- *. set (s4 := {| ts_turns := _ |}) in *.
  destruct (tn_await t2); cbn; [done..|]. by eapply idle_sound.
Qed.

Lemma read_parent_spec :
  spec (idle PBegin) (read_parent c) (fun _ s => idle PBegin s \/ idle (PCalls ForHandler fence) s).
Proof.
  unfold read_parent. destruct (cl_observed c); [|apply spec_ret; auto].
  eapply (spec_bind _ _ (fun _ => idle (PCalls ForHandler fence)));
    [|intros r; apply spec_ret; auto].
  intros s Hs. pose proof (call_trace_spec s Hs) as H. unfold bounded.
  by destruct (call_trace _ _ s) as [s' [r| | |]].
Qed.

Lemma spec_or {A} (P P' : Task -> Prop) (m : T A) Q :
  spec P m Q -> spec P' m Q -> spec (fun s => P s \/ P' s) m Q.
Proof. intros H H' s [Hs|Hs]; [by apply H|by apply H']. Qed.

Lemma idle_outcome {A} p (m : T A) Q : spec sound m Q -> spec (idle p) m Q.
Proof. apply spec_weaken; [apply idle_sound|done]. Qed.

Lemma busy_outcome {A} p (m : T A) Q : unsettled p -> spec sound m Q -> spec (busy p) m Q.
Proof. intros Hp. apply spec_weaken; [intros s; by apply busy_sound|done]. Qed.

Lemma dispatch_spec p parent :
  unsettled p -> next p (ECall renew_call) (PAwait ForHandler [CPermitRenew; CPermitPreflight]) ->
  spec (busy p) (dispatch c parent) outcome.
Proof.
  intros Hp Hn. unfold dispatch. eapply (spec_bind _ _ (checked PDeliver)).
  { apply spec_bounded; [|done]. by apply (check_preflight_spec _ ForHandler). }
  intros [[]|e]; cbn [checked]; [|by apply ret_outcome..].
  eapply spec_bind; [by apply is_late_busy|].
  intros []; cbv beta; [by apply busy_outcome, ret_outcome|].
  eapply spec_bind; [by apply lower_spec|]. intros ?. cbv beta.
  apply load_cancel_idle; [by apply ret_outcome|].
  eapply (spec_bind _ _ (fun _ => idle PHandling)).
  { by apply (log_idle PDeliver); [constructor|..]. }
  intros ?. eapply (spec_bind _ _ loop_result); [intros s; apply deliver_loop_spec|].
  intros [d|r]; cbn [loop_result]; [apply settle_spec|].
  intros s [Hs Hr]. by apply ret_outcome.
Qed.

Lemma process_claim_inner_spec : spec (idle PBegin) (process_claim_inner c) outcome.
Proof.
  unfold process_claim_inner. eapply spec_bind; [apply is_late_idle|]. intros []; cbv beta.
  { by apply idle_outcome, ret_outcome. }
  apply load_cancel_idle; [by apply ret_outcome|].
  eapply spec_bind; [apply read_parent_spec|]. intros parent. cbv beta.
  apply spec_or; (apply raise_spec; [done|by apply ret_outcome|]); (apply dispatch_spec; [done|]).
  - apply nx_untraced.
  - apply nx_call.
Qed.

(** ** The shape of a log *)

Definition current (calls : list Call) : list TaskEvent :=
  flat_map (fun call => [ECall call; EAnswer (Ok Updated)]) calls.

Definition opening (l : list TaskEvent) : Prop :=
  l = [] \/ l = [ECall (CTrace (claim_id c) (claim_token c)); ETraced].

(** Up to a heartbeat: one call of the handler, behind a fence, then complete heartbeats. *)
Inductive handled : list TaskEvent -> Prop :=
| hd_deliver l parent :
    opening l ->
    handled (l ++ current fence
             ++ [ECall (CDeliver (ce_envelope (cl_event c)) (context_of c parent))])
| hd_beat l : handled l -> handled (l ++ current [renew_call; CPermitRenew]).

Definition base (purpose : Purpose) (l : list TaskEvent) : Prop :=
  match purpose with
  | ForHandler => opening l
  | ForHeartbeat => handled l
  | ForSettlement d => exists h, handled h /\ l = h ++ [EDecided d]
  end.

Definition calls_of (purpose : Purpose) : list Call :=
  match purpose with ForHeartbeat => [renew_call; CPermitRenew] | _ => fence end.

Definition shape (p : Phase) (l : list TaskEvent) : Prop :=
  match p with
  | PBegin => l = []
  | PTracing => l = [ECall (CTrace (claim_id c) (claim_token c))]
  | PCalls purpose rest =>
      exists b done, base purpose b /\ calls_of purpose = done ++ rest /\ l = b ++ current done
  | PAwait purpose rest =>
      exists b done call, base purpose b /\ calls_of purpose = done ++ call :: rest /\
        l = b ++ current done ++ [ECall call]
  | PDeliver => exists b, opening b /\ l = b ++ current fence
  | PHandling => handled l
  | PSettle d => exists h, handled h /\ l = h ++ EDecided d :: current fence
  | PSettling d =>
      exists h, handled h /\ l = h ++ EDecided d :: current fence ++ [ECall (settle_call c d)]
  | PSettled d =>
      exists h, handled h /\ l = h ++ EDecided d :: current fence
                                ++ [ECall (settle_call c d); EAnswer (Ok Updated)]
  | PStopped => True
  end.

Lemma current_snoc calls call :
  current (calls ++ [call]) = current calls ++ [ECall call; EAnswer (Ok Updated)].
Proof. unfold current. by rewrite flat_map_app. Qed.

(** An answered call completes a sequence, or leaves the rest of it. *)
Lemma current_shape purpose (left : list Call) l :
  shape (PAwait purpose left) l -> shape (calls_left purpose left) (l ++ [EAnswer (Ok Updated)]).
Proof.
  intros (b & done & call & Hb & Hc & ->).
  assert ((b ++ current done ++ [ECall call]) ++ [EAnswer (Ok Updated)]
    = b ++ current (done ++ [call])) as ->.
  { rewrite current_snoc. by rewrite <- !app_assoc. }
  assert (calls_of purpose = (done ++ [call]) ++ left) as Hc' by (rewrite Hc;
    by rewrite <- app_assoc).
  destruct left as [|x left]; cbn [calls_left]; [|by exists b, (done ++ [call])].
  rewrite app_nil_r in Hc'. rewrite <- Hc'. destruct purpose as [| |d]; cbn [then_ shape calls_of].
  - by exists b.
  - by constructor.
  - destruct Hb as (h & Hh & ->). exists h. split; [done|]. by rewrite <- app_assoc.
Qed.

Lemma path_shape l p : path l p -> shape p l.
Proof.
  induction 1 as [|l p event q _ IH Hn]; [done|]. destruct Hn; cbn [shape] in *; try done.
  - by subst.
  - subst. exists [ECall (CTrace (claim_id c) (claim_token c)); ETraced], [].
    split_and!; [by right|done..].
  - subst. exists [], [], renew_call. split_and!; [by left|done..].
  - destruct IH as (b & done & Hb & Hc & ->). exists b, done, call0. split_and!; [done|done|].
    by rewrite <- app_assoc.
  - by apply current_shape.
  - destruct IH as (b & Hb & ->). rewrite <- app_assoc. by constructor.
  - exists l, [], renew_call. by split_and!.
  - exists (l ++ [EDecided d]), []. split_and!; [by exists l|done|by rewrite app_nil_r].
  - destruct IH as (h & Hh & ->). exists h. split; [done|]. by rewrite <- app_assoc.
  - destruct IH as (h & Hh & ->). exists h. split; [done|]. by rewrite <- !app_assoc.
Qed.

(** ** Splitting a log at an event *)

Inductive runs : Phase -> list TaskEvent -> Phase -> Prop :=
| runs_nil p : runs p [] p
| runs_cons p event q l r : next p event q -> runs q l r -> runs p (event :: l) r.

Lemma runs_snoc p l q event r : runs p l q -> next q event r -> runs p (l ++ [event]) r.
Proof. induction 1 as [p|p e p' l q Hp _ IH]; intros Hq; cbn; econstructor; eauto. constructor. Qed.

Lemma path_split l1 event l2 p :
  path (l1 ++ event :: l2) p -> exists q r, path l1 q /\ next q event r /\ runs r l2 p.
Proof.
  revert p. induction l2 as [|e l2 IH] using rev_ind; intros p H.
  - inversion H as [|l q' e' p' Hl Hn Heq]; [by destruct l1|].
    apply app_inj_tail in Heq as [-> ->]. exists q', p. split_and!; [done|done|constructor].
  - rewrite app_comm_cons, app_assoc in H.
    inversion H as [|l q' e' p' Hl Hn Heq]; [by destruct l1|].
    apply app_inj_tail in Heq as [-> ->]. destruct (IH q' Hl) as (q & r & Ha & Hb & Hc).
    exists q, r. split_and!; [done|done|by eapply runs_snoc].
Qed.

Lemma settle_is_last d l p : runs (PSettling d) l p -> (length l <= 1)%nat.
Proof.
  intros H. inversion H as [|? ? q l' ? Hn Hr]; subst; [cbn; lia|].
  assert (l' = []) as ->; [|done].
  inversion Hn; subst; inversion Hr as [|? ? ? ? ? Hn']; subst; try done; inversion Hn'.
Qed.

Lemma settle_call_settles d : is_settle (ECall (settle_call c d)) = true.
Proof. by destruct d. Qed.

Lemma next_settle p event q :
  next p event q -> is_settle event = true ->
  (exists d, p = PSettle d /\ event = ECall (settle_call c d) /\ q = PSettling d) \/
  exists purpose left, p = PCalls purpose left /\ ~ (exists done, calls_of purpose = done ++ left).
Proof.
  intros Hn Hs.
  destruct Hn as [| | |purpose x rest| | | | | | |d| | |]; try done; [|left; by exists d].
  right. exists purpose, (x :: rest). split; [done|]. intros [done Hd].
  assert (x ∈ calls_of purpose) as Hin by (rewrite Hd; set_solver).
  assert (x ∈ fence) as Hf.
  { destruct purpose; [done| |done]. cbn in Hin |- *. set_solver. }
  unfold fence, renew_call in Hf. repeat (apply elem_of_cons in Hf as [->|Hf]; [done|]).
  by apply elem_of_nil in Hf.
Qed.

Lemma path_settle l1 event l2 p :
  path (l1 ++ event :: l2) p -> is_settle event = true ->
  exists h d, handled h /\ l1 = h ++ EDecided d :: current fence /\
    event = ECall (settle_call c d) /\ (length l2 <= 1)%nat.
Proof.
  intros H Hs. apply path_split in H as (q & r & Hl1 & Hn & Hr).
  apply path_shape in Hl1. destruct (next_settle _ _ _ Hn Hs)
    as [(d & -> & -> & ->)|(purpose & rest & -> & Hno)].
  - destruct Hl1 as (h & Hh & ->). exists h, d. split_and!; [done..|]. by eapply settle_is_last.
  - destruct Hl1 as (b & done & _ & Hc & _). exfalso. apply Hno. by exists done.
Qed.

Lemma path_deliver l1 envelope context l2 p :
  path (l1 ++ ECall (CDeliver envelope context) :: l2) p ->
  envelope = ce_envelope (cl_event c) /\ (exists parent, context = context_of c parent) /\
  exists b, opening b /\ l1 = b ++ current fence.
Proof.
  intros H. apply path_split in H as (q & r & Hl1 & Hn & _). apply path_shape in Hl1.
  inversion Hn as [| | |purpose x rest| | | |parent| | | | | |]; subst.
  - destruct Hl1 as (b & done & _ & Hc & _). exfalso.
    assert (CDeliver envelope context ∈ calls_of purpose) as Hin by (rewrite Hc; set_solver).
    assert (CDeliver envelope context ∈ fence) as Hf.
    { destruct purpose; [done| |done]. cbn in Hin |- *. set_solver. }
    unfold fence, renew_call in Hf. repeat (apply elem_of_cons in Hf as [Hf|Hf]; [done|]).
    by apply elem_of_nil in Hf.
  - split_and!; [done|by exists parent|exact Hl1].
  - by destruct d.
Qed.

(** ** What was answered *)

Fixpoint all_answered (l : list TaskEvent) : Prop :=
  match l with
  | [] => True
  | event :: l =>
      (dependency event = true -> exists r l', l = EAnswer r :: l') /\ all_answered l
  end.

Lemma all_answered_app l k : all_answered l -> all_answered k -> all_answered (l ++ k).
Proof.
  induction l as [|e l IH]; cbn; [done|]. intros [He Hl] Hk. split; [|by apply IH].
  intros Hd. destruct (He Hd) as (r & l' & ->). by eexists _, _.
Qed.

Lemma all_answered_quiet l : Forall (fun e => dependency e = false) l -> all_answered l.
Proof. induction 1 as [|e l He _ IH]; cbn; [done|]. split; [congruence|done]. Qed.

Lemma all_answered_current calls : all_answered (current calls).
Proof.
  induction calls as [|x calls IH]; cbn; [done|]. split_and!; [intros _; by eexists _, _|done|done].
Qed.

Lemma opening_answered b : opening b -> all_answered b.
Proof. intros [->| ->]; by apply all_answered_quiet; repeat constructor. Qed.

Lemma handled_answered h : handled h -> all_answered h.
Proof.
  induction 1 as [b parent Hb|h _ IH].
  - apply all_answered_app; [by apply opening_answered|].
    apply all_answered_app; [apply all_answered_current|].
    by apply all_answered_quiet; repeat constructor.
  - apply all_answered_app; [done|apply all_answered_current].
Qed.

Lemma base_answered purpose b : base purpose b -> all_answered b.
Proof.
  destruct purpose as [| |d]; cbn; [apply opening_answered|apply handled_answered|].
  intros (h & Hh & ->). apply all_answered_app; [by apply handled_answered|].
  by apply all_answered_quiet; repeat constructor.
Qed.

Lemma calm_answered l p : path l p -> calm p -> all_answered l.
Proof.
  intros Hp Hc. apply path_shape in Hp. destruct p; try done; cbn [shape] in Hp.
  - by subst.
  - subst. by apply all_answered_quiet; repeat constructor.
  - destruct Hp as (b & done & Hb & _ & ->).
    apply all_answered_app; [by eapply base_answered|apply all_answered_current].
  - destruct Hp as (b & Hb & ->).
    apply all_answered_app; [by apply opening_answered|apply all_answered_current].
  - by apply handled_answered.
  - destruct Hp as (h & Hh & ->). apply all_answered_app; [by apply handled_answered|].
    split; [done|]. apply all_answered_current.
Qed.

Lemma path_settling l event q :
  path (l ++ [event]) q -> is_settle event = true -> exists d, q = PSettling d.
Proof.
  intros H Hs. apply path_split in H as (p & r & Hl & Hn & Hr). inversion Hr; subst.
  destruct (next_settle _ _ _ Hn Hs) as [(d & _ & _ & ->)|(purpose & rest & -> & Hno)]; [eauto|].
  apply path_shape in Hl as (b & done & _ & Hx & _). exfalso. apply Hno. by exists done.
Qed.

(** No phase after a settlement is calm again. *)
Lemma calm_unsettled l p : path l p -> calm p -> Forall (fun e => is_settle e = false) l.
Proof.
  intros Hp Hc. apply Forall_forall. intros e He. apply not_true_iff_false. intros Hs.
  apply list_elem_of_split in He as (l1 & l2 & ->).
  apply path_split in Hp as (q & r & Hl1 & Hn & Hr).
  destruct (path_settling _ _ _ (path_snoc _ _ _ _ Hl1 Hn) Hs) as [d ->].
  inversion Hr as [|? ? q' l' ? Hn1 Hr1]; subst; [done|].
  inversion Hn1; subst; inversion Hr1 as [|? ? ? ? ? Hn2]; subst; try done; inversion Hn2.
Qed.

(** ** The task as a whole *)

Definition start (turns : list Turn) : Task :=
  {| ts_turns := turns; ts_cancel := false; ts_io := false; ts_reads := []; ts_log := [] |}.

Lemma start_idle turns : idle PBegin (start turns).
Proof.
  split; [|done]. split; cbn; [constructor|done|]. intros l Hl. by apply elem_of_nil in Hl.
Qed.

Definition is_settled (out : Out (Result ClaimOutcome DeliveryError)) : Prop :=
  out = Done (Ok Settled).

Lemma process_claim_phase turns :
  let (s, out) := process_claim c (start turns) in
  exists p, at_phase p s /\ (is_settled out <-> exists d, p = PSettled d).
Proof.
  pose proof (process_claim_inner_spec _ (start_idle turns)) as H. unfold process_claim, is_settled.
  assert (forall s (out : Out (Result ClaimOutcome DeliveryError)), sound s -> out <> Done (Ok
    Settled) ->
    exists p, at_phase p (set_cancel s) /\ (out = Done (Ok Settled) <-> exists d, p = PSettled d))
      as Hs.
  { intros s out (p & Hp & Hu) Hout. exists p. split; [by apply set_cancel_at|]. split; [done|].
    by intros [d ->]. }
  destruct (process_claim_inner c (start turns)) as [s [[[]|e]| | |]]; cbn [outcome] in H;
    try (by apply Hs).
  destruct H as [d Hd]. exists (PSettled d). split; [done|]. split; eauto.
Qed.
End Protocol.

(** C7: The protocol of a delivery, whatever the store, the permit and the handler answer and
    wherever the task is interrupted: the handler is called only right after a complete fence, and
    with the claimed envelope; the claim is settled at most once, only after the handler decided
    and right after another complete fence, with exactly the settlement of that decision; and the
    task reports it as settled exactly when the store answered that it was. *)
Theorem delivery_protocol c turns :
  let (s, out) := process_claim c (start turns) in
  (forall l1 envelope context l2, ts_log s = l1 ++ ECall (CDeliver envelope context) :: l2 ->
     envelope = ce_envelope (cl_event c) /\ (exists parent, context = context_of c parent) /\
     exists b, opening c b /\ l1 = b ++ current (fence c)) /\
  (forall l1 event l2, ts_log s = l1 ++ event :: l2 -> is_settle event = true ->
     exists h d, handled c h /\ l1 = h ++ EDecided d :: current (fence c) /\
       event = ECall (settle_call c d) /\ (length l2 <= 1)%nat) /\
  (is_settled out <->
     exists h d, handled c h /\
       ts_log s = h ++ EDecided d :: current (fence c)
                  ++ [ECall (settle_call c d); EAnswer (Ok Updated)]).
Proof.
  pose proof (process_claim_phase c turns) as H.
  destruct (process_claim c (start turns)) as [s out].
  destruct H as (p & [Hp _ _] & Hout). split_and!.
  - intros l1 envelope context l2 Hl. rewrite Hl in Hp. by eapply path_deliver.
  - intros l1 event l2 Hl Hs. rewrite Hl in Hp. by eapply path_settle.
  - rewrite Hout. split.
    + intros [d ->]. apply path_shape in Hp as (h & Hh & Hl). by exists h, d.
    + intros (h & d & _ & Hl). rewrite Hl in Hp.
      change ([ECall (settle_call c d); EAnswer (Ok Updated)])
        with ([ECall (settle_call c d)] ++ [EAnswer (Ok Updated)]) in Hp.
      rewrite app_assoc, app_comm_cons, app_assoc in Hp.
      apply path_split in Hp as (q & r & Hq & Hn & Hr). inversion Hr; subst.
      rewrite app_comm_cons, app_assoc in Hq.
      destruct (path_settling _ _ _ _ Hq (settle_call_settles c d)) as [d' ->].
      inversion Hn; subst; [eauto|done].
Qed.

(** An abandoned task is known: when the parent, after it has cancelled a task, reads that no
    call is incomplete, then every call the task had made was answered, it never makes another one
    to the store or its permit, and it never began to settle its claim; and a task that ends or is
    dropped with the flag down has not begun to either. *)
Lemma abandoned_task_certain c turns l :
  let (s, _) := process_claim c (start turns) in
  ((false, l) ∈ ts_reads s ->
     all_answered l /\ Forall (fun e => is_settle e = false) (ts_log s) /\
     exists more, ts_log s = l ++ more /\ Forall (fun e => dependency e = false) more) /\
  (ts_io s = false ->
     all_answered (ts_log s) /\ Forall (fun e => is_settle e = false) (ts_log s)).
Proof.
  pose proof (process_claim_phase c turns) as H.
  destruct (process_claim c (start turns)) as [s out].
  destruct H as (p & [Hp Hc Hr] & _). split.
  - intros Hl. destruct (Hr l Hl) as (_ & (q & Hq & Hcq) & more & Hlog & Hm).
    split_and!; [by eapply calm_answered| |by exists more].
    rewrite Hlog. apply Forall_app. split; [by eapply calm_unsettled|].
    eapply Forall_impl; [exact Hm|]. by intros [[]| | | |].
  - intros Hio. split; [eapply calm_answered|eapply calm_unsettled]; eauto.
Qed.

(** ** Cycles *)

Definition calls (s : Cycle) : list CycleCall := map snd (cy_log s).

(** The events that start new work. *)
Definition begins (k : CycleCall) : bool :=
  match k with
  | KPermit | KClaimed _ | KAbort | KRelease | KFinalReap _ => false
  | _ => true
  end.

(** Once the drain has started nothing is begun. *)
Definition tidy (s : Cycle) : Prop :=
  Forall (fun '(drain, k) => drain = true -> begins k = false) (cy_log s).

Section Script.
Context (script : list CycleTurn).

(** An answer of the script. *)
Definition answers {A} (answer : CycleTurn -> option (Result A DeliveryError))
    (r : Result A DeliveryError) : Prop :=
  exists turn, turn ∈ script /\ answer turn = Some r.

(** The events marked as handed out are those of an answer of the store. *)
Definition truthful (k : CycleCall) : Prop :=
  match k with KClaimed events => answers ct_claim (Ok events) | _ => True end.

Definition orderly (s : Cycle) : Prop :=
  tidy s /\ cy_turns s `suffix_of` script /\ Forall (fun e => truthful (snd e)) (cy_log s).

Definition logged (l : list CycleCall) (s : Cycle) : Prop := calls s = l /\ orderly s.

Definition cspec {A} (P : Cycle -> Prop) (m : C A) (Q : A -> Cycle -> Prop) : Prop :=
  forall s, P s -> match m s with (s', Some a) => Q a s' | (s', None) => orderly s' end.

Lemma cspec_bind {A B} P (m : C A) Q (k : A -> C B) R :
  cspec P m Q -> (forall a, cspec (Q a) (k a) R) -> cspec P (cbind m k) R.
Proof.
  intros Hm Hk s Hs. specialize (Hm s Hs). unfold cbind.
  destruct (m s) as [s' [a|]]; [by apply Hk|done].
Qed.

Lemma cspec_ret {A} (P : Cycle -> Prop) (a : A) (Q : A -> Cycle -> Prop) :
  (forall s, P s -> Q a s) -> cspec P (cret a) Q.
Proof. intros H s Hs. by apply H. Qed.

Lemma cspec_pre {A} (P P' : Cycle -> Prop) (m : C A) Q :
  (forall s, P' s -> P s) -> cspec P m Q -> cspec P' m Q.
Proof. intros HP Hm s Hs. by apply Hm, HP. Qed.

Lemma cspec_post {A} P (m : C A) (Q Q' : A -> Cycle -> Prop) :
  (forall a s, Q a s -> Q' a s) -> cspec P m Q -> cspec P m Q'.
Proof. intros HQ Hm s Hs. specialize (Hm s Hs). destruct (m s) as [s' [a|]]; auto. Qed.

Lemma cspec_or {A} (P P' : Cycle -> Prop) (m : C A) Q :
  cspec P m Q -> cspec P' m Q -> cspec (fun s => P s \/ P' s) m Q.
Proof. intros H H' s [Hs|Hs]; [by apply H|by apply H']. Qed.

Lemma cturn_script watching l :
  cspec (logged l) (cturn watching) (fun turn s => logged l s /\ turn ∈ script).
Proof.
  intros s (Hl & Ht & Hs & Hk). unfold cturn. destruct (cy_turns s) as [|turn turns] eqn:E.
  - split; [done|]. by rewrite E.
  - split; [|eapply elem_of_suffix; [by left|exact Hs]]. split; [done|]. split; [done|].
    split; [|done]. etrans; [|exact Hs]. by exists [turn].
Qed.

Lemma cturn_spec watching l : cspec (logged l) (cturn watching) (fun _ => logged l).
Proof. eapply cspec_post; [|apply cturn_script]. by intros turn s []. Qed.

Lemma shutdown_spec watching l :
  cspec (logged l) (shutdown_requested watching)
    (fun requested s => logged l s /\ cy_drain s = requested).
Proof. eapply cspec_bind; [apply cturn_spec|]. by intros turn s Hs. Qed.

Lemma shutdown_drained watching l :
  cspec (fun s => logged l s /\ cy_drain s = true) (shutdown_requested watching)
    (fun requested s => logged l s /\ cy_drain s = true /\ requested = true).
Proof.
  intros s [Hs Hd]. pose proof (cturn_spec watching l s Hs) as H. revert H.
  unfold shutdown_requested, cbind, cturn. destruct (cy_turns s); [done|]. cbn. by rewrite Hd.
Qed.

Lemma clog_spec k l (P : Cycle -> Prop) :
  truthful k -> (forall s, P s -> logged l s /\ (cy_drain s = true -> begins k = false)) ->
  cspec P (clog k) (fun _ => logged (l ++ [k])).
Proof.
  intros Hk HP s Hs. destruct (HP s Hs) as [(Hl & Ht & Hsuf & Hf) Hb]. cbn.
  split; [|split; [|split; [exact Hsuf|]]].
  - unfold calls. cbn. by rewrite map_app, <- Hl.
  - apply Forall_app. split; [exact Ht|by constructor].
  - apply Forall_app. split; [done|by constructor].
Qed.

(** An operation that succeeds was given that answer. *)
Lemma prepare_answer {A} watching k (answer : CycleTurn -> option (Result A DeliveryError)) l :
  truthful k ->
  cspec (logged l) (prepare_operation watching k answer)
    (fun r s => match r with
                | Ok _ => logged (l ++ [k]) s /\ answers answer r
                | Err _ => logged (l ++ [k]) s \/ (logged l s /\ cy_drain s = true)
                end).
Proof.
  intros Hk. eapply cspec_bind; [apply shutdown_spec|]. intros [].
  - apply cspec_ret. auto.
  - eapply cspec_bind; [apply (clog_spec _ l); [done|]|].
    + intros s [Hs Hd]. split; [done|congruence].
    + intros ?. eapply cspec_bind; [apply cturn_script|]. intros turn. apply cspec_ret.
      intros s [Hs Hin]. unfold in_time. destruct (answer turn) as [[x|e]|] eqn:E; [|by left..].
      split; [done|]. by exists turn.
Qed.

Lemma prepare_spec {A} watching k (answer : CycleTurn -> option (Result A DeliveryError)) l :
  truthful k ->
  cspec (logged l) (prepare_operation watching k answer)
    (fun r s => match r with
                | Ok _ => logged (l ++ [k]) s
                | Err _ => logged (l ++ [k]) s \/ (logged l s /\ cy_drain s = true)
                end).
Proof.
  intros Hk. eapply cspec_post; [|by apply prepare_answer]. by intros [a|e] s; [intros []|].
Qed.

(** A cleanup does not look at the signal. *)
Lemma cleanup_drain {A} k (answer : CycleTurn -> option (Result A DeliveryError)) s s' r :
  cleanup_operation k answer s = (s', Some r) -> cy_drain s' = cy_drain s.
Proof.
  unfold cleanup_operation, cbind, cturn. cbn. destruct (cy_turns s); [done|]. intros [= <- _]. cbn.
  by rewrite orb_false_r.
Qed.

Lemma cleanup_spec {A} k (answer : CycleTurn -> option (Result A DeliveryError)) l :
  truthful k -> begins k = false ->
  cspec (logged l) (cleanup_operation k answer)
    (fun r s => logged (l ++ [k]) s /\ (r = Err StoreUnknown \/ answers answer r)).
Proof.
  intros Hk Hb. eapply cspec_bind; [apply (clog_spec _ l); [done|auto]|]. intros ?.
  eapply cspec_bind; [apply cturn_script|]. intros turn. apply cspec_ret. intros s [Hs Hin].
  split; [done|]. unfold in_time. destruct (answer turn) eqn:E; [right; by exists turn|by left].
Qed.

Lemma release_spec l (P : bool -> Prop) :
  cspec (fun s => logged l s /\ P (cy_drain s)) release
    (fun _ s => logged (l ++ [KRelease]) s /\ P (cy_drain s)).
Proof.
  intros s [Hs Hp]. pose proof (cleanup_spec KRelease ct_unit l I eq_refl s Hs) as H.
  unfold release. destruct (cleanup_operation KRelease ct_unit s) as [s' [r|]] eqn:E; [|exact H].
  rewrite (cleanup_drain _ _ _ _ _ E). split; [apply H|done].
Qed.

(** ** What a cycle does *)

Definition head (self : Runner) : list CycleCall :=
  KVerify :: (if rn_observed self then [KSnapshot] else [])
  ++ [KReap (dc_reap_batch (rn_config self))].

Definition slots (self : Runner) : Z :=
  Z.min (Z.min (dc_batch_size (rn_config self)) (rn_max_claims self)) (rn_free self).

Definition claim_call (self : Runner) : CycleCall :=
  KClaim (rn_owner self) (slots self) (dc_lease_duration (rn_config self)).

Definition balanced (summary : CycleSummary) : Prop :=
  su_settled summary + su_lost summary = su_claimed summary.

Definition nothing (r : Result CycleSummary DeliveryError) : Prop :=
  forall summary, r = Ok summary -> su_claimed summary = 0 /\ balanced summary.

(** A finished cycle; [drain]: the drain has started at its end.  Without a permit it stopped
    somewhere on the way to one.  With a permit it released it last.  In between it did nothing,
    because of the drain; or its claim failed; or the claim handed events out of which it spawned
    none, because of the drain or because they were too many, which is an error unless there were
    none; or it spawned them all, once each and in order. *)
Inductive finished (self : Runner) (drain : bool)
    : list CycleCall -> Result CycleSummary DeliveryError -> Prop :=
| fin_before l r : l `prefix_of` head self ++ [KAcquire] -> nothing r -> finished self drain l r
| fin_permit r :
    drain = true -> nothing r -> finished self drain (head self ++ [KAcquire; KPermit; KRelease]) r
| fin_unclaimed e :
    finished self drain (head self ++ [KAcquire; KPermit; claim_call self; KRelease]) (Err e)
| fin_unspawned events r :
    drain = true \/ slots self < len events ->
    nothing r -> (events <> [] -> exists e, r = Err e) ->
    finished self drain
      (head self ++ [KAcquire; KPermit; claim_call self; KClaimed events; KRelease]) r
| fin_claimed events aborted r :
    len events <= slots self -> aborted = [] \/ aborted = [KAbort] ->
    (forall summary, r = Ok summary -> su_claimed summary = len events /\ balanced summary) ->
    finished self drain (head self ++ [KAcquire; KPermit; claim_call self; KClaimed events]
                         ++ map KSpawn events ++ aborted ++ [KRelease]) r.

Lemma spawn_all_spec events l :
  cspec (fun s => logged l s /\ cy_drain s = false) (spawn_all events)
    (fun _ => logged (l ++ map KSpawn events)).
Proof.
  revert l. induction events as [|event events IH]; intros l; cbn [spawn_all map].
  - apply cspec_ret. intros s [Hs _]. by rewrite app_nil_r.
  - intros s [Hs Hd]. pose proof (clog_spec (KSpawn event) l (fun s' => s' = s) I
      ltac:(intros s' ->; split; [exact Hs|congruence]) s eq_refl) as H.
    unfold cbind. cbn [clog] in *. rewrite (cons_middle (KSpawn event) l), app_assoc. by apply IH.
Qed.

Definition total (summary : CycleSummary) : Z := su_settled summary + su_lost summary.

Lemma fold_join_total summary first_error joined summary' first_error' :
  fold_join summary first_error joined = (summary', first_error') ->
  su_claimed summary' = su_claimed summary /\
  (first_error' = None -> first_error = None /\ total summary' = total summary + 1).
Proof.
  unfold fold_join, total. destruct joined as [[[]|e]|]; intros [= <- <-]; cbn; split; try done;
    intros H; try (split; [done|lia]); by destruct first_error.
Qed.

(** Every task is counted, or there is an error. *)
Lemma join_loop_spec watching events tasks summary first_error l :
  cspec (logged l) (join_loop watching events tasks summary first_error)
    (fun '(summary', first_error') s =>
       (exists aborted, (aborted = [] \/ aborted = [KAbort]) /\ logged (l ++ aborted) s) /\
       su_claimed summary' = su_claimed summary /\
       (first_error' = None -> first_error = None /\
          total summary' = total summary + Z.of_nat tasks)).
Proof.
  revert tasks summary first_error. induction events as [|event events IH];
    intros [|tasks] summary first_error; cbn [join_loop].
  1,3: apply cspec_ret; intros s Hs; split_and!; [exists []; rewrite app_nil_r; auto|done|split;
    [done|lia]].
  - by intros s [_ Ht].
  - destruct event as [joined|requested|incomplete_io].
    + destruct (fold_join summary first_error joined) as [summary1 first_error1] eqn:Ef.
      apply fold_join_total in Ef as [Hc Ht]. intros s Hs.
      specialize (IH tasks summary1 first_error1 s Hs).
      destruct (join_loop _ _ _ _ _ s) as [s' [[summary' first_error']|]]; [|done].
      destruct IH as (Ha & Hc' & Ht'). split_and!; [done|congruence|]. intros He.
      destruct (Ht' He) as [He1 Hn]. destruct (Ht He1) as [He0 Hn1]. split; [done|lia].
    + eapply (cspec_bind _ _ (fun _ => logged l)); [by intros s Hs|]. intros ?. apply IH.
    + intros s Hs. destruct (cy_drain s) eqn:Hd; [|by apply IH].
      pose proof (clog_spec KAbort l (logged l) I ltac:(auto) s Hs) as Hl. unfold cbind.
      cbn [clog] in *. split_and!; [exists [KAbort]; split; [by right|exact Hl]|done|].
      cbn [add_lost total su_settled su_lost]. destruct (existsb _ _); intros He;
        [by destruct first_error|]. split; [done|]. unfold total. cbn. lia.
Qed.

Definition finishes (self : Runner) (r : Result CycleSummary DeliveryError) (s : Cycle) : Prop :=
  exists l, logged l s /\ finished self (cy_drain s) l r.

Lemma nothing_Err e : nothing (Err e).
Proof. by intros summary. Qed.

Lemma nothing_zero claimed settled lost reaped :
  claimed = 0 -> settled = 0 -> lost = 0 ->
  nothing (Ok {| su_claimed := claimed; su_settled := settled; su_lost := lost;
                 su_reaped := reaped |}).
Proof. intros -> -> -> summary [= <-]. done. Qed.

Lemma nothing_default : nothing (Ok CycleSummary_default).
Proof. by apply nothing_zero. Qed.

(** Releasing the permit ends the cycle. *)
Lemma release_ends self l (P : bool -> Prop) r :
  (forall drain, P drain -> finished self drain (l ++ [KRelease]) r) ->
  (forall drain e, P drain -> finished self drain (l ++ [KRelease]) (Err e)) ->
  cspec (fun s => logged l s /\ P (cy_drain s)) (try+ _ := release in cret r) (finishes self).
Proof.
  intros Hr He. eapply cspec_bind; [apply release_spec|].
  intros [u|e]; apply cspec_ret; intros s [Hs Hp]; (eexists; split; [exact Hs|]);
    [by apply Hr|by apply He].
Qed.

Lemma release_err self l (P : bool -> Prop) r :
  (forall drain, P drain -> finished self drain (l ++ [KRelease]) r) ->
  cspec (fun s => logged l s /\ P (cy_drain s)) (do+ release in cret r) (finishes self).
Proof.
  intros Hr. eapply cspec_bind; [apply release_spec|]. intros x. apply cspec_ret. intros s [Hs Hp].
  eexists. split; [exact Hs|by apply Hr].
Qed.

Lemma finished_permit self drain r :
  drain = true -> nothing r ->
  finished self drain ((head self ++ [KAcquire; KPermit]) ++ [KRelease]) r.
Proof. rewrite <- app_assoc. apply fin_permit. Qed.

Lemma finished_unclaimed self drain e :
  finished self drain ((head self ++ [KAcquire; KPermit; claim_call self]) ++ [KRelease]) (Err e).
Proof. rewrite <- app_assoc. apply fin_unclaimed. Qed.

Lemma finished_unspawned self drain events r :
  drain = true \/ slots self < len events ->
  nothing r -> (events <> [] -> exists e, r = Err e) ->
  finished self drain
    ((head self ++ [KAcquire; KPermit; claim_call self; KClaimed events]) ++ [KRelease]) r.
Proof. rewrite <- app_assoc. apply fin_unspawned. Qed.

Lemma run_claimed_spec self watching summary claimed :
  len claimed <= slots self -> su_settled summary = 0 -> su_lost summary = 0 ->
  cspec (logged (head self ++ [KAcquire; KPermit; claim_call self; KClaimed claimed]))
    (run_claimed watching summary claimed) (finishes self).
Proof.
  intros Hlen Hs0 Hl0. unfold run_claimed. eapply cspec_bind; [apply shutdown_spec|]. intros [].
  - apply (release_ends _ _ (fun drain => drain = true)); intros drain; [|intros e]; intros Hd;
      apply finished_unspawned; try (by left); [| |apply nothing_Err|by exists e];
      destruct claimed as [|c claimed]; cbn [is_empty];
      [by apply nothing_zero|apply nothing_Err|done|by eexists].
  - eapply cspec_bind; [apply spawn_all_spec|]. intros ?. cbv beta.
    eapply cspec_bind; [apply cturn_spec|]. intros turn. cbv beta.
    eapply cspec_bind; [apply join_loop_spec|]. intros [summary' first_error]. cbv beta iota.
    intros s ((aborted & Ha & Hs) & Hc & Ht). cbn [su_claimed] in Hc.
    revert s Hs. eapply (cspec_pre (fun s => logged _ s /\ True)); [by split|].
    eapply cspec_bind; [apply (release_spec _ (fun _ => True))|]. intros x. apply cspec_ret.
    intros s [Hs _].
    eexists. split; [exact Hs|]. rewrite <- !app_assoc. apply fin_claimed; [done|done|].
    intros summary1 Hr. cbn [fst snd] in Hr.
    assert (first_error = None /\ summary1 = summary') as [-> ->].
    { destruct x; destruct first_error; cbn in Hr; by simplify_eq. }
    destruct (Ht eq_refl) as [_ Htot]. split; [done|]. unfold balanced, total in *.
    cbn [su_settled su_lost] in Htot. rewrite Hc. unfold len. lia.
Qed.

Lemma prefix_head self : head self `prefix_of` head self ++ [KAcquire].
Proof. by apply prefix_app_r. Qed.

Lemma before_ends self l r :
  l `prefix_of` head self ++ [KAcquire] -> nothing r -> cspec (logged l) (cret r) (finishes self).
Proof. intros Hl Hr. apply cspec_ret. intros s Hs. exists l. split; [done|]. by apply fin_before.
  Qed.

Lemma before_err self l k e :
  (l ++ [k]) `prefix_of` head self ++ [KAcquire] ->
  cspec (fun s => logged (l ++ [k]) s \/ (logged l s /\ cy_drain s = true)) (cret (Err e))
    (finishes self).
Proof.
  intros Hl. apply cspec_or; [apply before_ends; [done|apply nothing_Err]|].
  eapply (cspec_pre (logged l)); [by intros s []|]. apply before_ends; [|apply nothing_Err].
  etrans; [|exact Hl]. by apply prefix_app_r.
Qed.

Lemma admit_and_claim_spec self watching summary :
  su_claimed summary = 0 -> su_settled summary = 0 -> su_lost summary = 0 ->
  cspec (logged (head self)) (admit_and_claim self watching summary) (finishes self).
Proof.
  intros Hc Hs0 Hl0.
  assert (nothing (Ok summary)) as Hn by (destruct summary; by apply nothing_zero).
  unfold admit_and_claim. fold (slots self).
  destruct (_ =? 0); [apply before_ends; [apply prefix_head|apply nothing_Err]|].
  destruct (slots self =? 0); [apply before_ends; [apply prefix_head|done]|].
  eapply cspec_bind; [by apply prepare_spec|]. intros [permit|e]; [|by apply before_err].
  destruct permit; cbn [negb]; [|by apply before_ends].
  eapply cspec_bind; [apply (clog_spec _ (head self ++ [KAcquire])); auto; done|].
  intros ?. cbv beta. rewrite <- (app_assoc (head self)). cbn [app].
  eapply cspec_bind; [apply shutdown_spec|]. intros [].
  { apply (release_ends _ _ (fun drain => drain = true)); intros drain; [|intros e]; intros Hd;
      apply finished_permit; done || apply nothing_Err. }
  eapply (cspec_pre (logged _)); [intros s [H _]; exact H|].
  eapply cspec_bind; [by apply prepare_answer|]. fold (claim_call self).
  intros [claimed|e]; cbv beta iota; rewrite <- (app_assoc (head self)); cbn [app].
  - intros s [Hs Ha]. revert s Hs.
    eapply cspec_bind; [apply (clog_spec _ (head self ++ [KAcquire; KPermit; claim_call self]));
      [exact Ha|auto]|].
    intros ?. cbv beta. rewrite <- (app_assoc (head self)). cbn [app].
    destruct (slots self <? len claimed) eqn:Hlt; simp_bool; [|by apply run_claimed_spec].
    eapply (cspec_pre (fun s => logged _ s /\ True)); [by split|].
    apply (release_err _ _ (fun _ => True)). intros drain _.
    apply finished_unspawned; [by right|apply nothing_Err|by eexists].
  - apply cspec_or.
    + eapply (cspec_pre (fun s => logged _ s /\ True)); [by split|].
      apply (release_err _ _ (fun _ => True)). intros drain _. apply finished_unclaimed.
    + apply (release_err _ _ (fun drain => drain = true)). intros drain Hd.
      by apply finished_permit, nothing_Err.
Qed.

Lemma reap_and_claim_spec self watching l :
  l ++ [KReap (dc_reap_batch (rn_config self))] = head self ->
  cspec (logged l) (reap_and_claim self watching) (finishes self).
Proof.
  intros Hl. unfold reap_and_claim. eapply cspec_bind; [by apply prepare_spec|].
  intros [reaped|e]; cbv beta iota; [|apply before_err; rewrite Hl; apply prefix_head].
  rewrite Hl. eapply cspec_bind; [apply shutdown_spec|]. intros [].
  - eapply (cspec_pre (logged _)); [intros s [H _]; exact H|].
    apply before_ends; [apply prefix_head|by apply nothing_zero].
  - eapply (cspec_pre (logged _)); [intros s [H _]; exact H|]. by apply admit_and_claim_spec.
Qed.

Lemma take_snapshot_spec watching l :
  cspec (logged l) (take_snapshot watching)
    (fun failed s => match failed with
                     | None => logged (l ++ [KSnapshot]) s
                     | Some _ => logged (l ++ [KSnapshot]) s \/ (logged l s /\ cy_drain s = true)
                     end).
Proof.
  eapply cspec_bind; [by apply prepare_spec|]. intros [u|e]; cbv beta iota; [by apply cspec_ret|].
  apply cspec_or.
  - eapply cspec_bind; [apply shutdown_spec|]. intros []; apply cspec_ret; intros s [H _]; auto.
  - eapply cspec_bind; [apply shutdown_drained|]. intros requested. apply cspec_ret.
    intros s (H & Hd & ->). auto.
Qed.

(** A check of the signal that ends the cycle without a permit. *)
Lemma check_spec self watching l (k : C (Result CycleSummary DeliveryError)) :
  l `prefix_of` head self ++ [KAcquire] -> cspec (logged l) k (finishes self) ->
  cspec (logged l)
    (let+ requested := shutdown_requested watching in
     if requested then cret (Ok CycleSummary_default) else k) (finishes self).
Proof.
  intros Hl Hk. eapply cspec_bind; [apply shutdown_spec|]. intros [];
    (eapply (cspec_pre (logged _)); [intros s [H _]; exact H|]); [|done].
  apply before_ends; [done|apply nothing_default].
Qed.

Lemma run_cycle_work_spec self watching :
  cspec (logged []) (run_cycle_work self watching) (finishes self).
Proof.
  assert ([KVerify] `prefix_of` head self ++ [KAcquire]) as Hverify by (unfold head; by eexists).
  unfold run_cycle_work. apply check_spec; [apply prefix_nil|].
  eapply cspec_bind; [by apply prepare_spec|].
  intros [u|e]; cbv beta iota; [|by apply (before_err _ [])].
  apply check_spec; [done|]. destruct (rn_observed self) eqn:Ho.
  2: { apply reap_and_claim_spec. unfold head. by rewrite Ho. }
  assert ([KVerify; KSnapshot] ++ [KReap (dc_reap_batch (rn_config self))] = head self) as Hhead
    by (unfold head; by rewrite Ho).
  assert ([KVerify; KSnapshot] `prefix_of` head self ++ [KAcquire]) as Hsnap
    by (rewrite <- Hhead; by eexists).
  eapply cspec_bind; [apply take_snapshot_spec|]. intros [e|]; cbv beta iota.
  - by apply (before_err _ [_]).
  - apply check_spec; [done|]. by apply reap_and_claim_spec.
Qed.

Definition begin_cycle (turns : list CycleTurn) : Cycle :=
  {| cy_turns := turns; cy_drain := false; cy_log := [] |}.

Lemma begin_logged turns :
  turns `suffix_of` script -> logged [] (begin_cycle turns).
Proof. intros Hs. split; [done|]. split; [constructor|]. by split; [|constructor]. Qed.



(** ** Runs

    What a cycle does does not depend on what was logged before it. *)

Definition behind (l : list (bool * CycleCall)) (s : Cycle) : Cycle :=
  {| cy_turns := cy_turns s; cy_drain := cy_drain s; cy_log := l ++ cy_log s |}.

Definition framed {A} (m : C A) : Prop :=
  forall l s, m (behind l s) = (behind l (fst (m s)), snd (m s)).

Lemma framed_bind {A B} (m : C A) (k : A -> C B) :
  framed m -> (forall a, framed (k a)) -> framed (cbind m k).
Proof.
  intros Hm Hk l s. unfold cbind. rewrite Hm. destruct (m s) as [s' [a|]]; [apply Hk|done].
Qed.

Lemma framed_ret {A} (a : A) : framed (cret a).
Proof. done. Qed.
Lemma framed_turn watching : framed (cturn watching).
Proof. intros l s. unfold cturn. cbn. by destruct (cy_turns s). Qed.
Lemma framed_log k : framed (clog k).
Proof. intros l s. unfold clog, behind. cbn. by rewrite app_assoc. Qed.
Lemma framed_shutdown watching : framed (shutdown_requested watching).
Proof. apply framed_bind; [apply framed_turn|done]. Qed.

Ltac framed :=
  repeat (apply framed_shutdown || apply framed_log || apply framed_turn || apply framed_ret
          || apply framed_bind || case_match || intros ?).

Lemma framed_prepare {A} watching k (answer : CycleTurn -> option (Result A DeliveryError)) :
  framed (prepare_operation watching k answer).
Proof. unfold prepare_operation. framed. Qed.

Lemma framed_release : framed release.
Proof. unfold release, cleanup_operation. framed. Qed.

Lemma framed_spawn events : framed (spawn_all events).
Proof. induction events; cbn [spawn_all]; [apply framed_ret|].
  by apply framed_bind; [apply framed_log|]. Qed.

Lemma framed_join watching events tasks summary first_error :
  framed (join_loop watching events tasks summary first_error).
Proof.
  revert tasks summary first_error. induction events as [|event events IH]; intros [|tasks] ??;
    cbn [join_loop]; try apply framed_ret; [by intros l s|].
  destruct event as [joined|requested|flags]; [by case_match| |].
  - apply framed_bind; [by intros l s|]. intros _. apply IH.
  - intros l s. cbn [behind cy_drain]. destruct (cy_drain s); [|apply IH].
    unfold cret, behind. cbn. by rewrite <- app_assoc.
Qed.

Lemma framed_cycle self watching : framed (run_cycle_work self watching).
Proof.
  unfold run_cycle_work, take_snapshot, reap_and_claim, admit_and_claim, run_claimed, ctry.
  repeat (apply framed_prepare || apply framed_release || apply framed_spawn || apply framed_join
          || apply framed_shutdown || apply framed_log || apply framed_turn || apply framed_ret
          || apply framed_bind || case_match || intros ?).
Qed.

(** A cycle of a run: it is one of the script, on the turns that are left when it begins. *)
Definition ran (self : Runner) (l : list CycleCall) (r : Result CycleSummary DeliveryError) : Prop
  :=
  exists turns drain s, turns `suffix_of` script /\
    run_cycle_work self true {| cy_turns := turns; cy_drain := drain; cy_log := [] |} = (s, Some r)
    /\ calls s = l /\ finished self (cy_drain s) l r.

Lemma cycle_in_run self l :
  cspec (logged l) (run_cycle_work self true)
    (fun r s => exists l', logged (l ++ l') s /\ ran self l' r).
Proof.
  intros s (Hl & Ht & Hsuf & Hk).
  set (s0 := {| cy_turns := cy_turns s; cy_drain := cy_drain s; cy_log := [] |}).
  assert (s = behind (cy_log s) s0) as Hs
    by (destruct s; unfold behind, s0; cbn; by rewrite app_nil_r).
  assert (logged [] s0) as H0 by (split; [done|]; split; [constructor|]; by split; [|constructor]).
  rewrite Hs, framed_cycle. pose proof (run_cycle_work_spec self true s0 H0) as H.
  assert (forall s', orderly s' -> orderly (behind (cy_log s) s')) as Ho.
  { intros s' (Ht' & Hsuf' & Hk'). split; [by apply Forall_app|].
    split; [exact Hsuf'|by apply Forall_app]. }
  destruct (run_cycle_work self true s0) as [s' [r|]] eqn:Er; cbn [fst snd]; [|by apply Ho].
  destruct H as (l' & [Hl' Ht'] & Hf). exists l'. split; [split; [|by apply Ho]|].
  - unfold calls in *. cbn [behind cy_log]. by rewrite map_app, Hl, Hl'.
  - by exists (cy_turns s), (cy_drain s), s'.
Qed.

(** One turn of the loop: the free slots, what the cycle called and gave, and the sleep after it. *)
Record Round : Type := {
  rd_free : Z;
  rd_calls : list CycleCall;
  rd_cycle : Result CycleSummary DeliveryError;
  rd_sleep : option Z
}.

Definition round_calls (r : Round) : list CycleCall :=
  rd_calls r ++ match rd_sleep r with Some backoff => [KSleep backoff] | None => [] end.

(** How long a run sleeps between two cycles. *)
Definition sleeps_within (self : Runner) (backoff : Z) : Prop :=
  from_millis 50 <= backoff <= Z.max (dc_poll_interval (rn_config self)) (from_secs 5).

(** The cycle of a round claimed something. *)
Definition busy_round (r : Round) : Prop :=
  exists summary, rd_cycle r = Ok summary /\ 0 < su_claimed summary.

(** The backoff after these rounds: reset by a cycle that succeeded, doubled by an outage. *)
Definition backoff_after (self : Runner) (rounds : list Round) : Z :=
  fold_left (fun backoff r =>
      match rd_cycle r with
      | Ok _ => Z.max (dc_poll_interval (rn_config self)) (from_millis 50)
      | Err _ => Z.min (backoff * 2) (from_secs 5)
      end) rounds (Z.max (dc_poll_interval (rn_config self)) (from_millis 100)).

(** After every one of these rounds the run slept for the backoff, or the round claimed something
    and it did not. *)
Inductive rested (self : Runner) : list Round -> Prop :=
| rested_nil : rested self []
| rested_busy rounds r :
    rested self rounds -> busy_round r -> rd_sleep r = None -> rested self (rounds ++ [r])
| rested_slept rounds r :
    rested self rounds -> ~ busy_round r ->
    rd_sleep r = Some (backoff_after self (rounds ++ [r])) -> rested self (rounds ++ [r]).

(** All of them but the last one, which the end of the run may follow. *)
Definition paced (self : Runner) (rounds : list Round) : Prop :=
  rested self rounds \/
  exists before r, rounds = before ++ [r] /\ rested self before /\ rd_sleep r = None.

(** A round: a finished cycle, which succeeded or whose outcome is unknown, and a sleep of bounded
    length. *)
Definition round_ok (self : Runner) (r : Round) : Prop :=
  ran (with_free (rd_free r) self) (rd_calls r) (rd_cycle r) /\
  (forall e, rd_cycle r = Err e -> e = StoreUnknown) /\
  (forall backoff, rd_sleep r = Some backoff -> sleeps_within self backoff /\
     forall cycle, rd_cycle r = Ok cycle -> su_claimed cycle <= 0).

Definition count_round (summary : RunSummary) (r : Round) : RunSummary :=
  match rd_cycle r with Ok cycle => add_cycle cycle summary | Err _ => add_outage summary end.

Definition rounds_logged (self : Runner) (rounds : list Round) (loop : Loop) (s : Cycle) : Prop :=
  logged (flat_map round_calls rounds) s /\ Forall (round_ok self) rounds /\
  lp_summary loop = fold_left count_round rounds RunSummary_default /\
  lp_backoff loop = backoff_after self rounds /\ sleeps_within self (lp_backoff loop) /\
  (forall e, lp_shutdown_error loop = Some e -> e = StoreUnknown).

(** A run stopped by an error: the last cycle failed with it, and it is not an unknown result. *)
Definition stopped (self : Runner) (e : DeliveryError) (s : Cycle) : Prop :=
  e <> StoreUnknown /\
  exists rounds free l, logged (flat_map round_calls rounds ++ l) s /\
    Forall (round_ok self) rounds /\ rested self rounds /\ ran (with_free free self) l (Err e).

Lemma shutdown_keeps watching (P : Cycle -> Prop) :
  (forall s s', P s -> logged (calls s) s' -> P s') -> (forall s, P s -> orderly s) ->
  cspec P (shutdown_requested watching) (fun requested s => P s /\ cy_drain s = requested).
Proof.
  intros HP Ht s Hs. pose proof (shutdown_spec watching (calls s) s ltac:(split; auto)) as H.
  destruct (shutdown_requested watching s) as [s' [r|]]; [|done].
  destruct H as [Hl Hd]. split; [|done]. by apply (HP s).
Qed.

Lemma rounds_shutdown self rounds loop :
  cspec (rounds_logged self rounds loop) (shutdown_requested true)
    (fun requested s => rounds_logged self rounds loop s /\ cy_drain s = requested).
Proof.
  apply shutdown_keeps; [|by intros s ([_ Ht] & _)].
  intros s s' ([Hl _] & H) [Hc Ho]. split; [|done]. split; [congruence|done].
Qed.

(** The log of the rounds with the cycle that just ran. *)
Definition cycle_logged (self : Runner) (rounds : list Round) (free : Z)
    (cycle : Result CycleSummary DeliveryError) (s : Cycle) : Prop :=
  exists l, logged (flat_map round_calls rounds ++ l) s /\ ran (with_free free self) l cycle.

Definition next_logged (self : Runner) (rounds : list Round) (next : Result (Loop * bool)
  DeliveryError)
    (s : Cycle) : Prop :=
  match next with
  | Err e => stopped self e s
  | Ok (loop, busy) =>
      exists free l cycle,
        let r := {| rd_free := free; rd_calls := l; rd_cycle := cycle; rd_sleep := None |} in
        (busy = true <-> busy_round r) /\ rounds_logged self (rounds ++ [r]) loop s
  end.

Lemma round_calls_snoc rounds free l cycle sleep :
  flat_map round_calls
    (rounds ++ [{| rd_free := free; rd_calls := l; rd_cycle := cycle; rd_sleep := sleep |}])
  = flat_map round_calls rounds ++ l
    ++ match sleep with Some backoff => [KSleep backoff] | None => [] end.
Proof. rewrite flat_map_app. unfold flat_map at 2, round_calls at 2. cbn. by rewrite app_nil_r. Qed.

Lemma round_added self rounds loop free l cycle loop' s :
  Forall (round_ok self) rounds -> lp_summary loop = fold_left count_round rounds
    RunSummary_default ->
  logged (flat_map round_calls rounds ++ l) s -> ran (with_free free self) l cycle ->
  (forall e, cycle = Err e -> e = StoreUnknown) ->
  let r := {| rd_free := free; rd_calls := l; rd_cycle := cycle; rd_sleep := None |} in
  lp_summary loop' = count_round (lp_summary loop) r ->
  lp_backoff loop' = backoff_after self (rounds ++ [r]) -> sleeps_within self (lp_backoff loop') ->
  (forall e, lp_shutdown_error loop' = Some e -> e = StoreUnknown) ->
  rounds_logged self (rounds ++ [r]) loop' s.
Proof.
  intros Hr Hs Hl Hf He r Hs' Hp Hb Hd. subst r. split; [|split; [|split; [|by split]]].
  - by rewrite round_calls_snoc, app_nil_r.
  - apply Forall_app. split; [done|]. constructor; [|constructor]. split_and!; [done|done|].
    by intros backoff.
  - rewrite fold_left_app, <- Hs. exact Hs'.
Qed.

Lemma after_cycle_spec self rounds loop free cycle :
  Forall (round_ok self) rounds -> rested self rounds ->
  lp_summary loop = fold_left count_round rounds RunSummary_default ->
  lp_backoff loop = backoff_after self rounds -> sleeps_within self (lp_backoff loop) ->
  (forall e, lp_shutdown_error loop = Some e -> e = StoreUnknown) ->
  cspec (cycle_logged self rounds free cycle) (after_cycle self cycle loop) (next_logged self
    rounds).
Proof.
  intros Hr Hrest Hs Hp Hb Hd.
  assert (forall e, e <> StoreUnknown -> cspec (cycle_logged self rounds free (Err e))
    (cret (Err e)) (next_logged self rounds)) as Herr.
  { intros e He. apply cspec_ret. intros s (l & Hl & Hf). split; [done|].
    by exists rounds, free, l. }
  destruct cycle as [cycle|[]]; cbn [after_cycle]; [|by apply Herr..|].
  - apply cspec_ret. intros s (l & Hl & Hf). exists free, l, (Ok cycle). split.
    { rewrite Z.ltb_lt. split; [intros Hx; by exists cycle|]. by intros (c & [= <-] & Hx). }
    eapply round_added; try done; cbn [lp_backoff]; unfold sleeps_within, backoff_after.
    + by rewrite fold_left_app.
    + unfold from_millis, from_secs. lia.
  - eapply cspec_bind.
    { apply (shutdown_keeps true (cycle_logged self rounds free (Err StoreUnknown))).
      - intros s s' (l1 & [Hl1 _] & Hf) [Hc Ho]. exists l1. split; [|done].
        split; [congruence|done].
      - by intros s (l & [_ Ht] & _). }
    intros requested. apply cspec_ret. intros s ((l & Hl & Hf) & _).
    exists free, l, (Err StoreUnknown). split; [split; [done|by intros (c & [=] & _)]|].
    eapply round_added; try done.
    + by intros e [= <-].
    + cbn [lp_backoff]. unfold backoff_after in *. by rewrite fold_left_app, Hp.
    + unfold sleeps_within, from_millis, from_secs in *. cbn [lp_backoff]. lia.
    + cbn. destruct requested; [by intros e [= <-]|done].
Qed.

Lemma sleep_spec self rounds loop free l cycle :
  let r sleep := {| rd_free := free; rd_calls := l; rd_cycle := cycle; rd_sleep := sleep |} in
  ~ busy_round (r None) ->
  cspec (fun s => rounds_logged self (rounds ++ [r None]) loop s /\ cy_drain s = false)
    (clog (KSleep (lp_backoff loop)))
    (fun _ => rounds_logged self (rounds ++ [r (Some (lp_backoff loop))]) loop).
Proof.
  intros r Hz s ((Hl & Hr & Hs & Hp & Hb & Hd) & Hdr).
  pose proof (clog_spec (KSleep (lp_backoff loop)) _ (fun s' => s' = s) I
    ltac:(intros s' ->; split; [exact Hl|congruence]) s eq_refl) as H.
  cbn [clog] in *. split; [|split; [|split; [|split; [|done]]]].
  - unfold r in *. rewrite round_calls_snoc, app_nil_r in H. by rewrite round_calls_snoc, app_assoc.
  - apply Forall_app in Hr as [Hr Hr1]. apply Forall_app. split; [done|].
    apply Forall_cons in Hr1 as [(Hf & He & _) _]. constructor; [|constructor].
    split_and!; [done|done|]. intros backoff [= <-]. split; [done|]. intros summary Hc.
    apply Z.nlt_ge. intros Hx. apply Hz. by exists summary.
  - by rewrite fold_left_app in *.
  - unfold backoff_after in *. by rewrite fold_left_app in *.
Qed.

Lemma run_loop_spec self frees rounds loop :
  rested self rounds ->
  cspec (rounds_logged self rounds loop) (run_loop self frees loop)
    (fun r s => match r with
                | Ok loop' => exists rounds', paced self rounds' /\ rounds_logged self rounds'
                  loop' s
                | Err e => stopped self e s
                end).
Proof.
  revert rounds loop. induction frees as [|free frees IH]; intros rounds loop Hrest; cbn [run_loop];
    (eapply cspec_bind; [apply rounds_shutdown|]; intros []);
    try (apply cspec_ret; intros s [H _]; exists rounds; split; [by left|done]).
  { by intros s (([_ Ht] & _) & _). }
  intros s ((Hl & Hr & Hs & Hp & Hb & Hd) & _). revert s Hl.
  eapply cspec_bind; [apply cycle_in_run|]. intros cycle. cbv beta.
  eapply cspec_bind; [by apply (after_cycle_spec self rounds loop free cycle)|].
  intros [[loop1 busy]|e]; cbn [next_logged fst snd]; [|by apply cspec_ret].
  intros s (free1 & l & cycle1 & Hz & H). revert s H.
  eapply cspec_bind; [apply rounds_shutdown|]. intros [].
  { apply cspec_ret. intros s [H _]. eexists. split; [|exact H]. right. by eexists _, _. }
  destruct busy.
  { eapply cspec_pre; [|apply IH]; [by intros s [H _]|]. apply rested_busy; [done| |done].
    by apply Hz. }
  assert (~ busy_round {| rd_free := free1; rd_calls := l; rd_cycle := cycle1; rd_sleep := None |})
    as Hidle by (rewrite <- Hz; done).
  eapply cspec_bind; [by apply sleep_spec|]. intros ?. cbv beta.
  match goal with |- cspec (rounds_logged self ?rs loop1) _ _ =>
    eapply (cspec_pre (fun s => rested self rs /\ rounds_logged self rs loop1 s)) end.
  { intros s H. split; [|done]. apply rested_slept; [done|exact Hidle|].
    cbn [rd_sleep]. f_equal. apply H. }
  intros s [Hrest1 H]. revert s H. eapply cspec_bind; [apply rounds_shutdown|]. intros [].
  - apply cspec_ret. intros s [H _]. eexists. split; [|exact H]. by left.
  - eapply cspec_pre; [|apply IH]; [by intros s [H _]|done].
Qed.

(** C10: A run of the runner until its shutdown, whatever is answered and whenever the shutdown
    comes, unless the timeout around the worker cuts it, which makes it an unknown result: it is a
    sequence of finished cycles; after a cycle that claimed nothing and after an outage the next one
    begins only after a sleep, for a backoff of bounded length that a success resets and an outage
    doubles, and after one that claimed it begins at once; a cycle that fails with anything but an
    unknown result ends the run with its error, any other run ends with one call of the reaper, and
    its error is an unknown result or the one that call was answered with; and when it succeeds its
    summary is the sum over its cycles and that call.  After the drain has started a run begins no
    further work, also one that is cut. *)
Theorem run_sound self frees :
  let (s, r) := run_until_shutdown self frees (begin_cycle script) in
  let final := KFinalReap (dc_reap_batch (rn_config self)) in
  tidy s /\
  match r with
  | Ok summary => exists rounds reaped,
      calls s = flat_map round_calls rounds ++ [final] /\
      Forall (round_ok self) rounds /\ paced self rounds /\ answers ct_count (Ok reaped) /\
      summary = add_reaped reaped (fold_left count_round rounds RunSummary_default)
  | Err e =>
      (e = StoreUnknown /\ snd (run_until_shutdown_inner self frees (begin_cycle script)) = None) \/
      stopped self e s \/
      exists rounds, calls s = flat_map round_calls rounds ++ [final] /\
        Forall (round_ok self) rounds /\ paced self rounds /\
        (e = StoreUnknown \/ answers ct_count (Err e))
  end.
Proof.
  assert (rounds_logged self [] (first_loop self) (begin_cycle script)) as H0.
  { split; [by apply begin_logged|]. split_and!; [constructor|done|done| |done].
    unfold sleeps_within, first_loop, from_millis, from_secs. cbn [lp_backoff]. lia. }
  pose proof (run_loop_spec self frees [] (first_loop self) (rested_nil self) _ H0) as H.
  unfold run_until_shutdown, run_until_shutdown_inner, ctry, cbind.
  destruct (run_loop self frees (first_loop self) (begin_cycle script)) as [s [[loop|e]|]];
    cbv zeta.
  2: { pose proof H as (_ & rounds & free & l & [_ Ht] & _). split; [apply Ht|]. right. by left. }
  2: { split; [apply H|by left]. }
  destruct H as (rounds & Hpaced & Hl & Hr & Hs & _ & _ & Hd).
  pose proof (cleanup_spec (KFinalReap (dc_reap_batch (rn_config self))) ct_count _ I eq_refl s Hl)
    as Hc.
  destruct (cleanup_operation _ _ s) as [s1 [[reaped|e]|]]; cbn [cret];
    [| |split; [apply Hc|by left]]; destruct Hc as [[Hc Ht] Ha]; (split; [apply Ht|]).
  - destruct (lp_shutdown_error loop) as [e|] eqn:Ee.
    + right; right. exists rounds. split_and!; [done..|left; by apply Hd].
    + exists rounds, reaped. rewrite <- Hs. destruct Ha as [Ha|Ha]; [done|]. by split_and!.
  - right; right. exists rounds. split_and!; [done..|]. destruct Ha as [[= ->]|Ha]; auto.
Qed.
End Script.

(** ** Abandoned tasks *)

Lemma elapsed_flags watching flags events tasks summary s s' summary' :
  cy_drain s = true ->
  join_loop watching (JElapsed flags :: events) (S tasks) summary None s = (s', Some (summary',
    None)) ->
  su_lost summary' = su_lost summary + Z.of_nat (S tasks) /\
  Forall (fun flag => flag = false) (take (S tasks) flags).
Proof.
  intros Hd. cbn [join_loop]. rewrite Hd. unfold cbind, cret. cbn [clog].
  destruct (existsb id (take (S tasks) flags)) eqn:E; [done|]. intros [= <- <-]. split; [done|].
  apply Forall_forall. intros flag Hf. apply not_true_iff_false. intros ->.
  apply not_true_iff_false in E. apply E, existsb_exists. exists true. split; [|done].
  by apply list_elem_of_In.
Qed.

(** A cycle that gives its tasks up at the drain deadline and still succeeds has lost nothing
    it does not know of: when the loop over the tasks ends without an error although some were
    aborted, then every aborted task is counted as lost, never began to settle its claim, and had
    an answer to each call it made to the store or the permit, wherever its run was cut. *)
Theorem abandoned_cycle_certain watching tasks flags events summary s s' summary' :
  tasks <> [] -> cy_drain s = true ->
  Forall2 (fun '(c, turns) flag =>
    exists l, (flag, l) ∈ ts_reads (fst (process_claim c (start turns)))) tasks flags ->
  join_loop watching (JElapsed flags :: events) (length tasks) summary None s
    = (s', Some (summary', None)) ->
  su_lost summary' = su_lost summary + len tasks /\
  Forall (fun '(c, turns) =>
    Forall (fun e => is_settle e = false) (ts_log (fst (process_claim c (start turns)))) /\
    exists l more, ts_log (fst (process_claim c (start turns))) = l ++ more /\ all_answered l /\
      Forall (fun e => dependency e = false) more) tasks.
Proof.
  intros Hne Hd Hf Hj. destruct tasks as [|task rest]; [done|]. cbn [length] in Hj.
  apply elapsed_flags in Hj as [Hl Hflags]; [|done]. split; [exact Hl|].
  rewrite take_ge in Hflags by (rewrite <- (Forall2_length _ _ _ Hf); done).
  clear -Hf Hflags. induction Hf as [|[c turns] flag ? ? (l & Hr) _ IH]; constructor.
  - apply Forall_cons in Hflags as [-> _]. pose proof (abandoned_task_certain c turns l) as H.
    destruct (process_claim c (start turns)) as [t out]. destruct H as [H _]. cbn [fst] in *.
    destruct (H Hr) as (Ha & Hs & more & Hlog & Hm). split; [done|]. by exists l, more.
  - apply IH. by apply Forall_cons in Hflags as [_ ?].
Qed.

(** ** The loop ends

    Fuel beyond the length of the script changes nothing. *)

Definition shrinks {A} (m : T A) : Prop :=
  forall s, (length (ts_turns (fst (m s))) <= length (ts_turns s))%nat.

Lemma shrinks_bind {A B} (m : T A) (k : A -> T B) :
  shrinks m -> (forall a, shrinks (k a)) -> shrinks (bind m k).
Proof.
  intros Hm Hk s. specialize (Hm s). unfold bind.
  destruct (m s) as [s' [a| | |]]; cbn in *; try lia.
  specialize (Hk a s'). lia.
Qed.

Lemma shrinks_ret {A} (a : A) : shrinks (ret a).
Proof. by intros s. Qed.
Lemma shrinks_log event : shrinks (log event).
Proof. by intros s. Qed.
Lemma shrinks_turn : shrinks take_turn.
Proof. intros s. unfold take_turn. destruct (ts_turns s) eqn:E; cbn; rewrite ?E; cbn; lia. Qed.
Lemma shrinks_store_io io : shrinks (store_io io).
Proof. apply shrinks_bind; [apply shrinks_turn|]. by intros turn s. Qed.
Lemma shrinks_load : shrinks load_cancel.
Proof. apply shrinks_bind; [apply shrinks_turn|]. by intros turn s. Qed.

Lemma shrinks_call x : shrinks (call x).
Proof.
  unfold call. apply shrinks_bind; [apply shrinks_turn|]. intros _.
  apply shrinks_bind; [apply shrinks_log|]. intros _. apply shrinks_bind; [apply shrinks_turn|].
  intros turn. destruct (tn_await turn); (apply shrinks_bind; [apply shrinks_log|intros _]);
    [apply shrinks_ret|by intros s..].
Qed.

Lemma shrinks_renewal id token lease : shrinks (bounded (renewal id token lease)).
Proof.
  assert (shrinks (renewal id token lease)) as H.
  { unfold renewal, try_bind.
    repeat (apply shrinks_call || apply shrinks_load || apply shrinks_ret || apply shrinks_bind
            || case_match || intros ?). }
  intros s. specialize (H s). unfold bounded. by destruct (renewal _ _ _ s) as [s' [a| | |]].
Qed.

Lemma bind_turn {B} (k : Turn -> T B) s :
  bind take_turn k s =
  match ts_turns s with
  | [] => (s, Dropped)
  | turn :: turns => k turn (parent_moves turn turns s)
  end.
Proof. unfold bind, take_turn. by destruct (ts_turns s). Qed.

Lemma deliver_loop_fuel n m id token lease s :
  (length (ts_turns s) < n)%nat -> (length (ts_turns s) < m)%nat ->
  deliver_loop n id token lease s = deliver_loop m id token lease s.
Proof.
  revert m s. induction n as [|n IH]; intros [|m] s Hn Hm; try lia. cbn [deliver_loop].
  rewrite !bind_turn.
  destruct (ts_turns s) as [|turn turns] eqn:Et; [done|]. cbn [length] in *.
  destruct (tn_event turn); [done|done|].
  set (s1 := parent_moves turn turns s).
  assert (length (ts_turns s1) = length turns) as Hs1 by done.
  assert (forall A (x : T A) k k' s0, shrinks x -> (length (ts_turns s0) <= length turns)%nat ->
    (forall a s2, (length (ts_turns s2) <= length turns)%nat -> k a s2 = k' a s2) ->
    bind x k s0 = bind x k' s0 :> Task * Out (DeliveryDecision + Result ClaimOutcome DeliveryError))
    as Hext.
  { intros A x k k' s0 Hx H0 Hk. unfold bind. specialize (Hx s0).
    destruct (x s0) as [s2 [a| | |]]; [apply Hk; cbn in *; lia|done..]. }
  apply Hext; [apply shrinks_store_io|lia|]. intros ? s2 H2.
  apply Hext; [apply shrinks_load|lia|]. intros [] s3 H3; [done|].
  apply Hext; [apply shrinks_renewal|lia|]. intros [[]|e] s4 H4; try done.
  apply Hext; [apply shrinks_store_io|lia|]. intros ? s5 H5.
  apply Hext; [apply shrinks_load|lia|]. intros [] s6 H6; [done|]. apply IH; lia.
Qed.

(** A turn in which nothing goes wrong and the handler, once it runs, decides. *)
Definition calm_turn (d : DeliveryDecision) : Turn :=
  {| tn_cancel := false; tn_read := false; tn_late := false; tn_await := Answered;
     tn_fence := Ok Updated; tn_trace := Ok None; tn_event := LDecision d |}.

(** An undisturbed delivery settles: when the store and the permit answer as current, in time
    and without a cancellation, a claim whose handler decides is settled by its decision. *)
Lemma undisturbed_claim_settles c d n :
  snd (process_claim c (start (replicate (60 + n) (calm_turn d)))) = Done (Ok Settled).
Proof. destruct c as [ev cfg [] b u1 u2]; vm_compute; reflexivity. Qed.
End Runner.

(** ** Concrete runs *)

Module OutboxToy.
(** No floating-point numbers occur; the digest keeps the last 32 bytes. *)
#[local] Instance floats : Floats :=
  {| f64 := Empty_set; f64_eqb := fun _ _ => false; f64_to_string := fun _ => "" |}.
#[local] Instance digest : Digest :=
  {| sha256 := fun l => fun_to_vec (fun i => default (ascii_of_N 0) (rev l !! (fin_to_nat i))) |}.

Definition event (id : Uuid) (occurred_at : Z) : DeliveryEnvelope :=
  {| de_event_id := id; de_event_type := "document.created"; de_aggregate_type := "document";
     de_aggregate_id := 100%N; de_payload := VNull; de_occurred_at := occurred_at |}.

(** Two new events under the default policy, and the lease of the default configuration. *)
Definition db : Db :=
  {| db_policy := Some DeliveryPolicy_default;
     db_rows := [new_row (event 1%N 10) 10 None None; new_row (event 2%N 5) 20 None None] |}.
Definition lease : Z := dc_lease_duration DeliveryConfig_default.
Definition claim_one (t : Z) (token owner : Uuid) : Op :=
  OClaim DeliveryPolicy_default (fun _ => false) (fun _ => token) t owner 1 lease Reported.
Definition renew_one (t : Z) (token : Uuid) : Op :=
  ORenew DeliveryPolicy_default t 1%N token lease Reported.

Lemma db_valid : db_ok db.
Proof.
  split; [by apply (bool_decide_unpack (NoDup (ids db)))|].
  apply Forall_cons. split; [|apply Forall_cons; split; [|apply Forall_nil; exact I]];
    (split; cbn; [by left|by left|done|lia|done|by intros ([? [=]] & _)|done]).
Defined.

(** The lease of the first worker ends without a heartbeat; a second one claims the event, and
    the first comes back. *)
Definition taken : Db := fst (step db (claim_one 100 7%N 8%N)).
Definition late : Z := 100 + millis 120000.

Lemma taken_valid : db_ok taken.
Proof. apply step_ok, db_valid. Defined.

Lemma superseded_lease_powerless_witness :
  let db1 := fst (steps (fst (step taken (claim_one late 9%N 10%N))) [claim_one late 11%N 8%N]) in
  fst (step db1 (renew_one late 7%N)) = db1 /\
  snd (step db1 (renew_one late 7%N)) <> RFence (Ok Updated).
Proof.
  refine (superseded_lease_powerless taken (claim_one late 9%N 10%N) [claim_one late 11%N 8%N]
    (renew_one late 7%N) 1%N 7%N taken_valid _ _ _).
  - eexists. split; [vm_compute; apply list_elem_of_here|]. vm_compute. discriminate.
  - apply Forall_cons. split; [discriminate|]. apply Forall_nil. exact I.
  - split; reflexivity.
Defined.

(** The event is delivered; the worker comes back and a claim is made. *)
Definition delivered_event : Row := delivered_row 200 (claimed_row 100 8 120000 8%N (fun _ => 7%N)
  (new_row (event 1%N 10) 10 None None)).
Definition after : Db := fst (step taken (OSettleSuccess 200 1%N 7%N Reported)).

Lemma settled_is_final_witness :
  let db1 := fst (steps after [renew_one 300 7%N; claim_one late 9%N 10%N]) in
  delivered_event ∈ db_rows db1 /\
  ~ acts_on (row_id delivered_event) (renew_one late 7%N) (snd (step db1 (renew_one late 7%N))).
Proof.
  refine (settled_is_final after [renew_one 300 7%N; claim_one late 9%N 10%N] (renew_one late 7%N)
    delivered_event _ _ _).
  - apply step_ok, taken_valid.
  - vm_compute. apply list_elem_of_here.
  - reflexivity.
Defined.

(** Two workers claim the event one after the other. *)
Definition two_claims : list Op := [claim_one 100 7%N 8%N; claim_one late 9%N 10%N].

Lemma claims_numbered_witness :
  map ce_attempt (claims 1%N (snd (steps db two_claims))) = [1; 2] /\
  StronglySorted (fun a b => ce_attempt a < ce_attempt b /\
                             ce_attempt_limit a = ce_attempt_limit b)
    (claims 1%N (snd (steps db two_claims))).
Proof.
  split; [vm_compute; reflexivity|].
  exact (proj1 (claims_numbered db two_claims 1%N db_valid)).
Defined.

(** A table with a row from before limits were pinned, that used up the eight attempts. *)
Definition old_row : Row :=
  {| ob_envelope := event 2%N 5; ob_available_at := 20; ob_attempt_count := 8;
     ob_attempt_limit := None; ob_delivered_at := None; ob_dead_lettered_at := None;
     ob_lease_token := None; ob_lease_owner := None; ob_lease_expires_at := None;
     ob_last_attempt_at := None; ob_last_error_code := None; ob_traceparent := None;
     ob_tracestate := None |}.
Definition old_db : Db :=
  {| db_policy := Some DeliveryPolicy_default;
     db_rows := [new_row (event 1%N 10) 10 None None; old_row] |}.

Lemma old_db_valid : db_ok old_db.
Proof.
  split; [by apply (bool_decide_unpack (NoDup (ids old_db)))|].
  apply Forall_cons. split; [|apply Forall_cons; split; [|apply Forall_nil; exact I]];
    (split; cbn; [by left|by left|done|lia|done|by intros ([? [=]] & _)|done]).
Defined.

(** The event of the first table goes on; in the second one the old row is reported. *)
Lemma due_event_progresses_witness :
  ((exists x, snd (claim DeliveryPolicy_default (fun _ => false) (fun _ => 7%N) 100 8%N 1 lease
                    Reported db) = Ok [x]) \/
   snd (reap_exhausted DeliveryPolicy_default (fun _ => false) 100 1 Reported db) = Ok 1) /\
  claim DeliveryPolicy_default (fun _ => false) (fun _ => 7%N) 100 8%N 1 lease Reported old_db
  = (old_db, Err (LegacyExhausted 1 [2%N])).
Proof.
  pose proof (fun d Hd Hp Hr =>
    due_event_progresses DeliveryPolicy_default 100 8%N (fun _ => 7%N) lease 120000
      d (new_row (event 1%N 10) 10 None None) Hd eq_refl Hp eq_refl Hr eq_refl
      (ltac:(vm_compute; discriminate)) eq_refl) as H.
  split.
  - exact (proj2 (H db db_valid eq_refl (list_elem_of_here _ _))).
  - exact (proj1 (proj2 (H old_db old_db_valid eq_refl (list_elem_of_here _ _)) (fun _ => false))).
Defined.

Lemma retry_schedule_sound_witness :
  retry_delay_within 1%N 3 (backoff_bounds DeliveryPolicy_default)
  <= retry_delay_within 1%N 4 (backoff_bounds DeliveryPolicy_default).
Proof.
  refine (proj2 (proj2 (proj2 (retry_schedule_sound 1%N 3 4 _ _))) _ _);
    vm_compute; discriminate.
Defined.

(** A task that waits for its handler when the drain deadline passes. *)
Definition waiting : Claim :=
  {| cl_event := claimed_event 100 8 120000 8%N (fun _ => 7%N) (new_row (event 1%N 10) 10 None
    None);
     cl_config := DeliveryConfig_default; cl_observed := false;
     cl_backoff_bounds := backoff_bounds DeliveryPolicy_default;
     cl_trace_uuid := 21%N; cl_span_uuid := 22%N |}.
Definition cancelled_turn : Turn :=
  {| tn_cancel := true; tn_read := true; tn_late := false; tn_await := Answered;
     tn_fence := Ok Updated; tn_trace := Ok None; tn_event := LTick |}.
Definition script : list Turn := replicate 17 (calm_turn DApplied) ++ [cancelled_turn].
Definition draining : Cycle := {| cy_turns := []; cy_drain := true; cy_log := [] |}.

Lemma abandoned_cycle_certain_witness :
  su_lost (add_lost 1 CycleSummary_default) = su_lost CycleSummary_default + 1 /\
  Forall (fun '(c, turns) =>
    Forall (fun e => is_settle e = false) (ts_log (fst (process_claim c (start turns)))) /\
    exists l more, ts_log (fst (process_claim c (start turns))) = l ++ more /\ all_answered l /\
      Forall (fun e => dependency e = false) more) [(waiting, script)].
Proof.
  refine (abandoned_cycle_certain true [(waiting, script)] [false] [] CycleSummary_default draining
    (fst (clog KAbort draining)) (add_lost 1 CycleSummary_default) _ _ _ _).
  - discriminate.
  - reflexivity.
  - apply Forall2_cons. split; [|apply Forall2_nil; exact I].
    exists (take 7 (ts_log (fst (process_claim waiting (start script))))).
    vm_compute. apply list_elem_of_here.
  - vm_compute. reflexivity.
Defined.
End OutboxToy.
